(* ===== verification/_CoqProject ===== *)
-Q . S2P
Prelude.v
StateM.v
Klib.v
Printf.v
Validate.v
Ring.v
Klog.v
Pipe.v
Crc32.v
Initfs.v
Blkdev.v
Devfs.v
Part.v
VfsPath.v
Vfs.v
VfsSpec.v
Sched.v
SchedSpec.v
Sync.v
Pmm.v
Heap.v
Tmpfs.v
TmpfsSpec.v
UnixSock.v
UnixSockSpec.v
UnixSockSafe.v
UnixSockTrace.v
PageCache.v
PageCacheSpec.v
PageCacheVol.v
PageCacheCoh.v
PageCacheTrace.v
Fd.v
FdSpec.v
FdCalls.v
FdTrace.v
FdAuth.v
TmpfsVfs.v
FdTmpfs.v
Vmm.v
Swap.v
PageFault.v
VmmSpec.v
VmmOps.v
VmmFork.v
VmmTrace.v
VmmBoot.v
Memfd.v
Mmap.v
MmapSpec.v
MmapOps.v
MmapUnmap.v
SwapSpec.v
VmRuns.v
