(* ===== verification/Prelude.v ===== *)
(** * CactKernel: a verification development

    CactKernel (the directory [Cact/] of the repository) is a 32-bit x86
    kernel: C for the drivers, file systems and system calls, and Rust crates
    for memory management, scheduling, locks, networking and cryptography.
    This library translates a large part of it into executable Rocq
    definitions and proves what makes each part correct.

    ** The program and its model

    Each source file below is modelled by the file named beside it; a
    definition has the name of the function it translates, and the helpers
    beside it are loops or branches of that function.

    - [kernel/core/klib.c] - [Klib.v] (strings, numbers, memory) and [Printf.v]
      ([vsnprintf], [snprintf]).  Every other part uses them.
    - [kernel/core/klog.c] - [Klog.v]: the message ring behind /dev/kmsg.
    - [kernel/core/syscall/validate.c] - [Validate.v]: pointers and copies
      across the user boundary, used by the socket and descriptor calls.
    - [fs/pipe/pipe.c] - [Pipe.v]: anonymous pipes and FIFOs.
    - [drivers/initfs/initfs_modblob.c] - [Crc32.v], [Initfs.v]: the boot
      archive of modules.
    - [drivers/block/blkdev/blkdev.c] - [Blkdev.v]: the table of disks and
      partitions; [part.c] - [Part.v]: labels, partition nodes and byte access,
      on top of [Blkdev.v] and of the node registry [Devfs.v]
      ([fs/vfs/devfs/devfs.c]).
    - [fs/vfs/vfs_file.c] - [VfsPath.v]: paths; [vfs.c], [vfs_ops.c] - [Vfs.v],
      [VfsSpec.v]: mounts, walks, links, permissions and the dispatch to file
      systems; [fs/vfs/tmpfs/tmpfs.c] - [Tmpfs.v], [TmpfsSpec.v]: a file system.
    - [kernel/core/syscall/sock/unix_sock.c] - [UnixSock.v], [UnixSockSpec.v],
      [UnixSockSafe.v], [UnixSockTrace.v]: AF_UNIX sockets.
    - [kernel/proc/sched/src] ([mlfq.rs], [task.rs], [timer_wheel.rs],
      [task_signal.rs], and exit, wait and reaping of [task_fork.rs]) -
      [Sched.v], [SchedSpec.v]: the scheduler.
    - [kernel/sync/src] - [Sync.v]: spinlock, mutex, semaphore.
    - [kernel/memory/rust_mm/src/pmm.rs] - [Pmm.v]: physical pages;
      [alloc/heap.rs] - [Heap.v]: the kernel heap, in the window [Pmm.v]
      reserves.
    - [drivers/block/pagecache/pagecache.c] - [PageCache.v]: the block cache
      over [Blkdev.v]; [PageCacheSpec.v] its linked structures,
      [PageCacheVol.v] devices as arrays of sectors, [PageCacheCoh.v] and
      [PageCacheTrace.v] the agreement of cache and disk.
    - [kernel/core/syscall/io] ([fd.c], [fd_mux.c]), the open files of
      [fs/vfs/vfs_file.c], and what fork, exec and reaping do to descriptors -
      [Fd.v]; [FdSpec.v] its invariant over the contract [VfsContract] of the
      VFS, [FdCalls.v] and [FdTrace.v] that every call keeps it, [FdAuth.v]
      permissions.  [TmpfsVfs.v] proves the contract for tmpfs as the root
      file system with symbolic links mounted in it, so that the theorems hold
      of the whole stack; [FdTmpfs.v] evaluates runs of that stack.
    - [kernel/memory/rust_mm/src/vmm] ([paging.rs], [cow.rs]) and
      [fault/page_fault_map.rs] - [Vmm.v]: page tables, address spaces, fork;
      [fault/swap.rs] - [Swap.v]; [fault/page_fault.rs] - [PageFault.v].
      [VmmSpec.v] holds the invariant that ties reference counts to page
      tables, [VmmOps.v] and [VmmFork.v] prove the operations, [VmmTrace.v]
      the processor's accesses with the fault handler behind them and whole
      runs, [VmmBoot.v] paging at boot and a concrete machine, [SwapSpec.v] the
      swap area.
    - [process/memfd.rs] - [Memfd.v]: memory files; [vmm/mmap.rs],
      [vmm/mmap_clone.rs] - [Mmap.v]: mappings, with [MmapSpec.v] (ranges),
      [MmapOps.v] (mapping) and [MmapUnmap.v] (unmapping); [VmRuns.v] runs them
      on the machine of [VmmBoot.v].
    [Prelude.v] (this file) holds the machine integers, byte objects and the
    tactics and lemmas all files share, [Ring.v] the theory of circular
    buffers used by the log, the pipe and the sockets, [StateM.v] the state
    and failure monad of the code that works through pointers.

    ** How the code is translated

    A w-bit integer is a [Z] kept in range by an explicit reduction ([u8],
    [u32], [i32], ...) wherever the C or Rust operation wraps; the scheduler
    crate is built with overflow checks, so there an overflow is a failure.
    An object in memory is a list of its bytes (or, for the heap, a word
    memory), and [ld] and [st] have no result outside it; structures reached
    through pointers live in maps by address, and using a freed or null
    address has no result.  A theorem that a call returns therefore also says
    that it stays in bounds and uses no freed object.  Error codes are
    returned as the code returns them.  Results of [kmalloc] and of other
    code outside a component are arguments (0 is the null pointer).  A call
    that blocks is split into the rounds between its calls of [schedule]; the
    theorems quantify over the interleaving of rounds.  Disks
    ([Blkdev.DiskDriver]), file system methods ([Vfs.vops]), what the VFS
    promises to the descriptor calls ([FdSpec.VfsContract]), page reclaim
    ([Pmm.Reclaim]), the out-of-memory killer ([Swap.OomKill]), the addresses
    of the kernel's page tables ([Vmm.KernelImage]), sectors of the swap device
    ([dev_ok]) and files behind mappings ([Mmap.MmapFiles]) are classes or
    parameters, with stated laws where the code relies on them, each with a
    concrete instance that the witnesses use.

    ** What is shown

    - Refinement: every process has a memory of its own although fork shares
      frames ([VmmTrace.cow_transparent]); the log, the pipe, the mount table,
      tmpfs files and directories, the page cache, memory files, the swap area,
      the heap and the socket stream behave like
      the list, map, array or queue they implement, for every sequence of
      calls, and pipe and socket also under every interleaving of readers and
      writers.
    - Safety: heap allocations are disjoint and keep their contents; a page
      has one owner, and every frame of an address space is counted exactly
      ([VmmSpec.vm_ok]); no sequence of descriptor, socket, tmpfs or pipe calls
      uses a freed object, and reference counts are exact; user pointer checks
      accept exactly user ranges; a partition write changes only its bytes; a
      directory is changed only by who may.
    - Invariants over all reachable states: scheduler queues, block device
      table, partition scan, mutex and spinlock exclusion, page bitmap.
    - Exact behaviour of single calls: [schedule], [kalloc], [kmalloc],
      boot paging, anonymous [do_mmap], [do_munmap],
      path canonicalisation, walks, permission check, archive lookup.
    - Equivalence and round trips: table-driven CRC against the bit-serial
      one, [itoa]/[atoi], log print/read, [kmalloc]/[kfree].
    - Termination and liveness: link resolution, pipe calls, priority boost
      within 50 ticks.
    - Where the code goes wrong: theorems that exhibit the failing runs
      (sleeping twice, mutex hand-over, files left open by fork, permissions
      that are not checked, fork and [mprotect] undoing page protection, ...).

    ** Fuel

    Loops over linked structures carry fuel.  The fuel is a bound the code
    itself has (array sizes, the length of a list plus one, the depth 4 of
    [ep_destroy] calls, eight links in a path, pages of an address range,
    one more than the regions of a process), and the theorems prove that
    the result exists, so the bound is never reached.

    ** Not modelled

    The out-of-memory killer and shared memory segments ([rust_mm/src/fault]
    [oom.rs], [process/shm.rs], [shm_api.rs], [proc_mm.rs]), process images
    ([task_exec.rs], [task_create.rs]), the slab allocator and the ELF loader
    are not translated; the killer is the interface [Swap.OomKill].
    Translation caches and the accessed bit the processor sets are not
    modelled.  The theorems on address spaces assume enough free pages
    ([avail]), so that no page is evicted under them, and are about pages of
    one process or shared by copy on write; writable pages shared between
    processes (shared mappings of memory files) are outside [vm_ok].  Device drivers (PCI,
    USB, ACPI, input, video), processor tables and assembly: port and register
    access.  The network stack and the crypto crates wrap third-party crates
    that are not part of the sources.  The remaining file systems (binfs,
    sbinfs, libfs, usrfs, etcfs, varfs, mntfs, procfs) are instances of the
    method interface of [Vfs.v].  Interrupts and preemption inside a critical
    section are not modelled; locks make the sections atomic.

    ** Plan

    Next: [mmap_table_clone] in the runs of [VmmTrace.v], shared memory segments,
    the slab allocator over [Pmm.v], the ELF loader. *)
From stdpp Require Export base tactics numbers list list_numbers gmap option.
From Stdlib Require Export ZifyBool.

#[local] Open Scope Z_scope.

(** ** Machine integers

    A w-bit unsigned C integer is the [Z] in [0, 2^w); every C operation that
    can leave the range is followed by the reduction its type performs.
    Signed 32-bit arithmetic is two's complement, as the i686 target
    computes it. *)

Definition u8 (x : Z) : Z := x mod 2 ^ 8.
Definition u16 (x : Z) : Z := x mod 2 ^ 16.
Definition u32 (x : Z) : Z := x mod 2 ^ 32.
Definition u64 (x : Z) : Z := x mod 2 ^ 64.
Definition i32 (x : Z) : Z := (x + 2 ^ 31) mod 2 ^ 32 - 2 ^ 31.

(** [char] is signed on this target: the value a byte has in a comparison. *)
Definition schar (b : Z) : Z := (b + 2 ^ 7) mod 2 ^ 8 - 2 ^ 7.

Definition is_u8 (x : Z) : Prop := 0 <= x < 2 ^ 8.
Definition is_u32 (x : Z) : Prop := 0 <= x < 2 ^ 32.
Definition is_u64 (x : Z) : Prop := 0 <= x < 2 ^ 64.
Definition is_i32 (x : Z) : Prop := - 2 ^ 31 <= x < 2 ^ 31.

Declare Scope c_scope.
Delimit Scope c_scope with C.
Notation "a +u b" := (u32 (a + b)) (at level 50, left associativity) : c_scope.
Notation "a -u b" := (u32 (a - b)) (at level 50, left associativity) : c_scope.
Notation "a *u b" := (u32 (a * b)) (at level 40, left associativity) : c_scope.

Create HintDb cint.
#[export] Hint Unfold u8 u16 u32 u64 i32 schar is_u8 is_u32 is_u64 is_i32 : cint.

(** Arithmetic at fixed widths: expose the reductions, turn every [mod] and
    [/] into its Euclidean equations and decide. *)
Ltac word_lia :=
  autounfold with cint in *;
  change (2 ^ 8) with 256 in *;
  change (2 ^ 7) with 128 in *;
  change (2 ^ 16) with 65536 in *;
  change (2 ^ 32) with 4294967296 in *;
  change (2 ^ 31) with 2147483648 in *;
  change (2 ^ 64) with 18446744073709551616 in *;
  Z.to_euclidean_division_equations; lia.

(** Turn boolean comparisons of hypotheses and goal into propositions. *)
Ltac b2p :=
  repeat match goal with
  | H : _ && _ = true |- _ => apply andb_true_iff in H as [? ?]
  | H : _ || _ = false |- _ => apply orb_false_iff in H as [? ?]
  | H : negb _ = true |- _ => apply negb_true_iff in H
  | H : negb _ = false |- _ => apply negb_false_iff in H
  | H : (_ =? _) = true |- _ => apply Z.eqb_eq in H
  | H : (_ =? _) = false |- _ => apply Z.eqb_neq in H
  | H : (_ <? _) = true |- _ => apply Z.ltb_lt in H
  | H : (_ <? _) = false |- _ => apply Z.ltb_ge in H
  | H : (_ <=? _) = true |- _ => apply Z.leb_le in H
  | H : (_ <=? _) = false |- _ => apply Z.leb_gt in H
  end.

(** Case analysis on the conditions of the goal's conditionals. *)
Ltac case_if :=
  match goal with
  | |- context [if ?b then _ else _] =>
      lazymatch type of b with
      | bool => let E := fresh "Hif" in destruct b eqn:E
      end
  end.
Ltac case_ifs := repeat (case_if; b2p).

(** Run the option monad one bind further. *)
Ltac ob := cbn [mbind option_bind mret option_ret].

(** The same as a rewriting step, where the continuation is large. *)
Lemma bind_Some {A B} (a : A) (f : A -> option B) : mbind f (Some a) = f a.
Proof. done. Qed.
Ltac sb := rewrite bind_Some; cbv beta.

Lemma u32_small x : is_u32 x -> u32 x = x.
Proof. intros. unfold u32. apply Z.mod_small. exact H. Qed.

Lemma u32_range x : is_u32 (u32 x).
Proof. apply Z.mod_pos_bound. lia. Qed.

Lemma u8_small x : is_u8 x -> u8 x = x.
Proof. intros. unfold u8. apply Z.mod_small. exact H. Qed.

Lemma u8_range x : is_u8 (u8 x).
Proof. apply Z.mod_pos_bound. lia. Qed.

Lemma i32_small x : is_i32 x -> i32 x = x.
Proof. intros. word_lia. Qed.

Lemma i32_range x : is_i32 (i32 x).
Proof. word_lia. Qed.

Lemma u32_i32 x : u32 (i32 x) = u32 x.
Proof. word_lia. Qed.

Lemma i32_u32 x : i32 (u32 x) = i32 x.
Proof. word_lia. Qed.

#[export] Hint Resolve u32_range u8_range i32_range : cint.

(** ** Objects in memory

    An object reachable through a pointer is the list of its bytes from the
    pointer to the object's end.  A load or store outside the object has no
    result ([None]): a theorem whose conclusion is [Some _] says, among other
    things, that the code stays inside its buffers. *)

Abbreviation mem := (list Z).

Definition zlen {A} (l : list A) : Z := Z.of_nat (length l).

Definition ld {A} (m : list A) (i : Z) : option A :=
  if 0 <=? i then m !! Z.to_nat i else None.

Definition st {A} (m : list A) (i : Z) (v : A) : option (list A) :=
  if (0 <=? i) && (i <? zlen m) then Some (<[Z.to_nat i := v]> m) else None.

(** The [n] elements of [m] from index [i] on. *)
Definition slice {A} (i n : Z) (m : list A) : list A :=
  take (Z.to_nat n) (drop (Z.to_nat i) m).

(** [m] with the elements from [i] on overwritten by [l]. *)
Definition splice {A} (i : Z) (l m : list A) : list A :=
  take (Z.to_nat i) m ++ l ++ drop (Z.to_nat i + length l) m.

Section mem_lemmas.
Context {A : Type}.
Implicit Types (m l : list A) (i n : Z) (v : A).

Lemma zlen_nonneg m : 0 <= zlen m.
Proof. unfold zlen. lia. Qed.

Lemma zlen_app l m : zlen (l ++ m) = zlen l + zlen m.
Proof. unfold zlen. rewrite length_app. lia. Qed.

Lemma zlen_cons v m : zlen (v :: m) = 1 + zlen m.
Proof. unfold zlen. simpl. lia. Qed.

Lemma zlen_nil : zlen (@nil A) = 0.
Proof. done. Qed.

Lemma zlen_1 v : zlen [v] = 1.
Proof. done. Qed.

Lemma zlen_replicate (k : nat) v : zlen (replicate k v) = Z.of_nat k.
Proof. unfold zlen. by rewrite length_replicate. Qed.

Lemma zlen_insert m (k : nat) v : zlen (<[k := v]> m) = zlen m.
Proof. unfold zlen. by rewrite length_insert. Qed.

Lemma ld_nonneg m i : 0 <= i -> ld m i = m !! Z.to_nat i.
Proof. intros. unfold ld. case_ifs; [done | lia]. Qed.

Lemma ld_Some_lt m i v : ld m i = Some v -> 0 <= i < zlen m.
Proof.
  unfold ld, zlen. case_ifs; [|done]. intros H%lookup_lt_Some. lia.
Qed.

Lemma ld_in m i : 0 <= i < zlen m -> exists v, ld m i = Some v.
Proof.
  intros H. rewrite ld_nonneg by lia.
  apply lookup_lt_is_Some_2. unfold zlen in H. lia.
Qed.

Lemma ld_out m i : ~ (0 <= i < zlen m) -> ld m i = None.
Proof.
  intros H. destruct (ld m i) eqn:E; [|done].
  apply ld_Some_lt in E. lia.
Qed.

Lemma st_in m i v : 0 <= i < zlen m -> st m i v = Some (<[Z.to_nat i := v]> m).
Proof. intros. unfold st. case_ifs; [done|]. destruct (0 <=? i) eqn:?, (i <? zlen m) eqn:?; b2p; done || lia. Qed.

Lemma st_some m i v : 0 <= i < zlen m -> exists m', st m i v = Some m'.
Proof. intros H. rewrite st_in by done. eauto. Qed.

Lemma st_out m i v : ~ (0 <= i < zlen m) -> st m i v = None.
Proof. intros. unfold st. case_ifs; [lia|done]. Qed.

Lemma st_inv m i v m' :
  st m i v = Some m' -> 0 <= i < zlen m /\ m' = <[Z.to_nat i := v]> m.
Proof. unfold st. case_ifs; [|done]. intros [= <-]. split; [lia | done]. Qed.

Lemma zlen_st m i v m' : st m i v = Some m' -> zlen m' = zlen m.
Proof. intros [? ->]%st_inv. apply zlen_insert. Qed.

Lemma ld_st_eq m i v m' : st m i v = Some m' -> ld m' i = Some v.
Proof.
  intros [Hi ->]%st_inv. rewrite ld_nonneg by lia.
  apply list_lookup_insert_eq. unfold zlen in Hi. lia.
Qed.

Lemma ld_st_ne m i j v m' : st m i v = Some m' -> i <> j -> ld m' j = ld m j.
Proof.
  intros [Hi ->]%st_inv Hne. unfold ld. case_ifs; [|done].
  apply list_lookup_insert_ne. lia.
Qed.

Lemma zlen_slice i n m :
  0 <= i -> 0 <= n -> i + n <= zlen m -> zlen (slice i n m) = n.
Proof. intros. unfold zlen, slice in *. rewrite length_take, length_drop. lia. Qed.

Lemma slice_0 i m : slice i 0 m = [].
Proof. done. Qed.

Lemma ld_slice i n m j :
  0 <= i -> 0 <= j < n -> ld (slice i n m) j = ld m (i + j).
Proof.
  intros. rewrite !ld_nonneg by lia. unfold slice.
  rewrite lookup_take_lt by lia. rewrite lookup_drop. f_equal. lia.
Qed.

Lemma slice_app_split i n1 n2 m :
  0 <= i -> 0 <= n1 -> 0 <= n2 ->
  slice i (n1 + n2) m = slice i n1 m ++ slice (i + n1) n2 m.
Proof.
  intros. unfold slice.
  rewrite !Z2Nat.inj_add by lia.
  rewrite <- drop_drop.
  generalize (drop (Z.to_nat i) m) as l. intros l.
  rewrite <- (take_drop (Z.to_nat n1) l) at 1.
  destruct (decide (Z.to_nat n1 <= length l)%nat).
  - rewrite take_app_ge by (rewrite length_take; lia).
    rewrite length_take. f_equal. f_equal. lia.
  - rewrite !(drop_ge l), app_nil_r by lia.
    rewrite !take_nil, app_nil_r, take_take. f_equal. lia.
Qed.

Lemma slice_1 i m v : 0 <= i -> ld m i = Some v -> slice i 1 m = [v].
Proof.
  intros Hi Hv. rewrite ld_nonneg in Hv by lia. unfold slice.
  apply drop_S in Hv. rewrite Hv. done.
Qed.

Lemma slice_snoc i n m v :
  0 <= i -> 0 <= n -> ld m (i + n) = Some v ->
  slice i (n + 1) m = slice i n m ++ [v].
Proof.
  intros Hi Hn Hv. rewrite slice_app_split by lia. f_equal.
  apply slice_1; [lia | done].
Qed.

Lemma slice_full m : slice 0 (zlen m) m = m.
Proof. unfold slice, zlen. rewrite Nat2Z.id. simpl. apply firstn_all. Qed.

Lemma zlen_splice i l m :
  0 <= i -> i + zlen l <= zlen m -> zlen (splice i l m) = zlen m.
Proof.
  intros. unfold zlen, splice in *.
  rewrite !length_app, length_take, length_drop. lia.
Qed.

Lemma splice_nil i m : splice i [] m = m.
Proof. unfold splice. simpl. rewrite Nat.add_0_r. apply take_drop. Qed.

Lemma splice_cons i v l m :
  0 <= i -> i + 1 + zlen l <= zlen m ->
  splice i (v :: l) m = splice (i + 1) l (<[Z.to_nat i := v]> m).
Proof.
  intros Hi Hl. unfold splice, zlen in *.
  replace (Z.to_nat (i + 1)) with (S (Z.to_nat i)) by lia.
  rewrite drop_insert_lt by lia. cbn [length].
  replace (Z.to_nat i + S (length l))%nat with (S (Z.to_nat i) + length l)%nat by lia.
  erewrite take_S_r by (apply list_lookup_insert_eq; lia).
  rewrite take_insert_ge by lia. by rewrite <- app_assoc.
Qed.

Lemma ld_splice_in i l m j :
  0 <= i -> i + zlen l <= zlen m -> i <= j < i + zlen l ->
  ld (splice i l m) j = ld l (j - i).
Proof.
  intros. rewrite !ld_nonneg by lia. unfold splice, zlen in *.
  rewrite lookup_app_r by (rewrite length_take; lia).
  rewrite lookup_app_l by (rewrite length_take; lia).
  f_equal. rewrite length_take. lia.
Qed.

Lemma ld_splice_out i l m j :
  0 <= i -> i + zlen l <= zlen m -> ~ (i <= j < i + zlen l) ->
  ld (splice i l m) j = ld m j.
Proof.
  intros. unfold ld. case_ifs; [|done]. unfold splice, zlen in *.
  destruct (decide (j < i)).
  - rewrite lookup_app_l by (rewrite length_take; lia).
    apply lookup_take_lt. lia.
  - rewrite lookup_app_r by (rewrite length_take; lia).
    rewrite lookup_app_r by (rewrite length_take; lia).
    rewrite lookup_drop. f_equal. rewrite length_take. lia.
Qed.

(** Two objects with the same length and the same bytes are the same. *)
Lemma ld_ext m1 m2 :
  zlen m1 = zlen m2 -> (forall i, 0 <= i < zlen m1 -> ld m1 i = ld m2 i) ->
  m1 = m2.
Proof.
  intros Hl H. apply list_eq. intros k.
  destruct (decide (k < length m1)%nat).
  - specialize (H (Z.of_nat k)). unfold zlen in *.
    rewrite !ld_nonneg, !Nat2Z.id in H by lia. apply H. lia.
  - unfold zlen in Hl. rewrite !lookup_ge_None_2 by lia. done.
Qed.

Lemma slice_splice_same i l m :
  0 <= i -> i + zlen l <= zlen m -> slice i (zlen l) (splice i l m) = l.
Proof.
  intros. assert (Hs : zlen (slice i (zlen l) (splice i l m)) = zlen l).
  { apply zlen_slice; [lia | apply zlen_nonneg |].
    rewrite zlen_splice by lia. lia. }
  apply ld_ext; [exact Hs|]. rewrite Hs. intros j Hj.
  rewrite ld_slice, ld_splice_in by lia. f_equal. lia.
Qed.

Lemma take_slice i n k m :
  0 <= k <= n -> take (Z.to_nat k) (slice i n m) = slice i k m.
Proof. intros. unfold slice. rewrite take_take. f_equal. lia. Qed.

Lemma drop_slice i n k m :
  0 <= i -> 0 <= k <= n -> drop (Z.to_nat k) (slice i n m) = slice (i + k) (n - k) m.
Proof.
  intros. unfold slice. rewrite skipn_firstn_comm, drop_drop. f_equal; [lia|]. f_equal. lia.
Qed.

Lemma slice_st_end n m v m' :
  st m n v = Some m' -> slice 0 (n + 1) m' = slice 0 n m ++ [v].
Proof.
  intros H. pose proof (st_inv _ _ _ _ H) as [Hn _].
  rewrite (slice_snoc 0 n m' v) by (lia || by apply (ld_st_eq _ _ _ _ H)). f_equal.
  pose proof (zlen_st _ _ _ _ H). apply ld_ext; rewrite !zlen_slice by lia; [done|].
  intros i Hi. rewrite !ld_slice by lia. apply (ld_st_ne _ _ _ _ _ H). lia.
Qed.

Lemma splice_app i l1 l2 m :
  0 <= i -> i + zlen l1 + zlen l2 <= zlen m ->
  splice (i + zlen l1) l2 (splice i l1 m) = splice i (l1 ++ l2) m.
Proof.
  intros. pose proof (zlen_nonneg l1). pose proof (zlen_nonneg l2).
  assert (Hl : zlen (splice i l1 m) = zlen m) by (apply zlen_splice; lia).
  apply ld_ext.
  { rewrite !zlen_splice; rewrite ?zlen_app, ?Hl; lia. }
  rewrite zlen_splice by (rewrite ?Hl; lia). rewrite Hl. intros j Hj.
  destruct (decide (i + zlen l1 <= j < i + zlen l1 + zlen l2)).
  - rewrite ld_splice_in by (rewrite ?Hl; lia).
    rewrite ld_splice_in by (rewrite ?zlen_app; lia).
    rewrite !ld_nonneg by lia. rewrite lookup_app_r by (unfold zlen in *; lia).
    f_equal. unfold zlen in *. lia.
  - rewrite ld_splice_out by (rewrite ?Hl; lia).
    destruct (decide (i <= j < i + zlen l1)).
    + rewrite !ld_splice_in by (rewrite ?zlen_app; lia).
      rewrite !ld_nonneg by lia. rewrite lookup_app_l; [done|]. unfold zlen in *. lia.
    + rewrite !ld_splice_out by (rewrite ?zlen_app; lia). done.
Qed.

End mem_lemmas.

Create Rewrite HintDb zlen.
#[export] Hint Rewrite @zlen_app @zlen_cons (zlen_nil (A:=Z)) @zlen_insert @zlen_replicate : zlen.

(** ** Copies

    The byte loop [while (len-- > 0) *d++ = *s++] that [memcpy] and
    [memory_copy] (klib.c) share, at an offset of each object. *)

Fixpoint copy_loop {A} (n : nat) (dst : list A) (d : Z) (src : list A) (s : Z)
  : option (list A) :=
  match n with
  | O => Some dst
  | S n => v ← ld src s; dst' ← st dst d v; copy_loop n dst' (d + 1) src (s + 1)
  end.

Lemma copy_loop_ok {A} (n : nat) (dst : list A) d src s :
  0 <= d -> 0 <= s -> d + Z.of_nat n <= zlen dst -> s + Z.of_nat n <= zlen src ->
  copy_loop n dst d src s = Some (splice d (slice s (Z.of_nat n) src) dst).
Proof.
  revert dst d s. induction n as [|n IH]; intros dst d s Hd Hs Hdl Hsl.
  { simpl. by rewrite slice_0, splice_nil. }
  cbn [copy_loop]. destruct (ld_in src s) as [v Hv]; [lia|].
  rewrite Hv. simpl. rewrite st_in by lia. simpl.
  rewrite IH by (rewrite ?zlen_insert; lia).
  replace (Z.of_nat (S n)) with (1 + Z.of_nat n) by lia.
  rewrite slice_app_split by lia.
  rewrite (slice_1 s src v) by (done || lia). simpl. rewrite splice_cons; [done | lia |].
  rewrite zlen_slice by lia. lia.
Qed.

(** A copy that succeeds stays inside both objects. *)
Lemma copy_loop_inv {A} (n : nat) (dst : list A) d src s r :
  copy_loop n dst d src s = Some r ->
  zlen r = zlen dst /\ ((0 < n)%nat -> 0 <= s /\ s + Z.of_nat n <= zlen src).
Proof.
  revert dst d s. induction n as [|n IH]; intros dst d s H; cbn [copy_loop] in H.
  { injection H as <-. split; [done|lia]. }
  destruct (ld src s) as [v|] eqn:E; [|done]. cbn in H.
  destruct (st dst d v) as [dst'|] eqn:E2; [|done]. cbn in H.
  apply IH in H as [Hl Hs]. split; [by rewrite Hl, (zlen_st _ _ _ _ E2)|]. intros _.
  pose proof (ld_Some_lt _ _ _ E). destruct n; [lia|]. specialize (Hs ltac:(lia)). lia.
Qed.

(** ** C strings

    [cstr m s]: the bytes at the pointer are the string [s], its terminator
    and whatever follows. *)

Definition cstr (m : mem) (s : list Z) : Prop :=
  (exists rest, m = s ++ 0 :: rest) /\ Forall (fun c => c <> 0) s.

Definition bytes (m : mem) : Prop := Forall is_u8 m.

Lemma cstr_nil_inv m : cstr m [] -> exists rest, m = 0 :: rest.
Proof. intros [[rest ->] _]. eauto. Qed.

Lemma cstr_cons_inv m c s :
  cstr m (c :: s) -> exists m', m = c :: m' /\ c <> 0 /\ cstr m' s.
Proof.
  intros [[rest ->] [? ?]%Forall_cons_1]. eexists. split; [done|].
  split; [done|]. split; eauto.
Qed.

Lemma cstr_ld m s i :
  cstr m s -> 0 <= i < zlen s -> ld m i = ld s i.
Proof.
  intros [[rest ->] _] Hi. rewrite !ld_nonneg by lia.
  apply lookup_app_l. unfold zlen in Hi. lia.
Qed.

Lemma cstr_end m s : cstr m s -> ld m (zlen s) = Some 0.
Proof.
  intros [[rest ->] _]. rewrite ld_nonneg by apply zlen_nonneg.
  unfold zlen. rewrite Nat2Z.id. by rewrite list_lookup_middle.
Qed.

Lemma cstr_nz m s i c : cstr m s -> ld s i = Some c -> c <> 0.
Proof.
  intros [_ H] Hc. unfold ld in Hc. destruct (0 <=? i); [|done].
  eapply Forall_lookup_1 in H; eauto.
Qed.

(** An object holds at most one string. *)
Lemma cstr_inj m s t : cstr m s -> cstr m t -> s = t.
Proof.
  intros [[r1 E1] H1] [[r2 E2] H2]. rewrite E1 in E2. clear E1 m.
  revert t H2 E2. induction H1 as [|c s Hc H1 IH]; intros t H2 E;
    destruct H2 as [|c2 t Hc2 H2]; cbn in E; try congruence.
  injection E as -> E. f_equal. by apply IH.
Qed.

(** ** Little-endian fields *)

Definition ld16 (m : mem) (i : Z) : option Z :=
  b0 ← ld m i; b1 ← ld m (i + 1); Some (b0 + 256 * b1).

Definition ld32 (m : mem) (i : Z) : option Z :=
  b0 ← ld m i; b1 ← ld m (i + 1); b2 ← ld m (i + 2); b3 ← ld m (i + 3);
  Some (b0 + 256 * b1 + 65536 * b2 + 16777216 * b3).

Definition ld64 (m : mem) (i : Z) : option Z :=
  lo ← ld32 m i; hi ← ld32 m (i + 4); Some (lo + 4294967296 * hi).

Lemma bytes_slice i n (m : mem) : bytes m -> bytes (slice i n m).
Proof. intros. unfold slice, bytes. by apply Forall_take, Forall_drop. Qed.

Lemma bytes_splice i (l m : mem) : bytes l -> bytes m -> bytes (splice i l m).
Proof.
  intros. unfold splice, bytes. repeat apply Forall_app_2; auto using Forall_take, Forall_drop.
Qed.

Lemma bytes_ld m i b : bytes m -> ld m i = Some b -> is_u8 b.
Proof.
  intros Hm Hb. unfold ld in Hb. destruct (0 <=? i); [|done].
  by apply (Forall_lookup_1 _ _ _ _ Hm Hb).
Qed.

Lemma ld_byte m i : bytes m -> 0 <= i < zlen m -> exists b, ld m i = Some b /\ is_u8 b.
Proof. intros Hm Hi. destruct (ld_in m i Hi) as [b Hb]. eauto using bytes_ld. Qed.

Lemma ld16_in m i :
  bytes m -> 0 <= i -> i + 2 <= zlen m -> exists v, ld16 m i = Some v /\ 0 <= v < 65536.
Proof.
  intros Hm Hi Hl. unfold ld16, is_u8 in *.
  destruct (ld_byte m i Hm) as (b0 & -> & ?); [lia|]. ob.
  destruct (ld_byte m (i + 1) Hm) as (b1 & -> & ?); [lia|]. ob.
  eexists. split; [done|]. unfold is_u8 in *. lia.
Qed.

Lemma ld32_in m i :
  bytes m -> 0 <= i -> i + 4 <= zlen m -> exists v, ld32 m i = Some v /\ is_u32 v.
Proof.
  intros Hm Hi Hl. unfold ld32.
  destruct (ld_byte m i Hm) as (b0 & -> & ?); [lia|]. ob.
  destruct (ld_byte m (i + 1) Hm) as (b1 & -> & ?); [lia|]. ob.
  destruct (ld_byte m (i + 2) Hm) as (b2 & -> & ?); [lia|]. ob.
  destruct (ld_byte m (i + 3) Hm) as (b3 & -> & ?); [lia|]. ob.
  eexists. split; [done|]. unfold is_u8, is_u32 in *. lia.
Qed.

Lemma ld64_in m i :
  bytes m -> 0 <= i -> i + 8 <= zlen m -> exists v, ld64 m i = Some v /\ is_u64 v.
Proof.
  intros Hm Hi Hl. unfold ld64.
  destruct (ld32_in m i Hm) as (lo & -> & ?); [lia..|]. ob.
  destruct (ld32_in m (i + 4) Hm) as (hi & -> & ?); [lia..|]. ob.
  eexists. split; [done|]. unfold is_u32, is_u64 in *. lia.
Qed.

(** A field read depends only on the bytes of the field. *)
Lemma ld32_ext m1 m2 i :
  (forall j, i <= j < i + 4 -> ld m1 j = ld m2 j) -> ld32 m1 i = ld32 m2 i.
Proof. intros H. unfold ld32. rewrite !H by lia. done. Qed.

(** ** Table scans

    [for (i = a; i < a + n; i++) if (f(i)) return ...]: the first index at
    which [f] has an answer; an access of [f] outside its table ends the scan
    without result. *)
Fixpoint scan {A} (f : Z -> option (option A)) (n : nat) (i : Z) : option (option A) :=
  match n with
  | O => Some None
  | S n => r ← f i; match r with Some a => Some (Some a) | None => scan f n (i + 1) end
  end.

(** [for (...) if (f(i)) n++] *)
Fixpoint count_loop (f : Z -> option bool) (n : nat) (i acc : Z) : option Z :=
  match n with
  | O => Some acc
  | S n => b ← f i; count_loop f n (i + 1) (if b : bool then acc + 1 else acc)
  end.

Section scans.
Context {A : Type} (f : Z -> option (option A)) (g : Z -> option A).

Lemma scan_spec (n : nat) (i : Z) :
  (forall j, i <= j < i + Z.of_nat n -> f j = Some (g j)) ->
  (scan f n i = Some None /\ forall j, i <= j < i + Z.of_nat n -> g j = None) \/
  (exists j a, i <= j < i + Z.of_nat n /\ g j = Some a /\ scan f n i = Some (Some a) /\
     forall k, i <= k < j -> g k = None).
Proof.
  revert i. induction n as [|n IH]; intros i Hf; [left; split; [done|lia]|].
  cbn [scan]. rewrite Hf by lia. ob. destruct (g i) as [a|] eqn:E.
  - right. exists i, a. split; [lia|]. repeat (split; [done|]). lia.
  - destruct (IH (i + 1)) as [[-> Hn]|(j & a & Hj & Ha & -> & Hk)]; [intros; apply Hf; lia| |].
    + left. split; [done|]. intros j Hj. destruct (decide (j = i)) as [->|]; [done|]. apply Hn. lia.
    + right. exists j, a. split; [lia|]. repeat (split; [done|]). intros k Hk'.
      destruct (decide (k = i)) as [->|]; [done|]. apply Hk. lia.
Qed.
End scans.

Lemma count_loop_ok f (n : nat) i acc :
  (forall j, i <= j < i + Z.of_nat n -> exists b, f j = Some b) ->
  exists r, count_loop f n i acc = Some r /\ acc <= r <= acc + Z.of_nat n.
Proof.
  revert i acc. induction n as [|n IH]; intros i acc Hf; [exists acc; split; [done|lia]|].
  cbn [count_loop]. destruct (Hf i) as [b ->]; [lia|]. ob.
  destruct (IH (i + 1) (if b then acc + 1 else acc)) as (r & -> & Hr); [intros; apply Hf; lia|].
  exists r. split; [done|]. destruct b; lia.
Qed.
