(* ===== verification/StateM.v ===== *)
(** * A state and failure monad

    Kernel code that works on global structures through pointers is a
    computation [M S A]: from the state it returns the new state and a value,
    or nothing when the code dereferences a null or dangling pointer, panics
    on an arithmetic overflow (the Rust crates are built with
    overflow-checks) or does not end.

    [wp m Q s] says that [m] returns from [s] and that its value and final
    state satisfy [Q]: every specification in this style includes the
    absence of those failures. *)
From S2P Require Import Prelude.

#[local] Open Scope Z_scope.

Definition M (S A : Type) : Type := S -> option (S * A).

#[export] Instance M_ret {S} : MRet (M S) := fun A a s => Some (s, a).
#[export] Instance M_bind {S} : MBind (M S) :=
  fun A B k m s => match m s with Some (s', a) => k a s' | None => None end.

Section Ops.
Context {S : Type}.

Definition gets {A} (f : S -> A) : M S A := fun s => Some (s, f s).
Definition modify (f : S -> S) : M S unit := fun s => Some (f s, tt).
Definition lift {A} (o : option A) : M S A := fun s => a ← o; Some (s, a).
Definition skip : M S unit := mret tt.
Definition fail {A} : M S A := fun _ => None.

(** [for x in l { body(x) }] *)
Fixpoint for_each {A} (l : list A) (body : A -> M S unit) : M S unit :=
  match l with [] => skip | x :: l => body x ;; for_each l body end.

(** The same with a body that may return from the function. *)
Fixpoint for_ret {A R} (l : list A) (body : A -> M S (option R)) : M S (option R) :=
  match l with
  | [] => mret None
  | x :: l => r ← body x; match r with Some _ => mret r | None => for_ret l body end
  end.

Definition wp {A} (m : M S A) (Q : A -> S -> Prop) (s : S) : Prop :=
  match m s with Some (s', a) => Q a s' | None => False end.

Lemma wp_ret {A} (a : A) Q s : Q a s -> wp (mret a) Q s.
Proof. done. Qed.

Lemma wp_skip Q s : Q tt s -> wp skip Q s.
Proof. done. Qed.

Lemma wp_bind {A B} (m : M S A) (k : A -> M S B) Q s :
  wp m (fun a => wp (k a) Q) s -> wp (m ≫= k) Q s.
Proof. unfold wp, mbind, M_bind. by destruct (m s) as [[s' a]|]. Qed.

Lemma run_bind {A B} (m : M S A) (k : A -> M S B) s s' a : m s = Some (s', a) -> (m ≫= k) s = k a s'.
Proof. intros H. unfold mbind, M_bind. by rewrite H. Qed.

Lemma run_bind_none {A B} (m : M S A) (k : A -> M S B) s : m s = None -> (m ≫= k) s = None.
Proof. intros H. unfold mbind, M_bind. by rewrite H. Qed.

Lemma run_seq_inv {A B} (m : M S A) (k : M S B) s s' x :
  (m ;; k) s = Some (s', x) -> exists s1 y, m s = Some (s1, y) /\ k s1 = Some (s', x).
Proof. unfold mbind, M_bind. destruct (m s) as [[s1 y]|]; [|done]. eauto. Qed.

Lemma wp_gets {A} (f : S -> A) Q s : Q (f s) s -> wp (gets f) Q s.
Proof. done. Qed.

Lemma wp_modify f Q s : Q tt (f s) -> wp (modify f) Q s.
Proof. done. Qed.

Lemma wp_lift {A} (o : option A) a Q s : o = Some a -> Q a s -> wp (lift o) Q s.
Proof. by intros ->. Qed.

Lemma wp_mono {A} (m : M S A) (P Q : A -> S -> Prop) s :
  wp m P s -> (forall a s', P a s' -> Q a s') -> wp m Q s.
Proof. unfold wp. destruct (m s) as [[s' a]|]; eauto. Qed.

(** A specification used in place of the code it describes. *)
Lemma wp_use {A B} (m : M S A) (k : A -> M S B) P Q s :
  wp m P s -> (forall a s', P a s' -> wp (k a) Q s') -> wp (m ≫= k) Q s.
Proof. intros Hm Hk. apply wp_bind. by eapply wp_mono. Qed.

Lemma wp_eq {A} (m : M S A) Q s :
  wp m Q s <-> exists s' a, m s = Some (s', a) /\ Q a s'.
Proof.
  unfold wp. destruct (m s) as [[s' a]|]; [naive_solver|]. split; [done|]. by intros (? & ? & ? & _).
Qed.

Lemma wp_and {A} (m : M S A) (P Q : A -> S -> Prop) s :
  wp m P s -> wp m Q s -> wp m (fun a s' => P a s' /\ Q a s') s.
Proof. unfold wp. by destruct (m s) as [[s' a]|]. Qed.

Lemma wp_for_each {A} (I : list A -> S -> Prop) (l : list A) body Q s :
  I l s -> (forall x r s, I (x :: r) s -> wp (body x) (fun _ => I r) s) ->
  (forall s, I [] s -> Q tt s) -> wp (for_each l body) Q s.
Proof.
  intros Hs Hb Hq. revert s Hs. induction l as [|x l IH]; intros s Hs; cbn [for_each]; [by apply wp_skip, Hq|].
  eapply wp_use; [by apply Hb|]. cbn. intros _ s' Hs'. by apply IH.
Qed.

(** [for k in a..a + n]: the invariant at [k] holds before iteration [k]. *)
Lemma wp_for_range (I : Z -> S -> Prop) a n (body : Z -> M S unit) Q s :
  0 <= n -> I a s ->
  (forall k s, a <= k < a + n -> I k s -> wp (body k) (fun _ => I (k + 1)) s) ->
  (forall s, I (a + n) s -> Q tt s) -> wp (for_each (seqZ a n) body) Q s.
Proof.
  intros Hn Hs Hb Hq. apply (wp_for_each (fun l s => exists k, l = seqZ k (a + n - k) /\ a <= k <= a + n /\ I k s)).
  - exists a. split; [f_equal; lia|]. split; [lia|done].
  - intros x r s1 (k & Hl & Hk & HI). destruct (decide (k = a + n)) as [->|Hne].
    { by rewrite Z.sub_diag in Hl. }
    rewrite seqZ_cons in Hl by lia. injection Hl as -> ->. eapply wp_mono; [apply Hb; [lia|done]|].
    intros ? s2 HI2. exists (k + 1). split; [f_equal; lia|]. split; [lia|done].
  - intros s1 (k & Hl & Hk & HI). apply Hq. replace (a + n) with k; [done|].
    destruct (decide (a + n - k <= 0)); [lia|]. by rewrite seqZ_cons in Hl by lia.
Qed.

Lemma wp_for_ret {A R} (I : list A -> S -> Prop) (l : list A) (body : A -> M S (option R)) Q s :
  I l s ->
  (forall x r s, I (x :: r) s -> wp (body x) (fun o s' => match o with Some _ => Q o s' | None => I r s' end) s) ->
  (forall s, I [] s -> Q None s) -> wp (for_ret l body) Q s.
Proof.
  intros Hs Hb Hq. revert s Hs. induction l as [|x l IH]; intros s Hs; cbn [for_ret]; [by apply wp_ret, Hq|].
  eapply wp_use; [by apply Hb|]. cbn. intros [v|] s' Hs'; [by apply wp_ret|]. by apply IH.
Qed.
End Ops.

(** Arithmetic of [u32] with overflow checks. *)
Definition cadd (a b : Z) : option Z := if a + b <? 2 ^ 32 then Some (a + b) else None.
Definition csub (a b : Z) : option Z := if b <=? a then Some (a - b) else None.

Lemma cadd_ok a b : a + b < 2 ^ 32 -> cadd a b = Some (a + b).
Proof. intros H. unfold cadd. by rewrite (proj2 (Z.ltb_lt _ _)). Qed.
Lemma csub_ok a b : b <= a -> csub a b = Some (a - b).
Proof. intros H. unfold csub. by rewrite (proj2 (Z.leb_le _ _)). Qed.

(** One step of symbolic execution. *)
Ltac wp_step :=
  lazymatch goal with
  | |- wp (mbind _ _) _ _ => apply wp_bind
  | |- wp (mret _) _ _ => apply wp_ret
  | |- wp skip _ _ => apply wp_skip
  | |- wp (gets _) _ _ => apply wp_gets
  | |- wp (modify _) _ _ => apply wp_modify
  end; cbv beta.
Ltac wp_steps := repeat wp_step.
