(* ===== verification/Klib.v ===== *)
(** * klib.c: the kernel's string, number and memory routines

    A [char *] argument is the object's bytes from the pointer on; pointers
    that move forward through a string are the tails of that list.  [None] is
    an access outside the object.  Routines whose source tests for NULL take
    an [option mem], [None] being the null pointer. *)

From S2P Require Import Prelude.
#[local] Open Scope Z_scope.

(** ** Strings *)

Fixpoint compare_string (s1 s2 : mem) : option Z :=
  match s1, s2 with
  | c1 :: t1, c2 :: t2 =>
      if c1 =? c2
      then if c1 =? 0 then Some 0 else compare_string t1 t2
      else Some (schar c1 - schar c2)
  | _, _ => None
  end.

Definition strcmp (s1 s2 : mem) : option Z := compare_string s1 s2.

Fixpoint strlen_loop (s : mem) (len : Z) : option Z :=
  match s with
  | [] => None
  | c :: t => if c =? 0 then Some len else strlen_loop t (len + 1)
  end.

Definition strlen (s : mem) : option Z := strlen_loop s 0.

(** The copy loop of [strcat] and [strcpy]:
    [while ( *src != 0 && remaining--) *ptr++ = *src++; *ptr = 0]. *)
Fixpoint str_copy_loop (src : mem) (remaining : Z) (dest : mem) (ptr : Z)
  : option mem :=
  match src with
  | [] => None
  | c :: t =>
      if negb (c =? 0) && negb (remaining =? 0)
      then dest' ← st dest ptr c;
           str_copy_loop t (u32 (remaining - 1)) dest' (ptr + 1)
      else st dest ptr 0
  end.

Definition strcat (dest src : option mem) : option (option mem) :=
  match dest, src with
  | Some d, Some s =>
      len ← strlen d; d' ← str_copy_loop s (u32 (-1)) d len; Some (Some d')
  | _, _ => Some dest
  end.

Definition strcpy (dest src : option mem) : option (option mem) :=
  match dest, src with
  | Some d, Some s => d' ← str_copy_loop s (u32 (-1)) d 0; Some (Some d')
  | _, _ => Some dest
  end.

Definition copy_string (dest src : option mem) : option (option mem) :=
  strcpy dest src.

Fixpoint strncmp (a b : mem) : option Z :=
  match a, b with
  | ca :: ta, cb :: tb =>
      if negb (ca =? 0) && (ca =? cb) then strncmp ta tb
      else Some (schar ca - schar cb)
  | _, _ => None
  end.

Fixpoint streq (a b : mem) : option bool :=
  match a, b with
  | ca :: ta, cb :: tb =>
      if negb (ca =? 0) && (ca =? cb) then streq ta tb
      else Some (ca =? cb)
  | _, _ => None
  end.

(** [while (src[i] && i < n - 1) { dst[i] = src[i]; i++; } dst[i] = 0]:
    the body [strncpy], [strlcpy] and the VFS's copy of it share. *)
Fixpoint bounded_copy (src : mem) (i n : Z) (dst : mem) : option mem :=
  match src with
  | [] => None
  | c :: t =>
      if negb (c =? 0) && (i <? n - 1)
      then dst' ← st dst i c; bounded_copy t (i + 1) n dst'
      else st dst i 0
  end.

Definition strncpy (dst src : mem) (n : Z) : option mem := bounded_copy src 0 n dst.

Definition strlcpy (dst src : mem) (n : Z) : option mem := bounded_copy src 0 n dst.

(** First loop of [strlcat]: the end of [dst], at most [n]. *)
Fixpoint strlcat_end (dst : mem) (i n : Z) : option Z :=
  match dst with
  | [] => None
  | c :: t => if negb (c =? 0) && (i <? n) then strlcat_end t (i + 1) n else Some i
  end.

Definition strlcat (dst src : mem) (n : Z) : option mem :=
  pos ← strlcat_end dst 0 n; bounded_copy src pos n dst.

Fixpoint buf_append (buf : mem) (pos max : Z) (s : mem) : option (mem * Z) :=
  match s with
  | [] => None
  | c :: t =>
      if negb (c =? 0) && (pos <? max - 1)
      then buf' ← st buf pos c; buf_append buf' (pos + 1) max t
      else buf' ← st buf pos 0; Some (buf', pos)
  end.

(** ** Numbers *)

(** [do { str[i++] = un % 10 + '0'; } while ((un /= 10) > 0)] *)
Fixpoint itoa_digits (fuel : nat) (un i : Z) (str : mem) : option (mem * Z) :=
  match fuel with
  | O => None
  | S fuel =>
      str' ← st str i (un mod 10 + 48);
      if 0 <? un / 10 then itoa_digits fuel (un / 10) (i + 1) str'
      else Some (str', i + 1)
  end.

(** [for (j = 0, k = i - 1; j < k; j++, k--)] swap [str[j]] and [str[k]] *)
Fixpoint itoa_reverse (fuel : nat) (j k : Z) (str : mem) : option mem :=
  match fuel with
  | O => None
  | S fuel =>
      if j <? k
      then temp ← ld str j; sk ← ld str k;
           str1 ← st str j sk; str2 ← st str1 k temp;
           itoa_reverse fuel (j + 1) (k - 1) str2
      else Some str
  end.

(** Ten digits are enough for 32 bits, and the reversal of at most eleven
    characters swaps at most five pairs. *)
Definition itoa (n : Z) (str : mem) : option mem :=
  let sign := n <? 0 in
  let un := if sign then u32 (- u32 n) else u32 n in
  '(str, i) ← itoa_digits 10 un 0 str;
  '(str, i) ← (if sign then str' ← st str i 45; Some (str', i + 1)
               else Some (str, i) : option (mem * Z));
  str ← st str i 0;
  itoa_reverse 7 0 (i - 1) str.

Fixpoint atoi_loop (s : mem) (res : Z) : option Z :=
  match s with
  | [] => None
  | c :: t =>
      if c =? 0 then Some res
      else if (schar c <? 48) || (57 <? schar c) then Some res
      else atoi_loop t (i32 (res * 10 + schar c - 48))
  end.

Definition atoi (str : mem) : option Z :=
  c ← ld str 0;
  if c =? 45
  then res ← atoi_loop (drop 1 str) 0; Some (i32 (-1 * res))
  else res ← atoi_loop str 0; Some (i32 (1 * res)).

Definition buf_append_int (buf : mem) (pos max n : Z) : option (mem * Z) :=
  tmp ← itoa n (replicate 32 0); buf_append buf pos max tmp.

(** [for (i = 7; i >= 0; i--)]: one hexadecimal digit per nibble *)
Fixpoint hex_loop (fuel : nat) (n i : Z) (str : mem) : option mem :=
  match fuel with
  | O => None
  | S fuel =>
      if 0 <=? i
      then let nibble := Z.land (Z.shiftr n (i * 4)) 15 in
           str' ← st str (9 - i)
                     (if nibble <? 10 then u8 (nibble + 48) else u8 (nibble - 10 + 65));
           hex_loop fuel n (i - 1) str'
      else Some str
  end.

Definition hex_to_ascii (n : Z) (str : mem) : option mem :=
  str ← st str 0 48; str ← st str 1 120;
  str ← hex_loop 9 n 7 str;
  st str 10 0.

(** ** Memory blocks: [dest + d] and [src + s] are offsets into objects *)

Fixpoint set_loop (n : nat) (dest : mem) (d val : Z) : option mem :=
  match n with
  | O => Some dest
  | S n => dest' ← st dest d (u8 val); set_loop n dest' (d + 1) val
  end.

Definition memory_set (dest : mem) (d val len : Z) : option mem :=
  set_loop (Z.to_nat len) dest d val.

Definition memory_copy (dest : mem) (d : Z) (src : mem) (s len : Z) : option mem :=
  copy_loop (Z.to_nat len) dest d src s.

Definition memset (dest : mem) (d val len : Z) : option mem :=
  set_loop (Z.to_nat len) dest d val.

Definition memcpy (dest : mem) (d : Z) (src : mem) (s len : Z) : option mem :=
  copy_loop (Z.to_nat len) dest d src s.

Fixpoint compare_loop (k : nat) (s1 s2 : mem) (i : Z) : option Z :=
  match k with
  | O => Some 0
  | S k =>
      a ← ld s1 i; b ← ld s2 i;
      if negb (a =? b) then Some (a - b) else compare_loop k s1 s2 (i + 1)
  end.

Definition memory_compare (s1 s2 : mem) (n : Z) : option Z :=
  compare_loop (Z.to_nat n) s1 s2 0.

(** ** Blocks *)

Lemma memcpy_ok dest d src s len :
  0 <= d -> 0 <= s -> 0 <= len -> d + len <= zlen dest -> s + len <= zlen src ->
  memcpy dest d src s len = Some (splice d (slice s len src) dest).
Proof.
  intros. unfold memcpy. rewrite copy_loop_ok by lia. by rewrite Z2Nat.id by lia.
Qed.

Lemma set_loop_ok (n : nat) dest d val :
  0 <= d -> d + Z.of_nat n <= zlen dest ->
  set_loop n dest d val = Some (splice d (replicate n (u8 val)) dest).
Proof.
  revert dest d. induction n as [|n IH]; intros dest d Hd Hl.
  { simpl. by rewrite splice_nil. }
  cbn [set_loop]. rewrite st_in by lia. simpl.
  rewrite IH by (rewrite ?zlen_insert; lia).
  by rewrite splice_cons by (rewrite ?zlen_replicate; lia).
Qed.

Lemma memset_ok dest d val len :
  0 <= d -> 0 <= len -> d + len <= zlen dest ->
  memset dest d val len = Some (splice d (replicate (Z.to_nat len) (u8 val)) dest).
Proof. intros. unfold memset. apply set_loop_ok; lia. Qed.

Lemma compare_loop_0 (k : nat) s1 s2 i :
  0 <= i -> i + Z.of_nat k <= zlen s1 -> i + Z.of_nat k <= zlen s2 ->
  exists r, compare_loop k s1 s2 i = Some r /\
    (r = 0 <-> slice i (Z.of_nat k) s1 = slice i (Z.of_nat k) s2).
Proof.
  revert i. induction k as [|k IH]; intros i Hi H1 H2.
  { exists 0. done. }
  cbn [compare_loop].
  destruct (ld_in s1 i) as [a Ha]; [lia|]. destruct (ld_in s2 i) as [b Hb]; [lia|].
  rewrite Ha, Hb. ob.
  replace (Z.of_nat (S k)) with (1 + Z.of_nat k) by lia.
  rewrite !slice_app_split by lia.
  rewrite (slice_1 i s1 a), (slice_1 i s2 b) by (done || lia). cbn [app].
  case_if; b2p.
  - exists (a - b). split; [done|]. split; [lia|]. intros [= ->]. lia.
  - subst b. destruct (IH (i + 1)) as (r & -> & Hr); [lia..|].
    exists r. split; [done|]. rewrite Hr. split; [congruence | by intros [= ->]].
Qed.

Lemma memory_compare_ok s1 s2 n :
  0 <= n <= zlen s1 -> n <= zlen s2 ->
  exists r, memory_compare s1 s2 n = Some r /\ (r = 0 <-> slice 0 n s1 = slice 0 n s2).
Proof.
  intros. destruct (compare_loop_0 (Z.to_nat n) s1 s2 0) as (r & Hr & E); [lia..|].
  rewrite Z2Nat.id in E by lia. eauto.
Qed.

(** ** Strings *)

Lemma strlen_loop_ok m s len : cstr m s -> strlen_loop m len = Some (len + zlen s).
Proof.
  revert m len. induction s as [|c s IH]; intros m len H.
  - apply cstr_nil_inv in H as [rest ->]. simpl. f_equal. unfold zlen; simpl; lia.
  - apply cstr_cons_inv in H as (m' & -> & Hc & H). simpl.
    rewrite (proj2 (Z.eqb_neq c 0)) by done. rewrite IH by done.
    rewrite zlen_cons. f_equal. lia.
Qed.

Lemma strlen_ok m s : cstr m s -> strlen m = Some (zlen s).
Proof. intros. unfold strlen. by rewrite (strlen_loop_ok m s). Qed.

Lemma streq_ok a b s t : cstr a s -> cstr b t -> streq a b = Some (bool_decide (s = t)).
Proof.
  revert a b t. induction s as [|c s IH]; intros a b t Ha Hb.
  - apply cstr_nil_inv in Ha as [? ->].
    destruct t as [|d t].
    + apply cstr_nil_inv in Hb as [? ->]. done.
    + apply cstr_cons_inv in Hb as (? & -> & ? & ?). cbn [streq].
      rewrite bool_decide_eq_false_2 by done.
      cbn [negb andb]. by rewrite Z.eqb_refl, (proj2 (Z.eqb_neq 0 d)) by lia.
  - apply cstr_cons_inv in Ha as (a' & -> & Hc & Ha).
    destruct t as [|d t].
    + apply cstr_nil_inv in Hb as [? ->]. cbn [streq].
      rewrite bool_decide_eq_false_2 by done.
      by rewrite (proj2 (Z.eqb_neq c 0)) by done.
    + apply cstr_cons_inv in Hb as (b' & -> & Hd & Hb). cbn [streq].
      rewrite (proj2 (Z.eqb_neq c 0)) by done. cbn [negb andb].
      destruct (c =? d) eqn:E; b2p.
      * subst d. rewrite (IH a' b' t) by done. f_equal.
        apply bool_decide_ext. naive_solver.
      * rewrite bool_decide_eq_false_2 by congruence. done.
Qed.

Lemma schar_inj a b : is_u8 a -> is_u8 b -> schar a = schar b -> a = b.
Proof. intros. word_lia. Qed.

Lemma compare_string_ok a b s t :
  cstr a s -> cstr b t -> bytes s -> bytes t ->
  exists r, compare_string a b = Some r /\ (r = 0 <-> s = t).
Proof.
  assert (Hz : is_u8 0) by word_lia.
  revert a b t. induction s as [|c s IH]; intros a b t Ha Hb Bs Bt.
  - apply cstr_nil_inv in Ha as [? ->].
    destruct t as [|d t].
    + apply cstr_nil_inv in Hb as [? ->]. exists 0. done.
    + apply cstr_cons_inv in Hb as (? & -> & ? & ?). apply Forall_cons_1 in Bt as [? ?].
      cbn [compare_string]. rewrite (proj2 (Z.eqb_neq 0 d)) by lia.
      eexists. split; [done|]. split; [|done].
      intros E. assert (0 = d) by (apply schar_inj; [done..|lia]). congruence.
  - apply cstr_cons_inv in Ha as (a' & -> & Hc & Ha). apply Forall_cons_1 in Bs as [? ?].
    destruct t as [|d t].
    + apply cstr_nil_inv in Hb as [? ->]. cbn [compare_string].
      rewrite (proj2 (Z.eqb_neq c 0)) by done.
      eexists. split; [done|]. split; [|done].
      intros E. assert (c = 0) by (apply schar_inj; [done..|lia]). congruence.
    + apply cstr_cons_inv in Hb as (b' & -> & Hd & Hb). apply Forall_cons_1 in Bt as [? ?].
      cbn [compare_string]. destruct (c =? d) eqn:E; b2p.
      * subst d. rewrite (proj2 (Z.eqb_neq c 0)) by done.
        destruct (IH a' b' t) as (r & Hr & Er); [done..|].
        exists r. rewrite Hr, Er. split; [done|]. split; congruence.
      * eexists. split; [done|]. split; [|congruence].
        intros E'. destruct E. apply schar_inj; [done..|lia].
Qed.

(** The bounded copy keeps [n - 1 - i] characters, terminates, and leaves the
    rest of the destination alone. *)
Lemma bounded_copy_ok src s i n dst :
  cstr src s -> 0 <= i < n -> n <= zlen dst ->
  bounded_copy src i n dst =
    Some (splice i (take (Z.to_nat (n - 1 - i)) s ++ [0]) dst).
Proof.
  revert src i dst. induction s as [|c s IH]; intros src i dst Hs Hi Hn.
  - apply cstr_nil_inv in Hs as [? ->]. cbn [bounded_copy].
    rewrite st_in by lia. rewrite take_nil. simpl.
    by rewrite splice_cons, splice_nil by (rewrite ?(zlen_nil (A:=Z)); lia).
  - apply cstr_cons_inv in Hs as (m' & -> & Hc & Hs). cbn [bounded_copy].
    rewrite (proj2 (Z.eqb_neq c 0)) by done. simpl.
    destruct (i <? n - 1) eqn:E; b2p.
    + rewrite st_in by lia. simpl.
      rewrite (IH m') by (rewrite ?zlen_insert; done || lia).
      replace (Z.to_nat (n - 1 - i)) with (S (Z.to_nat (n - 1 - (i + 1)))) by lia.
      simpl. rewrite splice_cons; [done | lia |].
      rewrite zlen_app, zlen_cons, (zlen_nil (A:=Z)). unfold zlen at 1.
      rewrite length_take. lia.
    + replace (Z.to_nat (n - 1 - i)) with 0%nat by lia. rewrite st_in by lia. simpl.
      by rewrite splice_cons, splice_nil by (rewrite ?(zlen_nil (A:=Z)); lia).
Qed.

Lemma buf_append_ok m s buf pos max :
  cstr m s -> 0 <= pos < max -> max <= zlen buf ->
  let kept := take (Z.to_nat (max - 1 - pos)) s in
  buf_append buf pos max m = Some (splice pos (kept ++ [0]) buf, pos + zlen kept).
Proof.
  revert m pos buf. induction s as [|c s IH]; intros m pos buf Hs Hp Hm; cbn zeta.
  - apply cstr_nil_inv in Hs as [? ->]. cbn [buf_append]. rewrite st_in by lia.
    rewrite take_nil. ob. cbn [app]. rewrite (zlen_nil (A:=Z)), Z.add_0_r.
    by rewrite splice_cons, splice_nil by (rewrite ?(zlen_nil (A:=Z)); lia).
  - apply cstr_cons_inv in Hs as (m' & -> & Hc & Hs). cbn [buf_append].
    rewrite (proj2 (Z.eqb_neq c 0)) by done. simpl.
    destruct (pos <? max - 1) eqn:E; b2p.
    + rewrite st_in by lia. simpl.
      rewrite (IH m') by (rewrite ?zlen_insert; done || lia).
      replace (Z.to_nat (max - 1 - pos)) with (S (Z.to_nat (max - 1 - (pos + 1)))) by lia.
      simpl. rewrite zlen_cons. rewrite splice_cons; [do 2 f_equal; lia | lia |].
      rewrite zlen_app, zlen_cons, (zlen_nil (A:=Z)). unfold zlen at 1.
      rewrite length_take. lia.
    + replace (Z.to_nat (max - 1 - pos)) with 0%nat by lia. rewrite st_in by lia.
      ob. cbn [take app]. rewrite (zlen_nil (A:=Z)), Z.add_0_r.
      by rewrite splice_cons, splice_nil by (rewrite ?(zlen_nil (A:=Z)); lia).
Qed.

Lemma strlcat_end_ok m s i n :
  cstr m s -> i + zlen s < n -> strlcat_end m i n = Some (i + zlen s).
Proof.
  revert m i. induction s as [|c s IH]; intros m i H Hn.
  - apply cstr_nil_inv in H as [? ->]. simpl. f_equal. unfold zlen; simpl; lia.
  - apply cstr_cons_inv in H as (m' & -> & Hc & H). rewrite zlen_cons in *.
    pose proof (zlen_nonneg s). cbn [strlcat_end].
    rewrite (proj2 (Z.eqb_neq c 0)) by done. rewrite (proj2 (Z.ltb_lt i n)) by lia.
    simpl. rewrite IH by (done || lia). f_equal. lia.
Qed.

Lemma strlcat_ok dst d src s n :
  cstr dst d -> cstr src s -> zlen d < n -> n <= zlen dst ->
  strlcat dst src n =
    Some (splice (zlen d) (take (Z.to_nat (n - 1 - zlen d)) s ++ [0]) dst).
Proof.
  intros Hd Hs Hn Hl. pose proof (zlen_nonneg d). unfold strlcat.
  rewrite (strlcat_end_ok dst d) by (done || lia). simpl.
  apply bounded_copy_ok; [done | lia..].
Qed.

(** ** Decimal numbers

    [decimal n] is the decimal spelling of [n] in ASCII: the specification of
    [itoa]. *)

Fixpoint le_digits (fuel : nat) (un : Z) : list Z :=
  match fuel with
  | O => []
  | S fuel => (un mod 10 + 48) :: (if 0 <? un / 10 then le_digits fuel (un / 10) else [])
  end.

Definition decimal (n : Z) : list Z :=
  (if n <? 0 then [45] else []) ++ rev (le_digits 10 (Z.abs n)).

Lemma le_digits_len fuel un : (length (le_digits fuel un) <= fuel)%nat.
Proof.
  revert un. induction fuel as [|fuel IH]; intros un; simpl; [lia|].
  destruct (0 <? un / 10); simpl; [specialize (IH (un / 10))|]; lia.
Qed.

Lemma le_digits_range fuel un : Forall (fun c => 48 <= c <= 57) (le_digits fuel un).
Proof.
  revert un. induction fuel as [|fuel IH]; intros un; simpl; [constructor|].
  constructor; [pose proof (Z.mod_pos_bound un 10); lia|].
  destruct (0 <? un / 10); [apply IH | constructor].
Qed.

Lemma le_digits_value fuel un :
  0 <= un < 10 ^ Z.of_nat fuel ->
  fold_left (fun a c => a * 10 + (c - 48)) (rev (le_digits fuel un)) 0 = un.
Proof.
  revert un. induction fuel as [|fuel IH]; intros un Hu; [simpl in *; lia|].
  cbn [le_digits rev]. rewrite fold_left_app. cbn [fold_left].
  pose proof (Z.div_mod un 10). pose proof (Z.mod_pos_bound un 10).
  rewrite Nat2Z.inj_succ, Z.pow_succ_r in Hu by lia.
  case_if; b2p.
  - rewrite IH; [lia|]. split; [lia|]. apply Z.div_lt_upper_bound; lia.
  - simpl. assert (0 <= un / 10) by (apply Z.div_pos; lia). lia.
Qed.

Lemma itoa_digits_ok fuel un i str :
  0 <= i -> 0 <= un < 10 ^ Z.of_nat fuel -> (0 < fuel)%nat ->
  i + zlen (le_digits fuel un) <= zlen str ->
  itoa_digits fuel un i str =
    Some (splice i (le_digits fuel un) str, i + zlen (le_digits fuel un)).
Proof.
  revert un i str. induction fuel as [|fuel IH]; intros un i str Hi Hu Hf Hl; [lia|].
  cbn [itoa_digits le_digits] in *. rewrite zlen_cons in *.
  rewrite Nat2Z.inj_succ, Z.pow_succ_r in Hu by lia.
  pose proof (zlen_nonneg (if 0 <? un / 10 then le_digits fuel (un / 10) else [])).
  rewrite st_in by lia. ob. case_if; b2p.
  - assert (fuel <> 0%nat) by (intros ->; simpl in *; word_lia).
    rewrite IH; [| lia | split; [lia | apply Z.div_lt_upper_bound; lia] | lia
                | rewrite zlen_insert; lia].
    rewrite splice_cons by lia. do 2 f_equal. lia.
  - rewrite splice_cons, splice_nil by (rewrite ?(zlen_nil (A:=Z)); lia).
    do 2 f_equal.
Qed.

Lemma ld_middle (l r : mem) x : ld (l ++ x :: r) (zlen l) = Some x.
Proof.
  rewrite ld_nonneg by apply zlen_nonneg. unfold zlen. rewrite Nat2Z.id.
  by rewrite list_lookup_middle.
Qed.

Lemma st_middle (l r : mem) x v : st (l ++ x :: r) (zlen l) v = Some (l ++ v :: r).
Proof.
  rewrite st_in.
  - unfold zlen. rewrite Nat2Z.id.
    by rewrite <- (Nat.add_0_r (length l)), insert_app_r.
  - rewrite zlen_app, zlen_cons. pose proof (zlen_nonneg l). pose proof (zlen_nonneg r). lia.
Qed.

Lemma itoa_reverse_ok fuel (a m b : mem) :
  (length m < 2 * fuel)%nat ->
  itoa_reverse fuel (zlen a) (zlen a + zlen m - 1) (a ++ m ++ b) = Some (a ++ rev m ++ b).
Proof.
  revert a m b. induction fuel as [|fuel IH]; intros a m b Hf; [lia|].
  cbn [itoa_reverse].
  destruct m as [|x m]; [unfold zlen; simpl; by rewrite (proj2 (Z.ltb_ge _ _)) by lia|].
  destruct m as [|y m _] using rev_ind.
  { unfold zlen; simpl; by rewrite (proj2 (Z.ltb_ge _ _)) by lia. }
  rewrite zlen_cons, zlen_app, zlen_cons, (zlen_nil (A:=Z)).
  pose proof (zlen_nonneg m).
  rewrite (proj2 (Z.ltb_lt _ _)) by lia.
  cbn [app]. rewrite ld_middle. ob.
  replace (a ++ x :: (m ++ [y]) ++ b) with ((a ++ x :: m) ++ y :: b)
    by (rewrite <- !app_assoc; simpl; by rewrite <- ?app_assoc).
  replace (zlen a + (1 + (zlen m + (1 + 0))) - 1) with (zlen (a ++ x :: m))
    by (rewrite zlen_app, zlen_cons; lia).
  rewrite ld_middle. ob. rewrite <- app_assoc. cbn [app]. rewrite st_middle. ob.
  replace (a ++ y :: m ++ y :: b) with ((a ++ y :: m) ++ y :: b)
    by (rewrite <- !app_assoc; done).
  replace (zlen (a ++ x :: m)) with (zlen (a ++ y :: m))
    by (rewrite !zlen_app, !zlen_cons; done).
  rewrite st_middle. ob.
  replace ((a ++ y :: m) ++ x :: b) with ((a ++ [y]) ++ m ++ (x :: b))
    by (rewrite <- !app_assoc; done).
  specialize (IH (a ++ [y]) m (x :: b)).
  rewrite zlen_app in IH |- *. rewrite !zlen_cons, (zlen_nil (A:=Z)) in *.
  replace (zlen a + (1 + zlen m) - 1) with (zlen a + (1 + 0) + zlen m - 1) by lia.
  replace (zlen a + 1) with (zlen a + (1 + 0)) by lia.
  rewrite IH.
  - f_equal. cbn [rev]. rewrite rev_app_distr. simpl. by rewrite <- !app_assoc.
  - simpl in Hf. rewrite length_app in Hf. simpl in Hf. lia.
Qed.

(** What is left of a buffer after a prefix has been overwritten. *)
Lemma splice_0 (l m : mem) : splice 0 l m = l ++ drop (length l) m.
Proof. done. Qed.

Lemma drop_cons_ex (m : mem) (k : nat) :
  (k < length m)%nat -> exists x, drop k m = x :: drop (S k) m.
Proof.
  intros H. destruct (lookup_lt_is_Some_2 m k H) as [x Hx].
  exists x. by apply drop_S.
Qed.

Lemma itoa_ok n str :
  is_i32 n -> 12 <= zlen str ->
  itoa n str = Some (decimal n ++ 0 :: drop (S (length (decimal n))) str).
Proof.
  intros Hn Hl. unfold itoa, decimal.
  set (un := if n <? 0 then u32 (- u32 n) else u32 n).
  assert (Hun : un = Z.abs n).
  { unfold un. destruct (n <? 0) eqn:E; b2p; word_lia. }
  pose proof (le_digits_len 10 (Z.abs n)) as HL. rewrite Hun.
  set (D := le_digits 10 (Z.abs n)) in *.
  assert (Habs : 0 <= Z.abs n < 10 ^ Z.of_nat 10) by (unfold is_i32 in Hn; lia).
  unfold zlen in Hl.
  rewrite itoa_digits_ok by (fold D; unfold zlen; lia). fold D. ob.
  rewrite splice_0, Z.add_0_l.
  destruct (drop_cons_ex str (length D)) as [x ->]; [lia|].
  destruct (n <? 0); ob.
  - rewrite st_middle. ob.
    destruct (drop_cons_ex str (S (length D))) as [y ->]; [lia|].
    replace (D ++ 45 :: y :: _) with ((D ++ [45]) ++ y :: drop (S (S (length D))) str)
      by (by rewrite <- app_assoc).
    replace (zlen D + 1) with (zlen (D ++ [45])) by (by rewrite zlen_app).
    rewrite st_middle. ob.
    replace (zlen (D ++ [45]) - 1) with (zlen (@nil Z) + zlen (D ++ [45]) - 1) by done.
    pose proof (itoa_reverse_ok 7 [] (D ++ [45]) (0 :: drop (S (S (length D))) str)) as R.
    cbn [app] in R. change (zlen (@nil Z)) with 0 in R |- *. rewrite R.
    + rewrite rev_app_distr, length_app, length_rev. done.
    + rewrite length_app. cbn [length]. lia.
  - rewrite st_middle. ob.
    pose proof (itoa_reverse_ok 7 [] D (0 :: drop (S (length D)) str)) as R.
    cbn [app] in R. change (zlen (@nil Z)) with 0 in R.
    rewrite Z.add_0_l in R. rewrite R.
    + cbn [app]. by rewrite length_rev.
    + lia.
Qed.

Lemma decimal_nz n : Forall (fun c => c <> 0) (decimal n).
Proof.
  unfold decimal. apply Forall_app. split; [destruct (n <? 0); by repeat constructor|].
  apply Forall_rev. eapply Forall_impl; [|apply le_digits_range]. simpl. lia.
Qed.

Lemma itoa_cstr n str :
  is_i32 n -> 12 <= zlen str -> exists str', itoa n str = Some str' /\ cstr str' (decimal n).
Proof.
  intros. rewrite itoa_ok by done. eexists. split; [done|].
  split; [eauto | apply decimal_nz].
Qed.

Lemma i32_step a b : i32 (i32 a * 10 + b) = i32 (a * 10 + b).
Proof. word_lia. Qed.

Lemma atoi_loop_digits ds rest r :
  Forall (fun c => 48 <= c <= 57) ds ->
  atoi_loop (ds ++ 0 :: rest) (i32 r) =
    Some (i32 (fold_left (fun a c => a * 10 + (c - 48)) ds r)).
Proof.
  intros H. revert r. induction H as [|c ds Hc H IH]; intros r; [done|].
  cbn [app atoi_loop fold_left].
  assert (schar c = c) as -> by word_lia.
  rewrite (proj2 (Z.eqb_neq c 0)) by lia.
  rewrite (proj2 (Z.ltb_ge c 48)), (proj2 (Z.ltb_ge 57 c)) by lia. simpl.
  rewrite <- IH. f_equal.
  replace (i32 r * 10 + c - 48) with (i32 r * 10 + (c - 48)) by lia. apply i32_step.
Qed.

(** Converting any 32-bit integer to text with [itoa] and back with
    [atoi] gives the integer again, for a buffer of twelve bytes or more
    (the longest spelling, -2147483648 and its terminator, fills twelve);
    the text is the decimal spelling of the number, and neither routine
    leaves its buffer. *)
Theorem itoa_atoi_roundtrip n str :
  is_i32 n -> 12 <= zlen str ->
  exists str', itoa n str = Some str' /\ cstr str' (decimal n) /\
    zlen str' = zlen str /\ atoi str' = Some n.
Proof.
  intros Hn Hl. pose proof (itoa_ok n str Hn Hl) as E.
  eexists. split; [exact E|].
  assert (Habs : 0 <= Z.abs n < 10 ^ Z.of_nat 10) by (unfold is_i32 in Hn; lia).
  pose proof (le_digits_len 10 (Z.abs n)).
  split; [split; [eauto | apply decimal_nz]|]. split.
  { unfold zlen in *. rewrite length_app. cbn [length]. rewrite length_drop.
    assert (length (decimal n) <= 11)%nat; [|lia].
    unfold decimal. rewrite length_app, length_rev. destruct (n <? 0); simpl in *; lia. }
  unfold decimal, atoi. set (rest := drop _ str).
  pose proof (atoi_loop_digits (rev (le_digits 10 (Z.abs n))) rest 0
    (Forall_rev (le_digits_range _ _))) as L.
  rewrite le_digits_value in L by done. change (i32 0) with 0 in L.
  destruct (n <? 0) eqn:En; b2p.
  - cbn [app]. change (ld (45 :: _) 0) with (Some 45). ob.
    change (45 =? 45) with true. cbn [drop]. rewrite drop_0.
    rewrite L. ob. f_equal. word_lia.
  - cbn [app]. pose proof (le_digits_range 10 (Z.abs n)) as R%Forall_rev.
    destruct (rev (le_digits 10 (Z.abs n))) as [|c t] eqn:Er.
    { apply (f_equal length) in Er. rewrite length_rev in Er. cbn [le_digits length] in Er. lia. }
    apply Forall_cons_1 in R as [? _].
    change (ld ((c :: t) ++ 0 :: rest) 0) with (Some c). ob.
    rewrite (proj2 (Z.eqb_neq c 45)) by lia. rewrite L. ob. f_equal. word_lia.
Qed.

Lemma itoa_atoi_roundtrip_witness :
  exists str', itoa (-2147483648) (replicate 12 0) = Some str' /\
    atoi str' = Some (-2147483648).
Proof.
  destruct (itoa_atoi_roundtrip (-2147483648) (replicate 12 0)) as (s & H1 & _ & _ & H2);
    [unfold is_i32; lia | vm_compute; discriminate | eauto].
Defined.
