(* ===== verification/Printf.v ===== *)
(** * klib.c: [vsnprintf] and [snprintf]

    The formatter works through an output cursor (buffer, position, remaining
    space).  The arguments are the values [va_arg] will fetch, in order: a
    32-bit word, a 64-bit word or a string pointer; fetching one with another
    type has no result.  The format is the bytes from the pointer on, its
    terminator and what lies behind it included, so that reading past the
    format string is visible. *)

From S2P Require Import Prelude Klib.
#[local] Open Scope Z_scope.

Inductive varg := VInt (w : Z) | VLong (w : Z) | VStr (s : option mem).

(** ** Output cursor *)

Record out := mk_out { o_buf : mem; o_dst : Z; o_rem : Z }.

(** [if (remaining > 1) { *dst++ = c; remaining--; }] *)
Definition emit (c : Z) (o : out) : option out :=
  if 1 <? o_rem o then
    b ← st (o_buf o) (o_dst o) c; Some (mk_out b (o_dst o + 1) (o_rem o - 1))
  else Some o.

(** The emission loops [for (...; i < n && remaining > 1; i++)]. *)
Fixpoint emit_list (l : list Z) (o : out) : option out :=
  match l with [] => Some o | c :: l => o' ← emit c o; emit_list l o' end.

(** ** Parsing a conversion *)

Record flags := mk_flags { f_left : bool; f_plus : bool; f_space : bool; f_zero : bool; f_alt : bool }.
Definition no_flags : flags := mk_flags false false false false false.

Definition set_flag (c : Z) (f : flags) : option flags :=
  if c =? 45 then Some (mk_flags true (f_plus f) (f_space f) (f_zero f) (f_alt f))
  else if c =? 43 then Some (mk_flags (f_left f) true (f_space f) (f_zero f) (f_alt f))
  else if c =? 32 then Some (mk_flags (f_left f) (f_plus f) true (f_zero f) (f_alt f))
  else if c =? 48 then Some (mk_flags (f_left f) (f_plus f) (f_space f) true (f_alt f))
  else if c =? 35 then Some (mk_flags (f_left f) (f_plus f) (f_space f) (f_zero f) true)
  else None.

Fixpoint parse_flags (fmt : mem) (f : flags) : option (flags * mem) :=
  match fmt with
  | [] => None
  | c :: t => match set_flag c f with Some f' => parse_flags t f' | None => Some (f, fmt) end
  end.

(** [while ( *fmt >= '0' && *fmt <= '9') n = n * 10 + ( *fmt - '0')] *)
Fixpoint parse_num (fmt : mem) (n : Z) : option (Z * mem) :=
  match fmt with
  | [] => None
  | c :: t =>
      if (48 <=? schar c) && (schar c <=? 57) then parse_num t (i32 (n * 10 + (c - 48)))
      else Some (n, fmt)
  end.

Fixpoint parse_len (fmt : mem) (lng : Z) : option (Z * mem) :=
  match fmt with
  | [] => None
  | c :: t =>
      if c =? 108 then parse_len t (lng + 1)
      else if (c =? 122) || (c =? 116) then parse_len t 1
      else Some (lng, fmt)
  end.

(** ** Conversions *)

(** [tmp[tmp_len++] = c] in the 32-byte scratch array. *)
Definition push (tmp : list Z) (c : Z) : option (list Z) :=
  if zlen tmp <? 32 then Some (tmp ++ [c]) else None.

(** [do { push digit; v /= base; } while (v)], least significant digit first;
    64 rounds cover every base and every 64-bit value. *)
Definition digit (upper : bool) (d : Z) : Z :=
  if d <? 10 then d + 48 else d - 10 + (if upper then 65 else 97).

Fixpoint digits_loop (fuel : nat) (base : Z) (upper : bool) (v : Z) (tmp : list Z)
  : option (list Z) :=
  match fuel with
  | O => None
  | S fuel =>
      tmp' ← push tmp (digit upper (v mod base));
      if v / base =? 0 then Some tmp' else digits_loop fuel base upper (v / base) tmp'
  end.

Definition va_unsigned (lng : Z) (ap : list varg) : option (Z * list varg) :=
  match ap with
  | VLong w :: ap => if 2 <=? lng then Some (u64 w, ap) else None
  | VInt w :: ap => if 2 <=? lng then None else Some (u32 w, ap)
  | _ => None
  end.

Definition i64 (x : Z) : Z := (x + 2 ^ 63) mod 2 ^ 64 - 2 ^ 63.

Definition va_signed (lng : Z) (ap : list varg) : option (Z * list varg) :=
  match ap with
  | VLong w :: ap => if 2 <=? lng then Some (i64 w, ap) else None
  | VInt w :: ap => if 2 <=? lng then None else Some (i32 w, ap)
  | _ => None
  end.

(** The tail of the loop body: sign, padding and the reversed digits. *)
Definition number_chars (f : flags) (width sign fill : Z) (tmp : list Z) : list Z :=
  let pad0 := i32 (width - zlen tmp) in
  let pad := if negb (sign =? 0) && (fill =? 48) then i32 (pad0 - 1) else pad0 in
  let sgn := if sign =? 0 then [] else [sign] in
  if f_left f then sgn ++ rev tmp ++ replicate (Z.to_nat pad) 32
  else (if fill =? 48 then sgn else []) ++ replicate (Z.to_nat pad) fill
       ++ (if fill =? 32 then sgn else []) ++ rev tmp.

(** [while (s[len] && (prec < 0 || len < prec)) len++] *)
Fixpoint str_prec (s : mem) (prec len : Z) : option Z :=
  match s with
  | [] => None
  | c :: t =>
      if negb (c =? 0) && ((prec <? 0) || (len <? prec)) then str_prec t prec (len + 1)
      else Some len
  end.

Definition string_chars (f : flags) (width prec : Z) (s : mem) : option (list Z) :=
  len ← str_prec s prec 0;
  let text := take (Z.to_nat len) s in
  let spaces := replicate (Z.to_nat (width - len)) 32 in
  Some (if f_left f then text ++ spaces else spaces ++ text).

(** "(null)" *)
Definition null_text : mem := [40; 110; 117; 108; 108; 41; 0].

(** One conversion with conversion character [k]: the characters it emits and
    the remaining arguments. *)
Definition convert (k : Z) (f : flags) (width prec lng : Z) (ap : list varg)
  : option (list Z * list varg) :=
  let fill := if f_zero f then 48 else 32 in
  if (k =? 100) || (k =? 105) then
    '(v, ap) ← va_signed lng ap;
    let sign := if v <? 0 then 45 else if f_plus f then 43 else if f_space f then 32 else 0 in
    let uv := if v <? 0 then u64 (- v) else u64 v in
    tmp ← digits_loop 64 10 false uv []; Some (number_chars f width sign fill tmp, ap)
  else if k =? 117 then
    '(v, ap) ← va_unsigned lng ap;
    tmp ← digits_loop 64 10 false v []; Some (number_chars f width 0 fill tmp, ap)
  else if k =? 111 then
    '(v, ap) ← va_unsigned lng ap;
    tmp ← digits_loop 64 8 false v [];
    top ← ld tmp (zlen tmp - 1);
    tmp ← (if f_alt f && negb (top =? 48) then push tmp 48 else Some tmp);
    Some (number_chars f width 0 fill tmp, ap)
  else if (k =? 120) || (k =? 88) then
    '(v, ap) ← va_unsigned lng ap;
    tmp ← digits_loop 64 16 (k =? 88) v []; Some (number_chars f width 0 fill tmp, ap)
  else if k =? 112 then
    match ap with
    | VInt w :: ap =>
        t1 ← push [] 120; t2 ← push t1 48;
        tmp ← digits_loop 64 16 false (u32 w) t2; Some (number_chars f width 0 32 tmp, ap)
    | _ => None
    end
  else if k =? 115 then
    match ap with
    | VStr s :: ap =>
        l ← string_chars f width prec (match s with Some s => s | None => null_text end);
        Some (l, ap)
    | _ => None
    end
  else if k =? 99 then
    match ap with VInt w :: ap => Some ([u8 w], ap) | _ => None end
  else Some ([], ap).

(** A conversion, from the character after the '%' to the character after the
    conversion character. *)
Definition conversion (fmt : mem) (ap : list varg) : option (list Z * list varg * mem) :=
  '(f, fmt) ← parse_flags fmt no_flags;
  '(width, fmt) ← parse_num fmt 0;
  c ← ld fmt 0;
  '(width, fmt, ap) ←
    (if c =? 42 then
       match ap with VInt w :: ap => Some (i32 w, drop 1 fmt, ap) | _ => None end
     else Some (width, fmt, ap) : option (Z * mem * list varg));
  c ← ld fmt 0;
  '(prec, fmt) ← (if c =? 46 then parse_num (drop 1 fmt) 0 else Some (-1, fmt));
  '(lng, fmt) ← parse_len fmt 0;
  k ← ld fmt 0;
  '(l, ap) ← convert k f width prec lng ap;
  Some (l, ap, drop 1 fmt).

(** ** The formatting loop *)

(** One round: the characters the next item of the format emits. *)
Definition item (fmt : mem) (ap : list varg) : option (list Z * list varg * mem) :=
  c ← ld fmt 0;
  if negb (c =? 37) then Some ([c], ap, drop 1 fmt)
  else
    c1 ← ld fmt 1;
    if c1 =? 37 then Some ([37], ap, drop 2 fmt) else conversion (drop 1 fmt) ap.

Fixpoint format_loop (fuel : nat) (fmt : mem) (ap : list varg) (o : out) : option out :=
  match fuel with
  | O => None
  | S fuel =>
      c ← ld fmt 0;
      if c =? 0 then Some o
      else '(l, ap', fmt') ← item fmt ap; o' ← emit_list l o; format_loop fuel fmt' ap' o'
  end.

Definition vsnprintf (buf : mem) (size : Z) (fmt : mem) (args : list varg) : option (mem * Z) :=
  o ← format_loop (S (length fmt)) fmt args (mk_out buf 0 size);
  b ← (if 0 <? o_rem o then st (o_buf o) (o_dst o) 0
       else if 0 <? size then st (o_buf o) (size - 1) 0
       else Some (o_buf o));
  Some (b, i32 (o_dst o)).

Definition snprintf (buf : mem) (size : Z) (fmt : mem) (args : list varg) : option (mem * Z) :=
  vsnprintf buf size fmt args.

(** ** The text a format denotes

    [render] runs the same items without a buffer: the string an unbounded
    buffer would receive. *)
Fixpoint render_loop (fuel : nat) (fmt : mem) (ap : list varg) : option (list Z) :=
  match fuel with
  | O => None
  | S fuel =>
      c ← ld fmt 0;
      if c =? 0 then Some []
      else '(l, ap', fmt') ← item fmt ap; r ← render_loop fuel fmt' ap'; Some (l ++ r)
  end.

Definition render (fmt : mem) (ap : list varg) : option (list Z) :=
  render_loop (S (length fmt)) fmt ap.

(** ** Bounded output is truncation *)

Lemma emit_list_ok l b d r :
  0 <= d -> 0 <= r -> d + r <= zlen b ->
  emit_list l (mk_out b d r) =
    let n := Z.min (zlen l) (Z.max 0 (r - 1)) in
    Some (mk_out (splice d (take (Z.to_nat n) l) b) (d + n) (r - n)).
Proof.
  revert b d r. induction l as [|c l IH]; intros b d r Hd Hr Hb; cbv zeta.
  { rewrite (zlen_nil (A:=Z)), Z.min_l by lia. rewrite take_nil, splice_nil.
    cbn [emit_list]. by rewrite Z.add_0_r, Z.sub_0_r. }
  cbn [emit_list]. unfold emit. cbn [o_rem o_dst o_buf]. rewrite zlen_cons.
  pose proof (zlen_nonneg l). case_if; b2p.
  - rewrite st_in by lia. ob. rewrite IH by (rewrite ?zlen_insert; lia). cbv zeta.
    set (n := Z.min (zlen l) (Z.max 0 (r - 1 - 1))).
    replace (Z.min (1 + zlen l) (Z.max 0 (r - 1))) with (n + 1) by lia.
    replace (Z.to_nat (n + 1)) with (S (Z.to_nat n)) by lia. cbn [take].
    rewrite splice_cons; [|lia|].
    + do 2 f_equal; lia.
    + unfold zlen in *. rewrite length_take. lia.
  - ob. rewrite IH by lia. cbv zeta. rewrite !Z.min_r by lia.
    replace (Z.to_nat (Z.max 0 (r - 1))) with 0%nat by lia. by rewrite !take_0.
Qed.

Lemma format_loop_ok fuel fmt ap text b d r :
  render_loop fuel fmt ap = Some text -> 0 <= d -> 0 <= r -> d + r <= zlen b ->
  format_loop fuel fmt ap (mk_out b d r) =
    let n := Z.min (zlen text) (Z.max 0 (r - 1)) in
    Some (mk_out (splice d (take (Z.to_nat n) text) b) (d + n) (r - n)).
Proof.
  revert fmt ap text b d r. induction fuel as [|fuel IH]; intros fmt ap text b d r Hr Hd H0 Hb;
    [done|].
  cbn [render_loop format_loop] in *. destruct (ld fmt 0) as [c|]; [|done]. revert Hr. ob.
  case_if.
  { intros [= <-]. cbv zeta. rewrite (zlen_nil (A:=Z)), Z.min_l by lia.
    rewrite take_nil, splice_nil. by rewrite Z.add_0_r, Z.sub_0_r. }
  destruct (item fmt ap) as [[[l ap'] fmt']|]; [|done]. ob.
  destruct (render_loop fuel fmt' ap') as [rest|] eqn:E; [|done]. ob. intros [= <-].
  rewrite emit_list_ok by lia. ob. cbv zeta. pose proof (zlen_nonneg l).
  pose proof (zlen_nonneg rest).
  set (n1 := Z.min (zlen l) (Z.max 0 (r - 1))).
  assert (Hz : zlen (take (Z.to_nat n1) l) = n1) by (unfold zlen in *; rewrite length_take; lia).
  rewrite (IH _ _ _ _ _ _ E) by (rewrite ?zlen_splice; lia). cbv zeta.
  set (n2 := Z.min (zlen rest) (Z.max 0 (r - n1 - 1))). rewrite zlen_app.
  replace (Z.min (zlen l + zlen rest) (Z.max 0 (r - 1))) with (n1 + n2) by lia.
  do 2 f_equal; [|lia..].
  assert (Hz2 : zlen (take (Z.to_nat n2) rest) = n2) by (unfold zlen in *; rewrite length_take; lia).
  rewrite <- Hz at 1. rewrite splice_app by lia. f_equal.
  destruct (decide (n1 = zlen l)) as [E1|].
  - rewrite (take_ge l) by (unfold zlen in *; lia).
    rewrite take_app_ge by (unfold zlen in *; lia). f_equal. f_equal. unfold zlen in *. lia.
  - replace n2 with 0 by lia. change (Z.to_nat 0) with 0%nat. rewrite take_0, app_nil_r, Z.add_0_r.
    rewrite take_app_le by (unfold zlen in *; lia). done.
Qed.

Lemma snprintf_ok buf size fmt args text :
  render fmt args = Some text -> 0 < size <= zlen buf -> is_i32 size ->
  let n := Z.min (zlen text) (size - 1) in
  snprintf buf size fmt args = Some (splice 0 (take (Z.to_nat n) text ++ [0]) buf, n).
Proof.
  intros Hr Hs Hi n. unfold snprintf, vsnprintf. unfold render in Hr.
  rewrite (format_loop_ok _ _ _ _ _ _ _ Hr) by lia. ob. cbv zeta. cbn [o_rem o_dst o_buf].
  replace (Z.max 0 (size - 1)) with (size - 1) by lia. fold n. rewrite Z.add_0_l.
  pose proof (zlen_nonneg text). rewrite (proj2 (Z.ltb_lt 0 (size - n))) by lia.
  assert (Hz : zlen (take (Z.to_nat n) text) = n) by (unfold zlen in *; rewrite length_take; lia).
  rewrite st_in by (rewrite zlen_splice; lia). ob.
  rewrite i32_small by (unfold is_i32 in *; lia). do 2 f_equal.
  rewrite <- splice_app by (rewrite ?zlen_1; lia). rewrite Hz, Z.add_0_l.
  rewrite (splice_cons n 0 []) by (rewrite ?zlen_splice, ?(zlen_nil (A:=Z)); lia).
  by rewrite splice_nil.
Qed.

(** [snprintf] is truncation of the formatted text.  Whenever the format
    and arguments denote a text, [snprintf] into a buffer of [size > 0] bytes
    stores the first [size - 1] characters of that text and a terminator,
    changes nothing else, never writes outside the buffer, and returns the
    number of characters stored. *)
Theorem snprintf_truncates buf size fmt args text :
  render fmt args = Some text -> 0 < size <= zlen buf -> is_i32 size ->
  let n := Z.min (zlen text) (size - 1) in
  snprintf buf size fmt args = Some (splice 0 (take (Z.to_nat n) text ++ [0]) buf, n).
Proof. apply snprintf_ok. Qed.

(** ** Numbers *)

(** The digits of [v] in a base, least significant first. *)
Fixpoint base_digits (fuel : nat) (base : Z) (upper : bool) (v : Z) : list Z :=
  match fuel with
  | O => []
  | S fuel => digit upper (v mod base) ::
              (if v / base =? 0 then [] else base_digits fuel base upper (v / base))
  end.

Lemma base_digits_len fuel base upper v : (length (base_digits fuel base upper v) <= fuel)%nat.
Proof.
  revert v. induction fuel as [|fuel IH]; intros v; cbn; [lia|].
  case_if; cbn; [lia|]. specialize (IH (v / base)). lia.
Qed.

(** More fuel than digits changes nothing. *)
Lemma base_digits_fuel f1 f2 base upper v :
  1 < base -> 0 <= v < base ^ Z.of_nat f1 -> (f1 <= f2)%nat -> (0 < f1)%nat ->
  base_digits f2 base upper v = base_digits f1 base upper v.
Proof.
  intros Hb. revert f2 v. induction f1 as [|f1 IH]; intros f2 v Hv Hf H0; [lia|].
  destruct f2 as [|f2]; [lia|]. cbn [base_digits]. f_equal. case_if; [done|]. b2p.
  rewrite Nat2Z.inj_succ, Z.pow_succ_r in Hv by lia.
  assert (Hq : 0 <= v / base < base ^ Z.of_nat f1)
    by (split; [apply Z.div_pos; lia|apply Z.div_lt_upper_bound; lia]).
  destruct f1 as [|f1]; [cbn in Hq; lia|]. apply IH; lia.
Qed.

Lemma digits_loop_ok fuel base upper v tmp :
  1 < base -> 0 <= v < base ^ Z.of_nat fuel -> (0 < fuel)%nat ->
  zlen tmp + Z.of_nat fuel <= 32 ->
  digits_loop fuel base upper v tmp = Some (tmp ++ base_digits fuel base upper v).
Proof.
  intros Hb. revert v tmp. induction fuel as [|fuel IH]; intros v tmp Hv Hf Ht; [lia|].
  cbn [digits_loop base_digits]. unfold push. rewrite (proj2 (Z.ltb_lt _ _)) by lia. ob.
  case_if; [done|]. b2p. rewrite Nat2Z.inj_succ, Z.pow_succ_r in Hv by lia.
  assert (Hq : 0 <= v / base < base ^ Z.of_nat fuel)
    by (split; [apply Z.div_pos; lia|apply Z.div_lt_upper_bound; lia]).
  rewrite IH; [by rewrite <- app_assoc|done| |rewrite zlen_app, zlen_1; lia].
  destruct fuel; [cbn in Hq; lia|lia].
Qed.

Lemma digits_loop_fuel fuel fuel' base upper v tmp r :
  digits_loop fuel base upper v tmp = Some r -> (fuel <= fuel')%nat ->
  digits_loop fuel' base upper v tmp = Some r.
Proof.
  revert fuel' v tmp. induction fuel as [|fuel IH]; intros fuel' v tmp H Hf; [done|].
  destruct fuel' as [|fuel']; [lia|]. cbn [digits_loop] in *.
  destruct (push tmp _) as [t|]; [|done]. revert H. ob. case_if; [done|].
  intros H. apply IH; [done|lia].
Qed.

(** The 64 rounds of the model are enough, and the scratch array holds the
    digits: 10 decimal, 8 hexadecimal for a 32-bit value. *)
Lemma digits32 base upper v tmp :
  10 <= base <= 16 -> is_u32 v -> zlen tmp <= 22 ->
  digits_loop 64 base upper v tmp = Some (tmp ++ base_digits 10 base upper v).
Proof.
  intros Hb Hv Ht. apply (digits_loop_fuel 10); [|lia].
  apply digits_loop_ok; try lia. unfold is_u32 in Hv.
  assert (10 ^ 10 <= base ^ 10) by (apply Z.pow_le_mono_l; lia). lia.
Qed.

Lemma base_digits_decimal fuel v :
  0 <= v -> base_digits fuel 10 false v = le_digits fuel v.
Proof.
  revert v. induction fuel as [|fuel IH]; intros v Hv; [done|]. cbn [base_digits le_digits].
  pose proof (Z.mod_pos_bound v 10 ltac:(lia)).
  assert (0 <= v / 10) by (apply Z.div_pos; lia).
  assert (digit false (v mod 10) = v mod 10 + 48) as ->
    by (unfold digit; by rewrite (proj2 (Z.ltb_lt _ _)) by lia).
  f_equal. destruct (v / 10 =? 0) eqn:E; b2p.
  - by rewrite (proj2 (Z.ltb_ge _ _)) by lia.
  - rewrite (proj2 (Z.ltb_lt _ _)) by lia. by apply IH.
Qed.

(** "%d", "%u", "%x" and "%p" as C strings. *)
Definition fmt_d : mem := [37; 100; 0].
Definition fmt_u : mem := [37; 117; 0].
Definition fmt_x : mem := [37; 120; 0].
Definition fmt_p : mem := [37; 112; 0].

(** A format that is a single conversion without flags. *)
Lemma render_single k args l ap :
  k ∈ [100; 117; 120; 112] -> convert k no_flags 0 (-1) 0 args = Some (l, ap) ->
  render [37; k; 0] args = Some l.
Proof.
  intros Hk Hc. unfold render. cbn [length render_loop].
  assert (Hi : item [37; k; 0] args = Some (l, ap, [0])).
  { unfold item. cbn [ld Z.leb]. change ([37; k; 0] !! Z.to_nat 0) with (Some 37).
    change ([37; k; 0] !! Z.to_nat 1) with (Some k). ob.
    rewrite !elem_of_cons, elem_of_nil in Hk.
    destruct Hk as [->|[->|[->|[->|[]]]]]; cbv -[convert no_flags]; by rewrite Hc. }
  change (ld [37; k; 0] 0) with (Some 37). ob. cbn [Z.eqb]. rewrite Hi. ob.
  change (ld [0] 0) with (Some 0). ob. cbn [Z.eqb]. ob. by rewrite app_nil_r.
Qed.

Lemma number_plain tmp : (length tmp <= 32)%nat -> number_chars no_flags 0 0 32 tmp = rev tmp.
Proof.
  intros H. unfold number_chars. cbn [f_left no_flags Z.eqb Pos.eqb negb andb app].
  rewrite i32_small by (unfold is_i32, zlen; lia).
  by replace (Z.to_nat (0 - zlen tmp)) with 0%nat by (unfold zlen; lia).
Qed.

Lemma number_minus tmp : (length tmp <= 32)%nat -> number_chars no_flags 0 45 32 tmp = 45 :: rev tmp.
Proof.
  intros H. unfold number_chars. cbn [f_left no_flags Z.eqb Pos.eqb negb andb app].
  rewrite i32_small by (unfold is_i32, zlen; lia).
  by replace (Z.to_nat (0 - zlen tmp)) with 0%nat by (unfold zlen; lia).
Qed.

Lemma render_d n : is_i32 n -> render fmt_d [VInt n] = Some (decimal n).
Proof.
  intros Hn. apply (render_single 100 _ _ []); [set_solver|].
  unfold convert. cbn [Z.eqb Pos.eqb orb va_signed Z.leb Z.compare f_zero no_flags f_plus f_space].
  ob. rewrite i32_small by done. unfold decimal.
  assert (Hu : (if n <? 0 then u64 (- n) else u64 n) = Z.abs n).
  { unfold is_i32 in Hn. case_ifs; unfold u64; rewrite Z.mod_small by lia; lia. }
  rewrite Hu, digits32 by (unfold is_i32, is_u32, zlen in *; cbn; lia). ob. cbn [app].
  rewrite base_digits_decimal by lia. pose proof (le_digits_len 10 (Z.abs n)).
  destruct (n <? 0); [rewrite number_minus by lia | rewrite number_plain by lia]; done.
Qed.

Lemma render_u n : is_u32 n -> render fmt_u [VInt n] = Some (decimal n).
Proof.
  intros Hn. apply (render_single 117 _ _ []); [set_solver|].
  unfold convert. cbn [Z.eqb Pos.eqb orb va_unsigned Z.leb Z.compare f_zero no_flags]. ob.
  rewrite u32_small by done. unfold decimal.
  rewrite digits32 by (unfold zlen in *; cbn; lia || done). ob. cbn [app].
  rewrite base_digits_decimal by (unfold is_u32 in *; lia).
  pose proof (le_digits_len 10 n). rewrite number_plain by lia.
  rewrite (proj2 (Z.ltb_ge _ _)) by (unfold is_u32 in *; lia).
  by rewrite Z.abs_eq by (unfold is_u32 in *; lia).
Qed.

(** [snprintf] of integers agrees with [itoa].  For every 32-bit integer,
    formatting with "%d" into a buffer of at least twelve bytes leaves the same
    string as [itoa], the decimal spelling of the number, and returns its
    length; "%u" spells the unsigned value of any 32-bit word. *)
Theorem snprintf_decimal buf size n m :
  is_i32 n -> is_u32 m -> 12 <= size <= zlen buf -> is_i32 size ->
  (exists b b', snprintf buf size fmt_d [VInt n] = Some (b, zlen (decimal n)) /\
     itoa n buf = Some b' /\ cstr b (decimal n) /\ cstr b' (decimal n)) /\
  (exists b, snprintf buf size fmt_u [VInt m] = Some (b, zlen (decimal m)) /\ cstr b (decimal m)).
Proof.
  intros Hn Hm Hs Hi.
  assert (Hlen : forall x, zlen (decimal x) <= 11).
  { intros x. unfold decimal. rewrite zlen_app. unfold zlen. rewrite length_rev.
    pose proof (le_digits_len 10 (Z.abs x)). case_if; cbn [length]; lia. }
  assert (Hs' : forall f a t, render f a = Some t -> zlen t <= 11 -> Forall (fun c => c <> 0) t ->
            exists b, snprintf buf size f a = Some (b, zlen t) /\ cstr b t).
  { intros f a t Hr Ht Hnz. pose proof (zlen_nonneg t).
    pose proof (snprintf_ok buf size f a t Hr ltac:(lia) Hi) as He. cbv zeta in He.
    rewrite Z.min_l, (take_ge t) in He by (unfold zlen in *; lia).
    eexists. split; [exact He|]. split; [|done]. rewrite splice_0, <- app_assoc. eauto. }
  destruct (itoa_cstr n buf Hn) as (b' & Hb' & Hc'); [lia|].
  destruct (Hs' fmt_d [VInt n] (decimal n) (render_d n Hn) (Hlen n) (decimal_nz n)) as (b & ? & ?).
  split; [by exists b, b'|].
  apply Hs'; [by apply render_u | apply Hlen | apply decimal_nz].
Qed.

(** ** Where the formatter departs from its description *)

(** "%p" prints its prefix at the wrong end.  The prefix is pushed before
    the digits and the whole array is then reversed, so every pointer is
    printed as its hexadecimal digits followed by "0x". *)
Theorem printf_pointer_reversed w :
  is_u32 w -> render fmt_p [VInt w] = Some (rev (base_digits 10 16 false w) ++ [48; 120]).
Proof.
  intros Hw. apply (render_single 112 _ _ []); [set_solver|].
  unfold convert. cbn [Z.eqb Pos.eqb orb f_zero no_flags].
  change (push [] 120) with (Some [120]). ob. change (push [120] 48) with (Some [120; 48]). ob.
  rewrite u32_small by done. rewrite digits32 by (unfold zlen in *; cbn; lia || done). ob.
  pose proof (base_digits_len 10 16 false w).
  rewrite number_plain by (rewrite length_app; cbn [length]; lia).
  rewrite rev_app_distr. done.
Qed.

(** A format ending in a lone '%' is read past its end.  After the '%' the
    loop steps over the terminator and goes on with whatever bytes follow the
    format string; when nothing follows, the access leaves the object. *)
Theorem printf_trailing_percent s buf size args :
  Forall (fun c => c <> 0 /\ c <> 37) s -> 0 < size <= zlen buf ->
  snprintf buf size (s ++ [37; 0]) args = None.
Proof.
  intros Hs Hb. unfold snprintf, vsnprintf.
  assert (H : forall fuel o, format_loop fuel (s ++ [37; 0]) args o = None).
  2: { by rewrite H. }
  induction Hs as [|c s [H0 H37] Hs IH]; intros fuel o; (destruct fuel as [|fuel]; [done|]).
  - cbn [app format_loop]. change (ld [37; 0] 0) with (Some 37). ob. cbn [Z.eqb].
    change (item [37; 0] args) with (Some ([] : list Z, args, [] : mem)). ob.
    destruct fuel; done.
  - cbn [app format_loop]. change (ld (c :: s ++ [37; 0]) 0) with (Some c). ob.
    rewrite (proj2 (Z.eqb_neq c 0)) by done. unfold item.
    change (ld (c :: s ++ [37; 0]) 0) with (Some c). ob.
    rewrite (proj2 (Z.eqb_neq c 37)) by done. cbn [negb]. ob. cbn [emit_list drop].
    destruct (emit c o) as [o'|]; [|done]. ob. rewrite drop_0. apply IH.
Qed.

(** Padding miscounts negative numbers.  With space padding the sign is
    not counted in the width: "%5d" of -12 is six characters long. *)
Theorem printf_negative_width :
  render [37; 53; 100; 0] [VInt (-12)] = Some [32; 32; 32; 45; 49; 50].
Proof. vm_compute. reflexivity. Qed.

Lemma snprintf_truncates_witness :
  snprintf [1; 1; 1; 1; 1] 4 [97; 37; 100; 0] [VInt 1234] = Some ([97; 49; 50; 0; 1], 3).
Proof.
  rewrite (snprintf_truncates [1; 1; 1; 1; 1] 4 [97; 37; 100; 0] [VInt 1234] [97; 49; 50; 51; 52]).
  - reflexivity.
  - vm_compute. reflexivity.
  - vm_compute. split; congruence.
  - word_lia.
Defined.

Lemma snprintf_decimal_witness :
  exists b, snprintf (replicate 12 7) 12 fmt_u [VInt 4294967295] = Some (b, 10).
Proof.
  destruct (snprintf_decimal (replicate 12 7) 12 (-1) 4294967295) as [_ (b & H & _)].
  - word_lia.
  - word_lia.
  - vm_compute. split; congruence.
  - word_lia.
  - exists b. exact H.
Defined.

Lemma printf_pointer_reversed_witness :
  render fmt_p [VInt 2748] = Some [97; 98; 99; 48; 120].
Proof. rewrite printf_pointer_reversed by word_lia. reflexivity. Defined.

Lemma printf_trailing_percent_witness :
  snprintf [0; 0; 0] 3 [53; 48; 37; 0] [] = None.
Proof.
  apply (printf_trailing_percent [53; 48]).
  - repeat constructor; lia.
  - vm_compute. split; congruence.
Defined.
