(* ===== verification/Validate.v ===== *)
(** * syscall/validate.c: user pointers and copies across the user boundary

    User memory is a partial map from 32-bit addresses to bytes ([None]:
    nothing is mapped there).  [validate_user_ptr] is arithmetic only; the
    string functions read memory, and each of their passes over the string may
    see a different memory, since other threads of the process run meanwhile. *)

From S2P Require Import Prelude Klib.
#[local] Open Scope Z_scope.

Definition KERNEL_BASE : Z := 3221225472.
Definition USER_SPACE_START : Z := 134217728.
Definition USER_STR_MAX : Z := 4096.

Definition umem := Z -> option Z.

Definition validate_user_ptr (addr size : Z) : Z :=
  if addr =? 0 then 0
  else if addr <? USER_SPACE_START then 0
  else if KERNEL_BASE <=? addr then 0
  else if size =? 0 then 1
  else
    let end_ := u32 (addr + size) in
    if end_ <? addr then 0
    else if KERNEL_BASE <? end_ then 0
    else 1.

Fixpoint user_str_loop (n : nat) (m : umem) (addr i : Z) : option Z :=
  match n with
  | O => Some 0
  | S n =>
      if KERNEL_BASE <=? u32 (addr + i) then Some 0
      else c ← m (u32 (addr + i)); if c =? 0 then Some 1 else user_str_loop n m addr (i + 1)
  end.

Definition validate_user_str (m : umem) (addr : Z) : option Z :=
  if addr =? 0 then Some 0
  else if addr <? USER_SPACE_START then Some 0
  else if KERNEL_BASE <=? addr then Some 0
  else user_str_loop (Z.to_nat USER_STR_MAX) m addr 0.

(** [memcpy] to and from user memory. *)
Fixpoint user_store (m : umem) (addr : Z) (l : list Z) : umem :=
  match l with
  | [] => m
  | b :: l => user_store (fun a => if a =? u32 addr then Some b else m a) (addr + 1) l
  end.

Fixpoint user_load (n : nat) (m : umem) (addr : Z) : option (list Z) :=
  match n with
  | O => Some []
  | S n => b ← m (u32 addr); l ← user_load n m (addr + 1); Some (b :: l)
  end.

Definition copy_to_user (m : umem) (dst : Z) (src : mem) (size : Z) : option (umem * Z) :=
  if validate_user_ptr dst size =? 0 then Some (m, -1)
  else if size <=? zlen src then Some (user_store m dst (slice 0 size src), 0) else None.

Definition copy_from_user (m : umem) (dst : mem) (src size : Z) : option (mem * Z) :=
  if validate_user_ptr src size =? 0 then Some (dst, -1)
  else l ← user_load (Z.to_nat size) m src; dst' ← memcpy dst 0 l 0 size; Some (dst', 0).

(** [copy_path_from_user]: the three passes over the string (validation,
    length, copy) read [m1], [m2] and [m3]; [heap_ok] is whether [kmalloc]
    succeeds.  The result is [None] for a null return. *)
Fixpoint path_len (n : nat) (m : umem) (addr len : Z) : option Z :=
  match n with
  | O => Some len
  | S n => c ← m (u32 (addr + len)); if c =? 0 then Some len else path_len n m addr (len + 1)
  end.

Fixpoint path_copy (n : nat) (m : umem) (addr : Z) (buf : mem) (i : Z) : option mem :=
  match n with
  | O => Some buf
  | S n => c ← m (u32 (addr + i)); buf' ← st buf i c; path_copy n m addr buf' (i + 1)
  end.

Definition copy_path_from_user (heap_ok : bool) (m1 m2 m3 : umem) (addr : Z)
  : option (option mem) :=
  v ← validate_user_str m1 addr;
  if v =? 0 then Some None
  else
    len ← path_len (Z.to_nat (USER_STR_MAX - 1)) m2 addr 0;
    if heap_ok then
      let buf := replicate (Z.to_nat (len + 1)) 0 in
      buf1 ← path_copy (Z.to_nat len) m3 addr buf 0;
      buf2 ← st buf1 len 0;
      Some (Some buf2)
    else Some None.

(** ** Theorems *)

(** C16: [validate_user_ptr] is exact.  For every 32-bit address and size it
    accepts the access if and only if the address lies in user space and the
    whole range [addr, addr + size), computed without wrap-around, ends at or
    below [KERNEL_BASE]; no wrapping size is accepted. *)
Theorem validate_user_ptr_exact addr size :
  is_u32 addr -> is_u32 size ->
  validate_user_ptr addr size =
    if (USER_SPACE_START <=? addr) && (addr <? KERNEL_BASE) && (addr + size <=? KERNEL_BASE)
    then 1 else 0.
Proof.
  intros Ha Hs. unfold validate_user_ptr, USER_SPACE_START, KERNEL_BASE, is_u32, u32 in *.
  destruct (Z.leb_spec (addr + size) 3221225472).
  - rewrite Z.mod_small by lia. repeat case_if; lia.
  - destruct (Z.leb_spec (2 ^ 32) (addr + size)).
    + replace ((addr + size) mod 2 ^ 32) with (addr + size - 2 ^ 32)
        by (apply Z.mod_unique with 1; lia).
      repeat case_if; lia.
    + rewrite Z.mod_small by lia. repeat case_if; lia.
Qed.

Lemma validate_user_ptr_inv addr size :
  is_u32 addr -> is_u32 size -> validate_user_ptr addr size <> 0 ->
  USER_SPACE_START <= addr /\ addr + size <= KERNEL_BASE.
Proof.
  unfold validate_user_ptr, USER_SPACE_START, KERNEL_BASE. intros Ha Hs.
  case_ifs; try lia; intros _; try lia. word_lia.
Qed.

Lemma user_store_other m addr l a :
  ~ (addr <= a < addr + zlen l) -> 0 <= addr -> addr + zlen l <= 2 ^ 32 ->
  user_store m addr l a = m a.
Proof.
  revert m addr. induction l as [|b l IH]; intros m addr Ha H0 Hl; [done|].
  cbn [user_store]. rewrite zlen_cons in *. pose proof (zlen_nonneg l).
  rewrite IH by lia. rewrite u32_small by (unfold is_u32; lia).
  case_ifs; [lia|done].
Qed.

Lemma user_load_store m addr l :
  0 <= addr -> addr + zlen l <= 2 ^ 32 ->
  user_load (length l) (user_store m addr l) addr = Some l.
Proof.
  revert m addr. induction l as [|b l IH]; intros m addr H0 Hl; [done|].
  cbn [user_store user_load length]. rewrite zlen_cons in *. pose proof (zlen_nonneg l).
  rewrite u32_small by (unfold is_u32; lia).
  rewrite user_store_other by lia. rewrite Z.eqb_refl. ob.
  by rewrite IH by lia.
Qed.

(** [copy_to_user] cannot write outside user space.  It returns for every
    32-bit address and size within the source object: either it refuses and
    memory is unchanged, or it stores exactly the source bytes at the address,
    every other byte of memory, and in particular every byte outside
    [USER_SPACE_START, KERNEL_BASE), keeping its value. *)
Theorem copy_to_user_confined m dst src size :
  is_u32 dst -> is_u32 size -> size <= zlen src ->
  exists m' r, copy_to_user m dst src size = Some (m', r) /\
    (r = -1 /\ m' = m \/
     r = 0 /\ user_load (Z.to_nat size) m' dst = Some (slice 0 size src) /\
     (forall a, ~ (dst <= a < dst + size) -> m' a = m a) /\
     (forall a, ~ (USER_SPACE_START <= a < KERNEL_BASE) -> m' a = m a)).
Proof.
  intros Hd Hs Hl. unfold copy_to_user. case_if; b2p; [eauto 10|].
  apply validate_user_ptr_inv in Hif; [|done..].
  rewrite (proj2 (Z.leb_le _ _)) by lia.
  assert (Hz : zlen (slice 0 size src) = size) by (unfold is_u32 in *; apply zlen_slice; lia).
  unfold is_u32, KERNEL_BASE in *.
  eexists _, _. split; [done|]. right. split; [done|]. split; [|split].
  - replace (Z.to_nat size) with (length (slice 0 size src)) by (unfold zlen in Hz; lia).
    apply user_load_store; lia.
  - intros a Ha. apply user_store_other; lia.
  - intros a Ha. apply user_store_other; lia.
Qed.

(** The string [s] and its terminator are at [addr], inside user space. *)
Definition user_str (m : umem) (addr : Z) (s : list Z) : Prop :=
  USER_SPACE_START <= addr /\ addr + zlen s < KERNEL_BASE /\
  (forall j c, ld s j = Some c -> c <> 0 /\ m (addr + j) = Some c) /\
  m (addr + zlen s) = Some 0.

Section user_str.
Context (m : umem) (addr : Z) (s : list Z) (Hs : user_str m addr s).

Lemma user_str_u32 i : 0 <= i <= zlen s -> u32 (addr + i) = addr + i.
Proof using Hs.
  intros. destruct Hs as (H1 & H2 & _). unfold USER_SPACE_START, KERNEL_BASE in *.
  apply u32_small. unfold is_u32. lia.
Qed.

(** The byte at offset [i]: inside the string, or its terminator. *)
Lemma user_str_byte i :
  0 <= i <= zlen s ->
  exists c, m (addr + i) = Some c /\ (c =? 0) = (i =? zlen s) /\ (i < zlen s -> ld s i = Some c).
Proof using Hs.
  intros Hi. destruct Hs as (_ & _ & Hin & Hend). destruct (decide (i = zlen s)) as [->|].
  - exists 0. split; [done|]. split; [|lia]. by rewrite !Z.eqb_refl.
  - destruct (ld_in s i) as [c Hc]; [lia|]. destruct (Hin i c Hc) as [Hnz Hm].
    exists c. split; [done|]. split; [|done].
    rewrite (proj2 (Z.eqb_neq c 0)) by done. by rewrite (proj2 (Z.eqb_neq i _)) by done.
Qed.

Lemma user_str_loop_ok (n : nat) i :
  0 <= i <= zlen s -> zlen s - i < Z.of_nat n -> user_str_loop n m addr i = Some 1.
Proof using Hs.
  revert i. induction n as [|n IH]; intros i Hi Hn; [lia|].
  cbn [user_str_loop]. rewrite user_str_u32 by done.
  destruct (user_str_byte i Hi) as (c & -> & Hc & _).
  rewrite (proj2 (Z.leb_gt _ _)) by (destruct Hs as (_ & ? & _); lia). ob.
  rewrite Hc. destruct (i =? zlen s) eqn:E; b2p; [done|]. apply IH; lia.
Qed.

Lemma path_len_ok (n : nat) i :
  0 <= i <= zlen s -> zlen s - i <= Z.of_nat n -> path_len n m addr i = Some (zlen s).
Proof using Hs.
  revert i. induction n as [|n IH]; intros i Hi Hn; cbn [path_len]; [f_equal; lia|].
  rewrite user_str_u32 by done. destruct (user_str_byte i Hi) as (c & -> & Hc & _). ob.
  rewrite Hc. destruct (i =? zlen s) eqn:E; b2p; [by subst|]. apply IH; lia.
Qed.

Lemma path_copy_ok (n : nat) i buf :
  0 <= i -> i + Z.of_nat n <= zlen s -> i + Z.of_nat n <= zlen buf ->
  path_copy n m addr buf i = Some (splice i (slice i (Z.of_nat n) s) buf).
Proof using Hs.
  revert i buf. induction n as [|n IH]; intros i buf Hi Hn Hb.
  { by rewrite slice_0, splice_nil. }
  cbn [path_copy]. rewrite user_str_u32 by lia.
  destruct (user_str_byte i) as (c & -> & _ & Hc); [lia|]. ob. rewrite st_in by lia. ob.
  rewrite IH by (rewrite ?zlen_insert; lia).
  replace (Z.of_nat (S n)) with (1 + Z.of_nat n) by lia.
  rewrite slice_app_split by lia. rewrite (slice_1 i s c) by (first [lia | apply Hc; lia]).
  cbn [app]. rewrite splice_cons; [done | lia | rewrite zlen_slice; lia].
Qed.

End user_str.

(** [copy_path_from_user] copies the path.  If the process leaves the
    string alone during the call and it is shorter than 4096 bytes and lies in
    user space, the result is a fresh buffer holding exactly the string and
    its terminator. *)
Theorem copy_path_from_user_exact m addr s :
  user_str m addr s -> zlen s < USER_STR_MAX ->
  copy_path_from_user true m m m addr = Some (Some (s ++ [0])).
Proof.
  intros Hs Hl. pose proof Hs as (H1 & H2 & _).
  pose proof (zlen_nonneg s) as Hnn. unfold USER_STR_MAX in Hl.
  unfold copy_path_from_user, validate_user_str, USER_SPACE_START in *.
  rewrite (proj2 (Z.eqb_neq addr 0)), (proj2 (Z.ltb_ge _ _)), (proj2 (Z.leb_gt _ _)) by lia.
  rewrite (user_str_loop_ok m addr s Hs) by (unfold USER_STR_MAX; lia). ob.
  rewrite (proj2 (Z.eqb_neq 1 0)) by lia.
  rewrite (path_len_ok m addr s Hs) by (unfold USER_STR_MAX; lia). ob.
  assert (Hz : zlen (replicate (Z.to_nat (zlen s + 1)) 0) = zlen s + 1)
    by (rewrite zlen_replicate; lia).
  rewrite (path_copy_ok m addr s Hs) by lia. rewrite Z2Nat.id, slice_full by lia. ob.
  rewrite st_in by (rewrite zlen_splice; lia). ob. do 2 f_equal.
  unfold splice, zlen in *. rewrite Nat2Z.id. cbn [Z.to_nat take app Nat.add].
  replace (Z.to_nat (Z.of_nat (length s) + 1)) with (S (length s)) by lia.
  rewrite replicate_S_end, drop_app_length' by (by rewrite length_replicate).
  pose proof (insert_app_r s [0] 0 0) as Hi. rewrite Nat.add_0_r in Hi. exact Hi.
Qed.

Lemma path_len_range (n : nat) m addr i len :
  path_len n m addr i = Some len -> i <= len <= i + Z.of_nat n.
Proof.
  revert i. induction n as [|n IH]; intros i; cbn [path_len].
  { intros [= <-]. lia. }
  destruct (m _); ob; [|done]. case_if; [intros [= <-]; lia|]. intros H%IH. lia.
Qed.

Lemma path_copy_total (n : nat) m addr i buf :
  (forall a, exists c, m a = Some c) -> 0 <= i -> i + Z.of_nat n <= zlen buf ->
  exists buf', path_copy n m addr buf i = Some buf' /\ zlen buf' = zlen buf.
Proof.
  intros Hm. revert i buf. induction n as [|n IH]; intros i buf Hi Hb; [cbn; eauto|].
  cbn [path_copy]. destruct (Hm (u32 (addr + i))) as [c ->]. ob. rewrite st_in by lia. ob.
  destruct (IH (i + 1) (<[Z.to_nat i:=c]> buf)) as (b & -> & Hl);
    [lia | rewrite zlen_insert; lia|].
  rewrite zlen_insert in Hl. eauto.
Qed.

Lemma path_len_total (n : nat) m addr i :
  (forall a, exists c, m a = Some c) -> exists len, path_len n m addr i = Some len.
Proof.
  intros Hm. revert i. induction n as [|n IH]; intros i; cbn [path_len]; [eauto|].
  destruct (Hm (u32 (addr + i))) as [c ->]. ob. case_if; eauto.
Qed.

Lemma user_str_loop_total (n : nat) m addr i :
  (forall a, exists c, m a = Some c) -> exists v, user_str_loop n m addr i = Some v.
Proof.
  intros Hm. revert i. induction n as [|n IH]; intros i; cbn [user_str_loop]; [eauto|].
  case_if; [eauto|]. destruct (Hm (u32 (addr + i))) as [c ->]. ob. case_if; eauto.
Qed.

(** A process that rewrites its path while the kernel copies it cannot
    break the copy.  Whatever the three passes read (they may read three
    different memories), the call returns, never stores outside its buffer, and
    the path it hands to the kernel is terminated by its last byte, within 4096
    bytes. *)
Theorem copy_path_from_user_race heap_ok m1 m2 m3 addr :
  (forall a, exists c, m1 a = Some c) -> (forall a, exists c, m2 a = Some c) ->
  (forall a, exists c, m3 a = Some c) ->
  exists r, copy_path_from_user heap_ok m1 m2 m3 addr = Some r /\
    (r = None \/ exists buf, r = Some buf /\ 0 < zlen buf <= USER_STR_MAX /\
                           ld buf (zlen buf - 1) = Some 0).
Proof.
  intros Hm1 Hm2 Hm3. unfold copy_path_from_user.
  assert (exists v, validate_user_str m1 addr = Some v) as [v ->].
  { unfold validate_user_str. case_ifs; eauto. by apply user_str_loop_total. }
  ob. case_if; [eauto|].
  destruct (path_len_total (Z.to_nat (USER_STR_MAX - 1)) m2 addr 0 Hm2) as [len Hlen].
  rewrite Hlen. ob. apply path_len_range in Hlen. unfold USER_STR_MAX in *.
  destruct heap_ok; [|eauto].
  assert (Hz : zlen (replicate (Z.to_nat (len + 1)) 0) = len + 1)
    by (rewrite zlen_replicate; lia).
  destruct (path_copy_total (Z.to_nat len) m3 addr 0 (replicate (Z.to_nat (len + 1)) 0) Hm3)
    as (b & -> & Hb); [lia..|]. ob.
  destruct (st b len 0) as [b'|] eqn:E; [|rewrite st_in in E by lia; done]. ob.
  eexists. split; [done|]. right. exists b'. split; [done|].
  rewrite (zlen_st _ _ _ _ E), Hb, Hz. split; [lia|].
  replace (len + 1 - 1) with len by lia. apply (ld_st_eq _ _ _ _ E).
Qed.

Lemma validate_user_ptr_exact_witness :
  validate_user_ptr 4294967295 2 = 0 /\ validate_user_ptr 134217728 4096 = 1.
Proof.
  split; rewrite validate_user_ptr_exact by word_lia; reflexivity.
Defined.

Lemma copy_to_user_confined_witness :
  exists m' r, copy_to_user (fun _ => Some 7) 3221225471 [1; 2] 1 = Some (m', r) /\
    m' 3221225472 = Some 7.
Proof.
  destruct (copy_to_user_confined (fun _ => Some 7) 3221225471 [1; 2] 1)
    as (m' & r & He & Hr); [word_lia | word_lia | unfold zlen; simpl; lia |].
  exists m', r. split; [exact He|].
  destruct Hr as [[_ ->] | (_ & _ & _ & Hk)]; [reflexivity|].
  apply Hk. unfold KERNEL_BASE. lia.
Defined.

Lemma copy_path_from_user_exact_witness :
  let m := user_store (fun _ => None) 134217728 [47; 116; 109; 112; 0] in
  copy_path_from_user true m m m 134217728 = Some (Some [47; 116; 109; 112; 0]).
Proof.
  intros m. apply (copy_path_from_user_exact m 134217728 [47; 116; 109; 112]).
  - split; [unfold USER_SPACE_START; lia|].
    split; [unfold zlen, KERNEL_BASE; simpl; lia|]. split; [|reflexivity].
    intros j c Hj. pose proof (ld_Some_lt _ _ _ Hj) as Hlt.
    change (zlen [47; 116; 109; 112]) with 4 in Hlt.
    assert (j = 0 \/ j = 1 \/ j = 2 \/ j = 3) as [->|[->|[->| ->]]] by lia;
      injection Hj as <-; split; done.
  - unfold zlen, USER_STR_MAX. simpl. lia.
Defined.

Lemma copy_path_from_user_race_witness :
  exists r, copy_path_from_user true (fun a => Some (if a =? 134217730 then 0 else 65))
              (fun a => Some (if a =? 134217731 then 0 else 66)) (fun _ => Some 67) 134217728 = Some r /\
    exists buf, r = Some buf /\ zlen buf = 4 /\ ld buf 3 = Some 0.
Proof.
  destruct (copy_path_from_user_race true (fun a => Some (if a =? 134217730 then 0 else 65))
              (fun a => Some (if a =? 134217731 then 0 else 66)) (fun _ => Some 67) 134217728) as (r & He & Hr); [eauto..|].
  exists r. split; [exact He|]. destruct Hr as [-> | (buf & -> & _ & Hl)].
  - exfalso. revert He. vm_compute. discriminate.
  - exists buf. split; [reflexivity|].
    assert (Hb : zlen buf = 4).
    { revert He. generalize buf. intros b. vm_compute. intros [= <-]. reflexivity. }
    split; [exact Hb|]. rewrite Hb in Hl. exact Hl.
Defined.
