(* ===== verification/Ring.v ===== *)
(** * Ring buffers

    The pipe (pipe.c), the kernel log (klog.c) and the AF_UNIX receive buffer
    (unix_sock.c) all keep a byte queue in a circular array.  [ring_rep]
    relates such an array to the queue it holds; the lemmas say what the
    stores, the advances and the two-part block copies of the three sources do
    to that queue. *)

From S2P Require Import Prelude.
#[local] Open Scope Z_scope.

Section Ring.
Context (N : Z) (HN : 0 < N).

(** The array [buf] of [N] cells holds the queue [q], oldest element at
    index [off] (taken modulo [N]). *)
Definition ring_rep (buf : mem) (off : Z) (q : list Z) : Prop :=
  zlen buf = N /\ zlen q <= N /\
  forall i, 0 <= i < zlen q -> ld buf ((off + i) mod N) = ld q i.

Lemma mod_wrap r i :
  0 <= r < N -> 0 <= i <= N -> (r + i) mod N = if r + i <? N then r + i else r + i - N.
Proof using HN.
  intros. destruct (r + i <? N) eqn:E; b2p.
  - apply Z.mod_small. lia.
  - symmetry. apply Z.mod_unique with 1; lia.
Qed.

Lemma mod_idx_inj o i j :
  0 <= i < N -> 0 <= j < N -> (o + i) mod N = (o + j) mod N -> i = j.
Proof using HN.
  intros Hi Hj E. rewrite <- (Zplus_mod_idemp_l o i), <- (Zplus_mod_idemp_l o j) in E.
  pose proof (Z.mod_pos_bound o N HN).
  rewrite !mod_wrap in E by lia. revert E. case_ifs; lia.
Qed.

Lemma ring_off_mod buf off q : ring_rep buf (off mod N) q <-> ring_rep buf off q.
Proof.
  unfold ring_rep. split; intros (? & ? & H); (do 2 (split; [done|])); intros i Hi.
  - rewrite <- Zplus_mod_idemp_l. by apply H.
  - rewrite Zplus_mod_idemp_l. by apply H.
Qed.

Lemma ring_empty buf off : zlen buf = N -> ring_rep buf off [].
Proof using HN.
  intros. split; [done|]. unfold zlen at 1 2. simpl. split; [lia|]. intros. lia.
Qed.

Lemma ring_len buf off q : ring_rep buf off q -> 0 <= zlen q <= N.
Proof. intros (_ & ? & _). split; [apply zlen_nonneg | done]. Qed.

(** One store at the free end. *)
Lemma ring_push buf off q c :
  ring_rep buf off q -> zlen q < N ->
  exists buf', st buf ((off + zlen q) mod N) c = Some buf' /\ ring_rep buf' off (q ++ [c]).
Proof using HN.
  intros (Hl & _ & H) Hq. pose proof (Z.mod_pos_bound (off + zlen q) N HN).
  pose proof (zlen_nonneg q).
  destruct (st buf ((off + zlen q) mod N) c) as [buf'|] eqn:E;
    [|rewrite st_in in E by lia; done].
  exists buf'. split; [done|].
  assert (Hlen : zlen (q ++ [c]) = zlen q + 1) by (rewrite zlen_app; done).
  split; [by rewrite (zlen_st _ _ _ _ E)|]. split; [lia|].
  rewrite Hlen. intros i Hi.
  destruct (decide (i = zlen q)) as [->|Hne].
  - rewrite (ld_st_eq _ _ _ _ E). rewrite ld_nonneg by lia. unfold zlen.
    rewrite Nat2Z.id. by rewrite list_lookup_middle.
  - rewrite (ld_st_ne _ _ _ _ _ E).
    + rewrite H by lia. rewrite !ld_nonneg by lia. rewrite lookup_app_l; [done|].
      unfold zlen in *. lia.
    + intros Heq. apply Hne. symmetry. apply (mod_idx_inj off); lia.
Qed.

(** Advancing the read index forgets the oldest [n] bytes. *)
Lemma ring_advance buf off q n :
  ring_rep buf off q -> 0 <= n <= zlen q -> ring_rep buf (off + n) (drop (Z.to_nat n) q).
Proof.
  intros (Hl & Hq & H) Hn.
  assert (zlen (drop (Z.to_nat n) q) = zlen q - n) as Hlen
    by (unfold zlen in *; rewrite length_drop; lia).
  split; [done|]. rewrite Hlen. split; [lia|]. intros i Hi.
  rewrite <- Z.add_assoc, H by lia.
  rewrite !ld_nonneg by lia. rewrite lookup_drop. f_equal. lia.
Qed.

(** Reading one cell. *)
Lemma ring_nth buf off q i :
  ring_rep buf off q -> 0 <= i < zlen q -> ld buf ((off + i) mod N) = ld q i.
Proof. intros (_ & _ & H). apply H. Qed.

(** A block of [n] bytes read from index [r], in one part when it does not
    reach the end of the array and in two otherwise. *)
Definition ring_take (buf : mem) (r n : Z) : list Z :=
  if n <=? N - r then slice r n buf
  else slice r (N - r) buf ++ slice 0 (n - (N - r)) buf.

Lemma ring_read buf r q n :
  ring_rep buf r q -> 0 <= r < N -> 0 <= n <= zlen q ->
  ring_take buf r n = take (Z.to_nat n) q.
Proof using HN.
  intros Hrep Hr Hn. pose proof Hrep as (Hl & Hq & H).
  assert (Hlen : zlen (take (Z.to_nat n) q) = n)
    by (unfold zlen in *; rewrite length_take; lia).
  assert (Hlt : zlen (ring_take buf r n) = n).
  { unfold ring_take. case_ifs; [by apply zlen_slice; lia|].
    rewrite zlen_app, !zlen_slice by lia. lia. }
  apply ld_ext; [lia|]. rewrite Hlt. intros i Hi.
  assert (ld (take (Z.to_nat n) q) i = ld q i) as ->.
  { rewrite !ld_nonneg by lia. apply lookup_take_lt. lia. }
  rewrite <- H by lia. rewrite mod_wrap by lia.
  unfold ring_take. destruct (n <=? N - r) eqn:E1; b2p.
  - rewrite ld_slice by lia. case_ifs; [done | lia].
  - destruct (r + i <? N) eqn:E2; b2p.
    + rewrite ld_nonneg, lookup_app_l by (pose proof (zlen_slice r (N - r) buf);
        unfold zlen in *; lia).
      rewrite <- ld_nonneg by lia. apply ld_slice; lia.
    + pose proof (zlen_slice r (N - r) buf) as Hs.
      rewrite ld_nonneg, lookup_app_r by (unfold zlen in *; lia).
      replace (Z.to_nat i - length (slice r (N - r) buf))%nat
        with (Z.to_nat (r + i - N)) by (unfold zlen in *; lia).
      rewrite <- ld_nonneg by lia. rewrite ld_slice by lia. done.
Qed.

(** A block [bs] stored from index [w] on, likewise. *)
Definition ring_put (buf : mem) (w : Z) (bs : list Z) : mem :=
  if zlen bs <=? N - w then splice w bs buf
  else splice 0 (drop (Z.to_nat (N - w)) bs) (splice w (take (Z.to_nat (N - w)) bs) buf).

Lemma zlen_ring_put buf w bs :
  zlen buf = N -> 0 <= w < N -> zlen bs <= N -> zlen (ring_put buf w bs) = N.
Proof.
  intros. unfold ring_put. pose proof (zlen_nonneg bs). case_ifs.
  - rewrite zlen_splice; lia.
  - assert (zlen (take (Z.to_nat (N - w)) bs) = N - w)
      by (unfold zlen in *; rewrite length_take; lia).
    assert (zlen (drop (Z.to_nat (N - w)) bs) = zlen bs - (N - w))
      by (unfold zlen in *; rewrite length_drop; lia).
    rewrite zlen_splice; rewrite ?zlen_splice; lia.
Qed.

(** Cell [(w + i) mod N] holds the [i]-th byte of the block, for [i] inside
    it; the other cells are unchanged. *)
Lemma ld_ring_put buf w bs i :
  zlen buf = N -> 0 <= w < N -> zlen bs <= N -> 0 <= i < N ->
  ld (ring_put buf w bs) ((w + i) mod N) =
    if i <? zlen bs then ld bs i else ld buf ((w + i) mod N).
Proof using HN.
  intros Hb Hw Hbs Hi. rewrite mod_wrap by lia. unfold ring_put.
  pose proof (zlen_nonneg bs).
  destruct (zlen bs <=? N - w) eqn:E1; b2p.
  - destruct (i <? zlen bs) eqn:E2; b2p.
    + rewrite (proj2 (Z.ltb_lt (w + i) N)) by lia.
      rewrite ld_splice_in by lia. f_equal. lia.
    + destruct (w + i <? N) eqn:E3; b2p; rewrite ld_splice_out by lia; done.
  - assert (Ht : zlen (take (Z.to_nat (N - w)) bs) = N - w)
      by (unfold zlen in *; rewrite length_take; lia).
    assert (Hd : zlen (drop (Z.to_nat (N - w)) bs) = zlen bs - (N - w))
      by (unfold zlen in *; rewrite length_drop; lia).
    destruct (w + i <? N) eqn:E3; b2p.
    + rewrite (proj2 (Z.ltb_lt i (zlen bs))) by lia.
      rewrite ld_splice_out by (rewrite ?zlen_splice; lia).
      rewrite ld_splice_in by lia. rewrite !ld_nonneg by lia.
      rewrite lookup_take_lt by lia. f_equal. lia.
    + destruct (i <? zlen bs) eqn:E2; b2p.
      * rewrite ld_splice_in by (rewrite ?zlen_splice; lia).
        rewrite !ld_nonneg by lia. rewrite lookup_drop. f_equal. lia.
      * rewrite ld_splice_out by (rewrite ?zlen_splice; lia).
        rewrite ld_splice_out by lia. done.
Qed.

Lemma ring_write buf off q bs :
  ring_rep buf off q -> zlen q + zlen bs <= N ->
  ring_rep (ring_put buf ((off + zlen q) mod N) bs) off (q ++ bs).
Proof using HN.
  intros Hrep Hbs. pose proof Hrep as (Hl & Hq & H).
  pose proof (Z.mod_pos_bound (off + zlen q) N HN) as Hw.
  pose proof (zlen_nonneg q). pose proof (zlen_nonneg bs).
  split; [apply zlen_ring_put; lia|]. rewrite zlen_app. split; [done|]. intros i Hi.
  assert (E : forall j, 0 <= j < N ->
    (off + j) mod N =
      ((off + zlen q) mod N + (if j <? zlen q then N + j - zlen q else j - zlen q)) mod N).
  { intros j Hj. rewrite Zplus_mod_idemp_l. case_if; b2p.
    - replace (off + zlen q + (N + j - zlen q)) with (off + j + 1 * N) by lia.
      by rewrite Z_mod_plus_full.
    - f_equal. lia. }
  rewrite (E i) by lia. destruct (i <? zlen q) eqn:E1; b2p.
  - rewrite ld_ring_put by lia. rewrite (proj2 (Z.ltb_ge _ _)) by lia.
    pose proof (E i ltac:(lia)) as Ei.
    rewrite (proj2 (Z.ltb_lt i (zlen q))) in Ei by lia. rewrite <- Ei.
    rewrite H by lia. rewrite !ld_nonneg by lia. rewrite lookup_app_l; [done|].
    unfold zlen in *. lia.
  - rewrite ld_ring_put by lia. rewrite (proj2 (Z.ltb_lt _ _)) by lia.
    rewrite !ld_nonneg by lia. rewrite lookup_app_r by (unfold zlen in *; lia).
    f_equal. unfold zlen in *. lia.
Qed.

End Ring.
