(* ===== verification/Klog.v ===== *)
(** * klog.c: the kernel message log

    State: a power-of-two ring of bytes addressed by two free-running 32-bit
    counters, the pending (incomplete) line and the state of the ANSI escape
    filter.  The abstract log is the list of retained bytes, oldest first. *)

From S2P Require Import Prelude Klib Ring.
#[local] Open Scope Z_scope.

Definition KLOG_BUF_SIZE : Z := 131072.
Definition KLOG_BUF_MASK : Z := KLOG_BUF_SIZE - 1.
Definition KLOG_LINE_MAX : Z := 512.

Record klog_t := mk_klog {
  klog_buf : mem;
  klog_first : Z;
  klog_next : Z;
  klog_lines : Z;
  klog_lost : Z;
  klog_pend : mem;
  klog_pend_len : Z;
  klog_pend_trunc : Z;
  esc_state : Z
}.

(** The static initial values (zero-initialised storage). *)
Definition klog_boot : klog_t :=
  mk_klog (replicate (Z.to_nat KLOG_BUF_SIZE) 0) 0 0 0 0
          (replicate (Z.to_nat KLOG_LINE_MAX) 0) 0 0 0.

Definition klog_set_esc (e : Z) (k : klog_t) : klog_t :=
  mk_klog (klog_buf k) (klog_first k) (klog_next k) (klog_lines k) (klog_lost k)
          (klog_pend k) (klog_pend_len k) (klog_pend_trunc k) e.

Definition klog_set_pend (p : mem) (len trunc : Z) (k : klog_t) : klog_t :=
  mk_klog (klog_buf k) (klog_first k) (klog_next k) (klog_lines k) (klog_lost k)
          p len trunc (esc_state k).

(** One iteration of [klog_append]: drop the oldest byte when full, store. *)
Definition klog_putc (c : Z) (k : klog_t) : option klog_t :=
  let full := KLOG_BUF_SIZE <=? u32 (klog_next k - klog_first k) in
  let first := if full then u32 (klog_first k + 1) else klog_first k in
  let lost := if full then u32 (klog_lost k + 1) else klog_lost k in
  buf ← st (klog_buf k) (Z.land (klog_next k) KLOG_BUF_MASK) c;
  Some (mk_klog buf first (u32 (klog_next k + 1)) (klog_lines k) lost
                (klog_pend k) (klog_pend_len k) (klog_pend_trunc k) (esc_state k)).

Fixpoint klog_append_loop (n : nat) (s : mem) (i : Z) (k : klog_t) : option klog_t :=
  match n with
  | O => Some k
  | S n => c ← ld s i; k' ← klog_putc c k; klog_append_loop n s (i + 1) k'
  end.

Definition klog_append (s : mem) (n : Z) (k : klog_t) : option klog_t :=
  klog_append_loop (Z.to_nat n) s 0 k.

Definition klog_flush_line (k : klog_t) : option klog_t :=
  if klog_pend_len k =? 0 then Some (klog_set_pend (klog_pend k) 0 0 k)
  else
    k1 ← klog_append (klog_pend k) (klog_pend_len k) k;
    k2 ← klog_append [10] 1 k1;
    Some (mk_klog (klog_buf k2) (klog_first k2) (klog_next k2) (u32 (klog_lines k2 + 1))
                  (klog_lost k2) (klog_pend k2) 0 0 (esc_state k2)).

(** The loop body of [klog_feed] for one character. *)
Definition klog_feed_char (c0 : Z) (k : klog_t) : option klog_t :=
  let c := schar c0 in
  if esc_state k =? 1 then
    if (c =? 91) || (c =? 93) then Some (klog_set_esc 2 k)
    else if (64 <=? c) && (c <=? 126) then Some (klog_set_esc 0 k)
    else if c =? 27 then Some k
    else Some (klog_set_esc 0 k)
  else if esc_state k =? 2 then
    if c =? 7 then Some (klog_set_esc 0 k)
    else if c =? 27 then Some (klog_set_esc 3 k)
    else if (64 <=? c) && (c <=? 126) then Some (klog_set_esc 0 k)
    else Some k
  else if esc_state k =? 3 then Some (klog_set_esc (if c =? 92 then 0 else 2) k)
  else if c =? 27 then Some (klog_set_esc 1 k)
  else if c =? 13 then Some k
  else if c =? 10 then klog_flush_line k
  else if (c <? 32) && negb (c =? 9) then Some k
  else if klog_pend_len k <? KLOG_LINE_MAX then
    p ← st (klog_pend k) (klog_pend_len k) c0;
    Some (klog_set_pend p (u32 (klog_pend_len k + 1)) (klog_pend_trunc k) k)
  else Some (klog_set_pend (klog_pend k) (klog_pend_len k) (u32 (klog_pend_trunc k + 1)) k).

Fixpoint klog_feed_loop (n : nat) (text : mem) (i : Z) (k : klog_t) : option klog_t :=
  match n with
  | O => Some k
  | S n => c ← ld text i; k' ← klog_feed_char c k; klog_feed_loop n text (i + 1) k'
  end.

Definition klog_feed (text : option mem) (len : Z) (k : klog_t) : option klog_t :=
  match text with
  | None => Some k
  | Some text => if len =? 0 then Some k else klog_feed_loop (Z.to_nat len) text 0 k
  end.

Definition klog_available (k : klog_t) : Z := u32 (klog_next k - klog_first k).
Definition klog_line_count (k : klog_t) : Z := klog_lines k.
Definition klog_dropped_bytes (k : klog_t) : Z := klog_lost k.

(** The copy loop of [klog_read]; two iterations cover any request, because
    the ring holds at most one full turn. *)
Fixpoint klog_read_loop (fuel : nat) (kbuf : mem) (copied size idx : Z) (buf : mem)
  : option (mem * Z) :=
  match fuel with
  | O => None
  | S fuel =>
      if copied <? size then
        let phys := Z.land idx KLOG_BUF_MASK in
        let chunk0 := u32 (KLOG_BUF_SIZE - phys) in
        let chunk := if u32 (size - copied) <? chunk0 then u32 (size - copied) else chunk0 in
        buf' ← memcpy buf copied kbuf phys chunk;
        klog_read_loop fuel kbuf (u32 (copied + chunk)) size (u32 (idx + chunk)) buf'
      else Some (buf, copied)
  end.

Definition klog_read (off size : Z) (buf : option mem) (k : klog_t)
  : option (klog_t * option mem * Z) :=
  match buf with
  | None => Some (k, None, 0)
  | Some b =>
      if size =? 0 then Some (k, buf, 0)
      else
        k' ← klog_flush_line k;
        let avail := u32 (klog_next k' - klog_first k') in
        if avail <=? off then Some (k', buf, 0)
        else
          let size' := if u32 (avail - off) <? size then u32 (avail - off) else size in
          '(b', copied) ← klog_read_loop 3 (klog_buf k') 0 size' (u32 (klog_first k' + off)) b;
          Some (k', Some b', i32 copied)
  end.

(** ** The abstract log *)

(** What the ring retains of everything appended so far: the last
    [KLOG_BUF_SIZE] bytes. *)
Definition retain (l : list Z) : list Z :=
  drop (length l - Z.to_nat KLOG_BUF_SIZE) l.

Inductive esc_mode := ModeText | ModeEsc | ModeSeq | ModeSt.

Definition esc_code (m : esc_mode) : Z :=
  match m with ModeText => 0 | ModeEsc => 1 | ModeSeq => 2 | ModeSt => 3 end.

(** The retained text, the pending line and the escape filter's mode. *)
Record alog := mk_alog { al_log : list Z; al_line : list Z; al_mode : esc_mode }.

Definition alog_flush (a : alog) : alog :=
  match al_line a with
  | [] => a
  | line => mk_alog (retain (al_log a ++ line ++ [10])) [] (al_mode a)
  end.

(** Final bytes of escape sequences are those in [@, ~]. *)
Definition final_byte (c : Z) : bool := (64 <=? c) && (c <=? 126).

Definition alog_char (a : alog) (c : Z) : alog :=
  let to m := mk_alog (al_log a) (al_line a) m in
  match al_mode a with
  | ModeEsc =>
      to (if (c =? 91) || (c =? 93) then ModeSeq else if c =? 27 then ModeEsc else ModeText)
  | ModeSeq =>
      to (if c =? 7 then ModeText else if c =? 27 then ModeSt
          else if final_byte c then ModeText else ModeSeq)
  | ModeSt => to (if c =? 92 then ModeText else ModeSeq)
  | ModeText =>
      if c =? 27 then to ModeEsc
      else if c =? 10 then alog_flush a
      else if (c =? 9) || ((32 <=? c) && (c <? 128)) then
        mk_alog (al_log a) (take 512 (al_line a ++ [c])) ModeText
      else a
  end.

Definition klog_refines (k : klog_t) (a : alog) : Prop :=
  is_u32 (klog_first k) /\
  klog_next k = u32 (klog_first k + zlen (al_log a)) /\
  ring_rep KLOG_BUF_SIZE (klog_buf k) (klog_first k) (al_log a) /\
  zlen (klog_pend k) = KLOG_LINE_MAX /\
  klog_pend_len k = zlen (al_line a) /\
  zlen (al_line a) <= KLOG_LINE_MAX /\
  slice 0 (klog_pend_len k) (klog_pend k) = al_line a /\
  esc_state k = esc_code (al_mode a).

#[local] Ltac kcbn :=
  cbn [klog_buf klog_first klog_next klog_lines klog_lost klog_pend klog_pend_len
       klog_pend_trunc esc_state klog_set_esc klog_set_pend al_log al_line al_mode] in *.

Lemma KLOG_pos : 0 < KLOG_BUF_SIZE.
Proof. done. Qed.

Lemma land_mask x : Z.land x KLOG_BUF_MASK = x mod KLOG_BUF_SIZE.
Proof. exact (Z.land_ones x 17 ltac:(lia)). Qed.

Lemma retain_short l : zlen l <= KLOG_BUF_SIZE -> retain l = l.
Proof.
  intros H. unfold retain, zlen in *.
  replace (length l - Z.to_nat KLOG_BUF_SIZE)%nat with 0%nat by lia. apply drop_0.
Qed.

Lemma retain_app l m : retain (retain l ++ m) = retain (l ++ m).
Proof.
  unfold retain. set (N := Z.to_nat KLOG_BUF_SIZE). set (a := (length l - N)%nat).
  rewrite <- (drop_app_le l m a) by lia.
  rewrite drop_drop, length_drop, length_app. f_equal. lia.
Qed.

Lemma zlen_retain l : zlen (retain l) = Z.min (zlen l) KLOG_BUF_SIZE.
Proof.
  unfold retain, zlen. rewrite length_drop. pose proof KLOG_pos. lia.
Qed.

Lemma klog_refines_len k a :
  klog_refines k a -> u32 (klog_next k - klog_first k) = zlen (al_log a).
Proof.
  intros (Hf & Hn & Hr & _). apply ring_len in Hr. rewrite Hn.
  unfold KLOG_BUF_SIZE in Hr. word_lia.
Qed.

(** Everything but the ring is untouched. *)
Definition klog_frame (k k' : klog_t) : Prop :=
  klog_pend k' = klog_pend k /\ klog_pend_len k' = klog_pend_len k /\
  klog_pend_trunc k' = klog_pend_trunc k /\ esc_state k' = esc_state k /\
  klog_lines k' = klog_lines k.

Lemma klog_putc_ok k a c :
  klog_refines k a ->
  exists k', klog_putc c k = Some k' /\ klog_frame k k' /\
    klog_refines k' (mk_alog (retain (al_log a ++ [c])) (al_line a) (al_mode a)).
Proof.
  intros Hk. pose proof (klog_refines_len _ _ Hk) as Hlen.
  destruct Hk as (Hf & Hn & Hr & Hrest). pose proof KLOG_pos as HP.
  pose proof (ring_len _ _ _ _ Hr) as Hl.
  unfold klog_putc. rewrite Hlen, land_mask.
  assert (Hidx : klog_next k mod KLOG_BUF_SIZE
                 = (klog_first k + zlen (al_log a)) mod KLOG_BUF_SIZE).
  { rewrite Hn. unfold KLOG_BUF_SIZE in *. word_lia. }
  rewrite Hidx. destruct (KLOG_BUF_SIZE <=? zlen (al_log a)) eqn:E; b2p.
  - assert (Hadv : ring_rep KLOG_BUF_SIZE (klog_buf k) (klog_first k + 1) (drop 1 (al_log a)))
      by (apply (ring_advance _ _ _ _ 1 Hr); lia).
    assert (Hd : zlen (drop 1 (al_log a)) = zlen (al_log a) - 1)
      by (unfold zlen in *; rewrite length_drop; lia).
    destruct (ring_push _ HP _ _ _ c Hadv) as (buf' & Hst & Hr'); [lia|].
    rewrite Hd in Hst.
    replace (klog_first k + 1 + (zlen (al_log a) - 1)) with (klog_first k + zlen (al_log a))
      in Hst by lia.
    rewrite Hst. ob. eexists. split; [done|]. split; [by repeat split|].
    assert (Hret : retain (al_log a ++ [c]) = drop 1 (al_log a) ++ [c]).
    { unfold retain. rewrite length_app. cbn [length].
      rewrite <- drop_app_le by (unfold zlen in *; lia). f_equal. unfold zlen in *. lia. }
    unfold klog_refines. kcbn. rewrite Hret. split; [apply u32_range|].
    rewrite zlen_app, Hd. split.
    { rewrite Hn, zlen_1. clear -Hf Hl. word_lia. }
    split; [|done].
    apply ring_off_mod.
    replace (u32 (klog_first k + 1) mod KLOG_BUF_SIZE)
      with ((klog_first k + 1) mod KLOG_BUF_SIZE)
      by (unfold KLOG_BUF_SIZE; word_lia).
    by apply ring_off_mod.
  - destruct (ring_push _ HP _ _ _ c Hr) as (buf' & Hst & Hr'); [lia|].
    rewrite Hst. ob. eexists. split; [done|]. split; [by repeat split|].
    rewrite retain_short by (rewrite zlen_app, zlen_1; lia).
    unfold klog_refines. kcbn. split; [done|]. rewrite zlen_app. split; [|done].
    rewrite Hn, zlen_1. clear -Hf Hl. word_lia.
Qed.

Lemma klog_append_loop_ok (n : nat) s i k a :
  klog_refines k a -> 0 <= i -> i + Z.of_nat n <= zlen s ->
  exists k', klog_append_loop n s i k = Some k' /\ klog_frame k k' /\
    klog_refines k' (mk_alog (retain (al_log a ++ slice i (Z.of_nat n) s))
                             (al_line a) (al_mode a)).
Proof.
  revert i k a. induction n as [|n IH]; intros i k a Hk Hi Hs.
  - exists k. split; [done|]. split; [by repeat split|].
    rewrite slice_0, app_nil_r, retain_short; [by destruct a|].
    destruct Hk as (_ & _ & Hr & _). apply ring_len in Hr. lia.
  - cbn [klog_append_loop]. destruct (ld_in s i) as [c Hc]; [lia|]. rewrite Hc. ob.
    destruct (klog_putc_ok k a c Hk) as (k1 & -> & F1 & H1). ob.
    destruct (IH (i + 1) k1 _ H1) as (k2 & -> & F2 & H2); [lia..|].
    exists k2. split; [done|]. split.
    + destruct F1 as (?&?&?&?&?), F2 as (?&?&?&?&?). repeat split; congruence.
    + kcbn. rewrite retain_app, <- app_assoc in H2.
      replace (Z.of_nat (S n)) with (1 + Z.of_nat n) by lia.
      rewrite slice_app_split by lia. by rewrite (slice_1 i s c) by (done || lia).
Qed.

Lemma klog_append_ok s n k a :
  klog_refines k a -> 0 <= n <= zlen s ->
  exists k', klog_append s n k = Some k' /\ klog_frame k k' /\
    klog_refines k' (mk_alog (retain (al_log a ++ slice 0 n s)) (al_line a) (al_mode a)).
Proof.
  intros. destruct (klog_append_loop_ok (Z.to_nat n) s 0 k a) as (k' & ?); [done|lia..|].
  rewrite Z2Nat.id in * by lia. eauto.
Qed.

Lemma klog_flush_ok k a :
  klog_refines k a ->
  exists k', klog_flush_line k = Some k' /\ klog_refines k' (alog_flush a).
Proof.
  intros Hk. pose proof Hk as (Hf & Hn & Hr & Hp & Hpl & Hmax & Hs & He).
  unfold klog_flush_line, alog_flush. rewrite Hpl. destruct (al_line a) as [|c line] eqn:El.
  - change (zlen (@nil Z)) with 0. cbn [Z.eqb]. eexists. split; [done|].
    unfold klog_refines. kcbn. rewrite El. repeat (split; [done|]); done.
  - pose proof (zlen_nonneg line). rewrite zlen_cons in *.
    rewrite (proj2 (Z.eqb_neq _ _)) by lia.
    destruct (klog_append_ok (klog_pend k) (1 + zlen line) k a Hk) as (k1 & -> & F1 & H1);
      [lia|]. ob.
    destruct (klog_append_ok [10] 1 k1 _ H1) as (k2 & -> & F2 & H2);
      [unfold zlen; simpl; lia|]. ob.
    eexists. split; [done|]. kcbn. rewrite Hpl in Hs. rewrite Hs in H2.
    rewrite retain_app, <- app_assoc in H2. change (slice 0 1 [10]) with [10] in H2.
    destruct H2 as (? & ? & ? & ? & ? & ? & ? & ?).
    unfold klog_refines. kcbn. repeat (split; [done|]); done.
Qed.

(** [klog_feed] for one character is [alog_char]. *)
Lemma klog_feed_char_ok k a c :
  klog_refines k a -> is_u8 c ->
  exists k', klog_feed_char c k = Some k' /\ klog_refines k' (alog_char a c).
Proof.
  intros Hk Hc. pose proof Hk as (Hf & Hn & Hr & Hp & Hpl & Hmax & Hs & He).
  assert (Hesc : forall m, klog_refines (klog_set_esc (esc_code m) k)
                             (mk_alog (al_log a) (al_line a) m)).
  { intros m. unfold klog_refines. kcbn. repeat (split; [done|]); done. }
  assert (Hsc : schar c = if c <? 128 then c else c - 256) by (case_if; b2p; word_lia).
  assert (Hself : klog_refines k (mk_alog (al_log a) (al_line a) (al_mode a))) by (by destruct a).
  unfold is_u8 in Hc. unfold klog_feed_char, alog_char, final_byte. rewrite He, Hsc. clear Hsc.
  destruct (c <? 128) eqn:E128; destruct (al_mode a) eqn:Em;
    cbn [esc_code Z.eqb Pos.eqb]; repeat case_if; try lia;
    try (eexists; split; [reflexivity|];
         first [exact Hk | exact Hself | exact (Hesc ModeText) | exact (Hesc ModeEsc)
               | exact (Hesc ModeSeq) | exact (Hesc ModeSt)]);
    try (by apply klog_flush_ok).
  - pose proof (zlen_nonneg (al_line a)) as Hnn. unfold KLOG_LINE_MAX in *.
    assert (Hst : st (klog_pend k) (klog_pend_len k) c
                  = Some (<[Z.to_nat (klog_pend_len k) := c]> (klog_pend k)))
      by (apply st_in; lia).
    rewrite Hst. ob. eexists. split; [reflexivity|].
    pose proof (slice_st_end _ _ _ _ Hst) as Hsl. rewrite Hs in Hsl.
    rewrite take_ge by (rewrite length_app; cbn [length]; unfold zlen in *; lia).
    unfold klog_refines. kcbn. rewrite zlen_app, zlen_1, zlen_insert.
    replace (u32 (klog_pend_len k + 1)) with (klog_pend_len k + 1) by word_lia.
    unfold KLOG_LINE_MAX. repeat (split; [first [done | lia]|]). done.
  - eexists. split; [reflexivity|]. unfold KLOG_LINE_MAX in *.
    rewrite take_app_le by (unfold zlen in *; lia).
    rewrite take_ge by (unfold zlen in *; lia).
    unfold klog_refines. kcbn. repeat (split; [done|]); done.
Qed.

Lemma klog_feed_loop_ok (n : nat) text i k a :
  klog_refines k a -> bytes text -> 0 <= i -> i + Z.of_nat n <= zlen text ->
  exists k', klog_feed_loop n text i k = Some k' /\
    klog_refines k' (fold_left alog_char (slice i (Z.of_nat n) text) a).
Proof.
  revert i k a. induction n as [|n IH]; intros i k a Hk Hb Hi Hs.
  { exists k. by rewrite slice_0. }
  cbn [klog_feed_loop]. destruct (ld_in text i) as [c Hc]; [lia|]. rewrite Hc. ob.
  destruct (klog_feed_char_ok k a c Hk) as (k1 & -> & H1).
  { rewrite ld_nonneg in Hc by lia. by apply (Forall_lookup_1 _ _ _ _ Hb Hc). }
  ob. destruct (IH (i + 1) k1 _ H1) as (k2 & -> & H2); [done|lia..|].
  exists k2. split; [done|]. replace (Z.of_nat (S n)) with (1 + Z.of_nat n) by lia.
  rewrite slice_app_split, (slice_1 i text c) by (done || lia). done.
Qed.

(** Whatever bytes [klog_feed] is given and however often the ring has
    wrapped, the call stays inside its arrays and advances the abstract log. *)
Lemma klog_feed_ok k a text len :
  klog_refines k a -> bytes text -> 0 <= len <= zlen text ->
  exists k', klog_feed (Some text) len k = Some k' /\
    klog_refines k' (fold_left alog_char (slice 0 len text) a).
Proof.
  intros Hk Hb Hl. unfold klog_feed. case_if; b2p.
  { subst len. rewrite slice_0. eauto. }
  destruct (klog_feed_loop_ok (Z.to_nat len) text 0 k a) as (k' & ?); [done..|lia|lia|].
  rewrite Z2Nat.id in * by lia. eauto.
Qed.

(** The storage the kernel boots with represents the empty log. *)
Lemma klog_boot_refines : klog_refines klog_boot (mk_alog [] [] ModeText).
Proof.
  unfold klog_refines, klog_boot. kcbn.
  split; [word_lia|]. split; [done|]. split.
  { apply ring_empty; [done|]. by rewrite zlen_replicate. }
  split; [by rewrite zlen_replicate|]. done.
Qed.

(** One turn of the copy loop: the block from [idx] to the end of the array,
    or to the end of the request. *)
Lemma klog_read_step fuel kbuf copied size idx b :
  zlen kbuf = KLOG_BUF_SIZE -> 0 <= copied < size -> size <= zlen b ->
  is_u32 size -> 0 <= idx ->
  let r := idx mod KLOG_BUF_SIZE in
  let chunk := Z.min (size - copied) (KLOG_BUF_SIZE - r) in
  klog_read_loop (S fuel) kbuf copied size idx b =
  klog_read_loop fuel kbuf (copied + chunk) size (u32 (idx + chunk))
                 (splice copied (slice r chunk kbuf) b).
Proof.
  intros Hkl Hc Hb Hsz Hi r chunk. pose proof KLOG_pos as HP.
  pose proof (Z.mod_pos_bound idx KLOG_BUF_SIZE HP) as Hm. fold r in Hm.
  cbn [klog_read_loop]. rewrite (proj2 (Z.ltb_lt copied size)) by lia.
  rewrite land_mask. fold r.
  assert (Hch : (if u32 (size - copied) <? u32 (KLOG_BUF_SIZE - r)
                 then u32 (size - copied) else u32 (KLOG_BUF_SIZE - r)) = chunk).
  { unfold chunk, KLOG_BUF_SIZE, is_u32 in *.
    rewrite !u32_small by (unfold is_u32; lia). case_ifs; lia. }
  rewrite Hch. rewrite memcpy_ok by lia. ob.
  rewrite u32_small by (unfold is_u32 in *; lia). done.
Qed.

Lemma klog_read_loop_ok kbuf size idx q b :
  ring_rep KLOG_BUF_SIZE kbuf idx q -> is_u32 idx -> 0 < size <= zlen q ->
  size <= zlen b ->
  klog_read_loop 3 kbuf 0 size idx b = Some (splice 0 (take (Z.to_nat size) q) b, size).
Proof.
  intros Hr Hi Hs Hb. pose proof KLOG_pos as HP. pose proof (ring_len _ _ _ _ Hr) as Hl.
  pose proof (Z.mod_pos_bound idx KLOG_BUF_SIZE HP) as Hm.
  assert (Hkl : zlen kbuf = KLOG_BUF_SIZE) by apply Hr.
  assert (is_u32 size) by (unfold is_u32, KLOG_BUF_SIZE in *; lia).
  rewrite <- (ring_read KLOG_BUF_SIZE HP kbuf (idx mod KLOG_BUF_SIZE) q) by
    (try lia; by apply ring_off_mod).
  unfold ring_take. rewrite klog_read_step by (unfold is_u32 in *; lia).
  set (r := idx mod KLOG_BUF_SIZE) in *. rewrite Z.add_0_l, Z.sub_0_r. case_if; b2p.
  { rewrite Z.min_l by lia. cbn [klog_read_loop]. by rewrite Z.ltb_irrefl. }
  rewrite Z.min_r by lia.
  assert (Hs1 : zlen (slice r (KLOG_BUF_SIZE - r) kbuf) = KLOG_BUF_SIZE - r)
    by (apply zlen_slice; lia).
  assert (Hr0 : u32 (idx + (KLOG_BUF_SIZE - r)) mod KLOG_BUF_SIZE = 0).
  { unfold r, KLOG_BUF_SIZE in *. clear -Hi. word_lia. }
  rewrite klog_read_step; [|done|lia| |done|].
  2: { rewrite zlen_splice; lia. }
  2: { pose proof (u32_range (idx + (KLOG_BUF_SIZE - r))) as []; lia. }
  cbv zeta. rewrite Hr0, Z.sub_0_r, Z.min_l by lia.
  replace (KLOG_BUF_SIZE - r + (size - (KLOG_BUF_SIZE - r))) with size by lia.
  cbn [klog_read_loop]. rewrite Z.ltb_irrefl. rewrite <- Hs1 at 1.
  rewrite <- (splice_app 0), Z.add_0_l; [done..|lia| rewrite !zlen_slice by lia; lia].
Qed.

(** [klog_read] first completes the pending line and then stores exactly the
    bytes of the log from [off] on, as many as were asked for and exist. *)
Lemma klog_read_ok k a off size b :
  klog_refines k a -> 0 <= off -> 0 <= size <= zlen b -> is_u32 size ->
  let a' := if size =? 0 then a else alog_flush a in
  let got := if size =? 0 then [] else slice off size (al_log a') in
  exists k', klog_read off size (Some b) k = Some (k', Some (splice 0 got b), zlen got) /\
    klog_refines k' a'.
Proof.
  intros Hk Ho Hs Hu. unfold klog_read. case_if; b2p; cbv zeta.
  { exists k. by rewrite splice_nil. }
  destruct (klog_flush_ok k a Hk) as (k1 & -> & H1). ob. exists k1. split; [|done].
  rewrite (klog_refines_len _ _ H1). destruct H1 as (Hf & Hn & Hr & _).
  pose proof (ring_len _ _ _ _ Hr) as Hl. set (q := al_log (alog_flush a)) in *.
  case_if; b2p.
  { assert (slice off size q = []) as ->.
    { unfold slice. rewrite drop_ge by (unfold zlen in *; lia). apply take_nil. }
    by rewrite splice_nil. }
  assert (is_u32 (zlen q - off)) by (unfold is_u32, KLOG_BUF_SIZE in *; lia).
  rewrite (u32_small (zlen q - off)) by done.
  set (sz := if zlen q - off <? size then zlen q - off else size).
  assert (Hsz : 0 < sz <= zlen q - off /\ sz <= size) by (unfold sz; case_ifs; lia).
  assert (Hgot : slice off size q = take (Z.to_nat sz) (drop (Z.to_nat off) q)).
  { unfold slice, sz. case_ifs; [|done].
    rewrite !take_ge by (rewrite length_drop; unfold zlen in *; lia). done. }
  assert (Hd : zlen (drop (Z.to_nat off) q) = zlen q - off)
    by (unfold zlen in *; rewrite length_drop; lia).
  rewrite (klog_read_loop_ok _ sz _ (drop (Z.to_nat off) q)); [|  |apply u32_range|lia|lia].
  2: { apply ring_off_mod.
       replace (u32 (klog_first k1 + off) mod KLOG_BUF_SIZE)
         with ((klog_first k1 + off) mod KLOG_BUF_SIZE)
         by (clear; unfold KLOG_BUF_SIZE; word_lia).
       apply ring_off_mod, ring_advance; [done|lia]. }
  ob. rewrite Hgot. do 3 f_equal. rewrite i32_small.
  - unfold zlen in *. rewrite length_take. lia.
  - unfold is_i32, KLOG_BUF_SIZE in *. lia.
Qed.

(** ** Plain text *)

(** A line the filter leaves alone: printable ASCII and tabs, at least one
    byte and at most [KLOG_LINE_MAX]. *)
Definition plain_char (c : Z) : Prop := c = 9 \/ 32 <= c < 128.
Definition plain_line (l : list Z) : Prop :=
  Forall plain_char l /\ 0 < zlen l <= KLOG_LINE_MAX.
Definition unlines (ls : list (list Z)) : list Z := mjoin ((fun l => l ++ [10]) <$> ls).

Lemma alog_plain_chars l log line :
  Forall plain_char l -> zlen line + zlen l <= KLOG_LINE_MAX ->
  fold_left alog_char l (mk_alog log line ModeText) = mk_alog log (line ++ l) ModeText.
Proof.
  revert line. induction l as [|c l IH]; intros line Hl Hlen; [by rewrite app_nil_r|].
  apply Forall_cons_1 in Hl as [Hc Hl]. rewrite zlen_cons in Hlen.
  unfold plain_char, KLOG_LINE_MAX in *. pose proof (zlen_nonneg l).
  cbn [fold_left]. unfold alog_char at 2. kcbn.
  rewrite (proj2 (Z.eqb_neq c 27)), (proj2 (Z.eqb_neq c 10)) by lia.
  replace ((c =? 9) || (32 <=? c) && (c <? 128)) with true by lia.
  rewrite take_ge by (rewrite length_app; cbn [length]; unfold zlen in *; lia).
  rewrite IH by (rewrite ?zlen_app, ?zlen_1; try lia; done).
  by rewrite <- app_assoc.
Qed.

Lemma alog_plain_lines ls log :
  Forall plain_line ls -> zlen log <= KLOG_BUF_SIZE ->
  fold_left alog_char (unlines ls) (mk_alog log [] ModeText)
  = mk_alog (retain (log ++ unlines ls)) [] ModeText.
Proof.
  revert log. induction ls as [|l ls IH]; intros log Hls Hlog.
  { unfold unlines. simpl. by rewrite app_nil_r, retain_short. }
  apply Forall_cons_1 in Hls as [[Hc Hlen] Hls].
  change (unlines (l :: ls)) with ((l ++ [10]) ++ unlines ls).
  rewrite fold_left_app, fold_left_app, alog_plain_chars by (done || rewrite (zlen_nil (A:=Z)); lia).
  assert (fold_left alog_char [10] (mk_alog log ([] ++ l) ModeText)
          = mk_alog (retain (log ++ l ++ [10])) [] ModeText) as ->.
  { destruct l; [rewrite (zlen_nil (A:=Z)) in Hlen; lia|]. reflexivity. }
  rewrite IH by (done || rewrite zlen_retain; lia).
  by rewrite retain_app, <- app_assoc.
Qed.

(** What is printed is what is read back.  A kernel that has printed the
    lines [ls] (non-empty lines of printable ASCII) since boot, and then is
    asked for [size] bytes from offset [off] of /dev/kmsg, stores the
    corresponding bytes of the last 131072 bytes of that text. *)
Theorem klog_print_read_roundtrip ls off size b :
  Forall plain_line ls -> is_u32 (zlen (unlines ls)) ->
  0 <= off -> 0 < size <= zlen b -> is_u32 size ->
  exists k k', klog_feed (Some (unlines ls)) (zlen (unlines ls)) klog_boot = Some k /\
    klog_read off size (Some b) k =
      Some (k', Some (splice 0 (slice off size (retain (unlines ls))) b),
            zlen (slice off size (retain (unlines ls)))).
Proof.
  intros Hls Hu Ho Hs Hsz.
  assert (Hb : bytes (unlines ls)).
  { unfold unlines. clear -Hls. induction ls as [|l ls IH]; [constructor|].
    apply Forall_cons_1 in Hls as [[Hc _] Hls]. simpl. apply Forall_app_2; [|by apply IH].
    apply Forall_app_2; [|by repeat constructor].
    revert Hc. apply Forall_impl. unfold plain_char, is_u8. lia. }
  destruct (klog_feed_ok _ _ (unlines ls) (zlen (unlines ls)) klog_boot_refines Hb)
    as (k & Hk & Hr); [pose proof (zlen_nonneg (unlines ls)); lia|].
  rewrite slice_full, alog_plain_lines, app_nil_l in Hr by done.
  destruct (klog_read_ok k _ off size b Hr Ho ltac:(lia) Hsz) as (k' & Hread & _).
  rewrite (proj2 (Z.eqb_neq size 0)) in Hread by lia. eauto.
Qed.

(** ** Runs

    A run of the log: calls of [klog_feed] and [klog_read] in any order.  The
    output of a read is the part of the caller's buffer it reports. *)
Inductive klog_op := OpFeed (text : list Z) | OpRead (off size : Z).

Definition klog_op_ok (o : klog_op) : Prop :=
  match o with
  | OpFeed text => bytes text
  | OpRead off size => 0 <= off /\ is_u32 size
  end.

Definition klog_step (o : klog_op) (k : klog_t) : option (klog_t * list Z) :=
  match o with
  | OpFeed text => k' ← klog_feed (Some text) (zlen text) k; Some (k', [])
  | OpRead off size =>
      '(k', b, n) ← klog_read off size (Some (replicate (Z.to_nat size) 0)) k;
      b ← b; Some (k', slice 0 n b)
  end.

Definition alog_step (o : klog_op) (a : alog) : alog * list Z :=
  match o with
  | OpFeed text => (fold_left alog_char text a, [])
  | OpRead off size =>
      if size =? 0 then (a, []) else (alog_flush a, slice off size (al_log (alog_flush a)))
  end.

Fixpoint klog_run (os : list klog_op) (k : klog_t) : option (klog_t * list (list Z)) :=
  match os with
  | [] => Some (k, [])
  | o :: os =>
      '(k', out) ← klog_step o k; '(k'', outs) ← klog_run os k'; Some (k'', out :: outs)
  end.

Fixpoint alog_run (os : list klog_op) (a : alog) : alog * list (list Z) :=
  match os with
  | [] => (a, [])
  | o :: os =>
      let '(a', out) := alog_step o a in let '(a'', outs) := alog_run os a' in (a'', out :: outs)
  end.

Lemma klog_step_ok o k a :
  klog_refines k a -> klog_op_ok o ->
  exists k', klog_step o k = Some (k', (alog_step o a).2) /\
    klog_refines k' (alog_step o a).1.
Proof.
  intros Hk Ho. destruct o as [text|off size]; unfold klog_step, alog_step.
  - destruct (klog_feed_ok k a text (zlen text) Hk Ho) as (k' & -> & Hr);
      [pose proof (zlen_nonneg text); lia|]. rewrite slice_full in Hr. ob. eauto.
  - destruct Ho as [Ho Hs].
    assert (Hz : zlen (replicate (Z.to_nat size) 0) = size)
      by (rewrite zlen_replicate; unfold is_u32 in Hs; lia).
    destruct (klog_read_ok k a off size (replicate (Z.to_nat size) 0) Hk Ho)
      as (k' & -> & Hr); [unfold is_u32 in *; lia | done |]. ob.
    exists k'. destruct (size =? 0) eqn:E; b2p; cbn [fst snd]; [by rewrite slice_0|].
    split; [|done]. rewrite slice_splice_same; [done|lia|].
    rewrite Hz. unfold slice, zlen, is_u32 in *. rewrite length_take. lia.
Qed.

(** C19: the kernel log refines its specification.  For every sequence of
    [klog_feed] and [klog_read] calls from boot, no access leaves [klog_buf],
    [klog_pend] or the caller's buffer, however often the ring has wrapped, and
    every read returns what the abstract log returns: the bytes from the
    requested offset of the last 131072 bytes of all completed lines, where
    lines have escape sequences and control characters removed and are cut at
    512 bytes. *)
Theorem klog_trace_refines os :
  Forall klog_op_ok os ->
  exists k', klog_run os klog_boot = Some (k', (alog_run os (mk_alog [] [] ModeText)).2) /\
    klog_refines k' (alog_run os (mk_alog [] [] ModeText)).1.
Proof.
  generalize klog_boot_refines. generalize klog_boot, (mk_alog [] [] ModeText).
  induction os as [|o os IH]; intros k a Hk Hos; [cbn; eauto|].
  apply Forall_cons_1 in Hos as [Ho Hos].
  destruct (klog_step_ok o k a Hk Ho) as (k1 & Hs & H1).
  cbn [klog_run alog_run]. rewrite Hs. destruct (alog_step o a) as [a1 out]. ob.
  destruct (IH k1 a1 H1 Hos) as (k2 & -> & H2).
  destruct (alog_run os a1) as [a2 outs]. ob. eauto.
Qed.

Lemma klog_trace_refines_witness :
  exists k', klog_run [OpFeed [104; 27; 91; 51; 49; 109; 105; 10]; OpRead 1 8] klog_boot
    = Some (k', [[]; [105; 10]]).
Proof.
  destruct (klog_trace_refines [OpFeed [104; 27; 91; 51; 49; 109; 105; 10]; OpRead 1 8])
    as (k' & Hrun & _).
  - repeat constructor; word_lia.
  - exists k'. rewrite Hrun. vm_compute. reflexivity.
Defined.

Lemma klog_print_read_roundtrip_witness :
  exists k k', klog_feed (Some [104; 105; 10; 111; 107; 10]) 6 klog_boot = Some k /\
    klog_read 3 5 (Some [0; 0; 0; 0; 0]) k = Some (k', Some [111; 107; 10; 0; 0], 3).
Proof.
  destruct (klog_print_read_roundtrip [[104; 105]; [111; 107]] 3 5 [0; 0; 0; 0; 0])
    as (k & k' & H1 & H2).
  - repeat constructor; unfold plain_char, KLOG_LINE_MAX, zlen; simpl; lia.
  - vm_compute. split; congruence.
  - lia.
  - vm_compute. split; congruence.
  - vm_compute. split; congruence.
  - exists k, k'. split; [exact H1|]. rewrite H2. vm_compute. reflexivity.
Defined.
