(* ===== verification/Pipe.v ===== *)
(** * pipe.c: anonymous pipes and FIFOs

    The circular buffer with its read and write loops, the open/close
    counters, and the lifetime of the [pipe_t] and its VFS nodes.

    One iteration of the [while] loop of [pipe_read] or [pipe_write] runs under
    the pipe's mutex ([read_turn], [write_turn]); between two iterations other
    tasks may run.  [pipe_read] and [pipe_write] iterate the turns, taking what
    the other tasks do during each [schedule()] as a list of functions on the
    pipe; the interleaving of any number of callers is the machine of section
    [Sys]. *)

From S2P Require Import Prelude Klib Ring Validate.
#[local] Open Scope Z_scope.

Definition PIPE_BUF_SIZE : Z := 4096.
Definition O_NONBLOCK : Z := 2048.
Definition PIPE_MAGIC : Z := 1346981957.
Definition EAGAIN : Z := 11.
Definition EPIPE : Z := 32.

Definition VFS_POLLIN : Z := 1.
Definition VFS_POLLOUT : Z := 4.
Definition VFS_POLLERR : Z := 8.
Definition VFS_POLLHUP : Z := 16.

(** [p_name] is whether [name] is set (it then points to [name_buf]). *)
Record pipe_t := mk_pipe {
  p_magic : Z;
  p_buf : mem;
  read_pos : Z;
  write_pos : Z;
  p_len : Z;
  p_flags : Z;
  write_open : Z;
  read_open : Z;
  ref_count : Z;
  p_name : bool;
  name_buf : mem
}.

Definition PIPE_FULL (p : pipe_t) : bool := p_len p =? PIPE_BUF_SIZE.
Definition PIPE_EMPTY (p : pipe_t) : bool := p_len p =? 0.

(** The pipe with its buffer part replaced, and with its counters replaced. *)
Definition set_data (p : pipe_t) (buf : mem) (rp wp len : Z) : pipe_t :=
  mk_pipe (p_magic p) buf rp wp len (p_flags p) (write_open p) (read_open p)
          (ref_count p) (p_name p) (name_buf p).

Definition set_counts (p : pipe_t) (wo ro rc : Z) : pipe_t :=
  mk_pipe (p_magic p) (p_buf p) (read_pos p) (write_pos p) (p_len p) (p_flags p)
          wo ro rc (p_name p) (name_buf p).

Definition set_magic (p : pipe_t) (m : Z) : pipe_t :=
  mk_pipe m (p_buf p) (read_pos p) (write_pos p) (p_len p) (p_flags p)
          (write_open p) (read_open p) (ref_count p) (p_name p) (name_buf p).

Definition set_name (p : pipe_t) (nb : mem) : pipe_t :=
  mk_pipe (p_magic p) (p_buf p) (read_pos p) (write_pos p) (p_len p) (p_flags p)
          (write_open p) (read_open p) (ref_count p) true nb.

(** ** The transfer loops *)

(** How a turn ends: the loop goes round, the task sleeps in [schedule()], or
    the call returns. *)
Inductive turn := Again | Sleep | Done (r : Z).

(** [return copied ? (int)copied : err] *)
Definition partial_or (n err : Z) : Z := if n =? 0 then err else i32 n.

(** The block copy out of the circular buffer. *)
Definition ring_copy_out (p : pipe_t) (chunk copied : Z) (buffer : mem) : option mem :=
  let to_end := u32 (PIPE_BUF_SIZE - read_pos p) in
  if chunk <=? to_end then memcpy buffer copied (p_buf p) (read_pos p) chunk
  else
    b1 ← memcpy buffer copied (p_buf p) (read_pos p) to_end;
    memcpy b1 (u32 (copied + to_end)) (p_buf p) 0 (u32 (chunk - to_end)).

Definition ring_copy_in (p : pipe_t) (chunk written : Z) (buffer : mem) : option mem :=
  let to_end := u32 (PIPE_BUF_SIZE - write_pos p) in
  if chunk <=? to_end then memcpy (p_buf p) (write_pos p) buffer written chunk
  else
    b1 ← memcpy (p_buf p) (write_pos p) buffer written to_end;
    memcpy b1 0 buffer (u32 (written + to_end)) (u32 (chunk - to_end)).

Definition clamp_int (n : Z) : Z := if 2147483647 <? n then 2147483647 else i32 n.

Definition read_turn (p : pipe_t) (size copied : Z) (buffer : mem)
  : option (pipe_t * Z * mem * turn) :=
  if copied <? size then
    if PIPE_EMPTY p then
      if write_open p =? 0 then Some (p, copied, buffer, Done (i32 copied))
      else if negb (Z.land (p_flags p) O_NONBLOCK =? 0)
      then Some (p, copied, buffer, Done (partial_or copied (- EAGAIN)))
      else Some (p, copied, buffer, Sleep)
    else
      let want := u32 (size - copied) in
      let avail := p_len p in
      let chunk := if want <? avail then want else avail in
      buffer' ← ring_copy_out p chunk copied buffer;
      Some (set_data p (p_buf p) (u32 (read_pos p + chunk) mod PIPE_BUF_SIZE) (write_pos p)
                     (u32 (p_len p - chunk)),
            u32 (copied + chunk), buffer', Again)
  else Some (p, copied, buffer, Done (clamp_int copied)).

(** The last component is whether the turn sends [SIGPIPE] to the caller,
    which it does when there is a current task ([cur]). *)
Definition write_turn (cur : bool) (p : pipe_t) (size written : Z) (buffer : mem)
  : option (pipe_t * Z * turn * bool) :=
  if written <? size then
    if read_open p =? 0 then Some (p, written, Done (partial_or written (- EPIPE)), cur)
    else if PIPE_FULL p then
      if negb (Z.land (p_flags p) O_NONBLOCK =? 0)
      then Some (p, written, Done (partial_or written (- EAGAIN)), false)
      else Some (p, written, Sleep, false)
    else
      let want := u32 (size - written) in
      let space := u32 (PIPE_BUF_SIZE - p_len p) in
      let chunk := if want <? space then want else space in
      buf' ← ring_copy_in p chunk written buffer;
      Some (set_data p buf' (read_pos p) (u32 (write_pos p + chunk) mod PIPE_BUF_SIZE)
                     (u32 (p_len p + chunk)),
            u32 (written + chunk), Again, false)
  else Some (p, written, Done (clamp_int written), false).

(** A call either returns, or is still asleep when the modelled behaviour of
    the other tasks ends.  A null pipe is [None]. *)
Inductive read_result :=
| ReadRet (p : option pipe_t) (buffer : mem) (r : Z)
| ReadAsleep (p : pipe_t) (copied : Z) (buffer : mem).

Inductive write_result :=
| WriteRet (p : option pipe_t) (r : Z) (sigpipe : bool)
| WriteAsleep (p : pipe_t) (written : Z).

(** [env]: what the other tasks do to the pipe during each [schedule()].
    [addr] is the user address of the buffer. *)
Fixpoint pipe_read_loop (fuel : nat) (env : list (pipe_t -> pipe_t)) (p : pipe_t)
    (addr size copied : Z) (buffer : mem) : option read_result :=
  match fuel with
  | O => None
  | S fuel =>
      '(p', copied', buffer', t) ← read_turn p size copied buffer;
      match t with
      | Done r => Some (ReadRet (Some p') buffer' r)
      | Again => pipe_read_loop fuel env p' addr size copied' buffer'
      | Sleep =>
          match env with
          | [] => Some (ReadAsleep p' copied' buffer')
          | e :: env =>
              if validate_user_ptr (u32 (addr + copied')) 1 =? 0
              then Some (ReadRet (Some (e p')) buffer' (partial_or copied' (-1)))
              else pipe_read_loop fuel env (e p') addr size copied' buffer'
          end
      end
  end.

Definition pipe_read (env : list (pipe_t -> pipe_t)) (p : option pipe_t)
    (addr size : Z) (buffer : mem) : option read_result :=
  match p with
  | None => Some (ReadRet None buffer (-1))
  | Some p =>
      if negb (p_magic p =? PIPE_MAGIC) || (addr =? 0) || (size =? 0)
      then Some (ReadRet (Some p) buffer (-1))
      else pipe_read_loop (Z.to_nat size + length env + 1) env p addr size 0 buffer
  end.

Fixpoint pipe_write_loop (fuel : nat) (cur : bool) (env : list (pipe_t -> pipe_t)) (p : pipe_t)
    (addr size written : Z) (buffer : mem) : option write_result :=
  match fuel with
  | O => None
  | S fuel =>
      '(p', written', t, sig) ← write_turn cur p size written buffer;
      match t with
      | Done r => Some (WriteRet (Some p') r sig)
      | Again => pipe_write_loop fuel cur env p' addr size written' buffer
      | Sleep =>
          match env with
          | [] => Some (WriteAsleep p' written')
          | e :: env =>
              if validate_user_ptr (u32 (addr + written')) 1 =? 0
              then Some (WriteRet (Some (e p')) (partial_or written' (-1)) false)
              else pipe_write_loop fuel cur env (e p') addr size written' buffer
          end
      end
  end.

Definition pipe_write (cur : bool) (env : list (pipe_t -> pipe_t)) (p : option pipe_t)
    (addr size : Z) (buffer : mem) : option write_result :=
  match p with
  | None => Some (WriteRet None (-1) false)
  | Some p =>
      if negb (p_magic p =? PIPE_MAGIC) || (addr =? 0) || (size =? 0)
      then Some (WriteRet (Some p) (-1) false)
      else if read_open p =? 0 then Some (WriteRet (Some p) (- EPIPE) cur)
      else pipe_write_loop (Z.to_nat size + length env + 1) cur env p addr size 0 buffer
  end.

Definition pipe_close_read (p : pipe_t) : pipe_t :=
  if negb (p_magic p =? PIPE_MAGIC) then p
  else set_counts p (write_open p)
         (if 0 <? read_open p then read_open p - 1 else read_open p) (ref_count p).

Definition pipe_close_write (p : pipe_t) : pipe_t :=
  if negb (p_magic p =? PIPE_MAGIC) then p
  else set_counts p (if 0 <? write_open p then write_open p - 1 else write_open p)
         (read_open p) (ref_count p).

(** ** Allocation, nodes and lifetime *)

Definition VFS_PIPE : Z := 5.

(** A VFS node of a pipe: [n_priv] is whether [priv] still points to the
    pipe; [n_inode] is 1 for the write end. *)
Record pnode := mk_pnode { n_name : mem; n_inode : Z; n_refcount : Z; n_priv : bool }.

(** The objects of one pipe.  [None] in [ph_pipe] is a freed (or never
    allocated) [pipe_t], [None] for a node likewise. *)
Record pheap := mk_pheap {
  ph_pipe : option pipe_t;
  ph_read : option pnode;
  ph_write : option pnode
}.

(** [_pipe_alloc]: [heap_ok] is whether [kmalloc] succeeds. *)
Definition _pipe_alloc (heap_ok : bool) (flags : Z) : option pipe_t :=
  if heap_ok then
    Some (mk_pipe PIPE_MAGIC (replicate (Z.to_nat PIPE_BUF_SIZE) 0) 0 0 0 flags 0 0 0 false
                  (replicate 128 0))
  else None.

(** The bounded name copy shared by [_make_node] and [fifo_create]: stops at
    the terminator or at 127 bytes, then terminates. *)
Fixpoint name_copy (n : nat) (dst name : mem) (i : Z) : option mem :=
  match n with
  | O => c ← ld name i; st dst i 0
  | S n =>
      c ← ld name i;
      if c =? 0 then st dst i 0
      else dst' ← st dst i c; name_copy n dst' name (i + 1)
  end.

(** [_make_node]: the node and the pipe with its reference counted. *)
Definition _make_node (heap_ok : bool) (p : pipe_t) (name : mem) (is_write : Z)
  : option (option (pnode * pipe_t)) :=
  if heap_ok then
    nm ← name_copy 127 (replicate 128 0) name 0;
    Some (Some (mk_pnode nm (u32 is_write) 1 true,
                set_counts p (write_open p) (read_open p) (i32 (ref_count p + 1))))
  else Some None.

(** [pipe_create]: the three allocations succeed or fail as [a1 a2 a3] say.
    The result is the created objects and the return value. *)
Definition pipe_create (a1 a2 a3 : bool) (flags : Z) : option (pheap * Z) :=
  match _pipe_alloc a1 flags with
  | None => Some (mk_pheap None None None, -1)
  | Some p0 =>
      r ← _make_node a2 p0 [112; 105; 112; 101; 58; 114; 0] 0;
      match r with
      | None => Some (mk_pheap None None None, -1)
      | Some (rd, p1) =>
          w ← _make_node a3 p1 [112; 105; 112; 101; 58; 119; 0] 1;
          match w with
          | None => Some (mk_pheap None None None, -1)
          | Some (wr, p2) =>
              Some (mk_pheap (Some (set_counts p2 1 1 (ref_count p2))) (Some rd) (Some wr), 0)
          end
      end
  end.

(** [fifo_create]: the single node is the [ph_read] node. *)
Definition fifo_create (a1 a2 : bool) (name : mem) (flags : Z) : option pheap :=
  match _pipe_alloc a1 flags with
  | None => Some (mk_pheap None None None)
  | Some p0 =>
      r ← _make_node a2 p0 name 0;
      match r with
      | None => Some (mk_pheap None None None)
      | Some (n, p1) =>
          nb ← name_copy 127 (name_buf p1) name 0;
          Some (mk_pheap (Some (set_counts (set_name p1 nb) 0 0 (ref_count p1))) (Some n) None)
      end
  end.

(** Node access: [w] selects the write end's node. *)
Definition get_node (h : pheap) (w : bool) : option pnode := if w then ph_write h else ph_read h.
Definition put_node (h : pheap) (w : bool) (n : option pnode) : pheap :=
  if w then mk_pheap (ph_pipe h) (ph_read h) n else mk_pheap (ph_pipe h) n (ph_write h).
Definition put_pipe (h : pheap) (p : option pipe_t) : pheap :=
  mk_pheap p (ph_read h) (ph_write h).

(** [_vfs_pipe_open].  Using a freed node, or a freed pipe through [priv], is
    an error ([None]). *)
Definition _vfs_pipe_open (w : bool) (h : pheap) : option pheap :=
  n ← get_node h w;
  if negb (n_priv n) then Some h
  else
    p ← ph_pipe h;
    if negb (p_magic p =? PIPE_MAGIC) then Some h
    else
      let h := put_node h w (Some (mk_pnode (n_name n) (n_inode n) (u32 (n_refcount n + 1)) true)) in
      let rc := i32 (ref_count p + 1) in
      Some (put_pipe h (Some
        (if p_name p then set_counts p (i32 (write_open p + 1)) (i32 (read_open p + 1)) rc
         else if negb (n_inode n =? 0) then set_counts p (i32 (write_open p + 1)) (read_open p) rc
         else set_counts p (write_open p) (i32 (read_open p + 1)) rc))).

Definition dec_pos (x : Z) : Z := if 0 <? x then x - 1 else x.

(** Release of the node wrapper: freed at the last reference. *)
Definition node_put (n : pnode) (priv : bool) : option pnode :=
  if n_refcount n <=? 1 then None
  else Some (mk_pnode (n_name n) (n_inode n) (u32 (n_refcount n - 1)) priv).

Definition _vfs_pipe_close (w : bool) (h : pheap) : option pheap :=
  n ← get_node h w;
  if negb (n_priv n) then Some (put_node h w (node_put n false))
  else
    p ← ph_pipe h;
    if negb (p_magic p =? PIPE_MAGIC) then Some (put_node h w (node_put n true))
    else
      let rc := i32 (ref_count p - 1) in
      let p' :=
        if p_name p then set_counts p (dec_pos (write_open p)) (dec_pos (read_open p)) rc
        else if negb (n_inode n =? 0) then set_counts p (dec_pos (write_open p)) (read_open p) rc
        else set_counts p (write_open p) (dec_pos (read_open p)) rc in
      if rc =? 0 then Some (put_node (put_pipe h None) w (node_put n false))
      else Some (put_node (put_pipe h (Some p')) w (node_put n true)).

Definition pipe_destroy (h : pheap) : option pheap :=
  p ← ph_pipe h; Some (put_pipe h None).

Definition _vfs_pipe_poll (w : bool) (events : Z) (h : pheap) : option Z :=
  n ← get_node h w;
  if negb (n_priv n) then Some VFS_POLLERR
  else
    p ← ph_pipe h;
    if negb (p_magic p =? PIPE_MAGIC) then Some VFS_POLLERR
    else if negb (n_inode n =? 0) then
      let r1 := if negb (Z.land events VFS_POLLOUT =? 0) && (p_len p <? PIPE_BUF_SIZE)
                then VFS_POLLOUT else 0 in
      Some (i32 (if read_open p =? 0 then Z.lor r1 VFS_POLLERR else r1))
    else
      let r1 := if negb (Z.land events VFS_POLLIN =? 0) && (0 <? p_len p)
                then VFS_POLLIN else 0 in
      Some (i32 (if (write_open p =? 0) && (p_len p =? 0) then Z.lor r1 VFS_POLLHUP else r1)).

#[local] Ltac pcbn :=
  cbn [p_magic p_buf read_pos write_pos p_len p_flags write_open read_open ref_count p_name
       name_buf set_data set_counts set_magic set_name].

(** ** The pipe as a queue of bytes *)

(** [p] is a live pipe whose buffer holds the queue [q]. *)
Definition pipe_rep (p : pipe_t) (q : list Z) : Prop :=
  p_magic p = PIPE_MAGIC /\ 0 <= read_pos p < PIPE_BUF_SIZE /\
  write_pos p = (read_pos p + zlen q) mod PIPE_BUF_SIZE /\
  p_len p = zlen q /\ ring_rep PIPE_BUF_SIZE (p_buf p) (read_pos p) q.

(** Same flags, counters and name. *)
Definition same_ctl (p p' : pipe_t) : Prop :=
  p_flags p' = p_flags p /\ write_open p' = write_open p /\ read_open p' = read_open p /\
  ref_count p' = ref_count p /\ p_name p' = p_name p.

Lemma same_ctl_refl p : same_ctl p p.
Proof. by repeat split. Qed.

Lemma same_ctl_trans p1 p2 p3 : same_ctl p1 p2 -> same_ctl p2 p3 -> same_ctl p1 p3.
Proof. intros (?&?&?&?&?) (?&?&?&?&?). repeat split; congruence. Qed.
#[export] Hint Resolve same_ctl_refl same_ctl_trans : core.

Definition nonblock (p : pipe_t) : bool := negb (Z.land (p_flags p) O_NONBLOCK =? 0).

Lemma pipe_rep_len p q : pipe_rep p q -> 0 <= zlen q <= PIPE_BUF_SIZE.
Proof. intros (_ & _ & _ & _ & H). exact (ring_len _ _ _ _ H). Qed.

Lemma PIPE_pos : 0 < PIPE_BUF_SIZE.
Proof. done. Qed.

Lemma ring_copy_out_ok p q chunk copied buffer :
  pipe_rep p q -> 0 <= chunk <= zlen q -> 0 <= copied -> copied + chunk <= zlen buffer ->
  copied + chunk < 2 ^ 32 ->
  ring_copy_out p chunk copied buffer = Some (splice copied (take (Z.to_nat chunk) q) buffer).
Proof.
  intros Hp Hc Hd Hb Hu. pose proof (pipe_rep_len _ _ Hp) as Hq.
  destruct Hp as (_ & Hr & _ & _ & Hring). pose proof PIPE_pos as HP.
  rewrite <- (ring_read PIPE_BUF_SIZE HP _ _ _ _ Hring Hr Hc).
  assert (Hl : zlen (p_buf p) = PIPE_BUF_SIZE) by apply Hring.
  unfold ring_copy_out, ring_take. unfold PIPE_BUF_SIZE in *.
  rewrite (u32_small (4096 - _)) by (unfold is_u32; lia).
  case_if; b2p; [by apply memcpy_ok; lia|].
  rewrite memcpy_ok by lia. ob. rewrite !u32_small by (unfold is_u32; lia).
  set (s1 := slice (read_pos p) (4096 - read_pos p) (p_buf p)).
  assert (Hs1 : zlen s1 = 4096 - read_pos p) by (apply zlen_slice; lia).
  rewrite memcpy_ok by (rewrite ?zlen_splice; lia).
  rewrite <- Hs1 at 1. rewrite splice_app; [done|lia|]. rewrite Hs1, zlen_slice; lia.
Qed.

Lemma ring_copy_in_ok p q chunk written buffer :
  pipe_rep p q -> 0 <= chunk <= PIPE_BUF_SIZE - zlen q -> 0 <= written ->
  written + chunk <= zlen buffer -> written + chunk < 2 ^ 32 ->
  exists buf', ring_copy_in p chunk written buffer = Some buf' /\
    ring_rep PIPE_BUF_SIZE buf' (read_pos p) (q ++ slice written chunk buffer).
Proof.
  intros Hp Hc Hd Hb Hu. pose proof (pipe_rep_len _ _ Hp) as Hq.
  destruct Hp as (_ & Hr & Hw & _ & Hring). pose proof PIPE_pos as HP.
  pose proof (Z.mod_pos_bound (read_pos p + zlen q) _ HP) as Hwr. rewrite <- Hw in Hwr.
  set (bs := slice written chunk buffer).
  assert (Hz : zlen bs = chunk) by (apply zlen_slice; lia).
  exists (ring_put PIPE_BUF_SIZE (p_buf p) (write_pos p) bs). split.
  2: { rewrite Hw. apply ring_write; [done..|lia]. }
  assert (Hl : zlen (p_buf p) = PIPE_BUF_SIZE) by apply Hring.
  unfold ring_copy_in, ring_put. rewrite Hz. unfold PIPE_BUF_SIZE in *.
  rewrite (u32_small (4096 - _)) by (unfold is_u32; lia).
  case_if; b2p; [by rewrite memcpy_ok by lia|].
  rewrite memcpy_ok by lia. ob. rewrite !u32_small by (unfold is_u32; lia).
  rewrite memcpy_ok; [|lia..| |lia].
  2: { rewrite zlen_splice; [lia|lia|]. rewrite zlen_slice; lia. }
  unfold bs. by rewrite take_slice, drop_slice by lia.
Qed.

(** How a turn that moves [n] bytes ends. *)
Definition read_fate (p : pipe_t) (size copied n : Z) : turn :=
  if copied =? size then Done (clamp_int copied)
  else if 0 <? n then Again
  else if write_open p =? 0 then Done (i32 copied)
  else if nonblock p then Done (partial_or copied (- EAGAIN)) else Sleep.

Definition write_fate (p : pipe_t) (size written n : Z) : turn :=
  if written =? size then Done (clamp_int written)
  else if read_open p =? 0 then Done (partial_or written (- EPIPE))
  else if 0 <? n then Again
  else if nonblock p then Done (partial_or written (- EAGAIN)) else Sleep.

(** A reader's turn takes [n] bytes from the front of the queue; [n = 0] on
    every path that does not transfer. *)
Lemma read_turn_ok p q size copied buffer :
  pipe_rep p q -> 0 <= copied <= size -> size <= zlen buffer -> is_u32 size ->
  let n := Z.min (size - copied) (zlen q) in
  exists p',
    read_turn p size copied buffer
      = Some (p', copied + n, splice copied (take (Z.to_nat n) q) buffer,
              read_fate p size copied n) /\
    pipe_rep p' (drop (Z.to_nat n) q) /\ same_ctl p p'.
Proof.
  intros Hp Hc Hb Hs n. pose proof (pipe_rep_len _ _ Hp) as Hq. pose proof Hp as
    (Hm & Hr & Hw & Hlen & Hring). unfold read_turn, PIPE_EMPTY, read_fate.
  assert (Hstay : n = 0 -> copied + n = copied /\
    splice copied (take (Z.to_nat n) q) buffer = buffer /\ pipe_rep p (drop (Z.to_nat n) q)).
  { intros ->. change (Z.to_nat 0) with 0%nat. by rewrite Z.add_0_r, take_0, splice_nil, drop_0. }
  destruct (decide (copied = size)) as [->|Hne].
  { destruct Hstay as (-> & -> & ?); [lia|]. rewrite Z.ltb_irrefl, Z.eqb_refl. eauto. }
  rewrite (proj2 (Z.ltb_lt _ _)), (proj2 (Z.eqb_neq copied size)) by lia. rewrite Hlen.
  destruct (zlen q =? 0) eqn:E0; b2p.
  { destruct Hstay as (-> & -> & ?); [lia|]. rewrite (proj2 (Z.ltb_ge 0 n)) by lia.
    exists p. split; [|by split]. fold (nonblock p). by repeat case_if. }
  unfold is_u32, PIPE_BUF_SIZE in *.
  rewrite (u32_small (size - copied)) by (unfold is_u32; lia).
  replace (if size - copied <? zlen q then size - copied else zlen q) with n
    by (unfold n; case_ifs; lia).
  assert (Hn : 0 < n <= zlen q /\ copied + n <= size) by lia.
  rewrite (ring_copy_out_ok p q) by (done || unfold PIPE_BUF_SIZE; lia). ob.
  rewrite !u32_small by (unfold is_u32; lia). rewrite (proj2 (Z.ltb_lt 0 n)) by lia.
  eexists. split; [done|]. split; [|by repeat split].
  assert (Hd : zlen (drop (Z.to_nat n) q) = zlen q - n)
    by (unfold zlen in *; rewrite length_drop; lia).
  unfold pipe_rep. pcbn. rewrite Hd.
  split; [done|]. split; [apply Z.mod_pos_bound, PIPE_pos|]. split.
  { rewrite Zplus_mod_idemp_l, Hw. unfold PIPE_BUF_SIZE. f_equal. lia. }
  split; [done|]. apply ring_off_mod, ring_advance; [done|lia].
Qed.

(** A writer's turn appends [n] bytes of the caller's buffer. *)
Lemma write_turn_ok cur p q size written buffer :
  pipe_rep p q -> 0 <= written <= size -> size <= zlen buffer -> is_u32 size ->
  let n := if read_open p =? 0 then 0
           else Z.min (size - written) (PIPE_BUF_SIZE - zlen q) in
  exists p',
    write_turn cur p size written buffer
      = Some (p', written + n, write_fate p size written n,
              cur && (written <? size) && (read_open p =? 0)) /\
    pipe_rep p' (q ++ slice written n buffer) /\ same_ctl p p'.
Proof.
  intros Hp Hc Hb Hs n. pose proof (pipe_rep_len _ _ Hp) as Hq. pose proof Hp as
    (Hm & Hr & Hw & Hlen & Hring). unfold write_turn, PIPE_FULL, write_fate.
  assert (Hstay : n = 0 -> written + n = written /\ pipe_rep p (q ++ slice written n buffer)).
  { intros ->. by rewrite Z.add_0_r, slice_0, app_nil_r. }
  destruct (decide (written = size)) as [->|Hne].
  { destruct Hstay as (-> & ?); [unfold n; case_ifs; lia|].
    rewrite Z.ltb_irrefl, Z.eqb_refl, andb_false_r. eauto. }
  rewrite (proj2 (Z.ltb_lt _ _)), (proj2 (Z.eqb_neq written size)) by lia. rewrite Hlen.
  destruct (read_open p =? 0) eqn:Ero.
  { destruct Hstay as (-> & ?); [done|]. rewrite !andb_true_r. eauto. }
  rewrite andb_false_r. destruct (zlen q =? PIPE_BUF_SIZE) eqn:E0; b2p.
  { destruct Hstay as (-> & ?); [lia|]. rewrite (proj2 (Z.ltb_ge 0 n)) by lia.
    exists p. split; [|by split]. fold (nonblock p). by repeat case_if. }
  unfold is_u32, PIPE_BUF_SIZE in *.
  rewrite (u32_small (size - written)), (u32_small (4096 - zlen q)) by (unfold is_u32; lia).
  replace (if size - written <? 4096 - zlen q then size - written else 4096 - zlen q) with n
    by (unfold n; case_ifs; lia).
  assert (Hn : 0 < n <= 4096 - zlen q /\ written + n <= size) by lia.
  destruct (ring_copy_in_ok p q n written buffer) as (buf' & -> & Hr');
    [done|unfold PIPE_BUF_SIZE; lia|lia..|]. ob.
  pose proof (Z.mod_pos_bound (read_pos p + zlen q) 4096 ltac:(lia)) as Hwr.
  rewrite !u32_small by (unfold is_u32; lia). rewrite (proj2 (Z.ltb_lt 0 n)) by lia.
  eexists. split; [done|]. split; [|by repeat split].
  assert (Hd : zlen (q ++ slice written n buffer) = zlen q + n)
    by (rewrite zlen_app, zlen_slice; lia).
  unfold pipe_rep. pcbn. rewrite Hd. unfold PIPE_BUF_SIZE.
  split; [done|]. split; [done|]. split; [|by split].
  rewrite Hw, Zplus_mod_idemp_l. f_equal. lia.
Qed.

(** ** Single calls *)

Lemma clamp_small n : 0 <= n <= PIPE_BUF_SIZE -> clamp_int n = n.
Proof.
  intros. unfold clamp_int, PIPE_BUF_SIZE in *. case_if; b2p; [lia|].
  apply i32_small. unfold is_i32. lia.
Qed.

Lemma partial_or_small n err :
  0 <= n <= PIPE_BUF_SIZE -> partial_or n err = if n =? 0 then err else n.
Proof.
  intros. unfold partial_or, PIPE_BUF_SIZE in *. case_if; [done|].
  apply i32_small. unfold is_i32. lia.
Qed.

(** Whatever the other tasks do during the sleeps, as long as they leave a
    pipe, a read ends: the fuel given to the loop is enough. *)
Definition keeps_pipe (e : pipe_t -> pipe_t) : Prop :=
  forall p q, pipe_rep p q -> exists q', pipe_rep (e p) q'.

Lemma pipe_read_loop_total fuel env p q addr size copied buffer :
  pipe_rep p q -> Forall keeps_pipe env -> 0 <= copied <= size -> size <= zlen buffer ->
  is_u32 size -> (Z.to_nat (size - copied) + length env < fuel)%nat ->
  exists res, pipe_read_loop fuel env p addr size copied buffer = Some res.
Proof.
  revert env p q copied buffer. induction fuel as [|fuel IH];
    intros env p q copied buffer Hp He Hc Hb Hs Hf; [lia|].
  cbn [pipe_read_loop]. pose proof (pipe_rep_len _ _ Hp) as Hq.
  destruct (read_turn_ok p q size copied buffer Hp Hc Hb Hs) as (p' & -> & Hp' & Hctl).
  set (n := Z.min (size - copied) (zlen q)) in *. ob. unfold read_fate.
  assert (Hz : zlen (splice copied (take (Z.to_nat n) q) buffer) = zlen buffer).
  { apply zlen_splice; [lia|]. unfold zlen in *. rewrite length_take. lia. }
  case_if; [eauto|]. case_if; b2p.
  { apply (IH env p' _ _ _ Hp' He); try (done || lia). }
  case_if; [eauto|]. case_if; [eauto|]. destruct env as [|e env]; [eauto|].
  apply Forall_cons_1 in He as [He Hes]. case_if; [eauto|].
  destruct (He _ _ Hp') as [q' Hq']. cbn [length] in Hf.
  apply (IH env (e p') q' _ _ Hq' Hes); try (done || lia).
Qed.

Lemma pipe_write_loop_total fuel cur env p q addr size written buffer :
  pipe_rep p q -> Forall keeps_pipe env -> 0 <= written <= size -> size <= zlen buffer ->
  is_u32 size -> (Z.to_nat (size - written) + length env < fuel)%nat ->
  exists res, pipe_write_loop fuel cur env p addr size written buffer = Some res.
Proof.
  revert env p q written. induction fuel as [|fuel IH];
    intros env p q written Hp He Hc Hb Hs Hf; [lia|].
  cbn [pipe_write_loop]. pose proof (pipe_rep_len _ _ Hp) as Hq.
  destruct (write_turn_ok cur p q size written buffer Hp Hc Hb Hs) as (p' & -> & Hp' & Hctl).
  set (n := if read_open p =? 0 then 0 else Z.min (size - written) (PIPE_BUF_SIZE - zlen q)) in *.
  assert (Hn : 0 <= n <= size - written) by (unfold n; case_ifs; lia).
  ob. unfold write_fate. case_if; [eauto|]. case_if; [eauto|]. case_if; b2p.
  { apply (IH env p' _ _ Hp' He); try (done || lia). }
  case_if; [eauto|]. destruct env as [|e env]; [eauto|].
  apply Forall_cons_1 in He as [He Hes]. case_if; [eauto|].
  destruct (He _ _ Hp') as [q' Hq']. cbn [length] in Hf.
  apply (IH env (e p') q' _ Hq' Hes); try (done || lia).
Qed.

(** Pipe calls end.  A read or write of any 32-bit size on a live pipe,
    whatever the other tasks do to the pipe during each sleep (reading,
    writing, opening, closing), either returns or is asleep in [schedule()]
    waiting for a further task; it never leaves the caller's buffer or the
    circular buffer, and never spins. *)
Theorem pipe_calls_end cur env p q addr size buffer :
  pipe_rep p q -> Forall keeps_pipe env -> is_u32 size -> size <= zlen buffer ->
  (exists res, pipe_read env (Some p) addr size buffer = Some res) /\
  (exists res, pipe_write cur env (Some p) addr size buffer = Some res).
Proof.
  intros Hp He Hs Hb. unfold pipe_read, pipe_write, is_u32 in *. split.
  - case_if; [eauto|]. apply (pipe_read_loop_total _ _ _ q); try (done || lia).
  - case_if; [eauto|]. case_if; [eauto|]. apply (pipe_write_loop_total _ _ _ _ q); try (done || lia).
Qed.

Lemma read_guard p addr size :
  p_magic p = PIPE_MAGIC -> addr <> 0 -> 0 < size ->
  negb (p_magic p =? PIPE_MAGIC) || (addr =? 0) || (size =? 0) = false.
Proof. intros ->. rewrite Z.eqb_refl. lia. Qed.

(** What one read does.  With [q] in the pipe, [pipe_read] stores the first
    [n = min size (length q)] bytes of [q] in the caller's buffer and removes
    them from the pipe.  It then returns [n] if that is all that was asked for
    or no writer is left (0 is end of file), [-EAGAIN] if the pipe is
    non-blocking and nothing was read ([n] if something was), and otherwise
    sleeps. *)
Theorem pipe_read_spec p q addr size buffer :
  pipe_rep p q -> addr <> 0 -> 0 < size -> is_u32 size -> size <= zlen buffer ->
  let n := Z.min size (zlen q) in
  let b' := splice 0 (take (Z.to_nat n) q) buffer in
  exists p',
    pipe_read [] (Some p) addr size buffer =
      Some (if (n =? size) || (write_open p =? 0) then ReadRet (Some p') b' n
            else if nonblock p then ReadRet (Some p') b' (if n =? 0 then - EAGAIN else n)
            else ReadAsleep p' n b') /\
    pipe_rep p' (drop (Z.to_nat n) q) /\ same_ctl p p'.
Proof.
  intros Hp Ha Hs Hu Hb n b'. pose proof (pipe_rep_len _ _ Hp) as Hq.
  unfold pipe_read. rewrite read_guard by (done || apply Hp).
  destruct (read_turn_ok p q size 0 buffer) as (p1 & Ht & Hp1 & Hc1); [done|lia..|done|].
  rewrite Z.sub_0_r in *. fold n in Ht, Hp1. fold b' in Ht. rewrite Z.add_0_l in Ht.
  assert (Hz : zlen b' = zlen buffer).
  { apply zlen_splice; [lia|]. unfold zlen in *. rewrite length_take. lia. }
  replace (Z.to_nat size + length (@nil (pipe_t -> pipe_t)) + 1)%nat
    with (S (S (Z.to_nat size - 1))) by (cbn [length]; lia).
  cbn [pipe_read_loop]. rewrite Ht. ob. unfold read_fate at 1.
  rewrite (proj2 (Z.eqb_neq 0 size)) by lia.
  destruct (0 <? n) eqn:En; b2p.
  2: { exists p1. split; [|by split]. rewrite (proj2 (Z.eqb_neq n size)) by lia.
       replace n with 0 by lia. cbn [orb Z.eqb]. by repeat case_if. }
  destruct (read_turn_ok p1 (drop (Z.to_nat n) q) size n b') as (p2 & Ht2 & Hp2 & Hc2);
    [done|lia..|done|].
  assert (Hn2 : Z.min (size - n) (zlen (drop (Z.to_nat n) q)) = 0)
    by (unfold zlen in *; rewrite length_drop; lia).
  rewrite Hn2 in Ht2, Hp2. change (Z.to_nat 0) with 0%nat in *.
  rewrite take_0, splice_nil, Z.add_0_r in Ht2. rewrite drop_0 in Hp2. rewrite Ht2. ob.
  exists p2. split; [|eauto].
  destruct Hc1 as (Hf & Hwo & _). unfold read_fate, nonblock. rewrite Hf, Hwo.
  rewrite (proj2 (Z.eqb_neq n 0)), clamp_small, i32_small, partial_or_small by
    (unfold is_i32, PIPE_BUF_SIZE in *; lia).
  rewrite (proj2 (Z.eqb_neq n 0)) by lia. cbn [Z.ltb Z.compare].
  destruct (n =? size) eqn:E1; b2p; [done|]. cbn [orb]. by repeat case_if.
Qed.

(** What one write does.  With no reader left the call fails with
    [-EPIPE] and signals the caller; otherwise the first
    [n = min size (free space)] bytes of the buffer are appended, and the call
    returns [size] if that is everything, [n] or [-EAGAIN] if the pipe is
    non-blocking, and sleeps otherwise. *)
Theorem pipe_write_spec cur p q addr size buffer :
  pipe_rep p q -> addr <> 0 -> 0 < size -> is_u32 size -> size <= zlen buffer ->
  let n := if read_open p =? 0 then 0 else Z.min size (PIPE_BUF_SIZE - zlen q) in
  exists p',
    pipe_write cur [] (Some p) addr size buffer =
      Some (if read_open p =? 0 then WriteRet (Some p') (- EPIPE) cur
            else if n =? size then WriteRet (Some p') n false
            else if nonblock p then WriteRet (Some p') (if n =? 0 then - EAGAIN else n) false
            else WriteAsleep p' n) /\
    pipe_rep p' (q ++ slice 0 n buffer) /\ same_ctl p p'.
Proof.
  intros Hp Ha Hs Hu Hb n. pose proof (pipe_rep_len _ _ Hp) as Hq.
  unfold pipe_write. rewrite read_guard by (done || apply Hp).
  destruct (read_open p =? 0) eqn:Ero.
  { exists p. split; [done|]. unfold n. rewrite slice_0, app_nil_r. by split. }
  destruct (write_turn_ok cur p q size 0 buffer) as (p1 & Ht & Hp1 & Hc1); [done|lia..|done|].
  rewrite Ero, Z.sub_0_r in Ht, Hp1. fold n in Ht, Hp1. rewrite Z.add_0_l, andb_false_r in Ht.
  replace (Z.to_nat size + length (@nil (pipe_t -> pipe_t)) + 1)%nat
    with (S (S (Z.to_nat size - 1))) by (cbn [length]; lia).
  cbn [pipe_write_loop]. rewrite Ht. ob. unfold write_fate at 1.
  rewrite Ero, (proj2 (Z.eqb_neq 0 size)) by lia.
  destruct (0 <? n) eqn:En; b2p.
  2: { exists p1. split; [|by split]. rewrite (proj2 (Z.eqb_neq n size)) by lia.
       replace n with 0 by lia. cbn [Z.eqb]. by repeat case_if. }
  apply Z.eqb_neq in Ero. pose proof Hc1 as (Hf & Hwo & Hro & Hrest).
  destruct (write_turn_ok cur p1 (q ++ slice 0 n buffer) size n buffer)
    as (p2 & Ht2 & Hp2 & Hc2); [done|lia..|done|].
  rewrite Hro, Ero, zlen_app, (zlen_slice 0 n) in Ht2, Hp2 by lia.
  replace (Z.min (size - n) (PIPE_BUF_SIZE - (zlen q + n))) with 0 in Ht2, Hp2 by lia.
  rewrite slice_0, app_nil_r in Hp2. rewrite Z.add_0_r, andb_false_r in Ht2.
  rewrite Ht2. ob. exists p2. split; [|by eauto using same_ctl_trans].
  unfold write_fate, nonblock. rewrite Hro, Ero, Hf.
  rewrite (proj2 (Z.eqb_neq n 0)), clamp_small, partial_or_small by (unfold PIPE_BUF_SIZE in *; lia).
  rewrite (proj2 (Z.eqb_neq n 0)) by lia. cbn [Z.ltb Z.compare]. by repeat case_if.
Qed.

(** ** Interleaved calls

    Any number of tasks inside [pipe_read] and [pipe_write] on one pipe.  An
    event starts a call, runs one turn of a call (its critical section, with
    the pointer check that follows a sleep), or changes the open counters.
    [s_out] and [s_in] record, in the order of the critical sections, what each
    turn stored in its reader's buffer and took from its writer's buffer. *)
Record rcall := mk_rcall
  { rc_addr : Z; rc_size : Z; rc_copied : Z; rc_buf : mem; rc_ret : option Z }.
Record wcall := mk_wcall
  { wc_addr : Z; wc_size : Z; wc_written : Z; wc_buf : mem; wc_ret : option Z }.

Record psys := mk_psys {
  s_pipe : pipe_t;
  s_readers : list rcall;
  s_writers : list wcall;
  s_out : list (nat * list Z);
  s_in : list (nat * list Z)
}.

Inductive event :=
| EvStartRead (addr size : Z) (buf : mem)
| EvStartWrite (addr size : Z) (buf : mem)
| EvRead (i : nat)
| EvWrite (i : nat)
| EvCounts (wo ro rc : Z).

Definition turn_ret (t : turn) (addr n : Z) : option Z :=
  match t with
  | Done r => Some r
  | Again => None
  | Sleep => if validate_user_ptr (u32 (addr + n)) 1 =? 0 then Some (partial_or n (-1)) else None
  end.

Definition read_event (i : nat) (s : psys) : option psys :=
  match s_readers s !! i with
  | Some (mk_rcall a size copied buf None) =>
      '(p', copied', buf', t) ← read_turn (s_pipe s) size copied buf;
      Some (mk_psys p' (<[i := mk_rcall a size copied' buf' (turn_ret t a copied')]> (s_readers s))
                    (s_writers s) (s_out s ++ [(i, slice copied (copied' - copied) buf')]) (s_in s))
  | _ => Some s
  end.

Definition write_event (i : nat) (s : psys) : option psys :=
  match s_writers s !! i with
  | Some (mk_wcall a size written buf None) =>
      '(p', written', t, _) ← write_turn true (s_pipe s) size written buf;
      Some (mk_psys p' (s_readers s)
                    (<[i := mk_wcall a size written' buf (turn_ret t a written')]> (s_writers s))
                    (s_out s) (s_in s ++ [(i, slice written (written' - written) buf)]))
  | _ => Some s
  end.

Definition sys_step (e : event) (s : psys) : option psys :=
  match e with
  | EvStartRead a size buf =>
      Some (mk_psys (s_pipe s) (s_readers s ++ [mk_rcall a size 0 buf None]) (s_writers s)
                    (s_out s) (s_in s))
  | EvStartWrite a size buf =>
      Some (mk_psys (s_pipe s) (s_readers s) (s_writers s ++ [mk_wcall a size 0 buf None])
                    (s_out s) (s_in s))
  | EvRead i => read_event i s
  | EvWrite i => write_event i s
  | EvCounts wo ro rc =>
      Some (mk_psys (set_counts (s_pipe s) wo ro rc) (s_readers s) (s_writers s) (s_out s) (s_in s))
  end.

Fixpoint sys_run (es : list event) (s : psys) : option psys :=
  match es with [] => Some s | e :: es => s' ← sys_step e s; sys_run es s' end.

(** A call's buffer covers the size it is called with. *)
Definition event_ok (e : event) : Prop :=
  match e with
  | EvStartRead _ size buf | EvStartWrite _ size buf => is_u32 size /\ size <= zlen buf
  | _ => True
  end.

(** All transferred bytes in order, and those of call [i]. *)
Definition stream (l : list (nat * list Z)) : list Z := mjoin (snd <$> l).
Definition part (i : nat) (l : list (nat * list Z)) : list Z :=
  mjoin ((fun x => if decide (x.1 = i) then x.2 else []) <$> l).

Definition sys_inv (s : psys) (q : list Z) : Prop :=
  pipe_rep (s_pipe s) q /\
  stream (s_in s) = stream (s_out s) ++ q /\
  (forall i c, s_readers s !! i = Some c ->
     0 <= rc_copied c <= rc_size c /\ rc_size c <= zlen (rc_buf c) /\ is_u32 (rc_size c) /\
     slice 0 (rc_copied c) (rc_buf c) = part i (s_out s)) /\
  (forall i c, s_writers s !! i = Some c ->
     0 <= wc_written c <= wc_size c /\ wc_size c <= zlen (wc_buf c) /\ is_u32 (wc_size c) /\
     slice 0 (wc_written c) (wc_buf c) = part i (s_in s)) /\
  Forall (fun x => x.1 < length (s_readers s))%nat (s_out s) /\
  Forall (fun x => x.1 < length (s_writers s))%nat (s_in s).

Lemma stream_snoc l i b : stream (l ++ [(i, b)]) = stream l ++ b.
Proof. unfold stream. rewrite fmap_app, join_app. simpl. by rewrite app_nil_r. Qed.

Lemma part_snoc_eq l i b : part i (l ++ [(i, b)]) = part i l ++ b.
Proof.
  unfold part. rewrite fmap_app, join_app. simpl. rewrite decide_True by done.
  by rewrite app_nil_r.
Qed.

Lemma part_snoc_ne l i j b : i <> j -> part i (l ++ [(j, b)]) = part i l.
Proof.
  intros. unfold part. rewrite fmap_app, join_app. simpl.
  rewrite decide_False by done. by rewrite app_nil_r.
Qed.

Lemma part_fresh l n : Forall (fun x => x.1 < n)%nat l -> part n l = [].
Proof.
  induction 1 as [|x l Hx Hl IH]; [done|]. unfold part in *. simpl.
  rewrite decide_False by lia. exact IH.
Qed.

Lemma slice_grow (m : mem) c n :
  0 <= c -> 0 <= n -> slice 0 (c + n) m = slice 0 c m ++ slice c n m.
Proof. intros. by rewrite slice_app_split by lia. Qed.

Lemma slice_splice_before (m l : mem) c :
  0 <= c -> c + zlen l <= zlen m -> slice 0 c (splice c l m) = slice 0 c m.
Proof.
  intros. pose proof (zlen_nonneg l). unfold slice, splice. rewrite !drop_0.
  rewrite take_app_le by (rewrite length_take; unfold zlen in *; lia).
  rewrite take_take. f_equal. lia.
Qed.

#[local] Ltac scbn :=
  cbn [s_pipe s_readers s_writers s_out s_in rc_addr rc_size rc_copied rc_buf rc_ret
       wc_addr wc_size wc_written wc_buf wc_ret] in *.

Lemma read_event_ok i s q :
  sys_inv s q -> exists s' q', read_event i s = Some s' /\ sys_inv s' q'.
Proof.
  intros Hs. pose proof Hs as (Hp & Hst & Hr & Hw & Hfo & Hfi). unfold read_event.
  destruct (s_readers s !! i) as [[a size copied buf ret]|] eqn:Ei; [|eauto].
  destruct ret; [eauto|]. destruct (Hr i _ Ei) as (Hc & Hb & Hu & Hsl). scbn.
  destruct (read_turn_ok (s_pipe s) q size copied buf Hp Hc Hb Hu) as (p' & -> & Hp' & Hctl).
  set (n := Z.min (size - copied) (zlen q)) in *. pose proof (pipe_rep_len _ _ Hp) as Hq.
  ob. set (bs := take (Z.to_nat n) q). set (buf' := splice copied bs buf).
  assert (Hbs : zlen bs = n) by (unfold bs, zlen in *; rewrite length_take; lia).
  assert (Hgot : slice copied (copied + n - copied) buf' = bs).
  { replace (copied + n - copied) with (zlen bs) by lia. apply slice_splice_same; lia. }
  rewrite Hgot. eexists _, (drop (Z.to_nat n) q). split; [done|].
  split; [done|]. scbn. split.
  { rewrite stream_snoc, Hst, <- app_assoc. unfold bs. by rewrite take_drop. }
  split; [|split; [done|split; [|done]]].
  - intros j c Hj. destruct (decide (i = j)) as [<-|Hne].
    + rewrite list_lookup_insert_eq in Hj by (by apply lookup_lt_Some in Ei).
      injection Hj as <-. scbn. unfold buf'. rewrite zlen_splice by lia.
      repeat (split; [lia || done|]). rewrite part_snoc_eq, <- Hsl, slice_grow by lia.
      rewrite slice_splice_before by lia. f_equal.
      rewrite <- Hgot at 2. f_equal. lia.
    + rewrite list_lookup_insert_ne in Hj by done. rewrite part_snoc_ne by done. by apply Hr.
  - rewrite length_insert. apply Forall_app_2; [done|]. constructor; [|done].
    by apply lookup_lt_Some in Ei.
Qed.

Lemma write_event_ok i s q :
  sys_inv s q -> exists s' q', write_event i s = Some s' /\ sys_inv s' q'.
Proof.
  intros Hs. pose proof Hs as (Hp & Hst & Hr & Hw & Hfo & Hfi). unfold write_event.
  destruct (s_writers s !! i) as [[a size written buf ret]|] eqn:Ei; [|eauto].
  destruct ret; [eauto|]. destruct (Hw i _ Ei) as (Hc & Hb & Hu & Hsl). scbn.
  destruct (write_turn_ok true (s_pipe s) q size written buf Hp Hc Hb Hu)
    as (p' & -> & Hp' & Hctl).
  set (n := if read_open (s_pipe s) =? 0 then 0
            else Z.min (size - written) (PIPE_BUF_SIZE - zlen q)) in *.
  pose proof (pipe_rep_len _ _ Hp) as Hq.
  assert (Hn : 0 <= n <= size - written) by (unfold n; case_ifs; lia).
  ob. replace (written + n - written) with n by lia.
  eexists _, (q ++ slice written n buf). split; [done|].
  split; [done|]. scbn. split; [by rewrite stream_snoc, Hst, <- app_assoc|].
  split; [done|split; [|split; [done|]]].
  - intros j c Hj. destruct (decide (i = j)) as [<-|Hne].
    + rewrite list_lookup_insert_eq in Hj by (by apply lookup_lt_Some in Ei).
      injection Hj as <-. scbn. repeat (split; [lia || done|]).
      by rewrite part_snoc_eq, <- Hsl, slice_grow by lia.
    + rewrite list_lookup_insert_ne in Hj by done. rewrite part_snoc_ne by done. by apply Hw.
  - rewrite length_insert. apply Forall_app_2; [done|]. constructor; [|done].
    by apply lookup_lt_Some in Ei.
Qed.

Lemma lookup_snoc_inv {A} (l : list A) x i y :
  (l ++ [x]) !! i = Some y -> l !! i = Some y \/ i = length l /\ y = x.
Proof.
  intros H. apply lookup_app_Some in H as [H|[Hge H]]; [by left|].
  apply list_lookup_singleton_Some in H as [? ->]. right. split; [lia|done].
Qed.

Lemma Forall_lt_snoc {A} (l : list (nat * A)) n :
  Forall (fun x => x.1 < n)%nat l -> Forall (fun x => x.1 < n + 1)%nat l.
Proof. apply Forall_impl. lia. Qed.

Lemma sys_step_ok e s q :
  sys_inv s q -> event_ok e -> exists s' q', sys_step e s = Some s' /\ sys_inv s' q'.
Proof.
  intros Hs He. pose proof Hs as (Hp & Hst & Hr & Hw & Hfo & Hfi).
  destruct e as [a size buf|a size buf|i|i|wo ro rc]; cbn [sys_step event_ok] in *.
  - eexists _, q. split; [done|]. split; [done|]. scbn. split; [done|].
    split; [|split; [done|split; [|done]]].
    + intros i c [Hi|[-> ->]]%lookup_snoc_inv; [by apply Hr|]. scbn. unfold is_u32 in *.
      rewrite part_fresh, slice_0 by done. repeat (split; [lia|]). done.
    + rewrite length_app. by apply Forall_lt_snoc.
  - eexists _, q. split; [done|]. split; [done|]. scbn. split; [done|].
    split; [done|split; [|split; [done|]]].
    + intros i c [Hi|[-> ->]]%lookup_snoc_inv; [by apply Hw|]. scbn. unfold is_u32 in *.
      rewrite part_fresh, slice_0 by done. repeat (split; [lia|]). done.
    + rewrite length_app. by apply Forall_lt_snoc.
  - by apply (read_event_ok i s q).
  - by apply (write_event_ok i s q).
  - eexists _, q. split; [done|]. scbn. split; [|done]. exact Hp.
Qed.

(** C12: pipes are first-in first-out under every interleaving.  Start from an
    empty pipe and let any number of tasks read and write it, their critical
    sections interleaved in any order, with ends being opened and closed
    meanwhile.  Then no access ever leaves a buffer; the bytes stored in
    readers' buffers, in order, followed by the bytes still in the pipe, are
    exactly the bytes taken from the writers' buffers, in order; each reader's
    buffer holds exactly the bytes its own turns took, and each writer has
    contributed exactly a prefix of its buffer. *)
Theorem pipe_fifo_interleaved p es :
  pipe_rep p [] -> Forall event_ok es ->
  exists s q, sys_run es (mk_psys p [] [] [] []) = Some s /\
    stream (s_in s) = stream (s_out s) ++ q /\ zlen q <= PIPE_BUF_SIZE /\
    (forall i c, s_readers s !! i = Some c ->
       slice 0 (rc_copied c) (rc_buf c) = part i (s_out s)) /\
    (forall i c, s_writers s !! i = Some c ->
       slice 0 (wc_written c) (wc_buf c) = part i (s_in s)).
Proof.
  intros Hp Hes.
  assert (Hinv : exists s q, sys_run es (mk_psys p [] [] [] []) = Some s /\ sys_inv s q).
  { assert (H0 : sys_inv (mk_psys p [] [] [] []) []).
    { split; [done|]. split; [done|]. split; [intros i c Hi; scbn; by rewrite lookup_nil in Hi|].
      split; [intros i c Hi; scbn; by rewrite lookup_nil in Hi|]. done. }
    revert H0. generalize (mk_psys p [] [] [] []), (@nil Z).
    induction Hes as [|e es He Hes IH]; intros s q Hs; cbn [sys_run]; [eauto|].
    destruct (sys_step_ok e s q Hs He) as (s1 & q1 & -> & H1). ob. eauto. }
  destruct Hinv as (s & q & Hrun & Hp' & Hst & Hr & Hw & _).
  exists s, q. split; [done|]. split; [done|]. split; [apply (pipe_rep_len _ _ Hp')|].
  split; intros i c Hi; [by apply Hr | by apply Hw].
Qed.

(** ** Lifetime of the pipe and its nodes *)

(** The objects of an anonymous pipe between calls: the reference count of the
    pipe is the number of references to its live nodes, each end's open count
    is the number of references to its node, and the pipe is freed exactly when
    both nodes are. *)
Definition refs (n : option pnode) : Z :=
  match n with Some n => n_refcount n | None => 0 end.

Definition node_ok (w : bool) (n : option pnode) : Prop :=
  match n with
  | Some n => 0 < n_refcount n /\ n_priv n = true /\ n_inode n = (if w then 1 else 0)
  | None => True
  end.

Definition heap_inv (h : pheap) : Prop :=
  node_ok false (ph_read h) /\ node_ok true (ph_write h) /\
  match ph_pipe h with
  | Some p =>
      p_magic p = PIPE_MAGIC /\ p_name p = false /\
      ref_count p = refs (ph_read h) + refs (ph_write h) /\ 0 < ref_count p < 2 ^ 31 /\
      read_open p = refs (ph_read h) /\ write_open p = refs (ph_write h)
  | None => ph_read h = None /\ ph_write h = None
  end.

Inductive life_op := LOpen (w : bool) | LClose (w : bool).

Definition life_step (o : life_op) (h : pheap) : option pheap :=
  match o with LOpen w => _vfs_pipe_open w h | LClose w => _vfs_pipe_close w h end.

Fixpoint life_run (os : list life_op) (h : pheap) : option pheap :=
  match os with [] => Some h | o :: os => h' ← life_step o h; life_run os h' end.

(** The callers' side of the contract: number of references each end has
    after the operations, starting from [r] and [w]; [None] when an operation
    uses an end nobody holds, or 2^31 - 1 references are exceeded. *)
Fixpoint holders (os : list life_op) (r w : Z) : option (Z * Z) :=
  match os with
  | [] => Some (r, w)
  | LOpen false :: os => if (0 <? r) && (r + w <? 2 ^ 31 - 1) then holders os (r + 1) w else None
  | LOpen true :: os => if (0 <? w) && (r + w <? 2 ^ 31 - 1) then holders os r (w + 1) else None
  | LClose false :: os => if 0 <? r then holders os (r - 1) w else None
  | LClose true :: os => if 0 <? w then holders os r (w - 1) else None
  end.

#[local] Ltac hcbn :=
  cbn [get_node put_node put_pipe ph_pipe ph_read ph_write negb node_ok refs n_refcount n_priv
       n_inode set_counts p_magic p_name ref_count read_open write_open] in *.
#[local] Ltac conj_lia :=
  repeat match goal with |- _ /\ _ => split end; try done; try lia.

Lemma heap_node h w : heap_inv h -> node_ok w (get_node h w).
Proof. intros (Hr & Hw & _). by destruct w. Qed.

Lemma heap_pipe h w n :
  heap_inv h -> get_node h w = Some n ->
  exists p, ph_pipe h = Some p /\ p_magic p = PIPE_MAGIC /\ p_name p = false /\
    ref_count p = refs (ph_read h) + refs (ph_write h) /\ 0 < ref_count p < 2 ^ 31 /\
    read_open p = refs (ph_read h) /\ write_open p = refs (ph_write h).
Proof.
  intros (_ & _ & Hp) Hn. destruct (ph_pipe h) as [p|]; [eauto|].
  destruct Hp as [H1 H2]. destruct w; cbn [get_node] in Hn; congruence.
Qed.

Lemma refs_nonneg w n : node_ok w n -> 0 <= refs n.
Proof. destruct n; cbn; lia. Qed.

(** Opening adds one reference to the end it opens. *)
Lemma open_ok w h :
  heap_inv h -> 0 < refs (get_node h w) -> refs (ph_read h) + refs (ph_write h) < 2 ^ 31 - 1 ->
  exists h', _vfs_pipe_open w h = Some h' /\ heap_inv h' /\
    refs (get_node h' w) = refs (get_node h w) + 1 /\
    get_node h' (negb w) = get_node h (negb w).
Proof.
  intros Hh Hpos Hlt. pose proof (heap_node h w Hh) as Hn.
  pose proof (refs_nonneg _ _ (heap_node h false Hh)) as Hr0.
  pose proof (refs_nonneg _ _ (heap_node h true Hh)) as Hw0.
  cbn [get_node] in Hr0, Hw0.
  destruct (get_node h w) as [n|] eqn:En; [|cbn in Hpos; lia].
  destruct (heap_pipe h w n Hh En) as (p & Hp & Hm & Hnm & Hrc & Hrng & Hro & Hwo).
  destruct Hn as (Href & Hpriv & Hino). cbn [refs] in Hpos.
  assert (n_refcount n = refs (get_node h w)) as Hrn by (by rewrite En).
  assert (Hle : n_refcount n < 2 ^ 31) by (rewrite Hrn; destruct w; cbn [get_node]; lia).
  unfold _vfs_pipe_open. rewrite En. ob. rewrite Hpriv, Hp. ob. rewrite Hm, Z.eqb_refl, Hnm.
  cbn [negb]. eexists. split; [done|].
  rewrite (u32_small (n_refcount n + 1)) by (unfold is_u32; lia).
  rewrite !i32_small by (unfold is_i32; lia). destruct Hh as (H1 & H2 & _).
  destruct h as [hp hr hw]. cbn [ph_pipe ph_read ph_write] in *.
  destruct w; cbn [get_node put_node put_pipe ph_pipe ph_read ph_write negb] in *; subst;
    rewrite Hino; cbn [Z.eqb Pos.eqb negb refs n_refcount];
    (split; [|by split]); unfold heap_inv; hcbn; conj_lia.
Qed.

(** Closing removes one reference; the last one frees the node, and the last
    one of the pipe frees the pipe. *)
Lemma close_ok w h :
  heap_inv h -> 0 < refs (get_node h w) ->
  exists h', _vfs_pipe_close w h = Some h' /\ heap_inv h' /\
    refs (get_node h' w) = refs (get_node h w) - 1 /\
    get_node h' (negb w) = get_node h (negb w).
Proof.
  intros Hh Hpos. pose proof (heap_node h w Hh) as Hn.
  pose proof (heap_node h false Hh) as Hnr. pose proof (heap_node h true Hh) as Hnw.
  destruct (get_node h w) as [n|] eqn:En; [|cbn in Hpos; lia].
  destruct (heap_pipe h w n Hh En) as (p & Hp & Hm & Hnm & Hrc & Hrng & Hro & Hwo).
  destruct Hn as (Href & Hpriv & Hino). cbn [refs] in Hpos.
  unfold _vfs_pipe_close. rewrite En. ob. rewrite Hpriv, Hp. ob. rewrite Hm, Z.eqb_refl, Hnm.
  cbn [negb]. rewrite (i32_small (ref_count p - 1)) by (unfold is_i32; lia).
  destruct h as [hp hr hw]. cbn [ph_pipe ph_read ph_write get_node] in *.
  assert (Hput : forall b, refs (node_put n b) = n_refcount n - 1 /\
            (b = true -> node_ok w (node_put n b)) /\
            (n_refcount n = 1 -> node_put n b = None)).
  { intros b. unfold node_put. case_if; b2p.
    - cbn. split; [lia|]. by split.
    - rewrite u32_small by (unfold is_u32; pose proof (refs_nonneg _ _ Hnr);
        pose proof (refs_nonneg _ _ Hnw); destruct w; hcbn; subst; hcbn; lia).
      cbn. split; [done|]. split; [|lia]. intros ->. split; [lia|]. by split. }
  destruct (ref_count p - 1 =? 0) eqn:Erc; b2p.
  - (* last reference of the pipe *)
    destruct (Hput false) as (Hpr & _ & Hnone). eexists. split; [done|].
    destruct w; hcbn; subst; hcbn.
    + pose proof (refs_nonneg _ _ Hnr). rewrite Hnone by lia. split; [|by split; [cbn; lia|]].
      unfold heap_inv. cbn. split; [done|]. split; [done|]. split; [|done].
      destruct hr; [|done]. cbn in Hnr, Hrc. lia.
    + pose proof (refs_nonneg _ _ Hnw). rewrite Hnone by lia. split; [|by split; [cbn; lia|]].
      unfold heap_inv. cbn. split; [done|]. split; [done|]. split; [done|].
      destruct hw; [|done]. cbn in Hnw, Hrc. lia.
  - destruct (Hput true) as (Hpr & Hok & _). eexists. split; [done|].
    destruct w; hcbn; subst; rewrite Hino; cbn [Z.eqb Pos.eqb]; hcbn;
      (split; [|by split]); unfold heap_inv;
      hcbn; unfold dec_pos; rewrite ?Hpr;
      rewrite (proj2 (Z.ltb_lt 0 _)) by lia;
      conj_lia; by apply Hok.
Qed.

Lemma life_run_ok os h r w r' w' :
  heap_inv h -> refs (ph_read h) = r -> refs (ph_write h) = w ->
  holders os r w = Some (r', w') ->
  exists h', life_run os h = Some h' /\ heap_inv h' /\
    refs (ph_read h') = r' /\ refs (ph_write h') = w'.
Proof.
  revert h r w. induction os as [|o os IH]; intros h r w Hh Hr Hw Hos; cbn [life_run].
  { injection Hos as <- <-. eauto. }
  destruct o as [[]|[]]; cbn [holders] in Hos; destruct (0 <? _) eqn:E1; cbn [andb] in Hos;
    try done; cbn [life_step].
  1, 2: destruct (r + w <? 2 ^ 31 - 1) eqn:E2; [|done]; b2p.
  3, 4: b2p.
  - destruct (open_ok true h Hh) as (h1 & -> & H1 & Hx & Hy); [cbn; lia|lia|].
    cbn [get_node negb] in *. ob. apply (IH h1 _ _ H1) in Hos; [done|congruence|lia].
  - destruct (open_ok false h Hh) as (h1 & -> & H1 & Hx & Hy); [cbn; lia|lia|].
    cbn [get_node negb] in *. ob. apply (IH h1 _ _ H1) in Hos; [done|lia|congruence].
  - destruct (close_ok true h Hh) as (h1 & -> & H1 & Hx & Hy); [cbn; lia|].
    cbn [get_node negb] in *. ob. apply (IH h1 _ _ H1) in Hos; [done|congruence|lia].
  - destruct (close_ok false h Hh) as (h1 & -> & H1 & Hx & Hy); [cbn; lia|].
    cbn [get_node negb] in *. ob. apply (IH h1 _ _ H1) in Hos; [done|lia|congruence].
Qed.

Lemma pipe_create_ok flags :
  exists h p, pipe_create true true true flags = Some (h, 0) /\ ph_pipe h = Some p /\
    heap_inv h /\ pipe_rep p [] /\ p_flags p = flags /\
    refs (ph_read h) = 1 /\ refs (ph_write h) = 1.
Proof.
  eexists _, _. split; [reflexivity|]. split; [reflexivity|].
  split; [by repeat (split; [done|])|]. split; [|done].
  split; [done|]. split; [done|]. split; [done|]. split; [done|].
  apply ring_empty; [done|]. cbn [p_buf set_counts]. by rewrite zlen_replicate.
Qed.

(** C29: no use after free, no leak.  After [pipe_create], let the two ends be
    opened and closed in any order by callers that only use ends they hold.
    No operation touches a freed object; the open count of each end is the
    number of its holders; and the pipe and both nodes are freed exactly when
    the last holder is gone. *)
Theorem pipe_lifetime flags os r w :
  holders os 1 1 = Some (r, w) ->
  exists h0 h, pipe_create true true true flags = Some (h0, 0) /\
    life_run os h0 = Some h /\
    (ph_pipe h = None <-> r + w = 0) /\ (ph_read h = None <-> r = 0) /\
    (ph_write h = None <-> w = 0) /\
    (forall p, ph_pipe h = Some p -> read_open p = r /\ write_open p = w).
Proof.
  intros Hos. destruct (pipe_create_ok flags) as (h0 & p0 & Hc & Hp0 & Hh & _ & _ & Hr & Hw).
  destruct (life_run_ok os h0 1 1 r w Hh Hr Hw Hos) as (h & Hrun & Hi & Hr' & Hw').
  exists h0, h. split; [done|]. split; [done|]. destruct Hi as (Hnr & Hnw & Hp).
  pose proof (refs_nonneg _ _ Hnr). pose proof (refs_nonneg _ _ Hnw).
  assert (forall b n, node_ok b n -> n = None <-> refs n = 0) as Hz.
  { intros b [n|]; cbn; [|done]. intros (? & _). split; [done|lia]. }
  rewrite (Hz _ _ Hnr), (Hz _ _ Hnw), Hr', Hw'. split; [|split; [done|split; [done|]]].
  - destruct (ph_pipe h) as [p|].
    + destruct Hp as (_ & _ & Hrc & Hpos & _). split; [done|lia].
    + destruct Hp as [Hpr Hpw]. rewrite Hpr, Hpw in *. cbn in *. split; [lia|done].
  - intros p Ep. rewrite Ep in Hp. destruct Hp as (_ & _ & _ & _ & -> & ->). by split.
Qed.

(** [poll] tells the truth.  On the node of a live pipe in blocking mode,
    asking for input on the read end (output on the write end) reports some
    event exactly when the first turn of a one-byte read (write) at that moment
    does not sleep. *)
Theorem pipe_poll_ready h p q n (w : bool) buffer :
  get_node h w = Some n -> n_priv n = true -> n_inode n = (if w then 1 else 0) ->
  ph_pipe h = Some p -> pipe_rep p q -> nonblock p = false -> 1 <= zlen buffer ->
  exists ev t, _vfs_pipe_poll w (if w then VFS_POLLOUT else VFS_POLLIN) h = Some ev /\
    (if w then exists p' n sig, write_turn true p 1 0 buffer = Some (p', n, t, sig)
     else exists p' n b', read_turn p 1 0 buffer = Some (p', n, b', t)) /\
    (ev <> 0 <-> t <> Sleep).
Proof.
  intros Hn Hpriv Hino Hp Hrep Hnb Hb. pose proof Hrep as (Hm & _ & _ & Hlen & _).
  pose proof (pipe_rep_len _ _ Hrep) as Hq.
  unfold _vfs_pipe_poll. rewrite Hn. ob. rewrite Hpriv, Hp. ob.
  rewrite Hm, Z.eqb_refl, Hino, Hlen. cbn [negb].
  destruct w; cbn [Z.eqb Pos.eqb negb]; eexists; [set (N := if read_open p =? 0 then 0 else
      Z.min (1 - 0) (PIPE_BUF_SIZE - zlen q)); exists (write_fate p 1 0 N)
    | exists (read_fate p 1 0 (Z.min (1 - 0) (zlen q)))]; (split; [reflexivity|]).
  - split.
    { destruct (write_turn_ok true p q 1 0 buffer) as (p' & Ht & _); [done|lia|done|word_lia|].
      fold N in Ht. eauto. }
    unfold write_fate, N. rewrite Hnb. cbn [Z.eqb].
    destruct (read_open p =? 0); destruct (zlen q <? PIPE_BUF_SIZE) eqn:E; b2p;
      cbn [negb andb]; [done| done | |].
    + rewrite (proj2 (Z.ltb_lt _ _)) by lia. done.
    + rewrite (proj2 (Z.ltb_ge _ _)) by lia. done.
  - split.
    { destruct (read_turn_ok p q 1 0 buffer) as (p' & Ht & _); [done|lia|done|word_lia|].
      eauto. }
    unfold read_fate. rewrite Hnb. cbn [Z.eqb].
    destruct (0 <? zlen q) eqn:E; b2p; cbn [negb andb].
    + rewrite (proj2 (Z.ltb_lt 0 (Z.min _ _))) by lia.
      rewrite (proj2 (Z.eqb_neq (zlen q) 0)), andb_false_r by lia. done.
    + rewrite (proj2 (Z.ltb_ge 0 (Z.min _ _))) by lia. replace (zlen q) with 0 by lia.
      rewrite andb_true_r. by destruct (write_open p =? 0).
Qed.

(** ** Witnesses *)

(** The pipe [pipe_create] makes, with three bytes written. *)
Definition demo_pipe : pipe_t :=
  match pipe_create true true true 0 with
  | Some (mk_pheap (Some p) _ _, _) =>
      match pipe_write true [] (Some p) 134217728 3 [97; 98; 99] with
      | Some (WriteRet (Some p) _ _) => p
      | _ => p
      end
  | _ => mk_pipe 0 [] 0 0 0 0 0 0 0 false []
  end.

Lemma demo_pipe_rep : pipe_rep demo_pipe [97; 98; 99].
Proof.
  split; [vm_compute; done|]. split; [vm_compute; split; congruence|].
  split; [vm_compute; done|]. split; [vm_compute; done|].
  split; [vm_compute; done|]. split; [vm_compute; congruence|].
  intros i Hi. change (zlen [97; 98; 99]) with 3 in Hi.
  assert (i = 0 \/ i = 1 \/ i = 2) as [->|[-> | ->]] by lia; vm_compute; done.
Qed.

Lemma pipe_calls_end_witness :
  exists res, pipe_read [pipe_close_write] (Some demo_pipe) 134217728 5 [0; 0; 0; 0; 0]
              = Some res.
Proof.
  destruct (pipe_calls_end true [pipe_close_write] demo_pipe [97; 98; 99] 134217728 5
              [0; 0; 0; 0; 0]) as [H _].
  - exact demo_pipe_rep.
  - constructor; [|constructor]. intros p q Hp. exists q. unfold pipe_close_write.
    case_if; exact Hp.
  - word_lia.
  - vm_compute. congruence.
  - exact H.
Defined.

Lemma pipe_read_spec_witness :
  exists p', pipe_read [] (Some demo_pipe) 134217728 2 [0; 0]
             = Some (ReadRet (Some p') [97; 98] 2) /\ pipe_rep p' [99].
Proof.
  destruct (pipe_read_spec demo_pipe [97; 98; 99] 134217728 2 [0; 0]) as (p' & He & Hp & _).
  - exact demo_pipe_rep.
  - lia.
  - lia.
  - word_lia.
  - vm_compute. congruence.
  - exists p'. split; [exact He | exact Hp].
Defined.

Lemma pipe_write_spec_witness :
  exists p', pipe_write true [] (Some demo_pipe) 134217728 2 [100; 101]
             = Some (WriteRet (Some p') 2 false) /\ pipe_rep p' [97; 98; 99; 100; 101].
Proof.
  destruct (pipe_write_spec true demo_pipe [97; 98; 99] 134217728 2 [100; 101])
    as (p' & He & Hp & _).
  - exact demo_pipe_rep.
  - lia.
  - lia.
  - word_lia.
  - vm_compute. congruence.
  - exists p'. split; [exact He | exact Hp].
Defined.

(** A reader and a writer of one pipe, the reader first. *)
Definition demo_events : list event :=
  [EvStartRead 134217728 4 [0; 0; 0; 0]; EvRead 0; EvStartWrite 134217728 2 [7; 8];
   EvWrite 0; EvRead 0].

Lemma pipe_fifo_interleaved_witness :
  exists h p, pipe_create true true true 0 = Some (h, 0) /\ ph_pipe h = Some p /\
     exists s, sys_run demo_events (mk_psys p [] [] [] []) = Some s /\
       stream (s_in s) = [7; 8] /\ stream (s_out s) = [7; 8].
Proof.
  destruct (pipe_create_ok 0) as (h & p & Hc & Hp & _ & Hrep & _).
  exists h, p. split; [exact Hc|]. split; [exact Hp|].
  destruct (pipe_fifo_interleaved p demo_events Hrep) as (s & q & Hrun & _).
  - repeat constructor; cbn; try word_lia; vm_compute; congruence.
  - exists s. split; [exact Hrun|].
    injection Hc as <-. injection Hp as <-. revert Hrun. vm_compute.
    intros [= <-]. split; reflexivity.
Defined.

Lemma pipe_lifetime_witness :
  exists h0 h, pipe_create true true true 0 = Some (h0, 0) /\
       life_run [LOpen true; LClose false; LClose true; LClose true] h0 = Some h /\
       ph_pipe h = None.
Proof.
  destruct (pipe_lifetime 0 [LOpen true; LClose false; LClose true; LClose true] 0 0 eq_refl)
    as (h0 & h & Hc & Hr & Hp & _).
  exists h0, h. split; [exact Hc|]. split; [exact Hr|]. apply Hp. reflexivity.
Defined.

Lemma pipe_poll_ready_witness :
  exists ev t, _vfs_pipe_poll false VFS_POLLIN
      (mk_pheap (Some demo_pipe) (Some (mk_pnode [] 0 1 true)) None) = Some ev /\
    (ev <> 0 <-> t <> Sleep).
Proof.
  destruct (pipe_poll_ready
      (mk_pheap (Some demo_pipe) (Some (mk_pnode [] 0 1 true)) None) demo_pipe [97; 98; 99]
      (mk_pnode [] 0 1 true) false [0]) as (ev & t & H1 & _ & H2); try reflexivity.
  - exact demo_pipe_rep.
  - exists ev, t. split; [exact H1 | exact H2].
Defined.
