(* ===== verification/Crc32.v ===== *)
(** * CRC-32 of the module archive (initfs_modblob.c)

    The table-driven CRC-32 the archive loader uses, and its equality with the
    bit-serial definition of the IEEE 802.3 checksum, from which the detection
    of burst errors follows. *)

From S2P Require Import Prelude.
#[local] Open Scope Z_scope.

Definition crc32_tab : list Z :=
  [0; 1996959894; 3993919788; 2567524794; 124634137; 1886057615;
   3915621685; 2657392035; 249268274; 2044508324; 3772115230; 2547177864;
   162941995; 2125561021; 3887607047; 2428444049; 498536548; 1789927666;
   4089016648; 2227061214; 450548861; 1843258603; 4107580753; 2211677639;
   325883990; 1684777152; 4251122042; 2321926636; 335633487; 1661365465;
   4195302755; 2366115317; 997073096; 1281953886; 3579855332; 2724688242;
   1006888145; 1258607687; 3524101629; 2768942443; 901097722; 1119000684;
   3686517206; 2898065728; 853044451; 1172266101; 3705015759; 2882616665;
   651767980; 1373503546; 3369554304; 3218104598; 565507253; 1454621731;
   3485111705; 3099436303; 671266974; 1594198024; 3322730930; 2970347812;
   795835527; 1483230225; 3244367275; 3060149565; 1994146192; 31158534;
   2563907772; 4023717930; 1907459465; 112637215; 2680153253; 3904427059;
   2013776290; 251722036; 2517215374; 3775830040; 2137656763; 141376813;
   2439277719; 3865271297; 1802195444; 476864866; 2238001368; 4066508878;
   1812370925; 453092731; 2181625025; 4111451223; 1706088902; 314042704;
   2344532202; 4240017532; 1658658271; 366619977; 2362670323; 4224994405;
   1303535960; 984961486; 2747007092; 3569037538; 1256170817; 1037604311;
   2765210733; 3554079995; 1131014506; 879679996; 2909243462; 3663771856;
   1141124467; 855842277; 2852801631; 3708648649; 1342533948; 654459306;
   3188396048; 3373015174; 1466479909; 544179635; 3110523913; 3462522015;
   1591671054; 702138776; 2966460450; 3352799412; 1504918807; 783551873;
   3082640443; 3233442989; 3988292384; 2596254646; 62317068; 1957810842;
   3939845945; 2647816111; 81470997; 1943803523; 3814918930; 2489596804;
   225274430; 2053790376; 3826175755; 2466906013; 167816743; 2097651377;
   4027552580; 2265490386; 503444072; 1762050814; 4150417245; 2154129355;
   426522225; 1852507879; 4275313526; 2312317920; 282753626; 1742555852;
   4189708143; 2394877945; 397917763; 1622183637; 3604390888; 2714866558;
   953729732; 1340076626; 3518719985; 2797360999; 1068828381; 1219638859;
   3624741850; 2936675148; 906185462; 1090812512; 3747672003; 2825379669;
   829329135; 1181335161; 3412177804; 3160834842; 628085408; 1382605366;
   3423369109; 3138078467; 570562233; 1426400815; 3317316542; 2998733608;
   733239954; 1555261956; 3268935591; 3050360625; 752459403; 1541320221;
   2607071920; 3965973030; 1969922972; 40735498; 2617837225; 3943577151;
   1913087877; 83908371; 2512341634; 3803740692; 2075208622; 213261112;
   2463272603; 3855990285; 2094854071; 198958881; 2262029012; 4057260610;
   1759359992; 534414190; 2176718541; 4139329115; 1873836001; 414664567;
   2282248934; 4279200368; 1711684554; 285281116; 2405801727; 4167216745;
   1634467795; 376229701; 2685067896; 3608007406; 1308918612; 956543938;
   2808555105; 3495958263; 1231636301; 1047427035; 2932959818; 3654703836;
   1088359270; 936918000; 2847714899; 3736837829; 1202900863; 817233897;
   3183342108; 3401237130; 1404277552; 615818150; 3134207493; 3453421203;
   1423857449; 601450431; 3009837614; 3294710456; 1567103746; 711928724;
   3020668471; 3272380065; 1510334235; 755167117].

(** One byte: [crc32_tab[(crc ^ b) & 0xFF] ^ (crc >> 8)]. *)
Definition crc_step (c b : Z) : option Z :=
  t ← ld crc32_tab (Z.land (Z.lxor c b) 255); Some (Z.lxor t (Z.shiftr c 8)).

Fixpoint crc32_loop (n : nat) (buf : mem) (i crc : Z) : option Z :=
  match n with
  | O => Some crc
  | S n => b ← ld buf i; crc' ← crc_step crc b; crc32_loop n buf (i + 1) crc'
  end.

Definition crc32 (buf : mem) (len : Z) : option Z :=
  c ← crc32_loop (Z.to_nat len) buf 0 4294967295; Some (Z.lxor c 4294967295).

Definition CCTKFS_CKSUM_OFF : Z := 28.

Fixpoint image_crc_loop (n : nat) (img : mem) (i c : Z) : option Z :=
  match n with
  | O => Some c
  | S n =>
      b0 ← ld img i;
      let b := if (CCTKFS_CKSUM_OFF <=? i) && (i <? CCTKFS_CKSUM_OFF + 4) then 0 else b0 in
      c' ← crc_step c b; image_crc_loop n img (i + 1) c'
  end.

Definition compute_image_crc32 (img : mem) (total : Z) : option Z :=
  c ← image_crc_loop (Z.to_nat total) img 0 4294967295; Some (Z.lxor c 4294967295).

(** ** Bit-serial CRC-32 *)

Definition CRC_POLY : Z := 3988292384.

(** One bit of the reflected shift register. *)
Definition crc_bit (c : Z) : Z :=
  Z.lxor (Z.shiftr c 1) (if Z.odd c then CRC_POLY else 0).

Fixpoint crc_bits (n : nat) (c : Z) : Z :=
  match n with O => c | S n => crc_bit (crc_bits n c) end.

Definition crc_bytes (c : Z) (l : list Z) : Z :=
  fold_left (fun c b => crc_bits 8 (Z.lxor c b)) l c.

Definition crc32_ref (l : list Z) : Z := Z.lxor (crc_bytes 4294967295 l) 4294967295.

Lemma crc_bit_xor a b : crc_bit (Z.lxor a b) = Z.lxor (crc_bit a) (crc_bit b).
Proof.
  unfold crc_bit. rewrite Z.shiftr_lxor.
  assert (Ho : Z.odd (Z.lxor a b) = xorb (Z.odd a) (Z.odd b))
    by (rewrite <- !Z.bit0_odd; apply Z.lxor_spec).
  rewrite Ho. apply Z.bits_inj'. intros n Hn. rewrite !Z.lxor_spec.
  destruct (Z.odd a), (Z.odd b); cbn [xorb]; rewrite ?Z.bits_0;
    destruct (Z.testbit (a ≫ 1) n), (Z.testbit (b ≫ 1) n), (Z.testbit CRC_POLY n); done.
Qed.

Lemma crc_bits_xor n a b : crc_bits n (Z.lxor a b) = Z.lxor (crc_bits n a) (crc_bits n b).
Proof.
  induction n as [|n IH]; [done|]. cbn [crc_bits]. rewrite IH. apply crc_bit_xor.
Qed.

Lemma crc_bits_add n m c : crc_bits (n + m) c = crc_bits n (crc_bits m c).
Proof. induction n as [|n IH]; [done|]. cbn [crc_bits Nat.add]. by rewrite IH. Qed.

(** Bits that have not reached the register's low end are only shifted. *)
Lemma crc_bits_shift n x : crc_bits n (Z.shiftl x (Z.of_nat n)) = x.
Proof.
  revert x. induction n as [|n IH]; intros x; [apply Z.shiftl_0_r|].
  replace (S n) with (n + 1)%nat by lia. rewrite crc_bits_add.
  assert (crc_bits 1 (x ≪ Z.of_nat (n + 1)) = x ≪ Z.of_nat n) as ->; [|apply IH].
  cbn [crc_bits]. unfold crc_bit.
  replace (Z.odd (x ≪ Z.of_nat (n + 1))) with false.
  - rewrite Z.lxor_0_r, Z.shiftr_shiftl_l by lia. f_equal. lia.
  - symmetry. rewrite <- Z.bit0_odd. apply Z.shiftl_spec_low. lia.
Qed.

Lemma crc_bits_shift8 x : crc_bits 8 (Z.shiftl x 8) = x.
Proof. pose proof (crc_bits_shift 8 x) as H. change (Z.of_nat 8) with 8 in H. exact H. Qed.

Lemma crc32_tab_bits i : 0 <= i < 256 -> ld crc32_tab i = Some (crc_bits 8 i).
Proof.
  intros Hi.
  assert (H : forallb (fun k => bool_decide (ld crc32_tab k = Some (crc_bits 8 k)))
                      (seqZ 0 256) = true) by (vm_compute; reflexivity).
  rewrite forallb_forall in H. specialize (H i). rewrite bool_decide_eq_true in H.
  apply H. apply list_elem_of_In, elem_of_seqZ. lia.
Qed.

(** The low byte and the rest of a word. *)
Lemma split_low x : x = Z.lxor (Z.land x 255) (Z.shiftl (Z.shiftr x 8) 8).
Proof.
  apply Z.bits_inj'. intros n Hn. rewrite Z.lxor_spec, Z.land_spec.
  change 255 with (Z.ones 8). destruct (decide (n < 8)).
  - rewrite Z.ones_spec_low, Z.shiftl_spec_low, andb_true_r, xorb_false_r by lia. done.
  - rewrite Z.ones_spec_high, andb_false_r, xorb_false_l by lia.
    rewrite Z.shiftl_spec, Z.shiftr_spec by lia. f_equal. lia.
Qed.

Lemma shiftr_byte b : is_u8 b -> Z.shiftr b 8 = 0.
Proof. intros H. rewrite Z.shiftr_div_pow2 by lia. apply Z.div_small. exact H. Qed.

(** One table step is eight bit steps. *)
Lemma crc_step_ok c b : is_u8 b -> crc_step c b = Some (crc_bits 8 (Z.lxor c b)).
Proof.
  intros Hb. unfold crc_step. rewrite crc32_tab_bits.
  2: { change 255 with (Z.ones 8). rewrite Z.land_ones by lia. apply Z.mod_pos_bound. lia. }
  ob. f_equal. rewrite (split_low (Z.lxor c b)) at 2. rewrite crc_bits_xor. f_equal.
  rewrite crc_bits_shift8, Z.shiftr_lxor, (shiftr_byte b Hb), Z.lxor_0_r. done.
Qed.

Lemma crc32_loop_ok (n : nat) buf i c :
  bytes buf -> 0 <= i -> i + Z.of_nat n <= zlen buf ->
  crc32_loop n buf i c = Some (crc_bytes c (slice i (Z.of_nat n) buf)).
Proof.
  intros Hb. revert i c. induction n as [|n IH]; intros i c Hi Hn; [by rewrite slice_0|].
  cbn [crc32_loop]. destruct (ld_in buf i) as [b Hl]; [lia|]. rewrite Hl. ob.
  assert (is_u8 b) by (rewrite ld_nonneg in Hl by lia; by apply (Forall_lookup_1 _ _ _ _ Hb Hl)).
  rewrite crc_step_ok by done. ob. rewrite IH by lia.
  replace (Z.of_nat (S n)) with (1 + Z.of_nat n) by lia.
  by rewrite slice_app_split, (slice_1 i buf b) by (done || lia).
Qed.

(** The bytes the image checksum runs over: the checksum field as zeros. *)
Definition blank_sum (img : list Z) : list Z := splice CCTKFS_CKSUM_OFF [0; 0; 0; 0] img.

Lemma image_crc_loop_ok (n : nat) img i c :
  bytes img -> 32 <= zlen img -> 0 <= i -> i + Z.of_nat n <= zlen img ->
  image_crc_loop n img i c = Some (crc_bytes c (slice i (Z.of_nat n) (blank_sum img))).
Proof.
  intros Hb H32. revert i c. induction n as [|n IH]; intros i c Hi Hn; [by rewrite slice_0|].
  cbn [image_crc_loop]. destruct (ld_in img i) as [b Hl]; [lia|]. rewrite Hl. ob.
  set (b' := if (CCTKFS_CKSUM_OFF <=? i) && (i <? CCTKFS_CKSUM_OFF + 4) then 0 else b).
  assert (Hl' : ld (blank_sum img) i = Some b').
  { unfold blank_sum, b', CCTKFS_CKSUM_OFF. change (zlen [0;0;0;0]) with 4.
    case_if; b2p.
    - rewrite ld_splice_in by (change (zlen [0;0;0;0]) with 4; lia).
      assert (i = 28 \/ i = 29 \/ i = 30 \/ i = 31) as [->|[->|[->| ->]]] by lia; done.
    - rewrite ld_splice_out; [done|lia|change (zlen [0;0;0;0]) with 4; lia|].
      change (zlen [0;0;0;0]) with 4. lia. }
  assert (Hb' : is_u8 b').
  { assert (is_u8 b)
      by (rewrite ld_nonneg in Hl by lia; by apply (Forall_lookup_1 _ _ _ _ Hb Hl)).
    unfold b'. case_if; [word_lia|done]. }
  rewrite crc_step_ok by done. ob. rewrite IH by lia.
  replace (Z.of_nat (S n)) with (1 + Z.of_nat n) by lia.
  by rewrite slice_app_split, (slice_1 i _ b') by (done || lia).
Qed.

Lemma image_crc_ok img total :
  bytes img -> 32 <= zlen img -> 0 <= total <= zlen img ->
  compute_image_crc32 img total = Some (crc32_ref (slice 0 total (blank_sum img))).
Proof.
  intros. unfold compute_image_crc32, crc32_ref. rewrite image_crc_loop_ok by (done || lia).
  by rewrite Z2Nat.id by lia.
Qed.

(** C31: the table-driven checksum is the CRC-32 of IEEE 802.3.  For any buffer
    of bytes, [crc32] is the bit-serial CRC-32 of its first [len] bytes, and
    [compute_image_crc32] is that of the image with its checksum field (bytes
    28 to 31) zeroed; neither reads outside its buffer or its table. *)
Theorem crc32_is_bitwise buf len :
  bytes buf -> 0 <= len <= zlen buf ->
  crc32 buf len = Some (crc32_ref (slice 0 len buf)) /\
  (32 <= zlen buf -> compute_image_crc32 buf len = Some (crc32_ref (slice 0 len (blank_sum buf)))).
Proof.
  intros Hb Hl. split.
  - unfold crc32, crc32_ref. rewrite crc32_loop_ok by (done || lia). by rewrite Z2Nat.id by lia.
  - intros H32. by apply image_crc_ok.
Qed.


(** ** Error detection *)

Lemma lxor_u32 a b : is_u32 a -> is_u32 b -> is_u32 (Z.lxor a b).
Proof.
  intros [Ha1 Ha2] [Hb1 Hb2]. assert (H0 : 0 <= Z.lxor a b) by (apply Z.lxor_nonneg; lia).
  split; [done|]. apply Z.bounded_iff_bits_nonneg; [lia|done|]. intros l Hl.
  rewrite Z.lxor_spec.
  rewrite (proj1 (Z.bounded_iff_bits_nonneg 32 a ltac:(lia) Ha1) Ha2 l Hl).
  by rewrite (proj1 (Z.bounded_iff_bits_nonneg 32 b ltac:(lia) Hb1) Hb2 l Hl).
Qed.

Lemma crc_bit_u32 c : is_u32 c -> is_u32 (crc_bit c).
Proof.
  intros Hc. unfold crc_bit. apply lxor_u32.
  - rewrite Z.shiftr_div_pow2 by lia. unfold is_u32 in *. split; [apply Z.div_pos; lia|].
    apply Z.div_lt_upper_bound; lia.
  - case_if; unfold is_u32, CRC_POLY; lia.
Qed.

Lemma crc_bits_u32 n c : is_u32 c -> is_u32 (crc_bits n c).
Proof. intros. induction n; [done|]. by apply crc_bit_u32. Qed.

(** The register loses no information: a non-zero word stays non-zero. *)
Lemma crc_bit_0 d : is_u32 d -> crc_bit d = 0 -> d = 0.
Proof.
  intros Hd H. apply Z.lxor_eq in H. rewrite Z.shiftr_div_pow2 in H by lia.
  unfold is_u32, CRC_POLY in *. pose proof (Zdiv2_odd_eqn d) as E.
  rewrite Z.div2_div in E. change (2 ^ 1) with 2 in H.
  destruct (Z.odd d); [|lia].
  assert (d / 2 < 2147483648) by (apply Z.div_lt_upper_bound; lia). lia.
Qed.

Lemma crc_bits_0 n d : is_u32 d -> crc_bits n d = 0 -> d = 0.
Proof.
  intros Hd. induction n as [|n IH]; [done|]. cbn [crc_bits]. intros H.
  apply IH, crc_bit_0; [by apply crc_bits_u32|done].
Qed.

Lemma crc_bits_inj n a b : is_u32 a -> is_u32 b -> crc_bits n a = crc_bits n b -> a = b.
Proof.
  intros Ha Hb H. apply Z.lxor_eq, (crc_bits_0 n); [by apply lxor_u32|].
  by rewrite crc_bits_xor, H, Z.lxor_nilpotent.
Qed.

Lemma crc_bytes_inj l a b :
  bytes l -> is_u32 a -> is_u32 b -> crc_bytes a l = crc_bytes b l -> a = b.
Proof.
  intros Hl. revert a b. induction Hl as [|x l Hx Hl IH]; intros a b Ha Hb H; [done|].
  assert (is_u32 x) by (unfold is_u8, is_u32 in *; lia).
  apply IH in H; [|by apply crc_bits_u32, lxor_u32..].
  apply crc_bits_inj in H; [|by apply lxor_u32..].
  assert (E : Z.lxor (Z.lxor a x) x = Z.lxor (Z.lxor b x) x) by congruence.
  by rewrite !Z.lxor_assoc, !Z.lxor_nilpotent, !Z.lxor_0_r in E.
Qed.

(** The bytes of a word, least significant first. *)
Fixpoint le_word (l : list Z) : Z :=
  match l with [] => 0 | b :: l => Z.lxor b (Z.shiftl (le_word l) 8) end.

(** Feeding bytes is feeding their word at once. *)
Lemma crc_bytes_word l c :
  crc_bytes c l = crc_bits (8 * length l) (Z.lxor c (le_word l)).
Proof.
  revert c. induction l as [|b l IH]; intros c; [cbn; by rewrite Z.lxor_0_r|].
  cbn [crc_bytes fold_left le_word length]. fold (crc_bytes (crc_bits 8 (Z.lxor c b)) l).
  rewrite IH. replace (8 * S (length l))%nat with (8 * length l + 8)%nat by lia.
  rewrite crc_bits_add. f_equal. rewrite <- Z.lxor_assoc, !crc_bits_xor.
  by rewrite crc_bits_shift8.
Qed.

Lemma le_word_inj l1 l2 :
  bytes l1 -> bytes l2 -> length l1 = length l2 -> le_word l1 = le_word l2 -> l1 = l2.
Proof.
  intros H1. revert l2. induction H1 as [|x l1 Hx H1 IH]; intros l2 H2 Hlen H;
    destruct l2 as [|y l2]; try done. apply Forall_cons_1 in H2 as [Hy H2].
  cbn [le_word] in H. injection Hlen as Hlen.
  assert (E : forall a l, is_u8 a ->
    Z.land (Z.lxor a (Z.shiftl (le_word l) 8)) 255 = a /\
    Z.shiftr (Z.lxor a (Z.shiftl (le_word l) 8)) 8 = le_word l).
  { intros a l Ha. split.
    - change 255 with (Z.ones 8). apply Z.bits_inj'. intros n Hn.
      rewrite Z.land_spec, Z.lxor_spec. destruct (decide (n < 8)).
      + rewrite Z.ones_spec_low, Z.shiftl_spec_low, andb_true_r, xorb_false_r by lia. done.
      + rewrite Z.ones_spec_high, andb_false_r by lia. symmetry.
        apply (proj1 (Z.bounded_iff_bits_nonneg 8 a ltac:(lia) ltac:(apply Ha))); [apply Ha|lia].
    - rewrite Z.shiftr_lxor, (shiftr_byte a Ha), Z.lxor_0_l, Z.shiftr_shiftl_l by lia.
      apply Z.shiftl_0_r. }
  destruct (E x l1 Hx) as [Ex1 Ex2], (E y l2 Hy) as [Ey1 Ey2].
  rewrite H in Ex1, Ex2. f_equal; [congruence|]. apply IH; [done..|congruence].
Qed.

Lemma le_word_u32 l : bytes l -> (length l <= 4)%nat -> is_u32 (le_word l).
Proof.
  intros Hl Hn. assert (Hg : 0 <= le_word l < 2 ^ (8 * Z.of_nat (length l))).
  { clear Hn. induction Hl as [|x l Hx Hl IH]; [cbn; lia|]. cbn [le_word length].
    assert (H0 : 0 <= Z.lxor x (le_word l ≪ 8)).
    { apply Z.lxor_nonneg. rewrite Z.shiftl_nonneg. unfold is_u8 in Hx. lia. }
    split; [done|]. apply Z.bounded_iff_bits_nonneg; [lia|done|]. intros n Hlen.
    rewrite Z.lxor_spec, Z.shiftl_spec by lia.
    rewrite (proj1 (Z.bounded_iff_bits_nonneg 8 x ltac:(lia) ltac:(apply Hx)) ltac:(apply Hx) n)
      by lia.
    rewrite (proj1 (Z.bounded_iff_bits_nonneg (8 * Z.of_nat (length l)) (le_word l) ltac:(lia)
              ltac:(lia)) ltac:(lia) (n - 8)) by lia. done. }
  unfold is_u32. assert (2 ^ (8 * Z.of_nat (length l)) <= 2 ^ 32)
    by (apply Z.pow_le_mono_r; lia). lia.
Qed.

Lemma crc_bytes_u32 l c : bytes l -> is_u32 c -> is_u32 (crc_bytes c l).
Proof.
  intros Hl. revert c. induction Hl as [|x l Hx Hl IH]; intros c Hc; [done|].
  apply IH, crc_bits_u32, lxor_u32; [done|]. unfold is_u8, is_u32 in *. lia.
Qed.

(** Every burst error of at most four bytes changes the checksum. *)
Lemma crc32_burst pre w1 w2 post :
  bytes pre -> bytes w1 -> bytes w2 -> bytes post ->
  length w1 = length w2 -> (length w1 <= 4)%nat -> w1 <> w2 ->
  crc32_ref (pre ++ w1 ++ post) <> crc32_ref (pre ++ w2 ++ post).
Proof.
  intros Hpre Hw1 Hw2 Hpost Hlen H4 Hne H. apply Hne. unfold crc32_ref in H.
  assert (E : crc_bytes 4294967295 (pre ++ w1 ++ post) = crc_bytes 4294967295 (pre ++ w2 ++ post)).
  { apply (f_equal (fun x => Z.lxor x 4294967295)) in H.
    by rewrite !Z.lxor_assoc, !Z.lxor_nilpotent, !Z.lxor_0_r in H. }
  clear H. unfold crc_bytes in E. rewrite !fold_left_app in E.
  set (c := fold_left _ pre _) in E.
  assert (Hc : is_u32 c) by (apply (crc_bytes_u32 pre); [done|word_lia]).
  apply (crc_bytes_inj post) in E; [|done|by apply (crc_bytes_u32 w1)|by apply (crc_bytes_u32 w2)].
  change (crc_bytes c w1 = crc_bytes c w2) in E. rewrite !crc_bytes_word, Hlen in E.
  apply crc_bits_inj in E; [|apply lxor_u32; [done|apply le_word_u32; [done|lia]]..].
  apply le_word_inj; [done..|].
  apply (f_equal (Z.lxor c)) in E. by rewrite <- !Z.lxor_assoc, !Z.lxor_nilpotent, !Z.lxor_0_l in E.
Qed.

Lemma crc32_is_bitwise_witness :
  crc32 [49; 50; 51; 52; 53; 54; 55; 56; 57] 9 = Some 3421780262.
Proof.
  destruct (crc32_is_bitwise [49; 50; 51; 52; 53; 54; 55; 56; 57] 9) as [-> _].
  - repeat constructor; word_lia.
  - unfold zlen. simpl. lia.
  - vm_compute. reflexivity.
Defined.
