(* ===== verification/Initfs.v ===== *)
(** * initfs_modblob.c: the in-memory module archive

    The boot loader hands the kernel a cctkfs image; [initfs_modblob_load]
    copies it to a static buffer and validates it, and the lookup functions
    return pointers into that buffer.  Pointers into the buffer are offsets. *)

From S2P Require Import Prelude Klib Crc32.
#[local] Open Scope Z_scope.

Definition CCTKFS_MAGIC : Z := 1397115715.
Definition CCTKFS_VERSION : Z := 1.
Definition INITFS_MODBLOB_MAX_IMAGE : Z := 16777216.
Definition HDR_SIZE : Z := 32.
Definition ENTRY_SIZE : Z := 24.

Record initfs := mk_initfs { cctkfs_stage : mem; cctkfs_size : Z; cctkfs_ready : Z }.

(** The fields of [cctkfs_hdr_t]. *)
Record cctkfs_hdr := mk_hdr {
  h_magic : Z; h_version : Z; h_total_size : Z; h_count : Z;
  h_entries_off : Z; h_names_off : Z; h_names_size : Z; h_checksum : Z
}.

Definition hdr_ptr (stage : mem) : option cctkfs_hdr :=
  magic ← ld32 stage 0; version ← ld32 stage 4; total ← ld32 stage 8; count ← ld32 stage 12;
  eoff ← ld32 stage 16; noff ← ld32 stage 20; nsize ← ld32 stage 24; sum ← ld32 stage 28;
  Some (mk_hdr magic version total count eoff noff nsize sum).

(** The fields of [cctkfs_entry_t] the code reads, for entry [i]. *)
Record cctkfs_entry := mk_entry { e_name_off : Z; e_name_len : Z; e_data_off : Z; e_data_size : Z }.

Definition entry_at (stage : mem) (h : cctkfs_hdr) (i : Z) : option cctkfs_entry :=
  let a := h_entries_off h + ENTRY_SIZE * i in
  noff ← ld32 stage a; nlen ← ld32 stage (a + 4);
  doff ← ld32 stage (a + 8); dsize ← ld32 stage (a + 12);
  Some (mk_entry noff nlen doff dsize).

Definition validate_header (stage : mem) (size : Z) : option Z :=
  if size <? HDR_SIZE then Some (-1)
  else
    h ← hdr_ptr stage;
    if negb (h_magic h =? CCTKFS_MAGIC) then Some (-2)
    else if negb (h_version h =? CCTKFS_VERSION) then Some (-3)
    else if negb (h_total_size h =? size) then Some (-4)
    else if h_entries_off h <? HDR_SIZE then Some (-5)
    else if (u32 (h_names_off h + h_names_size h) <? h_names_off h)
            || (size <? u32 (h_names_off h + h_names_size h)) then Some (-6)
    else if 4294967295 / ENTRY_SIZE <? h_count h then Some (-7)
    else
      let entries_end := u32 (h_entries_off h + u32 (h_count h * ENTRY_SIZE)) in
      if (entries_end <? h_entries_off h) || (h_names_off h <? entries_end) then Some (-7)
      else if negb (h_checksum h =? 0) then
        expected ← compute_image_crc32 stage size;
        if negb (h_checksum h =? expected) then Some (-8) else Some 0
      else Some 0.

(** [phys] is the memory at [phys_addr]. *)
Definition initfs_modblob_load (phys : mem) (phys_addr size : Z) (s : initfs)
  : option (initfs * Z) :=
  if (phys_addr =? 0) || (size =? 0) then Some (s, -1)
  else if INITFS_MODBLOB_MAX_IMAGE <? size then Some (s, -2)
  else
    stage ← memcpy (cctkfs_stage s) 0 phys 0 size;
    rc ← validate_header stage size;
    if negb (rc =? 0) then Some (mk_initfs stage 0 (cctkfs_ready s), rc)
    else Some (mk_initfs stage size 1, 0).

(** [name_eq]: [blob] is the buffer and [base] the offset of the name blob. *)
Fixpoint name_eq_loop (n : nat) (want blob : mem) (off i : Z) : option Z :=
  match n with
  | O => c ← ld want i; Some (if c =? 0 then 1 else 0)
  | S n =>
      c ← ld want i;
      if c =? 0 then Some 0
      else
        b ← ld blob (off + i);
        if negb (c =? b) then Some 0 else name_eq_loop n want blob off (i + 1)
  end.

Definition name_eq (want blob : mem) (off len : Z) : option Z :=
  name_eq_loop (Z.to_nat len) want blob off 0.

(** [basename_of]: the offset of the basename in the path. *)
Fixpoint basename_loop (fuel : nat) (path : mem) (s last : Z) : option Z :=
  match fuel with
  | O => None
  | S fuel =>
      c ← ld path s;
      if c =? 0 then Some last
      else basename_loop fuel path (s + 1) (if c =? 47 then s + 1 else last)
  end.

Definition basename_of (path : mem) : option Z := basename_loop (length path) path 0 0.

Fixpoint blob_basename_loop (n : nat) (blob : mem) (off i bn : Z) : option Z :=
  match n with
  | O => Some bn
  | S n => c ← ld blob (off + i); blob_basename_loop n blob off (i + 1) (if c =? 47 then off + i + 1 else bn)
  end.

Definition basename_eq (want blob : mem) (off len : Z) : option Z :=
  bn ← blob_basename_loop (Z.to_nat len) blob off 0 off;
  name_eq want blob bn (off + len - bn).

(** The loop over the entries that [initfs_modblob_get] runs twice, with
    [name_eq] and then with [basename_eq]: [None] inside for no match,
    [Some None] for a match whose data is out of range, and otherwise the data
    offset and size. *)
Fixpoint entry_loop (eq : mem -> Z -> Z -> option Z) (n : nat) (s : initfs) (h : cctkfs_hdr)
    (i : Z) : option (option (option (Z * Z))) :=
  match n with
  | O => Some None
  | S n =>
      e ← entry_at (cctkfs_stage s) h i;
      let name_end := u32 (e_name_off e + e_name_len e) in
      if (name_end <? e_name_off e) || (h_names_size h <? name_end)
      then entry_loop eq n s h (i + 1)
      else
        r ← eq (cctkfs_stage s) (h_names_off h + e_name_off e) (e_name_len e);
        if r =? 0 then entry_loop eq n s h (i + 1)
        else
          let data_end := u32 (e_data_off e + e_data_size e) in
          if (data_end <? e_data_off e) || (cctkfs_size s <? data_end) then Some (Some None)
          else Some (Some (Some (e_data_off e, e_data_size e)))
  end.

(** [initfs_modblob_get]: the return value, and the data offset and size
    stored through the out pointers.  [outs] is whether both are non-null. *)
Definition initfs_modblob_get (path : option mem) (outs : bool) (s : initfs)
  : option (Z * option (Z * Z)) :=
  match path with
  | None => Some (-1, None)
  | Some path =>
      if (cctkfs_ready s =? 0) || negb outs then Some (-1, None)
      else
        h ← hdr_ptr (cctkfs_stage s);
        r1 ← entry_loop (name_eq path) (Z.to_nat (h_count h)) s h 0;
        match r1 with
        | Some (Some d) => Some (0, Some d)
        | Some None => Some (-1, None)
        | None =>
            bn ← basename_of path;
            let want := drop (Z.to_nat bn) path in
            c ← ld want 0;
            if c =? 0 then Some (-1, None)
            else
              r2 ← entry_loop (basename_eq want) (Z.to_nat (h_count h)) s h 0;
              match r2 with
              | Some (Some d) => Some (0, Some d)
              | _ => Some (-1, None)
              end
        end
  end.

Definition initfs_modblob_count (s : initfs) : option Z :=
  if cctkfs_ready s =? 0 then Some 0 else h ← hdr_ptr (cctkfs_stage s); Some (i32 (h_count h)).

(** [initfs_modblob_at]: return value, and offsets of the path and of the
    data with its size. *)
Definition initfs_modblob_at (idx : Z) (s : initfs) : option (Z * option (Z * Z * Z)) :=
  if cctkfs_ready s =? 0 then Some (-1, None)
  else
    h ← hdr_ptr (cctkfs_stage s);
    if (idx <? 0) || (h_count h <=? idx) then Some (-1, None)
    else
      e ← entry_at (cctkfs_stage s) h idx;
      let data_end := u32 (e_data_off e + e_data_size e) in
      if (data_end <? e_data_off e) || (cctkfs_size s <? data_end) then Some (-1, None)
      else
        let name_end := u32 (e_name_off e + e_name_len e) in
        if (name_end <? e_name_off e) || (h_names_size h <? name_end) then Some (-1, None)
        else Some (0, Some (h_names_off h + e_name_off e, e_data_off e, e_data_size e)).

(** ** The validated image *)

(** Header, entry table, name blob and image follow each other without
    overlap or wrap-around. *)
Definition good_hdr (h : cctkfs_hdr) (size : Z) : Prop :=
  0 <= h_count h /\ HDR_SIZE <= h_entries_off h /\
  h_entries_off h + ENTRY_SIZE * h_count h <= h_names_off h /\
  0 <= h_names_size h /\ h_names_off h + h_names_size h <= size.

Definition initfs_ok (s : initfs) : Prop :=
  zlen (cctkfs_stage s) = INITFS_MODBLOB_MAX_IMAGE /\ bytes (cctkfs_stage s) /\
  (cctkfs_ready s <> 0 ->
   exists h, hdr_ptr (cctkfs_stage s) = Some h /\ good_hdr h (cctkfs_size s) /\
     cctkfs_size s <= INITFS_MODBLOB_MAX_IMAGE).

Definition hdr_u32 (h : cctkfs_hdr) : Prop :=
  is_u32 (h_magic h) /\ is_u32 (h_version h) /\ is_u32 (h_total_size h) /\ is_u32 (h_count h) /\
  is_u32 (h_entries_off h) /\ is_u32 (h_names_off h) /\ is_u32 (h_names_size h) /\
  is_u32 (h_checksum h).

Lemma hdr_ptr_in stage :
  bytes stage -> HDR_SIZE <= zlen stage -> exists h, hdr_ptr stage = Some h /\ hdr_u32 h.
Proof.
  intros Hb Hl. unfold HDR_SIZE in Hl. unfold hdr_ptr.
  destruct (ld32_in stage 0 Hb) as (? & -> & ?); [lia..|]. ob.
  destruct (ld32_in stage 4 Hb) as (? & -> & ?); [lia..|]. ob.
  destruct (ld32_in stage 8 Hb) as (? & -> & ?); [lia..|]. ob.
  destruct (ld32_in stage 12 Hb) as (? & -> & ?); [lia..|]. ob.
  destruct (ld32_in stage 16 Hb) as (? & -> & ?); [lia..|]. ob.
  destruct (ld32_in stage 20 Hb) as (? & -> & ?); [lia..|]. ob.
  destruct (ld32_in stage 24 Hb) as (? & -> & ?); [lia..|]. ob.
  destruct (ld32_in stage 28 Hb) as (? & -> & ?); [lia..|]. ob.
  eexists. split; [done|]. by repeat (split; [done|]).
Qed.

(** The header's arithmetic checks, which reject every wrap-around. *)
Lemma validate_header_inv stage size rc :
  bytes stage -> 0 <= size <= zlen stage -> is_u32 size ->
  validate_header stage size = Some rc -> rc = 0 ->
  exists h, hdr_ptr stage = Some h /\ good_hdr h size.
Proof.
  intros Hb Hs Hu Hv ->. unfold validate_header in Hv.
  destruct (size <? HDR_SIZE) eqn:E0; b2p; [done|].
  destruct (hdr_ptr_in stage Hb) as (h & Hh & Hf); [lia|]. rewrite Hh in Hv. exists h.
  split; [done|]. revert Hv. ob. destruct Hf as (_ & _ & _ & Hc & He & Hn & Hns & _).
  unfold good_hdr, ENTRY_SIZE, HDR_SIZE, is_u32 in *.
  change (4294967295 / 24) with 178956970.
  repeat (case_if; [done|]). intros _. b2p.
  rewrite (u32_small (h_count h * 24)) in * by (unfold is_u32; lia).
  assert (Hwrap : forall a b, 0 <= a < 2 ^ 32 -> 0 <= b < 2 ^ 32 -> a <= u32 (a + b) ->
            u32 (a + b) = a + b) by (intros; word_lia).
  rewrite (Hwrap (h_names_off h) (h_names_size h)) in * by lia.
  rewrite (Hwrap (h_entries_off h) (h_count h * 24)) in * by lia. lia.
Qed.

Lemma validate_header_total stage size :
  bytes stage -> 0 <= size <= zlen stage -> exists rc, validate_header stage size = Some rc.
Proof.
  intros Hb Hs. unfold validate_header. destruct (size <? HDR_SIZE) eqn:E0; b2p; [eauto|].
  destruct (hdr_ptr_in stage Hb) as (h & -> & _); [lia|]. ob. unfold HDR_SIZE in *.
  repeat (case_if; [by eauto|]). case_if; [|eauto].
  rewrite image_crc_ok by (done || lia). ob. case_if; eauto.
Qed.

(** C23: loading any image is safe and leaves a usable state.  Whatever bytes
    the boot loader supplies, the first [initfs_modblob_load] returns without
    leaving its buffers; if it returns 0 the archive is ready and its entry
    table and name blob lie one after the other inside the image, with no
    offset having wrapped around; otherwise the archive is not ready. *)
Theorem initfs_load_safe phys phys_addr size s :
  initfs_ok s -> cctkfs_ready s = 0 -> bytes phys -> is_u32 size -> size <= zlen phys ->
  exists s' rc, initfs_modblob_load phys phys_addr size s = Some (s', rc) /\
    initfs_ok s' /\ (rc = 0 <-> cctkfs_ready s' <> 0) /\ (rc = 0 -> cctkfs_size s' = size).
Proof.
  intros (Hz & Hb & _) Hr Hp Hu Hs. unfold initfs_modblob_load. pose proof Hu as [Hu1 Hu2].
  case_if; [exists s, (-1); repeat split; try done; lia|].
  case_if; b2p; [exists s, (-2); repeat split; try done; lia|].
  rewrite memcpy_ok by lia. ob. set (stage := splice 0 (slice 0 size phys) (cctkfs_stage s)).
  assert (Hsl : zlen (slice 0 size phys) = size) by (apply zlen_slice; lia).
  assert (Hz' : zlen stage = INITFS_MODBLOB_MAX_IMAGE)
    by (unfold stage; rewrite zlen_splice; lia).
  assert (Hb' : bytes stage) by (by apply bytes_splice; [apply bytes_slice|]).
  destruct (validate_header_total stage size Hb') as [rc Hv]; [lia|]. rewrite Hv. ob.
  destruct (rc =? 0) eqn:E; cbn [negb]; b2p.
  - eexists _, _. split; [done|]. cbn. split; [|repeat split; try done; lia].
    split; [done|]. split; [done|]. intros _.
    destruct (validate_header_inv stage size rc Hb') as (h & Hh & Hg); [lia|done|done|done|].
    cbn. eauto.
  - eexists _, _. split; [done|]. cbn. rewrite Hr. split; [|repeat split; try done; lia].
    split; [done|]. split; [done|]. done.
Qed.

(** ** Corrupted images *)

Lemma hdr_ptr_ext m1 m2 :
  (forall j, 0 <= j < 32 -> ld m1 j = ld m2 j) -> hdr_ptr m1 = hdr_ptr m2.
Proof.
  intros H. unfold hdr_ptr.
  rewrite !(ld32_ext m1 m2) by (intros; apply H; lia). done.
Qed.

(** Validation of an image with a checksum: the header checks, then the CRC. *)
Lemma validate_header_crc stage size h :
  bytes stage -> 32 <= size <= zlen stage -> hdr_ptr stage = Some h -> h_checksum h <> 0 ->
  validate_header stage size = Some 0 ->
  h_checksum h = crc32_ref (slice 0 size (blank_sum stage)).
Proof.
  intros Hb Hs Hh Hc. unfold validate_header, HDR_SIZE. rewrite (proj2 (Z.ltb_ge _ _)) by lia.
  rewrite Hh. ob. rewrite (proj2 (Z.eqb_neq (h_checksum h) 0)) by done. cbn [negb].
  rewrite image_crc_ok by (done || lia). ob.
  repeat (case_if; [done|]). intros _. b2p. done.
Qed.

Lemma slice_blank_split size i l stage :
  32 <= i -> i + zlen l <= size -> size <= zlen stage ->
  slice 0 size (blank_sum (splice i l stage)) =
  slice 0 i (blank_sum stage) ++ l ++ slice (i + zlen l) (size - (i + zlen l)) (blank_sum stage).
Proof.
  intros Hi Hl Hs. pose proof (zlen_nonneg l). unfold blank_sum, CCTKFS_CKSUM_OFF.
  set (z := [0; 0; 0; 0]). assert (Hz : zlen z = 4) by done. clearbody z.
  assert (H1 : zlen (splice i l stage) = zlen stage) by (apply zlen_splice; lia).
  assert (H2 : zlen (splice 28 z stage) = zlen stage) by (apply zlen_splice; lia).
  assert (H3 : zlen (splice 28 z (splice i l stage)) = zlen stage) by (rewrite zlen_splice; lia).
  assert (Hj : forall j, ld (splice 28 z (splice i l stage)) j
    = if (i <=? j) && (j <? i + zlen l) then ld l (j - i) else ld (splice 28 z stage) j).
  { intros j. destruct (decide (28 <= j < 32)).
    - rewrite (proj2 (Z.leb_gt i j)) by lia. cbn [andb]. rewrite !ld_splice_in by lia. done.
    - rewrite ld_splice_out by lia. case_if; b2p.
      + by rewrite ld_splice_in by lia.
      + rewrite (ld_splice_out 28) by lia. apply ld_splice_out; lia. }
  replace size with (i + (zlen l + (size - (i + zlen l)))) at 1 by lia.
  rewrite slice_app_split by lia. rewrite (slice_app_split (0 + i)) by lia.
  rewrite Z.add_0_l. f_equal; [|f_equal].
  - apply ld_ext; rewrite !zlen_slice by lia; [done|]. intros j Hr.
    rewrite !ld_slice by lia. rewrite Hj. by rewrite (proj2 (Z.leb_gt i _)) by lia.
  - apply ld_ext; rewrite zlen_slice by lia; [done|]. intros j Hr.
    rewrite ld_slice, Hj by lia. replace ((i <=? i + j) && (i + j <? i + zlen l)) with true by lia.
    f_equal. lia.
  - apply ld_ext; rewrite !zlen_slice by lia; [done|]. intros j Hr.
    rewrite !ld_slice by lia. rewrite Hj.
    by replace ((i <=? i + zlen l + j) && (i + zlen l + j <? i + zlen l)) with false by lia.
Qed.

(** Corruption is noticed.  Take an image that passes validation and
    carries a checksum, and damage any stretch of up to four consecutive bytes
    after the header (so any single byte, any 32-bit word).  Validation then
    fails with the checksum error -8: a damaged archive is never accepted. *)
Theorem initfs_corruption_detected stage size h i w :
  bytes stage -> HDR_SIZE <= size <= zlen stage -> hdr_ptr stage = Some h ->
  h_checksum h <> 0 -> validate_header stage size = Some 0 ->
  HDR_SIZE <= i -> bytes w -> 0 < zlen w <= 4 -> i + zlen w <= size ->
  w <> slice i (zlen w) stage ->
  validate_header (splice i w stage) size = Some (-8).
Proof.
  unfold HDR_SIZE. intros Hb Hs Hh Hc Hv Hi Hw Hw4 Hiw Hne.
  pose proof (validate_header_crc stage size h Hb Hs Hh Hc Hv) as Hsum.
  assert (Hz : zlen (splice i w stage) = zlen stage) by (apply zlen_splice; lia).
  assert (Hh' : hdr_ptr (splice i w stage) = Some h).
  { rewrite <- Hh. apply hdr_ptr_ext. intros j Hj. apply ld_splice_out; lia. }
  assert (Hb' : bytes (splice i w stage)) by (by apply bytes_splice).
  set (old := slice i (zlen w) stage) in *.
  assert (Hold : zlen old = zlen w) by (apply zlen_slice; lia).
  assert (Hst : splice i old stage = stage).
  { apply ld_ext; [apply zlen_splice; lia|]. intros j Hj.
    destruct (decide (i <= j < i + zlen old)).
    - rewrite ld_splice_in by lia. unfold old. rewrite ld_slice by lia. f_equal. lia.
    - apply ld_splice_out; lia. }
  assert (Hbl : bytes (blank_sum stage)).
  { apply bytes_splice; [|done]. repeat constructor; word_lia. }
  assert (Hdiff : h_checksum h <> crc32_ref (slice 0 size (blank_sum (splice i w stage)))).
  { rewrite Hsum. rewrite <- Hst at 1. rewrite !slice_blank_split by lia. rewrite Hold.
    apply crc32_burst; [by apply bytes_slice|by apply bytes_slice|done|by apply bytes_slice|
      unfold zlen in *; lia..|congruence]. }
  revert Hv. unfold validate_header, HDR_SIZE. rewrite (proj2 (Z.ltb_ge _ _)) by lia.
  rewrite Hh, Hh'. ob. rewrite (proj2 (Z.eqb_neq (h_checksum h) 0)) by done. cbn [negb].
  rewrite !image_crc_ok by (done || lia). ob.
  rewrite (proj2 (Z.eqb_neq (h_checksum h) (crc32_ref (slice 0 size (blank_sum (splice i w stage))))))
    by done.
  repeat (case_if; [done|]). done.
Qed.

(** ** Lookup *)

(** The part of a path after its last slash. *)
Fixpoint basename (l : list Z) : list Z :=
  match l with
  | [] => []
  | c :: l' => if decide (47 ∈ l') then basename l' else if c =? 47 then l' else c :: l'
  end.

Lemma basename_noslash l : 47 ∉ l -> basename l = l.
Proof.
  destruct l as [|c l]; [done|]. intros H. apply not_elem_of_cons in H as [Hc Hl].
  cbn [basename]. rewrite decide_False by done. by rewrite (proj2 (Z.eqb_neq _ _)).
Qed.

Lemma basename_snoc l c :
  basename (l ++ [c]) = if c =? 47 then [] else basename l ++ [c].
Proof.
  induction l as [|x l IH]; cbn [app basename].
  { rewrite decide_False by apply not_elem_of_nil. by case_if. }
  destruct (c =? 47) eqn:E; b2p.
  { rewrite decide_True by (subst; apply elem_of_app; right; by left). exact IH. }
  destruct (decide (47 ∈ l)) as [Hin|Hni].
  - rewrite decide_True by (apply elem_of_app; by left). exact IH.
  - rewrite decide_False; [by case_if|].
    rewrite elem_of_app, list_elem_of_singleton. intros [?|?]; [done|congruence].
Qed.

(** The offset of the basename in [l], kept up to date by the loops. *)
Definition bn_off (l : list Z) : Z := zlen l - zlen (basename l).

Lemma bn_off_snoc l c : bn_off (l ++ [c]) = if c =? 47 then zlen l + 1 else bn_off l.
Proof.
  unfold bn_off. rewrite basename_snoc, zlen_app, zlen_1.
  case_if; rewrite ?zlen_app, ?zlen_1, ?(zlen_nil (A:=Z)); lia.
Qed.

Lemma drop_bn_off l : drop (Z.to_nat (bn_off l)) l = basename l.
Proof.
  assert (H : exists pre, l = pre ++ basename l).
  { induction l as [|c l [pre IH]]; [by exists []|]. cbn [basename].
    destruct (decide (47 ∈ l)); [exists (c :: pre); cbn; congruence|].
    case_if; [by exists [c] | by exists []]. }
  destruct H as [pre H]. unfold bn_off. rewrite H at 1 3. rewrite zlen_app.
  replace (Z.to_nat (zlen pre + zlen (basename l) - zlen (basename l))) with (length pre)
    by (unfold zlen; lia).
  apply drop_app_length.
Qed.

Lemma name_eq_loop_ok (n : nat) want w blob off i :
  cstr want w -> 0 <= off -> 0 <= i <= zlen w -> off + i + Z.of_nat n <= zlen blob ->
  name_eq_loop n want blob off i
  = Some (if decide (slice (off + i) (Z.of_nat n) blob = drop (Z.to_nat i) w) then 1 else 0).
Proof.
  intros Hw Ho. revert i. induction n as [|n IH]; intros i Hi Hb; cbn [name_eq_loop].
  - rewrite slice_0. destruct (decide (i = zlen w)) as [->|].
    + rewrite (cstr_end _ _ Hw). ob. rewrite drop_ge by (unfold zlen; lia). by rewrite decide_True.
    + rewrite (cstr_ld _ _ _ Hw) by lia. destruct (ld_in w i) as [c Hc]; [lia|]. rewrite Hc. ob.
      pose proof (cstr_nz _ _ _ _ Hw Hc). rewrite (proj2 (Z.eqb_neq c 0)) by done.
      rewrite decide_False; [done|]. intros E. apply (f_equal length) in E.
      rewrite length_drop in E. unfold zlen in *. cbn in E. lia.
  - replace (Z.of_nat (S n)) with (1 + Z.of_nat n) by lia.
    rewrite slice_app_split by lia. destruct (ld_in blob (off + i)) as [b Hbl]; [lia|].
    rewrite (slice_1 (off + i) blob b) by (done || lia). cbn [app].
    destruct (decide (i = zlen w)) as [->|].
    + rewrite (cstr_end _ _ Hw). ob. rewrite Z.eqb_refl. rewrite drop_ge by (unfold zlen; lia).
      by rewrite decide_False.
    + rewrite (cstr_ld _ _ _ Hw) by lia. destruct (ld_in w i) as [c Hc]; [lia|]. rewrite Hc. ob.
      pose proof (cstr_nz _ _ _ _ Hw Hc). rewrite (proj2 (Z.eqb_neq c 0)) by done.
      rewrite Hbl. ob. rewrite IH by lia. rewrite ld_nonneg in Hc by lia.
      rewrite (drop_S _ _ _ Hc). replace (S (Z.to_nat i)) with (Z.to_nat (i + 1)) by lia.
      replace (off + (i + 1)) with (off + i + 1) by lia.
      destruct (c =? b) eqn:E; cbn [negb]; b2p; subst.
      * f_equal. apply decide_ext. split; [by intros ->|by intros [= ->]].
      * rewrite decide_False; [done|]. intros [= ? ?]. congruence.
Qed.

Lemma name_eq_ok want w blob off len :
  cstr want w -> 0 <= off -> 0 <= len -> off + len <= zlen blob ->
  name_eq want blob off len = Some (if decide (slice off len blob = w) then 1 else 0).
Proof.
  intros. unfold name_eq. rewrite (name_eq_loop_ok _ _ w) by (done || pose proof (zlen_nonneg w); lia).
  rewrite Z.add_0_r, Z2Nat.id by lia. done.
Qed.

Lemma blob_basename_loop_ok (n : nat) blob off i :
  0 <= off -> 0 <= i -> off + i + Z.of_nat n <= zlen blob ->
  blob_basename_loop n blob off i (off + bn_off (slice off i blob))
  = Some (off + bn_off (slice off (i + Z.of_nat n) blob)).
Proof.
  intros Ho. revert i. induction n as [|n IH]; intros i Hi Hb; cbn [blob_basename_loop].
  { by rewrite Z.add_0_r. }
  destruct (ld_in blob (off + i)) as [c Hc]; [lia|]. rewrite Hc. ob.
  replace (if c =? 47 then off + i + 1 else off + bn_off (slice off i blob))
    with (off + bn_off (slice off (i + 1) blob)).
  - rewrite IH by lia. do 4 f_equal. lia.
  - rewrite (slice_snoc off i blob c) by (done || lia). rewrite bn_off_snoc, zlen_slice by lia.
    case_if; lia.
Qed.

Lemma basename_eq_ok want w blob off len :
  cstr want w -> 0 <= off -> 0 <= len -> off + len <= zlen blob ->
  basename_eq want blob off len
  = Some (if decide (basename (slice off len blob) = w) then 1 else 0).
Proof.
  intros Hw Ho Hl Hb. unfold basename_eq.
  pose proof (blob_basename_loop_ok (Z.to_nat len) blob off 0) as H.
  rewrite slice_0 in H. change (bn_off []) with 0 in H. rewrite !Z.add_0_r, Z2Nat.id in H by lia.
  rewrite H, Z.add_0_l by lia. ob. set (l := slice off len blob).
  assert (Hz : zlen l = len) by (apply zlen_slice; lia).
  assert (Hr : 0 <= bn_off l <= len).
  { pose proof (f_equal length (drop_bn_off l)) as E. rewrite length_drop in E.
    unfold bn_off, zlen in *. lia. }
  rewrite (name_eq_ok want w) by (done || lia).
  replace (off + len - (off + bn_off l)) with (len - bn_off l) by lia.
  by rewrite <- drop_bn_off, <- (drop_slice off len) by lia.
Qed.

Lemma basename_loop_ok (fuel : nat) path w i :
  cstr path w -> 0 <= i <= zlen w -> zlen w - i < Z.of_nat fuel ->
  basename_loop fuel path i (bn_off (slice 0 i w)) = Some (bn_off w).
Proof.
  intros Hw. revert i. induction fuel as [|fuel IH]; intros i Hi Hf; [lia|].
  cbn [basename_loop]. destruct (decide (i = zlen w)) as [->|].
  { rewrite (cstr_end _ _ Hw). ob. rewrite slice_full. done. }
  rewrite (cstr_ld _ _ _ Hw) by lia. destruct (ld_in w i) as [c Hc]; [lia|]. rewrite Hc. ob.
  pose proof (cstr_nz _ _ _ _ Hw Hc). rewrite (proj2 (Z.eqb_neq c 0)) by done.
  rewrite <- (IH (i + 1)) by lia. f_equal.
  rewrite (slice_snoc 0 i w c) by (done || lia). rewrite bn_off_snoc, zlen_slice by lia.
  case_if; lia.
Qed.

Lemma cstr_drop path w n : cstr path w -> (n <= length w)%nat -> cstr (drop n path) (drop n w).
Proof.
  intros [[rest ->] Hnz] Hn. split; [|by apply Forall_drop].
  exists rest. by rewrite drop_app_le.
Qed.

(** The archive's directory as a list: name, data offset and data size of
    every entry whose name lies in the name blob, in order. *)
Definition mod_of (s : initfs) (h : cctkfs_hdr) (i : Z) : option (list Z * (Z * Z)) :=
  e ← entry_at (cctkfs_stage s) h i;
  if e_name_off e + e_name_len e <=? h_names_size h then
    Some (slice (h_names_off h + e_name_off e) (e_name_len e) (cctkfs_stage s),
          (e_data_off e, e_data_size e))
  else None.

Definition modules_from (s : initfs) (h : cctkfs_hdr) (i : Z) (n : nat) : list (list Z * (Z * Z)) :=
  omap (mod_of s h) (seqZ i (Z.of_nat n)).

Definition modules (s : initfs) (h : cctkfs_hdr) : list (list Z * (Z * Z)) :=
  modules_from s h 0 (Z.to_nat (h_count h)).

(** The first module whose name satisfies [P]. *)
Fixpoint first_match (P : list Z -> bool) (l : list (list Z * (Z * Z))) : option (Z * Z) :=
  match l with
  | [] => None
  | (nm, d) :: l => if P nm then Some d else first_match P l
  end.

(** A module's data, if it lies inside the image. *)
Definition data_of (size : Z) (d : Z * Z) : option (Z * Z) :=
  if d.1 + d.2 <=? size then Some d else None.

Lemma entry_at_in s h i :
  initfs_ok s -> good_hdr h (cctkfs_size s) -> cctkfs_size s <= INITFS_MODBLOB_MAX_IMAGE ->
  0 <= i < h_count h ->
  exists e, entry_at (cctkfs_stage s) h i = Some e /\ is_u32 (e_name_off e) /\
    is_u32 (e_name_len e) /\ is_u32 (e_data_off e) /\ is_u32 (e_data_size e).
Proof.
  intros (Hz & Hb & _) (? & ? & ? & ? & ?) Hsz Hi. unfold entry_at, ENTRY_SIZE, HDR_SIZE in *.
  destruct (ld32_in (cctkfs_stage s) (h_entries_off h + 24 * i) Hb) as (? & -> & ?); [lia..|]. ob.
  destruct (ld32_in (cctkfs_stage s) (h_entries_off h + 24 * i + 4) Hb) as (? & -> & ?); [lia..|]. ob.
  destruct (ld32_in (cctkfs_stage s) (h_entries_off h + 24 * i + 8) Hb) as (? & -> & ?); [lia..|]. ob.
  destruct (ld32_in (cctkfs_stage s) (h_entries_off h + 24 * i + 12) Hb) as (? & -> & ?); [lia..|]. ob.
  eexists. split; [done|]. by repeat (split; [done|]).
Qed.

(** The overflow-checked range test is the exact one. *)
Lemma range_test a b lim :
  is_u32 a -> is_u32 b -> is_u32 lim ->
  (u32 (a + b) <? a) || (lim <? u32 (a + b)) = negb (a + b <=? lim).
Proof. intros. word_lia. Qed.

Section lookup.
Context (s : initfs) (h : cctkfs_hdr).
Context (Hok : initfs_ok s) (Hh : hdr_ptr (cctkfs_stage s) = Some h).
Context (Hg : good_hdr h (cctkfs_size s)) (Hsz : cctkfs_size s <= INITFS_MODBLOB_MAX_IMAGE).

Lemma entry_loop_ok eq P (n : nat) i :
  (forall off len, 0 <= off -> 0 <= len -> off + len <= zlen (cctkfs_stage s) ->
     eq (cctkfs_stage s) off len = Some (if P (slice off len (cctkfs_stage s)) : bool then 1 else 0)) ->
  0 <= i -> i + Z.of_nat n <= h_count h ->
  entry_loop eq n s h i = Some (data_of (cctkfs_size s) <$> first_match P (modules_from s h i n)).
Proof using Hok Hg Hsz.
  intros Heq. revert i. induction n as [|n IH]; intros i Hi Hn; [done|].
  cbn [entry_loop]. destruct (entry_at_in s h i Hok Hg Hsz) as (e & He & H1 & H2 & H3 & H4); [lia|].
  rewrite He. ob. pose proof Hg as (? & ? & ? & ? & ?). unfold HDR_SIZE, ENTRY_SIZE in *.
  destruct Hok as (Hz & _). unfold INITFS_MODBLOB_MAX_IMAGE in *.
  assert (is_u32 (h_names_size h)) by (unfold is_u32; lia).
  assert (is_u32 (cctkfs_size s)) by (unfold is_u32; lia).
  assert (Hm : modules_from s h i (S n) =
    match mod_of s h i with Some m => m :: modules_from s h (i + 1) n | None => modules_from s h (i + 1) n end).
  { unfold modules_from. rewrite seqZ_cons by lia. cbn [omap list_omap].
    replace (Z.succ i) with (i + 1) by lia. replace (Z.pred (Z.of_nat (S n))) with (Z.of_nat n) by lia.
    done. }
  rewrite Hm. unfold mod_of at 1. rewrite He. ob. rewrite !range_test by done.
  destruct (e_name_off e + e_name_len e <=? h_names_size h) eqn:En; cbn [negb]; b2p.
  2: { apply IH; lia. }
  unfold is_u32 in *. rewrite Heq by lia. ob. cbn [first_match].
  destruct (P (slice _ _ _)).
  - cbn [Z.eqb]. unfold data_of. cbn [fmap option_fmap option_map fst snd]. by destruct (e_data_off e + e_data_size e <=? cctkfs_size s).
  - cbn [Z.eqb]. apply IH; lia.
Qed.

End lookup.

Lemma decide_if_bool (P : Prop) {dec : Decision P} {A} (x y : A) :
  (if decide P then x else y) = if bool_decide P then x else y.
Proof. by destruct dec. Qed.

(** Module lookup is exact.  On a loaded archive, for any path string,
    [initfs_modblob_get] returns without reading outside the buffers, and finds
    the first module whose name is the path, or failing that the first whose
    name has the same (non-empty) basename.  It returns 0 with the module's
    data range, which lies inside the image, or -1. *)
Theorem initfs_get_exact s h path w :
  initfs_ok s -> cctkfs_ready s <> 0 -> hdr_ptr (cctkfs_stage s) = Some h ->
  good_hdr h (cctkfs_size s) -> cstr path w ->
  let hit := match first_match (fun nm => bool_decide (nm = w)) (modules s h) with
             | Some d => Some d
             | None => if decide (basename w = []) then None
                       else first_match (fun nm => bool_decide (basename nm = basename w))
                                        (modules s h)
             end in
  initfs_modblob_get (Some path) true s =
    Some (match d ← hit; data_of (cctkfs_size s) d with
          | Some d => (0, Some d)
          | None => (-1, None)
          end).
Proof.
  intros Hok Hr Hh Hg Hw. pose proof Hok as (Hz & Hb & Hok3).
  assert (Hsz : cctkfs_size s <= INITFS_MODBLOB_MAX_IMAGE)
    by (destruct (Hok3 Hr) as (_ & _ & _ & ?); done).
  unfold initfs_modblob_get. rewrite (proj2 (Z.eqb_neq _ _)) by done. cbn [negb orb].
  rewrite Hh. ob. pose proof Hg as (Hc & _).
  assert (Hloop : forall eq P, (forall off len, 0 <= off -> 0 <= len ->
      off + len <= zlen (cctkfs_stage s) ->
      eq (cctkfs_stage s) off len = Some (if P (slice off len (cctkfs_stage s)) : bool then 1 else 0)) ->
    entry_loop eq (Z.to_nat (h_count h)) s h 0
    = Some (data_of (cctkfs_size s) <$> first_match P (modules s h))).
  { intros eq P HP. unfold modules. apply entry_loop_ok; try done; lia. }
  rewrite (Hloop _ (fun nm => bool_decide (nm = w))).
  2: { intros. rewrite (name_eq_ok _ w) by done. by rewrite decide_if_bool. }
  ob. destruct (first_match _ (modules s h)) as [d|]; cbn [fmap option_fmap option_map].
  { ob. by destruct (data_of _ d). }
  assert (Hbn : basename_of path = Some (bn_off w)).
  { unfold basename_of. change 0 with (bn_off (slice 0 0 w)) at 2.
    apply basename_loop_ok; [done|pose proof (zlen_nonneg w); lia|].
    destruct Hw as [[rest ->] _]. rewrite length_app. cbn [length]. unfold zlen. lia. }
  rewrite Hbn. ob.
  pose proof (f_equal length (drop_bn_off w)) as Hlen. rewrite length_drop in Hlen.
  assert (Hd : cstr (drop (Z.to_nat (bn_off w)) path) (basename w)).
  { rewrite <- drop_bn_off. apply cstr_drop; [done|]. unfold bn_off, zlen in *. lia. }
  destruct (decide (basename w = [])) as [E|E].
  { rewrite E in Hd. destruct (cstr_nil_inv _ Hd) as [r ->]. done. }
  destruct (basename w) as [|c b] eqn:Eb; [done|].
  destruct (cstr_cons_inv _ _ _ Hd) as (m' & Em & Hcz & _).
  replace (ld (drop (Z.to_nat (bn_off w)) path) 0) with (Some c) by (by rewrite Em). ob.
  rewrite (proj2 (Z.eqb_neq c 0)) by done.
  rewrite (Hloop _ (fun nm => bool_decide (basename nm = c :: b))).
  2: { intros. rewrite (basename_eq_ok _ (c :: b)) by done. by rewrite decide_if_bool. }
  ob. destruct (first_match _ (modules s h)) as [d|]; [|done]. cbn. by destruct (data_of _ d).
Qed.

(** ** Witnesses *)

(** An archive with one module, "/lib/a", of two bytes. *)
Definition demo_image : list Z :=
  [67; 75; 70; 83; 1; 0; 0; 0; 64; 0; 0; 0; 1; 0; 0; 0; 32; 0; 0; 0; 56; 0; 0; 0; 6; 0; 0; 0; 13; 162; 233; 94; 0; 0; 0; 0; 6; 0; 0; 0; 62; 0; 0; 0; 2; 0; 0; 0; 0; 0; 0; 0; 0; 0; 0; 0; 47; 108; 105; 98; 47; 97; 7; 8].

Definition demo_hdr : cctkfs_hdr := mk_hdr 1397115715 1 64 1 32 56 6 1592369677.

(** The state with the image staged, the rest of the buffer being [pad]. *)
Definition demo_initfs (pad : mem) : initfs := mk_initfs (demo_image ++ pad) 64 1.
Definition demo_pad : mem := replicate (Z.to_nat (INITFS_MODBLOB_MAX_IMAGE - 64)) 0.

Lemma demo_bytes : bytes demo_image.
Proof. unfold bytes. repeat constructor; word_lia. Qed.

Lemma demo_hdr_ok pad : hdr_ptr (cctkfs_stage (demo_initfs pad)) = Some demo_hdr.
Proof. vm_compute. reflexivity. Qed.

Lemma demo_modules pad :
  modules (demo_initfs pad) demo_hdr = [([47; 108; 105; 98; 47; 97], (62, 2))].
Proof. vm_compute. reflexivity. Qed.

Lemma demo_good : good_hdr demo_hdr 64.
Proof. unfold good_hdr, demo_hdr, HDR_SIZE, ENTRY_SIZE. cbn. lia. Qed.

Lemma demo_initfs_ok : initfs_ok (demo_initfs demo_pad).
Proof.
  split; [|split].
  - cbn [cctkfs_stage demo_initfs]. rewrite zlen_app. unfold demo_pad. rewrite zlen_replicate.
    change (zlen demo_image) with 64. unfold INITFS_MODBLOB_MAX_IMAGE. lia.
  - apply Forall_app_2; [exact demo_bytes|]. apply Forall_replicate. word_lia.
  - intros _. exists demo_hdr. split; [apply demo_hdr_ok|]. split; [exact demo_good|].
    unfold INITFS_MODBLOB_MAX_IMAGE. cbn. lia.
Qed.

Definition initfs_boot : initfs :=
  mk_initfs (replicate (Z.to_nat INITFS_MODBLOB_MAX_IMAGE) 0) 0 0.

Lemma initfs_load_safe_witness :
  exists s' rc, initfs_modblob_load demo_image 1048576 64 initfs_boot = Some (s', rc) /\
    initfs_ok s'.
Proof.
  destruct (initfs_load_safe demo_image 1048576 64 initfs_boot) as (s' & rc & He & Hok & _).
  - split; [|split].
    + cbn [cctkfs_stage initfs_boot]. rewrite zlen_replicate. unfold INITFS_MODBLOB_MAX_IMAGE. lia.
    + apply Forall_replicate. word_lia.
    + cbn. done.
  - reflexivity.
  - exact demo_bytes.
  - word_lia.
  - vm_compute. congruence.
  - exists s', rc. split; [exact He | exact Hok].
Defined.

Lemma initfs_corruption_detected_witness :
  validate_header (splice 62 [9] demo_image) 64 = Some (-8).
Proof.
  apply (initfs_corruption_detected demo_image 64 demo_hdr 62 [9]).
  - exact demo_bytes.
  - vm_compute. split; congruence.
  - vm_compute. reflexivity.
  - vm_compute. congruence.
  - vm_compute. reflexivity.
  - vm_compute. congruence.
  - repeat constructor; word_lia.
  - vm_compute. split; congruence.
  - vm_compute. congruence.
  - vm_compute. congruence.
Defined.

(** "/lib/mdls/a" is found through its basename. *)
Lemma initfs_get_exact_witness :
  initfs_modblob_get (Some [47; 108; 105; 98; 47; 109; 100; 108; 115; 47; 97; 0]) true
    (demo_initfs demo_pad) = Some (0, Some (62, 2)).
Proof.
  rewrite (initfs_get_exact (demo_initfs demo_pad) demo_hdr
             [47; 108; 105; 98; 47; 109; 100; 108; 115; 47; 97; 0]
             [47; 108; 105; 98; 47; 109; 100; 108; 115; 47; 97]).
  - rewrite demo_modules. cbn [cctkfs_size demo_initfs]. vm_compute. reflexivity.
  - exact demo_initfs_ok.
  - cbn. lia.
  - apply demo_hdr_ok.
  - exact demo_good.
  - split; [exists []; reflexivity|]. repeat constructor; lia.
Defined.
