(* ===== verification/Blkdev.v ===== *)
(** * blkdev.c: the block device table

    A static table of [BLKDEV_SLOTS] devices; a device pointer is its slot
    number.  The storage controllers are not part of the sources: they are the
    interface [DiskDriver], whose laws ([DiskDriverLaws]) say that a sector
    reads back as it was last written. *)

From S2P Require Import Prelude Klib Printf.
#[local] Open Scope Z_scope.

Definition BLKDEV_NAME_MAX : Z := 16.
Definition BLKDEV_MAX_DISKS : Z := 8.
Definition BLKDEV_PARTS_PER_DISK : Z := 16.
Definition BLKDEV_SLOTS : Z := BLKDEV_MAX_DISKS * (1 + BLKDEV_PARTS_PER_DISK).
Definition SECTOR : Z := 512.

(** [struct blkdev].  The callbacks are handles of the controller's
    interface, 0 being the null pointer. *)
Record blkdev_t := mk_blkdev {
  d_name : mem;
  d_id : Z;
  d_max_lba : Z;
  d_parent : option Z;
  d_start_lba : Z;
  d_part_no : Z;
  d_table : Z;
  d_ptype : Z;
  d_devfs_registered : Z;
  d_read_sector : Z;
  d_write_sector : Z
}.

Definition blkdev_zero : blkdev_t :=
  mk_blkdev (replicate 16 0) 0 0 None 0 0 0 0 0 0 0.

(** What a storage controller does: the 512 bytes its read callback [h]
    stores for a sector, and the effect of its write callback. *)
Class DiskDriver (D : Type) := {
  sec_read : D -> Z -> Z -> mem;
  sec_write : D -> Z -> Z -> mem -> D
}.

(** A controller registers a read and a write handle for the same medium:
    [same_medium r w].  Sectors are 512 bytes; a sector reads back as written,
    other sectors and other media keep their contents. *)
Class DiskDriverLaws (D : Type) {DD : DiskDriver D} (same_medium : Z -> Z -> Prop) := {
  sec_read_bytes : forall d h l, zlen (sec_read d h l) = SECTOR /\ bytes (sec_read d h l);
  sec_read_write : forall d r w l b,
    same_medium r w -> zlen b = SECTOR -> bytes b -> sec_read (sec_write d w l b) r l = b;
  sec_read_other : forall d r w l l' b,
    l <> l' -> sec_read (sec_write d w l b) r l' = sec_read d r l';
  sec_read_medium : forall d r w l l' b,
    ~ same_medium r w -> sec_read (sec_write d w l b) r l' = sec_read d r l'
}.

Section Blkdev.
Context {D : Type} `{DD : DiskDriver D}.

Record blk := mk_blk {
  devices : list blkdev_t;
  dev_used : list Z;
  dev_count : Z;
  boot_dev : option Z;
  medium : D
}.

Definition set_slot (i : Z) (d : blkdev_t) (u cnt : Z) (s : blk) : option blk :=
  ds ← st (devices s) i d; us ← st (dev_used s) i u;
  Some (mk_blk ds us cnt (boot_dev s) (medium s)).

Definition set_boot (b : option Z) (s : blk) : blk :=
  mk_blk (devices s) (dev_used s) (dev_count s) b (medium s).

Definition set_medium (m : D) (s : blk) : blk :=
  mk_blk (devices s) (dev_used s) (dev_count s) (boot_dev s) m.

Definition slots : nat := Z.to_nat BLKDEV_SLOTS.

Definition alloc_slot (s : blk) : option (option Z) :=
  scan (fun i => u ← ld (dev_used s) i; Some (if u =? 0 then Some i else None)) slots 0.

Definition blkdev_is_disk (d : blkdev_t) : bool := bool_decide (d_parent d = None).

Definition blkdev_pick_boot (s : blk) : option blk :=
  b ← scan (fun i => u ← ld (dev_used s) i; d ← ld (devices s) i;
                     Some (if negb (u =? 0) && blkdev_is_disk d then Some i else None)) slots 0;
  Some (set_boot b s).

Definition blkdev_find (name : mem) (s : blk) : option (option Z) :=
  scan (fun i => u ← ld (dev_used s) i;
                 if u =? 0 then Some None
                 else d ← ld (devices s) i; r ← strcmp (d_name d) name;
                      Some (if r =? 0 then Some i else None)) slots 0.

Definition blkdev_by_id (id : Z) (s : blk) : option (option Z) :=
  if BLKDEV_SLOTS <=? id then Some None
  else u ← ld (dev_used s) id; Some (if u =? 0 then None else Some id).

Definition blkdev_count (s : blk) : Z := dev_count s.

Definition blkdev_disk_count (s : blk) : option Z :=
  count_loop (fun i => u ← ld (dev_used s) i; d ← ld (devices s) i;
                       Some (negb (u =? 0) && blkdev_is_disk d)) slots 0 0.

Definition blkdev_get_boot (s : blk) : option Z := boot_dev s.

Definition blkdev_init (s : blk) : blk :=
  mk_blk (replicate slots blkdev_zero) (replicate slots 0) 0 None (medium s).

(** [d->name] after [strncpy(d->name, name, BLKDEV_NAME_MAX - 1)] and the
    store of the last terminator. *)
Definition slot_name (name : mem) : option mem :=
  nm ← strncpy (replicate 16 0) name (BLKDEV_NAME_MAX - 1); st nm (BLKDEV_NAME_MAX - 1) 0.

(** [register_blkdev].  [probe] is the installed [probe_hook]. *)
Definition register_blkdev (probe : option (Z -> blk -> option blk))
    (name : option mem) (max_lba rd wr : Z) (s : blk) : option (blk * Z) :=
  match name with
  | None => Some (s, -1)
  | Some name =>
      c ← ld name 0;
      if (c =? 0) || (rd =? 0) || (wr =? 0) then Some (s, -1)
      else
        f ← blkdev_find name s;
        match f with
        | Some _ => Some (s, -3)
        | None =>
            a ← alloc_slot s;
            match a with
            | None => Some (s, -2)
            | Some idx =>
                nm ← slot_name name;
                s1 ← set_slot idx (mk_blkdev nm (u32 idx) max_lba None 0 0 0 0 0 rd wr) 1
                              (i32 (dev_count s + 1)) s;
                let s2 := match boot_dev s1 with None => set_boot (Some idx) s1 | Some _ => s1 end in
                s3 ← match probe with Some hook => hook idx s2 | None => Some s2 end;
                Some (s3, 0)
            end
        end
  end.

Fixpoint clear_loop (disk : Z) (n : nat) (i cnt : Z) (s : blk) : option (blk * Z) :=
  match n with
  | O => Some (s, cnt)
  | S n =>
      u ← ld (dev_used s) i;
      if u =? 0 then clear_loop disk n (i + 1) cnt s
      else
        d ← ld (devices s) i;
        if negb (bool_decide (d_parent d = Some disk)) then clear_loop disk n (i + 1) cnt s
        else
          s' ← set_slot i blkdev_zero 0 (i32 (dev_count s - 1)) s;
          clear_loop disk n (i + 1) (cnt + 1) s'
  end.

Definition blkdev_clear_partitions (disk : option Z) (s : blk) : option (blk * Z) :=
  match disk with None => Some (s, 0) | Some disk => clear_loop disk slots 0 0 s end.

Definition unregister_blkdev (name : option mem) (s : blk) : option blk :=
  match name with
  | None => Some s
  | Some name =>
      f ← blkdev_find name s;
      match f with
      | None => Some s
      | Some i =>
          d ← ld (devices s) i;
          if negb (blkdev_is_disk d) then Some s
          else
            '(s1, _) ← blkdev_clear_partitions (Some i) s;
            s2 ← set_slot (d_id d) blkdev_zero 0 (i32 (dev_count s1 - 1)) s1;
            blkdev_pick_boot s2
      end
  end.

(** ** Sector I/O *)

Definition blkdev_lba_oob (lba max_lba : Z) : bool := negb (lba <? max_lba).

(** [blkdev_read] and [blkdev_write] recur on the parent; a partition's parent
    is a disk, so two levels are enough. *)
Fixpoint blkdev_read_at (fuel : nat) (dev : Z) (lba : Z) (buf : mem) (s : blk)
  : option (mem * Z) :=
  match fuel with
  | O => None
  | S fuel =>
      d ← ld (devices s) dev;
      if blkdev_lba_oob lba (d_max_lba d) then Some (buf, -1)
      else
        match d_parent d with
        | None =>
            if d_read_sector d =? 0 then Some (buf, -1)
            else buf' ← memcpy buf 0 (sec_read (medium s) (d_read_sector d) lba) 0 SECTOR;
                 Some (buf', 0)
        | Some parent =>
            let plba := d_start_lba d + lba in
            if 4294967295 <? plba then Some (buf, -1)
            else blkdev_read_at fuel parent (u32 plba) buf s
        end
  end.

(** A null device is [None]; [buf] is the caller's sector buffer. *)
Definition blkdev_read (dev : option Z) (lba : Z) (buf : mem) (s : blk) : option (mem * Z) :=
  match dev with None => Some (buf, -1) | Some dev => blkdev_read_at 2 dev lba buf s end.

Fixpoint blkdev_write_at (fuel : nat) (dev : Z) (lba : Z) (buf : mem) (s : blk)
  : option (blk * Z) :=
  match fuel with
  | O => None
  | S fuel =>
      d ← ld (devices s) dev;
      if blkdev_lba_oob lba (d_max_lba d) then Some (s, -1)
      else
        match d_parent d with
        | None =>
            if d_write_sector d =? 0 then Some (s, -1)
            else if SECTOR <=? zlen buf then
              Some (set_medium (sec_write (medium s) (d_write_sector d) lba (slice 0 SECTOR buf)) s, 0)
            else None
        | Some parent =>
            let plba := d_start_lba d + lba in
            if 4294967295 <? plba then Some (s, -1)
            else blkdev_write_at fuel parent (u32 plba) buf s
        end
  end.

Definition blkdev_write (dev : option Z) (lba : Z) (buf : mem) (s : blk) : option (blk * Z) :=
  match dev with None => Some (s, -1) | Some dev => blkdev_write_at 2 dev lba buf s end.

Definition blkdev_read_sector (lba : Z) (buf : mem) (s : blk) : option mem :=
  match boot_dev s with
  | None => memset buf 0 0 SECTOR
  | Some dev =>
      '(buf', r) ← blkdev_read (Some dev) lba buf s;
      if negb (r =? 0) then memset buf' 0 0 SECTOR else Some buf'
  end.

Definition blkdev_write_sector (lba : Z) (buf : mem) (s : blk) : option blk :=
  match boot_dev s with
  | None => Some s
  | Some dev => '(s', _) ← blkdev_write (Some dev) lba buf s; Some s'
  end.

(** ** Partitions *)

(** [while (disk->name[l] && l < BLKDEV_NAME_MAX) l++] *)
Fixpoint name_len (n : nat) (nm : mem) (l : Z) : option Z :=
  match n with
  | O => c ← ld nm l; Some l
  | S n => c ← ld nm l; if c =? 0 then Some l else name_len n nm (l + 1)
  end.

(** [for (i = 0; i < l && o < cap - 1; i++) out[o++] = src[i]], and the same
    with [src[i]] as the loop condition. *)
Fixpoint put_chars (src : list Z) (o cap : Z) (out : mem) : option (mem * Z) :=
  match src with
  | [] => Some (out, o)
  | c :: src =>
      if o <? cap - 1 then out' ← st out o c; put_chars src (o + 1) cap out' else Some (out, o)
  end.

Definition blkdev_partition_name (disk : blkdev_t) (part_no : Z) (out : mem) (cap : Z)
  : option mem :=
  if cap <=? 0 then Some out else
  l ← name_len (Z.to_nat BLKDEV_NAME_MAX) (d_name disk) 0;
  dig ← (if 0 <? l then c ← ld (d_name disk) (l - 1); Some ((48 <=? schar c) && (schar c <=? 57))
         else Some false);
  '(num, _) ← snprintf (replicate 12 0) 12 fmt_u [VInt part_no];
  nlen ← strlen num;
  '(out, o) ← put_chars (slice 0 l (d_name disk)) 0 cap out;
  '(out, o) ← (if dig : bool then out' ← st out o 112; Some (out', o + 1) else Some (out, o)
               : option (mem * Z));
  '(out, o) ← put_chars (slice 0 nlen num) o cap out;
  st out o 0.

Definition blkdev_part_count (disk : option Z) (s : blk) : option Z :=
  match disk with
  | None => Some 0
  | Some disk =>
      count_loop (fun i => u ← ld (dev_used s) i; d ← ld (devices s) i;
                           Some (negb (u =? 0) && bool_decide (d_parent d = Some disk))) slots 0 0
  end.

(** [blkdev_part_at]: the loop counter [n] is threaded through the scan. *)
Fixpoint part_at_loop (disk : Z) (n : nat) (i seen idx : Z) (s : blk) : option (option Z) :=
  match n with
  | O => Some None
  | S n =>
      u ← ld (dev_used s) i; d ← ld (devices s) i;
      if (u =? 0) || negb (bool_decide (d_parent d = Some disk))
      then part_at_loop disk n (i + 1) seen idx s
      else if seen =? idx then Some (Some i)
      else part_at_loop disk n (i + 1) (seen + 1) idx s
  end.

Definition blkdev_part_at (disk : option Z) (idx : Z) (s : blk) : option (option Z) :=
  match disk with
  | None => Some None
  | Some disk => if idx <? 0 then Some None else part_at_loop disk slots 0 0 idx s
  end.

Definition blkdev_add_partition (disk : option Z) (part_no start_lba len_lba ptype table : Z)
    (s : blk) : option (blk * option Z) :=
  match disk with
  | None => Some (s, None)
  | Some disk =>
      d ← ld (devices s) disk;
      if negb (blkdev_is_disk d) || (part_no =? 0) || (len_lba =? 0) then Some (s, None)
      else
        n ← blkdev_part_count (Some disk) s;
        if BLKDEV_PARTS_PER_DISK <=? n then Some (s, None)
        else if (d_max_lba d <=? start_lba) || (u32 (d_max_lba d - start_lba) <? len_lba)
        then Some (s, None)
        else
          name ← blkdev_partition_name d part_no (replicate 16 0) BLKDEV_NAME_MAX;
          f ← blkdev_find name s;
          match f with
          | Some _ => Some (s, None)
          | None =>
              a ← alloc_slot s;
              match a with
              | None => Some (s, None)
              | Some idx =>
                  nm ← slot_name name;
                  s' ← set_slot idx
                         (mk_blkdev nm (u32 idx) len_lba (Some disk) start_lba part_no
                                    table ptype 0 0 0) 1 (i32 (dev_count s + 1)) s;
                  Some (s', Some idx)
              end
          end
  end.
End Blkdev.
Arguments blk D : clear implicits.

(** ** The table's invariant *)

(** A device name: a string of at most 14 bytes in the 16-byte field. *)
Definition name_ok (nm : mem) : Prop :=
  zlen nm = 16 /\ exists t, cstr nm t /\ zlen t <= 14 /\ bytes t.

Fixpoint nz_count (l : list Z) : Z :=
  match l with [] => 0 | u :: l => (if u =? 0 then 0 else 1) + nz_count l end.

Lemma nz_count_insert l (k : nat) u v :
  l !! k = Some u ->
  nz_count (<[k := v]> l) = nz_count l - (if u =? 0 then 0 else 1) + (if v =? 0 then 0 else 1).
Proof.
  revert k. induction l as [|x l IH]; intros [|k] H; try done.
  - injection H as ->. cbn. lia.
  - change (<[S k:=v]> (x :: l)) with (x :: <[k:=v]> l). cbn [nz_count]. rewrite (IH k) by done. lia.
Qed.

Lemma nz_count_range l : 0 <= nz_count l <= zlen l.
Proof.
  induction l as [|x l IH]; [done|]. cbn [nz_count]. rewrite zlen_cons. case_if; lia.
Qed.

Section Inv.
Context {D : Type} `{DD : DiskDriver D}.
Implicit Types s : blk D.

Definition used s (i : Z) : Prop := exists u, ld (dev_used s) i = Some u /\ u <> 0.

(** Device [d] in slot [i]: its id is the slot, a disk has its callbacks, a
    partition lies inside a registered disk. *)
Definition dev_ok s (i : Z) (d : blkdev_t) : Prop :=
  d_id d = i /\ name_ok (d_name d) /\ is_u32 (d_max_lba d) /\
  match d_parent d with
  | None => d_read_sector d <> 0 /\ d_write_sector d <> 0
  | Some p => used s p /\ exists dp, ld (devices s) p = Some dp /\ d_parent dp = None /\
      0 < d_max_lba d /\ 0 <= d_start_lba d /\ d_start_lba d + d_max_lba d <= d_max_lba dp
  end.

Definition tab_inv s : Prop :=
  zlen (devices s) = BLKDEV_SLOTS /\ zlen (dev_used s) = BLKDEV_SLOTS /\
  dev_count s = nz_count (dev_used s) /\
  (forall i d, used s i -> ld (devices s) i = Some d -> dev_ok s i d).

(** The boot device is a registered disk, and there is one when any disk is. *)
Definition boot_inv s : Prop :=
  match boot_dev s with
  | Some b => used s b /\ exists d, ld (devices s) b = Some d /\ d_parent d = None
  | None => forall i d, used s i -> ld (devices s) i = Some d -> d_parent d <> None
  end.

Definition blk_inv s : Prop := tab_inv s /\ boot_inv s.

Lemma used_dec s i : used s i \/ ~ used s i.
Proof.
  unfold used. destruct (ld (dev_used s) i) as [u|]; [|right; intros (?&?&?); done].
  destruct (decide (u = 0)); [right; intros (?&[=]&?); congruence | left; eauto].
Qed.

Lemma used_range s i : tab_inv s -> used s i -> 0 <= i < BLKDEV_SLOTS.
Proof. intros (_ & <- & _) (u & Hu & _). by apply ld_Some_lt in Hu. Qed.

Lemma used_dev s i : tab_inv s -> used s i -> exists d, ld (devices s) i = Some d /\ dev_ok s i d.
Proof.
  intros Ht Hu. pose proof (used_range s i Ht Hu) as Hr. destruct Ht as (Hl & _ & _ & Hd).
  destruct (ld_in (devices s) i) as [d Hi]; [lia|]. eauto.
Qed.

(** Writing a slot. *)
Lemma set_slot_ok i d u cnt s :
  tab_inv s -> 0 <= i < BLKDEV_SLOTS ->
  exists s', set_slot i d u cnt s = Some s' /\ dev_count s' = cnt /\
    boot_dev s' = boot_dev s /\ medium s' = medium s /\
    zlen (devices s') = BLKDEV_SLOTS /\ zlen (dev_used s') = BLKDEV_SLOTS /\
    ld (devices s') i = Some d /\ ld (dev_used s') i = Some u /\
    (forall j, j <> i -> ld (devices s') j = ld (devices s) j /\
                         ld (dev_used s') j = ld (dev_used s) j) /\
    (forall u0, ld (dev_used s) i = Some u0 ->
       nz_count (dev_used s') = nz_count (dev_used s)
         - (if u0 =? 0 then 0 else 1) + (if u =? 0 then 0 else 1)).
Proof.
  intros (Hl & Hu & _) Hi. unfold set_slot.
  destruct (st (devices s) i d) as [ds|] eqn:E1; [|rewrite st_in in E1 by lia; done].
  destruct (st (dev_used s) i u) as [us|] eqn:E2; [|rewrite st_in in E2 by lia; done].
  ob. eexists. split; [done|]. cbn.
  rewrite (zlen_st _ _ _ _ E1), (zlen_st _ _ _ _ E2).
  rewrite (ld_st_eq _ _ _ _ E1), (ld_st_eq _ _ _ _ E2).
  repeat (split; [done|]). split.
  - intros j Hj. by rewrite (ld_st_ne _ _ _ _ _ E1), (ld_st_ne _ _ _ _ _ E2) by done.
  - intros u0 H0. apply st_inv in E2 as [_ ->]. apply nz_count_insert.
    by rewrite ld_nonneg in H0 by lia.
Qed.

Lemma count_range s : tab_inv s -> 0 <= dev_count s <= BLKDEV_SLOTS.
Proof.
  intros (_ & Hu & -> & _). pose proof (nz_count_range (dev_used s)). lia.
Qed.

(** Filling a free slot with a well-formed device. *)
Lemma insert_ok i d s :
  tab_inv s -> ld (dev_used s) i = Some 0 -> dev_ok s i d ->
  exists s', set_slot i d 1 (i32 (dev_count s + 1)) s = Some s' /\ tab_inv s' /\
    boot_dev s' = boot_dev s /\ medium s' = medium s /\ ld (devices s') i = Some d /\ used s' i /\
    (forall j, j <> i -> ld (devices s') j = ld (devices s) j /\ (used s' j <-> used s j)).
Proof.
  intros Ht H0 Hd. pose proof (count_range s Ht) as Hcr. pose proof Ht as (Hl & Hu & Hc & Hdev).
  assert (Hi : 0 <= i < BLKDEV_SLOTS) by (rewrite <- Hu; by apply ld_Some_lt in H0).
  destruct (set_slot_ok i d 1 (i32 (dev_count s + 1)) s Ht Hi)
    as (s' & Hs & Hc' & Hb & Hm & Hl' & Hu' & Hdi & Hui & Hother & Hnz).
  exists s'. split; [done|].
  assert (Husr : forall j, j <> i -> used s' j <-> used s j).
  { intros j Hj. unfold used. by rewrite (proj2 (Hother j Hj)). }
  assert (Hmono : forall j, used s j -> used s' j /\ ld (devices s') j = ld (devices s) j).
  { intros j Hj. assert (j <> i) by (intros ->; destruct Hj as (u & ? & ?); congruence).
    split; [by apply Husr|]. by apply Hother. }
  assert (Hok : forall j e, dev_ok s j e -> dev_ok s' j e).
  { intros j e (? & ? & ? & He). repeat (split; [done|]). destruct (d_parent e) as [p|]; [|done].
    destruct He as (Hp & dp & Hdp & ?). split; [by apply Hmono|]. exists dp.
    by rewrite (proj2 (Hmono p Hp)). }
  split.
  { split; [done|]. split; [done|]. split.
    - rewrite Hc', (Hnz 0 H0), Hc. cbn [Z.eqb]. change BLKDEV_SLOTS with 136 in *.
      rewrite i32_small by (unfold is_i32; lia). lia.
    - intros j e Hj He. destruct (decide (j = i)) as [->|Hne].
      + rewrite Hdi in He. injection He as <-. by apply Hok.
      + apply Hok, Hdev; [by apply Husr | by rewrite <- (proj1 (Hother j Hne))]. }
  split; [done|]. split; [done|]. split; [done|]. split; [by exists 1|].
  intros j Hj. split; [by apply Hother | by apply Husr].
Qed.

(** Clearing a slot no device has as parent. *)
Lemma remove_ok i s :
  tab_inv s -> used s i ->
  (forall j d, used s j -> ld (devices s) j = Some d -> d_parent d <> Some i) ->
  exists s', set_slot i blkdev_zero 0 (i32 (dev_count s - 1)) s = Some s' /\ tab_inv s' /\
    boot_dev s' = boot_dev s /\ medium s' = medium s /\ ~ used s' i /\
    (forall j, j <> i -> ld (devices s') j = ld (devices s) j /\ (used s' j <-> used s j)).
Proof.
  intros Ht Hi Hleaf. pose proof (count_range s Ht) as Hcr. pose proof Ht as (Hl & Hu & Hc & Hdev).
  pose proof (used_range s i Ht Hi) as Hir. destruct Hi as (u0 & Hu0 & Hn0).
  destruct (set_slot_ok i blkdev_zero 0 (i32 (dev_count s - 1)) s Ht Hir)
    as (s' & Hs & Hc' & Hb & Hm & Hl' & Hu' & Hdi & Hui & Hother & Hnz).
  exists s'. split; [done|].
  assert (Husr : forall j, j <> i -> used s' j <-> used s j).
  { intros j Hj. unfold used. by rewrite (proj2 (Hother j Hj)). }
  assert (Hni : ~ used s' i) by (intros (u & ? & ?); congruence).
  split; [|repeat (split; [done|]); intros j Hj; split; [by apply Hother | by apply Husr]].
  split; [done|]. split; [done|]. split.
  - rewrite Hc', (Hnz u0 Hu0), Hc. rewrite (proj2 (Z.eqb_neq u0 0)) by done. cbn [Z.eqb].
    change BLKDEV_SLOTS with 136 in *. rewrite i32_small by (unfold is_i32; lia). lia.
  - intros j e Hj He. destruct (decide (j = i)) as [->|Hne]; [done|].
    apply Husr in Hj; [|done]. rewrite (proj1 (Hother j Hne)) in He.
    pose proof (Hleaf j e Hj He) as Hpar. destruct (Hdev j e Hj He) as (? & ? & ? & Hp).
    repeat (split; [done|]). destruct (d_parent e) as [p|] eqn:Ep; [|done].
    destruct Hp as (Hpu & dp & Hdp & ?). assert (p <> i) by congruence.
    split; [by apply Husr|]. exists dp. by rewrite (proj1 (Hother p ltac:(done))).
Qed.
End Inv.

(** ** Names *)

Lemma put_chars_ok src o cap out :
  0 <= o < cap -> cap <= zlen out ->
  put_chars src o cap out =
    let n := Z.min (zlen src) (cap - 1 - o) in
    Some (splice o (take (Z.to_nat n) src) out, o + n).
Proof.
  revert o out. induction src as [|c src IH]; intros o out Ho Hc; cbv zeta.
  { cbn [put_chars]. rewrite (zlen_nil (A:=Z)), Z.min_l, take_nil, splice_nil by lia.
    by rewrite Z.add_0_r. }
  cbn [put_chars]. rewrite zlen_cons. pose proof (zlen_nonneg src). case_if; b2p.
  - rewrite st_in by lia. ob. rewrite IH by (rewrite ?zlen_insert; lia). cbv zeta.
    set (n := Z.min (zlen src) (cap - 1 - (o + 1))).
    replace (Z.min (1 + zlen src) (cap - 1 - o)) with (n + 1) by lia.
    replace (Z.to_nat (n + 1)) with (S (Z.to_nat n)) by lia. cbn [take].
    rewrite splice_cons; [|lia|unfold zlen in *; rewrite length_take; lia].
    do 2 f_equal; lia.
  - rewrite Z.min_r by lia. replace (cap - 1 - o) with 0 by lia.
    change (Z.to_nat 0) with 0%nat. by rewrite take_0, splice_nil, Z.add_0_r.
Qed.

(** Two bounded copies are one bounded copy of both texts. *)
Lemma put_chars_app a b out cap :
  0 < cap <= zlen out ->
  ('(out1, o) ← put_chars a 0 cap out; put_chars b o cap out1) = put_chars (a ++ b) 0 cap out.
Proof.
  intros Hc. pose proof (zlen_nonneg a). pose proof (zlen_nonneg b).
  rewrite (put_chars_ok a) by lia. cbv zeta. ob. rewrite Z.sub_0_r, Z.add_0_l.
  set (n := Z.min (zlen a) (cap - 1)).
  assert (Hz : zlen (take (Z.to_nat n) a) = n) by (unfold zlen in *; rewrite length_take; lia).
  rewrite put_chars_ok by (rewrite ?zlen_splice; lia). cbv zeta.
  rewrite put_chars_ok by lia. cbv zeta. rewrite zlen_app, Z.sub_0_r, Z.add_0_l.
  set (k := Z.min (zlen b) (cap - 1 - n)).
  replace (Z.min (zlen a + zlen b) (cap - 1)) with (n + k) by lia.
  assert (Hzk : zlen (take (Z.to_nat k) b) = k) by (unfold zlen in *; rewrite length_take; lia).
  do 2 f_equal. rewrite <- Hz at 1. rewrite <- (Z.add_0_l (zlen (take _ a))).
  rewrite splice_app by lia. f_equal.
  destruct (decide (n = zlen a)) as [E|].
  - rewrite (take_ge a) by (unfold zlen in *; lia).
    rewrite take_app_ge by (unfold zlen in *; lia). f_equal. f_equal. unfold zlen in *. lia.
  - replace k with 0 by lia. change (Z.to_nat 0) with 0%nat. rewrite take_0, app_nil_r, Z.add_0_r.
    by rewrite take_app_le by (unfold zlen in *; lia).
Qed.

Lemma name_len_ok (n : nat) nm t l :
  cstr nm t -> 0 <= l <= zlen t -> zlen t - l <= Z.of_nat n -> name_len n nm l = Some (zlen t).
Proof.
  intros Ht. revert l. induction n as [|n IH]; intros l Hl Hn; cbn [name_len].
  { replace l with (zlen t) by lia. by rewrite (cstr_end _ _ Ht). }
  destruct (decide (l = zlen t)) as [->|].
  { by rewrite (cstr_end _ _ Ht). }
  rewrite (cstr_ld _ _ _ Ht) by lia. destruct (ld_in t l) as [c Hc]; [lia|]. rewrite Hc. ob.
  pose proof (cstr_nz _ _ _ _ Ht Hc). rewrite (proj2 (Z.eqb_neq c 0)) by done. apply IH; lia.
Qed.

(** The conventional name of a partition: the disk's name, a 'p' if that ends
    in a digit, and the number. *)
Definition ends_digit (t : list Z) : bool :=
  match ld t (zlen t - 1) with Some c => (48 <=? c) && (c <=? 57) | None => false end.

Definition part_label (t : list Z) (n : Z) : list Z :=
  t ++ (if ends_digit t then [112] else []) ++ decimal n.

Lemma decimal_bytes n : bytes (decimal n).
Proof.
  unfold decimal, bytes. apply Forall_app_2.
  - case_if; repeat constructor; word_lia.
  - apply Forall_rev. eapply Forall_impl; [|apply le_digits_range]. unfold is_u8. cbn. lia.
Qed.

Lemma part_label_nz t n : Forall (fun c => c <> 0) t -> Forall (fun c => c <> 0) (part_label t n).
Proof.
  intros. unfold part_label. apply Forall_app_2; [done|]. apply Forall_app_2; [|apply decimal_nz].
  case_if; by repeat constructor.
Qed.

Lemma part_label_bytes t n : bytes t -> bytes (part_label t n).
Proof.
  intros. unfold part_label, bytes. apply Forall_app_2; [done|].
  apply Forall_app_2; [|apply decimal_bytes]. case_if; repeat constructor; word_lia.
Qed.

Lemma cstr_slice nm t : cstr nm t -> slice 0 (zlen t) nm = t.
Proof.
  intros [[rest ->] _]. unfold slice, zlen. rewrite Nat2Z.id. cbn [drop]. rewrite drop_0.
  apply take_app_length.
Qed.

Lemma partition_name_ok d t n :
  cstr (d_name d) t -> zlen t <= 14 -> bytes t -> is_u32 n ->
  blkdev_partition_name d n (replicate 16 0) BLKDEV_NAME_MAX =
    Some (splice 0 (take 15 (part_label t n) ++ [0]) (replicate 16 0)).
Proof.
  intros Ht Hl Hb Hn. pose proof (zlen_nonneg t) as Ht0. unfold blkdev_partition_name, BLKDEV_NAME_MAX.
  change (16 <=? 0) with false. cbv iota.
  rewrite (name_len_ok _ _ t) by (done || lia). ob.
  assert (Hdig : (if 0 <? zlen t then c ← ld (d_name d) (zlen t - 1);
                    Some ((48 <=? schar c) && (schar c <=? 57)) else Some false)
                 = Some (ends_digit t)).
  { unfold ends_digit. case_if; b2p.
    - rewrite (cstr_ld _ _ _ Ht) by lia. destruct (ld_in t (zlen t - 1)) as [c Hc]; [lia|].
      rewrite Hc. ob. f_equal. pose proof (bytes_ld _ _ _ Hb Hc) as Hc8.
      assert (schar c = if c <? 128 then c else c - 256) as -> by (case_if; b2p; word_lia).
      unfold is_u8 in Hc8. case_if; lia.
    - by rewrite ld_out by lia. }
  rewrite Hdig. ob.
  assert (Hdl : zlen (decimal n) <= 11).
  { unfold decimal. rewrite zlen_app. unfold zlen. rewrite length_rev.
    pose proof (le_digits_len 10 (Z.abs n)). case_if; cbn [length]; lia. }
  pose proof (zlen_nonneg (decimal n)) as Hd0.
  rewrite (snprintf_ok _ 12 fmt_u [VInt n] (decimal n)) by
    (by apply render_u || word_lia || (rewrite zlen_replicate; lia)).
  cbv zeta. rewrite Z.min_l, (take_ge (decimal n)) by (unfold zlen in *; lia). ob.
  rewrite splice_0, <- app_assoc. cbn [app]. set (num := decimal n ++ 0 :: _).
  assert (Hnum : cstr num (decimal n)) by (split; [unfold num; eauto | apply decimal_nz]).
  rewrite (strlen_ok _ _ Hnum). ob. rewrite (cstr_slice _ _ Ht), (cstr_slice _ _ Hnum).
  assert (Hz16 : zlen (replicate 16 0) = 16) by done.
  (* the unconditional 'p' still fits, so the three pieces are one bounded copy *)
  assert (Hp : forall k, ('(out, o) ← put_chars t 0 16 (replicate 16 0);
      '(out, o) ← (if ends_digit t then out' ← st out o 112; Some (out', o + 1) else Some (out, o)
                   : option (mem * Z)); k out o : option mem)
    = '(out, o) ← put_chars (t ++ if ends_digit t then [112] else []) 0 16 (replicate 16 0); k out o).
  { intros k. rewrite <- put_chars_app by lia. rewrite put_chars_ok by lia. cbv zeta. ob.
    rewrite Z.min_l by lia. rewrite Z.add_0_l. set (out := splice _ _ _).
    assert (zlen out = 16) by (unfold out; rewrite zlen_splice; rewrite ?Hz16;
      [done|lia|unfold zlen in *; rewrite length_take; lia]).
    destruct (ends_digit t); [|done]. cbn [put_chars].
    rewrite (proj2 (Z.ltb_lt _ _)) by lia. rewrite st_in by lia. ob. done. }
  rewrite Hp. set (a := t ++ _).
  assert (Happ : forall k : mem -> Z -> option mem,
    ('(out, o) ← put_chars a 0 16 (replicate 16 0); '(out, o) ← put_chars (decimal n) o 16 out; k out o)
    = '(out, o) ← put_chars (a ++ decimal n) 0 16 (replicate 16 0); k out o).
  { intros k. rewrite <- put_chars_app by lia.
    by destruct (put_chars a 0 16 (replicate 16 0)) as [[out o]|]. }
  rewrite Happ. replace (a ++ decimal n) with (part_label t n)
    by (unfold a, part_label; by rewrite <- app_assoc).
  rewrite put_chars_ok by lia. cbv zeta. ob. rewrite Z.add_0_l. cbn [Z.sub Z.add Z.opp Z.pos_sub].
  set (k := Z.min (zlen (part_label t n)) (16 - 1 - 0)).
  pose proof (zlen_nonneg (part_label t n)).
  assert (Hk : zlen (take (Z.to_nat k) (part_label t n)) = k)
    by (unfold zlen in *; rewrite length_take; lia).
  rewrite st_in by (rewrite zlen_splice; lia). f_equal.
  replace (take 15 (part_label t n)) with (take (Z.to_nat k) (part_label t n)).
  2: { destruct (decide (zlen (part_label t n) <= 15)).
       - rewrite !take_ge; [done|unfold zlen in *; lia..].
       - replace k with 15 by lia. done. }
  rewrite <- splice_app by (rewrite ?zlen_1; lia). rewrite Hk, Z.add_0_l.
  rewrite (splice_cons k 0 []) by (rewrite ?zlen_splice, ?(zlen_nil (A:=Z)); lia).
  by rewrite splice_nil.
Qed.

Lemma slot_name_ok name t :
  cstr name t -> bytes t ->
  exists nm, slot_name name = Some nm /\ name_ok nm /\ cstr nm (take 14 t).
Proof.
  intros Ht Hb. unfold slot_name, strncpy, BLKDEV_NAME_MAX.
  rewrite (bounded_copy_ok _ t) by (done || rewrite ?zlen_replicate; lia). ob.
  change (Z.to_nat (16 - 1 - 1 - 0)) with 14%nat.
  assert (Hz : zlen (take 14 t ++ [0]) <= 15).
  { rewrite zlen_app, zlen_1. unfold zlen. rewrite length_take. lia. }
  rewrite splice_0. set (r := drop _ _).
  assert (Hr : zlen ((take 14 t ++ [0]) ++ r) = 16).
  { unfold r. rewrite zlen_app. unfold zlen in *. rewrite length_drop, length_replicate.
    rewrite length_app in *. cbn [length] in *. lia. }
  rewrite st_in by lia. eexists. split; [done|].
  assert (Hc : cstr (<[Z.to_nat (16 - 1) := 0]> ((take 14 t ++ [0]) ++ r)) (take 14 t)).
  { split; [|by apply Forall_take; apply Ht].
    rewrite insert_app_r_alt by (unfold zlen in Hz; lia). rewrite <- app_assoc. cbn [app]. eauto. }
  split; [|done]. split; [by rewrite zlen_insert|]. exists (take 14 t). split; [done|].
  split; [unfold zlen; rewrite length_take; lia | by apply Forall_take].
Qed.

(** ** The operations keep the invariant *)

Section Ops.
Context {D : Type} `{DD : DiskDriver D}.
Implicit Types s : blk D.

Lemma tab_row s i :
  tab_inv s -> 0 <= i < BLKDEV_SLOTS ->
  exists u d, ld (dev_used s) i = Some u /\ ld (devices s) i = Some d.
Proof.
  intros (Hl & Hu & _) Hi. destruct (ld_in (dev_used s) i) as [u ?]; [lia|].
  destruct (ld_in (devices s) i) as [d ?]; [lia|]. eauto.
Qed.

Lemma slots_Z : Z.of_nat slots = BLKDEV_SLOTS.
Proof. done. Qed.

Lemma alloc_slot_ok s :
  tab_inv s -> exists r, alloc_slot s = Some r /\
    match r with
    | Some i => ld (dev_used s) i = Some 0
    | None => forall i, 0 <= i < BLKDEV_SLOTS -> used s i
    end.
Proof.
  intros Ht. unfold alloc_slot.
  set (g := fun i => match ld (dev_used s) i with
                     | Some u => if u =? 0 then Some i else None | None => None end).
  destruct (scan_spec (fun i => u ← ld (dev_used s) i; Some (if u =? 0 then Some i else None))
              g slots 0) as [[-> Hn]|(j & a & Hj & Ha & -> & _)]; rewrite ?slots_Z in *.
  - intros j Hj. destruct (tab_row s j Ht) as (u & d & Hu & _); [lia|].
    unfold g. by rewrite Hu.
  - exists None. split; [done|]. intros i Hi. specialize (Hn i ltac:(lia)). unfold g in Hn.
    destruct (tab_row s i Ht Hi) as (u & d & Hu & _). rewrite Hu in Hn.
    destruct (u =? 0) eqn:E; [done|]. b2p. by exists u.
  - exists (Some a). split; [done|]. unfold g in Ha.
    destruct (ld (dev_used s) j) as [u|] eqn:E; [|done].
    destruct (u =? 0) eqn:E0; [|done]. injection Ha as <-. b2p. by subst.
Qed.

(** Lookup by name: the device found has that name, and if none is found no
    device has it. *)
Lemma blkdev_find_ok s name t :
  tab_inv s -> cstr name t -> bytes t ->
  exists r, blkdev_find name s = Some r /\
    match r with
    | Some i => used s i /\ exists d, ld (devices s) i = Some d /\ cstr (d_name d) t
    | None => forall i d, used s i -> ld (devices s) i = Some d -> ~ cstr (d_name d) t
    end.
Proof.
  intros Ht Hn Hb. unfold blkdev_find.
  set (f := fun i => u ← ld (dev_used s) i;
                 if u =? 0 then Some None
                 else d ← ld (devices s) i; r ← strcmp (d_name d) name;
                      Some (if r =? 0 then Some i else None)).
  assert (Hf : forall j, 0 <= j < BLKDEV_SLOTS -> exists r, f j = Some r /\
    match r with
    | Some i => i = j /\ used s i /\ exists d, ld (devices s) i = Some d /\ cstr (d_name d) t
    | None => forall d, used s j -> ld (devices s) j = Some d -> ~ cstr (d_name d) t
    end).
  { intros j Hj. destruct (tab_row s j Ht Hj) as (u & d & Hu & Hd). unfold f. rewrite Hu, Hd. ob.
    case_if; b2p.
    - exists None. split; [done|]. intros d' (u' & Hu' & ?). congruence.
    - assert (Huse : used s j) by (by exists u).
      destruct (used_dev s j Ht Huse) as (d' & Hd' & _ & (_ & t' & Ht' & _ & Hb') & _).
      rewrite Hd in Hd'. injection Hd' as <-. unfold strcmp.
      destruct (compare_string_ok (d_name d) name t' t) as (r & -> & Hr); [done..|]. ob.
      eexists. split; [done|]. case_if; b2p.
      + split; [done|]. split; [done|]. exists d. split; [done|]. apply Hr in Hif0. by subst.
      + intros d' _ [= <-] Hc. apply Hif0, Hr. by apply (cstr_inj (d_name d)). }
  assert (Hg : exists g, forall j, 0 <= j < BLKDEV_SLOTS -> f j = Some (g j)).
  { exists (fun j => match f j with Some r => r | None => None end). intros j Hj.
    by destruct (Hf j Hj) as (r & -> & _). }
  destruct Hg as [g Hg].
  destruct (scan_spec f g slots 0) as [[-> Hnone]|(j & a & Hj & Ha & -> & _)];
    rewrite ?slots_Z in *; [intros; apply Hg; lia| |].
  - exists None. split; [done|]. intros i d Hi Hd. pose proof (used_range s i Ht Hi) as Hr.
    destruct (Hf i Hr) as (r & Hfi & Hr'). rewrite Hg in Hfi by lia.
    rewrite (Hnone i) in Hfi by lia. injection Hfi as <-. by apply Hr'.
  - exists (Some a). split; [done|]. destruct (Hf j) as (r & Hfj & Hr'); [lia|].
    rewrite Hg in Hfj by lia. rewrite Ha in Hfj. injection Hfj as <-. by destruct Hr' as (-> & ?).
Qed.

Lemma pick_boot_ok s :
  tab_inv s -> exists s', blkdev_pick_boot s = Some s' /\ blk_inv s' /\ medium s' = medium s /\
    devices s' = devices s /\ dev_used s' = dev_used s.
Proof.
  intros Ht. unfold blkdev_pick_boot.
  set (g := fun i => match ld (dev_used s) i, ld (devices s) i with
     | Some u, Some d => if negb (u =? 0) && blkdev_is_disk d then Some i else None
     | _, _ => None end).
  assert (Hsc := scan_spec (fun i => u ← ld (dev_used s) i; d ← ld (devices s) i;
       Some (if negb (u =? 0) && blkdev_is_disk d then Some i else None)) g slots 0).
  rewrite slots_Z in Hsc.
  destruct Hsc as [[-> Hn]|(j & a & Hj & Ha & -> & _)].
  - intros j Hj. destruct (tab_row s j Ht) as (u & d & Hu & Hd); [lia|].
    unfold g. by rewrite Hu, Hd.
  - ob. eexists. split; [done|]. split; [|done]. split; [done|].
    intros i d Hi Hd Hp. destruct (used_range s i Ht Hi) as []. specialize (Hn i ltac:(lia)).
    unfold g in Hn. destruct Hi as (u & Hu & Hu0). cbn in Hu, Hd. rewrite Hu, Hd in Hn.
    unfold blkdev_is_disk in Hn. rewrite bool_decide_true, (proj2 (Z.eqb_neq u 0)) in Hn by done.
    done.
  - ob. eexists. split; [done|]. split; [|done]. split; [done|]. unfold g in Ha.
    destruct (ld (dev_used s) j) as [u|] eqn:Eu; [|done].
    destruct (ld (devices s) j) as [d|] eqn:Ed; [|done].
    destruct (negb (u =? 0) && blkdev_is_disk d) eqn:E; [|done]. injection Ha as <-. b2p.
    unfold boot_inv. cbn. split; [by exists u|]. exists d. split; [done|].
    unfold blkdev_is_disk in *. by apply bool_decide_eq_true in H0.
Qed.

(** Registering a disk. *)
Definition good_name (name : mem) (t : list Z) : Prop := cstr name t /\ bytes t.

Lemma register_ok probe name t max_lba rd wr s :
  blk_inv s -> good_name name t -> is_u32 max_lba ->
  (forall hook i s, probe = Some hook -> blk_inv s -> used s i ->
     (exists d, ld (devices s) i = Some d /\ d_parent d = None) ->
     exists s', hook i s = Some s' /\ blk_inv s') ->
  exists s' r, register_blkdev probe (Some name) max_lba rd wr s = Some (s', r) /\ blk_inv s'.
Proof.
  intros [Ht Hboot] [Hn Hb] Hm Hprobe. unfold register_blkdev.
  assert (exists c, ld name 0 = Some c) as [c ->].
  { apply ld_in. destruct Hn as [[rest ->] _]. rewrite zlen_app, zlen_cons.
    pose proof (zlen_nonneg t). pose proof (zlen_nonneg rest). lia. }
  ob. case_if; [by exists s, (-1)|].
  destruct (blkdev_find_ok s name t Ht Hn Hb) as (f & -> & _). ob.
  destruct f; [by exists s, (-3)|].
  destruct (alloc_slot_ok s Ht) as ([idx|] & -> & Ha); ob; [|by exists s, (-2)].
  destruct (slot_name_ok name t Hn Hb) as (nm & -> & Hnm & _). ob.
  assert (Hi : 0 <= idx < BLKDEV_SLOTS)
    by (destruct Ht as (_ & <- & _); by apply ld_Some_lt in Ha).
  rewrite u32_small by (change BLKDEV_SLOTS with 136 in Hi; unfold is_u32; lia).
  set (d := mk_blkdev nm idx max_lba None 0 0 0 0 0 rd wr).
  apply orb_false_iff in Hif as [Hif Hwr]. apply orb_false_iff in Hif as [_ Hrd]. b2p.
  destruct (insert_ok idx d s Ht Ha) as (s1 & -> & Ht1 & Hb1 & _ & Hd1 & Hu1 & Hoth); [by split|].
  ob. set (s2 := match boot_dev s1 with None => set_boot (Some idx) s1 | Some _ => s1 end).
  assert (H2 : blk_inv s2 /\ used s2 idx /\ ld (devices s2) idx = Some d).
  { unfold s2. destruct (boot_dev s1) as [b|] eqn:Eb.
    - split; [|done]. split; [done|]. unfold boot_inv in *. rewrite Eb.
      rewrite <- Hb1 in Hboot. destruct Hboot as (Hub & db & Hdb & Hpb).
      destruct (decide (b = idx)) as [->|Hne]; [split; [done|]; by exists d|].
      destruct (Hoth b Hne) as [-> Hus]. split; [by apply Hus|]. eauto.
    - split; [|done]. split; [done|]. unfold boot_inv. cbn. split; [done|]. by exists d. }
  destruct H2 as (Hi2 & Hu2 & Hd2). destruct probe as [hook|]; [|eauto].
  destruct (Hprobe hook idx s2 eq_refl Hi2 Hu2) as (s3 & -> & H3); [by exists d|]. ob. eauto.
Qed.

(** Dropping the partitions of a disk, from slot [i] on. *)
Lemma clear_loop_ok disk (n : nat) i cnt s :
  tab_inv s -> 0 <= i -> i + Z.of_nat n <= BLKDEV_SLOTS ->
  exists s' cnt', clear_loop disk n i cnt s = Some (s', cnt') /\ tab_inv s' /\
    boot_dev s' = boot_dev s /\ medium s' = medium s /\
    (forall j d, used s' j -> ld (devices s') j = Some d -> i <= j < i + Z.of_nat n ->
       d_parent d <> Some disk) /\
    (forall j, used s' j -> used s j /\ ld (devices s') j = ld (devices s) j) /\
    (forall j d, used s j -> ld (devices s) j = Some d -> d_parent d <> Some disk ->
       used s' j /\ ld (devices s') j = Some d).
Proof.
  revert i cnt s. induction n as [|n IH]; intros i cnt s Ht Hi Hn.
  { exists s, cnt. repeat (split; [done|]). split; [intros; lia|]. by split. }
  cbn [clear_loop]. destruct (tab_row s i Ht) as (u & d & Hu & Hd); [lia|]. rewrite Hu. ob.
  assert (Hstep : forall c (s1 : blk D), tab_inv s1 -> boot_dev s1 = boot_dev s -> medium s1 = medium s ->
    (forall j, used s1 j -> used s j /\ ld (devices s1) j = ld (devices s) j) ->
    (forall j e, used s j -> ld (devices s) j = Some e -> d_parent e <> Some disk ->
       used s1 j /\ ld (devices s1) j = Some e) ->
    (forall e, used s1 i -> ld (devices s1) i = Some e -> d_parent e <> Some disk) ->
    exists s' cnt', clear_loop disk n (i + 1) c s1 = Some (s', cnt') /\ tab_inv s' /\
    boot_dev s' = boot_dev s /\ medium s' = medium s /\
    (forall j d, used s' j -> ld (devices s') j = Some d -> i <= j < i + Z.of_nat (S n) ->
       d_parent d <> Some disk) /\
    (forall j, used s' j -> used s j /\ ld (devices s') j = ld (devices s) j) /\
    (forall j d, used s j -> ld (devices s) j = Some d -> d_parent d <> Some disk ->
       used s' j /\ ld (devices s') j = Some d)).
  { intros c s1 Ht1 Hb1 Hm1 Hsub Hkeep Hat.
    destruct (IH (i + 1) c s1 Ht1) as (s' & cnt' & -> & Ht' & Hb' & Hm' & Hno & Hs & Hk); [lia..|].
    exists s', cnt'. split; [done|]. split; [done|]. split; [congruence|]. split; [congruence|].
    split; [|split].
    - intros j e Hj He Hr. destruct (decide (j = i)) as [->|].
      + destruct (Hs i Hj) as [Hj1 He1]. apply Hat; [done|congruence].
      + apply (Hno j); [done..|lia].
    - intros j Hj. destruct (Hs j Hj) as [Hj1 ->]. by apply Hsub.
    - intros j e Hj He Hp. destruct (Hkeep j e Hj He Hp) as [Hj1 He1]. by apply Hk. }
  case_if; b2p.
  { apply Hstep; try done; try by split. intros e (u' & Hu' & ?). congruence. }
  rewrite Hd. ob. assert (Hus : used s i) by (by exists u).
  destruct (bool_decide (d_parent d = Some disk)) eqn:Ep; cbn [negb].
  2: { apply bool_decide_eq_false in Ep. apply Hstep; try done; try by split. congruence. }
  apply bool_decide_eq_true in Ep. pose proof Ht as (_ & _ & _ & Hdev).
  destruct (remove_ok i s Ht Hus) as (s1 & -> & Ht1 & Hb1 & Hm1 & Hnu & Hoth).
  { intros j e Hj He Hp. destruct (Hdev j e Hj He) as (_ & _ & _ & Hok). rewrite Hp in Hok.
    destruct Hok as (_ & dp & Hdp & Hpn & _). congruence. }
  ob. apply Hstep; try done.
  - intros j Hj. assert (j <> i) by (by intros ->). destruct (Hoth j) as [-> Hus']; [done|].
    split; [by apply Hus' | done].
  - intros j e Hj He Hp. assert (j <> i) by (intros ->; congruence).
    destruct (Hoth j) as [-> Hus']; [done|]. split; [by apply Hus' | done].
Qed.

Lemma unregister_ok name t s :
  blk_inv s -> good_name name t ->
  exists s', unregister_blkdev (Some name) s = Some s' /\ blk_inv s' /\ medium s' = medium s.
Proof.
  intros [Ht Hboot] [Hn Hb]. unfold unregister_blkdev.
  destruct (blkdev_find_ok s name t Ht Hn Hb) as ([i|] & -> & Hf); ob; [|by exists s].
  destruct Hf as (Hi & d & Hd & _). rewrite Hd. ob. case_if; [by exists s|].
  unfold blkdev_is_disk in Hif. b2p. apply bool_decide_eq_true in Hif.
  unfold blkdev_clear_partitions.
  destruct (clear_loop_ok i slots 0 0 s Ht) as
    (s1 & c & -> & Ht1 & Hb1 & Hm1 & Hno & Hsub & Hkeep); [done..|]. ob.
  destruct (Hkeep i d Hi Hd) as [Hi1 Hd1]; [by rewrite Hif|].
  destruct (used_dev s i Ht Hi) as (d' & Hd' & Hid & _).
  rewrite Hd in Hd'. injection Hd' as <-. rewrite Hid.
  destruct (remove_ok i s1 Ht1 Hi1) as (s2 & -> & Ht2 & _ & Hm2 & _).
  { intros j e Hj He. apply (Hno j); [done..|]. rewrite slots_Z. by apply (used_range s1). }
  ob. destruct (pick_boot_ok s2 Ht2) as (s3 & -> & H3 & Hm3 & _).
  exists s3. split; [done|]. split; [done|]. congruence.
Qed.

Lemma clear_partitions_ok disk s :
  blk_inv s -> exists s' n, blkdev_clear_partitions disk s = Some (s', n) /\ blk_inv s' /\
    medium s' = medium s.
Proof.
  intros [Ht Hboot]. unfold blkdev_clear_partitions. destruct disk as [disk|]; [|by exists s, 0].
  destruct (clear_loop_ok disk slots 0 0 s Ht) as
    (s1 & c & -> & Ht1 & Hb1 & Hm1 & Hno & Hsub & Hkeep); [done..|].
  exists s1, c. split; [done|]. split; [|done]. split; [done|].
  unfold boot_inv in *. rewrite Hb1. destruct (boot_dev s) as [b|].
  - destruct Hboot as (Hub & d & Hd & Hp). destruct (Hkeep b d Hub Hd) as [? ?]; [by rewrite Hp|].
    eauto.
  - intros j e Hj He. destruct (Hsub j Hj) as [Hj' He']. apply (Hboot j); [done|congruence].
Qed.

Lemma part_count_ok disk s :
  tab_inv s -> exists n, blkdev_part_count disk s = Some n /\ 0 <= n.
Proof.
  intros Ht. unfold blkdev_part_count. destruct disk as [disk|]; [|by exists 0].
  destruct (count_loop_ok (fun i => u ← ld (dev_used s) i; d ← ld (devices s) i;
    Some (negb (u =? 0) && bool_decide (d_parent d = Some disk))) slots 0 0) as (r & -> & Hr).
  - intros j Hj. rewrite slots_Z in Hj. destruct (tab_row s j Ht) as (u & d & -> & ->); [lia|].
    ob. eauto.
  - exists r. split; [done|lia].
Qed.

(** Adding a partition: the devices there were stay, and a new device is
    exactly the requested range of the disk. *)
Definition part_added s s' (disk part_no start len ptype table : Z) (r : option Z) : Prop :=
  (forall j, used s j -> used s' j /\ ld (devices s') j = ld (devices s) j) /\
  (forall j, used s' j -> used s j \/ r = Some j) /\
  match r with
  | None => s' = s
  | Some idx => ~ used s idx /\ used s' idx /\ exists d, ld (devices s') idx = Some d /\
      d_parent d = Some disk /\ d_start_lba d = start /\ d_max_lba d = len /\
      d_part_no d = part_no /\ d_ptype d = ptype /\ d_table d = table /\ d_devfs_registered d = 0
  end.

Lemma part_added_none s disk part_no start len ptype table :
  part_added s s disk part_no start len ptype table None.
Proof. split; [by split|]. split; [by left|done]. Qed.

Lemma add_partition_ok disk part_no start len ptype table s :
  blk_inv s -> used s disk -> is_u32 part_no -> is_u32 start -> is_u32 len ->
  exists s' r, blkdev_add_partition (Some disk) part_no start len ptype table s = Some (s', r) /\
    blk_inv s' /\ medium s' = medium s /\
    part_added s s' disk part_no start len ptype table r.
Proof.
  intros [Ht Hboot] Hu Hpn Hst Hln. unfold blkdev_add_partition.
  destruct (used_dev s disk Ht Hu) as (dd & Hdd & _ & (_ & t & Hct & Hl14 & Hbt) & Hmax & Hpar).
  rewrite Hdd. ob. pose proof (part_added_none s disk part_no start len ptype table) as Hno.
  case_if; [by exists s, None|]. destruct (part_count_ok (Some disk) s Ht) as (n & -> & _). ob.
  case_if; [by exists s, None|]. case_if; [by exists s, None|].
  rewrite (partition_name_ok dd t) by done. ob.
  set (nm := splice 0 _ _). set (t' := take 15 (part_label t part_no)).
  assert (Hnm : good_name nm t').
  { split; [split|].
    - unfold nm. rewrite splice_0, <- app_assoc. cbn [app]. eauto.
    - apply Forall_take, part_label_nz, Hct.
    - by apply Forall_take, part_label_bytes. }
  destruct (blkdev_find_ok s nm t' Ht) as (f & -> & _); [apply Hnm..|]. ob.
  destruct f; [by exists s, None|].
  destruct (alloc_slot_ok s Ht) as ([idx|] & -> & Ha); ob; [|by exists s, None].
  destruct (slot_name_ok nm t') as (nm' & -> & Hnm' & _); [apply Hnm..|]. ob.
  assert (Hi : 0 <= idx < BLKDEV_SLOTS)
    by (destruct Ht as (_ & <- & _); by apply ld_Some_lt in Ha).
  rewrite u32_small by (change BLKDEV_SLOTS with 136 in Hi; unfold is_u32; lia).
  set (d := mk_blkdev nm' idx len (Some disk) start part_no table ptype 0 0 0).
  unfold blkdev_is_disk in Hif. b2p.
  match goal with H : bool_decide _ = true |- _ => apply bool_decide_eq_true in H end.
  destruct (insert_ok idx d s Ht Ha) as (s1 & -> & Ht1 & Hb1 & Hm1 & Hd1 & Hu1 & Hoth).
  { split; [done|]. split; [done|]. split; [done|]. cbn. split; [done|]. exists dd.
    unfold is_u32 in *. rewrite u32_small in * by (unfold is_u32; lia). split; [done|].
    split; [done|]. lia. }
  ob. assert (Hnu : ~ used s idx) by (intros (u & ? & ?); congruence).
  assert (Hkeep : forall j, used s j -> used s1 j /\ ld (devices s1) j = ld (devices s) j).
  { intros j Hj. destruct (Hoth j) as [-> Hus]; [by intros ->|]. split; [by apply Hus|done]. }
  exists s1, (Some idx). split; [done|]. split; [|split; [done|]].
  - split; [done|]. unfold boot_inv in *. rewrite Hb1. destruct (boot_dev s) as [b|].
    + destruct Hboot as (Hub & db & Hdb & Hp). destruct (Hkeep b Hub) as [? ->]. eauto.
    + intros j e Hj He. destruct (decide (j = idx)) as [->|Hne].
      * rewrite Hd1 in He. by injection He as <-.
      * destruct (Hoth j Hne) as [E Hus]. apply (Hboot j); [by apply Hus|congruence].
  - split; [done|]. split.
    { intros j Hj. destruct (decide (j = idx)) as [->|Hne]; [by right|left]. by apply (Hoth j Hne). }
    split; [done|]. split; [done|]. exists d. by repeat (split; [done|]).
Qed.
End Ops.

(** ** Sector I/O *)

Section IO.
Context {D : Type} `{DD : DiskDriver D}.
Implicit Types s : blk D.

(** The disk behind a device, and where the device starts on it. *)
Definition disk_of s (d : blkdev_t) : option blkdev_t :=
  match d_parent d with None => Some d | Some p => ld (devices s) p end.
Definition base_of (d : blkdev_t) : Z :=
  match d_parent d with None => 0 | Some _ => d_start_lba d end.

Lemma disk_of_ok s i d :
  tab_inv s -> used s i -> ld (devices s) i = Some d ->
  exists dd, disk_of s d = Some dd /\ d_parent dd = None /\ is_u32 (d_max_lba dd) /\
    0 <= base_of d /\ base_of d + d_max_lba d <= d_max_lba dd /\
    d_read_sector dd <> 0 /\ d_write_sector dd <> 0.
Proof.
  intros Ht Hi Hd. pose proof Ht as (_ & _ & _ & Hdev).
  destruct (Hdev i d Hi Hd) as (_ & _ & Hm & Hp). unfold disk_of, base_of.
  destruct (d_parent d) as [p|] eqn:E.
  - destruct Hp as (Hpu & dp & Hdp & Hpn & ? & ? & ?). exists dp.
    destruct (Hdev p dp Hpu Hdp) as (_ & _ & Hmp & Hcb). rewrite Hpn in Hcb.
    destruct Hcb as [Hr Hw]. repeat (split; [done || lia|]). done.
  - destruct Hp as [Hr Hw]. exists d. repeat (split; [done || lia|]). done.
Qed.

Lemma read_ok s i d dd lba buf :
  tab_inv s -> used s i -> ld (devices s) i = Some d -> disk_of s d = Some dd -> 0 <= lba ->
  SECTOR <= zlen buf -> (forall h l, zlen (sec_read (medium s) h l) = SECTOR) ->
  blkdev_read (Some i) lba buf s =
    Some (if lba <? d_max_lba d
          then (splice 0 (sec_read (medium s) (d_read_sector dd) (base_of d + lba)) buf, 0)
          else (buf, -1)).
Proof.
  intros Ht Hi Hd Hdd Hl Hb Hsec.
  destruct (disk_of_ok s i d Ht Hi Hd) as (dd' & Hdd' & Hpn & Hmx & Hb0 & Hb1 & Hr & Hw).
  rewrite Hdd in Hdd'. injection Hdd' as <-. unfold is_u32 in Hmx.
  unfold blkdev_read. cbn [blkdev_read_at]. rewrite Hd. ob. unfold blkdev_lba_oob.
  destruct (lba <? d_max_lba d) eqn:E; cbn [negb]; b2p; [|done].
  assert (Hcopy : forall l, memcpy buf 0 (sec_read (medium s) (d_read_sector dd) l) 0 SECTOR =
     Some (splice 0 (sec_read (medium s) (d_read_sector dd) l) buf)).
  { intros l. rewrite memcpy_ok by (rewrite ?Hsec; unfold SECTOR in *; lia).
    do 2 f_equal. rewrite <- (Hsec (d_read_sector dd) l) at 1. apply slice_full. }
  unfold disk_of, base_of in *. destruct (d_parent d) as [p|] eqn:Ep.
  - rewrite (proj2 (Z.ltb_ge _ _)) by lia. rewrite Hdd. ob.
    rewrite u32_small by (unfold is_u32; lia). rewrite (proj2 (Z.ltb_lt _ _)) by lia.
    cbn [negb]. rewrite Hpn, (proj2 (Z.eqb_neq _ _)) by done. by rewrite Hcopy.
  - injection Hdd as <-. rewrite (proj2 (Z.eqb_neq _ _)) by done. by rewrite Hcopy.
Qed.

Lemma write_ok s i d dd lba buf :
  tab_inv s -> used s i -> ld (devices s) i = Some d -> disk_of s d = Some dd -> 0 <= lba ->
  SECTOR <= zlen buf ->
  blkdev_write (Some i) lba buf s =
    Some (if lba <? d_max_lba d
          then (set_medium (sec_write (medium s) (d_write_sector dd) (base_of d + lba)
                                      (slice 0 SECTOR buf)) s, 0)
          else (s, -1)).
Proof.
  intros Ht Hi Hd Hdd Hl Hb.
  destruct (disk_of_ok s i d Ht Hi Hd) as (dd' & Hdd' & Hpn & Hmx & Hb0 & Hb1 & Hr & Hw).
  rewrite Hdd in Hdd'. injection Hdd' as <-. unfold is_u32 in Hmx.
  unfold blkdev_write. cbn [blkdev_write_at]. rewrite Hd. ob. unfold blkdev_lba_oob.
  destruct (lba <? d_max_lba d) eqn:E; cbn [negb]; b2p; [|done].
  unfold disk_of, base_of in *. destruct (d_parent d) as [p|] eqn:Ep.
  - rewrite (proj2 (Z.ltb_ge _ _)) by lia. rewrite Hdd. ob.
    rewrite u32_small by (unfold is_u32; lia). rewrite (proj2 (Z.ltb_lt _ _)) by lia.
    cbn [negb]. rewrite Hpn, (proj2 (Z.eqb_neq _ _)), (proj2 (Z.leb_le _ _)) by done. done.
  - injection Hdd as <-. by rewrite (proj2 (Z.eqb_neq _ _)), (proj2 (Z.leb_le _ _)) by done.
Qed.

(** Changing the medium changes nothing else. *)
Lemma set_medium_inv m s : blk_inv s -> blk_inv (set_medium m s).
Proof. done. Qed.

Lemma write_inv s i lba buf :
  blk_inv s -> used s i -> 0 <= lba -> SECTOR <= zlen buf ->
  exists s' r, blkdev_write (Some i) lba buf s = Some (s', r) /\ blk_inv s'.
Proof.
  intros [Ht Hboot] Hi Hl Hb. destruct (used_dev s i Ht Hi) as (d & Hd & _).
  destruct (disk_of_ok s i d Ht Hi Hd) as (dd & Hdd & _).
  rewrite (write_ok s i d dd) by done. case_if; eexists _, _; split; [done| |done|]; by split.
Qed.

(** A device is a window on its disk.  In every well-formed table, reading
    or writing sector [lba] of a registered device goes to sector
    [base + lba] of its disk's controller, which is inside both the device and
    the disk, or is refused with -1 when [lba] is not below the device's
    size; the caller's buffer and the disk are otherwise untouched. *)
Theorem blkdev_io_exact s i d lba buf :
  blk_inv s -> used s i -> ld (devices s) i = Some d -> is_u32 lba -> SECTOR <= zlen buf ->
  (forall h l, zlen (sec_read (medium s) h l) = SECTOR) ->
  exists dd, disk_of s d = Some dd /\ d_parent dd = None /\
    (lba < d_max_lba d -> 0 <= base_of d + lba < d_max_lba dd) /\
    blkdev_read (Some i) lba buf s =
      Some (if lba <? d_max_lba d
            then (splice 0 (sec_read (medium s) (d_read_sector dd) (base_of d + lba)) buf, 0)
            else (buf, -1)) /\
    blkdev_write (Some i) lba buf s =
      Some (if lba <? d_max_lba d
            then (set_medium (sec_write (medium s) (d_write_sector dd) (base_of d + lba)
                                        (slice 0 SECTOR buf)) s, 0)
            else (s, -1)).
Proof.
  intros [Ht _] Hi Hd Hl Hb Hsec. unfold is_u32 in Hl.
  destruct (disk_of_ok s i d Ht Hi Hd) as (dd & Hdd & Hpn & Hmx & Hb0 & Hb1 & _).
  exists dd. split; [done|]. split; [done|]. split; [lia|].
  split; [by apply read_ok; try lia | by apply write_ok; try lia].
Qed.
End IO.

(** ** Runs of the device layer *)

Section Runs.
Context {D : Type} `{DD : DiskDriver D}.
Implicit Types s : blk D.

Inductive blk_op :=
| BRegister (name : mem) (max_lba rd wr : Z)
| BUnregister (name : mem)
| BAddPartition (disk part_no start len ptype table : Z)
| BClear (disk : Z)
| BWrite (dev lba : Z) (buf : mem).

Definition blk_op_ok (o : blk_op) : Prop :=
  match o with
  | BRegister name max_lba _ _ => (exists t, good_name name t) /\ is_u32 max_lba
  | BUnregister name => exists t, good_name name t
  | BAddPartition _ part_no start len _ _ => is_u32 part_no /\ is_u32 start /\ is_u32 len
  | BClear _ => True
  | BWrite _ lba buf => 0 <= lba /\ SECTOR <= zlen buf
  end.

(** Callers hold pointers to registered devices only. *)
Definition live s (i : Z) : bool :=
  match ld (dev_used s) i with Some u => negb (u =? 0) | None => false end.

Definition blk_step (o : blk_op) s : option (blk D) :=
  match o with
  | BRegister name max_lba rd wr =>
      '(s', _) ← register_blkdev None (Some name) max_lba rd wr s; Some s'
  | BUnregister name => unregister_blkdev (Some name) s
  | BAddPartition disk part_no start len ptype table =>
      if live s disk then
        '(s', _) ← blkdev_add_partition (Some disk) part_no start len ptype table s; Some s'
      else Some s
  | BClear disk => '(s', _) ← blkdev_clear_partitions (Some disk) s; Some s'
  | BWrite dev lba buf =>
      if live s dev then '(s', _) ← blkdev_write (Some dev) lba buf s; Some s' else Some s
  end.

Fixpoint blk_run (os : list blk_op) s : option (blk D) :=
  match os with [] => Some s | o :: os => s' ← blk_step o s; blk_run os s' end.

Lemma live_used s i : live s i = true -> used s i.
Proof.
  unfold live, used. destruct (ld (dev_used s) i) as [u|]; [|done]. intros H. b2p. eauto.
Qed.

Lemma nz_count_replicate (n : nat) : nz_count (replicate n 0) = 0.
Proof. induction n; [done|]. exact IHn. Qed.

Lemma blkdev_init_inv s : blk_inv (blkdev_init s).
Proof.
  assert (Hnu : forall i, ~ used (blkdev_init s) i).
  { intros i (u & Hu & Hn). cbn in Hu. unfold ld in Hu. destruct (0 <=? i); [|done].
    apply lookup_replicate in Hu as [-> _]. done. }
  split; [|intros i d Hi; by destruct (Hnu i)].
  unfold tab_inv, blkdev_init. cbn [devices dev_used dev_count]. rewrite !zlen_replicate, slots_Z.
  rewrite nz_count_replicate. repeat (split; [done|]). intros i d Hi. by destruct (Hnu i).
Qed.

Lemma blk_step_ok o s : blk_inv s -> blk_op_ok o -> exists s', blk_step o s = Some s' /\ blk_inv s'.
Proof.
  intros Hs Ho. destruct o as [name max_lba rd wr|name|disk pn st len pt tb|disk|dev lba buf];
    cbn [blk_step blk_op_ok] in *.
  - destruct Ho as [[t Hn] Hm].
    destruct (register_ok None name t max_lba rd wr s Hs Hn Hm) as (s' & r & -> & H'); [done|].
    ob. eauto.
  - destruct Ho as [t Hn]. destruct (unregister_ok name t s Hs Hn) as (s' & -> & H' & _). eauto.
  - destruct Ho as (? & ? & ?). case_if; [|eauto]. apply live_used in Hif.
    destruct (add_partition_ok disk pn st len pt tb s Hs Hif) as (s' & r & -> & H' & _);
      [done..|]. ob. eauto.
  - destruct (clear_partitions_ok (Some disk) s Hs) as (s' & n & -> & H' & _). ob. eauto.
  - destruct Ho. case_if; [|eauto]. apply live_used in Hif.
    destruct (write_inv s dev lba buf Hs Hif) as (s' & r & -> & H'); [done..|]. ob. eauto.
Qed.

Lemma blk_run_inv os s :
  blk_inv s -> Forall blk_op_ok os -> exists s', blk_run os s = Some s' /\ blk_inv s'.
Proof.
  intros H0 Hos. revert s H0. induction Hos as [|o os Ho Hos IH]; intros s0 H0; cbn [blk_run]; [eauto|].
  destruct (blk_step_ok o s0 H0 Ho) as (s1 & -> & H1). ob. by apply IH.
Qed.

(** C22: the device table stays well formed.  From [blkdev_init], any sequence
    of disk registrations and removals, partition creations and removals and
    sector writes returns, without ever indexing outside a table or a name,
    and leaves a table in which every device's id is its slot, every partition
    lies inside a registered disk, the device count is the number of used
    slots, and the boot device is a registered disk, present whenever there is
    any disk. *)
Theorem blkdev_table_invariant os s :
  Forall blk_op_ok os -> exists s', blk_run os (blkdev_init s) = Some s' /\ blk_inv s'.
Proof.
  intros Hos. apply blk_run_inv; [apply blkdev_init_inv | done].
Qed.

(** Partitions do not overlap in effect.  Let two registered devices be
    disjoint windows of one disk, or lie on disks whose controllers are not
    the same medium.  Writing any sector of the first leaves every sector of
    the second reading as before, and the written sector reads back. *)
Theorem blkdev_isolation same `{!DiskDriverLaws D same} s i d dd i2 d2 dd2 lba buf s' lba2 b2 :
  blk_inv s -> used s i -> ld (devices s) i = Some d -> disk_of s d = Some dd ->
  used s i2 -> ld (devices s) i2 = Some d2 -> disk_of s d2 = Some dd2 ->
  same (d_read_sector dd) (d_write_sector dd) ->
  (base_of d + d_max_lba d <= base_of d2 \/ base_of d2 + d_max_lba d2 <= base_of d \/
   ~ same (d_read_sector dd2) (d_write_sector dd)) ->
  0 <= lba -> zlen buf = SECTOR -> bytes buf -> 0 <= lba2 -> SECTOR <= zlen b2 ->
  blkdev_write (Some i) lba buf s = Some (s', 0) ->
  blkdev_read (Some i2) lba2 b2 s' = blkdev_read (Some i2) lba2 b2 s /\
  blkdev_read (Some i) lba b2 s' = Some (splice 0 buf b2, 0).
Proof.
  intros [Ht Hbo] Hi Hd Hdd Hi2 Hd2 Hdd2 Hsame Hdis Hl Hz Hb Hl2 Hz2 Hw.
  rewrite (write_ok s i d dd) in Hw by (done || lia).
  destruct (lba <? d_max_lba d) eqn:E; [|done]. injection Hw as <-.
  rewrite <- Hz, slice_full. set (s' := set_medium _ s).
  assert (Ht' : tab_inv s') by exact Ht.
  assert (Hsec : forall (st : blk D) h l, zlen (sec_read (medium st) h l) = SECTOR)
    by (intros; apply sec_read_bytes).
  split.
  - rewrite (read_ok s' i2 d2 dd2), (read_ok s i2 d2 dd2) by (done || apply Hsec).
    destruct (lba2 <? d_max_lba d2) eqn:E2; [|done]. b2p. do 3 f_equal. unfold s'. cbn.
    destruct Hdis as [?|[?|?]]; [apply sec_read_other; lia..|by apply sec_read_medium].
  - rewrite (read_ok s' i d dd) by (done || apply Hsec). rewrite E. do 3 f_equal.
    unfold s'. cbn. by apply sec_read_write.
Qed.
End Runs.

(** ** A controller: RAM disks

    One medium per handle, the same handle reading and writing it; sectors
    never written are zero. *)
Definition ramdisk := gmap (Z * Z) mem.

Definition sector_of (l : mem) : mem := take 512 ((u8 <$> l) ++ replicate 512 0).

#[export] Instance ramdisk_driver : DiskDriver ramdisk := {
  sec_read d h l := sector_of (default [] (d !! (h, l)));
  sec_write d h l b := <[(h, l) := b]> d
}.

Lemma sector_of_id b : zlen b = SECTOR -> bytes b -> sector_of b = b.
Proof.
  intros Hz Hb. unfold sector_of, zlen, SECTOR in *.
  rewrite take_app_le by (rewrite length_fmap; lia).
  rewrite take_ge by (rewrite length_fmap; lia).
  transitivity (id <$> b); [|apply list_fmap_id]. apply list_fmap_ext. intros i x Hx.
  apply u8_small. by apply (Forall_lookup_1 _ _ _ _ Hb Hx).
Qed.

#[export] Instance ramdisk_laws : DiskDriverLaws ramdisk (fun r w => r = w).
Proof.
  split; unfold sec_read, sec_write, ramdisk_driver, ramdisk.
  - intros d h l. unfold sector_of. split.
    + unfold zlen, SECTOR. rewrite length_take, length_app, length_fmap, length_replicate. lia.
    + apply Forall_take, Forall_app_2; [|apply Forall_replicate; word_lia].
      apply Forall_fmap, Forall_true. intros x. apply u8_range.
  - intros d r w l b -> Hz Hb. rewrite lookup_insert_eq. by apply sector_of_id.
  - intros d r w l l' b Hne. by rewrite lookup_insert_ne by congruence.
  - intros d r w l l' b Hne. by rewrite lookup_insert_ne by congruence.
Qed.

(** ** Witnesses *)

(** "sda" with 100 sectors and two adjacent partitions. *)
Definition demo_ops : list blk_op :=
  [BRegister [115; 100; 97; 0] 100 7 7; BAddPartition 0 1 10 5 131 1; BAddPartition 0 2 15 5 131 1].

Definition empty_blk : blk ramdisk := mk_blk [] [] 0 None ∅.

Definition demo_blk : blk ramdisk :=
  match blk_run demo_ops (blkdev_init empty_blk) with Some s => s | None => empty_blk end.

Lemma demo_ops_ok : Forall blk_op_ok demo_ops.
Proof.
  repeat constructor; cbn; try word_lia. exists [115; 100; 97]. split.
  - split; [by exists []|]. by repeat constructor.
  - repeat constructor; word_lia.
Qed.

Lemma demo_blk_inv : blk_inv demo_blk.
Proof.
  destruct (blk_run_inv demo_ops (blkdev_init empty_blk) (blkdev_init_inv _) demo_ops_ok)
    as (s' & He & Hi). unfold demo_blk. by rewrite He.
Qed.

(** The devices of the example. *)
Definition demo_dev (i : Z) : blkdev_t :=
  match ld (devices demo_blk) i with Some d => d | None => blkdev_zero end.

Lemma blkdev_table_invariant_witness :
  exists s', blk_run (demo_ops ++ [BUnregister [115; 100; 97; 0]]) (blkdev_init empty_blk) = Some s' /\
    blk_inv s' /\ dev_count s' = 0.
Proof.
  destruct (blkdev_table_invariant (demo_ops ++ [BUnregister [115; 100; 97; 0]]) empty_blk)
    as (s' & He & Hi).
  - apply Forall_app_2; [exact demo_ops_ok|]. repeat constructor. exists [115; 100; 97]. split.
    + split; [by exists []|]. by repeat constructor.
    + repeat constructor; word_lia.
  - exists s'. split; [exact He|]. split; [exact Hi|].
    revert He. vm_compute. intros [= <-]. reflexivity.
Defined.

Lemma demo_used i : i = 0 \/ i = 1 \/ i = 2 -> used demo_blk i.
Proof. intros [->|[-> | ->]]; exists 1; split; vm_compute; congruence. Qed.

Lemma blkdev_io_exact_witness :
  exists dd, disk_of demo_blk (demo_dev 2) = Some dd /\
    blkdev_read (Some 2) 5 (replicate 512 0) demo_blk = Some (replicate 512 0, -1).
Proof.
  destruct (blkdev_io_exact demo_blk 2 (demo_dev 2) 5 (replicate 512 0)) as (dd & H1 & _ & _ & H2 & _).
  - exact demo_blk_inv.
  - apply demo_used. auto.
  - vm_compute. reflexivity.
  - word_lia.
  - vm_compute. congruence.
  - intros h l. apply sec_read_bytes.
  - exists dd. split; [exact H1|]. rewrite H2. vm_compute. reflexivity.
Defined.

Lemma blkdev_isolation_witness :
  exists s', blkdev_write (Some 1) 4 (replicate 512 9) demo_blk = Some (s', 0) /\
    blkdev_read (Some 2) 0 (replicate 512 1) s' = blkdev_read (Some 2) 0 (replicate 512 1) demo_blk.
Proof.
  assert (exists s', blkdev_write (Some 1) 4 (replicate 512 9) demo_blk = Some (s', 0)) as [s' Hw].
  { eexists. vm_compute. reflexivity. }
  exists s'. split; [exact Hw|].
  refine (proj1 (blkdev_isolation (fun r w => r = w) demo_blk 1 (demo_dev 1) (demo_dev 0)
            2 (demo_dev 2) (demo_dev 0) 4 (replicate 512 9) s' 0 (replicate 512 1)
            demo_blk_inv (demo_used 1 ltac:(auto)) _ _ (demo_used 2 ltac:(auto)) _ _ _ _ _ _ _ _ _ Hw));
    try (vm_compute; reflexivity); try lia.
  - left. vm_compute. congruence.
  - apply Forall_replicate. word_lia.
  - vm_compute. congruence.
Defined.
