(* ===== verification/Devfs.v ===== *)
(** * devfs.c: the device file system's registry

    The singly linked list of registered devices, newest first.  A driver and
    its private pointer are kept abstract ([V]): the list is the same whatever
    the devices are. *)

From S2P Require Import Prelude Klib.
#[local] Open Scope Z_scope.

Definition DEVFS_NAME_LEN : Z := 64.

Section Devfs.
Context {V : Type}.

(** The fields of [devfs_entry_t] the registry uses. *)
Record devfs_entry := mk_dentry { e_name : mem; e_flags : Z; e_drv : V }.

Definition devlist := list devfs_entry.

Fixpoint devfs_find (name : mem) (l : devlist) : option (option devfs_entry) :=
  match l with
  | [] => Some None
  | e :: l => r ← streq (e_name e) name; if r : bool then Some (Some e) else devfs_find name l
  end.

(** [register_chrdev]: [heap_ok] is whether [kmalloc] succeeds; the second
    component is whether an entry is returned. *)
Definition register_chrdev (heap_ok : bool) (name : option mem) (flags : Z) (drv : option V)
    (l : devlist) : option (devlist * bool) :=
  match name, drv with
  | Some name, Some drv =>
      f ← devfs_find name l;
      match f with
      | Some _ => Some (l, false)
      | None =>
          if heap_ok then
            nm ← strlcpy (replicate (Z.to_nat DEVFS_NAME_LEN) 0) name DEVFS_NAME_LEN;
            Some (mk_dentry nm flags drv :: l, true)
          else Some (l, false)
      end
  | _, _ => Some (l, false)
  end.

Fixpoint unregister_chrdev (name : mem) (l : devlist) : option (devlist * Z) :=
  match l with
  | [] => Some ([], -1)
  | e :: l =>
      r ← streq (e_name e) name;
      if r : bool then Some (l, 0)
      else '(l', r) ← unregister_chrdev name l; Some (e :: l', r)
  end.

(** ** The registry is a finite map from names to devices *)

Definition entry_named (t : list Z) (e : devfs_entry) : Prop := cstr (e_name e) t.

(** Every entry has a name, and no two have the same. *)
Definition devfs_ok (l : devlist) : Prop :=
  exists names, Forall2 entry_named names l /\ NoDup names.

Lemma devfs_find_ok l names name t :
  Forall2 entry_named names l -> cstr name t ->
  exists r, devfs_find name l = Some r /\
    match r with
    | Some e => e ∈ l /\ entry_named t e
    | None => t ∉ names
    end.
Proof.
  intros Hl Ht. induction Hl as [|t' e names l He Hl IH]; cbn [devfs_find].
  { exists None. split; [done|]. apply not_elem_of_nil. }
  rewrite (streq_ok _ _ _ _ He Ht). ob. case_bool_decide as E.
  - subst t'. exists (Some e). split; [done|]. split; [by left | done].
  - destruct IH as (r & -> & Hr). exists r. split; [done|]. destruct r as [e'|].
    + destruct Hr. split; [by right | done].
    + apply not_elem_of_cons. by split.
Qed.

Lemma register_chrdev_ok heap_ok name t flags drv l :
  devfs_ok l -> cstr name t -> zlen t < DEVFS_NAME_LEN ->
  exists l' r, register_chrdev heap_ok (Some name) flags (Some drv) l = Some (l', r) /\
    devfs_ok l' /\
    (if r then exists e, l' = e :: l /\ entry_named t e /\ e_drv e = drv else l' = l).
Proof.
  intros (names & Hl & Hnd) Ht Hlen. unfold register_chrdev.
  destruct (devfs_find_ok l names name t Hl Ht) as (f & -> & Hf). ob.
  destruct f as [e|]; [exists l, false; split; [done|]; split; [by exists names|done]|].
  destruct heap_ok; [|exists l, false; split; [done|]; split; [by exists names|done]].
  unfold strlcpy. pose proof (zlen_nonneg t). unfold DEVFS_NAME_LEN in *.
  rewrite (bounded_copy_ok _ t) by (done || rewrite ?zlen_replicate; lia). ob.
  rewrite take_ge by (unfold zlen in *; lia). rewrite splice_0, <- app_assoc. cbn [app].
  eexists _, true. split; [done|].
  assert (Hn : cstr (t ++ 0 :: drop (length (t ++ [0])) (replicate (Z.to_nat 64) 0)) t)
    by (split; [eauto | apply Ht]).
  split; [exists (t :: names); split; [by constructor | by constructor]|]. eauto.
Qed.

Lemma unregister_chrdev_ok l name t :
  devfs_ok l -> cstr name t ->
  exists l' r, unregister_chrdev name l = Some (l', r) /\ devfs_ok l' /\
    l' ⊆ l /\ (forall e, e ∈ l' -> ~ entry_named t e).
Proof.
  intros (names & Hl & Hnd) Ht.
  enough (exists l' r names', unregister_chrdev name l = Some (l', r) /\
    Forall2 entry_named names' l' /\ NoDup names' /\ names' ⊆ names /\ l' ⊆ l /\ t ∉ names')
    as (l' & r & names' & He & Hl' & Hnd' & _ & Hsub & Hnt).
  { exists l', r. split; [done|]. split; [by exists names'|]. split; [done|].
    intros e He' Hte. apply list_elem_of_lookup in He' as [k Hk].
    destruct (Forall2_lookup_r _ _ _ _ _ Hl' Hk) as (t' & Hk' & Het).
    apply Hnt. replace t with t' by (by apply (cstr_inj (e_name e))).
    by apply (list_elem_of_lookup_2 _ k). }
  clear -Hl Hnd Ht. induction Hl as [|t' e names l He Hl IH]; cbn [unregister_chrdev].
  { exists [], (-1), []. repeat (split; [done|]). apply not_elem_of_nil. }
  inversion_clear Hnd as [|? ? Hni Hnd0]; rename Hnd0 into Hnd. rewrite (streq_ok _ _ _ _ He Ht). ob.
  case_bool_decide as E.
  - subst t'. exists l, 0, names. repeat (split; [done|]). split; [by right|].
    split; [by right|done].
  - destruct (IH Hnd) as (l' & r & names' & -> & Hl' & Hnd' & Hs & Hs' & Hnt). ob.
    exists (e :: l'), r, (t' :: names'). split; [done|]. split; [by constructor|].
    split; [constructor; [by intros ?%Hs|done]|]. split; [by apply list_subseteq_skip|].
    split; [by apply list_subseteq_skip|]. apply not_elem_of_cons. by split.
Qed.
End Devfs.
Arguments devfs_entry V : clear implicits.
Arguments devlist V : clear implicits.
