(* ===== verification/Part.v ===== *)
(** * part.c: partitions on disks

    The partition layer reads a disk's label (MBR or GPT), adds one device per
    partition to the block device table and one node per partition to devfs.
    A node's private pointer is the partition's slot.

    [part_rw] is shown to present a device as an array of bytes; a scan is
    shown to create only what the label describes and to keep the table, the
    device file system and the links between them consistent. *)

From S2P Require Import Prelude Klib Printf Blkdev Devfs.
#[local] Open Scope Z_scope.

Definition PART_TABLE_NONE : Z := 0.
Definition PART_TABLE_MBR : Z := 1.
Definition PART_TABLE_GPT : Z := 2.
Definition MBR_TYPE_EXTENDED : Z := 5.
Definition MBR_TYPE_EXTENDED_LBA : Z := 15.
Definition MBR_TYPE_EXTENDED_WIN : Z := 133.
Definition MBR_TYPE_GPT_PROT : Z := 238.
Definition MBR_PTABLE_OFF : Z := 446.
Definition MBR_PART_SIZE : Z := 16.
Definition MBR_NPARTS : Z := 4.
Definition DEVFS_F_BLOCK : Z := 2.
(** "EFI PART" *)
Definition GPT_SIGNATURE : mem := [69; 70; 73; 32; 80; 65; 82; 84].

(** The fields of the on-disk records that the code looks at. *)
Record mbr_part_t := mk_mbr { mb_type : Z; mb_lba_start : Z; mb_lba_len : Z }.
Record gpt_hdr_t := mk_gpt_hdr {
  gh_header_size : Z; gh_entries_lba : Z; gh_num_entries : Z; gh_entry_size : Z }.
Record gpt_entry_t := mk_gpt_entry { ge_type_guid : mem; ge_first_lba : Z; ge_last_lba : Z }.

(** [memcpy] of a packed record out of [m] at [o]: the whole record is read. *)
Definition read_mbr (m : mem) (o : Z) : option mbr_part_t :=
  r ← memcpy (replicate 16 0) 0 m o 16;
  t ← ld r 4; a ← ld32 r 8; l ← ld32 r 12; Some (mk_mbr t a l).

Definition sizeof_gpt_hdr : Z := 92.
Definition read_gpt_hdr (m : mem) (o : Z) : option gpt_hdr_t :=
  r ← memcpy (replicate 92 0) 0 m o sizeof_gpt_hdr;
  hs ← ld32 r 12; el ← ld64 r 72; ne ← ld32 r 80; es ← ld32 r 84;
  Some (mk_gpt_hdr hs el ne es).

Definition sizeof_gpt_entry : Z := 128.
Definition read_gpt_entry (m : mem) (o : Z) : option gpt_entry_t :=
  r ← memcpy (replicate 128 0) 0 m o sizeof_gpt_entry;
  f ← ld64 r 32; l ← ld64 r 40; Some (mk_gpt_entry (slice 0 16 r) f l).

Fixpoint all_zero_loop (n : nat) (p : mem) (i : Z) : option bool :=
  match n with
  | O => Some true
  | S n => b ← ld p i; if negb (b =? 0) then Some false else all_zero_loop n p (i + 1)
  end.
Definition all_zero16 (p : mem) : option bool := all_zero_loop 16 p 0.

Fixpoint mem_eq_loop (k : nat) (x y : mem) (i : Z) : option bool :=
  match k with
  | O => Some true
  | S k => a ← ld x i; b ← ld y i;
           if negb (a =? b) then Some false else mem_eq_loop k x y (i + 1)
  end.
Definition mem_eq (x y : mem) (n : Z) : option bool := mem_eq_loop (Z.to_nat n) x y 0.

Definition mbr_type_extended (t : Z) : bool :=
  (t =? MBR_TYPE_EXTENDED) || (t =? MBR_TYPE_EXTENDED_LBA) || (t =? MBR_TYPE_EXTENDED_WIN).

Definition zero_sec : mem := replicate 512 0.

Section Part.
Context {D : Type} `{DD : DiskDriver D}.

(** ** Byte ranges of a device *)

(** The sector a write stores: the caller's 512 bytes, or the sector as it is
    with the caller's [chunk] bytes over it. *)
Definition write_sec (bd : Z) (lba soff chunk : Z) (buf : mem) (done : Z) (s : blk D) : option mem :=
  if (soff =? 0) && (chunk =? 512) then memcpy zero_sec 0 buf done 512
  else
    sec ← memset zero_sec 0 0 512;
    '(sec, r) ← blkdev_read (Some bd) lba sec s;
    sec ← (if negb (r =? 0) then memset sec 0 0 512 else Some sec);
    memcpy sec soff buf done chunk.

(** The loop of [part_rw]; every iteration but the first covers a whole
    sector or the rest of the request. *)
Fixpoint part_rw_loop (fuel : nat) (bd first i soff done size : Z) (wr : bool) (buf : mem)
    (s : blk D) : option (blk D * mem * Z) :=
  match fuel with
  | O => None
  | S fuel =>
      if negb (done <? size) then Some (s, buf, done)
      else
        let lba := u32 (first + i) in
        let want := u32 (size - done) in
        let avail := u32 (512 - soff) in
        let chunk := if want <? avail then want else avail in
        if wr then
          sec ← write_sec bd lba soff chunk buf done s;
          '(s', r) ← blkdev_write (Some bd) lba sec s;
          if negb (r =? 0) then Some (s', buf, done)
          else part_rw_loop fuel bd first (u32 (i + 1)) 0 (u32 (done + chunk)) size wr buf s'
        else
          sec ← memset zero_sec 0 0 512;
          '(sec, r) ← blkdev_read (Some bd) lba sec s;
          if negb (r =? 0) then Some (s, buf, done)
          else
            buf' ← memcpy buf done sec soff chunk;
            part_rw_loop fuel bd first (u32 (i + 1)) 0 (u32 (done + chunk)) size wr buf' s
  end.

Definition part_fuel (size : Z) : nat := Z.to_nat (size / 512 + 3).

Definition part_rw (bd : option Z) (off size : Z) (buf : option mem) (wr : bool) (s : blk D)
  : option (blk D * option mem * Z) :=
  match bd, buf with
  | Some bd, Some buf =>
      if size =? 0 then Some (s, Some buf, 0)
      else
        '(s', buf', done) ← part_rw_loop (part_fuel size) bd (off / 512) 0 (off mod 512) 0 size wr buf s;
        Some (s', Some buf', i32 done)
  | _, _ => Some (s, buf, -1)
  end.

Definition part_node_read (priv : option Z) (off size : Z) (buf : option mem) (s : blk D) :=
  part_rw priv off size buf false s.

Definition part_node_write (priv : option Z) (off size : Z) (buf : option mem) (s : blk D) :=
  part_rw priv off size buf true s.

(** ** The status text *)

(** The literal pieces of [part_node_status]. *)
Definition txt_device : mem := [100; 101; 118; 105; 99; 101; 58; 32].
Definition txt_type : mem :=
  [10; 116; 121; 112; 101; 58; 32; 112; 97; 114; 116; 105; 116; 105; 111; 110; 10].
Definition txt_disk : mem := [100; 105; 115; 107; 58; 32].
Definition txt_start : mem := [10; 115; 116; 97; 114; 116; 95; 108; 98; 97; 58; 32].
Definition txt_size : mem := [10; 115; 105; 122; 101; 95; 108; 98; 97; 58; 32].
Definition txt_table : mem := [10; 116; 97; 98; 108; 101; 58; 32].
Definition txt_gpt : mem := [103; 112; 116].
Definition txt_mbr : mem := [109; 98; 114].
Definition txt_none : mem := [110; 111; 110; 101].

(** [for (; *p && n < 255; p++) tmp[n++] = *p] over the string in [m]. *)
Definition put_str (m : mem) (r : mem * Z) : option (mem * Z) :=
  l ← strlen m; put_chars (slice 0 l m) (snd r) 256 (fst r).

Definition part_node_status (priv : option Z) (buf : mem) (size : Z) (s : blk D)
  : option (mem * Z) :=
  match priv with
  | None => Some (buf, 0)
  | Some bd =>
      d ← ld (devices s) bd;
      r ← put_str (txt_device ++ [0]) (replicate 256 0, 0);
      r ← put_str (d_name d) r;
      r ← put_str (txt_type ++ [0]) r;
      r ← put_str (txt_disk ++ [0]) r;
      r ← match d_parent d with
          | Some p => dp ← ld (devices s) p; put_str (d_name dp) r
          | None => Some r
          end;
      r ← put_str (txt_start ++ [0]) r;
      '(nb, _) ← snprintf (replicate 16 0) 16 fmt_u [VInt (d_start_lba d)];
      r ← put_str nb r;
      r ← put_str (txt_size ++ [0]) r;
      '(nb, _) ← snprintf (replicate 16 0) 16 fmt_u [VInt (d_max_lba d)];
      r ← put_str nb r;
      r ← put_str (txt_table ++ [0]) r;
      r ← put_str ((if d_table d =? PART_TABLE_GPT then txt_gpt
                    else if d_table d =? PART_TABLE_MBR then txt_mbr else txt_none) ++ [0]) r;
      '(tmp, n) ← (if snd r <? 255 then tmp ← st (fst r) (snd r) 10; Some (tmp, snd r + 1)
                   else Some r : option (mem * Z));
      tmp ← st tmp n 0;
      let n := if size <? n then i32 size else n in
      buf' ← memcpy buf 0 tmp 0 n; Some (buf', n)
  end.

(** ** Registration *)

(** The partition layer's world: the device table, devfs (a node of
    [drv_blkpart] carries its slot, other nodes are [None]), and the outcomes
    of the next [kmalloc] calls, which succeed once the list is used up. *)
Record parts := mk_parts { p_blk : blk D; p_dev : devlist (option Z); p_heap : list bool }.

Definition set_blk (b : blk D) (s : parts) : parts := mk_parts b (p_dev s) (p_heap s).
Definition kmalloc_ok (s : parts) : bool * parts :=
  match p_heap s with
  | [] => (true, s)
  | b :: h => (b, mk_parts (p_blk s) (p_dev s) h)
  end.

(** [d] stored in slot [i] of the table. *)
Definition put_dev (i : Z) (d : blkdev_t) (b : blk D) : option (blk D) :=
  ds ← st (devices b) i d; Some (mk_blk ds (dev_used b) (dev_count b) (boot_dev b) (medium b)).

Definition with_registered (v : Z) (d : blkdev_t) : blkdev_t :=
  mk_blkdev (d_name d) (d_id d) (d_max_lba d) (d_parent d) (d_start_lba d) (d_part_no d)
    (d_table d) (d_ptype d) v (d_read_sector d) (d_write_sector d).
Definition with_table (v : Z) (d : blkdev_t) : blkdev_t :=
  mk_blkdev (d_name d) (d_id d) (d_max_lba d) (d_parent d) (d_start_lba d) (d_part_no d)
    v (d_ptype d) (d_devfs_registered d) (d_read_sector d) (d_write_sector d).

Definition part_devfs_add (p : Z) (s : parts) : option parts :=
  d ← ld (devices (p_blk s)) p;
  if negb (d_devfs_registered d =? 0) then Some s
  else
    let '(ok, s) := kmalloc_ok s in
    '(l, r) ← register_chrdev ok (Some (d_name d)) DEVFS_F_BLOCK (Some (Some p)) (p_dev s);
    b ← (if r : bool then put_dev p (with_registered 1 d) (p_blk s) else Some (p_blk s));
    Some (mk_parts b l (p_heap s)).

Definition part_devfs_remove (p : Z) (s : parts) : option parts :=
  d ← ld (devices (p_blk s)) p;
  if d_devfs_registered d =? 0 then Some s
  else
    '(l, _) ← unregister_chrdev (d_name d) (p_dev s);
    b ← put_dev p (with_registered 0 d) (p_blk s);
    Some (mk_parts b l (p_heap s)).

(** [for (int i = 0; i < blkdev_part_count(disk); i++)]: at most
    [BLKDEV_SLOTS] devices can be partitions of the disk. *)
Fixpoint drop_loop (fuel : nat) (disk i : Z) (s : parts) : option parts :=
  match fuel with
  | O => None
  | S fuel =>
      n ← blkdev_part_count (Some disk) (p_blk s);
      if negb (i <? n) then Some s
      else
        p ← blkdev_part_at (Some disk) i (p_blk s);
        s' ← match p with Some p => part_devfs_remove p s | None => Some s end;
        drop_loop fuel disk (i + 1) s'
  end.

Definition part_drop_disk (disk : option Z) (s : parts) : option (parts * Z) :=
  match disk with
  | None => Some (s, -1)
  | Some disk =>
      s1 ← drop_loop (S slots) disk 0 s;
      '(b, _) ← blkdev_clear_partitions (Some disk) (p_blk s1);
      Some (set_blk b s1, 0)
  end.

Definition part_create (disk part_no start_lba len_lba ptype table : Z) (s : parts)
  : option (parts * option Z) :=
  if (4294967295 <? start_lba) || (4294967295 <? len_lba) then Some (s, None)
  else
    '(b, p) ← blkdev_add_partition (Some disk) part_no (u32 start_lba) (u32 len_lba) ptype table (p_blk s);
    match p with
    | None => Some (set_blk b s, None)
    | Some p => s' ← part_devfs_add p (set_blk b s); Some (s', Some p)
    end.

(** ** Labels *)

(** [if (p) n++] *)
Definition count_new (p : option Z) (n : Z) : Z := match p with Some _ => n + 1 | None => n end.

Fixpoint mbr_loop (k : nat) (disk : Z) (lba0 : mem) (i n : Z) (s : parts) : option (parts * Z) :=
  match k with
  | O => Some (s, n)
  | S k =>
      pe ← read_mbr lba0 (MBR_PTABLE_OFF + i * MBR_PART_SIZE);
      if (mb_type pe =? 0) || (mb_lba_start pe =? 0) || (mb_lba_len pe =? 0)
      then mbr_loop k disk lba0 (i + 1) n s
      else if mbr_type_extended (mb_type pe) || (mb_type pe =? MBR_TYPE_GPT_PROT)
      then mbr_loop k disk lba0 (i + 1) n s
      else
        '(s', p) ← part_create disk (u32 (i + 1)) (mb_lba_start pe) (mb_lba_len pe) (mb_type pe)
                               PART_TABLE_MBR s;
        mbr_loop k disk lba0 (i + 1) (count_new p n) s'
  end.

Definition part_parse_mbr (disk : Z) (lba0 : mem) (s : parts) : option (parts * Z) :=
  mbr_loop (Z.to_nat MBR_NPARTS) disk lba0 0 0 s.

(** The reads of the entry array; a sector yields 512 bytes or the rest. *)
Fixpoint gpt_read_loop (fuel : nat) (disk cur have need : Z) (buf : mem) (b : blk D) : option mem :=
  match fuel with
  | O => None
  | S fuel =>
      d ← ld (devices b) disk;
      if negb ((have <? need) && (cur <? d_max_lba d)) then Some buf
      else
        sec ← memset zero_sec 0 0 512;
        '(sec, r) ← blkdev_read (Some disk) cur sec b;
        if negb (r =? 0) then Some buf
        else
          let take := u32 (need - have) in
          let take := if 512 <? take then 512 else take in
          buf' ← memcpy buf have sec 0 take;
          gpt_read_loop fuel disk (u32 (cur + 1)) (u32 (have + take)) need buf' b
  end.

Fixpoint gpt_loop (k : nat) (disk entry_size : Z) (buf : mem) (i n : Z) (s : parts)
  : option (parts * Z) :=
  match k with
  | O => Some (s, n)
  | S k =>
      ge ← read_gpt_entry buf (u32 (i * entry_size));
      z ← all_zero16 (ge_type_guid ge);
      if z : bool then gpt_loop k disk entry_size buf (i + 1) n s
      else if (ge_first_lba ge =? 0) || (ge_last_lba ge <? ge_first_lba ge)
      then gpt_loop k disk entry_size buf (i + 1) n s
      else
        '(s', p) ← part_create disk (u32 (i + 1)) (ge_first_lba ge)
                     (u64 (ge_last_lba ge - ge_first_lba ge + 1)) 0 PART_TABLE_GPT s;
        gpt_loop k disk entry_size buf (i + 1) (count_new p n) s'
  end.

(** The checks of [part_parse_gpt] on the header. *)
Definition gpt_hdr_bad (h : gpt_hdr_t) : bool :=
  (gh_header_size h <? sizeof_gpt_hdr) || (512 <? gh_header_size h) ||
  (gh_num_entries h =? 0) || (128 <? gh_num_entries h) ||
  (gh_entry_size h =? 0) || (512 <? gh_entry_size h) ||
  (4294967295 <? gh_entries_lba h) || (gh_entries_lba h =? 0).

Definition gpt_count (h : gpt_hdr_t) : Z :=
  if BLKDEV_PARTS_PER_DISK <? gh_num_entries h then BLKDEV_PARTS_PER_DISK else gh_num_entries h.

(** The result is [found]: 0 on every early return. *)
Definition part_parse_gpt (disk : Z) (lba1 : mem) (s : parts) : option (parts * Z) :=
  hdr ← read_gpt_hdr lba1 0;
  if gpt_hdr_bad hdr then Some (s, 0)
  else
    let count := gpt_count hdr in
    let '(ok, s) := kmalloc_ok s in
    if negb ok then Some (s, 0)
    else
      let need := u32 (count * gh_entry_size hdr) in
      buf ← memset (replicate (Z.to_nat need) 0) 0 0 need;
      buf ← gpt_read_loop 18 disk (u32 (gh_entries_lba hdr)) 0 need buf (p_blk s);
      gpt_loop (Z.to_nat count) disk (gh_entry_size hdr) buf 0 0 s.

(** ** Scans *)

Definition set_table (disk v : Z) (s : parts) : option parts :=
  d ← ld (devices (p_blk s)) disk; b ← put_dev disk (with_table v d) (p_blk s); Some (set_blk b s).

(** The messages the scan prints are not modelled. *)
Definition part_scan_disk (disk : option Z) (s : parts) : option (parts * Z) :=
  match disk with
  | None => Some (s, -1)
  | Some disk =>
      d ← ld (devices (p_blk s)) disk;
      if negb (bool_decide (d_parent d = None)) then Some (s, -1)
      else if d_max_lba d <? 2 then Some (s, 0)
      else
        '(s, _) ← part_drop_disk (Some disk) s;
        lba0 ← memset zero_sec 0 0 512;
        lba1 ← memset zero_sec 0 0 512;
        '(lba0, r) ← blkdev_read (Some disk) 0 lba0 (p_blk s);
        if negb (r =? 0) then Some (s, -2)
        else
          '(lba1, r) ← blkdev_read (Some disk) 1 lba1 (p_blk s);
          if negb (r =? 0) then Some (s, -2)
          else
            s ← set_table disk PART_TABLE_NONE s;
            gpt ← mem_eq lba1 GPT_SIGNATURE 8;
            if gpt : bool then
              '(s, found) ← part_parse_gpt disk lba1 s;
              s ← set_table disk PART_TABLE_GPT s; Some (s, found)
            else
              b510 ← ld lba0 510; b511 ← ld lba0 511;
              if (b510 =? 85) && (b511 =? 170) then
                '(s, found) ← part_parse_mbr disk lba0 s;
                s ← set_table disk PART_TABLE_MBR s; Some (s, found)
              else Some (s, 0)
  end.

Fixpoint scan_all_loop (n : nat) (i total : Z) (s : parts) : option (parts * Z) :=
  match n with
  | O => Some (s, total)
  | S n =>
      d ← blkdev_by_id (u32 i) (p_blk s);
      match d with
      | None => scan_all_loop n (i + 1) total s
      | Some j =>
          d ← ld (devices (p_blk s)) j;
          if negb (bool_decide (d_parent d = None)) then scan_all_loop n (i + 1) total s
          else
            '(s', r) ← part_scan_disk (Some j) s;
            scan_all_loop n (i + 1) (if 0 <? r then i32 (total + r) else total) s'
      end
  end.

Definition part_scan_all (s : parts) : option (parts * Z) := scan_all_loop slots 0 0 s.

Definition part_rescan (name : option mem) (s : parts) : option (parts * Z) :=
  match name with
  | None => Some (s, -1)
  | Some name =>
      f ← blkdev_find name (p_blk s);
      match f with
      | None => Some (s, -1)
      | Some j =>
          d ← ld (devices (p_blk s)) j;
          if negb (bool_decide (d_parent d = None)) then Some (s, -1)
          else part_scan_disk (Some j) s
      end
  end.

(** The hook [part_probe_init] installs. *)
Definition part_auto_scan (disk : Z) (s : parts) : option parts :=
  '(s', _) ← part_scan_disk (Some disk) s; Some s'.
End Part.
Arguments parts D : clear implicits.

(** ** A device is an array of bytes *)

Section Bytes.
Context {D : Type} {DD : DiskDriver D} (same_medium : Z -> Z -> Prop)
  {DL : DiskDriverLaws D same_medium}.
Implicit Types s : blk D.

(** Byte [x] of device [d] on disk [dd]. *)
Definition dev_ld s (d dd : blkdev_t) (x : Z) : option Z :=
  ld (sec_read (medium s) (d_read_sector dd) (base_of d + x / 512)) (x mod 512).

(** How much of a request of [size] bytes at [off] the device has. *)
Definition in_device (d : blkdev_t) (off size : Z) : Z :=
  Z.min size (Z.max 0 (512 * d_max_lba d - off)).

Lemma zero_sec_len : zlen zero_sec = 512.
Proof. done. Qed.

Lemma memset_zero_sec : memset zero_sec 0 0 512 = Some zero_sec.
Proof. vm_compute. reflexivity. Qed.

Lemma splice_all (l m : mem) : zlen l = zlen m -> splice 0 l m = l.
Proof.
  intros H. rewrite splice_0. rewrite drop_ge by (unfold zlen in H; lia). apply app_nil_r.
Qed.

(** Where an iteration of the loop stands: sector [first + i], offset [soff]. *)
Definition rw_pos (off first i soff done size : Z) : Prop :=
  is_u32 off /\ is_u32 size /\ 0 <= done <= size /\ 0 <= i /\ 0 <= soff < 512 /\
  0 <= first <= 2 ^ 23 /\ i <= 2 ^ 24 /\
  (done < size -> 512 * (first + i) + soff = off + done).

Lemma rw_pos_step off first i soff done size chunk :
  rw_pos off first i soff done size -> done < size ->
  chunk = Z.min (size - done) (512 - soff) ->
  u32 (first + i) = (off + done) / 512 /\ soff = (off + done) mod 512 /\
  u32 (size - done) = size - done /\ u32 (512 - soff) = 512 - soff /\
  u32 (done + chunk) = done + chunk /\ u32 (i + 1) = i + 1 /\ 0 < chunk <= 512 /\
  rw_pos off first (i + 1) 0 (done + chunk) size.
Proof.
  intros (Ho & Hz & Hd & Hi & Hs & Hf & Hi2 & Heq) Hlt ->. specialize (Heq Hlt).
  set (chunk := Z.min (size - done) (512 - soff)).
  assert (Hc : 0 < chunk <= 512) by lia.
  unfold rw_pos, is_u32 in *. change (2 ^ 23) with 8388608 in *. change (2 ^ 24) with 16777216 in *.
  change (2 ^ 32) with 4294967296 in *.
  rewrite !u32_small by (unfold is_u32; lia).
  split; [Z.to_euclidean_division_equations; lia|].
  split; [Z.to_euclidean_division_equations; lia|]. repeat (split; [lia|]). lia.
Qed.

Lemma chunk_min want avail : (if want <? avail then want else avail) = Z.min want avail.
Proof. case_if; b2p; lia. Qed.

Lemma read_loop_ok (fuel : nat) s bd d dd off first i soff done size buf :
  tab_inv s -> used s bd -> ld (devices s) bd = Some d -> disk_of s d = Some dd ->
  rw_pos off first i soff done size -> soff + (size - done) <= 512 * (Z.of_nat fuel - 1) ->
  (0 < fuel)%nat -> done <= in_device d off size -> size <= zlen buf ->
  exists buf', part_rw_loop fuel bd first i soff done size false buf s =
      Some (s, buf', in_device d off size) /\ zlen buf' = zlen buf /\
    forall k, ld buf' k = if (done <=? k) && (k <? in_device d off size)
                          then dev_ld s d dd (off + k) else ld buf k.
Proof.
  intros Ht Hu Hd Hdd. revert i soff done buf.
  induction fuel as [|fuel IH]; intros i soff done buf Hpos Hfuel Hf0 Hin Hbuf; [lia|].
  cbn [part_rw_loop]. destruct (done <? size) eqn:E; cbn [negb]; b2p.
  2: { replace (in_device d off size) with done by (unfold in_device in *; lia).
       exists buf. split; [done|]. split; [done|]. intros k. case_if; [lia|done]. }
  destruct (rw_pos_step _ _ _ _ _ _ _ Hpos E eq_refl) as (-> & Hs & -> & -> & Hdc & -> & Hc & Hpos').
  rewrite chunk_min. set (chunk := Z.min (size - done) (512 - soff)) in *. rewrite Hdc.
  rewrite memset_zero_sec. ob.
  destruct Hpos as (Ho & Hz & Hd0 & _ & Hso & _ & _ & _). unfold is_u32 in *.
  rewrite (read_ok s bd d dd) by (done || (apply Z.div_pos; lia) || (intros; apply sec_read_bytes)).
  destruct ((off + done) / 512 <? d_max_lba d) eqn:E2; ob; cbn [negb Z.eqb]; b2p.
  2: { replace (in_device d off size) with done
         by (unfold in_device in *; Z.to_euclidean_division_equations; lia).
       exists buf. split; [done|]. split; [done|]. intros k. case_if; [lia|done]. }
  set (sec := sec_read _ _ _). destruct (sec_read_bytes (medium s) (d_read_sector dd)
    (base_of d + (off + done) / 512)) as [Hsl _]. fold sec in Hsl. unfold SECTOR in Hsl.
  rewrite (splice_all sec) by (by rewrite zero_sec_len).
  rewrite memcpy_ok by lia. ob.
  assert (Hsz : zlen (slice soff chunk sec) = chunk) by (apply zlen_slice; lia).
  assert (Hin' : done + chunk <= in_device d off size).
  { unfold in_device. Z.to_euclidean_division_equations; lia. }
  destruct (IH (i + 1) 0 (done + chunk) (splice done (slice soff chunk sec) buf))
    as (buf' & He & Hl & Hk); [done|lia|lia|lia|rewrite zlen_splice; lia|].
  exists buf'. split; [done|]. split; [rewrite Hl; apply zlen_splice; lia|].
  intros k. rewrite Hk.
  destruct ((done + chunk <=? k) && (k <? in_device d off size)) eqn:E3; b2p.
  { destruct ((done <=? k) && (k <? in_device d off size)) eqn:E4; [done|]. lia. }
  destruct (decide (done <= k < done + chunk)).
  - replace ((done <=? k) && (k <? in_device d off size)) with true by lia.
    rewrite ld_splice_in by lia. rewrite ld_slice by lia. unfold dev_ld, sec.
    f_equal; [f_equal; f_equal|]; Z.to_euclidean_division_equations; lia.
  - replace ((done <=? k) && (k <? in_device d off size)) with false by lia.
    rewrite ld_splice_out by lia. done.
Qed.

Lemma write_sec_ok s bd d dd lba soff chunk buf done :
  tab_inv s -> used s bd -> ld (devices s) bd = Some d -> disk_of s d = Some dd -> 0 <= lba ->
  0 <= soff -> 0 < chunk -> soff + chunk <= 512 -> 0 <= done -> done + chunk <= zlen buf ->
  exists sec, write_sec bd lba soff chunk buf done s = Some sec /\ zlen sec = 512 /\
    (lba < d_max_lba d -> sec = splice soff (slice done chunk buf)
       (sec_read (medium s) (d_read_sector dd) (base_of d + lba))).
Proof.
  intros Ht Hu Hd Hdd Hl Hs Hc Hsc Hdn Hbuf. unfold write_sec.
  destruct (sec_read_bytes (medium s) (d_read_sector dd) (base_of d + lba)) as [Hsl _].
  unfold SECTOR in Hsl. set (old := sec_read _ _ _) in *.
  assert (Hz : zlen (slice done chunk buf) = chunk) by (apply zlen_slice; lia).
  pose proof zero_sec_len as Hzs. case_if; b2p.
  - subst soff chunk. rewrite memcpy_ok by lia.
    rewrite splice_all by lia. eexists. split; [done|]. split; [done|]. intros _.
    by rewrite splice_all by lia.
  - rewrite memset_zero_sec. ob.
    rewrite (read_ok s bd d dd) by (done || (intros; apply sec_read_bytes)). fold old.
    destruct (lba <? d_max_lba d) eqn:E; ob; cbn [negb Z.eqb].
    + rewrite splice_all by lia. ob. rewrite memcpy_ok by lia.
      eexists. split; [done|]. split; [|done]. rewrite zlen_splice; lia.
    + b2p. change (negb (-1 =? 0)) with true. cbv iota. rewrite memset_zero_sec. ob.
      rewrite memcpy_ok by lia. eexists. split; [done|].
      split; [rewrite zlen_splice; lia|]. lia.
Qed.

(** The sectors of disk [dd] outside device [d], and of other media, are the same. *)
Definition outside_same s s' (d dd : blkdev_t) : Prop :=
  forall r l, ~ (same_medium r (d_write_sector dd) /\ base_of d <= l < base_of d + d_max_lba d) ->
    sec_read (medium s') r l = sec_read (medium s) r l.

(** One sector written. *)
Lemma write_step_ok s d dd x soff chunk buf done sec :
  same_medium (d_read_sector dd) (d_write_sector dd) -> bytes buf -> 0 <= done -> 0 <= x ->
  soff = x mod 512 -> 0 < chunk -> soff + chunk <= 512 -> done + chunk <= zlen buf ->
  x / 512 < d_max_lba d ->
  sec = splice soff (slice done chunk buf)
          (sec_read (medium s) (d_read_sector dd) (base_of d + x / 512)) ->
  let s' := set_medium (sec_write (medium s) (d_write_sector dd) (base_of d + x / 512)
                          (slice 0 SECTOR sec)) s in
  outside_same s s' d dd /\
  forall y, 0 <= y -> dev_ld s' d dd y =
    if (x <=? y) && (y <? x + chunk) then ld buf (done + y - x) else dev_ld s d dd y.
Proof.
  intros Hsm Hbb Hdn Hx Hso Hc Hsc Hbuf Hmax -> s'.
  pose proof (Z.mod_pos_bound x 512 ltac:(lia)) as Hmb.
  destruct (sec_read_bytes (medium s) (d_read_sector dd) (base_of d + x / 512)) as [Hsl Hby].
  unfold SECTOR in Hsl. set (old := sec_read _ _ _) in *.
  assert (Hz : zlen (slice done chunk buf) = chunk) by (apply zlen_slice; lia).
  set (sec := splice soff (slice done chunk buf) old) in *.
  assert (Hl : zlen sec = SECTOR) by (unfold sec, SECTOR; rewrite zlen_splice; lia).
  assert (Hb : bytes sec).
  { apply bytes_splice; [by apply bytes_slice|done]. }
  assert (Hs' : medium s' = sec_write (medium s) (d_write_sector dd) (base_of d + x / 512) sec).
  { cbn [s' set_medium medium]. by rewrite <- Hl, slice_full. }
  clearbody s'. pose proof (Z.div_pos x 512 Hx ltac:(lia)) as Hq. split.
  - intros r l Hn. rewrite Hs'. destruct (decide (l = base_of d + x / 512)) as [->|].
    + apply sec_read_medium. intros ?. apply Hn. split; [done|lia].
    + apply sec_read_other. done.
  - intros y Hy. unfold dev_ld. rewrite Hs'. destruct (decide (y / 512 = x / 512)) as [E|E].
    + rewrite E, sec_read_write by done. fold old.
      case_if; b2p.
      * unfold sec. rewrite ld_splice_in by (Z.to_euclidean_division_equations; lia).
        rewrite ld_slice by (Z.to_euclidean_division_equations; lia).
        f_equal. Z.to_euclidean_division_equations; lia.
      * unfold sec. apply ld_splice_out; [lia|lia|]. rewrite Hz.
        intros ?. apply andb_false_iff in Hif as [?|?]; b2p; Z.to_euclidean_division_equations; lia.
    + rewrite sec_read_other by lia. case_if; b2p; [|done].
      Z.to_euclidean_division_equations; lia.
Qed.

Lemma write_loop_ok (fuel : nat) s bd d dd off first i soff done size buf :
  tab_inv s -> used s bd -> ld (devices s) bd = Some d -> disk_of s d = Some dd ->
  same_medium (d_read_sector dd) (d_write_sector dd) -> bytes buf ->
  rw_pos off first i soff done size -> soff + (size - done) <= 512 * (Z.of_nat fuel - 1) ->
  (0 < fuel)%nat -> done <= in_device d off size -> size <= zlen buf ->
  exists m, let s' := set_medium m s in
    part_rw_loop fuel bd first i soff done size true buf s = Some (s', buf, in_device d off size) /\
    outside_same s s' d dd /\
    forall y, 0 <= y -> dev_ld s' d dd y =
      if (off + done <=? y) && (y <? off + in_device d off size) then ld buf (y - off)
      else dev_ld s d dd y.
Proof.
  intros Ht Hu Hd Hdd Hsm Hbb. revert s Ht Hu Hd Hdd i soff done.
  induction fuel as [|fuel IH]; intros s Ht Hu Hd Hdd i soff done Hpos Hfuel Hf0 Hin Hbuf; [lia|].
  assert (Hstop : in_device d off size = done -> exists m, let s' := set_medium m s in
    Some (s, buf, done) = Some (s', buf, in_device d off size) /\ outside_same s s' d dd /\
    forall y, 0 <= y -> dev_ld s' d dd y =
      if (off + done <=? y) && (y <? off + in_device d off size) then ld buf (y - off)
      else dev_ld s d dd y).
  { intros ->. exists (medium s). cbv zeta. replace (set_medium (medium s) s) with s by (by destruct s).
    split; [done|]. split; [done|]. intros y Hy. case_if; [lia|done]. }
  cbn [part_rw_loop]. destruct (done <? size) eqn:E; cbn [negb]; b2p.
  2: { apply Hstop. unfold in_device in *. lia. }
  destruct (rw_pos_step _ _ _ _ _ _ _ Hpos E eq_refl) as (-> & Hs & -> & -> & Hdc & -> & Hc & Hpos').
  rewrite chunk_min. set (chunk := Z.min (size - done) (512 - soff)) in *. rewrite Hdc.
  destruct Hpos as (Ho & Hz & Hd0 & _ & Hso & _ & _ & _). unfold is_u32 in *.
  assert (Hq : 0 <= (off + done) / 512) by (apply Z.div_pos; lia).
  destruct (write_sec_ok s bd d dd ((off + done) / 512) soff chunk buf done)
    as (sec & -> & Hsl & Hsec); [done || lia..|]. ob.
  rewrite (write_ok s bd d dd) by (done || (unfold SECTOR; lia)).
  destruct ((off + done) / 512 <? d_max_lba d) eqn:E2; ob; b2p.
  2: { change (negb (-1 =? 0)) with true. cbv iota. apply Hstop.
       unfold in_device in *. Z.to_euclidean_division_equations; lia. }
  cbn [negb Z.eqb].
  destruct (write_step_ok s d dd (off + done) soff chunk buf done sec)
    as [Hout Hbyte]; [done || lia..|by apply Hsec|].
  set (s1 := set_medium _ s) in *.
  assert (Hin' : done + chunk <= in_device d off size).
  { unfold in_device. Z.to_euclidean_division_equations; lia. }
  destruct (IH s1 Ht Hu Hd Hdd (i + 1) 0 (done + chunk)) as (m & He & Hout' & Hbyte');
    [done|lia|lia|lia|lia|].
  exists m. cbv zeta. split; [rewrite He; done|]. split.
  { intros r l Hn. rewrite <- (Hout r l Hn). by apply Hout'. }
  intros y Hy. change (set_medium m s) with (set_medium m s1). rewrite Hbyte', Hbyte by done.
  destruct ((off + (done + chunk) <=? y) && (y <? off + in_device d off size)) eqn:E3;
    destruct ((off + done <=? y) && (y <? off + done + chunk)) eqn:E4;
    destruct ((off + done <=? y) && (y <? off + in_device d off size)) eqn:E5;
    try done; try lia. f_equal. lia.
Qed.

Lemma rw_start off size :
  is_u32 off -> is_u32 size -> rw_pos off (off / 512) 0 (off mod 512) 0 size /\
  off mod 512 + (size - 0) <= 512 * (Z.of_nat (part_fuel size) - 1) /\ (0 < part_fuel size)%nat.
Proof.
  intros Ho Hs. unfold rw_pos, part_fuel, is_u32 in *. change (2 ^ 32) with 4294967296 in *.
  change (2 ^ 23) with 8388608. change (2 ^ 24) with 16777216.
  pose proof (Z.div_pos size 512 ltac:(lia) ltac:(lia)).
  rewrite Z2Nat.id by lia. pose proof (Z.mod_pos_bound off 512 ltac:(lia)).
  split; [|split; [Z.to_euclidean_division_equations; lia|lia]].
  repeat (split; [lia || (Z.to_euclidean_division_equations; lia)|]).
  Z.to_euclidean_division_equations; lia.
Qed.

(** A partition node reads a flat array of bytes.  A read of [size] bytes
    at byte offset [off] of a registered device ends, returns the number of
    bytes that lie inside the device, stores exactly those bytes in the
    caller's buffer, leaves the rest of the buffer alone and does not change
    any device, whatever the alignment of the range. *)
Theorem part_read_bytes s bd d dd off size buf :
  tab_inv s -> used s bd -> ld (devices s) bd = Some d -> disk_of s d = Some dd ->
  is_u32 off -> 0 <= size < 2 ^ 31 -> size <= zlen buf ->
  exists buf', part_node_read (Some bd) off size (Some buf) s =
      Some (s, Some buf', in_device d off size) /\ zlen buf' = zlen buf /\
    forall k, ld buf' k = if (0 <=? k) && (k <? in_device d off size)
                          then dev_ld s d dd (off + k) else ld buf k.
Proof.
  intros Ht Hu Hd Hdd Ho Hs Hb. unfold part_node_read, part_rw. case_if; b2p.
  { exists buf. subst size. replace (in_device d off 0) with 0 by (unfold in_device; lia).
    repeat (split; [done|]). intros k. case_if; [lia|done]. }
  destruct (rw_start off size) as (Hp & Hf & Hf0); [done|word_lia|].
  destruct (read_loop_ok _ s bd d dd off _ _ _ _ size buf Ht Hu Hd Hdd Hp Hf Hf0)
    as (buf' & -> & Hl & Hk); [unfold in_device; lia|done|]. ob.
  exists buf'. rewrite i32_small by (unfold in_device; word_lia). done.
Qed.

(** C15: a partition node writes a flat array of bytes.  A write at any byte
    range of a registered device ends, returns the number of bytes that lie
    inside the device, changes exactly those bytes of it to the caller's
    (partial sectors keep their other bytes), and changes no sector outside
    the device and no other medium. *)
Theorem part_write_bytes s bd d dd off size buf :
  tab_inv s -> used s bd -> ld (devices s) bd = Some d -> disk_of s d = Some dd ->
  same_medium (d_read_sector dd) (d_write_sector dd) -> bytes buf ->
  is_u32 off -> 0 <= size < 2 ^ 31 -> size <= zlen buf ->
  exists m, let s' := set_medium m s in
    part_node_write (Some bd) off size (Some buf) s =
      Some (s', Some buf, in_device d off size) /\ outside_same s s' d dd /\
    forall y, 0 <= y -> dev_ld s' d dd y =
      if (off <=? y) && (y <? off + in_device d off size) then ld buf (y - off)
      else dev_ld s d dd y.
Proof.
  intros Ht Hu Hd Hdd Hsm Hbb Ho Hs Hb. unfold part_node_write, part_rw. case_if; b2p.
  { exists (medium s). subst size. replace (in_device d off 0) with 0 by (unfold in_device; lia).
    cbv zeta. replace (set_medium (medium s) s) with s by (by destruct s).
    repeat (split; [done|]). intros y Hy. case_if; [lia|done]. }
  destruct (rw_start off size) as (Hp & Hf & Hf0); [done|word_lia|].
  destruct (write_loop_ok _ s bd d dd off _ _ _ _ size buf Ht Hu Hd Hdd Hsm Hbb Hp Hf Hf0)
    as (m & -> & Hout & Hk); [unfold in_device; lia|done|]. ob.
  exists m. rewrite i32_small by (unfold in_device; word_lia). rewrite Z.add_0_r in Hk. done.
Qed.
End Bytes.

(** ** Registration keeps the table and devfs consistent *)

Section Reg.
Context {D : Type} {DD : DiskDriver D}.
Implicit Types (b : blk D) (s : parts D).

(** Every partition node of devfs belongs to a registered partition of the
    same name. *)
Definition link_inv s : Prop :=
  forall e i, e ∈ p_dev s -> e_drv e = Some i ->
    used (p_blk s) i /\ exists d t, ld (devices (p_blk s)) i = Some d /\ d_parent d <> None /\
      d_devfs_registered d <> 0 /\ cstr (e_name e) t /\ cstr (d_name d) t.

Definition sys_inv s : Prop := blk_inv (p_blk s) /\ devfs_ok (p_dev s) /\ link_inv s.

(** What the invariant of the table looks at. *)
Definition same_geom (d d' : blkdev_t) : Prop :=
  d_name d' = d_name d /\ d_id d' = d_id d /\ d_max_lba d' = d_max_lba d /\
  d_parent d' = d_parent d /\ d_start_lba d' = d_start_lba d /\
  d_read_sector d' = d_read_sector d /\ d_write_sector d' = d_write_sector d.

Lemma put_dev_ok i d d' b :
  blk_inv b -> used b i -> ld (devices b) i = Some d -> same_geom d d' ->
  exists b', put_dev i d' b = Some b' /\ blk_inv b' /\ medium b' = medium b /\
    dev_used b' = dev_used b /\ boot_dev b' = boot_dev b /\
    forall j, ld (devices b') j = if decide (j = i) then Some d' else ld (devices b) j.
Proof.
  intros [(Hl & Hu & Hc & Hdev) Hboot] Hi Hd (Hn & Hid & Hm & Hp & Hst & Hr & Hw). unfold put_dev.
  destruct (st (devices b) i d') as [ds|] eqn:E.
  2: { rewrite st_in in E; [done|]. by apply ld_Some_lt in Hd. }
  ob. eexists. split; [done|]. cbn.
  assert (Hget : forall j, ld ds j = if decide (j = i) then Some d' else ld (devices b) j).
  { intros j. destruct (decide (j = i)) as [->|]; [by apply (ld_st_eq _ _ _ _ E)|].
    by apply (ld_st_ne _ _ _ _ _ E). }
  set (b' := mk_blk _ _ _ _ _).
  assert (Hus : forall j, used b' j <-> used b j) by done.
  split; [|done]. split.
  - split; [cbn; by rewrite (zlen_st _ _ _ _ E)|]. split; [done|]. split; [done|].
    assert (Hold : forall j e, used b j -> ld ds j = Some e ->
      exists e0, ld (devices b) j = Some e0 /\ same_geom e0 e).
    { intros j e Hj. rewrite Hget. destruct (decide (j = i)) as [->|].
      - intros [= <-]. exists d. by repeat split.
      - intros He. exists e. by repeat split. }
    intros j e Hj He. destruct (Hold j e Hj He) as (e0 & He0 & (E1&E2&E3&E4&E5&E6&E7)).
    destruct (Hdev j e0 Hj He0) as (A & B & C & F). unfold dev_ok. rewrite E1, E2, E3, E4, E5, E6, E7.
    repeat (split; [done|]). destruct (d_parent e0) as [p|]; [|done].
    destruct F as (Hup & dp & Hdp & F1 & F2 & F3 & F4). split; [done|].
    cbn. rewrite Hget. destruct (decide (p = i)) as [->|]; [|by exists dp].
    exists d'. split; [done|]. rewrite Hd in Hdp. injection Hdp as <-. by rewrite Hp, Hm.
  - unfold boot_inv in *. cbn. destruct (boot_dev b) as [bt|].
    + destruct Hboot as (Hub & db & Hdb & Hpb). split; [done|]. rewrite Hget.
      destruct (decide (bt = i)) as [->|]; [|by exists db].
      exists d'. split; [done|]. rewrite Hd in Hdb. injection Hdb as <-. by rewrite Hp.
    + intros j e Hj. rewrite Hget. destruct (decide (j = i)) as [->|]; [|by apply Hboot].
      intros [= <-]. rewrite Hp. by apply (Hboot i).
Qed.

(** [b'] differs from [b] only in the flags that say which partitions of
    [disk] have a node. *)
Definition nodes_only (disk : Z) b b' : Prop :=
  dev_used b' = dev_used b /\ medium b' = medium b /\
  forall j d, ld (devices b) j = Some d ->
    ld (devices b') j = Some d \/
    (d_parent d = Some disk /\ exists v, ld (devices b') j = Some (with_registered v d)).

Lemma nodes_only_refl disk b : nodes_only disk b b.
Proof. split; [done|]. split; [done|]. auto. Qed.

Lemma nodes_only_trans disk b1 b2 b3 :
  nodes_only disk b1 b2 -> nodes_only disk b2 b3 -> nodes_only disk b1 b3.
Proof.
  intros (U1 & M1 & H1) (U2 & M2 & H2). split; [by rewrite U2|]. split; [by rewrite M2|].
  intros j d Hd. destruct (H1 j d Hd) as [Hd'|(Hp & v & Hd')].
  - by apply H2.
  - right. split; [done|]. destruct (H2 j _ Hd') as [Hd''|(_ & w & Hd'')]; [by exists v|].
    by exists w.
Qed.

Lemma dev_name s i d :
  sys_inv s -> used (p_blk s) i -> ld (devices (p_blk s)) i = Some d ->
  exists t, cstr (d_name d) t /\ zlen t <= 14.
Proof.
  intros [[(_ & _ & _ & Hdev) _] _] Hi Hd.
  destruct (Hdev i d Hi Hd) as (_ & (_ & t & Hc & Hl & _) & _). eauto.
Qed.
#[local] Hint Resolve nodes_only_refl : core.

Lemma register_flag_ok disk p d v b :
  blk_inv b -> used b p -> ld (devices b) p = Some d -> d_parent d = Some disk ->
  exists b', put_dev p (with_registered v d) b = Some b' /\ blk_inv b' /\
    dev_used b' = dev_used b /\
    (forall j, ld (devices b') j = if decide (j = p) then Some (with_registered v d)
                                   else ld (devices b) j) /\
    nodes_only disk b b'.
Proof.
  intros Hb Hp Hd Hpar.
  destruct (put_dev_ok p d (with_registered v d) b Hb Hp Hd) as (b' & He & Hb' & Hm & Hu & _ & Hget);
    [done|].
  exists b'. split; [done|]. split; [done|]. split; [done|]. split; [done|].
  split; [done|]. split; [done|]. cbn. intros j e Hj. rewrite Hget.
  destruct (decide (j = p)) as [->|]; [|by left]. rewrite Hd in Hj. injection Hj as <-. eauto.
Qed.

Lemma devfs_add_ok disk p d s :
  sys_inv s -> used (p_blk s) p -> ld (devices (p_blk s)) p = Some d -> d_parent d = Some disk ->
  exists s', part_devfs_add p s = Some s' /\ sys_inv s' /\ nodes_only disk (p_blk s) (p_blk s').
Proof.
  intros Hs Hp Hd Hpar. unfold part_devfs_add. rewrite Hd. ob. case_if; [by eauto|]. b2p.
  destruct (dev_name s p d Hs Hp Hd) as (t & Ht & Hlt). destruct Hs as (Hb & Hdv & Hlk).
  unfold kmalloc_ok.
  assert (Hgo : forall ok h, exists s', ('(l, r) ← register_chrdev ok (Some (d_name d)) DEVFS_F_BLOCK
      (Some (Some p)) (p_dev s);
    b ← (if r : bool then put_dev p (with_registered 1 d) (p_blk s) else Some (p_blk s));
    Some (mk_parts b l h)) = Some s' /\ sys_inv s' /\ nodes_only disk (p_blk s) (p_blk s')).
  { intros ok h.
    destruct (register_chrdev_ok ok (d_name d) t DEVFS_F_BLOCK (Some p) (p_dev s) Hdv Ht)
      as (l & r & -> & Hl & Hr); [unfold DEVFS_NAME_LEN; lia|]. ob. destruct r.
    2: { ob. subst l. eexists. split; [done|]. split; [done|auto]. }
    destruct (register_flag_ok disk p d 1 (p_blk s) Hb Hp Hd Hpar) as (b' & -> & Hb' & Hu & Hget & Hno).
    ob. eexists. split; [done|]. split; [|exact Hno]. split; [done|]. split; [done|].
    destruct Hr as (e & -> & Hen & Hed). intros e' i He' Hi. cbn in He'. cbn [p_blk].
    replace (used b' i) with (used (p_blk s) i) by (unfold used; by rewrite Hu). rewrite Hget.
    apply elem_of_cons in He' as [->|He'].
    - rewrite Hed in Hi. injection Hi as <-. split; [done|]. rewrite decide_True by done.
      exists (with_registered 1 d), t. repeat (split; [cbn; congruence|]). done.
    - destruct (Hlk e' i He' Hi) as (Hiu & d' & t' & Hd' & A & B & C). split; [done|].
      rewrite decide_False by (intros ->; congruence). by exists d', t'. }
  destruct (p_heap s); apply Hgo.
Qed.

Lemma devfs_remove_ok disk p d s :
  sys_inv s -> used (p_blk s) p -> ld (devices (p_blk s)) p = Some d -> d_parent d = Some disk ->
  exists s', part_devfs_remove p s = Some s' /\ sys_inv s' /\ nodes_only disk (p_blk s) (p_blk s') /\
    p_dev s' ⊆ p_dev s /\ (forall e, e ∈ p_dev s' -> e_drv e <> Some p).
Proof.
  intros Hs Hp Hd Hpar. unfold part_devfs_remove. rewrite Hd. ob.
  destruct (dev_name s p d Hs Hp Hd) as (t & Ht & _). pose proof Hs as (Hb & Hdv & Hlk).
  case_if; b2p.
  { exists s. split; [done|]. split; [done|]. split; [auto|]. split; [done|]. intros e He Hep.
    destruct (Hlk e p He Hep) as (_ & d' & _ & Hd' & _ & Hr & _). congruence. }
  destruct (unregister_chrdev_ok (p_dev s) (d_name d) t Hdv Ht) as (l & r & -> & Hl & Hsub & Hno). ob.
  destruct (register_flag_ok disk p d 0 (p_blk s) Hb Hp Hd Hpar) as (b' & -> & Hb' & Hu & Hget & Hnd). ob.
  assert (Hnp : forall e, e ∈ l -> e_drv e <> Some p).
  { intros e He Hep. apply (Hno e He). destruct (Hlk e p (Hsub e He) Hep)
      as (_ & d' & t' & Hd' & _ & _ & Hc1 & Hc2). rewrite Hd in Hd'. injection Hd' as <-.
    by rewrite (cstr_inj _ _ _ Ht Hc2). }
  eexists. split; [done|]. split; [|split; [exact Hnd|by split]].
  split; [done|]. split; [done|]. intros e i He Hi. cbn [p_blk p_dev] in *.
  replace (used b' i) with (used (p_blk s) i) by (unfold used; by rewrite Hu). rewrite Hget.
  destruct (Hlk e i (Hsub e He) Hi) as (Hiu & d' & t' & Hd' & Hrest).
  rewrite decide_False by (intros ->; by apply (Hnp e)). eauto 10.
Qed.

(** *** The partitions of a disk, in slot order *)

Definition is_part b (disk j : Z) : bool :=
  match ld (dev_used b) j, ld (devices b) j with
  | Some u, Some d => negb (u =? 0) && bool_decide (d_parent d = Some disk)
  | _, _ => false
  end.

Fixpoint part_list b (disk : Z) (n : nat) (i : Z) : list Z :=
  match n with
  | O => []
  | S n => if is_part b disk i then i :: part_list b disk n (i + 1) else part_list b disk n (i + 1)
  end.

Lemma part_list_len b disk (n : nat) i : zlen (part_list b disk n i) <= Z.of_nat n.
Proof.
  revert i. induction n as [|n IH]; intros i; [done|]. cbn [part_list]. specialize (IH (i + 1)).
  case_if; rewrite ?zlen_cons; lia.
Qed.

Lemma part_list_in b disk (n : nat) i j :
  i <= j < i + Z.of_nat n -> is_part b disk j = true -> j ∈ part_list b disk n i.
Proof.
  revert i. induction n as [|n IH]; intros i Hj Hp; [lia|]. cbn [part_list].
  destruct (decide (j = i)) as [->|]; [rewrite Hp; by left|].
  case_if; [right|]; apply IH; lia || done.
Qed.

Lemma part_list_is b disk (n : nat) i j : j ∈ part_list b disk n i -> is_part b disk j = true.
Proof.
  revert i. induction n as [|n IH]; intros i; cbn [part_list]; [by intros ?%elem_of_nil|].
  case_if; [|apply IH]. intros [->|?]%elem_of_cons; [done|by apply (IH (i + 1))].
Qed.

Lemma part_count_list b disk :
  tab_inv b -> blkdev_part_count (Some disk) b = Some (zlen (part_list b disk slots 0)).
Proof.
  intros Ht. unfold blkdev_part_count.
  enough (forall (n : nat) i acc, 0 <= i -> i + Z.of_nat n <= BLKDEV_SLOTS ->
    count_loop (fun i => u ← ld (dev_used b) i; d ← ld (devices b) i;
      Some (negb (u =? 0) && bool_decide (d_parent d = Some disk))) n i acc =
    Some (acc + zlen (part_list b disk n i))) as H by (rewrite H; done).
  induction n as [|n IH]; intros i acc Hi Hn; [cbn; f_equal; unfold zlen; cbn; lia|].
  cbn [count_loop part_list]. destruct (tab_row b i Ht) as (u & d & Hu & Hd); [lia|].
  unfold is_part. rewrite Hu, Hd. ob.
  destruct (negb (u =? 0) && bool_decide (d_parent d = Some disk)); rewrite IH by lia;
    rewrite ?zlen_cons; f_equal; lia.
Qed.

Lemma part_at_list b disk idx :
  tab_inv b -> 0 <= idx ->
  blkdev_part_at (Some disk) idx b = Some (part_list b disk slots 0 !! Z.to_nat idx).
Proof.
  intros Ht Hidx. unfold blkdev_part_at. rewrite (proj2 (Z.ltb_ge idx 0)) by done.
  enough (forall (n : nat) i seen, 0 <= i -> i + Z.of_nat n <= BLKDEV_SLOTS -> seen <= idx ->
    part_at_loop disk n i seen idx b = Some (part_list b disk n i !! Z.to_nat (idx - seen))) as H
    by (rewrite H by done; by rewrite Z.sub_0_r).
  induction n as [|n IH]; intros i seen Hi Hn Hs; [done|].
  cbn [part_at_loop part_list]. destruct (tab_row b i Ht) as (u & d & Hu & Hd); [lia|].
  unfold is_part. rewrite Hu, Hd. ob.
  destruct (u =? 0); cbn [negb andb orb]; [apply IH; lia|].
  destruct (bool_decide (d_parent d = Some disk)); cbn [negb]; [|apply IH; lia].
  case_if; b2p.
  - subst seen. by rewrite Z.sub_diag.
  - rewrite IH by lia. replace (Z.to_nat (idx - seen)) with (S (Z.to_nat (idx - (seen + 1)))) by lia.
    done.
Qed.

Lemma nodes_only_is_part disk b b' j :
  nodes_only disk b b' -> tab_inv b -> is_part b' disk j = is_part b disk j.
Proof.
  intros (Hu & _ & Hd) (Hl & Hul & _). unfold is_part. rewrite Hu.
  destruct (ld (dev_used b) j) as [u|] eqn:E; [|done].
  destruct (ld_in (devices b) j) as [d Hj]; [rewrite Hl, <- Hul; by apply ld_Some_lt in E|].
  rewrite Hj. destruct (Hd j d Hj) as [->|(_ & v & ->)]; done.
Qed.

Lemma nodes_only_list disk b b' (n : nat) i :
  nodes_only disk b b' -> tab_inv b -> part_list b' disk n i = part_list b disk n i.
Proof.
  intros Hn Ht. revert i. induction n as [|n IH]; intros i; [done|]. cbn [part_list].
  by rewrite (nodes_only_is_part _ _ _ _ Hn Ht), IH.
Qed.

Lemma is_part_inv b disk j :
  is_part b disk j = true ->
  used b j /\ exists d, ld (devices b) j = Some d /\ d_parent d = Some disk.
Proof.
  unfold is_part, used. destruct (ld (dev_used b) j) as [u|]; [|done].
  destruct (ld (devices b) j) as [d|]; [|done]. intros H. b2p.
  match goal with E : bool_decide _ = true |- _ => apply bool_decide_eq_true in E end. eauto 10.
Qed.

Lemma is_part_intro b disk j d :
  used b j -> ld (devices b) j = Some d -> d_parent d = Some disk -> is_part b disk j = true.
Proof.
  intros (u & Hu & Hn) Hd Hp. unfold is_part. rewrite Hu, Hd, Hp.
  rewrite bool_decide_eq_true_2 by done. rewrite (proj2 (Z.eqb_neq u 0)) by done. done.
Qed.

(** *** Dropping a disk's partitions *)

Lemma drop_loop_ok disk (fuel : nat) i s :
  sys_inv s -> 0 <= i -> Z.max 0 (zlen (part_list (p_blk s) disk slots 0) - i) < Z.of_nat fuel ->
  exists s', drop_loop fuel disk i s = Some s' /\ sys_inv s' /\
    nodes_only disk (p_blk s) (p_blk s') /\ p_dev s' ⊆ p_dev s /\
    forall k j, i <= Z.of_nat k -> part_list (p_blk s) disk slots 0 !! k = Some j ->
      forall e, e ∈ p_dev s' -> e_drv e <> Some j.
Proof.
  revert i s. induction fuel as [|fuel IH]; intros i s Hs Hi Hf; [lia|].
  pose proof Hs as ((Ht & _) & _). cbn [drop_loop]. rewrite (part_count_list _ _ Ht). ob.
  set (L := part_list (p_blk s) disk slots 0) in *.
  destruct (i <? zlen L) eqn:E; cbn [negb]; b2p.
  2: { exists s. split; [done|]. split; [done|]. split; [auto|]. split; [done|].
       intros k j Hk Hj. apply lookup_lt_Some in Hj. unfold zlen in E. lia. }
  rewrite (part_at_list _ _ _ Ht Hi). ob. fold L.
  destruct (lookup_lt_is_Some_2 L (Z.to_nat i)) as [p Hp]; [unfold zlen in E; lia|]. rewrite Hp.
  destruct (is_part_inv (p_blk s) disk p) as (Hpu & d & Hd & Hpar).
  { eapply part_list_is. eapply list_elem_of_lookup_2, Hp. }
  destruct (devfs_remove_ok disk p d s Hs Hpu Hd Hpar) as (s1 & -> & Hs1 & Hn1 & Hsub1 & Hno1). ob.
  pose proof (nodes_only_list _ _ _ slots 0 Hn1 Ht) as HL.
  destruct (IH (i + 1) s1 Hs1) as (s2 & -> & Hs2 & Hn2 & Hsub2 & Hno2); [lia|rewrite HL; fold L; lia|].
  exists s2. split; [done|]. split; [done|]. split; [by eapply nodes_only_trans|].
  split; [by transitivity (p_dev s1)|]. intros k j Hk Hj e He.
  destruct (decide (Z.of_nat k = i)) as [Hki|].
  - replace j with p by (replace (Z.to_nat i) with k in Hp by lia; congruence).
    apply Hno1. by apply Hsub2.
  - apply (Hno2 k j); [lia| |done]. by rewrite HL.
Qed.

(** ** Scans *)

(** Every partition of [disk] satisfies [P] of its number, start, length,
    type and kind of label; other devices are those of [s0]. *)
Definition label_entry := Z -> Z -> Z -> Z -> Z -> Prop.

Definition part_sat (P : label_entry) (d : blkdev_t) : Prop :=
  P (d_part_no d) (d_start_lba d) (d_max_lba d) (d_ptype d) (d_table d).

Record scanned (s0 : parts D) (disk : Z) (P : label_entry) (s : parts D) : Prop := {
  sc_inv : sys_inv s;
  sc_medium : medium (p_blk s) = medium (p_blk s0);
  sc_disk : used (p_blk s) disk /\ exists d0 d, ld (devices (p_blk s0)) disk = Some d0 /\
    ld (devices (p_blk s)) disk = Some d /\ same_geom d0 d /\ d_parent d = None;
  sc_keep : forall j d, j <> disk -> d_parent d <> Some disk ->
    (used (p_blk s) j /\ ld (devices (p_blk s)) j = Some d) <->
    (used (p_blk s0) j /\ ld (devices (p_blk s0)) j = Some d);
  sc_parts : forall j d, used (p_blk s) j -> ld (devices (p_blk s)) j = Some d ->
    d_parent d = Some disk -> part_sat P d
}.

Lemma drop_disk_ok disk d s :
  sys_inv s -> used (p_blk s) disk -> ld (devices (p_blk s)) disk = Some d -> d_parent d = None ->
  exists s', part_drop_disk (Some disk) s = Some (s', 0) /\
    scanned s disk (fun _ _ _ _ _ => False) s'.
Proof.
  intros Hs Hu Hd Hpar. pose proof Hs as ((Ht & _) & _). unfold part_drop_disk.
  pose proof (part_list_len (p_blk s) disk slots 0) as Hlen.
  destruct (drop_loop_ok disk (S slots) 0 s Hs) as (s1 & -> & Hs1 & Hn & Hsub & Hno);
    [done|lia|]. ob.
  pose proof Hs1 as (Hb1 & Hdv1 & Hlk1). pose proof Hb1 as (Ht1 & _).
  destruct (clear_partitions_ok (Some disk) (p_blk s1) Hb1) as (b & n & He & Hb & Hm).
  unfold blkdev_clear_partitions in *.
  destruct (clear_loop_ok disk slots 0 0 (p_blk s1) Ht1) as
    (b' & c & He' & _ & _ & _ & Hgone & Hstay & Hkeep); [done..|].
  rewrite He in He'. injection He' as <- <-. rewrite He. ob.
  eexists. split; [done|]. pose proof Hn as (Hnu & Hnm & Hnd).
  assert (Hlk : forall e i, e ∈ p_dev s1 -> e_drv e = Some i -> forall d,
     ld (devices (p_blk s1)) i = Some d -> d_parent d <> Some disk).
  { intros e i He1 Hi d1 Hd1 Hp1. destruct (Hlk1 e i He1 Hi) as (Hiu & _).
    assert (Hin : i ∈ part_list (p_blk s) disk slots 0).
    { apply part_list_in; [pose proof (used_range _ _ Ht1 Hiu); done|].
      rewrite <- (nodes_only_is_part _ _ _ _ Hn Ht). by eapply is_part_intro. }
    apply list_elem_of_lookup in Hin as [k Hk]. by apply (Hno k i ltac:(lia) Hk e). }
  destruct (Hnd disk d Hd) as [Hd1|[Hx _]]; [|congruence].
  assert (Hu1 : used (p_blk s1) disk) by (unfold used; by rewrite Hnu).
  destruct (Hkeep disk d Hu1 Hd1) as [Hu2 Hd2]; [by rewrite Hpar|].
  assert (Hused : forall j, used b j -> 0 <= j < 0 + Z.of_nat slots).
  { intros j Hj. destruct (Hstay j Hj) as [Hj1 _]. pose proof (used_range _ _ Ht1 Hj1). done. }
  split; cbn [p_blk set_blk].
  - split; [done|]. split; [done|]. intros e i He1 Hi. cbn in He1. cbn [p_blk set_blk].
    destruct (Hlk1 e i He1 Hi) as (Hiu & d1 & t & Hd' & Hrest).
    destruct (Hkeep i d1 Hiu Hd') as [? ?]; [by eapply Hlk|]. eauto 10.
  - by rewrite Hm.
  - split; [done|]. exists d, d. repeat (split; [done|]). done.
  - intros j e Hj Hp. split.
    + intros [Hju Hje]. destruct (Hstay j Hju) as [Hj1 Hje1]. rewrite Hje in Hje1. symmetry in Hje1.
      split; [unfold used in *; by rewrite <- Hnu|].
      destruct (ld_in (devices (p_blk s)) j) as [e0 He0].
      { destruct Ht as (-> & _). by apply (used_range _ _ Ht1). }
      rewrite He0. destruct (Hnd j e0 He0) as [?|(Hp0 & v & ?)]; [congruence|].
      exfalso. apply Hp. by replace e with (with_registered v e0) by congruence.
    + intros [Hju Hje]. apply Hkeep; [unfold used in *; by rewrite Hnu| |done].
      destruct (Hnd j e Hje) as [?|[? _]]; [done|contradiction].
  - intros j e Hj He1 Hp. exfalso. by apply (Hgone j e Hj He1 (Hused j Hj)).
Qed.

(** Changing nodes of the disk's partitions does not matter to [scanned]. *)
Lemma scanned_nodes s0 disk P s s' :
  scanned s0 disk P s -> sys_inv s' -> nodes_only disk (p_blk s) (p_blk s') -> scanned s0 disk P s'.
Proof.
  intros [Hi Hm (Hu & d0 & d & Hd0 & Hd & Hg & Hpn) Hk Hp] Hs' (Nu & Nm & Nd).
  assert (Hus : forall j, used (p_blk s') j <-> used (p_blk s) j) by (intros j; unfold used; by rewrite Nu).
  assert (Hback : forall j e, used (p_blk s') j -> ld (devices (p_blk s')) j = Some e ->
    ld (devices (p_blk s)) j = Some e \/ exists v e0, ld (devices (p_blk s)) j = Some e0 /\
      d_parent e0 = Some disk /\ e = with_registered v e0).
  { intros j e Hj He. destruct Hi as ((Ht & _) & _).
    destruct (used_dev _ _ Ht (proj1 (Hus j) Hj)) as (e0 & He0 & _).
    destruct (Nd j e0 He0) as [?|(? & v & ?)]; [left; congruence|]. right. exists v, e0.
    split; [done|]. split; [done|congruence]. }
  split; [done|by rewrite Nm| | |].
  - split; [by apply Hus|]. exists d0, d. split; [done|].
    destruct (Nd disk d Hd) as [?|[? _]]; [done|congruence].
  - intros j e Hj Hpe. rewrite <- Hk, Hus by done. split; intros [Hju He]; (split; [done|]).
    + destruct (Hback j e) as [?|(v & e0 & _ & Hp0 & ->)]; [by apply Hus|done|done|]. by cbn in Hpe.
    + destruct (Nd j e He) as [?|[? _]]; [done|contradiction].
  - intros j e Hj He Hpe. destruct (Hback j e Hj He) as [?|(v & e0 & He0 & Hp0 & ->)].
    + apply (Hp j); [by apply Hus|done|done].
    + apply (Hp j e0); [by apply Hus|done|done].
Qed.

Lemma create_ok s0 disk P s part_no start len ptype table :
  scanned s0 disk P s -> is_u32 part_no -> 0 <= start -> 0 <= len -> P part_no start len ptype table ->
  exists s' r, part_create disk part_no start len ptype table s = Some (s', r) /\ scanned s0 disk P s'.
Proof.
  intros Hsc Hn Hst Hln HP. unfold part_create. case_if; [by eauto|]. b2p.
  assert (is_u32 start /\ is_u32 len) as [Hst' Hln'] by word_lia.
  rewrite !u32_small by done.
  pose proof Hsc as [Hi Hm (Hu & d0 & d & Hd0 & Hd & Hg & Hpn) Hk Hp]. pose proof Hi as (Hb & Hdv & Hlk).
  destruct (add_partition_ok disk part_no start len ptype table (p_blk s) Hb Hu Hn Hst' Hln')
    as (b & r & -> & Hb' & Hm' & Hold & Hnew & Hr). ob.
  destruct r as [p|].
  2: { subst b. eexists _, _. split; [done|]. by destruct s. }
  destruct Hr as (Hnp & Hpu & dp & Hdp & Hpp & E1 & E2 & E3 & E4 & E5 & _).
  assert (Hne : disk <> p) by (by intros ->).
  assert (Hsc' : scanned s0 disk P (set_blk b s)).
  { split; cbn [p_blk set_blk].
    - split; [done|]. split; [done|]. intros e i He Hie. destruct (Hlk e i He Hie) as (Hiu & Hrest).
      cbn [p_blk set_blk]. destruct (Hold i Hiu) as [? ->]. by split.
    - by rewrite Hm'.
    - destruct (Hold disk Hu) as [? ->]. split; [done|]. by exists d0, d.
    - intros j e Hj Hpe. rewrite <- Hk by done. split; intros [Hju He].
      + destruct (Hnew j Hju) as [Hjo|[= <-]]; [|congruence]. split; [done|].
        by rewrite <- (proj2 (Hold j Hjo)).
      + destruct (Hold j Hju) as [? ->]. by split.
    - intros j e Hj He Hpe. destruct (Hnew j Hj) as [Hjo|[= <-]].
      + apply (Hp j); [done| |done]. by rewrite <- (proj2 (Hold j Hjo)).
      + rewrite Hdp in He. injection He as <-. unfold part_sat. by rewrite E1, E2, E3, E4, E5. }
  destruct (devfs_add_ok disk p dp (set_blk b s)) as (s' & -> & Hs' & Hno); [apply Hsc'|done..|]. ob.
  eexists _, _. split; [done|]. by eapply scanned_nodes.
Qed.

Lemma set_table_ok s0 disk P s v :
  scanned s0 disk P s -> exists s', set_table disk v s = Some s' /\ scanned s0 disk P s'.
Proof.
  intros [Hi Hm (Hu & d0 & d & Hd0 & Hd & Hg & Hpn) Hk Hp]. pose proof Hi as (Hb & Hdv & Hlk).
  unfold set_table. rewrite Hd. ob.
  destruct (put_dev_ok disk d (with_table v d) (p_blk s) Hb Hu Hd) as (b & -> & Hb' & Hm' & Hus & _ & Hget);
    [done|]. ob.
  assert (Hue : forall j, used b j <-> used (p_blk s) j) by (intros j; unfold used; by rewrite Hus).
  eexists. split; [done|]. split; cbn [p_blk set_blk].
  - split; [done|]. split; [done|]. intros e i He Hie. destruct (Hlk e i He Hie) as (Hiu & d1 & t & Hd1 & Hr).
    cbn [p_blk set_blk]. rewrite Hue, Hget. split; [done|].
    rewrite decide_False by (intros ->; destruct Hr as [Hr _]; congruence). eauto.
  - by rewrite Hm'.
  - rewrite Hue, Hget, decide_True by done. split; [done|]. by exists d0, (with_table v d).
  - intros j e Hj Hpe. rewrite Hue, Hget, decide_False by done. by apply Hk.
  - intros j e. rewrite Hue, Hget. case_decide as E; [|by apply Hp].
    intros _ [= <-] Hpe. cbn in Hpe. congruence.
Qed.
End Reg.

(** ** What a scan creates *)

Lemma copy_record m o (k : nat) n :
  Z.of_nat k = n -> 0 <= o -> o + n <= zlen m ->
  memcpy (replicate k 0) 0 m o n = Some (slice o n m).
Proof.
  intros. rewrite memcpy_ok by (rewrite ?zlen_replicate; lia).
  rewrite splice_all; [done|]. rewrite zlen_slice, zlen_replicate by lia. lia.
Qed.

(** A copied record has all its fields, in range. *)
Lemma read_mbr_ok m o :
  bytes m -> 0 <= o -> o + 16 <= zlen m ->
  exists pe, read_mbr m o = Some pe /\ is_u32 (mb_lba_start pe) /\ is_u32 (mb_lba_len pe).
Proof.
  intros Hb Ho Hl. unfold read_mbr. rewrite (copy_record m o 16 16) by lia. ob.
  assert (Hz : zlen (slice o 16 m) = 16) by (apply zlen_slice; lia).
  pose proof (bytes_slice o 16 m Hb) as Hbs.
  destruct (ld_in (slice o 16 m) 4) as [t ->]; [lia|].
  destruct (ld32_in (slice o 16 m) 8) as (a & -> & ?); [done|lia..|].
  destruct (ld32_in (slice o 16 m) 12) as (l & -> & ?); [done|lia..|]. ob. eauto.
Qed.

Lemma read_gpt_hdr_ok m :
  bytes m -> 92 <= zlen m ->
  exists h, read_gpt_hdr m 0 = Some h /\ is_u64 (gh_entries_lba h) /\ is_u32 (gh_num_entries h) /\
    is_u32 (gh_entry_size h).
Proof.
  intros Hb Hl. unfold read_gpt_hdr, sizeof_gpt_hdr. rewrite (copy_record m 0 92 92) by lia. ob.
  assert (Hz : zlen (slice 0 92 m) = 92) by (apply zlen_slice; lia).
  pose proof (bytes_slice 0 92 m Hb) as Hbs.
  destruct (ld32_in (slice 0 92 m) 12) as (a & -> & ?); [done|lia..|].
  destruct (ld64_in (slice 0 92 m) 72) as (e & -> & ?); [done|lia..|].
  destruct (ld32_in (slice 0 92 m) 80) as (n & -> & ?); [done|lia..|].
  destruct (ld32_in (slice 0 92 m) 84) as (z & -> & ?); [done|lia..|]. ob. eauto.
Qed.

Lemma read_gpt_entry_ok m o :
  bytes m -> 0 <= o -> o + 128 <= zlen m ->
  exists ge, read_gpt_entry m o = Some ge /\ is_u64 (ge_first_lba ge) /\ is_u64 (ge_last_lba ge) /\
    zlen (ge_type_guid ge) = 16.
Proof.
  intros Hb Ho Hl. unfold read_gpt_entry, sizeof_gpt_entry. rewrite (copy_record m o 128 128) by lia. ob.
  assert (Hz : zlen (slice o 128 m) = 128) by (apply zlen_slice; lia).
  pose proof (bytes_slice o 128 m Hb) as Hbs.
  destruct (ld64_in (slice o 128 m) 32) as (a & -> & ?); [done|lia..|].
  destruct (ld64_in (slice o 128 m) 40) as (l & -> & ?); [done|lia..|]. ob.
  eexists. split; [done|]. split; [done|]. split; [done|]. cbn. apply zlen_slice; lia.
Qed.

Lemma all_zero16_ok p : zlen p = 16 -> exists z, all_zero16 p = Some z /\ (z = true <-> p = replicate 16 0).
Proof.
  intros Hp. unfold all_zero16.
  enough (forall (n : nat) i, 0 <= i -> i + Z.of_nat n <= zlen p -> exists z, all_zero_loop n p i = Some z /\
    (z = true <-> forall k, i <= k < i + Z.of_nat n -> ld p k = Some 0)) as H.
  { destruct (H 16%nat 0) as (z & Hz & Hk); [lia..|]. exists z. split; [done|]. rewrite Hk. split.
    - intros Ha. apply ld_ext; [done|]. intros j Hj. rewrite Ha by lia.
      symmetry. rewrite ld_nonneg by lia. apply lookup_replicate. split; [done|lia].
    - intros -> k Hk'. rewrite ld_nonneg by lia. apply lookup_replicate. split; [done|lia]. }
  induction n as [|n IH]; intros i Hi Hn; cbn [all_zero_loop].
  { exists true. split; [done|]. split; [intros; lia|done]. }
  destruct (ld_in p i) as [b Hb]; [lia|]. rewrite Hb. ob. case_if; b2p.
  - exists false. split; [done|]. split; [done|]. intros Ha. specialize (Ha i ltac:(lia)). congruence.
  - destruct (IH (i + 1)) as (z & Hz & Hk); [lia..|]. exists z. split; [done|]. rewrite Hk. split.
    + intros Ha k Hk'. destruct (decide (k = i)) as [->|]; [congruence|apply Ha; lia].
    + intros Ha k Hk'. apply Ha. lia.
Qed.

Lemma mem_eq_ok x y (n : nat) i :
  0 <= i -> i + Z.of_nat n <= zlen x -> i + Z.of_nat n <= zlen y -> exists r, mem_eq_loop n x y i = Some r.
Proof.
  revert i. induction n as [|n IH]; intros i Hi Hx Hy; cbn [mem_eq_loop]; [eauto|].
  destruct (ld_in x i) as [a ->]; [lia|]. destruct (ld_in y i) as [b ->]; [lia|]. ob.
  case_if; [eauto|]. apply IH; lia.
Qed.

Section Scan.
Context {D : Type} {DD : DiskDriver D} (same_medium : Z -> Z -> Prop)
  {DL : DiskDriverLaws D same_medium}.
Implicit Types (b : blk D) (s : parts D).

(** A primary partition of the MBR in [lba0]. *)
Definition mbr_label (lba0 : mem) : label_entry := fun no start len ty tab =>
  tab = PART_TABLE_MBR /\ exists i pe, 0 <= i < MBR_NPARTS /\
    read_mbr lba0 (MBR_PTABLE_OFF + i * MBR_PART_SIZE) = Some pe /\ no = i + 1 /\
    start = mb_lba_start pe /\ len = mb_lba_len pe /\ ty = mb_type pe /\
    ty <> 0 /\ start <> 0 /\ mbr_type_extended ty = false /\ ty <> MBR_TYPE_GPT_PROT.

(** The bytes of a disk from sector [l] on, zero beyond its end. *)
Definition disk_image b (d : blkdev_t) (l n : Z) (m : mem) : Prop :=
  zlen m = n /\ bytes m /\
  forall k, 0 <= k < n -> ld m k =
    if 512 * l + k <? 512 * d_max_lba d then dev_ld b d d (512 * l + k) else Some 0.

(** An entry of the array the GPT header [h] points to. *)
Definition gpt_label b (d : blkdev_t) (h : gpt_hdr_t) : label_entry := fun no start len ty tab =>
  tab = PART_TABLE_GPT /\ ty = 0 /\ exists i m ge, 0 <= i < gpt_count h /\
    disk_image b d (gh_entries_lba h) (gpt_count h * gh_entry_size h) m /\
    read_gpt_entry m (i * gh_entry_size h) = Some ge /\ ge_type_guid ge <> replicate 16 0 /\
    no = i + 1 /\ start = ge_first_lba ge /\ start <> 0 /\
    start + len = ge_last_lba ge + 1 /\ 0 < len.

Lemma mbr_loop_ok s0 disk lba0 (k : nat) i n s :
  bytes lba0 -> zlen lba0 = 512 -> scanned s0 disk (mbr_label lba0) s -> 0 <= i ->
  i + Z.of_nat k <= 4 ->
  exists s' r, mbr_loop k disk lba0 i n s = Some (s', r) /\ scanned s0 disk (mbr_label lba0) s'.
Proof.
  intros Hb Hl. revert i n s. induction k as [|k IH]; intros i n s Hs Hi Hk; cbn [mbr_loop]; [by eauto|].
  destruct (read_mbr_ok lba0 (MBR_PTABLE_OFF + i * MBR_PART_SIZE)) as (pe & Hpe & Hst & Hln);
    [done|unfold MBR_PTABLE_OFF, MBR_PART_SIZE; lia..|].
  rewrite Hpe. ob. case_if; [apply IH; lia || done|]. b2p. case_if; [apply IH; lia || done|]. b2p.
  rewrite u32_small by word_lia.
  destruct (create_ok s0 disk (mbr_label lba0) s (i + 1) (mb_lba_start pe) (mb_lba_len pe)
    (mb_type pe) PART_TABLE_MBR) as (s' & r & -> & Hs'); [done|word_lia|word_lia|word_lia| |].
  - split; [done|]. exists i, pe. unfold MBR_NPARTS. repeat (split; [lia || done|]). done.
  - ob. apply IH; lia || done.
Qed.

Lemma gpt_loop_ok s0 disk b d h m (k : nat) i n s :
  gpt_hdr_bad h = false -> 128 <= gh_entry_size h -> is_u32 (gh_num_entries h) ->
  disk_image b d (gh_entries_lba h) (gpt_count h * gh_entry_size h) m ->
  scanned s0 disk (gpt_label b d h) s -> 0 <= i -> i + Z.of_nat k <= gpt_count h ->
  exists s' r, gpt_loop k disk (gh_entry_size h) m i n s = Some (s', r) /\
    scanned s0 disk (gpt_label b d h) s'.
Proof.
  intros Hh He Hne Hm. revert i n s. induction k as [|k IH]; intros i n s Hs Hi Hk; cbn [gpt_loop];
    [by eauto|].
  unfold gpt_hdr_bad in Hh. b2p. pose proof Hm as (Hzl & Hby & _).
  assert (Hcount : 0 < gpt_count h <= 16).
  { unfold gpt_count, BLKDEV_PARTS_PER_DISK, is_u32 in *. case_if; b2p; lia. }
  assert (Hoff : 0 <= i * gh_entry_size h /\ i * gh_entry_size h + 128 <= zlen m) by nia.
  rewrite (u32_small (i * gh_entry_size h)) by (unfold is_u32; nia).
  destruct (read_gpt_entry_ok m (i * gh_entry_size h) Hby) as (ge & Hge & Hf & Hla & Hg); [lia..|].
  rewrite Hge. ob. destruct (all_zero16_ok _ Hg) as (z & -> & Hz). ob. destruct z.
  { apply IH; done || lia. }
  case_if; [apply IH; done || lia|]. b2p. unfold is_u64 in *.
  replace (u64 (ge_last_lba ge - ge_first_lba ge + 1)) with (ge_last_lba ge - ge_first_lba ge + 1)
    by word_lia.
  rewrite u32_small by word_lia.
  destruct (create_ok s0 disk (gpt_label b d h) s (i + 1) (ge_first_lba ge)
    (ge_last_lba ge - ge_first_lba ge + 1) 0 PART_TABLE_GPT) as (s' & r & -> & Hs');
    [done|word_lia|lia|lia| |].
  - split; [done|]. split; [done|]. exists i, m, ge. repeat (split; [done || lia|]).
    split; [by intros ?%Hz|]. lia.
  - ob. apply IH; done || lia.
Qed.

(** Byte [k] of the entry array. *)
Definition image_byte b (d : blkdev_t) (l k : Z) : option Z :=
  if 512 * l + k <? 512 * d_max_lba d then dev_ld b d d (512 * l + k) else Some 0.

Lemma gpt_read_ok b disk d (fuel : nat) el cur have need buf :
  tab_inv b -> used b disk -> ld (devices b) disk = Some d -> d_parent d = None ->
  is_u32 need -> is_u32 el -> 0 <= have <= need -> (have < need -> have mod 512 = 0) ->
  need - have <= 512 * (Z.of_nat fuel - 1) -> (0 < fuel)%nat -> zlen buf = need -> bytes buf ->
  (have < need -> cur = el + have / 512) -> is_u32 cur ->
  (forall k, 0 <= k < need -> ld buf k = if k <? have then image_byte b d el k else Some 0) ->
  exists m, gpt_read_loop fuel disk cur have need buf b = Some m /\ disk_image b d el need m.
Proof.
  intros Ht Hu Hd Hpar Hne Hel. pose proof Ht as (_ & _ & _ & Hdev).
  destruct (Hdev disk d Hu Hd) as (_ & _ & Hmax & _). unfold is_u32 in *.
  assert (Hdk : disk_of b d = Some d) by (unfold disk_of; by rewrite Hpar).
  assert (Hbase : base_of d = 0) by (unfold base_of; by rewrite Hpar).
  revert cur have buf. induction fuel as [|fuel IH];
    intros cur have buf Hhv Hmod Hf Hf0 Hz Hby Hcur Hcu Hbuf; [lia|].
  cbn [gpt_read_loop]. rewrite Hd. ob.
  destruct ((have <? need) && (cur <? d_max_lba d)) eqn:E; cbn [negb].
  2: { exists buf. split; [done|]. split; [done|]. split; [done|]. intros k Hk. rewrite Hbuf by done.
       destruct (k <? have) eqn:E2; [done|]. b2p. case_if; [|done]. b2p. exfalso.
       apply andb_false_iff in E as [E|E]; b2p; [lia|]. specialize (Hmod ltac:(lia)).
       specialize (Hcur ltac:(lia)). Z.to_euclidean_division_equations; lia. }
  b2p. specialize (Hmod ltac:(lia)). specialize (Hcur ltac:(lia)). subst cur.
  set (cur := el + have / 512) in *. assert (Hq : 0 <= have / 512) by (apply Z.div_pos; lia).
  rewrite memset_zero_sec. ob.
  rewrite (read_ok b disk d d) by (done || lia || (intros; apply sec_read_bytes)).
  rewrite (proj2 (Z.ltb_lt cur (d_max_lba d))) by lia. ob. cbn [negb Z.eqb]. rewrite Hbase, Z.add_0_l.
  destruct (sec_read_bytes (medium b) (d_read_sector d) cur) as [Hsl Hsb].
  set (sec := sec_read _ _ _) in *. unfold SECTOR in Hsl.
  rewrite (splice_all sec) by (by rewrite zero_sec_len).
  rewrite (u32_small (need - have)) by (unfold is_u32; lia).
  set (tk := if 512 <? need - have then 512 else need - have).
  assert (Htk : tk = Z.min 512 (need - have)) by (unfold tk; case_if; b2p; lia).
  clearbody tk. rewrite memcpy_ok by lia. ob.
  assert (Hzs : zlen (slice 0 tk sec) = tk) by (apply zlen_slice; lia).
  rewrite (u32_small (have + tk)) by (unfold is_u32; lia).
  rewrite (u32_small (cur + 1)) by (unfold is_u32; lia).
  apply IH; try lia.
  - intros. replace tk with 512 by lia. Z.to_euclidean_division_equations; lia.
  - rewrite zlen_splice; lia.
  - apply bytes_splice; [by apply bytes_slice|done].
  - intros. replace tk with 512 by lia. unfold cur. Z.to_euclidean_division_equations; lia.
  - intros k Hk. destruct (decide (have <= k < have + tk)).
    + rewrite ld_splice_in by lia. rewrite ld_slice by lia. replace (k <? have + tk) with true by lia.
      unfold image_byte, dev_ld. rewrite Hbase, Z.add_0_l. case_if; b2p.
      2: { unfold cur in *. Z.to_euclidean_division_equations; lia. }
      unfold sec, cur. f_equal; [f_equal|]; Z.to_euclidean_division_equations; lia.
    + rewrite ld_splice_out by lia. rewrite Hbuf by lia.
      replace (k <? have + tk) with (k <? have); [done|].
      destruct (k <? have) eqn:E2, (k <? have + tk) eqn:E3; b2p; lia || done.
Qed.

Lemma scanned_mono s0 disk (P Q : label_entry) s :
  (forall no st len ty tb, P no st len ty tb -> Q no st len ty tb) -> scanned s0 disk P s -> scanned s0 disk Q s.
Proof. intros HPQ [Hi Hm Hd Hk Hp]. split; try done. intros j d Hj Hd' Hpar. by apply HPQ, (Hp j). Qed.

Lemma scanned_kmalloc s0 disk P s : scanned s0 disk P s -> scanned s0 disk P (snd (kmalloc_ok s)).
Proof. intros [Hi Hm Hd Hk Hp]. unfold kmalloc_ok. destruct (p_heap s); by split. Qed.

Lemma kmalloc_blk s : p_blk (snd (kmalloc_ok s)) = p_blk s.
Proof. unfold kmalloc_ok. by destruct (p_heap s). Qed.

(** A GPT header the parser can follow without leaving its entry buffer. *)
Definition gpt_safe (lba1 : mem) : Prop :=
  forall h, read_gpt_hdr lba1 0 = Some h -> gpt_hdr_bad h = false -> 128 <= gh_entry_size h.

Lemma parse_gpt_ok s0 disk d lba1 s :
  scanned s0 disk (fun _ _ _ _ _ => False) s -> ld (devices (p_blk s)) disk = Some d ->
  bytes lba1 -> zlen lba1 = 512 -> gpt_safe lba1 ->
  exists s' r, part_parse_gpt disk lba1 s = Some (s', r) /\
    scanned s0 disk (fun no st len ty tb => exists h, read_gpt_hdr lba1 0 = Some h /\
      gpt_label (p_blk s) d h no st len ty tb) s'.
Proof.
  intros Hs Hd Hb Hl Hsafe. unfold part_parse_gpt. remember 18%nat as fuel eqn:Ef.
  destruct (read_gpt_hdr_ok lba1 Hb) as (h & Hh & Hel & Hn & He); [lia|]. rewrite Hh. ob.
  case_if; [eexists _, _; split; [done|]; by apply (scanned_mono s0 disk (fun _ _ _ _ _ => False))|].
  specialize (Hsafe h Hh Hif). pose proof (scanned_kmalloc _ _ _ _ Hs) as Hs1.
  pose proof (kmalloc_blk s) as Hkb. destruct (kmalloc_ok s) as [ok s1]. cbn [snd] in *. destruct ok; cbn [negb].
  2: { eexists _, _. split; [done|]. by apply (scanned_mono s0 disk (fun _ _ _ _ _ => False)). }
  pose proof Hif as Hbad. unfold gpt_hdr_bad in Hif. b2p.
  assert (Hcount : 0 < gpt_count h <= 16).
  { unfold gpt_count, BLKDEV_PARTS_PER_DISK, is_u32 in *. case_if; b2p; lia. }
  unfold is_u32, is_u64 in *. remember (gpt_count h * gh_entry_size h) as need eqn:En.
  assert (Hneed : 0 < need <= 8192) by nia.
  rewrite (u32_small need) by (unfold is_u32; lia). rewrite (u32_small (gh_entries_lba h)) by (unfold is_u32; lia).
  rewrite memset_ok by (rewrite ?zlen_replicate; lia). rewrite splice_all by done.
  replace (u8 0) with 0 by done. sb. rewrite Hkb.
  destruct Hs as [((Ht & _) & _) _ (Hu & d0 & d' & _ & Hd' & _ & Hpar) _ _].
  rewrite Hd in Hd'. injection Hd' as <-.
  destruct (gpt_read_ok (p_blk s) disk d fuel (gh_entries_lba h) (gh_entries_lba h) 0 need
    (replicate (Z.to_nat need) 0)) as (m & -> & Hm); try done; try (unfold is_u32; lia).
  { rewrite zlen_replicate. lia. }
  { apply Forall_replicate. word_lia. }
  { intros _. change (0 / 512) with 0. lia. }
  { intros k Hk. rewrite (proj2 (Z.ltb_ge k 0)) by lia. rewrite ld_nonneg by lia.
    apply lookup_replicate. split; [done|lia]. }
  rewrite En in Hm. sb. destruct (gpt_loop_ok s0 disk (p_blk s) d h m (Z.to_nat (gpt_count h)) 0 0 s1)
    as (s' & r & -> & Hs'); try done; try lia.
  - by apply (scanned_mono s0 disk (fun _ _ _ _ _ => False)).
  - eexists _, _. split; [done|]. eapply scanned_mono; [|exact Hs']. cbv beta. eauto.
Qed.

(** The label of a disk: its GPT if sector 1 has the signature, or else its
    MBR. *)
Definition sector b (d : blkdev_t) (l : Z) : mem := sec_read (medium b) (d_read_sector d) l.

Definition disk_label b (d : blkdev_t) : label_entry := fun no start len ty tab =>
  (mem_eq (sector b d 1) GPT_SIGNATURE 8 = Some true /\
   exists h, read_gpt_hdr (sector b d 1) 0 = Some h /\ gpt_label b d h no start len ty tab) \/
  (mem_eq (sector b d 1) GPT_SIGNATURE 8 = Some false /\
   ld (sector b d 0) 510 = Some 85 /\ ld (sector b d 0) 511 = Some 170 /\
   mbr_label (sector b d 0) no start len ty tab).

Definition label_safe b (d : blkdev_t) : Prop :=
  mem_eq (sector b d 1) GPT_SIGNATURE 8 = Some true -> gpt_safe (sector b d 1).

Lemma gpt_label_geom b b' d d' h no start len ty tab :
  medium b' = medium b -> same_geom d d' ->
  gpt_label b' d' h no start len ty tab -> gpt_label b d h no start len ty tab.
Proof.
  intros Hm (_ & _ & Emax & Epar & Est & Erd & _) (H1 & H2 & i & m & ge & H3 & (A & B & C) & H4).
  split; [done|]. split; [done|]. exists i, m, ge. split; [done|]. split; [|done].
  split; [done|]. split; [done|]. intros k Hk. rewrite (C k Hk). unfold dev_ld, base_of.
  by rewrite Hm, Emax, Epar, Est, Erd.
Qed.

Lemma scan_disk_ok disk d s :
  sys_inv s -> used (p_blk s) disk -> ld (devices (p_blk s)) disk = Some d -> d_parent d = None ->
  label_safe (p_blk s) d ->
  exists s' r, part_scan_disk (Some disk) s = Some (s', r) /\
    if d_max_lba d <? 2 then s' = s /\ r = 0
    else scanned s disk (disk_label (p_blk s) d) s'.
Proof.
  intros Hs Hu Hd Hpar Hsafe. unfold part_scan_disk. rewrite Hd. ob.
  rewrite bool_decide_eq_true_2 by done. cbn [negb].
  destruct (d_max_lba d <? 2) eqn:E; [eauto|]. b2p.
  destruct (drop_disk_ok disk d s Hs Hu Hd Hpar) as (s1 & -> & Hs1). ob. rewrite memset_zero_sec. ob.
  pose proof Hs1 as [((Ht1 & _) & _) Hm1 (Hu1 & d0 & d1 & Hd0 & Hd1 & Hg & Hp1) _ _].
  rewrite Hd in Hd0. injection Hd0 as <-. pose proof Hg as (_ & _ & Emax & _ & _ & Erd & _).
  assert (Hrd : forall l, 0 <= l < 2 -> blkdev_read (Some disk) l zero_sec (p_blk s1) =
    Some (sector (p_blk s) d l, 0)).
  { intros l Hl. rewrite (read_ok (p_blk s1) disk d1 d1); try done; try lia.
    - rewrite (proj2 (Z.ltb_lt l (d_max_lba d1))) by lia. unfold base_of. rewrite Hp1, Z.add_0_l, Hm1, Erd.
      rewrite splice_all; [done|]. apply sec_read_bytes.
    - unfold disk_of. by rewrite Hp1.
    - intros h k. apply sec_read_bytes. }
  rewrite !Hrd by lia. ob. cbn [negb Z.eqb].
  destruct (set_table_ok s disk _ s1 PART_TABLE_NONE Hs1) as (s2 & -> & Hs2). ob.
  assert (Hsec : forall l, zlen (sector (p_blk s) d l) = 512 /\ bytes (sector (p_blk s) d l)).
  { intros l. apply sec_read_bytes. }
  destruct (Hsec 0) as [Hl0 Hb0]. destruct (Hsec 1) as [Hl1 Hb1].
  destruct (mem_eq_ok (sector (p_blk s) d 1) GPT_SIGNATURE 8 0) as [g Hg8]; [done|rewrite Hl1; done|done|].
  change (mem_eq_loop 8 _ _ 0) with (mem_eq (sector (p_blk s) d 1) GPT_SIGNATURE 8) in Hg8.
  rewrite Hg8. ob. destruct g.
  - pose proof Hs2 as [_ Hm2 (_ & d0 & d2 & Hd0 & Hd2 & Hg2 & _) _ _].
    rewrite Hd in Hd0. injection Hd0 as <-.
    destruct (parse_gpt_ok s disk d2 (sector (p_blk s) d 1) s2 Hs2 Hd2 Hb1 Hl1 (Hsafe Hg8))
      as (s3 & r & -> & Hs3). ob.
    destruct (set_table_ok s disk _ s3 PART_TABLE_GPT Hs3) as (s4 & -> & Hs4). ob.
    eexists _, _. split; [done|]. eapply scanned_mono; [|exact Hs4].
    intros a b c e f (h & Hh & Hlab). left. split; [done|]. exists h. split; [done|].
    by eapply gpt_label_geom.
  - destruct (ld_in (sector (p_blk s) d 0) 510) as [x Hx]; [lia|].
    destruct (ld_in (sector (p_blk s) d 0) 511) as [y Hy]; [lia|]. rewrite Hx, Hy. ob.
    destruct ((x =? 85) && (y =? 170)) eqn:E3; b2p.
    2: { eexists _, _. split; [done|]. by eapply scanned_mono, Hs2. }
    subst x y. unfold part_parse_mbr.
    destruct (mbr_loop_ok s disk (sector (p_blk s) d 0) (Z.to_nat MBR_NPARTS) 0 0 s2)
      as (s3 & r & -> & Hs3); [done|done|by eapply scanned_mono, Hs2|done|done|]. ob.
    destruct (set_table_ok s disk _ s3 PART_TABLE_MBR Hs3) as (s4 & -> & Hs4). ob.
    eexists _, _. split; [done|]. eapply scanned_mono; [|exact Hs4]. intros a b c e f Hlab. by right.
Qed.
End Scan.

(** ** Properties of the partition layer *)

Section Props.
Context {D : Type} {DD : DiskDriver D} (same_medium : Z -> Z -> Prop)
  {DL : DiskDriverLaws D same_medium}.
Implicit Types s : parts D.

(** C21: scanning a disk is sound.  On a consistent system, the scan of a
    registered disk whose GPT (if any) has entries of at least 128 bytes ends
    and leaves a consistent system: the device table is well formed, so every
    partition lies inside its disk, and every partition node of devfs belongs
    to a registered partition of the same name.  The disks' contents are not
    changed, each partition of the disk is an entry of its label, and no
    other device appears, changes or disappears. *)
Theorem part_scan_sound disk d s :
  sys_inv s -> used (p_blk s) disk -> ld (devices (p_blk s)) disk = Some d -> d_parent d = None ->
  label_safe (p_blk s) d ->
  exists s' r, part_scan_disk (Some disk) s = Some (s', r) /\ sys_inv s' /\
    medium (p_blk s') = medium (p_blk s) /\
    (2 <= d_max_lba d -> forall j e, used (p_blk s') j -> ld (devices (p_blk s')) j = Some e ->
       d_parent e = Some disk -> part_sat (disk_label (p_blk s) d) e) /\
    (forall j e, j <> disk -> d_parent e <> Some disk ->
       (used (p_blk s') j /\ ld (devices (p_blk s')) j = Some e) <->
       (used (p_blk s) j /\ ld (devices (p_blk s)) j = Some e)).
Proof.
  intros Hs Hu Hd Hp Hl.
  destruct (scan_disk_ok same_medium disk d s Hs Hu Hd Hp Hl) as (s' & r & He & Hr).
  exists s', r. split; [done|]. destruct (d_max_lba d <? 2) eqn:E; b2p.
  - destruct Hr as [-> _]. split; [done|]. split; [done|]. split; [lia|done].
  - destruct Hr as [Hi Hm _ Hk Hps]. by repeat (split; [done|]).
Qed.

Lemma gpt_read_len (fuel : nat) disk cur have need buf (b : blk D) m :
  gpt_read_loop fuel disk cur have need buf b = Some m -> zlen m = zlen buf.
Proof.
  revert cur have buf. induction fuel as [|fuel IH]; intros cur have buf H; [done|].
  cbn [gpt_read_loop] in H. destruct (ld (devices b) disk) as [d|]; [|done]. cbn [mbind option_bind] in H.
  destruct (negb _); [by injection H as <-|]. rewrite memset_zero_sec in H. cbn [mbind option_bind] in H.
  destruct (blkdev_read _ _ _ _) as [[sec r]|]; [|done]. cbn [mbind option_bind] in H.
  destruct (negb _); [by injection H as <-|].
  destruct (memcpy _ _ _ _ _) as [buf'|] eqn:E; [|done]. cbn [mbind option_bind] in H.
  apply IH in H. rewrite H. by apply copy_loop_inv in E as [? _].
Qed.

Lemma gpt_loop_none disk h m (k : nat) i n s :
  0 < gh_entry_size h <= 512 -> gpt_count h <= 16 ->
  read_gpt_entry m ((gpt_count h - 1) * gh_entry_size h) = None ->
  0 <= i -> i + Z.of_nat k = gpt_count h -> (0 < k)%nat ->
  gpt_loop k disk (gh_entry_size h) m i n s = None.
Proof.
  intros He Hc Hnone. revert i n s. induction k as [|k IH]; intros i n s Hi Hk H0; [lia|].
  cbn [gpt_loop]. rewrite (u32_small (i * gh_entry_size h)) by (unfold is_u32; nia).
  destruct (decide (k = 0%nat)) as [->|].
  { replace i with (gpt_count h - 1) by lia. by rewrite Hnone. }
  destruct (read_gpt_entry m (i * gh_entry_size h)) as [ge|]; [|reflexivity]. ob.
  destruct (all_zero16 _) as [z|]; [|done]. ob. destruct z; [apply IH; lia|].
  case_if; [apply IH; lia|]. destruct (part_create _ _ _ _ _ _ _) as [[s' p]|]; [|done]. ob. apply IH; lia.
Qed.

(** A GPT whose entries are shorter than 128 bytes sends the parser out of
    its buffer.  Every header that passes the checks with such an entry size
    makes the copy of the last entry read past the allocated entry array. *)
Theorem part_gpt_overread disk lba1 s h :
  read_gpt_hdr lba1 0 = Some h -> gpt_hdr_bad h = false ->
  0 <= gh_num_entries h -> 0 < gh_entry_size h < 128 -> p_heap s = [] ->
  part_parse_gpt disk lba1 s = None /\
  forall m, zlen m = gpt_count h * gh_entry_size h ->
    read_gpt_entry m ((gpt_count h - 1) * gh_entry_size h) = None.
Proof.
  intros Hh Hbad Hn He Hheap.
  assert (Hcount : 0 < gpt_count h <= 16).
  { unfold gpt_hdr_bad, gpt_count, BLKDEV_PARTS_PER_DISK in *. b2p. case_if; b2p; lia. }
  assert (Hover : forall m, zlen m = gpt_count h * gh_entry_size h ->
    read_gpt_entry m ((gpt_count h - 1) * gh_entry_size h) = None).
  { intros m Hm. unfold read_gpt_entry.
    destruct (memcpy (replicate 128 0) 0 m ((gpt_count h - 1) * gh_entry_size h) sizeof_gpt_entry)
      as [r|] eqn:E; [|done]. exfalso. apply copy_loop_inv in E as [_ E].
    change (Z.to_nat sizeof_gpt_entry) with 128%nat in E. specialize (E ltac:(lia)). nia. }
  split; [|done]. unfold part_parse_gpt. remember 18%nat as fuel. rewrite Hh. sb. rewrite Hbad.
  unfold kmalloc_ok. rewrite Hheap. cbn [negb].
  rewrite (u32_small (gpt_count h * gh_entry_size h)) by (unfold is_u32; nia).
  set (need := gpt_count h * gh_entry_size h) in *. assert (0 < need) by (unfold need; nia).
  rewrite memset_ok by (rewrite ?zlen_replicate; lia). rewrite splice_all by done. sb.
  destruct (gpt_read_loop _ _ _ _ _ _ _) as [m|] eqn:E; [|done]. sb.
  apply gpt_read_len in E. rewrite zlen_replicate in E.
  apply gpt_loop_none; [lia|lia| |lia|lia|lia]. apply Hover. lia.
Qed.
End Props.

(** ** A disk with one MBR partition: sectors 10 to 29 *)

Definition demo_mbr : mem :=
  replicate 446 0 ++ [0; 0; 0; 0; 131; 0; 0; 0; 10; 0; 0; 0; 20; 0; 0; 0] ++ replicate 48 0 ++ [85; 170].

Definition name_sda : mem := [115; 100; 97; 0].
Definition name_sdb : mem := [115; 100; 98; 0].
Definition name_sdc : mem := [115; 100; 99; 0].

Definition demo_media : blk ramdisk :=
  mk_blk [] [] 0 None {[ (7, 0) := demo_mbr; (9, 10) := replicate 512 65 ]}.

Definition demo_disk_ops : list blk_op := [BRegister name_sda 100 7 7].

Definition demo_disk : parts ramdisk :=
  match blk_run demo_disk_ops (blkdev_init demo_media) with
  | Some b => mk_parts b [] []
  | None => mk_parts demo_media [] []
  end.

Definition demo_sda : blkdev_t :=
  match ld (devices (p_blk demo_disk)) 0 with Some d => d | None => blkdev_zero end.

(** The disk is scanned and removed, two more disks are registered, and 512
    bytes are read from the node that is still called sda1. *)
Definition demo_stale : option (parts ramdisk * list (list Z) * Z * list Z) :=
  '(s, n) ← part_scan_disk (Some 0) demo_disk;
  b ← unregister_blkdev (Some name_sda) (p_blk s);
  '(b, _) ← register_blkdev None (Some name_sdb) 100 8 8 b;
  '(b, _) ← register_blkdev None (Some name_sdc) 100 9 9 b;
  e ← ld (p_dev s) 0;
  '(_, buf, r) ← part_node_read (e_drv e) 5120 4 (Some [0; 0; 0; 0]) b;
  d ← ld (devices b) 1;
  Some (mk_parts b (p_dev s) [], [take 4 (e_name e); take 3 (d_name d)], r, default [] buf).

(** Removing a disk leaves its partition nodes behind.  After sda (with
    partition sda1 in slot 1) is unregistered and two other disks are
    registered, the node sda1 is still in devfs and its pointer is the slot
    of the disk sdc: a read through it returns sdc's data, so devfs no longer
    agrees with the device table. *)
Example part_stale_node :
  exists s, demo_stale = Some (s, [[115; 100; 97; 49]; [115; 100; 99]], 4, [65; 65; 65; 65]) /\
    ~ link_inv s.
Proof.
  assert (exists s, demo_stale = Some (s, [[115; 100; 97; 49]; [115; 100; 99]], 4, [65; 65; 65; 65]) /\
    exists e d, p_dev s = [e] /\ e_drv e = Some 1 /\ ld (devices (p_blk s)) 1 = Some d /\
      d_parent d = None) as (s & He & e & d & Hl & Hd & Hdev & Hp).
  { eexists. split; [vm_compute; reflexivity|]. eexists _, _. repeat (split; [reflexivity|]). reflexivity. }
  exists s. split; [done|]. intros Hlk. destruct (Hlk e 1) as (_ & d' & t & Hd' & Hp' & _); [|done|congruence].
  rewrite Hl. by left.
Qed.

Lemma good_sda : good_name name_sda [115; 100; 97].
Proof. split; [split; [by exists []|by repeat constructor]|]. repeat constructor; word_lia. Qed.

Lemma demo_disk_inv : sys_inv demo_disk.
Proof.
  destruct (blk_run_inv demo_disk_ops (blkdev_init demo_media) (blkdev_init_inv _)) as (s' & He & Hi).
  { repeat constructor; try word_lia. exists [115; 100; 97]. exact good_sda. }
  unfold demo_disk. rewrite He. split; [exact Hi|]. split.
  - exists []. split; [constructor | apply NoDup_nil_2].
  - intros e i He'. by apply elem_of_nil in He'.
Qed.

Lemma part_scan_sound_witness :
  exists s', part_scan_disk (Some 0) demo_disk = Some (s', 1) /\ sys_inv s'.
Proof.
  destruct (part_scan_sound (fun r w => r = w) 0 demo_sda demo_disk) as (s' & r & He & Hi & _).
  - exact demo_disk_inv.
  - exists 1. split; vm_compute; congruence.
  - vm_compute. reflexivity.
  - vm_compute. reflexivity.
  - intros H. revert H. vm_compute. congruence.
  - exists s'. split; [|exact Hi]. assert (r = 1) as <-; [|exact He].
    revert He. vm_compute. congruence.
Defined.

(** A GPT header with two entries of 64 bytes. *)
Definition demo_gpt : mem :=
  GPT_SIGNATURE ++ [0; 0; 1; 0; 92; 0; 0; 0] ++ replicate 56 0 ++ [2; 0; 0; 0; 0; 0; 0; 0] ++
  [2; 0; 0; 0; 64; 0; 0; 0] ++ replicate 424 0.

Lemma part_gpt_overread_witness : part_parse_gpt 0 demo_gpt demo_disk = None.
Proof.
  destruct (part_gpt_overread 0 demo_gpt demo_disk (mk_gpt_hdr 92 2 2 64)) as [H _].
  - vm_compute. reflexivity.
  - vm_compute. reflexivity.
  - cbn. lia.
  - cbn. lia.
  - vm_compute. reflexivity.
  - exact H.
Defined.

Lemma part_read_bytes_witness :
  exists buf', part_node_read (Some 1) 2500 100 (Some (replicate 100 9)) demo_blk =
    Some (demo_blk, Some buf', 60).
Proof.
  destruct (part_read_bytes (fun r w => r = w) demo_blk 1 (demo_dev 1) (demo_dev 0) 2500 100
              (replicate 100 9)) as (buf' & He & _).
  - exact (proj1 demo_blk_inv).
  - apply demo_used. auto.
  - vm_compute. reflexivity.
  - vm_compute. reflexivity.
  - word_lia.
  - lia.
  - vm_compute. congruence.
  - exists buf'. rewrite He. replace (in_device (demo_dev 1) 2500 100) with 60; [reflexivity|].
    vm_compute. reflexivity.
Defined.

Lemma part_write_bytes_witness :
  exists m, part_node_write (Some 1) 500 30 (Some (replicate 30 9)) demo_blk =
      Some (set_medium m demo_blk, Some (replicate 30 9), 30) /\
    dev_ld (set_medium m demo_blk) (demo_dev 1) (demo_dev 0) 515 = Some 9.
Proof.
  destruct (part_write_bytes (fun r w => r = w) demo_blk 1 (demo_dev 1) (demo_dev 0) 500 30
              (replicate 30 9)) as (m & He & _ & Hb).
  - exact (proj1 demo_blk_inv).
  - apply demo_used. auto.
  - vm_compute. reflexivity.
  - vm_compute. reflexivity.
  - vm_compute. reflexivity.
  - repeat constructor; word_lia.
  - word_lia.
  - lia.
  - vm_compute. congruence.
  - assert (Hin : in_device (demo_dev 1) 500 30 = 30) by (vm_compute; reflexivity).
    exists m. rewrite He, Hin. split; [reflexivity|]. rewrite Hb, Hin by lia. reflexivity.
Defined.
