(* ===== verification/VfsPath.v ===== *)
(** * vfs_file.c: path names

    Absolute paths, their canonical form and their split into parent and base
    name.  The specification works on lists of segments: [norm] drops "." and
    resolves ".." the way a directory stack does, and the canonical text is a
    slash before each remaining segment. *)

From S2P Require Import Prelude Klib.
#[local] Open Scope Z_scope.

Definition SLASH : Z := 47.
Definition DOT : Z := 46.
Definition PATH_BUF : Z := 512.
Definition SEG_MAX : Z := 128.

(** [for (int i = 0; src[i] && p < lim; i++) dst[p++] = src[i]] *)
Fixpoint copy_while (src : mem) (p lim : Z) (dst : mem) : option (mem * Z) :=
  match src with
  | [] => None
  | c :: t =>
      if negb (c =? 0) && (p <? lim) then dst' ← st dst p c; copy_while t (p + 1) lim dst'
      else Some (dst, p)
  end.

(** [vfs_make_abs]; [cwd] is the current process's working directory. *)
Definition vfs_make_abs (cwd path : mem) (abs : mem) (abs_max : Z) : option mem :=
  c ← ld path 0;
  '(abs, p) ← (if negb (c =? SLASH) then
                 '(abs, p) ← copy_while cwd 0 (abs_max - 2) abs;
                 if 0 <? p then
                   l ← ld abs (p - 1);
                   if negb (l =? SLASH) then abs' ← st abs p SLASH; Some (abs', p + 1)
                   else Some (abs, p)
                 else Some (abs, p)
               else Some (abs, 0) : option (mem * Z));
  '(abs, p) ← copy_while path p (abs_max - 1) abs;
  st abs p 0.

(** The scan over [abs]: [s] is the rest of the object at the pointer [s], at
    index [pos]. *)
Fixpoint skip_slashes (s : mem) (pos : Z) : option (mem * Z) :=
  match s with
  | [] => None
  | c :: t => if c =? SLASH then skip_slashes t (pos + 1) else Some (s, pos)
  end.

Fixpoint seg_end (s : mem) (slen : Z) : option (mem * Z) :=
  match s with
  | [] => None
  | c :: t => if negb (c =? 0) && negb (c =? SLASH) then seg_end t (slen + 1) else Some (s, slen)
  end.

(** [segs] is the pairs [(seg_start[i], seg_len[i])] for [i < nseg]. *)
Fixpoint canon_scan (fuel : nat) (s : mem) (pos : Z) (segs : list (Z * Z)) : option (list (Z * Z)) :=
  match fuel with
  | O => None
  | S fuel =>
      c ← ld s 0;
      if c =? 0 then Some segs
      else
        '(s, pos) ← skip_slashes s pos;
        c ← ld s 0;
        if c =? 0 then Some segs
        else
          '(s', slen) ← seg_end s 0;
          let pos' := pos + slen in
          dot ← (if slen =? 1 then c0 ← ld s 0; Some (c0 =? DOT) else Some false);
          if dot : bool then canon_scan fuel s' pos' segs
          else
            dotdot ← (if slen =? 2 then c0 ← ld s 0; c1 ← ld s 1; Some ((c0 =? DOT) && (c1 =? DOT))
                      else Some false);
            if dotdot : bool then
              canon_scan fuel s' pos'
                (if 0 <? zlen segs then take (Z.to_nat (zlen segs - 1)) segs else segs)
            else if SEG_MAX <=? zlen segs then Some segs
            else canon_scan fuel s' pos' (segs ++ [(pos, slen)])
  end.

(** [for (int j = 0; j < seg_len[i] && p < out_max - 1; j++)] *)
Fixpoint emit_seg (n : nat) (abs : mem) (from p out_max : Z) (out : mem) : option (mem * Z) :=
  match n with
  | O => Some (out, p)
  | S n =>
      if p <? out_max - 1 then
        c ← ld abs from; out' ← st out p c; emit_seg n abs (from + 1) (p + 1) out_max out'
      else Some (out, p)
  end.

Fixpoint emit_segs (segs : list (Z * Z)) (abs : mem) (p out_max : Z) (out : mem)
  : option (mem * Z) :=
  match segs with
  | [] => Some (out, p)
  | (start, len) :: segs =>
      if p <? out_max - 2 then
        out' ← st out p SLASH;
        '(out', p') ← emit_seg (Z.to_nat len) abs start (p + 1) out_max out';
        emit_segs segs abs p' out_max out'
      else Some (out, p)
  end.

Definition canon_abs (cwd path : mem) (out : mem) (out_max : Z) : option mem :=
  abs ← vfs_make_abs cwd path (replicate (Z.to_nat PATH_BUF) 0) PATH_BUF;
  segs ← canon_scan 513 abs 0 [];
  '(out, p) ← emit_segs segs abs 0 out_max out;
  '(out, p) ← (if p =? 0 then out' ← st out p SLASH; Some (out', p + 1) else Some (out, p)
               : option (mem * Z));
  st out p 0.

(** [vfs_strlcpy] *)
Definition vfs_strlcpy (dst src : mem) (max : Z) : option mem :=
  '(dst, i) ← copy_while src 0 (max - 1) dst; st dst i 0.

(** [for (int i = 0; abs[i]; i++) if (abs[i] == '/') last_slash = i] *)
Fixpoint last_slash (s : mem) (i last : Z) : option Z :=
  match s with
  | [] => None
  | c :: t => if c =? 0 then Some last else last_slash t (i + 1) (if c =? SLASH then i else last)
  end.

(** Where [vfs_resolve_parent_follow] continues: at the root, or by walking a
    path from the root. *)
Inductive parent_of := AtRoot | Walk (path : mem).

Definition split_parent (cwd path basename_out : mem) (basename_max : Z)
  : option (mem * parent_of) :=
  abs ← canon_abs cwd path (replicate (Z.to_nat PATH_BUF) 0) PATH_BUF;
  ls ← last_slash abs 0 (-1);
  if ls <=? 0 then
    let bn := if ls =? 0 then drop 1 abs else path in
    b ← vfs_strlcpy basename_out bn basename_max;
    Some (b, if ls =? 0 then AtRoot else Walk cwd)
  else
    b ← vfs_strlcpy basename_out (drop (Z.to_nat (ls + 1)) abs) basename_max;
    pp ← copy_loop (Z.to_nat (Z.min ls 511)) (replicate (Z.to_nat PATH_BUF) 0) 0 abs 0;
    pp ← st pp ls 0;
    pp ← (if ls =? 0 then st pp 0 0 else Some pp);
    Some (b, Walk pp).

(** ** Paths as lists of segments *)

Fixpoint split_go (cur t : list Z) : list (list Z) :=
  match t with
  | [] => if bool_decide (cur = []) then [] else [cur]
  | c :: t =>
      if c =? SLASH then
        if bool_decide (cur = []) then split_go [] t else cur :: split_go [] t
      else split_go (cur ++ [c]) t
  end.

Definition segs_of (t : list Z) : list (list Z) := split_go [] t.

(** The directory stack; the code keeps at most [SEG_MAX] segments. *)
Fixpoint norm (stack segs : list (list Z)) : list (list Z) :=
  match segs with
  | [] => stack
  | g :: r =>
      if bool_decide (g = [DOT]) then norm stack r
      else if bool_decide (g = [DOT; DOT]) then norm (take (length stack - 1) stack) r
      else if SEG_MAX <=? zlen stack then stack
      else norm (stack ++ [g]) r
  end.

Definition join (segs : list (list Z)) : list Z := mjoin ((fun g => SLASH :: g) <$> segs).

Definition canon_text (t : list Z) : list Z :=
  let l := norm [] (segs_of t) in if bool_decide (l = []) then [SLASH] else join l.

(** The absolute path of [p] for a process in [cwd], as the buffers cut it. *)
Definition with_slash (w : list Z) : list Z :=
  match ld w (zlen w - 1) with
  | Some l => if l =? SLASH then w else w ++ [SLASH]
  | None => w
  end.

Definition rooted (p : list Z) : bool :=
  match p with c :: _ => c =? SLASH | [] => false end.

Definition abs_text (cwd p : list Z) : list Z :=
  if rooted p then take 511 p else take 511 (with_slash (take 510 cwd) ++ p).

Definition seg_ok (g : list Z) : Prop := g <> [] /\ Forall (fun c => c <> 0 /\ c <> SLASH) g.

Lemma split_go_ok cur t :
  Forall (fun c => c <> 0 /\ c <> SLASH) cur -> Forall (fun c => c <> 0) t ->
  Forall seg_ok (split_go cur t).
Proof.
  revert cur. induction t as [|c t IH]; intros cur Hc Ht; cbn [split_go].
  { case_bool_decide; repeat constructor; done. }
  apply Forall_cons_1 in Ht as [Hc0 Ht]. case_if; b2p.
  - case_bool_decide; [by apply IH|]. constructor; [by split|by apply IH].
  - apply IH; [|done]. apply Forall_app_2; [done|]. by repeat constructor.
Qed.

Lemma norm_Forall (P : list Z -> Prop) stack segs :
  Forall P stack -> Forall P segs -> Forall P (norm stack segs).
Proof.
  revert stack. induction segs as [|g r IH]; intros stack Hs Hg; [done|].
  apply Forall_cons_1 in Hg as [Hg Hr]. cbn [norm]. do 2 (case_bool_decide; [by apply IH; auto using Forall_take|]).
  case_if; [done|]. apply IH; [|done]. apply Forall_app_2; [done|by constructor].
Qed.

(** [norm] leaves neither "." nor "..". *)
Definition seg_clean (g : list Z) : Prop := seg_ok g /\ g <> [DOT] /\ g <> [DOT; DOT].

Lemma norm_clean stack segs :
  Forall seg_clean stack -> Forall seg_ok segs -> zlen stack <= SEG_MAX ->
  Forall seg_clean (norm stack segs) /\ zlen (norm stack segs) <= SEG_MAX.
Proof.
  revert stack. induction segs as [|g r IH]; intros stack Hs Hg Hl; [done|].
  apply Forall_cons_1 in Hg as [Hg Hr]. cbn [norm].
  case_bool_decide; [by apply IH|]. case_bool_decide.
  { apply IH; [by apply Forall_take|done|]. unfold zlen in *. rewrite length_take. lia. }
  case_if; [done|]. b2p. apply IH; [|done|].
  - apply Forall_app_2; [done|]. by constructor.
  - rewrite zlen_app, zlen_1. lia.
Qed.

(** A clean stack is already normal. *)
Lemma norm_id stack segs :
  Forall seg_clean segs -> zlen stack + zlen segs <= SEG_MAX -> norm stack segs = stack ++ segs.
Proof.
  revert stack. induction segs as [|g r IH]; intros stack Hg Hl; [by rewrite app_nil_r|].
  apply Forall_cons_1 in Hg as [(_ & H1 & H2) Hr]. cbn [norm]. rewrite zlen_cons in Hl.
  pose proof (zlen_nonneg r). rewrite !bool_decide_eq_false_2 by done.
  rewrite (proj2 (Z.leb_gt _ _)) by lia. rewrite IH; [by rewrite <- app_assoc|done|].
  rewrite zlen_app, zlen_1. lia.
Qed.

(** ** Splitting what was joined *)

Lemma split_go_seg cur g t :
  Forall (fun c => c <> 0 /\ c <> SLASH) g -> split_go cur (g ++ t) = split_go (cur ++ g) t.
Proof.
  revert cur. induction g as [|c g IH]; intros cur Hg; [by rewrite app_nil_r|].
  apply Forall_cons_1 in Hg as [[_ Hc] Hg]. cbn [app split_go].
  rewrite (proj2 (Z.eqb_neq c SLASH)) by done. rewrite IH by done. by rewrite <- app_assoc.
Qed.

Lemma segs_of_seg g t :
  seg_ok g -> segs_of (SLASH :: g ++ t) = match t with
    | [] => [g]
    | c :: t' => if c =? SLASH then g :: segs_of t' else split_go g t
    end.
Proof.
  intros [Hn Hg]. unfold segs_of. cbn [split_go]. rewrite Z.eqb_refl, bool_decide_eq_true_2 by done.
  rewrite split_go_seg by done. destruct t as [|c t']; cbn [app split_go].
  - by rewrite bool_decide_eq_false_2.
  - case_if; [by rewrite bool_decide_eq_false_2|done].
Qed.

Lemma segs_of_join l : Forall seg_ok l -> segs_of (join l) = l.
Proof.
  induction l as [|g l IH]; intros Hl; [done|]. apply Forall_cons_1 in Hl as [Hg Hl].
  unfold join in *. cbn [fmap list_fmap mjoin list_join app]. rewrite segs_of_seg by done.
  specialize (IH Hl). destruct l as [|g' l]; [done|].
  cbn [fmap list_fmap mjoin list_join app] in *. rewrite Z.eqb_refl. f_equal. unfold segs_of in *.
  cbn [split_go] in IH. by rewrite Z.eqb_refl, bool_decide_eq_true_2 in IH.
Qed.

(** ** Sizes *)

Lemma zlen_join l : zlen (join l) = zlen l + zlen (mjoin l).
Proof.
  induction l as [|g l IH]; [done|]. unfold join in *. cbn [fmap list_fmap mjoin list_join].
  rewrite !zlen_app, !zlen_cons. unfold mjoin in *. lia.
Qed.

Lemma join_app a b : join (a ++ b) = join a ++ join b.
Proof. unfold join. by rewrite fmap_app, join_app. Qed.

Lemma zlen_join_split cur t : zlen (join (split_go cur t)) <= zlen cur + zlen t + 1.
Proof.
  revert cur. induction t as [|c t IH]; intros cur; cbn [split_go].
  { rewrite zlen_nil. pose proof (zlen_nonneg cur).
    case_bool_decide; unfold join; cbn; rewrite ?app_nil_r, ?zlen_cons, ?zlen_nil; lia. }
  rewrite zlen_cons. case_if.
  - specialize (IH []). rewrite zlen_nil in IH. pose proof (zlen_nonneg cur). case_bool_decide; [lia|].
    unfold join in *. cbn [fmap list_fmap mjoin list_join app]. rewrite zlen_cons, zlen_app.
    unfold mjoin in *. lia.
  - specialize (IH (cur ++ [c])). rewrite zlen_app, zlen_1 in IH. lia.
Qed.

Lemma zlen_join_take (k : nat) l : zlen (join (take k l)) <= zlen (join l).
Proof.
  rewrite <- (take_drop k l) at 2. rewrite join_app, zlen_app. pose proof (zlen_nonneg (join (drop k l))). lia.
Qed.

Lemma zlen_join_norm stack segs : zlen (join (norm stack segs)) <= zlen (join stack) + zlen (join segs).
Proof.
  revert stack. induction segs as [|g r IH]; intros stack; cbn [norm]; [unfold join at 3; cbn; rewrite zlen_nil; lia|].
  assert (Hj : zlen (join (g :: r)) = zlen (join [g]) + zlen (join r))
    by (change (g :: r) with ([g] ++ r); by rewrite join_app, zlen_app).
  pose proof (zlen_nonneg (join [g])). pose proof (zlen_nonneg (join r)).
  case_bool_decide; [specialize (IH stack); lia|]. case_bool_decide.
  { specialize (IH (take (length stack - 1) stack)).
    pose proof (zlen_join_take (length stack - 1) stack). lia. }
  case_if; [lia|]. specialize (IH (stack ++ [g])). rewrite join_app, zlen_app in IH. lia.
Qed.

(** ** The buffers *)

Lemma copy_while_ok src t p lim dst :
  cstr src t -> 0 <= p -> lim <= zlen dst ->
  let n := Z.min (zlen t) (Z.max 0 (lim - p)) in
  copy_while src p lim dst = Some (splice p (take (Z.to_nat n) t) dst, p + n).
Proof.
  intros Hs Hp Hl. cbv zeta. revert src p dst Hs Hp Hl. induction t as [|c t IH]; intros src p dst Hs Hp Hl.
  { apply cstr_nil_inv in Hs as [r ->]. cbn [copy_while Z.eqb negb andb]. rewrite take_nil, splice_nil, zlen_nil.
    do 2 f_equal. lia. }
  apply cstr_cons_inv in Hs as (src' & -> & Hc & Hs). cbn [copy_while].
  rewrite (proj2 (Z.eqb_neq c 0)) by done. cbn [negb andb]. rewrite zlen_cons. pose proof (zlen_nonneg t).
  case_if; b2p.
  - rewrite st_in by lia. ob. rewrite IH by (done || rewrite ?zlen_insert; lia).
    set (n := Z.min (zlen t) (Z.max 0 (lim - (p + 1)))).
    replace (Z.min (1 + zlen t) (Z.max 0 (lim - p))) with (n + 1) by lia.
    replace (Z.to_nat (n + 1)) with (S (Z.to_nat n)) by lia. cbn [take].
    rewrite splice_cons; [do 2 f_equal; lia|lia|]. unfold zlen in *. rewrite length_take. lia.
  - replace (Z.min (1 + zlen t) (Z.max 0 (lim - p))) with 0 by lia.
    change (take (Z.to_nat 0) (c :: t)) with (@nil Z). rewrite splice_nil. do 2 f_equal. lia.
Qed.

Lemma cstr_st out p l (buf : mem) :
  0 <= p < zlen buf -> zlen l = p -> Forall (fun c => c <> 0) l -> out = splice 0 l buf ->
  exists out', st out p 0 = Some out' /\ cstr out' l /\ zlen out' = zlen buf.
Proof.
  intros Hp Hl Hnz ->.
  assert (Hz : zlen (splice 0 l buf) = zlen buf) by (apply zlen_splice; lia).
  rewrite st_in by lia. eexists. split; [done|]. rewrite zlen_insert. split; [|done]. split; [|done].
  exists (drop (S (length l)) buf). rewrite splice_0.
  replace (Z.to_nat p) with (length l + 0)%nat by (unfold zlen in Hl; lia).
  rewrite insert_app_r. f_equal. unfold zlen in *.
  rewrite (drop_S buf (buf !!! length l) (length l)); [done|]. apply list_lookup_lookup_total_lt. lia.
Qed.

Lemma splice_splice_0 (a b m : mem) :
  zlen a + zlen b <= zlen m -> splice (zlen a) b (splice 0 a m) = splice 0 (a ++ b) m.
Proof. intros. rewrite <- (Z.add_0_l (zlen a)) at 1. apply splice_app; lia. Qed.

Lemma cwd_part_ok cwd w (buf : mem) :
  cstr cwd w -> zlen buf = 512 ->
  ('(abs, p) ← copy_while cwd 0 (512 - 2) buf;
   if 0 <? p then
     l ← ld abs (p - 1);
     if negb (l =? SLASH) then abs' ← st abs p SLASH; Some (abs', p + 1) else Some (abs, p)
   else Some (abs, p)) =
  Some (splice 0 (with_slash (take 510 w)) buf, zlen (with_slash (take 510 w))) /\
  zlen (with_slash (take 510 w)) <= 511.
Proof.
  intros Hw Hb. rewrite (copy_while_ok cwd w) by (done || lia). cbv zeta. ob.
  rewrite Z.sub_0_r, Z.add_0_l. pose proof (zlen_nonneg w).
  set (n := Z.min (zlen w) (Z.max 0 (512 - 2))).
  assert (Ht : take (Z.to_nat n) w = take 510 w).
  { destruct (decide (zlen w <= 510)).
    - rewrite !take_ge; [done| |]; unfold zlen in *; lia.
    - f_equal. lia. }
  rewrite Ht. set (v := take 510 w) in *.
  assert (Hv : zlen v = n) by (unfold v, zlen in *; rewrite length_take; lia).
  rewrite <- Hv. unfold with_slash. case_if; b2p.
  - destruct (ld_in v (zlen v - 1)) as [l El]; [lia|].
    rewrite ld_splice_in by lia. rewrite Z.sub_0_r, El. ob.
    destruct (l =? SLASH); cbn [negb]; [split; [done|lia]|].
    rewrite st_in by (rewrite zlen_splice; lia). ob. rewrite zlen_app, zlen_1. split; [|lia].
    do 2 f_equal. rewrite <- splice_splice_0 by (rewrite zlen_1; lia).
    rewrite splice_cons by (rewrite ?zlen_nil, ?zlen_splice; lia). by rewrite splice_nil.
  - rewrite ld_out by lia. split; [done|lia].
Qed.

Lemma make_abs_ok cwd w path t (buf : mem) :
  cstr cwd w -> cstr path t -> zlen buf = 512 ->
  exists abs, vfs_make_abs cwd path buf 512 = Some abs /\ cstr abs (abs_text w t) /\ zlen abs = 512.
Proof.
  intros Hw Ht Hb. unfold vfs_make_abs.
  assert (Hr : exists c, ld path 0 = Some c /\ (c =? SLASH) = rooted t).
  { destruct t as [|c t].
    - apply cstr_nil_inv in Ht as [r ->]. by exists 0.
    - apply cstr_cons_inv in Ht as (r & -> & _). by exists c. }
  destruct Hr as (c & -> & Hc). ob. rewrite Hc.
  assert (Hnz : Forall (fun c => c <> 0) (abs_text w t)).
  { unfold abs_text, with_slash. case_if; [apply Forall_take, Ht|]. apply Forall_take, Forall_app_2; [|apply Ht].
    assert (Forall (fun c => c <> 0) (take 510 w)) by apply Forall_take, Hw.
    destruct (ld _ _) as [l|]; [|done]. case_if; [done|]. apply Forall_app_2; [done|]. by repeat constructor. }
  assert (Hfin : forall v, zlen v <= 511 -> abs_text w t = take 511 (v ++ t) -> exists abs,
    ('(abs, p) ← copy_while path (zlen v) (512 - 1) (splice 0 v buf); st abs p 0) = Some abs /\
    cstr abs (abs_text w t) /\ zlen abs = 512).
  { intros v Hv Habs. pose proof (zlen_nonneg v). pose proof (zlen_nonneg t).
    rewrite (copy_while_ok path t) by (done || rewrite ?zlen_splice; lia). cbv zeta. ob.
    set (n := Z.min (zlen t) (Z.max 0 (512 - 1 - zlen v))).
    assert (Hn : zlen (take (Z.to_nat n) t) = n) by (unfold zlen in *; rewrite length_take; lia).
    rewrite splice_splice_0 by lia. rewrite <- Hb.
    assert (Habs' : abs_text w t = v ++ take (Z.to_nat n) t).
    { rewrite Habs, take_app. f_equal; [apply take_ge; unfold zlen in *; lia|].
      destruct (decide (zlen t <= 511 - zlen v)).
      - rewrite !take_ge; [done| |]; unfold zlen in *; lia.
      - f_equal. unfold zlen in *. lia. }
    rewrite Habs' in *. apply cstr_st with (buf := buf); [lia|rewrite zlen_app; lia|done|done]. }
  unfold abs_text in *. destruct (rooted t); cbn [negb].
  - ob. replace buf with (splice 0 [] buf) at 1 by apply splice_nil. apply (Hfin []); [rewrite zlen_nil; lia|done].
  - destruct (cwd_part_ok cwd w buf Hw Hb) as [-> Hl]. ob. by apply Hfin.
Qed.

(** ** The scan *)

Lemma skip_slashes_ok s t pos :
  cstr s t -> exists (k : nat) t1, skip_slashes s pos = Some (drop k s, pos + Z.of_nat k) /\
    cstr (drop k s) t1 /\ segs_of t1 = segs_of t /\ rooted t1 = false /\
    (k + length t1 = length t)%nat.
Proof.
  revert s pos. induction t as [|c t IH]; intros s pos Hs.
  { exists 0%nat, []. pose proof Hs as [r ->]%cstr_nil_inv. cbn [skip_slashes].
    change (0 =? SLASH) with false. rewrite drop_0, Z.add_0_r. by repeat (split; [done|]). }
  pose proof Hs as (s' & -> & Hc & Hs')%cstr_cons_inv. cbn [skip_slashes]. case_if; b2p.
  - destruct (IH s' (pos + 1) Hs') as (k & t1 & -> & H1 & H2 & H3 & H4). exists (S k), t1.
    cbn [drop length]. split; [do 2 f_equal; lia|]. split; [done|]. split; [|split; [done|lia]].
    rewrite H2. unfold segs_of. cbn [split_go]. subst c. by rewrite Z.eqb_refl, bool_decide_eq_true_2.
  - exists 0%nat, (c :: t). rewrite drop_0. split; [do 2 f_equal; lia|]. repeat (split; [done|]).
    split; [|done]. cbn. by apply Z.eqb_neq.
Qed.

Lemma seg_end_ok s t n :
  cstr s t -> exists g t2, seg_end s n = Some (drop (length g) s, n + zlen g) /\ t = g ++ t2 /\
    cstr (drop (length g) s) t2 /\ Forall (fun c => c <> 0 /\ c <> SLASH) g /\
    (t2 = [] \/ rooted t2 = true).
Proof.
  revert s n. induction t as [|c t IH]; intros s n Hs.
  { exists [], []. pose proof Hs as [r ->]%cstr_nil_inv. cbn [seg_end length].
    change (zlen (@nil Z)) with 0. rewrite Z.add_0_r. repeat (split; [done|]). by left. }
  pose proof Hs as (s' & -> & Hc & Hs')%cstr_cons_inv. cbn [seg_end].
  rewrite (proj2 (Z.eqb_neq c 0)) by done. cbn [negb andb]. destruct (c =? SLASH) eqn:E; cbn [negb]; b2p.
  - exists [], (c :: t). cbn [length]. change (zlen (@nil Z)) with 0. rewrite Z.add_0_r.
    repeat (split; [done|]). right. cbn. by apply Z.eqb_eq.
  - destruct (IH s' (n + 1) Hs') as (g & t2 & -> & -> & H1 & H2 & H3). exists (c :: g), t2.
    cbn [length drop]. rewrite zlen_cons. split; [do 2 f_equal; lia|]. repeat (split; [done|]).
    split; [by constructor|done].
Qed.

Lemma segs_of_cons g t :
  g <> [] -> Forall (fun c => c <> 0 /\ c <> SLASH) g -> t = [] \/ rooted t = true ->
  segs_of (g ++ t) = g :: segs_of t.
Proof.
  intros Hn Hg Ht. unfold segs_of. rewrite split_go_seg by done. cbn [app].
  destruct t as [|c t]; cbn [split_go].
  - rewrite bool_decide_eq_false_2 by done. by rewrite bool_decide_eq_true_2.
  - destruct Ht as [?|Hr]; [done|]. cbn in Hr. rewrite Hr.
    by rewrite bool_decide_eq_false_2, bool_decide_eq_true_2.
Qed.

Definition seg_text (abs : mem) (x : Z * Z) : list Z := slice x.1 x.2 abs.
Definition seg_in (abs : mem) (x : Z * Z) : Prop := 0 <= x.1 /\ 0 < x.2 /\ x.1 + x.2 <= zlen abs.

(** The tests for "." and "..". *)
Lemma dot_tests s g t :
  cstr s (g ++ t) -> g <> [] ->
  (if zlen g =? 1 then c0 ← ld s 0; Some (c0 =? DOT) else Some false) = Some (bool_decide (g = [DOT])) /\
  (if zlen g =? 2 then c0 ← ld s 0; c1 ← ld s 1; Some ((c0 =? DOT) && (c1 =? DOT)) else Some false)
    = Some (bool_decide (g = [DOT; DOT])).
Proof.
  intros [[r ->] _] Hn.
  assert (Hb1 : forall a, (a =? DOT) = bool_decide ([a] = [DOT])).
  { intros a. destruct (Z.eqb_spec a DOT) as [->|Ha]; symmetry; [by apply bool_decide_eq_true_2|].
    apply bool_decide_eq_false_2. congruence. }
  destruct g as [|a [|b [|c g]]]; [done| | |].
  - change (zlen [a] =? 1) with true. change (zlen [a] =? 2) with false. cbv iota.
    change (ld _ 0) with (Some a). ob. rewrite Hb1. split; [done|]. by rewrite bool_decide_eq_false_2.
  - change (zlen [a; b] =? 1) with false. change (zlen [a; b] =? 2) with true. cbv iota.
    change (ld _ 0) with (Some a). change (ld _ 1) with (Some b). ob.
    split; [by rewrite bool_decide_eq_false_2|]. f_equal. symmetry.
    destruct (Z.eqb_spec a DOT), (Z.eqb_spec b DOT); subst; cbn [andb];
      first [apply bool_decide_eq_true_2; done | apply bool_decide_eq_false_2; congruence].
  - assert (zlen (a :: b :: c :: g) >= 3) by (rewrite !zlen_cons; pose proof (zlen_nonneg g); lia).
    rewrite (proj2 (Z.eqb_neq _ 1)), (proj2 (Z.eqb_neq _ 2)) by lia.
    split; f_equal; symmetry; apply bool_decide_eq_false_2; congruence.
Qed.

Lemma canon_scan_ok abs (fuel : nat) (pos : nat) t segs :
  cstr (drop pos abs) t -> (length t < fuel)%nat -> Forall (seg_in abs) segs ->
  exists segs', canon_scan fuel (drop pos abs) (Z.of_nat pos) segs = Some segs' /\
    seg_text abs <$> segs' = norm (seg_text abs <$> segs) (segs_of t) /\ Forall (seg_in abs) segs'.
Proof.
  revert pos t segs. induction fuel as [|fuel IH]; intros pos t segs Hs Hf Hin; [lia|].
  cbn [canon_scan].
  assert (Hld : forall s t, cstr s t -> exists c, ld s 0 = Some c /\ (c = 0 <-> t = [])).
  { intros s u Hu. destruct u as [|x u].
    - apply cstr_nil_inv in Hu as [r ->]. by exists 0.
    - apply cstr_cons_inv in Hu as (r & -> & Hx & _). by exists x. }
  destruct (Hld _ _ Hs) as (c & -> & Hc0). ob. case_if; b2p.
  { rewrite (proj1 Hc0) by done. eauto. }
  destruct (skip_slashes_ok _ _ (Z.of_nat pos) Hs) as (k & t1 & -> & Hs1 & <- & Hr1 & Hk). ob.
  destruct (Hld _ _ Hs1) as (c1 & Hl1 & Hc1). rewrite Hl1. ob. case_if; b2p.
  { rewrite (proj1 Hc1) by done. eauto. }
  destruct (seg_end_ok _ _ 0 Hs1) as (g & t2 & -> & -> & Hs2 & Hg & Ht2). ob. rewrite Z.add_0_l.
  assert (Hgn : g <> []).
  { intros ->. cbn [app] in *. destruct Ht2 as [->|Hr2]; [by apply Hif0, Hc1|congruence]. }
  rewrite segs_of_cons by done. cbn [norm].
  destruct (dot_tests _ g t2 Hs1 Hgn) as [Hd Hdd]. rewrite Hl1 in Hd, Hdd.
  cbn [mbind option_bind] in Hd, Hdd. rewrite Hd. ob. rewrite !drop_drop in *.
  rewrite length_app in Hk. assert (0 < length g)%nat by (destruct g; [done|cbn; lia]).
  replace (Z.of_nat pos + Z.of_nat k + zlen g) with (Z.of_nat (pos + (k + length g))) by (unfold zlen; lia).
  destruct (bool_decide (g = [DOT])); [apply IH; done || lia|].
  rewrite Hdd. ob. destruct (bool_decide (g = [DOT; DOT])).
  { rewrite length_fmap.
    replace (if 0 <? zlen segs then take (Z.to_nat (zlen segs - 1)) segs else segs)
      with (take (length segs - 1) segs).
    - rewrite <- fmap_take. apply IH; [done|lia|by apply Forall_take].
    - case_if; b2p; [f_equal; unfold zlen; lia|]. destruct segs; [done|]. rewrite zlen_cons in Hif1.
      pose proof (zlen_nonneg segs). lia. }
  replace (zlen (seg_text abs <$> segs)) with (zlen segs) by (unfold zlen; by rewrite length_fmap).
  case_if; [eauto|].
  assert (Hx : seg_in abs (Z.of_nat pos + Z.of_nat k, zlen g) /\
               seg_text abs (Z.of_nat pos + Z.of_nat k, zlen g) = g).
  { destruct Hs1 as [[r Hr] _]. unfold seg_in, seg_text, slice. cbn [fst snd]. unfold zlen.
    replace (Z.to_nat (Z.of_nat pos + Z.of_nat k)) with (pos + k)%nat by lia. rewrite Nat2Z.id, Hr.
    rewrite <- app_assoc, take_app_length. split; [|done].
    apply (f_equal length) in Hr. rewrite length_drop, !length_app in Hr. cbn in Hr. lia. }
  destruct Hx as [Hx1 Hx2].
  replace ((seg_text abs <$> segs) ++ [g])
    with (seg_text abs <$> (segs ++ [(Z.of_nat pos + Z.of_nat k, zlen g)]))
    by (rewrite fmap_app; cbn [fmap list_fmap]; by rewrite Hx2).
  apply IH; [done|lia|]. apply Forall_app_2; [done|by constructor].
Qed.

(** ** The canonical path *)

Lemma emit_seg_ok (n : nat) abs from p out_max out :
  0 <= from -> from + Z.of_nat n <= zlen abs -> 0 <= p -> p + Z.of_nat n <= out_max - 1 ->
  out_max <= zlen out ->
  emit_seg n abs from p out_max out = Some (splice p (slice from (Z.of_nat n) abs) out, p + Z.of_nat n).
Proof.
  revert from p out. induction n as [|n IH]; intros from p out Hf Ha Hp Hm Ho; cbn [emit_seg].
  { rewrite slice_0, splice_nil. do 2 f_equal. lia. }
  rewrite (proj2 (Z.ltb_lt p (out_max - 1))) by lia.
  destruct (ld_in abs from) as [c Hc]; [lia|]. rewrite Hc. ob. rewrite st_in by lia. ob.
  rewrite IH by (rewrite ?zlen_insert; lia).
  replace (Z.of_nat (S n)) with (1 + Z.of_nat n) by lia.
  rewrite slice_app_split by lia. rewrite (slice_1 from abs c) by (done || lia). cbn [app].
  rewrite splice_cons; [do 2 f_equal; lia|lia|]. rewrite zlen_slice by lia. lia.
Qed.

Lemma join_cons g l : join (g :: l) = (SLASH :: g) ++ join l.
Proof. done. Qed.

Lemma emit_segs_ok segs abs p out_max out :
  Forall (seg_in abs) segs -> 0 <= p -> p + zlen (join (seg_text abs <$> segs)) <= out_max - 1 ->
  out_max <= zlen out ->
  emit_segs segs abs p out_max out =
    Some (splice p (join (seg_text abs <$> segs)) out, p + zlen (join (seg_text abs <$> segs))).
Proof.
  revert p out. induction segs as [|[a n] segs IH]; intros p out Hin Hp Hm Ho.
  { change (join _) with (@nil Z). cbn [emit_segs]. rewrite splice_nil, zlen_nil. do 2 f_equal. lia. }
  apply Forall_cons_1 in Hin as [(Ha & Hn & Hl) Hin]. cbn [fst snd] in *.
  cbn [emit_segs fmap list_fmap] in *. rewrite join_cons in *.
  assert (Hg : zlen (seg_text abs (a, n)) = n) by (apply zlen_slice; cbn; lia).
  rewrite zlen_app, zlen_cons, Hg in Hm. pose proof (zlen_nonneg (join (seg_text abs <$> segs))).
  rewrite (proj2 (Z.ltb_lt p (out_max - 2))) by lia. rewrite st_in by lia. ob.
  rewrite emit_seg_ok by (rewrite ?zlen_insert; lia). ob. rewrite Z2Nat.id by lia.
  change (slice a n abs) with (seg_text abs (a, n)).
  rewrite <- splice_cons by lia.
  rewrite IH by (rewrite ?zlen_splice; rewrite ?zlen_cons, ?Hg; done || lia).
  replace (p + 1 + n) with (p + zlen (SLASH :: seg_text abs (a, n))) by (rewrite zlen_cons; lia).
  rewrite splice_app by (rewrite ?zlen_cons, ?Hg; lia). do 2 f_equal. rewrite zlen_app. lia.
Qed.

Lemma canon_text_join t l :
  l = norm [] (segs_of t) -> canon_text t = if bool_decide (l = []) then [SLASH] else join l.
Proof. by intros ->. Qed.

Lemma abs_text_rooted w t : rooted w || rooted t = true -> rooted (abs_text w t) = true.
Proof.
  unfold abs_text. destruct (rooted t) eqn:Et.
  - intros _. by destruct t.
  - rewrite orb_false_r. intros Hw. destruct w as [|c w]; [done|]. unfold with_slash.
    change (take 510 (c :: w)) with (c :: take 509 w).
    destruct (ld _ _) as [l|]; [|done]. by destruct (l =? SLASH).
Qed.

Lemma abs_text_nz w t :
  Forall (fun c => c <> 0) w -> Forall (fun c => c <> 0) t -> Forall (fun c => c <> 0) (abs_text w t).
Proof.
  intros Hw Ht. unfold abs_text, with_slash. case_if; [by apply Forall_take|].
  apply Forall_take, Forall_app_2; [|done].
  assert (Forall (fun c => c <> 0) (take 510 w)) by by apply Forall_take.
  destruct (ld _ _) as [l|]; [|done]. case_if; [done|]. apply Forall_app_2; [done|]. by repeat constructor.
Qed.

Lemma abs_text_len w t : zlen (abs_text w t) <= 511.
Proof. unfold abs_text. case_if; unfold zlen; rewrite length_take; lia. Qed.

Lemma canon_len t : rooted t = true -> zlen (join (norm [] (segs_of t))) <= zlen t.
Proof.
  intros Hr. destruct t as [|c t]; [done|]. cbn in Hr. b2p. subst c.
  pose proof (zlen_join_norm [] (segs_of (SLASH :: t))) as H1. change (join []) with (@nil Z) in H1.
  rewrite zlen_nil in H1. unfold segs_of in *. cbn [split_go] in *.
  rewrite Z.eqb_refl, bool_decide_eq_true_2 in * by done.
  pose proof (zlen_join_split [] t). rewrite zlen_nil, zlen_cons in *. lia.
Qed.

Lemma join_nz l : Forall seg_ok l -> Forall (fun c => c <> 0) (join l).
Proof.
  induction 1 as [|g l [_ Hg] Hl IH]; [constructor|]. rewrite join_cons.
  apply Forall_app_2; [|done]. constructor; [done|]. eapply Forall_impl; [|exact Hg]. by intros ? [? _].
Qed.

Lemma canon_abs_ok cwd w path t (out : mem) :
  cstr cwd w -> cstr path t -> rooted w || rooted t = true -> zlen out = 512 ->
  exists out', canon_abs cwd path out 512 = Some out' /\ cstr out' (canon_text (abs_text w t)) /\
    zlen out' = 512.
Proof.
  intros Hw Ht Hr Ho. unfold canon_abs, PATH_BUF. remember 513%nat as fuel eqn:Ef.
  destruct (make_abs_ok cwd w path t (replicate (Z.to_nat 512) 0)) as (abs & -> & Habs & Hal);
    [done..|]. sb.
  pose proof (abs_text_len w t) as Hlen.
  assert (Hok : Forall seg_ok (norm [] (segs_of (abs_text w t)))).
  { apply norm_Forall; [constructor|]. apply split_go_ok; [constructor|]. apply Habs. }
  destruct (canon_scan_ok abs fuel 0 (abs_text w t) []) as (segs & Hs & Htx & Hin);
    [by rewrite drop_0|unfold zlen in Hlen; lia|constructor|].
  rewrite drop_0 in Hs. change (Z.of_nat 0) with 0 in Hs. rewrite Hs. sb. cbn [fmap list_fmap] in Htx.
  pose proof (canon_len _ (abs_text_rooted w t Hr)) as Hcl.
  rewrite emit_segs_ok by (rewrite ?Htx; done || lia). ob. rewrite Htx, Z.add_0_l.
  unfold canon_text. set (l := norm [] (segs_of (abs_text w t))) in *.
  pose proof (zlen_nonneg (join l)). case_if; b2p.
  - assert (l = []) as ->.
    { destruct l as [|g l']; [done|]. rewrite join_cons, zlen_app, zlen_cons in Hif.
      pose proof (zlen_nonneg g). pose proof (zlen_nonneg (join l')). lia. }
    rewrite bool_decide_eq_true_2 by done. change (join []) with (@nil Z).
    change (zlen (@nil Z)) with 0. rewrite splice_nil, st_in by lia. ob. rewrite <- Ho. apply cstr_st; [lia|done|by repeat constructor|].
    destruct out; [done|]. done.
  - rewrite bool_decide_eq_false_2 by (intros ->; done). ob. rewrite <- Ho.
    apply cstr_st; [lia|done|by apply join_nz|done].
Qed.

Lemma segs_canon t :
  Forall (fun c => c <> 0) t ->
  segs_of (canon_text t) = norm [] (segs_of t) /\ rooted (canon_text t) = true /\
  Forall seg_clean (norm [] (segs_of t)) /\ zlen (norm [] (segs_of t)) <= SEG_MAX.
Proof.
  intros Ht. destruct (norm_clean [] (segs_of t)) as [Hc Hl];
    [constructor|apply split_go_ok; [constructor|done]|done|].
  unfold canon_text. set (l := norm [] (segs_of t)) in *. split; [|split; [|done]].
  - case_bool_decide as E; [by rewrite E|]. apply segs_of_join.
    eapply Forall_impl; [|exact Hc]. by intros ? [? _].
  - case_bool_decide; [done|]. by destruct l.
Qed.


Lemma canon_text_id l :
  l <> [] -> Forall seg_clean l -> zlen l <= SEG_MAX -> canon_text (join l) = join l.
Proof.
  intros Hn Hc Hl. unfold canon_text. rewrite segs_of_join by (eapply Forall_impl; [|exact Hc]; by intros ? [? _]).
  rewrite norm_id by done. cbn [app]. by rewrite bool_decide_eq_false_2.
Qed.

(** Canonicalising twice changes nothing.  The canonical path of a
    canonical path is itself, from any working directory. *)
Theorem canon_abs_idempotent cwd w path t out out1 out2 :
  cstr cwd w -> cstr path t -> rooted w = true -> zlen out = 512 ->
  canon_abs cwd path out 512 = Some out1 -> canon_abs cwd out1 out 512 = Some out2 ->
  exists r, cstr out1 r /\ cstr out2 r.
Proof.
  intros Hw Ht Hr Ho H1 H2.
  destruct (canon_abs_ok cwd w path t out Hw Ht) as (o1 & He1 & Hc1 & Hz1); [by rewrite Hr|done|].
  rewrite H1 in He1. injection He1 as <-.
  destruct (canon_abs_ok cwd w out1 (canon_text (abs_text w t)) out Hw Hc1) as (o2 & He2 & Hc2 & _);
    [by rewrite Hr|done|].
  rewrite H2 in He2. injection He2 as <-. exists (canon_text (abs_text w t)). split; [done|].
  destruct (segs_canon (abs_text w t)) as (Hs & Hroot & Hcl & Hl); [apply abs_text_nz; [apply Hw|apply Ht]|].
  set (r := canon_text (abs_text w t)) in *.
  assert (Hlen : zlen r <= 511).
  { destruct Hc1 as [[x ->] _]. rewrite zlen_app, zlen_cons in Hz1. pose proof (zlen_nonneg x). lia. }
  replace (canon_text (abs_text w r)) with r in Hc2; [done|].
  unfold abs_text. rewrite Hroot, take_ge by (unfold zlen in Hlen; lia).
  symmetry. set (l := norm [] (segs_of (abs_text w t))) in *.
  assert (Er : r = if bool_decide (l = []) then [SLASH] else join l) by done.
  rewrite Er. case_bool_decide; [done|by apply canon_text_id].
Qed.

(** Segments below depth 128 are dropped.  A clean path of more than 128
    segments canonicalises to the path of its first 128 segments, so the name
    of a file at depth 129 resolves to its parent directory. *)
Theorem canon_abs_deep cwd w path out l g r :
  Forall seg_clean l -> zlen l = SEG_MAX -> seg_clean g -> Forall seg_clean r ->
  cstr cwd w -> cstr path (join (l ++ g :: r)) -> zlen (join (l ++ g :: r)) <= 511 -> zlen out = 512 ->
  exists out', canon_abs cwd path out 512 = Some out' /\ cstr out' (join l).
Proof.
  intros Hl Hz Hg Hr Hw Hp Hlen Ho.
  assert (Hroot : rooted (join (l ++ g :: r)) = true) by (by destruct l).
  destruct (canon_abs_ok cwd w path _ out Hw Hp) as (out' & He & Hc & _); [rewrite Hroot; apply orb_true_r|done|].
  exists out'. split; [done|]. replace (join l) with (canon_text (abs_text w (join (l ++ g :: r)))); [done|].
  unfold abs_text. rewrite Hroot, take_ge by (unfold zlen in Hlen; lia). unfold canon_text.
  rewrite segs_of_join.
  2: { eapply Forall_impl; [|exact (Forall_app_2 _ _ _ Hl (Forall_cons_2 _ _ _ Hg Hr))]. by intros ? [? _]. }
  assert (Hn : norm [] (l ++ g :: r) = l).
  { enough (forall st, zlen st + zlen l = SEG_MAX -> norm st (l ++ g :: r) = st ++ l) as H
      by (apply (H []); by rewrite zlen_nil).
    clear -Hl Hg. induction Hl as [|x l (_ & Hx1 & Hx2) Hl IH]; intros st Hst; cbn [app norm].
    - rewrite zlen_nil in Hst. destruct Hg as (_ & Hg1 & Hg2). rewrite !bool_decide_eq_false_2 by done.
      rewrite (proj2 (Z.leb_le _ _)) by lia. by rewrite app_nil_r.
    - rewrite zlen_cons in Hst. pose proof (zlen_nonneg l). rewrite !bool_decide_eq_false_2 by done.
      rewrite (proj2 (Z.leb_gt _ _)) by lia. rewrite IH; [by rewrite <- app_assoc|].
      rewrite zlen_app, zlen_1. lia. }
  rewrite Hn. rewrite bool_decide_eq_false_2; [done|]. intros ->. done.
Qed.

(** ** Parent and base name *)

Lemma vfs_strlcpy_ok dst src t max :
  cstr src t -> 0 < max <= zlen dst ->
  exists dst', vfs_strlcpy dst src max = Some dst' /\ cstr dst' (take (Z.to_nat (max - 1)) t) /\
    zlen dst' = zlen dst.
Proof.
  intros Ht Hm. unfold vfs_strlcpy. rewrite (copy_while_ok src t) by (done || lia). cbv zeta. ob.
  pose proof (zlen_nonneg t). set (n := Z.min (zlen t) (Z.max 0 (max - 1 - 0))).
  assert (Hn : take (Z.to_nat n) t = take (Z.to_nat (max - 1)) t).
  { destruct (decide (zlen t <= max - 1)).
    - rewrite !take_ge; [done| |]; unfold zlen in *; lia.
    - f_equal. lia. }
  rewrite Hn, Z.add_0_l. apply cstr_st; [lia| |apply Forall_take, Ht|done].
  rewrite <- Hn. unfold zlen in *. rewrite length_take. lia.
Qed.

Lemma last_slash_app a s i last :
  Forall (fun c => c <> 0) a -> exists l, last_slash (a ++ s) i last = last_slash s (i + zlen a) l.
Proof.
  intros Ha. revert i last. induction Ha as [|c a Hc Ha IH]; intros i last.
  - exists last. by rewrite (zlen_nil (A:=Z)), Z.add_0_r.
  - cbn [app last_slash]. rewrite (proj2 (Z.eqb_neq c 0)) by done.
    destruct (IH (i + 1) (if c =? SLASH then i else last)) as [l ->]. exists l. f_equal. rewrite zlen_cons. lia.
Qed.

Lemma last_slash_seg g s i last :
  Forall (fun c => c <> 0 /\ c <> SLASH) g -> last_slash (g ++ 0 :: s) i last = Some last.
Proof.
  intros Hg. revert i. induction Hg as [|c g [Hc Hc'] Hg IH]; intros i; [done|]. cbn [app last_slash].
  rewrite (proj2 (Z.eqb_neq c 0)), (proj2 (Z.eqb_neq c SLASH)) by done. apply IH.
Qed.

(** The last slash of a canonical path is before its last segment. *)
Lemma last_slash_join l g s :
  Forall seg_ok l -> seg_ok g ->
  last_slash (join (l ++ [g]) ++ 0 :: s) 0 (-1) = Some (zlen (join l)).
Proof.
  intros Hl [_ Hg]. rewrite join_app, <- app_assoc, (join_cons g []).
  change (join []) with (@nil Z). rewrite app_nil_r.
  destruct (last_slash_app (join l) ((SLASH :: g) ++ 0 :: s) 0 (-1)) as [l' ->]; [by apply join_nz|].
  cbn [app last_slash]. rewrite Z.add_0_l. change (SLASH =? 0) with false. rewrite Z.eqb_refl.
  by apply last_slash_seg.
Qed.

(** The parent and the base name are the path.  When the canonical form
    of a path is not "/" itself, [vfs_resolve_parent_follow] splits it into
    the path of the parent (the root, or the segments but the last) and the
    last segment, cut to the caller's buffer; both buffers are written in
    bounds. *)
Theorem split_parent_exact cwd w path t l g base basename_max :
  cstr cwd w -> cstr path t -> rooted w = true -> 0 < basename_max <= zlen base ->
  norm [] (segs_of (abs_text w t)) = l ++ [g] ->
  exists b par, split_parent cwd path base basename_max = Some (b, par) /\
    cstr b (take (Z.to_nat (basename_max - 1)) g) /\
    match par with
    | AtRoot => l = []
    | Walk pp => l <> [] /\ cstr pp (join l)
    end.
Proof.
  intros Hw Ht Hr Hb Hn. unfold split_parent, PATH_BUF.
  assert (Hroot : rooted w || rooted t = true) by by rewrite Hr.
  destruct (canon_abs_ok cwd w path t (replicate (Z.to_nat 512) 0) Hw Ht Hroot) as (abs & -> & Hc & Hz);
    [done|]. sb.
  assert (Hok : Forall seg_ok (l ++ [g])).
  { rewrite <- Hn. apply norm_Forall; [constructor|]. apply split_go_ok; [constructor|].
    apply abs_text_nz; [apply Hw|apply Ht]. }
  apply Forall_app in Hok as [Hlok Hgok]. apply Forall_cons_1 in Hgok as [Hgok _].
  unfold canon_text in Hc. rewrite Hn in Hc. rewrite bool_decide_eq_false_2 in Hc by (by destruct l).
  pose proof Hc as [[r Hr'] Hnz].
  assert (Hls : last_slash abs 0 (-1) = Some (zlen (join l))) by (rewrite Hr'; by apply last_slash_join).
  rewrite Hls. sb.
  pose proof (zlen_nonneg (join l)). pose proof (zlen_nonneg g).
  assert (Habs : abs = join l ++ SLASH :: (g ++ 0 :: r)).
  { rewrite Hr', join_app, (join_cons g []). change (join []) with (@nil Z). rewrite app_nil_r, <- app_assoc. done. }
  assert (Hg : cstr (g ++ 0 :: r) g) by (split; [eauto|]; eapply Forall_impl; [|apply Hgok]; by intros ? [? _]).
  case_if; b2p.
  - assert (l = []) as ->.
    { destruct l as [|x l]; [done|]. rewrite join_cons, zlen_app, zlen_cons in *. pose proof (zlen_nonneg x).
      pose proof (zlen_nonneg (join l)). lia. }
    change (zlen (join [])) with 0. cbn [Z.eqb]. replace (drop 1 abs) with (g ++ 0 :: r) by (by rewrite Habs).
    destruct (vfs_strlcpy_ok base (g ++ 0 :: r) g basename_max Hg Hb) as (b & -> & Hb' & _). sb. eauto.
  - replace (drop (Z.to_nat (zlen (join l) + 1)) abs) with (g ++ 0 :: r).
    2: { rewrite Habs. unfold zlen. replace (Z.to_nat (Z.of_nat (length (join l)) + 1)) with (length (join l) + 1)%nat by lia.
         rewrite <- drop_drop, drop_app_length. done. }
    destruct (vfs_strlcpy_ok base (g ++ 0 :: r) g basename_max Hg Hb) as (b & -> & Hb' & _). sb.
    assert (Hjl : zlen (join l) <= 510).
    { rewrite Habs, !zlen_app, !zlen_cons, zlen_app, zlen_cons in Hz. pose proof (zlen_nonneg r). lia. }
    rewrite copy_loop_ok by (rewrite ?zlen_replicate; lia). sb. rewrite Z2Nat.id, Z.min_l by lia.
    replace (slice 0 (zlen (join l)) abs) with (join l).
    2: { rewrite Habs. unfold slice, zlen. rewrite Nat2Z.id, drop_0. by rewrite take_app_length. }
    destruct (cstr_st (splice 0 (join l) (replicate (Z.to_nat 512) 0)) (zlen (join l)) (join l)
      (replicate (Z.to_nat 512) 0)) as (pp & -> & Hpp & _); [rewrite zlen_replicate; lia|done|by apply join_nz|done|].
    sb. rewrite (proj2 (Z.eqb_neq _ 0)) by lia. sb. eexists _, _. split; [done|]. split; [done|]. split; [|done].
    intros ->. done.
Qed.

(** ** Examples *)

(** "/home" and "../a/./b" *)
Definition demo_cwd : mem := [47; 104; 111; 109; 101; 0].
Definition demo_path : mem := [46; 46; 47; 97; 47; 46; 47; 98; 0].
Definition path_buf : mem := replicate 512 0.

Lemma demo_cwd_ok : cstr demo_cwd [47; 104; 111; 109; 101].
Proof. split; [by exists []|by repeat constructor]. Qed.
Lemma demo_path_ok : cstr demo_path [46; 46; 47; 97; 47; 46; 47; 98].
Proof. split; [by exists []|by repeat constructor]. Qed.


Lemma canon_abs_idempotent_witness :
  exists out1 out2 r, canon_abs demo_cwd demo_path path_buf 512 = Some out1 /\
    canon_abs demo_cwd out1 path_buf 512 = Some out2 /\ cstr out1 r /\ cstr out2 r.
Proof.
  destruct (canon_abs_ok demo_cwd _ demo_path _ path_buf demo_cwd_ok demo_path_ok)
    as (out1 & H1 & Hc1 & _); [reflexivity|reflexivity|].
  destruct (canon_abs_ok demo_cwd _ out1 _ path_buf demo_cwd_ok Hc1)
    as (out2 & H2 & _ & _); [reflexivity|reflexivity|].
  destruct (canon_abs_idempotent demo_cwd _ demo_path _ path_buf out1 out2 demo_cwd_ok demo_path_ok)
    as (r & Hr1 & Hr2); [reflexivity|reflexivity|exact H1|exact H2|].
  exists out1, out2, r. auto.
Defined.

Lemma seg_clean_a : seg_clean [97].
Proof. split; [split; [done|]|]; [|done]. repeat constructor; done. Qed.

Lemma canon_abs_deep_witness :
  exists out', canon_abs demo_cwd (join (replicate 129 [97]) ++ [0]) path_buf 512 = Some out' /\
    cstr out' (join (replicate 128 [97])).
Proof.
  apply (canon_abs_deep demo_cwd [47; 104; 111; 109; 101] (join (replicate 129 [97]) ++ [0]) path_buf
           (replicate 128 [97]) [97] []).
  - apply Forall_replicate, seg_clean_a.
  - reflexivity.
  - exact seg_clean_a.
  - constructor.
  - exact demo_cwd_ok.
  - split; [exists []; vm_compute; reflexivity|]. apply join_nz, Forall_app_2.
    + apply Forall_replicate, seg_clean_a.
    + constructor; [apply seg_clean_a|constructor].
  - vm_compute. congruence.
  - reflexivity.
Defined.

Lemma split_parent_exact_witness :
  exists b pp, split_parent demo_cwd demo_path (replicate 128 0) 128 = Some (b, Walk pp) /\
    cstr b [98] /\ cstr pp [47; 97].
Proof.
  destruct (split_parent_exact demo_cwd _ demo_path _ [[97]] [98] (replicate 128 0) 128 demo_cwd_ok
              demo_path_ok) as (b & par & He & Hb & Hp).
  - reflexivity.
  - vm_compute. split; congruence.
  - vm_compute. reflexivity.
  - destruct par as [|pp]; [discriminate Hp|]. exists b, pp. destruct Hp as [_ Hp].
    split; [exact He|]. split; [exact Hb|exact Hp].
Defined.
