(* ===== verification/Vfs.v ===== *)
(** * vfs.c, vfs_ops.c, vfs_file.c: the virtual file system

    Nodes, the mount table, the symbolic link pool, path walks with and
    without following links, permission checks and the dispatch of every
    operation to the node's file system.  A file system is a table of optional
    methods ([vops]) acting on the whole state; [VfsLaws] is what the walks
    rely on.

    A node pointer is a node of some file system or an entry of the link pool;
    a null pointer is [None]. *)

From S2P Require Import Prelude Klib VfsPath.
#[local] Open Scope Z_scope.

Definition VFS_FILE : Z := 1.
Definition VFS_DIRECTORY : Z := 2.
Definition VFS_CHARDEVICE : Z := 3.
Definition VFS_BLOCKDEVICE : Z := 4.
Definition VFS_PIPE : Z := 5.
Definition VFS_SYMLINK : Z := 7.
Definition VFS_POLLIN : Z := 1.
Definition VFS_POLLOUT : Z := 4.
Definition VFS_POLLNVAL : Z := 32.
Definition VFS_SYMLINK_MAX_DEPTH : Z := 8.
Definition ELOOP : Z := 40.
Definition ENAMETOOLONG : Z := 36.
Definition VFS_MOUNT_MAX : Z := 32.
Definition VFS_SYMLINK_POOL_SIZE : Z := 256.
Definition VFS_SYMLINK_TARGET_MAX : Z := 512.

Inductive nptr := NFs (n : Z) | NSym (i : Z).

#[export] Instance nptr_eq_dec : EqDecision nptr.
Proof. solve_decision. Defined.
#[export] Instance nptr_countable : Countable nptr.
Proof.
  refine (inj_countable' (fun p => match p with NFs n => inl n | NSym i => inr i end)
            (fun x => match x with inl n => NFs n | inr i => NSym i end) _).
  by intros [].
Defined.

(** [vfs_node_t].  [v_ops] is the method table, 0 for a null pointer;
    [v_priv] is the private pointer read as a string. *)
Record vnode := mk_vnode {
  v_name : mem; v_type : Z; v_size : Z; v_inode : Z; v_refcount : Z;
  v_mode : Z; v_uid : Z; v_gid : Z; v_ops : Z; v_priv : option mem
}.

Definition set_refcount (r : Z) (n : vnode) : vnode :=
  mk_vnode (v_name n) (v_type n) (v_size n) (v_inode n) r (v_mode n) (v_uid n) (v_gid n)
    (v_ops n) (v_priv n).
Definition set_vname (nm : mem) (n : vnode) : vnode :=
  mk_vnode nm (v_type n) (v_size n) (v_inode n) (v_refcount n) (v_mode n) (v_uid n) (v_gid n)
    (v_ops n) (v_priv n).
Definition set_size (z : Z) (n : vnode) : vnode :=
  mk_vnode (v_name n) (v_type n) z (v_inode n) (v_refcount n) (v_mode n) (v_uid n) (v_gid n)
    (v_ops n) (v_priv n).
Definition set_perm (mode uid gid : Z) (n : vnode) : vnode :=
  mk_vnode (v_name n) (v_type n) (v_size n) (v_inode n) (v_refcount n) mode uid gid
    (v_ops n) (v_priv n).
Definition set_type (t : Z) (n : vnode) : vnode :=
  mk_vnode (v_name n) t (v_size n) (v_inode n) (v_refcount n) (v_mode n) (v_uid n) (v_gid n)
    (v_ops n) (v_priv n).

Record vfs_mount_t := mk_mount { m_host : nptr; m_target : nptr; m_name : mem }.
(** [vfs_symlink_entry_t]; the target text is the node's private pointer. *)
Record sym_entry := mk_sym { sy_node : vnode; sy_in_use : Z }.

Section State.
Context {F : Type}.

Record vstate := mk_vstate {
  mount_table : list vfs_mount_t;
  symlink_pool : list sym_entry;
  fs_nodes : gmap Z vnode;
  vfs_root : option nptr;
  fs_state : F
}.

Definition set_mounts (m : list vfs_mount_t) (s : vstate) : vstate :=
  mk_vstate m (symlink_pool s) (fs_nodes s) (vfs_root s) (fs_state s).
Definition set_pool (p : list sym_entry) (s : vstate) : vstate :=
  mk_vstate (mount_table s) p (fs_nodes s) (vfs_root s) (fs_state s).

Definition get_node (p : nptr) (s : vstate) : option vnode :=
  match p with
  | NFs n => fs_nodes s !! n
  | NSym i => e ← ld (symlink_pool s) i; Some (sy_node e)
  end.

Definition put_node (p : nptr) (n : vnode) (s : vstate) : option vstate :=
  match p with
  | NFs k => Some (mk_vstate (mount_table s) (symlink_pool s) (<[k := n]> (fs_nodes s)) (vfs_root s)
                             (fs_state s))
  | NSym i => e ← ld (symlink_pool s) i; l ← st (symlink_pool s) i (mk_sym n (sy_in_use e));
              Some (set_pool l s)
  end.

(** The methods of [vfs_ops_t] the generic layer calls. *)
Record vops := mk_vops {
  op_read : option (nptr -> Z -> Z -> mem -> vstate -> option (vstate * mem * Z));
  op_write : option (nptr -> Z -> Z -> mem -> vstate -> option (vstate * Z));
  op_open : option (nptr -> vstate -> option vstate);
  op_close : option (nptr -> vstate -> option vstate);
  op_walk : option (nptr -> mem -> vstate -> option (vstate * option nptr));
  op_create : option (nptr -> mem -> vstate -> option (vstate * Z));
  op_delete : option (nptr -> mem -> vstate -> option (vstate * Z));
  op_mkdir : option (nptr -> mem -> vstate -> option (vstate * Z));
  op_rmdir : option (nptr -> mem -> vstate -> option (vstate * Z));
  op_rename : option (nptr -> mem -> mem -> vstate -> option (vstate * Z));
  op_symlink : option (nptr -> mem -> mem -> vstate -> option (vstate * Z));
  op_link : option (nptr -> mem -> nptr -> vstate -> option (vstate * Z));
  op_unlink : option (nptr -> mem -> vstate -> option (vstate * Z));
  op_readlink : option (nptr -> mem -> Z -> vstate -> option (mem * Z));
  op_truncate : option (nptr -> Z -> vstate -> option (vstate * Z));
  op_chmod : option (nptr -> Z -> vstate -> option (vstate * Z));
  op_chown : option (nptr -> Z -> Z -> vstate -> option (vstate * Z));
  op_mknod : option (nptr -> mem -> Z -> Z -> vstate -> option (vstate * Z));
  op_stat : option (nptr -> mem -> vstate -> option (mem * Z));
  op_poll : option (nptr -> Z -> vstate -> option Z);
  op_lseek : option (nptr -> Z -> Z -> vstate -> option (Z * Z))
}.

Context (ops : Z -> vops).

(** [node->ops && node->ops->m]: a null table has no methods. *)
Definition method {M} (sel : vops -> option M) (n : vnode) : option M :=
  if v_ops n =? 0 then None else sel (ops (v_ops n)).

(** ** Reference counts *)

Definition vfs_node_ref (p : option nptr) (s : vstate) : option vstate :=
  match p with
  | None => Some s
  | Some p => n ← get_node p s; put_node p (set_refcount (u32 (v_refcount n + 1)) n) s
  end.

Definition vfs_node_unref (p : option nptr) (s : vstate) : option vstate :=
  match p with
  | None => Some s
  | Some p =>
      n ← get_node p s;
      let old := v_refcount n in
      s ← put_node p (set_refcount (u32 (old - 1)) n) s;
      if old =? 0 then
        n ← get_node p s; put_node p (set_refcount (u32 (v_refcount n + 1)) n) s
      else if (old =? 1) && (v_type n =? VFS_SYMLINK) then
        match p with
        | NFs _ => Some s
        | NSym i => e ← ld (symlink_pool s) i; l ← st (symlink_pool s) i (mk_sym (sy_node e) 0);
                    Some (set_pool l s)
        end
      else Some s
  end.

(** ** The mount table *)

(** The scan for [host] and [name]: the index of the first match. *)
Fixpoint find_mount (l : list vfs_mount_t) (host : nptr) (name : mem) (i : nat)
  : option (option nat) :=
  match l with
  | [] => Some None
  | m :: l =>
      if bool_decide (m_host m = host) then
        r ← streq (m_name m) name;
        if r : bool then Some (Some i) else find_mount l host name (S i)
      else find_mount l host name (S i)
  end.

Definition lookup_mount (host : nptr) (name : mem) (s : vstate) : option (option nptr) :=
  r ← find_mount (mount_table s) host name 0;
  match r with
  | Some i => m ← mount_table s !! i; Some (Some (m_target m))
  | None => Some None
  end.

Definition vfs_init (s : vstate) : vstate := set_mounts [] s.

Definition vfs_mount (host : option nptr) (name : option mem) (target : option nptr) (s : vstate)
  : option (vstate * Z) :=
  match host, name, target with
  | Some host, Some name, Some target =>
      if VFS_MOUNT_MAX <=? zlen (mount_table s) then Some (s, -1)
      else
        r ← find_mount (mount_table s) host name 0;
        match r with
        | Some _ => Some (s, -1)
        | None =>
            nm ← strlcpy (replicate 128 0) name 128;
            Some (set_mounts (mount_table s ++ [mk_mount host target nm]) s, 0)
        end
  | _, _, _ => Some (s, -1)
  end.

(** The entry is overwritten by the last one, which is then dropped. *)
Definition vfs_umount (host : nptr) (name : mem) (s : vstate) : option (vstate * Z) :=
  r ← find_mount (mount_table s) host name 0;
  match r with
  | None => Some (s, -1)
  | Some i =>
      let n := (length (mount_table s) - 1)%nat in
      m ← mount_table s !! n;
      Some (set_mounts (take n (<[i := m]> (mount_table s))) s, 0)
  end.

(** ** Walks *)

Definition walk_one (dir : option nptr) (name : mem) (s : vstate) : option (vstate * option nptr) :=
  match dir with
  | None => Some (s, None)
  | Some d =>
      n ← get_node d s;
      if negb (v_type n =? VFS_DIRECTORY) then Some (s, None)
      else
        m ← lookup_mount d name s;
        s ← vfs_node_ref m s;
        match m with
        | Some _ => Some (s, m)
        | None =>
            match method op_walk n with
            | Some walk => walk d name s
            | None => Some (s, None)
            end
        end
  end.

(** [while (all but '/') seg[si++] = *p++], at most 127 bytes: the segment and
    the rest of the path. *)
Fixpoint take_seg (room : nat) (p : mem) : option (list Z * mem) :=
  match p with
  | [] => None
  | c :: t =>
      match room with
      | O => Some ([], p)
      | S room =>
          if negb (c =? 0) && negb (c =? SLASH) then '(g, r) ← take_seg room t; Some (c :: g, r)
          else Some ([], p)
      end
  end.

(** One round of the walk's loop: the end of the path, a segment that is too
    long, or a segment and the rest after one slash. *)
Inductive step := PathEnd | TooLong | Seg (g : list Z) (rest : mem).

Definition next_seg (p : mem) : option step :=
  c ← ld p 0;
  if c =? 0 then Some PathEnd
  else
    '(g, r) ← take_seg 127 p;
    c ← ld r 0;
    if negb (c =? 0) && negb (c =? SLASH) then Some TooLong
    else Some (Seg g (if c =? SLASH then drop 1 r else r)).

(** Segments that are not looked up: empty ones and "..". *)
Definition seg_skipped (g : list Z) : bool :=
  bool_decide (g = []) || bool_decide (g = [DOT; DOT]).

Fixpoint walk_loop (fuel : nat) (cur : option nptr) (p : mem) (s : vstate)
  : option (vstate * option nptr) :=
  match fuel with
  | O => None
  | S fuel =>
      st ← next_seg p;
      match st, cur with
      | PathEnd, _ | _, None => Some (s, cur)
      | TooLong, _ => Some (s, None)
      | Seg g r, Some _ =>
          if seg_skipped g then walk_loop fuel cur r s
          else '(s, cur) ← walk_one cur (g ++ [0]) s; walk_loop fuel cur r s
      end
  end.

Definition start_of (start : option nptr) (s : vstate) : option nptr :=
  match start with Some _ => start | None => vfs_root s end.

(** Every round but the last consumes a byte of the path. *)
Definition vfs_walk_path (start : option nptr) (path : option mem) (s : vstate)
  : option (vstate * option nptr) :=
  match path, start_of start s with
  | None, c => Some (s, c)
  | Some _, None => Some (s, None)
  | Some path, Some c => '(p, _) ← skip_slashes path 0; walk_loop (S (length path)) (Some c) p s
  end.

Definition finddir_vfs (dir : option nptr) (name : mem) (s : vstate) := walk_one dir name s.

(** ** Symbolic links *)

(** The first free entry of the pool. *)
Fixpoint free_sym (l : list sym_entry) (i : Z) : option Z :=
  match l with
  | [] => None
  | e :: l => if sy_in_use e =? 0 then Some i else free_sym l (i + 1)
  end.

Definition vfs_symlink_alloc (target : option mem) (target_len : Z) (s : vstate)
  : option (vstate * option nptr) :=
  match target with
  | None => Some (s, None)
  | Some target =>
      match free_sym (symlink_pool s) 0 with
      | None => Some (s, None)
      | Some i =>
          e ← ld (symlink_pool s) i;
          let copy_len := if target_len <? VFS_SYMLINK_TARGET_MAX - 1 then target_len
                          else VFS_SYMLINK_TARGET_MAX - 1 in
          tgt ← copy_loop (Z.to_nat (i32 copy_len)) (replicate 512 0) 0 target 0;
          tgt ← st tgt (i32 copy_len) 0;
          nm ← st (v_name (sy_node e)) 0 0;
          let n := sy_node e in
          let n := mk_vnode nm VFS_SYMLINK copy_len 0 1 (v_mode n) (v_uid n) (v_gid n) 0 (Some tgt) in
          l ← st (symlink_pool s) i (mk_sym n 1);
          Some (set_pool l s, Some (NSym i))
      end
  end.

(** [while (target[len] && len < bufsz - 1)]; the result is the length. *)
Definition vfs_readlink_node (p : option nptr) (buf : mem) (bufsz : Z) (s : vstate)
  : option (mem * Z) :=
  match p with
  | None => Some (buf, -1)
  | Some p =>
      n ← get_node p s;
      if negb (v_type n =? VFS_SYMLINK) || (bufsz =? 0) then Some (buf, -1)
      else
        match method op_readlink n with
        | Some f => f p buf bufsz s
        | None =>
            match v_priv n with
            | None => Some (buf, -1)
            | Some target =>
                '(buf, len) ← copy_while target 0 (bufsz - 1) buf;
                buf ← st buf len 0; Some (buf, i32 len)
            end
        end
  end.

(** [_walk_path_follow] and [_walk_one_follow]: one fuel for the rounds of
    the loop and the nesting of links. *)
Fixpoint follow_loop (fuel : nat) (cur : option nptr) (p : mem) (depth err : Z) (s : vstate)
  : option (vstate * option nptr * Z * Z) :=
  match fuel with
  | O => None
  | S fuel =>
      st ← next_seg p;
      match st, cur with
      | PathEnd, _ | _, None => Some (s, if negb (err =? 0) then None else cur, depth, err)
      | _, Some _ =>
          if negb (err =? 0) then Some (s, None, depth, err)
          else
            match st with
            | Seg g r =>
                if seg_skipped g then follow_loop fuel cur r depth err s
                else
                  '(s1, node) ← walk_one cur (g ++ [0]) s;
                  '(s2, node, depth, err) ←
                    match node with
                    | None => Some (s1, None, depth, err)
                    | Some q =>
                        n ← get_node q s1;
                        if v_type n =? VFS_SYMLINK then
                          if VFS_SYMLINK_MAX_DEPTH <=? depth then Some (s1, None, depth, ELOOP)
                          else
                            '(target, len) ← vfs_readlink_node node (replicate 512 0)
                                               VFS_SYMLINK_TARGET_MAX s1;
                            if len <=? 0 then Some (s1, None, depth + 1, err)
                            else
                              c ← ld target 0;
                              let base := if c =? SLASH then vfs_root s1 else cur in
                              match start_of base s1 with
                              | None => Some (s1, None, depth + 1, err)
                              | Some b => '(tp, _) ← skip_slashes target 0;
                                          follow_loop fuel (Some b) tp (depth + 1) err s1
                              end
                        else Some (s1, node, depth, err)
                    end;
                  follow_loop fuel node r depth err s2
            | _ => Some (s, None, depth, ENAMETOOLONG)
            end
      end
  end.

(** Eight links of at most 511 bytes can be open below the path itself. *)
Definition follow_fuel (path : mem) : nat := (length path + 9 * 514)%nat.

(** [vfs_walk_path_follow]: the node and [*err_out]. *)
Definition vfs_walk_path_follow (start : option nptr) (path : option mem) (s : vstate)
  : option (vstate * option nptr * Z) :=
  match path, start_of start s with
  | None, c => Some (s, c, 0)
  | Some _, None => Some (s, None, 0)
  | Some path, Some c =>
      '(p, _) ← skip_slashes path 0;
      '(s, r, _, err) ← follow_loop (follow_fuel path) (Some c) p 0 0 s; Some (s, r, err)
  end.

(** [!dir || dir->type != VFS_DIRECTORY] *)
Definition dir_node (dir : option nptr) (s : vstate) : option (option (nptr * vnode)) :=
  match dir with
  | None => Some None
  | Some d => n ← get_node d s; Some (if v_type n =? VFS_DIRECTORY then Some (d, n) else None)
  end.

Definition vfs_symlink (dir : option nptr) (name target : option mem) (s : vstate)
  : option (vstate * Z) :=
  d ← dir_node dir s;
  match d, name, target with
  | Some (d, n), Some name, Some target =>
      match method op_symlink n with
      | Some f => f d name target s
      | None =>
          tlen ← strlen target;
          '(s, sym) ← vfs_symlink_alloc (Some target) (u32 tlen) s;
          match sym with
          | None => Some (s, -1)
          | Some p =>
              sn ← get_node p s;
              nm ← strlcpy (v_name sn) name 128;
              s ← put_node p (set_vname nm sn) s;
              '(s, ret) ← vfs_mount (Some d) (Some name) (Some p) s;
              s ← (if negb (ret =? 0) then vfs_node_unref (Some p) s else Some s);
              Some (s, ret)
          end
      end
  | _, _, _ => Some (s, -1)
  end.

Definition vfs_link (dir : option nptr) (name : option mem) (target : option nptr) (s : vstate)
  : option (vstate * Z) :=
  d ← dir_node dir s;
  match d, name, target with
  | Some (d, n), Some name, Some target =>
      match method op_link n with
      | None => Some (s, -1)
      | Some f =>
          '(s, ret) ← f d name target s;
          s ← (if ret =? 0 then vfs_node_ref (Some target) s else Some s);
          Some (s, ret)
      end
  | _, _, _ => Some (s, -1)
  end.

Definition vfs_unlink (dir : option nptr) (name : option mem) (s : vstate) : option (vstate * Z) :=
  d ← dir_node dir s;
  match d, name with
  | Some (d, n), Some name =>
      mounted ← lookup_mount d name s;
      s ← vfs_node_ref mounted s;
      sym ← match mounted with
            | Some p => mn ← get_node p s; Some (v_type mn =? VFS_SYMLINK)
            | None => Some false
            end;
      if sym : bool then
        '(s, ret) ← vfs_umount d name s;
        s ← vfs_node_unref mounted s; Some (s, ret)
      else
        s ← vfs_node_unref mounted s;
        match method op_unlink n with
        | Some f =>
            '(s, node) ← finddir_vfs dir name s;
            '(s, ret) ← f d name s;
            s ← (if ret =? 0 then vfs_node_unref node s else Some s);
            Some (s, ret)
        | None =>
            match method op_delete n with
            | Some f => f d name s
            | None => Some (s, -1)
            end
        end
  | _, _ => Some (s, -1)
  end.

(** ** Resolving the paths of system calls *)

(** [cwd] is the working directory of the current process, [None] if there is
    no current task. *)
Definition vfs_resolve_path (cwd path : option mem) (s : vstate) : option (vstate * option nptr) :=
  match path, cwd with
  | Some path, Some cwd =>
      abs ← canon_abs cwd path (replicate (Z.to_nat PATH_BUF) 0) PATH_BUF;
      '(s, r, _) ← vfs_walk_path_follow (vfs_root s) (Some abs) s; Some (s, r)
  | _, _ => Some (s, None)
  end.

Definition vfs_resolve_parent_follow (cwd path : option mem) (basename_out : mem)
    (basename_max : Z) (s : vstate) : option (vstate * mem * option nptr) :=
  match path, cwd with
  | Some path, Some cwd =>
      '(b, par) ← split_parent cwd path basename_out basename_max;
      match par with
      | AtRoot => Some (s, b, vfs_root s)
      | Walk pp => '(s, r, _) ← vfs_walk_path_follow (vfs_root s) (Some pp) s; Some (s, b, r)
      end
  | _, _ => Some (s, basename_out, None)
  end.

Definition vfs_resolve_parent (cwd path : option mem) (basename_out : mem) (basename_max : Z)
    (s : vstate) := vfs_resolve_parent_follow cwd path basename_out basename_max s.

(** ** Node metadata *)

Definition vfs_type_to_mode (type : Z) : Z :=
  if type =? VFS_FILE then 32768
  else if type =? VFS_DIRECTORY then 16384
  else if type =? VFS_CHARDEVICE then 8192
  else if type =? VFS_BLOCKDEVICE then 24576
  else if type =? VFS_PIPE then 4096
  else 0.

(** [uint32_t buf[4]] as a list of words. *)
Definition vfs_fill_stat (n : vnode) (buf : mem) : option mem :=
  buf ← st buf 0 (v_inode n);
  buf ← st buf 1 (vfs_type_to_mode (v_type n));
  buf ← st buf 2 (v_size n);
  st buf 3 (v_type n).

(** ** vfs_ops.c: dispatch *)

Definition read_vfs (p : option nptr) (off size : Z) (buf : mem) (s : vstate)
  : option (vstate * mem * Z) :=
  match p with
  | None => Some (s, buf, -1)
  | Some p => n ← get_node p s;
              match method op_read n with Some f => f p off size buf s | None => Some (s, buf, -1) end
  end.

Definition write_vfs (p : option nptr) (off size : Z) (buf : mem) (s : vstate)
  : option (vstate * Z) :=
  match p with
  | None => Some (s, -1)
  | Some p => n ← get_node p s;
              match method op_write n with Some f => f p off size buf s | None => Some (s, -1) end
  end.

Definition open_vfs (p : option nptr) (s : vstate) : option vstate :=
  match p with
  | None => Some s
  | Some p => n ← get_node p s; match method op_open n with Some f => f p s | None => Some s end
  end.

Definition close_vfs (p : option nptr) (s : vstate) : option vstate :=
  match p with
  | None => Some s
  | Some p => n ← get_node p s; match method op_close n with Some f => f p s | None => Some s end
  end.

(** [create_vfs], [delete_vfs], [mkdir_vfs] and [rmdir_vfs] differ in the
    method only. *)
Definition dir_call (sel : vops -> option (nptr -> mem -> vstate -> option (vstate * Z)))
    (dir : option nptr) (name : mem) (s : vstate) : option (vstate * Z) :=
  d ← dir_node dir s;
  match d with
  | None => Some (s, -1)
  | Some (d, n) => match method sel n with Some f => f d name s | None => Some (s, -1) end
  end.

Definition create_vfs := dir_call op_create.
Definition delete_vfs := dir_call op_delete.
Definition mkdir_vfs := dir_call op_mkdir.
Definition rmdir_vfs := dir_call op_rmdir.

Definition rename_vfs (dir : option nptr) (oldname newname : mem) (s : vstate) : option (vstate * Z) :=
  d ← dir_node dir s;
  match d with
  | None => Some (s, -1)
  | Some (d, n) => match method op_rename n with Some f => f d oldname newname s | None => Some (s, -1) end
  end.

(** The current task: whether it is a kernel task, and the effective ids of
    its process, if it has one. *)
Record task := mk_task { t_is_kernel : bool; t_ids : option (Z * Z) }.

Definition vfs_check_perm (cur : option task) (n : option vnode) (perm : Z) : Z :=
  match n with
  | None => -1
  | Some n =>
      if v_mode n =? 0 then 0
      else
        match cur with
        | None => 0
        | Some t =>
            if t_is_kernel t then 0
            else if match t_ids t with Some (euid, _) => euid =? 0 | None => false end then 0
            else
              let shift :=
                if match t_ids t with Some (euid, _) => euid =? v_uid n | None => false end then 6
                else if match t_ids t with Some (_, egid) => egid =? v_gid n | None => false end then 3
                else 0 in
              let allowed := Z.land (Z.shiftr (v_mode n) shift) 7 in
              if Z.land allowed perm =? perm then 0 else -1
        end
  end.

Definition truncate_vfs (p : option nptr) (length : Z) (s : vstate) : option (vstate * Z) :=
  match p with
  | None => Some (s, -1)
  | Some p =>
      n ← get_node p s;
      match method op_truncate n with
      | Some f => f p length s
      | None => s ← put_node p (set_size length n) s; Some (s, 0)
      end
  end.

Definition chmod_vfs (p : option nptr) (mode : Z) (s : vstate) : option (vstate * Z) :=
  match p with
  | None => Some (s, -1)
  | Some p =>
      n ← get_node p s;
      match method op_chmod n with
      | Some f => f p mode s
      | None => s ← put_node p (set_perm (Z.land mode 511) (v_uid n) (v_gid n) n) s; Some (s, 0)
      end
  end.

Definition chown_vfs (p : option nptr) (uid gid : Z) (s : vstate) : option (vstate * Z) :=
  match p with
  | None => Some (s, -1)
  | Some p =>
      n ← get_node p s;
      match method op_chown n with
      | Some f => f p uid gid s
      | None =>
          let u := if negb (uid =? u32 (-1)) then uid else v_uid n in
          let g := if negb (gid =? u32 (-1)) then gid else v_gid n in
          s ← put_node p (set_perm (v_mode n) u g n) s; Some (s, 0)
      end
  end.

Definition mknod_vfs (dir : option nptr) (name : option mem) (mode dev : Z) (s : vstate)
  : option (vstate * Z) :=
  d ← dir_node dir s;
  match d, name with
  | Some (d, n), Some name =>
      match method op_mknod n with
      | Some f => f d name mode dev s
      | None =>
          match method op_create n with
          | None => Some (s, -1)
          | Some f =>
              '(s, ret) ← f d name s;
              if ret <? 0 then Some (s, -1)
              else
                '(s, node) ← finddir_vfs dir name s;
                match node with
                | None => Some (s, -1)
                | Some q =>
                    m ← get_node q s;
                    let t := if Z.land mode 61440 =? 8192 then VFS_CHARDEVICE
                             else if Z.land mode 61440 =? 24576 then VFS_BLOCKDEVICE
                             else v_type m in
                    s ← put_node q (set_perm (Z.land mode 511) (v_uid m) (v_gid m) (set_type t m)) s;
                    Some (s, 0)
                end
          end
      end
  | _, _ => Some (s, -1)
  end.

Definition stat_vfs (p : option nptr) (buf : option mem) (s : vstate) : option (option mem * Z) :=
  match p, buf with
  | Some p, Some buf =>
      n ← get_node p s;
      match method op_stat n with
      | Some f => '(b, r) ← f p buf s; Some (Some b, r)
      | None => b ← vfs_fill_stat n buf; Some (Some b, 0)
      end
  | _, _ => Some (buf, -1)
  end.

Definition poll_vfs (p : option nptr) (events : Z) (s : vstate) : option Z :=
  match p with
  | None => Some VFS_POLLNVAL
  | Some p =>
      n ← get_node p s;
      match method op_poll n with
      | Some f => f p events s
      | None =>
          let r := if negb (Z.land events VFS_POLLIN =? 0) then VFS_POLLIN else 0 in
          Some (if negb (Z.land events VFS_POLLOUT =? 0) then Z.lor r VFS_POLLOUT else r)
      end
  end.

(** The result word is [None] when it is left alone. *)
Definition lseek_vfs (p : option nptr) (offset whence : Z) (s : vstate) : option (option Z * Z) :=
  match p with
  | None => Some (None, -1)
  | Some p =>
      n ← get_node p s;
      match method op_lseek n with
      | Some f => '(r, ret) ← f p offset whence s; Some (Some r, ret)
      | None => Some (None, -1)
      end
  end.
End State.
Arguments vstate F : clear implicits.
Arguments vops F : clear implicits.
