(* ===== verification/VfsSpec.v ===== *)
(** * What the virtual file system promises

    The mount table implements a finite map from (directory, name) to node;
    path walks end, stay inside their buffers and resolve the segments of the
    path one after the other; links are followed at most eight deep; the
    permission check is the POSIX one. *)

From S2P Require Import Prelude Klib VfsPath Vfs.
#[local] Open Scope Z_scope.

(** ** The mount table is a finite map *)

Abbreviation mkey := (nptr * list Z)%type.
Definition mount_kv (x : mkey * nptr) (m : vfs_mount_t) : Prop :=
  m_host m = x.1.1 /\ m_target m = x.2 /\ cstr (m_name m) x.1.2 /\ zlen x.1.2 <= 127.

Definition mnt_rep (l : list vfs_mount_t) (M : gmap mkey nptr) : Prop :=
  exists kvs, Forall2 mount_kv kvs l /\ NoDup (fst <$> kvs) /\ M = list_to_map kvs /\ zlen l <= VFS_MOUNT_MAX.

Lemma find_mount_ok kvs l h name t i :
  Forall2 mount_kv kvs l -> cstr name t ->
  exists r, find_mount l h name i = Some r /\
    match r with
    | Some j => exists (k : nat) tg, j = (i + k)%nat /\ kvs !! k = Some ((h, t), tg)
    | None => (h, t) ∉ (fst <$> kvs)
    end.
Proof.
  intros Hl Ht. revert i. induction Hl as [|[[h' t'] tg] m kvs l (Hh & Htg & Hn & _) Hl IH]; intros i;
    cbn [find_mount].
  { exists None. split; [done|]. apply not_elem_of_nil. }
  cbn [fst snd] in *. destruct (IH (S i)) as (r & Hr & Hm). case_bool_decide as E.
  - rewrite (streq_ok _ _ _ _ Hn Ht). ob. case_bool_decide as E2.
    + exists (Some i). split; [done|]. exists 0%nat, tg. split; [lia|]. by rewrite <- Hh, E, E2.
    + exists r. split; [done|]. destruct r as [j|].
      * destruct Hm as (k & tg' & -> & Hk). exists (S k), tg'. split; [lia|done].
      * rewrite fmap_cons. apply not_elem_of_cons. split; [cbn; congruence|done].
  - exists r. split; [done|]. destruct r as [j|].
    + destruct Hm as (k & tg' & -> & Hk). exists (S k), tg'. split; [lia|done].
    + rewrite fmap_cons. apply not_elem_of_cons. split; [cbn; congruence|done].
Qed.

Section Mounts.
Context {F : Type}.
Implicit Types (s : vstate F) (M : gmap mkey nptr).

Lemma lookup_mount_ok s M h name t :
  mnt_rep (mount_table s) M -> cstr name t -> lookup_mount h name s = Some (M !! (h, t)).
Proof.
  intros (kvs & Hl & Hnd & -> & _) Ht. unfold lookup_mount.
  destruct (find_mount_ok kvs (mount_table s) h name t 0 Hl Ht) as (r & -> & Hr). ob. destruct r as [j|].
  - destruct Hr as (k & tg & -> & Hk). destruct (Forall2_lookup_l _ _ _ _ _ Hl Hk) as (m & Hm & _ & Htg & _).
    cbn [Nat.add]. rewrite Hm. ob. cbn in Htg. subst tg. symmetry. f_equal.
    apply elem_of_list_to_map; [done|]. by apply (list_elem_of_lookup_2 _ k).
  - symmetry. f_equal. by apply not_elem_of_list_to_map_1.
Qed.

Lemma mnt_rep_size l M : mnt_rep l M -> Z.of_nat (size M) = zlen l.
Proof.
  intros (kvs & Hl & Hnd & -> & _). unfold zlen. rewrite <- (Forall2_length Hl).
  f_equal. by apply map_size_list_to_map.
Qed.

Lemma mount_ok s M h name t tg :
  mnt_rep (mount_table s) M -> cstr name t -> zlen t <= 127 ->
  exists s' r, vfs_mount (Some h) (Some name) (Some tg) s = Some (s', r) /\
    if (VFS_MOUNT_MAX <=? Z.of_nat (size M)) || bool_decide (is_Some (M !! (h, t)))
    then s' = s /\ r = -1
    else mnt_rep (mount_table s') (<[(h, t) := tg]> M) /\ r = 0 /\
         s' = set_mounts (mount_table s') s.
Proof.
  intros HM Ht Hlen. unfold vfs_mount. rewrite (mnt_rep_size _ _ HM). case_if; [by exists s, (-1)|]. cbn [orb].
  pose proof HM as (kvs & Hl & Hnd & -> & Hmax). b2p.
  destruct (find_mount_ok kvs (mount_table s) h name t 0 Hl Ht) as (r & -> & Hr). ob. destruct r as [j|].
  { destruct Hr as (k & tg' & _ & Hk). exists s, (-1). split; [done|]. rewrite bool_decide_eq_true_2; [done|].
    exists tg'. apply elem_of_list_to_map; [done|]. by apply (list_elem_of_lookup_2 _ k). }
  rewrite bool_decide_eq_false_2 by (rewrite not_elem_of_list_to_map_1 by done; by intros [? ?]).
  unfold strlcpy. rewrite (bounded_copy_ok _ t) by (done || rewrite ?zlen_replicate; lia). ob.
  rewrite take_ge by (unfold zlen in *; lia). eexists _, _. split; [done|]. split; [|done].
  cbn [mount_table set_mounts].
  exists (kvs ++ [((h, t), tg)]). split; [|split; [|split]].
  - apply Forall2_app; [done|]. constructor; [|constructor]. split; [done|]. split; [done|]. split; [|done].
    rewrite splice_0, <- app_assoc. split; [eexists; reflexivity|apply Ht].
  - rewrite fmap_app. apply list.NoDup_app. split; [done|]. split; [|apply NoDup_singleton].
    intros x Hx. cbn. intros ->%list_elem_of_singleton. done.
  - rewrite list_to_map_app. cbn. rewrite insert_empty. rewrite <- insert_union_singleton_r; [done|].
    by apply not_elem_of_list_to_map_1.
  - rewrite zlen_app, zlen_1. lia.
Qed.

(** Overwriting entry [k] by the last one and dropping the last removes
    entry [k], up to order. *)
Lemma swap_remove_perm {A} (l : list A) (k : nat) x y :
  l !! k = Some x -> l !! (length l - 1)%nat = Some y ->
  x :: take (length l - 1) (<[k := y]> l) ≡ₚ l.
Proof.
  intros Hk Hy. set (n := (length l - 1)%nat) in *.
  assert (Hkl := lookup_lt_Some _ _ _ Hk).
  assert (Hl : l = take n l ++ [y]).
  { rewrite <- (take_drop_middle l n y Hy) at 1. by rewrite (drop_ge l (S n)) by lia. }
  transitivity (take n l ++ [y]); [|by rewrite <- Hl].
  destruct (decide (k = n)) as [->|Hne].
  - rewrite Hk in Hy. injection Hy as <-. rewrite list_insert_id by done. apply Permutation_cons_append.
  - assert (Hk' : take n l !! k = Some x) by (rewrite lookup_take_lt by lia; done).
    replace (take n (<[k := y]> l)) with (<[k := y]> (take n l)) by (by rewrite take_insert_lt by lia).
    set (L := take n l) in *. assert (Hkl' := lookup_lt_Some _ _ _ Hk').
    rewrite insert_take_drop by done. rewrite <- Permutation_middle.
    transitivity (y :: L); [|apply Permutation_cons_append].
    rewrite Permutation_swap. constructor.
    transitivity (take k L ++ x :: drop (S k) L); [apply Permutation_middle|by rewrite take_drop_middle].
Qed.

Lemma umount_ok s M h name t :
  mnt_rep (mount_table s) M -> cstr name t ->
  exists s' r, vfs_umount h name s = Some (s', r) /\
    s' = set_mounts (mount_table s') s /\
    if bool_decide (is_Some (M !! (h, t)))
    then mnt_rep (mount_table s') (delete (h, t) M) /\ r = 0
    else mount_table s' = mount_table s /\ r = -1.
Proof.
  intros (kvs & Hl & Hnd & -> & Hmax) Ht. unfold vfs_umount.
  destruct (find_mount_ok kvs (mount_table s) h name t 0 Hl Ht) as (r & -> & Hr). ob. destruct r as [j|].
  2: { exists s, (-1). split; [done|]. split; [by destruct s|].
       rewrite bool_decide_eq_false_2; [done|]. rewrite not_elem_of_list_to_map_1 by done. by intros [? ?]. }
  destruct Hr as (k & tg & -> & Hk). cbn [Nat.add].
  rewrite bool_decide_eq_true_2.
  2: { exists tg. apply elem_of_list_to_map; [done|]. by apply (list_elem_of_lookup_2 _ k). }
  pose proof (Forall2_length Hl) as Hlen. pose proof (lookup_lt_Some _ _ _ Hk) as Hkl.
  destruct (lookup_lt_is_Some_2 kvs (length kvs - 1)) as [y Hy]; [lia|].
  destruct (Forall2_lookup_l _ _ _ _ _ Hl Hy) as (m & Hm & Hym). rewrite <- Hlen, Hm. ob.
  eexists _, _. split; [done|]. cbn [mount_table set_mounts]. split; [done|]. split; [|done].
  pose proof (swap_remove_perm kvs k _ y Hk Hy) as Hperm.
  set (kvs' := take (length kvs - 1) (<[k := y]> kvs)) in *.
  assert (Hnd' : NoDup (fst <$> (((h, t), tg) :: kvs'))).
  { by rewrite (fmap_Permutation _ _ _ Hperm). }
  rewrite fmap_cons in Hnd'. inversion_clear Hnd' as [|? ? Hni Hnd2].
  exists kvs'. split; [apply Forall2_take, Forall2_insert; done|]. split; [done|]. split.
  - rewrite <- (list_to_map_proper (((h, t), tg) :: kvs') kvs); [|by rewrite (fmap_Permutation _ _ _ Hperm)|done].
    cbn [list_to_map foldr fst snd]. rewrite delete_insert_id; [done|]. by apply not_elem_of_list_to_map_1.
  - unfold zlen in *. rewrite length_take, length_insert. lia.
Qed.

(** Sequences of table operations, on the table and on the map. *)
Inductive mop := MMount (h : nptr) (name : mem) (tg : nptr) | MUmount (h : nptr) (name : mem)
  | MLookup (h : nptr) (name : mem).
Inductive mres := MRet (r : Z) | MNode (p : option nptr).

Definition mop_name (o : mop) : mem :=
  match o with MMount _ n _ | MUmount _ n | MLookup _ n => n end.

Definition mstep (o : mop) s : option (vstate F * mres) :=
  match o with
  | MMount h n tg => '(s', r) ← vfs_mount (Some h) (Some n) (Some tg) s; Some (s', MRet r)
  | MUmount h n => '(s', r) ← vfs_umount h n s; Some (s', MRet r)
  | MLookup h n => p ← lookup_mount h n s; Some (s, MNode p)
  end.

(** The operation with its name as text, on the map. *)
Definition astep (o : mop) (t : list Z) M : gmap mkey nptr * mres :=
  match o with
  | MMount h _ tg =>
      if (VFS_MOUNT_MAX <=? Z.of_nat (size M)) || bool_decide (is_Some (M !! (h, t)))
      then (M, MRet (-1)) else (<[(h, t) := tg]> M, MRet 0)
  | MUmount h _ =>
      if bool_decide (is_Some (M !! (h, t))) then (delete (h, t) M, MRet 0) else (M, MRet (-1))
  | MLookup h _ => (M, MNode (M !! (h, t)))
  end.

Fixpoint mrun (os : list mop) s : option (list mres) :=
  match os with
  | [] => Some []
  | o :: os => '(s, r) ← mstep o s; rs ← mrun os s; Some (r :: rs)
  end.

Fixpoint arun (os : list (mop * list Z)) M : list mres :=
  match os with [] => [] | (o, t) :: os => let '(M, r) := astep o t M in r :: arun os M end.

Lemma mstep_ok o t s M :
  mnt_rep (mount_table s) M -> cstr (mop_name o) t -> zlen t <= 127 ->
  exists s', mstep o s = Some (s', snd (astep o t M)) /\ mnt_rep (mount_table s') (fst (astep o t M)).
Proof.
  intros HM Ht Hl. destruct o as [h n tg|h n|h n]; cbn [mstep astep mop_name] in *.
  - destruct (mount_ok s M h n t tg HM Ht Hl) as (s' & r & -> & Hr). ob. exists s'.
    destruct (_ || _); cbn [fst snd].
    + by destruct Hr as [-> ->].
    + by destruct Hr as (HM' & -> & _).
  - destruct (umount_ok s M h n t HM Ht) as (s' & r & -> & _ & Hr). ob. exists s'.
    case_bool_decide; cbn [fst snd]; destruct Hr as [HM' ->]; [done|]. by rewrite HM'.
  - rewrite (lookup_mount_ok s M h n t HM Ht). ob. eauto.
Qed.

(** C13: the mount table is a finite map.  Starting from [vfs_init], every
    sequence of mounts, unmounts and lookups with names of at most 127 bytes
    returns what the map from (directory, name) to node returns: a mount
    fails exactly when 32 are in place or the name is taken, an unmount
    removes exactly the named entry, and a lookup finds the node mounted
    last under the name.  The swap with the last entry never loses or
    duplicates a mount. *)
Theorem mount_table_refines os s :
  Forall (fun ot => cstr (mop_name ot.1) ot.2 /\ zlen ot.2 <= 127) os ->
  mrun (fst <$> os) (vfs_init s) = Some (arun os ∅).
Proof.
  intros Hos. assert (Hrep : mnt_rep (mount_table (vfs_init s)) ∅).
  { exists []. split; [constructor|]. split; [apply NoDup_nil_2|]. split; [done|]. done. }
  revert Hrep. generalize (vfs_init s) (∅ : gmap mkey nptr). clear s.
  induction Hos as [|[o t] os [Ht Hl] Hos IH]; intros s M HM; [done|].
  destruct (mstep_ok o t s M HM Ht Hl) as (s' & He & HM'). rewrite fmap_cons. cbn [mrun arun fst].
  rewrite He. ob. rewrite (IH s' _ HM'). ob. by destruct (astep o t M).
Qed.
End Mounts.

(** ** Segments of a path *)

Definition plain (g : list Z) : Prop := Forall (fun c => c <> 0 /\ c <> SLASH) g.

Lemma take_seg_ok (room : nat) p t :
  cstr p t -> exists g r t2, take_seg room p = Some (g, r) /\ t = g ++ t2 /\ cstr r t2 /\
    plain g /\ (length g <= room)%nat /\ (t2 = [] \/ rooted t2 = true \/ length g = room).
Proof.
  revert p t. induction room as [|room IH]; intros p t Hp; destruct t as [|c t].
  - pose proof Hp as [q ->]%cstr_nil_inv. exists [], (0 :: q), []. repeat (split; [done|]). split; [constructor|].
    split; [done|]. by left.
  - pose proof Hp as (q & -> & Hc & Hq)%cstr_cons_inv. exists [], (c :: q), (c :: t).
    repeat (split; [done|]). split; [constructor|]. split; [done|]. by right; right.
  - pose proof Hp as [q ->]%cstr_nil_inv. exists [], (0 :: q), []. repeat (split; [done|]). split; [constructor|].
    split; [cbn; lia|]. by left.
  - pose proof Hp as (q & -> & Hc & Hq)%cstr_cons_inv. cbn [take_seg].
    rewrite (proj2 (Z.eqb_neq c 0)) by done. cbn [negb andb]. destruct (c =? SLASH) eqn:E; cbn [negb]; b2p.
    + exists [], (c :: q), (c :: t). repeat (split; [done|]). split; [constructor|]. split; [cbn; lia|].
      right; left. cbn. by apply Z.eqb_eq.
    + destruct (IH q t Hq) as (g & r & t2 & -> & -> & Hr & Hg & Hl & Hend). ob.
      exists (c :: g), r, t2. repeat (split; [done|]). split; [by constructor|]. cbn [length].
      split; [lia|]. destruct Hend as [?|[?|?]]; [by left|by right; left|right; right; lia].
Qed.

(** What one round of a walk's loop sees. *)
Lemma next_seg_ok p t :
  cstr p t -> exists r, next_seg p = Some r /\
    match r with
    | PathEnd => t = []
    | TooLong => exists g u, segs_of t = g :: u /\ 127 < zlen g
    | Seg g rest => t <> [] /\ plain g /\ zlen g <= 127 /\ exists t', cstr rest t' /\
        (length t' < length t)%nat /\
        segs_of t = if bool_decide (g = []) then segs_of t' else g :: segs_of t'
    end.
Proof.
  intros Hp. unfold next_seg. destruct t as [|c t].
  { pose proof Hp as [q ->]%cstr_nil_inv. exists PathEnd. done. }
  pose proof Hp as (q & Hq & Hc & _)%cstr_cons_inv.
  assert (Hld : ld p 0 = Some c) by (by rewrite Hq). rewrite Hld. ob.
  rewrite (proj2 (Z.eqb_neq c 0)) by done. remember 127%nat as room eqn:Er.
  destruct (take_seg_ok room p (c :: t) Hp) as (g & r & t2 & -> & Ht & Hr & Hg & Hl & Hend). ob.
  assert (Hr0 : exists d, ld r 0 = Some d /\
    match t2 with [] => d = 0 | e :: _ => d = e /\ e <> 0 end).
  { destruct t2 as [|e t2].
    - apply cstr_nil_inv in Hr as [x ->]. by exists 0.
    - apply cstr_cons_inv in Hr as (x & -> & He & _). by exists e. }
  destruct Hr0 as (d & -> & Hd). ob. destruct t2 as [|e t2].
  - subst d. cbn [Z.eqb negb andb]. change (0 =? SLASH) with false. eexists. split; [done|].
    rewrite app_nil_r in Ht. split; [done|]. split; [done|]. split; [unfold zlen; lia|]. exists [].
    split; [done|]. split; [cbn; lia|]. rewrite Ht. case_bool_decide as E; [by rewrite E|].
    rewrite <- (app_nil_r g) at 1. apply segs_of_cons; [done|done|by left].
  - destruct Hd as [-> He]. rewrite (proj2 (Z.eqb_neq e 0)) by done. cbn [negb andb].
    destruct (e =? SLASH) eqn:E; cbn [negb]; b2p.
    + subst e. pose proof Hr as (x & -> & _ & Hx)%cstr_cons_inv. eexists. split; [done|].
      split; [done|]. split; [done|]. split; [unfold zlen; lia|]. exists t2. split; [done|].
      rewrite Ht. split; [rewrite length_app; cbn; lia|].
      assert (Hs : segs_of (SLASH :: t2) = segs_of t2).
      { unfold segs_of. cbn [split_go]. by rewrite Z.eqb_refl, bool_decide_eq_true_2. }
      case_bool_decide as Eg; [by rewrite Eg|]. rewrite segs_of_cons; [by rewrite Hs|done|done|by right].
    + exists TooLong. split; [done|].
      assert (Hgl : length g = room).
      { destruct Hend as [?|[Hro|?]]; [done| |done]. cbn in Hro. b2p. done. }
      destruct (seg_end_ok p (c :: t) 0 Hp) as (g' & u & _ & Ht' & _ & Hg' & Hu).
      assert (Hpre : exists y, g' = g ++ e :: y).
      { rewrite Ht in Ht'. apply app_eq_app in Ht' as [k [[-> Hk]|[-> Hk]]].
        - destruct k as [|z k].
          + rewrite app_nil_r. cbn in Hk. subst u. destruct Hu as [?|Hu]; [done|]. cbn in Hu. b2p. done.
          + cbn in Hk. subst u. destruct Hu as [?|Hu]; [done|]. cbn in Hu. b2p. subst z.
            unfold plain in Hg. rewrite Forall_app in Hg. destruct Hg as [_ Hg]. inversion_clear Hg. naive_solver.
        - destruct k as [|z k]; [|injection Hk as -> _; by exists k].
          cbn in Hk. subst u. destruct Hu as [?|Hu]; [done|]. cbn in Hu. b2p. done. }
      destruct Hpre as [y ->]. exists (g ++ e :: y), (segs_of u). rewrite Ht'.
      split; [apply segs_of_cons; [by destruct g|done|done]|].
      rewrite zlen_app, zlen_cons. pose proof (zlen_nonneg y). unfold zlen in *. lia.
Qed.

(** ** Walking without links *)

Section Walk.
Context {F : Type} (ops : Z -> vops F).
Implicit Types (s : vstate F) (cur : option nptr).

(** Looking up one segment after the other; ".." names no entry and is
    passed over, a segment of more than 127 bytes is not found. *)
Fixpoint walk_segs (segs : list (list Z)) cur s : option (vstate F * option nptr) :=
  match segs, cur with
  | [], _ => Some (s, cur)
  | _, None => Some (s, None)
  | g :: r, Some _ =>
      if 127 <? zlen g then Some (s, None)
      else if bool_decide (g = [DOT; DOT]) then walk_segs r cur s
      else '(s, c) ← walk_one ops cur (g ++ [0]) s; walk_segs r c s
  end.

Lemma walk_segs_None segs s : walk_segs segs None s = Some (s, None).
Proof. by destruct segs. Qed.

Lemma walk_loop_ok (fuel : nat) p t cur s :
  cstr p t -> (length t < fuel)%nat -> walk_loop ops fuel cur p s = walk_segs (segs_of t) cur s.
Proof.
  revert p t cur s. induction fuel as [|fuel IH]; intros p t cur s Hp Hf; [lia|].
  cbn [walk_loop]. destruct (next_seg_ok p t Hp) as (r & -> & Hr). ob.
  destruct cur as [c|]; [|rewrite walk_segs_None; by destruct r]. destruct r as [| |g rest].
  - by subst t.
  - destruct Hr as (g & u & -> & Hg). cbn [walk_segs]. by rewrite (proj2 (Z.ltb_lt _ _)) by lia.
  - destruct Hr as (_ & _ & Hl & t' & Ht' & Hlen & ->). unfold seg_skipped.
    destruct (bool_decide (g = [])) eqn:E; cbn [orb]; [apply IH; done || lia|].
    cbn [walk_segs]. rewrite (proj2 (Z.ltb_ge _ _)) by lia.
    destruct (bool_decide (g = [DOT; DOT])); [apply IH; done || lia|].
    destruct (walk_one ops (Some c) (g ++ [0]) s) as [[s' c']|]; [|done]. ob. apply IH; done || lia.
Qed.

(** C24: A walk resolves the path segment by segment.  For every path string,
    [vfs_walk_path] returns what looking up its segments one after the other
    from the start directory returns (mounts first, then the file system),
    whatever the numbers of slashes; it ends, and it reads nothing beyond the
    path's terminator. *)
Theorem walk_path_exact start path t c s :
  cstr path t -> start_of start s = Some c ->
  vfs_walk_path ops start (Some path) s = walk_segs (segs_of t) (Some c) s.
Proof.
  intros Hp Hc. unfold vfs_walk_path. rewrite Hc.
  destruct (skip_slashes_ok path t 0 Hp) as (k & t1 & -> & Hp1 & <- & _ & Hk). ob.
  apply walk_loop_ok; [done|]. destruct Hp as [[r ->] _]. rewrite length_app. lia.
Qed.
End Walk.

(** ** Walking with links *)

Section Follow.
Context {F : Type} (ops : Z -> vops F).
Implicit Types (s : vstate F).

Definition valid s (p : nptr) : Prop := is_Some (get_node p s).
Definition valid_opt s (p : option nptr) : Prop := match p with Some p => valid s p | None => True end.

(** A link's target is a string in memory. *)
Definition link_ok (n : vnode) : Prop :=
  v_type n = VFS_SYMLINK -> method ops op_readlink n = None /\
    exists tgt t, v_priv n = Some tgt /\ cstr tgt t.

Definition vs_ok s : Prop :=
  Forall (fun m => valid s (m_target m) /\ exists t, cstr (m_name m) t) (mount_table s) /\
  valid_opt s (vfs_root s) /\ (forall p n, get_node p s = Some n -> link_ok n).

(** [s'] has the nodes of [s], perhaps with other contents. *)
Definition vs_le s s' : Prop := (forall p, valid s p -> valid s' p) /\ vfs_root s' = vfs_root s.

#[export] Instance vs_le_preorder : PreOrder vs_le.
Proof.
  split; [by intros s; split|]. intros s1 s2 s3 [H1 E1] [H2 E2]. split; [auto|congruence].
Qed.

(** What the walks rely on: a file system has an invariant, which a
    reference to a mounted node does not break; its walk method returns, and
    keeps the nodes there are. *)
Class VfsLaws := {
  fs_ok : vstate F -> Prop;
  fs_ref : forall m n s s', fs_ok s -> m ∈ mount_table s -> get_node (m_target m) s = Some n ->
    put_node (m_target m) (set_refcount (u32 (v_refcount n + 1)) n) s = Some s' -> fs_ok s';
  walk_total : forall n f d name g s,
    method ops op_walk n = Some f -> vs_ok s -> fs_ok s -> get_node d s = Some n -> cstr name g ->
    exists s' r, f d name s = Some (s', r) /\ vs_ok s' /\ fs_ok s' /\ vs_le s s' /\ valid_opt s' r
}.

Lemma get_put p q n s s' :
  put_node p n s = Some s' -> get_node q s' = if decide (q = p) then Some n else get_node q s.
Proof.
  intros H. destruct p as [k|i]; cbn [put_node] in H.
  - injection H as <-. destruct q as [k'|i']; cbn [get_node fs_nodes].
    + destruct (decide (NFs k' = NFs k)) as [[= ->]|Hne]; [apply lookup_insert_eq|].
      apply lookup_insert_ne. congruence.
    + by rewrite decide_False by done.
  - destruct (ld (symlink_pool s) i) as [e|] eqn:E; [|done]. cbn [mbind option_bind] in H.
    destruct (st _ i _) as [l|] eqn:El; [|done]. injection H as <-. destruct q as [k'|i']; cbn [get_node].
    + by rewrite decide_False by done.
    + cbn [symlink_pool set_pool]. destruct (decide (NSym i' = NSym i)) as [[= ->]|Hne].
      * by rewrite (ld_st_eq _ _ _ _ El).
      * rewrite (ld_st_ne _ _ i' _ _ El); [done|congruence].
Qed.

Lemma put_total p n0 n s :
  get_node p s = Some n0 -> exists s', put_node p n s = Some s' /\ mount_table s' = mount_table s /\
    vfs_root s' = vfs_root s /\ fs_state s' = fs_state s.
Proof.
  intros H. destruct p as [k|i]; cbn [put_node get_node] in *; [eauto|].
  destruct (ld (symlink_pool s) i) as [e|] eqn:E; [|done]. ob.
  rewrite st_in by (by apply ld_Some_lt in E). ob. eauto.
Qed.

(** Changing a node's counters keeps the state well formed. *)
Lemma put_same_ok p n0 n s :
  vs_ok s -> get_node p s = Some n0 -> link_ok n ->
  exists s', put_node p n s = Some s' /\ vs_ok s' /\ vs_le s s' /\ valid s' p.
Proof.
  intros (Hm & Hr & Hn) Hp Hl. destruct (put_total p n0 n s Hp) as (s' & Hs & Em & Er & _).
  exists s'. split; [done|].
  assert (Hv : forall q, valid s q -> valid s' q).
  { intros q [m Hq]. unfold valid. rewrite (get_put p q n s s' Hs). case_decide; eauto. }
  split; [|split; [by split|apply Hv; by exists n0]]. split; [|split].
  - rewrite Em. eapply Forall_impl; [|exact Hm]. cbn. intros m [? ?]. auto.
  - rewrite Er. destruct (vfs_root s); [by apply Hv|done].
  - intros q m Hq. rewrite (get_put p q n s s' Hs) in Hq. case_decide; [by injection Hq as <-|by apply (Hn q)].
Qed.

Lemma find_mount_total l d name g i :
  Forall (fun m => exists t, cstr (m_name m) t) l -> cstr name g ->
  exists r, find_mount l d name i = Some r /\
    match r with Some j => exists k m, j = (i + k)%nat /\ l !! k = Some m | None => True end.
Proof.
  intros Hl Hg. revert i. induction Hl as [|m l [t Ht] Hl IH]; intros i; cbn [find_mount]; [by exists None|].
  destruct (IH (S i)) as (r & Hr & Hj).
  assert (Hnext : exists r, find_mount l d name (S i) = Some r /\
    match r with Some j => exists k x, j = (i + k)%nat /\ (m :: l) !! k = Some x | None => True end).
  { exists r. split; [done|]. destruct r as [j|]; [|done]. destruct Hj as (k & x & -> & Hk).
    exists (S k), x. split; [lia|done]. }
  case_bool_decide; [|done]. rewrite (streq_ok _ _ _ _ Ht Hg). ob. case_bool_decide; [|done].
  exists (Some i). split; [done|]. exists 0%nat, m. split; [lia|done].
Qed.

Lemma lookup_mount_total s d name g :
  vs_ok s -> cstr name g -> exists r, lookup_mount d name s = Some r /\ valid_opt s r /\
    match r with Some p => exists m, m ∈ mount_table s /\ m_target m = p | None => True end.
Proof.
  intros (Hm & _) Hg. unfold lookup_mount.
  destruct (find_mount_total (mount_table s) d name g 0) as (r & -> & Hr); [|done|].
  { eapply Forall_impl; [|exact Hm]. by intros m [_ ?]. }
  ob. destruct r as [j|]; [|by exists None]. destruct Hr as (k & m & -> & Hk). cbn [Nat.add]. rewrite Hk. ob.
  exists (Some (m_target m)). split; [done|]. split; [by apply (Forall_lookup_1 _ _ _ _ Hm Hk)|].
  exists m. split; [|done]. by eapply list_elem_of_lookup_2.
Qed.

Lemma node_ref_ok p s :
  vs_ok s -> valid_opt s p -> exists s', vfs_node_ref p s = Some s' /\ vs_ok s' /\ vs_le s s'.
Proof.
  intros Hs Hp. destruct p as [p|]; cbn [vfs_node_ref]; [|by exists s].
  destruct Hp as [n Hn]. rewrite Hn. ob.
  destruct (put_same_ok p n (set_refcount (u32 (v_refcount n + 1)) n) s Hs Hn) as (s' & -> & H1 & H2 & _).
  - by apply Hs in Hn.
  - eauto.
Qed.

Context `{!VfsLaws}.

Definition vs_fine s : Prop := vs_ok s /\ fs_ok s.

Lemma walk_one_ok dir name g s :
  vs_fine s -> valid_opt s dir -> cstr name g ->
  exists s' r, walk_one ops dir name s = Some (s', r) /\ vs_fine s' /\ vs_le s s' /\ valid_opt s' r.
Proof.
  intros Hf Hd Hg. pose proof Hf as [Hs Hfs]. destruct dir as [d|]; cbn [walk_one]; [|by exists s, None].
  destruct Hd as [n Hn]. rewrite Hn. ob. case_if; [by exists s, None|].
  destruct (lookup_mount_total s d name g Hs Hg) as (m & -> & Hm & Hin). ob.
  destruct (node_ref_ok m s Hs Hm) as (s1 & Href & Hs1 & Hle). rewrite Href. ob. destruct m as [m|].
  - exists s1, (Some m). split; [done|]. split; [split; [done|]|split; [done|by apply Hle]].
    destruct Hin as (e & Hin & <-). destruct Hm as [nm Hnm]. cbn [vfs_node_ref] in Href. rewrite Hnm in Href.
    cbn [mbind option_bind] in Href. by eapply fs_ref.
  - injection Href as <-. destruct (method ops op_walk n) as [f|] eqn:E; [|by exists s, None].
    destruct (walk_total n f d name g s E Hs Hfs Hn Hg) as (s' & r & H1 & H2 & H3 & H4 & H5). by exists s', r.
Qed.

(** Reading a link gives at most 511 bytes of its target. *)
Lemma readlink_ok p n s tgt t :
  get_node p s = Some n -> v_type n = VFS_SYMLINK -> method ops op_readlink n = None ->
  v_priv n = Some tgt -> cstr tgt t ->
  exists buf, vfs_readlink_node ops (Some p) (replicate 512 0) VFS_SYMLINK_TARGET_MAX s =
      Some (buf, zlen (take 511 t)) /\ cstr buf (take 511 t).
Proof.
  intros Hn Ht Hm Hp Hc. unfold vfs_readlink_node. rewrite Hn. sb. rewrite Ht, Hm, Hp.
  change (negb (VFS_SYMLINK =? VFS_SYMLINK) || (VFS_SYMLINK_TARGET_MAX =? 0)) with false. cbv beta iota.
  change (VFS_SYMLINK_TARGET_MAX - 1) with 511.
  assert (Hr : zlen (replicate 512 0) = 512) by reflexivity.
  rewrite (copy_while_ok tgt t 0 511 _ Hc) by lia. sb.
  assert (Hmin : Z.min (zlen t) (Z.max 0 (511 - 0)) = zlen (take 511 t)).
  { unfold zlen. rewrite length_take. lia. }
  assert (Htk : take (Z.to_nat (zlen (take 511 t))) t = take 511 t).
  { unfold zlen. rewrite Nat2Z.id, length_take. destruct (Nat.le_gt_cases 511 (length t)).
    - by rewrite Nat.min_l by lia.
    - rewrite Nat.min_r by lia. by rewrite !take_ge by lia. }
  rewrite Hmin, Htk, Z.add_0_l. pose proof (zlen_nonneg (take 511 t)).
  assert (Hle : zlen (take 511 t) <= 511) by (unfold zlen; rewrite length_take; lia).
  destruct (cstr_st (splice 0 (take 511 t) (replicate 512 0)) (zlen (take 511 t)) (take 511 t) (replicate 512 0))
    as (out & -> & Hout & _); [lia|done| |done|].
  - destruct Hc as [_ Hnz]. by apply Forall_take.
  - sb. exists out. split; [|done]. do 2 f_equal. word_lia.
Qed.

Definition err_ok (e : Z) : Prop := e = 0 \/ e = ELOOP \/ e = ENAMETOOLONG.

(** What a walk with links returns. *)
Definition follow_post s depth (r : vstate F * option nptr * Z * Z) : Prop :=
  let '(s', node, depth', err') := r in
  vs_fine s' /\ vs_le s s' /\ valid_opt s' node /\ depth <= depth' <= 8 /\ err_ok err' /\
  (err' <> 0 -> node = None).

Lemma follow_post_le s1 s2 d1 d2 r :
  vs_le s1 s2 -> d1 <= d2 -> follow_post s2 d2 r -> follow_post s1 d1 r.
Proof.
  destruct r as [[[s3 node] d3] e3]. intros Hle Hd (H1 & H2 & H3 & H4 & H5 & H6).
  split; [done|]. split; [by transitivity s2|]. repeat (split; [done || lia|]). done.
Qed.

Lemma follow_bind s depth m (k : vstate F * option nptr * Z * Z -> option (vstate F * option nptr * Z * Z)) :
  (exists r, m = Some r /\ follow_post s depth r) ->
  (forall s2 node d2 e2, follow_post s depth (s2, node, d2, e2) ->
     exists r, k (s2, node, d2, e2) = Some r /\ follow_post s2 d2 r) ->
  exists r, m ≫= k = Some r /\ follow_post s depth r.
Proof.
  intros (r1 & -> & H1) Hk. destruct r1 as [[[s2 node] d2] e2]. destruct (Hk _ _ _ _ H1) as (r & Hr & H2).
  exists r. split; [done|]. destruct H1 as (_ & Hle & _ & Hd & _). eapply follow_post_le; [done| |done]. lia.
Qed.

Lemma plain_cstr g : plain g -> cstr (g ++ [0]) g.
Proof.
  intros Hg. split; [by exists []|]. eapply Forall_impl; [|exact Hg]. by intros ? [? _].
Qed.

Lemma cstr_ld0 p t : cstr p t -> exists c, ld p 0 = Some c.
Proof.
  intros Hp. destruct t as [|c t]; [apply cstr_nil_inv in Hp as [q ->]; by exists 0|].
  apply cstr_cons_inv in Hp as (q & -> & _ & _). by exists c.
Qed.

Lemma follow_loop_total (fuel : nat) cur p t depth err s :
  cstr p t -> vs_fine s -> valid_opt s cur -> 0 <= depth <= 8 -> err_ok err ->
  Z.of_nat (length t) + 514 * (8 - depth) < Z.of_nat fuel ->
  exists r, follow_loop ops fuel cur p depth err s = Some r /\ follow_post s depth r.
Proof.
  revert cur p t depth err s.
  induction fuel as [|fuel IH]; intros cur p t depth err s Hp Hs Hcur Hd He Hf; [lia|].
  cbn [follow_loop]. destruct (next_seg_ok p t Hp) as (r & -> & Hr). sb.
  assert (Hstop : exists r, Some (s, if negb (err =? 0) then None else cur, depth, err) = Some r /\
    follow_post s depth r).
  { eexists. split; [done|]. cbn [follow_post]. destruct (Z.eqb_spec err 0); cbn [negb];
      repeat (split; [done || lia|]); done || lia. }
  destruct r as [| |g rest]; [done| |]; (destruct cur as [c|]; [|done]).
  { destruct (Z.eqb_spec err 0) as [->|Hne]; cbn [negb]; [|done].
    eexists. split; [done|]. repeat (split; [done || lia|]). split; [by right; right|done]. }
  destruct (Z.eqb_spec err 0) as [->|Hne]; cbn [negb]; [|done].
  destruct Hr as (_ & Hg & _ & t' & Ht' & Hlt & _).
  destruct (seg_skipped g); [apply (IH _ _ t'); done || lia|].
  destruct (walk_one_ok (Some c) (g ++ [0]) g s Hs Hcur) as (s1 & node & -> & Hs1 & Hle1 & Hv1).
  { by apply plain_cstr. }
  sb. apply (follow_bind s depth).
  2: { intros s2 node2 d2 e2 (H1 & H2 & H3 & H4 & H5 & _). apply (IH _ _ t'); done || lia. }
  assert (Hret : forall e, err_ok e -> forall d, depth <= d <= 8 ->
    exists r, Some (s1, @None nptr, d, e) = Some r /\ follow_post s depth r).
  { intros e Hok d Hdd. eexists. split; [done|]. by repeat (split; [done || lia|]). }
  destruct node as [q|]; [|apply Hret; done || lia]. destruct Hv1 as [n Hn]. rewrite Hn. sb.
  destruct (Z.eqb_spec (v_type n) VFS_SYMLINK) as [Hty|Hty].
  2: { eexists. split; [done|]. repeat (split; [done || lia|]). split; [by exists n|].
       repeat (split; [done || lia|]). done. }
  destruct (VFS_SYMLINK_MAX_DEPTH <=? depth) eqn:Emax; unfold VFS_SYMLINK_MAX_DEPTH in Emax; b2p.
  { apply Hret; [by right; left|lia]. }
  destruct (proj2 (proj2 (proj1 Hs1)) q n Hn Hty) as (Hm & tgt & tt & Hpriv & Htt).
  destruct (readlink_ok q n s1 tgt tt Hn Hty Hm Hpriv Htt) as (buf & -> & Hbuf). sb.
  destruct (zlen (take 511 tt) <=? 0); [apply Hret; done || lia|].
  destruct (cstr_ld0 _ _ Hbuf) as [c0 ->]. sb.
  set (base := if c0 =? SLASH then vfs_root s1 else Some c).
  assert (Hb : valid_opt s1 (start_of base s1)).
  { destruct Hs1 as [(_ & Hroot & _) _]. unfold base, start_of. case_if; [by destruct (vfs_root s1)|].
    by apply Hle1. }
  destruct (start_of base s1) as [b|]; [|apply Hret; done || lia].
  destruct (skip_slashes_ok buf _ 0 Hbuf) as (k & t1 & -> & Ht1 & _ & _ & Hk). sb.
  destruct (IH (Some b) (drop k buf) t1 (depth + 1) 0 s1) as (r & Hr & Hpost); [done..|lia|done| |].
  - rewrite length_take in Hk. lia.
  - exists r. split; [done|]. eapply follow_post_le; [done| |done]. lia.
Qed.

Lemma follow_total start path t s :
  cstr path t -> vs_fine s -> valid_opt s start ->
  exists s' node err, vfs_walk_path_follow ops start (Some path) s = Some (s', node, err) /\
    vs_fine s' /\ valid_opt s' node /\ err_ok err /\ (err <> 0 -> node = None).
Proof.
  intros Hp Hs Hst. unfold vfs_walk_path_follow.
  assert (Hc : valid_opt s (start_of start s)).
  { destruct start; [done|]. by destruct Hs as [(_ & ? & _) _]. }
  destruct (start_of start s) as [c|]; [|by exists s, None, 0; repeat (split; [done|]); split; [left|]].
  destruct (skip_slashes_ok path t 0 Hp) as (k & t1 & -> & Hp1 & _ & _ & Hk). sb.
  destruct (follow_loop_total (follow_fuel path) (Some c) (drop k path) t1 0 0 s)
    as ([[[s' node] d] err] & -> & H1 & _ & H2 & _ & H3 & H4); [done..|lia|by left| |].
  - unfold follow_fuel. destruct Hp as [[r ->] _]. rewrite length_app. lia.
  - sb. by exists s', node, err.
Qed.
(** C30: resolving a path through symbolic links ends.  Given file systems
    whose walk methods return, from a state whose links hold strings, for
    every path [vfs_walk_path_follow] returns, also when links form a cycle;
    the error it reports is 0, ELOOP or ENAMETOOLONG, a reported error comes
    with no node, and the node it does return exists. *)
Theorem walk_path_follow_total start path t s :
  cstr path t -> vs_fine s -> valid_opt s start ->
  exists s' node err, vfs_walk_path_follow ops start (Some path) s = Some (s', node, err) /\
    vs_fine s' /\ valid_opt s' node /\ err_ok err /\ (err <> 0 -> node = None).
Proof. apply follow_total. Qed.

(** ** Resolving the paths of calls *)

Lemma split_parent_total cwd w path t base max :
  cstr cwd w -> cstr path t -> rooted w = true -> 0 < max <= zlen base ->
  exists b g par, split_parent cwd path base max = Some (b, par) /\ cstr b g /\
    match par with AtRoot => True | Walk pp => exists x, cstr pp x end.
Proof.
  intros Hw Ht Hr Hb. destruct (norm [] (segs_of (abs_text w t))) as [|g l _] eqn:Hn using rev_ind.
  - unfold split_parent, PATH_BUF.
    destruct (canon_abs_ok cwd w path t (replicate (Z.to_nat 512) 0) Hw Ht) as (abs & -> & Hc & Hz);
      [by rewrite Hr|done|]. sb. unfold canon_text in Hc. rewrite Hn in Hc. cbn in Hc. destruct Hc as [[r ->] _].
    cbn [app last_slash]. change (SLASH =? 0) with false. change (SLASH =? SLASH) with true. cbn [Z.eqb]. sb.
    change (0 <=? 0) with true. change (0 =? 0) with true. cbv iota zeta.
    destruct (vfs_strlcpy_ok base (drop 1 (SLASH :: 0 :: r)) [] max) as (b & -> & Hb' & _); [|done|].
    + split; [by exists r|constructor].
    + sb. by eexists b, _, AtRoot.
  - destruct (split_parent_exact cwd w path t l g base max Hw Ht Hr Hb Hn) as (b & par & H1 & H2 & H3).
    eexists b, _, par. split; [exact H1|]. split; [exact H2|]. destruct par; [done|]. destruct H3. eauto.
Qed.

Lemma resolve_path_ok cwd w path t s :
  vs_fine s -> cstr cwd w -> rooted w = true -> cstr path t ->
  exists s' r, vfs_resolve_path ops (Some cwd) (Some path) s = Some (s', r) /\ vs_fine s' /\ valid_opt s' r.
Proof.
  intros Hs Hw Hr Ht. unfold vfs_resolve_path, PATH_BUF.
  destruct (canon_abs_ok cwd w path t (replicate (Z.to_nat 512) 0) Hw Ht) as (abs & -> & Hc & _); [by rewrite Hr|done|].
  sb. destruct (follow_total (vfs_root s) abs _ s Hc Hs) as (s' & r & e & -> & H1 & H2 & _); [apply Hs|]. sb. eauto.
Qed.

Lemma resolve_parent_ok cwd w path t base max s :
  vs_fine s -> cstr cwd w -> rooted w = true -> cstr path t -> 0 < max <= zlen base ->
  exists s' b g r, vfs_resolve_parent ops (Some cwd) (Some path) base max s = Some (s', b, r) /\ vs_fine s' /\
    valid_opt s' r /\ cstr b g.
Proof.
  intros Hs Hw Hr Ht Hb. unfold vfs_resolve_parent, vfs_resolve_parent_follow.
  destruct (split_parent_total cwd w path t base max Hw Ht Hr Hb) as (b & g & par & -> & Hg & Hp). sb. destruct par as [|pp].
  - eexists s, b, g, _. split; [done|]. split; [done|]. split; [apply Hs|done].
  - destruct Hp as [x Hx]. destruct (follow_total (vfs_root s) pp x s Hx Hs) as (s' & r & e & -> & H1 & H2 & _); [apply Hs|].
    sb. by exists s', b, g, r.
Qed.
End Follow.

(** ** The pool of symbolic links *)

Section Pool.
Context {F : Type} (ops : Z -> vops F).
Implicit Types (s : vstate F) (M : gmap mkey nptr).

Lemma free_sym_ok l j i : free_sym l j = Some i -> j <= i /\ exists e, ld l (i - j) = Some e /\ sy_in_use e = 0.
Proof.
  revert j. induction l as [|e l IH]; intros j H; cbn [free_sym] in H; [done|].
  destruct (Z.eqb_spec (sy_in_use e) 0) as [E|E].
  - injection H as <-. split; [lia|]. exists e. by rewrite Z.sub_diag.
  - destruct (IH _ H) as (Hi & e' & Hl & He). split; [lia|]. exists e'. split; [|done].
    replace (i - j) with (1 + (i - (j + 1))) by lia. rewrite ld_nonneg in Hl |- * by lia.
    by replace (Z.to_nat (1 + (i - (j + 1)))) with (S (Z.to_nat (i - (j + 1)))) by lia.
Qed.

(** The pool of [s'] is that of [s] but for entry [i], a link in use with
    [r] references. *)
Definition pool_upd (i r : Z) s s' : Prop :=
  fs_nodes s' = fs_nodes s /\ zlen (symlink_pool s') = zlen (symlink_pool s) /\
  (forall j, j <> i -> ld (symlink_pool s') j = ld (symlink_pool s) j) /\
  exists n, ld (symlink_pool s') i = Some (mk_sym n 1) /\ v_type n = VFS_SYMLINK /\
    v_refcount n = r /\ zlen (v_name n) = 128.

Lemma put_sym_upd i r n s s0 :
  pool_upd i r s0 s -> v_type n = VFS_SYMLINK -> zlen (v_name n) = 128 ->
  exists s', put_node (NSym i) n s = Some s' /\ mount_table s' = mount_table s /\
    pool_upd i (v_refcount n) s0 s'.
Proof.
  intros (H1 & H2 & H3 & m & Hm & _) Ht Hn. cbn [put_node]. rewrite Hm. ob. cbn [sy_in_use].
  destruct (st_some (symlink_pool s) i (mk_sym n 1)) as [l Hl]; [by apply ld_Some_lt in Hm|]. rewrite Hl. ob.
  eexists. split; [done|]. split; [done|]. split; [done|]. cbn [symlink_pool set_pool]. split; [|split].
  - by rewrite (zlen_st _ _ _ _ Hl).
  - intros j Hj. rewrite (ld_st_ne _ _ j _ _ Hl) by done. by apply H3.
  - exists n. split; [apply (ld_st_eq _ _ _ _ Hl)|done].
Qed.

Lemma symlink_alloc_upd target t i s :
  cstr target t -> zlen t < 2 ^ 31 -> free_sym (symlink_pool s) 0 = Some i ->
  Forall (fun e => zlen (v_name (sy_node e)) = 128) (symlink_pool s) ->
  exists s', vfs_symlink_alloc (Some target) (u32 (zlen t)) s = Some (s', Some (NSym i)) /\
    mount_table s' = mount_table s /\ pool_upd i 1 s s'.
Proof.
  intros Ht Hl Hi Hnm. unfold vfs_symlink_alloc. rewrite Hi.
  destruct (free_sym_ok _ _ _ Hi) as (H0 & e & He & _). rewrite Z.sub_0_r in He. rewrite He. sb.
  pose proof (zlen_nonneg t). replace (u32 (zlen t)) with (zlen t) by word_lia.
  set (n := if zlen t <? VFS_SYMLINK_TARGET_MAX - 1 then zlen t else VFS_SYMLINK_TARGET_MAX - 1).
  assert (Hn : 0 <= n <= 511 /\ n <= zlen t) by (unfold n, VFS_SYMLINK_TARGET_MAX; case_if; b2p; lia).
  replace (i32 n) with n by word_lia.
  assert (Hr : zlen (replicate 512 0) = 512) by reflexivity.
  assert (Htl : zlen t < zlen target) by (destruct Ht as [[q ->] _]; rewrite zlen_app, zlen_cons; pose proof (zlen_nonneg q); lia).
  rewrite copy_loop_ok by lia. sb.
  set (tgt := splice 0 (slice 0 (Z.of_nat (Z.to_nat n)) target) (replicate 512 0)).
  assert (Hz : zlen tgt = 512) by (unfold tgt; rewrite zlen_splice; rewrite ?zlen_slice by lia; lia).
  destruct (st_some tgt n 0) as [tgt' ->]; [lia|]. sb.
  assert (Hne : zlen (v_name (sy_node e)) = 128).
  { rewrite ld_nonneg in He by lia. by apply (Forall_lookup_1 _ _ _ _ Hnm He). }
  destruct (st_some (v_name (sy_node e)) 0 0) as [nm Hs]; [lia|]. rewrite Hs. sb.
  destruct (st_some (symlink_pool s) i (mk_sym (mk_vnode nm VFS_SYMLINK n 0 1 (v_mode (sy_node e)) (v_uid (sy_node e))
    (v_gid (sy_node e)) 0 (Some tgt')) 1)) as [l Hst]; [by apply ld_Some_lt in He|]. rewrite Hst. sb.
  eexists. split; [done|]. split; [done|]. split; [done|]. cbn [symlink_pool set_pool].
  split; [by rewrite (zlen_st _ _ _ _ Hst)|]. split; [intros j Hj; by apply (ld_st_ne _ _ _ _ _ Hst)|].
  eexists. split; [apply (ld_st_eq _ _ _ _ Hst)|]. cbn. split; [done|]. split; [done|]. by rewrite (zlen_st _ _ _ _ Hs).
Qed.

Lemma dir_node_ok d n s s' :
  get_node (NFs d) s = Some n -> v_type n = VFS_DIRECTORY -> fs_nodes s' = fs_nodes s ->
  dir_node (Some (NFs d)) s' = Some (Some (NFs d, n)).
Proof.
  intros Hd Hty Hf. unfold dir_node. cbn [get_node] in Hd |- *. rewrite Hf, Hd. ob. by rewrite Hty.
Qed.

Lemma symlink_upd d n name g target t i s M :
  get_node (NFs d) s = Some n -> v_type n = VFS_DIRECTORY -> method ops op_symlink n = None ->
  cstr name g -> zlen g <= 127 -> cstr target t -> zlen t < 2 ^ 31 ->
  mnt_rep (mount_table s) M -> Z.of_nat (size M) < VFS_MOUNT_MAX -> M !! (NFs d, g) = None ->
  free_sym (symlink_pool s) 0 = Some i ->
  Forall (fun e => zlen (v_name (sy_node e)) = 128) (symlink_pool s) ->
  exists s1, vfs_symlink ops (Some (NFs d)) (Some name) (Some target) s = Some (s1, 0) /\
    mnt_rep (mount_table s1) (<[(NFs d, g) := NSym i]> M) /\ pool_upd i 1 s s1.
Proof.
  intros Hd Hty Hop Hg Hgl Ht Htl HM Hsz Hnew Hi Hnm.
  unfold vfs_symlink. rewrite (dir_node_ok d n s s) by done. ob. rewrite Hop, (strlen_ok _ _ Ht). ob.
  destruct (symlink_alloc_upd target t i s Ht Htl Hi Hnm) as (s1 & -> & Em1 & Hp1). ob.
  pose proof Hp1 as (_ & _ & _ & m & Hm & Hmt & Hmr & Hmn). cbn [get_node]. rewrite Hm. ob. cbn [sy_node].
  unfold strlcpy. rewrite (bounded_copy_ok _ g) by (done || lia). ob.
  set (nm := splice _ _ _).
  assert (Hnm' : zlen nm = 128).
  { unfold nm. rewrite zlen_splice; rewrite ?zlen_app, ?zlen_1; [done|lia|].
    unfold zlen in *. rewrite length_take. lia. }
  destruct (put_sym_upd i 1 (set_vname nm m) s1 s Hp1 Hmt Hnm') as (s2 & -> & Em2 & Hp2). ob.
  rewrite <- Em1, <- Em2 in HM. cbn [v_refcount set_vname] in Hp2. rewrite Hmr in Hp2.
  destruct (mount_ok s2 M (NFs d) name g (NSym i) HM Hg Hgl) as (s3 & r & -> & Hr). ob.
  rewrite (proj2 (Z.leb_gt _ _)) in Hr by done. cbn [orb] in Hr.
  rewrite bool_decide_eq_false_2 in Hr by (rewrite Hnew; by intros [? ?]).
  destruct Hr as (HM3 & -> & Hs3). cbn [negb Z.eqb]. ob. exists s3. split; [done|]. split; [done|].
  rewrite Hs3. exact Hp2.
Qed.

Lemma unlink_upd d n name g i s0 s M :
  get_node (NFs d) s = Some n -> v_type n = VFS_DIRECTORY -> cstr name g ->
  mnt_rep (mount_table s) (<[(NFs d, g) := NSym i]> M) -> M !! (NFs d, g) = None ->
  pool_upd i 1 s0 s ->
  exists s2, vfs_unlink ops (Some (NFs d)) (Some name) s = Some (s2, 0) /\
    mnt_rep (mount_table s2) M /\ pool_upd i 1 s0 s2.
Proof.
  intros Hd Hty Hg HM Hnew Hp. pose proof Hp as (_ & _ & _ & m & Hm & Hmt & Hmr & Hmn).
  unfold vfs_unlink. rewrite (dir_node_ok d n s s) by done. ob.
  rewrite (lookup_mount_ok s _ (NFs d) name g HM Hg), lookup_insert_eq. ob.
  cbn [vfs_node_ref get_node]. rewrite Hm. ob. cbn [sy_node].
  destruct (put_sym_upd i 1 (set_refcount (u32 (v_refcount m + 1)) m) s s0 Hp Hmt Hmn) as (s2 & -> & Em2 & Hp2). ob.
  cbn [v_refcount set_refcount] in Hp2. rewrite Hmr in Hp2. change (u32 (1 + 1)) with 2 in Hp2.
  pose proof Hp2 as (_ & _ & _ & m2 & Hm2 & Hmt2 & _). rewrite Hm2. ob. cbn [sy_node]. rewrite Hmt2.
  rewrite Z.eqb_refl. rewrite <- Em2 in HM.
  destruct (umount_ok s2 _ (NFs d) name g HM Hg) as (s3 & r & -> & Hs3 & Hr). ob.
  rewrite bool_decide_eq_true_2 in Hr by (rewrite lookup_insert_eq; eauto). destruct Hr as [HM3 ->].
  rewrite delete_insert_id in HM3 by done.
  assert (Hp3 : pool_upd i 2 s0 s3) by (rewrite Hs3; exact Hp2).
  pose proof Hp3 as (_ & _ & _ & m3 & Hm3 & Hmt3 & Hmr3 & Hmn3).
  cbn [vfs_node_unref get_node]. rewrite Hm3. ob. cbn [sy_node]. rewrite Hmr3.
  destruct (put_sym_upd i 2 (set_refcount (u32 (2 - 1)) m3) s3 s0 Hp3 Hmt3 Hmn3) as (s4 & -> & Em4 & Hp4). ob.
  cbn [Z.eqb andb]. ob. exists s4. split; [done|]. by rewrite Em4.
Qed.

(** A removed symbolic link keeps its pool entry.  Where the file system
    has no links of its own, creating a link and removing it again both
    succeed and leave the mount table as it was, but the entry taken from
    the pool of 256 is still marked in use with one reference, and no other
    entry has changed: the reference [vfs_symlink_alloc] gave the node is
    never dropped, because [vfs_unlink] drops only the one it took itself. *)
Theorem symlink_slot_leaks d n name g target t i s M :
  get_node (NFs d) s = Some n -> v_type n = VFS_DIRECTORY -> method ops op_symlink n = None ->
  cstr name g -> zlen g <= 127 -> cstr target t -> zlen t < 2 ^ 31 ->
  mnt_rep (mount_table s) M -> Z.of_nat (size M) < VFS_MOUNT_MAX -> M !! (NFs d, g) = None ->
  free_sym (symlink_pool s) 0 = Some i ->
  Forall (fun e => zlen (v_name (sy_node e)) = 128) (symlink_pool s) ->
  exists s1 s2, vfs_symlink ops (Some (NFs d)) (Some name) (Some target) s = Some (s1, 0) /\
    vfs_unlink ops (Some (NFs d)) (Some name) s1 = Some (s2, 0) /\
    mnt_rep (mount_table s2) M /\ pool_upd i 1 s s2.
Proof.
  intros Hd Hty Hop Hg Hgl Ht Htl HM Hsz Hnew Hi Hnm.
  destruct (symlink_upd d n name g target t i s M) as (s1 & H1 & HM1 & Hp1); [done..|].
  assert (Hd1 : get_node (NFs d) s1 = Some n) by (destruct Hp1 as (E & _); cbn [get_node] in *; by rewrite E).
  destruct (unlink_upd d n name g i s s1 M) as (s2 & H2 & HM2 & Hp2); [done..|].
  by exists s1, s2.
Qed.
End Pool.

(** ** Permissions *)

(** The class of the caller and its three bits. *)
Definition granted (mode uid gid euid egid : Z) (bit : Z) : bool :=
  Z.testbit mode (bit + if euid =? uid then 6 else if egid =? gid then 3 else 0).

(** The permission check is the Unix rule.  For a user process and a
    node with a mode, access is granted exactly when the process is root or
    every requested bit is set in the one class that applies: the owner's
    for the owner, the group's for a member who is not the owner, else the
    others'. *)
Theorem check_perm_exact n euid egid perm :
  v_mode n <> 0 -> 0 <= perm < 8 ->
  let r := vfs_check_perm (Some (mk_task false (Some (euid, egid)))) (Some n) perm in
  (r = 0 \/ r = -1) /\
  (r = 0 <-> euid = 0 \/ forall bit, 0 <= bit < 3 -> Z.testbit perm bit = true ->
               granted (v_mode n) (v_uid n) (v_gid n) euid egid bit = true).
Proof.
  intros Hm Hp. cbv zeta. unfold vfs_check_perm. rewrite (proj2 (Z.eqb_neq _ _)) by done. cbn [t_is_kernel t_ids].
  destruct (Z.eqb_spec euid 0) as [->|Hu]; [by split; [left|split; [left|]]|].
  set (sh := if euid =? v_uid n then 6 else if egid =? v_gid n then 3 else 0).
  assert (Hsh : 0 <= sh) by (unfold sh; case_ifs; lia).
  assert (Hbit : forall b, 0 <= b < 3 -> Z.testbit (Z.land (Z.shiftr (v_mode n) sh) 7) b = Z.testbit (v_mode n) (b + sh)).
  { intros b Hb. rewrite Z.land_spec, Z.shiftr_spec by lia. change 7 with (Z.ones 3).
    rewrite Z.ones_spec_low by lia. by rewrite andb_true_r. }
  set (al := Z.land (Z.shiftr (v_mode n) sh) 7) in *.
  destruct (Z.eqb_spec (Z.land al perm) perm) as [E|E]; (split; [by (left + right)|]).
  - split; [intros _|done]. right. intros b Hb Hpb. unfold granted. fold sh. rewrite <- Hbit by done.
    rewrite <- E, Z.land_spec in Hpb. by apply andb_true_iff in Hpb as [? _].
  - split; [done|]. intros [?|Hall]; [done|]. exfalso. apply E. apply Z.bits_inj'. intros b Hb.
    rewrite Z.land_spec. destruct (Z.testbit perm b) eqn:Eb; [|apply andb_false_r].
    rewrite andb_true_r. destruct (Z.lt_ge_cases b 3).
    + rewrite Hbit by lia. by apply (Hall b).
    + replace perm with (perm mod 2 ^ 3) in Eb by (apply Z.mod_small; lia).
      rewrite Z.mod_pow2_bits_high in Eb by lia. done.
Qed.

(** ** Instances *)

(** A file system of one directory, which finds itself under the name "f". *)
Definition self_ops (o : Z) : vops unit :=
  mk_vops None None None None
    (Some (fun d name s => r ← streq name [102; 0]; Some (s, if r : bool then Some d else None)))
    None None None None None None None None None None None None None None None None.
Definition self_dir : vnode := mk_vnode (replicate 128 0) VFS_DIRECTORY 0 1 1 493 0 0 1 None.
(** The link "l", which points to itself. *)
Definition loop_link : vnode := mk_vnode (108 :: replicate 127 0) VFS_SYMLINK 1 0 1 0 0 0 0 (Some [108; 0]).
Definition self_state (mnts : list vfs_mount_t) (pool : list sym_entry) : vstate unit :=
  mk_vstate mnts pool {[0 := self_dir]} (Some (NFs 0)) tt.
Definition loop_state : vstate unit :=
  self_state [mk_mount (NFs 0) (NSym 0) [108; 0]] [mk_sym loop_link 1].

#[export] Instance self_laws : VfsLaws self_ops.
Proof.
  refine {| fs_ok := fun _ => True |}; [done|]. intros n f d name g s Hm Hs _ Hd Hg. unfold method in Hm.
  destruct (v_ops n =? 0); [done|]. cbn in Hm. injection Hm as <-. rewrite (streq_ok _ _ g [102] Hg) by (split; [by exists []|by constructor]).
  ob. eexists _, _. split; [done|]. split; [done|]. split; [done|]. split; [done|]. case_bool_decide; [by exists n|done].
Defined.

Lemma loop_state_ok : vs_ok self_ops loop_state.
Proof.
  split; [|split].
  - constructor; [|by constructor]. split; [by eexists|]. exists [108]. split; [by exists []|by constructor].
  - by eexists.
  - intros [k|i] n Hn.
    + cbn [get_node loop_state self_state fs_nodes] in Hn. apply lookup_singleton_Some in Hn as [_ <-]. by intros ?.
    + cbn [get_node] in Hn. destruct (ld (symlink_pool loop_state) i) as [e|] eqn:E; [|done].
      pose proof (ld_Some_lt _ _ _ E) as Hi. cbn in Hi. unfold zlen in Hi; cbn in Hi.
      replace i with 0 in E by lia. cbn in E. injection E as <-. injection Hn as <-.
      intros _. split; [done|]. exists [108; 0], [108]. split; [done|]. split; [by exists []|by constructor].
Qed.

Lemma mount_table_refines_witness :
  mrun [MMount (NFs 0) [97; 0] (NFs 1); MMount (NFs 0) [98; 0] (NFs 2); MUmount (NFs 0) [97; 0];
        MLookup (NFs 0) [98; 0]] (vfs_init loop_state) = Some [MRet 0; MRet 0; MRet 0; MNode (Some (NFs 2))].
Proof.
  apply (mount_table_refines [(MMount (NFs 0) [97; 0] (NFs 1), [97]); (MMount (NFs 0) [98; 0] (NFs 2), [98]);
    (MUmount (NFs 0) [97; 0], [97]); (MLookup (NFs 0) [98; 0], [98])] loop_state).
  repeat constructor; try (by eexists []); done.
Defined.

Lemma walk_path_exact_witness :
  vfs_walk_path self_ops None (Some [47; 102; 47; 47; 102; 0]) loop_state =
    walk_segs self_ops (segs_of [47; 102; 47; 47; 102]) (Some (NFs 0)) loop_state /\
  walk_segs self_ops (segs_of [47; 102; 47; 47; 102]) (Some (NFs 0)) loop_state = Some (loop_state, Some (NFs 0)).
Proof.
  split; [|by vm_compute].
  apply (walk_path_exact self_ops None [47; 102; 47; 47; 102; 0] [47; 102; 47; 47; 102]); [|done].
  split; [by exists []|]. by repeat constructor.
Defined.

Lemma walk_path_follow_total_witness :
  exists s' node err, vfs_walk_path_follow self_ops None (Some [47; 108; 0]) loop_state = Some (s', node, err) /\
    vs_fine self_ops s' /\ valid_opt s' node /\ err_ok err /\ (err <> 0 -> node = None).
Proof.
  apply (walk_path_follow_total self_ops None [47; 108; 0] [47; 108]).
  - split; [by exists []|]. by repeat constructor.
  - split; [apply loop_state_ok|exact I].
  - exact I.
Defined.

(** The path through the link that points to itself ends in ELOOP. *)
Lemma loop_link_eloop :
  (fun '(_, node, err) => (node, err)) <$> vfs_walk_path_follow self_ops None (Some [47; 108; 0]) loop_state =
    Some (None, ELOOP).
Proof. by vm_compute. Qed.

Lemma symlink_slot_leaks_witness :
  let s := self_state [] [mk_sym self_dir 0; mk_sym self_dir 0] in
  exists s1 s2, vfs_symlink self_ops (Some (NFs 0)) (Some [108; 0]) (Some [102; 0]) s = Some (s1, 0) /\
    vfs_unlink self_ops (Some (NFs 0)) (Some [108; 0]) s1 = Some (s2, 0) /\
    mnt_rep (mount_table s2) ∅ /\ pool_upd 0 1 s s2.
Proof.
  cbv zeta. apply (symlink_slot_leaks self_ops 0 self_dir [108; 0] [108] [102; 0] [102]); try done.
  - split; [by exists []|by constructor].
  - split; [by exists []|by constructor].
  - exists []. split; [constructor|]. split; [apply NoDup_nil_2|]. split; [done|]. done.
  - by repeat constructor.
Defined.

(** A group member who is not the owner reads through the group's bits. *)
Lemma check_perm_exact_witness :
  let n := mk_vnode [] VFS_FILE 0 0 1 416 7 9 0 None in
  let r := vfs_check_perm (Some (mk_task false (Some (5, 9)))) (Some n) 4 in
  (r = 0 \/ r = -1) /\
  (r = 0 <-> 5 = 0 \/ forall bit, 0 <= bit < 3 -> Z.testbit 4 bit = true -> granted 416 7 9 5 9 bit = true).
Proof.
  cbv zeta. apply (check_perm_exact (mk_vnode [] VFS_FILE 0 0 1 416 7 9 0 None) 5 9 4); [done|lia].
Defined.
