(* ===== verification/Sched.v ===== *)
(** * The scheduler: tasks, ready queues, timer wheel and signals

    Model of [kernel/proc/sched/src/mlfq.rs], [timer_wheel.rs],
    [task_signal.rs], the task list of [task.rs] and the exit, wait and reap
    code of [task_fork.rs], with the structures of
    [kernel/sync/src/task_abi.rs].

    Tasks and process records live in a heap and are named by their
    addresses; a null pointer is [None].  A computation has no result when the
    code would dereference a null or freed pointer, panic on overflow, or run
    for ever.  The scheduler lock disables interrupts on the one processor,
    so the code under it runs without interference and the lock itself is
    not part of the state.  Loops along a list of tasks take the number of
    tasks plus one as fuel: a list without a cycle has no more nodes, and on a
    list with a cycle the loop does not end. *)
From S2P Require Import Prelude StateM.

#[local] Open Scope Z_scope.

(** ** Constants *)

Definition MLFQ_LEVELS : Z := 4.
Definition MLFQ_LEVEL_RT : Z := 0.
Definition MLFQ_LEVEL_INTERACTIVE : Z := 1.
Definition MLFQ_LEVEL_BACKGROUND : Z := 3.
Definition MLFQ_QUANTUM : list Z := [5; 1; 2; 4].
Definition BOOST_INTERVAL : Z := 50.
Definition BOOST_TARGET : Z := MLFQ_LEVEL_INTERACTIVE.
Definition WHEEL_SIZE : Z := 256.
Definition NSIG : Z := 13.
Definition KERNEL_STACK_SIZE : Z := 4096.
Definition KERNEL_BASE : Z := 3221225472.
Definition SIGKILL : Z := 1.
Definition SIGTERM : Z := 2.
Definition SIGSTOP : Z := 4.
Definition SIGCONT : Z := 8.
Definition SIGALRM : Z := 32.
Definition SIGCHLD : Z := 64.
Definition SIGFPE : Z := 128.
Definition SIGSEGV : Z := 256.
Definition SIGWINCH : Z := 512.
Definition SIGHUP : Z := 1024.
Definition SIGINT : Z := 2048.
Definition SIGQUIT : Z := 4096.
Definition SIG_UNCATCHABLE : Z := Z.lor SIGKILL SIGSTOP.
Definition SIG_DFL : Z := 0.
Definition SIG_IGN : Z := 1.

(** ** Data *)

Inductive TaskState := Ready | Running | Sleeping | Zombie | Waiting.
#[export] Instance TaskState_eq_dec : EqDecision TaskState.
Proof. solve_decision. Defined.

(** A pointer to a task or a process record. *)
Abbreviation ptr := (option Z).

Record TaskStruct := mk_task {
  t_esp : Z; t_page_directory : ptr; t_pid : Z; t_state : TaskState; t_is_kernel : Z;
  t_next : ptr; t_queue_next : ptr; t_priority : Z; t_time_slice : Z; t_ticks_used : Z; t_proc : ptr
}.

(** The fields of [ProcMeta] the scheduler uses. *)
Record ProcMeta := mk_proc {
  p_stack_base : ptr; p_pending_signals : Z; p_signal_mask : Z; p_saved_signal_mask : Z;
  p_in_sigsuspend : Z; p_signal_handlers : list Z; p_alarm_ticks : Z; p_itimer_value : Z;
  p_itimer_interval : Z; p_parent_pid : Z; p_exit_code : Z; p_sleep_until : Z; p_wait_next : ptr
}.

Record MlfqQueue := mk_queue { q_head : ptr; q_tail : ptr; q_count : Z }.
Definition empty_queue : MlfqQueue := mk_queue None None 0.

Record TimerSlot := mk_slot { sl_head : ptr; sl_count : Z }.

(** The global state of the crate; [kernel_pd] is the kernel's own page
    directory, which lies outside it. *)
Record sched := mk_sched {
  tasks : gmap Z TaskStruct; procs : gmap Z ProcMeta;
  queues : list MlfqQueue; sleep_queue : MlfqQueue; boost_counter : Z;
  current_task : ptr; task_list_head : ptr; task_list_tail : ptr; next_pid : Z;
  slots : list TimerSlot; current_tick : Z;
  in_progress : Z; reap_counter : Z; kernel_pd : Z
}.

Definition set_tasks v s := mk_sched v (procs s) (queues s) (sleep_queue s) (boost_counter s)
  (current_task s) (task_list_head s) (task_list_tail s) (next_pid s) (slots s) (current_tick s)
  (in_progress s) (reap_counter s) (kernel_pd s).
Definition set_procs v s := mk_sched (tasks s) v (queues s) (sleep_queue s) (boost_counter s)
  (current_task s) (task_list_head s) (task_list_tail s) (next_pid s) (slots s) (current_tick s)
  (in_progress s) (reap_counter s) (kernel_pd s).
Definition set_queues v s := mk_sched (tasks s) (procs s) v (sleep_queue s) (boost_counter s)
  (current_task s) (task_list_head s) (task_list_tail s) (next_pid s) (slots s) (current_tick s)
  (in_progress s) (reap_counter s) (kernel_pd s).
Definition set_sleep_queue v s := mk_sched (tasks s) (procs s) (queues s) v (boost_counter s)
  (current_task s) (task_list_head s) (task_list_tail s) (next_pid s) (slots s) (current_tick s)
  (in_progress s) (reap_counter s) (kernel_pd s).
Definition set_boost v s := mk_sched (tasks s) (procs s) (queues s) (sleep_queue s) v
  (current_task s) (task_list_head s) (task_list_tail s) (next_pid s) (slots s) (current_tick s)
  (in_progress s) (reap_counter s) (kernel_pd s).
Definition set_current v s := mk_sched (tasks s) (procs s) (queues s) (sleep_queue s) (boost_counter s)
  v (task_list_head s) (task_list_tail s) (next_pid s) (slots s) (current_tick s)
  (in_progress s) (reap_counter s) (kernel_pd s).
Definition set_list h t s := mk_sched (tasks s) (procs s) (queues s) (sleep_queue s) (boost_counter s)
  (current_task s) h t (next_pid s) (slots s) (current_tick s)
  (in_progress s) (reap_counter s) (kernel_pd s).
Definition set_slots v s := mk_sched (tasks s) (procs s) (queues s) (sleep_queue s) (boost_counter s)
  (current_task s) (task_list_head s) (task_list_tail s) (next_pid s) v (current_tick s)
  (in_progress s) (reap_counter s) (kernel_pd s).
Definition set_tick v s := mk_sched (tasks s) (procs s) (queues s) (sleep_queue s) (boost_counter s)
  (current_task s) (task_list_head s) (task_list_tail s) (next_pid s) (slots s) v
  (in_progress s) (reap_counter s) (kernel_pd s).
Definition set_flags ip rc s := mk_sched (tasks s) (procs s) (queues s) (sleep_queue s) (boost_counter s)
  (current_task s) (task_list_head s) (task_list_tail s) (next_pid s) (slots s) (current_tick s)
  ip rc (kernel_pd s).

Definition set_state st x := mk_task (t_esp x) (t_page_directory x) (t_pid x) st (t_is_kernel x)
  (t_next x) (t_queue_next x) (t_priority x) (t_time_slice x) (t_ticks_used x) (t_proc x).
Definition set_next n x := mk_task (t_esp x) (t_page_directory x) (t_pid x) (t_state x) (t_is_kernel x)
  n (t_queue_next x) (t_priority x) (t_time_slice x) (t_ticks_used x) (t_proc x).
Definition set_queue_next n x := mk_task (t_esp x) (t_page_directory x) (t_pid x) (t_state x)
  (t_is_kernel x) (t_next x) n (t_priority x) (t_time_slice x) (t_ticks_used x) (t_proc x).
Definition set_priority v x := mk_task (t_esp x) (t_page_directory x) (t_pid x) (t_state x)
  (t_is_kernel x) (t_next x) (t_queue_next x) v (t_time_slice x) (t_ticks_used x) (t_proc x).
Definition set_ticks v x := mk_task (t_esp x) (t_page_directory x) (t_pid x) (t_state x)
  (t_is_kernel x) (t_next x) (t_queue_next x) (t_priority x) (t_time_slice x) v (t_proc x).

Definition set_signals pend mask susp p := mk_proc (p_stack_base p) pend mask (p_saved_signal_mask p)
  susp (p_signal_handlers p) (p_alarm_ticks p) (p_itimer_value p) (p_itimer_interval p)
  (p_parent_pid p) (p_exit_code p) (p_sleep_until p) (p_wait_next p).
Definition set_pending v p := set_signals v (p_signal_mask p) (p_in_sigsuspend p) p.
Definition set_mask v p := set_signals (p_pending_signals p) v (p_in_sigsuspend p) p.
Definition set_handlers v p := mk_proc (p_stack_base p) (p_pending_signals p) (p_signal_mask p)
  (p_saved_signal_mask p) (p_in_sigsuspend p) v (p_alarm_ticks p) (p_itimer_value p)
  (p_itimer_interval p) (p_parent_pid p) (p_exit_code p) (p_sleep_until p) (p_wait_next p).
Definition set_timers alarm itimer p := mk_proc (p_stack_base p) (p_pending_signals p) (p_signal_mask p)
  (p_saved_signal_mask p) (p_in_sigsuspend p) (p_signal_handlers p) alarm itimer
  (p_itimer_interval p) (p_parent_pid p) (p_exit_code p) (p_sleep_until p) (p_wait_next p).
Definition set_sleep until nxt p := mk_proc (p_stack_base p) (p_pending_signals p) (p_signal_mask p)
  (p_saved_signal_mask p) (p_in_sigsuspend p) (p_signal_handlers p) (p_alarm_ticks p)
  (p_itimer_value p) (p_itimer_interval p) (p_parent_pid p) (p_exit_code p) until nxt.
Definition set_parent pid code p := mk_proc (p_stack_base p) (p_pending_signals p) (p_signal_mask p)
  (p_saved_signal_mask p) (p_in_sigsuspend p) (p_signal_handlers p) (p_alarm_ticks p)
  (p_itimer_value p) (p_itimer_interval p) pid code (p_sleep_until p) (p_wait_next p).

Abbreviation SM := (M sched).

(** ** Access through pointers *)

Definition get_task (t : Z) : SM TaskStruct := h ← gets tasks; lift (h !! t).
Definition upd_task (t : Z) (f : TaskStruct -> TaskStruct) : SM unit :=
  x ← get_task t; modify (fun s => set_tasks (<[t := f x]> (tasks s)) s).
Definition get_proc (p : Z) : SM ProcMeta := h ← gets procs; lift (h !! p).
Definition upd_proc (p : Z) (f : ProcMeta -> ProcMeta) : SM unit :=
  x ← get_proc p; modify (fun s => set_procs (<[p := f x]> (procs s)) s).
(** The field [proc] of a task, dereferenced. *)
Definition proc_of (t : Z) : SM Z := x ← get_task t; lift (t_proc x).
Definition get_task_proc (t : Z) : SM ProcMeta := p ← proc_of t; get_proc p.
Definition upd_task_proc (t : Z) (f : ProcMeta -> ProcMeta) : SM unit := p ← proc_of t; upd_proc p f.

(** One more than the number of tasks. *)
Definition list_fuel : SM nat := h ← gets tasks; mret (S (size h)).

(** ** MlfqQueue *)

(** [queues[i]] or the sleep queue. *)
Inductive qid := Level (i : nat) | SleepQ.
#[export] Instance qid_eq_dec : EqDecision qid.
Proof. solve_decision. Defined.

Definition lookup_queue (q : qid) (s : sched) : option MlfqQueue :=
  match q with Level i => queues s !! i | SleepQ => Some (sleep_queue s) end.
Definition get_queue (q : qid) : SM MlfqQueue := o ← gets (lookup_queue q); lift o.
Definition put_queue (q : qid) (v : MlfqQueue) : SM unit :=
  match q with
  | Level i => modify (fun s => set_queues (<[i := v]> (queues s)) s)
  | SleepQ => modify (set_sleep_queue v)
  end.

Definition push (q : qid) (t : Z) : SM unit :=
  upd_task t (set_queue_next None) ;;
  v ← get_queue q;
  head ← match q_tail v with
         | None => mret (Some t)
         | Some tl => upd_task tl (set_queue_next (Some t)) ;; mret (q_head v)
         end;
  c ← lift (cadd (q_count v) 1);
  put_queue q (mk_queue head (Some t) c).

Definition pop (q : qid) : SM ptr :=
  v ← get_queue q;
  match q_head v with
  | None => mret None
  | Some t =>
      x ← get_task t;
      let head := t_queue_next x in
      let tail := match head with None => None | Some _ => q_tail v end in
      upd_task t (set_queue_next None) ;;
      c ← lift (csub (q_count v) 1);
      put_queue q (mk_queue head tail c) ;;
      mret (Some t)
  end.

Fixpoint remove_loop (fuel : nat) (q : qid) (task : Z) (prev cur : ptr) : SM unit :=
  match fuel with
  | O => fail
  | S fuel =>
      match cur with
      | None => skip
      | Some c =>
          if decide (c = task) then
            v ← get_queue q;
            x ← get_task task;
            head ← match prev with
                   | None => mret (t_queue_next x)
                   | Some p => upd_task p (set_queue_next (t_queue_next x)) ;; mret (q_head v)
                   end;
            let tail := if decide (q_tail v = Some task) then prev else q_tail v in
            n ← lift (csub (q_count v) 1);
            put_queue q (mk_queue head tail n) ;;
            upd_task task (set_queue_next None)
          else x ← get_task c; remove_loop fuel q task (Some c) (t_queue_next x)
      end
  end.

Definition remove (q : qid) (task : ptr) : SM unit :=
  match task with
  | None => skip
  | Some t => fuel ← list_fuel; v ← get_queue q; remove_loop fuel q t None (q_head v)
  end.

(** ** The queues of the scheduler *)

Definition mlfq_init : SM unit :=
  modify (fun s => set_boost 0 (set_sleep_queue empty_queue
                     (set_queues ((fun _ => empty_queue) <$> queues s) s))).

Definition mlfq_enqueue_locked (task : ptr) (level : Z) : SM unit :=
  match task with
  | None => skip
  | Some t =>
      let level := Z.min level (MLFQ_LEVELS - 1) in
      upd_task t (set_priority level) ;; push (Level (Z.to_nat level)) t
  end.

Definition sched_mlfq_enqueue_locked (task : ptr) (level : Z) : SM unit :=
  mlfq_enqueue_locked task level.

Definition mlfq_sleep_locked (task : ptr) : SM unit :=
  match task with None => skip | Some t => push SleepQ t end.

Definition mlfq_remove_from_sleep (task : ptr) : SM unit := remove SleepQ task.

Definition mlfq_remove (task : ptr) : SM unit :=
  match task with
  | None => skip
  | Some t => x ← get_task t;
              remove (Level (Z.to_nat (Z.min (t_priority x) (MLFQ_LEVELS - 1)))) task
  end.

Fixpoint pick_from (levels : list nat) : SM ptr :=
  match levels with
  | [] => mret None
  | i :: r => t ← pop (Level i); match t with Some _ => mret t | None => pick_from r end
  end.

Definition pick_next_task : SM ptr := pick_from (seq 0 (Z.to_nat MLFQ_LEVELS)).

(** [mlfq_enqueue_locked(t, t.priority)] after [t.state = Ready]: the wake-up
    of the modules below. *)
Definition make_ready (t : Z) : SM unit :=
  upd_task t (set_state Ready) ;;
  x ← get_task t;
  mlfq_enqueue_locked (Some t) (t_priority x).

Fixpoint boost_loop (fuel : nat) (level : nat) : SM unit :=
  match fuel with
  | O => fail
  | S fuel =>
      o ← pop (Level level);
      match o with
      | None => skip
      | Some t =>
          upd_task t (fun x => set_priority BOOST_TARGET (set_ticks 0 x)) ;;
          push (Level (Z.to_nat BOOST_TARGET)) t ;;
          boost_loop fuel level
      end
  end.

Definition do_priority_boost : SM unit :=
  for_each [2%nat; 3%nat] (fun level => fuel ← list_fuel; boost_loop fuel level) ;;
  cur ← gets current_task;
  match cur with
  | None => skip
  | Some c =>
      x ← get_task c;
      if (BOOST_TARGET <? t_priority x) && negb (t_priority x =? MLFQ_LEVEL_RT) then
        upd_task c (fun x => set_ticks 0 (set_priority BOOST_TARGET x))
      else skip
  end.

Fixpoint wake_loop (fuel : nat) (now : Z) (prev cur : ptr) : SM unit :=
  match fuel with
  | O => fail
  | S fuel =>
      match cur with
      | None => skip
      | Some c =>
          x ← get_task c;
          let next := t_queue_next x in
          p ← get_task_proc c;
          if negb (p_sleep_until p =? 0) && (p_sleep_until p <=? now) then
            v ← gets sleep_queue;
            head ← match prev with
                   | None => mret next
                   | Some pr => upd_task pr (set_queue_next next) ;; mret (q_head v)
                   end;
            let tail := if decide (q_tail v = Some c) then prev else q_tail v in
            n ← lift (csub (q_count v) 1);
            modify (set_sleep_queue (mk_queue head tail n)) ;;
            upd_task_proc c (fun p => set_sleep 0 (p_wait_next p) p) ;;
            make_ready c ;;
            wake_loop fuel now prev next
          else wake_loop fuel now cur next
      end
  end.

Definition wake_expired_sleepers : SM unit :=
  now ← gets current_tick;
  fuel ← list_fuel;
  v ← gets sleep_queue;
  wake_loop fuel now None (q_head v).

Definition mlfq_wake_task (task : ptr) : SM unit :=
  match task with
  | None => skip
  | Some t =>
      x ← get_task t;
      match t_state x with
      | Sleeping => mlfq_remove_from_sleep task ;; make_ready t
      | Waiting => make_ready t
      | _ => skip
      end
  end.

Definition quantum_of (prio : Z) : option Z :=
  ld MLFQ_QUANTUM (Z.min prio (MLFQ_LEVELS - 1)).

Definition task_voluntary_block (task : ptr) (new_state : TaskState) : SM unit :=
  match task with
  | None => skip
  | Some t =>
      x ← get_task t;
      q ← lift (quantum_of (t_priority x));
      (if (t_ticks_used x <? q / 2 + 1) && (MLFQ_LEVEL_INTERACTIVE <? t_priority x)
       then upd_task t (set_priority (t_priority x - 1)) else skip) ;;
      upd_task t (fun x => set_state new_state (set_ticks 0 x)) ;;
      match new_state with Sleeping => mlfq_sleep_locked task | _ => skip end
  end.

(** ** The list of all tasks *)

Definition task_list_add (t : ptr) : SM unit :=
  match t with
  | None => skip
  | Some t =>
      upd_task t (set_next None) ;;
      tl ← gets task_list_tail;
      match tl with
      | None => modify (set_list (Some t) (Some t))
      | Some l => upd_task l (set_next (Some t)) ;;
                  modify (fun s => set_list (task_list_head s) (Some t) s)
      end
  end.

Fixpoint list_remove_loop (fuel : nat) (t : Z) (prev cur : ptr) : SM unit :=
  match fuel with
  | O => fail
  | S fuel =>
      match cur with
      | None => skip
      | Some c =>
          x ← get_task c;
          if decide (c = t) then
            match prev with
            | None => modify (fun s => set_list (t_next x) (task_list_tail s) s)
            | Some p => upd_task p (set_next (t_next x))
            end ;;
            modify (fun s => if decide (task_list_tail s = Some t)
                             then set_list (task_list_head s) prev s else s) ;;
            upd_task t (set_next None)
          else list_remove_loop fuel t (Some c) (t_next x)
      end
  end.

Definition task_list_remove (t : ptr) : SM unit :=
  match t with
  | None => skip
  | Some t => fuel ← list_fuel; h ← gets task_list_head; list_remove_loop fuel t None h
  end.

Fixpoint find_loop (fuel : nat) (pid : Z) (cur : ptr) : SM ptr :=
  match fuel with
  | O => fail
  | S fuel =>
      match cur with
      | None => mret None
      | Some c => x ← get_task c;
                  if t_pid x =? pid then mret (Some c) else find_loop fuel pid (t_next x)
      end
  end.

Definition find_task_by_pid (pid : Z) : SM ptr :=
  fuel ← list_fuel; h ← gets task_list_head; find_loop fuel pid h.

Definition task_init : SM unit :=
  modify (fun s => mk_sched (tasks s) (procs s) (queues s) (sleep_queue s) (boost_counter s)
            None None None 1 (slots s) (current_tick s) (in_progress s) (reap_counter s) (kernel_pd s)) ;;
  mlfq_init ;;
  modify (fun s => set_tick 0 (set_slots ((fun _ => mk_slot None 0) <$> slots s) s)).

(** [init_scheduler]: [idle] is the address kmalloc returned. *)
Definition init_scheduler (idle : ptr) : SM Z :=
  match idle with
  | None => mret (-1)
  | Some i =>
      modify (fun s => set_list (Some i) (Some i) (set_current (Some i)
        (set_tasks (<[i := mk_task 0 None 0 Running 1 (Some i) None MLFQ_LEVEL_BACKGROUND 0 0 None]>
                      (tasks s)) s))) ;;
      mret 0
  end.

Definition task_set_state (t : ptr) (new_state : Z) : SM unit :=
  match t with
  | None => skip
  | Some t =>
      let set ns := upd_task t (set_state ns) in
      if new_state =? 0 then make_ready t
      else if new_state =? 1 then set Running
      else if new_state =? 2 then set Sleeping
      else if new_state =? 3 then set Zombie
      else if new_state =? 4 then set Waiting
      else skip
  end.

(** ** Signals *)

(** The part of [task_signal_locked] and [wake_if_sigsuspend] that wakes a
    task waiting in sigsuspend. *)
Definition wake_if_sigsuspend (t : Z) (signal : Z) : SM unit :=
  p ← get_task_proc t;
  x ← get_task t;
  if negb (p_in_sigsuspend p =? 0) && bool_decide (t_state x = Sleeping)
     && negb (Z.land signal (Z.lnot (p_signal_mask p)) =? 0) then
    mlfq_remove_from_sleep (Some t) ;; make_ready t
  else skip.

Definition task_signal_locked (pid signal : Z) : SM unit :=
  h ← gets task_list_head;
  if bool_decide (h = None) || (pid =? 0) then skip
  else
    o ← find_task_by_pid pid;
    match o with
    | None => skip
    | Some t =>
        upd_task_proc t (fun p => set_pending (Z.lor (p_pending_signals p) signal) p) ;;
        if negb (Z.land signal (Z.lor SIGKILL SIGSTOP) =? 0) then
          x ← get_task t;
          match t_state x with
          | Sleeping => mlfq_remove_from_sleep (Some t) ;; make_ready t
          | Waiting => make_ready t
          | _ => skip
          end
        else wake_if_sigsuspend t signal
    end.

Definition task_signal (pid signal : Z) : SM unit := task_signal_locked pid signal.

Definition task_kill (pid : Z) : SM unit := if pid =? 0 then skip else task_signal pid SIGKILL.

Definition handle_signal_bit (t : Z) (deliverable sig handler_idx : Z) (term_by_default : bool)
  : SM unit :=
  if Z.land deliverable sig =? 0 then skip
  else
    x ← get_task t;
    if bool_decide (t_state x = Zombie) then skip
    else
      p ← get_task_proc t;
      upd_task_proc t (fun p => set_pending (Z.land (p_pending_signals p) (Z.lnot sig)) p) ;;
      handler ← lift (ld (p_signal_handlers p) handler_idx);
      if sig =? SIGCONT then
        (if bool_decide (t_state x = Sleeping) then upd_task t (set_state Ready) else skip)
      else if (sig =? SIGCHLD) || (sig =? SIGWINCH) then
        (if negb (handler =? SIG_DFL) && negb (handler =? SIG_IGN)
         then upd_task_proc t (fun p => set_pending (Z.lor (p_pending_signals p) sig) p) else skip)
      else if term_by_default && ((handler =? SIG_DFL) || (handler =? SIG_IGN)) then
        task_signal_locked (p_parent_pid p) SIGCHLD ;; upd_task t (set_state Zombie)
      else skip.

Definition signal_table : list (Z * Z * bool) :=
  [(SIGTERM, 1, true); (SIGCONT, 3, false); (SIGALRM, 5, true); (SIGCHLD, 6, false);
   (SIGFPE, 7, true); (SIGSEGV, 8, true); (SIGWINCH, 9, false); (SIGHUP, 10, true);
   (SIGINT, 11, true); (SIGQUIT, 12, true)].

Definition task_handle_signals (task : ptr) : SM unit :=
  match task with
  | None => skip
  | Some t =>
      x ← get_task t;
      match t_proc x with
      | None => skip
      | Some pp =>
          p ← get_proc pp;
          if p_pending_signals p =? 0 then skip
          else
            (if negb (p_in_sigsuspend p =? 0)
             then upd_proc pp (fun p => set_signals (p_pending_signals p) (p_saved_signal_mask p) 0 p)
             else skip) ;;
            p ← get_proc pp;
            if negb (Z.land (p_pending_signals p) SIGKILL =? 0) then
              upd_proc pp (set_pending 0) ;;
              task_signal_locked (p_parent_pid p) SIGCHLD ;;
              upd_task t (set_state Zombie)
            else if negb (Z.land (p_pending_signals p) SIGSTOP =? 0) then
              upd_proc pp (fun p => set_pending (Z.land (p_pending_signals p) (Z.lnot SIGSTOP)) p) ;;
              upd_task t (set_state Sleeping)
            else
              let deliverable := Z.land (p_pending_signals p) (Z.lnot (p_signal_mask p)) in
              if deliverable =? 0 then skip
              else for_each signal_table (fun '(sig, idx, term) =>
                     handle_signal_bit t deliverable sig idx term)
      end
  end.

Definition task_sigaction (task : ptr) (signum handler : Z) : SM Z :=
  match task with
  | None => mret (-1)
  | Some t =>
      x ← get_task t;
      match t_proc x with
      | None => mret (-1)
      | Some p =>
          if (NSIG <=? signum) || (signum =? 0) then mret (-1)
          else if negb (handler =? SIG_DFL) && negb (handler =? SIG_IGN) && (KERNEL_BASE <=? handler)
          then mret (-1)
          else if negb (Z.land (u32 (Z.shiftl 1 signum)) SIG_UNCATCHABLE =? 0) then mret (-1)
          else
            pm ← get_proc p;
            l ← lift (st (p_signal_handlers pm) signum handler);
            upd_proc p (set_handlers l) ;; mret 0
      end
  end.

(** The value stored through [oldset] is the second result. *)
Definition task_sigprocmask (task : ptr) (how : Z) (set : option Z) : SM (Z * option Z) :=
  match task with
  | None => mret (-1, None)
  | Some t =>
      x ← get_task t;
      match t_proc x with
      | None => mret (-1, None)
      | Some pp =>
          p ← get_proc pp;
          let old := Some (p_signal_mask p) in
          match set with
          | None => mret (0, old)
          | Some set =>
              let new_mask := Z.land set (Z.lnot SIG_UNCATCHABLE) in
              if how =? 0 then upd_proc pp (set_mask (Z.lor (p_signal_mask p) new_mask)) ;; mret (0, old)
              else if how =? 1 then
                upd_proc pp (set_mask (Z.land (p_signal_mask p) (Z.lnot new_mask))) ;; mret (0, old)
              else if how =? 2 then upd_proc pp (set_mask new_mask) ;; mret (0, old)
              else mret (-1, old)
          end
      end
  end.

Fixpoint alarm_loop (fuel : nat) (now : Z) (cur : ptr) : SM unit :=
  match fuel with
  | O => fail
  | S fuel =>
      match cur with
      | None => skip
      | Some c =>
          x ← get_task c;
          let next := t_next x in
          match t_proc x with
          | None => alarm_loop fuel now next
          | Some pp =>
              p ← get_proc pp;
              (if negb (p_alarm_ticks p =? 0) && (p_alarm_ticks p <=? now) then
                 upd_proc pp (fun p => set_pending (Z.lor (p_pending_signals p) SIGALRM)
                                         (set_timers 0 (p_itimer_value p) p)) ;;
                 wake_if_sigsuspend c SIGALRM
               else skip) ;;
              p ← get_proc pp;
              (if negb (p_itimer_value p =? 0) && (p_itimer_value p <=? now) then
                 v ← (if negb (p_itimer_interval p =? 0) then lift (cadd now (p_itimer_interval p))
                      else mret 0);
                 upd_proc pp (fun p => set_timers (p_alarm_ticks p) v
                                         (set_pending (Z.lor (p_pending_signals p) SIGALRM) p)) ;;
                 wake_if_sigsuspend c SIGALRM
               else skip) ;;
              alarm_loop fuel now next
          end
      end
  end.

Definition check_alarm_timers : SM unit :=
  now ← gets current_tick;
  fuel ← list_fuel;
  h ← gets task_list_head;
  alarm_loop fuel now h.

(** ** The timer wheel *)

Definition slot_push (i : Z) (t : Z) : SM unit :=
  sl ← gets slots;
  v ← lift (ld sl i);
  x ← get_task t;
  match t_proc x with
  | None => skip
  | Some p => upd_proc p (fun p => set_sleep (p_sleep_until p) (sl_head v) p)
  end ;;
  c ← lift (cadd (sl_count v) 1);
  sl ← gets slots;
  l ← lift (st sl i (mk_slot (Some t) c));
  modify (set_slots l).

Definition slot_drain (i : Z) : SM ptr :=
  sl ← gets slots;
  v ← lift (ld sl i);
  l ← lift (st sl i (mk_slot None 0));
  modify (set_slots l) ;; mret (sl_head v).

Definition timer_wheel_add (task : ptr) (sleep_ticks : Z) : SM unit :=
  match task with
  | None => skip
  | Some t =>
      tick ← gets current_tick;
      let wake_tick := u32 (tick + sleep_ticks) in
      x ← get_task t;
      match t_proc x with
      | None => skip
      | Some p => upd_proc p (fun p => set_sleep wake_tick (p_wait_next p) p)
      end ;;
      slot_push (wake_tick mod WHEEL_SIZE) t
  end.

Fixpoint wheel_remove_loop (fuel : nat) (i t : Z) (prev cur : ptr) : SM unit :=
  match fuel with
  | O => fail
  | S fuel =>
      match cur with
      | None => skip
      | Some c =>
          if decide (c = t) then
            p ← get_task_proc t;
            sl ← gets slots;
            v ← lift (ld sl i);
            head ← match prev with
                   | None => mret (p_wait_next p)
                   | Some pr => upd_task_proc pr (fun q => set_sleep (p_sleep_until q) (p_wait_next p) q) ;;
                                mret (sl_head v)
                   end;
            n ← lift (csub (sl_count v) 1);
            l ← lift (st sl i (mk_slot head n));
            modify (set_slots l) ;;
            upd_task_proc t (fun p => set_sleep (p_sleep_until p) None p)
          else
            x ← get_task c;
            next ← match t_proc x with
                   | None => mret None
                   | Some pp => p ← get_proc pp; mret (p_wait_next p)
                   end;
            wheel_remove_loop fuel i t (Some c) next
      end
  end.

Definition timer_wheel_remove (task : ptr) : SM unit :=
  match task with
  | None => skip
  | Some t =>
      p ← get_task_proc t;
      let i := p_sleep_until p mod WHEEL_SIZE in
      fuel ← list_fuel;
      sl ← gets slots;
      v ← lift (ld sl i);
      wheel_remove_loop fuel i t None (sl_head v)
  end.

Fixpoint wheel_loop (fuel : nat) (now : Z) (cur : ptr) : SM unit :=
  match fuel with
  | O => fail
  | S fuel =>
      match cur with
      | None => skip
      | Some c =>
          p ← get_task_proc c;
          let next := p_wait_next p in
          upd_task_proc c (fun p => set_sleep (p_sleep_until p) None p) ;;
          (if p_sleep_until p <=? now then
             x ← get_task c;
             if bool_decide (t_state x = Sleeping) then
               upd_task_proc c (fun p => set_sleep 0 (p_wait_next p) p) ;; make_ready c
             else skip
           else slot_push (p_sleep_until p mod WHEEL_SIZE) c) ;;
          wheel_loop fuel now next
      end
  end.

Definition timer_wheel_tick : SM unit :=
  modify (fun s => set_tick (u32 (current_tick s + 1)) s) ;;
  now ← gets current_tick;
  cur ← slot_drain (now mod WHEEL_SIZE);
  fuel ← list_fuel;
  wheel_loop fuel now cur.

Definition task_check_timers : SM unit := timer_wheel_tick ;; check_alarm_timers.

(** ** Reaping *)

(** The files, mappings and pages of the process are released through
    other modules; here the two records disappear. *)
Definition reap_task_free (t : ptr) : SM unit :=
  match t with
  | None => skip
  | Some t =>
      x ← get_task t;
      match t_proc x with
      | None => skip
      | Some p => get_proc p ;;
                  modify (fun s => set_tasks (delete t (tasks s)) (set_procs (delete p (procs s)) s))
      end
  end.

(** The first 64 reapable zombies, unlinked from the list. *)
Fixpoint reap_loop (fuel : nat) (count : nat) (cur : ptr) : SM (list Z) :=
  match fuel with
  | O => fail
  | S fuel =>
      match cur with
      | None => mret []
      | Some c =>
          if (64 <=? count)%nat then mret []
          else
            x ← get_task c;
            let next := t_next x in
            if bool_decide (t_state x = Zombie) then
              p ← get_task_proc c;
              reapable ← (if p_parent_pid p =? 0 then mret true
                          else o ← find_task_by_pid (p_parent_pid p); mret (bool_decide (o = None)));
              if reapable : bool then
                task_list_remove (Some c) ;;
                r ← reap_loop fuel (S count) next; mret (c :: r)
              else reap_loop fuel count next
            else reap_loop fuel count next
      end
  end.

Definition task_reap : SM unit :=
  fuel ← list_fuel;
  h ← gets task_list_head;
  r ← reap_loop fuel 0 h;
  for_each r (fun t => reap_task_free (Some t)).

(** ** schedule *)

(** What [schedule] hands to the processor when it switches: the stack
    pointers' tasks, the directory whose device mappings are refreshed, the
    directory loaded if it differs, and the new kernel stack. *)
Record switch := mk_switch {
  sw_prev : Z; sw_next : Z; sw_sync : Z; sw_paging : option Z; sw_esp0 : option Z
}.

Definition effective_pd (pd : ptr) (kpd : Z) : Z := match pd with None => kpd | Some p => p end.

Definition notify_parent (prev : Z) : SM unit :=
  x ← get_task prev;
  if bool_decide (t_state x = Zombie) then
    p ← get_task_proc prev;
    if negb (p_parent_pid p =? 0) then
      task_signal_locked (p_parent_pid p) SIGCHLD ;;
      o ← find_task_by_pid (p_parent_pid p);
      match o with
      | None => skip
      | Some q => y ← get_task q;
                  if bool_decide (t_state y = Waiting) then make_ready q else skip
      end
    else skip
  else skip.

Definition requeue_prev (prev : Z) : SM unit :=
  x ← get_task prev;
  match t_state x with
  | Running => make_ready prev
  | Sleeping => mlfq_sleep_locked (Some prev)
  | Waiting | Zombie | Ready => skip
  end.

Definition switch_info (prev next : Z) : SM switch :=
  px ← get_task prev;
  nx ← get_task next;
  kpd ← gets kernel_pd;
  let next_pd := effective_pd (t_page_directory nx) kpd in
  let prev_pd := effective_pd (t_page_directory px) kpd in
  esp0 ← match t_proc nx with
         | None => mret None
         | Some pp =>
             p ← get_proc pp;
             match p_stack_base p with
             | None => mret None
             | Some b => e ← lift (cadd b KERNEL_STACK_SIZE); mret (Some e)
             end
         end;
  mret (mk_switch prev next next_pd (if next_pd =? prev_pd then None else Some next_pd) esp0).

Definition leave_schedule : SM (option switch) :=
  modify (fun s => set_flags 0 (reap_counter s) s) ;; mret None.

Definition schedule : SM (option switch) :=
  ip ← gets in_progress;
  if negb (ip =? 0) then mret None
  else
    rc ← gets reap_counter;
    modify (set_flags 1 (u32 (rc + 1))) ;;
    (if rc mod 128 =? 127 then task_reap else skip) ;;
    prev ← gets current_task;
    head ← gets task_list_head;
    match prev, head with
    | Some prev, Some _ =>
        notify_parent prev ;;
        wake_expired_sleepers ;;
        next ← pick_next_task;
        match next with
        | None => leave_schedule
        | Some n =>
            if decide (n = prev) then leave_schedule
            else
              requeue_prev prev ;;
              upd_task n (set_state Running) ;;
              modify (set_current (Some n)) ;;
              w ← switch_info prev n;
              modify (fun s => set_flags 0 (reap_counter s) s) ;;
              mret (Some w)
        end
    | _, _ => leave_schedule
    end.

(** What runs when the switched-out task is resumed. *)
Definition schedule_resume : SM unit := cur ← gets current_task; task_handle_signals cur.

Definition tick_locked (c : Z) : SM bool :=
  x ← get_task c;
  tk ← lift (cadd (t_ticks_used x) 1);
  upd_task c (set_ticks tk) ;;
  quantum ← lift (quantum_of (t_priority x));
  let need_preempt := quantum <=? tk in
  (if need_preempt then
     (if negb (t_priority x =? MLFQ_LEVEL_RT) && (t_priority x <? MLFQ_LEVEL_BACKGROUND)
      then upd_task c (set_priority (t_priority x + 1)) else skip) ;;
     upd_task c (set_ticks 0)
   else skip) ;;
  bc ← gets boost_counter;
  let bc := Z.min (bc + 1) (2 ^ 32 - 1) in
  (if BOOST_INTERVAL <=? bc then modify (set_boost 0) ;; do_priority_boost
   else modify (set_boost bc)) ;;
  mret need_preempt.

Definition on_timer_tick : SM (option switch) :=
  cur ← gets current_task;
  match cur with
  | None => mret None
  | Some c =>
      need_preempt ← tick_locked c;
      task_check_timers ;;
      live ← gets current_task;
      task_handle_signals live ;;
      if need_preempt : bool then schedule else mret None
  end.

(** The part of [sched_sleep_ticks] under the lock, and the call. *)
Definition sleep_locked (ticks : Z) : SM bool :=
  cur ← gets current_task;
  match cur with
  | None => mret false
  | Some c =>
      x ← get_task c;
      match t_proc x with
      | None => mret false
      | Some p =>
          upd_task c (set_state Sleeping) ;;
          tick ← gets current_tick;
          let until := u32 (tick + ticks) in
          upd_proc p (fun p => set_sleep until (p_wait_next p) p) ;;
          slot_push (until mod WHEEL_SIZE) c ;; mret true
      end
  end.

Definition sched_sleep_ticks (ticks : Z) : SM (option switch) :=
  go ← sleep_locked ticks; if go : bool then schedule else mret None.

(** ** Exit and wait *)

Fixpoint orphan_loop (fuel : nat) (my_pid : Z) (child : ptr) : SM unit :=
  match fuel with
  | O => fail
  | S fuel =>
      match child with
      | None => skip
      | Some c =>
          x ← get_task c;
          p ← get_task_proc c;
          (if p_parent_pid p =? my_pid then upd_task_proc c (fun p => set_parent 0 (p_exit_code p) p)
           else skip) ;;
          orphan_loop fuel my_pid (t_next x)
      end
  end.

Definition sched_task_exit (exit_code : Z) : SM (option switch) :=
  cur ← gets current_task;
  match cur with
  | None => mret None
  | Some t =>
      upd_task_proc t (fun p => set_parent (p_parent_pid p) exit_code p) ;;
      upd_task t (set_state Zombie) ;;
      x ← get_task t;
      fuel ← list_fuel;
      h ← gets task_list_head;
      orphan_loop fuel (t_pid x) h ;;
      schedule
  end.

(** One round of the loop of [sched_waitpid]: a reaped child, no child, or a
    block with the switch it leads to. *)
Inductive wait_result := Reaped (pid status : Z) | NoChild | Blocked (w : option switch).

(** The scan: the first zombie child, or whether there is a child. *)
Fixpoint wait_loop (fuel : nat) (target cur_pid : Z) (found : bool) (t : ptr) : SM (ptr * bool) :=
  match fuel with
  | O => fail
  | S fuel =>
      match t with
      | None => mret (None, found)
      | Some c =>
          x ← get_task c;
          p ← get_task_proc c;
          if (p_parent_pid p =? cur_pid) && ((target <=? 0) || (t_pid x =? u32 target)) then
            if bool_decide (t_state x = Zombie) then mret (Some c, true)
            else wait_loop fuel target cur_pid true (t_next x)
          else wait_loop fuel target cur_pid found (t_next x)
      end
  end.

Definition waitpid_round (target : Z) : SM wait_result :=
  cur ← gets current_task;
  match cur with
  | None => mret NoChild
  | Some c =>
      y ← get_task c;
      fuel ← list_fuel;
      h ← gets task_list_head;
      '(z, found) ← wait_loop fuel target (t_pid y) false h;
      match z with
      | Some t =>
          x ← get_task t;
          p ← get_task_proc t;
          task_list_remove (Some t) ;;
          reap_task_free (Some t) ;;
          mret (Reaped (t_pid x) (p_exit_code p))
      | None =>
          if found : bool then
            upd_task c (set_state Waiting) ;;
            w ← schedule; mret (Blocked w)
          else mret NoChild
      end
  end.
