(* ===== verification/SchedSpec.v ===== *)
(** * The scheduler's queues and what they promise

    The intrusive lists of [Sched] against plain lists of tasks: [rep s Q]
    says that queue [q] of [s] links exactly the tasks [Q q], in order, and
    that no task is in two queues.  The operations on queues are specified on
    [Q]; [frame] says that nothing but the links changed. *)
From S2P Require Import Prelude StateM Sched.

#[local] Open Scope Z_scope.

(** ** Linked lists *)

Definition qn (h : gmap Z TaskStruct) (t : Z) : option ptr := t_queue_next <$> h !! t.

Definition first (l : list Z) (e : ptr) : ptr := match l with [] => e | y :: _ => Some y end.

(** The tasks of [l] are linked in order, the last one to [e]. *)
Fixpoint chain (h : gmap Z TaskStruct) (l : list Z) (e : ptr) : Prop :=
  match l with [] => True | t :: r => qn h t = Some (first r e) /\ chain h r e end.

Definition final (l : list Z) : ptr := first (reverse l) None.

Definition qrep (h : gmap Z TaskStruct) (v : MlfqQueue) (l : list Z) : Prop :=
  q_head v = first l None /\ q_tail v = final l /\ q_count v = zlen l /\ chain h l None /\ NoDup l.

Definition qupd (Q : qid -> list Z) (q : qid) (l : list Z) : qid -> list Z :=
  fun q' => if decide (q' = q) then l else Q q'.

Definition rep (s : sched) (Q : qid -> list Z) : Prop :=
  length (queues s) = 4%nat /\
  (forall q v, lookup_queue q s = Some v -> qrep (tasks s) v (Q q)) /\
  (forall q, lookup_queue q s = None -> Q q = []) /\
  (forall q1 q2 t, t ∈ Q q1 -> t ∈ Q q2 -> q1 = q2) /\
  Z.of_nat (size (tasks s)) < 2 ^ 32.

(** The state without the links. *)
Definition erase_tasks (h : gmap Z TaskStruct) : gmap Z TaskStruct := set_queue_next None <$> h.
Definition erase (s : sched) : sched :=
  set_queues [] (set_sleep_queue empty_queue (set_tasks (erase_tasks (tasks s)) s)).
Definition frame (s s' : sched) : Prop := erase s' = erase s.

Lemma frame_refl s : frame s s.
Proof. done. Qed.
Lemma frame_trans s1 s2 s3 : frame s1 s2 -> frame s2 s3 -> frame s1 s3.
Proof. unfold frame. congruence. Qed.

Lemma first_app l1 l2 e : first (l1 ++ l2) e = first l1 (first l2 e).
Proof. by destruct l1. Qed.

Lemma final_snoc l t : final (l ++ [t]) = Some t.
Proof. unfold final. by rewrite reverse_app. Qed.

Lemma chain_app h l1 l2 e : chain h (l1 ++ l2) e <-> chain h l1 (first l2 e) /\ chain h l2 e.
Proof.
  induction l1 as [|t l1 IH]; cbn [app chain]; [tauto|]. rewrite first_app, IH. tauto.
Qed.

Lemma chain_frame h h' l e : (forall t, t ∈ l -> qn h' t = qn h t) -> chain h l e -> chain h' l e.
Proof.
  induction l as [|t l IH]; intros Hf; [done|]. cbn [chain]. intros [H1 H2]. split.
  - rewrite Hf; [done|]. apply list_elem_of_here.
  - apply IH; [|done]. intros u Hu. apply Hf. by apply list_elem_of_further.
Qed.

Lemma chain_dom h l e t : chain h l e -> t ∈ l -> is_Some (h !! t).
Proof.
  induction l as [|u l IH]; intros Hc Ht; [by apply not_elem_of_nil in Ht|].
  destruct Hc as [H1 H2]. apply elem_of_cons in Ht as [->|Ht]; [|by apply IH].
  unfold qn in H1. destruct (h !! u); [done|]. done.
Qed.

Lemma nodup_size (h : gmap Z TaskStruct) l :
  NoDup l -> (forall t, t ∈ l -> is_Some (h !! t)) -> (length l <= size h)%nat.
Proof.
  intros Hn Hd. rewrite <- (size_list_to_set (C := gset Z) l Hn), <- (size_dom (D := gset Z)).
  apply subseteq_size. intros t Ht. apply elem_of_list_to_set in Ht. apply elem_of_dom. by apply Hd.
Qed.

Lemma qn_insert h t f x u :
  h !! t = Some x -> qn (<[t := f x]> h) u = if decide (u = t) then Some (t_queue_next (f x)) else qn h u.
Proof.
  intros Hx. unfold qn. case_decide as E; [subst; by rewrite lookup_insert_eq|]. by rewrite lookup_insert_ne.
Qed.

Lemma erase_insert h t n x :
  h !! t = Some x -> erase_tasks (<[t := set_queue_next n x]> h) = erase_tasks h.
Proof.
  intros Hx. unfold erase_tasks. rewrite fmap_insert. cbn. apply insert_id. rewrite lookup_fmap, Hx. done.
Qed.

Lemma erase_lookup h h' t x :
  erase_tasks h' = erase_tasks h -> h !! t = Some x ->
  exists n, h' !! t = Some (set_queue_next n x).
Proof.
  intros He Hx. assert (H : erase_tasks h' !! t = erase_tasks h !! t) by (by rewrite He).
  unfold erase_tasks in H. rewrite !lookup_fmap, Hx in H. cbn in H.
  destruct (h' !! t) as [y|]; [|done]. cbn in H. injection H as E1 E2 E3 E4 E5 E6 E7 E8 E9 E10.
  exists (t_queue_next y). f_equal. destruct x, y. cbn in *. unfold set_queue_next. cbn. congruence.
Qed.

Lemma frame_task s s' t x :
  frame s s' -> tasks s !! t = Some x -> exists n, tasks s' !! t = Some (set_queue_next n x).
Proof.
  intros Hf. apply erase_lookup. unfold frame, erase in Hf. by injection Hf.
Qed.

Lemma size_insert_same (h : gmap Z TaskStruct) t x y : h !! t = Some x -> size (<[t := y]> h) = size h.
Proof. intros Hx. by rewrite map_size_insert, Hx. Qed.

(** ** Changing one queue *)

Definition set_q (q : qid) (v : MlfqQueue) (s : sched) : sched :=
  match q with Level i => set_queues (<[i := v]> (queues s)) s | SleepQ => set_sleep_queue v s end.

Lemma lookup_set_q q q' v s :
  is_Some (lookup_queue q s) ->
  lookup_queue q' (set_q q v s) = if decide (q' = q) then Some v else lookup_queue q' s.
Proof.
  intros Hq. destruct q as [i|], q' as [j|]; cbn; try (case_decide; done).
  destruct (decide (Level j = Level i)) as [[= ->]|Hne].
  - apply list_lookup_insert_eq. by apply lookup_lt_is_Some.
  - apply list_lookup_insert_ne. congruence.
Qed.

Lemma tasks_set_q q v s : tasks (set_q q v s) = tasks s.
Proof. by destruct q. Qed.

Lemma lookup_queue_tasks q h s : lookup_queue q (set_tasks h s) = lookup_queue q s.
Proof. by destruct q. Qed.

Lemma rep_change s Q q v' h' l' :
  rep s Q -> is_Some (lookup_queue q s) -> qrep h' v' l' ->
  (forall q' t, q' <> q -> t ∈ Q q' -> qn h' t = qn (tasks s) t) ->
  (forall q' t, q' <> q -> t ∈ l' -> t ∉ Q q') -> size h' = size (tasks s) ->
  rep (set_q q v' (set_tasks h' s)) (qupd Q q l').
Proof.
  intros (H1 & H2 & H3 & H4 & H5) Hq Hrep Hfr Hdisj Hsz. split; [|split; [|split; [|split]]].
  - destruct q; cbn; [by rewrite length_insert|done].
  - intros q' v. rewrite lookup_set_q, lookup_queue_tasks, tasks_set_q by (by rewrite lookup_queue_tasks).
    unfold qupd. case_decide; [by intros [= <-]|]. intros Hv. cbn [tasks set_tasks].
    destruct (H2 q' v Hv) as (E1 & E2 & E3 & E4 & E5). split; [done|]. split; [done|]. split; [done|].
    split; [|done]. eapply chain_frame; [|done]. intros t Ht. by apply (Hfr q').
  - intros q'. rewrite lookup_set_q, lookup_queue_tasks by (by rewrite lookup_queue_tasks).
    unfold qupd. case_decide; [done|apply H3].
  - intros q1 q2 t. unfold qupd. case_decide as E1; case_decide as E2; subst; intros Ht1 Ht2; try done.
    + by apply (Hdisj q2 t) in Ht1.
    + by apply (Hdisj q1 t) in Ht2.
    + by apply (H4 q1 q2 t).
  - rewrite tasks_set_q. cbn [tasks set_tasks]. by rewrite Hsz.
Qed.

Lemma frame_set s q v h' : erase_tasks h' = erase_tasks (tasks s) -> frame s (set_q q v (set_tasks h' s)).
Proof.
  intros He. unfold frame, erase. destruct q; unfold set_q, set_queues, set_sleep_queue, set_tasks;
    cbn -[erase_tasks]; by rewrite He.
Qed.

Lemma frame_link s t x n :
  tasks s !! t = Some x -> frame s (set_tasks (<[t := set_queue_next n x]> (tasks s)) s).
Proof.
  intros Hx. unfold frame, erase, set_queues, set_sleep_queue, set_tasks. cbn -[erase_tasks].
  by rewrite erase_insert.
Qed.

(** ** Rules for the accesses *)

Lemma wp_get_task t x (Q : TaskStruct -> sched -> Prop) s :
  tasks s !! t = Some x -> Q x s -> wp (get_task t) Q s.
Proof. intros Hx HQ. unfold get_task. wp_steps. by apply (wp_lift _ x). Qed.

Lemma wp_upd_task t f x (Q : unit -> sched -> Prop) s :
  tasks s !! t = Some x -> Q tt (set_tasks (<[t := f x]> (tasks s)) s) -> wp (upd_task t f) Q s.
Proof. intros Hx HQ. unfold upd_task. wp_step. apply (wp_get_task t x); [done|]. by wp_step. Qed.

Lemma wp_get_proc p x (Q : ProcMeta -> sched -> Prop) s :
  procs s !! p = Some x -> Q x s -> wp (get_proc p) Q s.
Proof. intros Hx HQ. unfold get_proc. wp_steps. by apply (wp_lift _ x). Qed.

Lemma wp_upd_proc p f x (Q : unit -> sched -> Prop) s :
  procs s !! p = Some x -> Q tt (set_procs (<[p := f x]> (procs s)) s) -> wp (upd_proc p f) Q s.
Proof. intros Hx HQ. unfold upd_proc. wp_step. apply (wp_get_proc p x); [done|]. by wp_step. Qed.

Lemma wp_get_queue q v (Q : MlfqQueue -> sched -> Prop) s :
  lookup_queue q s = Some v -> Q v s -> wp (get_queue q) Q s.
Proof. intros Hx HQ. unfold get_queue. wp_steps. by apply (wp_lift _ v). Qed.

Lemma wp_put_queue q v (Q : unit -> sched -> Prop) s : Q tt (set_q q v s) -> wp (put_queue q v) Q s.
Proof. intros HQ. by destruct q. Qed.

(** ** push and pop *)

Lemma snoc_cases {A} (l : list A) : l = [] \/ exists r x, l = r ++ [x].
Proof. induction l as [|x l _] using rev_ind; eauto. Qed.

Lemma push_ok q t s Q :
  rep s Q -> is_Some (lookup_queue q s) -> is_Some (tasks s !! t) -> (forall q', t ∉ Q q') ->
  wp (push q t) (fun _ s' => rep s' (qupd Q q (Q q ++ [t])) /\ frame s s') s.
Proof.
  intros Hrep Hq [x Hx] Hnew. pose proof Hrep as (Hlen & Hqs & _ & Hdis & Hsz). pose proof Hq as [v Hv].
  destruct (Hqs q v Hv) as (Hh & Htl & Hc & Hch & Hnd). unfold push.
  wp_step. apply (wp_upd_task t _ x); [done|]. wp_step.
  apply (wp_get_queue q v); [by rewrite lookup_queue_tasks|].
  set (h1 := <[t := set_queue_next None x]> (tasks s)).
  assert (Hq1 : forall u, qn h1 u = if decide (u = t) then Some None else qn (tasks s) u).
  { intros u. unfold h1. by rewrite (qn_insert _ t (set_queue_next None) x). }
  assert (Hnd' : NoDup (t :: Q q)) by (constructor; [apply Hnew|done]).
  assert (Hlt : zlen (Q q) + 1 < 2 ^ 32).
  { assert (length (t :: Q q) <= size (tasks s))%nat; [|unfold zlen; cbn in *; lia].
    apply nodup_size; [done|]. intros u [->|Hu]%elem_of_cons; [by exists x|]. by eapply chain_dom. }
  assert (Hnd2 : NoDup (Q q ++ [t])).
  { rewrite <- Permutation_cons_append. done. }
  assert (Hdj : forall q' u, q' <> q -> u ∈ Q q ++ [t] -> u ∉ Q q').
  { intros q' u Hne [Hu| ->%list_elem_of_singleton]%elem_of_app Hu'; [|by apply (Hnew q')].
    apply Hne. by apply (Hdis q' q u). }
  destruct (snoc_cases (Q q)) as [E|(l & u & E)].
  - rewrite Htl. replace (final (Q q)) with (@None Z) by (by rewrite E). wp_steps. apply (wp_lift _ (q_count v + 1)); [apply cadd_ok; lia|].
    apply wp_put_queue. split.
    + apply rep_change; [done..| | |done|by apply (size_insert_same _ _ x)].
      * rewrite E. split; [done|]. split; [done|]. split; [rewrite Hc, E; done|]. split; [|apply NoDup_singleton].
        cbn [chain app]. split; [|done]. rewrite Hq1. by rewrite decide_True.
      * intros q' w _ Hw. rewrite Hq1, decide_False; [done|]. intros ->. by apply (Hnew q').
    + apply frame_set. by apply erase_insert.
  - assert (Hu : u ∈ Q q) by (rewrite E; apply elem_of_app; right; by apply list_elem_of_singleton).
    assert (Hut : u <> t) by (intros ->; by apply (Hnew q)).
    destruct (chain_dom _ _ _ u Hch Hu) as [y Hy].
    assert (Hy1 : h1 !! u = Some y) by (unfold h1; by rewrite lookup_insert_ne).
    rewrite Htl. replace (final (Q q)) with (Some u) by (by rewrite E, final_snoc). wp_step. apply wp_bind. apply (wp_upd_task u _ y); [done|]. wp_steps.
    apply (wp_lift _ (q_count v + 1)); [apply cadd_ok; lia|]. apply wp_put_queue. cbn [tasks set_tasks]. fold h1.
    set (h2 := <[u := set_queue_next (Some t) y]> h1).
    assert (Hq2 : forall w, qn h2 w = if decide (w = u) then Some (Some t) else qn h1 w).
    { intros w. unfold h2. by rewrite (qn_insert _ u (set_queue_next (Some t)) y). }
    change (set_tasks h2 (set_tasks h1 s)) with (set_tasks h2 s). split.
    + apply rep_change; [done..| | |done|].
      * split; [|split; [|split; [|split]]]; [| |by rewrite Hc, zlen_app| |done].
        { cbn. rewrite Hh, first_app, E. by destruct l. }
        { by rewrite final_snoc. }
        assert (Hul : u ∉ l).
        { rewrite E in Hnd. apply list.NoDup_app in Hnd as (_ & Hd & _). intros Hul. apply (Hd u Hul).
          by apply list_elem_of_singleton. }
        apply chain_app. rewrite E in Hch |- *. apply chain_app in Hch as [Hl _]. split.
        { apply chain_app. split; [|cbn; split; [|done]].
          - eapply chain_frame; [|exact Hl]. intros w Hw. rewrite Hq2, Hq1, !decide_False; [done|..].
            + intros ->. apply (Hnew q). rewrite E. apply elem_of_app. by left.
            + by intros ->.
          - by rewrite Hq2, decide_True. }
        { cbn. split; [|done]. rewrite Hq2, Hq1, decide_False, decide_True by done. done. }
      * intros q' w Hne Hw. rewrite Hq2, Hq1, !decide_False; [done|..].
        { intros ->. by apply (Hnew q'). }
        { intros ->. apply Hne. by apply (Hdis q' q u). }
      * unfold h2. rewrite (size_insert_same h1 u y) by done. by apply (size_insert_same _ _ x).
    + apply frame_set. unfold h2. rewrite erase_insert by done. by apply erase_insert.
Qed.

Lemma rep_ext s Q Q' : (forall q, Q' q = Q q) -> rep s Q -> rep s Q'.
Proof.
  intros He (H1 & H2 & H3 & H4 & H5). split; [done|]. split; [|split; [|split; [|done]]].
  - intros q v Hv. rewrite He. by apply H2.
  - intros q Hn. rewrite He. by apply H3.
  - intros q1 q2 u. rewrite !He. apply H4.
Qed.

Lemma qupd_id Q q l : l = Q q -> forall q', qupd Q q l q' = Q q'.
Proof. intros -> q'. unfold qupd. by case_decide; subst. Qed.

Lemma pop_ok q s Q :
  rep s Q -> is_Some (lookup_queue q s) ->
  wp (pop q) (fun r s' => r = first (Q q) None /\ rep s' (qupd Q q (drop 1 (Q q))) /\ frame s s') s.
Proof.
  intros Hrep Hq. pose proof Hrep as (_ & Hqs & _ & Hdis & _). pose proof Hq as [v Hv].
  destruct (Hqs q v Hv) as (Hh & Htl & Hc & Hch & Hnd). unfold pop.
  wp_step. apply (wp_get_queue q v); [done|]. rewrite Hh.
  destruct (Q q) as [|t l] eqn:E; cbn [first].
  { wp_step. split; [done|]. split; [|apply frame_refl]. change (drop 1 (@nil Z)) with (@nil Z).
    by apply (rep_ext s Q); [apply qupd_id|]. }
  change (drop 1 (t :: l)) with l.
  destruct (chain_dom _ _ _ t Hch) as [x Hx]; [apply list_elem_of_here|].
  destruct Hch as [Ht Hl]. unfold qn in Ht. rewrite Hx in Ht. cbn in Ht. injection Ht as Ht.
  wp_step. apply (wp_get_task t x); [done|]. wp_step. apply (wp_upd_task t _ x); [done|]. wp_step.
  apply (wp_lift _ (q_count v - 1)); [apply csub_ok; rewrite Hc, zlen_cons; pose proof (zlen_nonneg l); lia|].
  wp_step. apply wp_put_queue. wp_step. split; [done|].
  inversion_clear Hnd as [|? ? Hni Hnd'].
  set (h1 := <[t := set_queue_next None x]> (tasks s)).
  assert (Hq1 : forall u, u <> t -> qn h1 u = qn (tasks s) u).
  { intros u Hu. unfold h1. by rewrite (qn_insert _ t (set_queue_next None) x), decide_False. }
  split; [|apply frame_set; by apply erase_insert].
  apply rep_change; [done..| | | |by apply (size_insert_same _ _ x)].
  - split; [by rewrite Ht|]. rewrite Ht. cbn [q_tail q_count]. split; [|split; [rewrite Hc, zlen_cons; lia|split; [|done]]].
    + rewrite Htl. destruct l as [|y l]; [done|]. cbn [first]. unfold final. rewrite reverse_cons, first_app.
      destruct (reverse (y :: l)) eqn:El; [|done]. exfalso. apply (f_equal length) in El. rewrite length_reverse in El. done.
    + eapply chain_frame; [|exact Hl]. intros u Hu. apply Hq1. by intros ->.
  - intros q' u Hne Hu. apply Hq1. intros ->. apply Hne. apply (Hdis q' q t); [done|]. rewrite E. apply list_elem_of_here.
  - intros q' u Hne Hu Hu'. apply Hne. apply (Hdis q' q u); [done|]. rewrite E. by apply list_elem_of_further.
Qed.

Lemma alter_insert {A} (h : gmap Z A) g t x : h !! t = Some x -> alter g t h = <[t := g x]> h.
Proof.
  intros Hx. apply map_eq. intros u. destruct (decide (u = t)) as [->|Hne].
  - by rewrite lookup_alter_eq, Hx, lookup_insert_eq.
  - by rewrite lookup_alter_ne, lookup_insert_ne.
Qed.

Lemma rep_valid s Q q t : rep s Q -> t ∈ Q q -> is_Some (tasks s !! t).
Proof.
  intros (_ & H2 & H3 & _) Ht. destruct (lookup_queue q s) as [v|] eqn:Hv; [|by rewrite H3 in Ht; [apply not_elem_of_nil in Ht|]].
  destruct (H2 q v Hv) as (_ & _ & _ & Hc & _). by eapply chain_dom.
Qed.

(** Changing a task that is in no queue. *)
Lemma rep_free s Q t y :
  rep s Q -> is_Some (tasks s !! t) -> (forall q, t ∉ Q q) -> rep (set_tasks (<[t := y]> (tasks s)) s) Q.
Proof.
  intros (H1 & H2 & H3 & H4 & H5) [x Hx] Hout. split; [done|]. split; [|split; [done|split; [done|]]].
  - intros q v Hv. change (lookup_queue q s = Some v) in Hv. destruct (H2 q v Hv) as (E1 & E2 & E3 & E4 & E5).
    repeat (split; [done|]). split; [|done]. eapply chain_frame; [|done]. intros u Hu. unfold qn. cbn [tasks set_tasks].
    rewrite lookup_insert_ne; [done|]. intros ->. by apply (Hout q).
  - cbn [tasks set_tasks]. by rewrite (size_insert_same _ _ x).
Qed.

(** The list without the task between [l1] and [l2]: the links, the ends and
    the counter. *)
Definition unlinked (h : gmap Z TaskStruct) (l1 : list Z) (next : ptr) : gmap Z TaskStruct :=
  match final l1 with None => h | Some p => alter (set_queue_next next) p h end.
Definition unlinked_queue (v : MlfqQueue) (t : Z) (l1 l2 : list Z) : MlfqQueue :=
  mk_queue (match final l1 with None => first l2 None | Some _ => q_head v end)
    (if decide (q_tail v = Some t) then final l1 else q_tail v) (zlen (l1 ++ l2)).

Lemma unlinked_qn h l1 next u :
  NoDup l1 -> chain h l1 next ->
  forall next', qn (unlinked h l1 next') u = if decide (Some u = final l1) then Some next' else qn h u.
Proof.
  intros Hnd Hc next'. unfold unlinked. destruct (snoc_cases l1) as [->|(l & p & ->)]; [by destruct (decide _)|].
  rewrite final_snoc. destruct (chain_dom _ _ _ p Hc) as [y Hy].
  { apply elem_of_app. right. by apply list_elem_of_singleton. }
  rewrite (alter_insert _ _ p y) by done. rewrite (qn_insert _ p (set_queue_next next') y) by done.
  destruct (decide (u = p)) as [->|Hne]; [by rewrite decide_True|]. by rewrite decide_False by congruence.
Qed.

Lemma unlinked_chain h l1 l2 t :
  NoDup (l1 ++ t :: l2) -> chain h (l1 ++ t :: l2) None -> chain (unlinked h l1 (first l2 None)) (l1 ++ l2) None.
Proof.
  intros Hnd Hc. pose proof Hnd as (Hnd1 & Hd & Hnd2)%list.NoDup_app.
  apply chain_app in Hc as [Hc1 [_ Hc2]]. cbn [first] in Hc1.
  assert (Hq := fun u => unlinked_qn h l1 (Some t) u Hnd1 Hc1 (first l2 None)).
  apply chain_app. split.
  - destruct (snoc_cases l1) as [->|(l & p & ->)]; [done|]. apply list.NoDup_app in Hnd1 as (_ & Hd1 & _).
    apply chain_app in Hc1 as [Hl _]. apply chain_app. split; [|split; [|done]].
    + eapply chain_frame; [|exact Hl]. intros u Hu. rewrite Hq, final_snoc, decide_False; [done|].
      intros [= ->]. apply (Hd1 p Hu). by apply list_elem_of_singleton.
    + by rewrite Hq, final_snoc, decide_True.
  - eapply chain_frame; [|exact Hc2]. intros u Hu. rewrite Hq, decide_False; [done|]. intros Hf.
    destruct (snoc_cases l1) as [->|(l & p & ->)]; [done|]. rewrite final_snoc in Hf. injection Hf as ->.
    apply (Hd p); [apply elem_of_app; right; by apply list_elem_of_singleton|]. by apply list_elem_of_further.
Qed.

Lemma erase_unlinked h l1 next : erase_tasks (unlinked h l1 next) = erase_tasks h.
Proof.
  unfold unlinked. destruct (final l1) as [p|]; [|done]. destruct (h !! p) as [y|] eqn:Hy.
  - rewrite (alter_insert _ _ p y) by done. by apply erase_insert.
  - f_equal. apply map_eq. intros u. destruct (decide (u = p)) as [->|Hne]; [by rewrite lookup_alter_eq, Hy|].
    by rewrite lookup_alter_ne.
Qed.

Lemma unlink_rep q t l1 l2 s Q v :
  rep s Q -> lookup_queue q s = Some v -> Q q = l1 ++ t :: l2 ->
  let s' := set_q q (unlinked_queue v t l1 l2) (set_tasks (unlinked (tasks s) l1 (first l2 None)) s) in
  rep s' (qupd Q q (l1 ++ l2)) /\ frame s s' /\ csub (q_count v) 1 = Some (zlen (l1 ++ l2)) /\
  (forall q', t ∉ qupd Q q (l1 ++ l2) q').
Proof.
  intros Hrep Hv E. pose proof Hrep as (_ & Hqs & _ & Hdis & _).
  destruct (Hqs q v Hv) as (Hh & Htl & Hc & Hch & Hnd). rewrite E in Hh, Htl, Hc, Hch, Hnd.
  pose proof Hnd as (Hnd1 & Hd & Hnd2)%list.NoDup_app. inversion_clear Hnd2 as [|? ? Hni Hnd2'].
  assert (Hsub : forall u, u ∈ l1 ++ l2 -> u ∈ Q q).
  { intros u Hu. rewrite E. apply elem_of_app in Hu as [Hu|Hu]; apply elem_of_app; [by left|right].
    by apply list_elem_of_further. }
  assert (Hin : t ∈ Q q) by (rewrite E; apply elem_of_app; right; apply list_elem_of_here).
  pose proof (unlinked_chain _ l1 l2 t Hnd Hch) as Hch'.
  apply chain_app in Hch as [Hc1 _]. cbn [first] in Hc1. split; [apply rep_change; [done|by exists v|..]|].
  - split; [|split; [|split; [done|split; [done|]]]].
    + cbn. rewrite Hh. destruct (snoc_cases l1) as [->|(l & p & ->)]; [done|]. rewrite final_snoc, !first_app. by destruct l.
    + cbn. rewrite Htl. destruct (snoc_cases l2) as [->|(l & u & ->)].
      * rewrite final_snoc, decide_True by done. by rewrite app_nil_r.
      * rewrite app_comm_cons, !app_assoc, !final_snoc, decide_False; [done|]. intros [= ->]. apply Hni.
        apply elem_of_app. right. by apply list_elem_of_singleton.
    + apply list.NoDup_app. split; [done|]. split; [|done]. intros u Hu Hu2. apply (Hd u Hu). by apply list_elem_of_further.
  - intros q' u Hne Hu. rewrite (unlinked_qn _ _ (Some t)), decide_False; [done| |done..]. intros Hf. apply Hne.
    apply (Hdis q' q u); [done|]. apply Hsub, elem_of_app. left.
    destruct (snoc_cases l1) as [->|(l & p & ->)]; [done|]. rewrite final_snoc in Hf. injection Hf as ->.
    apply elem_of_app. right. by apply list_elem_of_singleton.
  - intros q' u Hne Hu Hu'. apply Hne, (Hdis q' q u); [done|]. by apply Hsub.
  - rewrite <- !(size_dom (D := gset Z)). unfold unlinked. destruct (final l1); [by rewrite dom_alter_L|done].
  - split; [apply frame_set, erase_unlinked|]. pose proof (zlen_nonneg l1). pose proof (zlen_nonneg l2). split.
    + rewrite Hc, !zlen_app, zlen_cons, csub_ok by lia. f_equal. lia.
    + intros q' Ht. unfold qupd in Ht. case_decide; [|by apply H1, (Hdis q' q t)].
      apply elem_of_app in Ht as [Ht|Ht]; [|done]. apply (Hd t Ht). apply list_elem_of_here.
Qed.

(** What the code computes is that queue. *)
Lemma unlink_code {B} q t l1 l2 s Q v x (k : ptr -> SM B) P :
  rep s Q -> lookup_queue q s = Some v -> Q q = l1 ++ t :: l2 -> tasks s !! t = Some x ->
  wp (k (match final l1 with None => first l2 None | Some _ => q_head v end)) P
     (set_tasks (unlinked (tasks s) l1 (first l2 None)) s) ->
  t_queue_next x = first l2 None /\
  wp (head ← match final l1 with
             | None => mret (t_queue_next x)
             | Some p => upd_task p (set_queue_next (t_queue_next x)) ;; mret (q_head v)
             end; k head) P s.
Proof.
  intros Hrep Hv E Hx HP. pose proof Hrep as (_ & Hqs & _).
  destruct (Hqs q v Hv) as (_ & _ & _ & Hch & _). rewrite E in Hch. apply chain_app in Hch as [Hc1 [Hct _]].
  unfold qn in Hct. rewrite Hx in Hct. cbn in Hct. injection Hct as Hxn. split; [done|]. rewrite Hxn.
  unfold unlinked in HP. destruct (snoc_cases l1) as [->|(l & p & ->)].
  - change (final []) with (@None Z) in *. wp_steps. by destruct s.
  - rewrite final_snoc in *. destruct (chain_dom _ _ _ p Hc1) as [y Hy].
    { apply elem_of_app. right. by apply list_elem_of_singleton. }
    wp_steps. apply (wp_upd_task p _ y); [done|]. wp_steps. by rewrite (alter_insert _ _ p y) in HP.
Qed.

(** Removing [t], found between [l1] and [l2]. *)
Lemma unlink_ok q t l1 l2 s Q v :
  rep s Q -> lookup_queue q s = Some v -> Q q = l1 ++ t :: l2 ->
  wp (v ← get_queue q; x ← get_task t;
      head ← match final l1 with
             | None => mret (t_queue_next x)
             | Some p => upd_task p (set_queue_next (t_queue_next x)) ;; mret (q_head v)
             end;
      let tail := if decide (q_tail v = Some t) then final l1 else q_tail v in
      n ← lift (csub (q_count v) 1);
      put_queue q (mk_queue head tail n) ;; upd_task t (set_queue_next None))
    (fun _ s' => rep s' (qupd Q q (l1 ++ l2)) /\ frame s s') s.
Proof.
  intros Hrep Hv E. destruct (unlink_rep q t l1 l2 s Q v Hrep Hv E) as (Hr & Hf & Hc & Hout).
  assert (Hin : t ∈ Q q) by (rewrite E; apply elem_of_app; right; apply list_elem_of_here).
  destruct (rep_valid s Q q t Hrep Hin) as [x Hx].
  wp_step. apply (wp_get_queue q v); [done|]. wp_step. apply (wp_get_task t x); [done|].
  apply (unlink_code q t l1 l2 s Q v x _ _ Hrep Hv E Hx).
  cbv zeta. wp_step. rewrite Hc. eapply wp_lift; [done|]. wp_step. apply wp_put_queue.
  fold (unlinked_queue v t l1 l2). destruct (frame_task _ _ t x Hf Hx) as [n Hn].
  apply (wp_upd_task t _ (set_queue_next n x)); [exact Hn|]. split; [apply rep_free; [done|by eexists|done]|].
  eapply frame_trans; [exact Hf|]. by apply frame_link.
Qed.

Lemma remove_loop_ok (fuel : nat) q t l1 l2 s Q :
  rep s Q -> is_Some (lookup_queue q s) -> Q q = l1 ++ l2 -> t ∉ l1 -> (length l2 < fuel)%nat ->
  wp (remove_loop fuel q t (final l1) (first l2 None))
     (fun _ s' => rep s' (qupd Q q (filter (fun u => u <> t) (Q q))) /\ frame s s') s.
Proof.
  intros Hrep Hq. revert l1 l2. induction fuel as [|fuel IH]; intros l1 l2 E Ht Hf; [lia|].
  pose proof Hrep as (_ & Hqs & _). pose proof Hq as [v Hv].
  destruct (Hqs q v Hv) as (_ & _ & _ & Hch & Hnd). rewrite E in Hch, Hnd.
  assert (Hid : forall l : list Z, t ∉ l -> filter (fun u => u <> t) l = l).
  { induction l as [|u l IHl]; intros Hl; [done|]. apply not_elem_of_cons in Hl as [Hu Hl].
    by rewrite filter_cons_True, IHl by (done || congruence). }
  cbn [remove_loop]. destruct l2 as [|c l2]; cbn [first].
  { wp_step. split; [|apply frame_refl]. apply (rep_ext s Q); [|done]. apply qupd_id.
    rewrite E, app_nil_r. by apply Hid. }
  destruct (decide (c = t)) as [->|Hne].
  - eapply wp_mono; [by apply (unlink_ok q t l1 l2 s Q v)|]. cbn. intros _ s' [Hr Hfr]. split; [|done].
    eapply rep_ext; [|exact Hr]. intros q'. unfold qupd. case_decide; [|done].
    rewrite E, list.filter_app, filter_cons_False by (intros HH; by apply HH).
    apply list.NoDup_app in Hnd as (_ & _ & Hnd). inversion_clear Hnd. by rewrite !Hid.
  - apply chain_app in Hch as [_ [Hc _]]. unfold qn in Hc. destruct (tasks s !! c) as [x|] eqn:Hx; [|done].
    cbn in Hc. injection Hc as Hc. wp_step. apply (wp_get_task c x); [done|]. rewrite Hc.
    rewrite <- (final_snoc l1 c). apply IH; [by rewrite <- app_assoc| |cbn in Hf; lia].
    intros [Hin| ->%list_elem_of_singleton]%elem_of_app; done.
Qed.

Lemma queue_remove_ok q t s Q :
  rep s Q -> is_Some (lookup_queue q s) ->
  wp (remove q (Some t))
     (fun _ s' => rep s' (qupd Q q (filter (fun u => u <> t) (Q q))) /\ frame s s') s.
Proof.
  intros Hrep Hq. pose proof Hrep as (_ & Hqs & _). pose proof Hq as [v Hv].
  destruct (Hqs q v Hv) as (Hh & _ & _ & Hch & Hnd). unfold remove, list_fuel. wp_steps.
  apply (wp_get_queue q v); [done|]. rewrite Hh. apply (remove_loop_ok _ q t [] (Q q)); [done..| |].
  - apply not_elem_of_nil.
  - pose proof (nodup_size (tasks s) (Q q) Hnd) as Hl. assert (length (Q q) <= size (tasks s))%nat; [|lia].
    apply Hl. intros u Hu. by eapply chain_dom.
Qed.

(** ** Updates beside the links *)

Definition updt (t : Z) (g : TaskStruct -> TaskStruct) (s : sched) : sched :=
  set_tasks (alter g t (tasks s)) s.
Definition updp (p : Z) (g : ProcMeta -> ProcMeta) (s : sched) : sched :=
  set_procs (alter g p (procs s)) s.

(** [g] neither reads nor writes the link. *)
Definition linkless (g : TaskStruct -> TaskStruct) : Prop :=
  forall x n, g (set_queue_next n x) = set_queue_next n (g x).

Lemma erase_alter h g t : linkless g -> erase_tasks (alter g t h) = alter g t (erase_tasks h).
Proof.
  intros Hg. unfold erase_tasks. apply map_eq. intros u. rewrite lookup_fmap.
  destruct (decide (u = t)) as [->|Hne].
  - rewrite !lookup_alter_eq, lookup_fmap. destruct (h !! t) as [x|]; [|done]. cbn. by rewrite Hg.
  - by rewrite !lookup_alter_ne, lookup_fmap.
Qed.

Lemma frame_updt s s' t g : linkless g -> frame s s' -> frame (updt t g s) (updt t g s').
Proof.
  unfold frame, erase, updt, set_queues, set_sleep_queue, set_tasks. intros Hg He. cbn -[erase_tasks] in *.
  rewrite !erase_alter by done. injection He. intros. f_equal; try done. by f_equal.
Qed.

Lemma frame_updp s s' p g : frame s s' -> frame (updp p g s) (updp p g s').
Proof.
  unfold frame, erase, updp, set_queues, set_sleep_queue, set_tasks, set_procs. intros He. cbn -[erase_tasks] in *.
  injection He. intros. f_equal; try done. by f_equal.
Qed.

Lemma frame_fields s s' : frame s s' ->
  procs s' = procs s /\ boost_counter s' = boost_counter s /\ current_task s' = current_task s /\
  task_list_head s' = task_list_head s /\ slots s' = slots s /\ current_tick s' = current_tick s /\
  in_progress s' = in_progress s /\ reap_counter s' = reap_counter s /\ kernel_pd s' = kernel_pd s.
Proof. unfold frame, erase. intros He. injection He. intros. repeat (split; [done|]). done. Qed.

Lemma frame_task_inv s s' t x :
  frame s s' -> tasks s' !! t = Some x -> exists n, tasks s !! t = Some (set_queue_next n x).
Proof. intros Hf. apply (frame_task s' s t x). by symmetry. Qed.

Lemma set_queue_next_id x : set_queue_next (t_queue_next x) x = x.
Proof. by destruct x. Qed.

Lemma rep_updt s Q t g : linkless g -> rep s Q -> rep (updt t g s) Q.
Proof.
  intros Hg (H1 & H2 & H3 & H4 & H5).
  assert (Hq : forall u, qn (alter g t (tasks s)) u = qn (tasks s) u).
  { intros u. unfold qn. destruct (decide (u = t)) as [->|Hne]; [|by rewrite lookup_alter_ne].
    rewrite lookup_alter_eq. destruct (tasks s !! t) as [x|]; [|done]. cbn. f_equal.
    rewrite <- (set_queue_next_id x) at 1. by rewrite Hg. }
  split; [done|]. split; [|split; [done|split; [done|]]].
  - intros q v Hv. change (lookup_queue q s = Some v) in Hv. destruct (H2 q v Hv) as (E1 & E2 & E3 & E4 & E5).
    repeat (split; [done|]). split; [|done]. eapply chain_frame; [|done]. intros u _. apply Hq.
  - cbn [tasks set_tasks updt]. by rewrite <- (size_dom (D := gset Z)), dom_alter_L, size_dom.
Qed.

Lemma wp_upd_task' t g (Q : unit -> sched -> Prop) s :
  is_Some (tasks s !! t) -> Q tt (updt t g s) -> wp (upd_task t g) Q s.
Proof. intros [x Hx] HQ. apply (wp_upd_task t g x); [done|]. unfold updt in HQ. by rewrite (alter_insert _ g t x) in HQ. Qed.

Lemma wp_upd_proc' p g (Q : unit -> sched -> Prop) s :
  is_Some (procs s !! p) -> Q tt (updp p g s) -> wp (upd_proc p g) Q s.
Proof. intros [x Hx] HQ. apply (wp_upd_proc p g x); [done|]. unfold updp in HQ. by rewrite (alter_insert _ g p x) in HQ. Qed.

Lemma updt_some s t u g : is_Some (tasks s !! u) -> is_Some (tasks (updt t g s) !! u).
Proof.
  intros [x Hx]. cbn. destruct (decide (u = t)) as [->|Hne].
  - rewrite lookup_alter_eq, Hx. by eexists.
  - rewrite lookup_alter_ne by done. by eexists.
Qed.

Lemma level_valid s Q i : rep s Q -> (i < 4)%nat -> is_Some (lookup_queue (Level i) s).
Proof. intros (H1 & _) Hi. cbn. apply lookup_lt_is_Some. lia. Qed.

(** ** Waking a task *)

Definition prio_level (prio : Z) : nat := Z.to_nat (Z.min prio (MLFQ_LEVELS - 1)).

Lemma prio_level_lt prio : (prio_level prio < 4)%nat.
Proof. unfold prio_level, MLFQ_LEVELS. lia. Qed.

Lemma enqueue_ok t prio s Q :
  rep s Q -> is_Some (tasks s !! t) -> (forall q, t ∉ Q q) ->
  wp (mlfq_enqueue_locked (Some t) prio)
     (fun _ s' => rep s' (qupd Q (Level (prio_level prio)) (Q (Level (prio_level prio)) ++ [t])) /\
        frame (updt t (set_priority (Z.min prio (MLFQ_LEVELS - 1))) s) s') s.
Proof.
  intros Hrep Ht Hnew. cbn [mlfq_enqueue_locked]. cbv zeta. wp_step. apply wp_upd_task'; [done|].
  assert (Hrep' := rep_updt s Q t (set_priority (Z.min prio (MLFQ_LEVELS - 1))) ltac:(done) Hrep).
  apply push_ok; [done| |by apply updt_some|done].
  apply (level_valid _ Q); [done|]. apply prio_level_lt.
Qed.

Definition to_ready (x : TaskStruct) : TaskStruct :=
  set_priority (Z.min (t_priority x) (MLFQ_LEVELS - 1)) (set_state Ready x).

Lemma make_ready_ok t x s Q :
  rep s Q -> tasks s !! t = Some x -> (forall q, t ∉ Q q) ->
  wp (make_ready t)
     (fun _ s' => rep s' (qupd Q (Level (prio_level (t_priority x))) (Q (Level (prio_level (t_priority x))) ++ [t])) /\
        frame (updt t to_ready s) s') s.
Proof.
  intros Hrep Ht Hnew. unfold make_ready. wp_step. apply wp_upd_task'; [by exists x|]. wp_step.
  assert (Hx : tasks (updt t (set_state Ready) s) !! t = Some (set_state Ready x)).
  { cbn. by rewrite lookup_alter_eq, Ht. }
  apply (wp_get_task t (set_state Ready x)); [done|]. cbn [t_priority set_state].
  eapply wp_mono; [apply (enqueue_ok t (t_priority x) _ Q); [|by eexists|done]|].
  - by apply rep_updt.
  - cbn. intros _ s' [Hr Hf]. split; [done|]. eapply frame_trans; [|exact Hf].
    assert (E : updt t (set_priority (Z.min (t_priority x) 3)) (updt t (set_state Ready) s) = updt t to_ready s).
    { unfold updt, set_tasks. cbn. f_equal. rewrite (alter_insert (alter _ _ _) _ t (set_state Ready x)) by done.
      rewrite !(alter_insert (tasks s) _ t x) by done. by rewrite insert_insert_eq. }
    change (MLFQ_LEVELS - 1) with 3. by rewrite E.
Qed.

(** ** Picking and boosting *)

(** The first of the levels that is not empty. *)
Fixpoint best (Q : qid -> list Z) (levels : list nat) : option nat :=
  match levels with
  | [] => None
  | i :: r => match Q (Level i) with [] => best Q r | _ :: _ => Some i end
  end.

Lemma pick_from_ok levels s Q :
  rep s Q -> Forall (fun i => (i < 4)%nat) levels ->
  wp (pick_from levels) (fun r s' => frame s s' /\
    match best Q levels with
    | None => r = None /\ rep s' Q
    | Some i => exists t l, Q (Level i) = t :: l /\ r = Some t /\ rep s' (qupd Q (Level i) l)
    end) s.
Proof.
  revert s. induction levels as [|i levels IH]; intros s Hrep Hl; cbn [pick_from best].
  { wp_step. split; [apply frame_refl|done]. }
  apply Forall_cons_1 in Hl as [Hi Hl].
  eapply wp_use; [apply (pop_ok (Level i) s Q); [done|by apply (level_valid s Q)]|].
  cbn. intros r s1 (-> & Hr1 & Hf1). destruct (Q (Level i)) as [|t l] eqn:E; cbn [first].
  - assert (Hrep1 : rep s1 Q) by (eapply rep_ext; [|exact Hr1]; intros q; symmetry; by apply qupd_id).
    eapply wp_mono; [by apply IH|]. cbn. intros r s2 [Hf2 Hm]. split; [by eapply frame_trans|done].
  - wp_step. split; [done|]. exists t, l. done.
Qed.

Definition boost1 (x : TaskStruct) : TaskStruct := set_priority BOOST_TARGET (set_ticks 0 x).

Lemma qupd_eq Q q l : qupd Q q l q = l.
Proof. unfold qupd. by rewrite decide_True. Qed.
Lemma qupd_ne Q q q' l : q' <> q -> qupd Q q l q' = Q q'.
Proof. intros. unfold qupd. by rewrite decide_False. Qed.

Lemma pop_out s Q q t l : rep s Q -> Q q = t :: l -> forall q', t ∉ qupd Q q l q'.
Proof.
  intros (_ & H2 & H3 & H4 & _) E q' Ht. unfold qupd in Ht. case_decide; subst.
  - destruct (lookup_queue q s) as [v|] eqn:Hv; [|by rewrite H3 in E].
    destruct (H2 q v Hv) as (_ & _ & _ & _ & Hnd). rewrite E in Hnd. by inversion_clear Hnd.
  - apply H. apply (H4 q' q t); [done|]. rewrite E. apply list_elem_of_here.
Qed.

Lemma frame_valid s s' t : frame s s' -> is_Some (tasks s !! t) -> is_Some (tasks s' !! t).
Proof. intros Hf [x Hx]. destruct (frame_task s s' t x Hf Hx) as [n Hn]. by eexists. Qed.

Lemma frame_foldl (l : list Z) g s s' :
  linkless g -> frame s s' -> frame (foldl (fun s t => updt t g s) s l) (foldl (fun s t => updt t g s) s' l).
Proof. intros Hg. revert s s'. induction l as [|t l IH]; intros s s' Hf; [done|]. cbn. by apply IH, frame_updt. Qed.

Lemma boost_loop_ok (fuel L : nat) s Q :
  rep s Q -> (L < 4)%nat -> L <> 1%nat -> (length (Q (Level L)) < fuel)%nat ->
  wp (boost_loop fuel L) (fun _ s' =>
    rep s' (qupd (qupd Q (Level 1) (Q (Level 1) ++ Q (Level L))) (Level L) []) /\
    frame (foldl (fun s t => updt t boost1 s) s (Q (Level L))) s') s.
Proof.
  revert s Q. induction fuel as [|fuel IH]; intros s Q Hrep HL H1 Hf; [lia|]. cbn [boost_loop].
  eapply wp_use; [apply (pop_ok (Level L) s Q); [done|by apply (level_valid s Q)]|].
  cbn. intros r s1 (-> & Hr1 & Hf1). destruct (Q (Level L)) as [|t l] eqn:E; cbn [first].
  - wp_step. split; [|done]. eapply rep_ext; [|exact Hr1]. intros q. change (drop 1 (@nil Z)) with (@nil Z).
    unfold qupd. repeat case_decide; subst; try done. by rewrite app_nil_r.
  - change (drop 1 (t :: l)) with l in Hr1. pose proof (pop_out s Q (Level L) t l Hrep E) as Hout.
    assert (Ht1 : is_Some (tasks s1 !! t)).
    { apply (frame_valid s s1); [done|]. apply (rep_valid s Q (Level L)); [done|]. rewrite E. apply list_elem_of_here. }
    wp_step. apply wp_upd_task'; [done|]. apply wp_bind. cbv beta.
    set (Q1 := qupd Q (Level L) l) in *.
    eapply wp_mono; [apply (push_ok (Level 1) t _ Q1); [by apply rep_updt| |by apply updt_some|done]|].
    { apply (level_valid _ Q1); [by apply rep_updt|lia]. }
    cbn. intros _ s2 [Hr2 Hf2]. set (Q2 := qupd Q1 (Level 1) (Q1 (Level 1) ++ [t])) in *.
    assert (EL : Q2 (Level L) = l).
    { unfold Q2, Q1. rewrite qupd_ne by congruence. apply qupd_eq. }
    assert (E1 : Q2 (Level 1) = Q (Level 1) ++ [t]).
    { unfold Q2, Q1. rewrite qupd_eq, qupd_ne by congruence. done. }
    eapply wp_mono; [apply (IH s2 Q2 Hr2 HL H1); rewrite EL; cbn in Hf; lia|].
    rewrite EL, E1, <- app_assoc. cbn. intros _ s3 [Hr3 Hf3]. split.
    + eapply rep_ext; [|exact Hr3]. intros q. unfold qupd, Q2, Q1, qupd. by repeat case_decide.
    + eapply frame_trans; [|exact Hf3]. apply frame_foldl; [done|]. eapply frame_trans; [|exact Hf2].
      by apply frame_updt.
Qed.

(** ** Waking the expired sleepers *)

(** The process record of task [t]. *)
Definition proc_rec (s : sched) (t : Z) : option ProcMeta :=
  x ← tasks s !! t; p ← t_proc x; procs s !! p.
Definition task_level (s : sched) (t : Z) : nat :=
  match tasks s !! t with Some x => prio_level (t_priority x) | None => 0%nat end.
Definition expired (s : sched) (t : Z) : bool :=
  match proc_rec s t with
  | Some p => negb (p_sleep_until p =? 0) && (p_sleep_until p <=? current_tick s)
  | None => false
  end.

(** The state after task [t] has been woken, up to links. *)
Definition wake1 (s : sched) (t : Z) : sched :=
  match tasks s !! t ≫= t_proc with
  | Some p => updt t to_ready (updp p (fun p => set_sleep 0 (p_wait_next p) p) s)
  | None => s
  end.

(** The queues while the sleep queue is scanned: [l1] has been kept, [l2] is
    still to be looked at. *)
Fixpoint move_expired (ex : Z -> bool) (lv : Z -> nat) (Q : qid -> list Z) (l1 l2 : list Z)
  : qid -> list Z :=
  match l2 with
  | [] => qupd Q SleepQ l1
  | t :: r =>
      if ex t then move_expired ex lv (qupd Q (Level (lv t)) (Q (Level (lv t)) ++ [t])) l1 r
      else move_expired ex lv Q (l1 ++ [t]) r
  end.
Definition wakeq (s : sched) : (qid -> list Z) -> list Z -> list Z -> qid -> list Z :=
  move_expired (expired s) (task_level s).

Lemma wakeq_cons s Q l1 t l2 :
  wakeq s Q l1 (t :: l2) =
    if expired s t then wakeq s (qupd Q (Level (task_level s t)) (Q (Level (task_level s t)) ++ [t])) l1 l2
    else wakeq s Q (l1 ++ [t]) l2.
Proof. done. Qed.

Lemma wakeq_sleep s Q l1 l2 :
  wakeq s Q l1 l2 SleepQ = l1 ++ List.filter (fun t => negb (expired s t)) l2.
Proof.
  revert Q l1. induction l2 as [|t l2 IH]; intros Q l1; rewrite ?wakeq_cons; cbn [List.filter].
  { unfold wakeq; cbn [move_expired]. by rewrite qupd_eq, app_nil_r. }
  destruct (expired s t); cbn [negb]; rewrite IH; [done|]. by rewrite <- app_assoc.
Qed.

Lemma wakeq_level s Q l1 l2 i :
  wakeq s Q l1 l2 (Level i) =
    Q (Level i) ++ List.filter (fun t => expired s t && (task_level s t =? i)%nat) l2.
Proof.
  revert Q l1. induction l2 as [|t l2 IH]; intros Q l1; rewrite ?wakeq_cons; cbn [List.filter].
  { unfold wakeq; cbn [move_expired]. by rewrite qupd_ne, app_nil_r. }
  destruct (expired s t); cbn [andb]; rewrite IH; [|done].
  destruct (Nat.eqb_spec (task_level s t) i) as [->|Hne].
  - by rewrite qupd_eq, <- app_assoc.
  - by rewrite qupd_ne by congruence.
Qed.

Lemma wakeq_ext s s' Q Q' l1 l2 :
  (forall t, t ∈ l2 -> expired s' t = expired s t /\ task_level s' t = task_level s t) ->
  (forall q, q <> SleepQ -> Q' q = Q q) -> forall q, wakeq s' Q' l1 l2 q = wakeq s Q l1 l2 q.
Proof.
  revert Q Q' l1. induction l2 as [|t l2 IH]; intros Q Q' l1 He HQ q; rewrite ?wakeq_cons.
  { unfold wakeq; cbn [move_expired]. unfold qupd. case_decide; [done|by apply HQ]. }
  destruct (He t) as [E1 E2]; [apply list_elem_of_here|]. rewrite E1, E2.
  assert (He' : forall u, u ∈ l2 -> expired s' u = expired s u /\ task_level s' u = task_level s u).
  { intros u Hu. apply He. by apply list_elem_of_further. }
  destruct (expired s t); apply IH; try done. intros q' Hq'. unfold qupd. case_decide; [by rewrite HQ|by apply HQ].
Qed.

Lemma filter_ext_in {A} (f g : A -> bool) l :
  (forall x, x ∈ l -> f x = g x) -> List.filter f l = List.filter g l.
Proof.
  induction l as [|x l IH]; intros H; [done|]. cbn. rewrite (H x) by apply list_elem_of_here.
  rewrite IH; [done|]. intros y Hy. apply H. by apply list_elem_of_further.
Qed.

Lemma frame_proc_rec s s' t : frame s s' -> proc_rec s' t = proc_rec s t.
Proof.
  intros Hf. destruct (frame_fields s s' Hf) as (Hp & _). unfold proc_rec. rewrite Hp.
  destruct (tasks s !! t) as [x|] eqn:Hx; [destruct (frame_task s s' t x Hf Hx) as [n ->]; done|].
  destruct (tasks s' !! t) as [y|] eqn:Hy; [|done]. destruct (frame_task_inv s s' t y Hf Hy) as [n Hn]. congruence.
Qed.

Lemma frame_level s s' t : frame s s' -> task_level s' t = task_level s t.
Proof.
  intros Hf. unfold task_level.
  destruct (tasks s !! t) as [x|] eqn:Hx; [destruct (frame_task s s' t x Hf Hx) as [n ->]; done|].
  destruct (tasks s' !! t) as [y|] eqn:Hy; [|done]. destruct (frame_task_inv s s' t y Hf Hy) as [n Hn]. congruence.
Qed.

Lemma frame_expired s s' t : frame s s' -> expired s' t = expired s t.
Proof.
  intros Hf. unfold expired. rewrite (frame_proc_rec s s' t Hf).
  by destruct (frame_fields s s' Hf) as (_ & _ & _ & _ & _ & -> & _).
Qed.

Lemma frame_wake1 s s' t : frame s s' -> frame (wake1 s t) (wake1 s' t).
Proof.
  intros Hf. unfold wake1.
  destruct (tasks s !! t) as [x|] eqn:Hx.
  - destruct (frame_task s s' t x Hf Hx) as [n ->]. cbn. destruct (t_proc x); [|done].
    by apply frame_updt, frame_updp.
  - destruct (tasks s' !! t) as [y|] eqn:Hy; [|done]. destruct (frame_task_inv s s' t y Hf Hy) as [n Hn]. congruence.
Qed.

Lemma frame_wakes (l : list Z) s s' : frame s s' -> frame (foldl wake1 s l) (foldl wake1 s' l).
Proof. revert s s'. induction l as [|t l IH]; intros s s' Hf; [done|]. cbn. by apply IH, frame_wake1. Qed.

(** The tasks of [l] have process records, each its own. *)
Definition own_procs (s : sched) (l : list Z) : Prop :=
  (forall t, t ∈ l -> exists x p, tasks s !! t = Some x /\ t_proc x = Some p /\ is_Some (procs s !! p)) /\
  (forall t u x y p, t ∈ l -> u ∈ l -> tasks s !! t = Some x -> tasks s !! u = Some y ->
     t_proc x = Some p -> t_proc y = Some p -> t = u).

Lemma wake1_other s t l u :
  own_procs s (t :: l) -> u ∈ l -> t ∉ l ->
  proc_rec (wake1 s t) u = proc_rec s u /\ task_level (wake1 s t) u = task_level s u /\
  (forall x, tasks (wake1 s t) !! u = Some x <-> tasks s !! u = Some x).
Proof.
  intros [Hv Hd] Hu Ht. assert (Hut : u <> t) by (by intros ->).
  destruct (Hv t) as (x & p & Hx & Hp & _); [apply list_elem_of_here|].
  destruct (Hv u) as (y & q & Hy & Hq & _); [by apply list_elem_of_further|].
  assert (Hpq : q <> p).
  { intros ->. apply Hut. symmetry. apply (Hd t u x y p); try done; [apply list_elem_of_here|by apply list_elem_of_further]. }
  unfold wake1. rewrite Hx. cbn. rewrite Hp. unfold proc_rec, task_level. cbn.
  rewrite lookup_alter_ne, Hy by done. cbn. rewrite Hq. cbn. by rewrite lookup_alter_ne.
Qed.

Lemma own_procs_wake1 s t l : own_procs s (t :: l) -> t ∉ l -> own_procs (wake1 s t) l.
Proof.
  intros Ho Ht. pose proof Ho as [Hv Hd]. split.
  - intros u Hu. destruct (wake1_other s t l u Ho Hu Ht) as (Hr & _ & He).
    destruct (Hv u) as (y & q & Hy & Hq & Hqs); [by apply list_elem_of_further|]. exists y, q.
    split; [by apply He|]. split; [done|]. unfold proc_rec in Hr. rewrite (proj2 (He y) Hy), Hy in Hr. cbn in Hr.
    rewrite Hq in Hr. cbn in Hr. by rewrite Hr.
  - intros a b x y p Ha Hb Hx Hy. destruct (wake1_other s t l a Ho Ha Ht) as (_ & _ & Hea).
    destruct (wake1_other s t l b Ho Hb Ht) as (_ & _ & Heb). apply Hea in Hx. apply Heb in Hy.
    apply (Hd a b x y p); [by apply list_elem_of_further..|done|done].
Qed.

Lemma own_procs_frame s s' l : frame s s' -> own_procs s l -> own_procs s' l.
Proof.
  intros Hf [Hv Hd]. pose proof (frame_fields s s' Hf) as (Hp & _). split.
  - intros t Ht. destruct (Hv t Ht) as (x & p & Hx & Hxp & Hpp). destruct (frame_task s s' t x Hf Hx) as [n Hn].
    eexists _, p. rewrite Hn, Hp. done.
  - intros t u x y p Ht Hu Hx Hy Hxp Hyp.
    destruct (frame_task_inv s s' t x Hf Hx) as [n Hn]. destruct (frame_task_inv s s' u y Hf Hy) as [m Hm].
    by apply (Hd t u _ _ p Ht Hu Hn Hm).
Qed.

Lemma own_procs_cons s t l : own_procs s (t :: l) -> own_procs s l.
Proof.
  intros [Hv Hd]. split; [intros u Hu; apply Hv; by apply list_elem_of_further|].
  intros a b x y p Ha Hb. apply Hd; by apply list_elem_of_further.
Qed.

(** One expired task, between the kept [l1] and the rest [l2], is moved. *)
Lemma wake_one_ok {B} t l1 l2 s Q x p (k : unit -> SM B) P :
  rep s Q -> Q SleepQ = l1 ++ t :: l2 -> tasks s !! t = Some x -> t_proc x = Some p -> is_Some (procs s !! p) ->
  (forall s', rep s' (qupd (qupd Q SleepQ (l1 ++ l2)) (Level (task_level s t)) (Q (Level (task_level s t)) ++ [t])) ->
     frame (wake1 s t) s' -> wp (k tt) P s') ->
  wp (v ← gets sleep_queue;
      head ← match final l1 with
             | None => mret (t_queue_next x)
             | Some pr => upd_task pr (set_queue_next (t_queue_next x)) ;; mret (q_head v)
             end;
      let tail := if decide (q_tail v = Some t) then final l1 else q_tail v in
      n ← lift (csub (q_count v) 1);
      modify (set_sleep_queue (mk_queue head tail n)) ;;
      upd_task_proc t (fun p => set_sleep 0 (p_wait_next p) p) ;;
      u ← make_ready t; k u) P s.
Proof.
  intros Hrep E Hx Hp Hpp Hk. set (v := sleep_queue s).
  destruct (unlink_rep SleepQ t l1 l2 s Q v Hrep eq_refl E) as (Hr & Hf & Hc & Hout).
  wp_step. wp_step. apply (unlink_code SleepQ t l1 l2 s Q v x _ _ Hrep eq_refl E Hx).
  cbv zeta. apply wp_bind. fold v. rewrite Hc. eapply wp_lift; [done|]. wp_steps.
  fold (unlinked_queue v t l1 l2).
  change (set_sleep_queue (unlinked_queue v t l1 l2)) with (set_q SleepQ (unlinked_queue v t l1 l2)).
  set (s1 := set_q SleepQ (unlinked_queue v t l1 l2) _) in *.
  destruct (frame_task s s1 t x Hf Hx) as [n Hn]. destruct (frame_fields s s1 Hf) as (Hps & _).
  unfold upd_task_proc, proc_of. wp_steps. apply (wp_get_task t _ _ _ Hn). cbn [t_proc set_queue_next].
  apply (wp_lift _ p); [done|]. apply wp_upd_proc'; [by rewrite Hps|].
  set (s2 := updp p _ s1). eapply wp_use; [apply (make_ready_ok t (set_queue_next n x) s2 (qupd Q SleepQ (l1 ++ l2))); done|].
  cbn [t_priority set_queue_next]. intros [] s3 [Hr3 Hf3]. apply Hk.
  - unfold task_level. rewrite Hx. eapply rep_ext; [|exact Hr3]. intros q. unfold qupd at 1 3. by case_decide.
  - eapply frame_trans; [|exact Hf3]. unfold wake1. rewrite Hx. cbn. rewrite Hp.
    apply frame_updt; [done|]. by apply frame_updp.
Qed.

Lemma wake_loop_ok (fuel : nat) now l1 l2 s Q :
  rep s Q -> Q SleepQ = l1 ++ l2 -> own_procs s l2 -> now = current_tick s -> (length l2 < fuel)%nat ->
  wp (wake_loop fuel now (final l1) (first l2 None)) (fun _ s' =>
    rep s' (wakeq s Q l1 l2) /\ frame (foldl wake1 s (List.filter (expired s) l2)) s') s.
Proof.
  revert l1 l2 s Q. induction fuel as [|fuel IH]; intros l1 l2 s Q Hrep E Hown -> Hf; [lia|].
  cbn [wake_loop]. destruct l2 as [|t l2]; rewrite ?wakeq_cons; cbn [first List.filter].
  { wp_step. split; [|apply frame_refl]. eapply rep_ext; [|exact Hrep]. intros q. rewrite app_nil_r in E.
    unfold wakeq; cbn [move_expired]. unfold qupd. by case_decide; subst. }
  destruct (proj1 Hown t) as (x & p & Hx & Hp & [pm Hpm]); [apply list_elem_of_here|].
  assert (Hni : t ∉ l2).
  { destruct Hrep as (_ & Hqs & _). destruct (Hqs SleepQ (sleep_queue s) eq_refl) as (_ & _ & _ & _ & Hnd).
    rewrite E in Hnd. apply list.NoDup_app in Hnd as (_ & _ & Hnd). by inversion_clear Hnd. }
  assert (Hnext : t_queue_next x = first l2 None).
  { destruct Hrep as (_ & Hqs & _). destruct (Hqs SleepQ (sleep_queue s) eq_refl) as (_ & _ & _ & Hch & _).
    rewrite E in Hch. apply chain_app in Hch as [_ [Hch _]]. unfold qn in Hch. rewrite Hx in Hch. cbn in Hch. congruence. }
  assert (Hexp : expired s t = negb (p_sleep_until pm =? 0) && (p_sleep_until pm <=? current_tick s)).
  { unfold expired, proc_rec. rewrite Hx. cbn. rewrite Hp. cbn. by rewrite Hpm. }
  wp_step. apply (wp_get_task t x); [done|]. unfold get_task_proc at 1, proc_of at 1.
  wp_steps. apply (wp_get_task t x); [done|]. apply (wp_lift _ p); [done|]. apply (wp_get_proc p pm); [done|].
  rewrite <- Hexp. destruct (expired s t) eqn:Ee.
  - apply (wake_one_ok t l1 l2 s Q x p (fun _ => wake_loop fuel (current_tick s) (final l1) (t_queue_next x))); [done..|by exists pm|].
    intros s1 Hr1 Hf1. rewrite Hnext.
    set (Q1 := qupd (qupd Q SleepQ (l1 ++ l2)) _ _) in *.
    assert (Hsl : Q1 SleepQ = l1 ++ l2) by (unfold Q1; rewrite qupd_ne by done; apply qupd_eq).
    assert (Htick : current_tick s1 = current_tick s).
    { destruct (frame_fields _ _ Hf1) as (_ & _ & _ & _ & _ & -> & _). unfold wake1. by destruct (_ ≫= _). }
    assert (He : forall u, u ∈ l2 -> expired s1 u = expired s u /\ task_level s1 u = task_level s u).
    { intros u Hu. destruct (wake1_other s t l2 u Hown Hu Hni) as (H1 & H2 & _). split.
      - unfold expired. rewrite (frame_proc_rec _ _ u Hf1), H1, Htick. done.
      - by rewrite (frame_level _ _ u Hf1), H2. }
    eapply wp_mono; [apply (IH l1 l2 s1 Q1 Hr1 Hsl); [|done|cbn in Hf; lia]|].
    { apply (own_procs_frame _ _ _ Hf1). by apply own_procs_wake1. }
    cbn. intros _ s2 [Hr2 Hf2]. split.
    + eapply rep_ext; [|exact Hr2]. intros q. symmetry. apply wakeq_ext; [done|]. intros q' Hq'. unfold Q1, qupd.
      by repeat case_decide.
    + rewrite (filter_ext_in _ (expired s)) in Hf2 by (intros u Hu; by apply He).
      eapply frame_trans; [|exact Hf2]. by apply frame_wakes.
  - rewrite Hnext, <- (final_snoc l1 t). eapply wp_mono; [apply (IH (l1 ++ [t]) l2 s Q); [done| |by eapply own_procs_cons|done|cbn in Hf; lia]|].
    + by rewrite <- app_assoc.
    + cbn. intros _ s' H. exact H.
Qed.

Lemma wake_expired_ok s Q :
  rep s Q -> own_procs s (Q SleepQ) ->
  wp wake_expired_sleepers (fun _ s' =>
    rep s' (wakeq s Q [] (Q SleepQ)) /\ frame (foldl wake1 s (List.filter (expired s) (Q SleepQ))) s') s.
Proof.
  intros Hrep Hown. unfold wake_expired_sleepers, list_fuel. wp_steps.
  pose proof Hrep as (_ & Hqs & _). destruct (Hqs SleepQ (sleep_queue s) eq_refl) as (-> & _ & _ & Hch & Hnd).
  apply (wake_loop_ok _ _ []); [done..|]. apply Nat.lt_succ_r. apply nodup_size; [done|].
  intros t Ht. by eapply chain_dom.
Qed.

(** ** schedule *)

(** The switch to [t] can be carried out: its process record exists and its
    kernel stack ends below 4 GiB. *)
Definition switchable (s : sched) (t : Z) : Prop :=
  exists x, tasks s !! t = Some x /\
    match t_proc x with
    | None => True
    | Some p => exists pm, procs s !! p = Some pm /\
        match p_stack_base pm with None => True | Some b => b + KERNEL_STACK_SIZE < 2 ^ 32 end
    end.

Lemma switchable_frame s s' t : frame s s' -> switchable s t -> switchable s' t.
Proof.
  intros Hf (x & Hx & Hp). destruct (frame_task s s' t x Hf Hx) as [n Hn]. destruct (frame_fields s s' Hf) as (E & _).
  exists (set_queue_next n x). split; [done|]. by rewrite E.
Qed.

Lemma switchable_updt s u g t : (forall x, t_proc (g x) = t_proc x) -> switchable s t -> switchable (updt u g s) t.
Proof.
  intros Hg (x & Hx & Hp). unfold switchable. cbn. destruct (decide (t = u)) as [->|Hne].
  - rewrite lookup_alter_eq, Hx. cbn. eexists. split; [done|]. by rewrite Hg.
  - rewrite lookup_alter_ne by done. by exists x.
Qed.

Lemma switchable_wake1 s u t : switchable s t -> switchable (wake1 s u) t.
Proof.
  intros Hs. unfold wake1. destruct (_ ≫= _) as [p|]; [|done]. apply switchable_updt; [done|].
  destruct Hs as (x & Hx & Hp). exists x. split; [done|]. destruct (t_proc x) as [q|]; [|done].
  destruct Hp as (pm & Hpm & Hb). cbn. destruct (decide (q = p)) as [->|Hne].
  - rewrite lookup_alter_eq, Hpm. eexists. split; [done|]. done.
  - rewrite lookup_alter_ne by done. by exists pm.
Qed.

Lemma switchable_wakes l s t : switchable s t -> switchable (foldl wake1 s l) t.
Proof. revert s. induction l as [|u l IH]; intros s Hs; [done|]. by apply IH, switchable_wake1. Qed.

Lemma wakes_task l s t : t ∉ l -> tasks (foldl wake1 s l) !! t = tasks s !! t.
Proof.
  revert s. induction l as [|u l IH]; intros s Ht; [done|]. apply not_elem_of_cons in Ht as [Hu Ht]. cbn.
  rewrite IH by done. unfold wake1. destruct (_ ≫= _); [|done]. cbn. by apply lookup_alter_ne.
Qed.

Lemma wakes_fields l s :
  current_task (foldl wake1 s l) = current_task s /\ reap_counter (foldl wake1 s l) = reap_counter s /\
  task_list_head (foldl wake1 s l) = task_list_head s.
Proof.
  revert s. induction l as [|u l IH]; intros s; [done|]. cbn. destruct (IH (wake1 s u)) as (-> & -> & ->).
  unfold wake1. by destruct (_ ≫= _).
Qed.

Lemma switch_info_ok c n s (P : switch -> sched -> Prop) :
  is_Some (tasks s !! c) -> switchable s n ->
  (forall w, sw_prev w = c -> sw_next w = n -> P w s) -> wp (switch_info c n) P s.
Proof.
  intros [x Hx] (y & Hy & Hp) HP. unfold switch_info. wp_step. apply (wp_get_task c x); [done|].
  wp_step. apply (wp_get_task n y); [done|]. wp_steps. destruct (t_proc y) as [p|].
  - destruct Hp as (pm & Hpm & Hb). wp_steps. apply (wp_get_proc p pm); [done|].
    destruct (p_stack_base pm) as [b|]; wp_steps; [|by apply HP].
    apply (wp_lift _ (b + KERNEL_STACK_SIZE)); [by apply cadd_ok|]. wp_steps. by apply HP.
  - wp_steps. by apply HP.
Qed.

(** The queue the interrupted task goes to. *)
Definition requeueq (x : TaskStruct) (c : Z) (Q : qid -> list Z) : qid -> list Z :=
  match t_state x with
  | Running => qupd Q (Level (prio_level (t_priority x))) (Q (Level (prio_level (t_priority x))) ++ [c])
  | Sleeping => qupd Q SleepQ (Q SleepQ ++ [c])
  | _ => Q
  end.

Lemma requeue_ok c x s Q :
  rep s Q -> tasks s !! c = Some x -> (forall q, c ∉ Q q) ->
  wp (requeue_prev c) (fun _ s' => rep s' (requeueq x c Q) /\
    exists g, linkless g /\ (forall x, t_proc (g x) = t_proc x) /\ frame (updt c g s) s') s.
Proof.
  intros Hrep Hx Hout. unfold requeue_prev, requeueq. wp_step. apply (wp_get_task c x); [done|].
  assert (Hid : frame (updt c (fun x => x) s) s).
  { unfold updt. rewrite (alter_insert _ _ c x) by done. rewrite insert_id by done. by destruct s. }
  destruct (t_state x).
  2: { eapply wp_mono; [by apply (make_ready_ok c x s Q)|]. cbn. intros _ s' [Hr Hf]. split; [done|]. by exists to_ready. }
  2: { cbn [mlfq_sleep_locked]. eapply wp_mono; [apply (push_ok SleepQ c s Q); [done|by eexists|by exists x|done]|].
       cbn. intros _ s' [Hr Hf]. split; [done|]. exists (fun x => x). split; [done|]. split; [done|].
       by eapply frame_trans. }
  all: wp_step; split; [done|]; by exists (fun x => x).
Qed.

Lemma requeueq_out x c Q n : n <> c -> (forall q, n ∉ Q q) -> forall q, n ∉ requeueq x c Q q.
Proof.
  intros Hne Hout q. unfold requeueq. destruct (t_state x); try apply Hout;
    unfold qupd; (case_decide; [|apply Hout]); subst;
    intros [Hn|Hn]%elem_of_app; [by apply Hout in Hn|by apply list_elem_of_singleton in Hn|
                                 by apply Hout in Hn|by apply list_elem_of_singleton in Hn].
Qed.

Record schedulable (s : sched) (Q : qid -> list Z) (c : Z) (x : TaskStruct) : Prop := {
  sc_rep : rep s Q;
  sc_own : own_procs s (Q SleepQ);
  sc_switch : forall q t, t ∈ Q q -> switchable s t;
  sc_cur : current_task s = Some c;
  sc_task : tasks s !! c = Some x;
  sc_out : forall q, c ∉ Q q;
  sc_alive : t_state x <> Zombie;
  sc_list : task_list_head s <> None;
  sc_flag : in_progress s = 0;
  sc_reap : reap_counter s mod 128 <> 127
}.

(** What a call of [schedule] leads to: the queues after the expired sleepers
    were woken, the head of the best level runs, the interrupted task is put
    back. *)
Definition schedule_post (s : sched) (Q : qid -> list Z) (c : Z) (x : TaskStruct)
    (r : option switch) (s' : sched) : Prop :=
  let Q1 := wakeq s Q [] (Q SleepQ) in
  in_progress s' = 0 /\
  match best Q1 (seq 0 4) with
  | None => r = None /\ rep s' Q1 /\ current_task s' = Some c
  | Some i => exists n l w y, Q1 (Level i) = n :: l /\ r = Some w /\ sw_prev w = c /\ sw_next w = n /\
      current_task s' = Some n /\ tasks s' !! n = Some y /\ t_state y = Running /\ n <> c /\
      rep s' (requeueq x c (qupd Q1 (Level i) l)) /\ (forall q, n ∉ requeueq x c (qupd Q1 (Level i) l) q)
  end.

Lemma wakeq_elem s Q q t : t ∈ wakeq s Q [] (Q SleepQ) q -> exists q', t ∈ Q q'.
Proof.
  destruct q as [i|].
  - rewrite wakeq_level. intros [Ht|Ht]%elem_of_app; [by exists (Level i)|]. exists SleepQ.
    apply list_elem_of_In, filter_In in Ht as [Ht _]. by apply list_elem_of_In.
  - rewrite wakeq_sleep. cbn. intros Ht. exists SleepQ.
    apply list_elem_of_In, filter_In in Ht as [Ht _]. by apply list_elem_of_In.
Qed.

(** The part of [schedule] from the wake-ups on. *)
Lemma switch_part_ok s Q c x :
  rep s Q -> own_procs s (Q SleepQ) -> (forall q t, t ∈ Q q -> switchable s t) ->
  current_task s = Some c -> tasks s !! c = Some x -> (forall q, c ∉ Q q) ->
  wp (wake_expired_sleepers ;;
      next ← pick_next_task;
      match next with
      | None => leave_schedule
      | Some n =>
          if decide (n = c) then leave_schedule
          else
            requeue_prev c ;;
            upd_task n (set_state Running) ;;
            modify (set_current (Some n)) ;;
            w ← switch_info c n;
            modify (fun s => set_flags 0 (reap_counter s) s) ;;
            mret (Some w)
      end) (schedule_post s Q c x) s.
Proof.
  intros Hrep Hown Hsw Hcur Hx Hout.
  eapply wp_use; [by apply wake_expired_ok|]. cbn [foldl]. intros _ s1 [Hr1 Hf1].
  set (Q1 := wakeq s Q [] (Q SleepQ)) in *. set (W := List.filter (expired s) (Q SleepQ)) in *.
  assert (Hout1 : forall q, c ∉ Q1 q).
  { intros q Hc. apply wakeq_elem in Hc as [q' Hc]. by apply (Hout q'). }
  assert (HcW : c ∉ W).
  { intros Hc. apply (Hout SleepQ). apply list_elem_of_In, filter_In in Hc as [Hc _]. by apply list_elem_of_In. }
  assert (Hx1 : tasks (foldl wake1 s W) !! c = Some x) by (by rewrite wakes_task).
  destruct (frame_task _ _ c x Hf1 Hx1) as [n1 Hc1].
  assert (Hcur1 : current_task s1 = Some c).
  { destruct (frame_fields _ _ Hf1) as (_ & _ & -> & _). by destruct (wakes_fields W s) as (-> & _). }
  eapply wp_use; [apply (pick_from_ok (seq 0 4) s1 Q1 Hr1)|].
  { apply Forall_forall. intros i Hi. apply in_seq in Hi. lia. }
  unfold schedule_post. fold Q1. cbv zeta. intros r s2 [Hf2 Hm]. destruct (best Q1 (seq 0 4)) as [i|].
  2: { destruct Hm as [-> Hr2]. unfold leave_schedule. wp_steps. split; [done|]. split; [done|]. split; [done|].
       cbn. by destruct (frame_fields _ _ Hf2) as (_ & _ & -> & _). }
  destruct Hm as (n & l & E & -> & Hr2).
  assert (Hin : n ∈ Q1 (Level i)) by (rewrite E; apply list_elem_of_here).
  assert (Hnc : n <> c) by (intros ->; by apply (Hout1 (Level i))).
  rewrite decide_False by done. set (Q2 := qupd Q1 (Level i) l) in *.
  assert (Hn2 : forall q, n ∉ Q2 q) by (by apply (pop_out s1)).
  assert (Hout2 : forall q, c ∉ Q2 q).
  { intros q Hc. unfold Q2, qupd in Hc. case_decide; [|by apply Hout1 in Hc]. apply (Hout1 (Level i)). rewrite E.
    by apply list_elem_of_further. }
  assert (Hsn : switchable s2 n).
  { apply (switchable_frame s1); [done|]. apply (switchable_frame _ _ _ Hf1). apply switchable_wakes.
    apply wakeq_elem in Hin as [q Hin]. by apply (Hsw q). }
  destruct (frame_task s1 s2 c _ Hf2 Hc1) as [n2 Hc2].
  eapply wp_use; [exact (requeue_ok c _ s2 Q2 Hr2 Hc2 Hout2)|]. cbn. intros _ s3 (Hr3 & g & Hg & Hgp & Hf3).
  assert (Hsn3 : switchable s3 n) by (apply (switchable_frame _ _ _ Hf3); by apply switchable_updt).
  pose proof Hsn3 as (y & Hy & _). wp_step. apply wp_upd_task'; [by exists y|]. wp_steps.
  assert (Hc3 : is_Some (tasks s3 !! c)).
  { apply (frame_valid _ _ c Hf3). apply updt_some. by eexists. }
  set (s4 := set_current (Some n) (updt n (set_state Running) s3)).
  apply (switch_info_ok c n s4); [by apply (updt_some s3)|by apply (switchable_updt s3 n (set_state Running) n)|].
  intros w Hw1 Hw2. wp_steps. split; [done|]. exists n, l, w, (set_state Running y).
  repeat (split; [done|]). split; [cbn; by rewrite lookup_alter_eq, Hy|]. split; [done|]. split; [done|]. split.
  - assert (H : rep (updt n (set_state Running) s3) (requeueq x c Q2)).
    { apply rep_updt; [done|]. exact Hr3. }
    exact H.
  - by apply requeueq_out.
Qed.


(** ** The periodic boost *)

Definition boostq (Q : qid -> list Z) : qid -> list Z :=
  qupd (qupd (qupd Q (Level 1) (Q (Level 1) ++ Q (Level 2) ++ Q (Level 3))) (Level 2) []) (Level 3) [].

(** What a tick leaves of the current task. *)
Definition cur_ok (s : sched) : Prop :=
  exists c x, current_task s = Some c /\ tasks s !! c = Some x /\ 0 <= t_priority x /\ 0 <= t_ticks_used x < 5.

Lemma level_length s Q i : rep s Q -> (length (Q (Level i)) < S (size (tasks s)))%nat.
Proof.
  intros Hrep. pose proof Hrep as (_ & H2 & H3 & _). destruct (lookup_queue (Level i) s) as [v|] eqn:Hv.
  - destruct (H2 _ v Hv) as (_ & _ & _ & Hc & Hnd). apply Nat.lt_succ_r, nodup_size; [done|].
    intros t Ht. by eapply chain_dom.
  - rewrite H3 by done. cbn. lia.
Qed.

Lemma boosted_cur l s c x :
  tasks s !! c = Some x -> 0 <= t_priority x -> 0 <= t_ticks_used x < 5 ->
  exists y, tasks (foldl (fun s t => updt t boost1 s) s l) !! c = Some y /\
    0 <= t_priority y /\ 0 <= t_ticks_used y < 5.
Proof.
  revert s x. induction l as [|t l IH]; intros s x Hx H1 H2; [by exists x|]. cbn.
  destruct (decide (c = t)) as [->|Hne].
  - apply (IH _ (boost1 x)); cbn; [by rewrite lookup_alter_eq, Hx|done|lia].
  - apply (IH _ x); [|done..]. cbn. by rewrite lookup_alter_ne.
Qed.

Lemma boosted_fields l s :
  current_task (foldl (fun s t => updt t boost1 s) s l) = current_task s /\
  boost_counter (foldl (fun s t => updt t boost1 s) s l) = boost_counter s.
Proof. revert s. induction l as [|t l IH]; intros s; [done|]. cbn. by destruct (IH (updt t boost1 s)) as [-> ->]. Qed.

Lemma cur_ok_frame s s' l :
  frame (foldl (fun s t => updt t boost1 s) s l) s' -> cur_ok s ->
  cur_ok s' /\ current_task s' = current_task s /\ boost_counter s' = boost_counter s.
Proof.
  intros Hf (c & x & Hc & Hx & H1 & H2). destruct (boosted_fields l s) as [E1 E2].
  destruct (frame_fields _ _ Hf) as (_ & -> & Hc' & _). rewrite E2. split; [|by rewrite Hc', E1].
  destruct (boosted_cur l s c x Hx H1 H2) as (y & Hy & H3 & H4). destruct (frame_task _ _ c y Hf Hy) as [n Hn].
  exists c, (set_queue_next n y). by rewrite Hc', E1.
Qed.

Lemma boost_ok s Q :
  rep s Q -> cur_ok s ->
  wp do_priority_boost (fun _ s' => rep s' (boostq Q) /\ cur_ok s' /\ current_task s' = current_task s /\
    boost_counter s' = boost_counter s) s.
Proof.
  intros Hrep Hcur. unfold do_priority_boost. cbn [for_each]. wp_step.
  assert (Hlev : forall (L : nat) s Q (P : unit -> sched -> Prop), rep s Q -> cur_ok s -> (L < 4)%nat -> L <> 1%nat ->
    (forall s', rep s' (qupd (qupd Q (Level 1) (Q (Level 1) ++ Q (Level L))) (Level L) []) -> cur_ok s' ->
       current_task s' = current_task s -> boost_counter s' = boost_counter s -> P tt s') ->
    wp (fuel ← list_fuel; boost_loop fuel L) P s).
  { intros L s0 Q0 P Hr Hc HL H1 HP. unfold list_fuel. wp_steps.
    eapply wp_mono; [apply (boost_loop_ok _ L s0 Q0 Hr HL H1); by apply level_length|].
    intros [] s1 [Hr1 Hf1]. destruct (cur_ok_frame _ _ _ Hf1 Hc) as (Hc1 & E1 & E2). by apply HP. }
  wp_step. apply (Hlev 2%nat s Q); [done|done|lia|lia|]. intros s1 Hr1 Hc1 E1 B1.
  wp_step. apply (Hlev 3%nat s1 _ _ Hr1 Hc1); [lia..|]. intros s2 Hr2 Hc2 E2 B2. wp_steps.
  assert (HQ : forall q, boostq Q q = qupd (qupd (qupd (qupd Q (Level 1) (Q (Level 1) ++ Q (Level 2))) (Level 2) [])
    (Level 1) ((Q (Level 1) ++ Q (Level 2)) ++ Q (Level 3))) (Level 3) [] q).
  { intros q. unfold boostq, qupd. repeat case_decide; subst; try done. by rewrite app_assoc. }
  assert (Hr3 : rep s2 (boostq Q)) by (eapply rep_ext; [exact HQ|exact Hr2]).
  pose proof Hc2 as (c & x & Hc & Hx & Hp & Ht). rewrite Hc. wp_step. apply (wp_get_task c x); [done|]. case_if.
  - apply wp_upd_task'; [by exists x|]. split; [by apply rep_updt|]. split; [|cbn; split; congruence].
    exists c, (set_ticks 0 (set_priority BOOST_TARGET x)). cbn. rewrite lookup_alter_eq, Hx.
    split; [done|]. split; [done|]. cbn. unfold BOOST_TARGET, MLFQ_LEVEL_INTERACTIVE. lia.
  - wp_step. split; [done|]. split; [done|]. split; congruence.
Qed.

(** What one tick does to the counter and the queues. *)
Lemma tick_locked_ok s Q c :
  rep s Q -> cur_ok s -> current_task s = Some c -> 0 <= boost_counter s < BOOST_INTERVAL ->
  wp (tick_locked c) (fun _ s' => cur_ok s' /\ current_task s' = current_task s /\
    if boost_counter s + 1 =? BOOST_INTERVAL then boost_counter s' = 0 /\ rep s' (boostq Q)
    else boost_counter s' = boost_counter s + 1 /\ rep s' Q) s.
Proof.
  intros Hrep (c' & x & Hc & Hx & Hp & Ht) Hcc Hb. rewrite Hc in Hcc. injection Hcc as ->. unfold BOOST_INTERVAL in *.
  unfold tick_locked. wp_step. apply (wp_get_task c x); [done|]. wp_step.
  apply (wp_lift _ (t_ticks_used x + 1)); [apply cadd_ok; lia|]. wp_step. apply wp_upd_task'; [by exists x|].
  wp_step. assert (Hq : exists q, quantum_of (t_priority x) = Some q /\ q <= 5).
  { unfold quantum_of, MLFQ_LEVELS. assert (Hr : 0 <= Z.min (t_priority x) (4 - 1) <= 3) by lia.
    destruct (Z.min (t_priority x) (4 - 1)) as [|z|z] eqn:E; [by eexists| |lia].
    destruct z as [[z|z|]|[z|z|]|]; try (exfalso; lia); eexists; (split; [reflexivity|lia]). }
  destruct Hq as (q & Hq & Hq5). apply (wp_lift _ q); [done|]. wp_step.
  set (s1 := updt c (set_ticks (t_ticks_used x + 1)) s).
  assert (Hs1 : rep s1 Q) by (by apply rep_updt).
  assert (Hx1 : tasks s1 !! c = Some (set_ticks (t_ticks_used x + 1) x)) by (cbn; by rewrite lookup_alter_eq, Hx).
  assert (Hfin : forall s', rep s' Q -> cur_ok s' -> current_task s' = Some c -> boost_counter s' = boost_counter s ->
    wp (bc ← gets boost_counter; let bc := Z.min (bc + 1) (2 ^ 32 - 1) in
        (if 50 <=? bc then modify (set_boost 0) ;; do_priority_boost else modify (set_boost bc)) ;;
        mret (q <=? t_ticks_used x + 1))
      (fun _ s' => cur_ok s' /\ current_task s' = current_task s /\
         if boost_counter s + 1 =? 50 then boost_counter s' = 0 /\ rep s' (boostq Q)
         else boost_counter s' = boost_counter s + 1 /\ rep s' Q) s').
  { intros s' Hr' Hc' Hcc' Hbc. wp_steps. cbv zeta. apply wp_bind. rewrite Hbc. replace (Z.min (boost_counter s + 1) (2 ^ 32 - 1)) with (boost_counter s + 1) by lia.
    destruct (Z.eqb_spec (boost_counter s + 1) 50) as [E|E].
    - rewrite E. cbn [Z.leb Z.compare Pos.compare Pos.compare_cont]. wp_steps.
      eapply wp_mono; [apply (boost_ok (set_boost 0 s') Q Hr' Hc')|]. intros _ s2 (H1 & H2 & H3 & H4). cbn in H3, H4. wp_step.
      split; [done|]. split; [congruence|]. done.
    - rewrite (proj2 (Z.leb_gt 50 (boost_counter s + 1))) by lia. wp_steps. split; [done|]. split; [cbn; congruence|]. done. }
  destruct (Z.leb_spec q (t_ticks_used x + 1)) as [Hle|Hlt].
  - assert (Hg : wp (if negb (t_priority x =? MLFQ_LEVEL_RT) && (t_priority x <? MLFQ_LEVEL_BACKGROUND)
                     then upd_task c (set_priority (t_priority x + 1)) else skip)
      (fun _ s' => rep s' Q /\ current_task s' = Some c /\ boost_counter s' = boost_counter s /\
         exists y, tasks s' !! c = Some y /\ 0 <= t_priority y) s1).
    { case_if; b2p.
      - apply wp_upd_task'; [by eexists|]. split; [by apply rep_updt|]. split; [done|]. split; [done|].
        eexists. cbn in Hx1 |- *. rewrite lookup_alter_eq, Hx1. split; [done|]. cbn. lia.
      - wp_step. split; [done|]. split; [done|]. split; [done|]. eexists. split; [done|]. done. }
    wp_step. eapply wp_mono; [exact Hg|]. intros [] s2 (H1 & H2 & H3 & y & Hy & Hy1).
    apply wp_upd_task'; [by exists y|]. apply Hfin; [by apply rep_updt| |done|done].
    exists c, (set_ticks 0 y). cbn. rewrite lookup_alter_eq, Hy. split; [done|]. split; [done|]. cbn. lia.
  - wp_step. wp_step. apply Hfin; [done| |done|done]. exists c. eexists. split; [done|]. split; [done|]. cbn. lia.
Qed.

(** Ticks with anything between them: [env] are the transitions of the rest
    of the kernel; the result lists the states right after the ticks. *)
Fixpoint run_ticks (env : list (sched -> sched)) (s : sched) : option (list sched) :=
  match env with
  | [] => Some []
  | e :: r =>
      c ← current_task (e s);
      '(s', _) ← tick_locked c (e s);
      l ← run_ticks r s';
      Some (s' :: l)
  end.

Definition tick_ok (s : sched) : Prop :=
  (exists Q, rep s Q) /\ cur_ok s /\ 0 <= boost_counter s < BOOST_INTERVAL.

(** No task waits in the two lower levels. *)
Definition lower_empty (s : sched) : Prop :=
  exists Q, rep s Q /\ Q (Level 2) = [] /\ Q (Level 3) = [].

Lemma tick_step s c :
  tick_ok s -> current_task s = Some c ->
  exists s' b, tick_locked c s = Some (s', b) /\ tick_ok s' /\
    if boost_counter s + 1 =? BOOST_INTERVAL then boost_counter s' = 0 /\ lower_empty s'
    else boost_counter s' = boost_counter s + 1.
Proof.
  intros ([Q Hrep] & Hcur & Hb) Hc.
  destruct (proj1 (wp_eq _ _ _) (tick_locked_ok s Q c Hrep Hcur Hc Hb)) as (s' & b & He & Hc' & _ & Hm).
  exists s', b. split; [done|]. unfold BOOST_INTERVAL in *. destruct (Z.eqb_spec (boost_counter s + 1) 50) as [E|E].
  - destruct Hm as [Hz Hr]. split; [split; [by eexists|split; [done|unfold BOOST_INTERVAL; lia]]|]. split; [done|].
    exists (boostq Q). split; [done|]. done.
  - destruct Hm as [Hbs Hr]. split; [|done]. split; [by eexists|]. split; [done|unfold BOOST_INTERVAL; lia].
Qed.


(** ** Instances *)

Definition demo_proc (pp : Z) : ProcMeta := mk_proc None 0 0 0 0 (replicate 13 0) 0 0 0 pp 0 0 None.
Definition demo_task (pid prio : Z) (st : TaskState) (nxt qnext proc : ptr) : TaskStruct :=
  mk_task 0 None pid st 0 nxt qnext prio 1 0 proc.

(** Task 1 runs, task 2 waits in the level of its priority. *)
Definition demo (prio2 : Z) : sched :=
  mk_sched {[1 := demo_task 1 1 Running (Some 2) None (Some 11); 2 := demo_task 2 prio2 Ready None None (Some 12)]}
    {[11 := demo_proc 0; 12 := demo_proc 0]}
    (<[prio_level prio2 := mk_queue (Some 2) (Some 2) 1]> (replicate 4 empty_queue)) empty_queue 0
    (Some 1) (Some 1) (Some 2) 3 (replicate 256 (mk_slot None 0)) 0 0 0 4096.

Definition demo_q (prio2 : Z) : qid -> list Z := qupd (fun _ => []) (Level (prio_level prio2)) [2].

Lemma demo_rep prio2 : rep (demo prio2) (demo_q prio2).
Proof.
  pose proof (prio_level_lt prio2). unfold demo_q. split; [cbn [queues demo]; by rewrite length_insert|].
  split; [|split; [|split; [|by vm_compute]]].
  - intros q v Hv. assert (Hq : lookup_queue q (demo prio2) =
      if decide (q = Level (prio_level prio2)) then Some (mk_queue (Some 2) (Some 2) 1)
      else match q with Level i => if decide (i < 4)%nat then Some empty_queue else None | SleepQ => Some empty_queue end).
    { destruct q as [i|]; [|done]. cbn [lookup_queue demo queues].
      destruct (decide (Level i = Level (prio_level prio2))) as [[= ->]|Hne]; [by rewrite list_lookup_insert_eq|].
      rewrite list_lookup_insert_ne by congruence. case_decide; [by apply lookup_replicate_2|].
      apply lookup_ge_None_2. rewrite length_replicate. lia. }
    rewrite Hq in Hv. unfold qupd. case_decide.
    + injection Hv as <-. split; [done|]. split; [done|]. split; [done|]. split; [by split|apply NoDup_singleton].
    + assert (v = empty_queue) as -> by (destruct q; [case_decide|]; congruence).
      split; [done|]. split; [done|]. split; [done|]. split; [done|apply NoDup_nil_2].
  - intros q Hq. unfold qupd. case_decide; [|done]. subst. cbn in Hq. rewrite list_lookup_insert_eq in Hq; [done|cbn; lia].
  - intros q1 q2 t. unfold qupd. by repeat case_decide; subst; intros ?%list_elem_of_In ?%list_elem_of_In.
Qed.



(** ** What the timer wheel does to the sleep queue *)

(** A task that is linked to itself and not due is looked at for ever. *)
Lemma self_link_diverges (fuel : nat) s t x p pm prev :
  tasks s !! t = Some x -> t_queue_next x = Some t -> t_proc x = Some p -> procs s !! p = Some pm ->
  (negb (p_sleep_until pm =? 0) && (p_sleep_until pm <=? current_tick s)) = false ->
  wake_loop fuel (current_tick s) prev (Some t) s = None.
Proof.
  intros Hx Hq Hp Hpm He. revert prev. induction fuel as [|fuel IH]; intros prev; [done|]. cbn [wake_loop].
  unfold get_task_proc, proc_of, get_task, get_proc, mbind, M_bind, gets, lift. cbn. rewrite Hx. cbn. rewrite Hx.
  cbn. rewrite Hp. cbn. rewrite Hpm. cbn. rewrite He. rewrite Hq. apply IH.
Qed.

(** C39: A task that sleeps twice stops the scheduler.  Task 1 sleeps for one
    tick, is woken by the timer wheel, runs and sleeps for ten ticks: the
    wheel made it ready without taking it off the sleep queue, so the second
    sleep links it to itself, and the next scan of the sleep queue, which
    every call of [schedule] makes under the scheduler lock, ends for no
    number of steps. *)
Theorem second_sleep_hangs :
  exists s w, (sched_sleep_ticks 1 ;; on_timer_tick ;; sched_sleep_ticks 10) (demo 1) = Some (s, w) /\
    q_head (sleep_queue s) = Some 1 /\ qn (tasks s) 1 = Some (Some 1) /\ current_task s = Some 2 /\
    forall fuel, wake_loop fuel (current_tick s) None (q_head (sleep_queue s)) s = None.
Proof.
  destruct ((sched_sleep_ticks 1 ;; on_timer_tick ;; sched_sleep_ticks 10) (demo 1)) as [[s w]|] eqn:E;
    [|by vm_compute in E].
  exists s, w. vm_compute in E. injection E as <- <-. split; [done|]. split; [done|]. split; [done|].
  split; [done|]. intros fuel. eapply self_link_diverges; [done|done|done|done|by vm_compute].
Qed.
