(* ===== verification/Sync.v ===== *)
(** * Locks: spinlock, sleeping mutex and counting semaphore

    Model of [kernel/sync/src/spinlock.rs], [mutex.rs], [semaphore.rs] and
    the scheduler calls of [sched_link.rs].

    The spinlock is a step relation over any number of contenders.  A mutex
    or semaphore call is split as the code is: the part under the guard
    spinlock is a function on the lock, and the scheduler calls around it
    work on the state of [Sched].  [mutex_lock] and [down] are loops that
    yield to the scheduler; a definition stands for one round, and a blocked
    task runs another round when the scheduler resumes it. *)
From S2P Require Import Prelude StateM Sched.

#[local] Open Scope Z_scope.

Definition MUTEX_WAIT_QUEUE_MAX : Z := 64.

(** ** Spinlock *)

(** A contender is outside, about to retry the exchange, watching the word
    until it is 0, or inside. *)
Inductive contender := Outside | Trying | Watching | Holding.
#[export] Instance contender_eq_dec : EqDecision contender.
Proof. solve_decision. Defined.

Record spin := mk_spin { sp_locked : Z; sp_pcs : list contender }.

Definition set_pc (i : nat) (c : contender) (l : list contender) : list contender := <[i := c]> l.

(** One atomic access of [acquire] or [release] by contender [i]. *)
Inductive spin_step : spin -> spin -> Prop :=
| spin_call v l i : l !! i = Some Outside -> spin_step (mk_spin v l) (mk_spin v (set_pc i Trying l))
| spin_cas_ok l i : l !! i = Some Trying -> spin_step (mk_spin 0 l) (mk_spin 1 (set_pc i Holding l))
| spin_cas_fail v l i : v <> 0 -> l !! i = Some Trying ->
    spin_step (mk_spin v l) (mk_spin v (set_pc i Watching l))
| spin_pause v l i : v <> 0 -> l !! i = Some Watching -> spin_step (mk_spin v l) (mk_spin v l)
| spin_seen_free l i : l !! i = Some Watching -> spin_step (mk_spin 0 l) (mk_spin 0 (set_pc i Trying l))
| spin_release v l i : l !! i = Some Holding -> spin_step (mk_spin v l) (mk_spin 0 (set_pc i Outside l)).

Definition spin_init (n : nat) : spin := mk_spin 0 (replicate n Outside).

(** [irq_spinlock_t] on the owning processor: the interrupt flag is bit 9 of
    EFLAGS. *)
Record irq_spinlock_t := mk_irq { iq_locked : Z; iq_saved_flags : Z }.

Definition IF_BIT : Z := 512.
Definition interrupts_disable (eflags : Z) : Z := Z.land eflags (Z.lnot IF_BIT).
Definition interrupts_enable (eflags : Z) : Z := Z.lor eflags IF_BIT.

(** [None] when the lock is taken: with interrupts off the one processor
    would spin for ever. *)
Definition irq_spinlock_acquire (l : irq_spinlock_t) (eflags : Z) : option (irq_spinlock_t * Z) :=
  let flags := eflags in
  let eflags := interrupts_disable eflags in
  if iq_locked l =? 0 then Some (mk_irq 1 flags, eflags) else None.

Definition irq_spinlock_release (l : irq_spinlock_t) (eflags : Z) : irq_spinlock_t * Z :=
  let flags := iq_saved_flags l in
  (mk_irq 0 (iq_saved_flags l),
   if negb (Z.land flags (Z.shiftl 1 9) =? 0) then interrupts_enable eflags else eflags).

Definition spin_lock_irqsave (locked : Z) (eflags : Z) : option (Z * Z * Z) :=
  let saved := eflags in
  if locked =? 0 then Some (1, saved, interrupts_disable eflags) else None.

Definition spin_unlock_irqrestore (flags eflags : Z) : Z * Z :=
  (0, if negb (Z.land flags (Z.shiftl 1 9) =? 0) then interrupts_enable eflags else eflags).

(** ** Mutex *)

Record mutex_t := mk_mutex {
  m_locked : Z; m_owner : ptr; m_waiters : list ptr; m_waiter_count : Z; m_recursion_count : Z
}.

Definition mutex_init : mutex_t :=
  mk_mutex 0 None (replicate (Z.to_nat MUTEX_WAIT_QUEUE_MAX) None) 0 0.

(** How a round of [mutex_lock] leaves the guarded section: with the lock,
    queued to sleep, or to try again. *)
Inductive lock_out := Acquired | MustSleep (t : Z) | Retry.

Definition lock_guarded (cur : ptr) (m : mutex_t) : option (mutex_t * lock_out) :=
  if bool_decide (m_owner m = cur) then
    r ← cadd (m_recursion_count m) 1;
    Some (mk_mutex (m_locked m) (m_owner m) (m_waiters m) (m_waiter_count m) r, Acquired)
  else if m_locked m =? 0 then
    Some (mk_mutex 1 cur (m_waiters m) (m_waiter_count m) 0, Acquired)
  else
    match cur with
    | Some c =>
        if m_waiter_count m <? MUTEX_WAIT_QUEUE_MAX then
          w ← st (m_waiters m) (m_waiter_count m) cur;
          Some (mk_mutex (m_locked m) (m_owner m) w (m_waiter_count m + 1) (m_recursion_count m),
                MustSleep c)
        else Some (m, Retry)
    | None => Some (m, Retry)
    end.

Definition mutex_trylock (cur : ptr) (m : mutex_t) : option (mutex_t * Z) :=
  if bool_decide (m_owner m = cur) then
    r ← cadd (m_recursion_count m) 1;
    Some (mk_mutex (m_locked m) (m_owner m) (m_waiters m) (m_waiter_count m) r, 0)
  else if m_locked m =? 0 then
    Some (mk_mutex 1 cur (m_waiters m) (m_waiter_count m) 0, 0)
  else Some (m, -1).

(** [for i in 1..count { waiters[i - 1] = waiters[i] }] *)
Fixpoint shift_waiters (n : nat) (i : Z) (w : list ptr) : option (list ptr) :=
  match n with
  | O => Some w
  | S n => x ← ld w i; w ← st w (i - 1) x; shift_waiters n (i + 1) w
  end.

(** How [mutex_unlock] leaves the guarded section: without more to do, or
    with a waiter to wake. *)
Inductive unlock_out := NotLocked | Released | StillHeld | Wake (woken : ptr).

Definition unlock_guarded (cur : ptr) (m : mutex_t) : option (mutex_t * unlock_out) :=
  if m_locked m =? 0 then Some (m, NotLocked)
  else if bool_decide (m_owner m = cur) && (0 <? m_recursion_count m) then
    Some (mk_mutex (m_locked m) (m_owner m) (m_waiters m) (m_waiter_count m) (m_recursion_count m - 1),
          StillHeld)
  else if 0 <? m_waiter_count m then
    woken ← ld (m_waiters m) 0;
    w ← shift_waiters (Z.to_nat (m_waiter_count m - 1)) 1 (m_waiters m);
    Some (mk_mutex (m_locked m) woken w (m_waiter_count m - 1) (m_recursion_count m), Wake woken)
  else Some (mk_mutex 0 None (m_waiters m) (m_waiter_count m) (m_recursion_count m), Released).

(** The scheduler calls of [sched_link.rs] for a woken task. *)
Definition wake_waiter (woken : ptr) : SM unit :=
  match woken with
  | None => skip
  | Some t =>
      x ← get_task t;
      if bool_decide (t_state x = Sleeping) then
        upd_task t (set_state Ready) ;;
        x ← get_task t;
        sched_mlfq_enqueue_locked (Some t) (t_priority x)
      else skip
  end.

Inductive lock_result := Locked | Slept (w : option switch) | Spun.

Definition mutex_lock_round (m : mutex_t) : SM (mutex_t * lock_result) :=
  cur ← gets current_task;
  '(m, out) ← lift (lock_guarded cur m);
  match out with
  | Acquired => mret (m, Locked)
  | MustSleep t => upd_task t (set_state Sleeping) ;; w ← schedule; mret (m, Slept w)
  | Retry => mret (m, Spun)
  end.

Definition mutex_unlock (m : mutex_t) : SM mutex_t :=
  cur ← gets current_task;
  '(m, out) ← lift (unlock_guarded cur m);
  match out with
  | Wake woken => wake_waiter woken ;; mret m
  | _ => mret m
  end.

(** ** Semaphore *)

Record semaphore_t := mk_sema { s_count : Z; s_waiters : list ptr; s_waiter_count : Z }.

Definition sema_init (val : Z) : semaphore_t :=
  mk_sema val (replicate (Z.to_nat MUTEX_WAIT_QUEUE_MAX) None) 0.

(** A round of [down], up to the yield.  The count is read, and decremented
    by the exchange, before the locks are taken; with the one processor the
    second reading under the locks sees the same value. *)
Definition down_guarded (cur : ptr) (s : semaphore_t) : option (semaphore_t * lock_out) :=
  if 0 <? s_count s then Some (mk_sema (s_count s - 1) (s_waiters s) (s_waiter_count s), Acquired)
  else
    match cur with
    | Some c =>
        if s_waiter_count s <? MUTEX_WAIT_QUEUE_MAX then
          w ← st (s_waiters s) (s_waiter_count s) cur;
          Some (mk_sema (s_count s) w (s_waiter_count s + 1), MustSleep c)
        else Some (s, Retry)
    | None => Some (s, Retry)
    end.

Definition up_guarded (s : semaphore_t) : option (semaphore_t * unlock_out) :=
  if 0 <? s_waiter_count s then
    woken ← ld (s_waiters s) 0;
    w ← shift_waiters (Z.to_nat (s_waiter_count s - 1)) 1 (s_waiters s);
    Some (mk_sema (s_count s) w (s_waiter_count s - 1), Wake woken)
  else Some (mk_sema (i32 (s_count s + 1)) (s_waiters s) (s_waiter_count s), Released).

Definition down_round (s : semaphore_t) : SM (semaphore_t * lock_result) :=
  cur ← gets current_task;
  '(s, out) ← lift (down_guarded cur s);
  match out with
  | Acquired => mret (s, Locked)
  | MustSleep t => upd_task t (set_state Sleeping) ;; w ← schedule; mret (s, Slept w)
  | Retry => mret (s, Spun)
  end.

Definition up (s : semaphore_t) : SM semaphore_t :=
  '(s, out) ← lift (up_guarded s);
  match out with
  | Wake woken => wake_waiter woken ;; mret s
  | _ => mret s
  end.

(** ** The spinlock excludes *)

Definition spin_inv (s : spin) : Prop :=
  (sp_locked s = 0 /\ forall i, sp_pcs s !! i <> Some Holding) \/
  (sp_locked s = 1 /\ exists i, sp_pcs s !! i = Some Holding /\
     forall j, sp_pcs s !! j = Some Holding -> j = i).

Lemma set_pc_lookup l i c c' j :
  l !! i = Some c' -> set_pc i c l !! j = if decide (j = i) then Some c else l !! j.
Proof.
  intros Hi. unfold set_pc. case_decide as E; [subst|by rewrite list_lookup_insert_ne].
  apply list_lookup_insert_eq. by eapply lookup_lt_Some.
Qed.

Lemma set_pc_same_holders l i c c' :
  l !! i = Some c' -> c <> Holding -> c' <> Holding ->
  forall j, set_pc i c l !! j = Some Holding <-> l !! j = Some Holding.
Proof.
  intros Hi Hc Hc' j. rewrite (set_pc_lookup l i c c' j Hi). case_decide as E; [subst|done].
  rewrite Hi. split; congruence.
Qed.

Lemma spin_inv_same v l l' :
  (forall j, l' !! j = Some Holding <-> l !! j = Some Holding) -> spin_inv (mk_spin v l) -> spin_inv (mk_spin v l').
Proof.
  intros Hl [[H1 H2]|(H1 & i & H2 & H3)]; cbn in *; [left|right].
  - split; [done|]. intros i Hi. by apply (H2 i), Hl.
  - split; [done|]. exists i. cbn. split; [by apply Hl|]. intros j Hj. by apply H3, Hl.
Qed.

Lemma spin_step_inv s s' : spin_step s s' -> spin_inv s -> spin_inv s'.
Proof.
  intros Hs Hinv. destruct Hs as [v l i Hi|l i Hi|v l i Hv Hi|v l i Hv Hi|l i Hi|v l i Hi]; try done.
  - eapply spin_inv_same; [|exact Hinv]. by apply (set_pc_same_holders l i Trying Outside).
  - destruct Hinv as [[_ Hno]|[? _]]; [|done]. right. split; [done|]. exists i. cbn in *.
    rewrite (set_pc_lookup l i Holding Trying) by done. rewrite decide_True by done. split; [done|].
    intros j. rewrite (set_pc_lookup l i Holding Trying) by done. case_decide; [done|]. intros Hj. by apply Hno in Hj.
  - eapply spin_inv_same; [|exact Hinv]. by apply (set_pc_same_holders l i Watching Trying).
  - eapply spin_inv_same; [|exact Hinv]. by apply (set_pc_same_holders l i Trying Watching).
  - destruct Hinv as [[_ Hno]|(_ & k & Hk & Huniq)]; [by apply Hno in Hi|]. left. split; [done|]. cbn in *.
    intros j. rewrite (set_pc_lookup l i Outside Holding) by done. case_decide as E; [done|]. intros Hj.
    apply E. rewrite (Huniq j Hj). symmetry. by apply Huniq.
Qed.

Lemma spin_reach_inv n s : rtc spin_step (spin_init n) s -> spin_inv s.
Proof.
  intros Hr. remember (spin_init n) as s0 eqn:E. assert (H0 : spin_inv s0).
  { subst. left. split; [done|]. cbn. intros i Hi. apply lookup_replicate in Hi as [? _]. done. }
  clear E. induction Hr as [|x y z Hxy _ IH]; [done|]. apply IH. by eapply spin_step_inv.
Qed.

(** A spinlock has one holder.  However the atomic accesses of any number
    of contenders interleave, at most one of them is inside, and the word is 0
    exactly when nobody is: a waiter then sees it and can enter. *)
Theorem spin_mutual_exclusion n s :
  rtc spin_step (spin_init n) s ->
  (forall i j, sp_pcs s !! i = Some Holding -> sp_pcs s !! j = Some Holding -> i = j) /\
  (sp_locked s = 0 <-> forall i, sp_pcs s !! i <> Some Holding).
Proof.
  intros Hr. destruct (spin_reach_inv n s Hr) as [[H1 H2]|(H1 & k & H2 & H3)].
  - split; [|done]. intros i j Hi. by apply H2 in Hi.
  - split; [intros i j Hi Hj; by rewrite (H3 i Hi), (H3 j Hj)|]. split; [lia|]. intros Hno. by apply Hno in H2.
Qed.

Lemma spin_mutual_exclusion_witness :
  let s := mk_spin 1 [Holding; Trying] in
  (forall i j, sp_pcs s !! i = Some Holding -> sp_pcs s !! j = Some Holding -> i = j) /\
  (sp_locked s = 0 <-> forall i, sp_pcs s !! i <> Some Holding).
Proof.
  apply (spin_mutual_exclusion 2).
  eapply rtc_l; [by apply (spin_call 0 [Outside; Outside] 0)|].
  eapply rtc_l; [by apply (spin_call 0 [Trying; Outside] 1)|].
  eapply rtc_l; [by apply (spin_cas_ok [Trying; Trying] 0)|]. apply rtc_refl.
Defined.

(** ** The waiting list *)

(** The tasks that wait, in order. *)
Definition waiting (w : list ptr) (n : Z) : list ptr := take (Z.to_nat n) w.

Lemma shift_ok (n : nat) i (w : list ptr) :
  1 <= i -> i + Z.of_nat n <= zlen w ->
  exists w', shift_waiters n i w = Some w' /\ zlen w' = zlen w /\
    forall j, 0 <= j -> ld w' j = if (i - 1 <=? j) && (j <? i - 1 + Z.of_nat n) then ld w (j + 1) else ld w j.
Proof.
  revert i w. induction n as [|n IH]; intros i w Hi Hn; cbn [shift_waiters].
  { exists w. split; [done|]. split; [done|]. intros j Hj. case_ifs; [lia|done]. }
  destruct (ld_in w i) as [x Hx]; [lia|]. rewrite Hx. ob. destruct (st_some w (i - 1) x) as [w1 Hw1]; [lia|].
  rewrite Hw1. ob. pose proof (zlen_st _ _ _ _ Hw1) as Hz.
  destruct (IH (i + 1) w1) as (w' & -> & Hl & Hw'); [lia|lia|]. exists w'. split; [done|]. split; [lia|].
  intros j Hj. rewrite Hw' by lia. destruct (Z.eq_dec j (i - 1)) as [->|Hne].
  - rewrite (proj2 (Z.leb_gt (i + 1 - 1) (i - 1))) by lia. cbn [andb].
    rewrite (proj2 (Z.leb_le (i - 1) (i - 1))), (proj2 (Z.ltb_lt (i - 1) _)) by lia. cbn [andb].
    rewrite (ld_st_eq _ _ _ _ Hw1). by replace (i - 1 + 1) with i by lia.
  - replace ((i + 1 - 1 <=? j) && (j <? i + 1 - 1 + Z.of_nat n)) with
      ((i - 1 <=? j) && (j <? i - 1 + Z.of_nat (S n))) by lia.
    case_if; b2p; [apply (ld_st_ne _ _ (j + 1) _ _ Hw1)|apply (ld_st_ne _ _ j _ _ Hw1)]; lia.
Qed.

Lemma waiting_shift (w : list ptr) n x l :
  0 <= n <= zlen w -> waiting w n = x :: l ->
  exists w', ld w 0 = Some x /\ shift_waiters (Z.to_nat (n - 1)) 1 w = Some w' /\ zlen w' = zlen w /\
    waiting w' (n - 1) = l.
Proof.
  intros Hn Hw. assert (H1 : 1 <= n).
  { destruct (Z.eq_dec n 0) as [->|]; [done|lia]. }
  destruct (shift_ok (Z.to_nat (n - 1)) 1 w) as (w' & Hs & Hl & Hld); [lia|lia|]. exists w'.
  assert (Hall : forall j, ld (x :: l) j = if j <? n then ld w j else None).
  { intros j. rewrite <- Hw. unfold waiting, ld. case_ifs; try done.
    - apply lookup_take_lt. lia.
    - apply lookup_take_ge. lia. }
  split; [|split; [done|split; [done|]]].
  { specialize (Hall 0). by rewrite (proj2 (Z.ltb_lt 0 n)) in Hall by lia. }
  apply ld_ext.
  - unfold waiting, zlen in *. rewrite length_take. apply (f_equal length) in Hw. rewrite length_take in Hw. cbn in Hw. lia.
  - intros j Hj. assert (Hj' : j < n - 1).
    { unfold waiting, zlen in Hj. rewrite length_take in Hj. lia. }
    unfold waiting. rewrite ld_nonneg by lia. rewrite lookup_take_lt by lia. rewrite <- ld_nonneg by lia.
    rewrite Hld by lia. replace ((1 - 1 <=? j) && (j <? 1 - 1 + Z.of_nat (Z.to_nat (n - 1)))) with true by lia.
    transitivity (ld (x :: l) (j + 1)); [rewrite Hall; by rewrite (proj2 (Z.ltb_lt (j + 1) n)) by lia|].
    rewrite !ld_nonneg by lia. by replace (Z.to_nat (j + 1)) with (S (Z.to_nat j)) by lia.
Qed.

Lemma waiting_add (w w' : list ptr) n x :
  0 <= n < zlen w -> st w n x = Some w' -> waiting w' (n + 1) = waiting w n ++ [x] /\ zlen w' = zlen w.
Proof.
  intros Hn Hs. pose proof (zlen_st _ _ _ _ Hs) as Hz. split; [|done]. apply st_inv in Hs as [_ ->]. unfold waiting.
  replace (Z.to_nat (n + 1)) with (S (Z.to_nat n)) by lia.
  rewrite (take_S_r _ _ x) by (apply list_lookup_insert_eq; unfold zlen in Hn; lia).
  by rewrite take_insert_ge by lia.
Qed.

(** ** The mutex excludes *)

(** Every task's number of locks taken and not yet given back. *)
Definition depths := Z -> Z.
Definition set_depth (t v : Z) (d : depths) : depths := fun u => if u =? t then v else d u.

(** Calls of the running tasks, in any order.  A task unlocks only what it
    has locked. *)
Inductive mutex_step : mutex_t * depths -> mutex_t * depths -> Prop :=
| step_lock t m m' d : lock_guarded (Some t) m = Some (m', Acquired) ->
    mutex_step (m, d) (m', set_depth t (d t + 1) d)
| step_block t m m' u d : lock_guarded (Some t) m = Some (m', MustSleep u) -> mutex_step (m, d) (m', d)
| step_retry t m m' d : lock_guarded (Some t) m = Some (m', Retry) -> mutex_step (m, d) (m', d)
| step_try_ok t m m' d : mutex_trylock (Some t) m = Some (m', 0) ->
    mutex_step (m, d) (m', set_depth t (d t + 1) d)
| step_try_fail t m m' d : mutex_trylock (Some t) m = Some (m', -1) -> mutex_step (m, d) (m', d)
| step_unlock t m m' o d : 0 < d t -> unlock_guarded (Some t) m = Some (m', o) ->
    mutex_step (m, d) (m', set_depth t (d t - 1) d).

Definition waiters_ok (w : list ptr) (n : Z) : Prop :=
  zlen w = MUTEX_WAIT_QUEUE_MAX /\ 0 <= n <= MUTEX_WAIT_QUEUE_MAX /\ Forall (fun p => p <> None) (waiting w n).

Definition mutex_inv (md : mutex_t * depths) : Prop :=
  let '(m, d) := md in
  waiters_ok (m_waiters m) (m_waiter_count m) /\ 0 <= m_recursion_count m /\
  ((m_locked m = 0 /\ m_owner m = None /\ forall t, d t = 0) \/
   (m_locked m = 1 /\ exists o, m_owner m = Some o /\ 0 <= d o <= m_recursion_count m + 1 /\
      forall t, t <> o -> d t = 0)).

Lemma waiters_add w n w' t :
  waiters_ok w n -> n < MUTEX_WAIT_QUEUE_MAX -> st w n (Some t) = Some w' -> waiters_ok w' (n + 1).
Proof.
  intros (Hl & Hn & Hf) Hlt Hs. destruct (waiting_add w w' n (Some t)) as [Hw Hz]; [lia|done|].
  split; [lia|]. split; [lia|]. rewrite Hw. apply Forall_app_2; [done|]. by constructor.
Qed.

Lemma waiters_pop w n :
  waiters_ok w n -> 0 < n -> exists t w', ld w 0 = Some (Some t) /\
    shift_waiters (Z.to_nat (n - 1)) 1 w = Some w' /\ waiters_ok w' (n - 1) /\
    waiting w n = Some t :: waiting w' (n - 1).
Proof.
  intros (Hl & Hn & Hf) H0. destruct (waiting w n) as [|x l] eqn:E.
  { exfalso. apply (f_equal length) in E. unfold waiting in E. rewrite length_take in E.
    unfold zlen, MUTEX_WAIT_QUEUE_MAX in *. cbn in E. lia. }
  destruct (waiting_shift w n x l) as (w' & H1 & H2 & H3 & H4); [lia|done|].
  apply Forall_cons_1 in Hf as [Hx Hf]. destruct x as [t|]; [|done]. exists t, w'. rewrite H4.
  split; [done|]. split; [done|]. split; [|done]. split; [lia|]. split; [lia|]. by rewrite H4.
Qed.

(** Taking the lock, by [mutex_lock] or [mutex_trylock]. *)
Lemma acquire_inv t m d r :
  mutex_inv (m, d) ->
  (m_owner m = Some t /\ r = mk_mutex (m_locked m) (m_owner m) (m_waiters m) (m_waiter_count m) (m_recursion_count m + 1)) \/
  (m_owner m <> Some t /\ m_locked m = 0 /\ r = mk_mutex 1 (Some t) (m_waiters m) (m_waiter_count m) 0) ->
  mutex_inv (r, set_depth t (d t + 1) d).
Proof.
  intros (Hw & Hr & Hs) [[Ho ->]|(Ho & Hl & ->)]; (split; [done|]); cbn; (split; [lia|]); right.
  - destruct Hs as [(_ & Hn & _)|(Hl & o & Ho' & Hd & Hoth)]; [congruence|]. rewrite Ho in Ho'. injection Ho' as <-.
    split; [done|]. exists t. split; [done|]. unfold set_depth. rewrite Z.eqb_refl. split; [lia|].
    intros u Hu. rewrite (proj2 (Z.eqb_neq u t)) by done. by apply Hoth.
  - destruct Hs as [(_ & _ & Hd)|(Hl' & _)]; [|lia]. split; [done|]. exists t. split; [done|].
    unfold set_depth. rewrite Z.eqb_refl, Hd. split; [lia|]. intros u Hu. by rewrite (proj2 (Z.eqb_neq u t)).
Qed.

Lemma lock_cases t m m' o :
  lock_guarded (Some t) m = Some (m', o) ->
  match o with
  | Acquired =>
      (m_owner m = Some t /\ m' = mk_mutex (m_locked m) (m_owner m) (m_waiters m) (m_waiter_count m) (m_recursion_count m + 1)) \/
      (m_owner m <> Some t /\ m_locked m = 0 /\ m' = mk_mutex 1 (Some t) (m_waiters m) (m_waiter_count m) 0)
  | MustSleep u => u = t /\ m_waiter_count m < MUTEX_WAIT_QUEUE_MAX /\ exists w,
      st (m_waiters m) (m_waiter_count m) (Some t) = Some w /\
      m' = mk_mutex (m_locked m) (m_owner m) w (m_waiter_count m + 1) (m_recursion_count m)
  | Retry => m' = m
  end.
Proof.
  unfold lock_guarded, cadd. case_bool_decide as Ho.
  - case_if; [|done]. ob. intros [= <- <-]. by left.
  - case_if; b2p; [intros [= <- <-]; by right|]. case_if; b2p; [|by intros [= <- <-]].
    destruct (st _ _ _) as [w|] eqn:E; [|done]. ob. intros [= <- <-]. split; [done|]. split; [done|]. by exists w.
Qed.

Lemma unlock_inv t m m' o d :
  mutex_inv (m, d) -> 0 < d t -> unlock_guarded (Some t) m = Some (m', o) -> mutex_inv (m', set_depth t (d t - 1) d).
Proof.
  intros (Hw & Hr & Hs) Ht. destruct Hs as [(_ & _ & Hd)|(Hl & u & Ho & Hd & Hoth)]; [rewrite Hd in Ht; lia|].
  assert (u = t) as -> by (destruct (Z.eq_dec u t); [done|]; rewrite Hoth in Ht by congruence; lia).
  unfold unlock_guarded. rewrite Hl, Ho. cbn [Z.eqb]. rewrite bool_decide_eq_true_2 by done. cbn [andb].
  assert (Hz : forall v, v <> t -> set_depth t (d t - 1) d v = 0).
  { intros v Hv. unfold set_depth. rewrite (proj2 (Z.eqb_neq v t)) by done. by apply Hoth. }
  assert (Hst : set_depth t (d t - 1) d t = d t - 1) by (unfold set_depth; by rewrite Z.eqb_refl).
  destruct (Z.ltb_spec 0 (m_recursion_count m)) as [Hrec|Hrec].
  { intros [= <- _]. split; [done|]. cbn. split; [lia|]. right. split; [done|]. exists t. split; [done|].
    rewrite Hst. split; [lia|done]. }
  assert (Hall : forall v, set_depth t (d t - 1) d v = 0) by (intros v; destruct (Z.eq_dec v t) as [->|]; [lia|by apply Hz]).
  destruct (Z.ltb_spec 0 (m_waiter_count m)) as [Hc|Hc].
  - destruct (waiters_pop _ _ Hw Hc) as (b & w' & -> & Hsh & Hw' & _). ob. rewrite Hsh. ob. intros [= <- _].
    split; [done|]. cbn. split; [done|]. right. split; [done|]. exists b. split; [done|]. rewrite Hall.
    split; [lia|]. intros v _. apply Hall.
  - intros [= <- _]. split; [done|]. cbn. split; [done|]. by left.
Qed.

Lemma mutex_step_inv md md' : mutex_step md md' -> mutex_inv md -> mutex_inv md'.
Proof.
  intros Hs Hi. destruct Hs as [t m m' d H|t m m' u d H|t m m' d H|t m m' d H|t m m' d H|t m m' o d Ht H].
  - apply lock_cases in H. by apply (acquire_inv t m).
  - apply lock_cases in H as (-> & Hlt & w & Hst & ->). destruct Hi as (Hw & Hi). split; [by eapply waiters_add|done].
  - by apply lock_cases in H as ->.
  - unfold mutex_trylock in H. apply (acquire_inv t m _ _ Hi). case_bool_decide.
    + unfold cadd in H. destruct (_ <? _) in H; [|done]. cbn in H. injection H as <-. by left.
    + destruct (Z.eqb_spec (m_locked m) 0); [|done]. injection H as <-. by right.
  - unfold mutex_trylock in H. case_bool_decide.
    + unfold cadd in H. destruct (_ <? _) in H; [|done]. done.
    + destruct (Z.eqb_spec (m_locked m) 0); [done|]. by injection H as <-.
  - by eapply unlock_inv.
Qed.

Lemma mutex_reach_inv md : rtc mutex_step (mutex_init, fun _ => 0) md -> mutex_inv md.
Proof.
  intros Hr. remember (mutex_init, fun _ : Z => 0) as md0 eqn:E. assert (H0 : mutex_inv md0).
  { subst. split; [|split; [done|by left]]. split; [done|]. split; [done|]. constructor. }
  clear E. induction Hr as [|x y z Hxy _ IH]; [done|]. apply IH. by eapply mutex_step_inv.
Qed.

(** C27: the mutex excludes.  However the lock, trylock and unlock calls of
    the tasks interleave, if every task unlocks only what it has locked then
    no two tasks are inside the mutex at the same time, recursion and
    hand-over to a waiter included; an unlock by the holder never fails and
    never indexes outside the waiting list. *)
Theorem mutex_mutual_exclusion m d :
  rtc mutex_step (mutex_init, fun _ => 0) (m, d) ->
  (forall t u, 0 < d t -> 0 < d u -> t = u) /\
  (forall t, 0 < d t -> m_owner m = Some t /\ m_locked m = 1 /\ is_Some (unlock_guarded (Some t) m)).
Proof.
  intros Hr. destruct (mutex_reach_inv _ Hr) as (Hw & Hrec & [(_ & _ & Hd)|(Hl & o & Ho & Hd & Hoth)]).
  - split; intros t; rewrite Hd; lia.
  - assert (Howner : forall t, 0 < d t -> t = o).
    { intros t Ht. destruct (Z.eq_dec t o); [done|]. rewrite Hoth in Ht by done. lia. }
    split; [intros t u Ht Hu; by rewrite (Howner t Ht), (Howner u Hu)|].
    intros t Ht. rewrite (Howner t Ht). split; [done|]. split; [done|]. unfold unlock_guarded. rewrite Hl. cbn [Z.eqb].
    case_if; [by eexists|]. destruct (Z.ltb_spec 0 (m_waiter_count m)) as [Hc|Hc]; [|by eexists].
    destruct (waiters_pop _ _ Hw Hc) as (b & w' & -> & -> & _). by eexists.
Qed.

Lemma mutex_mutual_exclusion_witness :
  exists m d, rtc mutex_step (mutex_init, fun _ => 0) (m, d) /\ 0 < d 7 /\
    (forall t u, 0 < d t -> 0 < d u -> t = u) /\
    (forall t, 0 < d t -> m_owner m = Some t /\ m_locked m = 1 /\ is_Some (unlock_guarded (Some t) m)).
Proof.
  assert (Hr : rtc mutex_step (mutex_init, fun _ => 0)
    (mk_mutex 1 (Some 7) (m_waiters mutex_init) 0 0, set_depth 7 1 (fun _ => 0))).
  { eapply rtc_l; [by apply (step_lock 7 mutex_init (mk_mutex 1 (Some 7) (m_waiters mutex_init) 0 0) (fun _ => 0))|].
    apply rtc_refl. }
  eexists _, _. split; [exact Hr|]. split; [done|]. apply (mutex_mutual_exclusion _ _ Hr).
Defined.

(** ** Handing over *)

(** C40: A mutex that was handed over is never released.  A holder unlocks
    while [b] waits: the code makes [b] the owner, so [b]'s next round of
    [mutex_lock] takes the branch for recursive locking and leaves the
    recursion count at 1; when [b] unlocks, that count goes back to 0 and
    the mutex stays locked with [b] as owner, and no other task can take
    it. *)
Theorem mutex_handover_stuck a b l m :
  m_locked m = 1 -> m_owner m = Some a -> m_recursion_count m = 0 ->
  waiters_ok (m_waiters m) (m_waiter_count m) -> waiting (m_waiters m) (m_waiter_count m) = Some b :: l ->
  exists m1 m2 m3,
    unlock_guarded (Some a) m = Some (m1, Wake (Some b)) /\
    lock_guarded (Some b) m1 = Some (m2, Acquired) /\
    unlock_guarded (Some b) m2 = Some (m3, StillHeld) /\
    m_locked m3 = 1 /\ m_owner m3 = Some b /\ waiting (m_waiters m3) (m_waiter_count m3) = l /\
    forall c, c <> b -> mutex_trylock (Some c) m3 = Some (m3, -1).
Proof.
  intros Hl Ho Hr Hw Hwait. assert (Hc : 0 < m_waiter_count m).
  { destruct (Z.ltb_spec 0 (m_waiter_count m)); [done|]. exfalso. unfold waiting in Hwait.
    by replace (Z.to_nat (m_waiter_count m)) with 0%nat in Hwait by lia. }
  destruct (waiters_pop _ _ Hw Hc) as (b' & w' & H0 & Hsh & _ & Hpop). rewrite Hwait in Hpop. injection Hpop as <- Hl'.
  unfold unlock_guarded at 1. rewrite Hl, Ho, Hr, H0. cbn [Z.eqb Z.ltb Z.compare]. rewrite andb_false_r.
  rewrite (proj2 (Z.ltb_lt _ _)) by done. ob. rewrite Hsh. ob. eexists _, _, _. split; [done|].
  unfold lock_guarded. cbn [m_owner m_recursion_count m_locked m_waiters m_waiter_count].
  rewrite bool_decide_eq_true_2 by done. split; [done|].
  unfold unlock_guarded. cbn [m_owner m_recursion_count m_locked m_waiters m_waiter_count Z.eqb].
  rewrite bool_decide_eq_true_2 by done. split; [done|]. split; [done|]. split; [done|]. split; [done|].
  intros c Hcb. unfold mutex_trylock. cbn [m_owner m_locked Z.eqb].
  by rewrite bool_decide_eq_false_2 by congruence.
Qed.

Lemma mutex_handover_stuck_witness :
  let m := mk_mutex 1 (Some 1) (Some 2 :: replicate 63 None) 1 0 in
  exists m1 m2 m3,
    unlock_guarded (Some 1) m = Some (m1, Wake (Some 2)) /\ lock_guarded (Some 2) m1 = Some (m2, Acquired) /\
    unlock_guarded (Some 2) m2 = Some (m3, StillHeld) /\ m_locked m3 = 1 /\ m_owner m3 = Some 2 /\
    waiting (m_waiters m3) (m_waiter_count m3) = [] /\
    forall c, c <> 2 -> mutex_trylock (Some c) m3 = Some (m3, -1).
Proof.
  cbv zeta. apply (mutex_handover_stuck 1 2 []); try done. split; [done|]. split; [done|]. by repeat constructor.
Defined.

(** A semaphore wakes its waiters in vain.  With a task [b] waiting, [up]
    takes it off the list without raising the count; the round of [down] that
    [b] then runs finds the count unchanged and puts [b] at the end of the
    list again.  After the pair of calls nobody has got through: the same
    tasks wait and the count is what it was. *)
Theorem sema_up_admits_nobody b l s :
  s_count s <= 0 -> waiters_ok (s_waiters s) (s_waiter_count s) ->
  waiting (s_waiters s) (s_waiter_count s) = Some b :: l ->
  exists s1 s2,
    up_guarded s = Some (s1, Wake (Some b)) /\ down_guarded (Some b) s1 = Some (s2, MustSleep b) /\
    s_count s2 = s_count s /\ s_waiter_count s2 = s_waiter_count s /\
    waiters_ok (s_waiters s2) (s_waiter_count s2) /\
    waiting (s_waiters s2) (s_waiter_count s2) = l ++ [Some b].
Proof.
  intros H0 Hw Hwait. assert (Hc : 0 < s_waiter_count s).
  { destruct (Z.ltb_spec 0 (s_waiter_count s)); [done|]. exfalso. unfold waiting in Hwait.
    by replace (Z.to_nat (s_waiter_count s)) with 0%nat in Hwait by lia. }
  destruct (waiters_pop _ _ Hw Hc) as (b' & w' & Hld & Hsh & Hw' & Hpop). rewrite Hwait in Hpop. injection Hpop as <- Hl'.
  unfold up_guarded. rewrite (proj2 (Z.ltb_lt _ _)) by done. rewrite Hld. ob. rewrite Hsh. ob. eexists _.
  pose proof Hw as (Hz & Hn & _). pose proof Hw' as (Hz' & _ & _).
  destruct (st_some w' (s_waiter_count s - 1) (Some b)) as [w2 Hw2]; [unfold MUTEX_WAIT_QUEUE_MAX in *; lia|].
  destruct (waiting_add w' w2 (s_waiter_count s - 1) (Some b)) as [Hwa _]; [unfold MUTEX_WAIT_QUEUE_MAX in *; lia|done|].
  exists (mk_sema (s_count s) w2 (s_waiter_count s - 1 + 1)). split; [done|]. split.
  { unfold down_guarded. cbn [s_count s_waiters s_waiter_count]. rewrite (proj2 (Z.ltb_ge 0 _)) by done.
    rewrite (proj2 (Z.ltb_lt _ MUTEX_WAIT_QUEUE_MAX)) by lia. by rewrite Hw2. }
  cbn [s_count s_waiters s_waiter_count]. split; [done|]. split; [lia|]. rewrite Hl'. split; [|done].
  eapply waiters_add; [exact Hw'|lia|done].
Qed.

Lemma sema_up_admits_nobody_witness :
  let s := mk_sema 0 (Some 5 :: replicate 63 None) 1 in
  exists s1 s2,
    up_guarded s = Some (s1, Wake (Some 5)) /\ down_guarded (Some 5) s1 = Some (s2, MustSleep 5) /\
    s_count s2 = 0 /\ s_waiter_count s2 = 1 /\ waiters_ok (s_waiters s2) (s_waiter_count s2) /\
    waiting (s_waiters s2) (s_waiter_count s2) = [] ++ [Some 5].
Proof.
  cbv zeta. apply (sema_up_admits_nobody 5 [] (mk_sema 0 (Some 5 :: replicate 63 None) 1)); try done.
  split; [done|]. split; [done|]. by repeat constructor.
Defined.

(** Leaving an interrupt-safe lock restores the interrupt flag.  Taking
    the lock switches interrupts off; releasing it brings the flag back to
    what it was before, and touches no other flag, also when locks are
    nested. *)
Theorem irq_lock_restores_flag l eflags l' e' :
  irq_spinlock_acquire l eflags = Some (l', e') -> 0 <= eflags ->
  Z.testbit e' 9 = false /\ iq_locked l' = 1 /\ snd (irq_spinlock_release l' e') = eflags.
Proof.
  unfold irq_spinlock_acquire, irq_spinlock_release. destruct (Z.eqb_spec (iq_locked l) 0); [|done].
  intros [= <- <-] He. cbn [iq_saved_flags iq_locked snd]. change (Z.shiftl 1 9) with (2 ^ 9).
  unfold interrupts_disable, interrupts_enable, IF_BIT. change 512 with (2 ^ 9).
  split; [rewrite Z.land_spec, Z.lnot_spec, Z.pow2_bits_true by lia; apply andb_false_r|]. split; [done|].
  assert (Hbit : (Z.land eflags (2 ^ 9) =? 0) = negb (Z.testbit eflags 9)).
  { destruct (Z.testbit eflags 9) eqn:E; cbn [negb].
    - apply Z.eqb_neq. intros Hz. assert (H : Z.testbit (Z.land eflags (2 ^ 9)) 9 = true).
      { by rewrite Z.land_spec, E, Z.pow2_bits_true by lia. }
      rewrite Hz in H. by rewrite Z.bits_0 in H.
    - apply Z.eqb_eq. apply Z.bits_inj'. intros n Hn. rewrite Z.land_spec, Z.bits_0.
      destruct (Z.eq_dec n 9) as [->|Hne]; [by rewrite E|]. rewrite Z.pow2_bits_false by done. apply andb_false_r. }
  rewrite Hbit, negb_involutive. apply Z.bits_inj'. intros n Hn. destruct (Z.testbit eflags 9) eqn:E.
  - rewrite Z.lor_spec, Z.land_spec, Z.lnot_spec by done. destruct (Z.eq_dec n 9) as [->|Hne].
    + by rewrite E, Z.pow2_bits_true by lia.
    + rewrite Z.pow2_bits_false by done. cbn [negb]. by rewrite andb_true_r, orb_false_r.
  - rewrite Z.land_spec, Z.lnot_spec by done. destruct (Z.eq_dec n 9) as [->|Hne]; [by rewrite E|].
    rewrite Z.pow2_bits_false by done. cbn [negb]. apply andb_true_r.
Qed.

Lemma irq_lock_restores_flag_witness :
  Z.testbit 2 9 = false /\ 1 = 1 /\ snd (irq_spinlock_release (mk_irq 1 514) 2) = 514.
Proof. apply (irq_lock_restores_flag (mk_irq 0 0) 514 (mk_irq 1 514) 2); [reflexivity|lia]. Defined.
