(* ===== verification/Pmm.v ===== *)
(** * The physical page allocator

    Model of [kernel/memory/rust_mm/src/pmm.rs] with the constants of
    [ffi.rs].  The two static arrays are functions from the index; an access
    beyond the array, which panics in Rust, has no result.  The crate is
    built without overflow checks, so arithmetic on [u32] wraps.  The page
    lock makes every operation atomic and is not part of the state.

    Swapping out and killing a process, which [kalloc] calls when no page is
    left, belong to other modules and are the interface [Reclaim]. *)
From S2P Require Import Prelude.

#[local] Open Scope Z_scope.

Definition PAGE_SIZE : Z := 4096.
Definition PCI_HOLE_START : Z := 3221225472.
Definition TOTAL_PAGES : Z := PCI_HOLE_START / PAGE_SIZE.
Definition BITMAP_SIZE : Z := TOTAL_PAGES / 8.
Definition HEAP_START : Z := 33554432.
Definition HEAP_SIZE : Z := 16777216.
Definition RESERVED_END : Z := 33554432.
Definition MB2_MMAP_MAX_ENTRIES : Z := 128.
Definition MB2_MMAP_TYPE_AVAILABLE : Z := 1.
Definition MAX_RECLAIM_ROUNDS : nat := 4.

Record Mb2MmapFlat := mk_flat { e_base : Z; e_len : Z; e_ty : Z }.

Record pmm := mk_pmm {
  bitmap : Z -> Z; refcounts : Z -> Z; first_available : Z; mmap_table : list Mb2MmapFlat
}.

Definition fupd (f : Z -> Z) (i v : Z) : Z -> Z := fun j => if j =? i then v else f j.

(** [bm[(idx / 8)]] of an array of [BITMAP_SIZE] bytes. *)
Definition bm_get (bm : Z -> Z) (i : Z) : option Z :=
  if (0 <=? i) && (i <? BITMAP_SIZE) then Some (bm i) else None.

Definition bitmap_set (idx : Z) (bm : Z -> Z) : option (Z -> Z) :=
  b ← bm_get bm (idx / 8); Some (fupd bm (idx / 8) (Z.lor b (Z.shiftl 1 (idx mod 8)))).

Definition bitmap_clear (idx : Z) (bm : Z -> Z) : option (Z -> Z) :=
  b ← bm_get bm (idx / 8); Some (fupd bm (idx / 8) (Z.land b (Z.lnot (Z.shiftl 1 (idx mod 8))))).

Definition bitmap_test (idx : Z) (bm : Z -> Z) : option bool :=
  b ← bm_get bm (idx / 8); Some (negb (Z.land b (Z.shiftl 1 (idx mod 8)) =? 0)).

Definition addr_to_page (addr : Z) : Z := addr / PAGE_SIZE.
Definition page_to_addr (idx : Z) : Z := u32 (idx * PAGE_SIZE).

(** ** The memory map *)

Definition sat_add64 (a b : Z) : Z := Z.min (a + b) (2 ^ 64 - 1).

Definition clip_entry (e : Mb2MmapFlat) : Mb2MmapFlat :=
  if negb (e_len e =? 0) then
    let en := sat_add64 (e_base e) (e_len e) in
    if PCI_HOLE_START <=? e_base e then mk_flat (e_base e) 0 (e_ty e)
    else if PCI_HOLE_START <? en then mk_flat (e_base e) (PCI_HOLE_START - e_base e) (e_ty e)
    else e
  else e.

(** [src] lists the 128 entries of the loader's table; the entries in use of
    our table are the result. *)
Definition pmm_init_from_mmap (src : option (list Mb2MmapFlat * Z)) (s : pmm) : pmm :=
  match src with
  | None => s
  | Some (entries, count) =>
      let count := Z.min count MB2_MMAP_MAX_ENTRIES in
      mk_pmm (bitmap s) (refcounts s) (first_available s) (clip_entry <$> take (Z.to_nat count) entries)
  end.

(** [for pg in pg..pg + n]: clear or set one bit each. *)
Fixpoint clear_range (n : nat) (pg : Z) (bm : Z -> Z) : option (Z -> Z) :=
  match n with
  | O => Some bm
  | S n => bm ← (if pg <? TOTAL_PAGES then bitmap_clear pg bm else Some bm); clear_range n (pg + 1) bm
  end.
Fixpoint set_range (n : nat) (pg : Z) (bm : Z -> Z) : option (Z -> Z) :=
  match n with O => Some bm | S n => bm ← bitmap_set pg bm; set_range n (pg + 1) bm end.

Definition first_page_of (e : Mb2MmapFlat) : Z :=
  addr_to_page (u32 (Z.land (u64 (e_base e + PAGE_SIZE - 1)) (Z.lnot (PAGE_SIZE - 1)))).
Definition clip_end_of (e : Mb2MmapFlat) : Z :=
  Z.min (sat_add64 (e_base e) (e_len e)) PCI_HOLE_START.
Definition last_page_of (e : Mb2MmapFlat) : Z :=
  addr_to_page (u32 (Z.land (clip_end_of e) (Z.lnot (PAGE_SIZE - 1)))).

(** One region of the map: its whole pages become free. *)
Definition add_region (e : Mb2MmapFlat) (bm : Z -> Z) : option (Z -> Z) :=
  if negb (e_ty e =? MB2_MMAP_TYPE_AVAILABLE) then Some bm
  else if e_len e =? 0 then Some bm
  else if clip_end_of e <=? e_base e then Some bm
  else if last_page_of e <=? first_page_of e then Some bm
  else clear_range (Z.to_nat (last_page_of e - first_page_of e)) (first_page_of e) bm.

Fixpoint add_regions (l : list Mb2MmapFlat) (bm : Z -> Z) : option (Z -> Z) :=
  match l with [] => Some bm | e :: l => bm ← add_region e bm; add_regions l bm end.

Definition heap_end_addr : Z := Z.min (Z.min (HEAP_START + HEAP_SIZE) (2 ^ 32 - 1)) PCI_HOLE_START.

Definition init_memory_manager (s : pmm) : option pmm :=
  let bm := fun _ => 255 in
  bm ← (if 0 <? zlen (mmap_table s) then add_regions (mmap_table s) bm
        else
          let first_free := addr_to_page RESERVED_END in
          clear_range (Z.to_nat (TOTAL_PAGES - first_free)) first_free bm);
  let reserved_pages := addr_to_page RESERVED_END in
  bm ← set_range (Z.to_nat reserved_pages) 0 bm;
  let heap_start_page := addr_to_page HEAP_START in
  let heap_end_page := addr_to_page heap_end_addr in
  bm ← (if heap_start_page <? heap_end_page
        then set_range (Z.to_nat (heap_end_page - heap_start_page)) heap_start_page bm else Some bm);
  let hint := if heap_start_page <? reserved_pages then reserved_pages else heap_end_page in
  Some (mk_pmm bm (refcounts s) hint (mmap_table s)).

(** ** Allocation *)

(** The search from the hint under the lock: the page taken, or none. *)
Fixpoint find_page (n : nat) (i : Z) (bm : Z -> Z) : option (option Z) :=
  match n with
  | O => Some None
  | S n => b ← bitmap_test i bm; if b : bool then find_page n (i + 1) bm else Some (Some i)
  end.

Definition take_page (s : pmm) : option (pmm * option Z) :=
  let hint := first_available s in
  r ← find_page (Z.to_nat (TOTAL_PAGES - hint)) hint (bitmap s);
  match r with
  | None => Some (s, None)
  | Some i =>
      bm ← bitmap_set i (bitmap s);
      Some (mk_pmm bm (fupd (refcounts s) i 1) (u32 (i + 1)) (mmap_table s), Some i)
  end.

(** The allocator's place in a larger state. *)
Class HasPmm (S : Type) := { pm_of : S -> pmm; with_pm : pmm -> S -> S }.
#[export] Instance pmm_alone : HasPmm pmm := {| pm_of := fun s => s; with_pm := fun p _ => p |}.

(** Evicting a page to swap, or killing a process: whether it succeeded. *)
Class Reclaim (S : Type) := reclaim : S -> option (S * bool).

Section Alloc.
Context {S : Type} `{!HasPmm S, !Reclaim S}.

(** [rounds] reclaim attempts are left. *)
Fixpoint kalloc_loop (rounds : nat) (s : S) : option (S * Z) :=
  '(p, r) ← take_page (pm_of s);
  let s := with_pm p s in
  match r with
  | Some i => Some (s, page_to_addr i)
  | None =>
      match rounds with
      | O => Some (s, 0)
      | Datatypes.S rounds => '(s, ok) ← reclaim s; if ok : bool then kalloc_loop rounds s else Some (s, 0)
      end
  end.

Definition kalloc (s : S) : option (S * Z) := kalloc_loop MAX_RECLAIM_ROUNDS s.
End Alloc.

(** ** Release and reference counts *)

Definition free_page (addr : Z) (s : pmm) : option pmm :=
  if addr =? 0 then Some s
  else if negb (addr mod PAGE_SIZE =? 0) then Some s
  else
    let page_idx := addr_to_page addr in
    if TOTAL_PAGES <=? page_idx then Some s
    else if addr <? RESERVED_END then Some s
    else if (HEAP_START <=? addr) && (addr <? heap_end_addr) then Some s
    else
      let rc := refcounts s page_idx in
      if 1 <? rc then Some (mk_pmm (bitmap s) (fupd (refcounts s) page_idx (rc - 1)) (first_available s) (mmap_table s))
      else
        bm ← bitmap_clear page_idx (bitmap s);
        let first := if page_idx <? first_available s then page_idx else first_available s in
        Some (mk_pmm bm (fupd (refcounts s) page_idx 0) first (mmap_table s)).

Definition page_ref_inc (phys : Z) (s : pmm) : pmm :=
  if phys <? RESERVED_END then s
  else
    let idx := addr_to_page phys in
    if TOTAL_PAGES <=? idx then s
    else mk_pmm (bitmap s) (fupd (refcounts s) idx (Z.min (refcounts s idx + 1) (2 ^ 16 - 1)))
                (first_available s) (mmap_table s).

Definition page_ref_get (phys : Z) (s : pmm) : Z :=
  if phys <? RESERVED_END then 0
  else let idx := addr_to_page phys in if TOTAL_PAGES <=? idx then 0 else refcounts s idx.

Definition page_ref_get_locked (phys : Z) (s : pmm) : Z := page_ref_get phys s.

(** ** The bitmap as a set of free pages *)

Definition page_free (bm : Z -> Z) (i : Z) : bool := negb (Z.testbit (bm (i / 8)) (i mod 8)).

Definition in_range (i : Z) : Prop := 0 <= i < TOTAL_PAGES.

Lemma TOTAL_PAGES_eq : TOTAL_PAGES = 786432. Proof. reflexivity. Qed.
Lemma BITMAP_SIZE_eq : BITMAP_SIZE = 98304. Proof. reflexivity. Qed.
Lemma heap_end_eq : heap_end_addr = 50331648. Proof. reflexivity. Qed.
Ltac page_lia :=
  unfold in_range, addr_to_page, page_to_addr, PAGE_SIZE, RESERVED_END, HEAP_START in *;
  rewrite ?TOTAL_PAGES_eq, ?BITMAP_SIZE_eq, ?heap_end_eq in *; word_lia.

Lemma bm_get_ok bm i : in_range i -> bm_get bm (i / 8) = Some (bm (i / 8)).
Proof. intros Hi. unfold bm_get. case_ifs; [done|]. exfalso. assert (0 <= i / 8 < BITMAP_SIZE) by page_lia. lia. Qed.

Lemma same_page i j : i / 8 = j / 8 -> i mod 8 = j mod 8 -> i = j.
Proof. intros. word_lia. Qed.

Lemma bitmap_test_ok bm i : in_range i -> bitmap_test i bm = Some (negb (page_free bm i)).
Proof.
  intros Hi. unfold bitmap_test. rewrite bm_get_ok by done. ob. f_equal. unfold page_free. rewrite negb_involutive.
  rewrite Z.shiftl_1_l. pose proof (Z.mod_pos_bound i 8). destruct (Z.testbit (bm (i / 8)) (i mod 8)) eqn:E.
  - apply negb_true_iff, Z.eqb_neq. intros H0.
    assert (Ht : Z.testbit (Z.land (bm (i / 8)) (2 ^ (i mod 8))) (i mod 8) = true).
    { by rewrite Z.land_spec, E, Z.pow2_bits_true by lia. }
    rewrite H0 in Ht. by rewrite Z.bits_0 in Ht.
  - apply negb_false_iff, Z.eqb_eq, Z.bits_inj'. intros n Hn. rewrite Z.land_spec, Z.bits_0.
    destruct (Z.eq_dec n (i mod 8)) as [->|Hne]; [by rewrite E|]. rewrite Z.pow2_bits_false by done. apply andb_false_r.
Qed.

Lemma bitmap_upd bm i j v (b : bool) :
  (forall n, 0 <= n -> Z.testbit v n = if n =? i mod 8 then negb b else Z.testbit (bm (i / 8)) n) ->
  page_free (fupd bm (i / 8) v) j = if j =? i then b else page_free bm j.
Proof.
  intros Hv. unfold page_free, fupd. pose proof (Z.mod_pos_bound j 8).
  destruct (Z.eqb_spec (j / 8) (i / 8)) as [E|E].
  - rewrite Hv by lia. rewrite <- E. destruct (Z.eqb_spec (j mod 8) (i mod 8)) as [E2|E2].
    + by rewrite (same_page j i E E2), Z.eqb_refl, negb_involutive.
    + rewrite (proj2 (Z.eqb_neq j i)) by congruence. done.
  - by rewrite (proj2 (Z.eqb_neq j i)) by congruence.
Qed.

Lemma bitmap_set_ok bm i :
  in_range i -> exists bm', bitmap_set i bm = Some bm' /\
    forall j, page_free bm' j = if j =? i then false else page_free bm j.
Proof.
  intros Hi. unfold bitmap_set. rewrite bm_get_ok by done. ob. eexists. split; [done|]. intros j.
  apply bitmap_upd. intros n Hn. rewrite Z.lor_spec, Z.shiftl_1_l. destruct (Z.eqb_spec n (i mod 8)) as [->|Hne].
  - rewrite Z.pow2_bits_true by lia. apply orb_true_r.
  - rewrite Z.pow2_bits_false by done. apply orb_false_r.
Qed.

Lemma bitmap_clear_ok bm i :
  in_range i -> exists bm', bitmap_clear i bm = Some bm' /\
    forall j, page_free bm' j = if j =? i then true else page_free bm j.
Proof.
  intros Hi. unfold bitmap_clear. rewrite bm_get_ok by done. ob. eexists. split; [done|]. intros j.
  apply bitmap_upd. intros n Hn. rewrite Z.land_spec, Z.lnot_spec, Z.shiftl_1_l by lia.
  destruct (Z.eqb_spec n (i mod 8)) as [->|Hne].
  - rewrite Z.pow2_bits_true by lia. apply andb_false_r.
  - rewrite Z.pow2_bits_false by done. apply andb_true_r.
Qed.

(** ** Allocation takes the lowest free page *)

Definition heap_end_page : Z := addr_to_page heap_end_addr.

(** Every free page lies at or above the hint and above the kernel's heap. *)
Definition pmm_inv (s : pmm) : Prop :=
  0 <= first_available s <= TOTAL_PAGES /\
  forall i, in_range i -> page_free (bitmap s) i = true -> first_available s <= i /\ heap_end_page <= i.

Lemma find_page_ok (n : nat) i bm :
  0 <= i -> i + Z.of_nat n = TOTAL_PAGES ->
  exists r, find_page n i bm = Some r /\
    match r with
    | Some j => i <= j < TOTAL_PAGES /\ page_free bm j = true /\ forall k, i <= k < j -> page_free bm k = false
    | None => forall k, i <= k < TOTAL_PAGES -> page_free bm k = false
    end.
Proof.
  revert i. induction n as [|n IH]; intros i Hi Hn; cbn [find_page].
  { exists None. split; [done|]. intros k Hk. lia. }
  assert (Hr : in_range i) by (unfold in_range; lia). rewrite bitmap_test_ok by done. ob.
  destruct (page_free bm i) eqn:E; cbn [negb].
  - exists (Some i). split; [done|]. split; [lia|]. split; [done|]. intros k Hk. lia.
  - destruct (IH (i + 1)) as (r & -> & Hm); [lia|lia|]. exists r. split; [done|]. destruct r as [j|].
    + destruct Hm as (H1 & H2 & H3). split; [lia|]. split; [done|]. intros k Hk.
      destruct (Z.eq_dec k i) as [->|]; [done|]. apply H3. lia.
    + intros k Hk. destruct (Z.eq_dec k i) as [->|]; [done|]. apply Hm. lia.
Qed.

(** Page [i] was the lowest free page and has been taken. *)
Definition taken (i : Z) (s s' : pmm) : Prop :=
  in_range i /\ page_free (bitmap s) i = true /\
  (forall j, in_range j -> page_free (bitmap s) j = true -> i <= j) /\
  (forall j, page_free (bitmap s') j = if j =? i then false else page_free (bitmap s) j) /\
  refcounts s' = fupd (refcounts s) i 1 /\ mmap_table s' = mmap_table s.

Lemma take_page_ok s :
  pmm_inv s -> exists s' r, take_page s = Some (s', r) /\ pmm_inv s' /\
    match r with
    | Some i => taken i s s'
    | None => s' = s /\ forall j, in_range j -> page_free (bitmap s) j = false
    end.
Proof.
  intros [Hf Hinv]. unfold take_page.
  destruct (find_page_ok (Z.to_nat (TOTAL_PAGES - first_available s)) (first_available s) (bitmap s)) as (r & -> & Hr);
    [lia|lia|]. ob. destruct r as [i|].
  - destruct Hr as (Hi & Hfree & Hlow). assert (Hr : in_range i) by (unfold in_range; lia).
    destruct (bitmap_set_ok (bitmap s) i Hr) as (bm' & -> & Hbm). ob. eexists _, _. split; [done|].
    assert (Hu : u32 (i + 1) = i + 1) by page_lia.
    assert (Hmin : forall j, in_range j -> page_free (bitmap s) j = true -> i <= j).
    { intros j Hj Hjf. destruct (Z.le_gt_cases i j); [done|]. destruct (Hinv j Hj Hjf) as [H1 _].
      rewrite Hlow in Hjf by lia. done. }
    split; [|done]. split; cbn [first_available bitmap]; rewrite Hu; [unfold in_range in Hr; lia|].
    intros j Hj. rewrite Hbm. destruct (Z.eqb_spec j i); [done|]. intros Hjf. pose proof (Hmin j Hj Hjf).
    destruct (Hinv j Hj Hjf). lia.
  - exists s, None. split; [done|]. split; [done|]. split; [done|]. intros j Hj.
    destruct (page_free (bitmap s) j) eqn:E; [|done]. destruct (Hinv j Hj E) as [H1 _].
    rewrite Hr in E by (unfold in_range in Hj; lia). done.
Qed.

(** What the other modules promise: reclaiming returns and keeps the
    allocator's state well formed. *)
Class ReclaimOk `{!Reclaim pmm} : Prop :=
  reclaim_ok : forall s, pmm_inv s -> exists s' b, reclaim s = Some (s', b) /\ pmm_inv s'.

Section AllocOk.
Context `{!Reclaim pmm, !ReclaimOk}.

Lemma kalloc_loop_ok (rounds : nat) (s : pmm) :
  pmm_inv s -> exists s' a, kalloc_loop rounds s = Some (s', a) /\ pmm_inv s' /\
    (a <> 0 -> exists i s0, a = i * PAGE_SIZE /\ heap_end_page <= i /\ taken i s0 s') /\
    (forall j, in_range j -> page_free (bitmap s) j = true -> exists i, a = i * PAGE_SIZE /\ a <> 0 /\ taken i s s').
Proof.
  revert s. induction rounds as [|rounds IH]; intros s Hs; cbn [kalloc_loop pm_of with_pm pmm_alone];
    destruct (take_page_ok s Hs) as (s1 & r & -> & Hs1 & Hr); ob.
  all: destruct r as [i|].
  1, 3: pose proof Hr as (Hi & Hfree & _); destruct (proj2 Hs i Hi Hfree) as [_ Hhe];
        assert (Ha : page_to_addr i = i * PAGE_SIZE /\ i * PAGE_SIZE <> 0) by (unfold heap_end_page in Hhe; page_lia);
        destruct Ha as [-> Hne]; exists s1, (i * PAGE_SIZE); split; [done|]; split; [done|]; split;
        [intros _; by exists i, s | intros j _ _; by exists i].
  1: destruct Hr as [-> Hno]; exists s, 0; split; [done|]; split; [done|]; split; [done|]; intros j Hj Hjf; by rewrite Hno in Hjf.
  destruct Hr as [-> Hno]. destruct (reclaim_ok s Hs) as (s2 & b & -> & Hs2). ob. destruct b.
  - destruct (IH s2 Hs2) as (s' & a & -> & Hs' & Hany & _). exists s', a. split; [done|]. split; [done|]. split; [done|].
    intros j Hj Hjf. by rewrite Hno in Hjf.
  - exists s2, 0. split; [done|]. split; [done|]. split; [done|]. intros j Hj Hjf. by rewrite Hno in Hjf.
Qed.

(** C26: [kalloc] hands out the lowest free page and no other.  From every
    well-formed state it returns; a non-null result is the address of a page
    that was free, lies above the kernel image and heap, is now marked used
    with reference count 1, and nothing else changed; and if any page is
    free the result is not null, so the first-fit hint never hides a page. *)
Theorem kalloc_exact (s : pmm) :
  pmm_inv s -> exists s' a, kalloc s = Some (s', a) /\ pmm_inv s' /\
    (a <> 0 -> exists i s0, a = i * PAGE_SIZE /\ heap_end_page <= i /\ taken i s0 s') /\
    (forall j, in_range j -> page_free (bitmap s) j = true -> exists i, a = i * PAGE_SIZE /\ a <> 0 /\ taken i s s').
Proof. intros Hs. by apply kalloc_loop_ok. Qed.
End AllocOk.

(** No swap and nobody to kill. *)
Definition no_reclaim : Reclaim pmm := fun s => Some (s, false).
Lemma no_reclaim_ok : @ReclaimOk no_reclaim.
Proof. intros s Hs. by exists s, false. Qed.

Lemma kalloc_exact_witness :
  let s := mk_pmm (fupd (fun _ => 255) 1537 191) (fun _ => 0) 12290 [] in
  exists s' a, @kalloc pmm _ no_reclaim s = Some (s', a) /\ pmm_inv s' /\
    (a <> 0 -> exists i s0, a = i * PAGE_SIZE /\ heap_end_page <= i /\ taken i s0 s') /\
    (forall j, in_range j -> page_free (bitmap s) j = true -> exists i, a = i * PAGE_SIZE /\ a <> 0 /\ taken i s s').
Proof.
  cbv zeta. apply (@kalloc_exact no_reclaim no_reclaim_ok). split; [cbn; rewrite TOTAL_PAGES_eq; lia|].
  intros i Hi. unfold page_free, fupd. cbn [bitmap]. pose proof (Z.mod_pos_bound i 8). destruct (Z.eqb_spec (i / 8) 1537) as [E|E].
  - intros Hb. assert (i mod 8 = 6).
    { destruct (i mod 8) as [|[[[]|[]|]|[[]|[]|]|]|]; try done; lia. }
    cbn. unfold heap_end_page. page_lia.
  - intros Hb. exfalso. assert (Hx : forall n, 0 <= n < 8 -> Z.testbit 255 n = true).
    { intros n Hn. destruct n as [|[[[]|[]|]|[[]|[]|]|]|]; try done; lia. }
    by rewrite Hx in Hb by lia.
Defined.

(** ** The initial state *)

Lemma clear_range_ok (n : nat) pg bm :
  0 <= pg -> exists bm', clear_range n pg bm = Some bm' /\
    forall j, in_range j -> page_free bm' j = ((pg <=? j) && (j <? pg + Z.of_nat n)) || page_free bm j.
Proof.
  revert pg bm. induction n as [|n IH]; intros pg bm Hpg; cbn [clear_range].
  { exists bm. split; [done|]. intros j _. replace ((pg <=? j) && (j <? pg + Z.of_nat 0)) with false by lia. done. }
  destruct (Z.ltb_spec pg TOTAL_PAGES) as [Hlt|Hge].
  - destruct (bitmap_clear_ok bm pg) as (bm1 & -> & Hb1); [unfold in_range; lia|]. ob.
    destruct (IH (pg + 1) bm1) as (bm' & -> & Hb'); [lia|]. exists bm'. split; [done|]. intros j Hj. rewrite Hb', Hb1 by done.
    destruct (Z.eqb_spec j pg) as [->|Hne].
    + rewrite orb_true_r. replace ((pg <=? pg) && (pg <? pg + Z.of_nat (S n))) with true by lia. done.
    + f_equal. lia.
  - ob. destruct (IH (pg + 1) bm) as (bm' & -> & Hb'); [lia|]. exists bm'. split; [done|]. intros j Hj. rewrite Hb' by done.
    f_equal. unfold in_range in Hj. lia.
Qed.

Lemma set_range_ok (n : nat) pg bm :
  0 <= pg -> pg + Z.of_nat n <= TOTAL_PAGES -> exists bm', set_range n pg bm = Some bm' /\
    forall j, page_free bm' j = negb ((pg <=? j) && (j <? pg + Z.of_nat n)) && page_free bm j.
Proof.
  revert pg bm. induction n as [|n IH]; intros pg bm Hpg Hn; cbn [set_range].
  { exists bm. split; [done|]. intros j. replace ((pg <=? j) && (j <? pg + Z.of_nat 0)) with false by lia. done. }
  destruct (bitmap_set_ok bm pg) as (bm1 & -> & Hb1); [unfold in_range; lia|]. ob.
  destruct (IH (pg + 1) bm1) as (bm' & -> & Hb'); [lia|lia|]. exists bm'. split; [done|]. intros j. rewrite Hb', Hb1.
  destruct (Z.eqb_spec j pg) as [->|Hne].
  - rewrite andb_false_r. replace ((pg <=? pg) && (pg <? pg + Z.of_nat (S n))) with true by lia. done.
  - f_equal. f_equal. lia.
Qed.

Lemma land_page x : Z.land x (Z.lnot (PAGE_SIZE - 1)) = x / PAGE_SIZE * PAGE_SIZE.
Proof.
  unfold PAGE_SIZE. change (4096 - 1) with (Z.ones 12). change 4096 with (2 ^ 12).
  rewrite <- Z.ldiff_land, Z.ldiff_ones_r by lia. rewrite Z.shiftl_mul_pow2, Z.shiftr_div_pow2 by lia. done.
Qed.

(** The page lies wholly inside an available region of the map. *)
Definition in_region (e : Mb2MmapFlat) (i : Z) : bool :=
  (e_ty e =? MB2_MMAP_TYPE_AVAILABLE) && (e_base e <=? i * PAGE_SIZE) &&
  (i * PAGE_SIZE + PAGE_SIZE <=? e_base e + e_len e).

Definition entry_ok (e : Mb2MmapFlat) : Prop := is_u64 (e_base e) /\ is_u64 (e_len e).

Lemma add_region_ok e bm :
  entry_ok e -> exists bm', add_region e bm = Some bm' /\
    forall j, in_range j -> page_free bm' j = in_region e j || page_free bm j.
Proof.
  intros [Hb Hl]. unfold add_region, in_region. destruct (Z.eqb_spec (e_ty e) MB2_MMAP_TYPE_AVAILABLE) as [Ht|Ht]; cbn [negb].
  2: { exists bm. split; [done|]. by intros j _. }
  cbn [andb]. assert (Hend : clip_end_of e = Z.min (e_base e + e_len e) 3221225472).
  { unfold clip_end_of, sat_add64, PCI_HOLE_START. change (2 ^ 64) with 18446744073709551616.
    unfold is_u64 in *. lia. }
  destruct (Z.eqb_spec (e_len e) 0) as [E0|E0].
  { exists bm. split; [done|]. intros j Hj. replace ((e_base e <=? _) && _) with false by (unfold PAGE_SIZE; lia). done. }
  rewrite Hend. destruct (Z.leb_spec (Z.min (e_base e + e_len e) 3221225472) (e_base e)) as [Hc|Hc].
  { exists bm. split; [done|]. intros j Hj. replace ((e_base e <=? _) && _) with false by page_lia. done. }
  assert (Hfp : first_page_of e = (e_base e + 4095) / 4096).
  { unfold first_page_of. rewrite land_page. unfold is_u64 in *. page_lia. }
  assert (Hlp : last_page_of e = Z.min (e_base e + e_len e) 3221225472 / 4096).
  { unfold last_page_of. rewrite land_page, Hend. unfold is_u64 in *. page_lia. }
  rewrite Hfp, Hlp. unfold is_u64 in *. set (fp := (e_base e + 4095) / 4096) in *. set (lp := Z.min (e_base e + e_len e) 3221225472 / 4096) in *.
  assert (Hreg : forall j, in_range j -> ((e_base e <=? j * PAGE_SIZE) && (j * PAGE_SIZE + PAGE_SIZE <=? e_base e + e_len e))
    = (fp <=? j) && (j <? lp)).
  { intros j Hj. unfold fp, lp. unfold in_range in Hj. rewrite TOTAL_PAGES_eq in Hj. unfold PAGE_SIZE.
    apply eq_true_iff_eq. rewrite !andb_true_iff, !Z.leb_le, Z.ltb_lt. clear - Hj Hb Hl.
    split; intros; Z.to_euclidean_division_equations; lia. }
  destruct (Z.leb_spec lp fp) as [Hle|Hlt].
  - exists bm. split; [done|]. intros j Hj. rewrite Hreg by done. by replace ((fp <=? j) && (j <? lp)) with false by lia.
  - destruct (clear_range_ok (Z.to_nat (lp - fp)) fp bm) as (bm' & -> & Hbm); [unfold fp; word_lia|]. exists bm'.
    split; [done|]. intros j Hj. rewrite Hbm, Hreg by done. f_equal. lia.
Qed.

Lemma add_regions_ok l bm :
  Forall entry_ok l -> exists bm', add_regions l bm = Some bm' /\
    forall j, in_range j -> page_free bm' j = existsb (fun e => in_region e j) l || page_free bm j.
Proof.
  revert bm. induction l as [|e l IH]; intros bm Hl; cbn [add_regions existsb].
  { exists bm. split; [done|]. by intros j _. }
  apply Forall_cons_1 in Hl as [He Hl]. destruct (add_region_ok e bm He) as (bm1 & -> & Hb1). ob.
  destruct (IH bm1 Hl) as (bm' & -> & Hb'). exists bm'. split; [done|]. intros j Hj. rewrite Hb', Hb1 by done.
  destruct (in_region e j), (existsb _ l); done.
Qed.

Lemma all_used j : page_free (fun _ => 255) j = false.
Proof.
  unfold page_free. pose proof (Z.mod_pos_bound j 8). change 255 with (Z.ones 8).
  rewrite Z.ones_spec_low by lia. done.
Qed.

(** After boot the free pages are the RAM.  From any memory map the
    loader passes, [init_memory_manager] returns, and a page is then free
    exactly if it lies above the kernel image and heap and, when there is a
    map, wholly inside a region the map calls available (without a map:
    always); the allocator's invariant holds. *)
Theorem init_memory_exact s :
  Forall entry_ok (mmap_table s) ->
  exists s', init_memory_manager s = Some s' /\ pmm_inv s' /\
    forall i, in_range i -> page_free (bitmap s') i =
      (heap_end_page <=? i) &&
      (bool_decide (mmap_table s = []) || existsb (fun e => in_region e i) (mmap_table s)).
Proof.
  intros Hm. unfold init_memory_manager. cbv zeta.
  remember (Z.to_nat (TOTAL_PAGES - addr_to_page RESERVED_END)) as n0 eqn:E0.
  remember (Z.to_nat (addr_to_page RESERVED_END)) as n1 eqn:E1.
  remember (Z.to_nat (addr_to_page heap_end_addr - addr_to_page HEAP_START)) as n2 eqn:E2.
  assert (Hpool : exists bm, (if 0 <? zlen (mmap_table s) then add_regions (mmap_table s) (fun _ => 255)
      else clear_range n0 (addr_to_page RESERVED_END) (fun _ => 255)) = Some bm /\
    forall j, in_range j -> heap_end_page <= j ->
      page_free bm j = bool_decide (mmap_table s = []) || existsb (fun e => in_region e j) (mmap_table s)).
  { destruct (mmap_table s) as [|e l] eqn:E.
    - change (0 <? zlen (@nil Mb2MmapFlat)) with false. cbv iota.
      destruct (clear_range_ok n0 (addr_to_page RESERVED_END) (fun _ => 255)) as (bm & -> & Hbm); [page_lia|].
      exists bm. split; [done|]. intros j Hj Hh. rewrite Hbm by done.
      replace (_ && _) with true; [done|]. unfold heap_end_page in Hh. page_lia.
    - replace (0 <? zlen (e :: l)) with true by (rewrite zlen_cons; pose proof (zlen_nonneg l); lia).
      destruct (add_regions_ok (e :: l) (fun _ => 255)) as (bm & -> & Hbm); [done|]. exists bm. split; [done|].
      intros j Hj _. rewrite Hbm, all_used by done. by rewrite orb_false_r. }
  destruct Hpool as (bm & -> & Hbm). sb.
  destruct (set_range_ok n1 0 bm) as (bm2 & -> & Hb2); [lia|page_lia|]. sb.
  replace (addr_to_page HEAP_START <? addr_to_page heap_end_addr) with true by page_lia.
  destruct (set_range_ok n2 (addr_to_page HEAP_START) bm2) as (bm3 & -> & Hb3); [page_lia|page_lia|]. sb.
  replace (addr_to_page HEAP_START <? addr_to_page RESERVED_END) with false by page_lia. fold heap_end_page.
  assert (Hfin : forall i, in_range i -> page_free bm3 i =
    (heap_end_page <=? i) && (bool_decide (mmap_table s = []) || existsb (fun e => in_region e i) (mmap_table s))).
  { intros i Hi. rewrite Hb3, Hb2. destruct (Z.leb_spec heap_end_page i) as [Hge|Hlt].
    - rewrite <- Hbm by done. unfold heap_end_page in Hge.
      replace ((0 <=? i) && _) with false by page_lia.
      replace ((addr_to_page HEAP_START <=? i) && _) with false by page_lia. done.
    - unfold heap_end_page in Hlt. cbn [andb]. rewrite andb_assoc. 
      replace (negb _ && negb _) with false by page_lia. done. }
  eexists. split; [done|]. split; [|done]. split; [cbn; unfold heap_end_page; page_lia|].
  cbn [bitmap first_available]. intros i Hi Hf. rewrite Hfin in Hf by done. b2p. done.
Qed.

Definition demo_pmm : pmm :=
  mk_pmm (fun _ => 0) (fun _ => 0) 0 [mk_flat 0 654336 1; mk_flat 1048576 267386880 1].

Lemma init_memory_exact_witness :
  exists s', init_memory_manager demo_pmm = Some s' /\ pmm_inv s' /\
    forall i, in_range i -> page_free (bitmap s') i =
      (heap_end_page <=? i) &&
      (bool_decide (mmap_table demo_pmm = []) || existsb (fun e => in_region e i) (mmap_table demo_pmm)).
Proof.
  apply (init_memory_exact demo_pmm).
  constructor; [split; unfold is_u64; cbn [e_base e_len]; lia|].
  constructor; [split; unfold is_u64; cbn [e_base e_len]; lia|constructor].
Defined.

(** ** Histories of calls *)

Inductive page_op := PAlloc (got : option Z) | PRef (i : Z) | PFree (i : Z).

(** How many references a history leaves to page [i]: one for handing it
    out, one for every increment, less the releases. *)
Fixpoint balance (tr : list page_op) (i : Z) : Z :=
  match tr with
  | [] => 0
  | PAlloc (Some j) :: tr | PRef j :: tr => (if j =? i then 1 else 0) + balance tr i
  | PAlloc None :: tr => balance tr i
  | PFree j :: tr => (if j =? i then -1 else 0) + balance tr i
  end.

Lemma balance_app tr1 tr2 i : balance (tr1 ++ tr2) i = balance tr1 i + balance tr2 i.
Proof. induction tr1 as [|[[j|]|j|j] tr1 IH]; cbn; lia. Qed.

(** The states clients can bring the allocator to: they share and release
    only pages they hold, and less than 65535 times. *)
Inductive page_run (s0 : pmm) : list page_op -> pmm -> Prop :=
| run_nil : page_run s0 [] s0
| run_alloc tr s s' r : page_run s0 tr s -> take_page s = Some (s', r) -> page_run s0 (tr ++ [PAlloc r]) s'
| run_ref tr s i : page_run s0 tr s -> in_range i -> 1 <= balance tr i < 2 ^ 16 - 1 ->
    page_run s0 (tr ++ [PRef i]) (page_ref_inc (i * PAGE_SIZE) s)
| run_free tr s s' i : page_run s0 tr s -> in_range i -> 1 <= balance tr i ->
    free_page (i * PAGE_SIZE) s = Some s' -> page_run s0 (tr ++ [PFree i]) s'.

Definition history_ok (tr : list page_op) (s : pmm) : Prop :=
  pmm_inv s /\ forall i, in_range i -> 0 <= balance tr i /\
    (1 <= balance tr i -> page_free (bitmap s) i = false /\ refcounts s i = balance tr i /\ heap_end_page <= i).

(** A release: the count goes down, and the page is free when none is left. *)
Lemma free_page_ok s i :
  pmm_inv s -> in_range i -> heap_end_page <= i ->
  exists s', free_page (i * PAGE_SIZE) s = Some s' /\ pmm_inv s' /\
    refcounts s' = fupd (refcounts s) i (if 1 <? refcounts s i then refcounts s i - 1 else 0) /\
    forall j, page_free (bitmap s') j = if (j =? i) && negb (1 <? refcounts s i) then true else page_free (bitmap s) j.
Proof.
  intros Hinv Hi Hhe. pose proof Hinv as [Hf Hfree]. unfold free_page.
  assert (Hg : (i * PAGE_SIZE =? 0) = false /\ (i * PAGE_SIZE) mod PAGE_SIZE = 0 /\ addr_to_page (i * PAGE_SIZE) = i /\
    (i * PAGE_SIZE <? RESERVED_END) = false /\ (i * PAGE_SIZE <? heap_end_addr) = false).
  { unfold heap_end_page in Hhe. page_lia. }
  destruct Hg as (-> & Hmod & Hp & -> & ->). rewrite Hmod, Hp. cbn [Z.eqb negb]. rewrite andb_false_r.
  rewrite (proj2 (Z.leb_gt TOTAL_PAGES i)) by (unfold in_range in Hi; lia).
  destruct (1 <? refcounts s i); cbn [negb].
  - eexists. split; [done|]. split; [done|]. split; [done|]. intros j. by rewrite andb_false_r.
  - destruct (bitmap_clear_ok (bitmap s) i Hi) as (bm' & -> & Hbm). ob. eexists. split; [done|].
    split; [|split; [done|]; intros j; rewrite andb_true_r; apply Hbm].
    split; cbn [first_available bitmap]; [case_if; b2p; unfold in_range in Hi; lia|].
    intros j Hj. rewrite Hbm. destruct (Z.eqb_spec j i) as [->|Hne]; [intros _; case_if; b2p; lia|].
    intros Hjf. destruct (Hfree j Hj Hjf). split; [case_if; b2p; lia|done].
Qed.

Lemma page_ref_inc_ok s i :
  in_range i -> heap_end_page <= i ->
  page_ref_inc (i * PAGE_SIZE) s = mk_pmm (bitmap s) (fupd (refcounts s) i (Z.min (refcounts s i + 1) (2 ^ 16 - 1)))
    (first_available s) (mmap_table s).
Proof.
  intros Hi Hhe. unfold page_ref_inc.
  assert (Hg : (i * PAGE_SIZE <? RESERVED_END) = false /\ addr_to_page (i * PAGE_SIZE) = i) by (unfold heap_end_page in Hhe; page_lia).
  destruct Hg as (-> & ->). by rewrite (proj2 (Z.leb_gt TOTAL_PAGES i)) by (unfold in_range in Hi; lia).
Qed.

Lemma page_ref_get_ok s i : in_range i -> heap_end_page <= i -> page_ref_get (i * PAGE_SIZE) s = refcounts s i.
Proof.
  intros Hi Hhe. unfold page_ref_get.
  assert (Hg : (i * PAGE_SIZE <? RESERVED_END) = false /\ addr_to_page (i * PAGE_SIZE) = i) by (unfold heap_end_page in Hhe; page_lia).
  destruct Hg as (-> & ->). by rewrite (proj2 (Z.leb_gt TOTAL_PAGES i)) by (unfold in_range in Hi; lia).
Qed.

Lemma free_page_live tr s i :
  history_ok tr s -> in_range i -> 1 <= balance tr i ->
  exists s', free_page (i * PAGE_SIZE) s = Some s' /\ history_ok (tr ++ [PFree i]) s'.
Proof.
  intros [Hinv Hb] Hi H1. destruct (Hb i Hi) as [_ Hlive]. destruct (Hlive H1) as (Hnf & Hrc & Hhe).
  destruct (free_page_ok s i Hinv Hi Hhe) as (s' & -> & Hinv' & Hrc' & Hbm). exists s'. split; [done|]. split; [done|].
  intros j Hj. rewrite balance_app. cbn. rewrite Hrc', Hbm. unfold fupd. rewrite (Z.eqb_sym i j).
  destruct (Hb j Hj) as [H0 Hl]. destruct (Z.eqb_spec j i) as [->|Hne]; cbn [andb]; [|by rewrite Z.add_0_r].
  destruct (Z.ltb_spec 1 (refcounts s i)); cbn [negb]; [|lia]. split; [lia|]. intros _. split; [done|]. split; [lia|done].
Qed.

Lemma ref_live tr s i :
  history_ok tr s -> in_range i -> 1 <= balance tr i < 2 ^ 16 - 1 ->
  history_ok (tr ++ [PRef i]) (page_ref_inc (i * PAGE_SIZE) s).
Proof.
  intros [Hinv Hb] Hi H1. destruct (Hb i Hi) as [_ Hlive]. destruct Hlive as (Hnf & Hrc & Hhe); [lia|].
  rewrite page_ref_inc_ok by done. split; [done|]. intros j Hj. rewrite balance_app. cbn. destruct (Hb j Hj) as [H0 Hl].
  unfold fupd. rewrite (Z.eqb_sym j i). destruct (Z.eqb_spec i j) as [<-|Hne].
  - split; [lia|]. intros _. split; [done|]. split; [|done]. rewrite Hrc. lia.
  - by rewrite !Z.add_0_r.
Qed.

Lemma history_step s0 tr s : pmm_inv s0 -> page_run s0 tr s -> history_ok tr s.
Proof.
  intros H0 Hr. induction Hr as [|tr s s' r Hr IH Ht|tr s i Hr IH Hi Hb|tr s s' i Hr IH Hi Hb Hf].
  - split; [done|]. intros i Hi. cbn. lia.
  - destruct IH as [Hinv Hb]. destruct (take_page_ok s Hinv) as (s1 & r1 & He & Hs1 & Hm). rewrite He in Ht.
    injection Ht as <- <-. split; [done|]. intros i Hi. rewrite balance_app. destruct (Hb i Hi) as [Hz Hl].
    destruct r1 as [j|]; cbn; [|destruct Hm as [-> _]; by rewrite Z.add_0_r].
    destruct Hm as (Hj & Hjf & _ & Hbm & Hrc & _). rewrite Hbm, Hrc. unfold fupd. rewrite (Z.eqb_sym i j).
    destruct (Z.eqb_spec j i) as [<-|Hne]; [|by rewrite !Z.add_0_r].
    assert (balance tr j = 0) as ->.
    { destruct (Z.le_gt_cases 1 (balance tr j)); [|lia]. destruct Hl as [Hnf _]; [done|]. congruence. }
    split; [lia|]. intros _. split; [done|]. split; [done|]. by destruct (proj2 Hinv j Hj Hjf).
  - by apply ref_live.
  - destruct (free_page_live tr s i IH Hi Hb) as (s1 & He & Hok). rewrite He in Hf. by injection Hf as <-.
Qed.

(** C5: no page has two owners.  Whatever sequence of allocations, reference
    increments and releases the kernel makes (sharing and releasing only
    pages it holds), every call returns, and a page is handed out only when
    no reference to it is left: its allocations and increments so far have
    all been released. *)
Theorem page_exclusive s0 tr s :
  pmm_inv s0 -> page_run s0 tr s ->
  is_Some (take_page s) /\
  (forall i, in_range i -> 1 <= balance tr i -> is_Some (free_page (i * PAGE_SIZE) s)) /\
  (forall s' i, take_page s = Some (s', Some i) -> balance tr i = 0 /\ page_ref_get (i * PAGE_SIZE) s' = 1).
Proof.
  intros H0 Hr. pose proof (history_step s0 tr s H0 Hr) as Hh. pose proof Hh as [Hinv Hb].
  destruct (take_page_ok s Hinv) as (s1 & r1 & He & Hs1 & Hm). split; [by eexists|]. split.
  - intros i Hi H1. destruct (free_page_live tr s i Hh Hi H1) as (s2 & -> & _). by eexists.
  - intros s' i Ht. rewrite He in Ht. injection Ht as <- ->. destruct Hm as (Hi & Hf & _ & _ & Hrc & _).
    destruct (Hb i Hi) as [Hz Hl]. destruct (proj2 Hinv i Hi Hf) as [_ Hhe]. split.
    + destruct (Z.le_gt_cases 1 (balance tr i)); [|lia]. destruct Hl as [Hnf _]; [done|]. congruence.
    + rewrite page_ref_get_ok, Hrc by done. unfold fupd. by rewrite Z.eqb_refl.
Qed.

(** A page taken, released and taken again. *)
Definition two_free : pmm := mk_pmm (fupd (fun _ => 255) 1537 63) (fun _ => 0) 12288 [].

Lemma two_free_inv : pmm_inv two_free.
Proof.
  split; [cbn; rewrite TOTAL_PAGES_eq; lia|]. intros i Hi. cbn [bitmap two_free]. unfold page_free, fupd.
  pose proof (Z.mod_pos_bound i 8). destruct (Z.eqb_spec (i / 8) 1537) as [E|E].
  - intros _. cbn. unfold heap_end_page. page_lia.
  - intros Hb. exfalso. pose proof (all_used i) as Hu. unfold page_free in Hu. cbv beta in *. congruence.
Qed.

Lemma page_exclusive_witness :
  exists s, page_run two_free [PAlloc (Some 12302)] s /\
  is_Some (take_page s) /\
  (forall i, in_range i -> 1 <= balance [PAlloc (Some 12302)] i -> is_Some (free_page (i * PAGE_SIZE) s)) /\
  (forall s' i, take_page s = Some (s', Some i) ->
     balance [PAlloc (Some 12302)] i = 0 /\ page_ref_get (i * PAGE_SIZE) s' = 1).
Proof.
  destruct (take_page_ok two_free two_free_inv) as (s1 & r & He & _ & Hm).
  assert (Hr : page_run two_free [PAlloc r] s1) by (apply (run_alloc two_free [] two_free); [constructor|done]).
  exists s1. assert (Hrr : r = Some 12302).
  { destruct r as [i|].
    - destruct Hm as (Hi & Hf & Hmin & _). assert (i <= 12302) by (apply Hmin; [page_lia|reflexivity]).
      destruct (proj2 two_free_inv i Hi Hf) as [_ Hh]. unfold heap_end_page in Hh. f_equal.
      destruct (Z.eq_dec i 12302); [done|]. exfalso. unfold page_free, two_free in Hf. cbn [bitmap] in Hf. unfold fupd in Hf.
      destruct (Z.eqb_spec (i / 8) 1537) as [E|E].
      + assert (Hm6 : 0 <= i mod 8 < 6) by (pose proof (Z.mod_pos_bound i 8); word_lia).
        assert (Hb : Z.testbit 63 (i mod 8) = true) by (change 63 with (Z.ones 6); apply Z.ones_spec_low; lia).
        by rewrite Hb in Hf.
      + pose proof (all_used i) as Hu. unfold page_free in Hu. cbv beta in *. congruence.
    - destruct Hm as [_ Hno]. specialize (Hno 12302). cbn in Hno. discriminate Hno. page_lia. }
  subst r. split; [exact Hr|]. apply (page_exclusive two_free [PAlloc (Some 12302)] s1 two_free_inv Hr).
Defined.
