(* ===== verification/Heap.v ===== *)
(** * The kernel heap

    Model of [kernel/memory/rust_mm/src/alloc/heap.rs] with the constants of
    [ffi.rs].  Memory is a function from the address of a 32-bit word to its
    value; a block header is the four words [magic], [size], [is_free],
    [next] at the block's address, a null [next] is 0.  All addresses the
    heap computes are multiples of 4.  The crate is built without overflow
    checks: [u32] arithmetic wraps.  The heap lock makes every call atomic;
    the messages of the error paths are left out.

    A walk along the blocks has as fuel the number of headers the heap window
    has room for, plus one. *)
From S2P Require Import Prelude Pmm.

#[local] Open Scope Z_scope.

Definition HEAP_END : Z := HEAP_START + HEAP_SIZE.
Definition HEAP_MAGIC : Z := 3735928559.
Definition HEAP_TAIL_MAGIC : Z := 3235823838.
(** [size_of::<HeapBlock>()] *)
Definition HDR : Z := 16.

Abbreviation memory := (Z -> Z).
Definition wr (m : memory) (a v : Z) : memory := fun b => if b =? a then v else m b.

(** The fields of [HeapBlock]. *)
Definition b_magic (m : memory) (a : Z) : Z := m a.
Definition b_size (m : memory) (a : Z) : Z := m (a + 4).
Definition b_is_free (m : memory) (a : Z) : Z := m (a + 8).
Definition b_next (m : memory) (a : Z) : Z := m (a + 12).
Definition wr_header (m : memory) (a magic size is_free next : Z) : memory :=
  wr (wr (wr (wr m a magic) (a + 4) size) (a + 8) is_free) (a + 12) next.

Definition walk_fuel : nat := Z.to_nat (HEAP_SIZE / HDR + 1).

Definition heap_addr_in_range (addr : Z) : bool :=
  let start := HEAP_START in let en := HEAP_START + HEAP_SIZE in (start <=? addr) && (addr <? en).

Definition init_heap (m : memory) : memory :=
  if HEAP_START <? RESERVED_END then m
  else wr_header m HEAP_START HEAP_MAGIC (HEAP_SIZE - HDR) 1 0.

Definition align8 (x : Z) : Z := Z.land x (Z.lnot 7).

(** The bytes a request takes: rounded up, with room for the canary. *)
Definition request (size : Z) : Z :=
  let user_size := align8 (u32 (size + 7)) in
  let size := u32 (user_size + 4) in
  align8 (u32 (size + 7)).

(** The search for the smallest block that fits; [inl] is a corrupt header. *)
Fixpoint best_fit (fuel : nat) (m : memory) (size current best : Z) : option (unit + Z) :=
  match fuel with
  | O => None
  | S fuel =>
      if current =? 0 then Some (inr best)
      else if negb (b_magic m current =? HEAP_MAGIC) then Some (inl tt)
      else
        let cur_size := b_size m current in
        let best :=
          if negb (b_is_free m current =? 0) && (size <=? cur_size) then
            let best_size := if best =? 0 then 2 ^ 32 - 1 else b_size m best in
            if cur_size <? best_size then current else best
          else best in
        best_fit fuel m size (b_next m current) best
  end.

(** The block [b] becomes a used block of [size] bytes; what is left over is
    a new free block if it is large enough. *)
Definition carve (m : memory) (b size : Z) : memory :=
  let bf_size := b_size m b in
  let m :=
    if u32 (size + HDR + 8) <=? bf_size then
      let next_block := u32 (b + HDR + size) in
      let m := wr_header m next_block HEAP_MAGIC (u32 (bf_size - size - HDR)) 1 (b_next m b) in
      wr (wr m (b + 4) size) (b + 12) next_block
    else m in
  wr m (b + 8) 0.

Definition kmalloc (size : Z) (m : memory) : option (memory * Z) :=
  if size =? 0 then Some (m, 0)
  else
    let size := request size in
    if HEAP_START <? RESERVED_END then Some (m, 0) else
    r ← best_fit walk_fuel m size HEAP_START 0;
    match r with
    | inl _ => Some (m, 0)
    | inr b =>
        if b =? 0 then Some (m, 0)
        else
          let m := carve m b size in
          let user_ptr := u32 (b + HDR) in
          Some (wr m (u32 (user_ptr + b_size m b - 4)) HEAP_TAIL_MAGIC, user_ptr)
    end.

Definition kmalloc_aligned (size align : Z) (m : memory) : option (memory * Z) :=
  let align := if align <? 4 then 4 else align in
  '(m, raw) ← kmalloc (u32 (size + align + 4)) m;
  if raw =? 0 then Some (m, 0)
  else
    let addr := u32 (raw + 4) in
    let aligned := Z.land (u32 (addr + align - 1)) (Z.lnot (align - 1)) in
    Some (wr m (u32 (aligned - 4)) raw, aligned).

(** Whether [block] is linked in the heap list; [inl] is a broken list. *)
Fixpoint lookup_block (fuel : nat) (m : memory) (block walk : Z) : option (unit + bool) :=
  match fuel with
  | O => None
  | S fuel =>
      if walk =? 0 then Some (inr false)
      else if negb (heap_addr_in_range walk) then Some (inl tt)
      else if negb (b_magic m walk =? HEAP_MAGIC) then Some (inl tt)
      else if walk =? block then Some (inr true)
      else lookup_block fuel m block (b_next m walk)
  end.

(** Merging neighbours that are free. *)
Fixpoint coalesce (fuel : nat) (m : memory) (curr : Z) : option memory :=
  match fuel with
  | O => None
  | S fuel =>
      if curr =? 0 then Some m
      else if negb (b_magic m curr =? HEAP_MAGIC) then Some m
      else
        let next := b_next m curr in
        if negb (b_is_free m curr =? 0) && negb (next =? 0) then
          if negb (b_magic m next =? HEAP_MAGIC) then Some m
          else if negb (b_is_free m next =? 0) then
            let next_size := b_size m next in
            let next_next := b_next m next in
            let m := wr m next 0 in
            let m := wr m (curr + 4) (u32 (b_size m curr + u32 (next_size + HDR))) in
            coalesce fuel (wr m (curr + 12) next_next) curr
          else coalesce fuel m next
        else coalesce fuel m next
  end.

Definition kfree_impl (ptr : Z) (m : memory) : option memory :=
  if ptr =? 0 then Some m
  else
    let block := u32 (ptr - HDR) in
    if negb (heap_addr_in_range block) then Some m
    else
      r ← lookup_block walk_fuel m block HEAP_START;
      match r with
      | inl _ | inr false => Some m
      | inr true =>
          if negb (b_magic m block =? HEAP_MAGIC) then Some m
          else
            let bsize := b_size m block in
            if bsize <? 4 then Some m
            else if negb (m (u32 (ptr + bsize - 4)) =? HEAP_TAIL_MAGIC) then Some m
            else if negb (b_is_free m block =? 0) then Some m
            else coalesce walk_fuel (wr m (block + 8) 1) HEAP_START
      end.

Definition kfree (ptr : Z) (m : memory) : option memory :=
  if ptr =? 0 then Some m
  else
    let block := u32 (ptr - HDR) in
    if heap_addr_in_range block && (b_magic m block =? HEAP_MAGIC) then kfree_impl ptr m
    else
      let raw := m (u32 (ptr - 4)) in
      if heap_addr_in_range raw then
        let rblock := u32 (raw - HDR) in
        if b_magic m rblock =? HEAP_MAGIC then kfree_impl raw m else Some m
      else Some m.

Fixpoint free_sum (fuel : nat) (m : memory) (current acc : Z) : option Z :=
  match fuel with
  | O => None
  | S fuel =>
      if current =? 0 then Some acc
      else
        let acc := if negb (b_is_free m current =? 0) then u32 (acc + b_size m current) else acc in
        free_sum fuel m (b_next m current) acc
  end.

Definition get_free_heap_memory (m : memory) : option Z := free_sum walk_fuel m HEAP_START 0.

(** ** The heap as a list of blocks

    The abstract heap is the list of its blocks, size and free flag, in
    address order; the blocks fill the window without a gap. *)

Abbreviation blocks := (list (Z * bool)).

(** The address after the blocks [l] laid out from [a]. *)
Fixpoint fin (a : Z) (l : blocks) : Z :=
  match l with [] => a | (sz, _) :: r => fin (a + HDR + sz) r end.

Definition link (e : Z) : Z := if e =? HEAP_END then 0 else e.

(** The header and the canary of one block. *)
Record blk (m : memory) (a sz : Z) (fr : bool) : Prop := {
  k_min : 8 <= sz;
  k_mod : sz mod 8 = 0;
  k_magic : b_magic m a = HEAP_MAGIC;
  k_size : b_size m a = sz;
  k_free : b_is_free m a = if fr then 1 else 0;
  k_next : b_next m a = link (a + HDR + sz);
  k_tail : fr = false -> m (a + HDR + sz - 4) = HEAP_TAIL_MAGIC
}.

Fixpoint seg (m : memory) (a : Z) (l : blocks) : Prop :=
  match l with [] => True | (sz, fr) :: r => blk m a sz fr /\ seg m (a + HDR + sz) r end.

Definition heap_rep (m : memory) (l : blocks) : Prop :=
  l <> [] /\ seg m HEAP_START l /\ fin HEAP_START l = HEAP_END.

(** What [kfree] leaves: runs of free blocks are one block. *)
Fixpoint merged (sz : Z) (fr : bool) (l : blocks) : blocks :=
  match l with
  | [] => [(sz, fr)]
  | (sz', fr') :: r =>
      if fr && fr' then merged (sz + (sz' + HDR)) true r else (sz, fr) :: merged sz' fr' r
  end.
Definition merge (l : blocks) : blocks :=
  match l with [] => [] | (sz, fr) :: r => merged sz fr r end.

(** What an allocation of [size] bytes puts in the place of a block of [sz]. *)
Definition carved (sz size : Z) : blocks :=
  if size + HDR + 8 <=? sz then [(size, false); (sz - size - HDR, true)] else [(sz, false)].

(** [b] is the address of a used block of [sz] bytes. *)
Definition used (a : Z) (l : blocks) (b sz : Z) : Prop :=
  exists l1 l2, l = l1 ++ (sz, false) :: l2 /\ b = fin a l1.

(** No two free blocks are neighbours. *)
Fixpoint no_adj (l : blocks) : bool :=
  match l with
  | (_, f1) :: ((_, f2) :: _) as r => negb (f1 && f2) && no_adj r
  | _ => true
  end.

(** *** A run of clients

    What clients do: allocate, free a live allocation, store a word in a live
    allocation.  A live allocation is its pointer, the size asked for and the
    words stored in it so far, by their index. *)
Inductive hevent :=
  | EMalloc (n : Z)
  | EFree (i : nat)
  | EWrite (i : nat) (off v : Z).

Abbreviation live := (list (Z * Z * gmap Z Z)).

Definition hstep (e : hevent) (s : memory * live) : option (memory * live) :=
  let '(m, lv) := s in
  match e with
  | EMalloc n =>
      '(m, p) ← kmalloc n m;
      Some (m, if p =? 0 then lv else (p, n, ∅) :: lv)
  | EFree i =>
      match lv !! i with
      | Some (p, _, _) => m ← kfree p m; Some (m, delete i lv)
      | None => Some (m, lv)
      end
  | EWrite i off v =>
      match lv !! i with
      | Some (p, n, c) =>
          if (0 <=? off) && (4 * off + 4 <=? n)
          then Some (wr m (p + 4 * off) v, <[i := (p, n, <[off := v]> c)]> lv) else Some (m, lv)
      | None => Some (m, lv)
      end
  end.

Fixpoint hrun (es : list hevent) (s : memory * live) : option (memory * live) :=
  match es with [] => Some s | e :: r => s ← hstep e s; hrun r s end.

Definition hevent_ok (e : hevent) : Prop :=
  match e with EMalloc n => 0 <= n <= 2 ^ 32 - 16 | _ => True end.

Ltac hl := unfold HEAP_END, HEAP_START, HEAP_SIZE, HDR in *; lia.

(** *** Blocks and segments *)

Lemma wr_eq m a v : wr m a v a = v.
Proof. unfold wr. by rewrite Z.eqb_refl. Qed.

Lemma wr_ne m a v b : b <> a -> wr m a v b = m b.
Proof. intros. unfold wr. by case_if; b2p. Qed.

Lemma fin_app a l1 l2 : fin a (l1 ++ l2) = fin (fin a l1) l2.
Proof. revert a. induction l1 as [|[sz fr] l1 IH]; intros a; [done|]. cbn. apply IH. Qed.

Lemma seg_app m a l1 l2 : seg m a (l1 ++ l2) <-> seg m a l1 /\ seg m (fin a l1) l2.
Proof. revert a. induction l1 as [|[sz fr] l1 IH]; intros a; cbn; [tauto|]. rewrite IH. tauto. Qed.

Lemma blk_agree m m' a sz fr :
  (forall w, a <= w < a + HDR + sz -> m' w = m w) -> blk m a sz fr -> blk m' a sz fr.
Proof.
  intros Ha [H1 H2 H3 H4 H5 H6 H7]. unfold b_magic, b_size, b_is_free, b_next in *.
  split; unfold b_magic, b_size, b_is_free, b_next; try done; try (rewrite Ha; [done|hl]).
Qed.

(** Every block takes at least 24 bytes of the window. *)
Lemma fin_len m a l : seg m a l -> a + 24 * Z.of_nat (length l) <= fin a l.
Proof.
  revert a. induction l as [|[sz fr] l IH]; intros a; cbn [seg fin length]; [lia|].
  intros [Hb Hs]. specialize (IH _ Hs). pose proof (k_min _ _ _ _ Hb). hl.
Qed.

Lemma seg_agree m m' a l :
  (forall w, a <= w < fin a l -> m' w = m w) -> seg m a l -> seg m' a l.
Proof.
  revert a. induction l as [|[sz fr] l IH]; intros a Ha; cbn [seg fin] in *; [done|].
  intros [Hb Hs]. pose proof (fin_len _ _ _ Hs). pose proof (k_min _ _ _ _ Hb). split.
  - eapply blk_agree; [|done]. intros. apply Ha. hl.
  - apply IH; [|done]. intros. apply Ha. hl.
Qed.

(** The [next] field of a block leads to what follows it. *)
Definition ptr (a : Z) (l : blocks) : Z := match l with [] => 0 | _ => a end.

Lemma next_ptr m a sz fr r :
  blk m a sz fr -> seg m (a + HDR + sz) r -> fin (a + HDR + sz) r = HEAP_END ->
  b_next m a = ptr (a + HDR + sz) r.
Proof.
  intros Hb Hs Hf. rewrite (k_next _ _ _ _ Hb). unfold link, ptr.
  destruct r as [|[sz' fr'] r].
  - cbn in Hf. rewrite Hf. by rewrite Z.eqb_refl.
  - pose proof (fin_len _ _ _ Hs). cbn [length] in *. case_if; b2p; [lia|done].
Qed.

Lemma heap_len m l : heap_rep m l -> (length l < walk_fuel)%nat.
Proof.
  intros (_ & Hs & Hf). pose proof (fin_len _ _ _ Hs) as H. unfold walk_fuel.
  change (HEAP_SIZE / HDR + 1) with 1048577. rewrite Hf in H. apply Nat2Z.inj_lt.
  rewrite Z2Nat.id by lia. hl.
Qed.

(** *** The search *)

(** The smallest free block of at least [size] bytes, the first of them. *)
Definition best_of (size : Z) (l : blocks) (b : Z) : Prop :=
  (b = 0 /\ forall sz, (sz, true) ∈ l -> sz < size) \/
  (exists l1 sz l2, l = l1 ++ (sz, true) :: l2 /\ b = fin HEAP_START l1 /\ size <= sz /\
     (forall sz', (sz', true) ∈ l1 -> size <= sz' -> sz < sz') /\
     (forall sz', (sz', true) ∈ l2 -> size <= sz' -> sz <= sz')).


Lemma best_step m size l sz fr b :
  seg m HEAP_START l -> best_of size l b -> sz < 2 ^ 32 - 1 ->
  best_of size (l ++ [(sz, fr)])
    (if fr && (size <=? sz) then
       if sz <? (if b =? 0 then 2 ^ 32 - 1 else b_size m b) then fin HEAP_START l else b
     else b).
Proof.
  intros Hseg [[-> H]|(l1 & s & l2 & -> & -> & Hs & H1 & H2)] Hsz.
  - rewrite Z.eqb_refl, (proj2 (Z.ltb_lt sz (2 ^ 32 - 1))) by lia.
    case_if; b2p.
    + right. exists l, sz, []. split_and!; try done; [by destruct fr|..].
      * intros s Hin. specialize (H _ Hin). lia.
      * intros s Hin. by apply not_elem_of_nil in Hin.
    + left. split; [done|]. intros s [Hin|Hin]%elem_of_app; [auto|].
      apply list_elem_of_singleton in Hin. injection Hin as -> <-. cbn in *. lia.
  - apply seg_app in Hseg as [Hl1 [Hb Hl2]]. rewrite (k_size _ _ _ _ Hb).
    pose proof (fin_len _ _ _ Hl1).
    rewrite (proj2 (Z.eqb_neq (fin HEAP_START l1) 0)) by hl.
    assert (sz < s -> fr = true -> size <= sz ->
      best_of size ((l1 ++ (s, true) :: l2) ++ [(sz, fr)]) (fin HEAP_START (l1 ++ (s, true) :: l2))) as Hnew.
    { intros Hlt -> Hge. right. exists (l1 ++ (s, true) :: l2), sz, []. split_and!; try done.
      - intros s' [Hin|Hin]%elem_of_app Hge'; [specialize (H1 _ Hin Hge'); lia|].
        apply elem_of_cons in Hin as [Hin|Hin]; [injection Hin as ->; lia|]. specialize (H2 _ Hin Hge'). lia.
      - intros s' Hin. by apply not_elem_of_nil in Hin. }
    assert (~ (sz < s /\ fr = true /\ size <= sz) ->
      best_of size ((l1 ++ (s, true) :: l2) ++ [(sz, fr)]) (fin HEAP_START l1)) as Hold.
    { intros Hn. right. exists l1, s, (l2 ++ [(sz, fr)]). rewrite <- app_assoc. split_and!; try done.
      intros s' [Hin|Hin]%elem_of_app Hge; [auto|].
      apply list_elem_of_singleton in Hin. injection Hin as -> <-. lia. }
    destruct fr; cbn [andb]; [|apply Hold; intuition congruence].
    case_if; b2p; [|apply Hold; lia]. case_if; b2p; [apply Hnew; lia|apply Hold; lia].
Qed.

Lemma best_fit_ok m size l : forall fuel pre b,
  (length l < fuel)%nat -> seg m HEAP_START (pre ++ l) -> fin HEAP_START (pre ++ l) = HEAP_END ->
  best_of size pre b ->
  exists b', best_fit fuel m size (ptr (fin HEAP_START pre) l) b = Some (inr b') /\
    best_of size (pre ++ l) b'.
Proof.
  induction l as [|[sz fr] l IH]; intros [|fuel] pre b Hlen Hseg Hfin Hb; cbn [length] in Hlen; try lia.
  - exists b. by rewrite app_nil_r.
  - pose proof Hseg as Hseg'. apply seg_app in Hseg' as [Hpre [Hk Hl]].
    pose proof (fin_len _ _ _ Hpre). pose proof (fin_len _ _ _ Hl). rewrite fin_app in Hfin. cbn [fin] in Hfin.
    cbn [best_fit ptr]. rewrite (proj2 (Z.eqb_neq (fin HEAP_START pre) 0)) by hl.
    rewrite (k_magic _ _ _ _ Hk), Z.eqb_refl, (k_free _ _ _ _ Hk), (k_size _ _ _ _ Hk).
    rewrite (next_ptr _ _ _ _ _ Hk Hl Hfin). cbn [negb]. cbv zeta.
    replace (negb ((if fr then 1 else 0) =? 0)) with fr by by destruct fr.
    destruct (IH fuel (pre ++ [(sz, fr)])
      (if fr && (size <=? sz) then
         if sz <? (if b =? 0 then 2 ^ 32 - 1 else b_size m b) then fin HEAP_START pre else b
       else b)) as (b' & Hb' & Hbest).
    + lia.
    + by rewrite <- app_assoc.
    + by rewrite <- app_assoc, fin_app.
    + eapply best_step; [done..|]. hl.
    + exists b'. rewrite <- app_assoc in Hbest. split; [|done].
      rewrite fin_app in Hb'. exact Hb'.
Qed.

(** *** Carving a block *)

Lemma wr_header_at m a g s f n w :
  wr_header m a g s f n w =
    if w =? a + 12 then n else if w =? a + 8 then f else if w =? a + 4 then s
    else if w =? a then g else m w.
Proof. done. Qed.

(** The memory [kmalloc] leaves when it takes the block at [b]. *)
Definition taken (m : memory) (b size : Z) : memory :=
  let m' := carve m b size in wr m' (u32 (u32 (b + HDR) + b_size m' b - 4)) HEAP_TAIL_MAGIC.

Lemma wr_case m a v w : wr m a v w = if w =? a then v else m w.
Proof. done. Qed.

Ltac wr_eval :=
  repeat (rewrite wr_header_at || rewrite wr_case);
  repeat (case_if; b2p; try (exfalso; hl)).


Ltac fields := unfold b_magic, b_size, b_is_free, b_next in *.

Lemma taken_ok m b sz size :
  blk m b sz true -> 0 <= b -> b + HDR + sz <= HEAP_END -> 8 <= size <= sz -> size mod 8 = 0 ->
  seg (taken m b size) b (carved sz size) /\
  (forall w, ~ (b <= w < b + HDR + sz) -> taken m b size w = m w).
Proof.
  intros [Hmin Hm8 Hmag Hsz Hfr Hnx _] Hb0 Hend Hsize Hmod. unfold taken, carve, carved. fields.
  rewrite Hsz, (u32_small (size + HDR + 8)) by (unfold is_u32; hl).
  rewrite (u32_small (b + HDR)) by (unfold is_u32; hl).
  destruct (size + HDR + 8 <=? sz) eqn:Hsplit; b2p; cbv zeta.
  - rewrite (u32_small (b + HDR + size)), (u32_small (sz - size - HDR)) by (unfold is_u32; hl).
    assert (wr (wr (wr (wr_header m (b + HDR + size) HEAP_MAGIC (sz - size - HDR) 1 (m (b + 12)))
       (b + 4) size) (b + 12) (b + HDR + size)) (b + 8) 0 (b + 4) = size) as -> by (wr_eval; done).
    rewrite (u32_small (b + HDR + size - 4)) by (unfold is_u32; hl).
    split; [split; [|split; [|done]]|].
    + split; fields; try done; try (wr_eval; done); [lia|].
      unfold link. rewrite (proj2 (Z.eqb_neq (b + HDR + size) HEAP_END)) by hl. wr_eval. done.
    + split; fields; try done; try (wr_eval; done); [hl| |].
      * rewrite Zminus_mod, (Zminus_mod sz size), Hm8, Hmod. done.
      * rewrite <- (f_equal link (x := b + HDR + sz)) by lia. rewrite <- Hnx. wr_eval. done.
    + intros w Hw. wr_eval. done.
  - assert (wr m (b + 8) 0 (b + 4) = sz) as -> by (wr_eval; done).
    rewrite (u32_small (b + HDR + sz - 4)) by (unfold is_u32; hl).
    split; [split; [|done]|].
    + split; fields; try done; try (wr_eval; done).
    + intros w Hw. wr_eval. done.
Qed.

Lemma request_ok n : 0 < n <= 2 ^ 32 - 16 ->
  (n + 4 <= request n <= n + 18 /\ 8 <= request n) /\ request n mod 8 = 0.
Proof.
  intros Hn. unfold request, align8.
  assert (forall x, Z.land x (Z.lnot 7) = x / 8 * 8) as Hl.
  { intros x. change 7 with (Z.ones 3).
    rewrite <- Z.ldiff_land, Z.ldiff_ones_r by lia. rewrite Z.shiftl_mul_pow2, Z.shiftr_div_pow2 by lia. done. }
  rewrite !Hl. word_lia.
Qed.

Lemma fin_carved sz size a l : size <= sz -> fin a (carved sz size ++ l) = fin (a + HDR + sz) l.
Proof.
  intros. unfold carved. case_if; cbn [app fin]; [|done]. f_equal. lia.
Qed.

(** Replacing a block by other blocks of the same extent. *)
Lemma seg_replace m m' a l1 x l2 new :
  seg m a (l1 ++ x :: l2) -> seg m' (fin a l1) new -> fin (fin a l1) new = fin (fin a l1) [x] ->
  (forall w, ~ (fin a l1 <= w < fin (fin a l1) [x]) -> m' w = m w) ->
  seg m' a (l1 ++ new ++ l2).
Proof.
  intros Hs Hn Hf Hag. apply seg_app in Hs as [H1 H2]. destruct x as [sz fr]. destruct H2 as [Hk H2].
  cbn [fin] in *. pose proof (k_min _ _ _ _ Hk).
  apply seg_app. split; [|apply seg_app; split; [done|]].
  - eapply seg_agree; [|done]. intros. apply Hag. lia.
  - rewrite Hf. eapply seg_agree; [|done]. intros. apply Hag. lia.
Qed.

(** [kmalloc] on a well-formed heap. *)
Lemma kmalloc_rep m l n :
  heap_rep m l -> n <> 0 -> 8 <= request n -> request n mod 8 = 0 ->
  exists m' p, kmalloc n m = Some (m', p) /\
    ((p = 0 /\ m' = m /\ forall sz, (sz, true) ∈ l -> sz < request n) \/
     (exists l1 sz l2, l = l1 ++ (sz, true) :: l2 /\ p = fin HEAP_START l1 + HDR /\
        request n <= sz /\
        (forall sz', (sz', true) ∈ l1 -> request n <= sz' -> sz < sz') /\
        (forall sz', (sz', true) ∈ l2 -> request n <= sz' -> sz <= sz') /\
        heap_rep m' (l1 ++ carved sz (request n) ++ l2) /\
        (forall w, ~ (p - HDR <= w < p + sz) -> m' w = m w))).
Proof.
  intros Hr Hn Hreq Hmod. pose proof (heap_len _ _ Hr) as Hlen.
  destruct Hr as (Hnil & Hs & Hf).
  destruct (best_fit_ok m (request n) l walk_fuel [] 0 Hlen Hs Hf) as (b & Hb & Hbest).
  { left. split; [done|]. intros sz Hin. by apply not_elem_of_nil in Hin. }
  unfold kmalloc. rewrite (proj2 (Z.eqb_neq n 0)) by lia. cbv zeta.
  change (HEAP_START <? RESERVED_END) with false. cbv iota.
  destruct l as [|x l]; [done|]. change (ptr (fin HEAP_START []) (x :: l)) with HEAP_START in Hb.
  change ([] ++ x :: l) with (x :: l) in Hbest. revert Hs Hf Hbest. generalize (x :: l). clear Hnil Hlen x l.
  intros l Hs Hf Hbest. rewrite Hb. sb. cbv iota.
  destruct Hbest as [[-> Hno]|(l1 & sz & l2 & -> & -> & Hsz & H1 & H2)].
  - exists m, 0. split; [done|]. by left.
  - pose proof Hs as Hs'. apply seg_app in Hs' as [Hl1 [Hk Hl2]].
    pose proof (fin_len _ _ _ Hl1). pose proof (fin_len _ _ _ Hl2). rewrite fin_app in Hf. cbn [fin] in Hf.
    rewrite (proj2 (Z.eqb_neq (fin HEAP_START l1) 0)) by hl.
    assert (0 <= fin HEAP_START l1) as Ha1 by hl.
    assert (fin HEAP_START l1 + HDR + sz <= HEAP_END) as Ha2 by hl. assert (8 <= request n <= sz) as Ha3 by lia.
    pose proof (taken_ok m (fin HEAP_START l1) sz (request n) Hk Ha1 Ha2 Ha3 Hmod) as Hp.
    destruct Hp as [Ht Hag].
    exists (taken m (fin HEAP_START l1) (request n)), (fin HEAP_START l1 + HDR).
    split. { unfold taken. rewrite (u32_small (fin HEAP_START l1 + HDR)) by (unfold is_u32; hl). done. }
    right. exists l1, sz, l2. split_and!; try done.
    + split; [|split].
      * destruct l1; [|done]. unfold carved. by case_if.
      * eapply seg_replace; [exact Hs|done| |exact Hag].
        rewrite <- (app_nil_r (carved _ _)), fin_carved by done. done.
      * rewrite fin_app, fin_carved by done. done.
    + intros w Hw. apply Hag. intros ?. apply Hw. hl.
Qed.

(** *** Freeing *)


Lemma lookup_ok m x l2 : forall l1 fuel a,
  (length (l1 ++ x :: l2) < fuel)%nat -> HEAP_START <= a -> seg m a (l1 ++ x :: l2) ->
  fin a (l1 ++ x :: l2) = HEAP_END ->
  lookup_block fuel m (fin a l1) a = Some (inr true).
Proof.
  intros l1 fuel a. remember (l1 ++ x :: l2) as l eqn:El.
  revert l1 fuel a El. induction l as [|[sz fr] l IH]; intros l1 [|fuel] a El Hlen Ha Hs Hf;
    cbn [length] in Hlen; try lia; [by destruct l1|].
  destruct Hs as [Hk Hs]. cbn [fin] in Hf. pose proof (fin_len _ _ _ Hs). pose proof (k_min _ _ _ _ Hk).
  cbn [lookup_block]. rewrite (proj2 (Z.eqb_neq a 0)) by hl.
  unfold heap_addr_in_range. cbv zeta.
  rewrite (proj2 (Z.leb_le HEAP_START a)), (proj2 (Z.ltb_lt a (HEAP_START + HEAP_SIZE))) by hl.
  rewrite (k_magic _ _ _ _ Hk), Z.eqb_refl. cbn [andb negb].
  destruct l1 as [|y l1]; cbn in El; injection El as <- ->; cbn [fin]; [by rewrite Z.eqb_refl|].
  pose proof Hs as Hs'. apply seg_app in Hs' as [Hs' _]. pose proof (fin_len _ _ _ Hs').
  rewrite (proj2 (Z.eqb_neq a _)) by hl.
  rewrite (next_ptr _ _ _ _ _ Hk Hs Hf). unfold ptr. destruct (l1 ++ x :: l2) eqn:E; [by destruct l1|].
  rewrite <- E in *. apply IH; [done|lia|hl|done..].
Qed.

Lemma used_cons a sz fr l b s :
  used a ((sz, fr) :: l) b s -> (fr = false /\ b = a /\ s = sz) \/ used (a + HDR + sz) l b s.
Proof.
  intros (l1 & l2 & E & ->). destruct l1 as [|y l1]; cbn in E.
  - injection E as -> -> _. by left.
  - injection E as <- ->. right. by exists l1, l2.
Qed.

Lemma used_app_l a l1 l2 b s : used a l1 b s -> used a (l1 ++ l2) b s.
Proof. intros (k1 & k2 & -> & ->). exists k1, (k2 ++ l2). by rewrite <- app_assoc. Qed.

Lemma used_app_r a l1 l2 b s : used (fin a l1) l2 b s -> used a (l1 ++ l2) b s.
Proof. intros (k1 & k2 & -> & ->). exists (l1 ++ k1), k2. by rewrite <- app_assoc, fin_app. Qed.

Lemma used_app a l1 l2 b s : used a (l1 ++ l2) b s -> used a l1 b s \/ used (fin a l1) l2 b s.
Proof.
  revert a. induction l1 as [|[sz fr] l1 IH]; intros a H; [by right|].
  apply used_cons in H as [(-> & -> & ->)|H].
  - left. by exists [], l1.
  - destruct (IH _ H) as [H'|H']; [left|by right]. by apply (used_app_r a [(sz, fr)]).
Qed.

(** Used blocks stay when a free block is replaced by blocks of its extent. *)
Lemma used_replace a l1 sz l2 new b s :
  used a (l1 ++ (sz, true) :: l2) b s -> fin (fin a l1) new = fin a l1 + HDR + sz ->
  used a (l1 ++ new ++ l2) b s.
Proof.
  intros H Hf. apply used_app in H as [H|H]; [by apply used_app_l|].
  apply used_cons in H as [(? & _)|H]; [done|]. rewrite <- Hf in H. by apply used_app_r, used_app_r.
Qed.

(** One merge: the free block at [a] takes over its free neighbour. *)
Lemma join_ok m a sz sz' l :
  blk m a sz true -> blk m (a + HDR + sz) sz' true -> seg m (a + HDR + sz + HDR + sz') l ->
  0 < a -> fin (a + HDR + sz + HDR + sz') l = HEAP_END ->
  let m1 := wr (wr (wr m (a + HDR + sz) 0) (a + 4) (sz + (sz' + HDR))) (a + 12) (m (a + HDR + sz + 12)) in
  seg m1 a ((sz + (sz' + HDR), true) :: l) /\
  (forall w, ~ (a <= w < a + HDR + sz + HDR + sz') -> m1 w = m w).
Proof.
  intros [H1 H2 H3 H4 H5 H6 _] [H1' H2' H3' H4' H5' H6' _] Hs Ha Hf m1. fields. split; [split|].
  - split; fields; subst m1; [hl| | | | | |done].
    + rewrite Zplus_mod, (Zplus_mod sz'), H2, H2'. done.
    + wr_eval. done.
    + wr_eval. done.
    + wr_eval. done.
    + wr_eval. rewrite H6'. f_equal. lia.
  - replace (a + HDR + (sz + (sz' + HDR))) with (a + HDR + sz + HDR + sz') by lia.
    eapply seg_agree; [|done]. intros w Hw. subst m1. wr_eval. done.
  - intros w Hw. subst m1. wr_eval. done.
Qed.

Lemma coalesce_ok : forall l fuel m a sz fr,
  (length l + 1 < fuel)%nat -> 0 < a -> seg m a ((sz, fr) :: l) -> fin (a + HDR + sz) l = HEAP_END ->
  exists m', coalesce fuel m a = Some m' /\ seg m' a (merged sz fr l) /\
    (forall w, w < a -> m' w = m w) /\
    (forall b s w, used a ((sz, fr) :: l) b s -> b <= w < b + HDR + s -> m' w = m w).
Proof.
  induction l as [|[sz' fr'] l IH]; intros [|fuel] m a sz fr Hlen Ha [Hk Hs] Hf; cbn [length] in Hlen; try lia;
    cbn [coalesce]; rewrite (proj2 (Z.eqb_neq a 0)) by hl;
    rewrite (k_magic _ _ _ _ Hk), Z.eqb_refl, (next_ptr _ _ _ _ _ Hk Hs Hf); cbn [negb ptr merged]; cbv zeta.
  - rewrite Z.eqb_refl, andb_false_r. destruct fuel; [lia|]. cbn [coalesce]. rewrite Z.eqb_refl.
    exists m. split_and!; try done.
  - destruct Hs as [Hk' Hs]. cbn [fin] in Hf. pose proof (fin_len _ _ _ Hs).
    pose proof (k_min _ _ _ _ Hk). pose proof (k_min _ _ _ _ Hk').
    rewrite (proj2 (Z.eqb_neq (a + HDR + sz) 0)) by hl.
    rewrite (k_free _ _ _ _ Hk), (k_magic _ _ _ _ Hk'), (k_free _ _ _ _ Hk'), Z.eqb_refl.
    assert (exists m', coalesce fuel m (a + HDR + sz) = Some m' /\
      seg m' a ((sz, fr) :: merged sz' fr' l) /\ (forall w, w < a -> m' w = m w) /\
      (forall b s w, used a ((sz, fr) :: (sz', fr') :: l) b s -> b <= w < b + HDR + s -> m' w = m w)) as Hskip.
    { destruct (IH fuel m (a + HDR + sz) sz' fr') as (m' & Hm' & Hseg & Hlow & Hus); [lia|hl|done..|].
      exists m'. split_and!; [done| |intros; apply Hlow; hl|].
      - split; [|done]. eapply blk_agree; [|done]. intros. apply Hlow. lia.
      - intros b s w Hu Hw. apply used_cons in Hu as [(_ & -> & ->)|Hu]; [apply Hlow; hl|eauto]. }
    destruct fr, fr'; cbn [Z.eqb negb andb]; [|exact Hskip..]. clear Hskip.
    + destruct (join_ok m a sz sz' l Hk Hk' Hs Ha Hf) as [Hj Hag].
      destruct (IH fuel _ a _ true ltac:(lia) Ha Hj) as (m' & Hm' & Hseg & Hlow & Hus).
      { rewrite <- Hf. f_equal. lia. }
      exists m'. split_and!; [|done|..].
      * assert (b_size (wr m (a + HDR + sz) 0) a = sz) as ->
          by (unfold b_size; rewrite wr_ne by hl; apply (k_size _ _ _ _ Hk)).
        rewrite (k_size _ _ _ _ Hk'), (u32_small (sz' + HDR)), u32_small by (unfold is_u32; hl). exact Hm'.
      * intros w Hw. rewrite Hlow by done. apply Hag. hl.
      * intros b s w Hu Hw. apply used_cons in Hu as [(? & _)|Hu]; [done|].
        apply used_cons in Hu as [(? & _)|Hu]; [done|].
        assert (a + HDR + sz + HDR + sz' <= b) by (destruct Hu as (? & ? & -> & ->); apply seg_app in Hs as [Hs _]; apply fin_len in Hs; lia).
        rewrite (Hus b s w); [|destruct Hu as (u1 & u2 & -> & ->); exists ((sz + (sz' + HDR), true) :: u1), u2; split; [done|cbn [fin]; f_equal; lia]|done].
        apply Hag. lia.
Qed.

(** Two blocks of a heap are the same or lie apart. *)
Lemma blocks_apart m x l2 y k2 : forall l1 k1 a,
  seg m a (l1 ++ x :: l2) -> l1 ++ x :: l2 = k1 ++ y :: k2 ->
  (fin a l1 = fin a k1 /\ x = y) \/ fin a l1 + HDR + x.1 <= fin a k1 \/ fin a k1 + HDR + y.1 <= fin a l1.
Proof.
  induction l1 as [|[s f] l1 IH]; intros [|[s' f'] k1] a Hs E; cbn in E.
  - injection E as -> _. by left.
  - injection E as -> ->. right. left. destruct Hs as [_ Hs]. apply seg_app in Hs as [Hs _].
    apply fin_len in Hs. cbn [fin fst] in *. lia.
  - injection E as <- <-. right. right. destruct Hs as [_ Hs]. apply seg_app in Hs as [Hs _].
    apply fin_len in Hs. cbn [fin fst] in *. lia.
  - injection E as <- <- E. cbn [fin]. destruct Hs as [_ Hs]. by apply IH.
Qed.

Lemma merged_snoc_used sz fr l1 s l2 :
  exists l1', merged sz fr (l1 ++ (s, false) :: l2) = l1' ++ merged s false l2 /\
    forall a, fin a l1' = fin a ((sz, fr) :: l1).
Proof.
  revert sz fr. induction l1 as [|[s1 f1] l1 IH]; intros sz fr; cbn [app merged].
  - rewrite andb_false_r. exists [(sz, fr)]. done.
  - destruct (fr && f1) eqn:E.
    + destruct (IH (sz + (s1 + HDR)) true) as (l1' & -> & Hf). exists l1'. split; [done|].
      intros a. rewrite Hf. cbn [fin]. f_equal. lia.
    + destruct (IH s1 f1) as (l1' & -> & Hf). exists ((sz, fr) :: l1'). split; [done|].
      intros a. cbn [fin]. rewrite Hf. done.
Qed.

(** Merging keeps every used block where it is. *)
Lemma used_merge a l b s : used a l b s -> used a (merge l) b s.
Proof.
  intros (l1 & l2 & -> & ->). destruct l1 as [|[sz fr] l1]; cbn [app merge].
  - exists [], (match l2 with [] => [] | (x, y) :: r => merged x y r end).
    split; [|done]. by destruct l2 as [|[]].
  - destruct (merged_snoc_used sz fr l1 s l2) as (l1' & -> & Hf).
    exists l1', (match l2 with [] => [] | (x, y) :: r => merged x y r end).
    split; [by destruct l2 as [|[]]|]. by rewrite Hf.
Qed.

Lemma fin_merged sz fr l a : fin a (merged sz fr l) = fin a ((sz, fr) :: l).
Proof.
  revert sz fr a. induction l as [|[s f] l IH]; intros sz fr a; cbn [merged]; [done|].
  case_if; b2p; cbn [fin]; rewrite IH; cbn [fin]; f_equal; lia.
Qed.

Lemma merged_nonnil sz fr l : merged sz fr l <> [].
Proof. revert sz fr. induction l as [|[s f] l IH]; intros sz fr; cbn [merged]; [done|]. by case_if. Qed.

(** [kfree] of a used block. *)
Lemma kfree_rep m l1 sz l2 :
  heap_rep m (l1 ++ (sz, false) :: l2) ->
  exists m', kfree (fin HEAP_START l1 + HDR) m = Some m' /\
    heap_rep m' (merge (l1 ++ (sz, true) :: l2)) /\
    (forall b s w, used HEAP_START (l1 ++ (sz, true) :: l2) b s -> b <= w < b + HDR + s -> m' w = m w).
Proof.
  intros Hr. pose proof (heap_len _ _ Hr) as Hlen. destruct Hr as (Hnil & Hs & Hf).
  pose proof Hs as Hs'. apply seg_app in Hs' as [Hl1 [Hk Hl2]].
  pose proof (fin_len _ _ _ Hl1). pose proof (fin_len _ _ _ Hl2). pose proof (k_min _ _ _ _ Hk).
  pose proof Hf as Hf'. rewrite fin_app in Hf'. cbn [fin] in Hf'.
  pose proof (lookup_ok m _ _ l1 walk_fuel HEAP_START Hlen ltac:(lia) Hs Hf) as Hlk.
  set (b := fin HEAP_START l1) in *.
  assert (u32 (b + HDR - HDR) = b) as Hb by (rewrite u32_small; [lia|unfold is_u32; hl]).
  assert (heap_addr_in_range b = true) as Hin by (unfold heap_addr_in_range; cbv zeta; hl).
  unfold kfree, kfree_impl. rewrite (proj2 (Z.eqb_neq (b + HDR) 0)) by hl. cbv zeta.
  rewrite Hb, Hin, (k_magic _ _ _ _ Hk), Z.eqb_refl. cbn [andb negb]. rewrite Hlk. sb. cbv iota.
  rewrite (k_size _ _ _ _ Hk), (k_free _ _ _ _ Hk), (u32_small (b + HDR + sz - 4)) by (unfold is_u32; hl).
  rewrite (k_tail _ _ _ _ Hk eq_refl), Z.eqb_refl, (proj2 (Z.ltb_ge sz 4)) by lia. cbn [negb Z.eqb].
  assert (seg (wr m (b + 8) 1) HEAP_START (l1 ++ (sz, true) :: l2)) as Hs1.
  { change ((sz, true) :: l2) with ([(sz, true)] ++ l2). eapply seg_replace; [exact Hs| |done|].
    - split; [|done]. destruct Hk as [K1 K2 K3 K4 K5 K6 _]. fold b. split; fields; try done; wr_eval; done.
    - cbn [fin]. fold b. intros w Hw. wr_eval. done. }
  assert (fin HEAP_START (l1 ++ (sz, true) :: l2) = HEAP_END) as Hf1 by (by rewrite fin_app).
  assert (length (l1 ++ (sz, true) :: l2) < walk_fuel)%nat as Hlen1
    by (revert Hlen; rewrite !length_app; cbn [length]; lia).
  destruct (l1 ++ (sz, true) :: l2) as [|[s0 f0] l] eqn:El; [by destruct l1|].
  cbn [length] in Hlen1.
  destruct (coalesce_ok l walk_fuel (wr m (b + 8) 1) HEAP_START s0 f0) as (m' & Hm' & Hseg & _ & Hus);
    [lia|hl|done|done|].
  exists m'. split; [done|]. cbn [merge].
  split; [split; [apply merged_nonnil|split; [done|by rewrite fin_merged]]|].
  intros b' s w Hu Hw. rewrite (Hus b' s w Hu Hw). apply wr_ne. intros ->.
  destruct Hu as (k1 & k2 & Eu & ->). rewrite <- El in Hs1. rewrite Eu in El.
  destruct (blocks_apart _ _ _ _ _ _ _ _ Hs1 El) as [[_ ?]|[?|?]]; [done|..]; subst b; cbn [fst] in *; hl.
Qed.

(** *** Allocating and freeing again *)

Lemma merged_split sz fr l1 x y l2 :
  merged sz fr (l1 ++ (x, true) :: (y, true) :: l2) = merged sz fr (l1 ++ (x + HDR + y, true) :: l2).
Proof.
  revert sz fr. induction l1 as [|[s f] l1 IH]; intros sz fr; cbn [app merged].
  - destruct fr; cbn [andb merged].
    + by replace (sz + (x + HDR) + (y + HDR)) with (sz + (x + HDR + y + HDR)) by lia.
    + by replace (x + (y + HDR)) with (x + HDR + y) by lia.
  - case_if; [apply IH|]. f_equal. apply IH.
Qed.

Lemma merged_no_adj sz fr l : no_adj ((sz, fr) :: l) = true -> merged sz fr l = (sz, fr) :: l.
Proof.
  revert sz fr. induction l as [|[s f] l IH]; intros sz fr; [done|]. cbn [no_adj merged]. intros H.
  apply andb_true_iff in H as [H1 H2]. apply negb_true_iff in H1. rewrite H1. f_equal. by apply IH.
Qed.

Lemma merge_carved l1 sz size l2 :
  size <= sz -> no_adj (l1 ++ (sz, true) :: l2) = true ->
  exists k1 s k2, l1 ++ carved sz size ++ l2 = k1 ++ (s, false) :: k2 /\ fin HEAP_START k1 = fin HEAP_START l1 /\
    merge (k1 ++ (s, true) :: k2) = l1 ++ (sz, true) :: l2 /\
    (forall b s', used HEAP_START (l1 ++ (sz, true) :: l2) b s' -> used HEAP_START (k1 ++ (s, true) :: k2) b s').
Proof.
  intros Hle Hna. unfold carved. case_if; cbn [app].
  - exists l1, size, ((sz - size - HDR, true) :: l2). split_and!; [done|done| |].
    2:{ intros b s' Hu. apply (used_replace _ _ _ _ [(size, true); (sz - size - HDR, true)] _ _ Hu). cbn [fin]. lia. }
    destruct l1 as [|[s f] l1]; cbn [app merge merged andb].
    + replace (size + (sz - size - HDR + HDR)) with sz by lia. by apply merged_no_adj.
    + rewrite merged_split. replace (size + HDR + (sz - size - HDR)) with sz by lia. by apply merged_no_adj.
  - exists l1, sz, l2. split_and!; [done|done| |done].
    destruct l1 as [|[s f] l1]; cbn [app merge] in *; by apply merged_no_adj.
Qed.

(** *** Runs *)

(** A live allocation is backed by a used block that has its words. *)
Definition backed (m : memory) (l : blocks) (x : Z * Z * gmap Z Z) : Prop :=
  let '(p, n, c) := x in
  exists s, used HEAP_START l (p - HDR) s /\ 0 < n + 4 <= s /\
    forall off v, c !! off = Some v -> 0 <= off /\ 4 * off + 4 <= n /\ m (p + 4 * off) = v.

Definition hinv (s : memory * live) : Prop :=
  exists l, heap_rep s.1 l /\ Forall (backed s.1 l) s.2 /\ NoDup (map (fun x => x.1.1) s.2).

(** An allocation stays backed as long as its block stays used and keeps its words. *)
Lemma backed_keep m l m' l' x :
  backed m l x ->
  (forall s, used HEAP_START l (x.1.1 - HDR) s -> used HEAP_START l' (x.1.1 - HDR) s /\
     forall w, x.1.1 <= w < x.1.1 + s -> m' w = m w) ->
  backed m' l' x.
Proof.
  destruct x as [[p n] c]. intros (s & Hu & Hn & Hc) Hk. cbn [fst] in Hk. destruct (Hk s Hu) as [Hu' Hm].
  exists s. split; [done|]. split; [done|]. intros off v Ho. destruct (Hc off v Ho) as (H1 & H2 & H3).
  split_and!; try done. rewrite Hm; [done|lia].
Qed.

Lemma hstep_malloc n m lv :
  hinv (m, lv) -> 0 <= n <= 2 ^ 32 - 16 -> exists s', hstep (EMalloc n) (m, lv) = Some s' /\ hinv s'.
Proof.
  intros (l & Hr & Hb & Hnd) Hn. cbn [hstep fst snd] in *.
  destruct (decide (n = 0)) as [->|Hnz].
  { exists (m, lv). split; [done|]. by exists l. }
  destruct (request_ok n ltac:(lia)) as [[Hreq Hreq8] Hreqm].
  destruct (kmalloc_rep m l n Hr Hnz Hreq8 Hreqm) as (m' & p & -> & Hcase). ob.
  destruct Hcase as [(-> & -> & _)|(l1 & sz & l2 & -> & Hp & Hle & _ & _ & Hr' & Hag)].
  { exists (m, lv). split; [done|]. by exists l. }
  destruct Hr as (_ & Hs & _). pose proof Hs as Hs'. apply seg_app in Hs' as [Hl1 _]. apply fin_len in Hl1.
  rewrite (proj2 (Z.eqb_neq p 0)) by hl. eexists. split; [done|].
  exists (l1 ++ carved sz (request n) ++ l2). cbn [fst snd]. split; [done|].
  assert (forall b s, used HEAP_START (l1 ++ (sz, true) :: l2) b s ->
     b + HDR + s <= p - HDR \/ p + sz <= b) as Hapart.
  { intros b s (u1 & u2 & Eu & ->).
    destruct (blocks_apart _ _ _ _ _ _ _ _ Hs Eu) as [[_ ?]|[?|?]]; [done|..]; cbn [fst] in *; lia. }
  assert (0 <= HDR) by hl.
  split; [constructor|].
  - exists (if request n + HDR + 8 <=? sz then request n else sz). split; [|split; [case_if; b2p; lia|done]].
    apply used_app_r. replace (fin HEAP_START l1) with (p - HDR) by lia. unfold carved.
    case_if; eexists [], _; cbn [app fin]; done.
  - eapply Forall_impl; [|exact Hb]. intros x Hx. eapply backed_keep; [exact Hx|]. intros s Hu. split.
    + eapply used_replace; [done|]. rewrite <- (app_nil_r (carved _ _)), fin_carved by done. done.
    + intros w Hw. apply Hag. specialize (Hapart _ _ Hu). lia.
  - cbn [map fst]. constructor; [|done]. rewrite list_elem_of_In, in_map_iff. intros (x & Hx & Hin).
    rewrite Forall_forall in Hb. destruct x as [[px nx] cx]. cbn [fst] in Hx. subst px.
    destruct (Hb _ Hin) as (s & Hu & Hns & _). apply Hapart in Hu.
    destruct Hu; hl.
Qed.

Lemma NoDup_map_inj {A B} (f : A -> B) l i j x y :
  NoDup (map f l) -> l !! i = Some x -> l !! j = Some y -> i <> j -> f x <> f y.
Proof.
  intros Hnd Hi Hj Hne E. apply Hne. eapply NoDup_lookup; [exact Hnd| |].
  - change (map f l) with (f <$> l). rewrite list_lookup_fmap, Hi. done.
  - change (map f l) with (f <$> l). rewrite list_lookup_fmap, Hj. by rewrite E.
Qed.

(** Two live allocations have blocks that lie apart. *)
Lemma live_apart m l lv i j pi ni ci pj nj cj :
  heap_rep m l -> Forall (backed m l) lv -> NoDup (map (fun x => x.1.1) lv) -> i <> j ->
  lv !! i = Some (pi, ni, ci) -> lv !! j = Some (pj, nj, cj) ->
  pi + ni + 4 <= pj - HDR \/ pj + nj + 4 <= pi - HDR.
Proof.
  intros (_ & Hs & _) Hb Hnd Hij Hi Hj.
  pose proof (NoDup_map_inj _ _ _ _ _ _ Hnd Hi Hj Hij) as Hne. cbn [fst] in Hne.
  apply (Forall_lookup_1 _ _ _ _ Hb) in Hi as (si & (a1 & a2 & -> & Ha) & Hni & _).
  apply (Forall_lookup_1 _ _ _ _ Hb) in Hj as (sj & (b1 & b2 & Eb & Hbb) & Hnj & _).
  destruct (blocks_apart _ _ _ _ _ _ _ _ Hs Eb) as [[? _]|[?|?]]; cbn [fst] in *; lia.
Qed.


Lemma hstep_free i m lv : hinv (m, lv) -> exists s', hstep (EFree i) (m, lv) = Some s' /\ hinv s'.
Proof.
  intros (l & Hr & Hb & Hnd). cbn [hstep fst snd] in *.
  destruct (lv !! i) as [[[p n] c]|] eqn:Hi; [|exists (m, lv); split; [done|]; by exists l].
  pose proof (delete_Permutation _ _ _ Hi) as Hperm. rewrite Hperm in Hb, Hnd.
  apply Forall_cons_1 in Hb as [(s & (l1 & l2 & -> & Hp) & Hn & _) Hb].
  cbn [map fst] in Hnd. inversion_clear Hnd as [|? ? Hnin Hnd'].
  destruct (kfree_rep m l1 s l2 Hr) as (m' & Hm' & Hr' & Hkeep).
  replace (fin HEAP_START l1 + HDR) with p in Hm' by lia. rewrite Hm'. ob.
  eexists. split; [done|]. exists (merge (l1 ++ (s, true) :: l2)). cbn [fst snd]. split; [done|]. split; [|done].
  apply Forall_forall. intros [[q k] d] Hin. eapply backed_keep; [by apply (Forall_forall (backed m _)) with (1 := Hb)|].
  cbn [fst]. intros s' Hu.
  assert (used HEAP_START (l1 ++ (s, true) :: l2) (q - HDR) s') as Hu'.
  { apply used_app in Hu as [Hu|Hu]; [by apply used_app_l|]. apply used_app_r.
    apply used_cons in Hu as [(_ & E & _)|Hu]; [|by apply (used_app_r _ [(s, true)])].
    exfalso. apply Hnin. rewrite list_elem_of_In, in_map_iff. exists (q, k, d). split; [cbn; lia|done]. }
  split; [by apply used_merge|]. intros w Hw. eapply Hkeep; [done|]. hl.
Qed.

Lemma seg_wr_user m a l1 s l2 w v :
  seg m a (l1 ++ (s, false) :: l2) -> fin a l1 + HDR <= w < fin a l1 + HDR + s - 4 -> seg (wr m w v) a (l1 ++ (s, false) :: l2).
Proof.
  intros Hs Hw. change ((s, false) :: l2) with ([(s, false)] ++ l2).
  eapply seg_replace; [exact Hs| |done|].
  - apply seg_app in Hs as [_ [[K1 K2 K3 K4 K5 K6 K7] _]]. split; [|done].
    split; fields; try done; try (rewrite wr_ne; [done|hl]).
  - cbn [fin]. intros w' Hw'. apply wr_ne. hl.
Qed.

Lemma hstep_write i off v m lv : hinv (m, lv) -> exists s', hstep (EWrite i off v) (m, lv) = Some s' /\ hinv s'.
Proof.
  intros (l & Hr & Hb & Hnd). cbn [hstep fst snd] in *.
  destruct (lv !! i) as [[[p n] c]|] eqn:Hi; [|exists (m, lv); split; [done|]; by exists l].
  destruct ((0 <=? off) && (4 * off + 4 <=? n)) eqn:E; b2p; [|exists (m, lv); split; [done|]; by exists l].
  eexists. split; [done|]. exists l. cbn [fst snd].
  assert (forall j q k d, j <> i -> lv !! j = Some (q, k, d) -> q + k + 4 <= p - HDR \/ p + n + 4 <= q - HDR)
    as Hapart by (intros; eapply live_apart; eauto).
  pose proof (Forall_lookup_1 _ _ _ _ Hb Hi) as (s & Hu & Hn & Hc).
  split; [|split].
  - destruct Hu as (l1 & l2 & -> & Hp). destruct Hr as (Hnil & Hs & Hf). split; [done|]. split; [|done].
    apply seg_wr_user; [done|]. lia.
  - apply Forall_lookup. intros j x Hj. destruct (decide (j = i)) as [->|Hji].
    + rewrite list_lookup_insert_eq in Hj by (by eapply lookup_lt_Some). injection Hj as <-.
      exists s. split; [done|]. split; [done|]. intros o u Ho.
      destruct (decide (o = off)) as [->|Hne].
      * rewrite lookup_insert_eq in Ho. injection Ho as ->. split_and!; [lia..|]. apply wr_eq.
      * rewrite lookup_insert_ne in Ho by done. destruct (Hc o u Ho) as (? & ? & ?). split_and!; [lia..|].
        rewrite wr_ne by lia. done.
    + rewrite list_lookup_insert_ne in Hj by done. destruct x as [[q k] d].
      specialize (Hapart j q k d Hji Hj). pose proof (Forall_lookup_1 _ _ _ _ Hb Hj) as (s' & Hu' & Hk & Hd).
      exists s'. split; [done|]. split; [done|]. intros o u Ho. destruct (Hd o u Ho) as (? & ? & ?).
      split_and!; [done..|]. rewrite wr_ne by hl. done.
  - change (map (fun x => x.1.1) (<[i:=(p, n, <[off:=v]> c)]> lv))
      with ((fun x => x.1.1) <$> (<[i:=(p, n, <[off:=v]> c)]> lv)).
    rewrite list_fmap_insert, list_insert_id; [done|]. rewrite list_lookup_fmap, Hi. done.
Qed.

Lemma hrun_inv es : forall s, Forall hevent_ok es -> hinv s -> exists s', hrun es s = Some s' /\ hinv s'.
Proof.
  induction es as [|e es IH]; intros [m lv] Hok Hi; [by eexists|].
  apply Forall_cons_1 in Hok as [He Hok]. cbn [hrun].
  assert (exists s', hstep e (m, lv) = Some s' /\ hinv s') as (s' & -> & Hi').
  { destruct e; [by apply hstep_malloc|by apply hstep_free|by apply hstep_write]. }
  ob. by apply IH.
Qed.
(** *** Properties *)

Lemma init_heap_rep m : heap_rep (init_heap m) [(HEAP_SIZE - HDR, true)].
Proof. split; [done|]. split; [|done]. split; [|done]. by split. Qed.


Definition demo_run : list hevent :=
  [EMalloc 100; EMalloc 20; EWrite 0 2 7; EWrite 1 0 9; EFree 0; EMalloc 3; EMalloc 5000; EFree 2].


(** For a size that wraps around the 32-bit rounding, a fresh heap
    hands out an 8-byte block: the largest sizes of all succeed where any
    size above 16 MB should be refused. *)
Theorem kmalloc_wraps (m : memory) :
  exists m' p, kmalloc (2 ^ 32 - 4) (init_heap m) = Some (m', p) /\ p = HEAP_START + HDR /\
    heap_rep m' [(8, false); (HEAP_SIZE - HDR - 8 - HDR, true)].
Proof.
  destruct (kmalloc_rep _ _ (2 ^ 32 - 4) (init_heap_rep m)) as (m' & p & Hm & Hcase);
    [lia|vm_compute; discriminate|reflexivity|].
  exists m', p. split; [done|]. destruct Hcase as [(_ & _ & Hno)|(l1 & sz & l2 & E & Hp & _ & _ & _ & Hr & _)].
  - specialize (Hno (HEAP_SIZE - HDR) ltac:(by left)). vm_compute in Hno. discriminate.
  - destruct l1 as [|? [|]]; [|discriminate..]. injection E as <- <-. by split.
Qed.

(** On a well-formed heap [kmalloc] returns, for every size up to
    [2^32 - 16], either null with the memory unchanged, exactly when no free
    block is large enough, or the payload of the first of the smallest free
    blocks that are; the heap stays well-formed with that block used and its
    unneeded rest free, and no word outside the block changes. *)
Theorem kmalloc_best_fit (m : memory) (l : blocks) (n : Z) :
  heap_rep m l -> 0 < n <= 2 ^ 32 - 16 ->
  exists m' p, kmalloc n m = Some (m', p) /\
    ((p = 0 /\ m' = m /\ forall sz, (sz, true) ∈ l -> sz < request n) \/
     (exists l1 sz l2, l = l1 ++ (sz, true) :: l2 /\ p = fin HEAP_START l1 + HDR /\
        n + 4 <= request n <= sz /\
        (forall sz', (sz', true) ∈ l1 -> request n <= sz' -> sz < sz') /\
        (forall sz', (sz', true) ∈ l2 -> request n <= sz' -> sz <= sz') /\
        heap_rep m' (l1 ++ carved sz (request n) ++ l2) /\
        (forall w, ~ (p - HDR <= w < p + sz) -> m' w = m w))).
Proof.
  intros Hr Hn. destruct (request_ok n Hn) as [[Hreq Hreq8] Hreqm].
  destruct (kmalloc_rep m l n Hr ltac:(lia) Hreq8 Hreqm) as (m' & p & -> & H).
  exists m', p. split; [done|]. destruct H as [H|(l1 & sz & l2 & H)]; [by left|]. right.
  exists l1, sz, l2. intuition lia.
Qed.

(** Freeing what [kmalloc] has just returned gives back the heap there
    was, block for block, if it had no free neighbours; the contents of all
    other used blocks are kept on the way. *)
Theorem kmalloc_kfree_roundtrip (m : memory) (l : blocks) (n sz0 : Z) :
  heap_rep m l -> no_adj l = true -> 0 < n <= 2 ^ 32 - 16 -> (sz0, true) ∈ l -> request n <= sz0 ->
  exists m1 p m2, kmalloc n m = Some (m1, p) /\ p <> 0 /\ kfree p m1 = Some m2 /\ heap_rep m2 l /\
    forall b s w, used HEAP_START l b s -> b <= w < b + HDR + s -> m2 w = m w.
Proof.
  intros Hr Hna Hn Hin Hge. destruct (request_ok n Hn) as [[_ Hreq8] Hreqm].
  destruct (kmalloc_rep m l n Hr ltac:(lia) Hreq8 Hreqm) as (m1 & p & Hm & Hcase).
  destruct Hcase as [(_ & _ & Hno)|(l1 & sz & l2 & -> & Hp & Hle & _ & _ & Hr1 & Hag)].
  { specialize (Hno _ Hin). lia. }
  destruct (merge_carved l1 sz (request n) l2 Hle Hna) as (k1 & s & k2 & Ek & Hfk & Hmg & Hkeep).
  rewrite Ek in Hr1. destruct (kfree_rep m1 k1 s k2 Hr1) as (m2 & Hm2 & Hr2 & Hus).
  exists m1, p, m2. rewrite Hfk, <- Hp in Hm2. rewrite Hmg in Hr2. split_and!; try done.
  { destruct Hr as (_ & Hs & _). apply seg_app in Hs as [Hs _]. apply fin_len in Hs. hl. }
  intros b s' w Hu Hw. rewrite (Hus b s' w (Hkeep _ _ Hu) Hw). apply Hag.
  destruct Hu as (u1 & u2 & Eu & ->). destruct Hr as (_ & Hs & _).
  destruct (blocks_apart _ _ _ _ _ _ _ _ Hs Eu) as [[_ ?]|[?|?]]; [done|..]; cbn [fst] in *; hl.
Qed.

Lemma kmalloc_kfree_roundtrip_witness :
  exists m1 p m2, kmalloc 100 (init_heap (fun _ => 0)) = Some (m1, p) /\ p <> 0 /\ kfree p m1 = Some m2 /\
    heap_rep m2 [(HEAP_SIZE - HDR, true)] /\
    forall b s w, used HEAP_START [(HEAP_SIZE - HDR, true)] b s -> b <= w < b + HDR + s ->
      m2 w = init_heap (fun _ => 0) w.
Proof.
  apply (kmalloc_kfree_roundtrip _ _ 100 (HEAP_SIZE - HDR)).
  - apply init_heap_rep.
  - reflexivity.
  - lia.
  - by left.
  - vm_compute. discriminate.
Defined.

Lemma kmalloc_best_fit_witness :
  exists m' p, kmalloc 100 (init_heap (fun _ => 0)) = Some (m', p) /\
    ((p = 0 /\ m' = init_heap (fun _ => 0) /\ forall sz, (sz, true) ∈ [(HEAP_SIZE - HDR, true)] -> sz < request 100) \/
     (exists l1 sz l2, [(HEAP_SIZE - HDR, true)] = l1 ++ (sz, true) :: l2 /\ p = fin HEAP_START l1 + HDR /\
        100 + 4 <= request 100 <= sz /\
        (forall sz', (sz', true) ∈ l1 -> request 100 <= sz' -> sz < sz') /\
        (forall sz', (sz', true) ∈ l2 -> request 100 <= sz' -> sz <= sz') /\
        heap_rep m' (l1 ++ carved sz (request 100) ++ l2) /\
        (forall w, ~ (p - HDR <= w < p + sz) -> m' w = init_heap (fun _ => 0) w))).
Proof.
  apply kmalloc_best_fit.
  - apply init_heap_rep.
  - lia.
Defined.
