(* ===== verification/Tmpfs.v ===== *)
(** * tmpfs, the file system in memory

    Model of [fs/vfs/tmpfs/tmpfs.c].  The state holds the nodes by address:
    the static root and the nodes that are allocated; using a node that has
    been freed has no result.  A node stands for its [tmpfs_node] and the
    [vfs_node] embedded in it ([vnode.priv] is the node itself), of which
    only the fields that change are kept: [name], [size] and [refcount].  The
    list of children linked through [next] is the list of their addresses, in
    list order.  What [kmalloc] returns is an argument: the address of a new
    node, 0 for null, and for file contents whether memory was found. *)
From S2P Require Import Prelude StateM Klib Vfs.

#[local] Open Scope Z_scope.

Definition TMPFS_NAME_LEN : Z := 128.
Definition TMPFS_INIT_CAP : Z := 256.

Record tmpfs_node := TNode {
  t_name : mem;
  t_type : Z;
  t_data : option mem;
  t_size : Z;
  t_cap : Z;
  t_inode : Z;
  t_vname : mem;
  t_vsize : Z;
  t_refcount : Z;
  t_children : list Z;
  t_pending_free : bool
}.

Record tmpfs := Tmpfs {
  t_nodes : gmap Z tmpfs_node;
  tmpfs_inode_ctr : Z;
  tmpfs_ready : bool
}.

(** [&tmpfs_root_node] *)
Definition tmpfs_root_node : Z := 1.

Abbreviation TM := (M tmpfs).

Definition put (a : Z) (n : tmpfs_node) (s : tmpfs) : tmpfs :=
  Tmpfs (<[a := n]> (t_nodes s)) (tmpfs_inode_ctr s) (tmpfs_ready s).
Definition drop_node (a : Z) (s : tmpfs) : tmpfs :=
  Tmpfs (delete a (t_nodes s)) (tmpfs_inode_ctr s) (tmpfs_ready s).

Definition node_at (a : Z) : TM tmpfs_node := fun s => n ← t_nodes s !! a; Some (s, n).
Definition update (a : Z) (f : tmpfs_node -> tmpfs_node) : TM unit :=
  n ← node_at a; modify (put a (f n)).

Definition set_children (l : list Z) (n : tmpfs_node) : tmpfs_node :=
  TNode (t_name n) (t_type n) (t_data n) (t_size n) (t_cap n) (t_inode n) (t_vname n) (t_vsize n)
    (t_refcount n) l (t_pending_free n).
Definition set_refcount (r : Z) (n : tmpfs_node) : tmpfs_node :=
  TNode (t_name n) (t_type n) (t_data n) (t_size n) (t_cap n) (t_inode n) (t_vname n) (t_vsize n)
    r (t_children n) (t_pending_free n).
Definition set_pending (n : tmpfs_node) : tmpfs_node :=
  TNode (t_name n) (t_type n) (t_data n) (t_size n) (t_cap n) (t_inode n) (t_vname n) (t_vsize n)
    (t_refcount n) (t_children n) true.
Definition set_data (d : mem) (cap : Z) (n : tmpfs_node) : tmpfs_node :=
  TNode (t_name n) (t_type n) (Some d) (t_size n) cap (t_inode n) (t_vname n) (t_vsize n)
    (t_refcount n) (t_children n) (t_pending_free n).
Definition set_size (sz : Z) (n : tmpfs_node) : tmpfs_node :=
  TNode (t_name n) (t_type n) (t_data n) sz (t_cap n) (t_inode n) (t_vname n) sz
    (t_refcount n) (t_children n) (t_pending_free n).
Definition set_names (nm vnm : mem) (n : tmpfs_node) : tmpfs_node :=
  TNode nm (t_type n) (t_data n) (t_size n) (t_cap n) (t_inode n) vnm (t_vsize n)
    (t_refcount n) (t_children n) (t_pending_free n).

(** The loop of [_find_child] over the children. *)
Fixpoint find_in (l : list Z) (name : mem) : TM Z :=
  match l with
  | [] => mret 0
  | c :: r =>
      n ← node_at c;
      eq ← lift (streq (t_name n) name);
      if eq : bool then mret c else find_in r name
  end.

Definition _find_child (dir : Z) (name : mem) : TM Z :=
  d ← node_at dir; find_in (t_children d) name.

Definition _free_tmpfs_node (a : Z) : TM unit :=
  if a =? tmpfs_root_node then skip else n ← node_at a; modify (drop_node a).

(** [while (nc < needed) nc *= 2]: after 33 doublings [nc] is 0 for good. *)
Fixpoint grow (fuel : nat) (nc needed : Z) : option Z :=
  match fuel with
  | O => None
  | S fuel => if nc <? needed then grow fuel (u32 (nc * 2)) needed else Some nc
  end.

Definition _ensure_cap (found : bool) (a needed : Z) : TM Z :=
  n ← node_at a;
  if needed <=? t_cap n then mret 0
  else
    nc ← lift (grow 34 (if t_cap n =? 0 then TMPFS_INIT_CAP else u32 (t_cap n * 2)) needed);
    if negb found then mret (-1)
    else
      let nd := replicate (Z.to_nat nc) 0 in
      nd ← lift (match t_data n with
                 | Some d => if t_size n =? 0 then Some nd else memcpy nd 0 d 0 (t_size n)
                 | None => Some nd
                 end);
      update a (set_data nd nc) ;;
      mret 0.

(** Returns the caller's buffer with the bytes read, and the count. *)
Definition _tmp_read (a off size : Z) (buf : mem) : TM (mem * Z) :=
  n ← node_at a;
  if negb (t_type n =? VFS_FILE) then mret (buf, -1)
  else if t_size n <=? off then mret (buf, 0)
  else
    let avail := t_size n - off in
    let size := if avail <? size then avail else size in
    d ← lift (t_data n);
    buf ← lift (memcpy buf 0 d off size);
    mret (buf, i32 size).

Definition _tmp_write (found : bool) (a off size : Z) (buf : mem) : TM Z :=
  n ← node_at a;
  if negb (t_type n =? VFS_FILE) then mret (-1)
  else
    let en := u32 (off + size) in
    r ← _ensure_cap found a en;
    if r <? 0 then mret (-1)
    else
      n ← node_at a;
      d ← lift (match t_data n with
                | Some d => memcpy d off buf 0 size
                | None => if size =? 0 then Some [] else None
                end);
      (match t_data n with Some _ => update a (set_data d (t_cap n)) | None => skip end) ;;
      (if t_size n <? en then update a (set_size en) else skip) ;;
      mret (i32 size).

Definition _tmp_open (a : Z) : TM unit :=
  n ← node_at a; update a (set_refcount (u32 (t_refcount n + 1))).

Definition _tmp_close (a : Z) : TM unit :=
  n ← node_at a;
  if t_refcount n =? 0 then skip
  else
    update a (set_refcount (u32 (t_refcount n - 1))) ;;
    if t_refcount n =? 1 then
      if t_pending_free n then _free_tmpfs_node a else skip
    else skip.

Definition _tmp_walk (dir : Z) (name : mem) : TM Z :=
  d ← node_at dir;
  if negb (t_type d =? VFS_DIRECTORY) then mret 0 else _find_child dir name.

(** The entry at [index]: its name, in the static [_tmp_de], and its inode. *)
Definition _tmp_readdir (dir index : Z) (de : mem) : TM (option (mem * Z)) :=
  d ← node_at dir;
  if negb (t_type d =? VFS_DIRECTORY) then mret None
  else
    match ld (t_children d) index with
    | Some c =>
        n ← node_at c;
        de ← lift (strlcpy de (t_name n) 128);
        mret (Some (de, t_inode n))
    | None => mret None
    end.

(** [memset], [strlcpy] and [_init_vnode] of a new node of [type]. *)
Definition fresh_node (name : mem) (type inode : Z) : option tmpfs_node :=
  nm ← strlcpy (replicate (Z.to_nat TMPFS_NAME_LEN) 0) name TMPFS_NAME_LEN;
  vnm ← strlcpy (replicate 128 0) nm 128;
  Some (TNode nm type None 0 0 inode vnm 0 1 [] false).

(** The common body of [_tmp_create] and [_tmp_mkdir]. *)
Definition new_child (new type dir : Z) (name : mem) : TM Z :=
  d ← node_at dir;
  if negb (t_type d =? VFS_DIRECTORY) then mret (-1)
  else
    c ← _find_child dir name;
    if negb (c =? 0) then mret (-1)
    else if new =? 0 then mret (-1)
    else
      inode ← gets tmpfs_inode_ctr;
      n ← lift (fresh_node name type inode);
      modify (fun s => Tmpfs (<[new := n]> (t_nodes s)) (u32 (inode + 1)) (tmpfs_ready s)) ;;
      update dir (fun d => set_children (new :: t_children d) d) ;;
      mret 0.

Definition _tmp_create (new dir : Z) (name : mem) : TM Z := new_child new VFS_FILE dir name.
Definition _tmp_mkdir (new dir : Z) (name : mem) : TM Z := new_child new VFS_DIRECTORY dir name.

(** The loop of [_tmp_delete]: the first child with the name, and the list
    without it. *)
Fixpoint unlink_first (l : list Z) (name : mem) : TM (option (Z * list Z)) :=
  match l with
  | [] => mret None
  | c :: r =>
      n ← node_at c;
      eq ← lift (streq (t_name n) name);
      if eq : bool then mret (Some (c, r))
      else
        x ← unlink_first r name;
        mret (match x with Some (dead, r) => Some (dead, c :: r) | None => None end)
  end.

Definition _tmp_delete (dir : Z) (name : mem) : TM Z :=
  d ← node_at dir;
  if negb (t_type d =? VFS_DIRECTORY) then mret (-1)
  else
    x ← unlink_first (t_children d) name;
    match x with
    | None => mret (-1)
    | Some (dead, l) =>
        update dir (set_children l) ;;
        n ← node_at dead;
        update dead (set_refcount (u32 (t_refcount n - 1))) ;;
        (if t_refcount n =? 1 then _free_tmpfs_node dead else update dead set_pending) ;;
        mret 0
    end.

(** The list without [c], or nothing when [c] is not linked. *)
Fixpoint unlink_addr (l : list Z) (c : Z) : option (list Z) :=
  match l with
  | [] => None
  | x :: r => if x =? c then Some r else r' ← unlink_addr r c; Some (x :: r')
  end.

Definition _tmp_rmdir (dir : Z) (name : mem) : TM Z :=
  d ← node_at dir;
  if negb (t_type d =? VFS_DIRECTORY) then mret (-1)
  else
    c ← _find_child dir name;
    if c =? 0 then mret (-1)
    else
      n ← node_at c;
      if negb (t_type n =? VFS_DIRECTORY) || negb (bool_decide (t_children n = [])) then mret (-1)
      else
        match unlink_addr (t_children d) c with
        | None => mret (-1)
        | Some l =>
            update dir (set_children l) ;;
            let rc := if 0 <? t_refcount n then t_refcount n - 1 else t_refcount n in
            update c (set_refcount rc) ;;
            (if rc =? 0 then _free_tmpfs_node c else update c set_pending) ;;
            mret 0
        end.

Definition _tmp_rename (dir : Z) (oldname newname : mem) : TM Z :=
  d ← node_at dir;
  if negb (t_type d =? VFS_DIRECTORY) then mret (-1)
  else
    c ← _find_child dir oldname;
    if c =? 0 then mret (-1)
    else
      n ← node_at c;
      nm ← lift (strlcpy (t_name n) newname TMPFS_NAME_LEN);
      vnm ← lift (strlcpy (t_vname n) newname 128);
      update c (set_names nm vnm) ;;
      mret 0.

(** The string tmp *)
Definition TMP_NAME : mem := [116; 109; 112; 0].

Definition tmpfs_init : TM unit :=
  ready ← gets tmpfs_ready;
  if ready : bool then skip
  else
    inode ← gets tmpfs_inode_ctr;
    n ← lift (fresh_node TMP_NAME VFS_DIRECTORY inode);
    modify (fun s => Tmpfs (<[tmpfs_root_node := n]> (t_nodes s)) (u32 (inode + 1)) true).

Definition tmpfs_boot : tmpfs := Tmpfs ∅ 1 false.

(** ** Files

    The abstract file is the list of its bytes. *)

(** [b] followed by zeros up to [c] bytes. *)
Definition pad (c : Z) (b : mem) : mem := b ++ replicate (Z.to_nat (c - zlen b)) 0.

(** The node of a file with the bytes [b]: all capacity past the end is zero.
    [P] says whether the size in the embedded [vfs_node] agrees. *)
Record holds (P : Prop) (n : tmpfs_node) (b : mem) : Prop := {
  f_type : t_type n = VFS_FILE;
  f_size : t_size n = zlen b;
  f_vsize : P -> t_vsize n = zlen b;
  f_data : match t_data n with
           | None => b = [] /\ t_cap n = 0
           | Some d => d = pad (t_cap n) b /\ zlen b <= t_cap n /\ exists k, 8 <= k <= 31 /\ t_cap n = 2 ^ k
           end
}.

Abbreviation file_rep := (holds True).

(** Writing past the end fills the gap with zeros. *)
Definition overwrite (off : Z) (l b : mem) : mem := splice off l (pad (off + zlen l) b).

Inductive fop :=
  | FWrite (found : bool) (off : Z) (l : mem)
  | FRead (off n : Z).

(** A call returns the bytes read and its result. *)
Definition fop_code (a : Z) (o : fop) : TM (mem * Z) :=
  match o with
  | FWrite found off l => r ← _tmp_write found a off (zlen l) l; mret ([], r)
  | FRead off n =>
      '(buf, r) ← _tmp_read a off n (replicate (Z.to_nat n) 0);
      mret (take (Z.to_nat r) buf, r)
  end.

Fixpoint fops_code (a : Z) (os : list fop) : TM (list (mem * Z)) :=
  match os with
  | [] => mret []
  | o :: os => r ← fop_code a o; rs ← fops_code a os; mret (r :: rs)
  end.

(** What the call does to the abstract file; a write fails only when it makes
    the file longer and no memory is found. *)
Inductive fop_spec : fop -> mem -> mem * Z -> mem -> Prop :=
  | spec_write found off l b : fop_spec (FWrite found off l) b ([], zlen l) (overwrite off l b)
  | spec_nomem off l b : zlen b < off + zlen l -> fop_spec (FWrite false off l) b ([], -1) b
  | spec_read off n b :
      let k := Z.max 0 (Z.min n (zlen b - off)) in
      fop_spec (FRead off n) b (slice off k b, k) b.

Inductive fops_spec : list fop -> mem -> list (mem * Z) -> mem -> Prop :=
  | specs_nil b : fops_spec [] b [] b
  | specs_cons o os b r b1 rs b2 :
      fop_spec o b r b1 -> fops_spec os b1 rs b2 -> fops_spec (o :: os) b (r :: rs) b2.

(** Offsets and lengths for which the 32-bit sums of the code do not wrap. *)
Definition fop_ok (o : fop) : Prop :=
  match o with
  | FWrite _ off l => 0 <= off /\ off + zlen l <= 2 ^ 31 /\ zlen l < 2 ^ 31
  | FRead off n => 0 <= off < 2 ^ 32 /\ 0 <= n < 2 ^ 31
  end.

(** *** Padding *)

Lemma zlen_pad c b : zlen (pad c b) = Z.max c (zlen b).
Proof. unfold pad. rewrite zlen_app, zlen_replicate. pose proof (zlen_nonneg b). lia. Qed.

Lemma pad_split c c' b : c <= c' -> zlen b <= c' ->
  pad c' b = pad c b ++ replicate (Z.to_nat (c' - Z.max c (zlen b))) 0.
Proof. intros. unfold pad. rewrite <- app_assoc, <- replicate_add. do 2 f_equal. lia. Qed.

Lemma splice_app_left (off : Z) (l x y : mem) :
  0 <= off -> off + zlen l <= zlen x -> splice off l (x ++ y) = splice off l x ++ y.
Proof.
  intros. unfold splice, zlen in *. rewrite take_app_le, drop_app_le by lia. by rewrite <- !app_assoc.
Qed.

Lemma zlen_overwrite off l b : 0 <= off -> zlen (overwrite off l b) = Z.max (off + zlen l) (zlen b).
Proof.
  intros. unfold overwrite. pose proof (zlen_pad (off + zlen l) b).
  rewrite zlen_splice by lia. done.
Qed.

Lemma overwrite_pad off l b c :
  0 <= off -> off + zlen l <= c -> zlen b <= c -> splice off l (pad c b) = pad c (overwrite off l b).
Proof.
  intros. rewrite (pad_split (off + zlen l) c b) by lia.
  rewrite splice_app_left by (rewrite ?zlen_pad; lia). unfold pad at 2. rewrite zlen_overwrite by done. done.
Qed.

Lemma slice_app_left (off n : Z) (x y : mem) :
  0 <= off -> 0 <= n -> off + n <= zlen x -> slice off n (x ++ y) = slice off n x.
Proof.
  intros. unfold slice, zlen in *. rewrite drop_app_le by lia. rewrite take_app_le; [done|].
  rewrite length_drop. lia.
Qed.

Lemma regrow c c' b : 0 <= c' -> zlen b <= c -> zlen b <= c' ->
  memcpy (replicate (Z.to_nat c') 0) 0 (pad c b) 0 (zlen b) = Some (pad c' b).
Proof.
  intros. pose proof (zlen_nonneg b). rewrite memcpy_ok; rewrite ?zlen_replicate, ?zlen_pad; try lia.
  f_equal. unfold pad. rewrite slice_app_left, slice_full by lia.
  rewrite splice_0, drop_replicate. do 2 f_equal. unfold zlen. lia.
Qed.

(** *** The capacity *)

Lemma grow_ok needed : needed <= 2 ^ 31 -> forall fuel k,
  0 <= k <= 31 -> (31 - k < Z.of_nat fuel) ->
  exists j, k <= j <= 31 /\ grow fuel (2 ^ k) needed = Some (2 ^ j) /\ needed <= 2 ^ j.
Proof.
  intros Hn. induction fuel as [|fuel IH]; intros k Hk Hf; [lia|]. cbn [grow].
  destruct (2 ^ k <? needed) eqn:E; b2p; [|exists k; by split_and!; try lia].
  assert (k <> 31) by (intros ->; lia).
  replace (u32 (2 ^ k * 2)) with (2 ^ (k + 1)).
  - destruct (IH (k + 1)) as (j & Hj & -> & ?); [lia..|]. exists j. split_and!; try done; lia.
  - rewrite Z.pow_add_r, Z.pow_1_r by lia. symmetry. apply u32_small. split; [lia|].
    change (2 ^ 32) with (2 * 2 ^ 31). pose proof (Z.pow_lt_mono_r 2 k 31). lia.
Qed.

(** *** Running the code *)

Lemma wp_node_at a n Q s : t_nodes s !! a = Some n -> Q n s -> wp (node_at a) Q s.
Proof. intros H HQ. unfold wp, node_at. by rewrite H. Qed.

Lemma run_node_at a n s : t_nodes s !! a = Some n -> node_at a s = Some (s, n).
Proof. intros H. unfold node_at. by rewrite H. Qed.

Lemma wp_update a f n Q s : t_nodes s !! a = Some n -> Q tt (put a (f n) s) -> wp (update a f) Q s.
Proof. intros H HQ. unfold update. apply wp_bind. by eapply wp_node_at. Qed.

Lemma put_same a n s : t_nodes (put a n s) !! a = Some n.
Proof. apply lookup_insert_eq. Qed.

Lemma put_other a b n s : b <> a -> t_nodes (put a n s) !! b = t_nodes s !! b.
Proof. intros. by apply lookup_insert_ne. Qed.

Lemma put_put a n n' s : put a n' (put a n s) = put a n' s.
Proof. unfold put. cbn. by rewrite insert_insert_eq. Qed.

(** The state a call on one file leaves. *)
Definition file_at (P : Prop) (a : Z) (b : mem) (s0 s : tmpfs) : Prop :=
  exists n, holds P n b /\ (s = s0 \/ s = put a n s0) /\ t_nodes s !! a = Some n.

Lemma file_at_put P a b b' n s0 s : file_at P a b s0 s -> holds P n b' -> file_at P a b' s0 (put a n s).
Proof.
  intros (n0 & _ & Hs & _) Hn. exists n. split; [done|]. split; [|apply put_same].
  right. destruct Hs as [->| ->]; [done|]. by rewrite put_put.
Qed.

Lemma ensure_cap_wp P found a needed b s0 s :
  file_at P a b s0 s -> 0 <= needed <= 2 ^ 31 ->
  wp (_ensure_cap found a needed)
    (fun r s' => file_at P a b s0 s' /\
       ((r = 0 /\ exists n, t_nodes s' !! a = Some n /\ needed <= t_cap n) \/
        (r = -1 /\ found = false /\ zlen b < needed))) s.
Proof.
  intros Hf Hn. pose proof Hf as (n & Hr & _ & Ha). unfold _ensure_cap. wp_step.
  eapply wp_node_at; [exact Ha|]. destruct Hr as [Ht Hs Hv Hd].
  destruct (needed <=? t_cap n) eqn:E; b2p; [apply wp_ret; split; [done|]; left; split; [done|by exists n]|].
  assert (zlen b <= t_cap n) as Hbc by (destruct (t_data n); [tauto|destruct Hd as [-> ->]; done]).
  assert (exists j, 8 <= j <= 31 /\ needed <= 2 ^ j /\
    grow 34 (if t_cap n =? 0 then TMPFS_INIT_CAP else u32 (t_cap n * 2)) needed = Some (2 ^ j)) as (j & Hj & Hnj & Hg).
  { assert (forall k, 8 <= k <= 31 -> exists j, 8 <= j <= 31 /\ needed <= 2 ^ j /\ grow 34 (2 ^ k) needed = Some (2 ^ j)) as HG.
    { intros k Hk. destruct (grow_ok needed ltac:(lia) 34 k ltac:(lia) ltac:(lia)) as (j & ? & ? & ?).
      exists j. split_and!; try done; lia. }
    destruct (t_data n) as [d|].
    - destruct Hd as (_ & _ & k & Hk & Hc). rewrite Hc in *.
      assert (k <> 31) by (intros ->; lia). pose proof (Z.pow_pos_nonneg 2 k).
      rewrite (proj2 (Z.eqb_neq (2 ^ k) 0)) by lia. pose proof (Z.pow_lt_mono_r 2 k 31).
      rewrite u32_small by (split; [|change (2 ^ 32) with (2 * 2 ^ 31)]; lia).
      replace (2 ^ k * 2) with (2 ^ (k + 1)) by (rewrite Z.pow_add_r by lia; lia). apply HG. lia.
    - destruct Hd as [_ ->]. cbn [Z.eqb]. apply (HG 8). lia. }
  wp_step. eapply wp_lift; [exact Hg|]. destruct found; cbn [negb].
  2:{ apply wp_ret. split; [done|]. right. split_and!; try done. lia. }
  cbv zeta. wp_step. apply (wp_lift _ (pad (2 ^ j) b)).
  { destruct (t_data n) as [d|].
    - destruct Hd as (-> & _ & _). rewrite Hs. case_if; b2p.
      + unfold pad. assert (b = []) as -> by (destruct b; [done|by rewrite zlen_cons in *; pose proof (zlen_nonneg b); lia]).
        by rewrite Z.sub_0_r.
      + apply regrow; lia.
    - destruct Hd as [-> _]. unfold pad. cbn. by rewrite Z.sub_0_r. }
  wp_step. eapply wp_update; [exact Ha|]. apply wp_ret. split.
  - eapply file_at_put; [done|]. split; cbn; try done. split; [done|]. split; [lia|]. by exists j.
  - left. split; [done|]. eexists. split; [apply put_same|]. done.
Qed.

Lemma write_wp P found a off l b s0 s :
  file_at P a b s0 s -> 0 <= off -> off + zlen l <= 2 ^ 31 -> zlen l < 2 ^ 31 ->
  wp (_tmp_write found a off (zlen l) l)
    (fun r s' => (r = zlen l /\ file_at P a (overwrite off l b) s0 s') \/
       (r = -1 /\ found = false /\ zlen b < off + zlen l /\ file_at P a b s0 s')) s.
Proof.
  intros Hf Ho He Hl. pose proof (zlen_nonneg l) as Hl0. pose proof Hf as (n & Hr & _ & Ha). unfold _tmp_write.
  wp_step. eapply wp_node_at; [exact Ha|]. rewrite (f_type _ _ _ Hr), Z.eqb_refl. cbn [negb]. cbv zeta.
  rewrite u32_small by (split; [lia|]; change (2 ^ 32) with (2 * 2 ^ 31); lia).
  eapply wp_use; [by apply (ensure_cap_wp P found a (off + zlen l) b s0); [|lia]|].
  intros r s1 [Hf1 [[-> (n1 & Ha1 & Hc1)]|(-> & -> & Hlt)]]; cbn [Z.ltb].
  2:{ apply wp_ret. right. done. }
  pose proof Hf1 as (n1' & Hr1 & _ & Ha1'). rewrite Ha1 in Ha1'. injection Ha1' as <-.
  change (0 <? 0) with false. cbv iota. wp_step. eapply wp_node_at; [exact Ha1|].
  wp_step. destruct Hr1 as [Ht Hs Hv Hd]. rewrite Hs.
  assert (holds P (if zlen b <? off + zlen l then set_size (off + zlen l)
     (match t_data n1 with Some _ => set_data (pad (t_cap n1) (overwrite off l b)) (t_cap n1) n1 | None => n1 end)
     else match t_data n1 with Some _ => set_data (pad (t_cap n1) (overwrite off l b)) (t_cap n1) n1 | None => n1 end)
     (overwrite off l b)) as Hnew.
  { pose proof (zlen_overwrite off l b Ho) as Hlen.
    destruct (t_data n1) as [d|] eqn:Ed.
    - destruct Hd as (_ & Hbc & Hk). case_if; b2p; split; cbn; rewrite ?Hlen; try done; try lia;
        try (intros HP; first [specialize (Hv HP); lia|lia]);
        (split; [done|]; split; [lia|done]).
    - destruct Hd as [-> Hc0]. change (zlen (@nil Z)) with 0 in *.
      assert (off + zlen l = 0) as H0 by lia. rewrite H0. cbn [Z.ltb].
      assert (overwrite off l [] = []) as -> by (apply nil_length_inv; unfold zlen in *; cbn [length] in *; lia).
      change (0 <? 0) with false. split; try done. by rewrite Ed. }
  destruct (t_data n1) as [d|] eqn:Ed.
  - destruct Hd as (-> & Hbc & Hk). eapply wp_lift.
    { rewrite memcpy_ok by (rewrite ?zlen_pad; lia). rewrite slice_full, overwrite_pad by lia. done. }
    wp_step. eapply wp_update; [exact Ha1|].
    rewrite i32_small by (split; lia). wp_step. case_if; b2p; [eapply wp_update; [apply put_same|]|apply wp_skip];
      apply wp_ret; left; split; try done; rewrite ?put_put; by eapply file_at_put.
  - destruct Hd as [-> Hc0]. change (zlen (@nil Z)) with 0 in *. assert (off = 0 /\ zlen l = 0) as [-> H0] by lia.
    rewrite H0 in *. eapply wp_lift; [done|]. change (0 <? 0 + 0) with false in *. cbv iota in Hnew.
    wp_step. apply wp_skip. wp_step. apply wp_skip. apply wp_ret. left. split; [done|].
    destruct Hf1 as (n2 & _ & Hs2 & Ha2). exists n2. rewrite Ha1 in Ha2. injection Ha2 as <-. done.
Qed.

Lemma read_wp P a off n b s :
  (exists nd, t_nodes s !! a = Some nd /\ holds P nd b) -> 0 <= off -> 0 <= n < 2 ^ 31 ->
  let k := Z.max 0 (Z.min n (zlen b - off)) in
  wp (_tmp_read a off n (replicate (Z.to_nat n) 0))
    (fun x s' => s' = s /\ x.2 = k /\ take (Z.to_nat k) x.1 = slice off k b) s.
Proof.
  intros (nd & Ha & [Ht Hs Hv Hd]) Ho Hn k. unfold _tmp_read. wp_step. eapply wp_node_at; [exact Ha|].
  rewrite Ht, Z.eqb_refl, Hs. cbn [negb]. case_if; b2p.
  { apply wp_ret. split; [done|]. assert (k = 0) as -> by lia. done. }
  cbv zeta. assert ((if zlen b - off <? n then zlen b - off else n) = k) as -> by (case_if; b2p; lia).
  wp_step. destruct (t_data nd) as [d|]; [|destruct Hd as [-> _]; change (zlen (@nil Z)) with 0 in *; lia].
  destruct Hd as (-> & Hbc & _). eapply wp_lift; [done|]. wp_step. eapply wp_lift.
  { rewrite memcpy_ok by (rewrite ?zlen_replicate, ?zlen_pad; lia). done. }
  apply wp_ret. split; [done|]. cbn [fst snd]. split; [apply i32_small; split; lia|].
  unfold pad. rewrite slice_app_left by lia.
  assert (zlen (slice off k b) = k) as Hk by (apply zlen_slice; lia).
  rewrite splice_0. rewrite take_app_le by (unfold zlen in *; lia). apply take_ge. unfold zlen in *. lia.
Qed.

Lemma fop_wp P a o b s0 s :
  file_at P a b s0 s -> fop_ok o ->
  wp (fop_code a o) (fun r s' => exists b', fop_spec o b r b' /\ file_at P a b' s0 s') s.
Proof.
  intros Hf Hok. destruct o as [found off l|off n]; cbn [fop_code fop_ok] in *.
  - destruct Hok as (Ho & He & Hl). eapply wp_use; [by apply (write_wp P found a off l b s0)|].
    intros r s' [[-> Hf']|(-> & -> & Hlt & Hf')]; apply wp_ret; eexists; (split; [|exact Hf']); by constructor.
  - destruct Hok as [Ho Hn]. eapply wp_use.
    { apply (read_wp P a off n b); [|lia|lia]. destruct Hf as (nd & ? & _ & ?). by exists nd. }
    intros [buf r] s' (-> & Hr & Hx). cbn [fst snd] in *. apply wp_ret. exists b. split; [|done].
    rewrite Hr, Hx. constructor.
Qed.

Lemma fops_wp P a os : forall b s0 s,
  file_at P a b s0 s -> Forall fop_ok os ->
  wp (fops_code a os) (fun rs s' => exists b', fops_spec os b rs b' /\ file_at P a b' s0 s') s.
Proof.
  induction os as [|o os IH]; intros b s0 s Hf Hok.
  { apply wp_ret. exists b. split; [constructor|done]. }
  apply Forall_cons_1 in Hok as [Ho Hok]. cbn [fops_code].
  eapply wp_use; [by apply fop_wp|]. intros r s1 (b1 & H1 & Hf1).
  eapply wp_use; [by apply IH|]. intros rs s2 (b2 & H2 & Hf2). apply wp_ret. exists b2.
  split; [by econstructor|done].
Qed.

(** C18: A tmpfs file is the list of its bytes.  Every sequence of reads and
    writes below 2 GB returns and gives the results of the abstract file:
    writes overwrite or extend it, a gap is filled with zeros, a write fails
    only when the file has to grow and no memory is found and then changes
    nothing, a read returns the bytes there are.  No other node changes. *)
Theorem tmpfs_file_refines (a : Z) (os : list fop) (b : mem) (n : tmpfs_node) (s : tmpfs) :
  t_nodes s !! a = Some n -> file_rep n b -> Forall fop_ok os ->
  exists s' rs b' n', fops_code a os s = Some (s', rs) /\ fops_spec os b rs b' /\
    t_nodes s' !! a = Some n' /\ file_rep n' b' /\
    forall a', a' <> a -> t_nodes s' !! a' = t_nodes s !! a'.
Proof.
  intros Ha Hr Hok. assert (file_at True a b s s) as Hf by (exists n; auto).
  destruct (proj1 (wp_eq _ _ _) (fops_wp True a os b s s Hf Hok)) as (s' & rs & Hc & b' & Hsp & n' & Hr' & Hs & Ha').
  exists s', rs, b', n'. split_and!; try done. intros a' Hne.
  destruct Hs as [->| ->]; [done|]. by apply put_other.
Qed.

Definition demo_file : tmpfs_node := TNode [102; 0] VFS_FILE None 0 0 2 [102; 0] 0 1 [] false.
Definition demo_fs : tmpfs := Tmpfs {[ 7 := demo_file ]} 3 true.

Lemma tmpfs_file_refines_witness :
  exists s' rs b' n', fops_code 7 [FWrite true 3 [1; 2]; FRead 1 9; FWrite false 250 [5; 5; 5; 5; 5; 5; 5]] demo_fs
      = Some (s', rs) /\
    fops_spec [FWrite true 3 [1; 2]; FRead 1 9; FWrite false 250 [5; 5; 5; 5; 5; 5; 5]] [] rs b' /\
    t_nodes s' !! 7 = Some n' /\ file_rep n' b' /\
    forall a', a' <> 7 -> t_nodes s' !! a' = t_nodes demo_fs !! a'.
Proof.
  apply (tmpfs_file_refines 7 _ [] demo_file).
  - reflexivity.
  - split; done.
  - repeat (apply Forall_cons; [unfold fop_ok, zlen; cbn [length]; lia|]). apply Forall_nil.
Defined.

(** *** Writes past 2 GB *)

Lemma grow_hang needed : 2 ^ 31 < needed -> forall fuel nc,
  nc = 0 \/ (exists k, 0 <= k <= 31 /\ nc = 2 ^ k) -> grow fuel nc needed = None.
Proof.
  intros Hn. induction fuel as [|fuel IH]; intros nc Hc; [done|]. cbn [grow].
  assert (nc <= 2 ^ 31) as Hle.
  { destruct Hc as [->|(k & Hk & ->)]; [done|]. apply Z.pow_le_mono_r; lia. }
  rewrite (proj2 (Z.ltb_lt nc needed)) by lia. apply IH.
  destruct Hc as [->|(k & Hk & ->)]; [by left|]. destruct (decide (k = 31)) as [->|Hne]; [by left|].
  right. exists (k + 1). split; [lia|]. rewrite Z.pow_add_r by lia. apply u32_small. split; [lia|].
  change (2 ^ 32) with (2 * 2 ^ 31). pose proof (Z.pow_lt_mono_r 2 k 31). lia.
Qed.

Lemma memcpy_out (dest src : mem) d k len : zlen dest <= d -> 0 < len -> memcpy dest d src k len = None.
Proof.
  intros Hd Hl. unfold memcpy. destruct (Z.to_nat len) as [|m] eqn:E; [lia|]. cbn [copy_loop].
  destruct (ld src k) as [v|]; [|done]. cbn. by rewrite st_out by lia.
Qed.

(** A write that ends past 2 GB never returns: the capacity loop doubles
    to zero and spins, or, when [off + size] wraps around, the copy goes
    outside the file's buffer. *)
Theorem tmp_write_past_2g (a off : Z) (l b : mem) (n : tmpfs_node) (s : tmpfs) :
  t_nodes s !! a = Some n -> file_rep n b -> 0 <= off < 2 ^ 32 -> 0 < zlen l < 2 ^ 31 ->
  2 ^ 31 < off + zlen l -> _tmp_write true a off (zlen l) l s = None.
Proof.
  intros Ha Hr Ho Hl He. assert (file_at True a b s s) as Hf by (exists n; auto).
  change (2 ^ 32) with 4294967296 in *. change (2 ^ 31) with 2147483648 in *.
  unfold _tmp_write. rewrite (run_bind _ _ _ _ _ (run_node_at _ _ _ Ha)).
  rewrite (f_type _ _ _ Hr), Z.eqb_refl. cbn [negb]. cbv zeta.
  destruct (Z.lt_ge_cases (off + zlen l) 4294967296) as [Hw|Hw].
  - rewrite u32_small by (unfold is_u32; change (2 ^ 32) with 4294967296; lia).
    apply run_bind_none. unfold _ensure_cap. rewrite (run_bind _ _ _ _ _ (run_node_at _ _ _ Ha)).
    pose proof (f_data _ _ _ Hr) as Hd.
    assert (grow 34 (if t_cap n =? 0 then TMPFS_INIT_CAP else u32 (t_cap n * 2)) (off + zlen l) = None /\
            t_cap n <= 2147483648) as [Hg Hc].
    { destruct (t_data n) as [d|].
      - destruct Hd as (_ & _ & k & Hk & ->). split; [|change 2147483648 with (2 ^ 31); apply Z.pow_le_mono_r; lia].
        pose proof (Z.pow_pos_nonneg 2 k). rewrite (proj2 (Z.eqb_neq (2 ^ k) 0)) by lia.
        apply grow_hang; [change (2 ^ 31) with 2147483648; lia|].
        destruct (decide (k = 31)) as [->|Hne]; [by left|]. right. exists (k + 1). split; [lia|].
        rewrite Z.pow_add_r by lia. apply u32_small. split; [lia|].
        change (2 ^ 32) with (2 * 2 ^ 31). pose proof (Z.pow_lt_mono_r 2 k 31). lia.
      - destruct Hd as [_ ->]. split; [|lia]. apply grow_hang; [change (2 ^ 31) with 2147483648; lia|].
        right. by exists 8. }
    rewrite (proj2 (Z.leb_gt (off + zlen l) (t_cap n))) by lia.
    apply run_bind_none. unfold lift. by rewrite Hg.
  - replace (u32 (off + zlen l)) with (off + zlen l - 4294967296) by (unfold u32; change (2 ^ 32) with 4294967296; apply (Z.mod_unique _ _ 1); lia).
    pose proof (ensure_cap_wp True true a (off + zlen l - 4294967296) b s s Hf) as Hc.
    apply wp_eq in Hc as (s1 & r & Hc & Hf1 & Hcase); [|change (2 ^ 31) with 2147483648; lia].
    rewrite (run_bind _ _ _ _ _ Hc).
    destruct Hcase as [[-> _]|(_ & [=] & _)]. change (0 <? 0) with false. cbv iota.
    destruct Hf1 as (n1 & [Ht Hs Hv Hd] & _ & Ha1).
    rewrite (run_bind _ _ _ _ _ (run_node_at _ _ _ Ha1)). apply run_bind_none. unfold lift.
    destruct (t_data n1) as [d|].
    + destruct Hd as (-> & Hbc & k & Hk & Hck). rewrite memcpy_out; [done| |lia].
      rewrite zlen_pad. pose proof (Z.pow_le_mono_r 2 k 31). change (2 ^ 31) with 2147483648 in *. lia.
    + by rewrite (proj2 (Z.eqb_neq (zlen l) 0)) by lia.
Qed.

Lemma tmp_write_past_2g_witness : _tmp_write true 7 (2 ^ 31) 1 [5] demo_fs = None.
Proof.
  apply (tmp_write_past_2g 7 (2 ^ 31) [5] [] demo_file).
  - reflexivity.
  - split; done.
  - lia.
  - unfold zlen. cbn [length]. lia.
  - unfold zlen. cbn [length]. lia.
Defined.
