(* ===== verification/TmpfsSpec.v ===== *)
(** * tmpfs: names and lifetimes

    The directory operations of [Tmpfs.v] against lists of names, and the
    lifetime of nodes under every sequence of operations. *)
From S2P Require Import Prelude StateM Klib Vfs Tmpfs.

#[local] Open Scope Z_scope.

(** ** Directories as lists *)

(** A node with its name. *)
Definition named (n : tmpfs_node) (t : list Z) : Prop :=
  cstr (t_name n) t /\ zlen (t_name n) = 128 /\ zlen (t_vname n) = 128.

(** The entries of a list of children: their names and addresses. *)
Definition entries (s : tmpfs) (l : list Z) (L : list (list Z * Z)) : Prop :=
  Forall2 (fun c x => c <> 0 /\ x.2 = c /\ exists n, t_nodes s !! c = Some n /\ named n x.1) l L.

(** The first entry with the name [t]. *)
Fixpoint entry_of (t : list Z) (L : list (list Z * Z)) : option Z :=
  match L with [] => None | (t', c) :: r => if decide (t' = t) then Some c else entry_of t r end.

Fixpoint entry_removed (t : list Z) (L : list (list Z * Z)) : list (list Z * Z) :=
  match L with [] => [] | (t', c) :: r => if decide (t' = t) then r else (t', c) :: entry_removed t r end.

(** The directory [d] lists [L]. *)
Definition lists (s : tmpfs) (d : Z) (L : list (list Z * Z)) : Prop :=
  exists n, t_nodes s !! d = Some n /\ t_type n = VFS_DIRECTORY /\ entries s (t_children n) L.

(** ** The invariant

    [hs] counts, for each node, the opens that have not been closed. *)
Record tinv (s : tmpfs) (hs : Z -> Z) : Prop := {
  i_root : exists n, t_nodes s !! tmpfs_root_node = Some n /\ t_pending_free n = false;
  i_node : forall a n, t_nodes s !! a = Some n -> a <> 0 /\ (exists t, named n t) /\ NoDup (t_children n) /\
    t_refcount n = (if t_pending_free n then 0 else 1) + hs a /\ 0 < t_refcount n;
  i_child : forall d n c, t_nodes s !! d = Some n -> c ∈ t_children n ->
    c <> d /\ c <> tmpfs_root_node /\ exists cn, t_nodes s !! c = Some cn /\ t_pending_free cn = false;
  i_disj : forall d1 n1 d2 n2 c, t_nodes s !! d1 = Some n1 -> t_nodes s !! d2 = Some n2 ->
    c ∈ t_children n1 -> c ∈ t_children n2 -> d1 = d2;
  i_held : forall a, 0 <= hs a /\ (0 < hs a -> is_Some (t_nodes s !! a))
}.

Definition bump (hs : Z -> Z) (a k : Z) : Z -> Z := fun b => if b =? a then hs b + k else hs b.

(** ** What clients do

    [TNew] creates a file or a directory, with the address [kmalloc] gives;
    a node is opened only while it exists and closed only by who opened it. *)
Inductive tev :=
  | TNew (dir : bool) (new d : Z) (name : mem)
  | TDelete (d : Z) (name : mem)
  | TRmdir (d : Z) (name : mem)
  | TRename (d : Z) (oldname newname : mem)
  | TOpen (a : Z)
  | TClose (a : Z).

Definition known (s : tmpfs) (a : Z) : bool := bool_decide (is_Some (t_nodes s !! a)).

Definition call (m : TM Z) (s : tmpfs) (hs : Z -> Z) : option (tmpfs * (Z -> Z)) :=
  '(s, _) ← m s; Some (s, hs).

Definition tstep (e : tev) (x : tmpfs * (Z -> Z)) : option (tmpfs * (Z -> Z)) :=
  let '(s, hs) := x in
  match e with
  | TNew dir new d name =>
      if known s d && negb (known s new)
      then call ((if dir then _tmp_mkdir else _tmp_create) new d name) s hs else Some (s, hs)
  | TDelete d name => if known s d then call (_tmp_delete d name) s hs else Some (s, hs)
  | TRmdir d name => if known s d then call (_tmp_rmdir d name) s hs else Some (s, hs)
  | TRename d o n => if known s d then call (_tmp_rename d o n) s hs else Some (s, hs)
  | TOpen a => if known s a then '(s, _) ← _tmp_open a s; Some (s, bump hs a 1) else Some (s, hs)
  | TClose a => if 0 <? hs a then '(s, _) ← _tmp_close a s; Some (s, bump hs a (-1)) else Some (s, hs)
  end.

Fixpoint trun (es : list tev) (x : tmpfs * (Z -> Z)) : option (tmpfs * (Z -> Z)) :=
  match es with [] => Some x | e :: es => x ← tstep e x; trun es x end.

(** Names are strings. *)
Definition tev_ok (e : tev) : Prop :=
  match e with
  | TNew _ _ _ name | TDelete _ name | TRmdir _ name => exists t, cstr name t
  | TRename _ o n => (exists t, cstr o t) /\ exists t, cstr n t
  | _ => True
  end.

(** ** Lemmas *)

Lemma strlcpy_named dst src t :
  cstr src t -> zlen dst = 128 ->
  exists m, strlcpy dst src 128 = Some m /\ cstr m (take 127 t) /\ zlen m = 128.
Proof.
  intros Hs Hd. unfold strlcpy. rewrite (bounded_copy_ok src t) by (done || lia).
  assert (zlen (take (Z.to_nat (128 - 1 - 0)) t ++ [0]) <= 128) as Hl.
  { unfold zlen. rewrite length_app, length_take. cbn [length]. lia. }
  eexists. split; [done|]. rewrite zlen_splice by lia. split; [|done].
  change (Z.to_nat (128 - 1 - 0)) with 127%nat. rewrite splice_0, <- app_assoc. destruct Hs as [_ Hnz].
  split; [by eexists|]. by apply Forall_take.
Qed.

Lemma fresh_node_ok name t type inode :
  cstr name t -> exists n, fresh_node name type inode = Some n /\ named n (take 127 t) /\
    t_type n = type /\ t_refcount n = 1 /\ t_children n = [] /\ t_pending_free n = false.
Proof.
  intros Ht. unfold fresh_node. change (Z.to_nat TMPFS_NAME_LEN) with 128%nat. change TMPFS_NAME_LEN with 128.
  destruct (strlcpy_named (replicate 128 0) name t Ht) as (nm & -> & Hn & Hl); [done|]. sb.
  destruct (strlcpy_named (replicate 128 0) nm _ Hn) as (vnm & -> & Hvn & Hvl); [done|]. sb.
  eexists. split; [done|]. by split_and!.
Qed.

Lemma entries_addrs s l L : entries s l L -> L.*2 = l.
Proof. induction 1 as [|? ? ? ? (_ & <- & _)]; [done|]. cbn. by f_equal. Qed.

Lemma find_in_wp l name t : forall L s,
  entries s l L -> cstr name t ->
  find_in l name s = Some (s, default 0 (entry_of t L)).
Proof.
  induction l as [|c l IH]; intros L s He Ht; inversion He as [|? x ? L' Hx He']; subst; [done|].
  destruct Hx as (_ & Hc & n & Hn & Hname & _). destruct x as [t' c']. cbn [fst snd] in *. subst c'.
  cbn [find_in entry_of]. rewrite (run_bind _ _ _ _ _ (run_node_at _ _ _ Hn)).
  rewrite (run_bind _ _ s s (bool_decide (t' = t))) by (unfold lift; by rewrite (streq_ok _ _ _ _ Hname Ht)).
  case_bool_decide as E; [by rewrite decide_True by done|]. rewrite decide_False by done. by apply IH.
Qed.

Lemma unlink_first_wp l name t : forall L s,
  entries s l L -> cstr name t ->
  unlink_first l name s =
    Some (s, match entry_of t L with Some c => Some (c, (entry_removed t L).*2) | None => None end).
Proof.
  induction l as [|c l IH]; intros L s He Ht; inversion He as [|? x ? L' Hx He']; subst; [done|].
  destruct Hx as (_ & Hc & n & Hn & Hname & _). destruct x as [t' c']. cbn [fst snd] in *. subst c'.
  cbn [unlink_first entry_of entry_removed]. rewrite (run_bind _ _ _ _ _ (run_node_at _ _ _ Hn)).
  rewrite (run_bind _ _ s s (bool_decide (t' = t))) by (unfold lift; by rewrite (streq_ok _ _ _ _ Hname Ht)).
  case_bool_decide as E.
  - rewrite !decide_True by done. by rewrite (entries_addrs _ _ _ He').
  - rewrite !decide_False by done. rewrite (run_bind _ _ _ _ _ (IH _ _ He' Ht)). by destruct (entry_of t L').
Qed.

Lemma entries_ex s l :
  (forall c, c ∈ l -> c <> 0 /\ exists n t, t_nodes s !! c = Some n /\ named n t) -> exists L, entries s l L.
Proof.
  induction l as [|c l IH]; intros H; [exists []; constructor|].
  destruct (H c) as (Hc & n & t & Hn & Ht); [by left|].
  destruct IH as (L & HL); [intros; apply H; by right|].
  exists ((t, c) :: L). constructor; [|done]. split; [done|]. split; [done|]. by exists n.
Qed.

(** Every directory of a well-formed state has its list. *)
Lemma tinv_entries s hs d n : tinv s hs -> t_nodes s !! d = Some n -> exists L, entries s (t_children n) L.
Proof.
  intros Hi Hd. apply entries_ex. intros c Hc. destruct (i_child _ _ Hi d n c Hd Hc) as (_ & _ & cn & Hcn & _).
  destruct (i_node _ _ Hi _ _ Hcn) as (Hc0 & (t & Ht) & _). split; [done|]. by exists cn, t.
Qed.

Lemma entries_keep s s' l L :
  entries s l L -> (forall c, c ∈ l -> forall n, t_nodes s !! c = Some n ->
     exists n', t_nodes s' !! c = Some n' /\ t_name n' = t_name n /\ t_vname n' = t_vname n) ->
  entries s' l L.
Proof.
  induction 1 as [|c x l L (Hc & Hx & n & Hn & Ht) HL IH]; intros Hk; [constructor|].
  constructor; [|apply IH; intros; eapply Hk; [by right|done]]. split; [done|]. split; [done|].
  destruct (Hk c ltac:(by left) n Hn) as (n' & Hn' & E1 & E2). exists n'. split; [done|].
  unfold named in *. by rewrite E1, E2.
Qed.

Lemma entry_in t L c : entry_of t L = Some c -> c ∈ L.*2.
Proof.
  induction L as [|[t' c'] L IH]; cbn; [done|]. case_decide; [intros [= ->]; by left|]. intros H'. right. by apply IH.
Qed.

Lemma removed_perm t L c : entry_of t L = Some c -> L.*2 ≡ₚ c :: (entry_removed t L).*2.
Proof.
  induction L as [|[t' c'] L IH]; cbn; [done|]. case_decide; [by intros [= ->]|]. intros H'. cbn.
  rewrite IH by done. constructor.
Qed.

(** A change of one node that keeps its names and count. *)
Lemma tinv_put s hs a n n' :
  tinv s hs -> t_nodes s !! a = Some n ->
  (exists t, named n' t) -> NoDup (t_children n') -> t_refcount n' = t_refcount n ->
  t_pending_free n' = t_pending_free n -> (forall c, c ∈ t_children n' -> c ∈ t_children n) ->
  tinv (put a n' s) hs.
Proof.
  intros [Hr Hn Hc Hd Hh] Ha Ht Hnd Hrc Hp Hsub.
  assert (forall b m, t_nodes (put a n' s) !! b = Some m -> exists m0, t_nodes s !! b = Some m0 /\
     t_pending_free m = t_pending_free m0 /\ (forall c, c ∈ t_children m -> c ∈ t_children m0)) as Hback.
  { intros b m Hb. destruct (decide (b = a)) as [->|Hne].
    - rewrite put_same in Hb. injection Hb as <-. by exists n.
    - rewrite put_other in Hb by done. by exists m. }
  assert (forall b m, t_nodes s !! b = Some m -> exists m', t_nodes (put a n' s) !! b = Some m' /\
     t_pending_free m' = t_pending_free m) as Hfwd.
  { intros b m Hb. destruct (decide (b = a)) as [->|Hne].
    - rewrite put_same. exists n'. rewrite Ha in Hb. injection Hb as <-. done.
    - rewrite put_other by done. by exists m. }
  split.
  - destruct Hr as (m & Hm & Hpm). destruct (Hfwd _ _ Hm) as (m' & ? & ?). exists m'. split; [done|congruence].
  - intros b m Hb. destruct (decide (b = a)) as [->|Hne].
    + rewrite put_same in Hb. injection Hb as <-. destruct (Hn _ _ Ha) as (? & _ & _ & ? & ?).
      rewrite Hrc, Hp. by split_and!.
    + rewrite put_other in Hb by done. by apply Hn.
  - intros d m c Hm Hin. destruct (Hback _ _ Hm) as (m0 & Hm0 & _ & Hs). 
    destruct (Hc d m0 c Hm0 (Hs _ Hin)) as (? & ? & cn & Hcn & Hpc). split; [done|]. split; [done|].
    destruct (Hfwd _ _ Hcn) as (m' & ? & ?). exists m'. split; [done|congruence].
  - intros d1 n1 d2 n2 c H1 H2 Hc1 Hc2. destruct (Hback _ _ H1) as (m1 & Hm1 & _ & Hs1).
    destruct (Hback _ _ H2) as (m2 & Hm2 & _ & Hs2). eapply Hd; eauto.
  - intros b. destruct (Hh b) as [? H]. split; [done|]. intros Hb. destruct (H Hb) as [m Hm].
    destruct (Hfwd _ _ Hm) as (m' & ? & _). by exists m'.
Qed.

(** A new node linked into the directory [d]. *)
Lemma tinv_new s hs d n new fn ctr t :
  tinv s hs -> t_nodes s !! d = Some n -> t_nodes s !! new = None -> new <> 0 ->
  named fn t -> t_refcount fn = 1 -> t_children fn = [] -> t_pending_free fn = false ->
  tinv (put d (set_children (new :: t_children n) n) (Tmpfs (<[new := fn]> (t_nodes s)) ctr (tmpfs_ready s))) hs.
Proof.
  intros Hi Hd Hnew Hn0 Hnm Hrc Hch Hp. pose proof Hi as [Hr Hn Hc Hdj Hh].
  assert (new <> d) as Hnd by congruence.
  assert (hs new = 0) as Hhn.
  { destruct (Hh new) as [? H]. destruct (decide (0 < hs new)) as [Hl|]; [|lia].
    destruct (H Hl) as [? ?]. congruence. }
  assert (forall c m, t_nodes s !! c = Some m -> new ∉ t_children m) as Hfresh.
  { intros c m Hm Hin. destruct (Hc c m new Hm Hin) as (_ & _ & cn & ? & _). congruence. }
  set (s' := put d _ _).
  assert (forall b, t_nodes s' !! b = if decide (b = d) then Some (set_children (new :: t_children n) n)
     else if decide (b = new) then Some fn else t_nodes s !! b) as Hl.
  { intros b. subst s'. cbn. destruct (decide (b = d)) as [->|]; [by rewrite lookup_insert_eq|].
    rewrite lookup_insert_ne by done. destruct (decide (b = new)) as [->|]; [by rewrite lookup_insert_eq|].
    by rewrite lookup_insert_ne. }
  assert (forall b m, t_nodes s' !! b = Some m -> forall c, c ∈ t_children m ->
     (b = d /\ c = new) \/ exists m0, t_nodes s !! b = Some m0 /\ c ∈ t_children m0) as Hback.
  { intros b m Hb c Hin. rewrite Hl in Hb. repeat case_decide; subst; simplify_eq.
    - apply elem_of_cons in Hin as [->|Hin]; [by left|]. right. by exists n.
    - rewrite Hch in Hin. by apply not_elem_of_nil in Hin.
    - right. by exists m. }
  assert (forall b m, t_nodes s !! b = Some m -> exists m', t_nodes s' !! b = Some m' /\
     t_pending_free m' = t_pending_free m) as Hfwd.
  { intros b m Hb. rewrite Hl. repeat case_decide; subst; simplify_eq; eauto. }
  split.
  - destruct Hr as (m & Hm & Hpm). destruct (Hfwd _ _ Hm) as (m' & ? & ?). exists m'. split; [done|congruence].
  - intros b m Hb. rewrite Hl in Hb. repeat case_decide; subst; simplify_eq.
    + destruct (Hn _ _ Hd) as (? & ? & ? & ? & ?). cbn. split_and!; try done.
      constructor; [by eapply Hfresh|done].
    + rewrite Hch, Hrc, Hp, Hhn. split_and!; try done; [by exists t|constructor].
    + by apply Hn.
  - intros b m c Hb Hin. destruct (Hback _ _ Hb _ Hin) as [[-> ->]|(m0 & Hm0 & Hin0)].
    + split; [done|]. split.
      * intros ->. destruct Hr as (? & ? & _). congruence.
      * exists fn. split; [|done]. rewrite Hl. rewrite decide_False by done. by rewrite decide_True by done.
    + destruct (Hc _ _ _ Hm0 Hin0) as (? & ? & cn & Hcn & ?). split; [done|]. split; [done|].
      destruct (Hfwd _ _ Hcn) as (m' & ? & ?). exists m'. split; [done|congruence].
  - intros d1 n1 d2 n2 c H1 H2 Hc1 Hc2.
    destruct (Hback _ _ H1 _ Hc1) as [[-> ->]|(m1 & Hm1 & Hi1)], (Hback _ _ H2 _ Hc2) as [[-> E]|(m2 & Hm2 & Hi2)];
      try done; subst.
    + exfalso. by eapply Hfresh.
    + exfalso. by eapply Hfresh.
    + by eapply Hdj.
  - intros b. destruct (Hh b) as [? H]. split; [done|]. intros Hb. destruct (H Hb) as [m Hm].
    destruct (Hfwd _ _ Hm) as (m' & ? & _). by exists m'.
Qed.

Lemma new_child_ok s hs d n L new type name t :
  tinv s hs -> t_nodes s !! d = Some n -> t_type n = VFS_DIRECTORY -> entries s (t_children n) L ->
  cstr name t -> t_nodes s !! new = None ->
  exists s' r, new_child new type d name s = Some (s', r) /\ tinv s' hs /\
    if decide (entry_of t L = None /\ new <> 0) then r = 0 /\ lists s' d ((take 127 t, new) :: L)
    else r = -1 /\ s' = s.
Proof.
  intros Hi Hd Ht HL Hname Hnew. unfold new_child, _find_child.
  rewrite (run_bind _ _ _ _ _ (run_node_at _ _ _ Hd)), Ht, Z.eqb_refl. cbn [negb].
  assert ((d0 ← node_at d; find_in (t_children d0) name) s = Some (s, default 0 (entry_of t L))) as Hf.
  { rewrite (run_bind _ _ _ _ _ (run_node_at _ _ _ Hd)). by apply find_in_wp. }
  rewrite (run_bind _ _ _ _ _ Hf). destruct (entry_of t L) as [c|] eqn:Ec; cbn [default from_option id].
  { exists s, (-1). split; [|split; [done|]; by rewrite decide_False by (by intros [[=] _])].
    apply entry_in in Ec. rewrite (entries_addrs _ _ _ HL) in Ec.
    destruct (i_child _ _ Hi _ _ _ Hd Ec) as (_ & _ & cn & Hcn & _).
    destruct (i_node _ _ Hi _ _ Hcn) as [Hc0 _]. by rewrite (proj2 (Z.eqb_neq c 0)) by done. }
  cbn [Z.eqb negb]. destruct (decide (new = 0)) as [->|Hn0].
  { exists s, (-1). split; [done|]. split; [done|]. by rewrite decide_False by (by intros [_ []]). }
  rewrite (proj2 (Z.eqb_neq new 0)) by done.
  rewrite (run_bind _ _ s s (tmpfs_inode_ctr s)) by done.
  destruct (fresh_node_ok name t type (tmpfs_inode_ctr s) Hname) as (fn & Hfn & Hnm & Hty & Hrc & Hch & Hp).
  rewrite (run_bind _ _ s s fn) by (unfold lift; by rewrite Hfn).
  set (s1 := Tmpfs (<[new := fn]> (t_nodes s)) (u32 (tmpfs_inode_ctr s + 1)) (tmpfs_ready s)).
  rewrite (run_bind _ _ s s1 tt) by done.
  assert (new <> d) as Hnd by congruence.
  assert (t_nodes s1 !! d = Some n) as Hd1 by (subst s1; cbn; by rewrite lookup_insert_ne).
  set (s2 := put d (set_children (new :: t_children n) n) s1).
  rewrite (run_bind _ _ s1 s2 tt) by (unfold update; by rewrite (run_bind _ _ _ _ _ (run_node_at _ _ _ Hd1))).
  exists s2, 0. split; [done|]. split; [by eapply tinv_new|]. rewrite decide_True by done. split; [done|].
  exists (set_children (new :: t_children n) n). split; [apply put_same|]. split; [done|].
  cbn [set_children t_children]. constructor.
  - split; [done|]. split; [done|]. exists fn. split; [|done]. unfold s2. rewrite put_other by done.
    subst s1. apply lookup_insert_eq.
  - eapply entries_keep; [exact HL|]. intros c Hc m Hm.
    destruct (i_child _ _ Hi _ _ _ Hd Hc) as (Hcd & _ & _). exists m. split; [|done].
    unfold s2. rewrite put_other by done. subst s1. cbn. rewrite lookup_insert_ne by congruence. done.
Qed.

(** A child cut out of its directory loses its tree reference: it goes now,
    or stays for those who have it open. *)
Definition detached (c : Z) (n : tmpfs_node) (s : tmpfs) : tmpfs :=
  if t_refcount n =? 1 then drop_node c s else put c (set_pending (set_refcount (t_refcount n - 1) n)) s.

Lemma tinv_detached s hs c n :
  tinv s hs -> t_nodes s !! c = Some n -> c <> tmpfs_root_node -> t_pending_free n = false ->
  (forall d m, t_nodes s !! d = Some m -> c ∉ t_children m) ->
  tinv (detached c n s) hs.
Proof.
  intros [Hr Hn Hc Hd Hh] Hcn Hroot Hp Hfree. destruct (Hn _ _ Hcn) as (Hc0 & Hnm & Hnd & Hrc & Hpos).
  rewrite Hp in Hrc. unfold detached. destruct (t_refcount n =? 1) eqn:E; b2p.
  - assert (hs c = 0) as Hhc by lia.
    assert (forall b m, t_nodes (drop_node c s) !! b = Some m <-> b <> c /\ t_nodes s !! b = Some m) as Hl.
    { intros b m. cbn. rewrite lookup_delete_Some. split; intros []; split; by try apply not_eq_sym. }
    split.
    + destruct Hr as (m & Hm & Hpm). exists m. rewrite Hl. split; [|done]. split; [by apply not_eq_sym|done].
    + intros b m [_ Hb]%Hl. by apply Hn.
    + intros d m x [_ Hm]%Hl Hin. destruct (Hc _ _ _ Hm Hin) as (? & ? & cn & ? & ?). split; [done|]. split; [done|].
      exists cn. rewrite Hl. split; [|done]. split; [|done]. intros ->. exact (Hfree _ _ Hm Hin).
    + intros d1 n1 d2 n2 x [_ H1]%Hl [_ H2]%Hl. by apply Hd.
    + intros b. destruct (Hh b) as [? H]. split; [done|]. intros Hb. destruct (H Hb) as [m Hm].
      exists m. rewrite Hl. split; [|done]. intros ->. lia.
  - set (n' := set_pending _).
    assert (forall b m, t_nodes (put c n' s) !! b = Some m ->
       (b = c /\ m = n') \/ (b <> c /\ t_nodes s !! b = Some m)) as Hl.
    { intros b m. destruct (decide (b = c)) as [->|Hne]; [rewrite put_same; intros [= <-]; by left|].
      rewrite put_other by done. by right. }
    split.
    + destruct Hr as (m & Hm & Hpm). exists m. by rewrite put_other.
    + intros b m Hb. destruct (Hl _ _ Hb) as [[-> ->]|[_ Hm]]; [|by apply Hn]. cbn. split_and!; try done; lia.
    + intros d m x Hm Hin. assert (c <> x /\ x <> d /\ x <> tmpfs_root_node /\ exists cn, t_nodes s !! x = Some cn /\
        t_pending_free cn = false) as (Hcx & ? & ? & cn & ? & ?).
      { destruct (Hl _ _ Hm) as [[-> ->]|[_ Hm']].
        - split; [intros ->; by apply (Hfree _ _ Hcn)|]. by apply (Hc _ _ _ Hcn).
        - split; [intros ->; by apply (Hfree _ _ Hm')|]. by apply (Hc _ _ _ Hm'). }
      split; [done|]. split; [done|]. exists cn. by rewrite put_other.
    + assert (forall b m, t_nodes (put c n' s) !! b = Some m ->
        exists m0, t_nodes s !! b = Some m0 /\ t_children m = t_children m0) as Hb.
      { intros b m Hb. destruct (Hl _ _ Hb) as [[-> ->]|[_ Hm]]; eauto. }
      intros d1 n1 d2 n2 x H1 H2. destruct (Hb _ _ H1) as (m1 & ? & ->), (Hb _ _ H2) as (m2 & ? & ->). by apply Hd.
    + intros b. destruct (Hh b) as [? H]. split; [done|]. intros Hb. destruct (decide (b = c)) as [->|Hne].
      * rewrite put_same. eauto.
      * rewrite put_other by done. auto.
Qed.

(** Cutting [c] out of the list of [d] and dropping its tree reference. *)
Lemma cut_ok s hs d n c l :
  tinv s hs -> t_nodes s !! d = Some n -> t_children n ≡ₚ c :: l ->
  exists cn, t_nodes s !! c = Some cn /\ c <> d /\ c <> tmpfs_root_node /\
    t_nodes (put d (set_children l n) s) !! c = Some cn /\
    t_refcount cn = 1 + hs c /\ 0 <= hs c /\
    tinv (detached c cn (put d (set_children l n) s)) hs.
Proof.
  intros Hi Hd Hperm. assert (c ∈ t_children n) as Hin by (rewrite Hperm; by left).
  destruct (i_child _ _ Hi _ _ _ Hd Hin) as (Hcd & Hcr & cn & Hcn & Hp).
  destruct (i_node _ _ Hi _ _ Hd) as (_ & Hnm & Hnd & _ & _). rewrite Hperm in Hnd.
  inversion_clear Hnd as [|? ? Hni Hnd']. destruct (i_node _ _ Hi _ _ Hcn) as (_ & _ & _ & Hrc & Hpos).
  rewrite Hp in Hrc. exists cn. split_and!; try done; [by rewrite put_other|lia|].
  apply tinv_detached; try done.
  - eapply tinv_put; try done. cbn. intros x Hx. rewrite Hperm. by right.
  - by rewrite put_other.
  - intros b m Hb Hx. destruct (decide (b = d)) as [->|Hne].
    + rewrite put_same in Hb. by injection Hb as <-.
    + rewrite put_other in Hb by done. apply Hne. by eapply (i_disj _ _ Hi).
Qed.

Lemma run_update a f n s : t_nodes s !! a = Some n -> update a f s = Some (put a (f n) s, tt).
Proof. intros H. unfold update. by rewrite (run_bind _ _ _ _ _ (run_node_at _ _ _ H)). Qed.

Lemma drop_put c n s : drop_node c (put c n s) = drop_node c s.
Proof. unfold drop_node, put. cbn. by rewrite delete_insert_eq. Qed.

(** The tail both removals share. *)
Lemma run_detach c n s :
  t_nodes s !! c = Some n -> c <> tmpfs_root_node ->
  (update c (set_refcount (t_refcount n - 1)) ;;
   (if t_refcount n =? 1 then _free_tmpfs_node c else update c set_pending) ;; mret 0) s
  = Some (detached c n s, 0).
Proof.
  intros Hc Hr. rewrite (run_bind _ _ _ _ _ (run_update _ _ _ _ Hc)). unfold detached.
  destruct (t_refcount n =? 1).
  - rewrite (run_bind _ _ _ (drop_node c s) tt); [done|]. unfold _free_tmpfs_node.
    rewrite (proj2 (Z.eqb_neq c tmpfs_root_node)) by done.
    rewrite (run_bind _ _ _ _ _ (run_node_at _ _ _ (put_same _ _ _))). unfold modify. by rewrite drop_put.
  - rewrite (run_bind _ _ _ _ _ (run_update _ _ _ _ (put_same _ _ _))). by rewrite put_put.
Qed.

Lemma detached_other c n s b : b <> c -> t_nodes (detached c n s) !! b = t_nodes s !! b.
Proof. intros. unfold detached. case_if; [by apply lookup_delete_ne|by apply put_other]. Qed.

Lemma removed_sub t L x : x ∈ entry_removed t L -> x ∈ L.
Proof.
  induction L as [|[t' c'] L IH]; cbn; [done|]. case_decide; [by right|].
  intros [->|H']%elem_of_cons; [by left|right; by apply IH].
Qed.

Lemma entries_removed s l L t : entries s l L -> entries s (entry_removed t L).*2 (entry_removed t L).
Proof.
  induction 1 as [|c [t' c'] l L (Hc & Hx & n & Hn & Ht) HL IH]; [constructor|]. cbn [entry_removed].
  case_decide.
  - pose proof (entries_addrs _ _ _ HL) as ->. done.
  - constructor; [|done]. cbn [fst snd] in *. subst. split; [done|]. split; [done|]. by exists n.
Qed.

(** After the cut the directory lists the rest. *)
Lemma lists_cut s hs d n L t c cn :
  tinv s hs -> t_nodes s !! d = Some n -> t_type n = VFS_DIRECTORY -> entries s (t_children n) L ->
  entry_of t L = Some c -> c <> d ->
  lists (detached c cn (put d (set_children (entry_removed t L).*2 n) s)) d (entry_removed t L).
Proof.
  intros Hi Hd Ht HL Hc Hcd. pose proof (removed_perm _ _ _ Hc) as Hperm. rewrite (entries_addrs _ _ _ HL) in Hperm.
  destruct (i_node _ _ Hi _ _ Hd) as (_ & _ & Hnd & _). rewrite Hperm in Hnd. inversion_clear Hnd as [|? ? Hni Hnd'].
  exists (set_children (entry_removed t L).*2 n). split; [rewrite detached_other by done; apply put_same|].
  split; [done|]. cbn [set_children t_children]. eapply entries_keep; [by eapply entries_removed|].
  intros x Hx m Hm. exists m. split; [|done]. assert (x <> c) by (by intros ->).
  assert (x ∈ t_children n) as Hxin by (rewrite Hperm; by right).
  destruct (i_child _ _ Hi _ _ _ Hd Hxin) as (Hxd & _). rewrite detached_other by done. by rewrite put_other.
Qed.

Lemma delete_ok s hs d n L name t :
  tinv s hs -> (forall a, hs a < 2 ^ 32 - 1) -> t_nodes s !! d = Some n -> t_type n = VFS_DIRECTORY ->
  entries s (t_children n) L -> cstr name t ->
  exists s' r, _tmp_delete d name s = Some (s', r) /\ tinv s' hs /\
    match entry_of t L with
    | None => r = -1 /\ s' = s
    | Some _ => r = 0 /\ lists s' d (entry_removed t L)
    end.
Proof.
  intros Hi Hb Hd Ht HL Hname. unfold _tmp_delete.
  rewrite (run_bind _ _ _ _ _ (run_node_at _ _ _ Hd)), Ht, Z.eqb_refl. cbn [negb].
  rewrite (run_bind _ _ _ _ _ (unlink_first_wp _ _ _ _ _ HL Hname)).
  destruct (entry_of t L) as [c|] eqn:Ec; [|by exists s, (-1)].
  pose proof (removed_perm _ _ _ Ec) as Hperm. rewrite (entries_addrs _ _ _ HL) in Hperm.
  destruct (cut_ok s hs d n c _ Hi Hd Hperm) as (cn & Hcn & Hcd & Hcr & Hcn1 & Hrc & Hh & Hi').
  rewrite (run_bind _ _ _ _ _ (run_update _ _ _ _ Hd)).
  rewrite (run_bind _ _ _ _ _ (run_node_at _ _ _ Hcn1)).
  rewrite u32_small by (specialize (Hb c); unfold is_u32; lia).
  rewrite run_detach by done. eexists _, 0. split; [done|]. split; [done|]. split; [done|]. by eapply lists_cut.
Qed.

Lemma unlink_addr_ok t L c :
  NoDup L.*2 -> entry_of t L = Some c -> unlink_addr L.*2 c = Some (entry_removed t L).*2.
Proof.
  induction L as [|[t' c'] L IH]; cbn; [done|]. intros Hnd Hc. inversion_clear Hnd as [|? ? Hni Hnd'].
  case_decide; [injection Hc as ->; by rewrite Z.eqb_refl|].
  rewrite (proj2 (Z.eqb_neq c' c)) by (intros ->; by apply entry_in in Hc). by rewrite (IH Hnd' Hc).
Qed.

Lemma rmdir_ok s hs d n L name t :
  tinv s hs -> t_nodes s !! d = Some n -> t_type n = VFS_DIRECTORY ->
  entries s (t_children n) L -> cstr name t ->
  exists s' r, _tmp_rmdir d name s = Some (s', r) /\ tinv s' hs.
Proof.
  intros Hi Hd Ht HL Hname. unfold _tmp_rmdir, _find_child.
  rewrite (run_bind _ _ _ _ _ (run_node_at _ _ _ Hd)), Ht, Z.eqb_refl. cbn [negb].
  assert ((d0 ← node_at d; find_in (t_children d0) name) s = Some (s, default 0 (entry_of t L))) as Hf.
  { rewrite (run_bind _ _ _ _ _ (run_node_at _ _ _ Hd)). by apply find_in_wp. }
  rewrite (run_bind _ _ _ _ _ Hf). destruct (entry_of t L) as [c|] eqn:Ec; cbn [default from_option id];
    [|by exists s, (-1)].
  pose proof (removed_perm _ _ _ Ec) as Hperm. rewrite (entries_addrs _ _ _ HL) in Hperm.
  destruct (cut_ok s hs d n c _ Hi Hd Hperm) as (cn & Hcn & Hcd & Hcr & Hcn1 & Hrc & Hh & Hi').
  destruct (i_node _ _ Hi _ _ Hcn) as [Hc0 _]. rewrite (proj2 (Z.eqb_neq c 0)) by done.
  rewrite (run_bind _ _ _ _ _ (run_node_at _ _ _ Hcn)). case_if; [by exists s, (-1)|].
  destruct (i_node _ _ Hi _ _ Hd) as (_ & _ & Hnd & _). rewrite <- (entries_addrs _ _ _ HL) in Hnd |- *.
  rewrite (unlink_addr_ok t L c Hnd Ec). rewrite (run_bind _ _ _ _ _ (run_update _ _ _ _ Hd)). cbv zeta.
  rewrite (proj2 (Z.ltb_lt 0 (t_refcount cn))) by lia.
  replace (t_refcount cn - 1 =? 0) with (t_refcount cn =? 1) by lia.
  rewrite run_detach by done. by eexists _, 0.
Qed.

Lemma rename_ok s hs d n L o nw t t' :
  tinv s hs -> t_nodes s !! d = Some n -> t_type n = VFS_DIRECTORY ->
  entries s (t_children n) L -> cstr o t -> cstr nw t' ->
  exists s' r, _tmp_rename d o nw s = Some (s', r) /\ tinv s' hs.
Proof.
  intros Hi Hd Ht HL Ho Hn. unfold _tmp_rename, _find_child.
  rewrite (run_bind _ _ _ _ _ (run_node_at _ _ _ Hd)), Ht, Z.eqb_refl. cbn [negb].
  assert ((d0 ← node_at d; find_in (t_children d0) o) s = Some (s, default 0 (entry_of t L))) as Hf.
  { rewrite (run_bind _ _ _ _ _ (run_node_at _ _ _ Hd)). by apply find_in_wp. }
  rewrite (run_bind _ _ _ _ _ Hf). destruct (entry_of t L) as [c|] eqn:Ec; cbn [default from_option id];
    [|by exists s, (-1)].
  apply entry_in in Ec. rewrite (entries_addrs _ _ _ HL) in Ec.
  destruct (i_child _ _ Hi _ _ _ Hd Ec) as (_ & _ & cn & Hcn & _).
  destruct (i_node _ _ Hi _ _ Hcn) as (Hc0 & (tc & Htc & Hl & Hvl) & Hnd & _).
  rewrite (proj2 (Z.eqb_neq c 0)) by done. rewrite (run_bind _ _ _ _ _ (run_node_at _ _ _ Hcn)).
  change TMPFS_NAME_LEN with 128.
  destruct (strlcpy_named _ _ _ Hn Hl) as (nm & Hnm & Hnmt & Hnml).
  destruct (strlcpy_named _ _ _ Hn Hvl) as (vnm & Hvnm & _ & Hvnml).
  rewrite (run_bind _ _ s s nm) by (unfold lift; by rewrite Hnm).
  rewrite (run_bind _ _ s s vnm) by (unfold lift; by rewrite Hvnm).
  rewrite (run_bind _ _ _ _ _ (run_update _ _ _ _ Hcn)). eexists _, 0. split; [done|].
  eapply tinv_put; try done. by exists (take 127 t').
Qed.

(** A count changed together with the opens of the node. *)
Lemma tinv_count s hs a n k :
  tinv s hs -> t_nodes s !! a = Some n -> 0 <= hs a + k -> 0 < t_refcount n + k ->
  tinv (put a (set_refcount (t_refcount n + k) n) s) (bump hs a k).
Proof.
  intros Hi Ha Hk Hpos. pose proof (i_node _ _ Hi _ _ Ha) as (Ha0 & Hnm & Hnd & Hrc & _).
  assert (forall b m, t_nodes (put a (set_refcount (t_refcount n + k) n) s) !! b = Some m -> exists m0,
    t_nodes s !! b = Some m0 /\ t_children m = t_children m0) as Hback.
  { intros b m. destruct (decide (b = a)) as [->|Hne]; [rewrite put_same; intros [= <-]; eauto|].
    rewrite put_other by done. eauto. }
  assert (forall b m, t_nodes s !! b = Some m -> exists m',
    t_nodes (put a (set_refcount (t_refcount n + k) n) s) !! b = Some m' /\
    t_pending_free m' = t_pending_free m) as Hfwd.
  { intros b m Hm. destruct (decide (b = a)) as [->|Hne].
    - rewrite put_same. rewrite Ha in Hm. injection Hm as <-. eauto.
    - rewrite put_other by done. eauto. }
  split.
  - destruct (i_root _ _ Hi) as (m & Hm & Hp). destruct (Hfwd _ _ Hm) as (m' & ? & ?). exists m'. split; [done|congruence].
  - intros b m Hm. unfold bump. destruct (decide (b = a)) as [->|Hne].
    + rewrite put_same in Hm. injection Hm as <-. rewrite Z.eqb_refl. cbn. split_and!; try done; lia.
    + rewrite put_other in Hm by done. rewrite (proj2 (Z.eqb_neq b a)) by done. by apply (i_node _ _ Hi).
  - intros d m c Hm Hin. destruct (Hback _ _ Hm) as (m0 & Hm0 & E). rewrite E in Hin.
    destruct (i_child _ _ Hi _ _ _ Hm0 Hin) as (? & ? & cn & Hcn & Hp). split; [done|]. split; [done|].
    destruct (Hfwd _ _ Hcn) as (m' & ? & ?). exists m'. split; [done|congruence].
  - intros d1 n1 d2 n2 c H1 H2. destruct (Hback _ _ H1) as (m1 & ? & ->), (Hback _ _ H2) as (m2 & ? & ->).
    by apply (i_disj _ _ Hi).
  - intros b. unfold bump. destruct (i_held _ _ Hi b) as [Hb0 Hb]. destruct (b =? a) eqn:E; b2p.
    + subst b. split; [lia|]. rewrite put_same. eauto.
    + split; [done|]. intros Hl. destruct (Hb Hl) as [m Hm]. destruct (Hfwd _ _ Hm) as (m' & ? & _). by exists m'.
Qed.

Lemma tmp_open_ok s hs a :
  tinv s hs -> hs a < 2 ^ 32 - 2 -> is_Some (t_nodes s !! a) ->
  exists s', _tmp_open a s = Some (s', tt) /\ tinv s' (bump hs a 1).
Proof.
  intros Hi Hb [n Ha]. unfold _tmp_open. rewrite (run_bind _ _ _ _ _ (run_node_at _ _ _ Ha)).
  pose proof (i_node _ _ Hi _ _ Ha) as (_ & _ & _ & Hrc & Hpos). pose proof (i_held _ _ Hi a) as [Hh _].
  rewrite u32_small by (unfold is_u32; destruct (t_pending_free n); lia).
  eexists. split; [by apply run_update|]. apply tinv_count; [done..| |]; lia.
Qed.

(** The last close of a node that has been removed. *)
Lemma tinv_drop s hs a n :
  tinv s hs -> t_nodes s !! a = Some n -> t_pending_free n = true -> hs a = 1 ->
  tinv (drop_node a s) (bump hs a (-1)).
Proof.
  intros [Hr Hn Hc Hd Hh] Ha Hp H1.
  assert (forall b m, t_nodes (drop_node a s) !! b = Some m <-> b <> a /\ t_nodes s !! b = Some m) as Hl.
  { intros b m. cbn. rewrite lookup_delete_Some. split; intros []; split; by try apply not_eq_sym. }
  assert (forall b, b <> a -> bump hs a (-1) b = hs b) as Hbump.
  { intros b Hb. unfold bump. by rewrite (proj2 (Z.eqb_neq b a)). }
  split.
  - destruct Hr as (m & Hm & Hpm). exists m. rewrite Hl. split; [|done]. split; [|done]. intros E.
    rewrite E in Hm. congruence.
  - intros b m [Hne Hb]%Hl. rewrite Hbump by done. by apply Hn.
  - intros d m x [_ Hm]%Hl Hin. destruct (Hc _ _ _ Hm Hin) as (? & ? & cn & Hcn & ?). split; [done|]. split; [done|].
    exists cn. rewrite Hl. split; [|done]. split; [|done]. intros ->. congruence.
  - intros d1 n1 d2 n2 x [_ ?]%Hl [_ ?]%Hl. by apply Hd.
  - intros b. destruct (Hh b) as [? H]. destruct (decide (b = a)) as [->|Hne].
    + unfold bump. rewrite Z.eqb_refl, H1. split; lia.
    + rewrite Hbump by done. split; [done|]. intros Hb. destruct (H Hb) as [m Hm]. exists m. by rewrite Hl.
Qed.

Lemma tmp_close_ok s hs a :
  tinv s hs -> 0 < hs a < 2 ^ 32 - 1 ->
  exists s', _tmp_close a s = Some (s', tt) /\ tinv s' (bump hs a (-1)).
Proof.
  intros Hi Hb. destruct (i_held _ _ Hi a) as [_ [n Ha]]; [lia|]. unfold _tmp_close.
  rewrite (run_bind _ _ _ _ _ (run_node_at _ _ _ Ha)).
  pose proof (i_node _ _ Hi _ _ Ha) as (_ & _ & _ & Hrc & Hpos).
  rewrite (proj2 (Z.eqb_neq (t_refcount n) 0)) by lia.
  rewrite u32_small by (unfold is_u32; destruct (t_pending_free n); lia).
  rewrite (run_bind _ _ _ _ _ (run_update _ _ _ _ Ha)). destruct (t_refcount n =? 1) eqn:E; b2p.
  - destruct (t_pending_free n) eqn:Hp; [|lia].
    assert (a <> tmpfs_root_node) as Hr.
    { intros ->. destruct (i_root _ _ Hi) as (m & ? & ?). congruence. }
    unfold _free_tmpfs_node. rewrite (proj2 (Z.eqb_neq a tmpfs_root_node)) by done.
    rewrite (run_bind _ _ _ _ _ (run_node_at _ _ _ (put_same _ _ _))).
    eexists. split; [done|]. rewrite drop_put. eapply tinv_drop; try done. lia.
  - eexists. split; [done|]. change (t_refcount n - 1) with (t_refcount n + -1). apply tinv_count; [done..| |]; lia.
Qed.

Lemma known_Some s a : known s a = true -> exists n, t_nodes s !! a = Some n.
Proof. unfold known. rewrite bool_decide_eq_true. by intros [n ?]; exists n. Qed.

Lemma not_known s a : negb (known s a) = true -> t_nodes s !! a = None.
Proof. unfold known. rewrite negb_true_iff, bool_decide_eq_false. apply eq_None_not_Some. Qed.

Lemma call_ok m s hs s' r : m s = Some (s', r) -> call m s hs = Some (s', hs).
Proof. intros H. unfold call. by rewrite H. Qed.

(** A directory operation on something that is no directory. *)
Lemma not_dir s d n :
  t_nodes s !! d = Some n -> t_type n <> VFS_DIRECTORY ->
  (forall new type name, new_child new type d name s = Some (s, -1)) /\
  (forall name, _tmp_delete d name s = Some (s, -1)) /\ (forall name, _tmp_rmdir d name s = Some (s, -1)) /\
  (forall o nw, _tmp_rename d o nw s = Some (s, -1)).
Proof.
  intros Hd Ht. unfold new_child, _tmp_delete, _tmp_rmdir, _tmp_rename.
  split_and!; intros; rewrite (run_bind _ _ _ _ _ (run_node_at _ _ _ Hd));
    by rewrite (proj2 (Z.eqb_neq (t_type n) VFS_DIRECTORY)).
Qed.

(** The directory operations return on every node. *)
Section Total.
Context (s : tmpfs) (hs : Z -> Z) (d : Z) (n : tmpfs_node).
Hypotheses (Hi : tinv s hs) (Hd : t_nodes s !! d = Some n).

Lemma new_total new type name t :
  cstr name t -> t_nodes s !! new = None -> exists s' r, new_child new type d name s = Some (s', r) /\ tinv s' hs /\ is_Some (t_nodes s' !! d).
Proof.
  intros Ht Hn. destruct (tinv_entries _ _ _ _ Hi Hd) as [L HL]. destruct (decide (t_type n = VFS_DIRECTORY)) as [Hty|Hty].
  - destruct (new_child_ok s hs d n L new type name t) as (s' & r & -> & ? & Hr); try done. exists s', r.
    split; [done|]. split; [done|]. case_decide; [destruct Hr as (_ & m & -> & _)|destruct Hr as [_ ->]]; eauto.
  - rewrite (proj1 (not_dir _ _ _ Hd Hty)). eauto.
Qed.

Lemma delete_total name t :
  cstr name t -> (forall a, hs a < 2 ^ 32 - 1) -> exists s' r, _tmp_delete d name s = Some (s', r) /\ tinv s' hs.
Proof.
  intros Ht Hb. destruct (tinv_entries _ _ _ _ Hi Hd) as [L HL]. destruct (decide (t_type n = VFS_DIRECTORY)) as [Hty|Hty].
  - destruct (delete_ok s hs d n L name t) as (s' & r & -> & ? & _); eauto.
  - destruct (not_dir _ _ _ Hd Hty) as (_ & Hx & _). rewrite Hx. eauto.
Qed.

Lemma rmdir_total name t : cstr name t -> exists s' r, _tmp_rmdir d name s = Some (s', r) /\ tinv s' hs.
Proof.
  intros Ht. destruct (tinv_entries _ _ _ _ Hi Hd) as [L HL]. destruct (decide (t_type n = VFS_DIRECTORY)) as [Hty|Hty].
  - by apply (rmdir_ok s hs d n L name t).
  - destruct (not_dir _ _ _ Hd Hty) as (_ & _ & Hx & _). rewrite Hx. eauto.
Qed.

Lemma rename_total o nw t t' : cstr o t -> cstr nw t' -> exists s' r, _tmp_rename d o nw s = Some (s', r) /\ tinv s' hs.
Proof.
  intros Ht Ht'. destruct (tinv_entries _ _ _ _ Hi Hd) as [L HL]. destruct (decide (t_type n = VFS_DIRECTORY)) as [Hty|Hty].
  - by apply (rename_ok s hs d n L o nw t t').
  - destruct (not_dir _ _ _ Hd Hty) as (_ & _ & _ & Hx). rewrite Hx. eauto.
Qed.
End Total.

Lemma tstep_inv e s hs k :
  tev_ok e -> tinv s hs -> (forall a, hs a <= k) -> k < 2 ^ 32 - 2 ->
  exists s' hs', tstep e (s, hs) = Some (s', hs') /\ tinv s' hs' /\ forall a, hs' a <= k + 1.
Proof.
  intros Hok Hi Hk Hb.
  assert (forall m : TM Z, (exists s' r, m s = Some (s', r) /\ tinv s' hs) ->
    exists s' hs', call m s hs = Some (s', hs') /\ tinv s' hs' /\ forall a, hs' a <= k + 1) as Hcall.
  { intros m (s' & r & Hm & Hi'). exists s', hs. rewrite (call_ok _ _ _ _ _ Hm). split_and!; try done.
    intros a. specialize (Hk a). lia. }
  assert (exists s' hs', Some (s, hs) = Some (s', hs') /\ tinv s' hs' /\ forall a, hs' a <= k + 1) as Hskip.
  { exists s, hs. split_and!; try done. intros a. specialize (Hk a). lia. }
  assert (forall a, hs a < 2 ^ 32 - 1) as Hb1 by (intros a; specialize (Hk a); lia).
  destruct e as [dir new d name|d name|d name|d o nw|a|a]; cbn [tstep tev_ok] in *.
  1-4: destruct (known s d) eqn:Hd; cbn [andb]; [apply known_Some in Hd as [n Hd]|exact Hskip].
  - destruct (negb (known s new)) eqn:Hn; [|exact Hskip]. apply not_known in Hn. apply Hcall.
    destruct Hok as [t Ht]. edestruct (new_total s hs d n Hi Hd new (if dir then VFS_DIRECTORY else VFS_FILE)) as (s' & r & Hr & ? & _); [done..|].
    exists s', r. by destruct dir.
  - apply Hcall. destruct Hok as [t Ht]. by eapply delete_total.
  - apply Hcall. destruct Hok as [t Ht]. by eapply rmdir_total.
  - apply Hcall. destruct Hok as [[t Ht] [t' Ht']]. by eapply rename_total.
  - destruct (known s a) eqn:Ha; [|exact Hskip]. apply known_Some in Ha as [n Ha].
    destruct (tmp_open_ok s hs a) as (s' & -> & Hi'); [done|specialize (Hk a); lia|by exists n|]. ob.
    eexists _, _. split; [done|]. split; [done|]. intros b. unfold bump. specialize (Hk b). case_if; lia.
  - destruct (0 <? hs a) eqn:Ha; b2p; [|exact Hskip].
    destruct (tmp_close_ok s hs a) as (s' & -> & Hi'); [done|specialize (Hk a); lia|]. ob.
    eexists _, _. split; [done|]. split; [done|]. intros b. unfold bump. specialize (Hk b). case_if; lia.
Qed.

Lemma trun_inv es : forall s hs k,
  Forall tev_ok es -> tinv s hs -> (forall a, hs a <= k) -> k + zlen es < 2 ^ 32 - 1 ->
  exists s' hs', trun es (s, hs) = Some (s', hs') /\ tinv s' hs'.
Proof.
  induction es as [|e es IH]; intros s hs k Hok Hi Hk Hlen; [by exists s, hs|].
  apply Forall_cons_1 in Hok as [He Hok]. rewrite zlen_cons in Hlen. pose proof (zlen_nonneg es).
  destruct (tstep_inv e s hs k He Hi Hk ltac:(lia)) as (s1 & hs1 & Hs1 & Hi1 & Hk1).
  cbn [trun]. rewrite Hs1. ob. apply (IH s1 hs1 (k + 1)); try done. lia.
Qed.

Lemma init_inv : exists s, tmpfs_init tmpfs_boot = Some (s, tt) /\ tinv s (fun _ => 0).
Proof.
  unfold tmpfs_init. rewrite (run_bind _ _ _ tmpfs_boot false) by done.
  rewrite (run_bind _ _ _ tmpfs_boot 1) by done.
  assert (cstr TMP_NAME [116; 109; 112]) as Ht by (split; [by exists []|by repeat constructor]).
  destruct (fresh_node_ok TMP_NAME _ VFS_DIRECTORY 1 Ht) as (n & Hn & Hnm & Hty & Hrc & Hch & Hp).
  rewrite (run_bind _ _ tmpfs_boot tmpfs_boot n) by (unfold lift; by rewrite Hn).
  eexists. split; [done|].
  assert (forall a m, (<[tmpfs_root_node := n]> ∅ : gmap Z tmpfs_node) !! a = Some m -> a = tmpfs_root_node /\ m = n) as Hl.
  { intros a m. rewrite lookup_insert_Some, lookup_empty. intros [[? ?]|[_ ?]]; [done|done]. }
  split; cbn.
  - exists n. by rewrite lookup_insert_eq.
  - intros a m [-> ->]%Hl. rewrite Hch, Hrc, Hp. split_and!; try done; [by eexists|constructor].
  - intros d m c [-> ->]%Hl. rewrite Hch. by intros ?%not_elem_of_nil.
  - intros d1 n1 d2 n2 c [-> ->]%Hl [-> ->]%Hl. done.
  - intros a. split; [done|]. lia.
Qed.

(** ** Properties *)


Definition demo_events : list tev :=
  [TNew false 5 tmpfs_root_node [97; 0]; TNew true 6 tmpfs_root_node [98; 0]; TOpen 5;
   TDelete tmpfs_root_node [97; 0]; TNew false 7 6 [97; 0]; TRename 6 [97; 0] [99; 0]; TClose 5;
   TRmdir tmpfs_root_node [98; 0]].


(** C33: A directory is the list of its names.  [walk] returns the first
    entry with the name; creating a file or a directory succeeds exactly when
    the name is not there and memory is found, and puts the name, cut to 127
    characters, in front; deleting takes the first entry with the name out
    and fails, with nothing changed, when there is none. *)
Theorem tmpfs_directory_exact (s : tmpfs) (hs : Z -> Z) (d new : Z) (L : list (list Z * Z)) (name : mem) (t : list Z)
    (dir : bool) :
  tinv s hs -> (forall a, hs a < 2 ^ 32 - 1) -> lists s d L -> cstr name t -> t_nodes s !! new = None ->
  _tmp_walk d name s = Some (s, default 0 (entry_of t L)) /\
  (exists s' r, (if dir then _tmp_mkdir else _tmp_create) new d name s = Some (s', r) /\ tinv s' hs /\
     if decide (entry_of t L = None /\ new <> 0) then r = 0 /\ lists s' d ((take 127 t, new) :: L)
     else r = -1 /\ s' = s) /\
  (exists s' r, _tmp_delete d name s = Some (s', r) /\ tinv s' hs /\
     match entry_of t L with
     | None => r = -1 /\ s' = s
     | Some _ => r = 0 /\ lists s' d (entry_removed t L)
     end).
Proof.
  intros Hi Hb (n & Hd & Hty & HL) Ht Hn. split_and!.
  - unfold _tmp_walk, _find_child. rewrite (run_bind _ _ _ _ _ (run_node_at _ _ _ Hd)), Hty, Z.eqb_refl. cbn [negb].
    rewrite (run_bind _ _ _ _ _ (run_node_at _ _ _ Hd)). by apply find_in_wp.
  - unfold _tmp_mkdir, _tmp_create. by destruct dir; eapply new_child_ok.
  - by eapply delete_ok.
Qed.

Definition demo_root : tmpfs := match tmpfs_init tmpfs_boot with Some (s, _) => s | None => tmpfs_boot end.

Lemma demo_root_inv : tinv demo_root (fun _ => 0).
Proof. unfold demo_root. destruct init_inv as (s & -> & Hi). exact Hi. Qed.

Lemma tmpfs_directory_exact_witness :
  _tmp_walk tmpfs_root_node [97; 0] demo_root = Some (demo_root, default 0 (entry_of [97] [])) /\
  (exists s' r, _tmp_mkdir 9 tmpfs_root_node [97; 0] demo_root = Some (s', r) /\ tinv s' (fun _ => 0) /\
     if decide (entry_of [97] [] = None /\ 9 <> 0) then r = 0 /\ lists s' tmpfs_root_node [(take 127 [97], 9)]
     else r = -1 /\ s' = demo_root) /\
  (exists s' r, _tmp_delete tmpfs_root_node [97; 0] demo_root = Some (s', r) /\ tinv s' (fun _ => 0) /\
     match entry_of [97] [] with
     | None => r = -1 /\ s' = demo_root
     | Some _ => r = 0 /\ lists s' tmpfs_root_node (entry_removed [97] [])
     end).
Proof.
  apply (tmpfs_directory_exact demo_root (fun _ => 0) tmpfs_root_node 9 [] [97; 0] [97] true).
  - apply demo_root_inv.
  - intros a. lia.
  - unfold lists. eexists. split; [vm_compute; reflexivity|]. split; [reflexivity|]. constructor.
  - split; [by exists []|]. constructor; [done|constructor].
  - reflexivity.
Defined.
