(* ===== verification/UnixSock.v ===== *)
(** * AF_UNIX stream sockets

    Model of [kernel/core/syscall/sock/unix_sock.c].  The state holds the
    endpoints and the VFS nodes that are allocated, by address (using one that
    has been freed has no result), the table of bound names, and the file
    references the module takes and gives back.

    - An endpoint's mutex makes each locked part atomic; a call runs to its
      next [schedule()] without another call in between.  A loop that waits is
      a round: it ends with [UWait] where the code calls [schedule()].
    - The pending connections linked through [pend_next] are the list of their
      endpoints; [pend_count] is kept beside it as in the code.  [fdq] is the
      list of its first [fdq_len] entries.
    - [bound] and [node] of an endpoint are only ever written and are left out.
    - What [kmalloc] returns is an argument (0 for null).  [alloc_fd] lies in
      [helper.c]: a descriptor, or a failure to allocate the file, or no free
      slot, in which case it closes the node again. *)
From S2P Require Import Prelude StateM Klib Validate VfsPath.

#[local] Open Scope Z_scope.

Definition UNIX_PATH_MAX : Z := 108.
Definition UNIX_BUF_SIZE : Z := 4096.
Definition UNIX_BACKLOG : Z := 4.
Definition UNIX_BOUND_MAX : nat := 32.
Definition UNIX_FD_QUEUE_MAX : Z := 16.

Definition EINVAL : Z := 22.
Definition EFAULT : Z := 14.
Definition ENOMEM : Z := 12.
Definition EMFILE : Z := 24.
Definition ENOENT : Z := 2.
Definition EAGAIN : Z := 11.
Definition EPIPE : Z := 32.
Definition EADDRINUSE : Z := 98.
Definition ENOTSOCK : Z := 88.
Definition ECONNREFUSED : Z := 111.
Definition EOPNOTSUPP : Z := 95.
Definition EBADF : Z := 9.
Definition SOCK_STREAM : Z := 1.
Definition SHUT_RD : Z := 0.
Definition SHUT_WR : Z := 1.
Definition SHUT_RDWR : Z := 2.
Definition MAX_FD : nat := 256.

Inductive uep_kind := UEP_NONE | UEP_BOUND | UEP_LISTEN | UEP_CONN.
#[export] Instance uep_kind_dec : EqDecision uep_kind.
Proof. solve_decision. Defined.

Record unix_ep := Ep {
  e_kind : uep_kind;
  e_used : bool;
  e_shut_rd : bool;
  e_shut_wr : bool;
  e_eof : bool;
  e_peer_no_read : bool;
  e_peer : Z;
  e_refs : Z;
  e_rx : mem;
  e_rx_len : Z;
  e_rx_off : Z;
  e_fdq : list Z;
  e_backlog : Z;
  e_pend : list Z;
  e_pend_count : Z
}.

Record unix_bound := Bound { b_used : bool; b_path : mem; b_ep : Z }.

(** What the module does with references to files. *)
Inductive file_event := FileRef (f : Z) | FileUnref (f : Z) | FileInstall (slot f : Z).

Record usock := USock {
  u_eps : gmap Z unix_ep;
  u_nodes : gmap Z Z;
  u_bound : list unix_bound;
  u_files : list file_event
}.

Abbreviation UM := (M usock).

(** ** Access *)

Definition set_eps (f : gmap Z unix_ep -> gmap Z unix_ep) (s : usock) : usock :=
  USock (f (u_eps s)) (u_nodes s) (u_bound s) (u_files s).
Definition set_nodes (f : gmap Z Z -> gmap Z Z) (s : usock) : usock :=
  USock (u_eps s) (f (u_nodes s)) (u_bound s) (u_files s).
Definition set_bound (l : list unix_bound) (s : usock) : usock :=
  USock (u_eps s) (u_nodes s) l (u_files s).
Definition log_file (e : file_event) (s : usock) : usock :=
  USock (u_eps s) (u_nodes s) (u_bound s) (u_files s ++ [e]).

Definition ep_at (a : Z) : UM unix_ep := fun s => e ← u_eps s !! a; Some (s, e).
Definition upd (a : Z) (f : unix_ep -> unix_ep) : UM unit :=
  e ← ep_at a; modify (set_eps (<[a := f e]>)).
Definition priv (n : Z) : UM Z := fun s => a ← u_nodes s !! n; Some (s, a).
(** [kfree(node)] *)
Definition free_node (n : Z) : UM unit := _ ← priv n; modify (set_nodes (delete n)).

Definition with_kind (k : uep_kind) (e : unix_ep) : unix_ep :=
  Ep k (e_used e) (e_shut_rd e) (e_shut_wr e) (e_eof e) (e_peer_no_read e) (e_peer e) (e_refs e) (e_rx e)
    (e_rx_len e) (e_rx_off e) (e_fdq e) (e_backlog e) (e_pend e) (e_pend_count e).
Definition with_refs (r : Z) (e : unix_ep) : unix_ep :=
  Ep (e_kind e) (e_used e) (e_shut_rd e) (e_shut_wr e) (e_eof e) (e_peer_no_read e) (e_peer e) r (e_rx e)
    (e_rx_len e) (e_rx_off e) (e_fdq e) (e_backlog e) (e_pend e) (e_pend_count e).
Definition with_peer (p : Z) (e : unix_ep) : unix_ep :=
  Ep (e_kind e) (e_used e) (e_shut_rd e) (e_shut_wr e) (e_eof e) (e_peer_no_read e) p (e_refs e) (e_rx e)
    (e_rx_len e) (e_rx_off e) (e_fdq e) (e_backlog e) (e_pend e) (e_pend_count e).
Definition with_used (u : bool) (e : unix_ep) : unix_ep :=
  Ep (e_kind e) u (e_shut_rd e) (e_shut_wr e) (e_eof e) (e_peer_no_read e) (e_peer e) (e_refs e) (e_rx e)
    (e_rx_len e) (e_rx_off e) (e_fdq e) (e_backlog e) (e_pend e) (e_pend_count e).
Definition with_flags (srd swr eof pnr : bool) (e : unix_ep) : unix_ep :=
  Ep (e_kind e) (e_used e) srd swr eof pnr (e_peer e) (e_refs e) (e_rx e)
    (e_rx_len e) (e_rx_off e) (e_fdq e) (e_backlog e) (e_pend e) (e_pend_count e).
Definition with_rx (rx : mem) (len off : Z) (e : unix_ep) : unix_ep :=
  Ep (e_kind e) (e_used e) (e_shut_rd e) (e_shut_wr e) (e_eof e) (e_peer_no_read e) (e_peer e) (e_refs e) rx
    len off (e_fdq e) (e_backlog e) (e_pend e) (e_pend_count e).
Definition with_fdq (q : list Z) (e : unix_ep) : unix_ep :=
  Ep (e_kind e) (e_used e) (e_shut_rd e) (e_shut_wr e) (e_eof e) (e_peer_no_read e) (e_peer e) (e_refs e) (e_rx e)
    (e_rx_len e) (e_rx_off e) q (e_backlog e) (e_pend e) (e_pend_count e).
Definition with_pend (l : list Z) (n : Z) (e : unix_ep) : unix_ep :=
  Ep (e_kind e) (e_used e) (e_shut_rd e) (e_shut_wr e) (e_eof e) (e_peer_no_read e) (e_peer e) (e_refs e) (e_rx e)
    (e_rx_len e) (e_rx_off e) (e_fdq e) (e_backlog e) l n.

(** [if (ep->refs > 0) ep->refs--] *)
Definition drop_ref (e : unix_ep) : unix_ep :=
  with_refs (if 0 <? e_refs e then e_refs e - 1 else e_refs e) e.

(** ** Endpoints *)

Definition fresh_ep : unix_ep :=
  Ep UEP_NONE true false false false false 0 0 (replicate (Z.to_nat UNIX_BUF_SIZE) 0) 0 0 [] UNIX_BACKLOG [] 0.

Definition ep_alloc (a : Z) : UM Z :=
  if a =? 0 then mret 0 else modify (set_eps (<[a := fresh_ep]>)) ;; mret a.

Definition ep_link (a b : Z) : UM unit :=
  upd a (fun e => with_refs (u32 (e_refs e + 1)) (with_peer b e)) ;;
  upd b (fun e => with_refs (u32 (e_refs e + 1)) (with_peer a e)).

Definition unix_bound_remove (ep : Z) : UM unit :=
  s ← gets u_bound;
  modify (set_bound
    (match list_find (fun b => b_used b = true /\ b_ep b = ep) s with
     | Some (i, b) => <[i := Bound false (<[0%nat := 0]> (b_path b)) 0]> s
     | None => s
     end)).

(** The other end sees the end of the connection. *)
Definition hang_up (e : unix_ep) : unix_ep :=
  drop_ref (with_flags (e_shut_rd e) (e_shut_wr e) true true (with_peer 0 e)).

(** [ep_put], with [destroy] for [ep_destroy]. *)
Definition put_with (destroy : Z -> UM unit) (ep : Z) : UM unit :=
  if ep =? 0 then skip
  else
    upd ep drop_ref ;;
    e ← ep_at ep;
    if e_refs e =? 0 then destroy ep else skip.

(** The mutual recursion of [ep_destroy] and [ep_put] is at most this deep: a
    listener, its pending endpoints, and their peers. *)
Definition DEPTH : nat := 4.

Fixpoint ep_destroy (depth : nat) (ep : Z) : UM unit :=
  match depth with
  | O => fail
  | S depth =>
      if ep =? 0 then skip
      else
        e ← ep_at ep;
        if negb (e_used e) then skip
        else
          upd ep (fun e => with_pend [] 0 (with_peer 0 (with_used false e))) ;;
          (if bool_decide (e_kind e = UEP_BOUND \/ e_kind e = UEP_LISTEN) then unix_bound_remove ep else skip) ;;
          (if e_peer e =? 0 then skip
           else
             upd (e_peer e) hang_up ;;
             p ← ep_at (e_peer e);
             if e_refs p =? 0 then ep_destroy depth (e_peer e) else skip) ;;
          for_each (e_pend e) (put_with (ep_destroy depth)) ;;
          for_each (e_fdq e) (fun f => if f =? 0 then skip else modify (log_file (FileUnref f))) ;;
          _ ← ep_at ep;
          modify (set_eps (delete ep))
  end.

Definition ep_put (ep : Z) : UM unit := put_with (ep_destroy DEPTH) ep.

Definition ep_break (ep : Z) : UM unit :=
  e ← ep_at ep;
  let peer := e_peer e in
  (if peer =? 0 then skip else upd ep (fun e => drop_ref (with_peer 0 e))) ;;
  e ← ep_at ep;
  let dead_self := e_refs e =? 0 in
  (if peer =? 0 then skip else upd peer hang_up) ;;
  dead_peer ← (if peer =? 0 then mret false else p ← ep_at peer; mret (e_refs p =? 0));
  (if dead_self then ep_destroy DEPTH ep else skip) ;;
  (if dead_peer : bool then ep_destroy DEPTH peer else skip).

Definition unix_node_close_conn (ep : Z) : UM unit :=
  e ← ep_at ep;
  (if e_peer e =? 0 then skip else ep_break ep) ;;
  ep_put ep.

(** ** Names *)

(** The first free slot of the table, and the slot filled in. *)
Fixpoint bound_fill (l : list unix_bound) (path : mem) (ep : Z) : option (option (list unix_bound)) :=
  match l with
  | [] => Some None
  | b :: r =>
      if negb (b_used b) then
        p ← bounded_copy path 0 UNIX_PATH_MAX (b_path b); Some (Some (Bound true p ep :: r))
      else
        x ← bound_fill r path ep;
        Some (match x with Some r => Some (b :: r) | None => None end)
  end.

(** The first used slot with the path. *)
Fixpoint bound_find (l : list unix_bound) (path : mem) : option (option Z) :=
  match l with
  | [] => Some None
  | b :: r =>
      if negb (b_used b) then bound_find r path
      else eq ← streq (b_path b) path; if eq : bool then Some (Some (b_ep b)) else bound_find r path
  end.

Definition unix_bound_insert (path : mem) (ep : Z) : UM Z :=
  l ← gets u_bound;
  found ← lift (bound_find l path);
  match found with
  | Some _ => mret (- EADDRINUSE)
  | None =>
      x ← lift (bound_fill l path ep);
      match x with
      | Some l => modify (set_bound l) ;; mret 0
      | None => mret (- EADDRINUSE)
      end
  end.

(** Returns 0 for null. *)
Definition unix_bound_lookup (path : mem) : UM Z :=
  l ← gets u_bound;
  found ← lift (bound_find l path);
  match found with
  | None => mret 0
  | Some ep =>
      if ep =? 0 then mret 0
      else
        e ← ep_at ep;
        if e_used e then upd ep (fun e => with_refs (u32 (e_refs e + 1)) e) ;; mret ep else mret 0
  end.

(** [out] is the caller's 512-byte buffer; [cwd] the current task's working
    directory, if there is a current task. *)
Definition unix_path_canon (cwd : option mem) (path out : mem) : option (mem * Z) :=
  c ← ld path 0;
  if c =? 0 then
    c1 ← ld path 1;
    Some (out, if negb (c1 =? 0) then - EOPNOTSUPP else - EINVAL)
  else
    out ← match cwd with
          | Some cwd => vfs_make_abs cwd path out 512
          | None => bounded_copy path 0 512 out
          end;
    Some (out, 0).

(** ** Nodes *)

Definition unix_make_node (new ep : Z) : UM Z :=
  if new =? 0 then mret 0
  else
    modify (set_nodes (<[new := ep]>)) ;;
    upd ep (fun e => with_refs (u32 (e_refs e + 1)) e) ;;
    mret new.

Definition unix_node_close (n : Z) : UM unit :=
  ep ← priv n;
  e ← ep_at ep;
  (if e_used e then
     if bool_decide (e_kind e = UEP_CONN) then unix_node_close_conn ep else ep_destroy DEPTH ep
   else skip) ;;
  free_node n.

Inductive fd_result := FdOk (fd : Z) | FdNoFile | FdNoSlot.

(** [alloc_fd] of helper.c. *)
Definition alloc_fd (r : fd_result) (n : Z) : UM Z :=
  match r with
  | FdOk fd => mret fd
  | FdNoFile => mret (-1)
  | FdNoSlot => unix_node_close n ;; mret (-1)
  end.

Definition unix_sock_create (a new type : Z) : UM Z :=
  if negb (type =? SOCK_STREAM) then mret 0
  else
    ep ← ep_alloc a;
    if ep =? 0 then mret 0
    else
      node ← unix_make_node new ep;
      if node =? 0 then modify (set_eps (delete ep)) ;; mret 0 else mret node.

(** Returns the two descriptors, or the error. *)
Definition unix_socketpair (a b na nb : Z) (ra rb : fd_result) (type : Z) : UM (Z + Z * Z) :=
  if negb (type =? SOCK_STREAM) then mret (inl (- EOPNOTSUPP))
  else
    a ← ep_alloc a;
    b ← ep_alloc b;
    if (a =? 0) || (b =? 0) then
      (if a =? 0 then skip else modify (set_eps (delete a))) ;;
      (if b =? 0 then skip else modify (set_eps (delete b))) ;;
      mret (inl (- ENOMEM))
    else
      upd a (with_kind UEP_CONN) ;;
      upd b (with_kind UEP_CONN) ;;
      ep_link a b ;;
      na ← unix_make_node na a;
      nb ← (if na =? 0 then mret 0 else unix_make_node nb b);
      if (na =? 0) || (nb =? 0) then
        ep_break a ;;
        (if na =? 0 then skip else ep_put a ;; free_node na) ;;
        (if nb =? 0 then skip else ep_put b ;; free_node nb) ;;
        mret (inl (- ENOMEM))
      else
        fa ← alloc_fd ra na;
        if fa <? 0 then unix_node_close na ;; unix_node_close nb ;; mret (inl (- EMFILE))
        else
          fb ← alloc_fd rb nb;
          (* the file of [fa] has one reference: [file_unref] closes its node *)
          if fb <? 0 then unix_node_close nb ;; unix_node_close na ;; mret (inl (- EMFILE))
          else mret (inr (fa, fb)).

Definition ep_from_node (n : Z) : UM Z :=
  ep ← priv n; e ← ep_at ep; mret (if e_used e then ep else 0).

(** ** The receive buffer *)

(** [src] from index [i] on, [n] bytes. *)
Fixpoint push_loop (n : nat) (src : mem) (i : Z) (rx : mem) (off len : Z) : option (mem * Z) :=
  match n with
  | O => Some (rx, len)
  | S n =>
      c ← ld src i;
      rx ← st rx (u32 (off + len) mod UNIX_BUF_SIZE) c;
      push_loop n src (i + 1) rx off (u32 (len + 1))
  end.

Definition ep_push (ep : Z) (src : mem) (i n : Z) : UM unit :=
  e ← ep_at ep;
  '(rx, len) ← lift (push_loop (Z.to_nat n) src i (e_rx e) (e_rx_off e) (e_rx_len e));
  upd ep (with_rx rx len (e_rx_off e)).

Fixpoint pop_loop (n : nat) (rx : mem) (off : Z) (dst : mem) (i : Z) : option (mem * Z) :=
  match n with
  | O => Some (dst, off)
  | S n =>
      c ← ld rx off;
      dst ← st dst i c;
      pop_loop n rx (u32 (off + 1) mod UNIX_BUF_SIZE) dst (i + 1)
  end.

Definition ep_pop (ep : Z) (dst : mem) (max : Z) : UM (mem * Z) :=
  e ← ep_at ep;
  let n := if e_rx_len e <? max then e_rx_len e else max in
  '(dst, off) ← lift (pop_loop (Z.to_nat n) (e_rx e) (e_rx_off e) dst 0);
  let len := u32 (e_rx_len e - n) in
  upd ep (with_rx (e_rx e) len (if len =? 0 then 0 else off)) ;;
  mret (dst, n).

(** ** Descriptors in flight *)

Definition ep_fdq_push (ep : Z) (files : list Z) : UM Z :=
  e ← ep_at ep;
  if UNIX_FD_QUEUE_MAX <? zlen (e_fdq e) + zlen files then mret (- EAGAIN)
  else upd ep (with_fdq (e_fdq e ++ files)) ;; mret 0.

Definition ep_fdq_pop (ep n : Z) : UM (list Z) :=
  e ← ep_at ep;
  let m := if zlen (e_fdq e) <? n then zlen (e_fdq e) else n in
  upd ep (with_fdq (drop (Z.to_nat m) (e_fdq e))) ;;
  mret (take (Z.to_nat m) (e_fdq e)).

(** ** Reading and writing *)

(** How a round ends: in [schedule()], or with the call's result. *)
Inductive uturn := UWait | UDone (r : Z).

Definition partial_or (n err : Z) : Z := if n =? 0 then err else i32 n.

(** The common part of the loops of [unix_node_write] and
    [ep_write_payload]; [UBroken] is a peer that is gone or does not read. *)
Inductive send_turn := UBroken | USent (t : uturn).

Definition send_round (ep addr size written : Z) (buf : mem) : UM (Z * send_turn) :=
  e ← ep_at ep;
  let peer := e_peer e in
  if peer =? 0 then mret (written, UBroken)
  else
    p ← ep_at peer;
    if negb (e_used p) || e_peer_no_read p || e_shut_rd p then mret (written, UBroken)
    else
      let space := u32 (UNIX_BUF_SIZE - e_rx_len p) in
      if space =? 0 then
        mret (written, USent (if validate_user_ptr (u32 (addr + written)) 1 =? 0
                              then UDone (partial_or written (-1)) else UWait))
      else
        let chunk := u32 (size - written) in
        let chunk := if space <? chunk then space else chunk in
        ep_push peer buf written chunk ;;
        let written := u32 (written + chunk) in
        mret (written,
              USent (if written =? size then UDone (if 2147483647 <? written then 2147483647 else i32 written)
                     else if validate_user_ptr (u32 (addr + written)) 1 =? 0 then UDone (partial_or written (-1))
                     else UWait)).

(** One round of [unix_node_write]; the last component is whether [SIGPIPE]
    is sent. *)
Definition write_round (ep addr size written : Z) (buf : mem) : UM (Z * uturn * bool) :=
  e ← ep_at ep;
  if e_shut_wr e then mret (written, UDone (partial_or written (- EPIPE)), false)
  else
    '(written, t) ← send_round ep addr size written buf;
    match t with
    | UBroken => mret (written, UDone (partial_or written (- EPIPE)), true)
    | USent t => mret (written, t, false)
    end.

(** The checks and the first round. *)
Definition unix_node_write (n addr size : Z) (buf : mem) : UM (Z * uturn * bool) :=
  ep ← ep_from_node n;
  if (ep =? 0) || (size =? 0) then mret (0, UDone (-1), false)
  else
    e ← ep_at ep;
    if negb (bool_decide (e_kind e = UEP_CONN)) then mret (0, UDone (-1), false)
    else if validate_user_ptr addr size =? 0 then mret (0, UDone (-1), false)
    else write_round ep addr size 0 buf.

(** One round of [ep_write_payload], which has no [shut_wr] check. *)
Definition payload_round (ep addr size written : Z) (buf : mem) : UM (Z * uturn) :=
  '(written, t) ← send_round ep addr size written buf;
  match t with
  | UBroken => mret (written, UDone (partial_or written (- EPIPE)))
  | USent t => mret (written, t)
  end.

Definition ep_write_payload (ep addr size : Z) (buf : mem) : UM (Z * uturn) :=
  if size =? 0 then mret (0, UDone 0)
  else if validate_user_ptr addr size =? 0 then mret (0, UDone (- EFAULT))
  else payload_round ep addr size 0 buf.

Definition read_round (ep addr size : Z) (buf : mem) : UM (mem * uturn) :=
  e ← ep_at ep;
  if e_shut_rd e then mret (buf, UDone 0)
  else if 0 <? e_rx_len e then
    '(buf, n) ← ep_pop ep buf size;
    mret (buf, UDone (if 2147483647 <? n then 2147483647 else i32 n))
  else if e_eof e then mret (buf, UDone 0)
  else mret (buf, if validate_user_ptr addr size =? 0 then UDone (-1) else UWait).

Definition unix_node_read (n addr size : Z) (buf : mem) : UM (mem * uturn) :=
  ep ← ep_from_node n;
  if (ep =? 0) || (size =? 0) then mret (buf, UDone (-1))
  else
    e ← ep_at ep;
    if negb (bool_decide (e_kind e = UEP_CONN)) then mret (buf, UDone (-1))
    else if validate_user_ptr addr size =? 0 then mret (buf, UDone (-1))
    else read_round ep addr size buf.

Definition VFS_POLLIN : Z := 1.
Definition VFS_POLLOUT : Z := 4.
Definition VFS_POLLERR : Z := 8.
Definition VFS_POLLHUP : Z := 16.

Definition has (events bit : Z) : bool := negb (Z.land events bit =? 0).
Definition bit_if (c : bool) (bit revents : Z) : Z := if c then Z.lor revents bit else revents.

Definition unix_node_poll (n events : Z) : UM Z :=
  ep ← ep_from_node n;
  if ep =? 0 then mret VFS_POLLERR
  else
    e ← ep_at ep;
    mret (match e_kind e with
          | UEP_LISTEN =>
              bit_if (has events VFS_POLLOUT) VFS_POLLOUT
                (bit_if (has events VFS_POLLIN && (0 <? e_pend_count e)) VFS_POLLIN 0)
          | UEP_BOUND => bit_if (has events VFS_POLLOUT) VFS_POLLOUT 0
          | _ =>
              bit_if (e_eof e && (e_rx_len e =? 0)) VFS_POLLHUP
                (bit_if (e_peer_no_read e || (e_peer e =? 0)) VFS_POLLERR
                   (bit_if (has events VFS_POLLOUT && negb (e_shut_wr e) && negb (e_peer_no_read e)
                            && negb (e_peer e =? 0)) VFS_POLLOUT
                      (bit_if (has events VFS_POLLIN && ((0 <? e_rx_len e) || e_eof e)) VFS_POLLIN 0)))
          end).

(** ** The ioctls

    An argument in user memory: a null pointer, one that faults, or the value
    copied. *)
Inductive uarg (A : Type) := UNull | UFault | UVal (v : A).
Arguments UNull {A}.
Arguments UFault {A}.
Arguments UVal {A} v.

(** The path of [cact_unix_addr_t] with its last byte set to 0, made absolute. *)
Definition canon_arg (cwd : option mem) (path : mem) : option (mem * Z) :=
  path ← st path (UNIX_PATH_MAX - 1) 0;
  unix_path_canon cwd path (replicate 512 0).

Definition unix_bind_ioctl (cwd : option mem) (ep : Z) (arg : uarg mem) : UM Z :=
  e ← ep_at ep;
  if negb (bool_decide (e_kind e = UEP_NONE)) then mret (- EINVAL)
  else match arg with
  | UNull => mret (- EINVAL)
  | UFault => mret (- EFAULT)
  | UVal path =>
      '(canon, r) ← lift (canon_arg cwd path);
      if r <? 0 then mret r
      else
        c ← lift (ld canon 0);
        if negb (c =? SLASH) then mret (- EINVAL)
        else
          r ← unix_bound_insert canon ep;
          if r <? 0 then mret r else upd ep (with_kind UEP_BOUND) ;; mret 0
  end.

Definition unix_connect_ioctl (cwd : option mem) (new ep : Z) (arg : uarg mem) : UM Z :=
  e ← ep_at ep;
  if negb (bool_decide (e_kind e = UEP_NONE)) then mret (- EINVAL)
  else match arg with
  | UNull => mret (- EINVAL)
  | UFault => mret (- EFAULT)
  | UVal path =>
      '(canon, r) ← lift (canon_arg cwd path);
      if r <? 0 then mret r
      else
        lis ← unix_bound_lookup canon;
        if lis =? 0 then mret (- ENOENT)
        else
          l ← ep_at lis;
          if negb (bool_decide (e_kind l = UEP_LISTEN) && (e_pend_count l <? u32 (e_backlog l)))
          then ep_put lis ;; mret (- ECONNREFUSED)
          else
            srv ← ep_alloc new;
            if srv =? 0 then ep_put lis ;; mret (- ENOMEM)
            else
              upd srv (with_kind UEP_CONN) ;;
              ep_link srv ep ;;
              upd ep (with_kind UEP_CONN) ;;
              upd lis (fun l => with_pend (e_pend l ++ [srv]) (u32 (e_pend_count l + 1)) l) ;;
              upd srv (fun e => with_refs (u32 (e_refs e + 1)) e) ;;
              ep_put lis ;;
              mret 0
  end.

Definition unix_listen_ioctl (ep : Z) : UM Z :=
  e ← ep_at ep;
  if negb (bool_decide (e_kind e = UEP_BOUND)) then mret (- EINVAL)
  else upd ep (with_kind UEP_LISTEN) ;; mret 0.

(** The checks and one round of [unix_accept_ioctl]; [copied] is whether the
    peer address could be copied to [arg]. *)
Definition unix_accept_ioctl (new : Z) (r : fd_result) (ep : Z) (arg copied : bool) : UM uturn :=
  e ← ep_at ep;
  if negb (bool_decide (e_kind e = UEP_LISTEN)) then mret (UDone (- EINVAL))
  else if negb (0 <? e_pend_count e) then mret UWait
  else
    srv ← lift (head (e_pend e));
    upd ep (with_pend (tail (e_pend e)) (e_pend_count e - 1)) ;;
    node ← unix_make_node new srv;
    if node =? 0 then ep_put srv ;; mret (UDone (- ENOMEM))
    else
      fd ← alloc_fd r node;
      if fd <? 0 then
        ep_put srv ;; ep_put srv ;; free_node node ;; mret (UDone (- EMFILE))
      else if arg && negb copied then
        (* the new file has one reference: [file_unref] closes its node *)
        unix_node_close node ;; ep_put srv ;; mret (UDone (- EFAULT))
      else ep_put srv ;; mret (UDone fd).

Definition unix_shutdown_ioctl (ep : Z) (arg : uarg Z) : UM Z :=
  match arg with
  | UNull => mret (- EINVAL)
  | UFault => mret (- EFAULT)
  | UVal how =>
      if negb (how =? SHUT_RD) && negb (how =? SHUT_WR) && negb (how =? SHUT_RDWR) then mret (- EINVAL)
      else
        (if (how =? SHUT_RD) || (how =? SHUT_RDWR) then
           upd ep (fun e => with_flags true (e_shut_wr e) (e_eof e) (e_peer_no_read e) e) ;;
           e ← ep_at ep;
           if e_peer e =? 0 then skip
           else upd (e_peer e) (fun p => with_flags (e_shut_rd p) (e_shut_wr p) (e_eof p) true p)
         else skip) ;;
        (if (how =? SHUT_WR) || (how =? SHUT_RDWR) then
           upd ep (fun e => with_flags (e_shut_rd e) true (e_eof e) (e_peer_no_read e) e) ;;
           e ← ep_at ep;
           if e_peer e =? 0 then skip
           else upd (e_peer e) (fun p => with_flags (e_shut_rd p) (e_shut_wr p) true (e_peer_no_read p) p)
         else skip) ;;
        mret 0
  end.

(** [file_unref] of every file of the list. *)
Definition unref_all (l : list Z) : UM unit :=
  for_each l (fun f => if f =? 0 then skip else modify (log_file (FileUnref f))).

(** The loop that resolves and holds the descriptors [ufds] of the sender's
    table [fdt]; [None] when one of them is not open. *)
Fixpoint hold_files (fdt ufds held : list Z) : UM (option (list Z)) :=
  match ufds with
  | [] => mret (Some held)
  | fd :: r =>
      let f := if (0 <=? fd) && (fd <? Z.of_nat MAX_FD) then default 0 (ld fdt fd) else 0 in
      if f =? 0 then unref_all held ;; mret None
      else modify (log_file (FileRef f)) ;; hold_files fdt r (held ++ [f])
  end.

Record sendmsg_arg := SendArg { sa_buf : Z; sa_len : Z; sa_fds : Z; sa_nfds : Z }.

(** [buf] and [ufds] are the user memory at [buf] and [fds], [None] when it
    cannot be copied.  The result of the descriptor part is an error, or the
    files that are held. *)
Definition send_files (fdt : list Z) (ufds : option (list Z)) (a : sendmsg_arg) : UM (Z + list Z) :=
  if sa_nfds a =? 0 then mret (inr [])
  else if validate_user_ptr (sa_fds a) (u32 (4 * sa_nfds a)) =? 0 then mret (inl (- EFAULT))
  else match ufds with
  | None => mret (inl (- EFAULT))
  | Some ufds =>
      held ← hold_files fdt ufds [];
      mret (match held with None => inl (- EBADF) | Some h => inr h end)
  end.

(** The calls up to and with the first round of [ep_write_payload]. *)
Definition unix_sendmsg_ioctl (fdt : list Z) (ufds : option (list Z)) (buf : mem) (ep : Z)
    (arg : uarg sendmsg_arg) : UM (Z * uturn) :=
  match arg with
  | UNull => mret (0, UDone (- EINVAL))
  | _ =>
      e ← ep_at ep;
      if negb (bool_decide (e_kind e = UEP_CONN)) then mret (0, UDone (- EINVAL))
      else match arg with
      | UVal a =>
          if UNIX_FD_QUEUE_MAX <? sa_nfds a then mret (0, UDone (- EINVAL))
          else if negb (sa_len a =? 0) && (validate_user_ptr (sa_buf a) (sa_len a) =? 0)
          then mret (0, UDone (- EFAULT))
          else
            x ← send_files fdt ufds a;
            match x with
            | inl err => mret (0, UDone err)
            | inr hold =>
                e ← ep_at ep;
                let peer := e_peer e in
                if peer =? 0 then unref_all hold ;; mret (0, UDone (- EPIPE))
                else
                  r ← (if bool_decide (hold = []) then mret 0 else ep_fdq_push peer hold);
                  if negb (r =? 0) then unref_all hold ;; mret (0, UDone r)
                  else ep_write_payload ep (sa_buf a) (sa_len a) buf
            end
      | _ => mret (0, UDone (- EFAULT))
      end
  end.

Record recvmsg_arg := RecvArg { ra_buf : Z; ra_cap : Z; ra_fds : Z; ra_fds_cap : Z }.

(** The first free slot from 3 on. *)
Definition free_slot (fdt : list Z) : option nat :=
  match list_find (fun f => f = 0) (drop 3 fdt) with Some (i, _) => Some (3 + i)%nat | None => None end.

Definition free_slots (fdt : list Z) : Z := zlen (filter (fun f => f = 0) (drop 3 fdt)).

(** The loop that installs the files popped from the queue. *)
Fixpoint install (fdt files out : list Z) : UM (list Z * list Z) :=
  match files with
  | [] => mret (fdt, out)
  | f :: r =>
      match free_slot fdt with
      | None => modify (log_file (FileUnref f)) ;; install fdt r out
      | Some i =>
          modify (log_file (FileInstall (Z.of_nat i) f)) ;;
          install (<[i := f]> fdt) r (out ++ [Z.of_nat i])
      end
  end.

(** What [unix_recvmsg_ioctl] hands back: the descriptor table, the payload,
    the descriptors written to [fds], the result. *)
Record recv_result := RecvResult { rr_fdt : list Z; rr_data : mem; rr_fds : list Z; rr_turn : uturn }.

(** The descriptor part. *)
Definition recv_files (fdt : list Z) (ep : Z) (a : recvmsg_arg) : UM (list Z * list Z) :=
  if (ra_fds_cap a =? 0) || (ra_fds a =? 0) then mret (fdt, [])
  else
    e ← ep_at ep;
    let want := Z.min (Z.min (ra_fds_cap a) (zlen (e_fdq e))) (free_slots fdt) in
    popv ← ep_fdq_pop ep want;
    install fdt popv [].

(** One round; [copied1] and [copied2] say whether the payload and the
    argument can be copied to user memory. *)
Definition unix_recvmsg_ioctl (fdt : list Z) (copied1 copied2 : bool) (ep : Z) (arg : uarg recvmsg_arg)
    : UM recv_result :=
  let done d fs r := mret (RecvResult fdt d fs (UDone r)) in
  match arg with
  | UNull => done [] [] (- EINVAL)
  | _ =>
      e ← ep_at ep;
      if negb (bool_decide (e_kind e = UEP_CONN)) then done [] [] (- EINVAL)
      else match arg with
      | UVal a =>
          if negb (ra_cap a =? 0) && (validate_user_ptr (ra_buf a) (ra_cap a) =? 0) then done [] [] (- EFAULT)
          else if negb (ra_fds_cap a =? 0) && (validate_user_ptr (ra_fds a) (u32 (4 * ra_fds_cap a)) =? 0)
          then done [] [] (- EFAULT)
          else if UNIX_FD_QUEUE_MAX <? ra_fds_cap a then done [] [] (- EINVAL)
          else if negb ((0 <? e_rx_len e) || e_eof e || e_shut_rd e
                        || ((0 <? zlen (e_fdq e)) && (0 <? ra_fds_cap a)))
          then mret (RecvResult fdt [] [] UWait)
          else
            let got := if negb (e_shut_rd e) && negb (ra_cap a =? 0) && negb (ra_buf a =? 0)
                       then Z.min (e_rx_len e) (ra_cap a) else 0 in
            '(data, got) ← (if 0 <? got then
                              '(tmp, n) ← ep_pop ep (replicate (Z.to_nat UNIX_BUF_SIZE) 0) got;
                              mret (take (Z.to_nat n) tmp, n)
                            else mret ([], 0));
            if (0 <? got) && negb copied1 then done [] [] (- EFAULT)
            else
              '(fdt, out) ← recv_files fdt ep a;
              mret (RecvResult fdt data out (UDone (if copied2 then got else - EFAULT)))
      | _ => done [] [] (- EFAULT)
      end
  end.

(** The commands of [unix_sock_ioctl] with their arguments. *)
Inductive sockctl :=
  | CtlBind (arg : uarg mem)
  | CtlConnect (new : Z) (arg : uarg mem)
  | CtlListen
  | CtlAccept (new : Z) (r : fd_result) (arg copied : bool)
  | CtlShutdown (arg : uarg Z)
  | CtlSockopt
  | CtlOther.

(** [unix_sock_ioctl] but for the two message calls. *)
Definition unix_sock_ioctl (cwd : option mem) (n : Z) (cmd : sockctl) : UM uturn :=
  ep ← ep_from_node n;
  if ep =? 0 then mret (UDone (- ENOTSOCK))
  else match cmd with
  | CtlBind arg => r ← unix_bind_ioctl cwd ep arg; mret (UDone r)
  | CtlConnect new arg => r ← unix_connect_ioctl cwd new ep arg; mret (UDone r)
  | CtlListen => r ← unix_listen_ioctl ep; mret (UDone r)
  | CtlAccept new r arg copied => unix_accept_ioctl new r ep arg copied
  | CtlShutdown arg => r ← unix_shutdown_ioctl ep arg; mret (UDone r)
  | CtlSockopt => mret (UDone (- EOPNOTSUPP))
  | CtlOther => mret (UDone (- EINVAL))
  end.

(** The state [unix_sock_init] leaves. *)
Definition unix_sock_init : usock :=
  USock ∅ ∅ (replicate UNIX_BOUND_MAX (Bound false (replicate (Z.to_nat UNIX_PATH_MAX) 0) 0)) [].
