(* ===== verification/UnixSockSpec.v ===== *)
(** * AF_UNIX sockets: references and data

    The invariant of [UnixSock.v]'s state - every endpoint's count is exactly
    the sum of the node, the queue and the peer that hold it - that it is kept
    by every call, and what follows: no call uses a freed endpoint or node. *)
From S2P Require Import Prelude StateM Klib Ring Validate VfsPath UnixSock.

#[local] Open Scope Z_scope.

(** ** The invariant

    [nd] maps an endpoint to its node, [qu] to the listener whose queue it is
    in; [ex] counts the references a call holds for a while.  [z] is an
    endpoint that is being destroyed. *)

Definition hold (m : gmap Z Z) (a : Z) : Z := match m !! a with Some _ => 1 | None => 0 end.

Definition data_ok (e : unix_ep) : Prop :=
  (exists q, ring_rep UNIX_BUF_SIZE (e_rx e) (e_rx_off e) q /\ zlen q = e_rx_len e) /\
  0 <= e_rx_off e < UNIX_BUF_SIZE /\ zlen (e_fdq e) <= UNIX_FD_QUEUE_MAX.

Record ep_ok (E : gmap Z unix_ep) (nd qu : gmap Z Z) (ex : Z -> Z) (a : Z) (e : unix_ep) : Prop := {
  o_nz : a <> 0;
  o_refs : e_refs e = hold nd a + hold qu a + (if e_peer e =? 0 then 0 else 1) + ex a;
  o_pos : 0 < e_refs e;
  o_nodup : NoDup (e_pend e);
  o_count : e_pend_count e = zlen (e_pend e);
  o_backlog : e_backlog e = UNIX_BACKLOG /\ zlen (e_pend e) <= UNIX_BACKLOG;
  o_conn : e_kind e <> UEP_CONN -> e_peer e = 0 /\ is_Some (nd !! a);
  o_listen : e_kind e <> UEP_LISTEN -> e_pend e = [];
  o_peer : e_peer e <> 0 -> e_peer e <> a /\
    exists p, E !! e_peer e = Some p /\ e_peer p = a /\ e_kind p = UEP_CONN;
  o_data : data_ok e
}.

Definition is_named (e : unix_ep) : Prop := e_kind e = UEP_BOUND \/ e_kind e = UEP_LISTEN.

Record reg_ok (E : gmap Z unix_ep) (B : list unix_bound) : Prop := {
  g_ep : forall i b, B !! i = Some b -> b_used b = true -> exists e, E !! b_ep b = Some e /\ is_named e;
  g_uniq : forall i j b c, B !! i = Some b -> B !! j = Some c -> b_used b = true -> b_used c = true ->
    b_ep b = b_ep c -> i = j;
  g_path : forall i b, B !! i = Some b -> zlen (b_path b) = UNIX_PATH_MAX /\
    (b_used b = true -> exists t, cstr (b_path b) t)
}.

Record einv (E : gmap Z unix_ep) (B : list unix_bound) (nd qu : gmap Z Z) (ex : Z -> Z) (z : Z) : Prop := {
  c_ep : forall a e, E !! a = Some e -> ep_ok E nd qu ex a e;
  c_used : forall a e, E !! a = Some e -> a <> z -> e_used e = true;
  c_nd : forall a n, nd !! a = Some n -> is_Some (E !! a) /\ qu !! a = None;
  c_qu : forall x l, qu !! x = Some l -> (exists xe, E !! x = Some xe /\ e_kind xe = UEP_CONN) /\
    exists le, E !! l = Some le /\ x ∈ e_pend le;
  c_pend : forall l le x, E !! l = Some le -> x ∈ e_pend le -> qu !! x = Some l;
  c_ex : forall a, 0 <= ex a <= 8 /\ (0 < ex a -> is_Some (E !! a));
  c_reg : reg_ok E B
}.

Definition no_ex : Z -> Z := fun _ => 0.

(** The invariant between calls. *)
Definition uinv (s : usock) : Prop :=
  exists nd qu, einv (u_eps s) (u_bound s) nd qu no_ex 0 /\
    forall n a, u_nodes s !! n = Some a <-> nd !! a = Some n.

(** ** Running *)

Lemma run_ep_at a e s : u_eps s !! a = Some e -> ep_at a s = Some (s, e).
Proof. intros H. unfold ep_at. by rewrite H. Qed.

Lemma run_upd a f e s : u_eps s !! a = Some e -> upd a f s = Some (set_eps (<[a := f e]>) s, tt).
Proof. intros H. unfold upd. by rewrite (run_bind _ _ _ _ _ (run_ep_at _ _ _ H)). Qed.

Lemma run_priv n a s : u_nodes s !! n = Some a -> priv n s = Some (s, a).
Proof. intros H. unfold priv. by rewrite H. Qed.

(** [file_unref] of the files of a queue. *)
Definition unrefd (l : list Z) (s : usock) : usock :=
  USock (u_eps s) (u_nodes s) (u_bound s) (u_files s ++ map FileUnref (filter (fun f => f <> 0) l)).

Lemma unref_loop l : forall s,
  for_each l (fun f => if f =? 0 then skip else modify (log_file (FileUnref f))) s = Some (unrefd l s, tt).
Proof.
  induction l as [|f l IH]; intros s; cbn [for_each].
  { unfold unrefd. cbn. by rewrite app_nil_r; destruct s. }
  destruct (f =? 0) eqn:E; b2p.
  - rewrite (run_bind _ _ s s tt) by done. rewrite IH. do 2 f_equal. unfold unrefd.
    rewrite list.filter_cons_False by (by intros []). done.
  - rewrite (run_bind _ _ s (log_file (FileUnref f) s) tt) by done. rewrite IH. do 2 f_equal.
    unfold unrefd, log_file. cbn [u_eps u_nodes u_bound u_files]. rewrite list.filter_cons_True by done. cbn [map]. by rewrite <- app_assoc.
Qed.

(** An endpoint is freed; its queued descriptors are given back. *)
Definition gone (a : Z) (e : unix_ep) (s : usock) : usock := set_eps (delete a) (unrefd (e_fdq e) s).

Lemma destroy_conn k a e s :
  u_eps s !! a = Some e -> a <> 0 -> e_used e = true -> e_kind e = UEP_CONN -> e_peer e = 0 -> e_pend e = [] ->
  ep_destroy (S k) a s = Some (gone a e s, tt).
Proof.
  intros Ha Hz Hu Hk Hp Hq. cbn [ep_destroy]. rewrite (proj2 (Z.eqb_neq a 0)) by done.
  rewrite (run_bind _ _ _ _ _ (run_ep_at _ _ _ Ha)), Hu. cbn [negb].
  rewrite (run_bind _ _ _ _ _ (run_upd _ _ _ _ Ha)).
  rewrite bool_decide_eq_false_2 by (rewrite Hk; intros [?|?]; done).
  set (s1 := set_eps _ s). rewrite (run_bind _ _ s1 s1 tt) by done.
  rewrite Hp. cbn [Z.eqb]. rewrite (run_bind _ _ s1 s1 tt) by done.
  rewrite Hq. cbn [for_each]. rewrite (run_bind _ _ s1 s1 tt) by done.
  rewrite (run_bind _ _ _ _ _ (unref_loop _ _)).
  assert (u_eps (unrefd (e_fdq e) s1) !! a = Some (with_pend [] 0 (with_peer 0 (with_used false e)))) as Hx
    by apply lookup_insert_eq.
  rewrite (run_bind _ _ _ _ _ (run_ep_at _ _ _ Hx)).
  unfold modify, gone. do 2 f_equal. subst s1. unfold set_eps, unrefd. cbn. f_equal. by rewrite delete_insert_eq.
Qed.

(** ** Changes that keep the invariant *)

Lemma hold_range m a : 0 <= hold m a <= 1.
Proof. unfold hold. destruct (m !! a); lia. Qed.

Lemma hold_None m a : m !! a = None -> hold m a = 0.
Proof. intros H. unfold hold. by rewrite H. Qed.

Lemma hold_Some m a n : m !! a = Some n -> hold m a = 1.
Proof. intros H. unfold hold. by rewrite H. Qed.

(** The fields the invariant links to other endpoints. *)
Definition same_shape (e e' : unix_ep) : Prop :=
  e_kind e' = e_kind e /\ e_peer e' = e_peer e /\ e_pend e' = e_pend e /\ e_pend_count e' = e_pend_count e /\
  e_backlog e' = e_backlog e.

Lemma reg_ok_insert E B a e e' :
  reg_ok E B -> E !! a = Some e -> (is_named e -> is_named e') -> reg_ok (<[a := e']> E) B.
Proof.
  intros [H1 H2 H3] Ha Hk. split; [|done..]. intros i b Hb Hu. destruct (H1 i b Hb Hu) as (x & Hx & Hn).
  destruct (decide (b_ep b = a)) as [E1|Hne].
  - rewrite E1, lookup_insert_eq. exists e'. rewrite E1 in Hx. split; [done|]. apply Hk. congruence.
  - rewrite lookup_insert_ne by done. by exists x.
Qed.

(** A change of the count together with the references in hand; flags, data
    and descriptors may change as well. *)
Lemma einv_refs E B nd qu ex ex' z a e e' :
  einv E B nd qu ex z -> E !! a = Some e -> same_shape e e' -> data_ok e' -> (a <> z -> e_used e' = true) ->
  e_refs e' = e_refs e + (ex' a - ex a) -> 0 < e_refs e' -> 0 <= ex' a <= 8 ->
  (forall b, b <> a -> ex' b = ex b) ->
  einv (<[a := e']> E) B nd qu ex' z.
Proof.
  intros Hi Ha (S1 & S2 & S3 & S4 & S5) Hd Hu Hr Hpos Hex Hne. pose proof Hi as [Hep Hus Hnd Hqu Hpe Hxx Hrg].
  assert (forall b x, (<[a := e']> E) !! b = Some x -> exists y, E !! b = Some y /\ same_shape y x) as Hback.
  { intros b x. destruct (decide (b = a)) as [->|Hn].
    - rewrite lookup_insert_eq. intros [= <-]. exists e. done.
    - rewrite lookup_insert_ne by done. intros Hb. exists x. done. }
  assert (forall b y, E !! b = Some y -> exists x, (<[a := e']> E) !! b = Some x /\ same_shape y x) as Hfwd.
  { intros b y Hy. destruct (decide (b = a)) as [->|Hn].
    - rewrite lookup_insert_eq. exists e'. rewrite Ha in Hy. injection Hy as <-. done.
    - rewrite lookup_insert_ne by done. by exists y. }
  split.
  - intros b x Hb.
    assert (forall y, e_peer x = e_peer y -> E !! b = Some y -> e_peer x <> 0 -> e_peer x <> b /\
      exists p, (<[a := e']> E) !! e_peer x = Some p /\ e_peer p = b /\ e_kind p = UEP_CONN) as Hpeer.
    { intros y Ey Hy Hx. rewrite Ey in *. destruct (o_peer _ _ _ _ _ _ (Hep _ _ Hy) Hx) as (? & p & Hp & Hpp & Hk).
      split; [done|]. destruct (Hfwd _ _ Hp) as (p' & ? & ? & ? & _). exists p'. split; [done|]. split; congruence. }
    destruct (decide (b = a)) as [->|Hn].
    + rewrite lookup_insert_eq in Hb. injection Hb as <-. destruct (Hep _ _ Ha) as [O1 O2 O3 O4 O5 O6 O7 O8 O9 O10].
      split; try done; rewrite ?S1, ?S2, ?S3, ?S4, ?S5; try done.
      * rewrite Hr, O2. lia.
      * rewrite <- S2. by apply (Hpeer e).
    + rewrite lookup_insert_ne in Hb by done. destruct (Hep _ _ Hb) as [O1 O2 O3 O4 O5 O6 O7 O8 O9 O10].
      split; try done; [by rewrite Hne|]. by apply (Hpeer x).
  - intros b x Hb Hz. destruct (decide (b = a)) as [->|Hn].
    + rewrite lookup_insert_eq in Hb. injection Hb as <-. auto.
    + rewrite lookup_insert_ne in Hb by done. by apply (Hus b).
  - intros b n Hb. destruct (Hnd b n Hb) as [[y Hy] ?]. split; [|done]. destruct (Hfwd _ _ Hy) as (x & ? & _). by exists x.
  - intros x l Hx. destruct (Hqu x l Hx) as ((xe & Hxe & Hk) & le & Hle & Hin).
    destruct (Hfwd _ _ Hxe) as (xe' & ? & ? & _), (Hfwd _ _ Hle) as (le' & ? & _ & _ & E3 & _).
    split; [exists xe'; split; [done|congruence]|]. exists le'. split; [done|]. by rewrite E3.
  - intros l le x Hle Hin. destruct (Hback _ _ Hle) as (y & Hy & _ & _ & E3 & _). rewrite E3 in Hin. by eapply Hpe.
  - intros b. destruct (decide (b = a)) as [->|Hn].
    + split; [done|]. intros _. rewrite lookup_insert_eq. eauto.
    + rewrite Hne by done. rewrite lookup_insert_ne by done. apply Hxx.
  - eapply reg_ok_insert; [done..|]. unfold is_named. by rewrite S1.
Qed.

(** An endpoint that nothing refers to goes. *)
Lemma einv_delete E B nd qu ex ex' z a e :
  einv E B nd qu ex z -> E !! a = Some e -> e_kind e = UEP_CONN -> e_peer e = 0 -> nd !! a = None ->
  qu !! a = None -> ex' a = 0 -> (forall b, b <> a -> ex' b = ex b) ->
  einv (delete a E) B nd qu ex' z.
Proof.
  intros Hi Ha Hk Hp Hna Hqa Hxa Hne. pose proof Hi as [Hep Hus Hnd Hqu Hpe Hxx Hrg].
  pose proof (Hep _ _ Ha) as Oa.
  assert (e_pend e = []) as Hpd by (apply (o_listen _ _ _ _ _ _ Oa); by rewrite Hk).
  assert (forall b x, delete a E !! b = Some x <-> b <> a /\ E !! b = Some x) as Hl.
  { intros b x. rewrite lookup_delete_Some. split; intros []; split; by try apply not_eq_sym. }
  split.
  - intros b x [Hn Hb]%Hl. destruct (Hep _ _ Hb) as [O1 O2 O3 O4 O5 O6 O7 O8 O9 O10].
    split; try done; [by rewrite Hne|]. intros Hx. destruct (O9 Hx) as (? & p & Hpp & ? & ?). split; [done|].
    exists p. rewrite Hl. split; [|done]. split; [|done]. intros E1. rewrite E1, Ha in Hpp. congruence.
  - intros b x [Hn Hb]%Hl. by apply Hus.
  - intros b n Hb. destruct (Hnd b n Hb) as [[y Hy] ?]. split; [|done]. exists y. rewrite Hl. split; [congruence|done].
  - intros x l Hx. destruct (Hqu x l Hx) as ((xe & Hxe & Hkx) & le & Hle & Hin). split.
    + exists xe. rewrite Hl. split; [|done]. split; [congruence|done].
    + exists le. rewrite Hl. split; [|done]. split; [|done]. intros ->. rewrite Ha in Hle. injection Hle as <-.
      rewrite Hpd in Hin. by apply not_elem_of_nil in Hin.
  - intros l le x [Hn Hle]%Hl Hin. by eapply Hpe.
  - intros b. destruct (decide (b = a)) as [->|Hn]; [rewrite Hxa; split; lia|].
    rewrite Hne by done. destruct (Hxx b) as [? H]. split; [done|]. intros Hb. destruct (H Hb) as [y Hy].
    exists y. by rewrite Hl.
  - destruct Hrg as [G1 G2 G3]. split; [|done..]. intros i b Hb Hu. destruct (G1 i b Hb Hu) as (x & Hx & Hn).
    exists x. rewrite Hl. split; [|done]. split; [|done]. intros E1. rewrite E1, Ha in Hx. injection Hx as <-.
    unfold is_named in Hn. rewrite Hk in Hn. by destruct Hn.
Qed.

Definition add_ex (ex : Z -> Z) (a k : Z) : Z -> Z := fun b => if b =? a then ex b + k else ex b.

Lemma add_ex_eq ex a k : add_ex ex a k a = ex a + k.
Proof. unfold add_ex. by rewrite Z.eqb_refl. Qed.

Lemma add_ex_ne ex a k b : b <> a -> add_ex ex a k b = ex b.
Proof. intros. unfold add_ex. by rewrite (proj2 (Z.eqb_neq b a)). Qed.

Lemma drop_ref_eq e : 0 < e_refs e -> drop_ref e = with_refs (e_refs e - 1) e.
Proof. intros. unfold drop_ref. by rewrite (proj2 (Z.ltb_lt 0 (e_refs e))). Qed.

(** What a call leaves alone. *)
Definition keeps (a : Z) (s s' : usock) : Prop :=
  u_nodes s' = u_nodes s /\ u_bound s' = u_bound s /\ forall b, b <> a -> u_eps s' !! b = u_eps s !! b.

(** [ep_put] gives back a reference in hand. *)
Lemma put_ok k nd qu ex ex' z a s :
  einv (u_eps s) (u_bound s) nd qu ex z -> 0 < ex a -> a <> z -> ex' a = ex a - 1 ->
  (forall b, b <> a -> ex' b = ex b) ->
  exists s', put_with (ep_destroy (S k)) a s = Some (s', tt) /\
    einv (u_eps s') (u_bound s') nd qu ex' z /\ keeps a s s'.
Proof.
  intros Hi Hx Hz Hxa Hxb. destruct (c_ex _ _ _ _ _ _ Hi a) as [Hx2 [e He]]; [done|].
  pose proof (c_ep _ _ _ _ _ _ Hi _ _ He) as Oe. pose proof (o_nz _ _ _ _ _ _ Oe) as Hnz.
  pose proof (o_pos _ _ _ _ _ _ Oe) as Hpos. pose proof (o_refs _ _ _ _ _ _ Oe) as Hrc.
  pose proof (hold_range nd a). pose proof (hold_range qu a).
  unfold put_with. rewrite (proj2 (Z.eqb_neq a 0)) by done.
  rewrite (run_bind _ _ _ _ _ (run_upd _ _ _ _ He)), drop_ref_eq by done.
  set (s1 := set_eps _ s).
  assert (u_eps s1 !! a = Some (with_refs (e_refs e - 1) e)) as He1 by apply lookup_insert_eq.
  rewrite (run_bind _ _ _ _ _ (run_ep_at _ _ _ He1)).
  pose proof (c_used _ _ _ _ _ _ Hi _ _ He Hz) as Hu.
  cbn [with_refs e_refs]. destruct (e_refs e - 1 =? 0) eqn:E; b2p.
  - assert (e_peer e = 0) as Hp by (destruct (e_peer e =? 0) eqn:?; b2p; [done|lia]).
    rewrite Hp in Hrc. cbn [Z.eqb] in Hrc.
    assert (nd !! a = None) as Hnd by (unfold hold in *; destruct (nd !! a); [lia|done]).
    assert (qu !! a = None) as Hqu by (unfold hold in *; destruct (qu !! a); [lia|done]).
    assert (e_kind e = UEP_CONN) as Hk.
    { destruct (decide (e_kind e = UEP_CONN)) as [|Hn]; [done|].
      destruct (o_conn _ _ _ _ _ _ Oe Hn) as [_ [? ?]]. congruence. }
    assert (e_pend e = []) as Hpd by (apply (o_listen _ _ _ _ _ _ Oe); by rewrite Hk).
    rewrite (destroy_conn k a _ s1 He1) by done. eexists. split; [done|].
    assert (u_eps (gone a (with_refs (e_refs e - 1) e) s1) = delete a (u_eps s)) as Heq.
    { unfold gone, unrefd, s1, set_eps. cbn. by rewrite delete_insert_eq. }
    rewrite Heq. split; [eapply einv_delete; try done; lia|]. split; [done|]. split; [done|].
    intros b Hb. rewrite Heq. by apply lookup_delete_ne.
  - eexists. split; [done|]. split.
    + unfold s1. cbn [u_eps u_bound set_eps]. eapply einv_refs; try done; cbn; try lia. apply (o_data _ _ _ _ _ _ Oe).
    + split; [done|]. split; [done|]. intros b Hb. by apply lookup_insert_ne.
Qed.

(** Cutting a connection turns the two peer references into references in
    hand. *)
Lemma einv_unlink E B nd qu ex z a e p f :
  einv E B nd qu ex z -> E !! a = Some e -> e_peer e = p -> p <> 0 -> E !! p = Some f ->
  ex a <= 7 -> ex p <= 7 ->
  einv (<[a := with_peer 0 e]> (<[p := with_peer 0 f]> E)) B nd qu (add_ex (add_ex ex a 1) p 1) z.
Proof.
  intros Hi Ha Hep Hp0 Hp Hxa Hxp. pose proof Hi as [Hok Hus Hnd Hqu Hpe Hxx Hrg].
  pose proof (Hok _ _ Ha) as Oa. pose proof (Hok _ _ Hp) as Op.
  destruct (o_peer _ _ _ _ _ _ Oa) as (Hpa & f' & Hf' & Hfp & Hfk); [congruence|]. rewrite Hep in *.
  rewrite Hp in Hf'. injection Hf' as <-.
  assert (e_kind e = UEP_CONN) as Hek.
  { destruct (o_peer _ _ _ _ _ _ Op) as (_ & e' & He' & _ & Hk); [rewrite Hfp; apply (o_nz _ _ _ _ _ _ Oa)|].
    rewrite Hfp, Ha in He'. by injection He' as <-. }
  set (E' := <[a := with_peer 0 e]> (<[p := with_peer 0 f]> E)).
  assert (E' !! a = Some (with_peer 0 e)) as La by apply lookup_insert_eq.
  assert (E' !! p = Some (with_peer 0 f)) as Lp
    by (unfold E'; rewrite lookup_insert_ne by done; apply lookup_insert_eq).
  assert (forall b, b <> a -> b <> p -> E' !! b = E !! b) as Lb
    by (intros; unfold E'; rewrite !lookup_insert_ne by done; done).
  assert (forall b x, E' !! b = Some x -> exists y, E !! b = Some y /\ e_kind x = e_kind y /\ e_pend x = e_pend y /\
    e_used x = e_used y) as Hback.
  { intros b x Hx. destruct (decide (b = a)) as [->|]; [rewrite La in Hx; injection Hx as <-; by exists e|].
    destruct (decide (b = p)) as [->|]; [rewrite Lp in Hx; injection Hx as <-; by exists f|].
    rewrite Lb in Hx by done. by exists x. }
  assert (forall b y, E !! b = Some y -> exists x, E' !! b = Some x /\ e_kind x = e_kind y /\ e_pend x = e_pend y) as Hfwd.
  { intros b y Hy. destruct (decide (b = a)) as [->|]; [rewrite Ha in Hy; injection Hy as <-; eauto|].
    destruct (decide (b = p)) as [->|]; [rewrite Hp in Hy; injection Hy as <-; eauto|].
    rewrite <- Lb in Hy by done. eauto. }
  assert (forall b x y, E !! b = Some y -> e_peer y <> 0 -> x = with_peer 0 y -> ex b <= 7 ->
     e_kind y = UEP_CONN -> (b = a \/ b = p) -> ep_ok E' nd qu (add_ex (add_ex ex a 1) p 1) b x) as Hcut.
  { intros b x y Hy Hyp -> Hxb Hk Hb. destruct (Hok _ _ Hy) as [O1 O2 O3 O4 O5 O6 O7 O8 O9 O10].
    split; cbn; try done; try (intros; congruence).
    rewrite O2, (proj2 (Z.eqb_neq (e_peer y) 0)) by done.
    destruct Hb as [->| ->]; [rewrite add_ex_ne, add_ex_eq by done|rewrite add_ex_eq, add_ex_ne by done]; lia. }
  split.
  - intros b x Hx. destruct (decide (b = a)) as [->|Hba].
    { rewrite La in Hx. injection Hx as <-. eapply (Hcut a _ e); eauto. congruence. }
    destruct (decide (b = p)) as [->|Hbp].
    { rewrite Lp in Hx. injection Hx as <-. eapply (Hcut p _ f); eauto. rewrite Hfp. apply (o_nz _ _ _ _ _ _ Oa). }
    rewrite Lb in Hx by done. destruct (Hok _ _ Hx) as [O1 O2 O3 O4 O5 O6 O7 O8 O9 O10].
    split; try done; [by rewrite !add_ex_ne|]. intros Hnz. destruct (O9 Hnz) as (? & q & Hq & Hqb & Hqk).
    split; [done|]. exists q. split; [|done]. rewrite Lb; [done| |]; intros E1; rewrite E1 in *; congruence.
  - intros b x Hx Hz. destruct (Hback _ _ Hx) as (y & Hy & _ & _ & ->). by apply (Hus b).
  - intros b n Hb. destruct (Hnd b n Hb) as [[y Hy] ?]. destruct (Hfwd _ _ Hy) as (x & ? & _). split; [by exists x|done].
  - intros x l Hx. destruct (Hqu x l Hx) as ((xe & Hxe & Hk) & le & Hle & Hin).
    destruct (Hfwd _ _ Hxe) as (xe' & ? & E1 & _), (Hfwd _ _ Hle) as (le' & ? & _ & E2).
    split; [exists xe'; split; [done|congruence]|]. exists le'. split; [done|]. by rewrite E2.
  - intros l le x Hle Hin. destruct (Hback _ _ Hle) as (y & Hy & _ & E2 & _). rewrite E2 in Hin. by eapply Hpe.
  - intros b. destruct (Hxx b) as [? Hb]. unfold add_ex.
    destruct (b =? p) eqn:E1; b2p; [subst b|]; destruct (_ =? a) eqn:E2; b2p; subst; try congruence;
      (split; [lia|]); intros Hlt; eauto. destruct (Hb Hlt) as [y Hy]. destruct (Hfwd _ _ Hy) as (x & ? & _). eauto.
  - destruct Hrg as [G1 G2 G3]. split; [|done..]. intros i b Hb Hu. destruct (G1 i b Hb Hu) as (y & Hy & Hn).
    destruct (Hfwd _ _ Hy) as (x & ? & E1 & _). exists x. split; [done|]. unfold is_named. by rewrite E1.
Qed.

Ltac map_same :=
  apply map_eq; intros ?i; repeat first [rewrite lookup_insert | rewrite lookup_delete];
  repeat case_decide; subst; try done; try congruence.

Lemma hang_up_refs f : 0 < e_refs f -> e_refs (hang_up f) = e_refs f - 1.
Proof. intros. unfold hang_up, drop_ref. cbn. by rewrite (proj2 (Z.ltb_lt 0 (e_refs f))). Qed.

Lemma break_ok nd qu ex a e s :
  einv (u_eps s) (u_bound s) nd qu ex 0 -> u_eps s !! a = Some e -> e_peer e <> 0 -> 2 <= e_refs e ->
  ex a <= 7 -> ex (e_peer e) = 0 ->
  exists s', ep_break a s = Some (s', tt) /\ einv (u_eps s') (u_bound s') nd qu ex 0 /\
    u_nodes s' = u_nodes s /\ u_bound s' = u_bound s /\
    u_eps s' !! a = Some (with_refs (e_refs e - 1) (with_peer 0 e)).
Proof.
  intros Hi Ha Hp0 Hr2 Hxa Hxp. pose proof (c_ep _ _ _ _ _ _ Hi _ _ Ha) as Oa.
  destruct (o_peer _ _ _ _ _ _ Oa Hp0) as (Hpa & f & Hf & Hfa & Hfk).
  pose proof (c_ep _ _ _ _ _ _ Hi _ _ Hf) as Of. set (p := e_peer e) in *.
  pose proof (o_pos _ _ _ _ _ _ Of) as Hfpos. pose proof (o_refs _ _ _ _ _ _ Of) as Hfr.
  pose proof (c_used _ _ _ _ _ _ Hi _ _ Ha (o_nz _ _ _ _ _ _ Oa)) as Hua.
  pose proof (c_used _ _ _ _ _ _ Hi _ _ Hf Hp0) as Huf.
  pose proof (einv_unlink _ _ _ _ _ _ a e p f Hi Ha eq_refl Hp0 Hf Hxa ltac:(lia)) as Hi1.
  set (e' := with_refs (e_refs e - 1) (with_peer 0 e)).
  assert (einv (<[a := e']> (<[p := with_peer 0 f]> (u_eps s))) (u_bound s) nd qu (add_ex ex p 1) 0) as Hi2.
  { replace (<[a := e']> (<[p := with_peer 0 f]> (u_eps s)))
      with (<[a := e']> (<[a := with_peer 0 e]> (<[p := with_peer 0 f]> (u_eps s)))) by (by rewrite insert_insert_eq).
    eapply einv_refs; [exact Hi1|apply lookup_insert_eq|done|apply (o_data _ _ _ _ _ _ Oa)|done|..]; cbn.
    - rewrite (add_ex_ne _ p), (add_ex_ne _ p), add_ex_eq by done. lia.
    - lia.
    - rewrite add_ex_ne by done. pose proof (c_ex _ _ _ _ _ _ Hi a). lia.
    - intros b Hb. unfold add_ex. by rewrite (proj2 (Z.eqb_neq b a)). }
  unfold ep_break, DEPTH. rewrite (run_bind _ _ _ _ _ (run_ep_at _ _ _ Ha)). cbv zeta. fold p.
  rewrite (proj2 (Z.eqb_neq p 0)) by done. rewrite (run_bind _ _ _ _ _ (run_upd _ _ _ _ Ha)).
  rewrite (drop_ref_eq (with_peer 0 e)) by (cbn; lia). cbn [e_refs with_peer]. fold e'.
  set (s1 := set_eps _ s). assert (u_eps s1 !! a = Some e') as Ha1 by apply lookup_insert_eq.
  rewrite (run_bind _ _ _ _ _ (run_ep_at _ _ _ Ha1)).
  assert (u_eps s1 !! p = Some f) as Hf1 by (unfold s1; cbn; by rewrite lookup_insert_ne).
  rewrite (run_bind _ _ _ _ _ (run_upd _ _ _ _ Hf1)).
  set (s2 := set_eps _ s1). assert (u_eps s2 !! p = Some (hang_up f)) as Hf2 by apply lookup_insert_eq.
  rewrite (run_bind _ _ s2 s2 (e_refs (hang_up f) =? 0))
    by (by rewrite (run_bind _ _ _ _ _ (run_ep_at _ _ _ Hf2))).
  rewrite (proj2 (Z.eqb_neq (e_refs e') 0)) by (cbn; lia). rewrite (run_bind _ _ s2 s2 tt) by done.
  rewrite hang_up_refs by done. destruct (e_refs f - 1 =? 0) eqn:Ed; b2p.
  - assert (e_pend f = []) as Hpd by (apply (o_listen _ _ _ _ _ _ Of); by rewrite Hfk).
    rewrite (destroy_conn _ p _ s2 Hf2 Hp0 Huf Hfk eq_refl Hpd). eexists. split; [done|].
    assert (u_eps (gone p (hang_up f) s2) = delete p (<[a := e']> (<[p := with_peer 0 f]> (u_eps s)))) as ->.
    { unfold gone, s2, s1, set_eps. cbn. map_same. }
    split.
    + pose proof (hold_range nd p). pose proof (hold_range qu p). rewrite Hfa in Hfr.
      rewrite (proj2 (Z.eqb_neq a 0)) in Hfr by apply (o_nz _ _ _ _ _ _ Oa). rewrite Hxp in Hfr.
      eapply einv_delete; [exact Hi2|rewrite lookup_insert_ne by done; apply lookup_insert_eq|done|done|..].
      * unfold hold in *. destruct (nd !! p); [lia|done].
      * unfold hold in *. destruct (qu !! p); [lia|done].
      * done.
      * intros b Hb. by rewrite add_ex_ne.
    + split; [done|]. split; [done|]. rewrite lookup_delete_ne by done. apply lookup_insert_eq.
  - eexists. split; [done|]. split.
    + unfold s2, s1, set_eps. cbn [u_eps u_bound].
      replace (<[p := hang_up f]> (<[a := e']> (u_eps s)))
        with (<[p := hang_up f]> (<[a := e']> (<[p := with_peer 0 f]> (u_eps s)))) by map_same.
      eapply einv_refs; [exact Hi2|rewrite lookup_insert_ne by done; apply lookup_insert_eq|done|..].
      * apply (o_data _ _ _ _ _ _ Of).
      * intros _. exact Huf.
      * rewrite hang_up_refs by done. cbn. rewrite add_ex_eq. lia.
      * rewrite hang_up_refs by done. lia.
      * lia.
      * intros b Hb. by rewrite add_ex_ne.
    + split; [done|]. split; [done|]. unfold s2. cbn. rewrite lookup_insert_ne by done. exact Ha1.
Qed.

(** ** Closing *)

(** The node's reference taken in hand. *)
Lemma einv_unnode E B nd qu ex z a n e :
  einv E B nd qu ex z -> nd !! a = Some n -> E !! a = Some e -> e_kind e = UEP_CONN -> ex a <= 7 ->
  einv E B (delete a nd) qu (add_ex ex a 1) z.
Proof.
  intros [Hok Hus Hnd Hqu Hpe Hxx Hrg] Hn Ha Hk Hx. split; try done.
  - intros b x Hb. destruct (Hok _ _ Hb) as [O1 O2 O3 O4 O5 O6 O7 O8 O9 O10]. split; try done.
    + rewrite O2. unfold hold, add_ex. rewrite lookup_delete. destruct (decide (a = b)) as [->|Hne].
      * rewrite Hn, Z.eqb_refl. lia.
      * rewrite (proj2 (Z.eqb_neq b a)) by congruence. done.
    + intros Hkb. destruct (O7 Hkb) as [? ?]. split; [done|]. rewrite lookup_delete_ne; [done|].
      intros <-. rewrite Ha in Hb. congruence.
  - intros b m Hb. rewrite lookup_delete in Hb. destruct (decide (a = b)); [done|]. by apply (Hnd b m).
  - intros b. destruct (Hxx b) as [? H]. unfold add_ex. destruct (b =? a) eqn:E1; b2p; [|done].
    subst b. split; [lia|]. eauto.
Qed.

Lemma delete_bij (N nd : gmap Z Z) n a :
  (forall m b, N !! m = Some b <-> nd !! b = Some m) -> N !! n = Some a ->
  forall m b, delete n N !! m = Some b <-> delete a nd !! b = Some m.
Proof.
  intros Hb Hn m b. pose proof (proj1 (Hb n a) Hn) as Ha. rewrite !lookup_delete_Some. split; intros [Hne Hx].
  - apply Hb in Hx. split; [|done]. intros ->. congruence.
  - apply Hb in Hx. split; [|done]. intros ->. congruence.
Qed.

Lemma close_conn_ok s nd qu ex n a e :
  einv (u_eps s) (u_bound s) nd qu ex 0 -> nd !! a = Some n -> u_eps s !! a = Some e -> e_kind e = UEP_CONN ->
  ex a <= 1 -> ex (e_peer e) = 0 ->
  exists s', unix_node_close_conn a s = Some (s', tt) /\ einv (u_eps s') (u_bound s') (delete a nd) qu ex 0 /\
    u_nodes s' = u_nodes s.
Proof.
  intros Hi Hn Ha Hk Hx Hxp. pose proof (c_ep _ _ _ _ _ _ Hi _ _ Ha) as Oa.
  pose proof (einv_unnode _ _ _ _ _ _ _ _ _ Hi Hn Ha Hk ltac:(lia)) as Hi1.
  pose proof (c_ex _ _ _ _ _ _ Hi a) as [Hx0 _].
  assert (add_ex ex a 1 a = ex a + 1) as Hx1 by apply add_ex_eq.
  assert (forall b, b <> a -> ex b = add_ex ex a 1 b) as Hxn by (intros; by rewrite add_ex_ne).
  assert (forall s1, einv (u_eps s1) (u_bound s1) (delete a nd) qu (add_ex ex a 1) 0 -> u_nodes s1 = u_nodes s ->
    exists s', ep_put a s1 = Some (s', tt) /\ einv (u_eps s') (u_bound s') (delete a nd) qu ex 0 /\
    u_nodes s' = u_nodes s) as Hput.
  { intros s1 H1 Hn1. destruct (put_ok 3 _ _ _ ex 0 a s1 H1) as (s' & ? & ? & ? & _);
      [lia|apply (o_nz _ _ _ _ _ _ Oa)|lia|done|]. exists s'. split; [done|]. split; [done|congruence]. }
  unfold unix_node_close_conn. rewrite (run_bind _ _ _ _ _ (run_ep_at _ _ _ Ha)).
  destruct (e_peer e =? 0) eqn:Hp; b2p.
  - rewrite (run_bind _ _ s s tt) by done. by apply Hput.
  - destruct (o_peer _ _ _ _ _ _ Oa Hp) as [Hpa _].
    destruct (break_ok _ _ _ a e s Hi1 Ha Hp) as (s1 & Hb & Hi2 & Hn2 & _ & Ha2); [|lia|by rewrite add_ex_ne|].
    { rewrite (o_refs _ _ _ _ _ _ Oa), (hold_Some _ _ _ Hn), (proj2 (Z.eqb_neq (e_peer e) 0)) by done.
      pose proof (hold_range qu a). lia. }
    rewrite (run_bind _ _ _ _ _ Hb). by apply Hput.
Qed.

Definition in_hand (l : list Z) : Z -> Z := fun b => if bool_decide (b ∈ l) then 1 else 0.

(** A listener on its way out: its queue is taken in hand. *)
Lemma einv_orphan E B nd qu a e :
  einv E B nd qu no_ex 0 -> E !! a = Some e -> e_kind e <> UEP_CONN ->
  einv (<[a := with_pend [] 0 (with_peer 0 (with_used false e))]> E) B nd
    (filter (fun p => p.2 <> a) qu) (in_hand (e_pend e)) a.
Proof.
  intros Hi Ha Hk. pose proof Hi as [Hok Hus Hnd Hqu Hpe Hxx Hrg]. pose proof (Hok _ _ Ha) as Oa.
  destruct (o_conn _ _ _ _ _ _ Oa Hk) as [Hp0 Hna]. set (e' := with_pend [] 0 _).
  assert (forall x, qu !! x = Some a <-> x ∈ e_pend e) as Hqa.
  { intros x. split; [intros Hx|by apply Hpe]. destruct (Hqu _ _ Hx) as (_ & le & Hle & Hin). congruence. }
  assert (forall x l, filter (fun p => p.2 <> a) qu !! x = Some l <-> qu !! x = Some l /\ l <> a) as Hf.
  { intros x l. by rewrite map_lookup_filter_Some. }
  assert (forall x, hold (filter (fun p => p.2 <> a) qu) x + in_hand (e_pend e) x = hold qu x) as Hh.
  { intros x. unfold hold, in_hand. destruct (qu !! x) as [l|] eqn:Eq.
    - destruct (decide (l = a)) as [->|Hne].
      + rewrite bool_decide_eq_true_2 by by apply Hqa.
        destruct (filter _ qu !! x) eqn:Ef; [|done]. apply Hf in Ef as [? ?]. congruence.
      + rewrite (proj2 (Hf x l)) by done. rewrite bool_decide_eq_false_2; [done|].
        intros Hin. apply Hqa in Hin. congruence.
    - destruct (filter _ qu !! x) eqn:Ef; [apply Hf in Ef as [? ?]; congruence|].
      rewrite bool_decide_eq_false_2; [done|]. intros Hin. apply Hqa in Hin. congruence. }
  assert (forall b x, (<[a := e']> E) !! b = Some x -> b <> a -> E !! b = Some x) as Hother.
  { intros b x Hb Hne. by rewrite lookup_insert_ne in Hb. }
  assert (forall b y, E !! b = Some y -> b <> a -> (<[a := e']> E) !! b = Some y) as Hfwd.
  { intros b y Hb Hne. by rewrite lookup_insert_ne. }
  split.
  - intros b x Hb. destruct (decide (b = a)) as [->|Hne].
    + rewrite lookup_insert_eq in Hb. injection Hb as <-. destruct Oa as [O1 O2 O3 O4 O5 O6 O7 O8 O9 O10].
      split; cbn; try done; [|constructor|].
      * rewrite O2, Hp0. cbn [Z.eqb]. unfold no_ex. rewrite <- (Hh a). lia.
      * split; [by apply O6|]. unfold zlen. cbn. unfold UNIX_BACKLOG. lia.
    + pose proof (Hother _ _ Hb Hne) as Hb'. destruct (Hok _ _ Hb') as [O1 O2 O3 O4 O5 O6 O7 O8 O9 O10].
      split; try done.
      * rewrite O2, <- (Hh b). unfold no_ex. lia.
      * intros Hx. destruct (O9 Hx) as (? & p & Hp & Hpb & Hpk). split; [done|]. exists p. split; [|done].
        apply Hfwd; [done|]. intros E1. rewrite E1, Ha in Hp. congruence.
  - intros b x Hb Hz. apply (Hus b x); [by apply Hother|]. pose proof (Hother _ _ Hb Hz) as Hb'.
    apply (o_nz _ _ _ _ _ _ (Hok _ _ Hb')).
  - intros b m Hb. destruct (Hnd b m Hb) as [[y Hy] Hq]. split.
    + destruct (decide (b = a)) as [->|]; [rewrite lookup_insert_eq; eauto|rewrite lookup_insert_ne; eauto].
    + destruct (filter _ qu !! b) eqn:Ef; [apply Hf in Ef as [? ?]; congruence|done].
  - intros x l [Hx Hl]%Hf. destruct (Hqu x l Hx) as ((xe & Hxe & Hxk) & le & Hle & Hin). split.
    + exists xe. split; [|done]. apply Hfwd; [done|]. intros ->. rewrite Ha in Hxe. congruence.
    + exists le. split; [by apply Hfwd|done].
  - intros l le x Hle Hin. destruct (decide (l = a)) as [->|Hne].
    + rewrite lookup_insert_eq in Hle. injection Hle as <-. cbn in Hin. by apply not_elem_of_nil in Hin.
    + apply Hf. split; [|done]. eapply Hpe; [by apply Hother|done].
  - intros b. unfold in_hand. case_bool_decide as Hin; [|split; lia]. split; [lia|]. intros _.
    apply Hqa in Hin. destruct (Hqu _ _ Hin) as ((xe & Hxe & Hxk) & _). exists xe. apply Hfwd; [done|].
    intros ->. rewrite Ha in Hxe. congruence.
  - eapply reg_ok_insert; [done..|]. done.
Qed.

(** The table without the entry of [a]. *)
Definition unbound (a : Z) (B : list unix_bound) : list unix_bound :=
  match list_find (fun b => b_used b = true /\ b_ep b = a) B with
  | Some (i, b) => <[i := Bound false (<[0%nat := 0]> (b_path b)) 0]> B
  | None => B
  end.

Lemma unbound_ok E B a :
  reg_ok E B ->
  reg_ok E (unbound a B) /\ forall i b, unbound a B !! i = Some b -> b_used b = true -> b_ep b <> a.
Proof.
  intros [G1 G2 G3]. unfold unbound. destruct (list_find _ B) as [[i0 b0]|] eqn:El.
  - apply list_find_Some in El as (Hi0 & [Hu0 Hb0] & _).
    assert (forall i b, <[i0 := Bound false (<[0%nat := 0]> (b_path b0)) 0]> B !! i = Some b ->
      (i = i0 /\ b = Bound false (<[0%nat := 0]> (b_path b0)) 0) \/ (i <> i0 /\ B !! i = Some b)) as Hl.
    { intros i b. destruct (decide (i = i0)) as [->|Hne].
      - rewrite list_lookup_insert_eq by (by eapply lookup_lt_Some). intros [= <-]. by left.
      - rewrite list_lookup_insert_ne by done. by right. }
    split; [split|].
    + intros i b Hb Hu. destruct (Hl _ _ Hb) as [[_ ->]|[_ Hb']]; [done|]. by apply (G1 i).
    + intros i j b c Hb Hc Hbu Hcu. destruct (Hl _ _ Hb) as [[_ ->]|[_ Hb']]; [done|].
      destruct (Hl _ _ Hc) as [[_ ->]|[_ Hc']]; [done|]. by apply (G2 i j b c).
    + intros i b Hb. destruct (Hl _ _ Hb) as [[_ ->]|[_ Hb']]; [|by apply (G3 i)]. cbn. rewrite zlen_insert.
      split; [|done]. apply (G3 i0 b0 Hi0).
    + intros i b Hb Hu He. destruct (Hl _ _ Hb) as [[_ ->]|[Hne Hb']]; [done|].
      apply Hne. apply (G2 i i0 b b0); try done. congruence.
  - split; [done|]. intros i b Hb Hu He. apply list_find_None in El. rewrite Forall_lookup in El.
    by apply (El i b Hb).
Qed.

Lemma einv_bound E B B' nd qu ex z : einv E B nd qu ex z -> reg_ok E B' -> einv E B' nd qu ex z.
Proof. intros [] ?. by split. Qed.

(** The queue of a dying listener is given back. *)
Lemma put_all_ok nd qu a : forall l s,
  einv (u_eps s) (u_bound s) nd qu (in_hand l) a -> NoDup l -> a ∉ l ->
  exists s', for_each l (put_with (ep_destroy 3)) s = Some (s', tt) /\
    einv (u_eps s') (u_bound s') nd qu no_ex a /\ u_nodes s' = u_nodes s /\ u_bound s' = u_bound s /\
    u_eps s' !! a = u_eps s !! a.
Proof.
  induction l as [|x l IH]; intros s Hi Hnd Ha; cbn [for_each].
  { exists s. split; [done|]. split; [exact Hi|done]. }
  inversion_clear Hnd as [|? ? Hx Hnd']. apply not_elem_of_cons in Ha as [Hax Ha].
  destruct (put_ok 2 _ _ _ (in_hand l) a x s Hi) as (s1 & Hs1 & Hi1 & Hn1 & Hb1 & Hk1).
  - unfold in_hand. rewrite bool_decide_eq_true_2 by (by left). lia.
  - done.
  - unfold in_hand. rewrite bool_decide_eq_false_2 by done. by rewrite bool_decide_eq_true_2 by (by left).
  - intros b Hb. unfold in_hand. rewrite (bool_decide_ext (b ∈ l) (b ∈ x :: l)); [done|].
    rewrite elem_of_cons. intuition congruence.
  - rewrite (run_bind _ _ _ _ _ Hs1). destruct (IH s1 Hi1 Hnd' Ha) as (s' & -> & Hi' & Hn' & Hb' & Ha').
    exists s'. split; [done|]. split; [done|]. split; [congruence|]. split; [congruence|].
    rewrite Ha'. apply Hk1. congruence.
Qed.

(** The dying endpoint itself goes, with its node. *)
Lemma einv_delete_owner E B nd qu a e :
  einv E B nd qu no_ex a -> E !! a = Some e -> e_kind e <> UEP_CONN -> e_pend e = [] ->
  (forall i b, B !! i = Some b -> b_used b = true -> b_ep b <> a) ->
  einv (delete a E) B (delete a nd) qu no_ex 0.
Proof.
  intros [Hok Hus Hnd Hqu Hpe Hxx Hrg] Ha Hk Hpd Hfree. pose proof (Hok _ _ Ha) as Oa.
  destruct (o_conn _ _ _ _ _ _ Oa Hk) as [Hp0 _].
  assert (forall b x, delete a E !! b = Some x <-> b <> a /\ E !! b = Some x) as Hl.
  { intros b x. rewrite lookup_delete_Some. split; intros []; split; by try apply not_eq_sym. }
  split.
  - intros b x [Hn Hb]%Hl. destruct (Hok _ _ Hb) as [O1 O2 O3 O4 O5 O6 O7 O8 O9 O10]. split; try done.
    + rewrite O2. unfold hold. by rewrite lookup_delete_ne by congruence.
    + rewrite lookup_delete_ne by congruence. done.
    + intros Hx. destruct (O9 Hx) as (? & p & Hpp & ? & ?). split; [done|].
      exists p. rewrite Hl. split; [|done]. split; [|done]. intros E1. rewrite E1, Ha in Hpp. congruence.
  - intros b x [Hn Hb]%Hl _. by apply (Hus b).
  - intros b n Hb. rewrite lookup_delete_Some in Hb. destruct Hb as [Hne Hb]. destruct (Hnd b n Hb) as [[y Hy] ?].
    split; [|done]. exists y. rewrite Hl. split; [congruence|done].
  - intros x l Hx. destruct (Hqu x l Hx) as ((xe & Hxe & Hkx) & le & Hle & Hin). split.
    + exists xe. rewrite Hl. split; [|done]. split; [congruence|done].
    + exists le. rewrite Hl. split; [|done]. split; [|done]. intros ->. rewrite Ha in Hle. injection Hle as <-.
      rewrite Hpd in Hin. by apply not_elem_of_nil in Hin.
  - intros l le x [Hn Hle]%Hl Hin. by eapply Hpe.
  - intros b. unfold no_ex. split; lia.
  - destruct Hrg as [G1 G2 G3]. split; [|done..]. intros i b Hb Hu. destruct (G1 i b Hb Hu) as (x & Hx & Hn).
    exists x. rewrite Hl. split; [|done]. split; [by eapply Hfree|done].
Qed.

Lemma destroy_ok s nd qu a e :
  einv (u_eps s) (u_bound s) nd qu no_ex 0 -> u_eps s !! a = Some e -> e_kind e <> UEP_CONN ->
  exists s' qu', ep_destroy DEPTH a s = Some (s', tt) /\ einv (u_eps s') (u_bound s') (delete a nd) qu' no_ex 0 /\
    u_nodes s' = u_nodes s.
Proof.
  intros Hi Ha Hk. pose proof (c_ep _ _ _ _ _ _ Hi _ _ Ha) as Oa. pose proof (o_nz _ _ _ _ _ _ Oa) as Hz.
  destruct (o_conn _ _ _ _ _ _ Oa Hk) as [Hp0 _]. pose proof (einv_orphan _ _ _ _ _ _ Hi Ha Hk) as Hi1.
  set (e' := with_pend [] 0 (with_peer 0 (with_used false e))) in *.
  set (qu' := filter (fun p => p.2 <> a) qu) in *.
  unfold DEPTH. cbn [ep_destroy]. rewrite (proj2 (Z.eqb_neq a 0)) by done.
  rewrite (run_bind _ _ _ _ _ (run_ep_at _ _ _ Ha)), (c_used _ _ _ _ _ _ Hi _ _ Ha Hz). cbn [negb].
  rewrite (run_bind _ _ _ _ _ (run_upd _ _ _ _ Ha)). fold e'.
  set (s1 := set_eps (<[a := e']>) s).
  assert (forall i b, u_bound s !! i = Some b -> b_used b = true -> b_ep b = a -> is_named e) as Hreg.
  { intros i b Hb Hu E1. destruct (g_ep _ _ (c_reg _ _ _ _ _ _ Hi) i b Hb Hu) as (x & Hx & Hn). congruence. }
  set (B2 := if bool_decide (e_kind e = UEP_BOUND \/ e_kind e = UEP_LISTEN) then unbound a (u_bound s) else u_bound s).
  assert (einv (u_eps s1) B2 nd qu' (in_hand (e_pend e)) a /\
      (forall i b, B2 !! i = Some b -> b_used b = true -> b_ep b <> a)) as [Hi2 Hfree].
  { pose proof (unbound_ok _ _ a (c_reg _ _ _ _ _ _ Hi1)) as [G1 G2]. unfold B2. case_bool_decide as Hnm.
    - split; [|done]. eapply einv_bound; [exact Hi1|exact G1].
    - split; [exact Hi1|]. intros i b Hb Hu E1. apply Hnm. by apply (Hreg i b). }
  set (s2 := set_bound B2 s1).
  rewrite (run_bind _ _ s1 s2 tt) by (unfold s2, B2; case_bool_decide; [done|by destruct s]).
  rewrite Hp0. cbn [Z.eqb]. rewrite (run_bind _ _ s2 s2 tt) by done.
  destruct (put_all_ok nd qu' a (e_pend e) s2) as (s3 & Hs3 & Hi3 & Hn3 & Hb3 & Ha3).
  { exact Hi2. }
  { apply (o_nodup _ _ _ _ _ _ Oa). }
  { intros Hin. pose proof (c_pend _ _ _ _ _ _ Hi _ _ _ Ha Hin) as Hq.
    destruct (c_qu _ _ _ _ _ _ Hi _ _ Hq) as ((xe & Hxe & Hxk) & _). congruence. }
  rewrite (run_bind _ _ _ _ _ Hs3), (run_bind _ _ _ _ _ (unref_loop _ _)).
  assert (u_eps (unrefd (e_fdq e) s3) !! a = Some e') as Hx.
  { cbn. rewrite Ha3. apply lookup_insert_eq. }
  rewrite (run_bind _ _ _ _ _ (run_ep_at _ _ _ Hx)). eexists _, qu'. split; [done|].
  cbn [set_eps u_eps u_bound unrefd u_nodes]. split; [|by rewrite Hn3].
  eapply einv_delete_owner; [exact Hi3|exact Hx|exact Hk|done|]. rewrite Hb3. exact Hfree.
Qed.

Lemma node_close_ok s n : uinv s -> is_Some (u_nodes s !! n) ->
  exists s', unix_node_close n s = Some (s', tt) /\ uinv s' /\ u_nodes s' = delete n (u_nodes s).
Proof.
  intros (nd & qu & Hi & Hb) [a Hn]. pose proof (proj1 (Hb n a) Hn) as Hna.
  destruct (c_nd _ _ _ _ _ _ Hi _ _ Hna) as [[e Ha] _]. unfold unix_node_close.
  rewrite (run_bind _ _ _ _ _ (run_priv _ _ _ Hn)), (run_bind _ _ _ _ _ (run_ep_at _ _ _ Ha)).
  pose proof (o_nz _ _ _ _ _ _ (c_ep _ _ _ _ _ _ Hi _ _ Ha)) as Hz.
  rewrite (c_used _ _ _ _ _ _ Hi _ _ Ha Hz).
  assert (exists s' qu', (if bool_decide (e_kind e = UEP_CONN) then unix_node_close_conn a else ep_destroy DEPTH a) s
    = Some (s', tt) /\ einv (u_eps s') (u_bound s') (delete a nd) qu' no_ex 0 /\ u_nodes s' = u_nodes s)
    as (s' & qu' & Hs' & Hi' & Hn').
  { case_bool_decide as Hk; [|by eapply destroy_ok].
    destruct (close_conn_ok s nd qu no_ex n a e Hi Hna Ha Hk ltac:(done) eq_refl) as (s' & ? & ? & ?). by exists s', qu. }
  rewrite (run_bind _ _ _ _ _ Hs'). unfold free_node. rewrite <- Hn' in Hn.
  rewrite (run_bind _ _ _ _ _ (run_priv _ _ _ Hn)). eexists. split; [done|].
  cbn [set_nodes u_nodes]. split; [|by rewrite Hn'].
  exists (delete a nd), qu'. split; [done|]. cbn. apply delete_bij; [|done]. by rewrite Hn'.
Qed.

(** ** Opening *)

Lemma einv_absent E B nd qu ex z a :
  einv E B nd qu ex z -> E !! a = None ->
  nd !! a = None /\ qu !! a = None /\ ex a = 0 /\ (forall b x, E !! b = Some x -> e_peer x <> 0 -> e_peer x <> a) /\
  (forall x, qu !! x <> Some a).
Proof.
  intros [Hok Hus Hnd Hqu Hpe Hxx Hrg] Ha. split_and!.
  - destruct (nd !! a) eqn:En; [|done]. destruct (Hnd _ _ En) as [[y Hy] _]. congruence.
  - destruct (qu !! a) eqn:En; [|done]. destruct (Hqu _ _ En) as ((y & Hy & _) & _). congruence.
  - destruct (Hxx a) as [? H]. destruct (decide (0 < ex a)) as [Hl|]; [|lia]. destruct (H Hl) as [y Hy]. congruence.
  - intros b x Hb Hx E1. destruct (o_peer _ _ _ _ _ _ (Hok _ _ Hb) Hx) as (_ & p & Hp & _). congruence.
  - intros x Hx. destruct (Hqu _ _ Hx) as (_ & le & Hle & _). congruence.
Qed.

(** A new endpoint, with a node or in hand. *)
Lemma einv_add E B nd nd' qu ex ex' z a e :
  einv E B nd qu ex z -> E !! a = None -> a <> 0 ->
  e_used e = true -> e_peer e = 0 -> e_pend e = [] -> e_pend_count e = 0 -> e_backlog e = UNIX_BACKLOG -> data_ok e ->
  (e_kind e <> UEP_CONN -> is_Some (nd' !! a)) ->
  (forall b, b <> a -> nd' !! b = nd !! b) -> (forall b, b <> a -> ex' b = ex b) ->
  0 <= ex' a <= 8 -> e_refs e = hold nd' a + ex' a -> 0 < e_refs e ->
  einv (<[a := e]> E) B nd' qu ex' z.
Proof.
  intros Hi Ha Ha0 Hu Hp Hpd Hpc Hbl Hd Hk Hn1 Hx1 Hxa Hr Hpos.
  destruct (einv_absent _ _ _ _ _ _ _ Hi Ha) as (Hna & Hqa & Hxa0 & Hnp & Hnq).
  destruct Hi as [Hok Hus Hnd Hqu Hpe Hxx Hrg].
  assert (forall b x, E !! b = Some x -> b <> a) as Hne by (intros b x Hb ->; congruence).
  assert (forall b x, E !! b = Some x -> (<[a := e]> E) !! b = Some x) as Hfwd.
  { intros b x Hb. rewrite lookup_insert_ne; [done|]. apply not_eq_sym. by eapply Hne. }
  split.
  - intros b x Hb. destruct (decide (b = a)) as [->|Hba].
    + rewrite lookup_insert_eq in Hb. injection Hb as <-. split; rewrite ?Hpd; try done.
      * rewrite Hr, Hp, (hold_None qu) by done. cbn [Z.eqb]. lia.
      * constructor.
      * intros Hkk. split; [done|auto].
    + rewrite lookup_insert_ne in Hb by done. destruct (Hok _ _ Hb) as [O1 O2 O3 O4 O5 O6 O7 O8 O9 O10].
      split; try done.
      * unfold hold. rewrite Hn1, Hx1 by done. exact O2.
      * rewrite Hn1 by done. exact O7.
      * intros Hx. destruct (O9 Hx) as (? & p & ? & ? & ?). split; [done|]. exists p. split; [by apply Hfwd|done].
  - intros b x Hb Hz. destruct (decide (b = a)) as [->|Hba].
    + rewrite lookup_insert_eq in Hb. by injection Hb as <-.
    + rewrite lookup_insert_ne in Hb by done. by apply (Hus b).
  - intros b n Hb. destruct (decide (b = a)) as [->|Hba]; [rewrite lookup_insert_eq; eauto|].
    rewrite Hn1 in Hb by done. destruct (Hnd _ _ Hb) as [[y Hy] ?]. split; [exists y; by apply Hfwd|done].
  - intros x l Hx. destruct (Hqu x l Hx) as ((xe & Hxe & Hxk) & le & Hle & Hin).
    split; [exists xe|exists le]; split; try done; by apply Hfwd.
  - intros l le x Hle Hin. destruct (decide (l = a)) as [->|Hla].
    + rewrite lookup_insert_eq in Hle. injection Hle as <-. rewrite Hpd in Hin. by apply not_elem_of_nil in Hin.
    + rewrite lookup_insert_ne in Hle by done. by eapply Hpe.
  - intros b. destruct (decide (b = a)) as [->|Hba]; [rewrite lookup_insert_eq; eauto|].
    rewrite Hx1 by done. destruct (Hxx b) as [? H]. split; [done|]. intros Hb. destruct (H Hb) as [y Hy].
    exists y. by apply Hfwd.
  - destruct Hrg as [G1 G2 G3]. split; [|done..]. intros i b Hb Hub. destruct (G1 i b Hb Hub) as (x & Hx & Hnm).
    exists x. split; [by apply Hfwd|done].
Qed.

(** Two endpoints linked: each gains a reference. *)
Lemma einv_link E B nd qu ex z a b e f :
  einv E B nd qu ex z -> a <> b -> E !! a = Some e -> E !! b = Some f -> e_kind e = UEP_CONN -> e_kind f = UEP_CONN ->
  e_peer e = 0 -> e_peer f = 0 ->
  einv (<[b := with_refs (e_refs f + 1) (with_peer a f)]> (<[a := with_refs (e_refs e + 1) (with_peer b e)]> E))
    B nd qu ex z.
Proof.
  intros Hi Hab Ha Hb Hka Hkb Hpa Hpb. pose proof Hi as [Hok Hus Hnd Hqu Hpe Hxx Hrg].
  pose proof (Hok _ _ Ha) as Oa. pose proof (Hok _ _ Hb) as Ob.
  set (e' := with_refs _ (with_peer b e)). set (f' := with_refs _ (with_peer a f)).
  set (E' := <[b := f']> (<[a := e']> E)).
  assert (E' !! b = Some f') as Lb by apply lookup_insert_eq.
  assert (E' !! a = Some e') as La by (unfold E'; rewrite lookup_insert_ne by done; apply lookup_insert_eq).
  assert (forall c, c <> a -> c <> b -> E' !! c = E !! c) as Lc by (intros; unfold E'; by rewrite !lookup_insert_ne).
  assert (forall c x, E' !! c = Some x -> exists y, E !! c = Some y /\ e_kind x = e_kind y /\ e_pend x = e_pend y /\
    e_used x = e_used y) as Hback.
  { intros c x Hx. destruct (decide (c = a)) as [->|]; [rewrite La in Hx; injection Hx as <-; by exists e|].
    destruct (decide (c = b)) as [->|]; [rewrite Lb in Hx; injection Hx as <-; by exists f|].
    rewrite Lc in Hx by done. by exists x. }
  assert (forall c y, E !! c = Some y -> exists x, E' !! c = Some x /\ e_kind x = e_kind y /\ e_pend x = e_pend y) as Hfwd.
  { intros c y Hy. destruct (decide (c = a)) as [->|]; [rewrite Ha in Hy; injection Hy as <-; eauto|].
    destruct (decide (c = b)) as [->|]; [rewrite Hb in Hy; injection Hy as <-; eauto|].
    rewrite <- Lc in Hy by done. eauto. }
  assert (forall c d x y, E !! c = Some x -> e_peer x = 0 -> e_kind x = UEP_CONN -> d <> 0 -> d <> c ->
     E' !! d = Some y -> e_peer y = c -> e_kind y = UEP_CONN ->
     ep_ok E' nd qu ex c (with_refs (e_refs x + 1) (with_peer d x))) as Hnew.
  { intros c d x y Hx Hp Hk Hd0 Hdc Hy Hyp Hyk. destruct (Hok _ _ Hx) as [O1 O2 O3 O4 O5 O6 O7 O8 O9 O10].
    split; cbn; try done.
    - rewrite O2, Hp, (proj2 (Z.eqb_neq d 0)) by done. cbn [Z.eqb]. lia.
    - lia.
    - intros _. split; [done|]. by exists y. }
  split.
  - intros c x Hx. destruct (decide (c = a)) as [->|Hca].
    { rewrite La in Hx. injection Hx as <-. apply (Hnew a b e f'); try done. apply (o_nz _ _ _ _ _ _ Ob). }
    destruct (decide (c = b)) as [->|Hcb].
    { rewrite Lb in Hx. injection Hx as <-. apply (Hnew b a f e'); try done. apply (o_nz _ _ _ _ _ _ Oa). }
    rewrite Lc in Hx by done. destruct (Hok _ _ Hx) as [O1 O2 O3 O4 O5 O6 O7 O8 O9 O10].
    split; try done. intros Hnz. destruct (O9 Hnz) as (? & q & Hq & Hqc & Hqk). split; [done|]. exists q.
    split; [|done]. rewrite Lc; [done| |]; intros E1; rewrite E1 in *; congruence.
  - intros c x Hx Hz. destruct (Hback _ _ Hx) as (y & Hy & _ & _ & ->). by apply (Hus c).
  - intros c n Hc. destruct (Hnd c n Hc) as [[y Hy] ?]. destruct (Hfwd _ _ Hy) as (x & ? & _). split; [by exists x|done].
  - intros x l Hx. destruct (Hqu x l Hx) as ((xe & Hxe & Hk) & le & Hle & Hin).
    destruct (Hfwd _ _ Hxe) as (xe' & ? & E1 & _), (Hfwd _ _ Hle) as (le' & ? & _ & E2).
    split; [exists xe'; split; [done|congruence]|]. exists le'. split; [done|]. by rewrite E2.
  - intros l le x Hle Hin. destruct (Hback _ _ Hle) as (y & Hy & _ & E2 & _). rewrite E2 in Hin. by eapply Hpe.
  - intros c. destruct (Hxx c) as [? H]. split; [done|]. intros Hc. destruct (H Hc) as [y Hy].
    destruct (Hfwd _ _ Hy) as (x & ? & _). eauto.
  - destruct Hrg as [G1 G2 G3]. split; [|done..]. intros i c Hc Hu. destruct (G1 i c Hc Hu) as (y & Hy & Hn).
    destruct (Hfwd _ _ Hy) as (x & ? & E1 & _). exists x. split; [done|]. unfold is_named. by rewrite E1.
Qed.

(** A reference in hand handed to a new node. *)
Lemma einv_node E B nd qu ex ex' z a n :
  einv E B nd qu ex z -> 0 < ex a -> nd !! a = None -> qu !! a = None -> ex' a = ex a - 1 ->
  (forall b, b <> a -> ex' b = ex b) ->
  einv E B (<[a := n]> nd) qu ex' z.
Proof.
  intros [Hok Hus Hnd Hqu Hpe Hxx Hrg] Hx Hna Hqa Hxa Hxb. split; try done.
  - intros b x Hb. destruct (Hok _ _ Hb) as [O1 O2 O3 O4 O5 O6 O7 O8 O9 O10]. split; try done.
    + rewrite O2. unfold hold. rewrite lookup_insert. destruct (decide (a = b)) as [->|Hne].
      * rewrite Hna, Hxa. lia.
      * by rewrite Hxb by congruence.
    + intros Hk. destruct (O7 Hk). split; [done|]. rewrite lookup_insert. by case_decide.
  - intros b m Hb. rewrite lookup_insert in Hb. destruct (decide (a = b)) as [->|Hne]; [|by apply (Hnd b m)].
    split; [|done]. destruct (Hxx b) as [_ H]. auto.
  - intros b. destruct (Hxx b) as [? H]. destruct (decide (b = a)) as [->|Hne].
    + rewrite Hxa. split; [lia|]. intros ?. apply H. lia.
    + by rewrite Hxb by done.
Qed.

(** A socket that is bound, listens or connects. *)
Lemma einv_kind E B nd qu ex z a e k :
  einv E B nd qu ex z -> E !! a = Some e -> e_kind e <> UEP_CONN -> e_pend e = [] ->
  (is_named e -> k = UEP_BOUND \/ k = UEP_LISTEN) ->
  einv (<[a := with_kind k e]> E) B nd qu ex z.
Proof.
  intros Hi Ha Hk Hpd Hnm. pose proof Hi as [Hok Hus Hnd Hqu Hpe Hxx Hrg]. pose proof (Hok _ _ Ha) as Oa.
  destruct (o_conn _ _ _ _ _ _ Oa Hk) as [Hp0 [n Hna]]. destruct (Hnd _ _ Hna) as [_ Hqa].
  assert (forall b x, b <> a -> (<[a := with_kind k e]> E) !! b = Some x <-> E !! b = Some x) as Hl
    by (intros; by rewrite lookup_insert_ne).
  split.
  - intros b x Hb. destruct (decide (b = a)) as [->|Hba].
    + rewrite lookup_insert_eq in Hb. injection Hb as <-. destruct Oa as [O1 O2 O3 O4 O5 O6 O7 O8 O9 O10].
      split; cbn; done.
    + apply Hl in Hb; [|done]. destruct (Hok _ _ Hb) as [O1 O2 O3 O4 O5 O6 O7 O8 O9 O10]. split; try done.
      intros Hx. destruct (O9 Hx) as (? & q & Hq & Hqb & Hqk). split; [done|]. exists q. split; [|done].
      apply Hl; [|done]. intros E1. rewrite E1 in *. congruence.
  - intros b x Hb Hz. destruct (decide (b = a)) as [->|Hba]; [|apply Hl in Hb; [by apply (Hus b)|done]].
    rewrite lookup_insert_eq in Hb. injection Hb as <-. cbn. by apply (Hus a).
  - intros b m Hb. destruct (Hnd b m Hb) as [[y Hy] ?]. split; [|done]. rewrite lookup_insert. case_decide; eauto.
  - intros x l Hx. destruct (Hqu x l Hx) as ((xe & Hxe & Hxk) & le & Hle & Hin). split.
    + exists xe. split; [|done]. apply Hl; [congruence|done].
    + exists le. split; [|done]. apply Hl; [|done]. intros ->. rewrite Ha in Hle. injection Hle as <-.
      rewrite Hpd in Hin. by apply not_elem_of_nil in Hin.
  - intros l le x Hle Hin. destruct (decide (l = a)) as [->|Hla]; [|apply Hl in Hle; [by eapply Hpe|done]].
    rewrite lookup_insert_eq in Hle. injection Hle as <-. cbn in Hin. rewrite Hpd in Hin. by apply not_elem_of_nil in Hin.
  - intros b. destruct (Hxx b) as [? H]. split; [done|]. intros Hb. destruct (H Hb) as [y Hy].
    rewrite lookup_insert. case_decide; eauto.
  - eapply reg_ok_insert; [done..|]. intros Hn. destruct (Hnm Hn) as [->| ->]; [by left|by right].
Qed.

(** An endpoint in hand put at the end of a listener's queue. *)
Lemma einv_enqueue E B nd qu ex ex' a e l le :
  einv E B nd qu ex 0 -> E !! a = Some e -> e_kind e = UEP_CONN -> nd !! a = None -> qu !! a = None -> 0 < ex a ->
  E !! l = Some le -> e_kind le = UEP_LISTEN -> zlen (e_pend le) < UNIX_BACKLOG ->
  ex' a = ex a - 1 -> (forall b, b <> a -> ex' b = ex b) ->
  einv (<[l := with_pend (e_pend le ++ [a]) (e_pend_count le + 1) le]> E) B nd (<[a := l]> qu) ex' 0.
Proof.
  intros Hi Ha Hk Hna Hqa Hx Hl Hlk Hlen Hxa Hxb. pose proof Hi as [Hok Hus Hnd Hqu Hpe Hxx Hrg].
  pose proof (Hok _ _ Hl) as Ol. assert (l <> a) as Hla by congruence.
  set (le' := with_pend _ _ le).
  assert (forall b x, b <> l -> (<[l := le']> E) !! b = Some x <-> E !! b = Some x) as Hlk'
    by (intros; by rewrite lookup_insert_ne).
  assert (a ∉ e_pend le) as Hni by (intros Hin; pose proof (Hpe _ _ _ Hl Hin); congruence).
  assert (forall b y, E !! b = Some y -> exists x, (<[l := le']> E) !! b = Some x /\ e_kind x = e_kind y /\ e_peer x = e_peer y) as Hfwd.
  { intros b y Hy. rewrite lookup_insert. case_decide; [subst; rewrite Hl in Hy; injection Hy as <-; eauto|eauto]. }
  split.
  - intros b x Hb.
    assert (hold (<[a := l]> qu) b + ex' b = hold qu b + ex b) as Hh.
    { unfold hold. rewrite lookup_insert. destruct (decide (a = b)) as [->|Hne]; [rewrite Hqa; lia|].
      rewrite Hxb by congruence. done. }
    destruct (decide (b = l)) as [->|Hbl].
    + rewrite lookup_insert_eq in Hb. injection Hb as <-. destruct Ol as [O1 O2 O3 O4 O5 O6 O7 O8 O9 O10].
      split; cbn; try done.
      * rewrite O2. lia.
      * apply list.NoDup_app. split_and!; [done| |by apply NoDup_singleton].
        intros x Hx' ->%list_elem_of_singleton. done.
      * rewrite O5, zlen_app. done.
      * split; [by apply O6|]. rewrite zlen_app. unfold zlen at 2. cbn [length]. lia.
      * intros Hxp. destruct (O7 ltac:(by rewrite Hlk)) as [? _]. done.
    + apply Hlk' in Hb; [|done]. destruct (Hok _ _ Hb) as [O1 O2 O3 O4 O5 O6 O7 O8 O9 O10]. split; try done.
      * rewrite O2. lia.
      * intros Hxp. destruct (O9 Hxp) as (? & q & Hq & Hqb & Hqk). split; [done|].
        destruct (Hfwd _ _ Hq) as (q' & ? & ? & ?). exists q'. split; [done|]. split; congruence.
  - intros b x Hb Hz. destruct (decide (b = l)) as [->|Hbl]; [|apply Hlk' in Hb; [by apply (Hus b)|done]].
    rewrite lookup_insert_eq in Hb. injection Hb as <-. cbn. by apply (Hus l).
  - intros b m Hb. destruct (Hnd b m Hb) as [[y Hy] ?]. destruct (Hfwd _ _ Hy) as (x & ? & _). split; [eauto|].
    rewrite lookup_insert_ne by congruence. done.
  - intros x m Hx'. rewrite lookup_insert in Hx'. destruct (decide (a = x)) as [->|Hne].
    + injection Hx' as <-. split.
      * destruct (Hfwd _ _ Ha) as (x' & ? & ? & _). exists x'. split; [done|congruence].
      * exists le'. rewrite lookup_insert_eq. split; [done|]. cbn. apply elem_of_app. right. by left.
    + destruct (Hqu _ _ Hx') as ((xe & Hxe & Hxk) & me & Hme & Hin). split.
      * destruct (Hfwd _ _ Hxe) as (x' & ? & ? & _). exists x'. split; [done|congruence].
      * rewrite lookup_insert. case_decide as Hm; [|eauto]. subst m. rewrite Hl in Hme. injection Hme as <-.
        exists le'. split; [done|]. cbn. apply elem_of_app. by left.
  - intros m me x Hme Hin. rewrite lookup_insert in Hme. rewrite lookup_insert. case_decide as Hm.
    + injection Hme as <-. subst m. cbn in Hin. apply elem_of_app in Hin as [Hin| ->%list_elem_of_singleton].
      * rewrite decide_False by congruence. by eapply Hpe.
      * by rewrite decide_True.
    + rewrite decide_False; [by eapply Hpe|]. intros ->. pose proof (Hpe _ _ _ Hme Hin). congruence.
  - intros b. destruct (Hxx b) as [? H]. destruct (decide (b = a)) as [->|Hne].
    + rewrite Hxa. split; [lia|]. intros _. destruct (Hfwd _ _ Ha) as (? & ? & _). eauto.
    + rewrite Hxb by done. split; [done|]. intros Hb. destruct (H Hb) as [y Hy]. destruct (Hfwd _ _ Hy) as (? & ? & _). eauto.
  - eapply reg_ok_insert; [done..|]. done.
Qed.

(** The head of a queue taken in hand. *)
Lemma einv_dequeue E B nd qu a rest l le :
  einv E B nd qu no_ex 0 -> E !! l = Some le -> e_pend le = a :: rest ->
  einv (<[l := with_pend rest (e_pend_count le - 1) le]> E) B nd (delete a qu) (add_ex no_ex a 1) 0.
Proof.
  intros Hi Hl Hpd. pose proof Hi as [Hok Hus Hnd Hqu Hpe Hxx Hrg]. pose proof (Hok _ _ Hl) as Ol.
  assert (qu !! a = Some l) as Hqa by (eapply Hpe; [done|]; rewrite Hpd; by left).
  destruct (Hqu _ _ Hqa) as ((ae & Hae & Hak) & _).
  pose proof (o_nodup _ _ _ _ _ _ Ol) as Hnd1. rewrite Hpd in Hnd1. inversion_clear Hnd1 as [|? ? Hni Hnd2].
  set (le' := with_pend _ _ le).
  assert (forall b y, E !! b = Some y -> exists x, (<[l := le']> E) !! b = Some x /\ e_kind x = e_kind y /\ e_peer x = e_peer y) as Hfwd.
  { intros b y Hy. rewrite lookup_insert. case_decide; [subst; rewrite Hl in Hy; injection Hy as <-; eauto|eauto]. }
  split.
  - intros b x Hb.
    assert (hold (delete a qu) b + add_ex no_ex a 1 b = hold qu b) as Hh.
    { unfold hold, add_ex, no_ex. rewrite lookup_delete. destruct (decide (a = b)) as [->|Hne].
      - by rewrite Hqa, Z.eqb_refl.
      - rewrite (proj2 (Z.eqb_neq b a)) by congruence. lia. }
    rewrite lookup_insert in Hb. destruct (decide (l = b)) as [<-|Hbl].
    + injection Hb as <-. destruct Ol as [O1 O2 O3 O4 O5 O6 O7 O8 O9 O10]. rewrite Hpd in *. split; cbn; try done.
      * rewrite O2. assert (no_ex l = 0) by done. lia.
      * rewrite O5, zlen_cons. lia.
      * split; [by apply O6|]. destruct O6 as [_ O6]. rewrite zlen_cons in O6. lia.
      * intros Hx. by specialize (O8 Hx).
      * intros Hxp. destruct (O9 Hxp) as (? & q & Hq & Hqb & Hqk). split; [done|].
        destruct (Hfwd _ _ Hq) as (q' & ? & ? & ?). exists q'. split; [done|]. split; congruence.
    + destruct (Hok _ _ Hb) as [O1 O2 O3 O4 O5 O6 O7 O8 O9 O10]. split; try done.
      * rewrite O2. assert (no_ex b = 0) by done. lia.
      * intros Hxp. destruct (O9 Hxp) as (? & q & Hq & Hqb & Hqk). split; [done|].
        destruct (Hfwd _ _ Hq) as (q' & ? & ? & ?). exists q'. split; [done|]. split; congruence.
  - intros b x Hb Hz. rewrite lookup_insert in Hb. destruct (decide (l = b)) as [<-|Hbl]; [|by apply (Hus b)].
    injection Hb as <-. cbn. by apply (Hus l).
  - intros b m Hb. destruct (Hnd b m Hb) as [[y Hy] ?]. destruct (Hfwd _ _ Hy) as (x & ? & _). split; [eauto|].
    rewrite lookup_delete. by case_decide.
  - intros x m Hx'. rewrite lookup_delete in Hx'. destruct (decide (a = x)) as [->|Hne]; [done|].
    destruct (Hqu _ _ Hx') as ((xe & Hxe & Hxk) & me & Hme & Hin). split.
    + destruct (Hfwd _ _ Hxe) as (x' & ? & ? & _). exists x'. split; [done|congruence].
    + rewrite lookup_insert. case_decide as Hm; [|eauto]. subst m. rewrite Hl in Hme. injection Hme as <-.
      exists le'. split; [done|]. cbn. rewrite Hpd in Hin. by apply elem_of_cons in Hin as [->|Hin].
  - intros m me x Hme Hin. rewrite lookup_insert in Hme. rewrite lookup_delete. destruct (decide (l = m)) as [<-|Hm].
    + injection Hme as <-. cbn in Hin. rewrite decide_False by (by intros ->).
      eapply Hpe; [done|]. rewrite Hpd. by right.
    + rewrite decide_False; [by eapply Hpe|]. intros ->. pose proof (Hpe _ _ _ Hme Hin). congruence.
  - intros b. unfold add_ex, no_ex. destruct (b =? a) eqn:E1; b2p; [subst b|split; lia].
    split; [lia|]. intros _. destruct (Hfwd _ _ Hae) as (? & ? & _). eauto.
  - eapply reg_ok_insert; [done..|]. done.
Qed.
