(* ===== verification/UnixSockSafe.v ===== *)
(** * AF_UNIX sockets: every call keeps the invariant

    The calls of [UnixSock.v] one by one, and sequences of calls. *)
From S2P Require Import Prelude StateM Klib Ring Validate VfsPath UnixSock UnixSockSpec.

#[local] Open Scope Z_scope.

(** ** Creating *)

Lemma fresh_data : data_ok fresh_ep.
Proof.
  split; [|done]. exists []. split; [|done]. apply ring_empty; [done|]. cbn [fresh_ep e_rx].
  rewrite zlen_replicate. done.
Qed.

Lemma refs_small E B nd qu ex z a e :
  einv E B nd qu ex z -> E !! a = Some e -> u32 (e_refs e + 1) = e_refs e + 1.
Proof.
  intros Hi Ha. pose proof (c_ep _ _ _ _ _ _ Hi _ _ Ha) as Oa. pose proof (c_ex _ _ _ _ _ _ Hi a) as [Hx _].
  pose proof (hold_range nd a). pose proof (hold_range qu a). apply u32_small. unfold is_u32.
  rewrite (o_refs _ _ _ _ _ _ Oa). case_if; lia.
Qed.

Lemma insert_bij (N nd : gmap Z Z) n a :
  (forall m b, N !! m = Some b <-> nd !! b = Some m) -> N !! n = None -> nd !! a = None ->
  forall m b, <[n := a]> N !! m = Some b <-> <[a := n]> nd !! b = Some m.
Proof.
  intros Hb Hn Ha m b. rewrite !lookup_insert. destruct (decide (n = m)) as [->|Hnm], (decide (a = b)) as [->|Hab].
  - naive_solver.
  - split; [congruence|]. intros Hx%Hb. congruence.
  - split; [intros Hx%Hb; congruence|congruence].
  - apply Hb.
Qed.

Lemma sock_create_ok s a new type :
  uinv s -> u_eps s !! a = None -> u_nodes s !! new = None ->
  exists s' r, unix_sock_create a new type s = Some (s', r) /\ uinv s'.
Proof.
  intros Hu Ha Hn. pose proof Hu as (nd & qu & Hi & Hb). unfold unix_sock_create, ep_alloc, unix_make_node.
  destruct (negb (type =? SOCK_STREAM)); [by exists s, 0|].
  destruct (a =? 0) eqn:Ea; b2p; [by exists s, 0|].
  set (s1 := set_eps (<[a := fresh_ep]>) s).
  rewrite (run_bind _ _ s s1 a) by done. rewrite (proj2 (Z.eqb_neq a 0)) by done.
  destruct (new =? 0) eqn:En; b2p.
  { rewrite (run_bind _ _ s1 s1 0) by done. cbn [Z.eqb]. eexists _, 0. split; [done|].
    enough (set_eps (delete a) s1 = s) as -> by done. unfold s1, set_eps. cbn. rewrite delete_insert_id by done.
    by destruct s. }
  set (s2 := set_nodes (<[new := a]>) s1).
  set (s3 := set_eps (<[a := with_refs 1 fresh_ep]>) s2).
  rewrite (run_bind _ _ s1 s3 new).
  2:{ rewrite (run_bind _ _ s1 s2 tt) by done. rewrite (run_bind _ _ s2 s3 tt); [done|].
      by rewrite (run_upd _ _ fresh_ep) by apply lookup_insert_eq. }
  rewrite (proj2 (Z.eqb_neq new 0)) by done. eexists _, new. split; [done|].
  destruct (einv_absent _ _ _ _ _ _ _ Hi Ha) as (Hna & _).
  exists (<[a := new]> nd), qu. split.
  - cbn. rewrite insert_insert_eq. eapply (einv_add _ _ nd); try done.
    + apply fresh_data.
    + intros _. rewrite lookup_insert_eq. eauto.
    + intros b Hbb. by rewrite lookup_insert_ne.
    + cbn. by rewrite (hold_Some _ _ new) by apply lookup_insert_eq.
  - cbn. by apply insert_bij.
Qed.

(** The pair of endpoints [unix_socketpair] links. *)
Definition pair_ep (r p : Z) : unix_ep := with_refs r (with_peer p (with_kind UEP_CONN fresh_ep)).

Lemma pair_inv E B nd qu a b :
  einv E B nd qu no_ex 0 -> E !! a = None -> E !! b = None -> a <> b -> a <> 0 -> b <> 0 ->
  einv (<[b := pair_ep 2 a]> (<[a := pair_ep 2 b]> E)) B nd qu (add_ex (add_ex no_ex a 1) b 1) 0.
Proof.
  intros Hi Ha Hb Hab Ha0 Hb0. set (e0 := with_refs 1 (with_kind UEP_CONN fresh_ep)).
  assert (einv (<[a := e0]> E) B nd qu (add_ex no_ex a 1) 0) as Hi1.
  { destruct (einv_absent _ _ _ _ _ _ _ Hi Ha) as (Hna & _).
    eapply (einv_add _ _ nd); try done; [apply fresh_data|intros; by rewrite add_ex_ne|rewrite add_ex_eq; done|].
    rewrite add_ex_eq, (hold_None nd) by done. done. }
  assert (einv (<[b := e0]> (<[a := e0]> E)) B nd qu (add_ex (add_ex no_ex a 1) b 1) 0) as Hi2.
  { assert ((<[a := e0]> E) !! b = None) as Hb1 by (by rewrite lookup_insert_ne).
    destruct (einv_absent _ _ _ _ _ _ _ Hi1 Hb1) as (Hnb & _).
    assert (add_ex (add_ex no_ex a 1) b 1 b = 1) as Hx by (rewrite add_ex_eq, add_ex_ne by done; done).
    eapply (einv_add _ _ nd); try done; [apply fresh_data|intros; by rewrite add_ex_ne|by rewrite Hx|].
    rewrite Hx, (hold_None nd) by done. done. }
  pose proof (einv_link _ _ _ _ _ _ a b e0 e0 Hi2 Hab) as Hi3.
  replace (<[b := pair_ep 2 a]> (<[a := pair_ep 2 b]> E))
    with (<[b := with_refs (e_refs e0 + 1) (with_peer a e0)]> (<[a := with_refs (e_refs e0 + 1) (with_peer b e0)]>
           (<[b := e0]> (<[a := e0]> E)))) by map_same.
  apply Hi3; try done; [|apply lookup_insert_eq]. rewrite lookup_insert_ne by done. apply lookup_insert_eq.
Qed.

(** Outcomes of [alloc_fd] other than a full descriptor table. *)
Definition fdr_ok (r : fd_result) : Prop :=
  match r with FdOk fd => 0 <= fd | FdNoFile => True | FdNoSlot => False end.

Lemma run_alloc_fd r n s : fdr_ok r ->
  exists fd, alloc_fd r n s = Some (s, fd) /\ (r = FdNoFile /\ fd = -1 \/ r = FdOk fd /\ 0 <= fd).
Proof. destruct r as [fd| |]; [exists fd|exists (-1)|]; cbn; [intros; split; [done|by right]|split; [done|by left]|done]. Qed.

(** Two unnamed endpoints without nodes break each other down. *)
Lemma break_dead a b s :
  u_eps s !! a = None -> u_eps s !! b = None -> a <> b -> a <> 0 -> b <> 0 ->
  ep_break a (set_eps (fun E => <[b := pair_ep 1 a]> (<[a := pair_ep 1 b]> E)) s) = Some (s, tt).
Proof.
  intros Ha Hb Hab Ha0 Hb0. set (s1 := set_eps _ s).
  assert (u_eps s1 !! a = Some (pair_ep 1 b)) as Ha1.
  { cbn. rewrite lookup_insert_ne by done. apply lookup_insert_eq. }
  unfold ep_break, DEPTH. rewrite (run_bind _ _ _ _ _ (run_ep_at _ _ _ Ha1)). cbv zeta.
  change (e_peer (pair_ep 1 b)) with b. rewrite (proj2 (Z.eqb_neq b 0)) by done.
  rewrite (run_bind _ _ _ _ _ (run_upd _ _ _ _ Ha1)). set (s2 := set_eps _ s1).
  assert (u_eps s2 !! a = Some (pair_ep 0 0)) as Ha2 by apply lookup_insert_eq.
  rewrite (run_bind _ _ _ _ _ (run_ep_at _ _ _ Ha2)). change (e_refs (pair_ep 0 0) =? 0) with true.
  assert (u_eps s2 !! b = Some (pair_ep 1 a)) as Hb2.
  { cbn. rewrite lookup_insert_ne by done. apply lookup_insert_eq. }
  rewrite (run_bind _ _ _ _ _ (run_upd _ _ _ _ Hb2)). set (s3 := set_eps _ s2).
  assert (u_eps s3 !! b = Some (hang_up (pair_ep 1 a))) as Hb3 by apply lookup_insert_eq.
  rewrite (run_bind _ _ s3 s3 true) by (by rewrite (run_bind _ _ _ _ _ (run_ep_at _ _ _ Hb3))).
  assert (u_eps s3 !! a = Some (pair_ep 0 0)) as Ha3 by (cbn; by rewrite lookup_insert_ne).
  rewrite (run_bind _ _ _ _ _ (destroy_conn _ a _ s3 Ha3 Ha0 eq_refl eq_refl eq_refl eq_refl)).
  set (s4 := gone a _ s3). assert (u_eps s4 !! b = Some (hang_up (pair_ep 1 a))) as Hb4.
  { cbn. rewrite lookup_delete_ne by done. apply lookup_insert_eq. }
  rewrite (destroy_conn _ b _ s4 Hb4 Hb0 eq_refl eq_refl eq_refl eq_refl).
  do 2 f_equal. unfold gone, s4, gone, s3, s2, s1, set_eps, unrefd. cbn. rewrite !app_nil_r.
  destruct s as [E N B F]. cbn in *. f_equal. map_same.
Qed.

Lemma pair_start a b s :
  a <> 0 -> b <> 0 -> a <> b ->
  forall k, (a' ← ep_alloc a; b' ← ep_alloc b;
    if (a' =? 0) || (b' =? 0) then
      (if a' =? 0 then skip else modify (set_eps (delete a'))) ;;
      (if b' =? 0 then skip else modify (set_eps (delete b'))) ;;
      mret (inl (- ENOMEM))
    else
      upd a' (with_kind UEP_CONN) ;; upd b' (with_kind UEP_CONN) ;; ep_link a' b' ;; k a' b' : UM (Z + Z * Z)) s
  = k a b (set_eps (fun E => <[b := pair_ep 1 a]> (<[a := pair_ep 1 b]> E)) s).
Proof.
  intros Ha Hb Hab k. unfold ep_alloc. rewrite (proj2 (Z.eqb_neq a 0)), (proj2 (Z.eqb_neq b 0)) by done.
  set (s1 := set_eps (<[a := fresh_ep]>) s). rewrite (run_bind _ _ s s1 a) by done.
  set (s2 := set_eps (<[b := fresh_ep]>) s1). rewrite (run_bind _ _ s1 s2 b) by done.
  rewrite (proj2 (Z.eqb_neq a 0)), (proj2 (Z.eqb_neq b 0)) by done. cbn [orb].
  assert (u_eps s2 !! a = Some fresh_ep) as H1 by (cbn; rewrite lookup_insert_ne by done; apply lookup_insert_eq).
  rewrite (run_bind _ _ _ _ _ (run_upd _ _ _ _ H1)). set (s3 := set_eps _ s2).
  assert (u_eps s3 !! b = Some fresh_ep) as H2 by (cbn; rewrite lookup_insert_ne by done; apply lookup_insert_eq).
  rewrite (run_bind _ _ _ _ _ (run_upd _ _ _ _ H2)). set (s4 := set_eps _ s3).
  set (ec := with_kind UEP_CONN fresh_ep).
  assert (u_eps s4 !! a = Some ec) as H3 by (cbn; rewrite lookup_insert_ne by done; apply lookup_insert_eq).
  set (s5 := set_eps (fun E => <[b := pair_ep 1 a]> (<[a := pair_ep 1 b]> E)) s).
  rewrite (run_bind _ _ s4 s5 tt); [done|].
  unfold ep_link. rewrite (run_bind _ _ _ _ _ (run_upd _ _ _ _ H3)). set (s6 := set_eps _ s4).
  assert (u_eps s6 !! b = Some ec) as H4 by (cbn; rewrite lookup_insert_ne by done; apply lookup_insert_eq).
  rewrite (run_upd _ _ _ _ H4). do 2 f_equal.
  unfold s6, s5, s4, s3, s2, s1, set_eps. cbn. f_equal. map_same.
Qed.

Lemma run_make_node new ep e s :
  new <> 0 -> u_eps s !! ep = Some e ->
  unix_make_node new ep s =
    Some (set_eps (<[ep := with_refs (u32 (e_refs e + 1)) e]>) (set_nodes (<[new := ep]>) s), new).
Proof.
  intros Hn He. unfold unix_make_node. rewrite (proj2 (Z.eqb_neq new 0)) by done.
  rewrite (run_bind _ _ s (set_nodes (<[new := ep]>) s) tt) by done.
  rewrite (run_bind _ _ _ _ _ (run_upd ep (fun e => with_refs (u32 (e_refs e + 1)) e) e (set_nodes (<[new := ep]>) s) He)).
  done.
Qed.

Lemma run_free_node n a s : u_nodes s !! n = Some a -> free_node n s = Some (set_nodes (delete n) s, tt).
Proof. intros H. unfold free_node. by rewrite (run_bind _ _ _ _ _ (run_priv _ _ _ H)). Qed.

(** Breaking the link of a connected endpoint and dropping its node. *)
Lemma break_put_ok s nd qu n a e :
  einv (u_eps s) (u_bound s) nd qu no_ex 0 -> nd !! a = Some n -> u_eps s !! a = Some e -> e_kind e = UEP_CONN ->
  e_peer e <> 0 ->
  exists s1 s2, ep_break a s = Some (s1, tt) /\ ep_put a s1 = Some (s2, tt) /\
    einv (u_eps s2) (u_bound s2) (delete a nd) qu no_ex 0 /\ u_nodes s2 = u_nodes s.
Proof.
  intros Hi Hn Ha Hk Hp. destruct (close_conn_ok s nd qu no_ex n a e Hi Hn Ha Hk ltac:(done) eq_refl) as (s2 & Hr & ? & ?).
  unfold unix_node_close_conn in Hr. rewrite (run_bind _ _ _ _ _ (run_ep_at _ _ _ Ha)) in Hr.
  rewrite (proj2 (Z.eqb_neq (e_peer e) 0)) in Hr by done.
  apply run_seq_inv in Hr as (s1 & [] & ? & ?). by exists s1, s2.
Qed.

(** The state after both nodes are made. *)
Definition paired (a b na nb : Z) (s : usock) : usock :=
  USock (<[b := pair_ep 2 a]> (<[a := pair_ep 2 b]> (u_eps s))) (<[nb := b]> (<[na := a]> (u_nodes s)))
    (u_bound s) (u_files s).

Lemma paired_uinv s a b na nb :
  uinv s -> u_eps s !! a = None -> u_eps s !! b = None -> a <> b -> a <> 0 -> b <> 0 ->
  u_nodes s !! na = None -> u_nodes s !! nb = None -> na <> nb -> uinv (paired a b na nb s).
Proof.
  intros (nd & qu & Hi & Hbij) Ha Hb Hab Ha0 Hb0 Hna Hnb Hn.
  destruct (einv_absent _ _ _ _ _ _ _ Hi Ha) as (Hnda & Hqa & _).
  destruct (einv_absent _ _ _ _ _ _ _ Hi Hb) as (Hndb & Hqb & _).
  exists (<[b := nb]> (<[a := na]> nd)), qu. split.
  - pose proof (pair_inv _ _ _ _ a b Hi Ha Hb Hab Ha0 Hb0) as Hi1.
    eapply (einv_node _ _ _ _ (add_ex no_ex b 1)).
    + eapply (einv_node _ _ _ _ _ _ _ a na Hi1); try done.
      * rewrite add_ex_ne, add_ex_eq by done. done.
      * rewrite add_ex_ne, (add_ex_ne _ b), add_ex_eq by done. done.
      * intros c Hc. unfold add_ex. by rewrite (proj2 (Z.eqb_neq c a)).
    + by rewrite add_ex_eq.
    + by rewrite lookup_insert_ne.
    + done.
    + by rewrite add_ex_eq.
    + intros c Hc. by rewrite add_ex_ne.
  - cbn. apply insert_bij; [|by rewrite lookup_insert_ne|by rewrite lookup_insert_ne]. by apply insert_bij.
Qed.

(** The state when only the first node could be made. *)
Definition half_paired (a b na : Z) (s : usock) : usock :=
  USock (<[b := pair_ep 1 a]> (<[a := pair_ep 2 b]> (u_eps s))) (<[na := a]> (u_nodes s)) (u_bound s) (u_files s).

Lemma half_paired_uinv s a b na :
  uinv s -> u_eps s !! a = None -> u_eps s !! b = None -> a <> b -> a <> 0 -> b <> 0 ->
  u_nodes s !! na = None -> uinv (half_paired a b na s).
Proof.
  intros (nd & qu & Hi & Hbij) Ha Hb Hab Ha0 Hb0 Hna.
  destruct (einv_absent _ _ _ _ _ _ _ Hi Ha) as (Hnda & Hqa & _).
  exists (<[a := na]> nd), qu. split; [|by apply insert_bij].
  pose proof (pair_inv _ _ _ _ a b Hi Ha Hb Hab Ha0 Hb0) as Hi1.
  assert (einv (<[b := pair_ep 1 a]> (<[a := pair_ep 2 b]> (u_eps s))) (u_bound s) nd qu (add_ex no_ex a 1) 0) as Hi2.
  { rewrite <- (insert_insert_eq _ b (pair_ep 1 a) (pair_ep 2 a)).
    eapply einv_refs; [exact Hi1|apply lookup_insert_eq|done|apply fresh_data|done|..].
    - rewrite add_ex_eq, !add_ex_ne by done. done.
    - done.
    - by rewrite add_ex_ne.
    - intros c Hc. by rewrite (add_ex_ne _ b). }
  eapply einv_node; [exact Hi2|by rewrite add_ex_eq|done|done|by rewrite add_ex_eq|].
  intros c Hc. by rewrite add_ex_ne.
Qed.

(** An endpoint could not be allocated. *)
Lemma pair_no_ep s a b na nb ra rb :
  u_eps s !! a = None -> u_eps s !! b = None -> a <> b -> a = 0 \/ b = 0 ->
  unix_socketpair a b na nb ra rb SOCK_STREAM s = Some (s, inl (- ENOMEM)).
Proof.
  intros Ha Hb Hab Hz. unfold unix_socketpair, ep_alloc. cbn [Z.eqb negb SOCK_STREAM Pos.eqb].
  assert (forall x, u_eps s !! x = None -> set_eps (delete x) (set_eps (<[x := fresh_ep]>) s) = s) as Hid.
  { intros x Hx. unfold set_eps. cbn. rewrite delete_insert_eq, delete_id by done. by destruct s. }
  destruct Hz as [-> | ->].
  - rewrite (run_bind _ _ s s 0) by done. rewrite (proj2 (Z.eqb_neq b 0)) by done.
    rewrite (run_bind _ _ s (set_eps (<[b := fresh_ep]>) s) b) by done. cbn [Z.eqb orb].
    rewrite (run_bind _ _ _ (set_eps (<[b := fresh_ep]>) s) tt) by done.
    rewrite (proj2 (Z.eqb_neq b 0)) by done. rewrite (run_bind _ _ _ s tt); [done|]. unfold modify. by rewrite Hid.
  - rewrite (proj2 (Z.eqb_neq a 0)) by done.
    rewrite (run_bind _ _ s (set_eps (<[a := fresh_ep]>) s) a) by done.
    rewrite (run_bind _ _ _ (set_eps (<[a := fresh_ep]>) s) 0) by done.
    rewrite (proj2 (Z.eqb_neq a 0)) by done. cbn [Z.eqb orb].
    rewrite (run_bind _ _ _ s tt); [done|]. unfold modify. by rewrite Hid.
Qed.

(** A node could not be allocated. *)
Lemma pair_no_node s a b na nb ra rb :
  uinv s -> u_eps s !! a = None -> u_eps s !! b = None -> a <> b -> a <> 0 -> b <> 0 -> u_nodes s !! na = None ->
  na = 0 \/ nb = 0 ->
  exists s' r, unix_socketpair a b na nb ra rb SOCK_STREAM s = Some (s', r) /\ uinv s'.
Proof.
  intros Hu Ha Hb Hab Ea Eb Hna Hz. unfold unix_socketpair. cbn [Z.eqb negb SOCK_STREAM Pos.eqb].
  rewrite (pair_start a b s Ea Eb Hab (fun a b => _)). set (s1 := set_eps _ s).
  destruct (na =? 0) eqn:Ena; b2p.
  { subst na. unfold unix_make_node at 1. cbn [Z.eqb]. rewrite (run_bind _ _ s1 s1 0) by done.
    rewrite (run_bind _ _ s1 s1 0) by done. cbn [Z.eqb orb].
    rewrite (run_bind _ _ _ _ _ (break_dead a b s Ha Hb Hab Ea Eb)). by eexists s, _. }
  destruct Hz as [?| ->]; [done|].
  assert (u_eps s1 !! a = Some (pair_ep 1 b)) as Ha1 by (cbn; rewrite lookup_insert_ne by done; apply lookup_insert_eq).
  rewrite (run_bind _ _ _ _ _ (run_make_node na a _ s1 Ena Ha1)). set (s2 := set_eps _ (set_nodes _ s1)).
  rewrite (proj2 (Z.eqb_neq na 0)) by done. unfold unix_make_node. cbn [Z.eqb]. rewrite (run_bind _ _ s2 s2 0) by done.
  cbn [Z.eqb orb].
  assert (s2 = half_paired a b na s) as -> by (unfold s2, s1, half_paired, set_eps, set_nodes; cbn; f_equal; map_same).
  pose proof (half_paired_uinv s a b na Hu Ha Hb Hab Ea Eb Hna) as (nd & qu & Hi & Hbij).
  assert (u_nodes (half_paired a b na s) !! na = Some a) as Hn1 by apply lookup_insert_eq.
  destruct (break_put_ok _ nd qu na a (pair_ep 2 b) Hi) as (s3 & s4 & H3 & H4 & Hi4 & Hn4);
    [by apply Hbij|cbn; rewrite lookup_insert_ne by done; apply lookup_insert_eq|done|done|].
  rewrite (run_bind _ _ _ _ _ H3), (run_bind _ _ s3 (set_nodes (delete na) s4) tt).
  2:{ rewrite (run_bind _ _ _ _ _ H4). apply (run_free_node na a). by rewrite Hn4. }
  rewrite (run_bind _ _ _ (set_nodes (delete na) s4) tt) by done.
  eexists _, _. split; [done|]. exists (delete a nd), qu. split; [done|]. cbn. rewrite Hn4. by apply delete_bij.
Qed.

(** The descriptors of a pair whose nodes are made. *)
Definition pair_fds (na nb : Z) (ra rb : fd_result) : UM (Z + Z * Z) :=
  fa ← alloc_fd ra na;
  if fa <? 0 then unix_node_close na ;; unix_node_close nb ;; mret (inl (- EMFILE))
  else
    fb ← alloc_fd rb nb;
    if fb <? 0 then unix_node_close nb ;; unix_node_close na ;; mret (inl (- EMFILE)) else mret (inr (fa, fb)).

Lemma pair_made s a b na nb ra rb :
  a <> b -> a <> 0 -> b <> 0 -> na <> 0 -> nb <> 0 ->
  unix_socketpair a b na nb ra rb SOCK_STREAM s = pair_fds na nb ra rb (paired a b na nb s).
Proof.
  intros Hab Ea Eb Ena Enb. unfold unix_socketpair. cbn [Z.eqb negb SOCK_STREAM Pos.eqb].
  rewrite (pair_start a b s Ea Eb Hab (fun a b => _)). set (s1 := set_eps _ s).
  assert (u_eps s1 !! a = Some (pair_ep 1 b)) as Ha1 by (cbn; rewrite lookup_insert_ne by done; apply lookup_insert_eq).
  rewrite (run_bind _ _ _ _ _ (run_make_node na a _ s1 Ena Ha1)). set (s2 := set_eps _ (set_nodes _ s1)).
  rewrite (proj2 (Z.eqb_neq na 0)) by done.
  assert (u_eps s2 !! b = Some (pair_ep 1 a)) as Hb2.
  { cbn. rewrite lookup_insert_ne by done. apply lookup_insert_eq. }
  rewrite (run_bind _ _ _ _ _ (run_make_node nb b _ s2 Enb Hb2)). set (s3 := set_eps _ (set_nodes _ s2)).
  assert (s3 = paired a b na nb s) as ->
    by (unfold s3, s2, s1, paired, set_eps, set_nodes; cbn; f_equal; map_same).
  by rewrite (proj2 (Z.eqb_neq nb 0)) by done.
Qed.

Lemma socketpair_ok s a b na nb ra rb type :
  uinv s -> u_eps s !! a = None -> u_eps s !! b = None -> a <> b -> u_nodes s !! na = None ->
  u_nodes s !! nb = None -> na <> nb -> fdr_ok ra -> fdr_ok rb ->
  exists s' r, unix_socketpair a b na nb ra rb type s = Some (s', r) /\ uinv s'.
Proof.
  intros Hu Ha Hb Hab Hna Hnb Hn Hra Hrb. destruct (decide (type = SOCK_STREAM)) as [->|Ht].
  2:{ unfold unix_socketpair. rewrite (proj2 (Z.eqb_neq type SOCK_STREAM)) by done. by eexists s, _. }
  destruct (decide (a = 0 \/ b = 0)) as [Hz|Hz]; [rewrite pair_no_ep by done; by eexists s, _|].
  destruct (decide (na = 0 \/ nb = 0)) as [Hy|Hy]; [apply pair_no_node; tauto|].
  rewrite pair_made by tauto. pose proof (paired_uinv s a b na nb Hu Ha Hb Hab ltac:(tauto) ltac:(tauto) Hna Hnb Hn) as Hp.
  set (sp := paired a b na nb s) in *. unfold pair_fds.
  assert (is_Some (u_nodes sp !! nb)) as Hnb1 by (cbn; rewrite lookup_insert_eq; eauto).
  assert (is_Some (u_nodes sp !! na)) as Hna1 by (cbn; rewrite lookup_insert_ne by done; rewrite lookup_insert_eq; eauto).
  assert (forall x y : Z, x <> y -> is_Some (u_nodes sp !! x) -> is_Some (u_nodes sp !! y) ->
    exists s', (unix_node_close x ;; unix_node_close y ;; mret (inl (- EMFILE)) : UM (Z + Z * Z)) sp
      = Some (s', inl (- EMFILE)) /\ uinv s') as Hclose.
  { intros x y Hxy Hx Hy'. destruct (node_close_ok sp x Hp Hx) as (s4 & H4 & Hu4 & Hn4).
    destruct (node_close_ok s4 y Hu4) as (s5 & H5 & Hu5 & _); [rewrite Hn4; by rewrite lookup_delete_ne|].
    rewrite (run_bind _ _ _ _ _ H4), (run_bind _ _ _ _ _ H5). eauto. }
  destruct (run_alloc_fd ra na sp Hra) as (fa & Hfa & Hca). rewrite (run_bind _ _ _ _ _ Hfa).
  destruct (fa <? 0) eqn:Efa; b2p; [destruct (Hclose na nb Hn Hna1 Hnb1) as (s' & -> & ?); eauto|].
  destruct (run_alloc_fd rb nb sp Hrb) as (fb & Hfb & Hcb). rewrite (run_bind _ _ _ _ _ Hfb).
  destruct (fb <? 0) eqn:Efb; b2p; [|eauto]. destruct (Hclose nb na) as (s' & -> & ?); eauto.
Qed.

(** ** Names *)

Lemma has_nul (m : mem) : 0 ∈ m -> exists t, cstr m t.
Proof.
  induction m as [|c m IH]; intros Hin; [by apply not_elem_of_nil in Hin|].
  destruct (decide (c = 0)) as [->|Hc]; [exists []; split; [by exists m|constructor]|].
  apply elem_of_cons in Hin as [?|Hin]; [congruence|]. destruct (IH Hin) as (t & [[r ->] Ht]).
  exists (c :: t). split; [by exists r|by constructor].
Qed.

(** A working directory is a string. *)
Definition cwd_ok (cwd : option mem) : Prop := match cwd with Some c => exists w, cstr c w | None => True end.

Lemma cstr_copied (dst : mem) t k :
  Forall (fun c => c <> 0) t -> cstr (splice 0 (take k t ++ [0]) dst) (take k t).
Proof.
  intros Ht. rewrite splice_0, <- app_assoc. split; [by eexists|]. by apply Forall_take.
Qed.

Lemma canon_ok cwd path :
  cwd_ok cwd -> zlen path = UNIX_PATH_MAX ->
  exists canon r, canon_arg cwd path = Some (canon, r) /\ (r < 0 \/ exists t, cstr canon t).
Proof.
  intros Hc Hl. unfold canon_arg, UNIX_PATH_MAX in *. rewrite st_in by lia. sb.
  set (p := <[Z.to_nat (108 - 1) := 0]> path). assert (zlen p = 108) as Hp by (by rewrite <- Hl; apply zlen_insert).
  destruct (has_nul p) as [t Ht].
  { apply (list_elem_of_lookup_2 _ 107). apply list_lookup_insert_eq. unfold zlen in Hl. lia. }
  unfold unix_path_canon. destruct (ld_in p 0) as [c0 ->]; [lia|]. sb. destruct (c0 =? 0).
  { destruct (ld_in p 1) as [c1 ->]; [lia|]. sb. eexists _, _. split; [done|]. left. by case_if. }
  destruct cwd as [cwd|].
  - destruct Hc as [w Hw]. destruct (make_abs_ok cwd w p t (replicate 512 0) Hw Ht) as (abs & -> & Ha & _); [done|].
    sb. eexists _, _. split; [done|]. right. eauto.
  - rewrite (bounded_copy_ok p t 0 512 (replicate 512 0) Ht); [|lia|done]. sb. eexists _, _. split; [done|]. right.
    eexists. apply cstr_copied, Ht.
Qed.

Lemma bound_find_ok path t : forall l,
  cstr path t -> (forall i b, l !! i = Some b -> b_used b = true -> exists u, cstr (b_path b) u) ->
  exists r, bound_find l path = Some r /\
    forall ep, r = Some ep -> exists i b, l !! i = Some b /\ b_used b = true /\ b_ep b = ep.
Proof.
  induction l as [|b l IH]; intros Ht Hl; [exists None; split; [done|]; done|].
  destruct IH as (r & Hr & Hx); [done|intros i; apply (Hl (S i))|].
  assert (forall ep, r = Some ep -> exists i c, (b :: l) !! i = Some c /\ b_used c = true /\ b_ep c = ep) as Hx'.
  { intros ep He. destruct (Hx ep He) as (i & c & ?). by exists (S i), c. }
  cbn [bound_find]. destruct (b_used b) eqn:Hu; cbn [negb]; [|by exists r].
  destruct (Hl 0%nat b eq_refl Hu) as [u Hcu]. rewrite (streq_ok _ _ _ _ Hcu Ht). sb.
  case_bool_decide; [|by exists r]. exists (Some (b_ep b)). split; [done|]. intros ep [= <-]. by exists 0%nat, b.
Qed.

Lemma bound_fill_ok path t ep : forall l,
  cstr path t -> (forall i b, l !! i = Some b -> zlen (b_path b) = UNIX_PATH_MAX) ->
  exists r, bound_fill l path ep = Some r /\
    forall l', r = Some l' -> exists i b p, l !! i = Some b /\ b_used b = false /\ l' = <[i := Bound true p ep]> l /\
      cstr p (take 107 t) /\ zlen p = UNIX_PATH_MAX.
Proof.
  induction l as [|b l IH]; intros Ht Hl; [exists None; split; [done|]; done|].
  cbn [bound_fill]. destruct (b_used b) eqn:Hu; cbn [negb].
  - destruct IH as (r & -> & Hx); [done|intros i; apply (Hl (S i))|]. sb.
    eexists. split; [done|]. intros l' Hl'. destruct r as [l0|]; [|done]. injection Hl' as <-.
    destruct (Hx l0 eq_refl) as (i & c & p & H1 & H2 & -> & H4 & H5). exists (S i), c, p. by split_and!.
  - pose proof (Hl 0%nat b eq_refl) as Hlen. unfold UNIX_PATH_MAX in *.
    rewrite (bounded_copy_ok path t 0 108 (b_path b) Ht) by lia. sb. eexists. split; [done|].
    intros l' [= <-]. eexists 0%nat, b, _. split; [done|]. split; [done|]. split; [done|].
    split; [apply cstr_copied, Ht|]. rewrite zlen_splice; [done|lia|].
    unfold zlen in *. rewrite length_app, length_take. cbn [length]. lia.
Qed.

Lemma bind_ok s cwd ep e arg :
  uinv s -> u_eps s !! ep = Some e -> cwd_ok cwd ->
  match arg with UVal p => zlen p = UNIX_PATH_MAX | _ => True end ->
  exists s' r, unix_bind_ioctl cwd ep arg s = Some (s', r) /\ uinv s'.
Proof.
  intros Hu He Hc Harg. pose proof Hu as (nd & qu & Hi & Hbij). unfold unix_bind_ioctl.
  rewrite (run_bind _ _ _ _ _ (run_ep_at _ _ _ He)). case_bool_decide as Hk; cbn [negb]; [|eauto].
  destruct arg as [| |path]; [eauto..|]. destruct (canon_ok cwd path Hc Harg) as (canon & r & Hcan & Hr).
  rewrite (run_bind _ _ s s (canon, r)) by (unfold lift; by rewrite Hcan). cbv beta iota.
  destruct (r <? 0) eqn:Er; b2p; [eauto|]. destruct Hr as [?|[t Ht]]; [lia|].
  destruct (ld_in canon 0) as [c Hc0]; [destruct Ht as [[rest ->] _]; rewrite zlen_app, zlen_cons;
    pose proof (zlen_nonneg t); pose proof (zlen_nonneg rest); lia|].
  rewrite (run_bind _ _ s s c) by (unfold lift; by rewrite Hc0). destruct (negb (c =? SLASH)); [eauto|].
  pose proof (c_reg _ _ _ _ _ _ Hi) as [G1 G2 G3].
  destruct (bound_find_ok canon t (u_bound s) Ht) as (fr & Hfr & _); [intros i b Hb; apply (G3 i b Hb)|].
  destruct (bound_fill_ok canon t ep (u_bound s) Ht) as (fl & Hfl & Hfill); [intros i b Hb; apply (G3 i b Hb)|].
  assert (forall x, unix_bound_insert canon ep s = x -> x = Some (s, - EADDRINUSE) \/
    exists l, fl = Some l /\ x = Some (set_bound l s, 0)) as Hins.
  { intros x <-. unfold unix_bound_insert. rewrite (run_bind _ _ s s (u_bound s)) by done.
    rewrite (run_bind _ _ s s fr) by (unfold lift; by rewrite Hfr). destruct fr; [by left|].
    rewrite (run_bind _ _ s s fl) by (unfold lift; by rewrite Hfl). destruct fl as [l|]; [right|by left].
    by exists l. }
  destruct (Hins _ eq_refl) as [Hx|(l & -> & Hx)]; rewrite (run_bind _ _ _ _ _ Hx); [eauto|].
  change (0 <? 0) with false. cbv iota.
  rewrite (run_bind _ _ _ _ _ (run_upd ep (with_kind UEP_BOUND) e (set_bound l s) He)).
  eexists _, 0. split; [done|]. exists nd, qu. split; [|done]. cbn.
  destruct (Hfill l eq_refl) as (i & b & p & Hb & Hbu & -> & Hp & Hpl).
  assert (forall j c, u_bound s !! j = Some c -> b_used c = true -> b_ep c <> ep) as Hfree.
  { intros j x Hx1 Hx2 E1. destruct (G1 j x Hx1 Hx2) as (y & Hy & Hn). rewrite E1, He in Hy. injection Hy as <-.
    unfold is_named in Hn. rewrite Hk in Hn. by destruct Hn. }
  assert (einv (<[ep := with_kind UEP_BOUND e]> (u_eps s)) (u_bound s) nd qu no_ex 0) as Hi1.
  { apply einv_kind; [done|done|by rewrite Hk| |by left].
    apply (o_listen _ _ _ _ _ _ (c_ep _ _ _ _ _ _ Hi _ _ He)). by rewrite Hk. }
  eapply einv_bound; [exact Hi1|]. pose proof (c_reg _ _ _ _ _ _ Hi1) as [G1' _ _].
  assert (forall j c, <[i := Bound true p ep]> (u_bound s) !! j = Some c ->
    (j = i /\ c = Bound true p ep) \/ (j <> i /\ u_bound s !! j = Some c)) as Hl.
  { intros j x. destruct (decide (j = i)) as [->|Hne].
    - rewrite list_lookup_insert_eq by (by eapply lookup_lt_Some). intros [= <-]. by left.
    - rewrite list_lookup_insert_ne by done. by right. }
  split.
  - intros j x Hx1 Hx2. destruct (Hl _ _ Hx1) as [[_ ->]|[_ Hx3]]; [|by apply (G1' j)].
    exists (with_kind UEP_BOUND e). cbn. rewrite lookup_insert_eq. split; [done|by left].
  - intros j k x y Hx1 Hy1 Hx2 Hy2 E1.
    destruct (Hl _ _ Hx1) as [[-> ->]|[_ Hx3]], (Hl _ _ Hy1) as [[-> ->]|[_ Hy3]]; try done.
    + exfalso. by apply (Hfree k y Hy3 Hy2).
    + exfalso. by apply (Hfree j x Hx3 Hx2).
    + by apply (G2 j k x y).
  - intros j x Hx1. destruct (Hl _ _ Hx1) as [[_ ->]|[_ Hx3]]; [|by apply (G3 j)]. cbn. split; [done|eauto].
Qed.

Lemma listen_ok s ep e :
  uinv s -> u_eps s !! ep = Some e -> exists s' r, unix_listen_ioctl ep s = Some (s', r) /\ uinv s'.
Proof.
  intros Hu He. pose proof Hu as (nd & qu & Hi & Hbij). unfold unix_listen_ioctl.
  rewrite (run_bind _ _ _ _ _ (run_ep_at _ _ _ He)). case_bool_decide as Hk; cbn [negb]; [|eauto].
  rewrite (run_bind _ _ _ _ _ (run_upd _ _ _ _ He)). eexists _, 0. split; [done|]. exists nd, qu. split; [|done].
  apply einv_kind; [done|done|by rewrite Hk| |by right].
  apply (o_listen _ _ _ _ _ _ (c_ep _ _ _ _ _ _ Hi _ _ He)). by rewrite Hk.
Qed.

(** ** Connecting *)

(** The reference taken by the lookup is given back. *)
Lemma put_back s nd qu l N :
  einv (u_eps s) (u_bound s) nd qu (add_ex no_ex l 1) 0 -> l <> 0 -> u_nodes s = N ->
  (forall n a, N !! n = Some a <-> nd !! a = Some n) ->
  exists s', ep_put l s = Some (s', tt) /\ uinv s'.
Proof.
  intros Hi Hl Hn Hb. unfold ep_put, DEPTH.
  destruct (put_ok 3 _ _ _ no_ex 0 l s Hi) as (s' & -> & Hi' & Hn' & _);
    [by rewrite add_ex_eq|done|by rewrite add_ex_eq|intros; by rewrite add_ex_ne|].
  exists s'. split; [done|]. exists nd, qu. split; [done|]. by rewrite Hn', Hn.
Qed.

(** What the connect does once the listener is found and has room. *)
Lemma connect_inv E B nd qu c ce l le new :
  einv E B nd qu (add_ex no_ex l 1) 0 -> E !! c = Some ce -> e_kind ce = UEP_NONE -> E !! l = Some le ->
  e_kind le = UEP_LISTEN -> zlen (e_pend le) < UNIX_BACKLOG -> E !! new = None -> new <> 0 ->
  einv (<[l := with_pend (e_pend le ++ [new]) (e_pend_count le + 1) le]>
         (<[c := with_refs (e_refs ce + 1) (with_peer new (with_kind UEP_CONN ce))]> (<[new := pair_ep 2 c]> E)))
    B nd (<[new := l]> qu) (add_ex no_ex l 1) 0.
Proof.
  intros Hi Hc Hck Hl Hlk Hlen Hnew Hn0. assert (new <> c /\ new <> l /\ c <> l) as (Hnc & Hnl & Hcl) by (split_and!; congruence).
  destruct (einv_absent _ _ _ _ _ _ _ Hi Hnew) as (Hndn & Hqn & Hxn & _).
  set (e0 := with_refs 1 (with_kind UEP_CONN fresh_ep)). set (ex1 := add_ex (add_ex no_ex l 1) new 1).
  assert (ex1 new = 1) as Hx1 by (unfold ex1; rewrite add_ex_eq, Hxn; done).
  assert (einv (<[new := e0]> E) B nd qu ex1 0) as Hi1.
  { eapply (einv_add _ _ nd); try done; [apply fresh_data|intros; unfold ex1; by rewrite add_ex_ne|by rewrite Hx1|].
    by rewrite Hx1, (hold_None nd). }
  assert (einv (<[c := with_kind UEP_CONN ce]> (<[new := e0]> E)) B nd qu ex1 0) as Hi2.
  { apply einv_kind; [done|by rewrite lookup_insert_ne|by rewrite Hck| |].
    - apply (o_listen _ _ _ _ _ _ (c_ep _ _ _ _ _ _ Hi _ _ Hc)). by rewrite Hck.
    - unfold is_named. rewrite Hck. by intros [|]. }
  pose proof (einv_link _ _ _ _ _ _ new c e0 (with_kind UEP_CONN ce) Hi2 Hnc) as Hi3.
  assert (e_peer ce = 0) as Hpc by (apply (o_conn _ _ _ _ _ _ (c_ep _ _ _ _ _ _ Hi _ _ Hc)); by rewrite Hck).
  specialize (Hi3 ltac:(rewrite lookup_insert_ne by done; apply lookup_insert_eq) ltac:(apply lookup_insert_eq)
    eq_refl eq_refl eq_refl Hpc).
  match type of Hi3 with einv ?M _ _ _ _ _ => set (E3 := M) in * end.
  assert (E3 !! new = Some (pair_ep 2 c)) as Ln.
  { unfold E3. rewrite lookup_insert_ne by done. apply lookup_insert_eq. }
  assert (E3 !! l = Some le) as Ll by (unfold E3; by rewrite !lookup_insert_ne).
  pose proof (einv_enqueue _ _ _ _ _ (add_ex no_ex l 1) new _ l le Hi3 Ln eq_refl Hndn Hqn ltac:(lia) Ll Hlk Hlen
    ltac:(rewrite add_ex_ne, Hx1 by done; done) ltac:(intros; unfold ex1; by rewrite (add_ex_ne _ new))) as Hi4.
  replace (<[c := with_refs (e_refs ce + 1) (with_peer new (with_kind UEP_CONN ce))]> (<[new := pair_ep 2 c]> E))
    with E3; [exact Hi4|]. unfold E3. map_same.
Qed.

Lemma pend_small E B nd qu ex z l le :
  einv E B nd qu ex z -> E !! l = Some le -> u32 (e_pend_count le + 1) = e_pend_count le + 1 /\
  e_pend_count le = zlen (e_pend le) /\ u32 (e_backlog le) = UNIX_BACKLOG.
Proof.
  intros Hi Hl. pose proof (c_ep _ _ _ _ _ _ Hi _ _ Hl) as Ol. pose proof (o_count _ _ _ _ _ _ Ol) as Hc.
  destruct (o_backlog _ _ _ _ _ _ Ol) as [-> Hb]. pose proof (zlen_nonneg (e_pend le)). unfold UNIX_BACKLOG in *.
  split_and!; [apply u32_small; unfold is_u32; lia|done|done].
Qed.

Lemma connect_tail s nd qu c ce l le new :
  einv (u_eps s) (u_bound s) nd qu (add_ex no_ex l 1) 0 -> l <> 0 ->
  (forall n a, u_nodes s !! n = Some a <-> nd !! a = Some n) ->
  u_eps s !! c = Some ce -> e_kind ce = UEP_NONE -> u_eps s !! l = Some le -> e_kind le = UEP_LISTEN ->
  zlen (e_pend le) < UNIX_BACKLOG -> u_eps s !! new = None ->
  exists s' r, (srv ← ep_alloc new;
    if srv =? 0 then ep_put l ;; mret (- ENOMEM)
    else
      upd srv (with_kind UEP_CONN) ;; ep_link srv c ;; upd c (with_kind UEP_CONN) ;;
      upd l (fun l => with_pend (e_pend l ++ [srv]) (u32 (e_pend_count l + 1)) l) ;;
      upd srv (fun e => with_refs (u32 (e_refs e + 1)) e) ;;
      ep_put l ;; mret 0 : UM Z) s = Some (s', r) /\ uinv s'.
Proof.
  intros Hi Hl0 Hbij Hc Hck Hl Hlk Hlen Hnew. unfold ep_alloc. destruct (new =? 0) eqn:En; b2p.
  { rewrite (run_bind _ _ s s 0) by done. cbn [Z.eqb].
    destruct (put_back s nd qu l _ Hi Hl0 eq_refl Hbij) as (s' & Hp & Hu). rewrite (run_bind _ _ _ _ _ Hp). eauto. }
  assert (new <> c /\ new <> l /\ c <> l) as (Hnc & Hnl & Hcl) by (split_and!; congruence).
  pose proof (connect_inv _ _ _ _ c ce l le new Hi Hc Hck Hl Hlk Hlen Hnew En) as Hi'.
  destruct (pend_small _ _ _ _ _ _ _ _ Hi Hl) as (Hps & _ & _). pose proof (refs_small _ _ _ _ _ _ _ _ Hi Hc) as Hcr.
  set (s1 := set_eps (<[new := fresh_ep]>) s). rewrite (run_bind _ _ s s1 new) by done.
  rewrite (proj2 (Z.eqb_neq new 0)) by done.
  assert (u_eps s1 !! new = Some fresh_ep) as L1 by apply lookup_insert_eq.
  rewrite (run_bind _ _ _ _ _ (run_upd _ _ _ _ L1)). set (s2 := set_eps _ s1).
  assert (u_eps s2 !! new = Some (with_kind UEP_CONN fresh_ep)) as L2 by apply lookup_insert_eq.
  assert (exists s3, ep_link new c s2 = Some (s3, tt) /\ u_eps s3 = <[c := with_refs (e_refs ce + 1) (with_peer new ce)]>
     (<[new := pair_ep 1 c]> (u_eps s)) /\ u_nodes s3 = u_nodes s /\ u_bound s3 = u_bound s) as (s3 & H3 & E3 & N3 & B3).
  { unfold ep_link. rewrite (run_bind _ _ _ _ _ (run_upd _ _ _ _ L2)). set (s3 := set_eps _ s2).
    assert (u_eps s3 !! c = Some ce) as L3 by (cbn; by rewrite !lookup_insert_ne).
    rewrite (run_upd _ _ _ _ L3). eexists. split; [done|]. cbn. rewrite Hcr. split; [|done]. map_same. }
  rewrite (run_bind _ _ _ _ _ H3).
  assert (u_eps s3 !! c = Some (with_refs (e_refs ce + 1) (with_peer new ce))) as L3 by (rewrite E3; apply lookup_insert_eq).
  rewrite (run_bind _ _ _ _ _ (run_upd _ _ _ _ L3)). set (s4 := set_eps _ s3).
  assert (u_eps s4 !! l = Some le) as L4 by (cbn; rewrite lookup_insert_ne, E3 by done; by rewrite !lookup_insert_ne).
  rewrite (run_bind _ _ _ _ _ (run_upd _ _ _ _ L4)). rewrite Hps. set (s5 := set_eps _ s4).
  assert (u_eps s5 !! new = Some (pair_ep 1 c)) as L5.
  { cbn. rewrite !lookup_insert_ne, E3 by done. rewrite lookup_insert_ne by done. apply lookup_insert_eq. }
  rewrite (run_bind _ _ _ _ _ (run_upd _ _ _ _ L5)). set (s6 := set_eps _ s5).
  assert (u_eps s6 = <[l := with_pend (e_pend le ++ [new]) (e_pend_count le + 1) le]>
         (<[c := with_refs (e_refs ce + 1) (with_peer new (with_kind UEP_CONN ce))]> (<[new := pair_ep 2 c]> (u_eps s)))) as E6.
  { unfold s6, s5, s4. cbn. rewrite E3. map_same. }
  destruct (put_back s6 nd (<[new := l]> qu) l (u_nodes s)) as (s' & Hp & Hu);
    [rewrite E6; cbn; rewrite B3; exact Hi'|done|done|done|].
  rewrite (run_bind _ _ _ _ _ Hp). eauto.
Qed.

Lemma connect_ok s cwd new ep e arg :
  uinv s -> u_eps s !! ep = Some e -> cwd_ok cwd -> u_eps s !! new = None ->
  match arg with UVal p => zlen p = UNIX_PATH_MAX | _ => True end ->
  exists s' r, unix_connect_ioctl cwd new ep arg s = Some (s', r) /\ uinv s'.
Proof.
  intros Hu He Hc Hnew Harg. pose proof Hu as (nd & qu & Hi & Hbij). unfold unix_connect_ioctl.
  rewrite (run_bind _ _ _ _ _ (run_ep_at _ _ _ He)). case_bool_decide as Hk; cbn [negb]; [|eauto].
  destruct arg as [| |path]; [eauto..|]. destruct (canon_ok cwd path Hc Harg) as (canon & r & Hcan & Hr).
  rewrite (run_bind _ _ s s (canon, r)) by (unfold lift; by rewrite Hcan). cbv beta iota.
  destruct (r <? 0) eqn:Er; b2p; [eauto|]. destruct Hr as [?|[t Ht]]; [lia|].
  pose proof (c_reg _ _ _ _ _ _ Hi) as [G1 G2 G3].
  destruct (bound_find_ok canon t (u_bound s) Ht) as (fr & Hfr & Hfound); [intros i b Hb; apply (G3 i b Hb)|].
  assert (unix_bound_lookup canon s = Some (s, 0) \/ exists l le, u_eps s !! l = Some le /\ is_named le /\ l <> 0 /\
    unix_bound_lookup canon s = Some (set_eps (<[l := with_refs (e_refs le + 1) le]>) s, l)) as Hlk.
  { unfold unix_bound_lookup. rewrite (run_bind _ _ s s (u_bound s)) by done.
    rewrite (run_bind _ _ s s fr) by (unfold lift; by rewrite Hfr). destruct fr as [l|]; [|by left].
    destruct (Hfound l eq_refl) as (i & b & Hb & Hbu & <-). destruct (G1 i b Hb Hbu) as (le & Hle & Hnm).
    pose proof (o_nz _ _ _ _ _ _ (c_ep _ _ _ _ _ _ Hi _ _ Hle)) as Hz. right. exists (b_ep b), le.
    split_and!; try done. rewrite (proj2 (Z.eqb_neq (b_ep b) 0)) by done.
    rewrite (run_bind _ _ _ _ _ (run_ep_at _ _ _ Hle)), (c_used _ _ _ _ _ _ Hi _ _ Hle Hz).
    rewrite (run_bind _ _ _ _ _ (run_upd _ _ _ _ Hle)). by rewrite (refs_small _ _ _ _ _ _ _ _ Hi Hle). }
  destruct Hlk as [Hlk|(l & le & Hle & Hnm & Hl0 & Hlk)]; rewrite (run_bind _ _ _ _ _ Hlk); [cbn [Z.eqb]; eauto|].
  rewrite (proj2 (Z.eqb_neq l 0)) by done. set (s1 := set_eps _ s).
  assert (einv (u_eps s1) (u_bound s1) nd qu (add_ex no_ex l 1) 0) as Hi1.
  { pose proof (c_ep _ _ _ _ _ _ Hi _ _ Hle) as Ol. pose proof (o_pos _ _ _ _ _ _ Ol).
    eapply einv_refs; [exact Hi|exact Hle|done|apply (o_data _ _ _ _ _ _ Ol)| |..].
    - intros Hz. cbn. by apply (c_used _ _ _ _ _ _ Hi l).
    - by rewrite add_ex_eq.
    - cbn. lia.
    - by rewrite add_ex_eq.
    - intros b Hb. by rewrite add_ex_ne. }
  assert (u_eps s1 !! l = Some (with_refs (e_refs le + 1) le)) as L1 by apply lookup_insert_eq.
  rewrite (run_bind _ _ _ _ _ (run_ep_at _ _ _ L1)). cbn [with_refs e_kind e_pend_count e_backlog].
  destruct (pend_small _ _ _ _ _ _ _ _ Hi Hle) as (_ & Hpc & ->). rewrite Hpc.
  assert (ep <> l) as Hel.
  { intros ->. rewrite He in Hle. injection Hle as <-. unfold is_named in Hnm. rewrite Hk in Hnm. by destruct Hnm. }
  case_bool_decide as Hkl; cbn [andb negb].
  - destruct (zlen (e_pend le) <? UNIX_BACKLOG) eqn:Elen; b2p; cbn [negb].
    + apply (connect_tail s1 nd qu ep e l (with_refs (e_refs le + 1) le)); try done.
      * cbn. by rewrite lookup_insert_ne.
      * cbn. rewrite lookup_insert_ne; [done|]. congruence.
    + destruct (put_back s1 nd qu l _ Hi1 Hl0 eq_refl Hbij) as (s' & Hp & Hu'). rewrite (run_bind _ _ _ _ _ Hp). eauto.
  - destruct (put_back s1 nd qu l _ Hi1 Hl0 eq_refl Hbij) as (s' & Hp & Hu'). rewrite (run_bind _ _ _ _ _ Hp). eauto.
Qed.

(** ** Accepting *)

Lemma accept_tail s nd qu a e new r (arg copied : bool) :
  einv (u_eps s) (u_bound s) nd qu (add_ex no_ex a 1) 0 ->
  (forall n a, u_nodes s !! n = Some a <-> nd !! a = Some n) ->
  u_eps s !! a = Some e -> e_kind e = UEP_CONN -> nd !! a = None -> qu !! a = None -> u_nodes s !! new = None ->
  fdr_ok r ->
  exists s' t, (node ← unix_make_node new a;
    if node =? 0 then ep_put a ;; mret (UDone (- ENOMEM))
    else
      fd ← alloc_fd r node;
      if fd <? 0 then ep_put a ;; ep_put a ;; free_node node ;; mret (UDone (- EMFILE))
      else if arg && negb copied then unix_node_close node ;; ep_put a ;; mret (UDone (- EFAULT))
      else ep_put a ;; mret (UDone fd) : UM uturn) s = Some (s', t) /\ uinv s'.
Proof.
  intros Hi Hbij Ha Hk Hnda Hqa Hnew Hr. pose proof (c_ep _ _ _ _ _ _ Hi _ _ Ha) as Oa.
  pose proof (o_nz _ _ _ _ _ _ Oa) as Ha0. pose proof (o_pos _ _ _ _ _ _ Oa) as Hpos.
  destruct (new =? 0) eqn:En; b2p.
  { subst new. unfold unix_make_node. cbn [Z.eqb]. rewrite (run_bind _ _ s s 0) by done. cbn [Z.eqb].
    destruct (put_back s nd qu a _ Hi Ha0 eq_refl Hbij) as (s' & Hp & Hu'). rewrite (run_bind _ _ _ _ _ Hp). eauto. }
  rewrite (run_bind _ _ _ _ _ (run_make_node new a e s En Ha)), (refs_small _ _ _ _ _ _ _ _ Hi Ha).
  rewrite (proj2 (Z.eqb_neq new 0)) by done. set (s1 := set_eps _ (set_nodes _ s)).
  set (e1 := with_refs (e_refs e + 1) e). set (nd1 := <[a := new]> nd).
  assert (u_eps s1 !! a = Some e1) as Ha1 by apply lookup_insert_eq.
  assert (einv (u_eps s1) (u_bound s1) nd1 qu (add_ex no_ex a 1) 0) as Hi1.
  { eapply (einv_node _ _ _ _ (add_ex no_ex a 2)).
    - eapply einv_refs; [exact Hi|exact Ha|done|apply (o_data _ _ _ _ _ _ Oa)|..].
      + intros Hz. cbn. by apply (c_used _ _ _ _ _ _ Hi a).
      + cbn. rewrite !add_ex_eq. done.
      + cbn. lia.
      + by rewrite add_ex_eq.
      + intros b Hb. by rewrite !add_ex_ne.
    - by rewrite add_ex_eq.
    - done.
    - done.
    - by rewrite !add_ex_eq.
    - intros b Hb. by rewrite !add_ex_ne. }
  assert (forall n b, u_nodes s1 !! n = Some b <-> nd1 !! b = Some n) as Hbij1 by (by apply insert_bij).
  assert (u_nodes s1 !! new = Some a) as Hn1 by apply lookup_insert_eq.
  assert (nd1 !! a = Some new) as Hnd1 by apply lookup_insert_eq.
  destruct (run_alloc_fd r new s1 Hr) as (fd & Hfd & Hcase). rewrite (run_bind _ _ _ _ _ Hfd).
  destruct (fd <? 0) eqn:Efd; b2p.
  { pose proof (einv_unnode _ _ _ _ _ _ _ _ _ Hi1 Hnd1 Ha1 Hk ltac:(rewrite add_ex_eq; done)) as Hi2.
    destruct (put_ok 3 _ _ _ (add_ex no_ex a 1) 0 a s1 Hi2) as (s2 & H2 & Hi3 & Hn2 & _);
      [by rewrite !add_ex_eq|done|by rewrite !add_ex_eq|intros b Hb; by rewrite !add_ex_ne|].
    destruct (put_ok 3 _ _ _ no_ex 0 a s2 Hi3) as (s3 & H3 & Hi4 & Hn3 & _);
      [by rewrite !add_ex_eq|done|by rewrite !add_ex_eq|intros b Hb; by rewrite !add_ex_ne|].
    assert (u_nodes s3 !! new = Some a) as Hn4 by (by rewrite Hn3, Hn2).
    rewrite (run_bind _ _ _ _ _ H2), (run_bind _ _ _ _ _ H3), (run_bind _ _ _ _ _ (run_free_node _ _ _ Hn4)).
    eexists _, _. split; [done|]. exists (delete a nd1), qu. split; [exact Hi4|]. cbn. rewrite Hn3, Hn2.
    by apply delete_bij. }
  destruct (arg && negb copied).
  - assert (add_ex no_ex a 1 (e_peer e1) = 0) as Hxp.
    { destruct (decide (e_peer e1 = 0)) as [->|Hp]; [by rewrite add_ex_ne by congruence|].
      destruct (o_peer _ _ _ _ _ _ Oa Hp) as [Hpa _]. by rewrite add_ex_ne. }
    destruct (close_conn_ok s1 nd1 qu _ new a e1 Hi1 Hnd1 Ha1 Hk ltac:(by rewrite add_ex_eq) Hxp) as (s2 & H2 & Hi2 & Hn2).
    rewrite (run_bind _ _ s1 (set_nodes (delete new) s2) tt).
    2:{ unfold unix_node_close. rewrite (run_bind _ _ _ _ _ (run_priv _ _ _ Hn1)).
        rewrite (run_bind _ _ _ _ _ (run_ep_at _ _ _ Ha1)).
        rewrite (c_used _ _ _ _ _ _ Hi1 _ _ Ha1 Ha0), bool_decide_eq_true_2 by exact Hk.
        rewrite (run_bind _ _ _ _ _ H2). apply (run_free_node new a). by rewrite Hn2. }
    destruct (put_back (set_nodes (delete new) s2) (delete a nd1) qu a (delete new (u_nodes s1))) as (s' & Hp & Hu');
      [exact Hi2|done|cbn; by rewrite Hn2|by apply delete_bij|].
    rewrite (run_bind _ _ _ _ _ Hp). eauto.
  - destruct (put_back s1 nd1 qu a _ Hi1 Ha0 eq_refl Hbij1) as (s' & Hp & Hu'). rewrite (run_bind _ _ _ _ _ Hp). eauto.
Qed.

Lemma accept_ok s new r l le arg copied :
  uinv s -> u_eps s !! l = Some le -> u_nodes s !! new = None -> fdr_ok r ->
  exists s' t, unix_accept_ioctl new r l arg copied s = Some (s', t) /\ uinv s'.
Proof.
  intros Hu Hl Hnew Hr. pose proof Hu as (nd & qu & Hi & Hbij). unfold unix_accept_ioctl.
  rewrite (run_bind _ _ _ _ _ (run_ep_at _ _ _ Hl)). case_bool_decide as Hk; cbn [negb]; [|eauto].
  destruct (0 <? e_pend_count le) eqn:Ep; b2p; cbn [negb]; [|eauto].
  destruct (pend_small _ _ _ _ _ _ _ _ Hi Hl) as (_ & Hpc & _).
  destruct (e_pend le) as [|a rest] eqn:Epd; [rewrite Hpc in Ep; done|]. cbn [head tail].
  rewrite (run_bind _ _ s s a) by done.
  pose proof (einv_dequeue _ _ _ _ a rest l le Hi Hl Epd) as Hi1.
  rewrite (run_bind _ _ _ _ _ (run_upd _ _ _ _ Hl)). set (s1 := set_eps _ s).
  assert (qu !! a = Some l) as Hqa by (eapply (c_pend _ _ _ _ _ _ Hi); [done|]; rewrite Epd; by left).
  destruct (c_qu _ _ _ _ _ _ Hi _ _ Hqa) as ((ae & Hae & Hak) & _).
  apply (accept_tail s1 nd (delete a qu) a ae); try done.
  - cbn. rewrite lookup_insert_ne; [done|]. congruence.
  - destruct (nd !! a) eqn:En; [|done]. destruct (c_nd _ _ _ _ _ _ Hi _ _ En) as [_ ?]. congruence.
  - apply lookup_delete_eq.
Qed.

(** ** Data *)

(** The bytes waiting in an endpoint. *)
Definition rx_queue (e : unix_ep) (q : list Z) : Prop :=
  ring_rep UNIX_BUF_SIZE (e_rx e) (e_rx_off e) q /\ zlen q = e_rx_len e /\ 0 <= e_rx_off e < UNIX_BUF_SIZE.

Lemma push_loop_ok src : forall n i rx off len q,
  ring_rep UNIX_BUF_SIZE rx off q -> zlen q = len -> 0 <= off < UNIX_BUF_SIZE ->
  len + Z.of_nat n <= UNIX_BUF_SIZE -> 0 <= i -> i + Z.of_nat n <= zlen src ->
  exists rx', push_loop n src i rx off len = Some (rx', len + Z.of_nat n) /\
    ring_rep UNIX_BUF_SIZE rx' off (q ++ slice i (Z.of_nat n) src).
Proof.
  induction n as [|n IH]; intros i rx off len q Hr Hl Ho Hn Hi Hs; cbn [push_loop].
  { exists rx. rewrite Z.add_0_r, slice_0, app_nil_r. done. }
  destruct (ld_in src i) as [c Hc]; [lia|]. rewrite Hc. sb. pose proof (zlen_nonneg q).
  rewrite (u32_small (off + len)) by (unfold is_u32, UNIX_BUF_SIZE in *; lia). rewrite <- Hl.
  destruct (ring_push UNIX_BUF_SIZE ltac:(done) rx off q c Hr) as (rx1 & -> & Hr1); [lia|]. sb.
  rewrite (u32_small (zlen q + 1)) by (unfold is_u32, UNIX_BUF_SIZE in *; lia).
  destruct (IH (i + 1) rx1 off (zlen q + 1) (q ++ [c])) as (rx' & -> & Hr'); [done|by rewrite zlen_app|lia..|].
  exists rx'. split; [do 2 f_equal; lia|]. rewrite <- app_assoc in Hr'.
  replace (Z.of_nat (S n)) with (1 + Z.of_nat n) by lia.
  rewrite slice_app_split, (slice_1 i src c) by (done || lia). exact Hr'.
Qed.

Lemma pop_loop_ok rx : forall n off q dst i,
  ring_rep UNIX_BUF_SIZE rx off q -> 0 <= off < UNIX_BUF_SIZE -> Z.of_nat n <= zlen q ->
  0 <= i -> i + Z.of_nat n <= zlen dst ->
  pop_loop n rx off dst i = Some (splice i (take n q) dst, (off + Z.of_nat n) mod UNIX_BUF_SIZE).
Proof.
  induction n as [|n IH]; intros off q dst i Hr Ho Hn Hi Hd; cbn [pop_loop].
  { rewrite take_0, splice_nil, Z.add_0_r, Z.mod_small by done. done. }
  destruct q as [|c q]; [unfold zlen in Hn; cbn in Hn; lia|]. rewrite zlen_cons in Hn.
  pose proof (ring_nth _ _ _ _ 0 Hr) as H0. rewrite Z.add_0_r, Z.mod_small in H0 by done.
  rewrite H0 by (rewrite zlen_cons; pose proof (zlen_nonneg q); lia).
  change (ld (c :: q) 0) with (Some c). sb. rewrite st_in by lia. sb.
  rewrite (u32_small (off + 1)) by (unfold is_u32, UNIX_BUF_SIZE in *; lia).
  pose proof (ring_advance _ rx off (c :: q) 1 Hr ltac:(rewrite zlen_cons; pose proof (zlen_nonneg q); lia)) as Hr1.
  change (drop (Z.to_nat 1) (c :: q)) with q in Hr1.
  rewrite (IH _ q); [| |apply Z.mod_pos_bound; done|lia..|rewrite zlen_insert; lia].
  - cbn [take]. rewrite splice_cons; [|lia|].
    + do 2 f_equal. rewrite Zplus_mod_idemp_l. f_equal. lia.
    + unfold zlen in *. rewrite length_take. lia.
  - by apply ring_off_mod.
Qed.

Lemma rx_queue_data e q : rx_queue e q -> zlen (e_fdq e) <= UNIX_FD_QUEUE_MAX -> data_ok e.
Proof. intros (H1 & H2 & H3) H4. split; [by exists q|done]. Qed.

Lemma data_rx_queue e : data_ok e -> exists q, rx_queue e q.
Proof. intros ((q & H1 & H2) & H3 & _). by exists q. Qed.

Lemma ep_push_ok p e q src i n s :
  u_eps s !! p = Some e -> rx_queue e q -> 0 <= n -> zlen q + n <= UNIX_BUF_SIZE -> 0 <= i -> i + n <= zlen src ->
  exists e', ep_push p src i n s = Some (set_eps (<[p := e']>) s, tt) /\ rx_queue e' (q ++ slice i n src) /\
    e' = with_rx (e_rx e') (e_rx_len e') (e_rx_off e) e.
Proof.
  intros He (H1 & H2 & H3) Hn Hq Hi Hs. unfold ep_push. rewrite (run_bind _ _ _ _ _ (run_ep_at _ _ _ He)).
  destruct (push_loop_ok src (Z.to_nat n) i (e_rx e) (e_rx_off e) (e_rx_len e) q) as (rx' & Hp & Hr');
    try done; try lia. rewrite Z2Nat.id in * by lia.
  rewrite (run_bind _ _ s s (rx', e_rx_len e + n)) by (unfold lift; by rewrite Hp). cbv beta iota.
  rewrite (run_upd _ _ _ _ He). eexists. split; [done|]. split; [|done]. split; [done|]. split; [|done]. cbn.
  rewrite zlen_app, H2. rewrite zlen_slice by lia. done.
Qed.

Lemma ep_pop_ok p e q dst max s :
  u_eps s !! p = Some e -> rx_queue e q -> 0 <= max -> Z.min (zlen q) max <= zlen dst ->
  let n := Z.min (zlen q) max in
  exists e', ep_pop p dst max s = Some (set_eps (<[p := e']>) s, (splice 0 (take (Z.to_nat n) q) dst, n)) /\
    rx_queue e' (drop (Z.to_nat n) q) /\ e' = with_rx (e_rx e) (e_rx_len e') (e_rx_off e') e.
Proof.
  intros He (H1 & H2 & H3) Hm Hd n. pose proof (ring_len _ _ _ _ H1) as Hlen. unfold ep_pop.
  rewrite (run_bind _ _ _ _ _ (run_ep_at _ _ _ He)). cbv zeta.
  replace (if e_rx_len e <? max then e_rx_len e else max) with n by (unfold n; rewrite H2; case_if; b2p; lia).
  pose proof (pop_loop_ok (e_rx e) (Z.to_nat n) (e_rx_off e) q dst 0 H1 H3 ltac:(lia) ltac:(lia) ltac:(lia)) as Hp.
  rewrite Z2Nat.id in Hp by lia.
  rewrite (run_bind _ _ s s (splice 0 (take (Z.to_nat n) q) dst, (e_rx_off e + n) mod UNIX_BUF_SIZE))
    by (unfold lift; by rewrite Hp). cbv beta iota.
  rewrite (run_bind _ _ _ _ _ (run_upd _ _ _ _ He)). rewrite <- H2.
  rewrite (u32_small (zlen q - n)) by (unfold is_u32, UNIX_BUF_SIZE in *; lia).
  eexists. split; [done|]. split; [|done]. unfold rx_queue. cbn.
  assert (zlen (drop (Z.to_nat n) q) = zlen q - n) as Hdl by (unfold zlen in *; rewrite length_drop; lia).
  split; [|split; [done|]].
  - destruct (zlen q - n =? 0) eqn:E; b2p.
    + rewrite drop_ge by (unfold zlen in *; lia). apply ring_empty; [done|]. apply H1.
    + apply ring_off_mod. apply ring_advance; [done|lia].
  - case_if; [done|]. by apply Z.mod_pos_bound.
Qed.

(** A change of data or flags only. *)
Lemma uinv_data s a e e' :
  uinv s -> u_eps s !! a = Some e -> same_shape e e' -> e_used e' = e_used e -> e_refs e' = e_refs e -> data_ok e' ->
  uinv (set_eps (<[a := e']>) s).
Proof.
  intros (nd & qu & Hi & Hbij) He Hs Hu Hr Hd. exists nd, qu. split; [|done].
  pose proof (c_ep _ _ _ _ _ _ Hi _ _ He) as Oe. pose proof (o_pos _ _ _ _ _ _ Oe).
  eapply einv_refs; try done; [|by rewrite Hr, Z.sub_diag, Z.add_0_r|lia].
  intros Hz. rewrite Hu. by apply (c_used _ _ _ _ _ _ Hi a).
Qed.

Lemma uinv_files s F : uinv s -> uinv (USock (u_eps s) (u_nodes s) (u_bound s) F).
Proof. done. Qed.

(** The change a transfer makes to an endpoint. *)
Definition moved (e e' : unix_ep) : Prop := e' = with_rx (e_rx e') (e_rx_len e') (e_rx_off e') e.

Lemma moved_uinv s a e e' q : uinv s -> u_eps s !! a = Some e -> moved e e' -> rx_queue e' q ->
  uinv (set_eps (<[a := e']>) s).
Proof.
  intros Hu He Hm Hq. pose proof Hu as (nd & qu & Hi & _).
  destruct (o_data _ _ _ _ _ _ (c_ep _ _ _ _ _ _ Hi _ _ He)) as (_ & _ & Hf).
  eapply uinv_data; [done..| | | |]; try (rewrite Hm; done).
  eapply rx_queue_data; [done|]. by rewrite Hm.
Qed.

(** Whether the other end can be written to. *)
Definition writable (s : usock) (e : unix_ep) : Prop :=
  exists p, u_eps s !! e_peer e = Some p /\ e_peer e <> 0 /\ e_peer_no_read p = false /\ e_shut_rd p = false.

Lemma send_round_ok s a e addr size written buf :
  uinv s -> u_eps s !! a = Some e -> 0 <= written < size -> size < 2 ^ 32 -> zlen buf = size ->
  (~ writable s e /\ send_round a addr size written buf s = Some (s, (written, UBroken))) \/
  (exists p q p' t, u_eps s !! e_peer e = Some p /\ rx_queue p q /\ moved p p' /\
     let k := Z.min (size - written) (UNIX_BUF_SIZE - zlen q) in
     rx_queue p' (q ++ slice written k buf) /\
     send_round a addr size written buf s = Some (set_eps (<[e_peer e := p']>) s, (written + k, USent t))).
Proof.
  intros Hu He Hw Hsz Hb. pose proof Hu as (nd & qu & Hi & _). pose proof (c_ep _ _ _ _ _ _ Hi _ _ He) as Oe.
  unfold send_round. rewrite (run_bind _ _ _ _ _ (run_ep_at _ _ _ He)). cbv zeta.
  destruct (e_peer e =? 0) eqn:Ep; b2p; [left; split; [intros (p & _ & ? & _); done|done]|].
  destruct (o_peer _ _ _ _ _ _ Oe Ep) as (_ & p & Hp & _). rewrite (run_bind _ _ _ _ _ (run_ep_at _ _ _ Hp)).
  rewrite (c_used _ _ _ _ _ _ Hi _ _ Hp Ep). cbn [negb orb].
  destruct (e_peer_no_read p || e_shut_rd p) eqn:Ef.
  { left. split; [|done]. intros (p2 & Hp2 & _ & E1 & E2). rewrite Hp in Hp2. injection Hp2 as <-.
    rewrite E1, E2 in Ef. done. }
  right. destruct (data_rx_queue p) as [q Hq]; [apply (o_data _ _ _ _ _ _ (c_ep _ _ _ _ _ _ Hi _ _ Hp))|].
  pose proof Hq as (Hr & Hl & Ho). pose proof (ring_len _ _ _ _ Hr) as Hlen.
  rewrite <- Hl. unfold UNIX_BUF_SIZE in *.
  rewrite (u32_small (4096 - zlen q)) by (unfold is_u32; lia).
  destruct (4096 - zlen q =? 0) eqn:Es; b2p.
  { exists p, q, p. eexists. split; [done|]. split; [done|]. split; [by destruct p|].
    replace (Z.min (size - written) (4096 - zlen q)) with 0 by lia.
    rewrite slice_0, app_nil_r, Z.add_0_r. split; [done|]. unfold set_eps. rewrite insert_id by done. by destruct s. }
  rewrite (u32_small (size - written)) by (unfold is_u32; lia).
  replace (if 4096 - zlen q <? size - written then 4096 - zlen q else size - written)
    with (Z.min (size - written) (4096 - zlen q)) by (case_if; b2p; lia).
  set (k := Z.min _ _).
  destruct (ep_push_ok (e_peer e) p q buf written k s Hp Hq) as (p' & Hpush & Hq' & Hm); [lia|unfold UNIX_BUF_SIZE; lia|lia..|].
  rewrite (run_bind _ _ _ _ _ Hpush). rewrite (u32_small (written + k)) by (unfold is_u32; lia).
  exists p, q, p'. eexists. split; [done|]. split; [done|]. split; [unfold moved; rewrite Hm at 1; by rewrite Hm|]. split; done.
Qed.

Lemma send_round_uinv s a e addr size written buf :
  uinv s -> u_eps s !! a = Some e -> 0 <= written < size -> size < 2 ^ 32 -> zlen buf = size ->
  exists s' x, send_round a addr size written buf s = Some (s', x) /\ uinv s'.
Proof.
  intros Hu He Hw Hsz Hb.
  destruct (send_round_ok s a e addr size written buf Hu He Hw Hsz Hb) as [[_ ->]|(p & q & p' & t & Hp & Hq & Hm & Hq' & ->)];
    [eauto|]. eexists _, _. split; [done|]. by eapply moved_uinv.
Qed.

Lemma write_round_uinv s a e addr size written buf :
  uinv s -> u_eps s !! a = Some e -> 0 <= written < size -> size < 2 ^ 32 -> zlen buf = size ->
  exists s' x, write_round a addr size written buf s = Some (s', x) /\ uinv s'.
Proof.
  intros Hu He Hw Hsz Hb. unfold write_round. rewrite (run_bind _ _ _ _ _ (run_ep_at _ _ _ He)).
  destruct (e_shut_wr e); [eauto|].
  destruct (send_round_uinv s a e addr size written buf Hu He Hw Hsz Hb) as (s' & [w t] & Hs & Hu').
  rewrite (run_bind _ _ _ _ _ Hs). destruct t; eauto.
Qed.

Lemma payload_uinv s a e addr size buf :
  uinv s -> u_eps s !! a = Some e -> 0 <= size < 2 ^ 32 -> zlen buf = size ->
  exists s' x, ep_write_payload a addr size buf s = Some (s', x) /\ uinv s'.
Proof.
  intros Hu He Hsz Hb. unfold ep_write_payload. destruct (size =? 0) eqn:E0; b2p; [eauto|]. case_if; [eauto|].
  unfold payload_round. destruct (send_round_uinv s a e addr size 0 buf Hu He) as (s' & [w t] & Hs & Hu'); [lia..|done|].
  rewrite (run_bind _ _ _ _ _ Hs). destruct t; eauto.
Qed.

Lemma read_round_ok s a e q addr size buf :
  uinv s -> u_eps s !! a = Some e -> rx_queue e q -> 0 < size -> Z.min (zlen q) size <= zlen buf ->
  e_shut_rd e = false -> q <> [] ->
  let n := Z.min (zlen q) size in
  exists e', read_round a addr size buf s =
      Some (set_eps (<[a := e']>) s, (splice 0 (take (Z.to_nat n) q) buf, UDone n)) /\
    moved e e' /\ rx_queue e' (drop (Z.to_nat n) q).
Proof.
  intros Hu He Hq Hsz Hb Hs Hne n. pose proof Hq as (Hr & Hl & Ho). pose proof (ring_len _ _ _ _ Hr) as Hlen.
  unfold read_round. rewrite (run_bind _ _ _ _ _ (run_ep_at _ _ _ He)), Hs.
  assert (0 < zlen q) as Hpos by (destruct q; [done|]; rewrite zlen_cons; pose proof (zlen_nonneg q); lia).
  rewrite <- Hl, (proj2 (Z.ltb_lt 0 (zlen q))) by done.
  destruct (ep_pop_ok a e q buf size s He Hq ltac:(lia) Hb) as (e' & Hp & Hq' & Hm).
  rewrite (run_bind _ _ _ _ _ Hp). cbv beta iota. fold n in Hq' |- *. unfold UNIX_BUF_SIZE in *.
  rewrite (proj2 (Z.ltb_ge 2147483647 n)) by lia. rewrite i32_small by (unfold is_i32; lia).
  exists e'. split; [done|]. split; [|done]. unfold moved. rewrite Hm at 1. by rewrite Hm.
Qed.

Lemma read_round_uinv s a e addr size buf :
  uinv s -> u_eps s !! a = Some e -> 0 < size -> zlen buf = size ->
  exists s' x, read_round a addr size buf s = Some (s', x) /\ uinv s'.
Proof.
  intros Hu He Hsz Hb. pose proof Hu as (nd & qu & Hi & _).
  destruct (data_rx_queue e) as [q Hq]; [apply (o_data _ _ _ _ _ _ (c_ep _ _ _ _ _ _ Hi _ _ He))|].
  destruct (e_shut_rd e) eqn:Es.
  { unfold read_round. rewrite (run_bind _ _ _ _ _ (run_ep_at _ _ _ He)), Es. eauto. }
  destruct (decide (q = [])) as [->|Hne].
  { unfold read_round. rewrite (run_bind _ _ _ _ _ (run_ep_at _ _ _ He)), Es. destruct Hq as (_ & Hl & _).
    rewrite <- Hl. change (0 <? zlen (@nil Z)) with false. cbv iota. destruct (e_eof e); eauto. }
  destruct (read_round_ok s a e q addr size buf Hu He Hq Hsz ltac:(lia) Es Hne) as (e' & -> & Hm & Hq').
  eexists _, _. split; [done|]. by eapply moved_uinv.
Qed.

(** ** Shutdown and messages *)

Lemma flags_uinv s a e srd swr eof pnr :
  uinv s -> u_eps s !! a = Some e -> uinv (set_eps (<[a := with_flags srd swr eof pnr e]>) s).
Proof.
  intros Hu He. pose proof Hu as (nd & qu & Hi & _). eapply uinv_data; try done.
  apply (o_data _ _ _ _ _ _ (c_ep _ _ _ _ _ _ Hi _ _ He)).
Qed.

(** Setting a flag here and one at the other end. *)
Lemma flag_pair_ok s a e (f g : unix_ep -> unix_ep) :
  uinv s -> u_eps s !! a = Some e ->
  (forall x, exists s1 s2 s3 s4, f x = with_flags s1 s2 s3 s4 x) ->
  (forall x, exists s1 s2 s3 s4, g x = with_flags s1 s2 s3 s4 x) ->
  exists s', (upd a f ;; e ← ep_at a; if e_peer e =? 0 then skip else upd (e_peer e) g) s = Some (s', tt) /\
    uinv s' /\ is_Some (u_eps s' !! a).
Proof.
  intros Hu He Hf Hg. destruct (Hf e) as (f1 & f2 & f3 & f4 & Hfe).
  rewrite (run_bind _ _ _ _ _ (run_upd _ _ _ _ He)), Hfe. set (s1 := set_eps _ s).
  assert (uinv s1) as Hu1 by (by apply flags_uinv).
  assert (u_eps s1 !! a = Some (with_flags f1 f2 f3 f4 e)) as He1 by apply lookup_insert_eq.
  rewrite (run_bind _ _ _ _ _ (run_ep_at _ _ _ He1)).
  destruct (e_peer (with_flags f1 f2 f3 f4 e) =? 0) eqn:Ep; b2p; [exists s1; split; [done|]; split; [done|eauto]|].
  pose proof Hu1 as (nd & qu & Hi & _).
  destruct (o_peer _ _ _ _ _ _ (c_ep _ _ _ _ _ _ Hi _ _ He1) Ep) as (_ & p & Hp & _).
  rewrite (run_upd _ _ _ _ Hp). destruct (Hg p) as (g1 & g2 & g3 & g4 & ->).
  eexists. split; [done|]. split; [by apply flags_uinv|]. cbn. rewrite lookup_insert. case_decide; eauto.
Qed.

Lemma shutdown_ok s ep e arg :
  uinv s -> u_eps s !! ep = Some e -> exists s' r, unix_shutdown_ioctl ep arg s = Some (s', r) /\ uinv s'.
Proof.
  intros Hu He. unfold unix_shutdown_ioctl. destruct arg as [| |how]; [eauto..|]. case_if; [eauto|].
  assert (forall s (b : bool) (f g : unix_ep -> unix_ep), uinv s -> is_Some (u_eps s !! ep) ->
    (forall x, exists s1 s2 s3 s4, f x = with_flags s1 s2 s3 s4 x) ->
    (forall x, exists s1 s2 s3 s4, g x = with_flags s1 s2 s3 s4 x) ->
    exists s', (if b then upd ep f ;; e ← ep_at ep; if e_peer e =? 0 then skip else upd (e_peer e) g else skip) s
      = Some (s', tt) /\ uinv s' /\ is_Some (u_eps s' !! ep)) as Hpart.
  { intros s0 [] f g Hu0 [e0 He0] Hf Hg; [|by exists s0]. by apply (flag_pair_ok s0 ep e0). }
  edestruct (Hpart s) as (s1 & H1 & Hu1 & He1); [done|by exists e| | |rewrite (run_bind _ _ _ _ _ H1)]; [eauto..|].
  edestruct (Hpart s1) as (s2 & H2 & Hu2 & He2); [done|done| | |rewrite (run_bind _ _ _ _ _ H2)]; [eauto..|]. eauto.
Qed.

(** Two states that differ in the file log only. *)
Definition same_but_files (s s' : usock) : Prop :=
  u_eps s' = u_eps s /\ u_nodes s' = u_nodes s /\ u_bound s' = u_bound s.

Lemma same_uinv s s' : same_but_files s s' -> uinv s -> uinv s'.
Proof. intros (E1 & E2 & E3) (nd & qu & Hi & Hb). exists nd, qu. by rewrite E1, E2, E3. Qed.

Lemma unref_all_ok l s : exists s', unref_all l s = Some (s', tt) /\ same_but_files s s'.
Proof. unfold unref_all. rewrite unref_loop. by eexists. Qed.

Lemma hold_files_ok fdt : forall ufds held s,
  exists s' r, hold_files fdt ufds held s = Some (s', r) /\ same_but_files s s' /\
    forall h, r = Some h -> zlen h = zlen held + zlen ufds.
Proof.
  induction ufds as [|fd ufds IH]; intros held s; cbn [hold_files].
  { exists s, (Some held). split; [done|]. split; [done|]. intros h [= ->]. by rewrite Z.add_0_r. }
  cbv zeta. match goal with |- context [if ?c =? 0 then _ else _] => set (f := c); destruct (f =? 0) end.
  - destruct (unref_all_ok held s) as (s' & Hs & ?). rewrite (run_bind _ _ _ _ _ Hs). by exists s', None.
  - rewrite (run_bind _ _ s (log_file (FileRef f) s) tt) by done.
    destruct (IH (held ++ [f]) (log_file (FileRef f) s)) as (s' & r & -> & Hsame & Hr). exists s', r.
    split; [done|]. split; [done|]. intros h Hh. rewrite (Hr h Hh), zlen_app, !zlen_cons. change (zlen (@nil Z)) with 0. lia.
Qed.

(** What a message call may assume of its arguments. *)
Definition send_ok (ufds : option (list Z)) (buf : mem) (arg : uarg sendmsg_arg) : Prop :=
  match arg with
  | UVal a => 0 <= sa_len a < 2 ^ 32 /\ zlen buf = sa_len a /\ 0 <= sa_nfds a /\
      match ufds with Some l => zlen l = sa_nfds a | None => True end
  | _ => True
  end.

Lemma fdq_push_ok s p e files :
  uinv s -> u_eps s !! p = Some e ->
  exists s' r, ep_fdq_push p files s = Some (s', r) /\ uinv s' /\ (r = 0 \/ s' = s) /\
    (forall b x, u_eps s !! b = Some x -> is_Some (u_eps s' !! b)).
Proof.
  intros Hu He. unfold ep_fdq_push. rewrite (run_bind _ _ _ _ _ (run_ep_at _ _ _ He)).
  destruct (_ <? _) eqn:E; b2p; [exists s, (- EAGAIN); split_and!; eauto|].
  rewrite (run_bind _ _ _ _ _ (run_upd _ _ _ _ He)). eexists _, 0. split; [done|]. split; [|split; [by left|]].
  - pose proof Hu as (nd & qu & Hi & _). eapply uinv_data; try done.
    destruct (o_data _ _ _ _ _ _ (c_ep _ _ _ _ _ _ Hi _ _ He)) as (? & ? & ?). split; [done|]. split; [done|].
    cbn. rewrite zlen_app. lia.
  - intros b x Hb. cbn. rewrite lookup_insert. case_decide; eauto.
Qed.

Lemma sendmsg_ok s fdt ufds buf ep e arg :
  uinv s -> u_eps s !! ep = Some e -> send_ok ufds buf arg ->
  exists s' x, unix_sendmsg_ioctl fdt ufds buf ep arg s = Some (s', x) /\ uinv s'.
Proof.
  intros Hu He Hok. unfold unix_sendmsg_ioctl. destruct arg as [| |a]; [eauto|..];
    rewrite (run_bind _ _ _ _ _ (run_ep_at _ _ _ He)); (case_if; [eauto|]); [eauto|].
  destruct Hok as (Hlen & Hb & Hnf & Huf). case_if; [eauto|]. case_if; [eauto|].
  assert (exists s1 x, send_files fdt ufds a s = Some (s1, x) /\ same_but_files s s1) as (s1 & x & Hs1 & Hsame).
  { unfold send_files. case_if; [by exists s, (inr [])|]. case_if; [by eexists s, _|].
    destruct ufds as [ufds|]; [|by eexists s, _].
    destruct (hold_files_ok fdt ufds [] s) as (s1 & r & Hh & Hsame & _). rewrite (run_bind _ _ _ _ _ Hh). by eexists s1, _. }
  rewrite (run_bind _ _ _ _ _ Hs1). pose proof (same_uinv _ _ Hsame Hu) as Hu1.
  destruct x as [err|hold]; [eauto|].
  assert (u_eps s1 !! ep = Some e) as He1 by (by destruct Hsame as [-> _]).
  rewrite (run_bind _ _ _ _ _ (run_ep_at _ _ _ He1)). cbv zeta. destruct (e_peer e =? 0) eqn:Ep; b2p.
  { destruct (unref_all_ok hold s1) as (s2 & Hs2 & Hsame2). rewrite (run_bind _ _ _ _ _ Hs2).
    eexists _, _. split; [done|]. by eapply same_uinv. }
  pose proof Hu1 as (nd & qu & Hi & _).
  destruct (o_peer _ _ _ _ _ _ (c_ep _ _ _ _ _ _ Hi _ _ He1) Ep) as (_ & p & Hp & _).
  assert (exists s2 r, (if bool_decide (hold = []) then mret 0 else ep_fdq_push (e_peer e) hold) s1 = Some (s2, r) /\
    uinv s2 /\ (r = 0 \/ s2 = s1) /\ (forall b x, u_eps s1 !! b = Some x -> is_Some (u_eps s2 !! b)))
    as (s2 & r & Hs2 & Hu2 & Hr & Hk2).
  { destruct (bool_decide (hold = [])); [exists s1, 0; split_and!; eauto|]. by apply (fdq_push_ok s1 (e_peer e) p). }
  rewrite (run_bind _ _ _ _ _ Hs2). destruct (r =? 0) eqn:Er; b2p; cbn [negb].
  - destruct (Hk2 _ _ He1) as [e2 He2]. by apply (payload_uinv s2 ep e2).
  - destruct Hr as [?| ->]; [done|]. destruct (unref_all_ok hold s1) as (s3 & Hs3 & Hsame3).
    rewrite (run_bind _ _ _ _ _ Hs3). eexists _, _. split; [done|]. by eapply same_uinv.
Qed.

Lemma install_ok : forall files fdt out s,
  exists s' x, install fdt files out s = Some (s', x) /\ same_but_files s s'.
Proof.
  induction files as [|f files IH]; intros fdt out s; cbn [install]; [by eexists s, _|].
  destruct (free_slot fdt) as [i|].
  - rewrite (run_bind _ _ s (log_file (FileInstall (Z.of_nat i) f) s) tt) by done.
    destruct (IH (<[i := f]> fdt) (out ++ [Z.of_nat i]) (log_file (FileInstall (Z.of_nat i) f) s)) as (s' & x & H & Hs).
    by exists s', x.
  - rewrite (run_bind _ _ s (log_file (FileUnref f) s) tt) by done.
    destruct (IH fdt out (log_file (FileUnref f) s)) as (s' & x & H & Hs). by exists s', x.
Qed.

Lemma recv_files_ok s fdt ep e a :
  uinv s -> u_eps s !! ep = Some e -> exists s' x, recv_files fdt ep a s = Some (s', x) /\ uinv s'.
Proof.
  intros Hu He. unfold recv_files. case_if; [eauto|]. rewrite (run_bind _ _ _ _ _ (run_ep_at _ _ _ He)). cbv zeta.
  unfold ep_fdq_pop. set (m := Z.min _ _).
  rewrite (run_bind _ _ s (set_eps (<[ep := with_fdq (drop (Z.to_nat (if zlen (e_fdq e) <? m then zlen (e_fdq e) else m)) (e_fdq e)) e]>) s)
    (take (Z.to_nat (if zlen (e_fdq e) <? m then zlen (e_fdq e) else m)) (e_fdq e)))
    by (by rewrite (run_bind _ _ _ _ _ (run_ep_at _ _ _ He)), (run_bind _ _ _ _ _ (run_upd _ _ _ _ He))).
  set (k := Z.to_nat _). set (s1 := set_eps _ s).
  assert (uinv s1) as Hu1.
  { pose proof Hu as (nd & qu & Hi & _). eapply uinv_data; try done.
    destruct (o_data _ _ _ _ _ _ (c_ep _ _ _ _ _ _ Hi _ _ He)) as (? & ? & ?). split; [done|]. split; [done|].
    cbn. unfold zlen in *. rewrite length_drop. lia. }
  destruct (install_ok (take k (e_fdq e)) fdt [] s1) as (s2 & x & -> & Hsame). eexists _, _.
  split; [done|]. by eapply same_uinv.
Qed.

Lemma recvmsg_ok s fdt c1 c2 ep e arg :
  uinv s -> u_eps s !! ep = Some e -> match arg with UVal a => 0 <= ra_cap a | _ => True end ->
  exists s' x, unix_recvmsg_ioctl fdt c1 c2 ep arg s = Some (s', x) /\ uinv s'.
Proof.
  intros Hu He Hok. unfold unix_recvmsg_ioctl. destruct arg as [| |a]; [eauto|..];
    rewrite (run_bind _ _ _ _ _ (run_ep_at _ _ _ He)); (case_if; [eauto|]); [eauto|].
  do 4 (case_if; [eauto|]). cbv zeta. set (got := if _ && _ && negb (ra_buf a =? 0) then _ else 0).
  pose proof Hu as (nd & qu & Hi & _).
  destruct (data_rx_queue e) as [q Hq]; [apply (o_data _ _ _ _ _ _ (c_ep _ _ _ _ _ _ Hi _ _ He))|].
  assert (exists s1 x, (if 0 <? got then '(tmp, n) ← ep_pop ep (replicate (Z.to_nat UNIX_BUF_SIZE) 0) got;
      mret (take (Z.to_nat n) tmp, n) else mret ([], 0)) s = Some (s1, x) /\ uinv s1 /\ is_Some (u_eps s1 !! ep))
    as (s1 & [data n] & Hs1 & Hu1 & [e1 He1]).
  { destruct (0 <? got) eqn:Eg; b2p; [|by exists s, ([], 0)].
    pose proof Hq as (Hr & Hl & _). pose proof (ring_len _ _ _ _ Hr) as Hlen.
    destruct (ep_pop_ok ep e q (replicate (Z.to_nat UNIX_BUF_SIZE) 0) got s He Hq) as (e' & Hp & Hq' & Hm);
      [lia|unfold zlen at 2; rewrite length_replicate; unfold UNIX_BUF_SIZE in *; lia|].
    rewrite (run_bind _ _ _ _ _ Hp). eexists _, _. split; [done|].
    split; [eapply moved_uinv; [done..| |done]; unfold moved; rewrite Hm at 1; by rewrite Hm|].
    cbn. rewrite lookup_insert_eq. eauto. }
  rewrite (run_bind _ _ _ _ _ Hs1). cbv beta iota. case_if; [eauto|].
  destruct (recv_files_ok s1 fdt ep e1 a Hu1 He1) as (s2 & [fdt' out] & Hs2 & Hu2).
  rewrite (run_bind _ _ _ _ _ Hs2). eauto.
Qed.
