(* ===== verification/UnixSockTrace.v ===== *)
(** * AF_UNIX sockets: sequences of calls

    Any sequence of socket calls from the state [unix_sock_init] leaves, the
    byte stream between two connected sockets, and two paths on which the
    code goes wrong. *)
From S2P Require Import Prelude StateM Klib Ring Validate VfsPath UnixSock UnixSockSpec UnixSockSafe.

#[local] Open Scope Z_scope.

(** ** Calls

    A call with the addresses [kmalloc] returns to it (0 when it fails) and
    what the descriptor table and user memory give.  [CReadOn], [CWriteOn]
    and [CSendOn] are the next round of a call that waits. *)
Inductive call :=
  | CCreate (a new type : Z)
  | CPair (a b na nb : Z) (ra rb : fd_result) (type : Z)
  | CCtl (cwd : option mem) (n : Z) (cmd : sockctl)
  | CSend (n : Z) (fdt : list Z) (ufds : option (list Z)) (buf : mem) (arg : uarg sendmsg_arg)
  | CSendOn (n addr size written : Z) (buf : mem)
  | CRecv (n : Z) (fdt : list Z) (copied1 copied2 : bool) (arg : uarg recvmsg_arg)
  | CRead (n addr size : Z) (buf : mem)
  | CReadOn (n addr size : Z) (buf : mem)
  | CWrite (n addr size : Z) (buf : mem)
  | CWriteOn (n addr size written : Z) (buf : mem)
  | CPoll (n events : Z)
  | CClose (n : Z).

(** [m] on the endpoint of the node, when there is one. *)
Definition on_ep {A} (n : Z) (m : Z -> UM A) : UM unit :=
  ep ← ep_from_node n; if ep =? 0 then skip else m ep ;; skip.

Definition run_call (c : call) : UM unit :=
  match c with
  | CCreate a new type => unix_sock_create a new type ;; skip
  | CPair a b na nb ra rb type => unix_socketpair a b na nb ra rb type ;; skip
  | CCtl cwd n cmd => unix_sock_ioctl cwd n cmd ;; skip
  | CSend n fdt ufds buf arg => on_ep n (fun ep => unix_sendmsg_ioctl fdt ufds buf ep arg)
  | CSendOn n addr size written buf => on_ep n (fun ep => payload_round ep addr size written buf)
  | CRecv n fdt c1 c2 arg => on_ep n (fun ep => unix_recvmsg_ioctl fdt c1 c2 ep arg)
  | CRead n addr size buf => unix_node_read n addr size buf ;; skip
  | CReadOn n addr size buf => on_ep n (fun ep => read_round ep addr size buf)
  | CWrite n addr size buf => unix_node_write n addr size buf ;; skip
  | CWriteOn n addr size written buf => on_ep n (fun ep => write_round ep addr size written buf)
  | CPoll n events => unix_node_poll n events ;; skip
  | CClose n => unix_node_close n
  end.

Fixpoint run_calls (cs : list call) : UM unit :=
  match cs with [] => skip | c :: r => run_call c ;; run_calls r end.

(** ** What a call may assume

    An address from [kmalloc] is not in use; a call is made on an open node;
    a path fills its array, the working directory is terminated, a buffer has
    the size given.  [alloc_fd] finds a slot, or [file_alloc] fails. *)
Definition new_ep (s : usock) (a : Z) : bool := bool_decide (u_eps s !! a = None).
Definition new_node (s : usock) (n : Z) : bool := bool_decide (u_nodes s !! n = None).
Definition open_node (s : usock) (n : Z) : bool := bool_decide (is_Some (u_nodes s !! n)).

Definition fd_ok (r : fd_result) : bool :=
  match r with FdOk fd => 0 <=? fd | FdNoFile => true | FdNoSlot => false end.
Definition path_arg_ok (cwd : option mem) (arg : uarg mem) : bool :=
  match cwd with Some c => bool_decide (0 ∈ c) | None => true end &&
  match arg with UVal p => zlen p =? UNIX_PATH_MAX | _ => true end.
Definition sized (buf : mem) (size : Z) : bool := (zlen buf =? size) && (0 <=? size) && (size <? 2 ^ 32).
Definition rest_of (written size : Z) : bool := (0 <=? written) && (written <? size).

Definition ctl_ok (s : usock) (cwd : option mem) (cmd : sockctl) : bool :=
  match cmd with
  | CtlBind arg => path_arg_ok cwd arg
  | CtlConnect new arg => path_arg_ok cwd arg && new_ep s new
  | CtlAccept new r _ _ => new_node s new && fd_ok r
  | _ => true
  end.

Definition send_arg_ok (ufds : option (list Z)) (buf : mem) (arg : uarg sendmsg_arg) : bool :=
  match arg with
  | UVal a => sized buf (sa_len a) && (0 <=? sa_nfds a) &&
      match ufds with Some l => zlen l =? sa_nfds a | None => true end
  | _ => true
  end.

Definition call_ok (s : usock) (c : call) : bool :=
  match c with
  | CCreate a new _ => new_ep s a && new_node s new
  | CPair a b na nb ra rb _ =>
      new_ep s a && new_ep s b && negb (a =? b) && new_node s na && new_node s nb && negb (na =? nb)
      && fd_ok ra && fd_ok rb
  | CCtl cwd n cmd => open_node s n && ctl_ok s cwd cmd
  | CSend n _ ufds buf arg => open_node s n && send_arg_ok ufds buf arg
  | CSendOn n _ size written buf => open_node s n && sized buf size && rest_of written size
  | CRecv n _ _ _ arg => open_node s n && match arg with UVal a => 0 <=? ra_cap a | _ => true end
  | CRead n _ size buf => open_node s n && sized buf size
  | CReadOn n _ size buf => open_node s n && sized buf size && (0 <? size)
  | CWrite n _ size buf => open_node s n && sized buf size
  | CWriteOn n _ size written buf => open_node s n && sized buf size && rest_of written size
  | CPoll n _ => open_node s n
  | CClose n => open_node s n
  end.

(** Every call of the sequence may be made in the state it is made in. *)
Fixpoint calls_ok (s : usock) (cs : list call) : bool :=
  match cs with
  | [] => true
  | c :: r => call_ok s c && match run_call c s with Some (s', _) => calls_ok s' r | None => true end
  end.

(** ** One call *)

Lemma init_uinv : uinv unix_sock_init.
Proof.
  exists ∅, ∅. split; [|intros n a; by rewrite !lookup_empty].
  split; try (intros *; cbn; rewrite lookup_empty; done).
  split; [intros i b [-> _]%lookup_replicate|intros i j b c [-> _]%lookup_replicate|intros i b [-> _]%lookup_replicate];
    [done..|by split].
Qed.

Lemma open_from_node s n :
  uinv s -> open_node s n = true ->
  exists a e, u_nodes s !! n = Some a /\ u_eps s !! a = Some e /\ a <> 0 /\ ep_from_node n s = Some (s, a).
Proof.
  intros (nd & qu & Hi & Hb) Ho. apply bool_decide_eq_true in Ho as [a Hn]. pose proof (proj1 (Hb n a) Hn) as Hna.
  destruct (c_nd _ _ _ _ _ _ Hi _ _ Hna) as [[e He] _]. pose proof (o_nz _ _ _ _ _ _ (c_ep _ _ _ _ _ _ Hi _ _ He)) as Hz.
  exists a, e. split_and!; try done. unfold ep_from_node.
  rewrite (run_bind _ _ _ _ _ (run_priv _ _ _ Hn)), (run_bind _ _ _ _ _ (run_ep_at _ _ _ He)).
  by rewrite (c_used _ _ _ _ _ _ Hi _ _ He Hz).
Qed.

Definition returns {A} (m : UM A) (s : usock) : Prop := exists s' x, m s = Some (s', x) /\ uinv s'.

Lemma returns_skip {A} (m : UM A) s : returns m s -> returns (m ;; skip) s.
Proof. intros (s' & x & Hm & Hu). exists s', tt. by rewrite (run_bind _ _ _ _ _ Hm). Qed.

Lemma returns_map {A B} (m : UM A) (f : A -> B) s : returns m s -> returns (x ← m; mret (f x)) s.
Proof. intros (s' & x & Hm & Hu). exists s', (f x). by rewrite (run_bind _ _ _ _ _ Hm). Qed.

Lemma on_ep_ok {A} s n (m : Z -> UM A) :
  uinv s -> open_node s n = true -> (forall a e, u_eps s !! a = Some e -> returns (m a) s) -> returns (on_ep n m) s.
Proof.
  intros Hu Hn Hm. destruct (open_from_node s n Hu Hn) as (a & e & _ & He & Hz & Hf). unfold returns, on_ep.
  rewrite (run_bind _ _ _ _ _ Hf), (proj2 (Z.eqb_neq a 0)) by done. apply returns_skip. by eapply Hm.
Qed.

Lemma path_arg_spec cwd arg : path_arg_ok cwd arg = true ->
  cwd_ok cwd /\ match arg with UVal p => zlen p = UNIX_PATH_MAX | _ => True end.
Proof.
  unfold path_arg_ok. intros [H1 H2]%andb_true_iff. split.
  - destruct cwd; [|done]. apply has_nul. by apply bool_decide_eq_true in H1.
  - destruct arg; try done. by b2p.
Qed.

Lemma fd_ok_spec r : fd_ok r = true -> fdr_ok r.
Proof. destruct r; cbn; intros; b2p; done. Qed.

Lemma ctl_returns s cwd n cmd :
  uinv s -> open_node s n = true -> ctl_ok s cwd cmd = true -> returns (unix_sock_ioctl cwd n cmd) s.
Proof.
  intros Hu Hn Hok. destruct (open_from_node s n Hu Hn) as (a & e & _ & He & Hz & Hf). unfold returns, unix_sock_ioctl.
  rewrite (run_bind _ _ _ _ _ Hf), (proj2 (Z.eqb_neq a 0)) by done.
  destruct cmd as [arg|new arg| |new r arg copied|arg| |]; cbn [ctl_ok] in Hok;
    try (eexists _, _; split; [done|done]); try apply returns_map.
  - destruct (path_arg_spec _ _ Hok). by apply (bind_ok s cwd a e).
  - apply andb_true_iff in Hok as [[Hc Ha]%path_arg_spec Hw%bool_decide_eq_true]. by apply (connect_ok s cwd new a e).
  - by apply (listen_ok s a e).
  - apply andb_true_iff in Hok as [Hw%bool_decide_eq_true Hr%fd_ok_spec]. by apply (accept_ok s new r a e).
  - by apply (shutdown_ok s a e).
Qed.

Lemma sized_spec buf size : sized buf size = true -> zlen buf = size /\ 0 <= size < 2 ^ 32.
Proof. unfold sized. intros [[? ?]%andb_true_iff ?]%andb_true_iff. b2p. lia. Qed.

Lemma rest_spec written size : rest_of written size = true -> 0 <= written < size.
Proof. unfold rest_of. intros [? ?]%andb_true_iff. b2p. lia. Qed.

Lemma read_returns s n addr size buf :
  uinv s -> open_node s n = true -> sized buf size = true -> returns (unix_node_read n addr size buf) s.
Proof.
  intros Hu Hn [Hb Hs]%sized_spec. destruct (open_from_node s n Hu Hn) as (a & e & _ & He & Hz & Hf).
  unfold returns, unix_node_read. rewrite (run_bind _ _ _ _ _ Hf), (proj2 (Z.eqb_neq a 0)) by done. cbn [orb].
  destruct (size =? 0) eqn:E; b2p; [eauto|]. rewrite (run_bind _ _ _ _ _ (run_ep_at _ _ _ He)).
  do 2 (case_if; [eauto|]). apply (read_round_uinv s a e); [done|done|lia|done].
Qed.

Lemma write_returns s n addr size buf :
  uinv s -> open_node s n = true -> sized buf size = true -> returns (unix_node_write n addr size buf) s.
Proof.
  intros Hu Hn [Hb Hs]%sized_spec. destruct (open_from_node s n Hu Hn) as (a & e & _ & He & Hz & Hf).
  unfold returns, unix_node_write. rewrite (run_bind _ _ _ _ _ Hf), (proj2 (Z.eqb_neq a 0)) by done. cbn [orb].
  destruct (size =? 0) eqn:E; b2p; [eauto|]. rewrite (run_bind _ _ _ _ _ (run_ep_at _ _ _ He)).
  do 2 (case_if; [eauto|]). apply (write_round_uinv s a e); [done|done|lia|lia|done].
Qed.

Lemma poll_returns s n events : uinv s -> open_node s n = true -> returns (unix_node_poll n events) s.
Proof.
  intros Hu Hn. destruct (open_from_node s n Hu Hn) as (a & e & _ & He & Hz & Hf). unfold returns, unix_node_poll.
  rewrite (run_bind _ _ _ _ _ Hf), (proj2 (Z.eqb_neq a 0)) by done.
  rewrite (run_bind _ _ _ _ _ (run_ep_at _ _ _ He)). by eexists s, _.
Qed.

Lemma send_arg_spec ufds buf arg : send_arg_ok ufds buf arg = true -> send_ok ufds buf arg.
Proof.
  unfold send_arg_ok, send_ok. destruct arg as [| |a]; try done.
  intros [[[? ?]%sized_spec ?]%andb_true_iff Hl]%andb_true_iff. destruct ufds; b2p; split_and!; done || lia.
Qed.

Lemma call_returns s c : uinv s -> call_ok s c = true -> returns (run_call c) s.
Proof.
  intros Hu Hok. destruct c; cbn [call_ok run_call] in *; rewrite ?andb_true_iff in Hok.
  - destruct Hok as [?%bool_decide_eq_true ?%bool_decide_eq_true]. by apply returns_skip, sock_create_ok.
  - destruct Hok as [[[[[[[?%bool_decide_eq_true ?%bool_decide_eq_true] ?] ?%bool_decide_eq_true]
      ?%bool_decide_eq_true] ?] ?%fd_ok_spec] ?%fd_ok_spec]. b2p. by apply returns_skip, socketpair_ok.
  - destruct Hok. by apply returns_skip, ctl_returns.
  - destruct Hok as [? ?%send_arg_spec]. apply on_ep_ok; [done..|]. intros a e He. by apply (sendmsg_ok s _ _ _ a e).
  - destruct Hok as [[? [? ?]%sized_spec] ?%rest_spec]. apply on_ep_ok; [done..|]. intros a e He.
    unfold returns, payload_round. destruct (send_round_uinv s a e addr size written buf) as (s' & [w t] & Hs & Hu'); try done || lia.
    rewrite (run_bind _ _ _ _ _ Hs). destruct t; eauto.
  - destruct Hok as [? Ha]. apply on_ep_ok; [done..|]. intros a e He. apply (recvmsg_ok s _ _ _ a e); try done.
    destruct arg; b2p; done.
  - destruct Hok. by apply returns_skip, read_returns.
  - destruct Hok as [[? [? ?]%sized_spec] ?]. b2p. apply on_ep_ok; [done..|]. intros a e He. by apply (read_round_uinv s a e).
  - destruct Hok. by apply returns_skip, write_returns.
  - destruct Hok as [[? [? ?]%sized_spec] ?%rest_spec]. apply on_ep_ok; [done..|]. intros a e He.
    apply (write_round_uinv s a e); done || lia.
  - by apply returns_skip, poll_returns.
  - apply bool_decide_eq_true in Hok. destruct (node_close_ok s n Hu Hok) as (s' & Hs & Hu' & _). by exists s', tt.
Qed.

Lemma calls_return : forall cs s, uinv s -> calls_ok s cs = true -> exists s', run_calls cs s = Some (s', tt) /\ uinv s'.
Proof.
  induction cs as [|c cs IH]; intros s Hu Hok; cbn [calls_ok run_calls] in *; [by exists s|].
  apply andb_true_iff in Hok as [Hc Hr]. destruct (call_returns s c Hu Hc) as (s1 & x & Hs1 & Hu1).
  rewrite (run_bind _ _ _ _ _ Hs1). rewrite Hs1 in Hr. by apply IH.
Qed.



(** ** The byte stream

    Rounds of writes at the node [n] and of reads at the node [m]. *)
Inductive stream_op :=
  | SWrite (addr : Z) (buf : mem)
  | SWriteOn (addr written : Z) (buf : mem)
  | SRead (addr size : Z)
  | SReadOn (addr size : Z).

Definition got (r : mem * uturn) : list Z :=
  match r.2 with UDone k => take (Z.to_nat k) r.1 | UWait => [] end.

(** The bytes a round takes from the writer and gives to the reader. *)
Definition stream_step (n m : Z) (o : stream_op) : UM (list Z * list Z) :=
  match o with
  | SWrite addr buf => '(w, _, _) ← unix_node_write n addr (zlen buf) buf; mret (slice 0 w buf, [])
  | SWriteOn addr written buf =>
      ep ← ep_from_node n;
      '(w, _, _) ← write_round ep addr (zlen buf) written buf; mret (slice written (w - written) buf, [])
  | SRead addr size => r ← unix_node_read m addr size (replicate (Z.to_nat size) 0); mret ([], got r)
  | SReadOn addr size =>
      ep ← ep_from_node m;
      r ← read_round ep addr size (replicate (Z.to_nat size) 0); mret ([], got r)
  end.

Fixpoint stream_run (n m : Z) (ops : list stream_op) : UM (list Z * list Z) :=
  match ops with
  | [] => mret ([], [])
  | o :: r =>
      '(w, g) ← stream_step n m o; '(ws, gs) ← stream_run n m r; mret (w ++ ws, g ++ gs)
  end.

Definition stream_op_ok (o : stream_op) : bool :=
  match o with
  | SWrite _ buf => zlen buf <? 2 ^ 32
  | SWriteOn _ written buf => rest_of written (zlen buf) && (zlen buf <? 2 ^ 32)
  | SRead _ size => (0 <=? size) && (size <? 2 ^ 32)
  | SReadOn _ size => (0 <? size) && (size <? 2 ^ 32)
  end.

(** The nodes [n] and [m] are the two ends of a connection, and [q] are the
    bytes on their way from [n] to [m]. *)
Definition stream (s : usock) (n m : Z) (q : list Z) : Prop :=
  exists a p ea ep, u_nodes s !! n = Some a /\ u_nodes s !! m = Some p /\ u_eps s !! a = Some ea /\
    u_eps s !! p = Some ep /\ e_peer ea = p /\ e_kind ea = UEP_CONN /\ e_kind ep = UEP_CONN /\ rx_queue ep q.

Lemma rx_queue_inj e q1 q2 : rx_queue e q1 -> rx_queue e q2 -> q1 = q2.
Proof.
  intros (R1 & L1 & _) (R2 & L2 & _). apply ld_ext; [congruence|]. intros i Hi.
  rewrite <- (ring_nth _ _ _ _ i R1), <- (ring_nth _ _ _ _ i R2); lia || done.
Qed.

Lemma stream_set s n m q p e e' q' :
  stream s n m q -> u_nodes s !! m = Some p -> u_eps s !! p = Some e -> moved e e' -> rx_queue e' q' -> uinv s ->
  stream (set_eps (<[p := e']>) s) n m q'.
Proof.
  intros (a & p1 & ea & ep & Hn & Hm & Ha & Hp & Hpe & Hka & Hkp & Hq) Hm' He Hmv Hq' Hu.
  rewrite Hm in Hm'. injection Hm' as ->. rewrite He in Hp. injection Hp as ->.
  pose proof Hu as (nd & qu & Hi & _). pose proof (o_nz _ _ _ _ _ _ (c_ep _ _ _ _ _ _ Hi _ _ He)) as Hz.
  destruct (o_peer _ _ _ _ _ _ (c_ep _ _ _ _ _ _ Hi _ _ Ha)) as [Hne _]; [congruence|].
  exists a, p, ea, e'. cbn. rewrite lookup_insert_eq, lookup_insert_ne by congruence. split_and!; try done.
  by rewrite Hmv.
Qed.

Lemma write_stream s n m q a e addr written buf :
  uinv s -> stream s n m q -> u_nodes s !! n = Some a -> u_eps s !! a = Some e ->
  0 <= written < zlen buf -> zlen buf < 2 ^ 32 ->
  exists s' w t sg, write_round a addr (zlen buf) written buf s = Some (s', (w, t, sg)) /\ uinv s' /\
    stream s' n m (q ++ slice written (w - written) buf).
Proof.
  intros Hu Hs Hna He Hw Hsz. unfold write_round. rewrite (run_bind _ _ _ _ _ (run_ep_at _ _ _ He)).
  assert (slice written (written - written) buf = []) as Hnil by (by rewrite Z.sub_diag; unfold slice; cbn; rewrite take_0).
  destruct (e_shut_wr e); [eexists s, written, _, _; split; [done|]; by rewrite Hnil, app_nil_r|].
  destruct (send_round_ok s a e addr (zlen buf) written buf Hu He Hw Hsz eq_refl)
    as [[_ Hr]|(p & q1 & p' & t & Hp & Hq1 & Hmv & Hq' & Hr)]; rewrite (run_bind _ _ _ _ _ Hr); cbv beta iota.
  { eexists s, written, _, _. split; [done|]. by rewrite Hnil, app_nil_r. }
  pose proof Hs as (a1 & p1 & ea & ep & Hn & Hm & Ha & Hp1 & Hpe & Hka & Hkp & Hq).
  rewrite Hna in Hn. injection Hn as <-. rewrite He in Ha. injection Ha as <-. rewrite Hpe in *.
  rewrite Hp in Hp1. injection Hp1 as <-. assert (q1 = q) as -> by (by eapply rx_queue_inj).
  eexists _, _, t, false. split; [done|]. split; [by eapply moved_uinv|]. eapply stream_set; try done.
  by rewrite Z.add_simpl_l.
Qed.

Lemma read_stream s n m q p e addr size :
  uinv s -> stream s n m q -> u_nodes s !! m = Some p -> u_eps s !! p = Some e -> 0 < size ->
  exists s' r q', read_round p addr size (replicate (Z.to_nat size) 0) s = Some (s', r) /\ uinv s' /\
    stream s' n m q' /\ q = got r ++ q'.
Proof.
  intros Hu Hs Hm He Hsz. pose proof Hs as (a1 & p1 & ea & ep & _ & Hm1 & _ & Hp1 & _ & _ & _ & Hq).
  rewrite Hm in Hm1. injection Hm1 as <-. rewrite He in Hp1. injection Hp1 as <-.
  set (buf := replicate (Z.to_nat size) 0). assert (zlen buf = size) as Hb by (unfold buf; rewrite zlen_replicate; lia).
  destruct (e_shut_rd e) eqn:Es.
  { unfold read_round. rewrite (run_bind _ _ _ _ _ (run_ep_at _ _ _ He)), Es. by eexists s, _, q. }
  destruct (decide (q = [])) as [->|Hne].
  { unfold read_round. rewrite (run_bind _ _ _ _ _ (run_ep_at _ _ _ He)), Es. destruct Hq as (_ & Hl & _).
    rewrite <- Hl. change (0 <? zlen (@nil Z)) with false. cbv iota.
    destruct (e_eof e); [by eexists s, _, []|]. eexists s, _, []. split_and!; try done. by case_if. }
  destruct (read_round_ok s p e q addr size buf Hu He Hq Hsz ltac:(lia) Es Hne) as (e' & -> & Hmv & Hq').
  eexists _, _, _. split; [done|]. split; [by eapply moved_uinv|]. split; [by eapply stream_set|].
  unfold got. cbn [fst snd]. rewrite splice_0, take_app_le, take_take by (rewrite length_take; unfold zlen; lia).
  rewrite Nat.min_id. by rewrite take_drop.
Qed.

Lemma slice_none (m : mem) i : slice i 0 m = [].
Proof. unfold slice. by rewrite take_0. Qed.

Lemma stream_from_node s n m q : uinv s -> stream s n m q ->
  exists a p ea ep, u_nodes s !! n = Some a /\ u_nodes s !! m = Some p /\ u_eps s !! a = Some ea /\
    u_eps s !! p = Some ep /\ e_kind ea = UEP_CONN /\ e_kind ep = UEP_CONN /\ a <> 0 /\ p <> 0 /\
    ep_from_node n s = Some (s, a) /\ ep_from_node m s = Some (s, p).
Proof.
  intros Hu (a & p & ea & ep & Hn & Hm & Ha & Hp & _ & Hka & Hkp & _).
  destruct (open_from_node s n Hu) as (a' & ea' & Hn' & Ha' & Hz & Hf); [apply bool_decide_eq_true; by eexists|].
  destruct (open_from_node s m Hu) as (p' & ep' & Hm' & Hp' & Hz' & Hf'); [apply bool_decide_eq_true; by eexists|].
  simplify_eq. by exists a, p, ea, ep.
Qed.

(** The checks in front of the first round. *)
Lemma node_write_cases s n a e addr size buf :
  ep_from_node n s = Some (s, a) -> u_eps s !! a = Some e -> e_kind e = UEP_CONN -> a <> 0 ->
  unix_node_write n addr size buf s = Some (s, (0, UDone (-1), false)) \/
  size <> 0 /\ unix_node_write n addr size buf s = write_round a addr size 0 buf s.
Proof.
  intros Hf He Hk Hz. unfold unix_node_write. rewrite (run_bind _ _ _ _ _ Hf), (proj2 (Z.eqb_neq a 0) Hz). cbn [orb].
  destruct (size =? 0) eqn:E; b2p; [by left|]. rewrite (run_bind _ _ _ _ _ (run_ep_at _ _ _ He)), Hk.
  destruct (validate_user_ptr addr size =? 0); [by left|by right].
Qed.

Lemma node_read_cases s n a e addr size buf :
  ep_from_node n s = Some (s, a) -> u_eps s !! a = Some e -> e_kind e = UEP_CONN -> a <> 0 ->
  unix_node_read n addr size buf s = Some (s, (buf, UDone (-1))) \/
  size <> 0 /\ unix_node_read n addr size buf s = read_round a addr size buf s.
Proof.
  intros Hf He Hk Hz. unfold unix_node_read. rewrite (run_bind _ _ _ _ _ Hf), (proj2 (Z.eqb_neq a 0) Hz). cbn [orb].
  destruct (size =? 0) eqn:E; b2p; [by left|]. rewrite (run_bind _ _ _ _ _ (run_ep_at _ _ _ He)), Hk.
  destruct (validate_user_ptr addr size =? 0); [by left|by right].
Qed.

Lemma stream_step_ok s n m q o :
  uinv s -> stream s n m q -> stream_op_ok o = true ->
  exists s' w g q', stream_step n m o s = Some (s', (w, g)) /\ uinv s' /\ stream s' n m q' /\ q ++ w = g ++ q'.
Proof.
  intros Hu Hs Ho.
  destruct (stream_from_node s n m q Hu Hs) as (a & p & ea & ep & Hn & Hm & Ha & Hp & Hka & Hkp & Hza & Hzp & Hfn & Hfm).
  assert (exists s' w g q', Some (s, ([], [])) = Some (s', (w, g)) /\ uinv s' /\ stream s' n m q' /\ q ++ w = g ++ q')
    as Hsame by (exists s, [], [], q; by rewrite app_nil_r).
  destruct o as [addr buf|addr written buf|addr size|addr size]; cbn [stream_step stream_op_ok] in *;
    rewrite ?andb_true_iff in Ho.
  - b2p. pose proof (zlen_nonneg buf).
    destruct (node_write_cases s n a ea addr (zlen buf) buf Hfn Ha Hka Hza) as [Hc|[H0 Hc]].
    { rewrite (run_bind _ _ _ _ _ Hc). cbv beta iota. by rewrite slice_none. }
    destruct (write_stream s n m q a ea addr 0 buf) as (s' & w & t & sg & Hw & Hu' & Hs'); [done..|lia|lia|].
    rewrite Hw in Hc. rewrite (run_bind _ _ _ _ _ Hc). rewrite Z.sub_0_r in Hs'. by eexists _, _, _, _.
  - destruct Ho as [Hw%rest_spec Hl]. b2p. rewrite (run_bind _ _ _ _ _ Hfn).
    destruct (write_stream s n m q a ea addr written buf) as (s' & w & t & sg & Hr & Hu' & Hs'); [done..|].
    rewrite (run_bind _ _ _ _ _ Hr). by eexists _, _, _, _.
  - destruct Ho as [H0 H1]. b2p.
    destruct (node_read_cases s m p ep addr size (replicate (Z.to_nat size) 0) Hfm Hp Hkp Hzp) as [Hc|[Hne Hc]].
    { by rewrite (run_bind _ _ _ _ _ Hc). }
    destruct (read_stream s n m q p ep addr size) as (s' & r & q' & Hr & Hu' & Hs' & Hq); [done..|lia|].
    rewrite Hr in Hc. rewrite (run_bind _ _ _ _ _ Hc). exists s', [], (got r), q'. by rewrite app_nil_r.
  - destruct Ho as [H0 H1]. b2p. rewrite (run_bind _ _ _ _ _ Hfm).
    destruct (read_stream s n m q p ep addr size) as (s' & r & q' & Hr & Hu' & Hs' & Hq); [done..|].
    rewrite (run_bind _ _ _ _ _ Hr). exists s', [], (got r), q'. by rewrite app_nil_r.
Qed.

Lemma stream_run_ok n m : forall ops s q,
  uinv s -> stream s n m q -> forallb stream_op_ok ops = true ->
  exists s' ws gs q', stream_run n m ops s = Some (s', (ws, gs)) /\ uinv s' /\ stream s' n m q' /\ q ++ ws = gs ++ q'.
Proof.
  induction ops as [|o ops IH]; intros s q Hu Hs Hok; cbn [stream_run forallb] in *.
  { exists s, [], [], q. by rewrite app_nil_r. }
  apply andb_true_iff in Hok as [Ho Hok]. destruct (stream_step_ok s n m q o Hu Hs Ho) as (s1 & w & g & q1 & H1 & Hu1 & Hs1 & E1).
  destruct (IH s1 q1 Hu1 Hs1 Hok) as (s2 & ws & gs & q2 & H2 & Hu2 & Hs2 & E2).
  rewrite (run_bind _ _ _ _ _ H1). cbv beta iota. rewrite (run_bind _ _ _ _ _ H2). exists s2, (w ++ ws), (g ++ gs), q2.
  split_and!; try done. by rewrite app_assoc, E1, <- !app_assoc, E2.
Qed.

(** C20: the stream between two connected sockets.  In any state that socket
    calls lead to, let the nodes [n] and [m] be the two ends of a connection
    with the bytes [q] on their way.  Whatever the interleaving of write rounds
    at [n] and read rounds at [m], with full and empty buffers and bad user
    addresses, every round returns, and the bytes in flight followed by the
    bytes taken from the writer are the bytes given to the reader followed by
    those still in flight: none is lost, duplicated or reordered. *)
Theorem unix_stream_fifo cs s n m q ops :
  calls_ok unix_sock_init cs = true -> run_calls cs unix_sock_init = Some (s, tt) -> stream s n m q ->
  forallb stream_op_ok ops = true ->
  exists s' ws gs q', stream_run n m ops s = Some (s', (ws, gs)) /\ stream s' n m q' /\ q ++ ws = gs ++ q'.
Proof.
  intros Hok Hrun Hs Ho. destruct (calls_return cs _ init_uinv Hok) as (s1 & H1 & Hu). rewrite Hrun in H1.
  injection H1 as <-. destruct (stream_run_ok n m ops s q Hu Hs Ho) as (s' & ws & gs & q' & H & _ & ? & ?).
  by exists s', ws, gs, q'.
Qed.

Lemma paired_run : run_calls [CPair 10 11 20 21 (FdOk 3) (FdOk 4) SOCK_STREAM] unix_sock_init = Some (paired 10 11 20 21 unix_sock_init, tt).
Proof. vm_compute. reflexivity. Qed.

Lemma paired_stream : stream (paired 10 11 20 21 unix_sock_init) 20 21 [].
Proof.
  exists 10, 11, (pair_ep 2 11), (pair_ep 2 10). split_and!; try done. split; [|done].
  apply ring_empty; [done|]. cbn. by rewrite zlen_replicate.
Qed.

Lemma unix_stream_fifo_witness :
  exists s' ws gs q', stream_run 20 21 [SWrite 134217728 [1; 2; 3]; SRead 134217728 2; SWrite 134217728 [4]]
      (paired 10 11 20 21 unix_sock_init) = Some (s', (ws, gs)) /\
    stream s' 20 21 q' /\ [] ++ ws = gs ++ q'.
Proof.
  apply (unix_stream_fifo [CPair 10 11 20 21 (FdOk 3) (FdOk 4) SOCK_STREAM]
    (paired 10 11 20 21 unix_sock_init) 20 21 []).
  - vm_compute. reflexivity.
  - exact paired_run.
  - exact paired_stream.
  - reflexivity.
Defined.

(** ** A full descriptor table *)

(** Socketpair with a full descriptor table frees twice.  When
    [alloc_fd] finds no slot it drops the file it just made, which closes the
    socket and frees its node; [unix_socketpair] then closes the same node
    again.  So in every state socket calls lead to, a socketpair that gets its
    endpoints and nodes but no slot for the first descriptor, or none for the
    second, uses a freed node. *)
Theorem socketpair_full_table cs s a b na nb fd r :
  calls_ok unix_sock_init cs = true -> run_calls cs unix_sock_init = Some (s, tt) ->
  call_ok s (CPair a b na nb (FdOk fd) (FdOk fd) SOCK_STREAM) = true -> 0 ∉ [a; b; na; nb] ->
  unix_socketpair a b na nb FdNoSlot r SOCK_STREAM s = None /\
  unix_socketpair a b na nb (FdOk fd) FdNoSlot SOCK_STREAM s = None.
Proof.
  intros Hok Hrun Hc Hz. destruct (calls_return cs _ init_uinv Hok) as (s1 & H1 & Hu). rewrite Hrun in H1.
  injection H1 as <-. cbn [call_ok] in Hc. rewrite !andb_true_iff in Hc.
  destruct Hc as [[[[[[[Ha%bool_decide_eq_true Hb%bool_decide_eq_true] Hab] Hna%bool_decide_eq_true]
      Hnb%bool_decide_eq_true] Hn] Hfd] _]. b2p. cbn in Hfd. b2p. rewrite !not_elem_of_cons in Hz.
  destruct Hz as (Ea & Eb & Ena & Enb & _). rewrite !pair_made by done. unfold pair_fds.
  pose proof (paired_uinv s a b na nb Hu Ha Hb Hab ltac:(done) ltac:(done) Hna Hnb Hn) as Hp.
  set (sp := paired a b na nb s) in *.
  assert (forall n (k : UM (Z + Z * Z)) (k2 : Z -> UM (Z + Z * Z)), is_Some (u_nodes sp !! n) ->
    (fd ← alloc_fd FdNoSlot n; if fd <? 0 then unix_node_close n ;; k else k2 fd) sp = None) as Htwice.
  { intros n k k2 Hin. destruct (node_close_ok sp n Hp Hin) as (s2 & H2 & _ & Hn2). cbn [alloc_fd].
    rewrite (run_bind _ _ sp s2 (-1)) by (by rewrite (run_bind _ _ _ _ _ H2)). cbn [Z.ltb Z.compare].
    apply run_bind_none. unfold unix_node_close. apply run_bind_none. unfold priv. by rewrite Hn2, lookup_delete_eq. }
  split.
  - apply (Htwice na (unix_node_close nb ;; mret (inl (- EMFILE))) (fun fa => _)). cbn.
    rewrite lookup_insert_ne by done. rewrite lookup_insert_eq. eauto.
  - cbn [alloc_fd]. rewrite (run_bind _ _ sp sp fd) by done. rewrite (proj2 (Z.ltb_ge fd 0)) by done.
    apply (Htwice nb (unix_node_close na ;; mret (inl (- EMFILE))) (fun fb => _)). cbn. rewrite lookup_insert_eq. eauto.
Qed.

Lemma socketpair_full_table_witness :
  unix_socketpair 12 13 22 23 FdNoSlot (FdOk 5) SOCK_STREAM (paired 10 11 20 21 unix_sock_init) = None /\
  unix_socketpair 12 13 22 23 (FdOk 5) FdNoSlot SOCK_STREAM (paired 10 11 20 21 unix_sock_init) = None.
Proof.
  apply (socketpair_full_table [CPair 10 11 20 21 (FdOk 3) (FdOk 4) SOCK_STREAM] _ 12 13 22 23 5 (FdOk 5)).
  - vm_compute. reflexivity.
  - exact paired_run.
  - vm_compute. reflexivity.
  - apply (bool_decide_unpack _). vm_compute. exact I.
Defined.

(** ** Shutting the read side *)

Lemma shut_read_run s ep e p f :
  u_eps s !! ep = Some e -> e_peer e = p -> p <> 0 -> p <> ep -> u_eps s !! p = Some f ->
  unix_shutdown_ioctl ep (UVal SHUT_RD) s =
    Some (set_eps (fun E => <[p := with_flags (e_shut_rd f) (e_shut_wr f) (e_eof f) true f]>
                   (<[ep := with_flags true (e_shut_wr e) (e_eof e) (e_peer_no_read e) e]> E)) s, 0).
Proof.
  intros He Hp Hz Hne Hf. unfold unix_shutdown_ioctl. cbn [Z.eqb negb orb andb SHUT_RD SHUT_WR SHUT_RDWR].
  set (s1 := set_eps (<[ep := with_flags true (e_shut_wr e) (e_eof e) (e_peer_no_read e) e]>) s).
  set (s2 := set_eps (<[p := with_flags (e_shut_rd f) (e_shut_wr f) (e_eof f) true f]>) s1).
  rewrite (run_bind _ _ s s2 tt); [by rewrite (run_bind _ _ s2 s2 tt)|].
  rewrite (run_bind _ _ _ _ _ (run_upd _ _ _ _ He)). fold s1.
  rewrite (run_bind _ _ _ _ _ (run_ep_at ep _ s1 (lookup_insert_eq _ _ _))). cbn [e_peer with_flags].
  rewrite Hp, (proj2 (Z.eqb_neq p 0)) by done. rewrite (run_upd p _ f); [done|]. cbn. by rewrite lookup_insert_ne.
Qed.

(** Shutting the read side of a connected socket breaks its own writes.
    The comments say that after shutdown(SHUT_RD) the peer's writes must
    fail.  But the flag is set on the peer's endpoint, and a writer tests the
    flag of the endpoint it writes to, so it is the socket's own next write
    that sends nothing and returns EPIPE, although nobody shut its write side
    or the other's read side. *)
Theorem shutdown_read_breaks_write cs s n m q cwd addr buf :
  calls_ok unix_sock_init cs = true -> run_calls cs unix_sock_init = Some (s, tt) -> stream s n m q ->
  buf <> [] -> validate_user_ptr addr (zlen buf) <> 0 ->
  exists s' sigpipe, unix_sock_ioctl cwd n (CtlShutdown (UVal SHUT_RD)) s = Some (s', UDone 0) /\
    unix_node_write n addr (zlen buf) buf s' = Some (s', (0, UDone (- EPIPE), sigpipe)).
Proof.
  intros Hok Hrun Hs Hne Hv. destruct (calls_return cs _ init_uinv Hok) as (s1 & H1 & Hu). rewrite Hrun in H1.
  injection H1 as <-. pose proof Hs as (a & p & ea & ep & Hn & Hm & Ha & Hp & Hpe & Hka & Hkp & Hq).
  destruct (stream_from_node s n m q Hu Hs) as (a' & p' & ? & ? & Hn' & Hm' & _ & _ & _ & _ & Hza & Hzp & Hfn & _).
  rewrite Hn in Hn'. injection Hn' as <-. rewrite Hm in Hm'. injection Hm' as <-.
  pose proof Hu as (nd & qu & Hi & _).
  destruct (o_peer _ _ _ _ _ _ (c_ep _ _ _ _ _ _ Hi _ _ Ha)) as [Hpa _]; [congruence|]. rewrite Hpe in Hpa.
  pose proof (shut_read_run s a ea p ep Ha Hpe Hzp Hpa Hp) as Hshut. set (s2 := set_eps _ s) in Hshut.
  assert (u_eps s2 !! a = Some (with_flags true (e_shut_wr ea) (e_eof ea) (e_peer_no_read ea) ea)) as Ha2
    by (cbn; rewrite lookup_insert_ne by done; apply lookup_insert_eq).
  assert (ep_from_node n s2 = Some (s2, a)) as Hf2.
  { unfold ep_from_node. rewrite (run_bind _ _ _ _ _ (run_priv _ _ s2 Hn)), (run_bind _ _ _ _ _ (run_ep_at _ _ _ Ha2)).
    cbn [with_flags e_used]. by rewrite (c_used _ _ _ _ _ _ Hi _ _ Ha Hza). }
  exists s2, (negb (e_shut_wr ea)). split.
  { unfold unix_sock_ioctl. rewrite (run_bind _ _ _ _ _ Hfn), (proj2 (Z.eqb_neq a 0)) by done.
    by rewrite (run_bind _ _ _ _ _ Hshut). }
  unfold unix_node_write. rewrite (run_bind _ _ _ _ _ Hf2), (proj2 (Z.eqb_neq a 0)) by done. cbn [orb].
  rewrite (proj2 (Z.eqb_neq (zlen buf) 0)) by (destruct buf; [done|rewrite zlen_cons; pose proof (zlen_nonneg buf); lia]).
  rewrite (run_bind _ _ _ _ _ (run_ep_at _ _ _ Ha2)). cbn [with_flags e_kind]. rewrite Hka.
  cbn [bool_decide decide_rel negb]. rewrite (proj2 (Z.eqb_neq _ 0) Hv).
  change (bool_decide (UEP_CONN = UEP_CONN)) with true. cbn [negb].
  unfold write_round. rewrite (run_bind _ _ _ _ _ (run_ep_at _ _ _ Ha2)). cbn [with_flags e_shut_wr].
  destruct (e_shut_wr ea); [done|]. unfold send_round.
  rewrite (run_bind _ _ s2 s2 (0, UBroken)); [done|].
  rewrite (run_bind _ _ _ _ _ (run_ep_at _ _ _ Ha2)). cbn [with_flags e_peer]. rewrite Hpe, (proj2 (Z.eqb_neq p 0)) by done.
  rewrite (run_bind _ _ _ _ _ (run_ep_at p _ s2 (lookup_insert_eq _ _ _))). cbn [with_flags e_used e_peer_no_read].
  by rewrite orb_true_r.
Qed.

Lemma shutdown_read_breaks_write_witness :
  exists s' sigpipe, unix_sock_ioctl None 20 (CtlShutdown (UVal SHUT_RD)) (paired 10 11 20 21 unix_sock_init)
      = Some (s', UDone 0) /\
    unix_node_write 20 134217728 (zlen [7]) [7] s' = Some (s', (0, UDone (- EPIPE), sigpipe)).
Proof.
  apply (shutdown_read_breaks_write [CPair 10 11 20 21 (FdOk 3) (FdOk 4) SOCK_STREAM] _ 20 21 []).
  - vm_compute. reflexivity.
  - exact paired_run.
  - exact paired_stream.
  - discriminate.
  - discriminate.
Defined.
