(* ===== verification/PageCache.v ===== *)
(** * pagecache.c: the block cache

    Model of [drivers/block/pagecache/pagecache.c] on top of [Blkdev.v].  A
    [struct page *] is an index into the static pool, [None] the null pointer.
    The data buffer of a page belongs to that page alone, so its contents are
    kept in the page; the pointer [pc_get_page] returns is the page's index.

    The lock makes the parts of [pc_get_page] between acquire and release
    atomic: [pc_lookup], [pc_claim] and [pc_insert] are those parts, and
    [pc_fill] is the disk access between the last two, outside the lock.  The
    result of [kalloc] is an argument: the contents of a fresh page, or
    nothing. *)
From S2P Require Import Prelude StateM Klib Blkdev.

#[local] Open Scope Z_scope.

Definition PC_MAX_PAGES : nat := 256.
Definition PC_MAX_BLOCK_SIZE : Z := 4096.
Definition PC_HASH_SIZE : Z := 64.
Definition PC_FLAG_VALID : Z := 1.
Definition PC_FLAG_DIRTY : Z := 2.
Definition PC_FLAG_USED : Z := 4.

(** [struct page] *)
Record page := Page {
  p_dev : Z;
  p_flags : Z;
  p_block_no : Z;
  p_block_size : Z;
  p_pin : Z;
  p_hash_next : option nat;
  p_lru_prev : option nat;
  p_lru_next : option nat;
  p_data : option mem
}.

Definition page_zero : page := Page 0 0 0 0 0 None None None None.

Definition set_flags (f : Z) (p : page) : page :=
  Page (p_dev p) f (p_block_no p) (p_block_size p) (p_pin p) (p_hash_next p) (p_lru_prev p) (p_lru_next p) (p_data p).
Definition set_pin (n : Z) (p : page) : page :=
  Page (p_dev p) (p_flags p) (p_block_no p) (p_block_size p) n (p_hash_next p) (p_lru_prev p) (p_lru_next p) (p_data p).
Definition set_hash_next (h : option nat) (p : page) : page :=
  Page (p_dev p) (p_flags p) (p_block_no p) (p_block_size p) (p_pin p) h (p_lru_prev p) (p_lru_next p) (p_data p).
Definition set_lru_prev (l : option nat) (p : page) : page :=
  Page (p_dev p) (p_flags p) (p_block_no p) (p_block_size p) (p_pin p) (p_hash_next p) l (p_lru_next p) (p_data p).
Definition set_lru_next (l : option nat) (p : page) : page :=
  Page (p_dev p) (p_flags p) (p_block_no p) (p_block_size p) (p_pin p) (p_hash_next p) (p_lru_prev p) l (p_data p).
Definition set_data (d : option mem) (p : page) : page :=
  Page (p_dev p) (p_flags p) (p_block_no p) (p_block_size p) (p_pin p) (p_hash_next p) (p_lru_prev p) (p_lru_next p) d.
Definition claim (dev blk size : Z) (p : page) : page :=
  Page dev PC_FLAG_USED blk size 1 (p_hash_next p) (p_lru_prev p) (p_lru_next p) (p_data p).

Definition has_flag (p : page) (bit : Z) : bool := negb (Z.land (p_flags p) bit =? 0).

(** The bucket of a block. *)
Definition _hash (dev block_no : Z) : Z :=
  let h := Z.lxor dev block_no in
  let h := Z.lxor h (Z.shiftr h 16) in
  let h := u32 (h * 0x45d9f3b) in
  let h := Z.lxor h (Z.shiftr h 16) in
  Z.land h (PC_HASH_SIZE - 1).

Section PageCache.
Context {D : Type} `{DD : DiskDriver D}.

Record pcache := Pc {
  pool : list page;
  hash_table : list (option nat);
  lru_head : option nat;
  lru_tail : option nat;
  stat_hits : Z;
  stat_misses : Z;
  stat_evictions : Z;
  stat_writebacks : Z;
  pc_blk : blk D
}.

#[local] Abbreviation PM := (M pcache).

Definition set_pool (f : list page -> list page) (s : pcache) : pcache :=
  Pc (f (pool s)) (hash_table s) (lru_head s) (lru_tail s) (stat_hits s) (stat_misses s) (stat_evictions s)
    (stat_writebacks s) (pc_blk s).
Definition set_table (f : list (option nat) -> list (option nat)) (s : pcache) : pcache :=
  Pc (pool s) (f (hash_table s)) (lru_head s) (lru_tail s) (stat_hits s) (stat_misses s) (stat_evictions s)
    (stat_writebacks s) (pc_blk s).
Definition set_head (h : option nat) (s : pcache) : pcache :=
  Pc (pool s) (hash_table s) h (lru_tail s) (stat_hits s) (stat_misses s) (stat_evictions s)
    (stat_writebacks s) (pc_blk s).
Definition set_tail (t : option nat) (s : pcache) : pcache :=
  Pc (pool s) (hash_table s) (lru_head s) t (stat_hits s) (stat_misses s) (stat_evictions s)
    (stat_writebacks s) (pc_blk s).
Definition set_blk (b : blk D) (s : pcache) : pcache :=
  Pc (pool s) (hash_table s) (lru_head s) (lru_tail s) (stat_hits s) (stat_misses s) (stat_evictions s)
    (stat_writebacks s) b.
(** The counters, each one more. *)
Definition count (hit miss evict wb : Z) (s : pcache) : pcache :=
  Pc (pool s) (hash_table s) (lru_head s) (lru_tail s) (u32 (stat_hits s + hit)) (u32 (stat_misses s + miss))
    (u32 (stat_evictions s + evict)) (u32 (stat_writebacks s + wb)) (pc_blk s).

Definition page_at (i : nat) : PM page := fun s => p ← pool s !! i; Some (s, p).
Definition upd (i : nat) (f : page -> page) : PM unit := p ← page_at i; modify (set_pool (<[i := f p]>)).
Definition bucket_at (b : Z) : PM (option nat) := fun s => h ← ld (hash_table s) b; Some (s, h).

(** The walk along a bucket's links that takes [p] out. *)
Fixpoint unlink_loop (fuel : nat) (b : Z) (p : nat) (prev cur : option nat) : PM unit :=
  match fuel with
  | O => fail
  | S fuel =>
      match cur with
      | None => skip
      | Some c =>
          e ← page_at c;
          if bool_decide (c = p) then
            (match prev with
             | None => modify (set_table (<[Z.to_nat b := p_hash_next e]>))
             | Some q => upd q (set_hash_next (p_hash_next e))
             end) ;;
            upd p (set_hash_next None)
          else unlink_loop fuel b p (Some c) (p_hash_next e)
      end
  end.

Definition _hash_remove (p : nat) : PM unit :=
  e ← page_at p;
  let bucket := _hash (p_dev e) (p_block_no e) in
  h ← bucket_at bucket;
  unlink_loop (S PC_MAX_PAGES) bucket p None h.

Definition _hash_insert (p : nat) : PM unit :=
  e ← page_at p;
  let bucket := _hash (p_dev e) (p_block_no e) in
  h ← bucket_at bucket;
  upd p (set_hash_next h) ;;
  modify (set_table (<[Z.to_nat bucket := Some p]>)).

Fixpoint find_loop (fuel : nat) (dev blk : Z) (cur : option nat) : PM (option nat) :=
  match fuel with
  | O => fail
  | S fuel =>
      match cur with
      | None => mret None
      | Some c =>
          e ← page_at c;
          if (p_dev e =? dev) && (p_block_no e =? blk) then mret (Some c)
          else find_loop fuel dev blk (p_hash_next e)
      end
  end.

Definition _hash_find (dev block_no : Z) : PM (option nat) :=
  h ← bucket_at (_hash dev block_no);
  find_loop (S PC_MAX_PAGES) dev block_no h.

Definition _lru_remove (p : nat) : PM unit :=
  e ← page_at p;
  (match p_lru_prev e with
   | Some q => upd q (set_lru_next (p_lru_next e))
   | None => modify (set_head (p_lru_next e))
   end) ;;
  e ← page_at p;
  (match p_lru_next e with
   | Some q => upd q (set_lru_prev (p_lru_prev e))
   | None => modify (set_tail (p_lru_prev e))
   end) ;;
  upd p (fun e => set_lru_prev None (set_lru_next None e)).

Definition _lru_touch (p : nat) : PM unit :=
  h ← gets lru_head;
  if bool_decide (h = Some p) then skip
  else
    e ← page_at p;
    t ← gets lru_tail;
    (if negb (bool_decide (p_lru_prev e = None)) || negb (bool_decide (p_lru_next e = None))
        || bool_decide (t = Some p)
     then _lru_remove p else skip) ;;
    h ← gets lru_head;
    upd p (fun e => set_lru_prev None (set_lru_next h e)) ;;
    (match h with Some q => upd q (set_lru_prev (Some p)) | None => skip end) ;;
    modify (set_head (Some p)) ;;
    t ← gets lru_tail;
    if bool_decide (t = None) then modify (set_tail (Some p)) else skip.

(** The sectors of a page, from the [i]-th on. *)
Fixpoint write_sectors (n : nat) (bd lba i : Z) (d : mem) : PM unit :=
  match n with
  | O => skip
  | S n =>
      s ← gets pc_blk;
      '(s, _) ← lift (blkdev_write (Some bd) (u32 (lba + i)) (drop (Z.to_nat (i * 512)) d) s);
      modify (set_blk s) ;;
      write_sectors n bd lba (i + 1) d
  end.

Definition clean (p : page) : page := set_flags (Z.land (p_flags p) 253) p.

Definition _writeback (p : nat) : PM unit :=
  e ← page_at p;
  if negb (has_flag e PC_FLAG_DIRTY) then skip
  else match p_data e with
  | None => upd p clean
  | Some d =>
      s ← gets pc_blk;
      bd ← lift (blkdev_by_id (p_dev e) s);
      match bd with
      | None => upd p clean
      | Some bd =>
          let spb := p_block_size e / 512 in
          write_sectors (Z.to_nat spb) bd (u32 (p_block_no e * spb)) 0 d ;;
          upd p clean ;;
          modify (count 0 0 0 1)
      end
  end.

Definition _writeback_pinned (p : nat) : PM unit :=
  upd p (fun e => set_pin (p_pin e + 1) e) ;;
  _writeback p ;;
  upd p (fun e => set_pin (p_pin e - 1) e).

(** From the least recently used page towards the most recently used. *)
Fixpoint evict_loop (fuel : nat) (cur : option nat) : PM (option nat) :=
  match fuel with
  | O => fail
  | S fuel =>
      match cur with
      | None => mret None
      | Some p =>
          e ← page_at p;
          if p_pin e =? 0 then
            (if has_flag e PC_FLAG_DIRTY then _writeback p else skip) ;;
            _lru_remove p ;;
            _hash_remove p ;;
            upd p (fun e => set_pin 0 (set_flags 0 e)) ;;
            modify (count 0 0 1 0) ;;
            mret (Some p)
          else evict_loop fuel (p_lru_prev e)
      end
  end.

Definition _evict_one : PM (option nat) :=
  t ← gets lru_tail; evict_loop (S PC_MAX_PAGES) t.

Definition _alloc_page : PM (option nat) :=
  l ← gets pool;
  match list_find (fun p => has_flag p PC_FLAG_USED = false) l with
  | Some (i, _) => mret (Some i)
  | None => _evict_one
  end.

Definition pc_init (b : blk D) : pcache :=
  Pc (replicate PC_MAX_PAGES page_zero) (replicate (Z.to_nat PC_HASH_SIZE) None) None None 0 0 0 0 b.

(** A pointer to the page's data; a page without data gives the null
    pointer. *)
Definition data_ptr (p : nat) : PM (option nat) :=
  e ← page_at p; mret (match p_data e with Some _ => Some p | None => None end).

(** The first locked part of [pc_get_page]: [Some r] when the block is
    cached and [r] is returned. *)
Definition pc_lookup (dev block_no : Z) : PM (option (option nat)) :=
  p ← _hash_find dev block_no;
  match p with
  | Some p =>
      modify (count 1 0 0 0) ;;
      upd p (fun e => set_pin (p_pin e + 1) e) ;;
      _lru_touch p ;;
      r ← data_ptr p; mret (Some r)
  | None => modify (count 0 1 0 0) ;; mret None
  end.

(** The device a block is read from. *)
Definition target (dev : Z) : PM (option Z) :=
  s ← gets pc_blk;
  bd ← lift (blkdev_by_id dev s);
  mret (match bd with Some bd => Some bd | None => blkdev_get_boot s end).

(** The checks of the arguments: nothing when [pc_get_page] returns null,
    else the device, which may be the null pointer. *)
Definition pc_check (dev block_no block_size : Z) : PM (option (option Z)) :=
  if (block_size =? 0) || negb (block_size mod 512 =? 0) then mret None
  else if PC_MAX_BLOCK_SIZE <? block_size then mret None
  else
    let spb := block_size / 512 in
    bd ← target dev;
    match bd with
    | None => mret (Some None)
    | Some b =>
        if 4294967295 / spb <? block_no then mret None
        else
          s ← gets pc_blk;
          d ← lift (ld (devices s) b);
          mret (if d_max_lba d <? u32 (u32 (block_no * spb) + spb) then None else Some bd)
    end.

(** The second locked part: a page is taken and pinned. *)
Definition pc_claim (dev block_no block_size : Z) : PM (option nat) :=
  p ← _alloc_page;
  match p with
  | None => mret None
  | Some p => upd p (claim dev block_no block_size) ;; mret (Some p)
  end.

Fixpoint read_sectors (n : nat) (bd : option Z) (lba i : Z) (d : mem) : PM mem :=
  match n with
  | O => mret d
  | S n =>
      s ← gets pc_blk;
      '(b, _) ← lift (blkdev_read bd (u32 (lba + i)) (drop (Z.to_nat (i * 512)) d) s);
      read_sectors n bd lba (i + 1) (take (Z.to_nat (i * 512)) d ++ b)
  end.

(** Outside the lock: the buffer is allocated if there is none, and the
    block read into it.  [false] when there is no memory. *)
Definition pc_fill (fresh : option mem) (bd : option Z) (block_no block_size : Z) (p : nat) : PM bool :=
  e ← page_at p;
  match match p_data e with Some d => Some d | None => fresh end with
  | None => upd p (fun e => set_pin 0 (set_flags 0 e)) ;; mret false
  | Some d =>
      boot ← gets (fun s => blkdev_get_boot (pc_blk s));
      let bd := match bd with Some b => Some b | None => boot end in
      let spb := block_size / 512 in
      d ← lift (memset d 0 0 block_size);
      d ← read_sectors (Z.to_nat spb) bd (u32 (block_no * spb)) 0 d;
      upd p (set_data (Some d)) ;; mret true
  end.

(** The third locked part: unless another task has cached the block in the
    meantime the page goes into the table. *)
Definition pc_insert (dev block_no : Z) (p : nat) : PM (option nat) :=
  existing ← _hash_find dev block_no;
  match existing with
  | Some q =>
      upd q (fun e => set_pin (p_pin e + 1) e) ;;
      _lru_touch q ;;
      upd p (fun e => set_pin 0 (set_flags 0 e)) ;;
      data_ptr q
  | None =>
      upd p (fun e => set_flags (Z.lor (p_flags e) PC_FLAG_VALID) e) ;;
      _hash_insert p ;;
      _lru_touch p ;;
      data_ptr p
  end.

Definition pc_get_page (fresh : option mem) (dev block_no block_size : Z) : PM (option nat) :=
  r ← pc_lookup dev block_no;
  match r with
  | Some r => mret r
  | None =>
      c ← pc_check dev block_no block_size;
      match c with
      | None => mret None
      | Some bd =>
          p ← pc_claim dev block_no block_size;
          match p with
          | None => mret None
          | Some p =>
              ok ← pc_fill fresh bd block_no block_size p;
              if negb ok then mret None else pc_insert dev block_no p
          end
      end
  end.

Definition pc_mark_dirty (dev block_no : Z) : PM unit :=
  p ← _hash_find dev block_no;
  match p with
  | None => skip
  | Some p =>
      upd p (fun e => set_flags (Z.lor (p_flags e) PC_FLAG_DIRTY) e) ;;
      _writeback_pinned p
  end.

Definition pc_put_page (dev block_no : Z) : PM unit :=
  p ← _hash_find dev block_no;
  match p with
  | None => skip
  | Some p =>
      e ← page_at p;
      if p_pin e =? 0 then skip else upd p (fun e => set_pin (p_pin e - 1) e)
  end.

Definition flush_one (dev : Z) (p : nat) : PM unit :=
  e ← page_at p;
  if (Z.land (p_flags e) (Z.lor PC_FLAG_VALID PC_FLAG_DIRTY) =? Z.lor PC_FLAG_VALID PC_FLAG_DIRTY)
     && (p_dev e =? dev)
  then _writeback_pinned p else skip.

Definition pc_flush_dev (dev : Z) : PM unit := for_each (seq 0 PC_MAX_PAGES) (flush_one dev).

(** A page leaves the cache and gives its buffer to [free_page]. *)
Definition drop_page (p : nat) : PM unit :=
  _lru_remove p ;;
  _hash_remove p ;;
  upd p (fun e => set_pin 0 (set_flags 0 (set_data None e))).

Definition pc_invalidate_block (dev block_no : Z) : PM unit :=
  p ← _hash_find dev block_no;
  match p with
  | None => skip
  | Some p =>
      e ← page_at p;
      if 0 <? p_pin e then skip
      else
        (if has_flag e PC_FLAG_DIRTY then _writeback_pinned p else skip) ;;
        drop_page p
  end.

Definition invalidate_one (dev : Z) (p : nat) : PM unit :=
  e ← page_at p;
  if has_flag e PC_FLAG_VALID && (p_dev e =? dev) then
    if 0 <? p_pin e then skip else drop_page p
  else skip.

Definition pc_invalidate_dev (dev : Z) : PM unit :=
  pc_flush_dev dev ;;
  for_each (seq 0 PC_MAX_PAGES) (invalidate_one dev).
End PageCache.
Arguments pcache D : clear implicits.
