(* ===== verification/PageCacheSpec.v ===== *)
(** * The page cache's lists and tables

    The links of [PageCache.v] against plain lists: [lru_rep] for the list in
    order of use, [chains] for the hash buckets.  The operations on links are
    specified on the lists, and say that nothing but the links changes. *)
From S2P Require Import Prelude StateM Klib Blkdev PageCache.

#[local] Open Scope Z_scope.
#[local] Abbreviation last := list.last.

(** ** Segments of the doubly linked list

    [dseg P pp L nn]: the pages of [L] are linked in order; [pp] is before
    the first one and [nn] behind the last one. *)
Definition or_else {A} (o d : option A) : option A := match o with Some a => Some a | None => d end.

Fixpoint dseg (P : list page) (pp : option nat) (L : list nat) (nn : option nat) : Prop :=
  match L with
  | [] => True
  | x :: r =>
      (exists e, P !! x = Some e /\ p_lru_prev e = pp /\ p_lru_next e = or_else (head r) nn) /\
      dseg P (Some x) r nn
  end.

(** ** Chains of a bucket *)
Fixpoint hseg (P : list page) (h : option nat) (H : list nat) : Prop :=
  match H with
  | [] => h = None
  | x :: r => h = Some x /\ exists e, P !! x = Some e /\ hseg P (p_hash_next e) r
  end.

(** What of the pages stays: [f] of every page is as before. *)
Definition agree {A} (f : page -> A) (P P' : list page) : Prop := forall i, f <$> P' !! i = f <$> P !! i.

Definition key (p : page) : Z * Z := (p_dev p, p_block_no p).
Definition core (p : page) : Z * Z * Z * Z * Z * option mem :=
  (key p, p_flags p, p_block_size p, p_pin p, p_data p).
Definition lru_links (p : page) : option nat * option nat := (p_lru_prev p, p_lru_next p).

Lemma agree_refl {A} (f : page -> A) P : agree f P P.
Proof. by intros i. Qed.

Lemma agree_trans {A} (f : page -> A) P Q R : agree f P Q -> agree f Q R -> agree f P R.
Proof. intros H1 H2 i. by rewrite H2. Qed.

Lemma agree_insert {A} (f : page -> A) P x e e' : P !! x = Some e -> f e' = f e -> agree f P (<[x := e']> P).
Proof.
  intros Hx Hc i. destruct (decide (i = x)) as [->|Hne]; [|by rewrite list_lookup_insert_ne].
  rewrite list_lookup_insert_eq by (by eapply lookup_lt_Some). rewrite Hx. cbn. by rewrite Hc.
Qed.

Lemma agree_some {A} (f : page -> A) P P' i e : agree f P P' -> P !! i = Some e -> exists e', P' !! i = Some e' /\ f e' = f e.
Proof.
  intros H Hi. specialize (H i). rewrite Hi in H. destruct (P' !! i) as [e'|]; [|done].
  apply (inj Some) in H. by exists e'.
Qed.

Lemma agree_sym {A} (f : page -> A) P P' : agree f P P' -> agree f P' P.
Proof. by intros H i. Qed.

Lemma agree_pair {A B} (f : page -> A) (g : page -> B) P P' :
  agree f P P' -> agree g P P' -> agree (fun p => (f p, g p)) P P'.
Proof.
  intros H1 H2 i. specialize (H1 i). specialize (H2 i). destruct (P' !! i), (P !! i); cbn in *; congruence.
Qed.

Lemma agree_weaken {A B} (f : page -> A) (g : A -> B) P P' : agree f P P' -> agree (fun p => g (f p)) P P'.
Proof. intros H i. specialize (H i). destruct (P' !! i), (P !! i); cbn in *; congruence. Qed.

Lemma dseg_app P : forall A pp B nn,
  dseg P pp (A ++ B) nn <-> dseg P pp A (or_else (head B) nn) /\ dseg P (or_else (last A) pp) B nn.
Proof.
  induction A as [|a A IH]; intros pp B nn; cbn [app dseg]; [cbn; tauto|].
  rewrite IH. rewrite last_cons. assert (or_else (head (A ++ B)) nn = or_else (head A) (or_else (head B) nn)) as ->
    by (by destruct A, B). destruct (last A); cbn; tauto.
Qed.

Lemma dseg_frame P P' : forall L pp nn,
  (forall x e, x ∈ L -> P !! x = Some e -> exists e', P' !! x = Some e' /\ p_lru_prev e' = p_lru_prev e /\ p_lru_next e' = p_lru_next e) ->
  dseg P pp L nn -> dseg P' pp L nn.
Proof.
  induction L as [|x L IH]; intros pp nn Hf; [done|]. cbn [dseg]. intros [(e & He & Hp & Hn) Hr]. split.
  - destruct (Hf x e) as (e' & He' & E1 & E2); [by left|done|]. exists e'. by rewrite E1, E2.
  - apply IH; [|done]. intros y ey Hy. apply Hf. by right.
Qed.

Lemma dseg_insert_out P L pp nn x e : x ∉ L -> dseg P pp L nn -> dseg (<[x := e]> P) pp L nn.
Proof.
  intros Hx. apply dseg_frame. intros y ey Hy Hl. exists ey. rewrite list_lookup_insert_ne; [done|]. congruence.
Qed.

(** The last page of a segment gets another successor. *)
Lemma dseg_set_next P L pp nn x e nn' :
  NoDup (L ++ [x]) -> dseg P pp (L ++ [x]) nn -> P !! x = Some e ->
  dseg (<[x := set_lru_next nn' e]> P) pp (L ++ [x]) nn'.
Proof.
  intros Hnd Hd Hx. apply list.NoDup_app in Hnd as (_ & Hdis & _). apply dseg_app in Hd as [H1 H2]. apply dseg_app.
  assert (x ∉ L) as Hn by (intros Hin; apply (Hdis _ Hin); by left). split; [by apply dseg_insert_out|].
  cbn [dseg] in *. destruct H2 as [(e1 & He1 & Hp & _) _]. rewrite Hx in He1. injection He1 as <-. split; [|done].
  eexists. rewrite list_lookup_insert_eq by (by eapply lookup_lt_Some). done.
Qed.

(** The first page of a segment gets another predecessor. *)
Lemma dseg_set_prev P L pp nn x e pp' :
  NoDup (x :: L) -> dseg P pp (x :: L) nn -> P !! x = Some e ->
  dseg (<[x := set_lru_prev pp' e]> P) pp' (x :: L) nn.
Proof.
  intros Hnd Hd Hx. inversion_clear Hnd as [|? ? Hn _]. cbn [dseg] in *. destruct Hd as [(e1 & He1 & _ & Hnx) Hr].
  rewrite Hx in He1. injection He1 as <-. split; [|by apply dseg_insert_out].
  eexists. rewrite list_lookup_insert_eq by (by eapply lookup_lt_Some). done.
Qed.

Lemma hseg_frame P P' : forall H h,
  (forall x e, x ∈ H -> P !! x = Some e -> exists e', P' !! x = Some e' /\ p_hash_next e' = p_hash_next e) ->
  hseg P h H -> hseg P' h H.
Proof.
  induction H as [|x H IH]; intros h Hf; [done|]. cbn [hseg]. intros (-> & e & He & Hr). split; [done|].
  destruct (Hf x e) as (e' & He' & E); [by left|done|]. exists e'. split; [done|]. rewrite E. apply IH; [|done].
  intros y ey Hy. apply Hf. by right.
Qed.

Lemma hseg_insert_out P H h x e : x ∉ H -> hseg P h H -> hseg (<[x := e]> P) h H.
Proof.
  intros Hx. apply hseg_frame. intros y ey Hy Hl. exists ey. rewrite list_lookup_insert_ne; [done|]. congruence.
Qed.

(** ** The cache's state *)

Section Lists.
Context {D : Type} `{DD : DiskDriver D}.
Implicit Types s : pcache D.

Record lru_rep s (L : list nat) : Prop := {
  l_seg : dseg (pool s) None L None;
  l_head : lru_head s = head L;
  l_tail : lru_tail s = last L;
  l_nodup : NoDup L;
  l_out : forall x e, pool s !! x = Some e -> x ∉ L -> p_lru_prev e = None /\ p_lru_next e = None
}.

Definition bucket (e : page) : Z := _hash (p_dev e) (p_block_no e).

Record chains s (Hs : Z -> list nat) : Prop := {
  h_len : zlen (hash_table s) = PC_HASH_SIZE;
  h_seg : forall b, 0 <= b < PC_HASH_SIZE -> exists h, ld (hash_table s) b = Some h /\ hseg (pool s) h (Hs b);
  h_nodup : forall b, NoDup (Hs b);
  h_key : forall b x, x ∈ Hs b -> exists e, pool s !! x = Some e /\ bucket e = b
}.

(** Only the order of use, only the chains changed. *)
Definition only_lru s s' : Prop :=
  agree (fun p => (core p, p_hash_next p)) (pool s) (pool s') /\ hash_table s' = hash_table s /\ pc_blk s' = pc_blk s.
Definition only_hash s s' : Prop :=
  agree (fun p => (core p, lru_links p)) (pool s) (pool s') /\ lru_head s' = lru_head s /\ lru_tail s' = lru_tail s /\
  pc_blk s' = pc_blk s.

Lemma lru_frame s s' L :
  agree lru_links (pool s) (pool s') -> lru_head s' = lru_head s -> lru_tail s' = lru_tail s ->
  lru_rep s L -> lru_rep s' L.
Proof.
  intros Ha Hh Ht [R1 R2 R3 R4 R5]. split; [|congruence|congruence|done|].
  - eapply dseg_frame; [|exact R1]. intros x e _ Hx. destruct (agree_some _ _ _ _ _ Ha Hx) as (e' & He' & E).
    exists e'. injection E as ? ?. done.
  - intros x e' Hx Hn. destruct (agree_some _ _ _ _ _ (agree_sym _ _ _ Ha) Hx) as (e & He & E).
    injection E as E1 E2. destruct (R5 x e He Hn). by rewrite <- E1, <- E2.
Qed.

Lemma chains_frame s s' Hs :
  agree (fun p => (key p, p_hash_next p)) (pool s) (pool s') -> hash_table s' = hash_table s ->
  chains s Hs -> chains s' Hs.
Proof.
  intros Ha Ht [R1 R2 R3 R4]. split; [by rewrite Ht| |done|].
  - intros b Hb. destruct (R2 b Hb) as (h & Hh & Hseg). exists h. rewrite Ht. split; [done|].
    eapply hseg_frame; [|exact Hseg]. intros x e _ Hx. destruct (agree_some _ _ _ _ _ Ha Hx) as (e' & He' & E).
    exists e'. by injection E.
  - intros b x Hx. destruct (R4 b x Hx) as (e & He & Hb). destruct (agree_some _ _ _ _ _ Ha He) as (e' & He' & E).
    exists e'. split; [done|]. unfold bucket in *. injection E as E1 E2 _. by rewrite E1, E2.
Qed.

Lemma run_page_at i e s : pool s !! i = Some e -> page_at i s = Some (s, e).
Proof. intros H. unfold page_at. by rewrite H. Qed.

Lemma run_page_upd i f e s : pool s !! i = Some e -> upd i f s = Some (set_pool (<[i := f e]>) s, tt).
Proof. intros H. unfold upd. by rewrite (run_bind _ _ _ _ _ (run_page_at _ _ _ H)). Qed.

(** ** The list in order of use *)

Lemma lru_at s A x B :
  lru_rep s (A ++ x :: B) ->
  exists e, pool s !! x = Some e /\ p_lru_prev e = last A /\ p_lru_next e = head B /\ (x ∉ A) /\ (x ∉ B).
Proof.
  intros [R1 _ _ R4 _]. apply dseg_app in R1 as [_ R1]. cbn [dseg] in R1. destruct R1 as [(e & He & Hp & Hn) _].
  apply list.NoDup_app in R4 as (_ & R4 & R5). inversion_clear R5 as [|? ? Hx _]. exists e. split; [done|].
  split; [rewrite Hp; by destruct (last A)|]. split; [rewrite Hn; by destruct (head B)|].
  split; [|done]. intros Hin. apply (R4 _ Hin). by left.
Qed.

Lemma dseg_member P : forall L pp nn x, dseg P pp L nn -> x ∈ L -> exists e, P !! x = Some e.
Proof.
  induction L as [|y L IH]; intros pp nn x Hd Hx; [by apply not_elem_of_nil in Hx|].
  destruct Hd as [(e & He & _) Hd]. apply elem_of_cons in Hx as [->|Hx]; eauto.
Qed.

Lemma only_lru_upd s i f e :
  pool s !! i = Some e -> core (f e) = core e -> p_hash_next (f e) = p_hash_next e -> only_lru s (set_pool (<[i := f e]>) s).
Proof. intros Hi Hc Hh. split; [|done]. eapply agree_insert; [done|]. by rewrite Hc, Hh. Qed.

Lemma only_lru_trans s1 s2 s3 : only_lru s1 s2 -> only_lru s2 s3 -> only_lru s1 s3.
Proof. intros (A1 & B1 & C1) (A2 & B2 & C2). split; [by eapply agree_trans|]. split; congruence. Qed.

Lemma only_lru_refl s : only_lru s s.
Proof. split; [apply agree_refl|done]. Qed.

(** The store into the page before the one that is taken out. *)
Lemma unlink_prev s A nn nn' :
  dseg (pool s) None A nn -> NoDup A ->
  exists s1, (match last A with Some q => upd q (set_lru_next nn') | None => modify (set_head nn') end) s
      = Some (s1, tt) /\
    only_lru s s1 /\ dseg (pool s1) None A nn' /\ lru_tail s1 = lru_tail s /\
    lru_head s1 = (if bool_decide (A = []) then nn' else lru_head s) /\
    (forall y, y ∉ A -> pool s1 !! y = pool s !! y).
Proof.
  intros Hd Hnd. destruct (last A) as [q|] eqn:El.
  - apply last_Some in El as [A' ->]. destruct (dseg_member _ _ _ _ q Hd) as [e He]; [set_solver|].
    rewrite (run_page_upd _ _ _ _ He). eexists. split; [done|]. split; [by apply only_lru_upd|].
    split; [by eapply dseg_set_next|]. split; [done|]. split; [by rewrite bool_decide_eq_false_2 by (by destruct A')|].
    intros y Hy. cbn. apply list_lookup_insert_ne. set_solver.
  - apply last_None in El as ->. eexists. split; [done|]. split; [done|]. done.
Qed.

(** The store into the page behind it. *)
Lemma unlink_next s B pp pp' :
  dseg (pool s) pp B None -> NoDup B ->
  exists s1, (match head B with Some q => upd q (set_lru_prev pp') | None => modify (set_tail pp') end) s
      = Some (s1, tt) /\
    only_lru s s1 /\ dseg (pool s1) pp' B None /\ lru_head s1 = lru_head s /\
    lru_tail s1 = (if bool_decide (B = []) then pp' else lru_tail s) /\
    (forall y, y ∉ B -> pool s1 !! y = pool s !! y).
Proof.
  intros Hd Hnd. destruct B as [|q B]; cbn [head].
  - eexists. split; [done|]. split; [done|]. done.
  - destruct (dseg_member _ _ _ _ q Hd) as [e He]; [set_solver|].
    rewrite (run_page_upd _ _ _ _ He). eexists. split; [done|]. split; [by apply only_lru_upd|].
    split; [by eapply dseg_set_prev|]. split; [done|]. split; [done|].
    intros y Hy. cbn. apply list_lookup_insert_ne. set_solver.
Qed.

Lemma lru_remove_ok s A x B :
  lru_rep s (A ++ x :: B) ->
  exists s', _lru_remove x s = Some (s', tt) /\ only_lru s s' /\ lru_rep s' (A ++ B).
Proof.
  intros R. pose proof (lru_at _ _ _ _ R) as (e & He & Hp & Hn & HxA & HxB). destruct R as [R1 R2 R3 R4 R5].
  pose proof R4 as Hnd. apply list.NoDup_app in Hnd as (HndA & Hdis & HndB). inversion_clear HndB as [|? ? _ HndB'].
  apply dseg_app in R1 as [RA RB]. cbn [dseg] in RB. destruct RB as [_ RB].
  unfold _lru_remove. rewrite (run_bind _ _ _ _ _ (run_page_at _ _ _ He)), Hp, Hn.
  destruct (unlink_prev s A _ (head B) RA HndA) as (s1 & H1 & O1 & D1 & T1 & E1 & F1).
  rewrite (run_bind _ _ _ _ _ H1). assert (pool s1 !! x = Some e) as He1 by (by rewrite F1).
  rewrite (run_bind _ _ _ _ _ (run_page_at _ _ _ He1)), Hp, Hn.
  assert (forall y, y ∈ B -> pool s1 !! y = pool s !! y) as FB.
  { intros y Hy. apply F1. intros Hin. apply (Hdis _ Hin). by right. }
  assert (dseg (pool s1) (Some x) B None) as RB1.
  { eapply dseg_frame; [|exact RB]. intros y ey Hy Hl. exists ey. by rewrite FB. }
  destruct (unlink_next s1 B _ (last A) RB1 HndB') as (s2 & H2 & O2 & D2 & E2 & T2 & F2).
  rewrite (run_bind _ _ _ _ _ H2). assert (pool s2 !! x = Some e) as He2 by (by rewrite F2).
  rewrite (run_page_upd _ _ _ _ He2). eexists. split; [done|].
  split; [eapply only_lru_trans; [exact O1|]; eapply only_lru_trans; [exact O2|];
    by apply (only_lru_upd s2 x (fun e => set_lru_prev None (set_lru_next None e)) e)|].
  assert (dseg (pool s2) None A (head B)) as DA2.
  { eapply dseg_frame; [|exact D1]. intros y ey Hy Hl. exists ey. rewrite F2; [done|]. intros Hin. apply (Hdis _ Hy). by right. }
  split; cbn.
  - apply dseg_app. split; (apply dseg_insert_out; [done|]).
    + by replace (or_else (head B) None) with (head B) by (by destruct (head B)).
    + by replace (or_else (last A) None) with (last A) by (by destruct (last A)).
  - rewrite E2, E1, R2. by destruct A.
  - rewrite T2, T1, R3. destruct B as [|b B]; cbn; [by rewrite app_nil_r|].
    by rewrite !last_app_cons, last_cons_cons.
  - apply list.NoDup_app. split; [done|]. split; [|done]. intros y Hy Hin. apply (Hdis _ Hy). by right.
  - intros y ey Hl Hy. destruct (decide (y = x)) as [->|Hyx].
    + rewrite list_lookup_insert_eq in Hl by (by eapply lookup_lt_Some). by injection Hl as <-.
    + rewrite list_lookup_insert_ne in Hl by congruence. rewrite F2, F1 in Hl by set_solver.
      apply (R5 y ey Hl). set_solver.
Qed.

Lemma lru_push_ok s L x e :
  lru_rep s L -> x ∉ L -> pool s !! x = Some e ->
  exists s', (h ← gets lru_head;
    upd x (fun e => set_lru_prev None (set_lru_next h e)) ;;
    (match h with Some q => upd q (set_lru_prev (Some x)) | None => skip end) ;;
    modify (set_head (Some x)) ;;
    t ← gets lru_tail; if bool_decide (t = None) then modify (set_tail (Some x)) else skip) s = Some (s', tt) /\
    only_lru s s' /\ lru_rep s' (x :: L).
Proof.
  intros R Hx He. destruct R as [R1 R2 R3 R4 R5].
  rewrite (run_bind _ _ s s (lru_head s)) by done. rewrite (run_bind _ _ _ _ _ (run_page_upd _ _ _ _ He)).
  set (s1 := set_pool _ s). assert (only_lru s s1) as O1
    by (by apply (only_lru_upd s x (fun e => set_lru_prev None (set_lru_next (lru_head s) e)) e)).
  assert (dseg (pool s1) None L None) as D1 by (by apply dseg_insert_out).
  assert (pool s1 !! x = Some (set_lru_prev None (set_lru_next (lru_head s) e))) as Hx1
    by (apply list_lookup_insert_eq; by eapply lookup_lt_Some).
  assert (exists s2, (match lru_head s with Some q => upd q (set_lru_prev (Some x)) | None => skip end) s1 = Some (s2, tt) /\
    only_lru s1 s2 /\ dseg (pool s2) (Some x) L None /\ lru_tail s2 = lru_tail s /\
    (forall y, y ∉ L -> pool s2 !! y = pool s1 !! y)) as (s2 & H2 & O2 & D2 & T2 & F2).
  { rewrite R2. destruct L as [|q L]; cbn [head].
    - exists s1. split; [done|]. split; [apply only_lru_refl|]. done.
    - destruct (unlink_next s1 (q :: L) _ (Some x) D1 R4) as (s2 & H2 & O2 & D2 & _ & T2 & F2). exists s2. done. }
  rewrite (run_bind _ _ _ _ _ H2). rewrite (run_bind _ _ s2 (set_head (Some x) s2) tt) by done.
  rewrite (run_bind _ _ _ (set_head (Some x) s2) (lru_tail s2)) by done. rewrite T2, R3.
  set (s3 := set_head (Some x) s2).
  assert (exists s', (if bool_decide (last L = None) then modify (set_tail (Some x)) else skip) s3 = Some (s', tt) /\
    pool s' = pool s2 /\ hash_table s' = hash_table s2 /\ pc_blk s' = pc_blk s2 /\
    lru_head s' = Some x /\ lru_tail s' = last (x :: L)) as (s' & H3 & P3 & T3 & B3 & Hh & Ht).
  { rewrite last_cons. destruct (last L) eqn:El; cbn; eexists; split; try done. split_and!; try done.
    cbn. congruence. }
  exists s'. split; [done|]. split.
  { eapply only_lru_trans; [exact O1|]. eapply only_lru_trans; [exact O2|]. split; [|done]. rewrite P3. apply agree_refl. }
  split; rewrite ?P3; [|done|done|by constructor|].
  - cbn [dseg]. split; [|done]. eexists. rewrite F2 by done. split; [done|]. cbn. rewrite R2. by destruct (head L).
  - intros y ey Hl Hy. apply not_elem_of_cons in Hy as [Hyx Hy]. rewrite F2 in Hl by done. cbn in Hl.
    rewrite list_lookup_insert_ne in Hl by congruence. by apply (R5 y ey).
Qed.

(** Touching a page moves it to the front. *)
Lemma lru_touch_ok s A x B :
  lru_rep s (A ++ x :: B) ->
  exists s', _lru_touch x s = Some (s', tt) /\ only_lru s s' /\ lru_rep s' (x :: A ++ B).
Proof.
  intros R. pose proof (lru_at _ _ _ _ R) as (e & He & Hp & Hn & HxA & HxB). unfold _lru_touch.
  rewrite (run_bind _ _ s s (lru_head s)) by done. rewrite (l_head _ _ R). case_bool_decide as Hh.
  { exists s. split; [done|]. split; [apply only_lru_refl|]. destruct A as [|a A]; [done|]. cbn in Hh.
    injection Hh as ->. exfalso. apply HxA. by left. }
  rewrite (run_bind _ _ _ _ _ (run_page_at _ _ _ He)), (run_bind _ _ s s (lru_tail s)) by done. rewrite Hp.
  destruct A as [|a A]; [done|]. rewrite (bool_decide_eq_false_2 (last (a :: A) = None)) by (by rewrite last_None).
  cbn [negb orb]. destruct (lru_remove_ok s (a :: A) x B R) as (s1 & H1 & O1 & R1).
  rewrite (run_bind _ _ _ _ _ H1).
  destruct (agree_some _ _ _ _ _ (proj1 O1) He) as (e1 & He1 & _).
  destruct (lru_push_ok s1 _ x e1 R1) as (s' & H2 & O2 & R2); [set_solver|done|].
  exists s'. split; [done|]. split; [by eapply only_lru_trans|done].
Qed.

(** A page that is not in the list goes to the front. *)
Lemma lru_touch_new s L x e :
  lru_rep s L -> x ∉ L -> pool s !! x = Some e ->
  exists s', _lru_touch x s = Some (s', tt) /\ only_lru s s' /\ lru_rep s' (x :: L).
Proof.
  intros R Hx He. unfold _lru_touch. rewrite (run_bind _ _ s s (lru_head s)) by done. rewrite (l_head _ _ R).
  rewrite bool_decide_eq_false_2 by (intros ?%head_Some_elem_of; done).
  rewrite (run_bind _ _ _ _ _ (run_page_at _ _ _ He)), (run_bind _ _ s s (lru_tail s)) by done.
  destruct (l_out _ _ R x e He Hx) as [-> ->]. rewrite (l_tail _ _ R).
  rewrite (bool_decide_eq_false_2 (last L = Some x)) by (intros ?%last_Some_elem_of; done).
  cbn [negb orb bool_decide decide_rel]. rewrite (run_bind _ _ s s tt) by done. by apply (lru_push_ok s L x e).
Qed.

(** ** The hash table *)

Lemma hash_range dev blk : 0 <= _hash dev blk < PC_HASH_SIZE.
Proof.
  unfold _hash, PC_HASH_SIZE. change (64 - 1) with (Z.ones 6). rewrite Z.land_ones by lia. apply Z.mod_pos_bound. lia.
Qed.

Lemma indices_bound (l : list nat) n : NoDup l -> (forall x, x ∈ l -> (x < n)%nat) -> (length l <= n)%nat.
Proof.
  intros Hnd Hx. rewrite <- (length_seq n 0). apply submseteq_length, NoDup_submseteq; [done|].
  intros x Hin. apply elem_of_seq. specialize (Hx x Hin). lia.
Qed.

Lemma chain_short s Hs b : chains s Hs -> length (pool s) = PC_MAX_PAGES -> (length (Hs b) < S PC_MAX_PAGES)%nat.
Proof.
  intros R Hl. apply Nat.lt_succ_r, indices_bound; [apply (h_nodup _ _ R)|].
  intros x Hx. destruct (h_key _ _ R b x Hx) as (e & He & _). apply lookup_lt_Some in He. lia.
Qed.

Lemma find_loop_ok s dev blk : forall H fuel cur,
  hseg (pool s) cur H -> (length H < fuel)%nat ->
  exists r, find_loop fuel dev blk cur s = Some (s, r) /\
    match r with
    | Some x => x ∈ H /\ exists e, pool s !! x = Some e /\ key e = (dev, blk)
    | None => forall x e, x ∈ H -> pool s !! x = Some e -> key e <> (dev, blk)
    end.
Proof.
  induction H as [|x H IH]; intros [|fuel] cur Hs Hf; cbn [length] in Hf; try lia; cbn [hseg find_loop] in *.
  - subst cur. exists None. split; [done|]. intros x e Hx. by apply not_elem_of_nil in Hx.
  - destruct Hs as (-> & e & He & Hs). rewrite (run_bind _ _ _ _ _ (run_page_at _ _ _ He)).
    destruct ((p_dev e =? dev) && (p_block_no e =? blk)) eqn:E.
    + apply andb_true_iff in E as [E1 E2]. b2p. exists (Some x). split; [done|]. split; [by left|].
      exists e. split; [done|]. unfold key. congruence.
    + destruct (IH fuel (p_hash_next e) Hs) as (r & -> & Hr); [lia|]. exists r. split; [done|]. destruct r as [y|].
      * destruct Hr as [Hy ?]. split; [by right|done].
      * intros y ey [->|Hy]%elem_of_cons Hl; [|by apply (Hr y)]. rewrite He in Hl. injection Hl as <-. unfold key.
        intros [= E1 E2]. by rewrite E1, E2, !Z.eqb_refl in E.
Qed.

Lemma hash_find_ok s Hs dev blk :
  chains s Hs -> length (pool s) = PC_MAX_PAGES ->
  exists r, _hash_find dev blk s = Some (s, r) /\
    match r with
    | Some x => x ∈ Hs (_hash dev blk) /\ exists e, pool s !! x = Some e /\ key e = (dev, blk)
    | None => forall x e, x ∈ Hs (_hash dev blk) -> pool s !! x = Some e -> key e <> (dev, blk)
    end.
Proof.
  intros R Hl. destruct (h_seg _ _ R _ (hash_range dev blk)) as (h & Hh & Hseg). unfold _hash_find.
  rewrite (run_bind _ _ s s h) by (unfold bucket_at; by rewrite Hh). eapply find_loop_ok; [done|]. by eapply chain_short.
Qed.

Lemma only_hash_upd s i f e :
  pool s !! i = Some e -> core (f e) = core e -> lru_links (f e) = lru_links e -> only_hash s (set_pool (<[i := f e]>) s).
Proof. intros Hi Hc Hh. split; [|done]. eapply agree_insert; [done|]. by rewrite Hc, Hh. Qed.

Lemma only_hash_trans s1 s2 s3 : only_hash s1 s2 -> only_hash s2 s3 -> only_hash s1 s3.
Proof. intros (A1 & B1 & C1 & D1) (A2 & B2 & C2 & D2). split; [by eapply agree_trans|]. split_and!; congruence. Qed.

(** The cell a walk along a chain came from. *)
Definition cell s (b : Z) (prev v : option nat) : Prop :=
  match prev with
  | None => ld (hash_table s) b = Some v
  | Some q => exists e, pool s !! q = Some e /\ p_hash_next e = v
  end.

Lemma unlink_here s b x e prev B :
  zlen (hash_table s) = PC_HASH_SIZE -> 0 <= b < PC_HASH_SIZE -> pool s !! x = Some e -> hseg (pool s) (p_hash_next e) B ->
  cell s b prev (Some x) -> x ∉ B -> (forall q, prev = Some q -> q ∉ x :: B) ->
  exists s', ((match prev with
       | None => modify (set_table (<[Z.to_nat b := p_hash_next e]>))
       | Some q => upd q (set_hash_next (p_hash_next e))
       end) ;; upd x (set_hash_next None)) s = Some (s', tt) /\ only_hash s s' /\
    cell s' b prev (p_hash_next e) /\ hseg (pool s') (p_hash_next e) B /\
    (forall c, 0 <= c < PC_HASH_SIZE -> c <> b -> ld (hash_table s') c = ld (hash_table s) c) /\
    zlen (hash_table s') = PC_HASH_SIZE /\ (prev <> None -> hash_table s' = hash_table s) /\
    (forall y, y <> x -> prev <> Some y -> pool s' !! y = pool s !! y).
Proof.
  intros Hlen Hb He HB Hc HxB Hpv. destruct prev as [q|]; cbn [cell] in *.
  - destruct Hc as (eq & Hq & Hqx). specialize (Hpv q eq_refl). apply not_elem_of_cons in Hpv as [Hqn HqB].
    rewrite (run_bind _ _ _ _ _ (run_page_upd _ _ _ _ Hq)). set (s1 := set_pool _ s).
    assert (pool s1 !! x = Some e) as He1 by (cbn; by rewrite list_lookup_insert_ne).
    rewrite (run_page_upd _ _ _ _ He1). eexists. split; [done|].
    split; [eapply only_hash_trans; [by apply (only_hash_upd s q (set_hash_next (p_hash_next e)) eq)|];
            by apply (only_hash_upd s1 x (set_hash_next None) e)|].
    split; [|split; [cbn; apply hseg_insert_out; [done|]; by apply hseg_insert_out|split; [done|split; [done|split; [done|]]]]].
    + eexists. cbn. rewrite list_lookup_insert_ne by congruence.
      rewrite list_lookup_insert_eq by (by eapply lookup_lt_Some). done.
    + intros y Hyx Hyq. cbn. rewrite !list_lookup_insert_ne by congruence. done.
  - rewrite (run_bind _ _ s (set_table (<[Z.to_nat b := p_hash_next e]>) s) tt) by done.
    rewrite (run_page_upd _ _ _ _ (He : pool (set_table _ s) !! x = Some e)). eexists. split; [done|].
    split; [split; [eapply agree_insert; [exact He|done]|done]|]. cbn.
    split; [rewrite ld_nonneg by lia; apply list_lookup_insert_eq; unfold zlen in *; lia|].
    split; [by apply hseg_insert_out|]. split; [|split; [by rewrite zlen_insert|split; [done|]]].
    + intros c Hc' Hne. rewrite !ld_nonneg by lia. apply list_lookup_insert_ne. lia.
    + intros y Hy _. apply list_lookup_insert_ne. congruence.
Qed.

Lemma unlink_loop_ok b x B : forall A s prev fuel,
  zlen (hash_table s) = PC_HASH_SIZE -> 0 <= b < PC_HASH_SIZE -> NoDup (A ++ x :: B) ->
  hseg (pool s) (head (A ++ x :: B)) (A ++ x :: B) -> cell s b prev (head (A ++ x :: B)) ->
  (forall q, prev = Some q -> q ∉ A ++ x :: B) -> (length A < fuel)%nat ->
  exists s' v, unlink_loop fuel b x prev (head (A ++ x :: B)) s = Some (s', tt) /\ only_hash s s' /\
    cell s' b prev v /\ hseg (pool s') v (A ++ B) /\
    (forall c, 0 <= c < PC_HASH_SIZE -> c <> b -> ld (hash_table s') c = ld (hash_table s) c) /\
    zlen (hash_table s') = PC_HASH_SIZE /\ (prev <> None -> hash_table s' = hash_table s) /\
    (forall y, y ∉ A ++ [x] -> prev <> Some y -> pool s' !! y = pool s !! y).
Proof.
  induction A as [|a A IH]; intros s prev [|fuel] Hlen Hb Hnd Hseg Hc Hpv Hf; cbn [length app head] in *; try lia;
    cbn [unlink_loop hseg] in *.
  - destruct Hseg as (_ & e & He & HB). inversion_clear Hnd as [|? ? Hx _].
    rewrite (run_bind _ _ _ _ _ (run_page_at _ _ _ He)), bool_decide_eq_true_2 by done.
    destruct (unlink_here s b x e prev B Hlen Hb He HB Hc Hx Hpv) as (s' & -> & O & C & S & T & Z & K & F).
    exists s', (p_hash_next e). split_and!; try done. intros y Hy. apply F. set_solver.
  - destruct Hseg as (_ & e & He & HB). inversion_clear Hnd as [|? ? Ha Hnd'].
    rewrite (run_bind _ _ _ _ _ (run_page_at _ _ _ He)), bool_decide_eq_false_2 by set_solver.
    assert (p_hash_next e = head (A ++ x :: B)) as Hh by (destruct A; cbn in *; by destruct HB as [? _]).
    rewrite Hh in HB |- *.
    destruct (IH s (Some a) fuel Hlen Hb Hnd' HB) as (s' & v & -> & O & C & S & T & Z & K & F); [by exists e|congruence|lia|].
    destruct C as (e' & He' & Hv). exists s', (Some a). split; [done|]. split; [done|].
    split; [|split; [split; [done|]; exists e'; split; [done|]; by rewrite Hv|]].
    + destruct prev as [q|]; cbn [cell] in *; [|by rewrite K].
      specialize (Hpv q eq_refl). destruct Hc as (eq & Hq & Hqa). exists eq. split; [|done]. rewrite F; [done|..]; set_solver.
    + split; [done|]. split; [done|]. split; [by intros _; apply K|]. intros y Hy Hyp. apply F; set_solver.
Qed.

Definition set_chain (Hs : Z -> list nat) (b : Z) (l : list nat) : Z -> list nat := fun c => if c =? b then l else Hs c.

Lemma hash_remove_ok s Hs x e A B :
  chains s Hs -> length (pool s) = PC_MAX_PAGES -> pool s !! x = Some e -> Hs (bucket e) = A ++ x :: B ->
  exists s', _hash_remove x s = Some (s', tt) /\ only_hash s s' /\ chains s' (set_chain Hs (bucket e) (A ++ B)).
Proof.
  intros R Hl He HA. pose proof (hash_range (p_dev e) (p_block_no e)) as Hb. fold (bucket e) in Hb.
  destruct (h_seg _ _ R _ Hb) as (h & Hh & Hseg). pose proof (h_nodup _ _ R (bucket e)) as Hnd.
  pose proof (chain_short s Hs (bucket e) R Hl) as Hsh. rewrite HA in Hseg, Hnd, Hsh.
  assert (h = head (A ++ x :: B)) as -> by (destruct A; cbn in *; by destruct Hseg as [? _]).
  unfold _hash_remove. rewrite (run_bind _ _ _ _ _ (run_page_at _ _ _ He)). fold (bucket e).
  rewrite (run_bind _ _ s s (head (A ++ x :: B))) by (unfold bucket_at; by rewrite Hh).
  destruct (unlink_loop_ok (bucket e) x B A s None (S PC_MAX_PAGES) (h_len _ _ R) Hb Hnd Hseg Hh)
    as (s' & v & -> & O & C & S & T & Z & _ & F); [done|rewrite length_app in Hsh; lia|].
  exists s'. split; [done|]. split; [done|]. unfold set_chain.
  assert (forall c y, c <> bucket e -> y ∈ Hs c -> pool s' !! y = pool s !! y) as Hother.
  { intros c y Hc Hy. apply F; [|done]. intros Hin. destruct (h_key _ _ R _ _ Hy) as (ey & Hey & Hby).
    assert (y ∈ Hs (bucket e)) as Hy2 by (rewrite HA; set_solver).
    destruct (h_key _ _ R _ _ Hy2) as (ey2 & Hey2 & Hby2). congruence. }
  split; [done|..].
  - intros c Hc. destruct (c =? bucket e) eqn:E; b2p; [subst c; by exists v|].
    destruct (h_seg _ _ R c Hc) as (h & Hh' & Hs'). exists h. rewrite T by done. split; [done|].
    eapply hseg_frame; [|exact Hs']. intros y ey Hy Hey. exists ey. by rewrite (Hother c).
  - intros c. destruct (c =? bucket e); [|apply (h_nodup _ _ R)]. apply list.NoDup_app in Hnd as (N1 & N2 & N3).
    inversion_clear N3. apply list.NoDup_app. split; [done|]. split; [|done]. intros y Hy Hin. apply (N2 y Hy). by right.
  - assert (forall c y, y ∈ Hs c -> exists ey, pool s' !! y = Some ey /\ bucket ey = c) as Hall.
    { intros c y Hy. destruct (h_key _ _ R c y Hy) as (ey & Hey & <-).
      destruct (agree_some _ _ _ _ _ (proj1 O) Hey) as (ey' & Hey' & E). exists ey'. split; [done|].
      unfold bucket. injection E as ? ? _ _ _ _ _ _. congruence. }
    intros c y. destruct (c =? bucket e) eqn:E; b2p; [|apply Hall]. subst c. intros Hy. apply Hall. rewrite HA. set_solver.
Qed.

Lemma hash_insert_ok s Hs x e :
  chains s Hs -> pool s !! x = Some e -> (forall b, x ∉ Hs b) ->
  exists s', _hash_insert x s = Some (s', tt) /\ only_hash s s' /\ chains s' (set_chain Hs (bucket e) (x :: Hs (bucket e))).
Proof.
  intros R He Hx. pose proof (hash_range (p_dev e) (p_block_no e)) as Hb. fold (bucket e) in Hb.
  destruct (h_seg _ _ R _ Hb) as (h & Hh & Hseg). unfold _hash_insert.
  rewrite (run_bind _ _ _ _ _ (run_page_at _ _ _ He)). fold (bucket e).
  rewrite (run_bind _ _ s s h) by (unfold bucket_at; by rewrite Hh).
  rewrite (run_bind _ _ _ _ _ (run_page_upd _ _ _ _ He)). eexists. split; [done|].
  split; [by apply (only_hash_upd s x (set_hash_next h) e)|]. pose proof (h_len _ _ R) as Hlen. unfold set_chain.
  split; cbn.
  - by rewrite zlen_insert.
  - intros c Hc. rewrite ld_nonneg by lia. destruct (c =? bucket e) eqn:E; b2p.
    + subst c. rewrite list_lookup_insert_eq by (unfold zlen in Hlen; lia). exists (Some x). split; [done|]. split; [done|].
      exists (set_hash_next h e). rewrite list_lookup_insert_eq by (by eapply lookup_lt_Some).
      split; [done|]. by apply hseg_insert_out.
    + rewrite list_lookup_insert_ne by lia. destruct (h_seg _ _ R c Hc) as (h' & Hh' & Hs'). rewrite ld_nonneg in Hh' by lia.
      exists h'. split; [done|]. by apply hseg_insert_out.
  - intros c. destruct (c =? bucket e); [|apply (h_nodup _ _ R)]. constructor; [done|apply (h_nodup _ _ R)].
  - assert (forall c y, y ∈ Hs c -> exists ey, <[x := set_hash_next h e]> (pool s) !! y = Some ey /\ bucket ey = c) as Hall.
    { intros c y Hy. rewrite list_lookup_insert_ne by (intros ->; by apply (Hx c)). by apply (h_key _ _ R). }
    intros c y. destruct (c =? bucket e) eqn:E; b2p; [|apply Hall]. subst c. intros [->|Hy]%elem_of_cons; [|by apply Hall].
    exists (set_hash_next h e). by rewrite list_lookup_insert_eq by (by eapply lookup_lt_Some).
Qed.
End Lists.
