(* ===== verification/PageCacheVol.v ===== *)
(** * Volumes under the page cache

    The devices that are used through the cache, as arrays of sectors and of
    blocks: what [Blkdev.v]'s reads and writes do to them when no two of them
    overlap. *)
From S2P Require Import Prelude StateM Klib Blkdev PageCache.

#[local] Open Scope Z_scope.

Section Volumes.
Context {D : Type} `{DD : DiskDriver D} (same : Z -> Z -> Prop) `{!DiskDriverLaws D same}.
Implicit Types b : blk D.

(** Read and write handle, first sector on the disk, number of sectors. *)
Definition vol b (dev : Z) : option (Z * Z * Z * Z) :=
  d ← ld (devices b) dev; dd ← disk_of b d; Some (d_read_sector dd, d_write_sector dd, base_of d, d_max_lba d).

Definition sector b (dev l : Z) : mem :=
  match vol b dev with Some (r, _, base, _) => sec_read (medium b) r (base + l) | None => [] end.

Definition capacity b (dev : Z) : Z := match vol b dev with Some (_, _, _, n) => n | None => 0 end.

(** Registered devices whose handles belong together and that do not
    overlap. *)
Record volumes b (V : list Z) : Prop := {
  v_inv : blk_inv b;
  v_dev : forall dev, dev ∈ V -> used b dev /\ exists r w base n, vol b dev = Some (r, w, base, n) /\ same r w;
  v_apart : forall dev dev' r w base n r' w' base' n', dev ∈ V -> dev' ∈ V -> dev <> dev' ->
    vol b dev = Some (r, w, base, n) -> vol b dev' = Some (r', w', base', n') ->
    base + n <= base' \/ base' + n' <= base \/ ~ same r' w
}.

Lemma vol_medium m b dev : vol (set_medium m b) dev = vol b dev.
Proof. done. Qed.

Lemma vol_used_range b dev : used b dev -> blk_inv b -> 0 <= dev < BLKDEV_SLOTS.
Proof.
  intros (u & Hu & _) [(_ & Hlen & _) _]. apply ld_Some_lt in Hu. unfold slots in Hlen.
  unfold zlen in *. unfold BLKDEV_SLOTS, BLKDEV_MAX_DISKS, BLKDEV_PARTS_PER_DISK in *. lia.
Qed.

Lemma by_id_used b dev : used b dev -> blk_inv b -> blkdev_by_id dev b = Some (Some dev).
Proof.
  intros Hu Hb. pose proof (vol_used_range b dev Hu Hb). destruct Hu as (u & Hu & Hne). unfold blkdev_by_id.
  rewrite (proj2 (Z.leb_gt _ _)) by lia. rewrite Hu. ob. by rewrite (proj2 (Z.eqb_neq u 0)).
Qed.

Lemma sector_len b V dev l : volumes b V -> dev ∈ V -> zlen (sector b dev l) = SECTOR /\ bytes (sector b dev l).
Proof.
  intros Hv Hd. destruct (v_dev _ _ Hv _ Hd) as (_ & r & w & base & n & Hvol & _). unfold sector. rewrite Hvol.
  apply sec_read_bytes.
Qed.

Lemma vol_read b V dev l buf :
  volumes b V -> dev ∈ V -> 0 <= l < capacity b dev -> SECTOR <= zlen buf ->
  blkdev_read (Some dev) l buf b = Some (splice 0 (sector b dev l) buf, 0).
Proof.
  intros Hv Hd Hl Hb. destruct (v_dev _ _ Hv _ Hd) as (Hu & r & w & base & n & Hvol & _).
  unfold capacity, sector in *. rewrite Hvol in *. unfold vol in Hvol.
  destruct (ld (devices b) dev) as [d|] eqn:Ed; [|done]. cbn in Hvol.
  destruct (disk_of b d) as [dd|] eqn:Edd; [|done]. cbn in Hvol. injection Hvol as <- <- <- <-.
  pose proof (v_inv _ _ Hv) as [Ht _].
  rewrite (read_ok b dev d dd) by (done || lia || (intros; apply sec_read_bytes)).
  by rewrite (proj2 (Z.ltb_lt _ _)) by lia.
Qed.

Lemma vol_write b V dev l buf :
  volumes b V -> dev ∈ V -> 0 <= l < capacity b dev -> SECTOR <= zlen buf -> bytes (slice 0 SECTOR buf) ->
  exists b', blkdev_write (Some dev) l buf b = Some (b', 0) /\ volumes b' V /\
    (forall d, capacity b' d = capacity b d) /\ sector b' dev l = slice 0 SECTOR buf /\
    (forall dev' l', dev' ∈ V -> 0 <= l' < capacity b dev' -> (dev', l') <> (dev, l) ->
       sector b' dev' l' = sector b dev' l').
Proof.
  intros Hv Hd Hl Hb Hby. destruct (v_dev _ _ Hv _ Hd) as (Hu & r & w & base & n & Hvol & Hsame).
  pose proof Hvol as Hvol0. unfold capacity at 1 in Hl. rewrite Hvol in Hl. unfold vol in Hvol.
  destruct (ld (devices b) dev) as [d|] eqn:Ed; [|done]. cbn in Hvol.
  destruct (disk_of b d) as [dd|] eqn:Edd; [|done]. cbn in Hvol. injection Hvol as <- <- <- <-.
  pose proof (v_inv _ _ Hv) as [Ht _]. rewrite (write_ok b dev d dd) by (done || lia).
  rewrite (proj2 (Z.ltb_lt _ _)) by lia. eexists. split; [done|].
  assert (zlen (slice 0 SECTOR buf) = SECTOR) as Hsz by (apply zlen_slice; unfold SECTOR in *; lia).
  split; [|split; [done|split]].
  - destruct Hv as [Hinv Hdev Hap]. split; [exact Hinv|exact Hdev|exact Hap].
  - unfold sector. rewrite vol_medium, Hvol0. cbn. by apply (sec_read_write (same_medium := same)).
  - intros dev' l' Hd' Hl' Hne. unfold sector. rewrite vol_medium.
    destruct (v_dev _ _ Hv _ Hd') as (_ & r' & w' & base' & n' & Hvol' & _). rewrite Hvol'. cbn.
    unfold capacity in Hl'. rewrite Hvol' in Hl'.
    destruct (decide (dev' = dev)) as [->|Hdd].
    + rewrite Hvol0 in Hvol'. injection Hvol' as <- <- <- <-. apply (sec_read_other (same_medium := same)).
      intros E. apply Hne. f_equal. lia.
    + destruct (v_apart _ _ Hv dev dev' _ _ _ _ _ _ _ _ Hd Hd' ltac:(congruence) Hvol0 Hvol') as [H|[H|H]].
      * apply (sec_read_other (same_medium := same)). lia.
      * apply (sec_read_other (same_medium := same)). lia.
      * by apply (sec_read_medium (same_medium := same)).
Qed.

(** ** Blocks *)

(** The [n] sectors of device [dev] from [l] on. *)
Fixpoint sectors b (dev l : Z) (n : nat) : mem :=
  match n with O => [] | S n => sector b dev l ++ sectors b dev (l + 1) n end.

Lemma sectors_len b V dev : forall n l, volumes b V -> dev ∈ V ->
  zlen (sectors b dev l n) = 512 * Z.of_nat n /\ bytes (sectors b dev l n).
Proof.
  induction n as [|n IH]; intros l Hv Hd; cbn [sectors]; [by split; [|apply Forall_nil]|].
  destruct (IH (l + 1) Hv Hd). destruct (sector_len b V dev l Hv Hd) as [Hs Hb]. unfold SECTOR in Hs.
  rewrite zlen_app. split; [lia|by apply Forall_app_2].
Qed.

Lemma sectors_ext b b' dev dev' : forall n l,
  (forall k, l <= k < l + Z.of_nat n -> sector b' dev k = sector b dev' k) -> sectors b' dev l n = sectors b dev' l n.
Proof.
  induction n as [|n IH]; intros l H; [done|]. cbn [sectors]. rewrite H by lia. f_equal. apply IH. intros k Hk. apply H. lia.
Qed.

Lemma capacity_u32 b V dev : volumes b V -> dev ∈ V -> capacity b dev < 2 ^ 32.
Proof.
  intros Hv Hd. destruct (v_dev _ _ Hv _ Hd) as (Hu & r & w & base & n & Hvol & _). pose proof (v_inv _ _ Hv) as [Ht _].
  unfold capacity. rewrite Hvol. unfold vol in Hvol. destruct (ld (devices b) dev) as [d|] eqn:Ed; [|done].
  cbn in Hvol. destruct (disk_of_ok b dev d Ht Hu Ed) as (dd & Hdd & _ & Hm & Hb0 & Hb1 & _).
  rewrite Hdd in Hvol. cbn in Hvol. injection Hvol as <- <- <- <-. unfold is_u32 in Hm. lia.
Qed.

Lemma splice_tail (i : Z) (l d : mem) : take (Z.to_nat i) d ++ splice 0 l (drop (Z.to_nat i) d) = splice i l d.
Proof. unfold splice. cbn [Z.to_nat take]. by rewrite drop_drop. Qed.

Lemma read_sectors_ok V dev : forall n lba i d (s : pcache D),
  volumes (pc_blk s) V -> dev ∈ V -> 0 <= lba -> 0 <= i -> lba + i + Z.of_nat n <= capacity (pc_blk s) dev ->
  (i + Z.of_nat n) * 512 <= zlen d ->
  read_sectors n (Some dev) lba i d s =
    Some (s, splice (i * 512) (sectors (pc_blk s) dev (lba + i) n) d).
Proof.
  induction n as [|n IH]; intros lba i d s Hv Hd Hl Hi Hc Hz; cbn [read_sectors sectors].
  { by rewrite splice_nil. }
  pose proof (capacity_u32 _ _ _ Hv Hd). rewrite (run_bind _ _ s s (pc_blk s)) by done.
  rewrite u32_small by (unfold is_u32; lia). set (sec := sector (pc_blk s) dev (lba + i)).
  destruct (sector_len _ _ _ (lba + i) Hv Hd) as [Hsl _]. fold sec in Hsl. unfold SECTOR in Hsl.
  assert (zlen (drop (Z.to_nat (i * 512)) d) = zlen d - i * 512) as Hdl by (unfold zlen in *; rewrite length_drop; lia).
  rewrite (run_bind _ _ s s (splice 0 sec (drop (Z.to_nat (i * 512)) d), 0)).
  2:{ unfold lift. by rewrite (vol_read _ V) by (done || lia || (unfold SECTOR; lia)). }
  cbv beta iota. rewrite splice_tail. rewrite IH; [|done..|lia|lia|].
  - do 2 f_equal. replace (lba + (i + 1)) with (lba + i + 1) by lia.
    replace ((i + 1) * 512) with (i * 512 + zlen sec) by lia. apply splice_app; [lia|].
    destruct (sectors_len (pc_blk s) V dev n (lba + i + 1) Hv Hd). lia.
  - rewrite zlen_splice; lia.
Qed.

Lemma write_sectors_ok V dev : forall n lba i d (s : pcache D),
  volumes (pc_blk s) V -> dev ∈ V -> 0 <= lba -> 0 <= i -> lba + i + Z.of_nat n <= capacity (pc_blk s) dev ->
  (i + Z.of_nat n) * 512 <= zlen d -> bytes d ->
  exists b', write_sectors n dev lba i d s = Some (set_blk b' s, tt) /\ volumes b' V /\
    (forall v, capacity b' v = capacity (pc_blk s) v) /\
    sectors b' dev (lba + i) n = slice (i * 512) (Z.of_nat n * 512) d /\
    (forall v l, v ∈ V -> 0 <= l < capacity (pc_blk s) v ->
       v <> dev \/ l < lba + i \/ lba + i + Z.of_nat n <= l -> sector b' v l = sector (pc_blk s) v l).
Proof.
  induction n as [|n IH]; intros lba i d s Hv Hd Hl Hi Hc Hz Hby; cbn [write_sectors sectors].
  { exists (pc_blk s). split; [by destruct s|]. split; [done|]. split; [done|]. split; [|done]. by unfold slice; rewrite take_0. }
  pose proof (capacity_u32 _ _ _ Hv Hd). rewrite (run_bind _ _ s s (pc_blk s)) by done.
  rewrite u32_small by (unfold is_u32; lia). set (d0 := drop (Z.to_nat (i * 512)) d).
  assert (zlen d0 = zlen d - i * 512) as Hdl by (unfold d0, zlen in *; rewrite length_drop; lia).
  destruct (vol_write (pc_blk s) V dev (lba + i) d0) as (b1 & H1 & Hv1 & Hc1 & Hs1 & Ho1);
    [done..|lia|unfold SECTOR; lia|apply bytes_slice; by apply Forall_drop|].
  rewrite (run_bind _ _ s s (b1, 0)) by (unfold lift; by rewrite H1). cbv beta iota.
  rewrite (run_bind _ _ s (set_blk b1 s) tt) by done.
  destruct (IH lba (i + 1) d (set_blk b1 s)) as (b' & H2 & Hv2 & Hc2 & Hs2 & Ho2); cbn;
    [done..|lia|rewrite Hc1; lia|lia|done|]. cbn in Hc2, Ho2. exists b'.
  split; [rewrite H2; by destruct s|]. split; [done|]. split; [intros v; by rewrite Hc2|].
  assert (sector b' dev (lba + i) = sector b1 dev (lba + i)) as Hsec by (apply Ho2; [done|rewrite Hc1; lia|lia]).
  split.
  - rewrite Hsec, Hs1. replace (lba + (i + 1)) with (lba + i + 1) in Hs2 by lia. rewrite Hs2. unfold slice, d0, SECTOR.
    cbn [Z.to_nat]. rewrite drop_0. replace (Z.to_nat ((i + 1) * 512)) with (Z.to_nat (i * 512) + Z.to_nat 512)%nat by lia.
    rewrite <- drop_drop, take_take_drop. f_equal. lia.
  - intros v l Hvv Hl' Hne. rewrite Ho2; [|done|rewrite Hc1; lia|lia]. apply Ho1; [done|done|]. intros [= -> ->]. lia.
Qed.
End Volumes.
