(* ===== verification/PageCacheCoh.v ===== *)
(** * The page cache agrees with the disks

    The invariant of the cache - its lists, its pages, and how the contents of
    pages and disks relate to the blocks its clients see - and that every
    operation keeps it. *)
From S2P Require Import Prelude StateM Klib Blkdev PageCache PageCacheSpec PageCacheVol.

#[local] Open Scope Z_scope.

Section Structure.
Context {D : Type} `{DD : DiskDriver D}.
Implicit Types s : pcache D.

(** ** The lists together: a page is in the order of use exactly if it is in
    its bucket's chain. *)
Record pstruct s (L : list nat) (Hs : Z -> list nat) : Prop := {
  t_len : length (pool s) = PC_MAX_PAGES;
  t_lru : lru_rep s L;
  t_chains : chains s Hs;
  t_both : forall x e, pool s !! x = Some e -> x ∈ L <-> x ∈ Hs (bucket e)
}.

Lemma agree_len {A} (f : page -> A) P P' : agree f P P' -> length P' = length P.
Proof.
  intros H. apply Nat.le_antisymm; apply Nat.nlt_ge; intros Hlt; apply lookup_lt_is_Some in Hlt as [e He].
  - destruct (agree_some _ _ _ _ _ (agree_sym _ _ _ H) He) as (e' & He' & _).
    apply lookup_lt_Some in He'. lia.
  - destruct (agree_some _ _ _ _ _ H He) as (e' & He' & _). apply lookup_lt_Some in He'. lia.
Qed.

Lemma struct_in_pool s L Hs x : pstruct s L Hs -> x ∈ L -> exists e, pool s !! x = Some e.
Proof. intros [_ R _ _] Hx. by eapply dseg_member; [apply (l_seg _ _ R)|]. Qed.

Lemma agree_core_key P P' : agree core P P' -> agree key P P'.
Proof. apply (agree_weaken core (fun c => c.1.1.1.1)). Qed.

Lemma only_lru_core s s' : only_lru s s' -> agree core (pool s) (pool s').
Proof. intros [H _]. exact (agree_weaken _ fst _ _ H). Qed.

Lemma only_hash_core s s' : only_hash s s' -> agree core (pool s) (pool s').
Proof. intros [H _]. exact (agree_weaken _ fst _ _ H). Qed.

Lemma only_lru_chains s s' Hs : only_lru s s' -> chains s Hs -> chains s' Hs.
Proof. intros (H & Ht & _). apply chains_frame; [|done]. exact (agree_weaken _ (fun c => (c.1.1.1.1.1, c.2)) _ _ H). Qed.

Lemma only_hash_lru s s' L : only_hash s s' -> lru_rep s L -> lru_rep s' L.
Proof. intros (H & Hh & Ht & _). apply lru_frame; [|done|done]. exact (agree_weaken _ snd _ _ H). Qed.

(** A change of a page that leaves its links and its key. *)
Lemma struct_upd s L Hs x e e' :
  pstruct s L Hs -> pool s !! x = Some e -> lru_links e' = lru_links e -> p_hash_next e' = p_hash_next e -> key e' = key e ->
  pstruct (set_pool (<[x := e']>) s) L Hs.
Proof.
  intros [R1 R2 R3 R4] Hx E1 E2 E3. split; cbn.
  - by rewrite length_insert.
  - apply (lru_frame s); [|done..]. by eapply agree_insert.
  - apply (chains_frame s); [|done..]. eapply agree_insert; [done|]. by rewrite E2, E3.
  - intros y ey Hy. destruct (decide (y = x)) as [->|Hne].
    + rewrite list_lookup_insert_eq in Hy by (by eapply lookup_lt_Some). injection Hy as <-.
      unfold bucket. injection E3 as -> ->. by apply R4.
    + rewrite list_lookup_insert_ne in Hy by congruence. by apply R4.
Qed.

(** A page out of the lists is changed, its key included. *)
Lemma struct_out s L Hs x e e' :
  pstruct s L Hs -> x ∉ L -> pool s !! x = Some e -> lru_links e' = lru_links e -> pstruct (set_pool (<[x := e']>) s) L Hs.
Proof.
  intros [R1 R2 R3 R4] Hx He El. pose proof R3 as [C1 C2 C3 C4].
  assert (forall c, x ∉ Hs c) as HxH.
  { intros c Hin. destruct (C4 c x Hin) as (e0 & He0 & <-). rewrite He in He0. injection He0 as <-. by apply Hx, (R4 x e He). }
  split; cbn; [by rewrite length_insert|..].
  - apply (lru_frame s); [|done..]. by eapply agree_insert.
  - split; [done| |done|].
    + intros c Hc. destruct (C2 c Hc) as (h & Hh & Hseg). exists h. split; [done|]. by apply hseg_insert_out.
    + intros c y Hy. cbn. rewrite list_lookup_insert_ne by (intros ->; by apply (HxH c)). by apply C4.
  - intros y ey Hy. destruct (decide (y = x)) as [->|Hne].
    + split; [done|]. intros Hin. by apply HxH in Hin.
    + rewrite list_lookup_insert_ne in Hy by congruence. by apply R4.
Qed.

Lemma struct_count s L Hs h m e w : pstruct s L Hs -> pstruct (count h m e w s) L Hs.
Proof. intros [R1 R2 R3 R4]. split; [done|destruct R2; by split|destruct R3; by split|done]. Qed.

Lemma struct_blk s L Hs b : pstruct s L Hs -> pstruct (set_blk b s) L Hs.
Proof. intros [R1 R2 R3 R4]. split; [done|destruct R2; by split|destruct R3; by split|done]. Qed.

Lemma struct_find s L Hs dev n :
  pstruct s L Hs -> exists r, _hash_find dev n s = Some (s, r) /\
    match r with
    | Some x => x ∈ L /\ exists e, pool s !! x = Some e /\ key e = (dev, n)
    | None => forall x e, x ∈ L -> pool s !! x = Some e -> key e <> (dev, n)
    end.
Proof.
  intros [R1 R2 R3 R4]. destruct (hash_find_ok s Hs dev n R3 R1) as (r & Hr & Hc). exists r. split; [done|].
  assert (forall x e, pool s !! x = Some e -> key e = (dev, n) -> x ∈ L <-> x ∈ Hs (_hash dev n)) as Hk.
  { intros x e He [= <- <-]. by apply R4. }
  destruct r as [x|].
  - destruct Hc as (Hx & e & He & Hke). split; [|by exists e]. by apply (Hk x e).
  - intros x e Hx He Hke. apply (Hc x e); [by apply (Hk x e)|done|done].
Qed.

Lemma struct_touch s L Hs x :
  pstruct s L Hs -> x ∈ L ->
  exists s' L', _lru_touch x s = Some (s', tt) /\ only_lru s s' /\ pstruct s' L' Hs /\ (forall y, y ∈ L' <-> y ∈ L).
Proof.
  intros [R1 R2 R3 R4] Hx. apply list_elem_of_split in Hx as (A & B & ->).
  destruct (lru_touch_ok s A x B R2) as (s' & H & O & R2'). exists s', (x :: A ++ B). split; [done|]. split; [done|].
  assert (forall y, y ∈ x :: A ++ B <-> y ∈ A ++ x :: B) as Hp by set_solver.
  split; [|done]. pose proof (only_lru_core _ _ O) as Hco. split.
  - by rewrite (agree_len _ _ _ Hco).
  - done.
  - by eapply only_lru_chains.
  - intros y ey Hy. rewrite Hp. destruct (agree_some _ _ _ _ _ (agree_sym _ _ _ (agree_core_key _ _ Hco)) Hy) as (e & He & E).
    rewrite (R4 y e He). unfold bucket. by injection E as -> ->.
Qed.

(** Taking a page out of both. *)
Lemma struct_remove s L Hs x :
  pstruct s L Hs -> x ∈ L ->
  exists s' L' Hs', (_lru_remove x ;; _hash_remove x) s = Some (s', tt) /\ agree core (pool s) (pool s') /\
    pc_blk s' = pc_blk s /\ pstruct s' L' Hs' /\ x ∉ L' /\ (forall y, y <> x -> y ∈ L' <-> y ∈ L).
Proof.
  intros S Hx. destruct (struct_in_pool _ _ _ _ S Hx) as [e He]. destruct S as [R1 R2 R3 R4].
  pose proof (l_nodup _ _ R2) as Hnd. pose proof (proj1 (R4 x e He) Hx) as HxH.
  apply list_elem_of_split in Hx as (A & B & ->).
  destruct (lru_remove_ok s A x B R2) as (s1 & H1 & O1 & R2').
  destruct (agree_some _ _ _ _ _ (only_lru_core _ _ O1) He) as (e1 & He1 & E1).
  assert (bucket e1 = bucket e) as Eb by (unfold bucket; by injection E1 as -> -> _ _ _ _).
  pose proof (h_nodup _ _ R3 (bucket e)) as HndH. pose proof HxH as HxH0. apply list_elem_of_split in HxH as (A' & B' & EH).
  pose proof (only_lru_chains _ _ _ O1 R3) as R3'. pose proof (only_lru_core _ _ O1) as Hco1.
  destruct (hash_remove_ok s1 Hs x e1 A' B' R3') as (s2 & H2 & O2 & R3'');
    [by rewrite (agree_len _ _ _ Hco1)|done|by rewrite Eb|].
  exists s2, (A ++ B), (set_chain Hs (bucket e1) (A' ++ B')). rewrite (run_bind _ _ _ _ _ H1), H2.
  split; [done|]. pose proof (agree_trans _ _ _ _ Hco1 (only_hash_core _ _ O2)) as Hco.
  split; [done|]. split; [destruct O1 as (_ & _ & ?), O2 as (_ & _ & _ & ?); congruence|].
  apply list.NoDup_app in Hnd as (_ & Hdis & Hnd2). inversion_clear Hnd2 as [|? ? HxB _].
  assert (x ∉ A ++ B) as Hxo by (rewrite elem_of_app; intros [Ha|Hb]; [apply (Hdis _ Ha); by left|done]).
  split; [|split; [done|intros y Hy; set_solver]]. split.
  - by rewrite (agree_len _ _ _ Hco).
  - by eapply only_hash_lru.
  - done.
  - intros y ey Hy. destruct (agree_some _ _ _ _ _ (agree_sym _ _ _ (agree_core_key _ _ Hco)) Hy) as (e0 & He0 & E0).
    assert (bucket ey = bucket e0) as -> by (unfold bucket; by injection E0 as -> ->). unfold set_chain. rewrite Eb.
    destruct (decide (y = x)) as [->|Hyx].
    + rewrite He in He0. injection He0 as <-. rewrite Z.eqb_refl. split; [done|]. intros Hin. exfalso. rewrite EH in HndH.
      apply list.NoDup_app in HndH as (_ & N2 & N3). inversion_clear N3. apply elem_of_app in Hin as [Ha|Hb]; [|done].
      apply (N2 _ Ha). by left.
    + assert (y ∈ A ++ B <-> y ∈ A ++ x :: B) as -> by set_solver. rewrite (R4 y e0 He0).
      destruct (bucket e0 =? bucket e) eqn:E; b2p; [|done]. rewrite E, EH. set_solver.
Qed.

(** Putting a page into both. *)
Lemma struct_insert s L Hs x e :
  pstruct s L Hs -> x ∉ L -> pool s !! x = Some e ->
  exists s' L' Hs', (_hash_insert x ;; _lru_touch x) s = Some (s', tt) /\ agree core (pool s) (pool s') /\
    pc_blk s' = pc_blk s /\ pstruct s' L' Hs' /\ (forall y, y ∈ L' <-> y = x \/ y ∈ L).
Proof.
  intros [R1 R2 R3 R4] Hx He.
  assert (forall b, x ∉ Hs b) as HxH.
  { intros b Hin. destruct (h_key _ _ R3 b x Hin) as (e' & He' & <-). rewrite He in He'. injection He' as <-.
    by apply Hx, (R4 x e He). }
  destruct (hash_insert_ok s Hs x e R3 He HxH) as (s1 & H1 & O1 & R3'). rewrite (run_bind _ _ _ _ _ H1).
  pose proof (only_hash_lru _ _ _ O1 R2) as R2'. pose proof (only_hash_core _ _ O1) as Hco1.
  destruct (agree_some _ _ _ _ _ Hco1 He) as (e1 & He1 & E1).
  destruct (lru_touch_new s1 L x e1 R2' Hx He1) as (s2 & H2 & O2 & R2''). rewrite H2.
  exists s2, (x :: L), (set_chain Hs (bucket e) (x :: Hs (bucket e))). split; [done|].
  pose proof (agree_trans _ _ _ _ Hco1 (only_lru_core _ _ O2)) as Hco. split; [done|].
  split; [destruct O1 as (_ & _ & _ & ?), O2 as (_ & _ & ?); congruence|].
  split; [|intros y; by rewrite elem_of_cons]. split; [by rewrite (agree_len _ _ _ Hco)|done|by eapply only_lru_chains|].
  intros y ey Hy. destruct (agree_some _ _ _ _ _ (agree_sym _ _ _ (agree_core_key _ _ Hco)) Hy) as (e0 & He0 & E0).
  assert (bucket ey = bucket e0) as -> by (unfold bucket; by injection E0 as -> ->). unfold set_chain.
  destruct (decide (y = x)) as [->|Hyx].
  - rewrite He in He0. injection He0 as <-. rewrite Z.eqb_refl. set_solver.
  - rewrite elem_of_cons. destruct (bucket e0 =? bucket e) eqn:E; b2p.
    + rewrite <- E, elem_of_cons, (R4 y e0 He0). done.
    + rewrite (R4 y e0 He0). split; [by intros [?|?]|by right].
Qed.
End Structure.

(** ** Contents *)

Section Contents.
Context {D : Type} `{DD : DiskDriver D} (same : Z -> Z -> Prop) `{!DiskDriverLaws D same}.
Implicit Types s : pcache D.
Implicit Types b : blk D.

(** The devices in use and the block size of each. *)
Context (V : list Z) (bsz : Z -> Z).
Hypothesis bsz_ok : forall dev, dev ∈ V -> 0 < bsz dev <= PC_MAX_BLOCK_SIZE /\ bsz dev mod 512 = 0.

Definition spb (dev : Z) : Z := bsz dev / 512.

Lemma spb_ok dev : dev ∈ V -> bsz dev = 512 * spb dev /\ 1 <= spb dev <= 8.
Proof using bsz_ok.
  intros Hd. destruct (bsz_ok dev Hd) as [Hb Hm]. unfold spb, PC_MAX_BLOCK_SIZE in *.
  pose proof (Z.div_mod (bsz dev) 512). lia.
Qed.

Definition in_vol b (dev n : Z) : Prop := 0 <= n /\ (n + 1) * spb dev <= capacity b dev.
Definition disk_block b (dev n : Z) : mem := sectors b dev (n * spb dev) (Z.to_nat (spb dev)).

(** What the clients see: the blocks [A]; the pages they hold, with pointer
    and number of references, [G]; the blocks they have changed and not yet
    marked dirty, [U]. *)
Definition held (G : gmap (Z * Z) (nat * Z)) (k : Z * Z) : Z := match G !! k with Some (_, n) => n | None => 0 end.

Definition buf_ok (d : mem) : Prop := zlen d = PC_MAX_BLOCK_SIZE /\ bytes d.

Definition live b (A : Z -> Z -> mem) G (e : page) : Prop :=
  p_flags e = 5 /\ p_dev e ∈ V /\ in_vol b (p_dev e) (p_block_no e) /\ p_block_size e = bsz (p_dev e) /\
  p_pin e = held G (key e) /\
  exists d, p_data e = Some d /\ buf_ok d /\ slice 0 (bsz (p_dev e)) d = A (p_dev e) (p_block_no e).

Definition unused (flags pin : Z) (e : page) : Prop :=
  p_flags e = flags /\ p_pin e = pin /\ forall d, p_data e = Some d -> buf_ok d.

(** [cl] is a page that has been taken and not yet entered. *)
Record content (P : list page) b (L : list nat) (cl : option nat) (A : Z -> Z -> mem) (G : gmap (Z * Z) (nat * Z))
    (U : gset (Z * Z)) : Prop := {
  k_live : forall x e, P !! x = Some e -> x ∈ L -> live b A G e;
  k_dead : forall x e, P !! x = Some e -> x ∉ L -> if bool_decide (cl = Some x) then unused 4 1 e else unused 0 0 e;
  k_uniq : forall x y e f, x ∈ L -> y ∈ L -> P !! x = Some e -> P !! y = Some f -> key e = key f -> x = y;
  k_vol : volumes same b V;
  k_disk : forall dev n, dev ∈ V -> in_vol b dev n -> (dev, n) ∉ U -> disk_block b dev n = A dev n;
  k_held : forall k x n, G !! k = Some (x, n) -> 0 < n /\ x ∈ L /\ exists e, P !! x = Some e /\ key e = k;
  k_unsaved : forall k, k ∈ U -> is_Some (G !! k)
}.

Definition pinv s (cl : option nat) A G U : Prop :=
  exists L Hs, pstruct s L Hs /\ content (pool s) (pc_blk s) L cl A G U /\ (forall x, cl = Some x -> x ∉ L).

Lemma live_core b A G e e' : core e' = core e -> live b A G e -> live b A G e'.
Proof. intros E. unfold live, key in *. injection E as -> -> -> -> -> ->. done. Qed.

Lemma unused_core f p e e' : core e' = core e -> unused f p e -> unused f p e'.
Proof. intros E. unfold unused. injection E as _ _ -> _ -> ->. done. Qed.

Lemma content_frame P P' b L L' cl A G U :
  agree core P P' -> (forall y, y ∈ L' <-> y ∈ L) -> content P b L cl A G U -> content P' b L' cl A G U.
Proof.
  intros Hc Hl [K1 K2 K3 K4 K5 K6 K7].
  assert (forall x e', P' !! x = Some e' -> exists e, P !! x = Some e /\ core e' = core e) as Hb.
  { intros x e' Hx. destruct (agree_some _ _ _ _ _ (agree_sym _ _ _ Hc) Hx) as (e & He & E). by exists e. }
  split; try done.
  - intros x e' Hx Hin. destruct (Hb x e' Hx) as (e & He & E). apply (live_core _ _ _ _ _ E). apply (K1 x); [done|by apply Hl].
  - intros x e' Hx Hin. destruct (Hb x e' Hx) as (e & He & E). specialize (K2 x e He). rewrite <- Hl in K2.
    specialize (K2 Hin). destruct (bool_decide (cl = Some x)); by apply (unused_core _ _ _ _ E).
  - intros x y e' f' Hx Hy He' Hf' Hk. destruct (Hb x e' He') as (e & He & E), (Hb y f' Hf') as (f & Hf & E').
    apply (K3 x y e f); [by apply Hl|by apply Hl|done|done|]. unfold key in *. injection E as E1 E2 _ _ _ _.
    injection E' as E1' E2' _ _ _ _. congruence.
  - intros k x n Hk. destruct (K6 k x n Hk) as (Hn & Hx & e & He & Hke). split; [done|]. split; [by apply Hl|].
    destruct (agree_some _ _ _ _ _ Hc He) as (e' & He' & E). exists e'. split; [done|]. rewrite <- Hke. unfold key.
    by injection E as -> -> _ _ _ _.
Qed.

(** A page out of the lists is changed. *)
Lemma content_dead_upd P b L cl cl' A G U x e' :
  content P b L cl A G U -> x ∉ L -> (x < length P)%nat ->
  (if bool_decide (cl' = Some x) then unused 4 1 e' else unused 0 0 e') ->
  (forall y, y <> x -> cl' = Some y <-> cl = Some y) ->
  content (<[x := e']> P) b L cl' A G U.
Proof.
  intros [K1 K2 K3 K4 K5 K6 K7] Hx Hlt He' Hcl.
  assert (forall y e, y ∈ L -> <[x := e']> P !! y = Some e -> P !! y = Some e) as Hin.
  { intros y e Hy. rewrite list_lookup_insert_ne by congruence. done. }
  split; try done.
  - intros y e Hy Hl. apply (K1 y); [by apply Hin|done].
  - intros y e Hy Hl. destruct (decide (y = x)) as [->|Hne].
    + rewrite list_lookup_insert_eq in Hy by done. by injection Hy as <-.
    + rewrite list_lookup_insert_ne in Hy by congruence. specialize (K2 y e Hy Hl).
      rewrite (bool_decide_ext (cl' = Some y) (cl = Some y)) by (by apply Hcl). done.
  - intros y z e f Hy Hz He Hf. apply (K3 y z e f); [done|done|by apply Hin|by apply Hin].
  - intros k y n Hk. destruct (K6 k y n Hk) as (Hn & Hy & e & He & Hke). split; [done|]. split; [done|]. exists e.
    by rewrite list_lookup_insert_ne by congruence.
Qed.

(** A page leaves the lists; nobody holds it. *)
Lemma content_drop P b L L' cl A G U x e :
  content P b L cl A G U -> P !! x = Some e -> x ∈ L -> p_pin e = 0 -> x ∉ L' -> (forall y, y <> x -> y ∈ L' <-> y ∈ L) ->
  (forall y, cl = Some y -> y ∉ L) ->
  forall e', unused 0 0 e' -> content (<[x := e']> P) b L' cl A G U.
Proof.
  intros [K1 K2 K3 K4 K5 K6 K7] Hx HxL Hpin HxL' Hl Hcl e' He'.
  assert (forall y, y ∈ L' -> y <> x /\ y ∈ L) as Hsub by (intros y Hy; split; [congruence|]; apply Hl; [congruence|done]).
  assert (forall y f, y ∈ L' -> <[x := e']> P !! y = Some f -> P !! y = Some f) as Hin.
  { intros y f Hy. rewrite list_lookup_insert_ne by (apply Hsub in Hy as [? _]; congruence). done. }
  split; try done.
  - intros y f Hy Hyl. apply (K1 y); [by apply Hin|by apply Hsub].
  - intros y f Hy Hyl. destruct (decide (y = x)) as [->|Hne].
    + rewrite list_lookup_insert_eq in Hy by (by eapply lookup_lt_Some). injection Hy as <-.
      rewrite bool_decide_eq_false_2; [done|]. intros Hc. by apply (Hcl x Hc).
    + rewrite list_lookup_insert_ne in Hy by congruence. apply K2; [done|]. by rewrite <- Hl.
  - intros y z f g Hy Hz Hf Hg. apply (K3 y z f g); [by apply Hsub|by apply Hsub|by apply Hin|by apply Hin].
  - intros k y n Hk. destruct (K6 k y n Hk) as (Hn & Hy & f & Hf & Hke). split; [done|].
    assert (y <> x) as Hne.
    { intros ->. rewrite Hx in Hf. injection Hf as <-. destruct (K1 x e Hx HxL) as (_ & _ & _ & _ & Hp & _).
      unfold held in Hp. rewrite Hke, Hk in Hp. lia. }
    split; [by apply Hl|]. exists f. by rewrite list_lookup_insert_ne by congruence.
Qed.

(** A held page: one more or one fewer reference. *)
Definition bump (G : gmap (Z * Z) (nat * Z)) (k : Z * Z) (x : nat) : gmap (Z * Z) (nat * Z) := <[k := (x, held G k + 1)]> G.
Definition unbump (G : gmap (Z * Z) (nat * Z)) (k : Z * Z) : gmap (Z * Z) (nat * Z) :=
  match G !! k with Some (x, n) => if n =? 1 then delete k G else <[k := (x, n - 1)]> G | None => G end.

Lemma held_bump G k x k' : held (bump G k x) k' = held G k' + if decide (k' = k) then 1 else 0.
Proof.
  unfold held at 1, bump. rewrite lookup_insert. case_decide as E; [subst|]; case_decide; try congruence; unfold held; lia.
Qed.

Lemma held_unbump G k k' : (forall x n, G !! k = Some (x, n) -> 0 < n) ->
  held (unbump G k) k' = held G k' - if decide (k' = k /\ is_Some (G !! k)) then 1 else 0.
Proof.
  intros Hp. unfold unbump. destruct (G !! k) as [[x n]|] eqn:E.
  - specialize (Hp _ _ eq_refl). destruct (decide (k' = k)) as [->|Hne].
    + rewrite decide_True by eauto. unfold held at 2. rewrite E. destruct (n =? 1) eqn:En; b2p; unfold held.
      * rewrite lookup_delete_eq. lia.
      * rewrite lookup_insert_eq. lia.
    + rewrite decide_False by tauto. destruct (n =? 1); unfold held; rewrite ?lookup_delete_ne, ?lookup_insert_ne by done; lia.
  - rewrite decide_False by (intros [_ [? ?]]; congruence). lia.
Qed.

(** A page in the lists is changed in its flags, pins or data only. *)
Lemma content_live_upd P b L cl A A' G G' U U' x e e' :
  content P b L cl A G U -> P !! x = Some e -> x ∈ L -> key e' = key e ->
  live b A' G' e' ->
  (forall dev n, (dev, n) <> key e -> A' dev n = A dev n) ->
  (forall k, k <> key e -> held G' k = held G k) ->
  (forall k y n, G' !! k = Some (y, n) -> 0 < n /\ (k = key e /\ y = x \/ G !! k = Some (y, n))) ->
  (forall k, k ∈ U' -> is_Some (G' !! k)) ->
  (forall dev n, dev ∈ V -> in_vol b dev n -> (dev, n) ∉ U' -> disk_block b dev n = A' dev n) ->
  content (<[x := e']> P) b L cl A' G' U'.
Proof.
  intros [K1 K2 K3 K4 K5 K6 K7] Hx HxL Hk Hl HA HG HG2 HU Hd.
  assert (forall y f, <[x := e']> P !! y = Some f -> exists f0, P !! y = Some f0 /\ key f = key f0 /\ (y = x /\ f = e' \/ y <> x /\ f = f0)) as Hlook.
  { intros y f Hy. destruct (decide (y = x)) as [->|Hne].
    - rewrite list_lookup_insert_eq in Hy by (by eapply lookup_lt_Some). injection Hy as <-. exists e. split; [done|]. split; [done|]. by left.
    - rewrite list_lookup_insert_ne in Hy by congruence. exists f. split; [done|]. split; [done|]. by right. }
  split; try done.
  - intros y f Hy Hyl. destruct (Hlook y f Hy) as (f0 & Hf0 & Hkf & [[-> ->]|[Hne ->]]); [done|].
    destruct (K1 y f0 Hf0 Hyl) as (E1 & E2 & E3 & E4 & E5 & d & E6 & E7 & E8).
    assert (key f0 <> key e) as Hkne by (intros E; by apply Hne, (K3 y x f0 e)).
    split_and!; try done; [by rewrite HG|]. exists d. split; [done|]. split; [done|]. by rewrite HA.
  - intros y f Hy Hyl. destruct (Hlook y f Hy) as (f0 & Hf0 & _ & [[-> ->]|[Hne ->]]); [done|]. by apply K2.
  - intros y z f g Hy Hz Hf Hg E. destruct (Hlook y f Hf) as (f0 & Hf0 & Ef & _), (Hlook z g Hg) as (g0 & Hg0 & Eg & _).
    apply (K3 y z f0 g0); try done. congruence.
  - intros k y n Hg. destruct (HG2 k y n Hg) as [Hn [[-> ->]|Hg']].
    + split; [done|]. split; [done|]. exists e'. by rewrite list_lookup_insert_eq by (by eapply lookup_lt_Some).
    + destruct (K6 k y n Hg') as (_ & Hy & f & Hf & Hkf). split; [done|]. split; [done|].
      destruct (decide (y = x)) as [->|Hne]; [exists e'|exists f].
      * rewrite list_lookup_insert_eq by (by eapply lookup_lt_Some). split; [done|]. congruence.
      * by rewrite list_lookup_insert_ne by congruence.
Qed.

Lemma content_pin P b L cl A G U x e :
  content P b L cl A G U -> P !! x = Some e -> x ∈ L ->
  content (<[x := set_pin (p_pin e + 1) e]> P) b L cl A (bump G (key e) x) U.
Proof.
  intros K Hx HxL. destruct (k_live _ _ _ _ _ _ _ K x e Hx HxL) as (E1 & E2 & E3 & E4 & E5 & E6).
  eapply content_live_upd; try done.
  - split_and!; try done. cbn [set_pin p_pin]. rewrite E5, held_bump, decide_True by done. done.
  - intros k Hk. rewrite held_bump, decide_False by done. lia.
  - intros k y n. unfold bump. rewrite lookup_insert. case_decide as Ek.
    + intros [= <- <-]. split; [|by left]. unfold held. destruct (G !! key e) as [[z m]|] eqn:Eg; [|lia].
      destruct (k_held _ _ _ _ _ _ _ K _ _ _ Eg). lia.
    + intros Hg. split; [by apply (k_held _ _ _ _ _ _ _ K) in Hg as [? _]|by right].
  - intros k Hk. unfold bump. rewrite lookup_insert. case_decide; [by eexists|]. by apply (k_unsaved _ _ _ _ _ _ _ K).
  - apply (k_disk _ _ _ _ _ _ _ K).
Qed.

Lemma content_unpin P b L cl A G U x e :
  content P b L cl A G U -> P !! x = Some e -> x ∈ L -> 0 < p_pin e -> (p_pin e = 1 -> key e ∉ U) ->
  content (<[x := set_pin (p_pin e - 1) e]> P) b L cl A (unbump G (key e)) U.
Proof.
  intros K Hx HxL Hp HU. destruct (k_live _ _ _ _ _ _ _ K x e Hx HxL) as (E1 & E2 & E3 & E4 & E5 & E6).
  assert (exists y, G !! key e = Some (y, p_pin e)) as [y Hg].
  { unfold held in E5. destruct (G !! key e) as [[y n]|] eqn:Eg; [|lia]. exists y. by rewrite E5. }
  assert (forall x n, G !! key e = Some (x, n) -> 0 < n) as Hpos by (intros ? ? Hg2; rewrite Hg in Hg2; by injection Hg2 as _ <-).
  eapply content_live_upd; try done.
  - split_and!; try done. cbn [set_pin p_pin]. rewrite E5, held_unbump, decide_True by (done || by eauto). done.
  - intros k Hk. rewrite held_unbump, decide_False by (done || tauto). lia.
  - intros k z n Hz. unfold unbump in Hz. rewrite Hg in Hz.
    destruct (p_pin e =? 1) eqn:En; b2p.
    + apply lookup_delete_Some in Hz as [_ Hz]. split; [by apply (k_held _ _ _ _ _ _ _ K) in Hz as [? _]|by right].
    + apply lookup_insert_Some in Hz as [[<- [= <- <-]]|[_ Hz]].
      * split; [lia|]. left. split; [done|]. destruct (k_held _ _ _ _ _ _ _ K _ _ _ Hg) as (_ & Hy & f & Hf & Hkf).
        by apply (k_uniq _ _ _ _ _ _ _ K y x f e).
      * split; [by apply (k_held _ _ _ _ _ _ _ K) in Hz as [? _]|by right].
  - intros k Hk. unfold unbump. rewrite Hg. pose proof (k_unsaved _ _ _ _ _ _ _ K k Hk) as Hs.
    destruct (p_pin e =? 1) eqn:En; b2p.
    + rewrite lookup_delete_ne; [done|]. intros <-. by apply HU.
    + rewrite lookup_insert. case_decide; [by eexists|done].
  - apply (k_disk _ _ _ _ _ _ _ K).
Qed.

(** ** Getting a page *)

Lemma run_data_ptr x e d s : pool s !! x = Some e -> p_data e = Some d -> data_ptr x s = Some (s, Some x).
Proof. intros He Hd. unfold data_ptr. rewrite (run_bind _ _ _ _ _ (run_page_at _ _ _ He)). by rewrite Hd. Qed.

(** A cached page is pinned, moved to the front and returned. *)
Lemma hit_ok s L Hs cl A G U x e :
  pstruct s L Hs -> content (pool s) (pc_blk s) L cl A G U -> x ∈ L -> pool s !! x = Some e ->
  exists s' L', (upd x (fun e => set_pin (p_pin e + 1) e) ;; _lru_touch x) s = Some (s', tt) /\
    pc_blk s' = pc_blk s /\ pstruct s' L' Hs /\ content (pool s') (pc_blk s') L' cl A (bump G (key e) x) U /\
    (forall y, y ∈ L' <-> y ∈ L) /\ agree key (pool s) (pool s') /\
    exists e' d, pool s' !! x = Some e' /\ p_data e' = Some d /\ buf_ok d.
Proof.
  intros T K HxL He. rewrite (run_bind _ _ _ _ _ (run_page_upd _ _ _ _ He)). set (s1 := set_pool _ s).
  assert (pstruct s1 L Hs) as T1 by (by eapply struct_upd).
  pose proof (content_pin _ _ _ _ _ _ _ _ _ K He HxL) as K1.
  destruct (struct_touch s1 L Hs x T1 HxL) as (s2 & L2 & H2 & O2 & T2 & Hl). rewrite H2.
  pose proof (only_lru_core _ _ O2) as Hco. destruct O2 as (_ & _ & Hb).
  exists s2, L2. split; [done|]. split; [done|]. split; [done|].
  split; [rewrite Hb; by eapply content_frame|]. split; [done|].
  split.
  { eapply agree_trans; [|by apply agree_core_key]. by eapply agree_insert. }
  assert (pool s1 !! x = Some (set_pin (p_pin e + 1) e)) as He1 by (apply list_lookup_insert_eq; by eapply lookup_lt_Some).
  destruct (agree_some _ _ _ _ _ Hco He1) as (e2 & He2 & E). destruct (k_live _ _ _ _ _ _ _ K x e He HxL) as (_ & _ & _ & _ & _ & d & Hd & Hbuf & _).
  exists e2, d. split; [done|]. split; [|done]. injection E as _ _ _ _ _ E6. rewrite E6. done.
Qed.

Lemma pc_lookup_ok s cl A G U dev n :
  pinv s cl A G U ->
  exists s' r, pc_lookup dev n s = Some (s', r) /\ pc_blk s' = pc_blk s /\
    match r with
    | Some q => exists x, q = Some x /\ pinv s' cl A (bump G (dev, n) x) U
    | None => pinv s' cl A G U
    end.
Proof.
  intros (L & Hs & T & K & Hcl). unfold pc_lookup. destruct (struct_find s L Hs dev n T) as (r & Hr & Hc).
  rewrite (run_bind _ _ _ _ _ Hr). destruct r as [x|].
  - destruct Hc as (HxL & e & He & Hk). rewrite (run_bind _ _ s (count 1 0 0 0 s) tt) by done.
    destruct (hit_ok (count 1 0 0 0 s) L Hs cl A G U x e) as (s' & L' & H' & Hb & T' & K' & Hl & _ & e' & d & He' & Hd & _);
      [by apply struct_count|done..|].
    rewrite (run_bind _ _ _ (set_pool (<[x := set_pin (p_pin e + 1) e]>) (count 1 0 0 0 s)) tt)
      by (exact (run_page_upd x (fun e => set_pin (p_pin e + 1) e) e (count 1 0 0 0 s) He)).
    rewrite (run_bind _ _ _ _ _ (run_page_upd x (fun e => set_pin (p_pin e + 1) e) e (count 1 0 0 0 s) He)) in H'.
    rewrite (run_bind _ _ _ _ _ H'), (run_bind _ _ _ _ _ (run_data_ptr _ _ _ _ He' Hd)).
    eexists _, _. split; [done|]. split; [done|]. exists x. split; [done|]. exists L', Hs. rewrite Hk in K'. split; [done|].
    split; [done|]. intros y Hy. rewrite Hl. by apply Hcl.
  - rewrite (run_bind _ _ s (count 0 1 0 0 s) tt) by done. eexists _, _. split; [done|]. split; [done|].
    exists L, Hs. split; [by apply struct_count|]. split; [done|done].
Qed.

(** A page that nobody holds leaves the cache. *)
Lemma remove_page_ok s L Hs A G U x e f :
  pstruct s L Hs -> content (pool s) (pc_blk s) L None A G U -> x ∈ L -> pool s !! x = Some e -> p_pin e = 0 ->
  (forall p, lru_links (f p) = lru_links p /\ p_hash_next (f p) = p_hash_next p /\ key (f p) = key p /\
     p_flags (f p) = 0 /\ p_pin (f p) = 0 /\ (p_data (f p) = p_data p \/ p_data (f p) = None)) ->
  exists s' L' Hs', (_lru_remove x ;; _hash_remove x ;; upd x f) s = Some (s', tt) /\
    pc_blk s' = pc_blk s /\ pstruct s' L' Hs' /\ content (pool s') (pc_blk s') L' None A G U /\ x ∉ L'.
Proof.
  intros T K HxL He Hp Hf. destruct (struct_remove s L Hs x T HxL) as (s1 & L1 & Hs1 & H1 & Hco & Hb & T1 & Hx1 & Hl).
  destruct (agree_some _ _ _ _ _ Hco He) as (e1 & He1 & E). destruct (Hf e1) as (F1 & F2 & F3 & F4 & F5 & F6).
  apply run_seq_inv in H1 as (s0 & [] & H0 & H1). exists (set_pool (<[x := f e1]>) s1), L1, Hs1.
  split; [rewrite (run_bind _ _ _ _ _ H0), (run_bind _ _ _ _ _ H1); exact (run_page_upd _ _ _ _ He1)|].
  split; [done|]. split; [by eapply struct_upd|]. split; [|done]. cbn. rewrite Hb.
  assert (content (pool s1) (pc_blk s) L None A G U) as K1 by (by eapply content_frame).
  eapply content_drop; try done.
  - injection E as _ _ _ _ E5 _. by rewrite E5.
  - destruct (k_live _ _ _ _ _ _ _ K1 x e1 He1 HxL) as (_ & _ & _ & _ & _ & d & Hd & Hbuf & _).
    split; [done|]. split; [done|]. intros d' Hd'. destruct F6; congruence.
Qed.

(** A page that is free to be taken. *)
Definition spare s (x : nat) A G U : Prop :=
  exists L Hs, pstruct s L Hs /\ content (pool s) (pc_blk s) L None A G U /\ x ∉ L /\ (x < PC_MAX_PAGES)%nat.

Lemma live_clean b A G e : live b A G e -> has_flag e PC_FLAG_DIRTY = false.
Proof. intros (Hf & _). unfold has_flag. by rewrite Hf. Qed.

Lemma evict_loop_ok Hs A G U B : forall L1 s fuel,
  pstruct s (L1 ++ B) Hs -> content (pool s) (pc_blk s) (L1 ++ B) None A G U -> (length L1 < fuel)%nat ->
  exists s' r, evict_loop fuel (list.last L1) s = Some (s', r) /\ pc_blk s' = pc_blk s /\
    match r with
    | Some x => spare s' x A G U
    | None => s' = s /\ forall x e, x ∈ L1 -> pool s !! x = Some e -> p_pin e <> 0
    end.
Proof.
  intros L1. revert B. induction L1 as [|x L1 IH] using rev_ind; intros B s [|fuel] T K Hf; rewrite ?length_app in Hf;
    cbn [length] in Hf; try lia; cbn [evict_loop].
  { eexists s, None. split; [done|]. split; [done|]. split; [done|]. intros x e Hx. by apply not_elem_of_nil in Hx. }
  rewrite last_snoc. rewrite <- app_assoc in T, K. cbn [app] in T, K.
  destruct (lru_at _ _ _ _ (t_lru _ _ _ T)) as (e & He & Hp & _ & _ & _).
  assert (x ∈ L1 ++ x :: B) as HxL by set_solver.
  rewrite (run_bind _ _ _ _ _ (run_page_at _ _ _ He)). destruct (p_pin e =? 0) eqn:Ep; b2p.
  - rewrite (live_clean _ _ _ _ (k_live _ _ _ _ _ _ _ K x e He HxL)), (run_bind _ _ s s tt) by done.
    destruct (remove_page_ok s _ Hs A G U x e (fun e => set_pin 0 (set_flags 0 e)) T K HxL He Ep)
      as (s' & L' & Hs' & H' & Hb & T' & K' & Hx'); [by intros p; split_and!; try done; left|].
    apply run_seq_inv in H' as (s1 & [] & H1 & H'). apply run_seq_inv in H' as (s2 & [] & H2 & H3).
    rewrite (run_bind _ _ _ _ _ H1), (run_bind _ _ _ _ _ H2), (run_bind _ _ _ _ _ H3).
    rewrite (run_bind _ _ _ (count 0 0 1 0 s') tt) by done. eexists _, (Some x). split; [done|]. split; [done|].
    exists L', Hs'. split; [by apply struct_count|]. split; [done|]. split; [done|].
    rewrite <- (t_len _ _ _ T). by eapply lookup_lt_Some.
  - rewrite Hp. destruct (IH (x :: B) s fuel T K ltac:(lia)) as (s' & r & Hr & Hb & Hc). exists s', r.
    split; [done|]. split; [done|]. destruct r; [done|]. destruct Hc as [-> Hc]. split; [done|].
    intros y f [Hy| ->%list_elem_of_singleton]%elem_of_app Hf'; [by apply (Hc y f)|congruence].
Qed.

Lemma lru_short s L Hs : pstruct s L Hs -> (length L <= PC_MAX_PAGES)%nat.
Proof.
  intros T. apply indices_bound; [apply (l_nodup _ _ (t_lru _ _ _ T))|]. intros x Hx.
  destruct (struct_in_pool _ _ _ _ T Hx) as [e He]. rewrite <- (t_len _ _ _ T). by eapply lookup_lt_Some.
Qed.

(** When every page is cached and pinned there are as many held blocks as
    pages. *)
Lemma all_held s L A G U :
  (forall x, (x < PC_MAX_PAGES)%nat -> x ∈ L) -> content (pool s) (pc_blk s) L None A G U ->
  (forall x e, x ∈ L -> pool s !! x = Some e -> p_pin e <> 0) -> length (pool s) = PC_MAX_PAGES ->
  (PC_MAX_PAGES <= size G)%nat.
Proof.
  intros Hall K Hpin Hlen. set (ks := key <$> pool s).
  assert (forall x e, pool s !! x = Some e -> x ∈ L) as HL by (intros x e He; apply Hall; rewrite <- Hlen; by eapply lookup_lt_Some).
  rewrite <- size_dom, <- Hlen. replace (length (pool s)) with (length ks) by (unfold ks; apply length_fmap).
  rewrite <- (size_list_to_set (C := gset (Z * Z)) ks).
  - apply subseteq_size. intros k. rewrite elem_of_list_to_set, elem_of_dom. unfold ks.
    intros (e & -> & He)%list_elem_of_fmap. apply list_elem_of_lookup in He as [x He].
    destruct (k_live _ _ _ _ _ _ _ K x e He (HL x e He)) as (_ & _ & _ & _ & Hp & _).
    specialize (Hpin x e (HL x e He) He). unfold held in Hp. destruct (G !! key e); [by eexists|done].
  - unfold ks. apply NoDup_alt. intros i j k Hi Hj. rewrite list_lookup_fmap in Hi, Hj.
    destruct (pool s !! i) as [e|] eqn:Ei, (pool s !! j) as [f|] eqn:Ej; try done. cbn in Hi, Hj.
    apply (k_uniq _ _ _ _ _ _ _ K i j e f); eauto. congruence.
Qed.

Lemma alloc_page_ok s A G U :
  pinv s None A G U ->
  exists s' r, _alloc_page s = Some (s', r) /\ pc_blk s' = pc_blk s /\
    match r with
    | Some x => spare s' x A G U
    | None => pinv s' None A G U /\ (PC_MAX_PAGES <= size G)%nat
    end.
Proof.
  intros (L & Hs & T & K & Hcl). unfold _alloc_page. rewrite (run_bind _ _ s s (pool s)) by done.
  destruct (list_find _ (pool s)) as [[x e]|] eqn:Ef.
  - apply list_find_Some in Ef as (He & Hfl & _). eexists s, (Some x). split; [done|]. split; [done|].
    exists L, Hs. split; [done|]. split; [done|].
    split; [|rewrite <- (t_len _ _ _ T); by eapply lookup_lt_Some].
    intros Hin. destruct (k_live _ _ _ _ _ _ _ K x e He Hin) as (Hf & _). unfold has_flag in Hfl. by rewrite Hf in Hfl.
  - unfold _evict_one. rewrite (run_bind _ _ s s (lru_tail s)) by done. rewrite (l_tail _ _ (t_lru _ _ _ T)).
    destruct (evict_loop_ok Hs A G U [] L s (S PC_MAX_PAGES)) as (s' & r & Hr & Hb & Hc);
      [by rewrite app_nil_r..|pose proof (lru_short _ _ _ T); lia|].
    rewrite Hr. exists s', r. split; [done|]. split; [done|]. destruct r; [done|]. destruct Hc as [-> Hc].
    split; [by exists L, Hs|]. apply (all_held s L A G U); [|done|done|apply (t_len _ _ _ T)].
    intros x Hx. rewrite <- (t_len _ _ _ T) in Hx. apply lookup_lt_is_Some in Hx as [e He].
    destruct (decide (x ∈ L)) as [|Hn]; [done|]. exfalso. pose proof (k_dead _ _ _ _ _ _ _ K x e He Hn) as (Hf & _).
    apply list_find_None in Ef. rewrite Forall_lookup in Ef. apply (Ef x e He). unfold has_flag. by rewrite Hf.
Qed.

Lemma claim_ok s A G U dev n sz :
  pinv s None A G U ->
  exists s' r, pc_claim dev n sz s = Some (s', r) /\ pc_blk s' = pc_blk s /\
    match r with
    | Some x => pinv s' (Some x) A G U /\
        exists e, pool s' !! x = Some e /\ key e = (dev, n) /\ p_block_size e = sz
    | None => pinv s' None A G U /\ (PC_MAX_PAGES <= size G)%nat
    end.
Proof.
  intros Hi. unfold pc_claim. destruct (alloc_page_ok s A G U Hi) as (s1 & r & H1 & Hb & Hr).
  rewrite (run_bind _ _ _ _ _ H1). destruct r as [x|]; [|by exists s1, None].
  destruct Hr as (L & Hs & T & K & Hx & Hlt). pose proof (t_len _ _ _ T) as Hlen.
  destruct (lookup_lt_is_Some_2 (pool s1) x) as [e He]; [lia|].
  rewrite (run_bind _ _ _ _ _ (run_page_upd _ _ _ _ He)). eexists _, (Some x). split; [done|]. split; [done|].
  assert (pool (set_pool (<[x := claim dev n sz e]>) s1) !! x = Some (claim dev n sz e)) as He'
    by (apply list_lookup_insert_eq; by eapply lookup_lt_Some).
  split; [|by exists (claim dev n sz e)].
  exists L, Hs. split; [|split; [|by intros y [= <-]]].
  - by eapply struct_out.
  - cbn. eapply content_dead_upd; [exact K|done|by eapply lookup_lt_Some| |].
    + rewrite bool_decide_eq_true_2 by done. pose proof (k_dead _ _ _ _ _ _ _ K x e He Hx) as (_ & _ & Hd).
      split; [done|]. by split.
    + intros y Hy. split; [congruence|done].
Qed.

(** The block is read into the page that was taken. *)
Lemma fill_ok s A G U fresh dev n x e :
  pinv s (Some x) A G U -> dev ∈ V -> in_vol (pc_blk s) dev n -> pool s !! x = Some e ->
  key e = (dev, n) -> p_block_size e = bsz dev -> (forall d, fresh = Some d -> buf_ok d) ->
  exists s' r, pc_fill fresh (Some dev) n (bsz dev) x s = Some (s', r) /\ pc_blk s' = pc_blk s /\
    if r : bool then
      pinv s' (Some x) A G U /\ exists e' d, pool s' !! x = Some e' /\ key e' = (dev, n) /\ p_block_size e' = bsz dev /\
        p_data e' = Some d /\ buf_ok d /\ slice 0 (bsz dev) d = disk_block (pc_blk s) dev n
    else pinv s' None A G U /\ fresh = None.
Proof using All.
  intros (L & Hs & T & K & Hcl) Hd Hv He Hk Hsz Hfr. pose proof (Hcl x eq_refl) as Hx.
  pose proof (k_dead _ _ _ _ _ _ _ K x e He Hx) as Hdead. rewrite bool_decide_eq_true_2 in Hdead by done.
  destruct Hdead as (Hf & Hpin & Hbuf). unfold pc_fill. rewrite (run_bind _ _ _ _ _ (run_page_at _ _ _ He)).
  destruct (spb_ok dev Hd) as [Hbs Hspb]. destruct (match p_data e with Some d => Some d | None => fresh end) as [d|] eqn:Ed.
  - assert (buf_ok d) as [Hzl Hby] by (destruct (p_data e); simplify_eq; eauto). unfold PC_MAX_BLOCK_SIZE in Hzl.
    rewrite (run_bind _ _ s s (blkdev_get_boot (pc_blk s))) by done. cbv zeta.
    rewrite (run_bind _ _ s s (splice 0 (replicate (Z.to_nat (bsz dev)) (u8 0)) d))
      by (unfold lift; by rewrite memset_ok by lia).
    set (d1 := splice 0 _ d). destruct (bsz_ok dev Hd) as [Hb1 _]. unfold PC_MAX_BLOCK_SIZE in Hb1.
    assert (zlen d1 = 4096) as Hd1 by (unfold d1; rewrite zlen_splice; rewrite ?zlen_replicate; lia).
    assert (bytes d1) as Hby1 by (apply bytes_splice; [|done]; apply Forall_replicate; done).
    fold (spb dev). destruct Hv as [Hn0 Hcap]. pose proof (k_vol _ _ _ _ _ _ _ K) as Hvol.
    pose proof (capacity_u32 _ _ _ _ Hvol Hd) as Hc32.
    rewrite u32_small by (unfold is_u32; nia).
    rewrite (run_bind _ _ s s (splice (0 * 512) (sectors (pc_blk s) dev (n * spb dev + 0) (Z.to_nat (spb dev))) d1)).
    2:{ apply (read_sectors_ok same V); [done|done|nia|lia|nia|nia]. }
    rewrite Z.add_0_r. change (0 * 512) with 0. fold (disk_block (pc_blk s) dev n).
    destruct (sectors_len same (pc_blk s) V dev (Z.to_nat (spb dev)) (n * spb dev) Hvol Hd) as [Hsl Hsb].
    fold (disk_block (pc_blk s) dev n) in Hsl, Hsb. set (blkc := disk_block _ _ _) in *. rewrite Z2Nat.id in Hsl by lia.
    rewrite (run_bind _ _ _ _ _ (run_page_upd _ _ _ _ He)). eexists _, true. split; [done|]. split; [done|].
    assert (buf_ok (splice 0 blkc d1)) as Hbok by (split; [unfold PC_MAX_BLOCK_SIZE; rewrite zlen_splice; lia|by apply bytes_splice]).
    split.
    + exists L, Hs. split; [by eapply struct_upd|]. split; [|done]. cbn.
      eapply content_dead_upd; [exact K|done|by eapply lookup_lt_Some| |done].
      rewrite bool_decide_eq_true_2 by done. split; [done|]. split; [done|]. cbn. by intros ? [= <-].
    + eexists _, _. cbn. rewrite list_lookup_insert_eq by (by eapply lookup_lt_Some). split_and!; try done.
      rewrite Hbs, <- Hsl. apply slice_splice_same; lia.
  - rewrite (run_bind _ _ _ _ _ (run_page_upd _ _ _ _ He)). eexists _, false. split; [done|]. split; [done|].
    split; [|by destruct (p_data e)]. exists L, Hs. split; [by eapply struct_upd|]. split; [|done]. cbn.
    eapply content_dead_upd; [exact K|done|by eapply lookup_lt_Some|done|].
    intros y Hy. split; [done|congruence].
Qed.

(** The filled page goes into the lists. *)
Lemma content_enter P b L L' A G U x e d :
  content P b L (Some x) A G U -> x ∉ L -> P !! x = Some e -> p_dev e ∈ V -> in_vol b (p_dev e) (p_block_no e) ->
  p_block_size e = bsz (p_dev e) -> p_data e = Some d -> buf_ok d ->
  slice 0 (bsz (p_dev e)) d = disk_block b (p_dev e) (p_block_no e) ->
  (forall y f, y ∈ L -> P !! y = Some f -> key f <> key e) -> (forall y, y ∈ L' <-> y = x \/ y ∈ L) ->
  content (<[x := set_flags (Z.lor (p_flags e) PC_FLAG_VALID) e]> P) b L' None A (bump G (key e) x) U.
Proof.
  intros K Hx He Hd Hv Hsz Hda Hbuf Hsl Hfresh HL'. pose proof K as [K1 K2 K3 K4 K5 K6 K7].
  assert (G !! key e = None) as HG.
  { destruct (G !! key e) as [[y m]|] eqn:Eg; [|done]. destruct (K6 _ _ _ Eg) as (_ & Hy & f & Hf & Hkf). by destruct (Hfresh y f). }
  assert (key e ∉ U) as HU by (intros Hin; destruct (K7 _ Hin); congruence).
  pose proof (K2 x e He Hx) as Hdead. rewrite bool_decide_eq_true_2 in Hdead by done. destruct Hdead as (Hf & Hp & _).
  set (e' := set_flags _ e).
  assert (forall y f, <[x := e']> P !! y = Some f -> y = x /\ f = e' \/ y <> x /\ P !! y = Some f) as Hlook.
  { intros y f Hy. destruct (decide (y = x)) as [->|Hne].
    - rewrite list_lookup_insert_eq in Hy by (by eapply lookup_lt_Some). injection Hy as <-. by left.
    - rewrite list_lookup_insert_ne in Hy by congruence. by right. }
  assert (forall k, k <> key e -> held (bump G (key e) x) k = held G k) as Hheld
    by (intros k Hk; rewrite held_bump, decide_False by done; lia).
  split; try done.
  - intros y f Hy Hyl. destruct (Hlook y f Hy) as [[-> ->]|[Hne Hy']].
    + unfold live. change (key e') with (key e). cbn [e' set_flags p_flags p_dev p_block_no p_block_size p_pin p_data].
      rewrite Hf. split_and!; try done.
      * rewrite held_bump, decide_True by done. unfold held. rewrite HG. lia.
      * exists d. split; [done|]. split; [done|]. rewrite Hsl. by apply K5.
    + assert (y ∈ L) as HyL by (apply HL' in Hyl as [?|?]; done).
      destruct (K1 y f Hy' HyL) as (E1 & E2 & E3 & E4 & E5 & E6). split_and!; try done. rewrite Hheld; [done|].
      by apply (Hfresh y f).
  - intros y f Hy Hyl. assert (y <> x /\ y ∉ L) as [Hne HyL] by (rewrite HL' in Hyl; tauto).
    destruct (Hlook y f Hy) as [[-> _]|[_ Hy']]; [done|]. pose proof (K2 y f Hy' HyL) as Hd2.
    rewrite bool_decide_eq_false_2 in Hd2 by congruence. by rewrite bool_decide_eq_false_2.
  - intros y z f g Hy Hz Hf' Hg Hk. apply HL' in Hy, Hz.
    destruct (Hlook y f Hf') as [[-> ->]|[Hny Hf2]], (Hlook z g Hg) as [[-> ->]|[Hnz Hg2]]; [done|..].
    + destruct Hz as [?|Hz]; [done|]. by destruct (Hfresh z g).
    + destruct Hy as [?|Hy]; [done|]. by destruct (Hfresh y f).
    + destruct Hy as [?|Hy], Hz as [?|Hz]; try done. by apply (K3 y z f g).
  - intros k y m. unfold bump. rewrite lookup_insert. case_decide as Ek.
    + intros [= <- <-]. unfold held. rewrite HG. split; [lia|]. split; [apply HL'; by left|]. exists e'.
      by rewrite list_lookup_insert_eq by (by eapply lookup_lt_Some).
    + intros Hg. destruct (K6 k y m Hg) as (? & Hy & f & Hf' & Hkf). split; [done|]. split; [apply HL'; by right|].
      exists f. rewrite list_lookup_insert_ne by congruence. done.
  - intros k Hk. unfold bump. rewrite lookup_insert. case_decide; [by eexists|by apply K7].
Qed.

Lemma pc_insert_ok s A G U dev n x e d :
  pinv s (Some x) A G U -> pool s !! x = Some e -> key e = (dev, n) -> dev ∈ V -> in_vol (pc_blk s) dev n ->
  p_block_size e = bsz dev -> p_data e = Some d -> buf_ok d -> slice 0 (bsz dev) d = disk_block (pc_blk s) dev n ->
  exists s' y, pc_insert dev n x s = Some (s', Some y) /\ pc_blk s' = pc_blk s /\ pinv s' None A (bump G (dev, n) y) U.
Proof.
  intros (L & Hs & T & K & Hcl) He Hk Hd Hv Hsz Hda Hbuf Hsl. pose proof (Hcl x eq_refl) as Hx.
  unfold pc_insert. destruct (struct_find s L Hs dev n T) as (r & Hr & Hc). rewrite (run_bind _ _ _ _ _ Hr).
  destruct r as [q|].
  - destruct Hc as (Hq & eq & Heq & Hkq).
    destruct (hit_ok s L Hs (Some x) A G U q eq T K Hq Heq) as (s1 & L1 & H1 & Hb & T1 & K1 & Hl & Hkey & eq1 & dq & Heq1 & Hdq & _).
    apply run_seq_inv in H1 as (s0 & [] & H0 & H1).
    rewrite (run_bind _ _ _ _ _ H0), (run_bind _ _ _ _ _ H1).
    destruct (agree_some _ _ _ _ _ Hkey He) as (e1 & He1 & _).
    assert (x ∉ L1) as Hx1 by (by rewrite Hl).
    rewrite (run_bind _ _ _ _ _ (run_page_upd _ _ _ _ He1)). set (s2 := set_pool _ s1).
    assert (pool s2 !! q = Some eq1) as Hq2 by (cbn; rewrite list_lookup_insert_ne; [done|congruence]).
    rewrite (run_data_ptr _ _ _ _ Hq2 Hdq). eexists _, q. split; [done|]. split; [done|].
    exists L1, Hs. split; [by eapply struct_out|]. split; [|done]. cbn. rewrite Hkq in K1.
    eapply content_dead_upd; [exact K1|done|by eapply lookup_lt_Some| |intros y Hy; split; [done|congruence]].
    pose proof (k_dead _ _ _ _ _ _ _ K1 x e1 He1 Hx1) as Hdead. rewrite bool_decide_eq_true_2 in Hdead by done.
    destruct Hdead as (_ & _ & Hdd). split; [done|]. by split.
  - rewrite (run_bind _ _ _ _ _ (run_page_upd _ _ _ _ He)). set (e' := set_flags _ e). set (s1 := set_pool _ s).
    assert (pstruct s1 L Hs) as T1 by (by eapply struct_upd).
    assert (pool s1 !! x = Some e') as He1 by (apply list_lookup_insert_eq; by eapply lookup_lt_Some).
    destruct (struct_insert s1 L Hs x e' T1 Hx He1) as (s2 & L2 & Hs2 & H2 & Hco & Hb & T2 & Hl).
    apply run_seq_inv in H2 as (s0 & [] & H0 & H2).
    rewrite (run_bind _ _ _ _ _ H0), (run_bind _ _ _ _ _ H2).
    destruct (agree_some _ _ _ _ _ Hco He1) as (e2 & He2 & E).
    rewrite (run_data_ptr x e2 d s2 He2) by (injection E as _ _ _ _ _ E6; by rewrite E6).
    eexists _, x. split; [done|]. split; [done|]. exists L2, Hs2. split; [done|]. split; [|done].
    assert (p_dev e = dev /\ p_block_no e = n) as [Edev En] by (unfold key in Hk; by injection Hk).
    rewrite Hb, <- Hk. eapply (content_frame _ _ _ L2); [exact Hco|done|].
    eapply (content_enter _ _ L); rewrite ?Edev, ?En; try done. intros y f Hy Hf. rewrite Hk. by apply (Hc y f).
Qed.

Lemma check_ok s dev n :
  volumes same (pc_blk s) V -> dev ∈ V -> is_u32 n ->
  exists r, pc_check dev n (bsz dev) s = Some (s, r) /\ (r = None \/ r = Some (Some dev)) /\
    (in_vol (pc_blk s) dev n -> r = Some (Some dev)) /\
    (r <> None -> (n + 1) * spb dev < 2 ^ 32 -> in_vol (pc_blk s) dev n).
Proof using All.
  intros Hv Hd Hn. destruct (bsz_ok dev Hd) as [Hb Hm]. destruct (spb_ok dev Hd) as [Hbs Hs]. unfold pc_check.
  rewrite (proj2 (Z.eqb_neq _ 0)), (proj2 (Z.eqb_eq _ 0)) by (done || lia). cbn [orb negb].
  rewrite (proj2 (Z.ltb_ge _ _)) by lia. fold (spb dev). cbv zeta.
  destruct (v_dev _ _ _ Hv dev Hd) as (Hu & r0 & w0 & base & cap & Hvol & _).
  assert (target dev s = Some (s, Some dev)) as Ht.
  { unfold target. rewrite (run_bind _ _ s s (pc_blk s)) by done.
    rewrite (run_bind _ _ s s (Some dev)) by (unfold lift; by rewrite (by_id_used _ _ Hu (v_inv _ _ _ Hv))). done. }
  rewrite (run_bind _ _ _ _ _ Ht). pose proof (capacity_u32 _ _ _ _ Hv Hd) as Hc32. unfold is_u32 in Hn.
  destruct (ld (devices (pc_blk s)) dev) as [d|] eqn:Ed; [|unfold vol in Hvol; by rewrite Ed in Hvol].
  assert (d_max_lba d = capacity (pc_blk s) dev) as Hcap.
  { unfold capacity. rewrite Hvol. unfold vol in Hvol. rewrite Ed in Hvol. cbn in Hvol.
    destruct (disk_of _ d); [|done]. by injection Hvol as _ _ _ <-. }
  destruct (4294967295 / spb dev <? n) eqn:E1; b2p.
  - exists None. split; [done|]. split; [by left|]. split; [|done]. intros [_ Hc].
    pose proof (Z.div_le_lower_bound 4294967295 (spb dev) n ltac:(lia) ltac:(nia)). lia.
  - rewrite (run_bind _ _ s s (pc_blk s)) by done. rewrite (run_bind _ _ s s d) by (unfold lift; by rewrite Ed).
    assert (n * spb dev <= 4294967295).
    { pose proof (Z.mul_div_le 4294967295 (spb dev)). nia. }
    rewrite (u32_small (n * spb dev)) by (unfold is_u32; nia). rewrite Hcap.
    destruct (capacity (pc_blk s) dev <? u32 (n * spb dev + spb dev)) eqn:E2; b2p.
    + exists None. split; [done|]. split; [by left|]. split; [|done]. intros [_ Hc].
      rewrite u32_small in E2 by (unfold is_u32; nia). nia.
    + exists (Some (Some dev)). split; [done|]. split; [by right|]. split; [done|]. intros _ Hw. split; [lia|].
      rewrite u32_small in E2 by (unfold is_u32; nia). nia.
Qed.

(** What a client that holds a block reads through its pointer. *)
Lemma held_page s cl A G U dev n x c :
  pinv s cl A G U -> G !! (dev, n) = Some (x, c) ->
  exists e d, pool s !! x = Some e /\ key e = (dev, n) /\ p_data e = Some d /\ buf_ok d /\
    slice 0 (bsz dev) d = A dev n /\ dev ∈ V /\ in_vol (pc_blk s) dev n /\ 0 < c.
Proof.
  intros (L & Hs & T & K & _) Hg. destruct (k_held _ _ _ _ _ _ _ K _ _ _ Hg) as (Hc & Hx & e & He & Hk).
  destruct (k_live _ _ _ _ _ _ _ K x e He Hx) as (_ & Hd & Hv & _ & _ & d & Hda & Hb & Hsl).
  injection Hk as E1 E2. rewrite E1, E2 in *. exists e, d. split_and!; try done. unfold key. by rewrite E1, E2.
Qed.

Lemma bump_lookup G k x : bump G k x !! k = Some (x, held G k + 1).
Proof. apply lookup_insert_eq. Qed.

(** [pc_get_page] returns the block, or null when it is out of range, when
    there is no memory, or when all pages are held. *)
Lemma get_ok s A G U fresh dev n :
  pinv s None A G U -> dev ∈ V -> is_u32 n -> (n + 1) * spb dev < 2 ^ 32 -> (forall d, fresh = Some d -> buf_ok d) ->
  exists s' r, pc_get_page fresh dev n (bsz dev) s = Some (s', r) /\ pc_blk s' = pc_blk s /\
    match r with
    | Some x => pinv s' None A (bump G (dev, n) x) U
    | None => pinv s' None A G U /\ (~ in_vol (pc_blk s) dev n \/ fresh = None \/ (PC_MAX_PAGES <= size G)%nat)
    end.
Proof using All.
  intros Hi Hd Hn Hw Hfr. unfold pc_get_page.
  destruct (pc_lookup_ok s None A G U dev n Hi) as (s1 & r1 & H1 & Hb1 & Hr1). rewrite (run_bind _ _ _ _ _ H1).
  destruct r1 as [q|]; [destruct Hr1 as (x & -> & Hi1); by exists s1, (Some x)|].
  pose proof Hr1 as (L & Hs & _ & K & _). pose proof (k_vol _ _ _ _ _ _ _ K) as Hv. rewrite <- Hb1.
  destruct (check_ok s1 dev n Hv Hd Hn) as (r2 & H2 & Hr2 & Hin & Hin'). rewrite (run_bind _ _ _ _ _ H2).
  destruct Hr2 as [->| ->].
  { exists s1, None. split; [done|]. split; [done|]. split; [done|]. left. intros Hv2. by specialize (Hin Hv2). }
  specialize (Hin' ltac:(done) Hw).
  destruct (claim_ok s1 A G U dev n (bsz dev) Hr1) as (s3 & r3 & H3 & Hb3 & Hr3). rewrite (run_bind _ _ _ _ _ H3).
  destruct r3 as [x|]; [|exists s3, None; split; [done|]; split; [done|]; destruct Hr3; by eauto].
  destruct Hr3 as (Hi3 & e & He & Hk & Hsz). rewrite <- Hb3 in Hin'.
  destruct (fill_ok s3 A G U fresh dev n x e Hi3 Hd Hin' He Hk Hsz Hfr) as (s4 & ok & H4 & Hb4 & Hr4).
  rewrite (run_bind _ _ _ _ _ H4). destruct ok; cbn [negb].
  - destruct Hr4 as (Hi4 & e4 & d & He4 & Hk4 & Hsz4 & Hd4 & Hbuf4 & Hsl4). rewrite <- Hb4 in Hin', Hsl4.
    destruct (pc_insert_ok s4 A G U dev n x e4 d Hi4 He4 Hk4 Hd Hin' Hsz4 Hd4 Hbuf4 Hsl4) as (s5 & y & -> & Hb5 & Hi5).
    exists s5, (Some y). split; [done|]. split; [congruence|done].
  - exists s4, None. split; [done|]. split; [congruence|]. destruct Hr4 as [? ->]. eauto.
Qed.

(** ** The other calls *)

Definition store_block (A : Z -> Z -> mem) (dev n off v : Z) : Z -> Z -> mem :=
  fun d m => if bool_decide ((d, m) = (dev, n)) then <[Z.to_nat off := v]> (A d m) else A d m.

(** A store of a client through the pointer it got. *)
Definition client_store (x : nat) (off v : Z) : M (pcache D) unit :=
  e ← page_at x; d ← lift (p_data e); d ← lift (st d off v); upd x (set_data (Some d)).

Lemma store_ok s A G U dev n x c off v :
  pinv s None A G U -> G !! (dev, n) = Some (x, c) -> 0 <= off < bsz dev -> is_u8 v ->
  exists s', client_store x off v s = Some (s', tt) /\ pc_blk s' = pc_blk s /\
    pinv s' None (store_block A dev n off v) G ({[(dev, n)]} ∪ U).
Proof using All.
  intros Hi Hg Ho Hv. destruct (held_page _ _ _ _ _ _ _ _ _ Hi Hg) as (e & d & He & Hk & Hd & [Hz Hby] & Hsl & HdV & Hin & Hc).
  destruct Hi as (L & Hs & T & K & _). destruct (k_held _ _ _ _ _ _ _ K _ _ _ Hg) as (_ & HxL & _).
  destruct (bsz_ok dev HdV) as [Hbs _]. unfold client_store. rewrite (run_bind _ _ _ _ _ (run_page_at _ _ _ He)).
  rewrite (run_bind _ _ s s d) by (unfold lift; by rewrite Hd).
  rewrite (run_bind _ _ s s (<[Z.to_nat off := v]> d)) by (unfold lift; by rewrite st_in by lia).
  rewrite (run_page_upd _ _ _ _ He). eexists. split; [done|]. split; [done|].
  exists L, Hs. split; [by eapply struct_upd|]. split; [|done]. cbn.
  destruct (k_live _ _ _ _ _ _ _ K x e He HxL) as (E1 & E2 & E3 & E4 & E5 & _).
  pose proof Hk as Hk'. injection Hk' as Ed En.
  eapply (content_live_upd _ _ _ _ A); try done.
  - split_and!; try done. exists (<[Z.to_nat off := v]> d). split; [done|].
    split; [split; [by rewrite zlen_insert|by apply Forall_insert]|]. cbn. unfold store_block. rewrite Ed, En.
    rewrite bool_decide_eq_true_2 by done. rewrite <- Hsl. unfold slice. rewrite !drop_0. apply take_insert_lt. lia.
  - intros dv m Hne. unfold store_block. rewrite bool_decide_eq_false_2 by congruence. done.
  - intros k y m Hg'. split; [by apply (k_held _ _ _ _ _ _ _ K) in Hg' as [? _]|by right].
  - intros k [->%elem_of_singleton|Hk2]%elem_of_union; [by eexists|by apply (k_unsaved _ _ _ _ _ _ _ K)].
  - intros dv m Hdv Hvm Hnu. unfold store_block. rewrite bool_decide_eq_false_2 by set_solver.
    apply (k_disk _ _ _ _ _ _ _ K); [done|done|set_solver].
Qed.

Lemma page_eta e : set_pin (p_pin e + 1 - 1) (set_flags 5 (set_pin (p_pin e + 1) (set_flags 7 e))) = set_flags 5 e.
Proof. unfold set_pin, set_flags. cbn. by replace (p_pin e + 1 - 1) with (p_pin e) by lia. Qed.

(** The write-back of a page writes its block and nothing else. *)
Lemma writeback_ok s x e d :
  volumes same (pc_blk s) V -> pool s !! x = Some e -> p_flags e = 7 -> p_dev e ∈ V -> in_vol (pc_blk s) (p_dev e) (p_block_no e) ->
  p_block_size e = bsz (p_dev e) -> p_data e = Some d -> buf_ok d ->
  exists b', _writeback x s = Some (count 0 0 0 1 (set_pool (<[x := set_flags 5 e]>) (set_blk b' s)), tt) /\
    volumes same b' V /\ (forall v, capacity b' v = capacity (pc_blk s) v) /\
    disk_block b' (p_dev e) (p_block_no e) = slice 0 (bsz (p_dev e)) d /\
    (forall dev n, dev ∈ V -> in_vol (pc_blk s) dev n -> (dev, n) <> key e -> disk_block b' dev n = disk_block (pc_blk s) dev n).
Proof using All.
  intros Hv He Hf Hd [Hn0 Hin] Hsz Hda [Hz Hby]. destruct (spb_ok _ Hd) as [Hbs Hspb]. destruct (bsz_ok _ Hd) as [Hb1 _].
  unfold _writeback. rewrite (run_bind _ _ _ _ _ (run_page_at _ _ _ He)). unfold has_flag. rewrite Hf.
  change (negb (negb (Z.land 7 PC_FLAG_DIRTY =? 0))) with false. cbv iota.
  rewrite Hda. rewrite (run_bind _ _ s s (pc_blk s)) by done. destruct (v_dev _ _ _ Hv _ Hd) as [Hu _].
  rewrite (run_bind _ _ s s (Some (p_dev e))) by (unfold lift; by rewrite (by_id_used _ _ Hu (v_inv _ _ _ Hv))).
  cbv zeta. rewrite Hsz. fold (spb (p_dev e)). pose proof (capacity_u32 _ _ _ _ Hv Hd).
  rewrite u32_small by (unfold is_u32; nia). unfold PC_MAX_BLOCK_SIZE in *.
  destruct (write_sectors_ok same V (p_dev e) (Z.to_nat (spb (p_dev e))) (p_block_no e * spb (p_dev e)) 0 d s)
    as (b' & H1 & Hv' & Hc' & Hs' & Ho'); [done|done|nia|lia|nia|lia|done|].
  rewrite (run_bind _ _ _ _ _ H1). rewrite (run_bind _ _ _ _ _ (run_page_upd x clean e (set_blk b' s) He)).
  exists b'. split; [unfold clean; by rewrite Hf|]. split; [done|]. split; [done|].
  rewrite Z.add_0_r, Z2Nat.id in * by lia. split.
  - unfold disk_block. rewrite Hs'. f_equal. lia.
  - intros dev n Hdv [Hn Hc] Hne. destruct (spb_ok _ Hdv) as [_ Hspb']. unfold disk_block. apply sectors_ext. intros l Hl.
    rewrite Z2Nat.id in Hl by lia. apply Ho'; [done|nia|]. destruct (decide (dev = p_dev e)) as [->|]; [right|by left].
    assert (n <> p_block_no e) by (intros ->; by apply Hne). destruct (Z.lt_ge_cases n (p_block_no e)); [left|right]; nia.
Qed.

Lemma mark_dirty_ok s A G U dev n :
  pinv s None A G U ->
  exists s', pc_mark_dirty dev n s = Some (s', tt) /\ pinv s' None A G (U ∖ {[(dev, n)]}) /\
    (forall v, capacity (pc_blk s') v = capacity (pc_blk s) v).
Proof using All.
  intros (L & Hs & T & K & _). unfold pc_mark_dirty. destruct (struct_find s L Hs dev n T) as (r & Hr & Hc).
  rewrite (run_bind _ _ _ _ _ Hr). destruct r as [x|].
  - destruct Hc as (HxL & e & He & Hk). destruct (k_live _ _ _ _ _ _ _ K x e He HxL) as (E1 & E2 & E3 & E4 & E5 & d & E6 & E7 & E8).
    rewrite (run_bind _ _ _ _ _ (run_page_upd _ _ _ _ He)). rewrite E1. change (Z.lor 5 PC_FLAG_DIRTY) with 7.
    set (s1 := set_pool _ s). assert (forall f, <[x := f]> (pool s) !! x = Some f) as Hx
      by (intros f; apply list_lookup_insert_eq; by eapply lookup_lt_Some).
    unfold _writeback_pinned. rewrite (run_bind _ _ _ _ _ (run_page_upd x _ _ s1 (Hx _))).
    set (e2 := set_pin _ _). set (s2 := set_pool _ s1).
    assert (pool s2 !! x = Some e2) as He2 by (cbn; rewrite list_insert_insert_eq; apply Hx).
    pose proof (k_vol _ _ _ _ _ _ _ K) as Hv.
    destruct (writeback_ok s2 x e2 d Hv He2 eq_refl E2 E3 E4 E6 E7) as (b' & H3 & Hv' & Hc' & Hb' & Ho').
    rewrite (run_bind _ _ _ _ _ H3). set (s3 := count 0 0 0 1 _).
    assert (pool s3 !! x = Some (set_flags 5 e2)) as He3 by (cbn; rewrite !list_insert_insert_eq; apply Hx).
    rewrite (run_page_upd _ _ _ _ He3). eexists. split; [done|].
    assert (set_pin (p_pin (set_flags 5 e2) - 1) (set_flags 5 e2) = e) as Ee.
    { unfold e2. cbn [p_pin set_flags set_pin]. rewrite page_eta. destruct e. cbn in E1 |- *. by rewrite E1. }
    rewrite Ee. cbn [p_dev p_block_no e2 set_pin set_flags] in Hb', Ho'. change (key e2) with (key e) in Ho'.
    assert (forall P : list page, P !! x = Some e -> <[x := e]> (<[x := set_flags 5 e2]> (<[x := e2]> (<[x := set_flags 7 e]> P))) = P) as Hpool.
    { intros P HP. rewrite !list_insert_insert_eq. by apply list_insert_id. }
    split; [|done]. exists L, Hs. split; [|split; [|done]].
    + destruct T as [R1 R2 R3 R4]. split; cbn; rewrite ?Hpool by done; [done| | |done].
      * destruct R2. split; cbn; by rewrite ?Hpool.
      * destruct R3. split; cbn; by rewrite ?Hpool.
    + cbn. rewrite Hpool by done. destruct K as [K1 K2 K3 K4 K5 K6 K7]. split; try done.
      * intros y f Hy Hyl. destruct (K1 y f Hy Hyl) as (F1 & F2 & [F3 F3'] & F4). split; [done|]. split; [done|].
        split; [split; [done|by rewrite Hc']|done].
      * intros dv m Hdv [Hm Hin] Hnu. rewrite Hc' in Hin. destruct (decide ((dv, m) = key e)) as [Ekey|Hne].
        -- injection Ekey as -> ->. by rewrite Hb'.
        -- rewrite Ho' by done. apply K5; [done|done|]. rewrite Hk in Hne. set_solver.
      * intros k Hk2. apply K7. set_solver.
  - exists s. split; [done|]. split; [|done]. exists L, Hs. split; [done|]. split; [|done].
    destruct K as [K1 K2 K3 K4 K5 K6 K7]. split; try done; [|intros k Hk2; apply K7; set_solver].
    intros dv m Hdv Hin Hnu. apply K5; [done|done|]. intros HU. destruct (K7 _ HU) as [[y c] Hg].
    assert ((dv, m) = (dev, n)) as Ek by (destruct (decide ((dv, m) = (dev, n))); [done|set_solver]).
    destruct (K6 _ _ _ Hg) as (_ & Hy & f & Hf & Hkf). apply (Hc y f Hy Hf). congruence.
Qed.

Lemma pc_put_ok s A G U dev n :
  pinv s None A G U -> (forall x, G !! (dev, n) = Some (x, 1) -> (dev, n) ∉ U) ->
  exists s', pc_put_page dev n s = Some (s', tt) /\ pc_blk s' = pc_blk s /\ pinv s' None A (unbump G (dev, n)) U.
Proof.
  intros (L & Hs & T & K & _) HU. unfold pc_put_page. destruct (struct_find s L Hs dev n T) as (r & Hr & Hc).
  rewrite (run_bind _ _ _ _ _ Hr). destruct r as [x|].
  - destruct Hc as (HxL & e & He & Hk). destruct (k_live _ _ _ _ _ _ _ K x e He HxL) as (_ & _ & _ & _ & Hp & _).
    rewrite (run_bind _ _ _ _ _ (run_page_at _ _ _ He)). rewrite Hk in Hp. destruct (p_pin e =? 0) eqn:E; b2p.
    + exists s. split; [done|]. split; [done|]. exists L, Hs. split; [done|]. split; [|done].
      unfold unbump, held in *. destruct (G !! (dev, n)) as [[y c]|] eqn:Eg; [|done].
      destruct (k_held _ _ _ _ _ _ _ K _ _ _ Eg). lia.
    + rewrite (run_page_upd _ _ _ _ He). eexists. split; [done|]. split; [done|]. exists L, Hs.
      split; [by eapply struct_upd|]. split; [|done]. cbn. rewrite <- Hk. unfold held in Hp.
      destruct (G !! (dev, n)) as [[y c]|] eqn:Eg; [|done]. destruct (k_held _ _ _ _ _ _ _ K _ _ _ Eg) as [Hpos _].
      apply content_unpin; [done..|lia|]. intros Hp1. rewrite Hk. apply (HU y). congruence.
  - exists s. split; [done|]. split; [done|]. exists L, Hs. split; [done|]. split; [|done]. unfold unbump.
    destruct (G !! (dev, n)) as [[y c]|] eqn:Eg; [|done]. exfalso.
    destruct (k_held _ _ _ _ _ _ _ K _ _ _ Eg) as (_ & Hy & f & Hf & Hkf). by apply (Hc y f Hy Hf).
Qed.

(** No page is left dirty, so there is nothing to flush. *)
Lemma flush_ok s A G U dev : pinv s None A G U -> pc_flush_dev dev s = Some (s, tt).
Proof.
  intros (L & Hs & T & K & _). unfold pc_flush_dev.
  assert (forall l, (forall x, x ∈ l -> (x < PC_MAX_PAGES)%nat) -> for_each l (flush_one dev) s = Some (s, tt)) as Hall.
  { induction l as [|x l IH]; intros Hl; [done|]. cbn [for_each].
    destruct (lookup_lt_is_Some_2 (pool s) x) as [e He]; [rewrite (t_len _ _ _ T); apply Hl; by left|].
    rewrite (run_bind _ _ s s tt); [apply IH; intros y Hy; apply Hl; by right|].
    unfold flush_one. rewrite (run_bind _ _ _ _ _ (run_page_at _ _ _ He)).
    assert (p_flags e = 5 \/ p_flags e = 0) as [->| ->]; [|done|done].
    destruct (decide (x ∈ L)) as [Hx|Hx]; [left; by apply (k_live _ _ _ _ _ _ _ K x)|right].
    pose proof (k_dead _ _ _ _ _ _ _ K x e He Hx) as (Hf & _). done. }
  apply Hall. intros x Hx. apply elem_of_seq in Hx. lia.
Qed.

Lemma drop_page_ok s L Hs A G U x e :
  pstruct s L Hs -> content (pool s) (pc_blk s) L None A G U -> x ∈ L -> pool s !! x = Some e -> p_pin e = 0 ->
  exists s', drop_page x s = Some (s', tt) /\ pc_blk s' = pc_blk s /\ pinv s' None A G U.
Proof.
  intros T K Hx He Hp.
  destruct (remove_page_ok s L Hs A G U x e (fun e => set_pin 0 (set_flags 0 (set_data None e))) T K Hx He Hp)
    as (s' & L' & Hs' & H' & Hb & T' & K' & _); [by intros p; split_and!; try done; right|].
  exists s'. split; [exact H'|]. split; [done|]. by exists L', Hs'.
Qed.

Lemma live_pin b A G e : live b A G e -> (forall k x n, G !! k = Some (x, n) -> 0 < n) -> 0 <= p_pin e.
Proof.
  intros (_ & _ & _ & _ & -> & _) Hg. unfold held. destruct (G !! key e) as [[x n]|] eqn:E; [|done].
  specialize (Hg _ _ _ E). lia.
Qed.

Lemma invalidate_block_ok s A G U dev n :
  pinv s None A G U -> exists s', pc_invalidate_block dev n s = Some (s', tt) /\ pc_blk s' = pc_blk s /\ pinv s' None A G U.
Proof.
  intros (L & Hs & T & K & Hcl). unfold pc_invalidate_block. destruct (struct_find s L Hs dev n T) as (r & Hr & Hc).
  rewrite (run_bind _ _ _ _ _ Hr). assert (pinv s None A G U) as Hi by (by exists L, Hs).
  destruct r as [x|]; [|by exists s]. destruct Hc as (HxL & e & He & Hk).
  rewrite (run_bind _ _ _ _ _ (run_page_at _ _ _ He)). pose proof (k_live _ _ _ _ _ _ _ K x e He HxL) as Hlv.
  pose proof (live_pin _ _ _ _ Hlv ltac:(intros k y m Hg; by apply (k_held _ _ _ _ _ _ _ K) in Hg as [? _])) as Hp0.
  destruct (0 <? p_pin e) eqn:E; b2p; [by exists s|]. rewrite (live_clean _ _ _ _ Hlv), (run_bind _ _ s s tt) by done.
  apply (drop_page_ok s L Hs A G U x e); [done..|lia].
Qed.

Lemma invalidate_one_ok s A G U dev x :
  pinv s None A G U -> (x < PC_MAX_PAGES)%nat ->
  exists s', invalidate_one dev x s = Some (s', tt) /\ pc_blk s' = pc_blk s /\ pinv s' None A G U.
Proof.
  intros (L & Hs & T & K & Hcl) Hx. assert (pinv s None A G U) as Hi by (by exists L, Hs). unfold invalidate_one.
  destruct (lookup_lt_is_Some_2 (pool s) x) as [e He]; [by rewrite (t_len _ _ _ T)|].
  rewrite (run_bind _ _ _ _ _ (run_page_at _ _ _ He)). destruct (decide (x ∈ L)) as [HxL|HxL].
  - case_if; [|by exists s]. pose proof (k_live _ _ _ _ _ _ _ K x e He HxL) as Hlv.
    pose proof (live_pin _ _ _ _ Hlv ltac:(intros k y m Hg; by apply (k_held _ _ _ _ _ _ _ K) in Hg as [? _])).
    destruct (0 <? p_pin e) eqn:E; b2p; [by exists s|]. apply (drop_page_ok s L Hs A G U x e); [done..|lia].
  - pose proof (k_dead _ _ _ _ _ _ _ K x e He HxL) as (Hf & _). unfold has_flag. rewrite Hf. by exists s.
Qed.

Lemma invalidate_dev_ok s A G U dev :
  pinv s None A G U -> exists s', pc_invalidate_dev dev s = Some (s', tt) /\ pc_blk s' = pc_blk s /\ pinv s' None A G U.
Proof.
  intros Hi. unfold pc_invalidate_dev. rewrite (run_bind _ _ _ _ _ (flush_ok s A G U dev Hi)).
  assert (forall l s, pinv s None A G U -> (forall x, x ∈ l -> (x < PC_MAX_PAGES)%nat) ->
    exists s', for_each l (invalidate_one dev) s = Some (s', tt) /\ pc_blk s' = pc_blk s /\ pinv s' None A G U) as Hall.
  { induction l as [|x l IH]; intros s0 Hi0 Hl; [by exists s0|]. cbn [for_each].
    destruct (invalidate_one_ok s0 A G U dev x Hi0) as (s1 & H1 & Hb1 & Hi1); [apply Hl; by left|].
    rewrite (run_bind _ _ _ _ _ H1). destruct (IH s1 Hi1) as (s2 & H2 & Hb2 & Hi2); [intros y Hy; apply Hl; by right|].
    exists s2. split; [done|]. split; [congruence|done]. }
  apply Hall; [done|]. intros x Hx. apply elem_of_seq in Hx. lia.
Qed.

(** The cache after [pc_init] holds nothing. *)
Lemma pc_init_ok b : volumes same b V -> pinv (pc_init b) None (disk_block b) ∅ ∅.
Proof.
  intros Hv. exists [], (fun _ => []). split; [|split; [|done]].
  - split; [by apply length_replicate|..].
    + split; try done; [constructor|]. intros x e [-> _]%lookup_replicate. done.
    + split; [by apply zlen_replicate| |constructor|intros c x Hx; by apply not_elem_of_nil in Hx].
      intros c Hc. exists None. split; [|done]. cbn. rewrite ld_nonneg by lia. apply lookup_replicate. unfold PC_HASH_SIZE in *. split; [done|lia].
    + intros x e _. split; intros Hx; by apply not_elem_of_nil in Hx.
  - split; try done; try (intros x *; intros; by exfalso; eapply not_elem_of_nil).
    + intros x e Hx%lookup_replicate Hn. by destruct Hx as [-> _].
Qed.
End Contents.
