(* ===== verification/PageCacheTrace.v ===== *)
(** * The page cache under its clients

    Every sequence of calls and of accesses through the pointers the cache
    hands out, against the blocks of the devices; and the two ways in which
    [pc_get_page] goes wrong. *)
From S2P Require Import Prelude StateM Klib Blkdev PageCache PageCacheSpec PageCacheVol PageCacheCoh.

#[local] Open Scope Z_scope.

Section Clients.
Context {D : Type} `{DD : DiskDriver D} (same : Z -> Z -> Prop) `{!DiskDriverLaws D same}.
Context (V : list Z) (bsz : Z -> Z).

(** What clients do.  They load from and store into a block only while they
    hold it, and mark it dirty before they give up the last reference; what
    breaks that rule is not done. *)
Inductive pc_op :=
  | OGet (fresh : option mem) (dev n : Z)
  | ORead (dev n : Z)
  | OStore (dev n off v : Z)
  | ODirty (dev n : Z)
  | OPut (dev n : Z)
  | OFlush (dev : Z)
  | OInvalBlock (dev n : Z)
  | OInvalDev (dev : Z).

(** What they see: whether a get gave a pointer, and how many blocks were
    held then; the bytes of a block; whether a store was made. *)
Inductive pc_out := Got (ok : bool) (held : nat) | Bytes (l : option mem) | Stored (b : bool) | Done.

(** The cache, the pointers held with their counts, the blocks changed and
    not yet marked dirty. *)
Definition clients : Type := pcache D * gmap (Z * Z) (nat * Z) * gset (Z * Z).

Definition pc_step (o : pc_op) (c : clients) : option (clients * pc_out) :=
  let '(s, G, U) := c in
  match o with
  | OGet fresh dev n =>
      '(s', r) ← pc_get_page fresh dev n (bsz dev) s;
      Some (match r with
            | Some x => (s', bump G (dev, n) x, U, Got true (size G))
            | None => (s', G, U, Got false (size G))
            end)
  | ORead dev n =>
      match G !! (dev, n) with
      | None => Some (c, Bytes None)
      | Some (x, _) => e ← pool s !! x; d ← p_data e; Some (c, Bytes (Some (slice 0 (bsz dev) d)))
      end
  | OStore dev n off v =>
      match G !! (dev, n) with
      | None => Some (c, Stored false)
      | Some (x, _) => '(s', _) ← client_store x off v s; Some (s', G, {[(dev, n)]} ∪ U, Stored true)
      end
  | ODirty dev n => '(s', _) ← pc_mark_dirty dev n s; Some (s', G, U ∖ {[(dev, n)]}, Done)
  | OPut dev n =>
      if (held G (dev, n) =? 1) && bool_decide ((dev, n) ∈ U) then Some (c, Done)
      else '(s', _) ← pc_put_page dev n s; Some (s', unbump G (dev, n), U, Done)
  | OFlush dev => '(s', _) ← pc_flush_dev dev s; Some (s', G, U, Done)
  | OInvalBlock dev n => '(s', _) ← pc_invalidate_block dev n s; Some (s', G, U, Done)
  | OInvalDev dev => '(s', _) ← pc_invalidate_dev dev s; Some (s', G, U, Done)
  end.

Fixpoint pc_run (os : list pc_op) (c : clients) : option (clients * list pc_out) :=
  match os with
  | [] => Some (c, [])
  | o :: os => '(c, r) ← pc_step o c; '(c, rs) ← pc_run os c; Some (c, r :: rs)
  end.

Definition op_ok (o : pc_op) : Prop :=
  match o with
  | OGet fresh dev n =>
      dev ∈ V /\ is_u32 n /\ (n + 1) * spb bsz dev < 2 ^ 32 /\ (forall d, fresh = Some d -> buf_ok d)
  | OStore dev n off v => 0 <= off < bsz dev /\ is_u8 v
  | _ => True
  end.

(** The blocks as an array: what each call may return and how it changes
    them. *)
Definition spec_step (cap : Z -> Z) (o : pc_op) (A : Z -> Z -> mem) (r : pc_out) : option (Z -> Z -> mem) :=
  match o, r with
  | OGet fresh dev n, Got ok h =>
      if ok || negb ((n + 1) * spb bsz dev <=? cap dev) || bool_decide (fresh = None) || bool_decide (PC_MAX_PAGES <= h)%nat
      then Some A else None
  | ORead dev n, Bytes l => if bool_decide (l = None \/ l = Some (A dev n)) then Some A else None
  | OStore dev n off v, Stored b => Some (if b then store_block A dev n off v else A)
  | ODirty _ _, Done | OPut _ _, Done | OFlush _, Done | OInvalBlock _ _, Done | OInvalDev _, Done => Some A
  | _, _ => None
  end.

Fixpoint spec_run (cap : Z -> Z) (os : list pc_op) (A : Z -> Z -> mem) (rs : list pc_out) : option (Z -> Z -> mem) :=
  match os, rs with
  | [], [] => Some A
  | o :: os, r :: rs => A ← spec_step cap o A r; spec_run cap os A rs
  | _, _ => None
  end.

Hypothesis bsz_ok : forall dev, dev ∈ V -> 0 < bsz dev <= PC_MAX_BLOCK_SIZE /\ bsz dev mod 512 = 0.

Definition cap_is (cap : Z -> Z) (s : pcache D) : Prop := forall v, capacity (pc_blk s) v = cap v.

Lemma pc_step_ok cap o s A G U :
  pinv same V bsz s None A G U -> cap_is cap s -> op_ok o ->
  exists s' G' U' r A', pc_step o (s, G, U) = Some (s', G', U', r) /\ spec_step cap o A r = Some A' /\
    pinv same V bsz s' None A' G' U' /\ cap_is cap s'.
Proof using All.
  intros Hi Hcap Hok. destruct o as [fresh dev n|dev n|dev n off v|dev n|dev n|dev|dev n|dev]; cbn [pc_step op_ok spec_step] in *.
  - destruct Hok as (Hd & Hn & Hw & Hf).
    destruct (get_ok same V bsz bsz_ok s A G U fresh dev n Hi Hd Hn Hw Hf) as (s' & r & -> & Hb & Hr). ob.
    assert (cap_is cap s') as Hcap' by (intros v; by rewrite Hb). destruct r as [x|].
    + by eexists _, _, _, _, _.
    + destruct Hr as [Hi' Hr]. eexists _, _, _, _, _. split; [done|]. split; [|done].
      rewrite (proj2 (orb_true_iff _ _)); [done|]. destruct Hr as [Hr|[->|Hr]]; [left|left|right].
      * apply orb_true_iff. left. cbn [orb]. apply negb_true_iff, Z.leb_gt. unfold is_u32 in Hn.
        unfold in_vol in Hr. rewrite (Hcap dev) in Hr. lia.
      * by rewrite bool_decide_eq_true_2, orb_true_r.
      * by apply bool_decide_eq_true_2.
  - destruct (G !! (dev, n)) as [[x c]|] eqn:Eg; [|by eexists _, _, _, _, _].
    destruct (held_page same V bsz s None A G U dev n x c Hi Eg) as (e & d & -> & _ & Hd & _ & Hsl & _). ob. rewrite Hd. ob.
    eexists _, _, _, _, _. split; [done|]. cbv beta iota.
    rewrite bool_decide_eq_true_2 by (right; by rewrite Hsl). done.
  - destruct (G !! (dev, n)) as [[x c]|] eqn:Eg; [|by eexists _, _, _, _, _].
    destruct (store_ok same V bsz bsz_ok s A G U dev n x c off v Hi Eg) as (s' & -> & Hb & Hi'); [tauto..|]. ob.
    eexists _, _, _, _, _. split; [done|]. split; [done|]. split; [done|]. intros w. by rewrite Hb.
  - destruct (mark_dirty_ok same V bsz bsz_ok s A G U dev n Hi) as (s' & -> & Hi' & Hc). ob.
    eexists _, _, _, _, _. split; [done|]. split; [done|]. split; [done|]. intros w. by rewrite Hc.
  - destruct ((held G (dev, n) =? 1) && bool_decide ((dev, n) ∈ U)) eqn:E; [by eexists _, _, _, _, _|].
    destruct (pc_put_ok same V bsz s A G U dev n Hi) as (s' & -> & Hb & Hi').
    { intros x Hg HU. unfold held in E. by rewrite Hg, bool_decide_eq_true_2 in E by done. }
    ob. eexists _, _, _, _, _. split; [done|]. split; [done|]. split; [done|]. intros w. by rewrite Hb.
  - rewrite (flush_ok same V bsz s A G U dev Hi). ob. by eexists _, _, _, _, _.
  - destruct (invalidate_block_ok same V bsz s A G U dev n Hi) as (s' & -> & Hb & Hi'). ob.
    eexists _, _, _, _, _. split; [done|]. split; [done|]. split; [done|]. intros w. by rewrite Hb.
  - destruct (invalidate_dev_ok same V bsz s A G U dev Hi) as (s' & -> & Hb & Hi'). ob.
    eexists _, _, _, _, _. split; [done|]. split; [done|]. split; [done|]. intros w. by rewrite Hb.
Qed.

Lemma pc_run_ok cap : forall os s A G U,
  pinv same V bsz s None A G U -> cap_is cap s -> Forall op_ok os ->
  exists s' G' U' rs A', pc_run os (s, G, U) = Some (s', G', U', rs) /\ spec_run cap os A rs = Some A' /\
    pinv same V bsz s' None A' G' U' /\ cap_is cap s'.
Proof using All.
  induction os as [|o os IH]; intros s A G U Hi Hc Hok; [by eexists _, _, _, [], A|].
  apply Forall_cons_1 in Hok as [Ho Hos].
  destruct (pc_step_ok cap o s A G U Hi Hc Ho) as (s1 & G1 & U1 & r & A1 & H1 & S1 & Hi1 & Hc1).
  destruct (IH s1 A1 G1 U1 Hi1 Hc1 Hos) as (s2 & G2 & U2 & rs & A2 & H2 & S2 & Hi2 & Hc2).
  cbn [pc_run]. rewrite H1. ob. rewrite H2. ob. eexists _, _, _, (r :: rs), A2. split; [done|].
  cbn [spec_run]. rewrite S1. ob. done.
Qed.
End Clients.

(** C8: the page cache is transparent and loses no update.  Take devices that
    do not overlap, each used with one block size, and let clients get blocks,
    read and store through the pointers, mark blocks dirty, release, flush and
    invalidate in any order, with any results of the page allocator.  Every
    call returns; a block read through a pointer is always the array of blocks
    with all stores so far, whatever was evicted and read back in between; a
    get fails only for a block outside the device, without memory, or with all
    256 pages held; and at any time every block that is not waiting to be
    marked dirty is on its disk. *)
Theorem pagecache_transparent {D} `{DD : DiskDriver D} (same : Z -> Z -> Prop) `{!DiskDriverLaws D same}
    (V : list Z) (bsz : Z -> Z) (b : blk D) (os : list pc_op) :
  (forall dev, dev ∈ V -> 0 < bsz dev <= PC_MAX_BLOCK_SIZE /\ bsz dev mod 512 = 0) ->
  volumes same b V -> Forall (op_ok V bsz) os ->
  exists s G U rs A, pc_run bsz os (pc_init b, ∅, ∅) = Some (s, G, U, rs) /\
    spec_run bsz (capacity b) os (disk_block bsz b) rs = Some A /\
    forall dev n, dev ∈ V -> 0 <= n -> (n + 1) * spb bsz dev <= capacity b dev -> (dev, n) ∉ U ->
      disk_block bsz (pc_blk s) dev n = A dev n.
Proof.
  intros Hbsz Hv Hok.
  destruct (pc_run_ok same V bsz Hbsz (capacity b) os (pc_init b) (disk_block bsz b) ∅ ∅) as (s & G & U & rs & A & H1 & H2 & Hi & Hc);
    [by apply pc_init_ok|done|done|].
  exists s, G, U, rs, A. split; [done|]. split; [done|]. intros dev n Hd Hn Hcap Hnu.
  destruct Hi as (L & Hs & _ & K & _). apply (k_disk _ _ _ _ _ _ _ _ _ _ K); [done| |done]. split; [done|]. by rewrite (Hc dev).
Qed.

(** ** Witnesses *)

(** The two partitions of the example disk. *)
Lemma demo_dev_cases dev : dev ∈ [1; 2] -> dev = 1 \/ dev = 2.
Proof. set_solver. Qed.

Lemma demo_vol1 : vol demo_blk 1 = Some (7, 7, 10, 5).
Proof. vm_compute. reflexivity. Qed.

Lemma demo_vol2 : vol demo_blk 2 = Some (7, 7, 15, 5).
Proof. vm_compute. reflexivity. Qed.

Lemma demo_volumes : volumes (fun r w => r = w) demo_blk [1; 2].
Proof.
  split; [exact demo_blk_inv|..].
  - intros dev Hd%demo_dev_cases. split; [apply demo_used; tauto|].
    destruct Hd as [-> | ->]; [rewrite demo_vol1|rewrite demo_vol2]; by eexists _, _, _, _.
  - intros dev dev' r w base n r' w' base' n' [-> | ->]%demo_dev_cases [-> | ->]%demo_dev_cases Hne;
      [by destruct Hne|..|by destruct Hne]; rewrite demo_vol1, demo_vol2; intros [= <- <- <- <-] [= <- <- <- <-]; lia.
Qed.

Definition zero_buf : mem := replicate 4096 0.

Definition demo_pc_ops : list pc_op :=
  [OGet (Some zero_buf) 1 0; OStore 1 0 3 77; ODirty 1 0; OPut 1 0; OInvalBlock 1 0;
   OGet (Some zero_buf) 1 0; ORead 1 0; OGet (Some zero_buf) 2 1; OGet (Some zero_buf) 2 2; OFlush 1; OInvalDev 2].

Lemma zero_buf_ok d : Some zero_buf = Some d -> buf_ok d.
Proof. intros [= <-]. split; [by apply zlen_replicate|]. apply Forall_replicate. word_lia. Qed.

Lemma demo_capacity : capacity demo_blk 1 = 5.
Proof. vm_compute. reflexivity. Qed.

(** Block (1, 0) was marked dirty after its store. *)
Lemma demo_pc_unsaved :
  option_map (fun r => bool_decide ((1, 0) ∈ r.1.2)) (pc_run (fun _ => 1024) demo_pc_ops (pc_init demo_blk, ∅, ∅)) = Some false.
Proof. vm_compute. reflexivity. Qed.

Lemma demo_pc_written s G U rs :
  pc_run (fun _ => 1024) demo_pc_ops (pc_init demo_blk, ∅, ∅) = Some (s, G, U, rs) -> (1, 0) ∉ U.
Proof.
  pose proof demo_pc_unsaved as E. revert E. generalize (pc_run (fun _ => 1024) demo_pc_ops (pc_init demo_blk, ∅, ∅)).
  intros o E ->. cbn in E. apply (inj Some) in E. by apply bool_decide_eq_false in E.
Qed.

Lemma pagecache_transparent_witness :
  exists s G U rs A, pc_run (fun _ => 1024) demo_pc_ops (pc_init demo_blk, ∅, ∅) = Some (s, G, U, rs) /\
    spec_run (fun _ => 1024) (capacity demo_blk) demo_pc_ops (disk_block (fun _ => 1024) demo_blk) rs = Some A /\
    disk_block (fun _ => 1024) (pc_blk s) 1 0 = A 1 0.
Proof.
  destruct (pagecache_transparent (fun r w => r = w) [1; 2] (fun _ => 1024) demo_blk demo_pc_ops)
    as (s & G & U & rs & A & H1 & H2 & H3).
  - intros dev _. split; [unfold PC_MAX_BLOCK_SIZE; lia|reflexivity].
  - exact demo_volumes.
  - repeat (apply Forall_cons; [|]); try exact I; try apply Forall_nil;
      try (split; [set_solver|split; [word_lia|split; [vm_compute; reflexivity|exact zero_buf_ok]]]).
    split; [lia|word_lia].
  - exists s, G, U, rs, A. split; [exact H1|]. split; [exact H2|].
    apply H3; [left|discriminate| |].
    + rewrite demo_capacity. discriminate.
    + apply (demo_pc_written s G U rs H1).
Defined.

(** ** Two tasks and one block *)

(** Task A misses block 0 of device 1 and reads it from the disk; meanwhile
    task B gets, changes, writes back and drops the same block; then A enters
    what it read. *)
Definition stale_run : M (pcache ramdisk) (option nat) :=
  _ ← pc_lookup 1 0;
  _ ← pc_check 1 0 512;
  p ← pc_claim 1 0 512;
  p ← lift p;
  _ ← pc_fill (Some zero_buf) (Some 1) 0 512 p;
  q ← pc_get_page (Some zero_buf) 1 0 512;
  q ← lift q;
  client_store q 0 77 ;;
  pc_mark_dirty 1 0 ;;
  pc_put_page 1 0 ;;
  pc_invalidate_block 1 0 ;;
  pc_insert 1 0 p.

(** C36: the page cache can keep stale data.  [pc_get_page] reads a missing
    block with the lock released and afterwards only checks that nobody has
    entered it.  If in that time another task gets the block, changes it,
    marks it dirty, releases it, and the page leaves the cache again, the
    first task enters the old contents: the page is valid and later gets
    return it, and its first byte is 0 while the disk holds 77. *)
Theorem pc_stale_insert :
  exists s x e d, stale_run (pc_init demo_blk) = Some (s, Some x) /\ pool s !! x = Some e /\
    p_data e = Some d /\ p_flags e = Z.lor PC_FLAG_VALID PC_FLAG_USED /\ key e = (1, 0) /\
    ld d 0 = Some 0 /\ ld (sector (pc_blk s) 1 0) 0 = Some 77 /\
    exists s', pc_get_page None 1 0 512 s = Some (s', Some x).
Proof.
  assert (match stale_run (pc_init demo_blk) with
    | Some (s, Some x) =>
        match pool s !! x with
        | Some e =>
            match p_data e with
            | Some d => (p_flags e =? 5) && bool_decide (key e = (1, 0)) && bool_decide (ld d 0 = Some 0) &&
                bool_decide (ld (sector (pc_blk s) 1 0) 0 = Some 77) &&
                match pc_get_page None 1 0 512 s with Some (_, Some y) => bool_decide (y = x) | _ => false end
            | None => false
            end
        | None => false
        end
    | _ => false
    end = true) as H by (vm_compute; reflexivity).
  revert H. generalize (stale_run (pc_init demo_blk)). intros [[s [x|]]|] H; [|done..]. destruct (pool s !! x) as [e|] eqn:He; [|done].
  destruct (p_data e) as [d|] eqn:Hd; [|done]. rewrite !andb_true_iff in H. destruct H as [[[[H1 H2] H3] H4] H5].
  apply bool_decide_eq_true in H2, H3, H4. b2p. exists s, x, e, d. split_and!; try done.
  destruct (pc_get_page None 1 0 512 s) as [[s' [y|]]|]; [|done..]. apply bool_decide_eq_true in H5 as ->. by exists s'.
Qed.

(** A get of the last block number there is passes the range check, because
    the end of the block wraps to 0, and returns zeros for a block far
    outside the device. *)
Lemma pc_get_past_end :
  exists s x e d, pc_get_page (Some zero_buf) 1 4294967295 512 (pc_init demo_blk) = Some (s, Some x) /\
    capacity demo_blk 1 = 5 /\ pool s !! x = Some e /\ p_data e = Some d /\ slice 0 512 d = replicate 512 0.
Proof.
  assert (match pc_get_page (Some zero_buf) 1 4294967295 512 (pc_init demo_blk) with
    | Some (s, Some x) =>
        match pool s !! x with
        | Some e => match p_data e with Some d => bool_decide (slice 0 512 d = replicate 512 0) | None => false end
        | None => false
        end
    | _ => false
    end = true) as H by (vm_compute; reflexivity).
  revert H. rewrite demo_capacity. generalize (pc_get_page (Some zero_buf) 1 4294967295 512 (pc_init demo_blk)).
  intros [[s [x|]]|] H; [|done..]. destruct (pool s !! x) as [e|] eqn:He; [|done].
  destruct (p_data e) as [d|] eqn:Hd; [|done]. apply bool_decide_eq_true in H. by exists s, x, e, d.
Qed.
