(* ===== verification/Fd.v ===== *)
(** * fd.c, fd_mux.c: open files and descriptors

    Model of the file layer of [fs/vfs/vfs_file.c], of the descriptor calls in
    [kernel/core/syscall/io] and of what fork, exec and exit do to a
    descriptor table, on top of [Vfs.v] and [Validate.v].

    A [file_t *] is the address of an open file, 0 the null pointer; a
    descriptor table is the list of its 256 pointers.  The state has the live
    blocks of the heap the calls allocate (open files, and buffers for names
    and poll records) and the results [kmalloc] is going to return: any list,
    except that an address in use is never handed out.  Each process has its
    own memory.  The file systems' methods, the ioctls of devices and sockets
    and the creation of a pipe are parameters. *)
From S2P Require Import Prelude StateM Klib Validate VfsPath Vfs.

#[local] Open Scope Z_scope.

Definition MAX_FD : Z := 256.
Definition VFS_SOCKET : Z := 6.
Definition VFS_POLLERR : Z := 8.
Definition VFS_POLLHUP : Z := 16.
Definition VFS_PERM_READ : Z := 4.
Definition VFS_PERM_WRITE : Z := 2.
Definition VFS_PERM_EXEC : Z := 1.
Definition SETFL_MASK : Z := Z.lor 0x0800 0x0400.
Definition OPEN_ACCMODE : Z := 3.
Definition OPEN_WRONLY : Z := 1.
Definition OPEN_RDWR : Z := 2.
Definition OPEN_CREAT : Z := 0x40.
Definition OPEN_TRUNC : Z := 0x200.

Definition EPERM : Z := 1.
Definition ENOENT : Z := 2.
Definition EIO : Z := 5.
Definition EBADF : Z := 9.
Definition ENOMEM : Z := 12.
Definition EACCES : Z := 13.
Definition EFAULT : Z := 14.
Definition EEXIST : Z := 17.
Definition ENOTDIR : Z := 20.
Definition EINVAL : Z := 22.
Definition EMFILE : Z := 24.

Definition TIOCGWINSZ : Z := 0x5413.
Definition TIOCSWINSZ : Z := 0x5414.
Definition SIGWINCH : Z := 512.

(** [file_t] *)
Record file_t := File {
  f_node : option nptr; f_offset : Z; f_flags : Z; f_cloexec : Z; f_refcount : Z
}.

Definition set_offset (o : Z) (f : file_t) : file_t :=
  File (f_node f) o (f_flags f) (f_cloexec f) (f_refcount f).
Definition set_fflags (w : Z) (f : file_t) : file_t :=
  File (f_node f) (f_offset f) w (f_cloexec f) (f_refcount f).
Definition set_cloexec (c : Z) (f : file_t) : file_t :=
  File (f_node f) (f_offset f) (f_flags f) c (f_refcount f).
Definition set_count (r : Z) (f : file_t) : file_t :=
  File (f_node f) (f_offset f) (f_flags f) (f_cloexec f) r.

(** What the calls use of a process: its descriptor table, working directory,
    effective ids and memory. *)
Record process := Process {
  p_files : list Z; p_cwd : mem; p_euid : Z; p_egid : Z; p_umem : umem
}.

Definition set_files (l : list Z) (p : process) : process :=
  Process l (p_cwd p) (p_euid p) (p_egid p) (p_umem p).
Definition set_umem (m : umem) (p : process) : process :=
  Process (p_files p) (p_cwd p) (p_euid p) (p_egid p) m.

(** The bytes of a 32-bit and of a 16-bit word. *)
Definition le32 (w : Z) : list Z :=
  [w mod 256; (w / 256) mod 256; (w / 65536) mod 256; (w / 16777216) mod 256].
Definition le16 (w : Z) : list Z := [w mod 256; (w / 256) mod 256].

(** The first null pointer of the table [l], whose first index is [i]. *)
Fixpoint free_slot (l : list Z) (i : Z) : option Z :=
  match l with
  | [] => None
  | f :: l => if f =? 0 then Some i else free_slot l (i + 1)
  end.

Section Fd.
Context {F : Type}.

(** [k_cur] is the current task: its process, and whether it is a kernel
    task.  [k_sent] are the signals sent to the terminal's process. *)
Record kst := Kst {
  k_vfs : vstate F;
  k_files : gmap Z file_t;
  k_bufs : gmap Z mem;
  k_alloc : list Z;
  k_procs : gmap Z process;
  k_cur : option (Z * bool);
  terminal_winsize : list Z;
  terminal_fg_pid : Z;
  k_sent : list (Z * Z)
}.

#[local] Abbreviation KM := (M kst).

Definition set_vfs (v : vstate F) (s : kst) : kst :=
  Kst v (k_files s) (k_bufs s) (k_alloc s) (k_procs s) (k_cur s) (terminal_winsize s) (terminal_fg_pid s) (k_sent s).
Definition set_fmap (g : gmap Z file_t -> gmap Z file_t) (s : kst) : kst :=
  Kst (k_vfs s) (g (k_files s)) (k_bufs s) (k_alloc s) (k_procs s) (k_cur s) (terminal_winsize s) (terminal_fg_pid s)
    (k_sent s).
Definition set_bufs (g : gmap Z mem -> gmap Z mem) (s : kst) : kst :=
  Kst (k_vfs s) (k_files s) (g (k_bufs s)) (k_alloc s) (k_procs s) (k_cur s) (terminal_winsize s) (terminal_fg_pid s)
    (k_sent s).
Definition set_alloc (l : list Z) (s : kst) : kst :=
  Kst (k_vfs s) (k_files s) (k_bufs s) l (k_procs s) (k_cur s) (terminal_winsize s) (terminal_fg_pid s) (k_sent s).
Definition set_procs (g : gmap Z process -> gmap Z process) (s : kst) : kst :=
  Kst (k_vfs s) (k_files s) (k_bufs s) (k_alloc s) (g (k_procs s)) (k_cur s) (terminal_winsize s) (terminal_fg_pid s)
    (k_sent s).
Definition set_cur (c : option (Z * bool)) (s : kst) : kst :=
  Kst (k_vfs s) (k_files s) (k_bufs s) (k_alloc s) (k_procs s) c (terminal_winsize s) (terminal_fg_pid s) (k_sent s).
Definition set_winsize (w : list Z) (s : kst) : kst :=
  Kst (k_vfs s) (k_files s) (k_bufs s) (k_alloc s) (k_procs s) (k_cur s) w (terminal_fg_pid s) (k_sent s).
Definition send (pid sig : Z) (s : kst) : kst :=
  Kst (k_vfs s) (k_files s) (k_bufs s) (k_alloc s) (k_procs s) (k_cur s) (terminal_winsize s) (terminal_fg_pid s)
    (k_sent s ++ [(pid, sig)]).

(** What the calls use beside the methods of [Vfs.v]: reading a directory
    ([None] at its end, else the entry's name and inode), the ioctls of the
    nodes and of sockets, and the two nodes of a new pipe. *)
Record services := Services {
  op_readdir : Z -> option (nptr -> Z -> vstate F -> option (vstate F * option (mem * Z)));
  op_ioctl : Z -> option (nptr -> Z -> Z -> KM Z);
  sock_ioctl_dispatch : nptr -> Z -> Z -> KM Z;
  pipe_create : vstate F -> option (vstate F * option (nptr * nptr))
}.

Context (ops : Z -> vops F) (sv : services).

(** ** Access to the parts of the state *)

Definition vfs {A} (g : vstate F -> option (vstate F * A)) : KM A :=
  fun s => '(v, a) ← g (k_vfs s); Some (set_vfs v s, a).
Definition vfs_ (g : vstate F -> option (vstate F)) : KM unit :=
  fun s => v ← g (k_vfs s); Some (set_vfs v s, tt).
Definition vget {A} (g : vstate F -> option A) : KM A := fun s => a ← g (k_vfs s); Some (s, a).

Definition file_at (f : Z) : KM file_t := fun s => x ← k_files s !! f; Some (s, x).
Definition upd_file (f : Z) (g : file_t -> file_t) : KM unit :=
  x ← file_at f; modify (set_fmap (<[f := g x]>)).
Definition buf_at (a : Z) : KM mem := fun s => b ← k_bufs s !! a; Some (s, b).

(** An address in use is no result of [kmalloc]. *)
Definition kmalloc : KM Z := fun s =>
  match k_alloc s with
  | [] => Some (s, 0)
  | a :: l =>
      Some (set_alloc l s,
            if bool_decide (is_Some (k_files s !! a)) || bool_decide (is_Some (k_bufs s !! a)) then 0 else a)
  end.

(** [kfree] of a buffer. *)
Definition kfree (a : Z) : KM unit :=
  if a =? 0 then skip else _ ← buf_at a; modify (set_bufs (delete a)).

(** [current_task->proc]; without a current task a null pointer is read. *)
Definition cur_id : KM Z := c ← gets k_cur; '(i, _) ← lift c; mret i.
Definition cur_proc : KM process := fun s => '(i, _) ← k_cur s; p ← k_procs s !! i; Some (s, p).
Definition upd_proc (g : process -> process) : KM unit :=
  i ← cur_id; p ← cur_proc; modify (set_procs (<[i := g p]>)).

Definition slot (i : Z) : KM Z := p ← cur_proc; lift (ld (p_files p) i).
Definition set_slot (i f : Z) : KM unit :=
  p ← cur_proc; l ← lift (st (p_files p) i f); upd_proc (set_files l).

(** The lowest free descriptor from [lo] on. *)
Definition find_slot (lo : Z) : KM (option Z) :=
  p ← cur_proc; mret (free_slot (drop (Z.to_nat lo) (p_files p)) lo).

(** User memory: copies, and access through a pointer that was checked. *)
Definition user_copy_in (size src : Z) : KM (mem * Z) :=
  p ← cur_proc; lift (copy_from_user (p_umem p) (replicate (Z.to_nat size) 0) src size).
Definition user_copy_out (dst : Z) (src : mem) (size : Z) : KM Z :=
  p ← cur_proc; '(m, r) ← lift (copy_to_user (p_umem p) dst src size); upd_proc (set_umem m) ;; mret r.
Definition user_get (addr size : Z) : KM mem := p ← cur_proc; lift (user_load (Z.to_nat size) (p_umem p) addr).
Definition user_put (addr : Z) (l : mem) : KM unit := upd_proc (fun p => set_umem (user_store (p_umem p) addr l) p).

(** [vfs_check_perm] of the current task. *)
Definition check_perm (node : nptr) (perm : Z) : KM Z :=
  n ← vget (get_node node);
  c ← gets k_cur;
  t ← match c with
      | None => mret None
      | Some (_, k) => p ← cur_proc; mret (Some (mk_task k (Some (p_euid p, p_egid p))))
      end;
  mret (vfs_check_perm t (Some n) perm).

(** ** vfs_file.c: open files *)

Definition file_alloc (node : option nptr) : KM Z :=
  match node with
  | None => mret 0
  | Some _ =>
      f ← kmalloc;
      if f =? 0 then mret 0
      else
        modify (set_fmap (<[f := File node 0 0 0 1]>)) ;;
        vfs_ (open_vfs ops node) ;;
        mret f
  end.

Definition file_free (f : Z) : KM unit :=
  if f =? 0 then skip
  else x ← file_at f; vfs_ (close_vfs ops (f_node x)) ;; modify (set_fmap (delete f)).

Definition file_ref (f : Z) : KM Z :=
  (if f =? 0 then skip else upd_file f (fun x => set_count (u32 (f_refcount x + 1)) x)) ;; mret f.

Definition file_unref (f : Z) : KM Z :=
  if f =? 0 then mret (-1)
  else
    x ← file_at f;
    if f_refcount x =? 0 then mret (-1)
    else
      let rc := u32 (f_refcount x - 1) in
      upd_file f (set_count rc) ;;
      if rc =? 0 then file_free f ;; mret 0 else mret (i32 rc).

Definition alloc_fd (node : option nptr) : KM Z :=
  c ← gets k_cur;
  match node, c with
  | Some _, Some _ =>
      f ← file_alloc node;
      if f =? 0 then mret (-1)
      else
        i ← find_slot 3;
        match i with
        | Some i => set_slot i f ;; mret i
        | None => file_unref f ;; mret (-1)
        end
  | _, _ => mret (-1)
  end.

(** ** Names from user space *)

Definition copy_path_from_user (u : Z) : KM Z :=
  p ← cur_proc;
  v ← lift (validate_user_str (p_umem p) u);
  if v =? 0 then mret 0
  else
    a ← kmalloc;
    r ← lift (Validate.copy_path_from_user (negb (a =? 0)) (p_umem p) (p_umem p) (p_umem p) u);
    match r with
    | None => mret 0
    | Some name => modify (set_bufs (<[a := name]>)) ;; mret a
    end.

(** The copy's address, 0 when the call returns -1. *)
Definition _copy_name_arg (u : Z) : KM Z :=
  p ← cur_proc;
  v ← lift (validate_user_str (p_umem p) u);
  if v =? 0 then mret 0 else copy_path_from_user u.

Fixpoint single_loop (s : mem) : option bool :=
  match s with
  | [] => None
  | c :: s => if c =? 0 then Some true else if c =? SLASH then Some false else single_loop s
  end.

Definition _name_is_single (s : mem) : option bool :=
  c ← ld s 0; if c =? 0 then Some false else single_loop s.

(** ** The calls *)

Definition _get_file (fd : Z) : KM Z :=
  c ← gets k_cur;
  match c with
  | None => mret 0
  | Some _ => if (fd <? 0) || (MAX_FD <=? fd) then mret 0 else slot fd
  end.

(** [!f || !f->node] gives nothing; else the open file and its node. *)
Definition file_node (f : Z) : KM (option (file_t * nptr)) :=
  if f =? 0 then mret None
  else x ← file_at f; mret (match f_node x with None => None | Some n => Some (x, n) end).

Definition with_node (err f : Z) (k : file_t -> nptr -> KM Z) : KM Z :=
  x ← file_node f;
  match x with None => mret err | Some (x, node) => k x node end.

(** The permissions an open mode asks for. *)
Definition access_need (flags : Z) : Z :=
  let acc := Z.land flags OPEN_ACCMODE in
  let need := if (acc =? 0) || (acc =? 2) then VFS_PERM_READ else 0 in
  if (acc =? 1) || (acc =? 2) then Z.lor need VFS_PERM_WRITE else need.

(** Whether an open also truncates. *)
Definition wants_trunc (flags : Z) : bool :=
  negb (Z.land flags OPEN_TRUNC =? 0) &&
  ((Z.land flags OPEN_ACCMODE =? OPEN_WRONLY) || (Z.land flags OPEN_ACCMODE =? OPEN_RDWR)).

(** The part of [sys_open] and [_dirctl_openat] after the node is known;
    [err c] is the result for the failure [c] of the call. *)
Definition open_node (err : Z -> Z) (node : nptr) (flags : Z) : KM Z :=
  r ← check_perm node (access_need flags);
  if r <? 0 then mret (err EACCES)
  else
    f ← file_alloc (Some node);
    if f =? 0 then mret (err ENOMEM)
    else
      upd_file f (set_fflags flags) ;;
      i ← find_slot 3;
      match i with
      | Some i =>
          set_slot i f ;;
          if wants_trunc flags then
            r ← vfs (truncate_vfs ops (Some node) 0);
            if negb (r =? 0) then set_slot i 0 ;; file_unref f ;; mret (err EIO) else mret i
          else mret i
      | None => file_unref f ;; mret (err EMFILE)
      end.

(** The node [sys_open] opens: an existing one, or a new file. *)
Definition open_lookup (kname : mem) (flags : Z) : KM (option nptr) :=
  p ← cur_proc;
  node ← vfs (vfs_resolve_path ops (Some (p_cwd p)) (Some kname));
  match node with
  | Some _ => mret node
  | None =>
      if Z.land flags OPEN_CREAT =? 0 then mret None
      else
        '(basename, parent) ←
          vfs (fun v => '(v, b, par) ← vfs_resolve_parent ops (Some (p_cwd p)) (Some kname) (replicate 128 0) 128 v;
                        Some (v, (b, par)));
        c ← lift (ld basename 0);
        match parent with
        | None => mret None
        | Some par =>
            if c =? 0 then mret None
            else
              r ← check_perm par (Z.lor VFS_PERM_WRITE VFS_PERM_EXEC);
              if r <? 0 then mret None
              else
                r ← vfs (create_vfs ops (Some par) basename);
                if negb (r =? 0) then mret None
                else vfs (vfs_resolve_path ops (Some (p_cwd p)) (Some kname))
        end
  end.

Definition sys_open (name flags : Z) : KM Z :=
  c ← gets k_cur;
  match c with
  | None => mret (-1)
  | Some _ =>
      kname ← copy_path_from_user name;
      if kname =? 0 then mret (-1)
      else
        nm ← buf_at kname;
        node ← open_lookup nm flags;
        match node with
        | None => kfree kname ;; mret (-1)
        | Some node => r ← open_node (fun _ => -1) node flags; kfree kname ;; mret r
        end
  end.

(** The file system reads into the caller's buffer, which is loaded before
    and stored after the call. *)
Definition sys_read (fd buf size : Z) : KM Z :=
  if size =? 0 then mret (-1)
  else if validate_user_ptr buf size =? 0 then mret (-1)
  else
    f ← _get_file fd;
    with_node (-1) f (fun x node =>
        b ← user_get buf size;
        '(b, ret) ← vfs (fun v => '(v, b, r) ← read_vfs ops (Some node) (f_offset x) size b v; Some (v, (b, r)));
        user_put buf b ;;
        (if 0 <? ret then upd_file f (fun x => set_offset (u32 (f_offset x + ret)) x) else skip) ;;
        mret ret).

Definition sys_write (fd buf size : Z) : KM Z :=
  if size =? 0 then mret (-1)
  else if validate_user_ptr buf size =? 0 then mret (-1)
  else
    f ← _get_file fd;
    with_node (-1) f (fun x node =>
        b ← user_get buf size;
        ret ← vfs (write_vfs ops (Some node) (f_offset x) size b);
        (if 0 <? ret then upd_file f (fun x => set_offset (u32 (f_offset x + ret)) x) else skip) ;;
        mret ret).

Definition sys_close (fd : Z) : KM Z :=
  f ← _get_file fd;
  if f =? 0 then mret (-1)
  else set_slot fd 0 ;; file_unref f ;; mret 0.

(** The new offset without a method, or nothing when the arguments are bad. *)
Definition seek_default (x : file_t) (size offset whence : Z) : option Z :=
  if whence =? 0 then if offset <? 0 then None else Some (u32 offset)
  else if whence =? 1 then Some (u32 (i32 (f_offset x) + offset))
  else if whence =? 2 then Some (u32 (size + u32 offset))
  else None.

(** The common body of [sys_lseek] and CACT_FDCTL_LSEEK. *)
Definition seek (bad : Z) (f : Z) (x : file_t) (node : nptr) (offset whence : Z) : KM Z :=
  n ← vget (get_node node);
  match method ops op_lseek n with
  | Some m =>
      '(new_off, r) ← vget (m node offset whence);
      if r =? 0 then upd_file f (set_offset new_off) ;; mret (i32 new_off) else mret (-1)
  | None =>
      match seek_default x (v_size n) offset whence with
      | None => mret bad
      | Some new_off => upd_file f (set_offset new_off) ;; mret (i32 new_off)
      end
  end.

Definition sys_lseek (fd offset whence : Z) : KM Z :=
  f ← _get_file fd;
  with_node (-1) f (fun x node => seek (-1) f x node offset whence).

Definition sys_fcntl (fd cmd arg : Z) : KM Z :=
  f ← _get_file fd;
  if f =? 0 then mret (-1)
  else if cmd =? 0 then
    if (arg <? 0) || (MAX_FD <=? arg) then mret (-1)
    else
      i ← find_slot arg;
      match i with
      | Some i => f ← file_ref f; set_slot i f ;; mret i
      | None => mret (-1)
      end
  else if cmd =? 1 then x ← file_at f; mret (i32 (f_cloexec x))
  else if cmd =? 2 then upd_file f (set_cloexec (if Z.land arg 1 =? 0 then 0 else 1)) ;; mret 0
  else if cmd =? 3 then x ← file_at f; mret (i32 (f_flags x))
  else if cmd =? 4 then
    upd_file f (fun x => set_fflags (Z.lor (Z.land (f_flags x) (u32 (Z.lnot SETFL_MASK))) (Z.land (u32 arg) SETFL_MASK)) x) ;;
    mret 0
  else mret (-1).

Definition sys_dup (oldfd : Z) : KM Z :=
  f ← _get_file oldfd;
  if f =? 0 then mret (-1)
  else
    i ← find_slot 0;
    match i with
    | Some i => f ← file_ref f; set_slot i f ;; mret i
    | None => mret (-1)
    end.

(** [f] takes the slot [newfd], which is not checked here. *)
Definition replace_slot (f newfd : Z) : KM Z :=
  file_ref f ;;
  old ← slot newfd;
  set_slot newfd f ;;
  (if old =? 0 then skip else file_unref old ;; skip) ;;
  mret newfd.

Definition sys_dup2 (oldfd newfd : Z) : KM Z :=
  f ← _get_file oldfd;
  if f =? 0 then mret (-1)
  else if oldfd =? newfd then mret newfd
  else replace_slot f newfd.

(** ** ioctl on any descriptor *)

(** [if (!arg) return -EINVAL; if (copy_from_user(&a, arg, sizeof(a)) != 0)
    return -EFAULT;] *)
Definition with_arg (size arg : Z) (k : mem -> KM Z) : KM Z :=
  if arg =? 0 then mret (- EINVAL)
  else '(a, r) ← user_copy_in size arg; if negb (r =? 0) then mret (- EFAULT) else k a.
Definition word (a : mem) (i : Z) : KM Z := w ← lift (ld32 a (4 * i)); mret (u32 w).

(** [stat_vfs] with a user buffer of four words. *)
Definition stat_user (node : nptr) (buf : Z) : KM Z :=
  b ← user_get buf 16;
  w0 ← word b 0; w1 ← word b 1; w2 ← word b 2; w3 ← word b 3;
  '(ws, r) ← vget (stat_vfs ops (Some node) (Some [w0; w1; w2; w3]));
  ws ← lift ws;
  user_put buf (concat (le32 <$> ws)) ;;
  mret r.

Definition readdir_vfs (dir : nptr) (index : Z) : KM (option (mem * Z)) :=
  n ← vget (get_node dir);
  if negb (v_type n =? VFS_DIRECTORY) then mret None
  else if v_ops n =? 0 then mret None
  else match op_readdir sv (v_ops n) with
  | None => mret None
  | Some m => vfs (m dir index)
  end.

(** [while (de->name[i] && i < 123)] and the terminator. *)
Definition dirent_name (name local : mem) : option mem :=
  '(d, i) ← copy_while name 0 123 local; st d i 0.

(** The loop of CACT_FDCTL_GETDENTS.  [local] is the stack buffer of one
    entry, which keeps what earlier code left in it. *)
Fixpoint getdents_loop (fuel : nat) (dir : nptr) (buf count written index : Z) (local : mem) : KM (Z * Z) :=
  match fuel with
  | O => fail
  | S fuel =>
      if u32 (written + 128) <=? count then
        de ← readdir_vfs dir index;
        match de with
        | None => mret (written, index)
        | Some (name, inode) =>
            local ← lift (dirent_name name local);
            r ← user_copy_out (u32 (buf + written)) (le32 inode ++ local) 128;
            if negb (r =? 0) then mret (written, index)
            else getdents_loop fuel dir buf count (u32 (written + 128)) (u32 (index + 1)) local
        end
      else mret (written, index)
  end.

Definition fdctl_getdents (stack : mem) (f : Z) (x : file_t) (node : nptr) (arg : Z) : KM Z :=
  with_arg 8 arg (fun a =>
    buf ← word a 0; count ← word a 1;
    if (buf =? 0) || (count =? 0) then mret (- EINVAL)
    else
      n ← vget (get_node node);
      if negb (v_type n =? VFS_DIRECTORY) then mret (- ENOTDIR)
      else if count <? 128 then mret (- EINVAL)
      else if validate_user_ptr buf count =? 0 then mret (- EFAULT)
      else
        '(written, index) ← getdents_loop (S (Z.to_nat (count / 128))) node buf count 0 (f_offset x) stack;
        upd_file f (set_offset index) ;;
        mret (i32 written)).

Definition _fdctl_handle (stack : mem) (f fd cmd arg : Z) (x : file_t) (node : nptr) : KM Z :=
  if cmd =? 0x3001 then sys_dup fd
  else if cmd =? 0x3002 then
    with_arg 4 arg (fun a =>
      newfd ← word a 0;
      if (i32 newfd <? 0) || (MAX_FD <=? newfd) then mret (- EBADF)
      else if fd =? i32 newfd then mret (i32 newfd)
      else replace_slot f newfd)
  else if cmd =? 0x3003 then
    with_arg 8 arg (fun a => c ← word a 0; v ← word a 1; sys_fcntl fd (i32 c) (i32 v))
  else if cmd =? 0x3004 then
    with_arg 8 arg (fun a => o ← word a 0; w ← word a 1; seek (- EINVAL) f x node (i32 o) w)
  else if cmd =? 0x3005 then
    if (arg =? 0) || (validate_user_ptr arg 16 =? 0) then mret (- EFAULT) else stat_user node arg
  else if cmd =? 0x3006 then
    with_arg 4 arg (fun a =>
      len ← word a 0;
      n ← vget (get_node node);
      if negb (v_type n =? VFS_FILE) then mret (- EINVAL) else vfs (truncate_vfs ops (Some node) len))
  else if cmd =? 0x3007 then fdctl_getdents stack f x node arg
  else if cmd =? 0x3008 then mret 0
  else mret (- EINVAL).

(** ** ioctl on a directory *)

Definition _dir_wx (dir : nptr) : KM Z :=
  r ← check_perm dir (Z.lor VFS_PERM_WRITE VFS_PERM_EXEC); mret (if r <? 0 then - EACCES else 0).

Definition finddir (dir : nptr) (name : mem) : KM (option nptr) := vfs (finddir_vfs ops (Some dir) name).

(** The name argument at [u]: copied, and given to [k] with its buffer if it
    is a single component. *)
Definition with_name (u : Z) (k : Z -> mem -> KM Z) : KM Z :=
  a ← _copy_name_arg u;
  if a =? 0 then mret (- EFAULT)
  else
    nm ← buf_at a;
    single ← lift (_name_is_single nm);
    if negb single then kfree a ;; mret (- EINVAL) else k a nm.

(** [int p = _dir_wx(dir); int ret = p ? p : op; kfree(kname); return ret;] *)
Definition as_owner (dir : nptr) (a : Z) (op : KM Z) : KM Z :=
  p ← _dir_wx dir;
  ret ← (if p =? 0 then op else mret p);
  kfree a ;;
  mret ret.

(** The name must not exist ([absent]) or must exist ([present]). *)
Definition absent (dir : nptr) (a : Z) (nm : mem) (k : KM Z) : KM Z :=
  x ← finddir dir nm;
  match x with Some _ => kfree a ;; mret (- EEXIST) | None => k end.
Definition present (dir : nptr) (a : Z) (nm : mem) (k : nptr -> KM Z) : KM Z :=
  x ← finddir dir nm;
  match x with None => kfree a ;; mret (- ENOENT) | Some n => k n end.

(** The name is only needed for the lookup. *)
Definition lookup_name (dir : nptr) (u : Z) (k : nptr -> KM Z) : KM Z :=
  with_name u (fun a nm =>
    x ← finddir dir nm;
    kfree a ;;
    match x with None => mret (- ENOENT) | Some n => k n end).

Definition _dirctl_openat (dir : nptr) (kname : mem) (flags : Z) : KM Z :=
  node ← finddir dir kname;
  match node with
  | Some node => open_node Z.opp node flags
  | None =>
      if Z.land flags OPEN_CREAT =? 0 then mret (- ENOENT)
      else
        p ← _dir_wx dir;
        if negb (p =? 0) then mret p
        else
          r ← vfs (create_vfs ops (Some dir) kname);
          if negb (r =? 0) then mret (- EIO)
          else
            node ← finddir dir kname;
            match node with None => mret (- EIO) | Some node => open_node Z.opp node flags end
  end.

Definition dirctl_openat (dir : nptr) (arg : Z) : KM Z :=
  with_arg 8 arg (fun a =>
    u ← word a 0; flags ← word a 1;
    with_name u (fun a nm => ret ← _dirctl_openat dir nm flags; kfree a ;; mret ret)).

Definition dirctl_create (dir : nptr) (arg : Z) : KM Z :=
  with_arg 8 arg (fun a =>
    u ← word a 0;
    with_name u (fun a nm => absent dir a nm (as_owner dir a (vfs (create_vfs ops (Some dir) nm))))).

Definition dirctl_mkdir (dir : nptr) (arg : Z) : KM Z :=
  with_name arg (fun a nm => absent dir a nm (as_owner dir a (vfs (mkdir_vfs ops (Some dir) nm)))).

Definition dirctl_rmdir (dir : nptr) (arg : Z) : KM Z :=
  with_name arg (fun a nm => present dir a nm (fun _ => as_owner dir a (vfs (rmdir_vfs ops (Some dir) nm)))).

Definition dirctl_unlink (dir : nptr) (arg : Z) : KM Z :=
  with_name arg (fun a nm => present dir a nm (fun _ => as_owner dir a (vfs (vfs_unlink ops (Some dir) (Some nm))))).

(** Two name arguments; [single] says which of them must be a single
    component. *)
Definition with_names (u1 u2 : Z) (single1 : bool) (k : Z -> Z -> mem -> mem -> KM Z) : KM Z :=
  a1 ← _copy_name_arg u1;
  if a1 =? 0 then mret (- EFAULT)
  else
    a2 ← _copy_name_arg u2;
    if a2 =? 0 then kfree a1 ;; mret (- EFAULT)
    else
      n1 ← buf_at a1; n2 ← buf_at a2;
      s1 ← (if single1 then lift (_name_is_single n1) else mret true);
      s2 ← (if s1 : bool then lift (_name_is_single n2) else mret false);
      if negb (s2 : bool) then kfree a1 ;; kfree a2 ;; mret (- EINVAL) else k a1 a2 n1 n2.

Definition free_both (a1 a2 r : Z) : KM Z := kfree a1 ;; kfree a2 ;; mret r.

Definition dirctl_rename (dir : nptr) (arg : Z) : KM Z :=
  with_arg 8 arg (fun a =>
    u1 ← word a 0; u2 ← word a 1;
    with_names u1 u2 true (fun a1 a2 kold knew =>
      x ← finddir dir kold;
      match x with
      | None => free_both a1 a2 (- ENOENT)
      | Some _ =>
          p ← _dir_wx dir;
          ret ← (if p =? 0 then vfs (rename_vfs ops (Some dir) kold knew) else mret p);
          free_both a1 a2 ret
      end)).

Definition dirctl_link (dir : nptr) (arg : Z) : KM Z :=
  with_arg 8 arg (fun a =>
    u1 ← word a 0; u2 ← word a 1;
    with_names u1 u2 true (fun a1 a2 ktarget knew =>
      x ← finddir dir ktarget;
      match x with
      | None => free_both a1 a2 (- ENOENT)
      | Some target =>
          y ← finddir dir knew;
          match y with
          | Some _ => free_both a1 a2 (- EEXIST)
          | None =>
              p ← _dir_wx dir;
              ret ← (if p =? 0 then vfs (vfs_link ops (Some dir) (Some knew) (Some target)) else mret p);
              free_both a1 a2 ret
          end
      end)).

Definition dirctl_symlink (dir : nptr) (arg : Z) : KM Z :=
  with_arg 8 arg (fun a =>
    u1 ← word a 0; u2 ← word a 1;
    with_names u1 u2 false (fun a1 a2 ktarget kname =>
      y ← finddir dir kname;
      match y with
      | Some _ => free_both a1 a2 (- EEXIST)
      | None =>
          p ← _dir_wx dir;
          ret ← (if p =? 0 then vfs (vfs_symlink ops (Some dir) (Some kname) (Some ktarget)) else mret p);
          free_both a1 a2 ret
      end)).

Definition dirctl_readlink (dir : nptr) (arg : Z) : KM Z :=
  with_arg 12 arg (fun a =>
    u ← word a 0; buf ← word a 1; len ← word a 2;
    if (buf =? 0) || (len =? 0) then mret (- EINVAL)
    else if validate_user_ptr buf len =? 0 then mret (- EFAULT)
    else lookup_name dir u (fun node =>
      n ← vget (get_node node);
      if negb (v_type n =? VFS_SYMLINK) then mret (- EINVAL)
      else
        b ← user_get buf len;
        '(b, r) ← vget (vfs_readlink_node ops (Some node) b len);
        user_put buf b ;;
        mret r)).

Definition dirctl_stat (dir : nptr) (arg : Z) : KM Z :=
  with_arg 8 arg (fun a =>
    u ← word a 0; buf ← word a 1;
    if (buf =? 0) || (validate_user_ptr buf 16 =? 0) then mret (- EFAULT)
    else lookup_name dir u (fun node => stat_user node buf)).

Definition dirctl_access (dir : nptr) (arg : Z) : KM Z :=
  with_arg 8 arg (fun a =>
    u ← word a 0; mode ← word a 1;
    lookup_name dir u (fun node =>
      if mode =? 0 then mret 0
      else
        let perm := if Z.land mode 4 =? 0 then 0 else VFS_PERM_READ in
        let perm := if Z.land mode 2 =? 0 then perm else Z.lor perm VFS_PERM_WRITE in
        let perm := if Z.land mode 1 =? 0 then perm else Z.lor perm VFS_PERM_EXEC in
        r ← check_perm node perm;
        mret (if r <? 0 then - EACCES else 0))).

Definition dirctl_chmod (dir : nptr) (arg : Z) : KM Z :=
  with_arg 8 arg (fun a =>
    u ← word a 0; mode ← word a 1;
    lookup_name dir u (fun node =>
      p ← cur_proc;
      n ← vget (get_node node);
      if negb (p_euid p =? 0) && negb (p_euid p =? v_uid n) then mret (- EPERM)
      else vfs (chmod_vfs ops (Some node) mode))).

Definition dirctl_chown (dir : nptr) (arg : Z) : KM Z :=
  with_arg 12 arg (fun a =>
    u ← word a 0; uid ← word a 1; gid ← word a 2;
    p ← cur_proc;
    if negb (p_euid p =? 0) then mret (- EPERM)
    else lookup_name dir u (fun node => vfs (chown_vfs ops (Some node) uid gid))).

Definition dirctl_truncate (dir : nptr) (arg : Z) : KM Z :=
  with_arg 8 arg (fun a =>
    u ← word a 0; length ← word a 1;
    lookup_name dir u (fun node =>
      n ← vget (get_node node);
      if negb (v_type n =? VFS_FILE) then mret (- EINVAL)
      else
        r ← check_perm node VFS_PERM_WRITE;
        if r <? 0 then mret (- EACCES) else vfs (truncate_vfs ops (Some node) length))).

Definition dirctl_mknod (dir : nptr) (arg : Z) : KM Z :=
  with_arg 12 arg (fun a =>
    u ← word a 0; mode ← word a 1; dev ← word a 2;
    with_name u (fun a nm =>
      absent dir a nm (ret ← vfs (mknod_vfs ops (Some dir) (Some nm) mode dev); kfree a ;; mret ret))).

Definition _dirctl_handle (dir : nptr) (cmd arg : Z) : KM Z :=
  if cmd =? 0x3101 then dirctl_openat dir arg
  else if cmd =? 0x310F then dirctl_create dir arg
  else if cmd =? 0x3103 then dirctl_mkdir dir arg
  else if cmd =? 0x3104 then dirctl_rmdir dir arg
  else if cmd =? 0x3105 then dirctl_unlink dir arg
  else if cmd =? 0x3109 then dirctl_rename dir arg
  else if cmd =? 0x3106 then dirctl_link dir arg
  else if cmd =? 0x3107 then dirctl_symlink dir arg
  else if cmd =? 0x3108 then dirctl_readlink dir arg
  else if cmd =? 0x3102 then dirctl_stat dir arg
  else if cmd =? 0x310A then dirctl_access dir arg
  else if cmd =? 0x310B then dirctl_chmod dir arg
  else if cmd =? 0x310C then dirctl_chown dir arg
  else if cmd =? 0x310D then dirctl_truncate dir arg
  else if cmd =? 0x310E then dirctl_mknod dir arg
  else mret (- EINVAL).

(** ** sys_ioctl *)

(** The window size as the user's [struct winsize]. *)
Definition ioctl_winsize (cmd arg : Z) : KM Z :=
  if (arg =? 0) || (validate_user_ptr arg 8 =? 0) then mret (-1)
  else if cmd =? TIOCSWINSZ then
    '(a, r) ← user_copy_in 8 arg;
    if negb (r =? 0) then mret (-1)
    else
      w0 ← lift (ld16 a 0); w1 ← lift (ld16 a 2); w2 ← lift (ld16 a 4); w3 ← lift (ld16 a 6);
      modify (set_winsize [w0; w1; w2; w3]) ;;
      pid ← gets terminal_fg_pid;
      (if pid =? 0 then skip else modify (send pid SIGWINCH)) ;;
      mret 0
  else
    w ← gets terminal_winsize;
    r ← user_copy_out arg (concat (le16 <$> w)) 8;
    mret (if negb (r =? 0) then -1 else 0).

Definition ioctl_vfs (node : nptr) (cmd arg : Z) : KM Z :=
  n ← vget (get_node node);
  if v_ops n =? 0 then mret (-1)
  else match op_ioctl sv (v_ops n) with None => mret (-1) | Some m => m node cmd arg end.

Definition sys_ioctl (stack : mem) (fd cmd arg : Z) : KM Z :=
  f ← _get_file fd;
  if (0x3000 <=? cmd) && (cmd <=? 0x30FF) then
    with_node (- EBADF) f (fun x node => _fdctl_handle stack f fd cmd arg x node)
  else if (0x3100 <=? cmd) && (cmd <=? 0x31FF) then
    with_node (- EBADF) f (fun _ node =>
      n ← vget (get_node node);
      if negb (v_type n =? VFS_DIRECTORY) then mret (- ENOTDIR) else _dirctl_handle node cmd arg)
  else if (0x3300 <=? cmd) && (cmd <=? 0x33FF) then
    with_node (- EBADF) f (fun _ node =>
      n ← vget (get_node node);
      if negb (v_type n =? VFS_SOCKET) then mret (- EINVAL) else sock_ioctl_dispatch sv node cmd arg)
  else if (cmd =? TIOCGWINSZ) || (cmd =? TIOCSWINSZ) then ioctl_winsize cmd arg
  else
    with_node (-1) f (fun _ node =>
      if negb (arg =? 0) && (validate_user_ptr arg 1 =? 0) then mret (-1) else ioctl_vfs node cmd arg).

(** ** Pipes *)

(** The two lowest free descriptors, -1 where there is none. *)
Fixpoint two_slots (l : list Z) (i rfd wfd : Z) : Z * Z :=
  match l with
  | [] => (rfd, wfd)
  | f :: l =>
      if (rfd <? 0) || (wfd <? 0) then
        if f =? 0 then if rfd <? 0 then two_slots l (i + 1) i wfd else two_slots l (i + 1) rfd i
        else two_slots l (i + 1) rfd wfd
      else (rfd, wfd)
  end.

(** A new pipe with a descriptor for each end, or the error. *)
Definition pipe_fds : KM (Z + Z * Z) :=
  ends ← vfs (pipe_create sv);
  match ends with
  | None => mret (inl (-1))
  | Some (n0, n1) =>
      rf ← file_alloc (Some n0);
      wf ← file_alloc (Some n1);
      if (rf =? 0) || (wf =? 0) then
        (if rf =? 0 then skip else file_unref rf ;; skip) ;;
        (if wf =? 0 then skip else file_unref wf ;; skip) ;;
        vfs_ (close_vfs ops (Some n0)) ;;
        vfs_ (close_vfs ops (Some n1)) ;;
        mret (inl (- ENOMEM))
      else
        p ← cur_proc;
        let '(rfd, wfd) := two_slots (drop 3 (p_files p)) 3 (-1) (-1) in
        if (rfd <? 0) || (wfd <? 0) then
          file_unref rf ;;
          file_unref wf ;;
          mret (inl (- EMFILE))
        else
          set_slot rfd rf ;;
          set_slot wfd wf ;;
          mret (inr (rfd, wfd))
  end.

Definition sys_pipe (user_fds : Z) : KM Z :=
  if validate_user_ptr user_fds 8 =? 0 then mret (-1)
  else
    c ← gets k_cur;
    match c with
    | None => mret (-1)
    | Some _ =>
        r ← pipe_fds;
        match r with
        | inl _ => mret (-1)
        | inr (rfd, wfd) => user_put user_fds (le32 rfd ++ le32 wfd) ;; mret 0
        end
    end.

(** The ioctl CACT_PIPECTL_CREATE of /dev/pipe. *)
Definition _pipe_ioctl (cmd arg : Z) : KM Z :=
  if negb (cmd =? 0x3601) then mret (- EINVAL)
  else if arg =? 0 then mret (- EINVAL)
  else if validate_user_ptr arg 8 =? 0 then mret (- EFAULT)
  else
    c ← gets k_cur;
    match c with
    | None => mret (-1)
    | Some _ =>
        r ← pipe_fds;
        match r with
        | inl e => mret e
        | inr (rfd, wfd) => user_copy_out arg (le32 rfd ++ le32 wfd) 8
        end
    end.

(** ** fork, exec and exit *)

(** The child's files are referenced, and, once its memory has been copied,
    their nodes are opened once more. *)
Definition share_files (l : list Z) : KM unit := for_each l (fun f => if f =? 0 then skip else file_ref f ;; skip).
Definition reopen_nodes (l : list Z) : KM unit :=
  for_each l (fun f =>
    if f =? 0 then skip
    else x ← file_at f; match f_node x with None => skip | Some n => vfs_ (open_vfs ops (Some n)) end).

(** A child gets a copy of the table. *)
Definition fork_files (child : Z) : KM unit :=
  p ← cur_proc;
  share_files (p_files p) ;;
  modify (set_procs (<[child := p]>)) ;;
  reopen_nodes (p_files p).

(** The descriptors from 3 on whose file has the flag are closed. *)
Definition exec_files : KM unit :=
  for_each (Z.of_nat <$> seq 3 253) (fun i =>
    f ← slot i;
    if f =? 0 then skip
    else
      x ← file_at f;
      if negb (Z.land (f_cloexec x) 1 =? 0) then file_unref f ;; set_slot i 0 else skip).

(** The reaper gives up a dead process's files. *)
Definition reap_files (pid : Z) : KM unit :=
  p ← (fun s => p ← k_procs s !! pid; Some (s, p));
  for_each (p_files p) (fun f => if f =? 0 then skip else file_unref f ;; skip) ;;
  modify (set_procs (delete pid)).

(** ** poll and select

    A call that waits is split at its calls of [schedule]: [Again] is a round
    after which it gives up the processor, [Return] its end.  [now] is what
    [timer_ticks_get] returns in the round. *)
Inductive turn (W : Type) := Return (r : Z) | Again (w : W).
Arguments Return {W} r.
Arguments Again {W} w.

(** [(int32_t)(timer_ticks_get() - deadline) >= 0] *)
Definition expired (now deadline : Z) : bool := 0 <=? i32 (now - deadline).

(** [struct pollfd] *)
Record pollfd := Pollfd { pf_fd : Z; pf_events : Z; pf_revents : Z }.

Definition POLLIN : Z := 1.
Definition POLLOUT : Z := 4.
Definition POLLERR : Z := 8.
Definition POLLHUP : Z := 16.
Definition POLLNVAL : Z := 32.

Fixpoint pollfds (n : nat) (m : mem) : option (list pollfd) :=
  match n with
  | O => Some []
  | S n =>
      fd ← ld32 m 0; ev ← ld16 m 4; re ← ld16 m 6;
      l ← pollfds n (drop 8 m);
      Some (Pollfd (i32 fd) ev re :: l)
  end.
Definition pollfd_bytes (p : pollfd) : list Z := le32 (u32 (pf_fd p)) ++ le16 (pf_events p) ++ le16 (pf_revents p).

Definition has (w bit : Z) : bool := negb (Z.land w bit =? 0).
Definition or_if (c : bool) (bit w : Z) : Z := if c then Z.lor w bit else w.

(** One entry: its record with the events that are ready, and whether it
    counts.  An entry that is no open descriptor is left by [continue] and does
    not. *)
Definition poll_one (p : pollfd) : KM (pollfd * bool) :=
  let nval := (Pollfd (pf_fd p) (pf_events p) POLLNVAL, false) in
  if (pf_fd p <? 0) || (MAX_FD <=? pf_fd p) then mret nval
  else
    f ← slot (pf_fd p);
    x ← file_node f;
    match x with
    | None => mret nval
    | Some (_, node) =>
        let events := or_if (has (pf_events p) POLLOUT) VFS_POLLOUT (or_if (has (pf_events p) POLLIN) VFS_POLLIN 0) in
        rev ← vget (poll_vfs ops (Some node) events);
        let ev := or_if (has rev VFS_POLLIN) POLLIN 0 in
        let ev := or_if (has rev VFS_POLLOUT) POLLOUT ev in
        let ev := or_if (has rev VFS_POLLHUP) POLLHUP ev in
        let ev := or_if (has rev VFS_POLLERR) POLLERR ev in
        let ev := or_if (has rev VFS_POLLNVAL) POLLNVAL ev in
        mret (Pollfd (pf_fd p) (pf_events p) ev, negb (ev =? 0))
    end.

Fixpoint poll_scan (l : list pollfd) (ready : Z) : KM (list pollfd * Z) :=
  match l with
  | [] => mret ([], ready)
  | p :: l =>
      '(q, counts) ← poll_one p;
      '(l, ready) ← poll_scan l (if counts : bool then ready + 1 else ready);
      mret (q :: l, ready)
  end.

(** Ten milliseconds are a tick. *)
Definition ms_ticks (ms : Z) : Z := u32 (Z.quot (i32 (ms + 9)) 10).

(** A waiting [sys_poll]: without entries for ever or until a tick, or with
    the kernel's copy of the entries. *)
Inductive pollwait :=
  | PForever
  | PSleep (deadline : Z)
  | PPoll (user buf : Z) (fds : list pollfd) (infinite nonblocking : bool) (deadline : Z).

Definition poll_round (now : Z) (w : pollwait) : KM (turn pollwait) :=
  match w with
  | PForever => mret (Again w)
  | PSleep deadline => mret (if expired now deadline then Return 0 else Again w)
  | PPoll user buf fds infinite nonblocking deadline =>
      '(fds, ready) ← poll_scan fds 0;
      if (0 <? ready) || nonblocking || (negb infinite && expired now deadline) then
        user_copy_out user (concat (pollfd_bytes <$> fds)) (8 * zlen fds) ;;
        kfree buf ;;
        mret (Return ready)
      else mret (Again (PPoll user buf fds infinite nonblocking deadline))
  end.

Definition poll_enter (now fds_user nfds timeout_ms : Z) : KM (turn pollwait) :=
  c ← gets k_cur;
  match c with
  | None => mret (Return (-1))
  | Some _ =>
      if nfds <=? 0 then
        if timeout_ms =? 0 then mret (Return 0)
        else if timeout_ms <? 0 then mret (Again PForever)
        else poll_round now (PSleep (u32 (now + ms_ticks timeout_ms)))
      else if 4294967295 / 8 <? u32 nfds then mret (Return (-1))
      else if validate_user_ptr fds_user (u32 (u32 nfds * 8)) =? 0 then mret (Return (-1))
      else
        buf ← kmalloc;
        if buf =? 0 then mret (Return (-1))
        else
          modify (set_bufs (<[buf := []]>)) ;;
          '(m, r) ← user_copy_in (nfds * 8) fds_user;
          if negb (r =? 0) then kfree buf ;; mret (Return (-1))
          else
            fds ← lift (pollfds (Z.to_nat nfds) m);
            let infinite := timeout_ms <? 0 in
            let nonblocking := timeout_ms =? 0 in
            let deadline := if infinite || nonblocking then 0 else u32 (now + ms_ticks timeout_ms) in
            poll_round now (PPoll fds_user buf fds infinite nonblocking deadline)
  end.

(** The rounds of a call, each after other tasks have run ([env]). *)
Fixpoint waits {W} (round : Z -> W -> KM (turn W)) (evs : list (Z * (kst -> kst))) (t : turn W) : KM (turn W) :=
  match t, evs with
  | Return r, _ => mret (Return r)
  | Again w, [] => mret (Again w)
  | Again w, (now, env) :: evs => modify env ;; t ← round now w; waits round evs t
  end.

Definition sys_poll (now : Z) (evs : list (Z * (kst -> kst))) (fds_user nfds timeout_ms : Z) : KM (turn pollwait) :=
  t ← poll_enter now fds_user nfds timeout_ms; waits poll_round evs t.

(** [sel_fdset_t] as the number with the bits of its eight words. *)
Definition fdset (m : mem) : option Z :=
  foldr (fun i acc => w ← ld32 m (4 * Z.of_nat i); a ← acc; Some (u32 w + 2 ^ 32 * a)) (Some 0) (seq 0 8).
Definition fdset_bytes (w : Z) : list Z := concat ((fun i : nat => le32 (u32 (Z.shiftr w (32 * Z.of_nat i)))) <$> seq 0 8).
Definition isset (fd w : Z) : bool := Z.testbit w fd.

(** The descriptor [fd] in one of the three sets: it is added to the result
    if it was asked for and one of [bits] is ready. *)
Definition select_bit (asked : option Z) (f bits fd : Z) (res : Z * Z) : KM (Z * Z) :=
  match asked with
  | None => mret res
  | Some orig =>
      if isset fd orig then
        x ← file_node f;
        match x with
        | None => mret res
        | Some (_, node) =>
            rev ← vget (poll_vfs ops (Some node) bits);
            mret (if has rev bits then (Z.setbit res.1 fd, res.2 + 1) else res)
        end
      else mret res
  end.

(** The pass over the descriptors [fd], ...: the three result sets and the
    number of bits set. *)
Fixpoint select_scan (n : nat) (fd : Z) (r w e : option Z) (acc : Z * Z * Z * Z) : KM (Z * Z * Z * Z) :=
  match n with
  | O => mret acc
  | S n =>
      let '(rr, rw, re, ready) := acc in
      f ← slot fd;
      '(rr, ready) ← select_bit r f VFS_POLLIN fd (rr, ready);
      '(rw, ready) ← select_bit w f VFS_POLLOUT fd (rw, ready);
      '(re, ready) ← select_bit e f (Z.lor VFS_POLLHUP VFS_POLLERR) fd (re, ready);
      select_scan n (fd + 1) r w e (rr, rw, re, ready)
  end.

(** A waiting [sys_select]: the user's sets and what they held at first. *)
Record selwait := Selwait {
  sw_nfds : Z; sw_r : Z; sw_w : Z; sw_e : Z; sw_or : option Z; sw_ow : option Z; sw_oe : option Z;
  sw_infinite : bool; sw_nonblocking : bool; sw_deadline : Z
}.

Definition put_set (u w : Z) : KM unit := if u =? 0 then skip else user_copy_out u (fdset_bytes w) 32 ;; skip.

Definition select_round (now : Z) (w : selwait) : KM (turn selwait) :=
  '(rr, rw, re, ready) ← select_scan (Z.to_nat (sw_nfds w)) 0 (sw_or w) (sw_ow w) (sw_oe w) (0, 0, 0, 0);
  if (0 <? ready) || sw_nonblocking w || (negb (sw_infinite w) && expired now (sw_deadline w)) then
    put_set (sw_r w) rr ;;
    put_set (sw_w w) rw ;;
    put_set (sw_e w) re ;;
    mret (Return ready)
  else mret (Again w).

Definition get_set (u : Z) : KM (option Z) :=
  if u =? 0 then mret None else m ← user_get u 32; w ← lift (fdset m); mret (Some w).

(** A null pointer, or a pointer to [size] bytes of user space. *)
Definition ptr_ok (u size : Z) : bool := (u =? 0) || negb (validate_user_ptr u size =? 0).

(** Seconds and microseconds as ticks; [long] has 32 bits. *)
Definition tv_ticks (sec usec : Z) : Z := u32 (u32 (sec * 100) + u32 (Z.quot (i32 (usec + 9999)) 10000)).

Definition select_enter (now ua : Z) : KM (turn selwait) :=
  if validate_user_ptr ua 20 =? 0 then mret (Return (-1))
  else
    c ← gets k_cur;
    match c with
    | None => mret (Return (-1))
    | Some _ =>
        a ← user_get ua 20;
        nfds ← word a 0; ur ← word a 1; uw ← word a 2; ue ← word a 3; utv ← word a 4;
        if (i32 nfds <? 0) || (MAX_FD <? i32 nfds) then mret (Return (-1))
        else if negb (ptr_ok ur 32 && ptr_ok uw 32 && ptr_ok ue 32 && ptr_ok utv 8) then mret (Return (-1))
        else
          ticks ← (if utv =? 0 then mret None
                   else tv ← user_get utv 8; sec ← word tv 0; usec ← word tv 1; mret (Some (tv_ticks sec (i32 usec))));
          orig_r ← get_set ur; orig_w ← get_set uw; orig_e ← get_set ue;
          let infinite := bool_decide (ticks = None) in
          let nonblocking := bool_decide (ticks = Some 0) in
          let deadline := match ticks with None => 0 | Some t => u32 (now + t) end in
          select_round now (Selwait nfds ur uw ue orig_r orig_w orig_e infinite nonblocking deadline)
    end.

Definition sys_select (now : Z) (evs : list (Z * (kst -> kst))) (ua : Z) : KM (turn selwait) :=
  t ← select_enter now ua; waits select_round evs t.
End Fd.
Arguments kst F : clear implicits.
Arguments services F : clear implicits.
Arguments Return {W} r.
Arguments Again {W} w.
