(* ===== verification/FdSpec.v ===== *)
(** * Open files: who refers to them, and until when

    The invariant of the descriptor layer of [Fd.v], against what the VFS
    promises ([VfsContract]): an open file's reference count is the number of
    descriptors that refer to it, it keeps its node open, and no call leaves a
    buffer behind. *)
From stdpp Require Import gmultiset.
From S2P Require Import Prelude StateM Klib Validate VfsPath Vfs VfsSpec Fd.

#[local] Open Scope Z_scope.

(** ** What the VFS promises

    [v_inv v O]: the file systems are in order, and the nodes of [O] have been
    opened and not closed yet, each as often as it occurs in [O]. *)
Section Contract.
Context {F : Type} {ops : Z -> vops F} {sv : services F}.
Implicit Types (v : vstate F) (O : gmultiset nptr) (p d : nptr).

(** The call returns, and the nodes that are open stay open. *)
Definition keeps {A} (inv : vstate F -> gmultiset nptr -> Prop) O (m : vstate F -> option (vstate F * A)) v : Prop :=
  exists v' a, m v = Some (v', a) /\ inv v' O.

(** At most this many opens of nodes are counted. *)
Definition OPENS_MAX : Z := 2 ^ 31.

Class VfsContract := {
  v_inv : vstate F -> gmultiset nptr -> Prop;
  (** what a file system can hold: writes beyond are not made *)
  v_limit : Z;
  c_held v O p : v_inv v O -> p ∈ O -> valid v p;
  c_open v O p : v_inv v O -> valid v p -> Z.of_nat (size O) < OPENS_MAX ->
    exists v', open_vfs ops (Some p) v = Some v' /\ v_inv v' ({[+ p +]} ⊎ O);
  c_close v O p : v_inv v ({[+ p +]} ⊎ O) -> exists v', close_vfs ops (Some p) v = Some v' /\ v_inv v' O;
  c_read v O p off (b : mem) : v_inv v O -> p ∈ O -> is_u32 off -> is_u32 (zlen b) -> 
    exists v' b' r, read_vfs ops (Some p) off (zlen b) b v = Some (v', b', r) /\ v_inv v' O /\ zlen b' = zlen b;
  c_write v O p off (b : mem) : v_inv v O -> p ∈ O -> is_u32 off -> is_u32 (zlen b) -> off + zlen b <= v_limit ->
    keeps v_inv O (write_vfs ops (Some p) off (zlen b) b) v;
  c_resolve v O cwd w path t : v_inv v O -> cstr cwd w -> rooted w = true -> cstr path t ->
    exists v' r, vfs_resolve_path ops (Some cwd) (Some path) v = Some (v', r) /\ v_inv v' O /\ valid_opt v' r;
  c_parent v O cwd w path t : v_inv v O -> cstr cwd w -> rooted w = true -> cstr path t ->
    exists v' b g r, vfs_resolve_parent ops (Some cwd) (Some path) (replicate 128 0) 128 v = Some (v', b, r) /\
      v_inv v' O /\ valid_opt v' r /\ cstr b g;
  c_finddir v O d name g : v_inv v O -> valid v d -> cstr name g ->
    exists v' r, finddir_vfs ops (Some d) name v = Some (v', r) /\ v_inv v' O /\ valid_opt v' r /\
      (forall q, valid v q -> valid v' q);
  c_create v O d name g : v_inv v O -> valid v d -> cstr name g -> keeps v_inv O (create_vfs ops (Some d) name) v;
  c_mkdir v O d name g : v_inv v O -> valid v d -> cstr name g -> keeps v_inv O (mkdir_vfs ops (Some d) name) v;
  c_rmdir v O d name g : v_inv v O -> valid v d -> cstr name g -> keeps v_inv O (rmdir_vfs ops (Some d) name) v;
  c_unlink v O d name g : v_inv v O -> valid v d -> cstr name g -> keeps v_inv O (vfs_unlink ops (Some d) (Some name)) v;
  c_rename v O d n1 g1 n2 g2 : v_inv v O -> valid v d -> cstr n1 g1 -> cstr n2 g2 ->
    keeps v_inv O (rename_vfs ops (Some d) n1 n2) v;
  c_link v O d name g p : v_inv v O -> valid v d -> valid v p -> cstr name g ->
    keeps v_inv O (vfs_link ops (Some d) (Some name) (Some p)) v;
  c_symlink v O d name g tgt t : v_inv v O -> valid v d -> cstr name g -> cstr tgt t ->
    keeps v_inv O (vfs_symlink ops (Some d) (Some name) (Some tgt)) v;
  c_mknod v O d name g mode dev : v_inv v O -> valid v d -> cstr name g ->
    keeps v_inv O (mknod_vfs ops (Some d) (Some name) mode dev) v;
  c_truncate v O p len : v_inv v O -> valid v p -> keeps v_inv O (truncate_vfs ops (Some p) len) v;
  c_chmod v O p mode : v_inv v O -> valid v p -> keeps v_inv O (chmod_vfs ops (Some p) mode) v;
  c_chown v O p uid gid : v_inv v O -> valid v p -> keeps v_inv O (chown_vfs ops (Some p) uid gid) v;
  c_stat v O p (ws : mem) : v_inv v O -> valid v p -> zlen ws = 4 ->
    exists ws' r, stat_vfs ops (Some p) (Some ws) v = Some (Some ws', r);
  c_readlink v O p (b : mem) : v_inv v O -> valid v p -> 
    exists b' r, vfs_readlink_node ops (Some p) b (zlen b) v = Some (b', r);
  c_poll v O p ev : v_inv v O -> valid v p -> is_Some (poll_vfs ops (Some p) ev v);
  c_lseek v O p n m off wh : v_inv v O -> get_node p v = Some n -> method ops op_lseek n = Some m ->
    exists new r, m p off wh v = Some (new, r) /\ is_u32 new;
  c_readdir v O d n m i : v_inv v O -> get_node d v = Some n -> op_readdir sv (v_ops n) = Some m ->
    exists v' r, m d i v = Some (v', r) /\ v_inv v' O /\
      match r with Some (name, _) => exists g, cstr name g | None => True end;
  c_pipe v O : v_inv v O ->
    exists v' r, pipe_create sv v = Some (v', r) /\
      match r with Some (n0, n1) => v_inv v' ({[+ n0 +]} ⊎ ({[+ n1 +]} ⊎ O)) | None => v_inv v' O end
}.
End Contract.
Arguments VfsContract {F} ops sv.

(** ** Counting *)

Lemma slots_insert (m : gmap Z process) i p p' :
  m !! i = Some p ->
  list_to_set_disj (concat (p_files <$> (map_to_list (<[i := p']> m)).*2)) ⊎ list_to_set_disj (p_files p) =@{gmultiset Z}
  list_to_set_disj (concat (p_files <$> (map_to_list m).*2)) ⊎ list_to_set_disj (p_files p').
Proof.
  intros Hi.
  assert (H1 : map_to_list (<[i := p']> m) ≡ₚ (i, p') :: map_to_list (delete i m)).
  { rewrite <- insert_delete_eq. apply map_to_list_insert, lookup_delete_eq. }
  assert (H2 : map_to_list m ≡ₚ (i, p) :: map_to_list (delete i m)) by (symmetry; by apply map_to_list_delete).
  rewrite H1, H2. cbn. rewrite !list_to_set_disj_app. multiset_solver.
Qed.

Lemma slots_new (m : gmap Z process) i p :
  m !! i = None ->
  list_to_set_disj (concat (p_files <$> (map_to_list (<[i := p]> m)).*2)) =@{gmultiset Z}
  list_to_set_disj (p_files p) ⊎ list_to_set_disj (concat (p_files <$> (map_to_list m).*2)).
Proof. intros Hi. rewrite map_to_list_insert by done. cbn. by rewrite list_to_set_disj_app. Qed.

Lemma table_insert (l : list Z) k f g :
  l !! k = Some g ->
  list_to_set_disj (<[k := f]> l) ⊎ {[+ g +]} =@{gmultiset Z} list_to_set_disj l ⊎ {[+ f +]}.
Proof.
  intros Hk. rewrite insert_take_drop by (by eapply lookup_lt_Some).
  rewrite <- (take_drop_middle l k g Hk) at 3. rewrite !list_to_set_disj_app, !list_to_set_disj_cons. multiset_solver.
Qed.

Lemma nodes_insert (m : gmap Z file_t) f x n :
  m !! f = None -> f_node x = Some n ->
  list_to_set_disj (omap f_node (map_to_list (<[f := x]> m)).*2) =@{gmultiset nptr}
  {[+ n +]} ⊎ list_to_set_disj (omap f_node (map_to_list m).*2).
Proof. intros Hf Hn. rewrite map_to_list_insert by done. cbn. by rewrite Hn. Qed.

Lemma nodes_update (m : gmap Z file_t) f x x' :
  m !! f = Some x -> f_node x' = f_node x ->
  list_to_set_disj (omap f_node (map_to_list (<[f := x']> m)).*2) =@{gmultiset nptr}
  list_to_set_disj (omap f_node (map_to_list m).*2).
Proof.
  intros Hf Hn. rewrite <- insert_delete_eq, map_to_list_insert by apply lookup_delete_eq.
  rewrite <- (map_to_list_delete m f x Hf). cbn. by rewrite Hn.
Qed.

Lemma nodes_delete (m : gmap Z file_t) f x n :
  m !! f = Some x -> f_node x = Some n ->
  list_to_set_disj (omap f_node (map_to_list m).*2) =@{gmultiset nptr}
  {[+ n +]} ⊎ list_to_set_disj (omap f_node (map_to_list (delete f m)).*2).
Proof. intros Hf Hn. rewrite <- (map_to_list_delete m f x Hf). cbn. by rewrite Hn. Qed.

Lemma nodes_in (m : gmap Z file_t) f x n :
  m !! f = Some x -> f_node x = Some n -> n ∈@{gmultiset nptr} list_to_set_disj (omap f_node (map_to_list m).*2).
Proof. intros Hf Hn. rewrite (nodes_delete m f x n Hf Hn). multiset_solver. Qed.

Lemma multiplicity_size `{Countable A} (G : gmultiset A) f : (multiplicity f G <= size G)%nat.
Proof.
  induction G as [|g G IH] using gmultiset_ind; [rewrite multiplicity_empty; lia|].
  rewrite gmultiset_size_disj_union, gmultiset_size_singleton, multiplicity_disj_union.
  rewrite multiplicity_singleton. case_decide; lia.
Qed.

Section Inv.
Context {F : Type} {ops : Z -> vops F} {sv : services F} `{VC : !VfsContract ops sv}.
#[local] Abbreviation KM := (M (kst F)).
Implicit Types (s : kst F) (B : gmap Z mem) (E : gmultiset Z) (X : gmultiset nptr).

(** The descriptors of all processes. *)
Definition slots s : gmultiset Z := list_to_set_disj (concat (p_files <$> (map_to_list (k_procs s)).*2)).

(** The nodes the open files keep open. *)
Definition nodes s : gmultiset nptr := list_to_set_disj (omap f_node (map_to_list (k_files s)).*2).

(** The process's memory is mapped. *)
Definition mapped (m : umem) : Prop := forall a, exists c, m a = Some c.

Record proc_ok (p : process) : Prop := {
  po_files : length (p_files p) = 256%nat;
  po_cwd : exists w, cstr (p_cwd p) w /\ rooted w = true;
  po_mem : mapped (p_umem p)
}.

(** As many processes as the counts have room for. *)
Definition PROCS_MAX : Z := 2 ^ 20.

(** During a call: [B] are its buffers, [E] its own references to open files,
    [X] the opens of nodes that no open file accounts for. *)
Record kinv B E X s : Prop := {
  ki_procs : forall i p, k_procs s !! i = Some p -> proc_ok p;
  ki_cur : forall i k, k_cur s = Some (i, k) -> is_Some (k_procs s !! i);
  ki_size : Z.of_nat (size (k_procs s)) <= PROCS_MAX;
  ki_win : length (terminal_winsize s) = 4%nat;
  ki_bufs : k_bufs s = B;
  ki_file : forall f x, k_files s !! f = Some x -> f <> 0 /\ is_u32 (f_offset x) /\ (exists n, f_node x = Some n) /\
    f_refcount x = Z.of_nat (multiplicity f (slots s ⊎ E)) /\ f ∈ slots s ⊎ E;
  ki_live : forall f, f ∈ slots s ⊎ E -> f <> 0 -> is_Some (k_files s !! f);
  ki_vfs : v_inv (k_vfs s) (nodes s ⊎ X)
}.

(** ** Bounds *)

(** The table of a process is part of [slots]. *)
Lemma slots_split s i p :
  k_procs s !! i = Some p -> exists R, slots s = list_to_set_disj (p_files p) ⊎ R.
Proof.
  intros Hi. unfold slots. exists (list_to_set_disj (concat (p_files <$> (map_to_list (delete i (k_procs s))).*2))).
  rewrite <- (map_to_list_delete _ i p Hi). cbn. by rewrite list_to_set_disj_app.
Qed.

Lemma slots_in s i p k f :
  k_procs s !! i = Some p -> p_files p !! k = Some f -> f ∈ slots s.
Proof.
  intros Hi Hk. destruct (slots_split s i p Hi) as [R ->]. apply gmultiset_elem_of_disj_union. left.
  apply elem_of_list_to_set_disj. by eapply list_elem_of_lookup_2.
Qed.

Lemma slots_size s :
  (forall i p, k_procs s !! i = Some p -> proc_ok p) -> (size (slots s) <= 256 * size (k_procs s))%nat.
Proof.
  unfold slots. generalize (k_procs s). intros m. induction m as [|i p m Hi IH] using map_ind; intros Hp.
  { by rewrite map_to_list_empty. }
  rewrite slots_new by done. rewrite gmultiset_size_disj_union, map_size_insert_None by done.
  assert (size (list_to_set_disj (p_files p) : gmultiset Z) <= 256)%nat.
  { rewrite <- (po_files p (Hp i p (lookup_insert_eq _ _ _))). clear. induction (p_files p) as [|a l IH]; [done|].
    rewrite list_to_set_disj_cons, gmultiset_size_disj_union, gmultiset_size_singleton. cbn [length]. lia. }
  enough (size (list_to_set_disj (concat (p_files <$> (map_to_list m).*2)) : gmultiset Z) <= 256 * size m)%nat by lia.
  apply IH. intros j q Hj. apply (Hp j q). rewrite lookup_insert_ne; [done|]. intros ->. congruence.
Qed.

(** Counts stay far below 32 bits. *)
Lemma count_small B E X s f :
  kinv B E X s -> (size E <= 1024)%nat -> 0 <= Z.of_nat (multiplicity f (slots s ⊎ E)) < 2 ^ 31.
Proof.
  intros H HE. pose proof (slots_size s (ki_procs _ _ _ _ H)). pose proof (ki_size _ _ _ _ H).
  assert (multiplicity f (slots s ⊎ E) <= size (slots s ⊎ E))%nat.
  { apply multiplicity_size. }
  rewrite gmultiset_size_disj_union in *. unfold PROCS_MAX in *. lia.
Qed.

Lemma files_size B E X s : kinv B E X s -> (size (nodes s) <= size (slots s ⊎ E))%nat.
Proof.
  intros H. transitivity (size (list_to_set_disj (map_to_list (k_files s)).*1 : gmultiset Z)).
  - unfold nodes. generalize (map_to_list (k_files s)). intros l. induction l as [|[f x] l IH]; [done|].
    rewrite !fmap_cons. cbn [snd fst omap list_omap]. rewrite list_to_set_disj_cons, gmultiset_size_disj_union, gmultiset_size_singleton.
    destruct (f_node x);
      [rewrite list_to_set_disj_cons, gmultiset_size_disj_union, gmultiset_size_singleton|]; lia.
  - apply gmultiset_subseteq_size. intros f. pose proof (NoDup_fst_map_to_list (k_files s)) as Hnd.
    destruct (decide (f ∈ (map_to_list (k_files s)).*1)) as [Hin|Hin].
    + assert (multiplicity f (list_to_set_disj (map_to_list (k_files s)).*1 : gmultiset Z) <= 1)%nat as ->.
      { clear -Hnd. induction Hnd as [|a l Ha Hnd IH]; [rewrite list_to_set_disj_nil, multiplicity_empty; lia|].
        rewrite list_to_set_disj_cons, multiplicity_disj_union, multiplicity_singleton. case_decide as Hf; [|lia].
        subst a. rewrite (proj1 (not_elem_of_multiplicity f _)); [lia|]. by rewrite elem_of_list_to_set_disj. }
      apply list_elem_of_fmap in Hin as ([f' x] & -> & Hin). apply elem_of_map_to_list in Hin.
      destruct (ki_file _ _ _ _ H f' x Hin) as (_ & _ & _ & _ & Hel). rewrite elem_of_multiplicity in Hel. cbn [fst].
      lia.
    + rewrite (proj1 (not_elem_of_multiplicity f _)); [lia|]. by rewrite elem_of_list_to_set_disj.
Qed.

(** ** Steps on one part of the state *)

Definition same s s' : Prop := k_cur s' = k_cur s /\ k_procs s' = k_procs s.

Lemma same_slots s s' : k_procs s' = k_procs s -> slots s' = slots s.
Proof. unfold slots. by intros ->. Qed.

Lemma kinv_vfs B E X X' s v : kinv B E X s -> v_inv v (nodes s ⊎ X') -> kinv B E X' (set_vfs v s).
Proof. intros [] Hv. by constructor. Qed.

Lemma kinv_alloc B E X s l : kinv B E X s -> kinv B E X (set_alloc l s).
Proof. intros []. by constructor. Qed.

Lemma kinv_bufs B E X s g : kinv B E X s -> kinv (g B) E X (set_bufs g s).
Proof. intros []. constructor; try done. cbn. by f_equal. Qed.

Lemma kinv_zero B E X s : kinv B ({[+ 0 +]} ⊎ E) X s <-> kinv B E X s.
Proof.
  assert (Hm : forall f G, f <> 0 -> multiplicity f (G ⊎ ({[+ 0 +]} ⊎ E)) = multiplicity f (G ⊎ E)).
  { intros f G Hf. rewrite !multiplicity_disj_union, multiplicity_singleton_ne by done. lia. }
  assert (He : forall f G, f <> 0 -> f ∈ G ⊎ ({[+ 0 +]} ⊎ E) <-> f ∈ G ⊎ E).
  { intros f G Hf. rewrite !elem_of_multiplicity, Hm by done. done. }
  split; intros []; constructor; try done.
  - intros f x Hf. destruct (ki_file0 f x Hf) as (H0 & H1 & H2 & H3 & H4). rewrite Hm in H3 by done. rewrite He in H4 by done. auto.
  - intros f Hf H0. apply ki_live0; [by rewrite He|done].
  - intros f x Hf. destruct (ki_file0 f x Hf) as (H0 & H1 & H2 & H3 & H4). rewrite Hm by done. rewrite He by done. auto.
  - intros f Hf H0. apply ki_live0; [by rewrite He in Hf|done].
Qed.

Lemma kinv_zero_l B E X s : kinv B ({[+ 0 +]} ⊎ E) X s -> kinv B E X s.
Proof. apply kinv_zero. Qed.

Lemma wp_vfs {A} (g : vstate F -> option (vstate F * A)) B E X s Q :
  kinv B E X s -> keeps v_inv (nodes s ⊎ X) g (k_vfs s) ->
  (forall v a, g (k_vfs s) = Some (v, a) -> kinv B E X (set_vfs v s) -> Q a (set_vfs v s)) -> wp (vfs g) Q s.
Proof.
  intros H (v & a & Hg & Hv) HQ. unfold wp, vfs. rewrite Hg. sb. apply HQ; [done|]. by eapply kinv_vfs.
Qed.

Lemma wp_vget {A} (g : vstate F -> option A) a s Q : g (k_vfs s) = Some a -> Q a s -> wp (vget g) Q s.
Proof. intros Hg HQ. unfold wp, vget. by rewrite Hg. Qed.

Lemma wp_file_at f x s Q : k_files s !! f = Some x -> Q x s -> wp (file_at f) Q s.
Proof. intros Hf HQ. unfold wp, file_at. by rewrite Hf. Qed.

Lemma wp_upd_file f g x s Q :
  k_files s !! f = Some x -> Q tt (set_fmap (<[f := g x]>) s) -> wp (upd_file f g) Q s.
Proof. intros Hf HQ. unfold upd_file. wp_step. eapply wp_file_at; [done|]. by wp_step. Qed.

Lemma wp_buf_at a b s Q : k_bufs s !! a = Some b -> Q b s -> wp (buf_at a) Q s.
Proof. intros Hf HQ. unfold wp, buf_at. by rewrite Hf. Qed.

Lemma wp_cur_proc i k p s Q : k_cur s = Some (i, k) -> k_procs s !! i = Some p -> Q p s -> wp cur_proc Q s.
Proof. intros Hc Hp HQ. unfold wp, cur_proc. rewrite Hc. sb. by rewrite Hp. Qed.

Lemma wp_upd_cur g i k p s Q :
  k_cur s = Some (i, k) -> k_procs s !! i = Some p -> Q tt (set_procs (<[i := g p]>) s) -> wp (upd_proc g) Q s.
Proof.
  intros Hc Hp HQ. unfold upd_proc, cur_id. repeat wp_step. rewrite Hc. apply (wp_lift _ (i, k)); [done|]. wp_steps.
  eapply wp_cur_proc; [done..|]. by wp_steps.
Qed.

Lemma wp_kmalloc s Q :
  (forall a l, a = 0 \/ (k_files s !! a = None /\ k_bufs s !! a = None) -> Q a (set_alloc l s)) -> wp kmalloc Q s.
Proof.
  intros HQ. unfold wp, kmalloc. destruct (k_alloc s) as [|a l] eqn:E.
  - specialize (HQ 0 []). rewrite <- E in HQ. destruct s; cbn in *. subst. apply HQ. by left.
  - destruct (_ || _) eqn:H; apply HQ; [by left|]. right. apply orb_false_iff in H as [H1 H2].
    rewrite bool_decide_eq_false in H1, H2. by rewrite !eq_None_not_Some.
Qed.

Lemma wp_kfree B E X a b s Q :
  kinv B E X s -> B !! a = Some b -> 
  (kinv (delete a B) E X (set_bufs (delete a) s) -> Q tt (set_bufs (delete a) s)) -> a <> 0 -> wp (kfree a) Q s.
Proof.
  intros H Ha HQ H0. unfold kfree. rewrite (proj2 (Z.eqb_neq _ _)) by done. wp_step.
  eapply wp_buf_at; [by rewrite (ki_bufs _ _ _ _ H)|]. wp_step. by apply HQ, kinv_bufs.
Qed.

(** ** Open files *)

Lemma kinv_not_in B E X s f : kinv B E X s -> f <> 0 -> k_files s !! f = None -> multiplicity f (slots s ⊎ E) = 0%nat.
Proof.
  intros H H0 Hf. apply not_elem_of_multiplicity. intros Hin. destruct (ki_live _ _ _ _ H f Hin H0) as [x Hx]. congruence.
Qed.

Lemma kinv_new B E X s a x n v :
  kinv B E X s -> k_files s !! a = None -> a <> 0 -> f_node x = Some n -> f_refcount x = 1 -> is_u32 (f_offset x) ->
  v_inv v ({[+ n +]} ⊎ (nodes s ⊎ X)) ->
  kinv B ({[+ a +]} ⊎ E) X (set_vfs v (set_fmap (<[a := x]>) s)).
Proof.
  intros H Ha H0 Hn Hr Ho Hv. pose proof (kinv_not_in B E X s a H H0 Ha) as Hm.
  set (s' := set_vfs v (set_fmap (<[a := x]>) s)).
  assert (Hs : slots s' = slots s) by done. rewrite multiplicity_disj_union in Hm.
  constructor; rewrite ?Hs; try apply H.
  - intros f y Hf. cbn in Hf. destruct (decide (f = a)) as [->|Hne].
    + rewrite lookup_insert_eq in Hf. injection Hf as <-. split_and!; [done..|by exists n| |].
      * rewrite Hr, !multiplicity_disj_union, multiplicity_singleton_eq. lia.
      * multiset_solver.
    + rewrite lookup_insert_ne in Hf by done. destruct (ki_file _ _ _ _ H f y Hf) as (H1 & H2 & H3 & H4 & H5).
      split_and!; [done..| |multiset_solver]. rewrite H4, !multiplicity_disj_union, multiplicity_singleton_ne by done. lia.
  - intros f Hf Hf0. cbn. destruct (decide (f = a)) as [->|Hne]; [by rewrite lookup_insert_eq|].
    rewrite lookup_insert_ne by done. apply (ki_live _ _ _ _ H); [|done]. multiset_solver.
  - cbn [k_vfs s' set_vfs]. unfold nodes. cbn [k_files s' set_vfs set_fmap].
    rewrite (nodes_insert _ _ _ n) by done. by rewrite <- (assoc_L (⊎)).
Qed.

Lemma kinv_upd B E E' X s f x x' :
  kinv B E X s -> k_files s !! f = Some x -> f_node x' = f_node x -> is_u32 (f_offset x') ->
  (forall g, g <> f -> multiplicity g (slots s ⊎ E') = multiplicity g (slots s ⊎ E)) ->
  f_refcount x' = Z.of_nat (multiplicity f (slots s ⊎ E')) -> f ∈ slots s ⊎ E' ->
  kinv B E' X (set_fmap (<[f := x']>) s).
Proof.
  intros H Hf Hn Ho Hm Hr Hin. destruct (ki_file _ _ _ _ H f x Hf) as (H1 & _ & H3 & _ & _).
  assert (Hs : slots (set_fmap (<[f := x']>) s) = slots s) by done.
  constructor; rewrite ?Hs; try apply H.
  - intros g y Hg. cbn in Hg. destruct (decide (g = f)) as [->|Hne].
    + rewrite lookup_insert_eq in Hg. injection Hg as <-. split_and!; try done. by rewrite Hn.
    + rewrite lookup_insert_ne in Hg by done. rewrite elem_of_multiplicity, Hm, <- elem_of_multiplicity by done.
      by apply (ki_file _ _ _ _ H).
  - intros g Hg Hg0. cbn. destruct (decide (g = f)) as [->|Hne]; [by rewrite lookup_insert_eq|].
    rewrite lookup_insert_ne by done. apply (ki_live _ _ _ _ H); [|done].
    by rewrite elem_of_multiplicity, <- Hm, <- elem_of_multiplicity.
  - cbn [k_vfs set_fmap]. unfold nodes. cbn [k_files set_fmap]. rewrite (nodes_update _ _ x) by done. apply H.
Qed.

Lemma kinv_drop B E X s f x n v :
  kinv B ({[+ f +]} ⊎ E) X s -> k_files s !! f = Some x -> f_refcount x = 1 -> f_node x = Some n ->
  (forall O, nodes s ⊎ X = {[+ n +]} ⊎ O -> v_inv v O) -> kinv B E X (set_fmap (delete f) (set_vfs v s)).
Proof.
  intros H Hf Hr Hn Hv. destruct (ki_file _ _ _ _ H f x Hf) as (H1 & _ & _ & H4 & _).
  assert (Hs : slots (set_fmap (delete f) (set_vfs v s)) = slots s) by done.
  assert (Hno : multiplicity f (slots s ⊎ E) = 0%nat).
  { rewrite Hr, !multiplicity_disj_union, multiplicity_singleton_eq in H4. rewrite multiplicity_disj_union. lia. }
  constructor; rewrite ?Hs; try apply H.
  - intros g y Hg. cbn in Hg. apply lookup_delete_Some in Hg as [Hne Hg].
    destruct (ki_file _ _ _ _ H g y Hg) as (G1 & G2 & G3 & G4 & G5).
    split_and!; [done..| |multiset_solver]. rewrite G4, !multiplicity_disj_union, multiplicity_singleton_ne by done. lia.
  - intros g Hg Hg0. cbn. rewrite lookup_delete_ne.
    + apply (ki_live _ _ _ _ H); [|done]. multiset_solver.
    + intros <-. rewrite elem_of_multiplicity in Hg. lia.
  - apply Hv. unfold nodes at 1. rewrite (nodes_delete _ _ _ _ Hf Hn). by rewrite <- (assoc_L (⊎)).
Qed.

(** A file that is open can be looked at, and its node is open. *)
Lemma kinv_node B E X s f x n :
  kinv B E X s -> k_files s !! f = Some x -> f_node x = Some n -> n ∈ nodes s ⊎ X /\ valid (k_vfs s) n.
Proof.
  intros H Hf Hn. assert (n ∈ nodes s ⊎ X). { pose proof (nodes_in _ _ _ _ Hf Hn). unfold nodes. multiset_solver. }
  split; [done|]. by eapply c_held; [apply H|].
Qed.

Definition opens_ok X : Prop := Z.of_nat (size X) < 2 ^ 30.

Lemma opens_small B E X s :
  kinv B E X s -> (size E <= 1024)%nat -> opens_ok X -> Z.of_nat (size (nodes s ⊎ X)) < OPENS_MAX.
Proof.
  intros H HE HX. pose proof (files_size B E X s H) as Hn. pose proof (slots_size s (ki_procs _ _ _ _ H)).
  pose proof (ki_size _ _ _ _ H). rewrite gmultiset_size_disj_union in Hn. rewrite gmultiset_size_disj_union. unfold PROCS_MAX, opens_ok, OPENS_MAX in *.
  lia.
Qed.

Lemma file_alloc_ok B E X s n :
  kinv B E X s -> valid (k_vfs s) n -> (size E <= 1024)%nat -> opens_ok X ->
  wp (file_alloc ops (Some n)) (fun f s' => same s s' /\
    ((f = 0 /\ kinv B E X s') \/
     (f <> 0 /\ k_files s !! f = None /\ kinv B ({[+ f +]} ⊎ E) X s' /\ k_files s' = <[f := File (Some n) 0 0 0 1]> (k_files s)))) s.
Proof.
  intros H Hv HE HX. unfold file_alloc. wp_step. apply wp_kmalloc. intros a l Ha. case_if; b2p.
  { wp_steps. split; [done|]. left. split; [done|]. by apply kinv_alloc. }
  destruct Ha as [->|[Ha _]]; [done|]. wp_steps.
  pose proof (opens_small B E X s H HE HX) as Hsz.
  destruct (c_open (k_vfs s) (nodes s ⊎ X) n (ki_vfs _ _ _ _ H) Hv Hsz) as (v & Ho & Hi).
  unfold wp at 1, vfs_. cbn [k_vfs set_fmap set_alloc]. rewrite Ho. sb. wp_steps. split; [done|]. right.
  split; [done|]. split; [done|]. split; [|done].
  apply (kinv_new B E X (set_alloc l s) a (File (Some n) 0 0 0 1) n v); try done. by apply kinv_alloc.
Qed.

Lemma file_ref_ok B E X s f :
  kinv B E X s -> is_Some (k_files s !! f) -> (size E <= 1023)%nat ->
  wp (file_ref f) (fun r s' => r = f /\ same s s' /\ k_vfs s' = k_vfs s /\ kinv B ({[+ f +]} ⊎ E) X s' /\
    dom (k_files s') = dom (k_files s)) s.
Proof.
  intros H [x Hf] HE. destruct (ki_file _ _ _ _ H f x Hf) as (H1 & H2 & _ & H4 & H5).
  unfold file_ref. rewrite (proj2 (Z.eqb_neq _ _)) by done. wp_step. eapply wp_upd_file; [done|]. wp_steps.
  split_and!; try done; [|cbn; apply dom_insert_lookup_L; by rewrite Hf].
  pose proof (count_small B E X s f H ltac:(lia)). eapply kinv_upd; try done.
  - intros g Hg. rewrite !multiplicity_disj_union, multiplicity_singleton_ne by done. lia.
  - cbn [f_refcount set_count]. rewrite H4, !multiplicity_disj_union, multiplicity_singleton_eq.
    rewrite multiplicity_disj_union in *. word_lia.
  - multiset_solver.
Qed.

Lemma file_unref_ok B E X s f :
  kinv B ({[+ f +]} ⊎ E) X s -> f <> 0 -> (size E <= 1023)%nat ->
  wp (file_unref ops f) (fun _ s' => same s s' /\ kinv B E X s') s.
Proof.
  intros H Hf0 HE. assert (is_Some (k_files s !! f)) as [x Hf] by (apply (ki_live _ _ _ _ H); [multiset_solver|done]).
  destruct (ki_file _ _ _ _ H f x Hf) as (_ & H2 & [n Hn] & H4 & _).
  assert (Hc : 0 < f_refcount x < 2 ^ 31).
  { pose proof (count_small _ _ _ s f H) as Hc. rewrite gmultiset_size_disj_union, gmultiset_size_singleton in Hc.
    rewrite !multiplicity_disj_union, multiplicity_singleton_eq in *. lia. }
  unfold file_unref. rewrite (proj2 (Z.eqb_neq _ _)) by done. wp_step. eapply wp_file_at; [done|].
  rewrite (proj2 (Z.eqb_neq _ _)) by lia. wp_step. eapply wp_upd_file; [done|].
  replace (u32 (f_refcount x - 1)) with (f_refcount x - 1) by word_lia. case_if; b2p.
  - unfold file_free. rewrite (proj2 (Z.eqb_neq f 0)) by done. wp_step. wp_step.
    eapply wp_file_at; [cbn; apply lookup_insert_eq|]. wp_step. cbn [f_node set_count]. rewrite Hn.
    assert (HO : exists O, nodes s ⊎ X = {[+ n +]} ⊎ O).
    { unfold nodes. rewrite (nodes_delete _ _ _ _ Hf Hn). eexists. symmetry. apply (assoc_L (⊎)). }
    destruct HO as [O HO]. destruct (c_close (k_vfs s) O n) as (v & Hcl & Hi); [rewrite <- HO; apply H|].
    unfold wp at 1, vfs_. cbn [k_vfs set_fmap]. rewrite Hcl. sb. wp_steps. split; [done|].
    replace (set_fmap _ _) with (set_fmap (delete f) (set_vfs v s)).
    2: { unfold set_fmap, set_vfs. cbn. by rewrite delete_insert_eq. }
    apply (kinv_drop B E X s f x n v); try done; [lia|]. intros O' HO'. rewrite HO in HO'.
    apply (inj _) in HO'. by subst.
  - wp_steps. split; [done|]. eapply kinv_upd; try done.
    + intros g Hg. rewrite !multiplicity_disj_union, multiplicity_singleton_ne by done. lia.
    + cbn [f_refcount set_count]. rewrite !multiplicity_disj_union, multiplicity_singleton_eq in *. lia.
    + rewrite elem_of_multiplicity. rewrite !multiplicity_disj_union, multiplicity_singleton_eq in *. lia.
Qed.

(** ** Descriptor tables *)

(** The current process. *)
Definition running s i p : Prop := (exists k, k_cur s = Some (i, k)) /\ k_procs s !! i = Some p.

Lemma kinv_running B E X s : kinv B E X s -> k_cur s = None \/ exists i p, running s i p.
Proof.
  intros H. destruct (k_cur s) as [[i k]|] eqn:Hc; [right|by left].
  destruct (ki_cur _ _ _ _ H i k Hc) as [p Hp]. exists i, p. split; [by exists k|done].
Qed.

Lemma running_same s s' i p : same s s' -> running s i p -> running s' i p.
Proof. intros [Hc Hp] [[k Hk] Hi]. split; [exists k; congruence|congruence]. Qed.

Lemma run_cur_proc i p s Q : running s i p -> Q p s -> wp cur_proc Q s.
Proof. intros [[k Hk] Hp] HQ. by eapply wp_cur_proc. Qed.

Lemma run_upd_proc g i p s Q : running s i p -> Q tt (set_procs (<[i := g p]>) s) -> wp (upd_proc g) Q s.
Proof. intros [[k Hk] Hp] HQ. by eapply wp_upd_cur. Qed.

Lemma kinv_proc B E E' X s i p p' :
  kinv B E X s -> k_procs s !! i = Some p -> proc_ok p' ->
  list_to_set_disj (p_files p') ⊎ E' = list_to_set_disj (p_files p) ⊎ E ->
  kinv B E' X (set_procs (<[i := p']>) s).
Proof.
  intros H Hp Hok HE. set (s' := set_procs (<[i := p']>) s).
  assert (Hs : slots s' ⊎ E' = slots s ⊎ E).
  { pose proof (slots_insert (k_procs s) i p p' Hp) as Hi. change (slots s' ⊎ list_to_set_disj (p_files p) = slots s ⊎ list_to_set_disj (p_files p')) in Hi.
    apply (inj (.⊎ (list_to_set_disj (p_files p) : gmultiset Z))). multiset_solver. }
  constructor; rewrite ?Hs; try apply H.
  - intros j q Hj. cbn in Hj. destruct (decide (j = i)) as [->|Hne].
    + rewrite lookup_insert_eq in Hj. by injection Hj as <-.
    + rewrite lookup_insert_ne in Hj by done. by apply (ki_procs _ _ _ _ H j).
  - intros j k Hj. cbn. destruct (decide (j = i)) as [->|Hne]; [by rewrite lookup_insert_eq|].
    rewrite lookup_insert_ne by done. by apply (ki_cur _ _ _ _ H j k).
  - cbn. rewrite map_size_insert_Some by done. apply H.
Qed.

Lemma ld_files p j : proc_ok p -> 0 <= j < 256 -> exists f, ld (p_files p) j = Some f.
Proof. intros Hp Hj. apply ld_in. unfold zlen. rewrite (po_files p Hp). lia. Qed.

Lemma wp_slot i p j f s Q : running s i p -> ld (p_files p) j = Some f -> Q f s -> wp (slot j) Q s.
Proof. intros Hr Hf HQ. unfold slot. wp_step. eapply run_cur_proc; [done|]. by eapply wp_lift. Qed.

(** A descriptor refers to an open file or to nothing. *)
Lemma slot_live B E X s i p j f :
  kinv B E X s -> running s i p -> ld (p_files p) j = Some f -> f = 0 \/ is_Some (k_files s !! f).
Proof.
  intros H [_ Hp] Hf. destruct (decide (f = 0)) as [->|Hn]; [by left|right]. apply (ki_live _ _ _ _ H); [|done].
  apply gmultiset_elem_of_disj_union. left. pose proof (ld_Some_lt _ _ _ Hf). rewrite ld_nonneg in Hf by lia. by eapply slots_in.
Qed.

Lemma put_slot_ok B E X s i p j f g Q :
  kinv B ({[+ f +]} ⊎ E) X s -> running s i p -> ld (p_files p) j = Some g ->
  (forall p', running (set_procs (<[i := p']>) s) i p' -> p_cwd p' = p_cwd p -> p_umem p' = p_umem p ->
     p_files p' = <[Z.to_nat j := f]> (p_files p) ->
     kinv B ({[+ g +]} ⊎ E) X (set_procs (<[i := p']>) s) -> Q tt (set_procs (<[i := p']>) s)) ->
  wp (set_slot j f) Q s.
Proof.
  intros H Hr Hg HQ. pose proof Hr as [[k Hk] Hp]. pose proof (ki_procs _ _ _ _ H i p Hp) as Hok.
  pose proof (ld_Some_lt _ _ _ Hg) as Hj. unfold set_slot. wp_step. eapply run_cur_proc; [done|]. wp_step.
  eapply wp_lift; [by apply st_in|]. eapply run_upd_proc; [done|]. apply HQ; try done.
  - split; [by exists k|]. cbn. apply lookup_insert_eq.
  - eapply kinv_proc; [done..| |].
    + destruct Hok. constructor; [|done..]. cbn. by rewrite length_insert.
    + cbn [p_files set_files]. rewrite ld_nonneg in Hg by lia. pose proof (table_insert _ _ f g Hg). multiset_solver.
Qed.

Lemma free_slot_ok l i : match free_slot l i with
  | Some j => i <= j < i + zlen l /\ ld l (j - i) = Some 0 | None => True end.
Proof.
  revert i. induction l as [|f l IH]; intros i; cbn [free_slot]; [done|]. pose proof (zlen_nonneg l). rewrite zlen_cons.
  destruct (Z.eqb_spec f 0) as [->|Hf]; [rewrite Z.sub_diag; by split; [lia|]|].
  specialize (IH (i + 1)). destruct (free_slot l (i + 1)) as [j|]; [|done]. destruct IH as [Hj Hl]. split; [lia|].
  rewrite ld_nonneg in Hl |- * by lia. by replace (Z.to_nat (j - i)) with (S (Z.to_nat (j - (i + 1)))) by lia.
Qed.

Lemma find_slot_ok i p lo s Q :
  running s i p -> proc_ok p -> 0 <= lo < 256 ->
  (forall r, match r with Some j => lo <= j < 256 /\ ld (p_files p) j = Some 0 | None => True end -> Q r s) ->
  wp (find_slot lo) Q s.
Proof.
  intros Hr Hok Hlo HQ. unfold find_slot. wp_step. eapply run_cur_proc; [done|]. wp_steps. apply HQ.
  pose proof (free_slot_ok (drop (Z.to_nat lo) (p_files p)) lo) as Hf. destruct (free_slot _ _) as [j|]; [|done].
  destruct Hf as [Hj Hl]. unfold zlen in Hj. rewrite length_drop, (po_files p Hok) in Hj. split; [lia|].
  rewrite ld_nonneg in Hl |- * by lia. rewrite lookup_drop in Hl. rewrite <- Hl. f_equal. lia.
Qed.

(** ** User memory *)

Lemma user_load_mapped m n addr : mapped m -> exists l, user_load n m addr = Some l /\ length l = n.
Proof.
  intros Hm. revert addr. induction n as [|n IH]; intros addr; cbn [user_load]; [by exists []|].
  destruct (Hm (u32 addr)) as [c ->]. ob. destruct (IH (addr + 1)) as (l & -> & Hl). ob. exists (c :: l). cbn. auto.
Qed.

Lemma user_store_mapped m addr l : mapped m -> mapped (user_store m addr l).
Proof.
  revert m addr. induction l as [|b l IH]; intros m addr Hm; cbn [user_store]; [done|]. apply IH. intros a.
  case_if; [eauto|apply Hm].
Qed.

Lemma user_get_ok i p addr size s Q :
  running s i p -> proc_ok p -> 0 <= size -> (forall l, zlen l = size -> Q l s) -> wp (user_get addr size) Q s.
Proof.
  intros Hr Hok Hs HQ. unfold user_get. wp_step. eapply run_cur_proc; [done|].
  destruct (user_load_mapped (p_umem p) (Z.to_nat size) addr (po_mem p Hok)) as (l & Hl & Hz).
  eapply wp_lift; [done|]. apply HQ. unfold zlen. lia.
Qed.

Lemma user_copy_in_ok i p size src s Q :
  running s i p -> proc_ok p -> 0 <= size -> (forall a r, zlen a = size -> Q (a, r) s) -> wp (user_copy_in size src) Q s.
Proof.
  intros Hr Hok Hs HQ. unfold user_copy_in. wp_step. eapply run_cur_proc; [done|]. unfold copy_from_user.
  assert (Hz : zlen (replicate (Z.to_nat size) 0) = size) by (rewrite zlen_replicate; lia).
  destruct (validate_user_ptr src size =? 0); [eapply wp_lift; [done|]; by apply HQ|].
  destruct (user_load_mapped (p_umem p) (Z.to_nat size) src (po_mem p Hok)) as (l & Hl & Hn).
  eapply wp_lift.
  - rewrite Hl. sb. rewrite memcpy_ok by (unfold zlen in *; lia). by sb.
  - apply HQ. rewrite zlen_splice; rewrite ?zlen_slice; unfold zlen in *; lia.
Qed.

Lemma kinv_umem B E X s i p m :
  kinv B E X s -> running s i p -> mapped m -> kinv B E X (set_procs (<[i := set_umem m p]>) s).
Proof.
  intros H [_ Hp] Hm. eapply kinv_proc; [done..| |done]. destruct (ki_procs _ _ _ _ H i p Hp). by constructor.
Qed.

(** A step that changes only the memory of the current process. *)
Lemma user_put_ok B E X s i p addr l Q :
  kinv B E X s -> running s i p ->
  (forall p', running (set_procs (<[i := p']>) s) i p' -> p_files p' = p_files p ->
     kinv B E X (set_procs (<[i := p']>) s) -> Q tt (set_procs (<[i := p']>) s)) -> wp (user_put addr l) Q s.
Proof.
  intros H Hr HQ. pose proof Hr as [[k Hk] Hp]. unfold user_put. eapply run_upd_proc; [done|].
  pose proof (po_mem p (ki_procs _ _ _ _ H i p Hp)) as Hm. apply HQ; [|done|].
  - split; [by exists k|]. cbn. apply lookup_insert_eq.
  - eapply kinv_umem; [done..|]. by apply user_store_mapped.
Qed.

Lemma user_copy_out_ok B E X s i p dst src size Q :
  kinv B E X s -> running s i p -> 0 <= size <= zlen src ->
  (forall p' r, running (set_procs (<[i := p']>) s) i p' -> p_files p' = p_files p ->
     kinv B E X (set_procs (<[i := p']>) s) -> Q r (set_procs (<[i := p']>) s)) -> wp (user_copy_out dst src size) Q s.
Proof.
  intros H Hr Hs HQ. pose proof Hr as [[k Hk] Hp]. unfold user_copy_out. wp_step. eapply run_cur_proc; [done|]. wp_step.
  pose proof (po_mem p (ki_procs _ _ _ _ H i p Hp)) as Hm.
  assert (exists m r, copy_to_user (p_umem p) dst src size = Some (m, r) /\ mapped m) as (m & r & Hc & Hm').
  { unfold copy_to_user. case_if; [by eexists _, _|]. rewrite (proj2 (Z.leb_le _ _)) by lia. eexists _, _. split; [done|].
    by apply user_store_mapped. }
  eapply wp_lift; [done|]. cbv beta iota. wp_step. eapply run_upd_proc; [done|]. wp_steps. apply HQ; [|done|by eapply kinv_umem].
  split; [by exists k|]. cbn. apply lookup_insert_eq.
Qed.

Lemma word_ok a i s Q : 0 <= 4 * i -> 4 * i + 4 <= zlen a -> (forall w, is_u32 w -> Q w s) -> wp (word a i) Q s.
Proof.
  intros Hi Ha HQ. unfold word. wp_step. unfold ld32.
  destruct (ld_in a (4 * i)) as [b0 H0]; [lia|]. destruct (ld_in a (4 * i + 1)) as [b1 H1]; [lia|].
  destruct (ld_in a (4 * i + 2)) as [b2 H2]; [lia|]. destruct (ld_in a (4 * i + 3)) as [b3 H3]; [lia|].
  eapply wp_lift; [rewrite H0, H1, H2, H3; by ob|]. wp_steps. apply HQ, u32_range.
Qed.

Lemma cstr_of_zero (b : mem) : 0 ∈ b -> exists t, cstr b t.
Proof.
  induction b as [|c b IH]; intros Hin; [set_solver|]. destruct (decide (c = 0)) as [->|Hc].
  { exists []. split; [by exists b|done]. }
  destruct IH as [t [[r ->] Ht]]; [set_solver|]. exists (c :: t). split; [by exists r|]. by constructor.
Qed.

(** A name from user space is a string in a buffer of its own. *)
Lemma copy_path_ok B E X s i p u Q :
  kinv B E X s -> running s i p ->
  (forall l, kinv B E X (set_alloc l s) -> Q 0 (set_alloc l s)) ->
  (forall l a nm t, a <> 0 -> B !! a = None -> cstr nm t ->
     kinv (<[a := nm]> B) E X (set_bufs (<[a := nm]>) (set_alloc l s)) -> Q a (set_bufs (<[a := nm]>) (set_alloc l s))) ->
  wp (copy_path_from_user u) Q s.
Proof.
  intros H Hr H0 H1. pose proof Hr as [_ Hp]. pose proof (po_mem p (ki_procs _ _ _ _ H i p Hp)) as Hm.
  assert (Hs : s = set_alloc (k_alloc s) s) by by destruct s.
  unfold copy_path_from_user. wp_step. eapply run_cur_proc; [done|]. wp_step.
  assert (exists v, validate_user_str (p_umem p) u = Some v) as [v Hv].
  { unfold validate_user_str. case_ifs; eauto. by apply user_str_loop_total. }
  eapply wp_lift; [done|]. case_if; [wp_steps; rewrite Hs; apply H0; by rewrite <- Hs|]. wp_step.
  apply wp_kmalloc. intros a l Ha. wp_step.
  destruct (copy_path_from_user_race (negb (a =? 0)) (p_umem p) (p_umem p) (p_umem p) u Hm Hm Hm) as (r & Hc & Hb).
  eapply wp_lift; [done|]. destruct Hb as [->|(nm & -> & Hz & Hl)]; [wp_steps; apply H0; by apply kinv_alloc|]. wp_steps.
  destruct (decide (a = 0)) as [->|Hne].
  { exfalso. unfold Validate.copy_path_from_user in Hc. change (negb (0 =? 0)) with false in Hc.
    rewrite Hv in Hc. cbn [mbind option_bind] in Hc. destruct (v =? 0); [done|]. by destruct (path_len _ _ _ _). }
  destruct (cstr_of_zero nm) as [t Ht].
  { rewrite ld_nonneg in Hl by lia. by eapply list_elem_of_lookup_2. }
  destruct Ha as [->|[_ Ha]]; [done|]. rewrite (ki_bufs _ _ _ _ H) in Ha.
  apply (H1 l a nm t); try done. apply kinv_bufs. by apply kinv_alloc.
Qed.
End Inv.
