(* ===== verification/FdCalls.v ===== *)
(** * The descriptor calls keep the books

    Every call of [Fd.v] returns and keeps the invariant of [FdSpec.v]: the
    counts of open files, the nodes they keep open, and no buffer left
    behind.  [FdTrace.v] puts the calls together. *)
From stdpp Require Import gmultiset.
From S2P Require Import Prelude StateM Klib Validate VfsPath Vfs VfsSpec Fd FdSpec.

#[local] Open Scope Z_scope.

Section Calls.
Context {F : Type} {ops : Z -> vops F} {sv : services F} `{VC : !VfsContract ops sv}.
#[local] Abbreviation KM := (M (kst F)).
Implicit Types (s : kst F) (B : gmap Z mem) (E : gmultiset Z) (X : gmultiset nptr).

(** What a call leaves. *)
Definition done_with B E X s {A} : A -> kst F -> Prop := fun _ s' => k_cur s' = k_cur s /\ kinv B E X s'.

Lemma running_cur s s' i p :
  running s i p -> k_cur s' = k_cur s -> forall B E X, kinv B E X s' -> exists p', running s' i p'.
Proof.
  intros [[k Hk] _] Hc B E X H. rewrite <- Hc in Hk. destruct (ki_cur _ _ _ _ H i k Hk) as [p' Hp']. exists p'.
  split; [by exists k|done].
Qed.

Lemma running_ok B E X s i p : kinv B E X s -> running s i p -> proc_ok p.
Proof. intros H [_ Hp]. by apply (ki_procs _ _ _ _ H i). Qed.

Lemma running_set s i p p' : running s i p -> running (set_procs (<[i := p']>) s) i p'.
Proof. intros [[k Hk] _]. split; [by exists k|]. cbn. apply lookup_insert_eq. Qed.

(** [vfs_check_perm] only looks. *)
Lemma check_perm_ok B E X s n perm Q :
  kinv B E X s -> valid (k_vfs s) n -> (forall r, Q r s) -> wp (check_perm n perm) Q s.
Proof.
  intros H [nd Hn] HQ. unfold check_perm. wp_step. eapply wp_vget; [done|]. wp_step. wp_step.
  destruct (kinv_running _ _ _ _ H) as [->|(i & p & Hr)]; [by wp_steps|]. pose proof Hr as [[k Hk] _]. rewrite Hk.
  wp_step. wp_step. eapply run_cur_proc; [done|]. by wp_steps.
Qed.

Lemma get_file_ok B E X s fd Q :
  kinv B E X s -> Q 0 s ->
  (forall i p f, running s i p -> 0 <= fd < 256 -> ld (p_files p) fd = Some f -> f <> 0 -> is_Some (k_files s !! f) -> Q f s) ->
  wp (_get_file fd) Q s.
Proof.
  intros H H0 H1. unfold _get_file. wp_step. wp_step.
  destruct (kinv_running _ _ _ _ H) as [->|(i & p & Hr)]; [by wp_steps|]. pose proof Hr as [[k Hk] _]. rewrite Hk.
  unfold MAX_FD. destruct (_ || _) eqn:Hb; [by wp_steps|]. b2p.
  destruct (ld_files p fd (running_ok _ _ _ _ _ _ H Hr)) as [f Hf]; [lia|]. eapply wp_slot; [done..|].
  destruct (decide (f = 0)) as [->|Hne]; [done|]. destruct (slot_live _ _ _ _ _ _ _ _ H Hr Hf) as [->|Hl]; [done|].
  by apply (H1 i p f); [|lia|..].
Qed.

Lemma file_node_ok B E X s f Q :
  kinv B E X s -> (f = 0 -> Q None s) ->
  (forall x n, k_files s !! f = Some x -> f_node x = Some n -> is_u32 (f_offset x) -> n ∈ nodes s ⊎ X ->
     valid (k_vfs s) n -> Q (Some (x, n)) s) ->
  f = 0 \/ is_Some (k_files s !! f) -> wp (file_node f) Q s.
Proof.
  intros H H0 H1 Hf. unfold file_node. destruct (Z.eqb_spec f 0) as [->|Hne]; [wp_steps; by apply H0|].
  destruct Hf as [->|[x Hx]]; [done|]. wp_step. eapply wp_file_at; [done|]. wp_steps.
  destruct (ki_file _ _ _ _ H f x Hx) as (_ & Ho & [n Hn] & _). destruct (kinv_node _ _ _ _ _ _ _ H Hx Hn) as [Hin Hv].
  rewrite Hn. by apply H1.
Qed.

(** A change of an open file that keeps its node and its count. *)
Lemma upd_file_ok B E X s f x g Q :
  kinv B E X s -> k_files s !! f = Some x -> f_node (g x) = f_node x -> f_refcount (g x) = f_refcount x ->
  is_u32 (f_offset (g x)) -> (kinv B E X (set_fmap (<[f := g x]>) s) -> Q tt (set_fmap (<[f := g x]>) s)) ->
  wp (upd_file f g) Q s.
Proof.
  intros H Hf Hn Hr Ho HQ. eapply wp_upd_file; [done|]. apply HQ.
  destruct (ki_file _ _ _ _ H f x Hf) as (_ & _ & _ & H4 & H5). eapply kinv_upd; try done. by rewrite Hr.
Qed.

(** ** sys_close, sys_dup, sys_fcntl, sys_dup2 *)

Lemma close_call B X s fd : kinv B ∅ X s -> wp (sys_close ops fd) (done_with B ∅ X s) s.
Proof.
  intros H. unfold sys_close. wp_step. eapply get_file_ok; [done|by wp_steps|].
  intros i p f Hr Hfd Hf Hne Hl. rewrite (proj2 (Z.eqb_neq _ _)) by done. wp_step.
  eapply (put_slot_ok B ∅); [by apply kinv_zero|done..|]. intros p' Hr' _ _ _ H'. wp_step.
  eapply wp_mono; [apply (file_unref_ok B ∅); [done..|rewrite gmultiset_size_empty; lia]|].
  intros _ s' [[Hc _] Hs']. wp_steps. done.
Qed.

Lemma size_le_1023 : (size (∅ : gmultiset Z) <= 1023)%nat.
Proof. rewrite gmultiset_size_empty. lia. Qed.

(** A second descriptor for an open file, in a free slot. *)
Lemma dup_slot_ok B X s i p f j (r : Z) :
  kinv B ∅ X s -> running s i p -> is_Some (k_files s !! f) -> ld (p_files p) j = Some 0 ->
  wp (g ← file_ref f; set_slot j g ;; mret r) (done_with B ∅ X s) s.
Proof.
  intros H Hr Hf Hj. wp_step. eapply wp_mono; [apply (file_ref_ok B ∅ X s f H Hf), size_le_1023|].
  intros g s1 (-> & Hsame & _ & H1 & _). wp_step.
  eapply put_slot_ok; [exact H1|by eapply running_same|exact Hj|]. intros p' _ _ _ _ H2%kinv_zero_l. wp_steps.
  split; [apply Hsame|done].
Qed.

Lemma dup_call B X s fd : kinv B ∅ X s -> wp (sys_dup fd) (done_with B ∅ X s) s.
Proof.
  intros H. unfold sys_dup. wp_step. eapply get_file_ok; [done|by wp_steps|].
  intros i p f Hr Hfd Hf Hne Hl. rewrite (proj2 (Z.eqb_neq _ _)) by done. wp_step.
  eapply find_slot_ok; [done|by eapply running_ok|lia|]. intros [j|] Hj; [|by wp_steps]. eapply dup_slot_ok; [done..|apply Hj].
Qed.

Lemma fcntl_call B X s fd cmd arg : kinv B ∅ X s -> wp (sys_fcntl fd cmd arg) (done_with B ∅ X s) s.
Proof.
  intros H. unfold sys_fcntl, MAX_FD. wp_step. eapply get_file_ok; [done|by wp_steps|].
  intros i p f Hr Hfd Hf Hne [x Hx]. rewrite (proj2 (Z.eqb_neq _ _)) by done. case_if.
  { destruct (_ || _) eqn:Hb; [by wp_steps|]. b2p. wp_step.
    eapply find_slot_ok; [done|by eapply running_ok|lia|]. intros [j|] Hj; [|by wp_steps]. eapply dup_slot_ok; [done|done|by exists x|apply Hj]. }
  destruct (ki_file _ _ _ _ H f x Hx) as (_ & Ho & _).
  case_if; [wp_step; eapply wp_file_at; [done|]; by wp_steps|].
  case_if; [wp_step; eapply upd_file_ok; [done..|]; intros H1; by wp_steps|].
  case_if; [wp_step; eapply wp_file_at; [done|]; by wp_steps|].
  case_if; [wp_step; eapply upd_file_ok; [done..|]; intros H1; by wp_steps|]. by wp_steps.
Qed.

Lemma replace_slot_ok B X s i p f j :
  kinv B ∅ X s -> running s i p -> is_Some (k_files s !! f) -> 0 <= j < 256 ->
  wp (replace_slot ops f j) (done_with B ∅ X s) s.
Proof.
  intros H Hr Hf Hj. unfold replace_slot. wp_step. eapply wp_mono; [apply (file_ref_ok B ∅ X s f H Hf), size_le_1023|].
  intros g s1 (-> & Hsame & _ & H1 & _). pose proof (running_same _ _ _ _ Hsame Hr) as Hr1. wp_step.
  destruct (ld_files p j (running_ok _ _ _ _ _ _ H Hr)) as [old Ho]; [done|]. eapply wp_slot; [done..|]. wp_step.
  eapply put_slot_ok; [exact H1|exact Hr1|exact Ho|]. intros p' _ _ _ _ H2. case_if; b2p.
  { subst old. wp_steps. split; [apply Hsame|by apply kinv_zero_l]. }
  wp_step. wp_step. eapply wp_mono; [apply (file_unref_ok B ∅); [done..|apply size_le_1023]|].
  intros _ s' [[Hc _] Hs']. wp_steps. split; [|done]. rewrite Hc. apply Hsame.
Qed.

Lemma dup2_call B X s fd newfd : kinv B ∅ X s -> 0 <= newfd < 256 -> wp (sys_dup2 ops fd newfd) (done_with B ∅ X s) s.
Proof.
  intros H Hn. unfold sys_dup2. wp_step. eapply get_file_ok; [done|by wp_steps|].
  intros i p f Hr Hfd Hf Hne Hl. rewrite (proj2 (Z.eqb_neq _ _)) by done. case_if; [by wp_steps|]. by eapply replace_slot_ok.
Qed.

(** ** Opening *)

Lemma open_node_ok B X s i p err n flags :
  kinv B ∅ X s -> running s i p -> valid (k_vfs s) n -> opens_ok X ->
  wp (open_node ops err n flags) (done_with B ∅ X s) s.
Proof.
  intros H Hr Hv HX. unfold open_node. wp_step. eapply check_perm_ok; [done..|]. intros r. case_if; [by wp_steps|]. wp_step.
  eapply wp_mono; [apply (file_alloc_ok B ∅ X s n H Hv); [pose proof size_le_1023; lia|done]|].
  intros f s1 (Hsame & [[-> H1]|(Hf & _ & H1 & Hfs)]); [wp_steps; split; [apply Hsame|done]|].
  rewrite (proj2 (Z.eqb_neq _ _)) by done. pose proof (running_same _ _ _ _ Hsame Hr) as Hr1. wp_step.
  eapply upd_file_ok; [done|rewrite Hfs; apply lookup_insert_eq|done..|]. intros H2. wp_step.
  eapply find_slot_ok; [exact Hr1|by eapply running_ok|lia|].
  assert (Hdrop : forall s2 (e : Z), kinv B ({[+ f +]} ⊎ ∅) X s2 -> k_cur s2 = k_cur s1 ->
    wp (file_unref ops f ;; mret e) (done_with B ∅ X s) s2).
  { intros s2 e H3 Hc. wp_step. eapply wp_mono; [apply (file_unref_ok B ∅); [done..|apply size_le_1023]|].
    intros _ s' [[Hc' _] Hs']. wp_steps. split; [|done]. rewrite Hc', Hc. apply Hsame. }
  intros [j|] Hj; [|by apply Hdrop]. destruct Hj as [Hj Hz]. wp_step.
  eapply put_slot_ok; [exact H2|exact Hr1|exact Hz|]. intros p' Hr' _ _ Hp' H3%kinv_zero_l.
  case_if; [|wp_steps; split; [apply Hsame|done]]. wp_step.
  assert (Hn : valid (k_vfs s1) n).
  { eapply (kinv_node _ _ _ s1 f); [exact H1|rewrite Hfs; apply lookup_insert_eq|done]. }
  eapply wp_vfs; [exact H3|by eapply c_truncate; [apply H3|]|]. intros v a _ H4. case_if; [|wp_steps; split; [apply Hsame|done]].
  wp_step. eapply (put_slot_ok B ∅); [by apply kinv_zero|exact Hr'|rewrite Hp'|].
  { rewrite ld_nonneg by lia. apply list_lookup_insert_eq. pose proof (ld_Some_lt _ _ _ Hz). unfold zlen in *. lia. }
  intros p2 _ _ _ _ H5. by apply Hdrop.
Qed.

Lemma open_lookup_ok B E X s i p nm t flags Q :
  kinv B E X s -> running s i p -> cstr nm t ->
  (forall v r, kinv B E X (set_vfs v s) -> valid_opt v r -> Q r (set_vfs v s)) -> wp (open_lookup ops nm flags) Q s.
Proof.
  intros H Hr Ht HQ. destruct (running_ok _ _ _ _ _ _ H Hr) as [_ (w & Hw & Hroot) _]. unfold open_lookup.
  wp_step. eapply run_cur_proc; [done|]. wp_step.
  destruct (c_resolve (k_vfs s) _ (p_cwd p) w nm t (ki_vfs _ _ _ _ H) Hw Hroot Ht) as (v1 & r1 & E1 & I1 & V1).
  eapply wp_vfs; [done|by eexists _, _|]. intros v r Hvr H1. rewrite E1 in Hvr. injection Hvr as <- <-.
  destruct r1 as [n|]; [wp_steps; by apply HQ|]. case_if; [wp_steps; by apply HQ|]. wp_step.
  destruct (c_parent v1 _ (p_cwd p) w nm t (ki_vfs _ _ _ _ H1) Hw Hroot Ht) as (v2 & b & g & r2 & E2 & I2 & V2 & Hb).
  eapply wp_vfs; [done|eexists _, _; split; [cbn [k_vfs set_vfs]; rewrite E2; by sb|done]|].
  intros v r Hvr H2. cbn [k_vfs set_vfs] in Hvr. rewrite E2 in Hvr. cbn [mbind option_bind] in Hvr. injection Hvr as <- <-.
  wp_step. destruct (cstr_ld0 _ _ Hb) as [c0 Hc0]. eapply wp_lift; [done|].
  destruct r2 as [par|]; [|wp_steps; by apply (HQ v2)]. case_if; [wp_steps; by apply (HQ v2)|]. wp_step.
  eapply check_perm_ok; [exact H2|done|]. intros r. case_if; [wp_steps; by apply (HQ v2)|]. wp_step.
  eapply wp_vfs; [exact H2|by eapply c_create; [apply H2|done|]|]. intros v3 r3 _ H3. case_if; [wp_steps; by apply (HQ v3)|].
  destruct (c_resolve v3 _ (p_cwd p) w nm t (ki_vfs _ _ _ _ H3) Hw Hroot Ht) as (v4 & r4 & E4 & I4 & V4).
  eapply wp_vfs; [exact H3|by eexists _, _|]. intros v r' Hvr H4. cbn [k_vfs set_vfs] in Hvr. rewrite E4 in Hvr. injection Hvr as <- <-.
  by apply (HQ v4).
Qed.

(** Giving a name's buffer back restores the buffers. *)
Lemma kfree_done B E X s0 s a nm (r : Z) :
  kinv (<[a := nm]> B) E X s -> a <> 0 -> B !! a = None -> k_cur s = k_cur s0 ->
  wp (kfree a ;; mret r) (done_with B E X s0) s.
Proof.
  intros H Ha HB Hc. wp_step. eapply wp_kfree; [done|apply lookup_insert_eq| |done]. rewrite delete_insert_id by done.
  intros H'. by wp_steps.
Qed.

Lemma open_call B X s name flags : kinv B ∅ X s -> opens_ok X -> wp (sys_open ops name flags) (done_with B ∅ X s) s.
Proof.
  intros H HX. unfold sys_open. wp_step. wp_step.
  destruct (kinv_running _ _ _ _ H) as [->|(i & p & Hr)]; [by wp_steps|]. pose proof Hr as [[k Hk] _]. rewrite Hk. wp_step.
  eapply copy_path_ok; [done..|by intros l Hl; wp_steps|]. intros l a nm t Ha HB Ht H1.
  rewrite (proj2 (Z.eqb_neq _ _)) by done. wp_step. eapply wp_buf_at; [cbn; apply lookup_insert_eq|]. wp_step.
  eapply open_lookup_ok; [exact H1|by apply (running_same s)|done|]. intros v [n|] H2 Hv; [|by eapply kfree_done].
  wp_step. eapply wp_mono; [eapply open_node_ok; [exact H2|by apply (running_same s)|done..]|].
  intros r s2 [Hc H3]. by eapply kfree_done.
Qed.

(** ** Reading, writing and seeking *)

Lemma with_node_ok B E X s0 s f err k :
  kinv B E X s -> f = 0 \/ is_Some (k_files s !! f) -> k_cur s = k_cur s0 ->
  (forall x n, k_files s !! f = Some x -> f_node x = Some n -> is_u32 (f_offset x) -> n ∈ nodes s ⊎ X ->
     valid (k_vfs s) n -> wp (k x n) (done_with B E X s0) s) ->
  wp (with_node err f k) (done_with B E X s0) s.
Proof.
  intros H Hf Hc Hk. unfold with_node. wp_step. eapply file_node_ok; [done|intros _; by wp_steps| |done].
  intros x n Hx Hn Ho Hin Hv. by apply Hk.
Qed.

Lemma with_node_0 err k Q s : Q err s -> wp (with_node err 0 k) Q s.
Proof. done. Qed.

(** Advancing the offset by what was transferred. *)
Lemma advance_ok B E X s0 s f x ret (r : Z) :
  kinv B E X s -> k_files s !! f = Some x -> k_cur s = k_cur s0 ->
  wp ((if 0 <? ret then upd_file f (fun x => set_offset (u32 (f_offset x + ret)) x) else skip) ;; mret r)
    (done_with B E X s0) s.
Proof.
  intros H Hf Hc. case_if; [|by wp_steps]. wp_step. eapply upd_file_ok; [done..|apply u32_range|]. intros H1. by wp_steps.
Qed.

Lemma read_call B X s fd buf size :
  kinv B ∅ X s -> is_u32 size -> wp (sys_read ops fd buf size) (done_with B ∅ X s) s.
Proof.
  intros H Hsz. unfold sys_read. case_if; [by wp_steps|]. case_if; [by wp_steps|]. wp_step.
  eapply get_file_ok; [done|by apply with_node_0|]. intros i p f Hr Hfd Hf Hne Hl.
  eapply with_node_ok; [done|by right|done|]. intros x n Hx Hn Ho Hin Hv. wp_step.
  eapply user_get_ok; [done|by eapply running_ok|unfold is_u32 in *; lia|]. intros b Hb. wp_step. rewrite <- Hb in *.
  destruct (c_read (k_vfs s) _ n (f_offset x) b (ki_vfs _ _ _ _ H) Hin Ho Hsz) as (v & b' & r & E1 & I1 & Hb').
  eapply wp_vfs; [done|eexists _, _; split; [rewrite E1; by sb|done]|]. intros v1 br Hv1 H1.
  rewrite E1 in Hv1. cbn [mbind option_bind] in Hv1. injection Hv1 as <- <-. wp_step.
  eapply user_put_ok; [exact H1|by apply (running_same s)|]. intros p' _ _ H2. by eapply advance_ok.
Qed.

(** Writes are made inside the limit of the file system. *)
Definition write_fits s fd size : Prop :=
  forall i p f x, running s i p -> ld (p_files p) fd = Some f -> k_files s !! f = Some x -> f_offset x + size <= v_limit.

Lemma write_call B X s fd buf size :
  kinv B ∅ X s -> is_u32 size -> write_fits s fd size -> wp (sys_write ops fd buf size) (done_with B ∅ X s) s.
Proof.
  intros H Hsz Hfit. unfold sys_write. case_if; [by wp_steps|]. case_if; [by wp_steps|]. wp_step.
  eapply get_file_ok; [done|by apply with_node_0|]. intros i p f Hr Hfd Hf Hne Hl.
  eapply with_node_ok; [done|by right|done|]. intros x n Hx Hn Ho Hin Hv. wp_step.
  eapply user_get_ok; [done|by eapply running_ok|unfold is_u32 in *; lia|]. intros b Hb. wp_step. rewrite <- Hb in *.
  eapply wp_vfs; [done|apply (c_write (k_vfs s) _ n (f_offset x) b (ki_vfs _ _ _ _ H) Hin Ho Hsz); by eapply Hfit|].
  intros v ret _ H1. by eapply advance_ok.
Qed.

Lemma seek_ok B E X s bad f x n off wh :
  kinv B E X s -> k_files s !! f = Some x -> valid (k_vfs s) n ->
  wp (seek ops bad f x n off wh) (done_with B E X s) s.
Proof.
  intros H Hf [nd Hn]. unfold seek. wp_step. eapply wp_vget; [done|]. destruct (method ops op_lseek nd) as [m|] eqn:Hm.
  - wp_step. destruct (c_lseek (k_vfs s) _ n nd m off wh (ki_vfs _ _ _ _ H) Hn Hm) as (new & r & E1 & Hu).
    eapply wp_vget; [done|]. cbv beta iota. case_if; [|by wp_steps]. wp_step. eapply upd_file_ok; [done..|]. intros H1. by wp_steps.
  - destruct (seek_default x (v_size nd) off wh) as [new|] eqn:Hs; [|by wp_steps].
    assert (is_u32 new).
    { unfold seek_default in Hs. repeat case_match; simplify_eq; apply u32_range. }
    wp_step. eapply upd_file_ok; [done..|]. intros H1. by wp_steps.
Qed.

Lemma lseek_call B X s fd off wh : kinv B ∅ X s -> wp (sys_lseek ops fd off wh) (done_with B ∅ X s) s.
Proof.
  intros H. unfold sys_lseek. wp_step. eapply get_file_ok; [done|by apply with_node_0|].
  intros i p f Hr Hfd Hf Hne Hl. eapply with_node_ok; [done|by right|done|]. intros x n Hx _ _ _ Hv. by apply seek_ok.
Qed.

(** ** ioctl on any descriptor *)

Lemma with_arg_ok s0 B E X s i p size arg k :
  kinv B E X s -> running s i p -> 0 <= size -> k_cur s = k_cur s0 ->
  (forall a, zlen a = size -> wp (k a) (done_with B E X s0) s) -> wp (with_arg size arg k) (done_with B E X s0) s.
Proof.
  intros H Hr Hs Hc Hk. unfold with_arg. case_if; [by wp_steps|]. wp_step.
  eapply user_copy_in_ok; [done|by eapply running_ok|done|]. intros a r Ha. cbv beta iota. case_if; [by wp_steps|by apply Hk].
Qed.

Lemma stat_user_ok s0 B E X s i p n buf :
  kinv B E X s -> running s i p -> valid (k_vfs s) n -> k_cur s = k_cur s0 ->
  wp (stat_user ops n buf) (done_with B E X s0) s.
Proof.
  intros H Hr Hv Hc. unfold stat_user. wp_step. eapply user_get_ok; [done|by eapply running_ok|lia|]. intros b Hb. wp_step.
  eapply word_ok; [lia..|]. intros w0 _. wp_step. eapply word_ok; [lia..|]. intros w1 _. wp_step.
  eapply word_ok; [lia..|]. intros w2 _. wp_step. eapply word_ok; [lia..|]. intros w3 _. wp_step.
  destruct (c_stat (k_vfs s) _ n [w0; w1; w2; w3] (ki_vfs _ _ _ _ H) Hv) as (ws & r & E1); [done|].
  eapply wp_vget; [done|]. cbv beta iota. wp_step. eapply wp_lift; [done|]. wp_step.
  eapply user_put_ok; [done..|]. intros p' _ _ H1. by wp_steps.
Qed.

Lemma readdir_ok B E X s d i Q :
  kinv B E X s -> valid (k_vfs s) d -> Q None s ->
  (forall v r, kinv B E X (set_vfs v s) -> match r with Some (nm, _) => exists g, cstr nm g | None => True end -> Q r (set_vfs v s)) ->
  wp (readdir_vfs sv d i) Q s.
Proof.
  intros H [n Hn] H0 H1. unfold readdir_vfs. wp_step. eapply wp_vget; [done|]. case_if; [by wp_steps|]. case_if; [by wp_steps|].
  destruct (op_readdir sv (v_ops n)) as [m|] eqn:Hm; [|by wp_steps].
  destruct (c_readdir (k_vfs s) _ d n m i (ki_vfs _ _ _ _ H) Hn Hm) as (v & r & E1 & I1 & Hr).
  eapply wp_vfs; [done|by eexists _, _|]. intros v1 r1 Hv H2. rewrite E1 in Hv. injection Hv as <- <-. by apply H1.
Qed.

Lemma dirent_name_ok nm g local :
  cstr nm g -> zlen local = 124 -> exists l, dirent_name nm local = Some l /\ zlen l = 124.
Proof.
  intros Hg Hl. unfold dirent_name. rewrite (copy_while_ok nm g 0 123 _ Hg) by lia. sb.
  pose proof (zlen_nonneg g). set (k := Z.min (zlen g) (Z.max 0 (123 - 0))).
  assert (Hk : 0 <= k <= 123) by lia.
  assert (Hz : zlen (splice 0 (take (Z.to_nat k) g) local) = 124).
  { rewrite zlen_splice; [done|lia|unfold zlen in *; rewrite length_take; lia]. }
  rewrite st_in by lia. eexists. split; [done|]. by rewrite zlen_insert.
Qed.

Lemma le32_len w : zlen (le32 w) = 4.
Proof. done. Qed.

(** The loop ends before its fuel does: each round takes 128 bytes of the
    buffer. *)
Lemma getdents_loop_ok B E X d buf count : forall fuel s i p written index local,
  kinv B E X s -> running s i p -> d ∈ nodes s ⊎ X -> 0 <= written <= count -> count + 128 < 2 ^ 32 ->
  count < written + 128 * Z.of_nat fuel -> zlen local = 124 -> is_u32 index ->
  wp (getdents_loop sv fuel d buf count written index local)
    (fun r s' => k_cur s' = k_cur s /\ k_files s' = k_files s /\ kinv B E X s' /\ is_u32 r.2) s.
Proof.
  induction fuel as [|fuel IH]; intros s i p written index local H Hr Hd Hw Hc Hf Hl Hi; [lia|]. cbn [getdents_loop].
  case_if; [|by wp_steps]. b2p. wp_step. pose proof (c_held _ _ _ (ki_vfs _ _ _ _ H) Hd) as Hv.
  eapply readdir_ok; [done..|by wp_steps|]. intros v [[nm ino]|] H1 Hnm; [|by wp_steps]. destruct Hnm as [g Hg].
  destruct (dirent_name_ok nm g local Hg Hl) as (l & El & Hzl). wp_step. eapply wp_lift; [done|]. wp_step.
  eapply user_copy_out_ok; [exact H1|by apply (running_same s)| |].
  { rewrite zlen_app, le32_len. lia. }
  intros p' r Hr' _ H2. case_if; [by wp_steps|].
  replace (u32 (written + 128)) with (written + 128) in * by word_lia.
  eapply wp_mono; [apply (IH _ i p'); [exact H2|exact Hr'|exact Hd|lia|lia|lia|done|apply u32_range]|]. done.
Qed.

Lemma getdents_ok B X s i p f x n stack arg :
  kinv B ∅ X s -> running s i p -> k_files s !! f = Some x -> is_u32 (f_offset x) -> n ∈ nodes s ⊎ X -> zlen stack = 124 ->
  wp (fdctl_getdents sv stack f x n arg) (done_with B ∅ X s) s.
Proof.
  intros H Hr Hx Ho Hin Hst. unfold fdctl_getdents. eapply with_arg_ok; [done..|]. intros a Ha. wp_step.
  eapply word_ok; [lia..|]. intros buf Hbuf. wp_step. eapply word_ok; [lia..|]. intros count Hcount.
  case_if; [by wp_steps|]. wp_step. destruct (c_held _ _ _ (ki_vfs _ _ _ _ H) Hin) as [nd Hnd]. eapply wp_vget; [done|].
  case_if; [by wp_steps|]. case_if; [by wp_steps|]. case_if; [by wp_steps|]. b2p. wp_step.
  pose proof (validate_user_ptr_inv buf count Hbuf Hcount Hif2) as Hval. unfold USER_SPACE_START, KERNEL_BASE in Hval.
  eapply wp_mono; [apply (getdents_loop_ok B ∅ X n buf count _ s i p); [done|done|done|lia|lia| |done|done]|].
  { rewrite Nat2Z.inj_succ, Z2Nat.id by (apply Z.div_pos; lia). pose proof (Z.mod_pos_bound count 128).
    pose proof (Z.div_mod count 128). lia. }
  intros [w idx] s' (Hc & Hfs & Hs' & Hidx). cbv beta iota. wp_step.
  eapply upd_file_ok; [exact Hs'|by rewrite Hfs|done..|]. intros Hs2. by wp_steps.
Qed.

Lemma fdctl_ok B X s i p f fd cmd arg x n stack :
  kinv B ∅ X s -> running s i p -> k_files s !! f = Some x -> is_u32 (f_offset x) -> n ∈ nodes s ⊎ X -> zlen stack = 124 ->
  wp (_fdctl_handle ops sv stack f fd cmd arg x n) (done_with B ∅ X s) s.
Proof.
  intros H Hr Hx Ho Hin Hst. pose proof (c_held _ _ _ (ki_vfs _ _ _ _ H) Hin) as Hv. unfold _fdctl_handle, MAX_FD.
  case_if; [by apply dup_call|].
  case_if. { eapply with_arg_ok; [done..|]. intros a Ha. wp_step. eapply word_ok; [lia..|]. intros w Hw.
    case_if; [by wp_steps|]. case_if; [by wp_steps|]. b2p. unfold is_u32 in Hw. eapply replace_slot_ok; [done..|by exists x|lia]. }
  case_if. { eapply with_arg_ok; [done..|]. intros a Ha. wp_step. eapply word_ok; [lia..|]. intros w Hw. wp_step.
    eapply word_ok; [lia..|]. intros w1 Hw1. by apply fcntl_call. }
  case_if. { eapply with_arg_ok; [done..|]. intros a Ha. wp_step. eapply word_ok; [lia..|]. intros w Hw. wp_step.
    eapply word_ok; [lia..|]. intros w1 Hw1. by apply seek_ok. }
  case_if. { case_if; [by wp_steps|]. by eapply stat_user_ok. }
  case_if. { eapply with_arg_ok; [done..|]. intros a Ha. wp_step. eapply word_ok; [lia..|]. intros w Hw. wp_step.
    pose proof Hv as [nd Hnd]. eapply wp_vget; [done|]. case_if; [by wp_steps|].
    eapply wp_vfs; [done|by eapply c_truncate; [apply H|]|]. intros v r _ H1. by split. }
  case_if; [by eapply getdents_ok|]. case_if; by wp_steps.
Qed.

(** ** ioctl on a directory *)

(** Only buffers come or go. *)
Definition quiet s s' : Prop :=
  k_cur s' = k_cur s /\ k_procs s' = k_procs s /\ k_files s' = k_files s /\ k_vfs s' = k_vfs s.

Lemma quiet_running s s' i p : quiet s s' -> running s i p -> running s' i p.
Proof. intros (Hc & Hp & _). by apply running_same. Qed.

Lemma copy_name_ok B E X s i p u Q :
  kinv B E X s -> running s i p -> (forall s', quiet s s' -> kinv B E X s' -> Q 0 s') ->
  (forall a nm t s', quiet s s' -> a <> 0 -> B !! a = None -> cstr nm t -> kinv (<[a := nm]> B) E X s' -> Q a s') ->
  wp (_copy_name_arg u) Q s.
Proof.
  intros H Hr H0 H1. pose proof (po_mem p (running_ok _ _ _ _ _ _ H Hr)) as Hm. unfold _copy_name_arg.
  wp_step. eapply run_cur_proc; [done|]. wp_step.
  assert (exists v, validate_user_str (p_umem p) u = Some v) as [v Hv].
  { unfold validate_user_str. case_ifs; eauto. by apply user_str_loop_total. }
  eapply wp_lift; [done|]. case_if; [wp_steps; by apply H0|].
  eapply copy_path_ok; [done..|intros l Hl; by apply H0|]. intros l a nm t Ha HB Ht Hk. by eapply H1.
Qed.

Lemma single_ok nm t : cstr nm t -> exists b, _name_is_single nm = Some b.
Proof.
  intros Ht. unfold _name_is_single. destruct (cstr_ld0 _ _ Ht) as [c ->]. sb. case_if; [eauto|].
  revert t Ht. clear. induction nm as [|c nm IH]; intros t Ht; cbn [single_loop].
  { destruct Ht as [[r Hr] _]. by destruct t. }
  case_if; [eauto|]. case_if; [eauto|]. b2p. destruct t as [|c' t].
  { apply cstr_nil_inv in Ht as [r Hr]. injection Hr as -> _. done. }
  apply cstr_cons_inv in Ht as (r & Hr & _ & Hr'). injection Hr as -> ->. by eapply IH.
Qed.

Lemma with_name_ok s0 B E X s i p u k :
  kinv B E X s -> running s i p -> k_cur s = k_cur s0 ->
  (forall a nm t s', quiet s s' -> a <> 0 -> B !! a = None -> cstr nm t -> kinv (<[a := nm]> B) E X s' ->
     wp (k a nm) (done_with B E X s0) s') ->
  wp (with_name u k) (done_with B E X s0) s.
Proof.
  intros H Hr Hc Hk. unfold with_name. wp_step. eapply copy_name_ok; [done..| |].
  { intros s' (Hc' & _) H'. wp_steps. split; [by rewrite Hc'|done]. }
  intros a nm t s' Hq Ha HB Ht H1. rewrite (proj2 (Z.eqb_neq _ _)) by done. wp_step.
  eapply wp_buf_at; [rewrite (ki_bufs _ _ _ _ H1); apply lookup_insert_eq|]. wp_step.
  destruct (single_ok nm t Ht) as [b Hb]. eapply wp_lift; [done|]. case_if; [|by apply (Hk a nm t)].
  eapply kfree_done; [done..|]. destruct Hq as (Hc' & _). by rewrite Hc'.
Qed.

Lemma finddir_ok B E X s d nm t Q :
  kinv B E X s -> valid (k_vfs s) d -> cstr nm t ->
  (forall v r, kinv B E X (set_vfs v s) -> valid_opt v r -> (forall q, valid (k_vfs s) q -> valid v q) -> Q r (set_vfs v s)) ->
  wp (finddir ops d nm) Q s.
Proof.
  intros H Hd Ht HQ. destruct (c_finddir (k_vfs s) _ d nm t (ki_vfs _ _ _ _ H) Hd Ht) as (v & r & E1 & I1 & Vr & Vd).
  unfold finddir. eapply wp_vfs; [done|by eexists _, _|]. intros v1 r1 Hv H1. rewrite E1 in Hv. injection Hv as <- <-. by apply HQ.
Qed.

Lemma dir_wx_ok B E X s d Q : kinv B E X s -> valid (k_vfs s) d -> (forall r, Q r s) -> wp (_dir_wx d) Q s.
Proof. intros H Hd HQ. unfold _dir_wx. wp_step. eapply check_perm_ok; [done..|]. intros r. by wp_steps. Qed.

Lemma as_owner_ok s0 B E X s d a nm (m : vstate F -> option (vstate F * Z)) :
  kinv (<[a := nm]> B) E X s -> a <> 0 -> B !! a = None -> k_cur s = k_cur s0 -> valid (k_vfs s) d ->
  keeps v_inv (nodes s ⊎ X) m (k_vfs s) -> wp (as_owner d a (vfs m)) (done_with B E X s0) s.
Proof.
  intros H Ha HB Hc Hd Hm. unfold as_owner. wp_step. eapply dir_wx_ok; [done..|]. intros r. wp_step.
  case_if; [|wp_step; by eapply kfree_done]. eapply wp_vfs; [done..|]. intros v x _ H1. by eapply kfree_done.
Qed.

Lemma absent_ok s0 B E X s d a nm t k :
  kinv (<[a := nm]> B) E X s -> a <> 0 -> B !! a = None -> k_cur s = k_cur s0 -> valid (k_vfs s) d -> cstr nm t ->
  (forall v, kinv (<[a := nm]> B) E X (set_vfs v s) -> valid v d -> wp k (done_with B E X s0) (set_vfs v s)) ->
  wp (absent ops d a nm k) (done_with B E X s0) s.
Proof.
  intros H Ha HB Hc Hd Ht Hk. unfold absent. wp_step. eapply finddir_ok; [done..|]. intros v [r|] H1 _ Hd1; [|by apply Hk; [|apply Hd1]].
  by eapply kfree_done.
Qed.

Lemma present_ok s0 B E X s d a nm t k :
  kinv (<[a := nm]> B) E X s -> a <> 0 -> B !! a = None -> k_cur s = k_cur s0 -> valid (k_vfs s) d -> cstr nm t ->
  (forall v n, kinv (<[a := nm]> B) E X (set_vfs v s) -> valid v d -> wp (k n) (done_with B E X s0) (set_vfs v s)) ->
  wp (present ops d a nm k) (done_with B E X s0) s.
Proof.
  intros H Ha HB Hc Hd Ht Hk. unfold present. wp_step. eapply finddir_ok; [done..|]. intros v [r|] H1 _ Hd1; [by apply Hk; [|apply Hd1]|].
  by eapply kfree_done.
Qed.

Lemma lookup_name_ok s0 B E X s i p d u k :
  kinv B E X s -> running s i p -> k_cur s = k_cur s0 -> valid (k_vfs s) d ->
  (forall n s', k_cur s' = k_cur s -> running s' i p -> kinv B E X s' -> valid (k_vfs s') n ->
     wp (k n) (done_with B E X s0) s') ->
  wp (lookup_name ops d u k) (done_with B E X s0) s.
Proof.
  intros H Hr Hc Hd Hk. unfold lookup_name. eapply with_name_ok; [done..|]. intros a nm t s1 Hq Ha HB Ht H1.
  pose proof (quiet_running _ _ _ _ Hq Hr) as Hr1. destruct Hq as (Hc1 & _ & _ & Hv1). wp_step.
  eapply finddir_ok; [done|by rewrite Hv1|done|]. intros v r H2 Vr _. wp_step.
  eapply wp_kfree; [exact H2|apply lookup_insert_eq| |done]. rewrite delete_insert_id by done. intros H3.
  destruct r as [n|]; [|wp_steps; split; [by rewrite <- Hc, <- Hc1|done]]. by apply Hk.
Qed.

Lemma free_both_done s0 B E X s a1 a2 n1 n2 r :
  kinv (<[a2 := n2]> (<[a1 := n1]> B)) E X s -> a1 <> 0 -> a2 <> 0 -> B !! a1 = None -> (<[a1 := n1]> B) !! a2 = None ->
  k_cur s = k_cur s0 -> wp (free_both a1 a2 r) (done_with B E X s0) s.
Proof.
  intros H Ha1 Ha2 HB1 HB2 Hc. unfold free_both. wp_step.
  assert (Hne : a1 <> a2). { intros ->. by rewrite lookup_insert_eq in HB2. }
  eapply wp_kfree; [done|rewrite lookup_insert_ne by done; apply lookup_insert_eq| |done].
  rewrite delete_insert_ne, delete_insert_id by done. intros H1. eapply kfree_done; [done..| |done].
  by rewrite lookup_insert_ne in HB2.
Qed.

Lemma with_names_ok s0 B E X s i p u1 u2 single1 k :
  kinv B E X s -> running s i p -> k_cur s = k_cur s0 ->
  (forall a1 a2 n1 t1 n2 t2 s', quiet s s' -> a1 <> 0 -> a2 <> 0 -> B !! a1 = None -> (<[a1 := n1]> B) !! a2 = None ->
     cstr n1 t1 -> cstr n2 t2 -> kinv (<[a2 := n2]> (<[a1 := n1]> B)) E X s' ->
     wp (k a1 a2 n1 n2) (done_with B E X s0) s') ->
  wp (with_names u1 u2 single1 k) (done_with B E X s0) s.
Proof.
  intros H Hr Hc Hk. unfold with_names. wp_step. eapply copy_name_ok; [done..| |].
  { intros s' (Hc' & _) H'. wp_steps. split; [by rewrite Hc'|done]. }
  intros a1 n1 t1 s1 Hq1 Ha1 HB1 Ht1 H1. rewrite (proj2 (Z.eqb_neq _ _)) by done. wp_step.
  assert (Hc1 : k_cur s1 = k_cur s0) by (destruct Hq1 as (-> & _); done).
  eapply copy_name_ok; [exact H1|by eapply quiet_running| |].
  { intros s' (Hc' & _) H'. eapply kfree_done; [done..|]. by rewrite Hc'. }
  intros a2 n2 t2 s2 Hq2 Ha2 HB2 Ht2 H2. rewrite (proj2 (Z.eqb_neq _ _)) by done. wp_step.
  assert (Hne : a1 <> a2). { intros ->. by rewrite lookup_insert_eq in HB2. }
  eapply wp_buf_at; [rewrite (ki_bufs _ _ _ _ H2), lookup_insert_ne by done; apply lookup_insert_eq|]. wp_step.
  eapply wp_buf_at; [rewrite (ki_bufs _ _ _ _ H2); apply lookup_insert_eq|]. wp_step.
  assert (Hq : quiet s s2).
  { destruct Hq1 as (E1 & E2 & E3 & E4), Hq2 as (F1 & F2 & F3 & F4). split_and!; congruence. }
  assert (Hfin : forall b2 : bool, wp (if negb b2 then kfree a1 ;; kfree a2 ;; mret (- EINVAL) else k a1 a2 n1 n2)
    (done_with B E X s0) s2).
  { intros []; cbn [negb]; [by eapply Hk|]. eapply (free_both_done s0 _ _ _ s2); [done..|]. by destruct Hq2 as (-> & _). }
  destruct (single_ok n1 t1 Ht1) as [b1 Hb1], (single_ok n2 t2 Ht2) as [b2 Hb2]. destruct single1.
  - eapply wp_lift; [done|]. wp_step. destruct b1; [eapply wp_lift; [done|]; apply Hfin|wp_steps; apply (Hfin false)].
  - wp_step. wp_step. eapply wp_lift; [done|]. apply Hfin.
Qed.

Lemma done_cur B E X s0 s1 s {A} (m : KM A) :
  wp m (done_with B E X s1) s -> k_cur s1 = k_cur s0 -> wp m (done_with B E X s0) s.
Proof. intros H Hc. eapply wp_mono; [done|]. intros a s' [Hc' H']. split; [congruence|done]. Qed.

Lemma openat_ok B X s i p d nm t flags :
  kinv B ∅ X s -> running s i p -> d ∈ nodes s ⊎ X -> opens_ok X -> cstr nm t ->
  wp (_dirctl_openat ops d nm flags) (done_with B ∅ X s) s.
Proof.
  intros H Hr Hd HX Ht. pose proof (c_held _ _ _ (ki_vfs _ _ _ _ H) Hd) as Vd0.
  unfold _dirctl_openat. wp_step. eapply finddir_ok; [done..|]. intros v [n|] H1 Vr Vle.
  { eapply done_cur; [eapply open_node_ok; [done|by apply (running_same s)|done..]|done]. }
  pose proof (Vle d Vd0) as Vd. case_if; [by wp_steps|]. wp_step.
  eapply dir_wx_ok; [done..|]. intros r. case_if; [by wp_steps|]. wp_step.
  eapply wp_vfs; [exact H1|by eapply c_create; [apply H1|..]|]. intros v2 r2 _ H2. case_if; [by wp_steps|]. wp_step.
  pose proof (c_held _ _ _ (ki_vfs _ _ _ _ H2) Hd) as Vd2.
  eapply finddir_ok; [exact H2|done..|]. intros v3 [n|] H3 Vr3 _; [|by wp_steps].
  eapply done_cur; [eapply open_node_ok; [done|by apply (running_same s)|done..]|done].
Qed.

(** Two words of a record. *)
Lemma words2_ok (a : mem) k s Q :
  zlen a = 8 -> (forall w0 w1, is_u32 w0 -> is_u32 w1 -> wp (k w0 w1) Q s) ->
  wp (w0 ← word a 0; w1 ← word a 1; k w0 w1 : KM Z) Q s.
Proof.
  intros Ha Hk. wp_step. eapply word_ok; [lia..|]. intros w0 H0. wp_step. eapply word_ok; [lia..|]. intros w1 H1. by apply Hk.
Qed.

Lemma words3_ok (a : mem) k s Q :
  zlen a = 12 -> (forall w0 w1 w2, is_u32 w0 -> is_u32 w1 -> is_u32 w2 -> wp (k w0 w1 w2) Q s) ->
  wp (w0 ← word a 0; w1 ← word a 1; w2 ← word a 2; k w0 w1 w2 : KM Z) Q s.
Proof.
  intros Ha Hk. wp_step. eapply word_ok; [lia..|]. intros w0 H0. wp_step. eapply word_ok; [lia..|]. intros w1 H1. wp_step.
  eapply word_ok; [lia..|]. intros w2 H2. by apply Hk.
Qed.

(** The record of a command: its words, then [k]. *)
Ltac arg2 w0 w1 :=
  let a := fresh "rec" in let Ha := fresh "Hrec" in let H0 := fresh "Hw" in let H1 := fresh "Hw" in
  eapply with_arg_ok; [done..|]; intros a Ha; apply words2_ok; [done|]; intros w0 w1 H0 H1.
Ltac arg3 w0 w1 w2 :=
  let a := fresh "rec" in let Ha := fresh "Hrec" in let H0 := fresh "Hw" in let H1 := fresh "Hw" in let H2 := fresh "Hw" in
  eapply with_arg_ok; [done..|]; intros a Ha; apply words3_ok; [done|]; intros w0 w1 w2 H0 H1 H2.

Section Dir.
Context (B : gmap Z mem) (X : gmultiset nptr) (s : kst F) (i : Z) (p : process) (d : nptr).
Context (H : kinv B ∅ X s) (Hr : running s i p) (Hd : d ∈ nodes s ⊎ X).

(** The name of a command, in its buffer. *)
Lemma on_name u k :
  (forall a nm t s', quiet s s' -> a <> 0 -> B !! a = None -> cstr nm t -> kinv (<[a := nm]> B) ∅ X s' ->
     k_cur s' = k_cur s -> valid (k_vfs s') d -> d ∈ nodes s' ⊎ X -> running s' i p -> wp (k a nm) (done_with B ∅ X s) s') ->
  wp (with_name u k) (done_with B ∅ X s) s.
Proof.
  intros Hk. eapply with_name_ok; [done..|]. intros a nm t s' Hq Ha HB Ht H'.
  pose proof Hq as (Hc & _ & Hf & Hv). assert (Hd' : d ∈ nodes s' ⊎ X) by (unfold nodes in *; by rewrite Hf).
  eapply Hk; try done; [|by eapply quiet_running]. eapply c_held; [apply H'|done].
Qed.

Lemma on_lookup u k :
  (forall n s', k_cur s' = k_cur s -> running s' i p -> kinv B ∅ X s' -> valid (k_vfs s') n ->
     wp (k n) (done_with B ∅ X s) s') ->
  wp (lookup_name ops d u k) (done_with B ∅ X s) s.
Proof. intros Hk. eapply lookup_name_ok; [done..| |done]. eapply c_held; [apply H|done]. Qed.

Lemma openat_cmd arg : opens_ok X -> wp (dirctl_openat ops d arg) (done_with B ∅ X s) s.
Proof.
  intros HX. unfold dirctl_openat. arg2 u flags. apply on_name. intros a nm t s' _ Ha HB Ht H' Hc _ Hd' Hr'. wp_step.
  eapply wp_mono; [by eapply openat_ok|]. intros r s2 [Hc2 H2]. eapply kfree_done; [done..|]. by rewrite Hc2.
Qed.

Lemma create_cmd arg : wp (dirctl_create ops d arg) (done_with B ∅ X s) s.
Proof.
  unfold dirctl_create. eapply with_arg_ok; [done..|]. intros b Hb. wp_step. eapply word_ok; [lia..|]. intros u _.
  apply on_name. intros a nm t s' _ Ha HB Ht H' Hc Vd _ _. eapply absent_ok; [done..|]. intros v H1 V1.
  eapply as_owner_ok; [done..|]. by eapply c_create; [apply H1|..].
Qed.

Lemma mkdir_cmd arg : wp (dirctl_mkdir ops d arg) (done_with B ∅ X s) s.
Proof.
  apply on_name. intros a nm t s' _ Ha HB Ht H' Hc Vd _ _. eapply absent_ok; [done..|]. intros v H1 V1.
  eapply as_owner_ok; [done..|]. by eapply c_mkdir; [apply H1|..].
Qed.

Lemma rmdir_cmd arg : wp (dirctl_rmdir ops d arg) (done_with B ∅ X s) s.
Proof.
  apply on_name. intros a nm t s' _ Ha HB Ht H' Hc Vd _ _. eapply present_ok; [done..|]. intros v n H1 V1.
  eapply as_owner_ok; [done..|]. by eapply c_rmdir; [apply H1|..].
Qed.

Lemma unlink_cmd arg : wp (dirctl_unlink ops d arg) (done_with B ∅ X s) s.
Proof.
  apply on_name. intros a nm t s' _ Ha HB Ht H' Hc Vd _ _. eapply present_ok; [done..|]. intros v n H1 V1.
  eapply as_owner_ok; [done..|]. by eapply c_unlink; [apply H1|..].
Qed.

Lemma mknod_cmd arg : wp (dirctl_mknod ops d arg) (done_with B ∅ X s) s.
Proof.
  unfold dirctl_mknod. arg3 u mode dev. apply on_name. intros a nm t s' _ Ha HB Ht H' Hc Vd _ _.
  eapply absent_ok; [done..|]. intros v H1' V1. wp_step. eapply wp_vfs; [exact H1'|by eapply c_mknod; [apply H1'|..]|].
  intros v2 r _ H2'. by eapply kfree_done.
Qed.

(** The two names of a command, in their buffers. *)
Lemma on_names u1 u2 single1 k :
  (forall a1 a2 n1 t1 n2 t2 s', quiet s s' -> cstr n1 t1 -> cstr n2 t2 -> k_cur s' = k_cur s -> valid (k_vfs s') d ->
     kinv (<[a2 := n2]> (<[a1 := n1]> B)) ∅ X s' ->
     (forall s2 r, kinv (<[a2 := n2]> (<[a1 := n1]> B)) ∅ X s2 -> k_cur s2 = k_cur s ->
        wp (free_both a1 a2 r) (done_with B ∅ X s) s2) ->
     wp (k a1 a2 n1 n2) (done_with B ∅ X s) s') ->
  wp (with_names u1 u2 single1 k) (done_with B ∅ X s) s.
Proof.
  intros Hk. eapply with_names_ok; [done..|]. intros a1 a2 n1 t1 n2 t2 s' Hq Ha1 Ha2 HB1 HB2 Ht1 Ht2 H'.
  pose proof Hq as (Hc & _ & Hf & Hv). eapply Hk; try done.
  - eapply c_held; [apply H'|]. unfold nodes in *. by rewrite Hf.
  - intros s2 r H2 Hc2. by eapply free_both_done.
Qed.

(** Both names are there, and the caller may change the directory. *)
Lemma guarded_op s' a1 a2 (B' : gmap Z mem) (m : vstate F -> option (vstate F * Z)) :
  kinv B' ∅ X s' -> valid (k_vfs s') d -> k_cur s' = k_cur s -> keeps v_inv (nodes s' ⊎ X) m (k_vfs s') ->
  (forall s2 r, kinv B' ∅ X s2 -> k_cur s2 = k_cur s -> wp (free_both a1 a2 r) (done_with B ∅ X s) s2) ->
  wp (x ← _dir_wx d; ret ← (if x =? 0 then vfs m else mret x); free_both a1 a2 ret) (done_with B ∅ X s) s'.
Proof.
  intros H' Vd Hc Hm Hfree. wp_step. eapply dir_wx_ok; [done..|]. intros x. wp_step. case_if; [|wp_step; by apply Hfree].
  eapply wp_vfs; [done..|]. intros v r _ H1. by apply Hfree.
Qed.

Lemma rename_cmd arg : wp (dirctl_rename ops d arg) (done_with B ∅ X s) s.
Proof.
  unfold dirctl_rename. arg2 u1 u2. apply on_names. intros a1 a2 n1 t1 n2 t2 s' Hq Ht1 Ht2 Hc Vd H' Hfree. wp_step.
  eapply finddir_ok; [done..|]. intros v [n|] H1 _ Vle; [|by apply Hfree].
  eapply guarded_op; [done|by apply Vle|done| |done]. eapply c_rename; [apply H1|by apply Vle|done..].
Qed.

Lemma link_cmd arg : wp (dirctl_link ops d arg) (done_with B ∅ X s) s.
Proof.
  unfold dirctl_link. arg2 u1 u2. apply on_names. intros a1 a2 n1 t1 n2 t2 s' Hq Ht1 Ht2 Hc Vd H' Hfree. wp_step.
  eapply finddir_ok; [done..|]. intros v [n|] H1 Vn Vle; [|by apply Hfree]. wp_step.
  eapply finddir_ok; [exact H1|by apply Vle|done|]. intros v2 [m|] H2 _ Vle2; [by apply Hfree|].
  eapply guarded_op; [done|by apply Vle2, Vle|done| |done]. eapply c_link; [apply H2|by apply Vle2, Vle|by apply Vle2|done].
Qed.

Lemma symlink_cmd arg : wp (dirctl_symlink ops d arg) (done_with B ∅ X s) s.
Proof.
  unfold dirctl_symlink. arg2 u1 u2. apply on_names. intros a1 a2 n1 t1 n2 t2 s' Hq Ht1 Ht2 Hc Vd H' Hfree. wp_step.
  eapply finddir_ok; [done..|]. intros v2 [m|] H2 _ Vle; [by apply Hfree|].
  eapply guarded_op; [done|by apply Vle|done| |done]. eapply c_symlink; [apply H2|by apply Vle|done..].
Qed.

Lemma readlink_cmd arg : wp (dirctl_readlink ops d arg) (done_with B ∅ X s) s.
Proof.
  unfold dirctl_readlink. arg3 u buf len. case_if; [by wp_steps|]. case_if; [by wp_steps|]. apply on_lookup.
  intros n s' Hc Hr' H' Vn. wp_step. pose proof Vn as [nd Hn]. eapply wp_vget; [done|]. case_if; [by wp_steps|]. wp_step.
  eapply user_get_ok; [done|by eapply running_ok|unfold is_u32 in *; lia|]. intros b Hb. wp_step. rewrite <- Hb in *.
  destruct (c_readlink (k_vfs s') _ n b (ki_vfs _ _ _ _ H') Vn) as (b' & r & E1). eapply wp_vget; [done|]. cbv beta iota.
  wp_step. eapply user_put_ok; [done..|]. intros p' _ _ Hfin. by wp_steps.
Qed.

Lemma stat_cmd arg : wp (dirctl_stat ops d arg) (done_with B ∅ X s) s.
Proof.
  unfold dirctl_stat. arg2 u buf. case_if; [by wp_steps|]. apply on_lookup. intros n s' Hc Hr' H' Vn. by eapply stat_user_ok.
Qed.

Lemma access_cmd arg : wp (dirctl_access ops d arg) (done_with B ∅ X s) s.
Proof.
  unfold dirctl_access. arg2 u mode. apply on_lookup. intros n s' Hc Hr' H' Vn. case_if; [by wp_steps|]. wp_step.
  eapply check_perm_ok; [done..|]. intros r. by wp_steps.
Qed.

(** The last step of a command is a call of the VFS. *)
Lemma vfs_last s' (m : vstate F -> option (vstate F * Z)) :
  kinv B ∅ X s' -> k_cur s' = k_cur s -> keeps v_inv (nodes s' ⊎ X) m (k_vfs s') -> wp (vfs m) (done_with B ∅ X s) s'.
Proof. intros H' Hc Hm. eapply wp_vfs; [done..|]. intros v r _ H1. by split. Qed.

Lemma chmod_cmd arg : wp (dirctl_chmod ops d arg) (done_with B ∅ X s) s.
Proof.
  unfold dirctl_chmod. arg2 u mode. apply on_lookup. intros n s' Hc Hr' H' Vn. wp_step. eapply run_cur_proc; [done|]. wp_step.
  pose proof Vn as [nd Hn]. eapply wp_vget; [done|]. case_if; [by wp_steps|]. apply vfs_last; [done..|].
  by eapply c_chmod; [apply H'|].
Qed.

Lemma chown_cmd arg : wp (dirctl_chown ops d arg) (done_with B ∅ X s) s.
Proof.
  unfold dirctl_chown. arg3 u uid gid. wp_step. eapply run_cur_proc; [done|]. case_if; [by wp_steps|].
  apply on_lookup. intros n s' Hc Hr' H' Vn. apply vfs_last; [done..|]. by eapply c_chown; [apply H'|].
Qed.

Lemma truncate_cmd arg : wp (dirctl_truncate ops d arg) (done_with B ∅ X s) s.
Proof.
  unfold dirctl_truncate. arg2 u len. apply on_lookup. intros n s' Hc Hr' H' Vn. wp_step.
  pose proof Vn as [nd Hn]. eapply wp_vget; [done|]. case_if; [by wp_steps|]. wp_step.
  eapply check_perm_ok; [done..|]. intros r. case_if; [by wp_steps|]. apply vfs_last; [done..|].
  by eapply c_truncate; [apply H'|].
Qed.

Lemma dirctl_ok cmd arg : opens_ok X -> wp (_dirctl_handle ops d cmd arg) (done_with B ∅ X s) s.
Proof using All.
  intros HX. unfold _dirctl_handle.
  case_if; [by apply openat_cmd|]. case_if; [apply create_cmd|]. case_if; [apply mkdir_cmd|]. case_if; [apply rmdir_cmd|].
  case_if; [apply unlink_cmd|]. case_if; [apply rename_cmd|]. case_if; [apply link_cmd|]. case_if; [apply symlink_cmd|].
  case_if; [apply readlink_cmd|]. case_if; [apply stat_cmd|]. case_if; [apply access_cmd|]. case_if; [apply chmod_cmd|].
  case_if; [apply chown_cmd|]. case_if; [apply truncate_cmd|]. case_if; [apply mknod_cmd|]. by wp_steps.
Qed.
End Dir.
End Calls.
