(* ===== verification/FdTrace.v ===== *)
(** * Every run of descriptor calls

    Pipes, fork, exec, exit, poll and select keep the invariant of
    [FdSpec.v], and with the calls of [FdCalls.v] every state any number of
    processes can reach has exact counts. *)
From stdpp Require Import gmultiset.
From S2P Require Import Prelude StateM Klib Validate VfsPath Vfs VfsSpec Fd FdSpec FdCalls.

#[local] Open Scope Z_scope.

Section Trace.
Context {F : Type} {ops : Z -> vops F} {sv : services F} `{VC : !VfsContract ops sv}.
#[local] Abbreviation KM := (M (kst F)).
Implicit Types (s : kst F) (B : gmap Z mem) (E : gmultiset Z) (X : gmultiset nptr).

(** At most so many opens that no file accounts for come with one step. *)
Definition LEAK : nat := 512.

Definition leaves B X : Z -> kst F -> Prop :=
  fun _ s' => exists X', (size X' <= size X + LEAK)%nat /\ kinv B ∅ X' s'.

Definition room X : Prop := Z.of_nat (size X) + Z.of_nat LEAK < 2 ^ 30.

Lemma room_opens X X' : room X -> (size X' <= size X + LEAK)%nat -> opens_ok X'.
Proof. unfold room, opens_ok. lia. Qed.

Lemma done_leaves B X s (m : KM Z) : wp m (done_with B ∅ X s) s -> wp m (leaves B X) s.
Proof. intros H. eapply wp_mono; [done|]. intros a s' [_ H']. exists X. split; [lia|done]. Qed.

(** What the ioctls of devices and sockets promise. *)
Class ServiceContract := {
  c_ioctl B X s o m node cmd arg :
    kinv B ∅ X s -> node ∈ nodes s ⊎ X -> room X -> op_ioctl sv o = Some m -> wp (m node cmd arg) (leaves B X) s;
  c_sock B X s node cmd arg :
    kinv B ∅ X s -> node ∈ nodes s ⊎ X -> room X -> wp (sock_ioctl_dispatch sv node cmd arg) (leaves B X) s
}.
Context `{SC : !ServiceContract}.

(** ** ioctl *)

Lemma kinv_winsize B E X s w : kinv B E X s -> length w = 4%nat -> kinv B E X (set_winsize w s).
Proof. intros [] Hw. by constructor. Qed.

Lemma kinv_send B E X s pid sig : kinv B E X s -> kinv B E X (send pid sig s).
Proof. intros []. by constructor. Qed.

Lemma ld16_total a i s Q : 0 <= i -> i + 2 <= zlen a -> (forall w, Q w s) -> wp (lift (ld16 a i) : KM Z) Q s.
Proof.
  intros Hi Ha HQ. unfold ld16. destruct (ld_in a i) as [b0 H0]; [lia|]. destruct (ld_in a (i + 1)) as [b1 H1]; [lia|].
  eapply wp_lift; [rewrite H0, H1; by ob|]. apply HQ.
Qed.

Lemma concat_le16 (w : list Z) : zlen (concat (le16 <$> w)) = 2 * zlen w.
Proof. induction w as [|x w IH]; [done|]. cbn [fmap list_fmap concat]. rewrite zlen_app, zlen_cons, IH. change (zlen (le16 x)) with 2. lia. Qed.

Lemma winsize_ok B X s i p cmd arg :
  kinv B ∅ X s -> running s i p -> wp (ioctl_winsize cmd arg) (done_with B ∅ X s) s.
Proof.
  intros H Hr. unfold ioctl_winsize. case_if; [by wp_steps|]. case_if.
  - wp_step. eapply user_copy_in_ok; [done|by eapply running_ok|lia|]. intros a r Ha. cbv beta iota. case_if; [by wp_steps|].
    wp_step. apply ld16_total; [lia..|]. intros w0. wp_step. apply ld16_total; [lia..|]. intros w1. wp_step.
    apply ld16_total; [lia..|]. intros w2. wp_step. apply ld16_total; [lia..|]. intros w3. wp_steps. case_if; wp_steps.
    + split; [done|]. by apply kinv_winsize.
    + split; [done|]. by apply kinv_send, kinv_winsize.
  - wp_steps. eapply user_copy_out_ok; [done..| |].
    + rewrite concat_le16. unfold zlen. rewrite (ki_win _ _ _ _ H). lia.
    + intros p' r _ _ H'. by wp_steps.
Qed.

Lemma ioctl_call B X s i p stack fd cmd arg :
  kinv B ∅ X s -> running s i p -> room X -> zlen stack = 124 -> wp (sys_ioctl ops sv stack fd cmd arg) (leaves B X) s.
Proof.
  intros H Hr HX Hst. assert (Hself : leaves B X 0 s) by (exists X; split; [lia|done]).
  assert (HO : opens_ok X) by (unfold room, opens_ok in *; lia). unfold sys_ioctl. wp_step.
  eapply get_file_ok; [done|..].
  { repeat (case_if; [by apply with_node_0|]). case_if; [|by apply with_node_0]. apply done_leaves. by eapply winsize_ok. }
  intros i' p' f Hr' Hfd Hf Hne [x Hx].
  destruct (ki_file _ _ _ _ H f x Hx) as (_ & Ho & [n Hn] & _). destruct (kinv_node _ _ _ _ _ _ _ H Hx Hn) as [Hin [nd Hnd]].
  assert (Hnode : forall err k, wp (k x n) (leaves B X) s -> wp (with_node err f k) (leaves B X) s).
  { intros err k Hk. unfold with_node, file_node. rewrite (proj2 (Z.eqb_neq _ _)) by done. wp_step. wp_step.
    eapply wp_file_at; [done|]. wp_step. by rewrite Hn. }
  case_if; [apply Hnode, done_leaves; by eapply fdctl_ok|].
  case_if.
  { apply Hnode. wp_step. eapply wp_vget; [done|]. case_if; [by wp_steps|]. apply done_leaves. by eapply dirctl_ok. }
  case_if; [apply Hnode; wp_step; eapply wp_vget; [done|]; case_if; [by wp_steps|]; by apply c_sock|].
  case_if; [apply done_leaves; by eapply winsize_ok|]. apply Hnode. case_if; [by wp_steps|]. unfold ioctl_vfs. wp_step.
  eapply wp_vget; [done|]. case_if; [by wp_steps|]. destruct (op_ioctl sv (v_ops nd)) as [m|] eqn:Hm; [|by wp_steps].
  by eapply c_ioctl.
Qed.

(** ** Pipes *)

(** Opens without a file become fewer by a close. *)
Lemma close_extra B E X s n (Q : unit -> kst F -> Prop) :
  kinv B E ({[+ n +]} ⊎ X) s -> (forall v, kinv B E X (set_vfs v s) -> Q tt (set_vfs v s)) ->
  wp (vfs_ (close_vfs ops (Some n))) Q s.
Proof.
  intros H HQ. destruct (c_close (k_vfs s) (nodes s ⊎ X) n) as (v & Hc & Hi).
  { pose proof (ki_vfs _ _ _ _ H) as Hv. by replace ({[+ n +]} ⊎ (nodes s ⊎ X)) with (nodes s ⊎ ({[+ n +]} ⊎ X)) by multiset_solver. }
  unfold wp, vfs_. rewrite Hc. sb. apply HQ. by eapply kinv_vfs.
Qed.

Lemma two_slots_end l i r w : 0 <= r -> 0 <= w -> two_slots l i r w = (r, w).
Proof. intros Hr Hw. destruct l; [done|]. cbn. by rewrite !(proj2 (Z.ltb_ge _ _)). Qed.

Lemma two_slots_second l : forall i r, 0 <= r < i ->
  two_slots l i r (-1) = (r, default (-1) (free_slot l i)).
Proof.
  induction l as [|f l IH]; intros i r Hr; cbn [two_slots free_slot]; [done|].
  change (-1 <? 0) with true. rewrite orb_true_r. cbv iota. case_if; [|by apply IH; lia].
  rewrite (proj2 (Z.ltb_ge r 0)) by lia.
  change (default (-1) (Some i)) with i. by apply two_slots_end; lia.
Qed.

(** The two lowest free descriptors. *)
Lemma two_slots_ok l : forall i, 0 <= i ->
  two_slots l i (-1) (-1) =
  match free_slot l i with
  | None => (-1, -1)
  | Some r => (r, default (-1) (free_slot (drop (Z.to_nat (r - i + 1)) l) (r + 1)))
  end.
Proof.
  induction l as [|f l IH]; intros i Hi; cbn [two_slots free_slot]; [done|]. change (-1 <? 0) with true. cbn [orb]. cbv iota.
  case_if. { rewrite Z.sub_diag. by apply two_slots_second; lia. }
  rewrite IH by lia. pose proof (free_slot_ok l (i + 1)) as Hr. destruct (free_slot l (i + 1)) as [r|]; [|done].
  destruct Hr as [Hr _]. by replace (Z.to_nat (r - i + 1)) with (S (Z.to_nat (r - (i + 1) + 1))) by lia.
Qed.

Lemma unref_if B E X s f :
  kinv B ({[+ f +]} ⊎ E) X s -> (size E <= 1023)%nat ->
  wp (if f =? 0 then skip else file_unref ops f ;; skip) (fun _ s' => same s s' /\ kinv B E X s') s.
Proof.
  intros H HE. case_if; b2p; [wp_step; split; [done|]; subst; by apply kinv_zero_l|]. wp_step.
  eapply wp_mono; [by apply (file_unref_ok B E)|]. intros r s' Hs'. by wp_steps.
Qed.

Lemma size1 (f : Z) : (size ({[+ f +]} ⊎ ∅ : gmultiset Z) = 1)%nat.
Proof. by rewrite (right_id_L ∅ (⊎)), gmultiset_size_singleton. Qed.

(** The files of a pipe that could not be made are given up again. *)
Lemma pipe_undo B X s n0 n1 rf wf (e : Z + Z * Z) :
  kinv B ({[+ rf +]} ⊎ ({[+ wf +]} ⊎ ∅)) ({[+ n0 +]} ⊎ ({[+ n1 +]} ⊎ X)) s ->
  wp ((if rf =? 0 then skip else file_unref ops rf ;; skip) ;; (if wf =? 0 then skip else file_unref ops wf ;; skip) ;;
      vfs_ (close_vfs ops (Some n0)) ;; vfs_ (close_vfs ops (Some n1)) ;; mret e)
    (fun _ s' => k_cur s' = k_cur s /\ kinv B ∅ X s') s.
Proof.
  intros H. wp_step. eapply wp_mono; [apply (unref_if B ({[+ wf +]} ⊎ ∅)); [done|rewrite size1; lia]|].
  intros _ s1 [[Hc1 _] H1]. wp_step. eapply wp_mono; [apply (unref_if B ∅); [done|apply size_le_1023]|].
  intros _ s2 [[Hc2 _] H2]. wp_step. eapply close_extra; [done|]. intros v H3. wp_step.
  eapply close_extra; [done|]. intros v4 H4. wp_steps. split; [cbn; congruence|done].
Qed.

Lemma second_slot p r : proc_ok p -> free_slot (drop 3 (p_files p)) 3 = Some r ->
  3 <= r < 256 /\ ld (p_files p) r = Some 0 /\
  forall w f, free_slot (drop (Z.to_nat (r - 3 + 1)) (drop 3 (p_files p))) (r + 1) = Some w ->
    r < w < 256 /\ ld (<[Z.to_nat r := f]> (p_files p)) w = Some 0.
Proof.
  intros Hok Hr. pose proof (free_slot_ok (drop 3 (p_files p)) 3) as H1. rewrite Hr in H1. destruct H1 as [H1 H2].
  unfold zlen in H1. rewrite length_drop, (po_files p Hok) in H1. rewrite ld_nonneg, lookup_drop in H2 by lia.
  split; [lia|]. split. { rewrite ld_nonneg by lia. rewrite <- H2. f_equal. lia. }
  intros w f Hw. pose proof (free_slot_ok (drop (Z.to_nat (r - 3 + 1)) (drop 3 (p_files p))) (r + 1)) as H3. rewrite Hw in H3.
  destruct H3 as [H3 H4]. unfold zlen in H3. rewrite !length_drop, (po_files p Hok) in H3. split; [lia|].
  rewrite ld_nonneg, !lookup_drop in H4 by lia. rewrite ld_nonneg by lia. rewrite list_lookup_insert_ne by lia. rewrite <- H4. f_equal. lia.
Qed.

Lemma pipe_fds_ok B X s i p :
  kinv B ∅ X s -> running s i p -> room X ->
  wp (pipe_fds ops sv) (fun _ s' => k_cur s' = k_cur s /\ exists X', (size X' <= size X + 2)%nat /\ kinv B ∅ X' s') s.
Proof.
  intros H Hr HX. unfold pipe_fds. wp_step. unfold wp at 1, vfs.
  destruct (c_pipe (k_vfs s) _ (ki_vfs _ _ _ _ H)) as (v & r & -> & Hv). sb.
  destruct r as [[n0 n1]|]; [|wp_steps; split; [done|]; exists X; split; [lia|]; by eapply kinv_vfs].
  set (X1 := {[+ n0 +]} ⊎ ({[+ n1 +]} ⊎ X)).
  assert (H1 : kinv B ∅ X1 (set_vfs v s)).
  { eapply kinv_vfs; [done|]. unfold X1. by replace (nodes s ⊎ _) with ({[+ n0 +]} ⊎ ({[+ n1 +]} ⊎ (nodes s ⊎ X))) by multiset_solver. }
  assert (HX1 : (size X1 = size X + 2)%nat).
  { unfold X1. rewrite !gmultiset_size_disj_union, !gmultiset_size_singleton. lia. }
  assert (HO : opens_ok X1) by (unfold room, opens_ok, LEAK in *; lia).
  assert (Hval : forall E s', kinv B E X1 s' -> valid (k_vfs s') n0 /\ valid (k_vfs s') n1).
  { intros E s' H'. split; (eapply c_held; [apply H'|]); unfold X1; multiset_solver. }
  wp_step. eapply wp_mono; [apply (file_alloc_ok B ∅ X1); [done|by eapply Hval|pose proof size_le_1023; lia|done]|].
  intros rf s2 (Hs2 & Hrf). wp_step.
  assert (Hrf' : kinv B ({[+ rf +]} ⊎ ∅) X1 s2).
  { destruct Hrf as [[-> Hk]|(_ & _ & Hk & _)]; [by apply kinv_zero|done]. }
  eapply wp_mono; [apply (file_alloc_ok B ({[+ rf +]} ⊎ ∅) X1); [done|by eapply Hval|rewrite size1; lia|done]|].
  intros wf s3 (Hs3 & Hwf).
  assert (Hwf' : kinv B ({[+ rf +]} ⊎ ({[+ wf +]} ⊎ ∅)) X1 s3).
  { destruct Hwf as [[-> Hk]|(_ & _ & Hk & _)].
    - apply kinv_zero in Hk. by replace ({[+ rf +]} ⊎ ({[+ 0 +]} ⊎ ∅)) with ({[+ 0 +]} ⊎ ({[+ rf +]} ⊎ ∅) : gmultiset Z) by multiset_solver.
    - by replace ({[+ rf +]} ⊎ ({[+ wf +]} ⊎ ∅)) with ({[+ wf +]} ⊎ ({[+ rf +]} ⊎ ∅) : gmultiset Z) by multiset_solver. }
  assert (Hc3 : k_cur s3 = k_cur s) by (destruct Hs3 as [-> _], Hs2 as [-> _]; done). clear Hrf Hwf Hrf'.
  destruct (_ || _) eqn:Hz.
  { eapply wp_mono; [by eapply pipe_undo|]. intros r s' [Hc H']. split; [congruence|]. exists X. split; [lia|done]. }
  b2p. wp_step. assert (Hr3 : running s3 i p) by (eapply running_same; [done|]; by eapply running_same).
  eapply run_cur_proc; [done|]. pose proof (running_ok _ _ _ _ _ _ H Hr) as Hok. rewrite two_slots_ok by lia.
  assert (Hfull : wp (file_unref ops rf ;; file_unref ops wf ;; mret (inl (- EMFILE)))
    (fun (_ : Z + Z * Z) s' => k_cur s' = k_cur s /\ exists X', (size X' <= size X + 2)%nat /\ kinv B ∅ X' s') s3).
  { wp_step. eapply wp_mono; [apply (file_unref_ok B ({[+ wf +]} ⊎ ∅)); [done..|rewrite size1; lia]|].
    intros _ s4 [[Hc4 _] H4]. wp_step. eapply wp_mono; [apply (file_unref_ok B ∅); [done..|apply size_le_1023]|].
    intros _ s5 [[Hc5 _] H5]. wp_steps. split; [congruence|]. exists X1. split; [lia|done]. }
  destruct (free_slot (drop 3 (p_files p)) 3) as [rfd|] eqn:Erfd; [|done].
  destruct (second_slot p rfd Hok Erfd) as (Hrb & Hr0 & Hw). destruct (free_slot _ (rfd + 1)) as [wfd|] eqn:Ewfd.
  2: { cbv beta iota. rewrite orb_true_r. done. }
  destruct (Hw wfd rf eq_refl) as [Hwb Hw0]. cbv beta iota. change (default (-1) (Some wfd)) with wfd.
  rewrite !(proj2 (Z.ltb_ge _ _)) by lia. cbn [orb]. cbv iota. wp_step.
  eapply put_slot_ok; [exact Hwf'|exact Hr3|exact Hr0|]. intros p4 Hr4 _ _ Hf4 H4%kinv_zero_l. wp_step.
  eapply put_slot_ok; [exact H4|exact Hr4|by rewrite Hf4|]. intros p5 _ _ _ _ H5%kinv_zero_l. wp_steps.
  split; [done|]. exists X1. split; [lia|done].
Qed.

Lemma pipe_call B X s i p u :
  kinv B ∅ X s -> running s i p -> room X -> wp (sys_pipe ops sv u) (leaves B X) s.
Proof.
  intros H Hr HX. unfold sys_pipe. case_if; [wp_steps; exists X; split; [lia|done]|]. wp_step. wp_step.
  pose proof Hr as [[k Hk] _]. rewrite Hk. wp_step. eapply wp_mono; [by eapply pipe_fds_ok|].
  intros r s1 (Hc & X' & HX' & H1). assert (Hle : (size X' <= size X + LEAK)%nat) by (unfold LEAK; lia).
  destruct r as [e|[rfd wfd]]; [wp_steps; by exists X'|]. wp_step. destruct (running_cur s s1 i p Hr Hc _ _ _ H1) as [p1 Hr1].
  eapply user_put_ok; [done..|]. intros p2 _ _ H2. wp_steps. by exists X'.
Qed.

(** The ioctl of /dev/pipe keeps the promise of [ServiceContract]. *)
Lemma pipe_ioctl_ok B X s i p cmd arg :
  kinv B ∅ X s -> running s i p -> room X -> wp (_pipe_ioctl ops sv cmd arg) (leaves B X) s.
Proof.
  intros H Hr HX. assert (Hself : leaves B X 0 s) by (exists X; split; [lia|done]).
  unfold _pipe_ioctl. repeat (case_if; [by wp_steps|]). wp_step. wp_step.
  pose proof Hr as [[k Hk] _]. rewrite Hk. wp_step. eapply wp_mono; [by eapply pipe_fds_ok|].
  intros r s1 (Hc & X' & HX' & H1). assert (Hle : (size X' <= size X + LEAK)%nat) by (unfold LEAK; lia).
  destruct r as [e|[rfd wfd]]; [wp_steps; by exists X'|]. destruct (running_cur s s1 i p Hr Hc _ _ _ H1) as [p1 Hr1].
  eapply user_copy_out_ok; [done..| |].
  - rewrite zlen_app, !le32_len. lia.
  - intros p2 r2 _ _ H2. by exists X'.
Qed.

(** ** fork, exec, exit *)

Lemma table_live B E X s i p : kinv B E X s -> running s i p -> forall f, f ∈ p_files p -> f = 0 \/ is_Some (k_files s !! f).
Proof.
  intros H Hr f Hin. apply list_elem_of_lookup in Hin as [j Hj].
  eapply (slot_live B E X s i p (Z.of_nat j)); [done..|]. rewrite ld_nonneg by lia. by rewrite Nat2Z.id.
Qed.

Lemma table_size (l : list Z) : size (list_to_set_disj l : gmultiset Z) = length l.
Proof.
  induction l as [|f l IH]; [done|]. rewrite list_to_set_disj_cons, gmultiset_size_disj_union, gmultiset_size_singleton, IH. done.
Qed.

(** The child's references: one more for each descriptor. *)
Lemma ref_all_ok B X s i p :
  kinv B ∅ X s -> running s i p ->
  wp (for_each (p_files p) (fun f => if f =? 0 then skip else file_ref f ;; skip))
    (fun _ s' => same s s' /\ kinv B (list_to_set_disj (p_files p)) X s' /\ dom (k_files s') = dom (k_files s)) s.
Proof.
  intros H Hr. pose proof (po_files p (running_ok _ _ _ _ _ _ H Hr)) as Hlen.
  apply (wp_for_each (fun rest s' => same s s' /\ dom (k_files s') = dom (k_files s) /\
    exists E, E ⊎ list_to_set_disj rest = list_to_set_disj (p_files p) /\ kinv B E X s' /\
      (forall f, f ∈ rest -> f = 0 \/ is_Some (k_files s' !! f)))).
  - split; [done|]. split; [done|]. exists ∅. split; [by rewrite (left_id_L ∅ (⊎))|]. split; [done|]. by eapply table_live.
  - intros f rest s1 (Hs1 & Hd1 & E & HE & H1 & Hl). assert (HsE : (size E <= 256)%nat).
    { rewrite <- Hlen, <- (table_size (p_files p)), <- HE, gmultiset_size_disj_union. lia. }
    rewrite list_to_set_disj_cons in HE. case_if; b2p.
    + subst f. wp_steps. split; [done|]. split; [done|]. exists ({[+ 0 +]} ⊎ E). split; [rewrite <- HE; multiset_solver|].
      split; [by apply kinv_zero|]. intros g Hg. apply Hl. by right.
    + destruct (Hl f) as [->|Hf]; [by left|done|]. wp_step.
      eapply wp_mono; [apply (file_ref_ok B E X s1 f H1 Hf); lia|]. intros g s2 (-> & Hs2 & _ & H2 & Hd2). wp_steps.
      split; [destruct Hs1, Hs2; split; congruence|]. split; [congruence|]. exists ({[+ f +]} ⊎ E).
      split; [rewrite <- HE; multiset_solver|]. split; [done|]. intros g Hg.
      destruct (Hl g) as [->|Hg']; [by right|by left|]. right. rewrite <- elem_of_dom, Hd2, elem_of_dom. done.
  - intros s1 (Hs1 & Hd1 & E & HE & H1 & _). rewrite list_to_set_disj_nil, (right_id_L ∅ (⊎)) in HE. by subst E.
Qed.

(** A new process takes over references that are already counted. *)
Lemma kinv_spawn B X s child p :
  kinv B (list_to_set_disj (p_files p)) X s -> k_procs s !! child = None -> proc_ok p ->
  Z.of_nat (size (k_procs s)) < PROCS_MAX -> kinv B ∅ X (set_procs (<[child := p]>) s).
Proof.
  intros H Hc Hp Hsz. set (s' := set_procs (<[child := p]>) s).
  assert (Hs : slots s' ⊎ ∅ = slots s ⊎ list_to_set_disj (p_files p)).
  { unfold slots at 1. cbn [k_procs s' set_procs]. rewrite slots_new by done. unfold slots. multiset_solver. }
  constructor; rewrite ?Hs; try apply H.
  - intros j q Hj. cbn in Hj. destruct (decide (j = child)) as [->|Hne].
    + rewrite lookup_insert_eq in Hj. by injection Hj as <-.
    + rewrite lookup_insert_ne in Hj by done. by apply (ki_procs _ _ _ _ H j).
  - intros j k Hj. cbn. destruct (decide (j = child)) as [->|Hne]; [by rewrite lookup_insert_eq|].
    rewrite lookup_insert_ne by done. by apply (ki_cur _ _ _ _ H j k).
  - cbn. rewrite map_size_insert_None by done. lia.
Qed.

(** The second loop of fork opens every node again, without a file for it. *)
Lemma open_all_ok B X s (l : list Z) :
  kinv B ∅ X s -> room X -> (length l <= 256)%nat -> (forall f, f ∈ l -> f = 0 \/ is_Some (k_files s !! f)) ->
  wp (for_each l (fun f => if f =? 0 then skip
        else x ← file_at f; match f_node x with None => skip | Some n => vfs_ (open_vfs ops (Some n)) end))
    (fun _ s' => k_cur s' = k_cur s /\ exists X', (size X' <= size X + length l)%nat /\ kinv B ∅ X' s') s.
Proof.
  intros H HX Hlen Hl.
  apply (wp_for_each (fun rest s' => k_cur s' = k_cur s /\ k_files s' = k_files s /\ (forall f, f ∈ rest -> f ∈ l) /\
    exists X', (size X' + length rest <= size X + length l)%nat /\ kinv B ∅ X' s')).
  - split; [done|]. split; [done|]. split; [done|]. exists X. split; [lia|done].
  - intros f rest s1 (Hc1 & Hf1 & Hsub & X1 & HX1 & H1). cbn [length] in HX1.
    assert (Hsub' : forall g, g ∈ rest -> g ∈ l) by (intros g Hg; apply Hsub; by right).
    case_if; b2p; [wp_steps; split_and!; try done; exists X1; split; [lia|done]|].
    destruct (Hl f) as [->|[x Hx]]; [apply Hsub; by left|done|]. rewrite <- Hf1 in Hx. wp_step. eapply wp_file_at; [done|].
    destruct (ki_file _ _ _ _ H1 f x Hx) as (_ & _ & [n Hn] & _). rewrite Hn. destruct (kinv_node _ _ _ _ _ _ _ H1 Hx Hn) as [_ Hv].
    assert (Hsz : Z.of_nat (size (nodes s1 ⊎ X1)) < OPENS_MAX).
    { eapply opens_small; [done|pose proof size_le_1023; lia|]. unfold room, opens_ok, LEAK in *. lia. }
    destruct (c_open (k_vfs s1) _ n (ki_vfs _ _ _ _ H1) Hv Hsz) as (v & Ho & Hi). unfold wp, vfs_. rewrite Ho. sb.
    split_and!; try done. exists ({[+ n +]} ⊎ X1). split; [rewrite gmultiset_size_disj_union, gmultiset_size_singleton; lia|].
    eapply kinv_vfs; [done|]. by replace (nodes s1 ⊎ ({[+ n +]} ⊎ X1)) with ({[+ n +]} ⊎ (nodes s1 ⊎ X1)) by multiset_solver.
  - intros s1 (Hc1 & _ & _ & X1 & HX1 & H1). split; [done|]. exists X1. split; [cbn in HX1; lia|done].
Qed.

Lemma fork_call B X s i p child :
  kinv B ∅ X s -> running s i p -> room X -> k_procs s !! child = None -> Z.of_nat (size (k_procs s)) < PROCS_MAX ->
  wp (fork_files ops child) (fun _ s' => exists X', (size X' <= size X + LEAK)%nat /\ kinv B ∅ X' s') s.
Proof.
  intros H Hr HX Hch Hsz. pose proof (running_ok _ _ _ _ _ _ H Hr) as Hok. unfold fork_files, share_files, reopen_nodes. wp_step.
  eapply run_cur_proc; [done|]. wp_step. eapply wp_mono; [by eapply ref_all_ok|]. intros _ s1 ([Hc1 Hp1] & H1 & Hd1). wp_step. wp_step.
  assert (H2 : kinv B ∅ X (set_procs (<[child := p]>) s1)) by (apply kinv_spawn; [done|by rewrite Hp1|done|by rewrite Hp1]).
  eapply wp_mono; [apply (open_all_ok B X _ (p_files p) H2 HX); [by rewrite (po_files p Hok)|]|].
  - intros f Hf. cbn [k_files set_procs]. destruct (table_live _ _ _ _ _ _ H Hr f Hf) as [->|Hl]; [by left|right].
    rewrite <- elem_of_dom, Hd1. by apply elem_of_dom.
  - intros _ s2 (_ & X' & HX' & H'). exists X'. split; [|done]. rewrite (po_files p Hok) in HX'. unfold LEAK. lia.
Qed.

(** Giving up files does not look at the descriptor tables. *)
Definition procs_free {A} (m : KM A) : Prop :=
  forall g s, m (set_procs g s) = (r ← m s; Some (set_procs g r.1, r.2)).

Lemma bind_procs_free {A C : Type} (m : KM A) (k : A -> KM C) :
  procs_free m -> (forall a, procs_free (k a)) -> procs_free (m ≫= k).
Proof.
  intros Hm Hk g s. unfold mbind, M_bind. rewrite Hm. destruct (m s) as [[s1 a]|]; [|done]. cbn. apply Hk.
Qed.

Lemma unref_procs_free f : procs_free (file_unref ops f).
Proof.
  assert (Hf : procs_free (file_at f : KM file_t)).
  { intros g s. unfold file_at. cbn [k_files set_procs]. by destruct (k_files s !! f). }
  unfold file_unref, file_free, upd_file. case_if; [done|]. apply bind_procs_free; [done|]. intros x. case_if; [done|].
  apply bind_procs_free; [by apply bind_procs_free|]. intros _. case_if; [|done]. apply bind_procs_free; [|done].
  apply bind_procs_free; [done|]. intros y. apply bind_procs_free; [|done].
  intros g s. unfold vfs_. cbn [k_vfs set_procs]. by destruct (close_vfs ops _ (k_vfs s)).
Qed.

Lemma for_each_procs_free {A} (l : list A) body : (forall x, procs_free (body x)) -> procs_free (for_each l body).
Proof. intros Hb. induction l as [|x l IH]; [done|]. by apply bind_procs_free. Qed.

(** So the tables may as well change first. *)
Lemma procs_first {A} (m : KM A) g Q s :
  procs_free m -> wp m (fun _ s' => Q tt s') (set_procs g s) -> wp (m ;; modify (set_procs g)) Q s.
Proof.
  intros Hm Hw. unfold wp in Hw. rewrite Hm in Hw. unfold wp, mbind, M_bind. by destruct (m s) as [[s1 a]|].
Qed.

(** All descriptors of a process that is gone. *)
Lemma drop_all_ok B X : forall (l : list Z) s, kinv B (list_to_set_disj l) X s -> (length l <= 256)%nat ->
  wp (for_each l (fun f => if f =? 0 then skip else file_unref ops f ;; skip)) (fun _ s' => kinv B ∅ X s') s.
Proof.
  induction l as [|f l IH]; intros s H Hlen; cbn [for_each]; [by wp_steps|]. rewrite list_to_set_disj_cons in H. cbn [length] in Hlen.
  wp_step. eapply wp_mono; [apply unref_if; [done|rewrite table_size; lia]|]. intros _ s1 [_ H1]. apply IH; [done|lia].
Qed.

Lemma kinv_exit B X s pid p :
  kinv B ∅ X s -> k_procs s !! pid = Some p -> (forall k, k_cur s <> Some (pid, k)) ->
  kinv B (list_to_set_disj (p_files p)) X (set_procs (delete pid) s).
Proof.
  intros H Hp Hc. set (s' := set_procs (delete pid) s).
  assert (Hs : slots s' ⊎ list_to_set_disj (p_files p) = slots s ⊎ ∅).
  { unfold slots. cbn [k_procs s' set_procs].
    pose proof (slots_new (delete pid (k_procs s)) pid p (lookup_delete_eq _ _)) as Hn.
    rewrite insert_delete_id in Hn by done. rewrite Hn. multiset_solver. }
  constructor; rewrite ?Hs; try apply H.
  - intros j q Hj. cbn in Hj. apply lookup_delete_Some in Hj as [_ Hj]. by apply (ki_procs _ _ _ _ H j).
  - intros j k Hj. cbn in *. rewrite lookup_delete_ne; [by apply (ki_cur _ _ _ _ H j k)|]. intros <-. by apply (Hc k).
  - cbn. rewrite map_size_delete_Some by (by exists p). pose proof (ki_size _ _ _ _ H). lia.
Qed.

Lemma reap_call B X s pid :
  kinv B ∅ X s -> is_Some (k_procs s !! pid) -> (forall k, k_cur s <> Some (pid, k)) ->
  wp (reap_files ops pid) (fun _ s' => kinv B ∅ X s') s.
Proof.
  intros H [p Hp] Hc. unfold reap_files. wp_step. unfold wp at 1. rewrite Hp. sb.
  apply procs_first.
  - apply for_each_procs_free. intros f. case_if; [done|]. apply bind_procs_free; [apply unref_procs_free|done].
  - apply drop_all_ok; [by apply kinv_exit|]. by rewrite (po_files p (ki_procs _ _ _ _ H pid p Hp)).
Qed.

Definition steady {A} (m : KM A) : Prop := forall s s' a, m s = Some (s', a) -> same s s'.

Lemma bind_steady {A C : Type} (m : KM A) (k : A -> KM C) : steady m -> (forall a, steady (k a)) -> steady (m ≫= k).
Proof.
  intros Hm Hk s s' a. unfold mbind, M_bind. destruct (m s) as [[s1 b]|] eqn:E; [|done]. intros E2.
  destruct (Hm _ _ _ E), (Hk _ _ _ _ E2). split; congruence.
Qed.

Lemma unref_steady f : steady (file_unref ops f).
Proof.
  assert (Hf : steady (file_at f : KM file_t)).
  { intros s s' x. unfold file_at. destruct (k_files s !! f); [|done]. by intros [= <- <-]. }
  assert (Hret : forall (A : Type) (a : A), steady (mret a : KM A)) by (intros A a s s' x [= <- <-]; done).
  assert (Hmod : forall h, steady (modify (set_fmap h) : KM unit)) by (intros h s s' x [= <- <-]; done).
  unfold file_unref, file_free, upd_file. case_if; [apply Hret|]. apply bind_steady; [done|]. intros x. case_if; [apply Hret|].
  apply bind_steady; [by apply bind_steady|]. intros _. case_if; [|apply Hret]. apply bind_steady; [|done].
  apply bind_steady; [done|]. intros y. apply bind_steady; [|done].
  intros s s' []. unfold vfs_. destruct (close_vfs ops _ (k_vfs s)); [|done]. by intros [= <-].
Qed.

(** exec gives a file up before it clears the descriptor. *)
Lemma exec_one_ok B X s i p j f :
  kinv B ∅ X s -> running s i p -> ld (p_files p) j = Some f -> f <> 0 ->
  wp (file_unref ops f ;; set_slot j 0) (fun _ s' => k_cur s' = k_cur s /\ kinv B ∅ X s') s.
Proof.
  intros H Hr Hf Hne. pose proof Hr as [[k Hk] Hp]. pose proof (running_ok _ _ _ _ _ _ H Hr) as Hok.
  pose proof (ld_Some_lt _ _ _ Hf) as Hj. set (p' := set_files (<[Z.to_nat j := 0]> (p_files p)) p).
  assert (H1 : kinv B ({[+ f +]} ⊎ ∅) X (set_procs (<[i := p']>) s)).
  { assert (H0 : kinv B ({[+ 0 +]} ⊎ ∅) X s) by by apply kinv_zero. eapply kinv_proc; [exact H0|done| |].
    - destruct Hok. constructor; [|done..]. cbn. by rewrite length_insert.
    - cbn [p' p_files set_files]. rewrite ld_nonneg in Hf by lia. pose proof (table_insert _ _ 0 f Hf). multiset_solver. }
  pose proof (file_unref_ok B ∅ X _ f H1 Hne size_le_1023) as Hw. unfold wp in Hw. rewrite unref_procs_free in Hw.
  unfold wp, mbind, M_bind. destruct (file_unref ops f s) as [[s1 r]|] eqn:E; [|done]. cbn in Hw.
  destruct Hw as [[Hc _] H2]. destruct (unref_steady f s s1 r E) as [Hc1 Hp1].
  assert (Hr1 : running s1 i p) by (split; [exists k; by rewrite Hc1|by rewrite Hp1]).
  assert (Hset : wp (set_slot j 0) (fun _ s' => s' = set_procs (<[i := p']>) s1) s1).
  { unfold set_slot. wp_step. eapply run_cur_proc; [done|]. wp_step. eapply wp_lift; [by apply st_in|].
    by eapply run_upd_proc. }
  unfold wp in Hset. destruct (set_slot j 0 s1) as [[s2 []]|]; [|done]. subst s2. split; [done|]. done.
Qed.

Lemma exec_call B X s i p : kinv B ∅ X s -> running s i p -> wp (exec_files ops) (fun _ s' => kinv B ∅ X s') s.
Proof.
  intros H Hr. unfold exec_files.
  apply (wp_for_each (fun rest s' => k_cur s' = k_cur s /\ kinv B ∅ X s' /\ Forall (fun j => 0 <= j < 256) rest)).
  - split; [done|]. split; [done|]. apply Forall_fmap, Forall_seq. intros n Hn. cbn. lia.
  - intros j rest s1 (Hc1 & H1 & Hall). apply Forall_cons_1 in Hall as [Hj Hall].
    destruct (running_cur s s1 i p Hr Hc1 _ _ _ H1) as [p1 Hr1].
    destruct (ld_files p1 j (running_ok _ _ _ _ _ _ H1 Hr1) Hj) as [f Hf]. wp_step. eapply wp_slot; [done..|].
    case_if; b2p; [by wp_steps|]. destruct (slot_live _ _ _ _ _ _ _ _ H1 Hr1 Hf) as [->|[x Hx]]; [done|]. wp_step.
    eapply wp_file_at; [done|]. case_if; [|by wp_steps]. eapply wp_mono; [by eapply exec_one_ok|].
    intros _ s2 [Hc2 H2]. split; [congruence|done].
  - intros s1 (_ & H1 & _). done.
Qed.

(** ** poll and select *)

Lemma poll_one_ok B E X s i p q Q : kinv B E X s -> running s i p -> (forall r, Q r s) -> wp (poll_one ops q) Q s.
Proof.
  intros H Hr HQ. unfold poll_one, MAX_FD. destruct (_ || _) eqn:Hb; [by wp_steps|]. b2p. wp_step.
  destruct (ld_files p (pf_fd q) (running_ok _ _ _ _ _ _ H Hr)) as [f Hf]; [lia|]. eapply wp_slot; [done..|]. wp_step.
  eapply file_node_ok; [done|intros _; by wp_steps| |by eapply slot_live]. intros x n _ _ _ _ Hv. wp_step.
  destruct (c_poll (k_vfs s) _ n (or_if (has (pf_events q) POLLOUT) VFS_POLLOUT (or_if (has (pf_events q) POLLIN) VFS_POLLIN 0))
    (ki_vfs _ _ _ _ H) Hv) as [rev Hrev]. eapply wp_vget; [done|]. by wp_steps.
Qed.

Lemma poll_scan_ok B E X s i p : forall l ready Q,
  kinv B E X s -> running s i p -> (forall l' r, length l' = length l -> Q (l', r) s) -> wp (poll_scan ops l ready) Q s.
Proof.
  induction l as [|q l IH]; intros ready Q H Hr HQ; cbn [poll_scan]; [wp_steps; by apply HQ|]. wp_step.
  eapply poll_one_ok; [done..|]. intros [q' c]. cbv beta iota. wp_step. apply IH; [done..|]. intros l' r Hl. cbv beta iota. wp_steps.
  apply HQ. cbn. auto.
Qed.

Lemma pollfds_ok n : forall m, zlen m = 8 * Z.of_nat n -> exists l, pollfds n m = Some l /\ length l = n.
Proof.
  induction n as [|n IH]; intros m Hm; cbn [pollfds]; [by exists []|]. unfold ld32, ld16.
  destruct (ld_in m 0) as [b0 H0]; [lia|]. destruct (ld_in m (0 + 1)) as [b1 H1]; [lia|].
  destruct (ld_in m (0 + 2)) as [b2 H2]; [lia|]. destruct (ld_in m (0 + 3)) as [b3 H3]; [lia|].
  destruct (ld_in m 4) as [b4 H4]; [lia|]. destruct (ld_in m (4 + 1)) as [b5 H5]; [lia|].
  destruct (ld_in m 6) as [b6 H6]; [lia|]. destruct (ld_in m (6 + 1)) as [b7 H7]; [lia|].
  rewrite H0, H1, H2, H3, H4, H5, H6, H7. ob.
  destruct (IH (drop 8 m)) as (l & -> & Hl); [unfold zlen in *; rewrite length_drop; lia|]. ob. eexists. split; [done|]. cbn. auto.
Qed.

Lemma pollfds_bytes (l : list pollfd) : zlen (concat (pollfd_bytes <$> l)) = 8 * zlen l.
Proof. induction l as [|q l IH]; [done|]. cbn [fmap list_fmap concat]. rewrite zlen_app, zlen_cons, IH. change (zlen (pollfd_bytes q)) with 8. lia. Qed.

(** A poll that does not wait. *)
Lemma poll_call B X s i p now u n :
  kinv B ∅ X s -> running s i p ->
  wp (poll_enter ops now u n 0) (fun t s' => k_cur s' = k_cur s /\ kinv B ∅ X s' /\ exists r, t = Return r) s.
Proof.
  intros H Hr. set (Q := fun (t : turn pollwait) s' => k_cur s' = k_cur s /\ kinv B ∅ X s' /\ exists r, t = Return r).
  assert (HQ : forall r, Q (Return r) s) by (intros r; split_and!; eauto).
  unfold poll_enter. wp_step. wp_step. pose proof Hr as [[k Hk] _]. rewrite Hk.
  case_if; [change (0 =? 0) with true; cbv iota; by wp_steps|]. case_if; [by wp_steps|]. case_if; [by wp_steps|]. b2p. wp_step. apply wp_kmalloc. intros a l Ha. case_if; b2p.
  { wp_steps. split; [done|]. split; [by apply kinv_alloc|eauto]. }
  destruct Ha as [->|[_ Ha]]; [done|]. rewrite (ki_bufs _ _ _ _ H) in Ha. wp_step. wp_step.
  assert (H1 : kinv (<[a := []]> B) ∅ X (set_bufs (<[a := []]>) (set_alloc l s))) by by apply kinv_bufs, kinv_alloc.
  assert (Hr1 : running (set_bufs (<[a := []]>) (set_alloc l s)) i p) by by apply (running_same s). wp_step.
  eapply user_copy_in_ok; [exact Hr1|by eapply running_ok|lia|]. intros m r Hm. cbv beta iota.
  assert (Hfree : forall s2 (t : turn pollwait), kinv (<[a := []]> B) ∅ X s2 -> k_cur s2 = k_cur s ->
    (exists r, t = Return r) -> wp (kfree a ;; mret t) Q s2).
  { intros s2 t H2 Hc2 Ht. wp_step. eapply wp_kfree; [done|apply lookup_insert_eq| |done]. rewrite delete_insert_id by done.
    intros H3. by wp_steps. }
  case_if; [apply Hfree; eauto|]. wp_step. destruct (pollfds_ok (Z.to_nat n) m) as (fds & Hfds & Hlen); [lia|].
  eapply wp_lift; [done|]. cbn [poll_round]. wp_step. eapply poll_scan_ok; [exact H1|done|]. intros fds' ready Hl'. cbv beta iota.
  change (0 =? 0) with true. rewrite orb_true_r. cbn [orb]. cbv iota. wp_step.
  eapply user_copy_out_ok; [exact H1|exact Hr1| |].
  { rewrite pollfds_bytes. pose proof (zlen_nonneg fds'). lia. }
  intros p2 r2 _ _ H2. apply Hfree; eauto.
Qed.

Lemma select_bit_ok B E X s asked f bits fd res Q :
  kinv B E X s -> f = 0 \/ is_Some (k_files s !! f) -> (forall r, Q r s) -> wp (select_bit ops asked f bits fd res) Q s.
Proof.
  intros H Hf HQ. unfold select_bit. destruct asked as [o|]; [|by wp_steps]. case_if; [|by wp_steps]. wp_step.
  eapply file_node_ok; [done|intros _; by wp_steps| |done]. intros x n _ _ _ _ Hv. wp_step.
  destruct (c_poll (k_vfs s) _ n bits (ki_vfs _ _ _ _ H) Hv) as [rev Hrev]. eapply wp_vget; [done|]. by wp_steps.
Qed.

Lemma select_scan_ok B E X s i p r w e : forall n fd acc Q,
  kinv B E X s -> running s i p -> 0 <= fd -> fd + Z.of_nat n <= 256 -> (forall a, Q a s) ->
  wp (select_scan ops n fd r w e acc) Q s.
Proof.
  induction n as [|n IH]; intros fd [[[rr rw] re] ready] Q H Hr H0 Hn HQ; cbn [select_scan]; [by wp_steps|]. wp_step.
  destruct (ld_files p fd (running_ok _ _ _ _ _ _ H Hr)) as [f Hf]; [lia|]. eapply wp_slot; [done..|].
  pose proof (slot_live _ _ _ _ _ _ _ _ H Hr Hf) as Hl. wp_step.
  eapply select_bit_ok; [done..|]. intros [r1 y1]. cbv beta iota. wp_step.
  eapply select_bit_ok; [done..|]. intros [r2 y2]. cbv beta iota. wp_step.
  eapply select_bit_ok; [done..|]. intros [r3 y3]. cbv beta iota. apply IH; done || lia.
Qed.

Lemma put_set_ok B X s0 s u w (k : KM (turn selwait)) :
  kinv B ∅ X s -> k_cur s = k_cur s0 -> (exists i p, running s i p) ->
  (forall s', kinv B ∅ X s' -> k_cur s' = k_cur s0 -> (exists i p, running s' i p) ->
     wp k (fun _ s' => k_cur s' = k_cur s0 /\ kinv B ∅ X s') s') ->
  wp (put_set u w ;; k) (fun _ s' => k_cur s' = k_cur s0 /\ kinv B ∅ X s') s.
Proof.
  intros H Hc (i & p & Hr) Hk. wp_step. unfold put_set. case_if; [wp_steps; apply Hk; eauto|]. wp_step.
  eapply user_copy_out_ok; [done..|split; [lia|]|]; [done|]. intros p' r Hr' _ H'. wp_steps. apply Hk; eauto.
Qed.

Lemma select_round_ok B X s i p now w :
  kinv B ∅ X s -> running s i p -> 0 <= sw_nfds w <= 256 ->
  wp (select_round ops now w) (fun _ s' => k_cur s' = k_cur s /\ kinv B ∅ X s') s.
Proof.
  intros H Hr Hn. unfold select_round. wp_step. eapply select_scan_ok; [done..|lia|lia|]. intros [[[rr rw] re] ready]. cbv beta iota.
  case_if; [|by wp_steps]. apply put_set_ok; [done|done|eauto|]. intros s1 H1 Hc1 R1. apply put_set_ok; [done..|].
  intros s2 H2 Hc2 R2. apply put_set_ok; [done..|]. intros s3 H3 Hc3 R3. by wp_steps.
Qed.

Lemma ld32_total (m : mem) i : 0 <= i -> i + 4 <= zlen m -> exists w, ld32 m i = Some w.
Proof.
  intros Hi Hm. unfold ld32. destruct (ld_in m i) as [b0 ->]; [lia|]. destruct (ld_in m (i + 1)) as [b1 ->]; [lia|].
  destruct (ld_in m (i + 2)) as [b2 ->]; [lia|]. destruct (ld_in m (i + 3)) as [b3 ->]; [lia|]. ob. eauto.
Qed.

Lemma fdset_ok (m : mem) : zlen m = 32 -> exists w, fdset m = Some w.
Proof.
  intros Hm. unfold fdset. assert (Hall : Forall (fun i => (i < 8)%nat) (seq 0 8)) by (apply Forall_seq; lia).
  induction Hall as [|i l Hi _ [w IH]]; cbn [foldr]; [by exists 0|].
  destruct (ld32_total m (4 * Z.of_nat i)) as [x ->]; [lia..|]. ob. rewrite IH. ob. eauto.
Qed.

Lemma get_set_ok i p u s Q : running s i p -> proc_ok p -> (forall r, Q r s) -> wp (get_set u) Q s.
Proof.
  intros Hr Hok HQ. unfold get_set. case_if; [by wp_steps|]. wp_step. eapply user_get_ok; [done..|lia|]. intros m Hm. wp_step.
  destruct (fdset_ok m Hm) as [w Hw]. eapply wp_lift; [done|]. by wp_steps.
Qed.

Lemma select_call B X s i p now ua :
  kinv B ∅ X s -> running s i p ->
  wp (select_enter ops now ua) (fun _ s' => k_cur s' = k_cur s /\ kinv B ∅ X s') s.
Proof.
  intros H Hr. pose proof (running_ok _ _ _ _ _ _ H Hr) as Hok. unfold select_enter. case_if; [by wp_steps|]. wp_step. wp_step.
  set (Q := fun (_ : turn selwait) s' => k_cur s' = k_cur s /\ kinv B ∅ X s').
  pose proof Hr as [[k Hk] _]. rewrite Hk. wp_step. eapply user_get_ok; [done..|lia|]. intros a Ha. wp_step.
  eapply word_ok; [lia..|]. intros nfds Hn. wp_step. eapply word_ok; [lia..|]. intros ur _. wp_step.
  eapply word_ok; [lia..|]. intros uw _. wp_step. eapply word_ok; [lia..|]. intros ue _. wp_step.
  eapply word_ok; [lia..|]. intros utv _. unfold MAX_FD. destruct (_ || _) eqn:Hb; [by wp_steps|]. b2p.
  case_if; [by wp_steps|]. wp_step.
  assert (Hrest : forall ticks, wp (orig_r ← get_set ur; orig_w ← get_set uw; orig_e ← get_set ue;
    select_round ops now (Selwait nfds ur uw ue orig_r orig_w orig_e (bool_decide (ticks = None)) (bool_decide (ticks = Some 0))
      match ticks with None => 0 | Some t => u32 (now + t) end)) Q s).
  { intros ticks. wp_step. eapply get_set_ok; [done..|]. intros o1. wp_step. eapply get_set_ok; [done..|]. intros o2. wp_step.
    eapply get_set_ok; [done..|]. intros o3. eapply select_round_ok; [done..|]. cbn. word_lia. }
  case_if; [wp_step; apply (Hrest None)|]. wp_step. eapply user_get_ok; [done..|lia|]. intros tv Htv. wp_step.
  eapply word_ok; [lia..|]. intros sec _. wp_step. eapply word_ok; [lia..|]. intros usec _. wp_step.
  apply (Hrest (Some _)).
Qed.

(** ** Runs *)

(** What a process can do; the scheduler switches between processes, and a
    process changes its own memory as it likes. *)
Inductive sysop :=
  | SOpen (name flags : Z)
  | SRead (fd buf size : Z)
  | SWrite (fd buf size : Z)
  | SClose (fd : Z)
  | SLseek (fd offset whence : Z)
  | SFcntl (fd cmd arg : Z)
  | SDup (fd : Z)
  | SDup2 (oldfd newfd : Z)
  | SIoctl (stack : mem) (fd cmd arg : Z)
  | SPipe (fds : Z)
  | SPoll (now fds n : Z)
  | SSelect (now args : Z)
  | SFork (child : Z)
  | SExec
  | SReap (pid : Z)
  | SSwitch (pid : Z) (kernel : bool)
  | SStore (m : umem).

Definition run_op (o : sysop) : KM unit :=
  match o with
  | SOpen name flags => sys_open ops name flags ;; skip
  | SRead fd buf size => sys_read ops fd buf size ;; skip
  | SWrite fd buf size => sys_write ops fd buf size ;; skip
  | SClose fd => sys_close ops fd ;; skip
  | SLseek fd offset whence => sys_lseek ops fd offset whence ;; skip
  | SFcntl fd cmd arg => sys_fcntl fd cmd arg ;; skip
  | SDup fd => sys_dup fd ;; skip
  | SDup2 oldfd newfd => sys_dup2 ops oldfd newfd ;; skip
  | SIoctl stack fd cmd arg => sys_ioctl ops sv stack fd cmd arg ;; skip
  | SPipe fds => sys_pipe ops sv fds ;; skip
  | SPoll now fds n => poll_enter ops now fds n 0 ;; skip
  | SSelect now args => select_enter ops now args ;; skip
  | SFork child => fork_files ops child
  | SExec => exec_files ops
  | SReap pid => reap_files ops pid
  | SSwitch pid kernel => modify (set_cur (Some (pid, kernel)))
  | SStore m => upd_proc (set_umem m)
  end.

(** A process is running; arguments are words, a write stays below the file
    system's limit, a new process is new, and the dead process is not the
    running one. *)
Definition op_ok (o : sysop) s : Prop :=
  (exists i p, running s i p) /\
  match o with
  | SRead _ _ size => is_u32 size
  | SWrite fd _ size => is_u32 size /\ write_fits s fd size
  | SDup2 _ newfd => 0 <= newfd < 256
  | SIoctl stack _ _ _ => zlen stack = 124
  | SFork child => k_procs s !! child = None /\ Z.of_nat (size (k_procs s)) < PROCS_MAX
  | SReap pid => is_Some (k_procs s !! pid) /\ forall k, k_cur s <> Some (pid, k)
  | SSwitch pid _ => is_Some (k_procs s !! pid)
  | SStore m => mapped m
  | _ => True
  end.

Lemma run_op_ok X s o :
  kinv ∅ ∅ X s -> room X -> op_ok o s -> wp (run_op o) (fun _ s' => exists X', (size X' <= size X + LEAK)%nat /\ kinv ∅ ∅ X' s') s.
Proof.
  intros H HX [(i & p & Hr) Ho]. assert (HO : opens_ok X) by (unfold room, opens_ok in *; lia).
  assert (Hd : forall A (m : KM A), wp m (fun _ s' => k_cur s' = k_cur s /\ kinv ∅ ∅ X s') s ->
    wp (m ;; skip) (fun _ s' => exists X', (size X' <= size X + LEAK)%nat /\ kinv ∅ ∅ X' s') s).
  { intros A m Hm. wp_step. eapply wp_mono; [done|]. intros a s' [_ H']. wp_steps. exists X. split; [lia|done]. }
  assert (Hl : forall m, wp m (leaves ∅ X) s ->
    wp (m ;; skip) (fun _ s' => exists X', (size X' <= size X + LEAK)%nat /\ kinv ∅ ∅ X' s') s).
  { intros m Hm. wp_step. eapply wp_mono; [done|]. intros a s' (X' & Hle & H'). wp_steps. by exists X'. }
  destruct o; cbn [run_op].
  - by apply Hd, open_call.
  - by apply Hd, read_call.
  - destruct Ho. by apply Hd, write_call.
  - by apply Hd, close_call.
  - by apply Hd, lseek_call.
  - by apply Hd, fcntl_call.
  - by apply Hd, dup_call.
  - by apply Hd, dup2_call.
  - apply Hl. by eapply ioctl_call.
  - apply Hl. by eapply pipe_call.
  - apply Hd. eapply wp_mono; [by eapply poll_call|]. intros t s' (Hc & H' & _). done.
  - apply Hd. by eapply select_call.
  - destruct Ho. by eapply fork_call.
  - eapply wp_mono; [by eapply exec_call|]. intros ? s' H'. exists X. split; [lia|done].
  - destruct Ho. eapply wp_mono; [by apply reap_call|]. intros ? s' H'. exists X. split; [lia|done].
  - wp_step. exists X. split; [lia|]. destruct H. constructor; try done. cbn. by intros j k [= <- <-].
  - eapply run_upd_proc; [done|]. exists X. split; [lia|]. by eapply kinv_umem.
Qed.

(** The states that [n] steps reach from [s0]. *)
Inductive reached s0 : nat -> kst F -> Prop :=
  | reached_start : reached s0 0 s0
  | reached_step n s o s' : reached s0 n s -> op_ok o s -> run_op o s = Some (s', tt) -> reached s0 (S n) s'.

(** Nothing is open yet. *)
Record fresh s : Prop := {
  fr_procs : forall i p, k_procs s !! i = Some p -> proc_ok p /\ p_files p = replicate 256 0;
  fr_cur : forall i k, k_cur s = Some (i, k) -> is_Some (k_procs s !! i);
  fr_size : Z.of_nat (size (k_procs s)) <= PROCS_MAX;
  fr_win : length (terminal_winsize s) = 4%nat;
  fr_empty : k_files s = ∅ /\ k_bufs s = ∅;
  fr_vfs : v_inv (k_vfs s) ∅
}.

Lemma fresh_kinv s : fresh s -> kinv ∅ ∅ ∅ s.
Proof.
  intros [Hp Hc Hs Hw [Hf Hb] Hv]. constructor; try done.
  - intros i p Hi. by apply (Hp i p).
  - rewrite Hf. intros f x. by rewrite lookup_empty.
  - intros f. rewrite (right_id_L ∅ (⊎)). unfold slots. rewrite elem_of_list_to_set_disj.
    intros Hin Hne. exfalso. apply list_elem_of_In, in_concat in Hin as (l & Hl & Hin). apply list_elem_of_In in Hl, Hin.
    apply list_elem_of_fmap in Hl as (p & -> & Hl). apply list_elem_of_fmap in Hl as ([i q] & -> & Hl). apply elem_of_map_to_list in Hl.
    destruct (Hp i q Hl) as [_ Hq]. cbn in Hin. rewrite Hq in Hin. apply elem_of_replicate_inv in Hin. done.
  - unfold nodes. rewrite Hf, map_to_list_empty. done.
Qed.

Lemma reached_kinv s0 n s :
  fresh s0 -> reached s0 n s -> 512 * Z.of_nat n < 2 ^ 30 - 512 -> exists X, (size X <= n * LEAK)%nat /\ kinv ∅ ∅ X s.
Proof.
  intros H0 Hr. induction Hr as [|n s o s' Hr IH Ho Hrun]; intros Hn; [exists ∅; split; [|by apply fresh_kinv]; done|].
  destruct IH as (X & HX & H); [lia|]. assert (room X) by (unfold room, LEAK in *; lia).
  pose proof (run_op_ok X s o H ltac:(done) Ho) as Hw. unfold wp in Hw. rewrite Hrun in Hw. destruct Hw as (X' & HX' & H').
  exists X'. split; [lia|done].
Qed.
End Trace.
