(* ===== verification/FdAuth.v ===== *)
(** * Who may change a directory

    The commands of [_dirctl_handle] that change a directory need write and
    search permission on it: without, they make no call to the file system
    but lookups. *)
From stdpp Require Import gmultiset.
From S2P Require Import Prelude StateM Klib Validate VfsPath Vfs VfsSpec Fd FdSpec FdCalls.

#[local] Open Scope Z_scope.

(** create, mkdir, rmdir, unlink, rename, link and symlink *)
Definition CHANGING : list Z := [0x310F; 0x3103; 0x3104; 0x3105; 0x3109; 0x3106; 0x3107].

Section Auth.
Context {F : Type} {ops : Z -> vops F} {sv : services F} `{VC : !VfsContract ops sv}.
#[local] Abbreviation KM := (M (kst F)).
Implicit Types (s : kst F) (v : vstate F).

(** A lookup of some name in [dir]. *)
Definition look (dir : nptr) v v' : Prop := exists nm r, finddir_vfs ops (Some dir) nm v = Some (v', r).

(** However often names are looked up in [dir], the user [euid], [egid] may
    not change it. *)
Definition barred (dir : nptr) (euid egid : Z) v : Prop :=
  forall v' n, rtc (look dir) v v' -> get_node dir v' = Some n ->
    vfs_check_perm (Some (mk_task false (Some (euid, egid)))) (Some n) (Z.lor VFS_PERM_WRITE VFS_PERM_EXEC) < 0.

Section Denied.
Context (dir : nptr) (s0 : kst F) (i : Z) (p : process).
Hypothesis Hbar : barred dir (p_euid p) (p_egid p) (k_vfs s0).

Definition at_most_looked s : Prop :=
  rtc (look dir) (k_vfs s0) (k_vfs s) /\ k_cur s = Some (i, false) /\ k_procs s !! i = Some p.

(** A step that keeps this, and a call that also fails. *)
Definition looks {A} (m : KM A) : Prop :=
  forall s s' a, at_most_looked s -> m s = Some (s', a) -> at_most_looked s'.
Definition denies (m : KM Z) : Prop :=
  forall s s' r, at_most_looked s -> m s = Some (s', r) -> r < 0 /\ at_most_looked s'.

Lemma denies_ret r : r < 0 -> denies (mret r).
Proof. intros Hr s s' r' H [= <- <-]. done. Qed.

Lemma denies_bind {A} (m : KM A) k : looks m -> (forall a, denies (k a)) -> denies (m ≫= k).
Proof.
  intros Hm Hk s s' r H. unfold mbind, M_bind. destruct (m s) as [[s1 a]|] eqn:E; [|done]. cbn. apply Hk. by eapply Hm.
Qed.

Lemma looks_bind {A B} (m : KM A) (k : A -> KM B) : looks m -> (forall a, looks (k a)) -> looks (m ≫= k).
Proof.
  intros Hm Hk s s' r H. unfold mbind, M_bind. destruct (m s) as [[s1 a]|] eqn:E; [|done]. cbn. apply Hk. by eapply Hm.
Qed.

Lemma looks_ret {A} (a : A) : looks (mret a).
Proof. by intros s s' r H [= <- <-]. Qed.
Lemma looks_lift {A} (o : option A) : looks (lift o).
Proof. intros s s' a H. unfold lift. destruct o; [|done]. by intros [= <- <-]. Qed.
Lemma looks_gets {A} (g : kst F -> A) : looks (gets g).
Proof. by intros s s' a H [= <- <-]. Qed.
Lemma looks_bufs g : looks (modify (set_bufs g)).
Proof. by intros s s' a H [= <- <-]. Qed.
Lemma looks_kmalloc : looks kmalloc.
Proof. intros s s' a H. unfold kmalloc. destruct (k_alloc s); by intros [= <- <-]. Qed.
Lemma looks_buf_at a : looks (buf_at a).
Proof. intros s s' x H. unfold buf_at. destruct (k_bufs s !! a); [|done]. by intros [= <- <-]. Qed.
Lemma looks_cur_proc : looks cur_proc.
Proof.
  intros s s' x H. unfold cur_proc. destruct (k_cur s) as [[j k]|]; [|done]. cbn. destruct (k_procs s !! j); [|done].
  by intros [= <- <-].
Qed.
Lemma looks_finddir nm : looks (finddir ops dir nm).
Proof.
  intros s s' x (H & Hc & Hp). unfold finddir, vfs. destruct (finddir_vfs ops (Some dir) nm (k_vfs s)) as [[v r]|] eqn:E; [|done].
  cbn. intros [= <- <-]. split; [|done]. eapply rtc_r; [exact H|]. by exists nm, r.
Qed.

Lemma looks_kfree a : looks (kfree a).
Proof.
  unfold kfree. destruct (a =? 0); [apply looks_ret|]. apply looks_bind; [apply looks_buf_at|]. intros _. apply looks_bufs.
Qed.

Lemma looks_copy_name u : looks (_copy_name_arg u).
Proof.
  unfold _copy_name_arg, copy_path_from_user. apply looks_bind; [apply looks_cur_proc|]. intros q. apply looks_bind; [apply looks_lift|].
  intros x. case_if; [apply looks_ret|]. apply looks_bind; [apply looks_cur_proc|]. intros q'. apply looks_bind; [apply looks_lift|].
  intros y. case_if; [apply looks_ret|]. apply looks_bind; [apply looks_kmalloc|]. intros a. apply looks_bind; [apply looks_lift|].
  intros [nm|]; [|apply looks_ret]. apply looks_bind; [apply looks_bufs|]. intros _. apply looks_ret.
Qed.

(** The permission check answers no. *)
Lemma dir_wx_no k : denies (k (- EACCES)) -> denies (r ← _dir_wx dir; k r).
Proof.
  intros Hk s s' r H. pose proof H as (Hl & Hc & Hp). unfold _dir_wx, check_perm, vget, mbind, M_bind.
  destruct (get_node dir (k_vfs s)) as [n|] eqn:Hn; [|done]. cbn. rewrite Hc. cbn. unfold cur_proc. rewrite Hc. cbn. rewrite Hp. cbn.
  pose proof (Hbar _ n Hl Hn) as Hno. rewrite (proj2 (Z.ltb_lt _ _)) by done. by apply Hk.
Qed.

Lemma denies_kfree a r : r < 0 -> denies (kfree a ;; mret r).
Proof. intros Hr. apply denies_bind; [apply looks_kfree|]. intros _. by apply denies_ret. Qed.

Lemma denies_both a1 a2 r : r < 0 -> denies (free_both a1 a2 r).
Proof. intros Hr. unfold free_both. apply denies_bind; [apply looks_kfree|]. intros _. by apply denies_kfree. Qed.

Lemma denies_name u k : (forall a nm, denies (k a nm)) -> denies (with_name u k).
Proof.
  intros Hk. unfold with_name. apply denies_bind; [apply looks_copy_name|]. intros a. case_if; [by apply denies_ret|].
  apply denies_bind; [apply looks_buf_at|]. intros nm. apply denies_bind; [apply looks_lift|]. intros b.
  case_if; [by apply denies_kfree|]. apply Hk.
Qed.

Lemma denies_names u1 u2 b k : (forall a1 a2 n1 n2, denies (k a1 a2 n1 n2)) -> denies (with_names u1 u2 b k).
Proof.
  intros Hk. unfold with_names. apply denies_bind; [apply looks_copy_name|]. intros a1. case_if; [by apply denies_ret|].
  apply denies_bind; [apply looks_copy_name|]. intros a2. case_if; [by apply denies_kfree|].
  apply denies_bind; [apply looks_buf_at|]. intros n1. apply denies_bind; [apply looks_buf_at|]. intros n2.
  apply denies_bind; [destruct b; [apply looks_lift|apply looks_ret]|]. intros s1.
  apply denies_bind; [destruct s1; [apply looks_lift|apply looks_ret]|]. intros [].
  - apply Hk.
  - by apply denies_both.
Qed.

Lemma denies_arg size arg k : (forall a, denies (k a)) -> denies (with_arg size arg k).
Proof.
  intros Hk. unfold with_arg, user_copy_in. case_if; [by apply denies_ret|].
  apply denies_bind; [apply looks_bind; [apply looks_cur_proc|]; intros q; apply looks_lift|]. intros [a r].
  case_if; [by apply denies_ret|]. apply Hk.
Qed.

Lemma denies_word a j k : (forall w, denies (k w)) -> denies (w ← word a j; k w).
Proof.
  intros Hk. apply denies_bind; [|done]. unfold word. apply looks_bind; [apply looks_lift|]. intros w. apply looks_ret.
Qed.

(** [p ? p : op] after the check. *)
Lemma denies_op (op : KM Z) k : denies (k (- EACCES)) -> denies (p ← _dir_wx dir; ret ← (if p =? 0 then op else mret p); k ret).
Proof. intros Hk. apply dir_wx_no. exact Hk. Qed.

Lemma denies_owner a op : denies (as_owner dir a op).
Proof. unfold as_owner. apply denies_op. by apply denies_kfree. Qed.

Lemma denies_absent a nm k : denies k -> denies (absent ops dir a nm k).
Proof.
  intros Hk. unfold absent. apply denies_bind; [apply looks_finddir|]. intros [n|]; [by apply denies_kfree|done].
Qed.

Lemma denies_present a nm k : (forall n, denies (k n)) -> denies (present ops dir a nm k).
Proof.
  intros Hk. unfold present. apply denies_bind; [apply looks_finddir|]. intros [n|]; [done|by apply denies_kfree].
Qed.

Lemma denies_dirctl cmd arg : cmd ∈ CHANGING -> denies (_dirctl_handle ops dir cmd arg).
Proof.
  unfold CHANGING. rewrite !elem_of_cons. intros [->|[->|[->|[->|[->|[->|[->|Hn]]]]]]]; [..|by apply not_elem_of_nil in Hn]; cbn.
  - apply denies_arg. intros a. apply denies_word. intros u. apply denies_name. intros b nm. apply denies_absent, denies_owner.
  - apply denies_name. intros b nm. apply denies_absent, denies_owner.
  - apply denies_name. intros b nm. apply denies_present. intros n. apply denies_owner.
  - apply denies_name. intros b nm. apply denies_present. intros n. apply denies_owner.
  - apply denies_arg. intros a. apply denies_word. intros u1. apply denies_word. intros u2. apply denies_names. intros a1 a2 n1 n2.
    apply denies_bind; [apply looks_finddir|]. intros [n|]; [|by apply denies_both]. apply denies_op. by apply denies_both.
  - apply denies_arg. intros a. apply denies_word. intros u1. apply denies_word. intros u2. apply denies_names. intros a1 a2 n1 n2.
    apply denies_bind; [apply looks_finddir|]. intros [n|]; [|by apply denies_both].
    apply denies_bind; [apply looks_finddir|]. intros [m|]; [by apply denies_both|]. apply denies_op. by apply denies_both.
  - apply denies_arg. intros a. apply denies_word. intros u1. apply denies_word. intros u2. apply denies_names. intros a1 a2 n1 n2.
    apply denies_bind; [apply looks_finddir|]. intros [n|]; [by apply denies_both|]. apply denies_op. by apply denies_both.
Qed.
End Denied.

End Auth.
