(* ===== verification/TmpfsVfs.v ===== *)
(** * tmpfs behind the VFS

    The method table [tmpfs_ops] of [fs/vfs/tmpfs/tmpfs.c] as a file system of
    [Vfs.v], on the operations of [Tmpfs.v], and the proof that with it the
    VFS keeps the contract the descriptor layer relies on ([VfsContract]).

    The [vfs_node] embedded in each [tmpfs_node] is the node the VFS sees: a
    method starts from the names, sizes and counts the VFS left there, and
    what it writes is what the VFS sees next. *)
From stdpp Require Import gmultiset.
From S2P Require Import Prelude StateM Klib VfsPath Vfs VfsSpec Tmpfs TmpfsSpec Fd FdSpec.

#[local] Open Scope Z_scope.

(** The address of [tmpfs_ops]. *)
Definition TMPFS_OPS : Z := 1.

(** The state of the file system: its nodes, what [kmalloc] is going to
    return for nodes and for contents, and the static [_tmp_de]. *)
Record tmp_state := TmpState { te_fs : tmpfs; te_new : list Z; te_mem : list bool; te_de : mem }.

Abbreviation VS := (vstate tmp_state).

(** The embedded [vfs_node], as the VFS left it. *)
Definition load_vnode (n : tmpfs_node) (x : vnode) : tmpfs_node :=
  TNode (t_name n) (t_type n) (t_data n) (t_size n) (t_cap n) (t_inode n) (v_name x) (v_size x) (v_refcount x)
    (t_children n) (t_pending_free n).

(** The [vfs_node] after a call: that of a new node is set by [_init_vnode]. *)
Definition store_vnode (old : option vnode) (n : tmpfs_node) : vnode :=
  match old with
  | Some x => mk_vnode (t_vname n) (v_type x) (t_vsize n) (v_inode x) (t_refcount n) (v_mode x) (v_uid x) (v_gid x)
                (v_ops x) (v_priv x)
  | None => mk_vnode (t_vname n) (t_type n) (t_vsize n) (t_inode n) (t_refcount n) 511 0 0 TMPFS_OPS None
  end.

Definition pull (v : VS) : tmpfs :=
  let s := te_fs (fs_state v) in
  Tmpfs (map_zip_with load_vnode (t_nodes s) (fs_nodes v)) (tmpfs_inode_ctr s) (tmpfs_ready s).

Definition set_tmp (t : tmp_state) (v : VS) : VS :=
  mk_vstate (mount_table v) (symlink_pool v) (fs_nodes v) (vfs_root v) t.

Definition push (s : tmpfs) (v : VS) : VS :=
  let t := fs_state v in
  mk_vstate (mount_table v) (symlink_pool v)
    (map_imap (fun a n => Some (store_vnode (fs_nodes v !! a) n)) (t_nodes s)) (vfs_root v)
    (TmpState s (te_new t) (te_mem t) (te_de t)).

(** [node->priv], the [tmpfs_node] around the node *)
Definition priv (p : nptr) : option Z := match p with NFs a => Some a | NSym _ => None end.

Definition tm {A} (m : TM A) (v : VS) : option (VS * A) := '(s, a) ← m (pull v); Some (push s v, a).

(** [kmalloc] for a node never returns one in use. *)
Definition node_alloc (v : VS) : VS * Z :=
  let t := fs_state v in
  match te_new t with
  | [] => (v, 0)
  | a :: l =>
      (set_tmp (TmpState (te_fs t) l (te_mem t) (te_de t)) v,
       if bool_decide (is_Some (t_nodes (te_fs t) !! a)) then 0 else a)
  end.

Definition data_alloc (v : VS) : VS * bool :=
  let t := fs_state v in
  match te_mem t with
  | [] => (v, false)
  | f :: l => (set_tmp (TmpState (te_fs t) (te_new t) l (te_de t)) v, f)
  end.

Definition tmp_read (p : nptr) (off size : Z) (buf : mem) (v : VS) : option (VS * mem * Z) :=
  a ← priv p; '(v, (b, r)) ← tm (_tmp_read a off size buf) v; Some (v, b, r).
Definition tmp_write (p : nptr) (off size : Z) (buf : mem) (v : VS) : option (VS * Z) :=
  a ← priv p; let '(v, found) := data_alloc v in tm (_tmp_write found a off size buf) v.
Definition tmp_open (p : nptr) (v : VS) : option VS := a ← priv p; '(v, _) ← tm (_tmp_open a) v; Some v.
Definition tmp_close (p : nptr) (v : VS) : option VS := a ← priv p; '(v, _) ← tm (_tmp_close a) v; Some v.
Definition tmp_walk (p : nptr) (name : mem) (v : VS) : option (VS * option nptr) :=
  a ← priv p; '(v, c) ← tm (_tmp_walk a name) v; Some (v, if c =? 0 then None else Some (NFs c)).
Definition tmp_create (p : nptr) (name : mem) (v : VS) : option (VS * Z) :=
  a ← priv p; let '(v, new) := node_alloc v in tm (_tmp_create new a name) v.
Definition tmp_mkdir (p : nptr) (name : mem) (v : VS) : option (VS * Z) :=
  a ← priv p; let '(v, new) := node_alloc v in tm (_tmp_mkdir new a name) v.
Definition tmp_delete (p : nptr) (name : mem) (v : VS) : option (VS * Z) := a ← priv p; tm (_tmp_delete a name) v.
Definition tmp_rmdir (p : nptr) (name : mem) (v : VS) : option (VS * Z) := a ← priv p; tm (_tmp_rmdir a name) v.
Definition tmp_rename (p : nptr) (o n : mem) (v : VS) : option (VS * Z) := a ← priv p; tm (_tmp_rename a o n) v.
Definition tmp_readdir (p : nptr) (index : Z) (v : VS) : option (VS * option (mem * Z)) :=
  a ← priv p;
  '(v, r) ← tm (_tmp_readdir a index (te_de (fs_state v))) v;
  let t := fs_state v in
  Some (match r with Some (de, _) => set_tmp (TmpState (te_fs t) (te_new t) (te_mem t) de) v | None => v end, r).

Definition tmpfs_ops (o : Z) : vops tmp_state :=
  mk_vops (Some tmp_read) (Some tmp_write) (Some tmp_open) (Some tmp_close) (Some tmp_walk) (Some tmp_create)
    (Some tmp_delete) (Some tmp_mkdir) (Some tmp_rmdir) (Some tmp_rename)
    None None None None None None None None None None None.

(** tmpfs has no ioctls; no sockets and no pipes are made. *)
Definition tmp_services : services tmp_state :=
  Services (fun o => if o =? TMPFS_OPS then Some tmp_readdir else None) (fun _ => None)
    (fun _ _ _ => mret (- EINVAL)) (fun v => Some (v, None)).

(** ** What calls leave alone *)

Section Frame.
Context {K : Type} (key : tmpfs_node -> K) (new : tmpfs_node -> Prop).
Hypothesis new_key : forall n n', new n -> key n' = key n -> new n'.

(** Every node of [s'] is one of [s] with the same key, or new. *)
Definition same (s s' : tmpfs) : Prop :=
  forall a n', t_nodes s' !! a = Some n' -> (exists n, t_nodes s !! a = Some n /\ key n' = key n) \/ new n'.

Definition frame {A} (m : TM A) : Prop := forall s s' r, m s = Some (s', r) -> same s s'.

Lemma same_refl s : same s s.
Proof. intros a n Hn. left. eauto. Qed.

Lemma same_trans s1 s2 s3 : same s1 s2 -> same s2 s3 -> same s1 s3.
Proof.
  intros H1 H2 a n Hn. destruct (H2 a n Hn) as [(n2 & Hn2 & E)|E]; [|by right].
  destruct (H1 a n2 Hn2) as [(n1 & Hn1 & E1)|E1]; [left; exists n1; split; [done|congruence]|right; by eapply new_key].
Qed.

Lemma frame_ret {A} (x : A) : frame (mret x).
Proof. intros s s' r [= <- <-]. apply same_refl. Qed.
Lemma frame_bind {A B} (m : TM A) (k : A -> TM B) : frame m -> (forall x, frame (k x)) -> frame (x ← m; k x).
Proof.
  intros Hm Hk s s' r. unfold mbind, M_bind. destruct (m s) as [[s1 x]|] eqn:E; [|done]. cbn. intros H.
  eapply same_trans; [by eapply Hm|by eapply Hk].
Qed.
Lemma frame_lift {A} (o : option A) : frame (lift o).
Proof. intros s s' r. unfold lift. destruct o; cbn; [|done]. intros [= <- <-]. apply same_refl. Qed.
Lemma frame_node_at a : frame (node_at a).
Proof. intros s s' r. unfold node_at. destruct (t_nodes s !! a); cbn; [|done]. intros [= <- <-]. apply same_refl. Qed.
Lemma frame_skip : frame skip.
Proof. apply frame_ret. Qed.
Lemma frame_gets {A} (g : tmpfs -> A) : frame (gets g).
Proof. intros s s' r [= <- <-]. apply same_refl. Qed.
Lemma frame_drop a : frame (modify (drop_node a)).
Proof. intros s s' r [= <- <-] b n Hb. cbn in Hb. apply lookup_delete_Some in Hb as [_ Hb]. left. eauto. Qed.

Lemma frame_update a f : (forall n, key (f n) = key n) -> frame (update a f).
Proof.
  intros Hf s s' r. unfold update, mbind, M_bind, node_at. destruct (t_nodes s !! a) as [n|] eqn:E; cbn; [|done].
  intros [= <- _] b m Hb. destruct (decide (b = a)) as [->|Hne].
  - rewrite put_same in Hb. injection Hb as <-. left. eauto.
  - rewrite put_other in Hb by done. left. eauto.
Qed.

Lemma frame_find_in l name : frame (find_in l name).
Proof.
  induction l as [|c l IH]; cbn [find_in]; [apply frame_ret|]. apply frame_bind; [apply frame_node_at|]. intros n.
  apply frame_bind; [apply frame_lift|]. intros []; [apply frame_ret|exact IH].
Qed.
Lemma frame_unlink_first l name : frame (unlink_first l name).
Proof.
  induction l as [|c l IH]; cbn [unlink_first]; [apply frame_ret|]. apply frame_bind; [apply frame_node_at|]. intros n.
  apply frame_bind; [apply frame_lift|]. intros []; [apply frame_ret|]. apply frame_bind; [exact IH|]. intros x. apply frame_ret.
Qed.
End Frame.

(** What a file holds; a new node holds nothing. *)
Definition content (n : tmpfs_node) : Z * option mem * Z * Z := (t_type n, t_data n, t_size n, t_cap n).
Definition empty (n : tmpfs_node) : Prop := content n = (t_type n, None, 0, 0) /\ t_type n <> VFS_SYMLINK.

Lemma empty_content n n' : empty n -> content n' = content n -> empty n'.
Proof. unfold empty, content. intros [E ?] E'. split; congruence. Qed.
Ltac new_keys := solve [exact empty_content | by intros].
Ltac frames :=
  repeat first
    [ apply frame_ret | apply frame_skip | apply frame_lift | apply frame_node_at | apply frame_gets | apply frame_drop
    | apply frame_update; done | apply frame_find_in; new_keys | apply frame_unlink_first; new_keys
    | apply frame_bind; [new_keys| |intros ?]
    | match goal with |- frame _ _ (if ?b then _ else _) => destruct b end
    | match goal with |- frame _ _ (match ?x with _ => _ end) => destruct x end ].

Abbreviation cframe := (frame content empty).

Lemma frame_walk d name : cframe (_tmp_walk d name).
Proof. unfold _tmp_walk, _find_child. frames. Qed.
Lemma frame_readdir d i de : cframe (_tmp_readdir d i de).
Proof. unfold _tmp_readdir. frames. Qed.
Lemma frame_read a off size buf : cframe (_tmp_read a off size buf).
Proof. unfold _tmp_read. frames. Qed.
Lemma frame_open a : cframe (_tmp_open a).
Proof. unfold _tmp_open. frames. Qed.
Lemma frame_close a : cframe (_tmp_close a).
Proof. unfold _tmp_close, _free_tmpfs_node. frames. Qed.
Lemma frame_delete d name : cframe (_tmp_delete d name).
Proof. unfold _tmp_delete, _free_tmpfs_node. frames. Qed.
Lemma frame_rmdir d name : cframe (_tmp_rmdir d name).
Proof. unfold _tmp_rmdir, _free_tmpfs_node, _find_child. cbv zeta. frames. Qed.
Lemma frame_rename d o n : cframe (_tmp_rename d o n).
Proof. unfold _tmp_rename, _find_child. frames. Qed.

Lemma fresh_empty name type inode n : type <> VFS_SYMLINK -> fresh_node name type inode = Some n -> empty n.
Proof.
  intros Ht. unfold fresh_node. destruct (strlcpy _ name _) as [nm|]; [|done]. cbn. destruct (strlcpy _ nm _) as [vnm|]; [|done]. cbn.
  by intros [= <-].
Qed.

Lemma frame_new new type d name : type <> VFS_SYMLINK -> cframe (new_child new type d name).
Proof.
  intros Ht. unfold new_child, _find_child. apply frame_bind; [new_keys|frames|]. intros nd. case_if; [frames|].
  apply frame_bind; [new_keys|frames|]. intros c. case_if; [frames|]. case_if; [frames|].
  intros s s' r. unfold mbind, M_bind, lift, gets, modify. cbn.
  destruct (fresh_node name type (tmpfs_inode_ctr s)) as [n|] eqn:E; [|done]. cbn.
  set (s1 := Tmpfs _ _ _). destruct (update d _ s1) as [[s2 []]|] eqn:Eu; [|done]. cbn. intros [= <- _].
  apply (same_trans _ _ empty_content _ s1); [|by eapply (frame_update _ _ d (fun d => set_children (new :: t_children d) d)); [done|exact Eu]].
  intros a m Ha. cbn in Ha. destruct (decide (a = new)) as [->|Hne].
  - rewrite lookup_insert_eq in Ha. injection Ha as <-. right. by eapply fresh_empty.
  - rewrite lookup_insert_ne in Ha by done. left. eauto.
Qed.

(** What a write leaves alone: the tree and the counts. *)
Definition links (n : tmpfs_node) : mem * mem * Z * list Z * bool :=
  (t_name n, t_vname n, t_refcount n, t_children n, t_pending_free n).

Lemma frame_write found a off size buf : frame links (fun _ => False) (_tmp_write found a off size buf).
Proof. unfold _tmp_write, _ensure_cap. cbv zeta. frames. Qed.

(** ** Files *)

Definition files_ok (s : tmpfs) : Prop :=
  forall a n, t_nodes s !! a = Some n ->
    t_type n <> VFS_SYMLINK /\ (t_type n = VFS_FILE -> exists b, holds False n b).

Lemma files_same s s' : files_ok s -> same content empty s s' -> files_ok s'.
Proof.
  intros Hf Hc a n Hn. destruct (Hc a n Hn) as [(n0 & Hn0 & [= E1 E2 E3 E4])|[[= E1 E2 E3] Ht]].
  - destruct (Hf a n0 Hn0) as [Ht Hb]. split; [congruence|]. rewrite E1. intros Ht'.
    destruct (Hb Ht') as [b [T S V D]]. exists b. split; [congruence|congruence|done|]. by rewrite E2, E4.
  - split; [done|]. exists []. split; try done. by rewrite E1, E3.
Qed.

(** A read returns whatever the buffer and the offset. *)
Lemma read_total a off (buf : mem) n s :
  t_nodes s !! a = Some n -> (t_type n = VFS_FILE -> exists b, holds False n b) -> 0 <= off ->
  exists buf' r, _tmp_read a off (zlen buf) buf s = Some (s, (buf', r)) /\ zlen buf' = zlen buf.
Proof.
  intros Ha Hf Ho. unfold _tmp_read. rewrite (run_bind _ _ _ _ _ (run_node_at _ _ _ Ha)).
  destruct (Z.eqb_spec (t_type n) VFS_FILE) as [Ht|Ht]; cbn [negb]; [|eauto].
  destruct (Hf Ht) as [b [_ Hs _ Hd]]. rewrite Hs. case_if; [eauto|]. b2p. cbv zeta.
  set (k := if zlen b - off <? zlen buf then _ else _).
  assert (Hk : 0 <= k <= zlen buf /\ k <= zlen b - off) by (pose proof (zlen_nonneg buf); unfold k; case_if; b2p; lia).
  destruct (t_data n) as [d|]; [|destruct Hd as [-> _]; rewrite zlen_nil in *; lia].
  destruct Hd as (-> & Hc & _). rewrite (run_bind _ _ s s (pad (t_cap n) b)) by done.
  rewrite (run_bind _ _ s s (splice 0 (slice off k (pad (t_cap n) b)) buf)).
  2: { unfold lift. rewrite memcpy_ok by (rewrite ?zlen_pad; lia). done. }
  eexists _, _. split; [done|]. rewrite zlen_splice; rewrite ?zlen_slice; rewrite ?zlen_pad; try lia.
Qed.

(** A write below 2 GB returns, and changes the contents of this file only. *)
Lemma write_total found a off (l : mem) n s hs :
  tinv s hs -> files_ok s -> t_nodes s !! a = Some n -> 0 <= off -> off + zlen l < 2 ^ 31 ->
  exists s' r, _tmp_write found a off (zlen l) l s = Some (s', r) /\ tinv s' hs /\ files_ok s'.
Proof.
  intros Hi Hf Ha Ho Hl. destruct (decide (t_type n = VFS_FILE)) as [Ht|Ht].
  2: { exists s, (-1). split; [|done]. unfold _tmp_write. rewrite (run_bind _ _ _ _ _ (run_node_at _ _ _ Ha)).
       by rewrite (proj2 (Z.eqb_neq _ _)). }
  destruct (proj2 (Hf a n Ha) Ht) as [b Hb]. pose proof (zlen_nonneg l).
  assert (Hat : Tmpfs.file_at False a b s s) by (exists n; auto).
  pose proof (write_wp False found a off l b s s Hat Ho ltac:(lia) ltac:(lia)) as Hw.
  apply wp_eq in Hw as (s' & r & Hrun & Hpost). exists s', r. split; [done|].
  assert (exists b' n', holds False n' b' /\ (s' = s \/ s' = put a n' s) /\ t_nodes s' !! a = Some n')
    as (b' & n' & Hn' & Hs' & Ha') by (destruct Hpost as [[_ (n' & ?)]|(_ & _ & _ & n' & ?)]; eauto).
  destruct (frame_write found a off (zlen l) l s s' r Hrun a n' Ha') as [(n0 & Hn0 & [= E1 E2 E3 E4 E5])|[]].
  rewrite Ha in Hn0. injection Hn0 as <-. destruct Hs' as [->| ->]; [done|].
  destruct (i_node _ _ Hi _ _ Ha) as (_ & [t Hnm] & Hnd & _). split.
  - eapply tinv_put; try done; [|by rewrite E4|by rewrite E4]. exists t. unfold named. by rewrite E1, E2.
  - intros c m Hc. destruct (decide (c = a)) as [->|Hne].
    + rewrite put_same in Hc. injection Hc as <-. split; [by rewrite (f_type _ _ _ Hn')|eauto].
    + rewrite put_other in Hc by done. by eapply Hf.
Qed.

(** ** The invariant

    [O] are the opens that have not been closed.  Only symbolic links are
    mounted; the root of the tree is tmpfs. *)
Definition opens (O : gmultiset nptr) (a : Z) : Z := Z.of_nat (multiplicity (NFs a) O).

Definition sym_ok (e : sym_entry) : Prop :=
  v_ops (sy_node e) = 0 /\ zlen (v_name (sy_node e)) = 128 /\ link_ok tmpfs_ops (sy_node e).

Record tmp_inv (v : VS) (O : gmultiset nptr) : Prop := {
  ti_fs : tinv (pull v) (opens O);
  ti_files : files_ok (pull v);
  ti_dom : forall a, is_Some (t_nodes (te_fs (fs_state v)) !! a) <-> is_Some (fs_nodes v !! a);
  ti_node : forall a x, fs_nodes v !! a = Some x -> v_type x <> VFS_SYMLINK /\ v_ops x = TMPFS_OPS;
  ti_pool : Forall sym_ok (symlink_pool v);
  ti_mounts : Forall (fun m => (exists i, m_target m = NSym i /\ 0 <= i < zlen (symlink_pool v)) /\
                               exists t, cstr (m_name m) t) (mount_table v);
  ti_root : vfs_root v = Some (NFs tmpfs_root_node);
  ti_sym : forall i, NSym i ∈ O -> 0 <= i < zlen (symlink_pool v);
  ti_de : zlen (te_de (fs_state v)) = 128;
  ti_size : Z.of_nat (size O) <= OPENS_MAX
}.

Lemma lookup_pull v a : t_nodes (pull v) !! a = n ← t_nodes (te_fs (fs_state v)) !! a; x ← fs_nodes v !! a; Some (load_vnode n x).
Proof. unfold pull. cbn. rewrite map_lookup_zip_with. done. Qed.

Lemma lookup_push s v a : fs_nodes (push s v) !! a = store_vnode (fs_nodes v !! a) <$> t_nodes s !! a.
Proof. unfold push. cbn. rewrite map_lookup_imap. by destruct (t_nodes s !! a). Qed.

Lemma load_store o n : load_vnode n (store_vnode o n) = n.
Proof. by destruct n, o. Qed.

Lemma pull_push s v : pull (push s v) = s.
Proof.
  destruct s as [m c r]. unfold pull. cbn. f_equal. apply map_eq. intros a. rewrite map_lookup_zip_with.
  rewrite map_lookup_imap. destruct (m !! a) as [n|]; [|done]. cbn. by rewrite load_store.
Qed.

Lemma pull_Some v O a : tmp_inv v O -> is_Some (t_nodes (pull v) !! a) <-> is_Some (fs_nodes v !! a).
Proof.
  intros H. rewrite lookup_pull. pose proof (ti_dom _ _ H a) as Hd. destruct (t_nodes _ !! a) as [n|], (fs_nodes v !! a) as [x|]; cbn; done.
Qed.

Lemma valid_pull v O a : tmp_inv v O -> valid v (NFs a) <-> exists n, t_nodes (pull v) !! a = Some n.
Proof. intros H. unfold valid. cbn. rewrite <- (pull_Some v O a H). done. Qed.

Lemma valid_sym (v : VS) i : valid v (NSym i) <-> 0 <= i < zlen (symlink_pool v).
Proof.
  unfold valid. cbn. split.
  - intros [n Hn]. destruct (ld (symlink_pool v) i) eqn:E; [|done]. by apply ld_Some_lt in E.
  - intros Hi. destruct (ld_in (symlink_pool v) i Hi) as [e ->]. cbn. eauto.
Qed.

(** The VFS's own state is in order. *)
Lemma tmp_vs_ok v O : tmp_inv v O -> vs_ok tmpfs_ops v.
Proof.
  intros H. split; [|split].
  - eapply Forall_impl; [|apply (ti_mounts _ _ H)]. cbn. intros m [(i & -> & Hi) Hn]. split; [|done]. by apply valid_sym.
  - rewrite (ti_root _ _ H). apply (valid_pull v O _ H). destruct (i_root _ _ (ti_fs _ _ H)) as (n & ? & _). eauto.
  - intros [a|i] n Hn.
    + intros Ht. by destruct (ti_node _ _ H a n Hn).
    + cbn in Hn. destruct (ld (symlink_pool v) i) as [e|] eqn:E; [|done]. injection Hn as <-.
      pose proof (ld_Some_lt _ _ _ E). rewrite ld_nonneg in E by lia.
      by apply (Forall_lookup_1 _ _ _ _ (ti_pool _ _ H)) in E as (_ & _ & ?).
Qed.

(** ** Calls of the file system *)

Lemma push_inv v O O' s :
  tmp_inv v O -> tinv s (opens O') -> files_ok s -> (forall i, NSym i ∈ O' -> NSym i ∈ O) ->
  Z.of_nat (size O') <= OPENS_MAX ->
  tmp_inv (push s v) O'.
Proof.
  intros H Hs Hf Hsym Hsz. destruct H. split; try done.
  - by rewrite pull_push.
  - by rewrite pull_push.
  - intros a. rewrite lookup_push. cbn. by rewrite fmap_is_Some.
  - intros a x. rewrite lookup_push. destruct (t_nodes s !! a) as [n|] eqn:E; [|done]. cbn. intros [= <-].
    destruct (fs_nodes v !! a) as [x|] eqn:Ex; cbn; [by apply (ti_node0 a)|]. split; [by apply (Hf a)|done].
  - intros i Hi. by apply ti_sym0, Hsym.
Qed.

Lemma tinv_ext s hs hs' : (forall a, hs a = hs' a) -> tinv s hs -> tinv s hs'.
Proof.
  intros E [H1 H2 H3 H4 H5]. split; try done; intros a; [intros n Hn; rewrite <- (E a); by apply H2|].
  rewrite <- (E a). apply H5.
Qed.

Lemma opens_le v O a : tmp_inv v O -> 0 <= opens O a <= 2 ^ 31.
Proof.
  intros H. pose proof (ti_size _ _ H). pose proof (multiplicity_size O (NFs a)). unfold OPENS_MAX, opens in *. lia.
Qed.

Lemma opens_cons O a b : opens ({[+ NFs a +]} ⊎ O) b = bump (opens O) a 1 b.
Proof.
  unfold opens, bump. rewrite multiplicity_disj_union, multiplicity_singleton. destruct (Z.eqb_spec b a) as [->|Hne].
  - rewrite decide_True by done. lia.
  - rewrite decide_False by congruence. lia.
Qed.

Lemma opens_sym O i b : opens ({[+ NSym i +]} ⊎ O) b = opens O b.
Proof. unfold opens. rewrite multiplicity_disj_union, multiplicity_singleton, decide_False by done. lia. Qed.

Lemma size_cons `{Countable A} (O : gmultiset A) x : size ({[+ x +]} ⊎ O) = S (size O).
Proof. rewrite gmultiset_size_disj_union, gmultiset_size_singleton. done. Qed.

Lemma tm_ok {A} (m : TM A) v O O' s a :
  tmp_inv v O -> m (pull v) = Some (s, a) -> files_ok s -> tinv s (opens O') ->
  (forall i, NSym i ∈ O' -> NSym i ∈ O) -> Z.of_nat (size O') <= OPENS_MAX ->
  tm m v = Some (push s v, a) /\ tmp_inv (push s v) O'.
Proof.
  intros H Hm Hf Hs Hsym Hsz. unfold tm. rewrite Hm. cbn. split; [done|]. by eapply push_inv.
Qed.

(** The calls that open and close nothing. *)
Lemma tm_keeps {A} (m : TM A) v O s a :
  tmp_inv v O -> m (pull v) = Some (s, a) -> files_ok s -> tinv s (opens O) -> exists v', tm m v = Some (v', a) /\ tmp_inv v' O.
Proof.
  intros H Hm Hf Hs. destruct (tm_ok m v O O s a) as [H1 H2]; try done; [apply (ti_size _ _ H)|]. eauto.
Qed.

Lemma tm_cframe {A} (m : TM A) v O s a :
  tmp_inv v O -> m (pull v) = Some (s, a) -> cframe m -> tinv s (opens O) -> exists v', tm m v = Some (v', a) /\ tmp_inv v' O.
Proof.
  intros H Hm Hf Hs. eapply tm_keeps; try done. eapply files_same; [apply (ti_files _ _ H)|by eapply Hf].
Qed.

(** Links have no methods, the other nodes have those of tmpfs. *)
Lemma method_fs {X} (sel : vops tmp_state -> option X) v O a n :
  tmp_inv v O -> get_node (NFs a) v = Some n -> method tmpfs_ops sel n = sel (tmpfs_ops TMPFS_OPS).
Proof. intros H Hn. unfold method. by rewrite (proj2 (ti_node _ _ H a n Hn)). Qed.

Lemma sym_node v O i n : tmp_inv v O -> get_node (NSym i) v = Some n -> exists e, ld (symlink_pool v) i = Some e /\ sy_node e = n /\ sym_ok e.
Proof.
  intros H Hn. cbn in Hn. destruct (ld (symlink_pool v) i) as [e|] eqn:E; [|done]. injection Hn as <-. exists e. split; [done|].
  split; [done|]. pose proof (ld_Some_lt _ _ _ E). rewrite ld_nonneg in E by lia. by apply (Forall_lookup_1 _ _ _ _ (ti_pool _ _ H)) in E.
Qed.

Lemma method_sym {X} (sel : vops tmp_state -> option X) v O i n :
  tmp_inv v O -> get_node (NSym i) v = Some n -> method tmpfs_ops sel n = None.
Proof.
  intros H Hn. destruct (sym_node v O i n H Hn) as (e & _ & <- & Ho & _). unfold method. by rewrite Ho.
Qed.

(** ** The allocators *)

Lemma set_tmp_inv v O t :
  tmp_inv v O -> te_fs t = te_fs (fs_state v) -> zlen (te_de t) = 128 -> tmp_inv (set_tmp t v) O.
Proof. intros [] Ht Hd. split; unfold pull in *; cbn in *; rewrite ?Ht; done. Qed.

Lemma data_alloc_ok v O : tmp_inv v O -> tmp_inv (data_alloc v).1 O /\ pull (data_alloc v).1 = pull v.
Proof.
  intros H. unfold data_alloc. destruct (te_mem (fs_state v)) as [|f l]; [done|]. cbn [fst]. split; [|done].
  apply set_tmp_inv; [done|done|]. apply (ti_de _ _ H).
Qed.

Lemma node_alloc_ok v O :
  tmp_inv v O -> tmp_inv (node_alloc v).1 O /\ pull (node_alloc v).1 = pull v /\
    t_nodes (pull v) !! (node_alloc v).2 = None.
Proof.
  intros H. assert (H0 : t_nodes (pull v) !! 0 = None).
  { destruct (t_nodes (pull v) !! 0) as [n|] eqn:E; [|done]. by destruct (i_node _ _ (ti_fs _ _ H) _ _ E) as [? _]. }
  unfold node_alloc. destruct (te_new (fs_state v)) as [|a l]; [done|]. cbn [fst snd]. split; [|split; [done|]].
  - apply set_tmp_inv; [done|done|]. apply (ti_de _ _ H).
  - case_bool_decide as E; [done|]. rewrite lookup_pull. apply eq_None_not_Some in E. by rewrite E.
Qed.

(** ** Changes the VFS makes itself *)

Lemma set_pool_inv v O l :
  tmp_inv v O -> zlen l = zlen (symlink_pool v) -> Forall sym_ok l -> tmp_inv (set_pool l v) O.
Proof. intros [] Hl Hs. split; cbn; rewrite ?Hl; done. Qed.

Lemma pool_st v O i e l :
  tmp_inv v O -> sym_ok e -> st (symlink_pool v) i e = Some l -> tmp_inv (set_pool l v) O.
Proof.
  intros H He Hl. apply set_pool_inv; [done|by eapply zlen_st|]. unfold st in Hl. destruct (_ && _); [|done].
  injection Hl as <-. apply Forall_insert; [apply (ti_pool _ _ H)|done].
Qed.

(** The nodes there are stay. *)
Definition vkeep (v v' : VS) : Prop :=
  fs_nodes v' = fs_nodes v /\ zlen (symlink_pool v') = zlen (symlink_pool v).

#[export] Instance vkeep_preorder : PreOrder vkeep.
Proof. split; [done|]. intros v1 v2 v3 [E1 E2] [E3 E4]. split; congruence. Qed.

Lemma vkeep_valid v v' p : vkeep v v' -> valid v p -> valid v' p.
Proof.
  intros [E1 E2]. destruct p as [a|i]; [|by rewrite !valid_sym, E2]. unfold valid. cbn. by rewrite E1.
Qed.

Lemma put_sym v O i n n' :
  tmp_inv v O -> get_node (NSym i) v = Some n -> sym_ok (mk_sym n' 0) ->
  exists v', put_node (NSym i) n' v = Some v' /\ tmp_inv v' O /\ vkeep v v'.
Proof.
  intros H Hn Hs. destruct (sym_node v O i n H Hn) as (e & He & _). cbn [put_node]. rewrite He. ob.
  destruct (st_some (symlink_pool v) i (mk_sym n' (sy_in_use e))) as [l Hl]; [by apply ld_Some_lt in He|].
  rewrite Hl. ob. eexists. split; [done|]. split; [exact (pool_st v O i (mk_sym n' (sy_in_use e)) l H Hs Hl)|].
  split; [done|]. by eapply zlen_st.
Qed.

Lemma sym_ref v O i n : tmp_inv v O -> get_node (NSym i) v = Some n -> forall r, sym_ok (mk_sym (Vfs.set_refcount r n) 0).
Proof. intros H Hn r. by destruct (sym_node v O i n H Hn) as (e & _ & <- & ?). Qed.

Lemma pull_put a x x' v O :
  tmp_inv v O -> fs_nodes v !! a = Some x ->
  exists n, t_nodes (pull v) !! a = Some n /\
    pull (mk_vstate (mount_table v) (symlink_pool v) (<[a := x']> (fs_nodes v)) (vfs_root v) (fs_state v)) =
    put a (load_vnode n x') (pull v).
Proof.
  intros H Hx. destruct (proj2 (ti_dom _ _ H a)) as [n Hn]; [by rewrite Hx|]. exists (load_vnode n x).
  split; [rewrite lookup_pull, Hn, Hx; done|]. unfold pull, put. cbn. f_equal. apply map_eq. intros b.
  rewrite map_lookup_zip_with. destruct (decide (b = a)) as [->|Hne].
  - rewrite !lookup_insert_eq, Hn. done.
  - rewrite !lookup_insert_ne by done. by rewrite map_lookup_zip_with.
Qed.

(** Sizes, modes, owners and the kinds of devices. *)
Lemma put_meta v O p x x' :
  tmp_inv v O -> get_node p v = Some x -> v_name x' = v_name x -> v_refcount x' = v_refcount x -> v_ops x' = v_ops x ->
  v_priv x' = v_priv x -> (v_type x' = VFS_SYMLINK -> v_type x = VFS_SYMLINK) ->
  exists v', put_node p x' v = Some v' /\ tmp_inv v' O.
Proof.
  intros H Hx En Er Eo Ep Et. destruct p as [a|i].
  2: { destruct (put_sym v O i x x') as (v' & ? & ? & _); [done..| |eauto].
       destruct (sym_node v O i x H Hx) as (e & _ & <- & Ho & Hn & Hl). unfold sym_ok, link_ok, method in *. cbn.
       rewrite Eo, En, Ep. split; [done|]. split; [done|]. intros Ht. by apply Hl, Et. }
  cbn [put_node]. eexists. split; [done|]. destruct (pull_put a x x' v O H Hx) as (n & Hn & Hp). cbn in Hx.
  pose proof (lookup_pull v a) as Hl. rewrite Hn, Hx in Hl. destruct (t_nodes (te_fs (fs_state v)) !! a) as [n0|] eqn:E0; [|done]. cbn in Hl. injection Hl as ->.
  pose proof (i_node _ _ (ti_fs _ _ H) _ _ Hn) as (_ & Hnm & Hnd & _). destruct (ti_node _ _ H a x Hx) as [Ht Ho].
  split; try apply H; rewrite ?Hp.
  - eapply tinv_put; [apply H|exact Hn|..]; try done. destruct Hnm as [t Hnm]. exists t. unfold named in *. cbn in *. by rewrite En.
  - intros b m Hb. destruct (decide (b = a)) as [->|Hne].
    + rewrite put_same in Hb. injection Hb as <-. destruct (ti_files _ _ H a _ Hn) as [Hts Hf]. split; [done|]. intros Htf.
      destruct (Hf Htf) as [bs [T S V D]]. by exists bs.
    + rewrite put_other in Hb by done. by apply (ti_files _ _ H b).
  - intros b. cbn. rewrite (ti_dom _ _ H b). destruct (decide (b = a)) as [->|Hne]; [rewrite lookup_insert_eq, Hx; done|by rewrite lookup_insert_ne].
  - intros b y. cbn. destruct (decide (b = a)) as [->|Hne].
    + rewrite lookup_insert_eq. intros [= <-]. split; [auto|congruence].
    + rewrite lookup_insert_ne by done. apply (ti_node _ _ H).
Qed.

(** ** Walks *)

Lemma walk_ok v O a name g n :
  tmp_inv v O -> t_nodes (pull v) !! a = Some n -> cstr name g ->
  exists c, _tmp_walk a name (pull v) = Some (pull v, c) /\ (c <> 0 -> exists m, t_nodes (pull v) !! c = Some m).
Proof.
  intros H Hn Hg. unfold _tmp_walk, _find_child. rewrite (run_bind _ _ _ _ _ (run_node_at _ _ _ Hn)).
  destruct (negb _); [by exists 0|]. rewrite (run_bind _ _ _ _ _ (run_node_at _ _ _ Hn)).
  destruct (tinv_entries _ _ _ _ (ti_fs _ _ H) Hn) as [L HL]. rewrite (find_in_wp _ _ _ _ _ HL Hg).
  eexists. split; [done|]. destruct (entry_of g L) as [c|] eqn:E; [|done]. intros _. cbn. apply entry_in in E.
  rewrite (entries_addrs _ _ _ HL) in E. destruct (i_child _ _ (ti_fs _ _ H) _ _ _ Hn E) as (_ & _ & cn & ? & _). eauto.
Qed.

Definition tmp_laws (O : gmultiset nptr) : VfsLaws tmpfs_ops.
Proof.
  refine {| fs_ok := fun v => tmp_inv v O |}.
  - intros m n s s' H Hm Hn Hp. pose proof (ti_mounts _ _ H) as Hms. rewrite Forall_forall in Hms.
    destruct (Hms m) as [(i & E & _) _]; [by apply list_elem_of_In|]. rewrite E in *.
    destruct (put_sym s O i n _ H Hn (sym_ref s O i n H Hn (u32 (v_refcount n + 1)))) as (s1 & Hs1 & H1 & _). rewrite Hp in Hs1. by injection Hs1 as ->.
  - intros n f [a|i] name g s Hf _ H Hn Hg; [|by rewrite (method_sym _ _ _ _ _ H Hn) in Hf].
    rewrite (method_fs _ _ _ _ _ H Hn) in Hf. injection Hf as <-.
    destruct (proj1 (valid_pull s O a H)) as [x Hx]; [by exists n|].
    destruct (walk_ok s O a name g x H Hx Hg) as (c & Hc & Hcv).
    destruct (tm_cframe _ s O _ _ H Hc (frame_walk _ _) (ti_fs _ _ H)) as (s' & Hs' & H').
    assert (Hpull : pull s' = pull s) by (unfold tm in Hs'; rewrite Hc in Hs'; injection Hs' as <-; apply pull_push).
    assert (Hpool : symlink_pool s' = symlink_pool s /\ vfs_root s' = vfs_root s) by (unfold tm in Hs'; rewrite Hc in Hs'; by injection Hs' as <-).
    unfold tmp_walk. cbn [priv]. ob. rewrite Hs'. ob. eexists _, _. split; [done|]. split; [by eapply tmp_vs_ok|]. split; [done|].
    split; [split; [|apply Hpool]|].
    + intros [b|i]; [|rewrite !valid_sym; by rewrite (proj1 Hpool)]. rewrite (valid_pull s O b H), (valid_pull s' O b H'). by rewrite Hpull.
    + case_if; [done|]. b2p. cbn [valid_opt]. rewrite (valid_pull s' O c H'), Hpull. auto.
Defined.

(** ** The contract *)

Lemma inv_sym v O i : tmp_inv v O -> valid v (NSym i) -> Z.of_nat (size O) < OPENS_MAX -> tmp_inv v ({[+ NSym i +]} ⊎ O).
Proof.
  intros H Hv Hsz. apply valid_sym in Hv. destruct H. split; try done.
  - eapply tinv_ext; [|done]. intros a. by rewrite opens_sym.
  - intros j. rewrite gmultiset_elem_of_disj_union, gmultiset_elem_of_singleton. intros [[= ->]|Hj]; auto.
  - rewrite size_cons. lia.
Qed.

Lemma inv_unsym v O i : tmp_inv v ({[+ NSym i +]} ⊎ O) -> tmp_inv v O.
Proof.
  intros []. split; try done.
  - eapply tinv_ext; [|done]. intros a. by rewrite opens_sym.
  - intros j Hj. apply ti_sym0. multiset_solver.
  - rewrite size_cons in ti_size0. lia.
Qed.

Lemma held_ok v O p : tmp_inv v O -> p ∈ O -> valid v p.
Proof.
  intros H Hp. destruct p as [a|i]; [|apply valid_sym; by apply (ti_sym _ _ H)]. apply (valid_pull v O a H).
  destruct (i_held _ _ (ti_fs _ _ H) a) as [_ Hh]. destruct Hh as [n Hn]; [|eauto]. unfold opens.
  rewrite elem_of_multiplicity in Hp. lia.
Qed.

Lemma open_keeps v O p : tmp_inv v O -> valid v p -> Z.of_nat (size O) < OPENS_MAX ->
  exists v', open_vfs tmpfs_ops (Some p) v = Some v' /\ tmp_inv v' ({[+ p +]} ⊎ O).
Proof.
  intros H Hv Hsz. pose proof Hv as [n Hn]. unfold open_vfs. rewrite Hn. ob. destruct p as [a|i].
  2: { rewrite (method_sym _ _ _ _ _ H Hn). exists v. split; [done|]. by apply inv_sym. }
  rewrite (method_fs _ _ _ _ _ H Hn). cbn. unfold tmp_open. cbn [priv]. ob.
  apply (valid_pull v O a H) in Hv as [x Hx]. pose proof (opens_le v O a H).
  destruct (tmp_open_ok (pull v) (opens O) a) as (s & Hs & Hi); [apply H|lia|eauto|].
  destruct (tm_ok (_tmp_open a) v O ({[+ NFs a +]} ⊎ O) s tt H Hs) as [-> Hi'].
  - eapply files_same; [apply H|by eapply frame_open].
  - eapply tinv_ext; [|done]. intros b. by rewrite opens_cons.
  - intros i. multiset_solver.
  - rewrite size_cons. lia.
  - cbn. eauto.
Qed.

Lemma close_keeps v O p : tmp_inv v ({[+ p +]} ⊎ O) ->
  exists v', close_vfs tmpfs_ops (Some p) v = Some v' /\ tmp_inv v' O.
Proof.
  intros H. assert (Hv : valid v p) by (eapply held_ok; [done|multiset_solver]). pose proof Hv as [n Hn].
  unfold close_vfs. rewrite Hn. ob. destruct p as [a|i].
  2: { rewrite (method_sym _ _ _ _ _ H Hn). exists v. split; [done|]. by eapply inv_unsym. }
  rewrite (method_fs _ _ _ _ _ H Hn). cbn. unfold tmp_close. cbn [priv]. ob.
  pose proof (opens_le v _ a H) as Hle. rewrite opens_cons in Hle. unfold bump in Hle. rewrite Z.eqb_refl in Hle.
  assert (0 <= opens O a) by (unfold opens; lia).
  destruct (tmp_close_ok (pull v) (opens ({[+ NFs a +]} ⊎ O)) a) as (s & Hs & Hi).
  { apply H. } { rewrite opens_cons. unfold bump. rewrite Z.eqb_refl. lia. }
  destruct (tm_ok (_tmp_close a) v _ O s tt H Hs) as [-> Hi'].
  - eapply files_same; [apply H|by eapply frame_close].
  - eapply tinv_ext; [|done]. intros b. unfold bump at 1. rewrite opens_cons. unfold bump. destruct (b =? a); lia.
  - intros i. multiset_solver.
  - pose proof (ti_size _ _ H). rewrite size_cons in *. lia.
  - cbn. eauto.
Qed.

Lemma read_keeps v O p off (b : mem) :
  tmp_inv v O -> p ∈ O -> is_u32 off ->
  exists v' b' r, read_vfs tmpfs_ops (Some p) off (zlen b) b v = Some (v', b', r) /\ tmp_inv v' O /\ zlen b' = zlen b.
Proof.
  intros H Hp Ho. pose proof (held_ok v O p H Hp) as Hv. pose proof Hv as [n Hn]. unfold read_vfs. rewrite Hn. ob. destruct p as [a|i].
  2: { rewrite (method_sym _ _ _ _ _ H Hn). by exists v, b, (-1). }
  rewrite (method_fs _ _ _ _ _ H Hn). cbn. unfold tmp_read. cbn [priv]. ob.
  apply (valid_pull v O a H) in Hv as [x Hx].
  destruct (read_total a off b x (pull v) Hx (proj2 (ti_files _ _ H a x Hx))) as (b' & r & Hr & Hl); [apply Ho|].
  destruct (tm_cframe _ v O _ _ H Hr (frame_read _ _ _ _) (ti_fs _ _ H)) as (v' & -> & H'). ob. by exists v', b', r.
Qed.

Lemma write_keeps v O p off (b : mem) :
  tmp_inv v O -> p ∈ O -> is_u32 off -> off + zlen b <= 2 ^ 31 - 1 ->
  keeps tmp_inv O (write_vfs tmpfs_ops (Some p) off (zlen b) b) v.
Proof.
  intros H Hp Ho Hl. pose proof (held_ok v O p H Hp) as Hv. pose proof Hv as [n Hn]. unfold keeps, write_vfs. rewrite Hn. ob. destruct p as [a|i].
  2: { rewrite (method_sym _ _ _ _ _ H Hn). by exists v, (-1). }
  rewrite (method_fs _ _ _ _ _ H Hn). cbn. unfold tmp_write. cbn [priv]. ob.
  apply (valid_pull v O a H) in Hv as [x Hx]. destruct (data_alloc_ok v O H) as [H1 E]. destruct (data_alloc v) as [v1 found]. cbn [fst] in *.
  rewrite <- E in Hx. destruct (write_total found a off b x (pull v1) (opens O)) as (s & r & Hr & Hi & Hf); [apply H1|apply H1|done|apply Ho|lia|].
  destruct (tm_keeps _ v1 O _ _ H1 Hr Hf Hi) as (v' & -> & H'). eauto.
Qed.

(** *** Directories *)

(** A call that goes to a method of the directory [d]: no method, no effect. *)
Lemma dir_ok {X} (sel : vops tmp_state -> option X) v O d (call : option (nptr * vnode) -> option (VS * Z)) :
  tmp_inv v O -> valid v d ->
  call None = Some (v, -1) ->
  (forall n, method tmpfs_ops sel n = None -> call (Some (d, n)) = Some (v, -1)) ->
  (forall a x n f, d = NFs a -> t_nodes (pull v) !! a = Some x -> get_node d v = Some n -> sel (tmpfs_ops TMPFS_OPS) = Some f ->
     method tmpfs_ops sel n = Some f -> exists v' r, call (Some (d, n)) = Some (v', r) /\ tmp_inv v' O) ->
  exists v' r, (x ← dir_node (Some d) v; call x) = Some (v', r) /\ tmp_inv v' O.
Proof.
  intros H Hv H0 Hm Hc. pose proof Hv as [n Hn]. unfold dir_node. rewrite Hn. ob.
  assert (E0 : exists v' r, Some (v, -1) = Some (v', r) /\ tmp_inv v' O) by eauto.
  destruct (v_type n =? VFS_DIRECTORY); [|rewrite H0; done]. destruct d as [a|i].
  - pose proof (method_fs sel _ _ _ _ H Hn) as E. destruct (sel (tmpfs_ops TMPFS_OPS)) as [f|] eqn:Ef; [|by rewrite Hm].
    destruct (proj1 (valid_pull v O a H) Hv) as [x Hx]. by eapply Hc.
  - by rewrite (Hm n (method_sym sel _ _ _ _ H Hn)).
Qed.

Lemma new_ok v O a x type name g :
  tmp_inv v O -> t_nodes (pull v) !! a = Some x -> cstr name g -> type <> VFS_SYMLINK ->
  exists v' r, (let '(v, new) := node_alloc v in tm (new_child new type a name) v) = Some (v', r) /\ tmp_inv v' O /\
    valid v' (NFs a).
Proof.
  intros H Hx Hg Ht. destruct (node_alloc_ok v O H) as (H1 & E & Hn). destruct (node_alloc v) as [v1 new]. cbn [fst snd] in *.
  rewrite <- E in Hx, Hn. destruct (new_total (pull v1) (opens O) a x (ti_fs _ _ H1) Hx new type name g Hg Hn) as (s & r & Hs & Hi & [n Hd]).
  destruct (tm_cframe _ v1 O s r H1 Hs (frame_new _ _ _ _ Ht) Hi) as (v' & Hv' & H'). exists v', r. split; [done|]. split; [done|].
  apply (valid_pull v' O a H'). unfold tm in Hv'. rewrite Hs in Hv'. injection Hv' as <-. rewrite pull_push. eauto.
Qed.

Lemma create_keeps v O d name g : tmp_inv v O -> valid v d -> cstr name g -> keeps tmp_inv O (create_vfs tmpfs_ops (Some d) name) v.
Proof.
  intros H Hv Hg. apply (dir_ok op_create); [done..|by intros n ->|]. intros a x n f -> Hx Hn [= <-] ->.
  unfold tmp_create. cbn [priv]. ob. destruct (new_ok v O a x VFS_FILE name g) as (v' & r & ? & ? & _); [done..|]. eauto.
Qed.

Lemma mkdir_ok v O d name g : tmp_inv v O -> valid v d -> cstr name g -> keeps tmp_inv O (mkdir_vfs tmpfs_ops (Some d) name) v.
Proof.
  intros H Hv Hg. apply (dir_ok op_mkdir); [done..|by intros n ->|]. intros a x n f -> Hx Hn [= <-] ->.
  unfold tmp_mkdir. cbn [priv]. ob. destruct (new_ok v O a x VFS_DIRECTORY name g) as (v' & r & ? & ? & _); [done..|]. eauto.
Qed.

Lemma rmdir_keeps v O d name g : tmp_inv v O -> valid v d -> cstr name g -> keeps tmp_inv O (rmdir_vfs tmpfs_ops (Some d) name) v.
Proof.
  intros H Hv Hg. apply (dir_ok op_rmdir); [done..|by intros n ->|]. intros a x n f -> Hx Hn [= <-] ->.
  unfold tmp_rmdir. cbn [priv]. ob. destruct (rmdir_total _ _ _ _ (ti_fs _ _ H) Hx _ _ Hg) as (s & r & Hs & Hi).
  destruct (tm_cframe _ v O s r H Hs (frame_rmdir _ _) Hi) as (v' & -> & H'). eauto.
Qed.

Lemma rename_keeps v O d n1 g1 n2 g2 :
  tmp_inv v O -> valid v d -> cstr n1 g1 -> cstr n2 g2 -> keeps tmp_inv O (rename_vfs tmpfs_ops (Some d) n1 n2) v.
Proof.
  intros H Hv Hg1 Hg2. unfold keeps, rename_vfs. apply (dir_ok op_rename); [done..|by intros n ->|]. intros a x n f -> Hx Hn [= <-] ->.
  unfold tmp_rename. cbn [priv]. ob. destruct (rename_total _ _ _ _ (ti_fs _ _ H) Hx _ _ _ _ Hg1 Hg2) as (s & r & Hs & Hi).
  destruct (tm_cframe _ v O s r H Hs (frame_rename _ _ _) Hi) as (v' & -> & H'). eauto.
Qed.

Lemma delete_keeps v O a x name g :
  tmp_inv v O -> t_nodes (pull v) !! a = Some x -> cstr name g -> keeps tmp_inv O (tmp_delete (NFs a) name) v.
Proof.
  intros H Hx Hg. unfold keeps, tmp_delete. cbn [priv]. ob.
  destruct (delete_total _ _ _ _ (ti_fs _ _ H) Hx _ _ Hg) as (s & r & Hs & Hi); [intros b; pose proof (opens_le v O b H); lia|].
  destruct (tm_cframe _ v O s r H Hs (frame_delete _ _) Hi) as (v' & -> & H'). eauto.
Qed.

Lemma link_keeps v O d name p : tmp_inv v O -> valid v d -> keeps tmp_inv O (vfs_link tmpfs_ops (Some d) (Some name) (Some p)) v.
Proof. intros H Hv. unfold keeps, vfs_link. apply (dir_ok op_link); [done..|by intros n ->|]. by intros a x n f _ _ _ [=]. Qed.

(** *** Links of the pool *)

Lemma ref_sym v O i n : tmp_inv v O -> get_node (NSym i) v = Some n ->
  exists v', vfs_node_ref (Some (NSym i)) v = Some v' /\ tmp_inv v' O /\ vkeep v v'.
Proof. intros H Hn. unfold vfs_node_ref. rewrite Hn. ob. by eapply put_sym, sym_ref. Qed.

Lemma unref_sym v O i : tmp_inv v O -> valid v (NSym i) ->
  exists v', vfs_node_unref (Some (NSym i)) v = Some v' /\ tmp_inv v' O /\ vkeep v v'.
Proof.
  intros H Hv. pose proof Hv as [n Hn]. unfold vfs_node_unref. rewrite Hn. ob.
  destruct (put_sym v O i n _ H Hn (sym_ref v O i n H Hn (u32 (v_refcount n - 1)))) as (v1 & Hp & H1 & K1). rewrite Hp. ob.
  assert (Hn1 : get_node (NSym i) v1 = Some (Vfs.set_refcount (u32 (v_refcount n - 1)) n)) by (rewrite (get_put _ _ _ _ _ Hp), decide_True; done).
  case_if.
  - rewrite Hn1. ob. destruct (put_sym v1 O i _ _ H1 Hn1 (sym_ref v1 O i _ H1 Hn1 (u32 (u32 (v_refcount n - 1) + 1)))) as (v2 & ? & ? & ?).
    exists v2. split; [done|]. split; [done|]. by transitivity v1.
  - case_if; [|eauto]. destruct (sym_node v1 O i _ H1 Hn1) as (e & He & _ & Hs). rewrite He. ob.
    destruct (st_some (symlink_pool v1) i (mk_sym (sy_node e) 0)) as [l Hl]; [by apply ld_Some_lt in He|]. rewrite Hl. ob.
    eexists. split; [done|]. split; [exact (pool_st v1 O i (mk_sym (sy_node e) 0) l H1 Hs Hl)|]. transitivity v1; [done|].
    split; [done|]. by eapply zlen_st.
Qed.

Lemma inv_mounts v O l :
  tmp_inv v O -> Forall (fun m => (exists i, m_target m = NSym i /\ 0 <= i < zlen (symlink_pool v)) /\
                               exists t, cstr (m_name m) t) l -> tmp_inv (set_mounts l v) O.
Proof. intros [] Hl. by split. Qed.

Lemma mount_names v O : tmp_inv v O -> Forall (fun m => exists t, cstr (m_name m) t) (mount_table v).
Proof. intros H. eapply Forall_impl; [|apply (ti_mounts _ _ H)]. by intros m [_ ?]. Qed.

Lemma umount_keeps v O d name g : tmp_inv v O -> cstr name g ->
  exists v' r, vfs_umount d name v = Some (v', r) /\ tmp_inv v' O /\ vkeep v v'.
Proof.
  intros H Hg. unfold vfs_umount. destruct (find_mount_total (mount_table v) d name g 0 (mount_names v O H) Hg) as (r & -> & Hr). ob.
  destruct r as [j|]; [|by exists v, (-1)]. destruct Hr as (k & m & -> & Hk). pose proof (lookup_lt_Some _ _ _ Hk).
  destruct (lookup_lt_is_Some_2 (mount_table v) (length (mount_table v) - 1)) as [m' Hm']; [lia|]. rewrite Hm'. ob.
  eexists _, _. split; [done|]. split; [|done]. apply inv_mounts; [done|]. pose proof (ti_mounts _ _ H) as Hf.
  apply Forall_take, Forall_insert; [done|]. apply (Forall_lookup_1 _ _ _ _ Hf Hm').
Qed.

Lemma mounted_sym v O d name g :
  tmp_inv v O -> cstr name g ->
  exists r, lookup_mount d name v = Some r /\ match r with Some p => exists i, p = NSym i /\ valid v p | None => True end.
Proof.
  intros H Hg. destruct (lookup_mount_total tmpfs_ops v d name g (tmp_vs_ok v O H) Hg) as (r & Hr & Hv & Hm). exists r. split; [done|].
  destruct r as [p|]; [|done]. destruct Hm as (m & Hm & <-). pose proof (ti_mounts _ _ H) as Hf. rewrite Forall_forall in Hf.
  destruct (Hf m) as [(i & E & _) _]; [by apply list_elem_of_In|]. eauto.
Qed.

Lemma unlink_keeps v O d name g : tmp_inv v O -> valid v d -> cstr name g -> keeps tmp_inv O (vfs_unlink tmpfs_ops (Some d) (Some name)) v.
Proof.
  intros H Hv Hg. pose proof Hv as [n Hn]. unfold keeps, vfs_unlink, dir_node. rewrite Hn. ob. case_if; [|eauto].
  destruct (mounted_sym v O d name g H Hg) as (r & -> & Hr). ob.
  assert (Hdel : forall v1, tmp_inv v1 O -> valid v1 d -> (forall X (sel : vops tmp_state -> option X), method tmpfs_ops sel n =
      match d with NFs _ => sel (tmpfs_ops TMPFS_OPS) | NSym _ => None end) ->
    exists v' a, match method tmpfs_ops op_unlink n with
      | Some f => '(s, node) ← finddir_vfs tmpfs_ops (Some d) name v1; '(s, ret) ← f d name s;
                  s ← (if ret =? 0 then vfs_node_unref node s else Some s); Some (s, ret)
      | None => match method tmpfs_ops op_delete n with Some f => f d name v1 | None => Some (v1, -1) end
      end = Some (v', a) /\ tmp_inv v' O).
  { intros v1 H1 Hv1 Hm. rewrite !Hm. destruct d as [a|i]; cbn; [|eauto]. apply (valid_pull v1 O a H1) in Hv1 as [x Hx]. by eapply delete_keeps. }
  assert (Hm : forall X (sel : vops tmp_state -> option X), method tmpfs_ops sel n =
      match d with NFs _ => sel (tmpfs_ops TMPFS_OPS) | NSym _ => None end).
  { intros X sel. destruct d; [by eapply method_fs|by eapply method_sym]. }
  destruct r as [p|]; [|cbn; by apply Hdel]. destruct Hr as (i & -> & [m Hm0]).
  destruct (ref_sym v O i m H Hm0) as (v1 & Hr1 & H1 & K1). rewrite Hr1. ob.
  destruct (vkeep_valid v v1 (NSym i) K1) as [m1 Hm1]; [by exists m|]. rewrite Hm1. ob. case_if.
  - destruct (umount_keeps v1 O d name g H1 Hg) as (v2 & r & Hu & H2 & K2). rewrite Hu. ob.
    destruct (unref_sym v2 O i H2) as (v3 & -> & H3 & _); [|ob; eauto]. eapply vkeep_valid; [done|]. by exists m1.
  - destruct (unref_sym v1 O i H1) as (v2 & Hu & H2 & K2); [by exists m1|]. rewrite Hu. ob. apply Hdel; [done| |done].
    by eapply vkeep_valid, vkeep_valid.
Qed.

(** A buffer with a zero byte holds a string. *)
Lemma cstr_zero (m : mem) i : ld m i = Some 0 -> exists t, cstr m t.
Proof.
  revert i. induction m as [|c m IH]; intros i Hi; [pose proof (ld_Some_lt _ _ _ Hi) as Hb; change (zlen (@nil Z)) with 0 in Hb; lia|].
  destruct (decide (c = 0)) as [->|Hc]; [exists []; split; [by exists m|constructor]|].
  pose proof (ld_Some_lt _ _ _ Hi) as Hlt. rewrite ld_nonneg in Hi by lia. destruct (Z.to_nat i) as [|k] eqn:Ek; [by injection Hi|].
  destruct (IH (Z.of_nat k)) as [t [[r ->] Ht]]; [rewrite ld_nonneg, Nat2Z.id by lia; done|].
  exists (c :: t). split; [by exists r|by constructor].
Qed.

Lemma symlink_alloc_keeps v O target t :
  tmp_inv v O -> cstr target t ->
  exists v' r, vfs_symlink_alloc (Some target) (u32 (zlen t)) v = Some (v', r) /\ tmp_inv v' O /\ vkeep v v' /\
    match r with Some p => exists i n, p = NSym i /\ get_node p v' = Some n | None => True end.
Proof.
  intros H Ht. unfold vfs_symlink_alloc. destruct (free_sym (symlink_pool v) 0) as [i|] eqn:Hi; [|by exists v, None].
  destruct (free_sym_ok _ _ _ Hi) as (H0 & e & He & _). rewrite Z.sub_0_r in He. rewrite He. sb.
  pose proof (zlen_nonneg t). set (n := if u32 (zlen t) <? VFS_SYMLINK_TARGET_MAX - 1 then u32 (zlen t) else VFS_SYMLINK_TARGET_MAX - 1).
  assert (Hu : 0 <= u32 (zlen t) <= zlen t) by (split; [apply u32_range|apply Z.mod_le; lia]).
  assert (Hn : 0 <= n <= 511 /\ n <= zlen t) by (unfold n, VFS_SYMLINK_TARGET_MAX; case_if; b2p; lia).
  replace (i32 n) with n by word_lia. assert (Hr : zlen (replicate 512 0) = 512) by reflexivity.
  assert (Htl : zlen t < zlen target) by (destruct Ht as [[q ->] _]; rewrite zlen_app, zlen_cons; pose proof (zlen_nonneg q); lia).
  rewrite copy_loop_ok by lia. sb. set (tgt := splice 0 (slice 0 (Z.of_nat (Z.to_nat n)) target) (replicate 512 0)).
  assert (Hz : zlen tgt = 512) by (unfold tgt; rewrite zlen_splice; rewrite ?zlen_slice by lia; lia).
  destruct (st_some tgt n 0) as [tgt' Htgt]; [lia|]. rewrite Htgt. sb.
  assert (Hs : sym_ok e) by (rewrite ld_nonneg in He by lia; by apply (Forall_lookup_1 _ _ _ _ (ti_pool _ _ H)) in He).
  destruct Hs as (_ & Hnm & _). destruct (st_some (v_name (sy_node e)) 0 0) as [nm Hs]; [lia|]. rewrite Hs. sb.
  set (nd := mk_vnode nm _ _ _ _ _ _ _ _ _). destruct (st_some (symlink_pool v) i (mk_sym nd 1)) as [l Hst]; [by apply ld_Some_lt in He|].
  rewrite Hst. sb. eexists _, _. split; [done|]. split.
  - apply (pool_st v O i (mk_sym nd 1)); [done| |done]. split; [done|]. split; [cbn; by rewrite (zlen_st _ _ _ _ Hs)|].
    intros _. split; [done|]. destruct (cstr_zero tgt' n) as [x Hx]; [by eapply ld_st_eq|]. by exists tgt', x.
  - split; [split; [done|]; by eapply zlen_st|]. exists i, nd. split; [done|]. cbn. by rewrite (ld_st_eq _ _ _ _ Hst).
Qed.

Lemma mount_keeps v O d name g i :
  tmp_inv v O -> cstr name g -> valid v (NSym i) ->
  exists v' r, vfs_mount (Some d) (Some name) (Some (NSym i)) v = Some (v', r) /\ tmp_inv v' O /\ vkeep v v'.
Proof.
  intros H Hg Hv. unfold vfs_mount. case_if; [by exists v, (-1)|].
  destruct (find_mount_total (mount_table v) d name g 0 (mount_names v O H) Hg) as (r & -> & _). ob. destruct r; [by exists v, (-1)|].
  destruct (strlcpy_named (replicate 128 0) name g Hg) as (nm & -> & Hnm & _); [done|]. ob. eexists _, _. split; [done|]. split; [|done].
  apply inv_mounts; [done|]. apply Forall_app. split; [apply H|]. constructor; [|constructor]. cbn. split; [|eauto].
  exists i. split; [done|]. by apply valid_sym.
Qed.

Lemma symlink_keeps v O d name g tgt t :
  tmp_inv v O -> valid v d -> cstr name g -> cstr tgt t ->
  keeps tmp_inv O (vfs_symlink tmpfs_ops (Some d) (Some name) (Some tgt)) v.
Proof.
  intros H Hv Hg Ht. pose proof Hv as [n Hn]. unfold keeps, vfs_symlink, dir_node. rewrite Hn. ob. case_if; [|eauto].
  assert (method tmpfs_ops op_symlink n = None) as ->.
  { destruct d; [by rewrite (method_fs _ _ _ _ _ H Hn)|by apply (method_sym _ _ _ _ _ H Hn)]. }
  rewrite (strlen_ok _ _ Ht). ob. destruct (symlink_alloc_keeps v O tgt t H Ht) as (v1 & r & -> & H1 & _ & Hr). ob.
  destruct r as [p|]; [|eauto]. destruct Hr as (i & sn & -> & Hsn). rewrite Hsn. ob.
  destruct (sym_node v1 O i sn H1 Hsn) as (e & _ & <- & Ho & Hnm & Hl).
  destruct (strlcpy_named (v_name (sy_node e)) name g Hg Hnm) as (nm & -> & _ & Hnl). ob.
  destruct (put_sym v1 O i (sy_node e) (set_vname nm (sy_node e)) H1 Hsn) as (v2 & -> & H2 & K2); [done|]. ob.
  assert (Hv2 : valid v2 (NSym i)) by (eapply vkeep_valid; [done|by exists (sy_node e)]).
  destruct (mount_keeps v2 O d name g i H2 Hg Hv2) as (v3 & ret & -> & H3 & K3). ob.
  case_if; [|ob; eauto]. destruct (unref_sym v3 O i H3) as (v4 & -> & H4 & _); [by eapply vkeep_valid|]. ob. eauto.
Qed.

(** *** Looking names up *)

Lemma fine_of v O : tmp_inv v O -> @vs_fine _ tmpfs_ops (tmp_laws O) v.
Proof. intros H. split; [by eapply tmp_vs_ok|exact H]. Qed.

Lemma finddir_keeps v O d name g :
  tmp_inv v O -> valid v d -> cstr name g ->
  exists v' r, finddir_vfs tmpfs_ops (Some d) name v = Some (v', r) /\ tmp_inv v' O /\ valid_opt v' r /\
    (forall q, valid v q -> valid v' q).
Proof.
  intros H Hv Hg. destruct (@walk_one_ok _ tmpfs_ops (tmp_laws O) (Some d) name g v (fine_of v O H) Hv Hg) as (v' & r & Hw & [_ H'] & [Hle _] & Hr).
  by exists v', r.
Qed.

Lemma find_in_same l name s s' c : find_in l name s = Some (s', c) -> s' = s.
Proof.
  induction l as [|x l IH]; cbn [find_in]; [by intros [= <- _]|]. unfold mbind, M_bind, node_at, lift.
  destruct (t_nodes s !! x) as [n|]; [|done]. cbn. destruct (streq _ _) as [b|]; [|done]. cbn. destruct b; [by intros [= <- _]|done].
Qed.

Lemma walk_same d name s s' c : _tmp_walk d name s = Some (s', c) -> s' = s.
Proof.
  unfold _tmp_walk, _find_child, mbind, M_bind, node_at. destruct (t_nodes s !! d) as [n|] eqn:E; [|done]. cbn.
  destruct (negb _); [by intros [= <- _]|]. cbn. rewrite E. cbn. apply find_in_same.
Qed.

Lemma push_pull_nodes v O : tmp_inv v O -> fs_nodes (push (pull v) v) = fs_nodes v.
Proof.
  intros H. apply map_eq. intros a. rewrite lookup_push, lookup_pull. pose proof (ti_dom _ _ H a) as Hd.
  destruct (fs_nodes v !! a) as [x|] eqn:Ex.
  - destruct (t_nodes _ !! a) as [n|]; cbn; [|by destruct Hd as [_ []]]. by destruct x.
  - by destruct (t_nodes _ !! a) as [n|].
Qed.

(** A lookup, whatever the name, changes no node of the file system. *)
Lemma finddir_same v O d name v' r :
  tmp_inv v O -> finddir_vfs tmpfs_ops (Some d) name v = Some (v', r) -> fs_nodes v' = fs_nodes v /\ tmp_inv v' O.
Proof.
  intros H. unfold finddir_vfs, walk_one. destruct (get_node d v) as [n|] eqn:Hn; [|done]. cbn [mbind option_bind].
  destruct (negb _); [by intros [= <- _]|]. destruct (lookup_mount d name v) as [q|] eqn:Hq; [|done]. cbn [mbind option_bind].
  destruct q as [q|].
  - assert (exists i, q = NSym i) as [i ->].
    { unfold lookup_mount in Hq. destruct (find_mount _ _ _ _) as [[k|]|]; [|done..]. cbn in Hq. destruct (mount_table v !! k) as [m|] eqn:Em; [|done].
      cbn in Hq. injection Hq as <-. destruct (Forall_lookup_1 _ _ _ _ (ti_mounts _ _ H) Em) as [(i & -> & _) _]. eauto. }
    destruct (get_node (NSym i) v) as [m|] eqn:Hm; [|unfold vfs_node_ref; by rewrite Hm].
    destruct (ref_sym v O i m H Hm) as (v1 & -> & H1 & K1). cbn. intros [= <- _]. split; [apply K1|done].
  - cbn [vfs_node_ref mbind option_bind]. destruct d as [a|i]; [|rewrite (method_sym _ _ _ _ _ H Hn); by intros [= <- _]].
    rewrite (method_fs _ _ _ _ _ H Hn). cbn [op_walk tmpfs_ops]. unfold tmp_walk, tm. cbn [priv mbind option_bind].
    destruct (_tmp_walk a name (pull v)) as [[s c]|] eqn:Hw; [|done]. apply walk_same in Hw as ->. cbn. intros [= <- _].
    split; [by eapply push_pull_nodes|]. eapply push_inv; try done; apply H.
Qed.

(** *** Metadata *)

Lemma meta_keeps v O p x x' :
  tmp_inv v O -> get_node p v = Some x -> v_name x' = v_name x -> v_refcount x' = v_refcount x -> v_ops x' = v_ops x ->
  v_priv x' = v_priv x -> (v_type x' = VFS_SYMLINK -> v_type x = VFS_SYMLINK) ->
  exists v' r, (s ← put_node p x' v; Some (s, 0)) = Some (v', r) /\ tmp_inv v' O.
Proof. intros H Hx En Er Eo Ep Et. destruct (put_meta v O p x x' H Hx En Er Eo Ep Et) as (v' & -> & H'). ob. eauto. Qed.

Lemma no_method {X} (sel : vops tmp_state -> option X) v O p n :
  tmp_inv v O -> get_node p v = Some n -> sel (tmpfs_ops TMPFS_OPS) = None -> method tmpfs_ops sel n = None.
Proof. intros H Hn Hs. destruct p; [by rewrite (method_fs _ _ _ _ _ H Hn)|by eapply method_sym]. Qed.

Lemma mknod_keeps v O d name g mode dev :
  tmp_inv v O -> valid v d -> cstr name g -> keeps tmp_inv O (mknod_vfs tmpfs_ops (Some d) (Some name) mode dev) v.
Proof.
  intros H Hv Hg. pose proof Hv as [n Hn]. unfold keeps, mknod_vfs, dir_node. rewrite Hn. ob. case_if; [|eauto].
  rewrite (no_method op_mknod v O d n H Hn eq_refl). destruct d as [a|i]; [|rewrite (method_sym _ _ _ _ _ H Hn); eauto].
  rewrite (method_fs _ _ _ _ _ H Hn). cbn [op_create tmpfs_ops]. unfold tmp_create. cbn [priv]. ob.
  pose proof (proj1 (valid_pull v O a H) Hv) as [x Hx].
  destruct (new_ok v O a x VFS_FILE name g H Hx Hg) as (v1 & r & Hc & H1 & Hv1); [done|]. unfold _tmp_create. rewrite Hc. ob.
  case_if; [eauto|]. destruct (finddir_keeps v1 O (NFs a) name g H1 Hv1 Hg) as (v2 & q & -> & H2 & Hq & _). ob.
  destruct q as [q|]; [|eauto]. destruct Hq as [m Hm]. rewrite Hm. ob. eapply meta_keeps; [done..|]. cbn. case_if; [done|]. by case_if.
Qed.

Lemma truncate_keeps v O p len : tmp_inv v O -> valid v p -> keeps tmp_inv O (truncate_vfs tmpfs_ops (Some p) len) v.
Proof.
  intros H [n Hn]. unfold keeps, truncate_vfs. rewrite Hn. ob. rewrite (no_method _ _ _ _ _ H Hn eq_refl). by eapply meta_keeps.
Qed.

Lemma chmod_keeps v O p mode : tmp_inv v O -> valid v p -> keeps tmp_inv O (chmod_vfs tmpfs_ops (Some p) mode) v.
Proof.
  intros H [n Hn]. unfold keeps, chmod_vfs. rewrite Hn. ob. rewrite (no_method _ _ _ _ _ H Hn eq_refl). by eapply meta_keeps.
Qed.

Lemma chown_keeps v O p uid gid : tmp_inv v O -> valid v p -> keeps tmp_inv O (chown_vfs tmpfs_ops (Some p) uid gid) v.
Proof.
  intros H [n Hn]. unfold keeps, chown_vfs. rewrite Hn. ob. rewrite (no_method _ _ _ _ _ H Hn eq_refl). by eapply meta_keeps.
Qed.

Lemma stat_total v O p (ws : mem) :
  tmp_inv v O -> valid v p -> zlen ws = 4 -> exists ws' r, stat_vfs tmpfs_ops (Some p) (Some ws) v = Some (Some ws', r).
Proof.
  intros H [n Hn] Hw. unfold stat_vfs. rewrite Hn. ob. rewrite (no_method _ _ _ _ _ H Hn eq_refl). unfold vfs_fill_stat.
  do 4 (destruct ws as [|? ws]; [by cbv in Hw|]). destruct ws; [|rewrite !zlen_cons in Hw; pose proof (zlen_nonneg ws); lia].
  eexists _, _. by cbn.
Qed.

Lemma readlink_total v O p (b : mem) :
  tmp_inv v O -> valid v p -> exists b' r, vfs_readlink_node tmpfs_ops (Some p) b (zlen b) v = Some (b', r).
Proof.
  intros H [n Hn]. unfold vfs_readlink_node. rewrite Hn. ob. case_if; [eauto|]. b2p.
  destruct (proj2 (proj2 (tmp_vs_ok v O H)) p n Hn) as (-> & tgt & t & -> & Ht); [done|].
  pose proof (zlen_nonneg b). pose proof (zlen_nonneg t). rewrite (copy_while_ok tgt t) by (done || lia). cbv zeta. ob.
  set (k := Z.min (zlen t) _). assert (Hk : 0 <= k < zlen b /\ k <= zlen t) by (unfold k; lia).
  destruct (st_some (splice 0 (take (Z.to_nat k) t) b) (0 + k) 0) as [b' ->]; [|ob; eauto].
  rewrite zlen_splice; [lia|lia|]. unfold zlen in *. rewrite length_take. lia.
Qed.

Lemma poll_total v O p ev : tmp_inv v O -> valid v p -> is_Some (poll_vfs tmpfs_ops (Some p) ev v).
Proof. intros H [n Hn]. unfold poll_vfs. rewrite Hn. ob. rewrite (no_method _ _ _ _ _ H Hn eq_refl). eauto. Qed.

Lemma readdir_keeps v O d n m i :
  tmp_inv v O -> get_node d v = Some n -> op_readdir tmp_services (v_ops n) = Some m ->
  exists v' r, m d i v = Some (v', r) /\ tmp_inv v' O /\ match r with Some (name, _) => exists g, cstr name g | None => True end.
Proof.
  intros H Hn Hm. destruct d as [a|j]; [|destruct (sym_node v O j n H Hn) as (e & _ & <- & Ho & _); by rewrite Ho in Hm].
  cbn in Hm. rewrite (proj2 (ti_node _ _ H a n Hn)) in Hm. injection Hm as <-. unfold tmp_readdir. cbn [priv]. ob.
  destruct (proj1 (valid_pull v O a H)) as [x Hx]; [by exists n|].
  assert (exists r, _tmp_readdir a i (te_de (fs_state v)) (pull v) = Some (pull v, r) /\
    match r with Some (name, _) => zlen name = 128 /\ exists g, cstr name g | None => True end) as (r & Hr & Hname).
  { unfold _tmp_readdir. rewrite (run_bind _ _ _ _ _ (run_node_at _ _ _ Hx)). destruct (negb _); [by exists None|].
    destruct (ld (t_children x) i) as [c|] eqn:Ec; [|by exists None]. pose proof (ld_Some_lt _ _ _ Ec). rewrite ld_nonneg in Ec by lia.
    destruct (i_child _ _ (ti_fs _ _ H) a x c Hx) as (_ & _ & cn & Hcn & _); [by eapply list_elem_of_lookup_2|].
    rewrite (run_bind _ _ _ _ _ (run_node_at _ _ _ Hcn)). destruct (i_node _ _ (ti_fs _ _ H) _ _ Hcn) as (_ & (t & Ht & _) & _).
    destruct (strlcpy_named (te_de (fs_state v)) _ t Ht (ti_de _ _ H)) as (de & Hde & Hc & Hl).
    rewrite (run_bind _ _ _ (pull v) de) by (unfold lift; by rewrite Hde). exists (Some (de, t_inode cn)). split; [done|]. split; [exact Hl|by eexists]. }
  destruct (tm_cframe _ v O _ _ H Hr (frame_readdir _ _ _) (ti_fs _ _ H)) as (v' & -> & H'). ob. eexists _, r. split; [done|].
  destruct r as [[de ino]|]; [|done]. destruct Hname as [Hl Hg]. split; [|done]. by apply set_tmp_inv.
Qed.

(** tmpfs as the root file system keeps the contract of the descriptor
    layer. *)
#[export] Instance tmpfs_contract : VfsContract tmpfs_ops tmp_services.
Proof.
  refine {| v_inv := tmp_inv; v_limit := 2 ^ 31 - 1 |}; intros.
  - by eapply held_ok.
  - by apply open_keeps.
  - by apply close_keeps.
  - by apply read_keeps.
  - by apply write_keeps.
  - destruct (@resolve_path_ok _ tmpfs_ops (tmp_laws O) cwd w path t v (fine_of v O H)) as (v' & r & ? & [_ ?] & ?); [done..|]. eauto.
  - destruct (@resolve_parent_ok _ tmpfs_ops (tmp_laws O) cwd w path t (replicate 128 0) 128 v (fine_of v O H)) as (v' & b & g & r & ? & [_ ?] & ? & ?);
      [done..|]. by exists v', b, g, r.
  - by eapply finddir_keeps.
  - by eapply create_keeps.
  - by eapply mkdir_ok.
  - by eapply rmdir_keeps.
  - by eapply unlink_keeps.
  - by eapply rename_keeps.
  - by apply link_keeps.
  - by eapply symlink_keeps.
  - by eapply mknod_keeps.
  - by apply truncate_keeps.
  - by apply chmod_keeps.
  - by apply chown_keeps.
  - by eapply stat_total.
  - by eapply readlink_total.
  - by eapply poll_total.
  - by rewrite (no_method op_lseek v O p n H H0 eq_refl) in H1.
  - by eapply readdir_keeps.
  - by exists v, None.
Defined.
