(* ===== verification/FdTmpfs.v ===== *)
(** * Descriptors on tmpfs

    The whole stack at work: descriptor calls ([Fd.v]) through the VFS
    ([Vfs.v]) on tmpfs ([TmpfsVfs.v]), evaluated on concrete runs.  The runs
    show that the hypotheses of [FdTrace.v] hold for a real file system, and
    what the calls get wrong. *)
From stdpp Require Import gmultiset.
From S2P Require Import Prelude StateM Klib Validate VfsPath Vfs VfsSpec Tmpfs TmpfsSpec Fd FdSpec FdCalls FdTrace FdAuth TmpfsVfs.

#[local] Open Scope Z_scope.

#[export] Instance tmpfs_services : ServiceContract (ops := tmpfs_ops) (sv := tmp_services).
Proof.
  split; [done|]. intros B X s node cmd arg H _ _. cbn. apply wp_ret. exists X. split; [lia|done].
Qed.

Abbreviation KS := (kst tmp_state).
#[local] Abbreviation run := (run_op (ops := tmpfs_ops) (sv := tmp_services)).

(** ** Running lists of calls *)

Definition after (o : sysop) (s : KS) : KS := match run o s with Some (s', _) => s' | None => s end.
Definition after_all (os : list sysop) (s : KS) : KS := foldl (fun s o => after o s) s os.

(** A process is running, and the call returns. *)
Definition runs (o : sysop) (s : KS) : bool :=
  match k_cur s with Some (i, _) => bool_decide (is_Some (k_procs s !! i)) | None => false end &&
  bool_decide (is_Some (run o s)).

Lemma runs_ok o s : runs o s = true -> (exists i p, running s i p) /\ run o s = Some (after o s, tt).
Proof.
  unfold runs, after. intros [H1 H2]%andb_prop. split.
  - destruct (k_cur s) as [[i k]|] eqn:E; [|done]. apply bool_decide_eq_true in H1 as [p Hp]. exists i, p. split; eauto.
  - apply bool_decide_eq_true in H2 as [[s' []] ->]. done.
Qed.

(** The part of [op_ok] that is about the call's arguments. *)
Definition args_ok (o : sysop) (s : KS) : Prop :=
  match o with
  | SRead _ _ size => is_u32 size
  | SWrite fd _ size => is_u32 size /\ write_fits (ops := tmpfs_ops) (sv := tmp_services) s fd size
  | SDup2 _ newfd => 0 <= newfd < 256
  | SIoctl stack _ _ _ => zlen stack = 124
  | SFork child => k_procs s !! child = None /\ Z.of_nat (size (k_procs s)) < PROCS_MAX
  | SReap pid => is_Some (k_procs s !! pid) /\ forall k, k_cur s <> Some (pid, k)
  | SSwitch pid _ => is_Some (k_procs s !! pid)
  | SStore m => mapped m
  | _ => True
  end.

Lemma reached_after s0 n o s :
  reached (ops := tmpfs_ops) (sv := tmp_services) s0 n s -> runs o s = true -> args_ok o s ->
  reached (ops := tmpfs_ops) (sv := tmp_services) s0 (S n) (after o s).
Proof.
  intros Hr Ho Ha. destruct (runs_ok o s Ho) as [H1 H2]. eapply reached_step; [exact Hr| |exact H2]. by split.
Qed.

(** ** The first state: an empty file system and one process *)

Definition root_vnode (mode : Z) : vnode :=
  mk_vnode (TMP_NAME ++ replicate 124 0) VFS_DIRECTORY 0 1 1 mode 0 0 TMPFS_OPS None.
Definition free_link : sym_entry := mk_sym (mk_vnode (replicate 128 0) 0 0 0 0 0 0 0 0 None) 0.

Definition demo_vfs (mode : Z) : VS :=
  mk_vstate [] (replicate 4 free_link) {[ tmpfs_root_node := root_vnode mode ]} (Some (NFs tmpfs_root_node))
    (TmpState demo_root [10; 11; 12] (replicate 8 true) (replicate 128 0)).

(** User memory with [l] at its start and zeros elsewhere. *)
Definition umem_of (l : list Z) : umem := fun a => Some (default 0 (ld l (a - USER_SPACE_START))).
Definition demo_proc (l : list Z) (euid : Z) : process := Process (replicate 256 0) [47; 0] euid euid (umem_of l).
Definition demo_state (mode : Z) (procs : gmap Z process) : KS :=
  Kst (demo_vfs mode) ∅ ∅ (seqZ 100 40) procs (Some (1, false)) [0; 0; 0; 0] 0 [].

Lemma demo_pull mode : pull (demo_vfs mode) = demo_root.
Proof. by vm_compute. Qed.

Lemma demo_nodes a n : t_nodes demo_root !! a = Some n -> a = tmpfs_root_node /\ t_type n = VFS_DIRECTORY.
Proof.
  assert (t_nodes demo_root = {[ tmpfs_root_node := TNode (TMP_NAME ++ replicate 124 0) VFS_DIRECTORY None 0 0 1
    (TMP_NAME ++ replicate 124 0) 0 1 [] false ]}) as -> by (by vm_compute).
  intros [<- <-]%lookup_singleton_Some. done.
Qed.

Lemma demo_inv mode : tmp_inv (demo_vfs mode) ∅.
Proof.
  split; try done.
  - rewrite demo_pull. eapply tinv_ext; [|apply demo_root_inv]. intros a. unfold opens. by rewrite multiplicity_empty.
  - rewrite demo_pull. intros a n Hn. by destruct (demo_nodes a n Hn) as [-> ->].
  - intros a. change (te_fs (fs_state (demo_vfs mode))) with demo_root. cbn [fs_nodes demo_vfs]. split.
    + intros [n Hn]. destruct (demo_nodes a n Hn) as [-> _]. by rewrite lookup_singleton_eq.
    + intros [x [<- _]%lookup_singleton_Some]. apply not_eq_None_Some. by vm_compute.
  - cbn [fs_nodes demo_vfs]. intros a x [_ <-]%lookup_singleton_Some. done.
  - by repeat constructor.
  - intros i Hi. multiset_solver.
Qed.

Lemma demo_fresh mode procs :
  (forall i p, procs !! i = Some p -> exists l euid, p = demo_proc l euid) -> is_Some (procs !! 1) ->
  Z.of_nat (size procs) <= PROCS_MAX -> fresh (demo_state mode procs).
Proof.
  intros Hp H1 Hsz. split; try done.
  - intros i p Hi. destruct (Hp i p Hi) as (l & euid & ->). split; [|done]. split; [done| |].
    + exists [47]. split; [|done]. split; [by exists []|by constructor].
    + intros a. by eexists.
  - by intros i k [= <- <-].
  - apply demo_inv.
Qed.

(** ** A run *)

(** The path "/f" and, at 16, five bytes to write. *)
Definition demo_bytes : list Z := [47; 102; 0] ++ replicate 13 0 ++ [104; 101; 108; 108; 111].
Definition PATH_ARG : Z := USER_SPACE_START.
Definition DATA_ARG : Z := USER_SPACE_START + 16.
Definition O_CREAT_RDWR : Z := Z.lor OPEN_CREAT OPEN_RDWR.

Definition demo0 : KS := demo_state 511 {[ 1 := demo_proc demo_bytes 0 ]}.
Definition demo1 : KS := after (SOpen PATH_ARG O_CREAT_RDWR) demo0.
Definition demo2 : KS := after (SDup 3) demo1.
Definition demo3 : KS := after (SFork 2) demo2.
Definition demo4 : KS := after (SSwitch 2 false) demo3.
Definition demo5 : KS := after (SClose 3) demo4.

Lemma demo_reached : reached (ops := tmpfs_ops) (sv := tmp_services) demo0 5 demo5.
Proof.
  unfold demo5. apply reached_after; [|by vm_compute|done].
  unfold demo4. apply reached_after; [|by vm_compute|apply (bool_decide_eq_true_1 (is_Some _)); by vm_compute].
  unfold demo3. apply reached_after; [|by vm_compute|split; by vm_compute].
  unfold demo2. apply reached_after; [|by vm_compute|done].
  unfold demo1. apply reached_after; [|by vm_compute|done]. constructor.
Qed.


Lemma demo5_count : f_refcount <$> k_files demo5 !! 101 = Some 3.
Proof. by vm_compute. Qed.

(** ** What the calls get wrong *)

Fixpoint run_all (os : list sysop) (s : KS) : option KS :=
  match os with [] => Some s | o :: os => '(s, _) ← run o s; run_all os s end.

(** The argument blocks of the directory calls: the path "/f", its name, the
    path "/", and blocks with a pointer to the name and two words. *)
Definition ROOT_ARG : Z := USER_SPACE_START + 8.
Definition NAME_ARG : Z := PATH_ARG + 1.
Definition BLOCK_ARG : Z := USER_SPACE_START + 32.
Definition user_bytes (w1 w2 : Z) : list Z :=
  [47; 102; 0; 0; 0; 0; 0; 0; 47; 0] ++ replicate 6 0 ++ [104; 101; 108; 108; 111] ++ replicate 11 0 ++
  le32 NAME_ARG ++ le32 w1 ++ le32 w2.

Definition stack0 : mem := replicate 124 0.
Definition DIRCTL_UNLINK : Z := 0x3105.
Definition DIRCTL_CHMOD : Z := 0x310B.
Definition DIRCTL_MKNOD : Z := 0x310E.
Definition DIRCTL_CREATE : Z := 0x310F.

#[local] Abbreviation kopen := (sys_open tmpfs_ops).
#[local] Abbreviation kioctl := (sys_ioctl tmpfs_ops tmp_services stack0).

Definition start (mode : Z) (w1 w2 : Z) (euid : Z) : KS :=
  demo_state mode {[ 1 := demo_proc (user_bytes w1 w2) 0; 2 := demo_proc (user_bytes w1 w2) euid ]}.

(** Process 1 creates a file, perhaps forks a child that exits, closes the
    file and removes it. *)
Definition create_and_remove (fork : bool) : option KS :=
  run_all ([SOpen PATH_ARG O_CREAT_RDWR] ++ (if fork then [SFork 3; SReap 3] else []) ++
           [SClose 3; SOpen ROOT_ARG 0; SIoctl stack0 3 DIRCTL_UNLINK NAME_ARG; SClose 3]) (start 511 0 0 0).

(** On tmpfs a directory stays barred: lookups do not change its node. *)
Lemma tmp_barred v O d n euid egid :
  tmp_inv v O -> get_node (NFs d) v = Some n ->
  vfs_check_perm (Some (mk_task false (Some (euid, egid)))) (Some n) (Z.lor VFS_PERM_WRITE VFS_PERM_EXEC) < 0 ->
  barred (ops := tmpfs_ops) (NFs d) euid egid v.
Proof.
  intros H Hn Hno v' n' Hl. induction Hl as [|v1 v2 v3 (nm & r & Hf) _ IH]; [by intros [= <-]%(eq_trans (eq_sym Hn))|].
  destruct (finddir_same v1 O (NFs d) nm v2 r H Hf) as [E H2]. apply IH; [done|]. cbn in *. by rewrite E.
Qed.

(** Process 2, not root, with the root directory open. *)
Definition auth_state : KS :=
  after (SOpen ROOT_ARG 0) (after (SSwitch 2 false) (start 493 511 0 1000)).

Lemma start_fresh mode w1 w2 euid : fresh (start mode w1 w2 euid).
Proof.
  apply demo_fresh; [|by eexists|by vm_compute]. intros i p. rewrite lookup_insert_Some, lookup_singleton_Some.
  intros [[_ <-]|[_ [_ <-]]]; eauto.
Qed.

Lemma auth_reached : reached (ops := tmpfs_ops) (sv := tmp_services) (start 493 511 0 1000) 2 auth_state.
Proof.
  unfold auth_state. apply reached_after; [|by vm_compute|done].
  apply reached_after; [constructor|by vm_compute|apply (bool_decide_eq_true_1 (is_Some _)); by vm_compute].
Qed.

Lemma auth_file : (x ← k_files auth_state !! 101; f_node x) = Some (NFs tmpfs_root_node).
Proof. by vm_compute. Qed.
Lemma auth_user : (fun p => (p_euid p, p_egid p)) <$> k_procs auth_state !! 2 = Some (1000, 1000).
Proof. by vm_compute. Qed.
Lemma auth_root : (fun n => (v_mode n, v_uid n, v_gid n)) <$> get_node (NFs tmpfs_root_node) (k_vfs auth_state) = Some (493, 0, 0).
Proof. by vm_compute. Qed.


(** The number of open files, and whether the file's node is still there:
    removed or not, and its references. *)
Definition leftovers (s : KS) : nat * option (bool * Z) :=
  (size (k_files s), (fun n => (t_pending_free n, t_refcount n)) <$> t_nodes (pull (k_vfs s)) !! 10).

(** A file with the bytes "hello" that only root may use. *)
Definition secret_file : M KS unit :=
  fd ← kopen PATH_ARG O_CREAT_RDWR; sys_write tmpfs_ops fd DATA_ARG 5 ;; sys_close tmpfs_ops fd ;;
  d ← kopen ROOT_ARG 0; kioctl d DIRCTL_CHMOD BLOCK_ARG ;; sys_close tmpfs_ops d ;;
  modify (set_cur (Some (2, false))).



(** Truncating a tmpfs file leaves its bytes.  tmpfs has no truncate
    method and [truncate_vfs] then sets only the size in the node: after an
    open with O_TRUNC the reported size is 0, but a read returns what was
    written before. *)
Theorem truncate_keeps_bytes :
  snd <$> (fd ← kopen PATH_ARG O_CREAT_RDWR; sys_write tmpfs_ops fd DATA_ARG 5 ;; sys_close tmpfs_ops fd ;;
    fd ← kopen PATH_ARG (Z.lor OPEN_TRUNC OPEN_RDWR);
    size ← sys_lseek tmpfs_ops fd 0 2; sys_lseek tmpfs_ops fd 0 0 ;;
    n ← sys_read tmpfs_ops fd (USER_SPACE_START + 64) 9; b ← user_get (USER_SPACE_START + 64) 9;
    mret (size, n, b)) (start 511 0 0 0)
  = Some (0, 5, [104; 101; 108; 108; 111; 0; 0; 0; 0]).
Proof. by vm_compute. Qed.
