(* ===== verification/Vmm.v ===== *)
(** * Page directories, page tables and copy on write

    Model of [kernel/memory/rust_mm/src/vmm/paging.rs], [vmm/cow.rs] and
    [fault/page_fault_map.rs] over the page allocator of [Pmm.v].

    Physical memory is a function from the number of a frame and the index of
    a 32-bit word in it.  Page directories, page tables and pages are aligned,
    so entry [i] of the table at address [a] is word [i] of frame [a / 4096];
    the kernel reaches every frame at its physical address (the identity map
    [init_paging] builds).  Translation caches are not modelled, so
    [flush_tlb] does nothing; messages are not modelled.  The crate is built
    without overflow checks, so arithmetic on [u32] wraps. *)
From S2P Require Import Prelude StateM Pmm.

#[local] Open Scope Z_scope.

Definition PAGE_PRESENT : Z := 1.
Definition PAGE_RW : Z := 2.
Definition PAGE_USER : Z := 4.
Definition PAGE_PWT : Z := 8.
Definition PAGE_SWAPPED : Z := 8.
Definition PAGE_PCD : Z := 16.
Definition PTE_ACCESSED : Z := 32.
Definition PDE_PRIVATE : Z := 256.
Definition PAGE_COW : Z := 512.
Definition PAGE_DEMAND : Z := 1024.
Definition PAGE_ZERO : Z := 2048.
Definition USER_STACK_TOP : Z := 3221225472.
Definition USER_STACK_LIMIT : Z := 3204448256.
Definition MMAP_BASE : Z := 1073741824.
Definition MMAP_LIMIT : Z := 3204448256.
Definition PD_TOTAL : Z := 1024.
Definition PD_KERNEL_ENTRIES : Z := PCI_HOLE_START / (PAGE_SIZE * 1024).

(** [!0xFFF] and [0xFFF] on [u32]. *)
Definition ADDR_MASK : Z := 4294963200.
Definition FLAG_MASK : Z := 4095.

Definition pd_index (vaddr : Z) : Z := Z.land (Z.shiftr vaddr 22) 1023.
Definition pt_index (vaddr : Z) : Z := Z.land (Z.shiftr vaddr 12) 1023.

(** [x & bits != 0] *)
Definition has (x bits : Z) : bool := negb (Z.land x bits =? 0).
(** [x & !bits] of a [u32] *)
Definition clear (x bits : Z) : Z := Z.land x (Z.lxor bits 4294967295).

Record PfStats := mk_pfs {
  total_faults : Z; demand_allocs : Z; cow_copies : Z; stack_grows : Z;
  zero_pages : Z; swap_ins : Z; protection_faults : Z; invalid_access : Z
}.

Record SwapStats := mk_sws {
  total_slots : Z; used_slots : Z; pages_swapped_out : Z; pages_swapped_in : Z; swap_failures : Z
}.

(** The statics of [swap.rs]; the two callbacks are set or not. *)
Record swap := mk_swap {
  g_bitmap : Z -> Z; g_total_slots : Z; g_enabled : Z; g_sstats : SwapStats;
  g_clock_pdi : Z; g_clock_ptj : Z; g_fns : bool
}.

(** The memory manager's state: memory, the allocator, the directory in CR3,
    the statistics of page faults, swap, and the words of the sectors of the
    swap device. *)
Record vm := mk_vm {
  ram : Z -> Z -> Z; pm : pmm; cr3 : Z; pf : PfStats; sw : swap; disk : Z -> Z -> Z
}.

Definition set_ram (r : Z -> Z -> Z) (s : vm) : vm := mk_vm r (pm s) (cr3 s) (pf s) (sw s) (disk s).
Definition set_pm (p : pmm) (s : vm) : vm := mk_vm (ram s) p (cr3 s) (pf s) (sw s) (disk s).
Definition set_pf (p : PfStats) (s : vm) : vm := mk_vm (ram s) (pm s) (cr3 s) p (sw s) (disk s).
Definition set_sw (w : swap) (s : vm) : vm := mk_vm (ram s) (pm s) (cr3 s) (pf s) w (disk s).
Definition set_disk (d : Z -> Z -> Z) (s : vm) : vm := mk_vm (ram s) (pm s) (cr3 s) (pf s) (sw s) d.

#[export] Instance vm_has_pmm : HasPmm vm := {| pm_of := pm; with_pm := set_pm |}.

Definition frame (a : Z) : Z := a / PAGE_SIZE.

Definition rupd (r : Z -> Z -> Z) (f i v : Z) : Z -> Z -> Z :=
  fun g j => if (g =? f) && (j =? i) then v else r g j.
Definition rpage (r : Z -> Z -> Z) (f : Z) (p : Z -> Z) : Z -> Z -> Z :=
  fun g => if g =? f then p else r g.

(** [*t.add(i)] *)
Definition rd (t i : Z) : M vm Z := gets (fun s => ram s (frame t) i).
(** [*t.add(i) = v] *)
Definition wr (t i v : Z) : M vm unit := modify (fun s => set_ram (rupd (ram s) (frame t) i v) s).
(** [copy_nonoverlapping] of a page. *)
Definition copy_page (src dst : Z) : M vm unit :=
  modify (fun s => set_ram (rpage (ram s) (frame dst) (ram s (frame src))) s).
Definition zero_page (p : Z) : M vm unit :=
  if p =? 0 then skip else modify (fun s => set_ram (rpage (ram s) (frame p) (fun _ => 0)) s).

(** The address of the kernel's [page_directory] and of [PAGE_TABLES]. *)
Class KernelImage := { get_kernel_pd : Z; page_tables : Z }.

Definition free_pg (a : Z) : M vm unit := fun s => p ← free_page a (pm s); Some (set_pm p s, tt).
Definition ref_inc (a : Z) : M vm unit := modify (fun s => set_pm (page_ref_inc a (pm s)) s).
Definition current_page_dir : M vm Z := gets cr3.

Section Paging.
Context `{!KernelImage, !Reclaim vm}.

Definition kalloc_vm : M vm Z := kalloc.

Definition vmm_sync_kernel_mmio_mappings (pd : Z) : M vm unit :=
  if pd =? 0 then skip
  else for_each (seqZ PD_KERNEL_ENTRIES (PD_TOTAL - PD_KERNEL_ENTRIES)) (fun i =>
         e ← rd get_kernel_pd i; wr pd i e).

Definition init_paging : M vm unit :=
  for_each (seqZ 0 PD_TOTAL) (fun pt_idx =>
    let pt := page_tables + pt_idx * PAGE_SIZE in
    for_each (seqZ 0 1024) (fun page =>
      let phys := u32 (u32 (pt_idx * 1024 + page) * PAGE_SIZE) in
      let cache_flags := if PCI_HOLE_START <=? phys then Z.lor PAGE_PCD PAGE_PWT else 0 in
      wr pt page (Z.lor (Z.lor (Z.lor phys PAGE_PRESENT) PAGE_RW) cache_flags)) ;;
    wr get_kernel_pd pt_idx (Z.lor (Z.lor pt PAGE_PRESENT) PAGE_RW)) ;;
  modify (fun s => mk_vm (ram s) (pm s) get_kernel_pd (pf s) (sw s) (disk s)).

Definition cow_page_table (shared_pt : Z) : M vm Z :=
  priv_pt ← kalloc_vm;
  if priv_pt =? 0 then mret 0 else copy_page shared_pt priv_pt ;; mret priv_pt.

(** The entry replaced by [physical_addr]: a copy-on-write frame that goes
    away is released. *)
Definition replace_pte (pt pti physical_addr flags : Z) : M vm unit :=
  old_pte ← rd pt pti;
  (if has old_pte PAGE_PRESENT && has old_pte PAGE_COW
      && negb (Z.land old_pte ADDR_MASK =? Z.land physical_addr ADDR_MASK)
   then free_pg (Z.land old_pte ADDR_MASK) else skip) ;;
  wr pt pti (Z.lor (Z.lor (Z.land physical_addr ADDR_MASK) flags) PAGE_PRESENT).

(** Whether the table for the entry could be made ready. *)
Definition map_table (pd pdi pti physical_addr flags : Z) (is_kernel_mmio : bool) : M vm bool :=
  pde ← rd pd pdi;
  if negb (has pde PAGE_PRESENT) then
    pt ← kalloc_vm;
    if pt =? 0 then mret false
    else
      for_each (seqZ 0 1024) (fun i => wr pt i 0) ;;
      (if is_kernel_mmio then wr pd pdi (Z.lor (Z.lor pt flags) PAGE_PRESENT)
       else wr pd pdi (Z.lor (Z.lor (Z.lor pt flags) PAGE_PRESENT) PDE_PRIVATE)) ;;
      mret true
  else if negb (has pde PDE_PRIVATE) then
    if is_kernel_mmio then
      let pde := Z.lor pde (Z.land flags (Z.lor PAGE_USER PAGE_RW)) in
      wr pd pdi pde ;;
      replace_pte (Z.land pde ADDR_MASK) pti physical_addr flags ;;
      mret true
    else
      priv_pt ← cow_page_table (Z.land pde ADDR_MASK);
      if priv_pt =? 0 then mret false
      else
        pde ← rd pd pdi;
        let old_flags := Z.land pde FLAG_MASK in
        wr pd pdi (Z.lor (Z.land priv_pt ADDR_MASK)
                     (Z.lor (Z.lor old_flags (Z.land flags (Z.lor PAGE_USER PAGE_RW))) PDE_PRIVATE)) ;;
        mret true
  else wr pd pdi (Z.lor pde (Z.land flags (Z.lor PAGE_USER PAGE_RW))) ;; mret true.

Definition map_flags (virtual_addr physical_addr flags : Z) : Z :=
  let flags := u32 flags in
  let flags := if PCI_HOLE_START <=? physical_addr then Z.lor flags (Z.lor PAGE_PCD PAGE_PWT) else flags in
  if (USER_STACK_LIMIT <=? virtual_addr) && (virtual_addr <? USER_STACK_TOP) && has flags PAGE_USER
  then Z.lor flags PAGE_RW else flags.

Definition vmm_map (pd virtual_addr physical_addr flags : Z) : M vm unit :=
  if pd =? 0 then skip
  else if negb (virtual_addr mod PAGE_SIZE =? 0) || negb (physical_addr mod PAGE_SIZE =? 0) then skip
  else
    let pdi := pd_index virtual_addr in
    let pti := pt_index virtual_addr in
    let flags := map_flags virtual_addr physical_addr flags in
    let is_kernel_mmio := PCI_HOLE_START <=? virtual_addr in
    ok ← map_table pd pdi pti physical_addr flags is_kernel_mmio;
    if negb ok then skip
    else
      pde ← rd pd pdi;
      replace_pte (Z.land pde ADDR_MASK) pti physical_addr flags ;;
      if (pd =? get_kernel_pd) && is_kernel_mmio then
        active ← current_page_dir;
        if negb (active =? 0) && negb (active =? pd) then vmm_sync_kernel_mmio_mappings active else skip
      else skip.

Definition vmm_get_phys (pd virtual_addr : Z) : M vm Z :=
  let pd := if pd =? 0 then get_kernel_pd else pd in
  pde ← rd pd (pd_index virtual_addr);
  if negb (has pde PAGE_PRESENT) then mret 0
  else
    pte ← rd (Z.land pde ADDR_MASK) (pt_index virtual_addr);
    if negb (has pte PAGE_PRESENT) then mret 0
    else mret (Z.lor (Z.land pte ADDR_MASK) (Z.land virtual_addr FLAG_MASK)).

Definition vmm_create_address_space : M vm Z :=
  pd ← kalloc_vm;
  if pd =? 0 then mret 0
  else
    for_each (seqZ 0 PD_TOTAL) (fun i => e ← rd get_kernel_pd i; wr pd i e) ;;
    mret pd.

Definition free_user_pte (pt j : Z) : M vm unit :=
  pte ← rd pt j;
  if has pte PAGE_PRESENT && has pte PAGE_USER then free_pg (Z.land pte ADDR_MASK) else skip.

Definition vmm_free_address_space (pd : Z) : M vm unit :=
  if pd =? 0 then skip
  else
    for_each (seqZ 0 PD_KERNEL_ENTRIES) (fun i =>
      pde ← rd pd i;
      if negb (has pde PDE_PRIVATE) then skip
      else if negb (has pde PAGE_PRESENT) then skip
      else
        let pt := Z.land pde ADDR_MASK in
        for_each (seqZ 0 1024) (free_user_pte pt) ;;
        free_pg pt) ;;
    free_pg pd.

Definition vmm_copy_address_space (src_pd dst_pd : Z) : M vm unit :=
  if (src_pd =? 0) || (dst_pd =? 0) then skip
  else for_each (seqZ 0 PD_TOTAL) (fun i =>
    src_pde ← rd src_pd i;
    if negb (has src_pde PDE_PRIVATE) then wr dst_pd i src_pde
    else if negb (has src_pde PAGE_PRESENT) then skip
    else
      let src_pt := Z.land src_pde ADDR_MASK in
      dst_pt ← kalloc_vm;
      if dst_pt =? 0 then skip
      else
        for_each (seqZ 0 1024) (fun j => wr dst_pt j 0) ;;
        for_each (seqZ 0 1024) (fun j =>
          src_pte ← rd src_pt j;
          if negb (has src_pte PAGE_PRESENT) || negb (has src_pte PAGE_USER) then skip
          else
            new_page ← kalloc_vm;
            if new_page =? 0 then skip
            else
              copy_page (Z.land src_pte ADDR_MASK) new_page ;;
              wr dst_pt j (Z.lor (Z.land new_page ADDR_MASK) (Z.land src_pte FLAG_MASK))) ;;
        wr dst_pd i (Z.lor (Z.land dst_pt ADDR_MASK) (Z.land src_pde FLAG_MASK))).

(** ** Fork *)

(** Whether the page at [va] was cloned at once. *)
Definition fork_stack_page (dst_pt j pte va : Z) : M vm bool :=
  if (USER_STACK_LIMIT <=? va) && (va <? USER_STACK_TOP) then
    new_page ← kalloc_vm;
    if new_page =? 0 then mret false
    else
      let flags := Z.lor (clear (Z.land pte FLAG_MASK) PAGE_COW) PAGE_RW in
      copy_page (Z.land pte ADDR_MASK) new_page ;;
      wr dst_pt j (Z.lor (Z.land new_page ADDR_MASK) flags) ;;
      mret true
  else mret false.

Definition fork_pte (src_pt dst_pt i j : Z) : M vm unit :=
  pte ← rd src_pt j;
  if negb (has pte PAGE_PRESENT) then wr dst_pt j pte
  else if negb (has pte PAGE_USER) then wr dst_pt j pte
  else
    done ← fork_stack_page dst_pt j pte (Z.lor (Z.shiftl i 22) (Z.shiftl j 12));
    if done : bool then skip
    else
      let phys := Z.land pte ADDR_MASK in
      let cow_flags := Z.lor (clear (Z.land pte FLAG_MASK) PAGE_RW) PAGE_COW in
      wr src_pt j (Z.lor phys cow_flags) ;;
      wr dst_pt j (Z.lor phys cow_flags) ;;
      ref_inc phys.

Definition fork_pde (src_pd dst_pd i : Z) : M vm unit :=
  if (Z.shiftr MMAP_BASE 22 <=? i) && (i <? Z.shiftr MMAP_LIMIT 22) then skip
  else
    src_pde ← rd src_pd i;
    if negb (has src_pde PDE_PRIVATE) then wr dst_pd i src_pde
    else if negb (has src_pde PAGE_PRESENT) then skip
    else
      dst_pt ← kalloc_vm;
      if dst_pt =? 0 then skip
      else
        zero_page dst_pt ;;
        for_each (seqZ 0 1024) (fork_pte (Z.land src_pde ADDR_MASK) dst_pt i) ;;
        wr dst_pd i (Z.lor (Z.land dst_pt ADDR_MASK) (Z.land src_pde FLAG_MASK)).

Definition vmm_fork_address_space (src_pd dst_pd : Z) : M vm unit :=
  if (src_pd =? 0) || (dst_pd =? 0) then skip
  else for_each (seqZ 0 PD_KERNEL_ENTRIES) (fork_pde src_pd dst_pd).

(** ** Demand and copy-on-write mappings *)

(** The address of the entry for [vaddr], as its table and index. *)
Definition pte_get (pd vaddr : Z) : M vm (option (Z * Z)) :=
  if pd =? 0 then mret None
  else
    pde ← rd pd (pd_index vaddr);
    if negb (has pde PAGE_PRESENT) then mret None
    else mret (Some (Z.land pde ADDR_MASK, pt_index vaddr)).

Definition ensure_private_pt (pd pdi extra_flags : Z) : M vm Z :=
  if PD_KERNEL_ENTRIES <=? pdi then mret 0
  else
    pde ← rd pd pdi;
    if negb (has pde PAGE_PRESENT) then
      pt ← kalloc_vm;
      if pt =? 0 then mret 0
      else
        zero_page pt ;;
        wr pd pdi (Z.lor (Z.lor (Z.lor (Z.lor (Z.land pt ADDR_MASK) PAGE_PRESENT) PAGE_RW)
                     (Z.land extra_flags PAGE_USER)) PDE_PRIVATE) ;;
        mret pt
    else if negb (has pde PDE_PRIVATE) then
      priv_pt ← kalloc_vm;
      if priv_pt =? 0 then mret 0
      else
        copy_page (Z.land pde ADDR_MASK) priv_pt ;;
        pde ← rd pd pdi;
        let old_flags := Z.land pde FLAG_MASK in
        wr pd pdi (Z.lor (Z.land priv_pt ADDR_MASK)
                     (Z.lor (Z.lor old_flags (Z.land extra_flags PAGE_USER)) PDE_PRIVATE)) ;;
        mret priv_pt
    else mret (Z.land pde ADDR_MASK).

(** [while va < end { body; va += PAGE_SIZE }], with a body that may return. *)
Fixpoint while_va (fuel : nat) (va en : Z) (body : Z -> M vm (option Z)) : M vm (option Z) :=
  match fuel with
  | O => fail
  | S fuel =>
      if va <? en then
        r ← body va;
        match r with Some _ => mret r | None => while_va fuel (u32 (va + PAGE_SIZE)) en body end
      else mret None
  end.

Definition sat_add (a b : Z) : Z := Z.min (a + b) (2 ^ 32 - 1).

Definition vmm_map_lazy (kind pd virtual_addr size flags : Z) : M vm Z :=
  if (pd =? 0) || (size =? 0) then mret (-1)
  else
    let flags := u32 flags in
    let start := Z.land virtual_addr ADDR_MASK in
    let en := Z.land (sat_add (sat_add virtual_addr size) 4095) ADDR_MASK in
    if (USER_STACK_TOP <=? start) || (USER_STACK_TOP <? en) then mret (-1)
    else
      r ← while_va (S (Z.to_nat (en / PAGE_SIZE))) start en (fun va =>
        pt ← ensure_private_pt pd (pd_index va) flags;
        if pt =? 0 then mret (Some (-1))
        else wr pt (pt_index va) (Z.lor kind (Z.land flags PAGE_USER)) ;; mret None);
      mret (default 0 r).

Definition vmm_map_demand : Z -> Z -> Z -> Z -> M vm Z := vmm_map_lazy PAGE_DEMAND.
Definition vmm_map_zero : Z -> Z -> Z -> Z -> M vm Z := vmm_map_lazy (Z.lor PAGE_DEMAND PAGE_ZERO).

Definition vmm_map_cow (pd virtual_addr : Z) : M vm Z :=
  pte ← pte_get pd virtual_addr;
  match pte with
  | None => mret (-1)
  | Some (t, j) =>
      v ← rd t j;
      if negb (has v PAGE_PRESENT) then mret (-1)
      else wr t j (Z.lor (clear v PAGE_RW) PAGE_COW) ;; mret 0
  end.

Definition vmm_is_cow_page (pd virtual_addr : Z) : M vm Z :=
  pte ← pte_get pd virtual_addr;
  match pte with
  | None => mret 0
  | Some (t, j) => v ← rd t j; mret (if has v PAGE_COW then 1 else 0)
  end.

Definition vmm_handle_cow (pd virtual_addr : Z) : M vm Z :=
  pte ← pte_get pd virtual_addr;
  match pte with
  | None => mret (-1)
  | Some (t, j) =>
      pte_val ← rd t j;
      if negb (has pte_val PAGE_COW) then mret (-1)
      else
        let old_phys := Z.land pte_val ADDR_MASK in
        let flags := Z.lor (Z.lor (clear (Z.land pte_val FLAG_MASK) PAGE_COW) PAGE_RW) PAGE_PRESENT in
        rc ← gets (fun s => page_ref_get_locked old_phys (pm s));
        if rc =? 1 then wr t j (Z.lor old_phys flags) ;; mret 0
        else
          new_phys ← kalloc_vm;
          if new_phys =? 0 then mret (-1)
          else
            copy_page old_phys new_phys ;;
            wr t j (Z.lor (Z.land new_phys ADDR_MASK) flags) ;;
            free_pg old_phys ;;
            mret 0
  end.

Definition vmm_setup_user_stack (pd initial_size : Z) : M vm Z :=
  if pd =? 0 then mret 0
  else
    let initial_size := Z.land (u32 (initial_size + 4095)) ADDR_MASK in
    let initial_size := if initial_size =? 0 then PAGE_SIZE else initial_size in
    let bottom := u32 (USER_STACK_TOP - initial_size) in
    r ← while_va (S (Z.to_nat (USER_STACK_TOP / PAGE_SIZE))) bottom USER_STACK_TOP (fun va =>
      phys ← kalloc_vm;
      if phys =? 0 then mret (Some 0)
      else
        zero_page phys ;;
        vmm_map pd va phys (Z.lor (Z.lor PAGE_PRESENT PAGE_RW) PAGE_USER) ;;
        mret None);
    mret (default USER_STACK_TOP r).
End Paging.
