(* ===== verification/Swap.v ===== *)
(** * Swap

    Model of [kernel/memory/rust_mm/src/fault/swap.rs] with the two callbacks
    the kernel registers, [swap_disk_read] and [swap_disk_write] of
    [kernel/core/kernel.c].  They use sectors of the boot device; whether the
    transfer of a sector works is the parameter [dev_ok] (there is a boot
    device, it has the sector, the driver succeeds): both callbacks report
    success in any case. *)
From S2P Require Import Prelude StateM Pmm Vmm.

#[local] Open Scope Z_scope.

Definition SWAP_MAX_SLOTS : Z := 65536.
Definition SWAP_BITMAP_SIZE : Z := SWAP_MAX_SLOTS / 8.
Definition SWAP_DATA_START_LBA : Z := 1.
Definition NO_SLOT : Z := 4294967295.

Definition set_sbitmap (bm : Z -> Z) (w : swap) : swap :=
  mk_swap bm (g_total_slots w) (g_enabled w) (g_sstats w) (g_clock_pdi w) (g_clock_ptj w) (g_fns w).
Definition set_sstats (st : SwapStats) (w : swap) : swap :=
  mk_swap (g_bitmap w) (g_total_slots w) (g_enabled w) st (g_clock_pdi w) (g_clock_ptj w) (g_fns w).
Definition set_clock (pdi ptj : Z) (w : swap) : swap :=
  mk_swap (g_bitmap w) (g_total_slots w) (g_enabled w) (g_sstats w) pdi ptj (g_fns w).

Definition add_used (n : Z) (st : SwapStats) : SwapStats :=
  mk_sws (total_slots st) (u32 (used_slots st + n)) (pages_swapped_out st) (pages_swapped_in st) (swap_failures st).
Definition add_out (st : SwapStats) : SwapStats :=
  mk_sws (total_slots st) (used_slots st) (u32 (pages_swapped_out st + 1)) (pages_swapped_in st) (swap_failures st).
Definition add_in (st : SwapStats) : SwapStats :=
  mk_sws (total_slots st) (used_slots st) (pages_swapped_out st) (u32 (pages_swapped_in st + 1)) (swap_failures st).
Definition add_failure (st : SwapStats) : SwapStats :=
  mk_sws (total_slots st) (used_slots st) (pages_swapped_out st) (pages_swapped_in st) (u32 (swap_failures st + 1)).

Definition on_sw (f : swap -> swap) : M vm unit := modify (fun s => set_sw (f (sw s)) s).
Definition on_stats (f : SwapStats -> SwapStats) : M vm unit := on_sw (fun w => set_sstats (f (g_sstats w)) w).

(** An access of the bitmap, which panics beyond its end. *)
Definition slot_byte (slot : Z) (w : swap) : option Z :=
  if slot / 8 <? SWAP_BITMAP_SIZE then Some (g_bitmap w (slot / 8)) else None.
Definition slot_used (slot : Z) (w : swap) : option bool :=
  b ← slot_byte slot w; Some (negb (Z.land b (Z.shiftl 1 (slot mod 8)) =? 0)).
Definition slot_write (slot : Z) (f : Z -> Z) (w : swap) : option swap :=
  b ← slot_byte slot w; Some (set_sbitmap (fupd (g_bitmap w) (slot / 8) (f b)) w).

(** [for i in i..i + n] of [bitmap_alloc]. *)
Fixpoint find_slot (n : nat) (i : Z) (w : swap) : option (swap * Z) :=
  match n with
  | O => Some (w, NO_SLOT)
  | S n =>
      used ← slot_used i w;
      if used : bool then find_slot n (i + 1) w
      else
        w ← slot_write i (fun b => Z.lor b (Z.shiftl 1 (i mod 8))) w;
        Some (set_sstats (add_used 1 (g_sstats w)) w, i)
  end.

Definition bitmap_alloc : M vm Z := fun s =>
  '(w, slot) ← find_slot (Z.to_nat (g_total_slots (sw s))) 0 (sw s); Some (set_sw w s, slot).

Definition bitmap_free (slot : Z) : M vm unit := fun s =>
  let w := sw s in
  if g_total_slots w <=? slot then Some (s, tt)
  else
    used ← slot_used slot w;
    if used : bool then
      w ← slot_write slot (fun b => Z.land b (Z.lnot (Z.shiftl 1 (slot mod 8)))) w;
      let w := if 0 <? used_slots (g_sstats w) then set_sstats (add_used (-1) (g_sstats w)) w else w in
      Some (set_sw w s, tt)
    else Some (s, tt).

Definition slot_to_lba (slot : Z) : Z := u32 (SWAP_DATA_START_LBA + u32 (slot * (PAGE_SIZE / 512))).
Definition swap_encode_pte (slot : Z) : Z := Z.lor (Z.land (u32 (Z.shiftl slot 12)) ADDR_MASK) PAGE_SWAPPED.
Definition swap_decode_pte (pte : Z) : Z := Z.shiftr (Z.land pte ADDR_MASK) 12.
Definition swap_pte_is_swapped (pte : Z) : bool := negb (has pte PAGE_PRESENT) && has pte PAGE_SWAPPED.
Definition swap_is_enabled : M vm bool := gets (fun s => negb (g_enabled (sw s) =? 0)).

Definition swap_init (slots : Z) : M vm Z :=
  let total := if (slots =? 0) || (SWAP_MAX_SLOTS <? slots) then SWAP_MAX_SLOTS else slots in
  on_sw (fun w => mk_swap (fun _ => 0) total 1 (mk_sws total 0 0 0 0) (g_clock_pdi w) (g_clock_ptj w) true) ;;
  mret 0.

Section Io.
(** Whether a sector of the boot device can be transferred. *)
Context (dev_ok : Z -> bool).

(** 128 words of a sector. *)
Definition swap_disk_read (lba buf sectors : Z) : M vm Z :=
  for_each (seqZ 0 sectors) (fun i =>
    for_each (seqZ 0 128) (fun w =>
      v ← gets (fun s => if dev_ok (u32 (lba + i)) then disk s (u32 (lba + i)) w else 0);
      wr buf (128 * i + w) v)) ;;
  mret 0.

Definition swap_disk_write (lba buf sectors : Z) : M vm Z :=
  for_each (seqZ 0 sectors) (fun i =>
    for_each (seqZ 0 128) (fun w =>
      v ← rd buf (128 * i + w);
      if dev_ok (u32 (lba + i)) then modify (fun s => set_disk (rupd (disk s) (u32 (lba + i)) w v) s) else skip)) ;;
  mret 0.

(** The slot the page went to, or none. *)
Definition swap_out_page (phys_addr : Z) : M vm (option Z) :=
  on ← swap_is_enabled;
  if negb on then mret None
  else if negb (phys_addr mod PAGE_SIZE =? 0) then mret None
  else
    slot ← bitmap_alloc;
    if slot =? NO_SLOT then on_stats add_failure ;; mret None
    else
      let lba := slot_to_lba slot in
      fns ← gets (fun s => g_fns (sw s));
      if negb fns then mret None
      else
        rc ← swap_disk_write lba phys_addr (PAGE_SIZE / 512);
        if negb (rc =? 0) then bitmap_free slot ;; on_stats add_failure ;; mret None
        else on_stats add_out ;; mret (Some slot).

Definition swap_in_page (slot phys_addr : Z) : M vm Z :=
  on ← swap_is_enabled;
  total ← gets (fun s => g_total_slots (sw s));
  if negb on then mret (-1)
  else if total <=? slot then mret (-1)
  else if negb (phys_addr mod PAGE_SIZE =? 0) then mret (-1)
  else
    let lba := slot_to_lba slot in
    fns ← gets (fun s => g_fns (sw s));
    if negb fns then mret (-1)
    else
      rc ← swap_disk_read lba phys_addr (PAGE_SIZE / 512);
      if negb (rc =? 0) then on_stats add_failure ;; mret (-1)
      else bitmap_free slot ;; on_stats add_in ;; mret 0.

Definition swap_free_slot (slot : Z) : M vm unit :=
  on ← swap_is_enabled;
  if negb on then skip else bitmap_free slot.

(** [ptj += 1] with the step to the next table. *)
Definition clock_next (pdi ptj : Z) : Z * Z := if 1024 <=? ptj + 1 then (pdi + 1, 0) else (pdi, ptj + 1).

(** The clock: [n] iterations are left. *)
Fixpoint evict_loop (n : nat) (pd pdi ptj : Z) : M vm Z :=
  match n with
  | O => mret (-1)
  | S n =>
      let '(pdi, ptj) := if 1024 <=? pdi then (32, 0) else (pdi, ptj) in
      pde ← rd pd pdi;
      if negb (has pde PAGE_PRESENT) then evict_loop n pd (pdi + 1) 0
      else if negb (has pde PDE_PRIVATE) then evict_loop n pd (pdi + 1) 0
      else
        let pt := Z.land pde ADDR_MASK in
        let '(pdi', ptj') := clock_next pdi ptj in
        pte ← rd pt ptj;
        if negb (has pte PAGE_PRESENT) || swap_pte_is_swapped pte then evict_loop n pd pdi' ptj'
        else if negb (has pte PAGE_USER) then evict_loop n pd pdi' ptj'
        else if has pte PTE_ACCESSED then wr pt ptj (clear pte PTE_ACCESSED) ;; evict_loop n pd pdi' ptj'
        else
          let phys := Z.land pte ADDR_MASK in
          slot ← swap_out_page phys;
          match slot with
          | None => mret (-1)
          | Some slot =>
              let new_pte := Z.lor (swap_encode_pte slot) (clear (Z.land pte (Z.lor PAGE_RW PAGE_USER)) PAGE_PRESENT) in
              wr pt ptj new_pte ;;
              free_pg phys ;;
              on_sw (set_clock pdi' ptj') ;;
              mret 0
          end
  end.

Definition swap_evict_page (pd : Z) : M vm Z :=
  on ← swap_is_enabled;
  if negb on || (pd =? 0) then mret (-1)
  else
    pdi ← gets (fun s => g_clock_pdi (sw s));
    ptj ← gets (fun s => g_clock_ptj (sw s));
    evict_loop (Z.to_nat (2 * 1024 * 992)) pd pdi ptj.

Section Fault.
Context `{!Reclaim vm}.

Definition swap_handle_fault (pd fault_addr : Z) : M vm Z :=
  if pd =? 0 then mret (-1)
  else
    let page_va := Z.land fault_addr ADDR_MASK in
    let pti := pt_index page_va in
    pde ← rd pd (pd_index page_va);
    if negb (has pde PAGE_PRESENT) then mret (-1)
    else
      let pt := Z.land pde ADDR_MASK in
      pte ← rd pt pti;
      if negb (swap_pte_is_swapped pte) then mret (-1)
      else
        let slot := swap_decode_pte pte in
        phys ← kalloc_vm;
        phys ← (if phys =? 0 then
                  r ← swap_evict_page pd;
                  if negb (r =? 0) then mret 0 else kalloc_vm
                else mret phys);
        if phys =? 0 then mret (-1)
        else
          rc ← swap_in_page slot phys;
          if negb (rc =? 0) then free_pg phys ;; mret (-1)
          else
            let old_flags := Z.land pte (Z.lor PAGE_RW PAGE_USER) in
            wr pt pti (Z.lor (Z.lor (Z.land phys ADDR_MASK) old_flags) PAGE_PRESENT) ;;
            mret 0.
End Fault.
End Io.

(** What [kalloc] does when no page is left: evict a page of the current
    address space, or have the out-of-memory killer choose a process. *)
Class OomKill := oom_kill : M vm Z.

Definition vm_reclaim (dev_ok : Z -> bool) `{!OomKill} : Reclaim vm :=
  on ← swap_is_enabled;
  if on : bool then
    pd ← current_page_dir;
    r ← (if negb (pd =? 0) then swap_evict_page dev_ok pd else mret (-1));
    if r =? 0 then mret true else k ← oom_kill; mret (k =? 0)
  else k ← oom_kill; mret (k =? 0).
