(* ===== verification/PageFault.v ===== *)
(** * The page fault handler

    Model of [kernel/memory/rust_mm/src/fault/page_fault.rs] on the address
    spaces of [Vmm.v] and the swap device of [Swap.v].  The handler runs with
    the kernel's page directory in CR3 ([Cr3Guard]) and restores the old one,
    except when it gives up on the task: then the task is signalled and the
    scheduler called ([Killed]), or the machine stops ([Halted]).  The
    out-of-memory killer, which works on the scheduler's task list, is the
    interface [OomKill] of [Swap.v]. *)
From S2P Require Import Prelude StateM Pmm Vmm Swap.

#[local] Open Scope Z_scope.

Definition PF_PRESENT : Z := 1.
Definition PF_WRITE : Z := 2.
Definition PF_USER_BIT : Z := 4.

(** What the handler reads of [current_task]. *)
Record TaskStruct := mk_task { is_kernel : Z; pid : Z; page_directory : Z }.

Inductive outcome := Resumed | Killed (pid : Z) | Halted.

Definition on_pf (f : PfStats -> PfStats) : M vm unit := modify (fun s => set_pf (f (pf s)) s).

Definition add_total (p : PfStats) : PfStats :=
  mk_pfs (u32 (total_faults p + 1)) (demand_allocs p) (cow_copies p) (stack_grows p) (zero_pages p) (swap_ins p)
    (protection_faults p) (invalid_access p).
Definition add_demand (p : PfStats) : PfStats :=
  mk_pfs (total_faults p) (u32 (demand_allocs p + 1)) (cow_copies p) (stack_grows p) (zero_pages p) (swap_ins p)
    (protection_faults p) (invalid_access p).
Definition add_cow (p : PfStats) : PfStats :=
  mk_pfs (total_faults p) (demand_allocs p) (u32 (cow_copies p + 1)) (stack_grows p) (zero_pages p) (swap_ins p)
    (protection_faults p) (invalid_access p).
Definition add_grow (p : PfStats) : PfStats :=
  mk_pfs (total_faults p) (demand_allocs p) (cow_copies p) (u32 (stack_grows p + 1)) (zero_pages p) (swap_ins p)
    (protection_faults p) (invalid_access p).
Definition add_zero (p : PfStats) : PfStats :=
  mk_pfs (total_faults p) (demand_allocs p) (cow_copies p) (stack_grows p) (u32 (zero_pages p + 1)) (swap_ins p)
    (protection_faults p) (invalid_access p).
Definition add_swap_in (p : PfStats) : PfStats :=
  mk_pfs (total_faults p) (demand_allocs p) (cow_copies p) (stack_grows p) (zero_pages p) (u32 (swap_ins p + 1))
    (protection_faults p) (invalid_access p).
Definition add_prot (p : PfStats) : PfStats :=
  mk_pfs (total_faults p) (demand_allocs p) (cow_copies p) (stack_grows p) (zero_pages p) (swap_ins p)
    (u32 (protection_faults p + 1)) (invalid_access p).
Definition add_invalid (p : PfStats) : PfStats :=
  mk_pfs (total_faults p) (demand_allocs p) (cow_copies p) (stack_grows p) (zero_pages p) (swap_ins p)
    (protection_faults p) (u32 (invalid_access p + 1)).

Definition set_cr3 (pd : Z) (s : vm) : vm := mk_vm (ram s) (pm s) pd (pf s) (sw s) (disk s).

Definition page_fault_init : M vm unit := on_pf (fun _ => mk_pfs 0 0 0 0 0 0 0 0).
Definition pf_get_stats : M vm PfStats := gets pf.

Section Handler.
Context `{!KernelImage, !Reclaim vm, !OomKill} (dev_ok : Z -> bool).

Definition kill_current (t : option TaskStruct) : M vm outcome :=
  match t with
  | Some t =>
      if is_kernel t =? 0 then on_pf add_prot ;; mret (Killed (pid t))
      else on_pf add_prot ;; mret Halted
  | None => on_pf add_prot ;; mret Halted
  end.

(** [kalloc], once more after the out-of-memory killer. *)
Definition kalloc_or_oom : M vm Z :=
  phys ← kalloc_vm;
  if phys =? 0 then k ← oom_kill; if k =? 0 then kalloc_vm else mret 0 else mret phys.

(** A fresh zero page for the stack. *)
Definition grow_stack (t : option TaskStruct) (pd page_va : Z) : M vm outcome :=
  phys ← kalloc_or_oom;
  if phys =? 0 then kill_current t
  else
    zero_page phys ;;
    vmm_map pd page_va phys (Z.lor (Z.lor PAGE_PRESENT PAGE_RW) PAGE_USER) ;;
    on_pf add_grow ;;
    mret Resumed.

Definition in_stack (fault_addr : Z) : bool := (USER_STACK_LIMIT <=? fault_addr) && (fault_addr <? USER_STACK_TOP).

Definition pte_value (pte : option (Z * Z)) : M vm (option Z) :=
  match pte with None => mret None | Some (t, j) => v ← rd t j; mret (Some v) end.

(** [p] of the entry, if there is one *)
Definition and_pte (v : option Z) (p : Z -> bool) : bool := match v with None => false | Some v => p v end.

(** A write to a page that is present. *)
Definition write_fault (t : option TaskStruct) (pd fault_addr err : Z) : M vm outcome :=
  pte_ptr ← pte_get pd fault_addr;
  v ← pte_value pte_ptr;
  r ← (if and_pte v (fun v => has v PAGE_COW) then vmm_handle_cow pd (Z.land fault_addr ADDR_MASK) else mret (-1));
  if r =? 0 then on_pf add_cow ;; mret Resumed
  else
    v ← pte_value pte_ptr;
    if has err PF_USER_BIT && in_stack fault_addr && and_pte v (fun v => negb (has v PAGE_USER))
    then grow_stack t pd (Z.land fault_addr ADDR_MASK)
    else kill_current t.

Definition demand_fault (t : option TaskStruct) (pt j : Z) : M vm outcome :=
  phys ← kalloc_or_oom;
  if phys =? 0 then kill_current t
  else
    v ← rd pt j;
    (if has v PAGE_ZERO then zero_page phys ;; on_pf add_zero else skip) ;;
    pte_val ← rd pt j;
    let flags := clear (Z.land pte_val FLAG_MASK) (Z.lor PAGE_DEMAND PAGE_ZERO) in
    let flags := Z.lor (Z.lor flags PAGE_PRESENT) PAGE_RW in
    wr pt j (Z.lor (Z.land phys ADDR_MASK) flags) ;;
    on_pf add_demand ;;
    mret Resumed.

(** A copy-on-write page that is not present. *)
Definition absent_cow_fault (t : option TaskStruct) (pt j : Z) : M vm outcome :=
  v ← rd pt j;
  let old_phys := Z.land v ADDR_MASK in
  rc ← gets (fun s => page_ref_get_locked old_phys (pm s));
  if rc <=? 1 then
    pte_val ← rd pt j;
    let flags := Z.lor (Z.lor (clear (Z.land pte_val FLAG_MASK) PAGE_COW) PAGE_PRESENT) PAGE_RW in
    wr pt j (Z.lor old_phys flags) ;;
    on_pf add_cow ;;
    mret Resumed
  else
    phys ← kalloc_or_oom;
    if phys =? 0 then kill_current t
    else
      copy_page old_phys phys ;;
      pte_val ← rd pt j;
      let flags := Z.lor (Z.lor (clear (Z.land pte_val FLAG_MASK) PAGE_COW) PAGE_PRESENT) PAGE_RW in
      wr pt j (Z.lor (Z.land phys ADDR_MASK) flags) ;;
      free_pg old_phys ;;
      on_pf add_cow ;;
      mret Resumed.

(** A page that is missing. *)
Definition absent_fault (t : option TaskStruct) (pd fault_addr : Z) : M vm outcome :=
  let page_va := Z.land fault_addr ADDR_MASK in
  pte ← pte_get pd fault_addr;
  v ← pte_value pte;
  if and_pte v swap_pte_is_swapped then
    r ← swap_handle_fault dev_ok pd fault_addr;
    if r =? 0 then on_pf add_swap_in ;; mret Resumed else kill_current t
  else
    match pte, v with
    | Some (pt, j), Some v =>
        if has v PAGE_DEMAND then demand_fault t pt j
        else if has v PAGE_COW then absent_cow_fault t pt j
        else if in_stack fault_addr && (negb (has v PAGE_PRESENT) || negb (has v PAGE_USER))
        then grow_stack t pd page_va
        else on_pf add_invalid ;; kill_current t
    | _, _ =>
        if in_stack fault_addr then grow_stack t pd page_va
        else on_pf add_invalid ;; kill_current t
    end.

Definition fault_dispatch (t : option TaskStruct) (pd fault_addr err : Z) : M vm outcome :=
  if has err PF_PRESENT && has err PF_WRITE then write_fault t pd fault_addr err
  else
    v ← (if has err PF_PRESENT && has err PF_USER_BIT && in_stack fault_addr
         then pte_ptr ← pte_get pd fault_addr; pte_value pte_ptr else mret None);
    if and_pte v (fun v => negb (has v PAGE_USER)) then grow_stack t pd (Z.land fault_addr ADDR_MASK)
    else if negb (has err PF_PRESENT) then absent_fault t pd fault_addr
    else kill_current t.

(** [fault_addr] is CR2 and [err] the error code of the frame. *)
Definition page_fault_handler (t : option TaskStruct) (fault_addr err : Z) : M vm outcome :=
  on_pf add_total ;;
  saved ← current_page_dir;
  let pd := match t with
            | Some t => if negb (page_directory t =? 0) then page_directory t else saved
            | None => saved
            end in
  modify (set_cr3 get_kernel_pd) ;;
  r ← fault_dispatch t pd fault_addr err;
  (match r with Resumed => modify (set_cr3 saved) | _ => skip end) ;;
  mret r.
End Handler.
