(* ===== verification/VmmSpec.v ===== *)
(** * The invariant of address spaces

    Reference counts against the entries that use a frame.  The references of
    a set of page directories form a multiset of frames: every directory, every
    private page table and every present user entry is one reference.  The
    invariant [vm_ok] says that the allocator's count of every frame is its
    multiplicity in that multiset together with the references held by the
    operation in progress and by the rest of the kernel, that directories,
    tables and writable pages have one reference, and that what is not private
    is the kernel's.

    The lemmas say how the primitive steps (take, release and share a frame,
    write an entry, link a table, add or give up a directory) move references
    between these places; the operations are proved from them. *)
From stdpp Require Import gmultiset.
From S2P Require Import Prelude StateM Pmm Vmm.

#[local] Open Scope Z_scope.

(** ** Entries as bit fields *)

Definition pres (x : Z) : bool := Z.testbit x 0.
Definition rw (x : Z) : bool := Z.testbit x 1.
Definition user (x : Z) : bool := Z.testbit x 2.
Definition priv (x : Z) : bool := Z.testbit x 8.
Definition cow (x : Z) : bool := Z.testbit x 9.
(** The frame an entry points to. *)
Definition fr (x : Z) : Z := frame (Z.land x ADDR_MASK).

#[global] Arguments pres : simpl never.
#[global] Arguments rw : simpl never.
#[global] Arguments user : simpl never.
#[global] Arguments priv : simpl never.
#[global] Arguments cow : simpl never.
#[global] Arguments fr : simpl never.

Lemma has_bit x k : 0 <= k -> has x (2 ^ k) = Z.testbit x k.
Proof.
  intros Hk. unfold has. destruct (Z.testbit x k) eqn:E.
  - apply negb_true_iff, Z.eqb_neq. intros H. assert (Z.testbit (Z.land x (2 ^ k)) k = true) as Ht.
    { rewrite Z.land_spec, E, Z.pow2_bits_true by lia. done. }
    by rewrite H, Z.bits_0 in Ht.
  - apply negb_false_iff, Z.eqb_eq, Z.bits_inj'. intros n Hn. rewrite Z.land_spec, Z.bits_0.
    destruct (Z.eq_dec n k) as [->|Hne]; [by rewrite E|]. rewrite Z.pow2_bits_false by done. apply andb_false_r.
Qed.

Lemma has_pres x : has x PAGE_PRESENT = pres x.
Proof. apply (has_bit x 0). lia. Qed.
Lemma has_rw x : has x PAGE_RW = rw x.
Proof. apply (has_bit x 1). lia. Qed.
Lemma has_user x : has x PAGE_USER = user x.
Proof. apply (has_bit x 2). lia. Qed.
Lemma has_priv x : has x PDE_PRIVATE = priv x.
Proof. apply (has_bit x 8). lia. Qed.
Lemma has_cow x : has x PAGE_COW = cow x.
Proof. apply (has_bit x 9). lia. Qed.

Lemma fr_shift x : fr x = Z.shiftr (Z.land x ADDR_MASK) 12.
Proof. unfold fr, frame, PAGE_SIZE. by rewrite Z.shiftr_div_pow2 by lia. Qed.
Lemma fr_lor x y : fr (Z.lor x y) = Z.lor (fr x) (fr y).
Proof. by rewrite !fr_shift, Z.land_lor_distr_l, Z.shiftr_lor. Qed.
Lemma fr_land x y : fr (Z.land x y) = Z.land (fr x) (fr y).
Proof.
  rewrite !fr_shift, <- Z.shiftr_land. f_equal.
  rewrite <- !Z.land_assoc. f_equal. rewrite (Z.land_comm ADDR_MASK), <- Z.land_assoc. by rewrite Z.land_diag.
Qed.
Lemma fr_range x : 0 <= fr x < 2 ^ 20.
Proof.
  rewrite fr_shift, Z.shiftr_land. change (Z.shiftr ADDR_MASK 12) with (Z.ones 20). rewrite Z.land_ones by lia.
  apply Z.mod_pos_bound. lia.
Qed.
Lemma fr_page f : 0 <= f < 2 ^ 20 -> fr (f * PAGE_SIZE) = f.
Proof.
  intros Hf. rewrite fr_shift, Z.shiftr_land. change (Z.shiftr ADDR_MASK 12) with (Z.ones 20). rewrite Z.land_ones by lia.
  rewrite Z.shiftr_div_pow2 by lia. unfold PAGE_SIZE. change (2 ^ 12) with 4096. rewrite Z.div_mul by lia. by rewrite Z.mod_small.
Qed.
Lemma fr_mask x : Z.land (fr x) 1048575 = fr x.
Proof. change 1048575 with (Z.ones 20). rewrite Z.land_ones by lia. apply Z.mod_small, fr_range. Qed.
Lemma addr_fr x : Z.land x ADDR_MASK = fr x * PAGE_SIZE.
Proof.
  rewrite fr_shift. unfold PAGE_SIZE. change 4096 with (2 ^ 12). rewrite <- Z.shiftl_mul_pow2 by lia.
  rewrite <- Z.ldiff_ones_r by lia. apply Z.bits_inj'. intros n Hn. rewrite Z.ldiff_spec, Z.land_spec.
  destruct (Z.lt_ge_cases n 12).
  - rewrite Z.ones_spec_low by lia. change ADDR_MASK with (Z.shiftl (Z.ones 20) 12). rewrite Z.shiftl_spec_low by lia.
    by rewrite !andb_false_r.
  - by rewrite Z.ones_spec_high, andb_true_r by lia.
Qed.
Lemma frame_page f : frame (f * PAGE_SIZE) = f.
Proof. unfold frame, PAGE_SIZE. by rewrite Z.div_mul by lia. Qed.
Lemma tb_page f k : 0 <= k < 12 -> Z.testbit (f * PAGE_SIZE) k = false.
Proof.
  intros Hk. unfold PAGE_SIZE. change 4096 with (2 ^ 12). rewrite <- Z.shiftl_mul_pow2 by lia. apply Z.shiftl_spec_low. lia.
Qed.

(** Bits and frames of an expression built from entries and constants. *)
Ltac const_bit c :=
  repeat match goal with
  | |- context [Z.testbit c ?k] => let b := eval vm_compute in (Z.testbit c k) in change (Z.testbit c k) with b
  end.
Ltac const_bits :=
  const_bit PAGE_PRESENT; const_bit PAGE_RW; const_bit PAGE_USER; const_bit PDE_PRIVATE; const_bit PAGE_COW;
  const_bit PAGE_DEMAND; const_bit PAGE_ZERO; const_bit PAGE_PCD; const_bit PAGE_PWT; const_bit PTE_ACCESSED;
  const_bit ADDR_MASK; const_bit FLAG_MASK; const_bit (Z.lxor PAGE_COW 4294967295); const_bit (Z.lxor PAGE_RW 4294967295);
  const_bit (Z.lxor (Z.lor PAGE_DEMAND PAGE_ZERO) 4294967295).
Ltac bits :=
  unfold clear, pres, rw, user, priv, cow in *;
  rewrite ?Z.lor_spec, ?Z.land_spec, ?tb_page by lia; const_bits;
  rewrite ?andb_true_r, ?andb_false_r, ?orb_false_r, ?orb_true_r, ?orb_false_l; try done.
Ltac const_fr1 c := let v := eval vm_compute in (fr c) in change (fr c) with v.
Ltac const_fr :=
  const_fr1 PAGE_PRESENT; const_fr1 PAGE_RW; const_fr1 PAGE_USER; const_fr1 PDE_PRIVATE; const_fr1 PAGE_COW;
  const_fr1 PAGE_DEMAND; const_fr1 PAGE_ZERO; const_fr1 PAGE_PCD; const_fr1 PAGE_PWT; const_fr1 PTE_ACCESSED;
  const_fr1 ADDR_MASK; const_fr1 FLAG_MASK; const_fr1 (Z.lxor PAGE_COW 4294967295); const_fr1 (Z.lxor PAGE_RW 4294967295);
  const_fr1 (Z.lxor (Z.lor PAGE_DEMAND PAGE_ZERO) 4294967295).
Ltac frs :=
  unfold clear; rewrite ?fr_lor, ?fr_land; const_fr;
  rewrite ?Z.land_0_r, ?Z.land_0_l, ?Z.lor_0_r, ?Z.lor_0_l, ?fr_mask, ?fr_page by (try done; lia); try done.

(** ** Sums of multisets *)

Section Msum.
Context {X : Type} `{EqDecision X}.
Implicit Types (l : list X) (g h : X -> gmultiset Z).

Fixpoint msum (l : list X) (g : X -> gmultiset Z) : gmultiset Z :=
  match l with [] => ∅ | x :: l => g x ⊎ msum l g end.

Lemma msum_ext l g h : (forall x, x ∈ l -> g x = h x) -> msum l g = msum l h.
Proof. induction l as [|x l IH]; intros H; cbn; [done|]. rewrite H, IH; set_solver. Qed.

Lemma msum_app l k g : msum (l ++ k) g = msum l g ⊎ msum k g.
Proof. induction l as [|x l IH]; cbn [msum app]; [by rewrite (left_id_L ∅ (⊎))|]. by rewrite IH, (assoc_L (⊎)). Qed.

Lemma msum_empty l g : (forall x, x ∈ l -> g x = ∅) -> msum l g = ∅.
Proof. induction l as [|x l IH]; intros H; cbn; [done|]. rewrite H, IH; set_solver. Qed.

Lemma elem_of_msum l g f : f ∈ msum l g <-> exists x, x ∈ l /\ f ∈ g x.
Proof.
  induction l as [|x l IH]; cbn.
  - split; [multiset_solver|]. intros (x & Hx & _). by apply elem_of_nil in Hx.
  - rewrite gmultiset_elem_of_disj_union, IH. split.
    + intros [H|(y & Hy & H)]; [exists x|exists y]; (split; [set_solver|done]).
    + intros (y & Hy & H). apply elem_of_cons in Hy as [->|Hy]; [by left|right; by exists y].
Qed.

Lemma msum_split l g x : NoDup l -> x ∈ l -> exists l', msum l g = g x ⊎ msum l' g /\ (forall y, y ∈ l' <-> y ∈ l /\ y <> x) /\
  (forall h, msum l h = h x ⊎ msum l' h).
Proof.
  intros Hnd Hx. apply list_elem_of_split in Hx as (l1 & l2 & ->). exists (l1 ++ l2).
  assert (Hh : forall h, msum (l1 ++ x :: l2) h = h x ⊎ msum (l1 ++ l2) h).
  { intros h. rewrite !msum_app. cbn. multiset_solver. }
  split; [apply Hh|]. split; [|done]. apply list.NoDup_app in Hnd as (H1 & H2 & H3). apply list.NoDup_cons in H3 as [H3 H4].
  intros y. rewrite !elem_of_app, elem_of_cons. specialize (H2 y). set_solver.
Qed.

Lemma msum_upd l g h x :
  NoDup l -> x ∈ l -> (forall y, y ∈ l -> y <> x -> h y = g y) -> msum l h ⊎ g x = msum l g ⊎ h x.
Proof.
  intros Hnd Hx Heq. destruct (msum_split l g x Hnd Hx) as (l' & Hg & Hl & Hh). rewrite Hg, Hh.
  assert (msum l' h = msum l' g) as ->; [|multiset_solver]. apply msum_ext. intros y Hy. apply Hl in Hy as [H1 H2]. by apply Heq.
Qed.

Lemma msum_two l g x y f :
  NoDup l -> x ∈ l -> y ∈ l -> x <> y -> f ∈ g x -> f ∈ g y -> (2 <= multiplicity f (msum l g))%nat.
Proof.
  intros Hnd Hx Hy Hne Hfx Hfy. destruct (msum_split l g x Hnd Hx) as (l' & -> & Hl & _).
  rewrite multiplicity_disj_union. assert (f ∈ msum l' g) as Hf by (apply elem_of_msum; exists y; naive_solver).
  rewrite elem_of_multiplicity in Hfx, Hf. lia.
Qed.

Lemma msum_le l g x f : NoDup l -> x ∈ l -> (multiplicity f (g x) <= multiplicity f (msum l g))%nat.
Proof. intros Hnd Hx. destruct (msum_split l g x Hnd Hx) as (l' & -> & _ & _). rewrite multiplicity_disj_union. lia. Qed.
End Msum.

Lemma mult_one (f : Z) : multiplicity f {[+ f +]} = 1%nat.
Proof. rewrite multiplicity_singleton. by rewrite decide_True. Qed.
Lemma mult_ne (f g : Z) : g <> f -> multiplicity g {[+ f +]} = 0%nat.
Proof. intros H. rewrite multiplicity_singleton. by rewrite decide_False. Qed.

(** Equations between multisets, by counting. *)
Ltac mult_eq :=
  apply gmultiset_eq; let f := fresh "f" in intros f;
  repeat match goal with
  | H : _ = _ :> gmultiset Z |- _ => apply (f_equal (multiplicity f)) in H; rewrite ?multiplicity_disj_union, ?multiplicity_empty in H
  end; rewrite ?multiplicity_disj_union, ?multiplicity_empty; lia.
Lemma ms_self (f : Z) : f ∈ ({[+ f +]} : gmultiset Z).
Proof. multiset_solver. Qed.
Lemma ms_head (f : Z) (X : gmultiset Z) : f ∈ {[+ f +]} ⊎ X.
Proof. multiset_solver. Qed.
Lemma ms_l (f : Z) (X Y : gmultiset Z) : f ∈ X -> f ∈ X ⊎ Y.
Proof. rewrite gmultiset_elem_of_disj_union. auto. Qed.
Lemma ms_r (f : Z) (X Y : gmultiset Z) : f ∈ Y -> f ∈ X ⊎ Y.
Proof. rewrite gmultiset_elem_of_disj_union. auto. Qed.
Lemma ms_not_both (f : Z) (X Y : gmultiset Z) : (multiplicity f X + multiplicity f Y <= 1)%nat -> f ∈ X -> f ∉ Y.
Proof. intros Hm HX HY. rewrite elem_of_multiplicity in HX, HY. lia. Qed.
Lemma ms_chain (R R' A A' e e' : gmultiset Z) : R' ⊎ A = R ⊎ A' -> A' ⊎ e = A ⊎ e' -> R' ⊎ e = R ⊎ e'.
Proof. intros. mult_eq. Qed.

Lemma msum_bind {X Y} (l : list X) (k : X -> list Y) g : msum (l ≫= k) g = msum l (fun x => msum (k x) g).
Proof. induction l as [|x l IH]; cbn; [done|]. by rewrite msum_app, IH. Qed.
Lemma msum_fmap {X Y} (l : list X) (k : X -> Y) g : msum (k <$> l) g = msum l (fun x => g (k x)).
Proof. induction l as [|x l IH]; cbn; [done|]. by rewrite IH. Qed.
Lemma msum_perm {X} (l k : list X) g : l ≡ₚ k -> msum l g = msum k g.
Proof. induction 1 as [|x l k _ IH|x y l|l k m _ IH1 _ IH2]; cbn [msum]; [done|by rewrite IH|mult_eq|congruence]. Qed.
Lemma msum_snoc (n : Z) g : 0 <= n -> msum (seqZ 0 (n + 1)) g = msum (seqZ 0 n) g ⊎ g n.
Proof.
  intros Hn. rewrite seqZ_app, msum_app, Z.add_0_l by lia. f_equal. rewrite seqZ_cons by lia. cbn [msum].
  change (Z.pred 1) with 0. cbn [msum seqZ]. apply (right_id_L ∅ (⊎)).
Qed.

(** ** References *)

(** The frames the allocator hands out. *)
Definition pool (f : Z) : Prop := heap_end_page <= f < TOTAL_PAGES.

(** Where a reference is kept: directory [d], entry [i] of [d], entry [j] of
    the table of entry [i] of [d]. *)
Inductive site := SDir (d : Z) | STab (d i : Z) | SLeaf (d i j : Z).
#[export] Instance site_eq_dec : EqDecision site.
Proof. solve_decision. Defined.

Definition dir_sites (d : Z) : list site :=
  SDir d :: (seqZ 0 PD_KERNEL_ENTRIES ≫= fun i => STab d i :: (SLeaf d i <$> seqZ 0 1024)).
Definition sites (ds : list Z) : list site := ds ≫= dir_sites.

(** A present user entry is a reference to its frame. *)
Definition leaf (p : Z) : gmultiset Z := if pres p && user p then {[+ fr p +]} else ∅.

Definition contrib (r : Z -> Z -> Z) (x : site) : gmultiset Z :=
  match x with
  | SDir d => {[+ d +]}
  | STab d i => if priv (r d i) then {[+ fr (r d i) +]} else ∅
  | SLeaf d i j => if priv (r d i) then leaf (r (fr (r d i)) j) else ∅
  end.

Definition refs (r : Z -> Z -> Z) (ds : list Z) : gmultiset Z := msum (sites ds) (contrib r).

(** The references of the entries of one table, and of one directory entry. *)
Definition tbl (r : Z -> Z -> Z) (t : Z) : gmultiset Z := msum (seqZ 0 1024) (fun j => leaf (r t j)).
Definition ent (r : Z -> Z -> Z) (d i : Z) : gmultiset Z :=
  if priv (r d i) then {[+ fr (r d i) +]} ⊎ tbl r (fr (r d i)) else ∅.
Definition dir (r : Z -> Z -> Z) (d : Z) : gmultiset Z := {[+ d +]} ⊎ msum (seqZ 0 PD_KERNEL_ENTRIES) (ent r d).

Lemma dir_sum r d : msum (dir_sites d) (contrib r) = dir r d.
Proof.
  unfold dir_sites, dir. cbn [msum contrib]. f_equal. rewrite msum_bind. apply msum_ext. intros i _.
  cbn [msum contrib]. rewrite msum_fmap. unfold ent, tbl. cbn [contrib]. destruct (priv (r d i)); [done|].
  rewrite msum_empty by done. apply (left_id_L ∅ (⊎)).
Qed.
Lemma refs_sum r ds : refs r ds = msum ds (dir r).
Proof. unfold refs, sites. rewrite msum_bind. apply msum_ext. intros d _. apply dir_sum. Qed.

Lemma elem_dir_sites d x :
  x ∈ dir_sites d <-> match x with
                      | SDir d' => d' = d
                      | STab d' i => d' = d /\ 0 <= i < PD_KERNEL_ENTRIES
                      | SLeaf d' i j => d' = d /\ 0 <= i < PD_KERNEL_ENTRIES /\ 0 <= j < 1024
                      end.
Proof.
  unfold dir_sites. rewrite elem_of_cons, list_elem_of_bind. split.
  - intros [->|(i & Hx & Hi)]; [done|]. apply elem_of_seqZ in Hi. apply elem_of_cons in Hx as [->|Hx]; [lia|].
    apply list_elem_of_fmap in Hx as (j & -> & Hj). apply elem_of_seqZ in Hj. lia.
  - destruct x as [d'|d' i|d' i j].
    + intros ->. by left.
    + intros [-> Hi]. right. exists i. split; [by left|]. apply elem_of_seqZ. lia.
    + intros (-> & Hi & Hj). right. exists i. split; [|apply elem_of_seqZ; lia]. right. apply list_elem_of_fmap.
      exists j. split; [done|]. apply elem_of_seqZ. lia.
Qed.

Definition in_ds (ds : list Z) (x : site) : Prop :=
  match x with
  | SDir d => d ∈ ds
  | STab d i => d ∈ ds /\ 0 <= i < PD_KERNEL_ENTRIES
  | SLeaf d i j => d ∈ ds /\ 0 <= i < PD_KERNEL_ENTRIES /\ 0 <= j < 1024
  end.

Lemma elem_sites ds x : x ∈ sites ds <-> in_ds ds x.
Proof.
  unfold sites. rewrite list_elem_of_bind. split.
  - intros (d & Hx & Hd). apply elem_dir_sites in Hx. destruct x; naive_solver.
  - intros Hx. destruct x as [d|d i|d i j]; cbn in Hx; exists d; rewrite elem_dir_sites; naive_solver.
Qed.

Lemma NoDup_sites ds : NoDup ds -> NoDup (sites ds).
Proof.
  intros Hnd. apply NoDup_bind; [| |done].
  - intros d1 d2 x _ _ H1 H2. rewrite elem_dir_sites in H1, H2. destruct x; naive_solver.
  - intros d _. apply list.NoDup_cons. split.
    { rewrite list_elem_of_bind. intros (i & Hx & _). apply elem_of_cons in Hx as [Hx|Hx]; [done|].
      by apply list_elem_of_fmap in Hx as (j & Hj & _). }
    apply NoDup_bind; [| |apply NoDup_seqZ].
    + assert (Hix : forall i x, x ∈ STab d i :: (SLeaf d i <$> seqZ 0 1024) ->
        match x with SDir _ => False | STab _ k | SLeaf _ k _ => k = i end).
      { intros i x Hx. apply elem_of_cons in Hx as [->|Hx]; [done|]. by apply list_elem_of_fmap in Hx as (j & -> & _). }
      intros i1 i2 x _ _ H1%Hix H2%Hix. destruct x; [done|congruence|congruence].
    + intros i _. apply list.NoDup_cons. split.
      { intros Hx. by apply list_elem_of_fmap in Hx as (j & Hj & _). }
      apply NoDup_fmap_2; [|apply NoDup_seqZ]. intros j1 j2 H. by injection H.
Qed.

(** ** Free pages *)

Definition free_count (p : pmm) : nat := length (filter (fun f => page_free (bitmap p) f = true) (seqZ 0 TOTAL_PAGES)).
(** At least [n] pages are free. *)
Definition avail (n : nat) (s : vm) : Prop := (n <= free_count (pm s))%nat.

Lemma filter_le {X} (P Q : X -> Prop) `{forall x, Decision (P x)} `{forall x, Decision (Q x)} (l : list X) :
  (forall x, x ∈ l -> P x -> Q x) -> (length (filter P l) <= length (filter Q l))%nat.
Proof.
  induction l as [|x l IH]; intros Hpq; [done|]. specialize (IH (fun y Hy => Hpq y (list_elem_of_further _ _ _ Hy))).
  destruct (decide (P x)) as [Hp|Hp].
  - assert (Q x) by (apply Hpq; [left|done]). rewrite (filter_cons_True P), (filter_cons_True Q) by done. cbn. lia.
  - rewrite (filter_cons_False P) by done. destruct (decide (Q x)).
    + rewrite (filter_cons_True Q) by done. cbn. lia.
    + by rewrite (filter_cons_False Q) by done.
Qed.

Lemma filter_remove {X} (P Q : X -> Prop) `{forall x, Decision (P x)} `{forall x, Decision (Q x)} (l : list X) x :
  NoDup l -> x ∈ l -> P x -> ~ Q x -> (forall y, y <> x -> P y <-> Q y) ->
  length (filter P l) = S (length (filter Q l)).
Proof.
  intros Hnd Hx HP HQ Heq. apply list_elem_of_split in Hx as (l1 & l2 & ->).
  apply list.NoDup_app in Hnd as (_ & Hd & Hnd). apply list.NoDup_cons in Hnd as [Hn _].
  rewrite !list.filter_app, !length_app, (filter_cons_True P), (filter_cons_False Q) by done. cbn.
  assert (Hk : forall k, x ∉ k -> length (filter P k) = length (filter Q k)).
  { intros k Hk. apply Nat.le_antisymm; apply filter_le; intros y Hy; apply Heq; by intros ->. }
  rewrite (Hk l1), (Hk l2); [lia|done|]. intros Hx. by apply (Hd x); [|left].
Qed.

Lemma free_count_taken i p p' : taken i p p' -> free_count p = S (free_count p').
Proof.
  intros (Hi & Hf & _ & Hbm & _). apply filter_remove with i.
  - apply NoDup_seqZ.
  - apply elem_of_seqZ. unfold in_range in Hi. lia.
  - done.
  - rewrite Hbm, Z.eqb_refl. done.
  - intros y Hy. rewrite Hbm. by rewrite (proj2 (Z.eqb_neq y i)).
Qed.

Lemma free_count_pos p : (0 < free_count p)%nat -> exists j, in_range j /\ page_free (bitmap p) j = true.
Proof.
  unfold free_count. destruct (filter _ _) as [|j l] eqn:E; cbn; [lia|]. intros _.
  assert (j ∈ j :: l) as Hj by left. rewrite <- E in Hj. apply list_elem_of_filter in Hj as [H1 H2].
  apply elem_of_seqZ in H2. exists j. split; [unfold in_range; lia|done].
Qed.

Lemma free_count_mono p p' : (forall j, page_free (bitmap p) j = true -> page_free (bitmap p') j = true) ->
  (free_count p <= free_count p')%nat.
Proof. intros H. apply filter_le. intros j _. apply H. Qed.

Lemma free_count_bitmap p p' : bitmap p = bitmap p' -> free_count p = free_count p'.
Proof. unfold free_count. by intros ->. Qed.
Lemma free_count_range p a n :
  0 <= a -> 0 <= n -> a + n <= TOTAL_PAGES -> (forall f, a <= f < a + n -> page_free (bitmap p) f = true) -> (Z.to_nat n <= free_count p)%nat.
Proof.
  intros Ha Hn Hle Hf. unfold free_count. replace TOTAL_PAGES with (a + (n + (TOTAL_PAGES - a - n))) by lia.
  rewrite !seqZ_app, !list.filter_app, !length_app by lia. rewrite Z.add_0_l.
  enough (length (filter (fun f => page_free (bitmap p) f = true) (seqZ a n)) = Z.to_nat n) by lia.
  assert (Hall : forall x, x ∈ seqZ a n -> page_free (bitmap p) x = true) by (intros x Hx; apply elem_of_seqZ in Hx; by apply Hf).
  rewrite <- (length_seqZ a n). clear Hf Hle. induction (seqZ a n) as [|x l IH]; [done|].
  rewrite filter_cons_True by (apply Hall; left). cbn. f_equal. apply IH. intros y Hy. apply Hall. by right.
Qed.
#[global] Opaque free_count.

(** ** The invariant *)

Definition own (p : pmm) (f : Z) : Prop := refcounts p f = 1.

(** The references [m] are all that the allocator counts; a frame that is
    referenced is not free (one that is not need not be memory at all). *)
Definition counts (p : pmm) (m : gmultiset Z) : Prop :=
  (forall f, f ∈ m -> pool f) /\
  forall f, pool f -> refcounts p f = Z.of_nat (multiplicity f m) /\
                      (page_free (bitmap p) f = true -> multiplicity f m = O).

(** Entry [p] of a table whose directory entry is [e]. *)
Definition pte_ok (e p : Z) : Prop :=
  pres p = true -> (user p = true -> user e = true) /\ (cow p = true -> user p = true /\ rw p = false).

Definition sole_ok (p : pmm) (r : Z -> Z -> Z) (d : Z) : Prop :=
  own p d /\
  forall i, 0 <= i < PD_KERNEL_ENTRIES -> priv (r d i) = true ->
    own p (fr (r d i)) /\
    forall j, 0 <= j < 1024 -> let q := r (fr (r d i)) j in
      pres q = true -> user q = true -> rw q = true -> own p (fr q).

Class KernelImageOk `{!KernelImage} : Prop :=
  kernel_image_ok : get_kernel_pd = frame get_kernel_pd * PAGE_SIZE /\ ~ pool (frame get_kernel_pd).

Section Inv.
Context {KI : KernelImage} {KO : KernelImageOk}.

Definition kd : Z := frame get_kernel_pd.

Definition dir_ok (r : Z -> Z -> Z) (d : Z) : Prop :=
  forall i, 0 <= i < PD_KERNEL_ENTRIES ->
    pres (r d i) = true /\ rw (r d i) = true /\
    if priv (r d i) then forall j, 0 <= j < 1024 -> pte_ok (r d i) (r (fr (r d i)) j)
    else fr (r d i) = fr (r kd i).

(** The kernel's directory: shared tables of supervisor entries. *)
Definition kern_ok (r : Z -> Z -> Z) : Prop :=
  forall i, 0 <= i < PD_KERNEL_ENTRIES ->
    pres (r kd i) = true /\ rw (r kd i) = true /\ priv (r kd i) = false /\ ~ pool (fr (r kd i)) /\
    forall j, 0 <= j < 1024 -> pres (r (fr (r kd i)) j) = true ->
      user (r (fr (r kd i)) j) = false /\ cow (r (fr (r kd i)) j) = false.

(** The directories [ds] are address spaces; the operation in progress holds
    the references [held]. *)
Definition vm_ok (s : vm) (ds : list Z) (held : gmultiset Z) : Prop :=
  pmm_inv (pm s) /\ NoDup ds /\ kern_ok (ram s) /\
  (forall d, d ∈ ds -> dir_ok (ram s) d /\ sole_ok (pm s) (ram s) d) /\
  exists others, counts (pm s) (refs (ram s) ds ⊎ held ⊎ others).

Lemma pool_range f : pool f -> in_range f /\ 0 < f /\ 0 <= f < 2 ^ 20.
Proof. unfold pool, heap_end_page. page_lia. Qed.

Lemma vm_weaken s ds a held : vm_ok s ds (a ⊎ held) -> vm_ok s ds held.
Proof.
  intros (Hi & Hn & Hk & Hd & o & Hc). do 4 (split; [done|]). exists (a ⊎ o).
  by replace (refs (ram s) ds ⊎ held ⊎ (a ⊎ o)) with (refs (ram s) ds ⊎ (a ⊎ held) ⊎ o) by multiset_solver.
Qed.

(** A frame with one reference is referenced from one place. *)
Lemma own_mult s ds held f : vm_ok s ds held -> own (pm s) f -> pool f ->
  (multiplicity f (refs (ram s) ds) + multiplicity f held <= 1)%nat.
Proof.
  intros (_ & _ & _ & _ & o & Hc) Ho Hp. destruct (proj2 Hc f Hp) as [H _]. unfold own in Ho.
  rewrite Ho, !multiplicity_disj_union in H. lia.
Qed.

Lemma refs_pool s ds held f : vm_ok s ds held -> f ∈ refs (ram s) ds -> pool f.
Proof. intros (_ & _ & _ & _ & o & Hc) Hf. apply (proj1 Hc). multiset_solver. Qed.
Lemma held_pool s ds held f : vm_ok s ds held -> f ∈ held -> pool f.
Proof. intros (_ & _ & _ & _ & o & Hc) Hf. apply (proj1 Hc). multiset_solver. Qed.

Lemma refs_in r ds x f : in_ds ds x -> f ∈ contrib r x -> f ∈ refs r ds.
Proof. intros Hx Hf. apply elem_of_msum. exists x. split; [by apply elem_sites|done]. Qed.

Lemma site_unique s ds held x y f :
  vm_ok s ds held -> own (pm s) f -> in_ds ds x -> in_ds ds y ->
  f ∈ contrib (ram s) x -> f ∈ contrib (ram s) y -> x = y.
Proof.
  intros Hok Ho Hx Hy Hfx Hfy. destruct (decide (x = y)) as [|Hne]; [done|]. exfalso.
  assert (Hp : pool f) by (eapply refs_pool; [done|by eapply refs_in]).
  pose proof (own_mult s ds held f Hok Ho Hp). destruct Hok as (_ & Hnd & _).
  pose proof (msum_two (sites ds) (contrib (ram s)) x y f (NoDup_sites ds Hnd)) as H2.
  rewrite !elem_sites in H2. specialize (H2 Hx Hy Hne Hfx Hfy). unfold refs in *. lia.
Qed.

Lemma held_fresh s ds held f :
  vm_ok s ds ({[+ f +]} ⊎ held) -> own (pm s) f -> f ∉ refs (ram s) ds /\ f ∉ held.
Proof.
  intros Hok Ho. assert (Hp : pool f) by (eapply held_pool; [done|apply ms_head]).
  pose proof (own_mult s ds _ f Hok Ho Hp) as H. rewrite multiplicity_disj_union, mult_one in H.
  split; intros Hf; rewrite elem_of_multiplicity in Hf; lia.
Qed.

Lemma dir_in r ds d : d ∈ ds -> d ∈ refs r ds.
Proof. intros Hd. apply (refs_in r ds (SDir d)); [done|]. apply ms_self. Qed.
Lemma tab_in r ds d i : d ∈ ds -> 0 <= i < PD_KERNEL_ENTRIES -> priv (r d i) = true -> fr (r d i) ∈ refs r ds.
Proof. intros Hd Hi Hp. apply (refs_in r ds (STab d i)); [done|]. cbn. rewrite Hp. apply ms_self. Qed.
Lemma leaf_up p : pres p = true -> user p = true -> leaf p = {[+ fr p +]}.
Proof. intros H1 H2. unfold leaf. by rewrite H1, H2. Qed.
Lemma leaf_in r ds d i j :
  d ∈ ds -> 0 <= i < PD_KERNEL_ENTRIES -> 0 <= j < 1024 -> priv (r d i) = true ->
  pres (r (fr (r d i)) j) = true -> user (r (fr (r d i)) j) = true -> fr (r (fr (r d i)) j) ∈ refs r ds.
Proof.
  intros Hd Hi Hj Hp H1 H2. apply (refs_in r ds (SLeaf d i j)); [done|]. cbn. rewrite Hp, leaf_up by done. apply ms_self.
Qed.

(** Frame [f] is a directory or a private table. *)
Definition is_table (r : Z -> Z -> Z) (ds : list Z) (f : Z) : Prop :=
  f ∈ ds \/ exists d i, d ∈ ds /\ 0 <= i < PD_KERNEL_ENTRIES /\ priv (r d i) = true /\ f = fr (r d i).

Lemma is_table_in r ds f : is_table r ds f -> f ∈ refs r ds.
Proof. intros [Hf|(d & i & Hd & Hi & Hp & ->)]; [by apply dir_in|by apply tab_in]. Qed.

(** Memory that is no table may change. *)
Lemma refs_agree r r' ds :
  (forall f, is_table r ds f -> forall j, r' f j = r f j) -> refs r' ds = refs r ds.
Proof.
  intros Ha. apply msum_ext. intros x Hx. apply elem_sites in Hx. destruct x as [d|d i|d i j]; cbn in Hx |- *; [done| |].
  - rewrite Ha; [done|left; tauto].
  - destruct Hx as (Hd & Hi & Hj). rewrite (Ha d) by by left. destruct (priv (r d i)) eqn:E; [|done].
    rewrite Ha; [done|right; by exists d, i].
Qed.

Lemma vm_ok_ram s r' ds held :
  vm_ok s ds held -> (forall f, is_table (ram s) ds f \/ ~ pool f -> forall j, r' f j = ram s f j) ->
  vm_ok (set_ram r' s) ds held.
Proof.
  intros (Hi & Hn & Hk & Hd & o & Hc) Ha. split; [done|]. split; [done|]. cbn [ram pm set_ram].
  assert (Hkd : forall j, r' kd j = ram s kd j) by (apply Ha; right; apply KO).
  split.
  { intros i Hir. destruct (Hk i Hir) as (H1 & H2 & H3 & H4 & H5). rewrite Hkd. do 4 (split; [done|]). intros j Hj.
    rewrite Ha by by right. by apply H5. }
  split.
  { intros d Hin. destruct (Hd d Hin) as [Hdo [Hs1 Hs2]].
    assert (Hrd : forall j, r' d j = ram s d j) by (apply Ha; left; by left).
    assert (Hrt : forall i, 0 <= i < PD_KERNEL_ENTRIES -> priv (ram s d i) = true ->
      forall j, r' (fr (ram s d i)) j = ram s (fr (ram s d i)) j) by (intros i H1 H2; apply Ha; left; right; by exists d, i).
    split.
    - intros i Hir. destruct (Hdo i Hir) as (H1 & H2 & H3). rewrite Hrd, Hkd. do 2 (split; [done|]).
      destruct (priv (ram s d i)) eqn:E; [|done]. intros j Hj. rewrite Hrt by done. by apply H3.
    - split; [done|]. intros i Hir. rewrite Hrd. intros E. destruct (Hs2 i Hir E) as [H1 H2]. split; [done|].
      intros j Hj. rewrite Hrt by done. by apply H2. }
  exists o. rewrite (refs_agree (ram s) r'); [done|]. intros f Hf. apply Ha. by left.
Qed.

(** A frame the operation holds alone may be written. *)
Lemma vm_ok_write_held s ds held f r' :
  vm_ok s ds ({[+ f +]} ⊎ held) -> own (pm s) f -> (forall g, g <> f -> forall j, r' g j = ram s g j) ->
  vm_ok (set_ram r' s) ds ({[+ f +]} ⊎ held).
Proof.
  intros Hok Ho Ha. destruct (held_fresh s ds held f Hok Ho) as [Hf _]. apply vm_ok_ram; [done|].
  assert (Hp : pool f) by (eapply held_pool; [done|apply ms_head]). intros g [Hg%is_table_in|Hg]; apply Ha; by intros ->.
Qed.

(** Counts move with the references. *)
Lemma counts_eq p m m' : counts p m -> m = m' -> counts p m'.
Proof. by intros ? <-. Qed.

(** No other entry and no directory lies in a private table. *)
Lemma tab_unique s ds held d i :
  vm_ok s ds held -> d ∈ ds -> 0 <= i < PD_KERNEL_ENTRIES -> priv (ram s d i) = true ->
  let t := fr (ram s d i) in
  pool t /\ kd <> t /\ (forall d', d' ∈ ds -> d' <> t) /\
  (forall d' i', d' ∈ ds -> 0 <= i' < PD_KERNEL_ENTRIES -> priv (ram s d' i') = true -> fr (ram s d' i') = t -> d' = d /\ i' = i) /\
  (forall d' i' j', in_ds ds (SLeaf d' i' j') -> t ∉ contrib (ram s) (SLeaf d' i' j')).
Proof.
  intros Hok Hd Hi Hp t. pose proof Hok as (_ & _ & _ & Hds & _). destruct (Hds d Hd) as [_ [_ Hso]].
  destruct (Hso i Hi Hp) as [Hot _]. fold t in Hot.
  assert (Htp : pool t) by (eapply refs_pool; [exact Hok|by apply tab_in]).
  assert (Huniq : forall x, in_ds ds x -> t ∈ contrib (ram s) x -> x = STab d i).
  { intros x Hx Hf. eapply (site_unique s ds _ x (STab d i) t); try done. cbn. rewrite Hp. apply ms_self. }
  split; [done|]. split; [intros E; apply (proj2 KO); change (pool kd); by rewrite E|]. split; [|split].
  - intros d' Hd' ->. specialize (Huniq (SDir t) Hd'). cbn in Huniq. discriminate Huniq. apply ms_self.
  - intros d' i' Hd' Hi' Hp' Heq. specialize (Huniq (STab d' i') (conj Hd' Hi')). cbn in Huniq. rewrite Hp', Heq in Huniq.
    by specialize (Huniq (ms_self _)) as [= -> ->].
  - intros d' i' j' Hx Hf. by specialize (Huniq _ Hx Hf).
Qed.

Lemma rupd_ne r f i v g : g <> f -> forall k, rupd r f i v g k = r g k.
Proof. intros Hg k. unfold rupd. by rewrite (proj2 (Z.eqb_neq g f) Hg). Qed.
Lemma rupd_at r f i v k : rupd r f i v f k = if k =? i then v else r f k.
Proof. unfold rupd. by rewrite Z.eqb_refl. Qed.

Lemma refs_write_pte s ds held d i j v :
  vm_ok s ds held -> d ∈ ds -> 0 <= i < PD_KERNEL_ENTRIES -> 0 <= j < 1024 -> priv (ram s d i) = true ->
  let t := fr (ram s d i) in
  refs (rupd (ram s) t j v) ds ⊎ leaf (ram s t j) = refs (ram s) ds ⊎ leaf v.
Proof.
  intros Hok Hd Hi Hj Hp t. destruct (tab_unique s ds held d i Hok Hd Hi Hp) as (_ & _ & Hdir & Htab & _). fold t in Hdir, Htab.
  set (r' := rupd (ram s) t j v). destruct Hok as (_ & Hn & _).
  pose proof (msum_upd (sites ds) (contrib (ram s)) (contrib r') (SLeaf d i j) (NoDup_sites ds Hn)) as Hm.
  assert (Hr : forall g k, g <> t -> r' g k = ram s g k) by (intros; by apply rupd_ne).
  cbn [contrib] in Hm. rewrite (Hr d) in Hm by by apply Hdir. rewrite Hp in Hm. fold t in Hm.
  replace (r' t j) with v in Hm by (unfold r'; by rewrite rupd_at, Z.eqb_refl). apply Hm; [by apply elem_sites|].
  intros y Hy Hne. apply elem_sites in Hy. destruct y as [d'|d' i'|d' i' j']; cbn in Hy |- *; [done| |].
  - by rewrite Hr by (apply Hdir; tauto).
  - destruct Hy as (Hd' & Hi' & Hj'). rewrite (Hr d') by by apply Hdir. destruct (priv (ram s d' i')) eqn:E; [|done]. f_equal.
    destruct (decide (fr (ram s d' i') = t)) as [Heq|]; [|by apply Hr]. destruct (Htab d' i') as [-> ->]; try done.
    fold t. unfold r'. rewrite rupd_at. destruct (Z.eqb_spec j' j) as [->|]; done.
Qed.

(** Writing entry [j] of a private table: the reference of the new entry is
    taken from the held ones, that of the old entry is held afterwards. *)
Lemma vm_ok_write_pte s ds H1 H2 d i j v :
  let e := ram s d i in let t := fr e in
  d ∈ ds -> 0 <= i < PD_KERNEL_ENTRIES -> 0 <= j < 1024 -> priv e = true ->
  vm_ok s ds H1 -> leaf v ⊎ H2 = leaf (ram s t j) ⊎ H1 -> pte_ok e v ->
  (pres v = true -> user v = true -> rw v = true -> own (pm s) (fr v)) ->
  vm_ok (set_ram (rupd (ram s) t j v) s) ds H2.
Proof.
  cbv zeta. intros Hd Hi Hj Hp Hok Hheld Hv Hown. pose proof (refs_write_pte s ds _ d i j v Hok Hd Hi Hj Hp) as Hupd. cbv zeta in Hupd.
  destruct (tab_unique s ds _ d i Hok Hd Hi Hp) as (Htp & Hkd & Hdir & Htab & _).
  destruct Hok as (Hinv & Hn & Hk & Hds & o & Hc).
  set (t := fr (ram s d i)) in *. set (r' := rupd (ram s) t j v) in *.
  assert (Hr : forall g k, g <> t -> r' g k = ram s g k) by (intros; by apply rupd_ne).
  split; [done|]. split; [done|]. cbn [ram pm set_ram]. split.
  { intros k Hir. destruct (Hk k Hir) as (A1 & A2 & A3 & A4 & A5). rewrite (Hr kd) by done. do 4 (split; [done|]).
    intros l Hl. rewrite Hr by (intros E; by rewrite E in A4). by apply A5. }
  split; [|exists o; eapply counts_eq; [exact Hc|clear -Hupd Hheld; mult_eq]].
  intros d' Hd'. destruct (Hds d' Hd') as [Hdo' [Hs1 Hs2]]. split.
  - intros i' Hi'. destruct (Hdo' i' Hi') as (A1 & A2 & A3). rewrite (Hr d'), (Hr kd) by auto. do 2 (split; [done|]).
    destruct (priv (ram s d' i')) eqn:E; [|done]. intros j' Hj'. destruct (decide (fr (ram s d' i') = t)) as [Heq|].
    + destruct (Htab d' i') as [-> ->]; try done. fold t. unfold r'. rewrite rupd_at.
      destruct (Z.eqb_spec j' j) as [->|]; [done|by apply A3].
    + rewrite Hr by done. by apply A3.
  - split; [done|]. intros i' Hi'. rewrite (Hr d') by auto. intros E. destruct (Hs2 i' Hi' E) as [A1 A2]. split; [done|].
    intros j' Hj'. destruct (decide (fr (ram s d' i') = t)) as [Heq|].
    + destruct (Htab d' i') as [-> ->]; try done. fold t. fold t in A2. unfold r'. rewrite rupd_at.
      destruct (Z.eqb_spec j' j) as [->|]; [done|by apply A2].
    + rewrite Hr by done. by apply A2.
Qed.

(** No table and no other directory lies in a directory. *)
Lemma dir_unique s ds held d :
  vm_ok s ds held -> d ∈ ds ->
  pool d /\ kd <> d /\
  (forall d' i', d' ∈ ds -> 0 <= i' < PD_KERNEL_ENTRIES -> priv (ram s d' i') = true -> fr (ram s d' i') <> d) /\
  d ∉ held.
Proof.
  intros Hok Hd. pose proof Hok as (_ & _ & _ & Hds & _). destruct (Hds d Hd) as [_ [Ho _]].
  assert (Hp : pool d) by (eapply refs_pool; [exact Hok|by apply dir_in]). split; [done|].
  split; [intros E; apply (proj2 KO); change (pool kd); by rewrite E|]. split.
  - intros d' i' Hd' Hi' Hp' Heq.
    enough (SDir d = STab d' i') by done. eapply (site_unique s ds held (SDir d) (STab d' i') d); try done.
    + apply ms_self.
    + cbn. rewrite Hp', Heq. apply ms_self.
  - intros Hh. pose proof (own_mult s ds held d Hok Ho Hp) as Hm. rewrite elem_of_multiplicity in Hh.
    pose proof (dir_in (ram s) ds d Hd) as Hx. rewrite elem_of_multiplicity in Hx. lia.
Qed.

Lemma refs_write_pde s ds held d i e' :
  vm_ok s ds held -> d ∈ ds -> 0 <= i < PD_KERNEL_ENTRIES ->
  let r' := rupd (ram s) d i e' in refs r' ds ⊎ ent (ram s) d i = refs (ram s) ds ⊎ ent r' d i.
Proof.
  intros Hok Hd Hi r'. destruct (dir_unique s ds held d Hok Hd) as (_ & _ & Htab & _). destruct Hok as (_ & Hn & _).
  assert (Hr : forall g k, g <> d -> r' g k = ram s g k) by (intros; by apply rupd_ne).
  assert (He : forall d' i', d' ∈ ds -> 0 <= i' < PD_KERNEL_ENTRIES -> d' <> d \/ i' <> i -> ent r' d' i' = ent (ram s) d' i').
  { intros d' i' Hd' Hi' Hne. unfold ent. replace (r' d' i') with (ram s d' i').
    - destruct (priv (ram s d' i')) eqn:E; [|done]. f_equal. apply msum_ext. intros j _. by rewrite Hr by by apply Htab.
    - destruct (decide (d' = d)) as [->|]; [|by rewrite Hr]. unfold r'. rewrite rupd_at.
      destruct (Z.eqb_spec i' i); [naive_solver|done]. }
  pose proof (msum_upd (seqZ 0 PD_KERNEL_ENTRIES) (ent (ram s) d) (ent r' d) i (NoDup_seqZ _ _)) as H1.
  pose proof (msum_upd ds (dir (ram s)) (dir r') d Hn Hd) as H2. rewrite <- !refs_sum in H2.
  assert (H1' : dir r' d ⊎ ent (ram s) d i = dir (ram s) d ⊎ ent r' d i).
  { unfold dir. rewrite elem_of_seqZ in H1. specialize (H1 ltac:(lia)). ospecialize (H1 _).
    { intros y Hy Hne. apply elem_of_seqZ in Hy. apply He; [done|lia|by right]. }
    clear -H1. mult_eq. }
  ospecialize (H2 _).
  { intros d' Hd' Hne. unfold dir. f_equal. apply msum_ext. intros i' Hi'. apply elem_of_seqZ in Hi'. apply He; [done|lia|by left]. }
  by eapply ms_chain.
Qed.

(** What a private entry [e] needs of the table it points to. *)
Definition table_ok (p : pmm) (r : Z -> Z -> Z) (e : Z) : Prop :=
  own p (fr e) /\
  forall j, 0 <= j < 1024 -> let q := r (fr e) j in
    pte_ok e q /\ (pres q = true -> user q = true -> rw q = true -> own p (fr q)).

Lemma vm_ok_pde s ds H1 H2 d i e' :
  vm_ok s ds H1 -> d ∈ ds -> 0 <= i < PD_KERNEL_ENTRIES -> pres e' = true -> rw e' = true ->
  (if priv e' then fr e' <> d /\ table_ok (pm s) (ram s) e' else fr e' = fr (ram s kd i)) ->
  ent (rupd (ram s) d i e') d i ⊎ H2 = ent (ram s) d i ⊎ H1 ->
  vm_ok (set_ram (rupd (ram s) d i e') s) ds H2.
Proof.
  intros Hok Hd Hi Hpe Hre Hcase Hent. pose proof (refs_write_pde s ds _ d i e' Hok Hd Hi) as Hupd. cbv zeta in Hupd.
  destruct (dir_unique s ds _ d Hok Hd) as (Hdp & Hkd & Htab & _). destruct Hok as (Hinv & Hn & Hk & Hds & o & Hc).
  set (r' := rupd (ram s) d i e') in *.
  assert (Hr : forall g k, g <> d -> r' g k = ram s g k) by (intros; by apply rupd_ne).
  split; [done|]. split; [done|]. cbn [ram pm set_ram]. split.
  { intros k Hir. destruct (Hk k Hir) as (A1 & A2 & A3 & A4 & A5). rewrite (Hr kd) by done. do 4 (split; [done|]).
    intros l Hl. rewrite Hr by (intros E; by rewrite E in A4). by apply A5. }
  split; [|exists o; eapply counts_eq; [exact Hc|clear -Hupd Hent; mult_eq]].
  assert (Hword : forall d' i', (d' = d /\ i' = i /\ r' d' i' = e') \/ r' d' i' = ram s d' i').
  { intros d' i'. destruct (decide (d' = d)) as [->|]; [|right; by apply Hr]. unfold r'. rewrite rupd_at.
    destruct (Z.eqb_spec i' i); [by left|by right]. }
  intros d' Hd'. destruct (Hds d' Hd') as [Hdo' [Hs1 Hs2]]. split.
  - intros i' Hi'. rewrite (Hr kd) by done. destruct (Hword d' i') as [(-> & -> & ->)| ->].
    + do 2 (split; [done|]). destruct (priv e'); [|done]. destruct Hcase as [Hne [_ Ht]]. intros j Hj. rewrite Hr by done. by apply Ht.
    + destruct (Hdo' i' Hi') as (A1 & A2 & A3). do 2 (split; [done|]). destruct (priv (ram s d' i')) eqn:E; [|done].
      intros j Hj. rewrite Hr by by apply Htab. by apply A3.
  - split; [done|]. intros i' Hi'. destruct (Hword d' i') as [(-> & -> & ->)| ->].
    + intros E. rewrite E in Hcase. destruct Hcase as [Hne [Ho Ht]]. split; [done|]. intros j Hj. rewrite Hr by done. by apply Ht.
    + intros E. destruct (Hs2 i' Hi' E) as [A1 A2]. split; [done|]. intros j Hj. rewrite Hr by by apply Htab. by apply A2.
Qed.

(** Permission bits of a directory entry may be added. *)
Lemma vm_ok_pde_flags s ds held d i e' :
  vm_ok s ds held -> d ∈ ds -> 0 <= i < PD_KERNEL_ENTRIES -> let e := ram s d i in
  fr e' = fr e -> priv e' = priv e -> pres e' = true -> rw e' = true -> (user e = true -> user e' = true) ->
  vm_ok (set_ram (rupd (ram s) d i e') s) ds held.
Proof.
  cbv zeta. intros Hok Hd Hi Hf Hp H1 H2 Hu. destruct (dir_unique s ds held d Hok Hd) as (_ & _ & Htab & _).
  pose proof Hok as (_ & _ & _ & Hds & _). destruct (Hds d Hd) as [Hdo [_ Hs]].
  eapply vm_ok_pde; try done.
  - rewrite Hp. destruct (Hdo i Hi) as (_ & _ & A3). destruct (priv (ram s d i)) eqn:E; [|by rewrite Hf].
    split; [rewrite Hf; by apply Htab|]. unfold table_ok. rewrite Hf. destruct (Hs i Hi E) as [A1 A2]. split; [done|].
    intros j Hj. split; [|by apply A2]. intros Hq. destruct (A3 j Hj Hq) as [B1 B2]. auto.
  - unfold ent. rewrite rupd_at, Z.eqb_refl, Hp, Hf. destruct (priv (ram s d i)) eqn:E; [|done]. f_equal. f_equal.
    apply msum_ext. intros j _. by rewrite rupd_ne by by apply Htab.
Qed.

(** A held table becomes the table of an entry that was the kernel's. *)
Lemma vm_ok_link s ds held d i e' :
  let t := fr e' in
  vm_ok s ds ({[+ t +]} ⊎ (tbl (ram s) t ⊎ held)) -> d ∈ ds -> 0 <= i < PD_KERNEL_ENTRIES ->
  priv (ram s d i) = false -> priv e' = true -> pres e' = true -> rw e' = true -> table_ok (pm s) (ram s) e' ->
  vm_ok (set_ram (rupd (ram s) d i e') s) ds held.
Proof.
  intros t Hok Hd Hi Hp Hp' H1 H2 Ht. destruct (dir_unique s ds _ d Hok Hd) as (_ & _ & _ & Hnh).
  assert (Hne : t <> d) by (intros Hx; apply Hnh; rewrite <- Hx; apply ms_head).
  eapply vm_ok_pde; [exact Hok|done..| |].
  - rewrite Hp'. by split.
  - unfold ent. rewrite rupd_at, Z.eqb_refl, Hp, Hp'. fold t.
    replace (tbl (rupd (ram s) d i e') t) with (tbl (ram s) t).
    + clear. mult_eq.
    + apply msum_ext. intros j _. by rewrite rupd_ne.
Qed.

(** A change of the allocator alone. *)
Lemma vm_ok_pm s p' ds held held' :
  vm_ok s ds held -> pmm_inv p' -> (forall d, d ∈ ds -> sole_ok (pm s) (ram s) d -> sole_ok p' (ram s) d) ->
  (forall o, counts (pm s) (refs (ram s) ds ⊎ held ⊎ o) -> counts p' (refs (ram s) ds ⊎ held' ⊎ o)) ->
  vm_ok (set_pm p' s) ds held'.
Proof.
  intros (Hinv & Hn & Hk & Hds & o & Hc) Hi Hkeep Hcnt. split; [done|]. split; [done|]. split; [done|]. cbn [pm ram set_pm].
  split; [|exists o; auto]. intros d Hd. destruct (Hds d Hd) as [Hdo Hso]. auto.
Qed.

Lemma sole_keep r p p' ds d :
  d ∈ ds -> (forall g, g ∈ refs r ds -> own p g -> own p' g) -> sole_ok p r d -> sole_ok p' r d.
Proof.
  intros Hd Hkeep [Hs1 Hs2]. split; [apply Hkeep; [by apply dir_in|done]|]. intros i Hir Hp. destruct (Hs2 i Hir Hp) as [A1 A2].
  split; [apply Hkeep; [by apply tab_in|done]|]. intros j Hj q Q1 Q2 Q3. apply Hkeep; [by apply leaf_in|by apply A2].
Qed.

(** ** Allocation *)

Section Alloc.
Context `{!Reclaim vm}.

Lemma kalloc_ok s ds held n :
  vm_ok s ds held -> avail (S n) s ->
  wp kalloc_vm (fun a s' => exists f, a = f * PAGE_SIZE /\ (a =? 0) = false /\ pool f /\ own (pm s') f /\
    s' = set_pm (pm s') s /\ avail n s' /\ vm_ok s' ds ({[+ f +]} ⊎ held) /\ refcounts (pm s) f = 0 /\
    forall g, g <> f -> refcounts (pm s') g = refcounts (pm s) g) s.
Proof.
  intros (Hinv & Hn & Hk & Hds & o & Hc) Ha. unfold kalloc_vm, kalloc, wp, MAX_RECLAIM_ROUNDS. cbn [kalloc_loop pm_of with_pm vm_has_pmm].
  destruct (take_page_ok (pm s) Hinv) as (p' & r & -> & Hp' & Hr). ob.
  destruct (free_count_pos (pm s)) as (j & Hj & Hjf); [unfold avail in Ha; lia|].
  destruct r as [f|]; [|destruct Hr as [_ Hno]; by rewrite Hno in Hjf]. pose proof (free_count_taken f _ _ Hr) as Hfc.
  destruct Hr as (Hf & Hff & _ & Hbm & Hrc & _). destruct (proj2 Hinv f Hf Hff) as [_ Hhe].
  assert (Hpool : pool f) by (unfold pool, in_range in *; lia). destruct (pool_range f Hpool) as (_ & Hpos & _).
  assert (Ha' : page_to_addr f = f * PAGE_SIZE) by page_lia. rewrite Ha'. exists f. split; [done|].
  split; [page_lia|]. split; [done|]. cbn [pm set_pm]. assert (Hown : own p' f) by (unfold own; rewrite Hrc; unfold fupd; by rewrite Z.eqb_refl).
  split; [done|]. split; [done|]. split; [unfold avail in *; cbn [pm set_pm]; lia|].
  assert (Hoth : forall g, g <> f -> refcounts p' g = refcounts (pm s) g).
  { intros g Hg. rewrite Hrc. unfold fupd. by rewrite (proj2 (Z.eqb_neq g f) Hg). }
  split; [|split; [|done]].
  2: { destruct (proj2 Hc f Hpool) as [B1 B2]. specialize (B2 Hff). lia. }
  apply (vm_ok_pm s p' ds held); [|done| |].
  - split; [done|]. split; [done|]. split; [done|]. split; [done|]. by exists o.
  - intros d Hd. apply (sole_keep _ _ _ ds); [done|]. intros g _ Hg. destruct (decide (g = f)) as [->|Hne]; [done|].
    unfold own. by rewrite Hoth.
  - clear o Hc. intros o Hc. split.
    + intros g Hg. destruct (decide (g = f)) as [->|Hne]; [done|]. apply (proj1 Hc). rewrite elem_of_multiplicity in *.
      rewrite !multiplicity_disj_union, mult_ne in Hg by done. rewrite !multiplicity_disj_union. lia.
    + intros g Hg. rewrite Hbm. destruct (proj2 Hc g Hg) as [B1 B2]. rewrite !multiplicity_disj_union in *.
      destruct (Z.eqb_spec g f) as [->|Hne].
      * specialize (B2 Hff). rewrite mult_one, Hown. split; [lia|done].
      * by rewrite mult_ne, Hoth by done.
Qed.
End Alloc.

(** Releasing a held reference. *)
Lemma free_ok s ds held f :
  vm_ok s ds ({[+ f +]} ⊎ held) ->
  wp (free_pg (f * PAGE_SIZE)) (fun _ s' => s' = set_pm (pm s') s /\ vm_ok s' ds held /\
    (forall n, avail n s -> avail n s') /\ forall g, g <> f -> refcounts (pm s') g = refcounts (pm s) g) s.
Proof.
  intros Hok. pose proof Hok as (Hinv & _). assert (Hp : pool f) by (eapply held_pool; [done|apply ms_head]).
  destruct (pool_range f Hp) as (Hr & _ & _). unfold wp, free_pg.
  destruct (free_page_ok (pm s) f Hinv Hr (proj1 Hp)) as (p' & -> & Hinv' & Hrc & Hbm). ob. cbn [pm set_pm].
  assert (Hoth : forall g, g <> f -> refcounts p' g = refcounts (pm s) g).
  { intros g Hg. rewrite Hrc. unfold fupd. by rewrite (proj2 (Z.eqb_neq g f) Hg). }
  split; [done|]. split; [|split; [|done]].
  - apply (vm_ok_pm s p' ds ({[+ f +]} ⊎ held)); [done|done| |].
    + intros d Hd. apply (sole_keep _ _ _ ds); [done|]. intros g Hg Ho.
      destruct (decide (g = f)) as [->|Hne]; [|by unfold own; rewrite Hoth].
      pose proof (own_mult s ds _ f Hok Ho Hp) as Hm. rewrite multiplicity_disj_union, mult_one in Hm.
      rewrite elem_of_multiplicity in Hg. lia.
    + intros o Hc. split.
      * intros g Hg. apply (proj1 Hc). rewrite elem_of_multiplicity in *. rewrite !multiplicity_disj_union in *. lia.
      * intros g Hg. rewrite Hbm. destruct (proj2 Hc g Hg) as [B1 B2]. rewrite !multiplicity_disj_union in *.
        destruct (Z.eqb_spec g f) as [->|Hne]; cbn [andb]; [|by rewrite mult_ne, Hoth in * by done].
        rewrite mult_one in *. rewrite Hrc. unfold fupd. rewrite Z.eqb_refl.
        destruct (Z.ltb_spec 1 (refcounts (pm s) f)); cbn [negb].
        -- split; [lia|]. intros Hx. specialize (B2 Hx). lia.
        -- split; [lia|]. lia.
  - intros n Ha. unfold avail in *. cbn [pm set_pm]. etrans; [exact Ha|]. apply free_count_mono. intros j Hj. rewrite Hbm. by case_if.
Qed.

(** Sharing the frame of an entry that is not writable. *)
Lemma ref_inc_ok s ds held d i j :
  let p := ram s (fr (ram s d i)) j in let f := fr p in
  vm_ok s ds held -> in_ds ds (SLeaf d i j) -> priv (ram s d i) = true ->
  pres p = true -> user p = true -> rw p = false -> refcounts (pm s) f < 2 ^ 16 - 1 ->
  wp (ref_inc (f * PAGE_SIZE)) (fun _ s' => s' = set_pm (pm s') s /\ vm_ok s' ds ({[+ f +]} ⊎ held) /\
    (forall n, avail n s -> avail n s') /\ refcounts (pm s') f = refcounts (pm s) f + 1 /\
    forall g, g <> f -> refcounts (pm s') g = refcounts (pm s) g) s.
Proof.
  intros p f Hok Hin Hp H1 H2 H3 Hlt. pose proof Hin as (Hd & Hi & Hj).
  assert (Hf : f ∈ refs (ram s) ds) by by apply leaf_in.
  assert (Hpool : pool f) by by eapply refs_pool. destruct (pool_range f Hpool) as (Hr & _ & _).
  unfold wp, ref_inc, modify. rewrite page_ref_inc_ok by (try done; apply Hpool). cbn [pm set_pm].
  rewrite Z.min_l by lia. split; [done|]. split; [|split; [|split]].
  2: { intros n Ha. unfold avail in *. by erewrite free_count_bitmap. }
  2: { cbn [refcounts]. unfold fupd. by rewrite Z.eqb_refl. }
  2: { intros g Hg. cbn [refcounts]. unfold fupd. by rewrite (proj2 (Z.eqb_neq g f) Hg). }
  pose proof Hok as (Hinv & _). apply (vm_ok_pm s _ ds held); [done|done| |].
  - assert (Hx : forall x, in_ds ds x -> f ∈ contrib (ram s) x -> own (pm s) f -> x = SLeaf d i j).
    { intros x Hx Hfx Ho. eapply (site_unique s ds held x (SLeaf d i j) f); try done. cbn. rewrite Hp. fold p.
      rewrite leaf_up by done. apply ms_self. }
    intros d' Hd' [Hs1 Hs2]. unfold sole_ok, own. cbn [refcounts]. unfold fupd. split.
    { case_if; b2p; [|done]. subst d'. discriminate (Hx (SDir f) Hd' (ms_self _) Hs1). }
    intros i' Hi' Hp'. destruct (Hs2 i' Hi' Hp') as [A1 A2]. split.
    { case_if; b2p; [|done]. enough (STab d' i' = SLeaf d i j) by done. apply Hx; [done| |by rewrite <- Hif].
      cbn. rewrite Hp', Hif. apply ms_self. }
    intros j' Hj'. set (q := ram s (fr (ram s d' i')) j') in *. intros Q1 Q2 Q3. specialize (A2 j' Hj' Q1 Q2 Q3). fold q in A2. case_if; b2p; [|done]. exfalso.
    assert (SLeaf d' i' j' = SLeaf d i j) as Heq; [|injection Heq as -> -> ->; fold p in q; subst q; congruence].
    apply Hx; [done| |by rewrite <- Hif]. cbn. rewrite Hp'. fold q. rewrite leaf_up, Hif by done. apply ms_self.
  - intros o Hc. split.
    + intros g Hg. rewrite elem_of_multiplicity in *. rewrite !multiplicity_disj_union in *.
      destruct (decide (g = f)) as [->|Hne]; [done|]. apply (proj1 Hc). rewrite elem_of_multiplicity, !multiplicity_disj_union.
      rewrite mult_ne in Hg by done. lia.
    + intros g Hg. destruct (proj2 Hc g Hg) as [B1 B2]. cbn [refcounts bitmap]. unfold fupd.
      rewrite !multiplicity_disj_union in *. destruct (Z.eqb_spec g f) as [->|Hne]; [|by rewrite mult_ne].
      rewrite mult_one. split; [lia|]. intros Hx. specialize (B2 Hx). rewrite elem_of_multiplicity in Hf. lia.
Qed.

(** ** Directories come and go *)

Lemma vm_ok_add_dir s ds held d :
  vm_ok s ds ({[+ d +]} ⊎ held) -> own (pm s) d ->
  (forall i, 0 <= i < PD_KERNEL_ENTRIES -> ram s d i = ram s kd i) -> vm_ok s (d :: ds) held.
Proof.
  intros Hok Ho Hcp. destruct (held_fresh s ds held d Hok Ho) as [Hnr _]. destruct Hok as (Hinv & Hn & Hk & Hds & o & Hc).
  assert (Hpriv : forall i, 0 <= i < PD_KERNEL_ENTRIES -> priv (ram s d i) = false).
  { intros i Hi. rewrite Hcp by done. by apply Hk. }
  split; [done|]. split; [apply list.NoDup_cons; split; [|done]; intros Hin; by apply Hnr, dir_in|]. split; [done|]. split.
  - intros d' Hd'. apply elem_of_cons in Hd' as [->|Hd']; [|by apply Hds]. split.
    + intros i Hi. rewrite Hpriv, Hcp by done. destruct (Hk i Hi) as (A1 & A2 & _). done.
    + split; [done|]. intros i Hi Hp. by rewrite Hpriv in Hp.
  - exists o. eapply counts_eq; [exact Hc|]. rewrite !refs_sum. cbn [msum].
    assert (dir (ram s) d = {[+ d +]}) as ->; [|clear; mult_eq]. unfold dir. rewrite msum_empty; [clear; mult_eq|].
    intros i Hi. apply elem_of_seqZ in Hi. unfold ent. by rewrite Hpriv by lia.
Qed.

(** Giving up a directory leaves all its references held. *)
Lemma vm_ok_drop_dir s ds ds' held d :
  vm_ok s ds' held -> ds' ≡ₚ d :: ds -> vm_ok s ds (dir (ram s) d ⊎ held).
Proof.
  intros (Hinv & Hn & Hk & Hds & o & Hc) Hperm. split; [done|].
  rewrite Hperm in Hn. apply list.NoDup_cons in Hn as [Hd Hn]. split; [done|]. split; [done|]. split.
  - intros d' Hd'. apply Hds. rewrite Hperm. by right.
  - exists o. eapply counts_eq; [exact Hc|]. rewrite !refs_sum.
    assert (msum ds' (dir (ram s)) = dir (ram s) d ⊎ msum ds (dir (ram s))) as ->; [|clear; mult_eq].
    change (dir (ram s) d ⊎ msum ds (dir (ram s))) with (msum (d :: ds) (dir (ram s))). by apply msum_perm.
Qed.
End Inv.
