(* ===== verification/VmmOps.v ===== *)
(** * Address space operations

    What each operation of [Vmm.v] does to the invariant of [VmmSpec.v] and to
    what the processes see: [upte] is the entry a process uses at a page of its
    address space, and [sv] says that entries and contents stay the same. *)
From stdpp Require Import gmultiset.
From S2P Require Import Prelude StateM Pmm Vmm VmmSpec.

#[local] Open Scope Z_scope.

(** The entry through which a process reaches page [j] of directory entry [i]. *)
Definition upte (s : vm) (d i j : Z) : option Z :=
  let e := ram s d i in
  if priv e then let p := ram s (fr e) j in if pres p && user p then Some p else None else None.

(** The pages [P] of the address spaces [ds] are the same in both states. *)
Definition sv (s s' : vm) (ds : list Z) (P : Z -> Z -> Z -> Prop) : Prop :=
  forall d i j, in_ds ds (SLeaf d i j) -> P d i j ->
    upte s' d i j = upte s d i j /\ forall p, upte s d i j = Some p -> forall w, ram s' (fr p) w = ram s (fr p) w.

Definition every (d i j : Z) : Prop := True.
Definition but (d i j : Z) (d' i' j' : Z) : Prop := (d', i', j') <> (d, i, j).

(** Counts of frames in use stay. *)
Definition rc_keep (s s' : vm) : Prop := forall g, refcounts (pm s) g <> 0 -> refcounts (pm s') g = refcounts (pm s) g.

Lemma sv_trans s1 s2 s3 ds P : sv s1 s2 ds P -> sv s2 s3 ds P -> sv s1 s3 ds P.
Proof.
  intros H1 H2 d i j Hin HP. destruct (H1 d i j Hin HP) as [A1 A2], (H2 d i j Hin HP) as [B1 B2]. split; [congruence|].
  intros p Hp w. rewrite B2 by congruence. by apply A2.
Qed.
Lemma sv_weaken s s' ds (P Q : Z -> Z -> Z -> Prop) : sv s s' ds P -> (forall d i j, Q d i j -> P d i j) -> sv s s' ds Q.
Proof. intros H HQ d i j Hin HP. apply H; auto. Qed.
Lemma sv_refl s ds P : sv s s ds P.
Proof. by intros d i j _ _. Qed.
Lemma sv_pm s p ds P : sv s (set_pm p s) ds P.
Proof. by intros d i j _ _. Qed.
Lemma sv_sub s s' ds ds' P : sv s s' ds P -> (forall d, d ∈ ds' -> d ∈ ds) -> sv s s' ds' P.
Proof. intros H Hd d i j (H1 & H2 & H3) HP. apply H; [|done]. split; [auto|done]. Qed.

Lemma upte_inv s d i j p :
  upte s d i j = Some p -> priv (ram s d i) = true /\ p = ram s (fr (ram s d i)) j /\ pres p = true /\ user p = true.
Proof.
  unfold upte. destruct (priv (ram s d i)) eqn:E; [|done]. destruct (pres _ && user _) eqn:E2; [|done].
  intros [= <-]. apply andb_prop in E2. tauto.
Qed.
Lemma upte_mk s d i j p :
  priv (ram s d i) = true -> ram s (fr (ram s d i)) j = p -> pres p = true -> user p = true -> upte s d i j = Some p.
Proof. intros H1 H2 H3 H4. unfold upte. by rewrite H1, H2, H3, H4. Qed.
Lemma upte_none s d i j : priv (ram s d i) = false -> upte s d i j = None.
Proof. intros H. unfold upte. by rewrite H. Qed.
Lemma upte_in s ds d i j p : in_ds ds (SLeaf d i j) -> upte s d i j = Some p -> fr p ∈ refs (ram s) ds.
Proof. intros (Hd & Hi & Hj) Hu. apply upte_inv in Hu as (H1 & -> & H2 & H3). by apply leaf_in. Qed.

Section Views.
Context {KI : KernelImage} {KO : KernelImageOk}.

(** Memory the spaces do not reach may change unseen. *)
Lemma sv_ram s r' ds :
  (forall f, f ∈ refs (ram s) ds -> forall j, r' f j = ram s f j) -> sv s (set_ram r' s) ds every.
Proof.
  intros Ha d i j Hin _. pose proof Hin as (Hd & Hi & Hj). split.
  - unfold upte. cbn [ram set_ram]. rewrite (Ha d) by by apply dir_in. destruct (priv (ram s d i)) eqn:E; [|done].
    by rewrite Ha by by apply tab_in.
  - intros p Hp w. cbn [ram set_ram]. apply Ha. by eapply upte_in.
Qed.

Lemma sv_held s ds held f r' :
  vm_ok s ds ({[+ f +]} ⊎ held) -> own (pm s) f -> (forall g, g <> f -> forall j, r' g j = ram s g j) ->
  sv s (set_ram r' s) ds every.
Proof.
  intros Hok Ho Ha. destruct (held_fresh s ds held f Hok Ho) as [Hf _]. apply sv_ram. intros g Hg. apply Ha. by intros ->.
Qed.

(** Table and directory frames are no page of a process. *)
Lemma leaf_not_tab s ds held d i d' i' j' p :
  vm_ok s ds held -> d ∈ ds -> 0 <= i < PD_KERNEL_ENTRIES -> priv (ram s d i) = true ->
  in_ds ds (SLeaf d' i' j') -> upte s d' i' j' = Some p -> fr p <> fr (ram s d i).
Proof.
  intros Hok Hd Hi Hp Hin Hu Heq. destruct (tab_unique s ds held d i Hok Hd Hi Hp) as (_ & _ & _ & _ & Hl).
  apply (Hl d' i' j' Hin). apply upte_inv in Hu as (H1 & -> & H2 & H3). cbn. rewrite H1, leaf_up by done.
  rewrite Heq. apply ms_self.
Qed.
Lemma leaf_not_dir s ds held d d' i' j' p :
  vm_ok s ds held -> d ∈ ds -> in_ds ds (SLeaf d' i' j') -> upte s d' i' j' = Some p -> fr p <> d.
Proof.
  intros Hok Hd Hin Hu Heq. pose proof Hok as (_ & _ & _ & Hds & _). destruct (Hds d Hd) as [_ [Ho _]].
  enough (SDir d = SLeaf d' i' j') by done. eapply (site_unique s ds held _ _ d); try done; [apply ms_self|].
  apply upte_inv in Hu as (H1 & -> & H2 & H3). cbn. rewrite H1, leaf_up, Heq by done. apply ms_self.
Qed.

Lemma sv_pte s ds held d i j v :
  vm_ok s ds held -> in_ds ds (SLeaf d i j) -> priv (ram s d i) = true ->
  let s' := set_ram (rupd (ram s) (fr (ram s d i)) j v) s in
  sv s s' ds (but d i j) /\ upte s' d i j = if pres v && user v then Some v else None.
Proof.
  intros Hok (Hd & Hi & Hj) Hp s'. destruct (tab_unique s ds held d i Hok Hd Hi Hp) as (_ & _ & Hdir & Htab & _).
  set (t := fr (ram s d i)) in *. subst s'. split.
  - intros d' i' j' Hin Hne. pose proof Hin as (Hd' & Hi' & Hj'). split.
    + unfold upte. cbn [ram set_ram]. rewrite rupd_ne by by apply Hdir. destruct (priv (ram s d' i')) eqn:E; [|done].
      replace (rupd (ram s) t j v (fr (ram s d' i')) j') with (ram s (fr (ram s d' i')) j'); [done|].
      destruct (decide (fr (ram s d' i') = t)) as [Heq|]; [|by rewrite rupd_ne]. destruct (Htab d' i') as [-> ->]; try done.
      fold t. rewrite rupd_at. destruct (Z.eqb_spec j' j) as [->|]; [|done]. by destruct Hne.
    + intros p Hu w. cbn [ram set_ram]. apply rupd_ne. by eapply leaf_not_tab.
  - unfold upte. cbn [ram set_ram]. rewrite (rupd_ne _ t j v d) by by apply Hdir. rewrite Hp. fold t. by rewrite rupd_at, Z.eqb_refl.
Qed.

(** A directory entry whose table and privacy stay. *)
Lemma sv_pde_flags s ds held d i e' :
  vm_ok s ds held -> d ∈ ds -> 0 <= i < PD_KERNEL_ENTRIES -> fr e' = fr (ram s d i) -> priv e' = priv (ram s d i) ->
  sv s (set_ram (rupd (ram s) d i e') s) ds every.
Proof.
  intros Hok Hd Hi Hf Hp. destruct (dir_unique s ds held d Hok Hd) as (_ & _ & Htab & _).
  intros d' i' j' Hin _. pose proof Hin as (Hd' & Hi' & Hj'). split.
  - unfold upte. cbn [ram set_ram]. destruct (decide (d' = d /\ i' = i)) as [[-> ->]|Hne].
    + rewrite rupd_at, Z.eqb_refl, Hp, Hf. destruct (priv (ram s d i)) eqn:E; [|done]. by rewrite rupd_ne by by apply Htab.
    + replace (rupd (ram s) d i e' d' i') with (ram s d' i').
      * destruct (priv (ram s d' i')) eqn:E; [|done]. by rewrite rupd_ne by by apply Htab.
      * destruct (decide (d' = d)) as [->|]; [|by rewrite rupd_ne]. rewrite rupd_at. destruct (Z.eqb_spec i' i); [naive_solver|done].
  - intros p Hu w. cbn [ram set_ram]. apply rupd_ne. by eapply leaf_not_dir.
Qed.

(** A table put under an entry that was the kernel's. *)
Lemma sv_link s ds held d i e' :
  vm_ok s ds held -> d ∈ ds -> 0 <= i < PD_KERNEL_ENTRIES -> fr e' <> d -> priv e' = true ->
  let s' := set_ram (rupd (ram s) d i e') s in
  sv s s' ds (fun d' i' _ => (d', i') <> (d, i)) /\
  forall j, upte s' d i j = let p := ram s (fr e') j in if pres p && user p then Some p else None.
Proof.
  intros Hok Hd Hi Hf Hp s'. destruct (dir_unique s ds held d Hok Hd) as (_ & _ & Htab & _). subst s'. split.
  - intros d' i' j' Hin Hne. pose proof Hin as (Hd' & Hi' & Hj'). split.
    + unfold upte. cbn [ram set_ram]. replace (rupd (ram s) d i e' d' i') with (ram s d' i').
      * destruct (priv (ram s d' i')) eqn:E; [|done]. by rewrite rupd_ne by by apply Htab.
      * destruct (decide (d' = d)) as [->|]; [|by rewrite rupd_ne]. rewrite rupd_at. destruct (Z.eqb_spec i' i); [congruence|done].
    + intros p Hu w. cbn [ram set_ram]. apply rupd_ne. by eapply leaf_not_dir.
  - intros j. unfold upte. cbn [ram set_ram]. rewrite rupd_at, Z.eqb_refl, Hp. by rewrite rupd_ne.
Qed.
End Views.

(** ** Steps *)

Lemma wp_rd t i Q s : Q (ram s t i) s -> wp (rd (t * PAGE_SIZE) i) Q s.
Proof. unfold rd. intros H. apply wp_gets. by rewrite frame_page. Qed.
Lemma wp_wr t i v Q s : Q tt (set_ram (rupd (ram s) t i v) s) -> wp (wr (t * PAGE_SIZE) i v) Q s.
Proof. unfold wr. intros H. apply wp_modify. by rewrite frame_page. Qed.
Lemma wp_copy a b Q s :
  Q tt (set_ram (rpage (ram s) b (ram s a)) s) -> wp (copy_page (a * PAGE_SIZE) (b * PAGE_SIZE)) Q s.
Proof. unfold copy_page. intros H. apply wp_modify. by rewrite !frame_page. Qed.
Lemma wp_zero b Q s :
  0 < b -> Q tt (set_ram (rpage (ram s) b (fun _ => 0)) s) -> wp (zero_page (b * PAGE_SIZE)) Q s.
Proof.
  unfold zero_page. intros Hb H. rewrite (proj2 (Z.eqb_neq _ 0)) by (unfold PAGE_SIZE; lia). apply wp_modify. by rewrite frame_page.
Qed.
Lemma rpage_ne r f p g : g <> f -> forall k, rpage r f p g k = r g k.
Proof. intros Hg k. unfold rpage. by rewrite (proj2 (Z.eqb_neq g f) Hg). Qed.
Lemma rpage_at r f p : rpage r f p f = p.
Proof. unfold rpage. by rewrite Z.eqb_refl. Qed.
Lemma set_ram_ram r1 r2 s : set_ram r2 (set_ram r1 s) = set_ram r2 s.
Proof. done. Qed.

(** [free_pg] does not look at memory. *)
Lemma wp_free a Q s : wp (free_pg a) Q s <-> exists p, free_page a (pm s) = Some p /\ Q tt (set_pm p s).
Proof. unfold wp, free_pg. destruct (free_page a (pm s)) as [p|]; ob; [naive_solver|]. split; [done|]. by intros (? & ? & _). Qed.

Ltac wps := repeat first
  [ rewrite !addr_fr | wp_step | apply wp_rd | apply wp_wr | apply wp_copy | apply wp_skip ]; cbv beta; cbn [ram pm set_ram set_pm].

Section Ops.
Context {KI : KernelImage} {KO : KernelImageOk} `{!Reclaim vm}.

Lemma pool_nz d : pool d -> (d * PAGE_SIZE =? 0) = false.
Proof. intros H. destruct (pool_range d H) as (_ & ? & _). unfold PAGE_SIZE. lia. Qed.

Lemma rc_keep_own s s' f : rc_keep s s' -> own (pm s) f -> own (pm s') f.
Proof. intros Hr Ho. unfold own in *. rewrite Hr; lia. Qed.
Lemma rc_keep_trans s1 s2 s3 : rc_keep s1 s2 -> rc_keep s2 s3 -> rc_keep s1 s3.
Proof. intros H1 H2 g Hg. rewrite H2; [by apply H1|]. by rewrite H1. Qed.

(** The new entry of [replace_pte]. *)
Definition new_pte (pa flags : Z) : Z := Z.lor (Z.lor (Z.land pa ADDR_MASK) flags) PAGE_PRESENT.

Lemma replace_pte_ok s ds held d i j pa flags :
  let e := ram s d i in let t := fr e in let v := new_pte pa flags in
  in_ds ds (SLeaf d i j) -> priv e = true -> vm_ok s ds (leaf v ⊎ held) -> pte_ok e v ->
  (pres v = true -> user v = true -> rw v = true -> own (pm s) (fr v)) ->
  wp (replace_pte (t * PAGE_SIZE) j pa flags) (fun _ s' =>
    vm_ok s' ds held /\ ram s' = rupd (ram s) t j v /\ (forall n, avail n s -> avail n s') /\
    sv s s' ds (but d i j) /\ upte s' d i j = (if user v then Some v else None) /\
    (forall g, g <> fr (ram s t j) -> refcounts (pm s') g = refcounts (pm s) g)) s.
Proof.
  cbv zeta. intros Hin Hp Hok Hv Hown. pose proof Hin as (Hd & Hi & Hj). unfold replace_pte.
  set (t := fr (ram s d i)) in *. set (v := new_pte pa flags) in *.
  assert (Hpv : pres v = true) by (subst v; unfold new_pte; bits; apply orb_true_r).
  assert (Hok1 : vm_ok (set_ram (rupd (ram s) t j v) s) ds (leaf (ram s t j) ⊎ held)).
  { eapply vm_ok_write_pte; try done. fold t. clear. mult_eq. }
  destruct (sv_pte s ds _ d i j v Hok Hin Hp) as [Hsv Hup]. fold t in Hsv, Hup. rewrite Hpv in Hup. cbn [andb] in Hup.
  apply wp_bind, wp_rd. fold (new_pte pa flags). fold v.
  destruct (has _ PAGE_PRESENT && has _ PAGE_COW && negb _) eqn:Hc.
  - apply andb_prop in Hc as [Hc _]. apply andb_prop in Hc as [H1 H2]. rewrite has_pres in H1. rewrite has_cow in H2.
    assert (Hold : leaf (ram s t j) = {[+ fr (ram s t j) +]}).
    { apply leaf_up; [done|]. destruct Hok as (_ & _ & _ & Hds & _). destruct (Hds d Hd) as [Hdo _].
      destruct (Hdo i Hi) as (_ & _ & H3). rewrite Hp in H3. fold t in H3. by destruct (H3 j Hj H1) as [_ H4]; apply H4. }
    rewrite Hold in Hok1. rewrite addr_fr. pose proof (free_ok _ _ _ _ Hok1) as Hfr. apply wp_free in Hfr as (p' & Hp' & Hq).
    destruct Hq as (_ & Hok2 & Hav & Hrc). apply wp_bind, wp_free. exists p'. split; [done|]. apply wp_wr.
    split; [exact Hok2|]. split; [done|]. split; [exact Hav|]. split; [exact Hsv|]. split; [exact Hup|exact Hrc].
  - apply wp_bind, wp_skip, wp_wr. split; [by eapply vm_weaken|]. by split_and!.
Qed.

(** A private copy of a kernel table contributes nothing. *)
Lemma kernel_copy r i t :
  kern_ok r -> 0 <= i < PD_KERNEL_ENTRIES -> (forall j, 0 <= j < 1024 -> r t j = r (fr (r kd i)) j) ->
  tbl r t = ∅ /\ forall j, 0 <= j < 1024 -> pres (r t j) = true -> user (r t j) = false /\ cow (r t j) = false.
Proof.
  intros Hk Hi Hcp. destruct (Hk i Hi) as (_ & _ & _ & _ & H5).
  assert (Hj : forall j, 0 <= j < 1024 -> pres (r t j) = true -> user (r t j) = false /\ cow (r t j) = false).
  { intros j Hj. rewrite Hcp by done. by apply H5. }
  split; [|done]. apply msum_empty. intros j Hjj. apply elem_of_seqZ in Hjj. unfold leaf.
  destruct (pres (r t j)) eqn:E; [|done]. destruct (Hj j) as [-> _]; [lia|done|done].
Qed.

Lemma own_nz s f : own (pm s) f -> refcounts (pm s) f <> 0.
Proof. unfold own. lia. Qed.

(** The table of entry [i] is private afterwards. *)
Definition table_ready (s s' : vm) (ds : list Z) (d i : Z) : Prop :=
  priv (ram s' d i) = true /\ sv s s' ds every /\ rc_keep s s' /\
  (forall g, g <> d -> refcounts (pm s) g <> 0 -> forall w, ram s' g w = ram s g w).

(** A held frame filled with the kernel's table of entry [i] and linked. *)
Lemma link_copy s ds held d i t e' :
  vm_ok s ds ({[+ t +]} ⊎ held) -> own (pm s) t -> d ∈ ds -> 0 <= i < PD_KERNEL_ENTRIES -> priv (ram s d i) = false ->
  fr e' = t -> priv e' = true -> pres e' = true -> rw e' = true ->
  let s' := set_ram (rupd (rpage (ram s) t (ram s (fr (ram s d i)))) d i e') s in
  vm_ok s' ds held /\ sv s s' ds every /\ ram s' d i = e' /\
  (forall g, g <> d -> g <> t -> forall w, ram s' g w = ram s g w) /\
  (forall j, 0 <= j < 1024 -> ram s' t j = ram s (fr (ram s kd i)) j).
Proof.
  intros Hok Ho Hd Hi Hnp Hf Hp Hpe Hre s'. destruct (held_fresh s ds held t Hok Ho) as [Hnr _].
  set (r1 := rpage (ram s) t (ram s (fr (ram s d i)))) in *. set (s1 := set_ram r1 s).
  assert (Ha : forall g, g <> t -> forall w, r1 g w = ram s g w) by (intros; by apply rpage_ne).
  assert (Hok1 : vm_ok s1 ds ({[+ t +]} ⊎ held)) by by apply vm_ok_write_held.
  assert (Hsv1 : sv s s1 ds every) by by eapply sv_held.
  assert (Htd : t <> d) by (intros Hx; apply Hnr; rewrite Hx; by apply dir_in).
  pose proof Hok1 as (_ & _ & Hk & Hds & _). destruct (Hds d Hd) as [Hdo _]. change (ram s1) with r1 in Hk, Hdo.
  destruct (Hdo i Hi) as (_ & _ & Hfk). rewrite Ha in Hfk by done. rewrite Hnp in Hfk.
  assert (Hcp : forall j, 0 <= j < 1024 -> r1 t j = r1 (fr (r1 kd i)) j).
  { intros j _. subst r1. rewrite rpage_at, <- Hfk. symmetry. apply rpage_ne.
    rewrite Hfk. destruct (Hk i Hi) as (_ & _ & _ & H4 & _). intros Hx. apply H4. rewrite Hx. eapply held_pool; [done|apply ms_head]. }
  destruct (kernel_copy r1 i t Hk Hi Hcp) as [Htb Hq].
  assert (Hok2 : vm_ok s' ds held).
  { apply (vm_ok_link s1 ds held d i e'); change (ram s1) with r1; change (pm s1) with (pm s); try done.
    - rewrite Hf, Htb. rewrite (left_id_L ∅ (⊎)). done.
    - by rewrite Ha by done.
    - split; [by rewrite Hf|]. intros j Hj. rewrite Hf. cbv zeta. split.
      + intros Hpq. destruct (Hq j Hj Hpq) as [-> ->]. done.
      + intros Hpq Hu. destruct (Hq j Hj Hpq) as [Hu' _]. congruence. }
  destruct (sv_link s1 ds _ d i e' Hok1 Hd Hi) as [Hsv2 Hup2]; [by rewrite Hf|done|].
  split; [done|]. split.
  { apply (sv_trans s s1); [done|]. intros d' i' j' Hin _. destruct (decide ((d', i') = (d, i))) as [[= -> ->]|Hne]; [|by apply Hsv2].
    rewrite (upte_none s1) by (change (ram s1) with r1; by rewrite Ha by done). split; [|done]. change (upte s' d i j' = None). rewrite Hup2.
    change (ram s1) with r1. rewrite Hf. cbv zeta. destruct (pres (r1 t j')) eqn:E; [|done].
    destruct (Hq j') as [-> _]; [apply Hin|done|done]. }
  split; [subst s'; cbn [ram set_ram]; by rewrite rupd_at, Z.eqb_refl|]. split.
  - intros g Hg1 Hg2 w. subst s'. cbn [ram set_ram]. rewrite rupd_ne by done. by apply Ha.
  - intros j Hj. subst s'. cbn [ram set_ram]. rewrite rupd_ne by done. rewrite Hcp by done.
    destruct (Hk i Hi) as (_ & _ & _ & H4 & _). assert (Htp : pool t) by (eapply held_pool; [exact Hok|apply ms_head]).
    assert (kd <> t) by (intros Hx; apply (proj2 KO); change (pool kd); by rewrite Hx). rewrite (Ha kd) in * by done.
    apply Ha. intros Hx. by rewrite Hx in H4.
Qed.

(** A frame just taken becomes the private table of entry [i]. *)
Lemma link_ready s s1 ds held d i t e' :
  s1 = set_pm (pm s1) s -> vm_ok s1 ds ({[+ t +]} ⊎ held) -> own (pm s1) t -> refcounts (pm s) t = 0 ->
  (forall g, g <> t -> refcounts (pm s1) g = refcounts (pm s) g) -> d ∈ ds -> 0 <= i < PD_KERNEL_ENTRIES -> priv (ram s d i) = false ->
  fr e' = t -> priv e' = true -> pres e' = true -> rw e' = true ->
  let s' := set_ram (rupd (rpage (ram s1) t (ram s (fr (ram s d i)))) d i e') s1 in
  vm_ok s' ds held /\ table_ready s s' ds d i /\ ram s' d i = e' /\ forall j, 0 <= j < 1024 -> ram s' t j = ram s (fr (ram s d i)) j.
Proof.
  intros Hs1 Hok1 Hot Hrc0 Hrc Hd Hi Hp V1 V2 V3 V4. assert (Hram : ram s1 = ram s) by (rewrite Hs1; done).
  destruct (link_copy s1 ds held d i t e' Hok1 Hot Hd Hi) as (A1 & A2 & A3 & A4 & A5); [by rewrite Hram|done..|].
  rewrite Hram in *. split; [exact A1|]. split; [split; [by rewrite A3|split; [|split]]|split; [exact A3|]].
  - apply (sv_trans s s1); [rewrite Hs1; apply sv_pm|exact A2].
  - intros g Hg. apply Hrc. congruence.
  - intros g Hg Hrg w. apply A4; [done|congruence].
  - intros j Hj. rewrite A5 by done. pose proof Hok1 as (_ & _ & _ & Hds & _). destruct (Hds d Hd) as [Hdo _]. destruct (Hdo i Hi) as (_ & _ & Hfk).
    rewrite Hram, Hp in Hfk. by rewrite Hfk.
Qed.

Lemma table_ready_refl s ds d i : priv (ram s d i) = true -> table_ready s s ds d i.
Proof. intros H. split; [done|]. split; [apply sv_refl|]. by split. Qed.

Lemma map_table_ok s ds held d i j pa flags n :
  vm_ok s ds held -> d ∈ ds -> 0 <= i < PD_KERNEL_ENTRIES -> avail (S n) s ->
  wp (map_table (d * PAGE_SIZE) i j pa flags false) (fun ok s' => ok = true /\ vm_ok s' ds held /\ avail n s' /\
    table_ready s s' ds d i /\ (user flags = true -> user (ram s' d i) = true)) s.
Proof.
  intros Hok Hd Hi Hav. pose proof Hok as (_ & _ & _ & Hds & _). destruct (Hds d Hd) as [Hdo [Hod _]].
  destruct (Hdo i Hi) as (Hpe & Hre & _). unfold map_table. apply wp_bind, wp_rd. rewrite has_pres, Hpe, has_priv. cbn [negb].
  destruct (priv (ram s d i)) eqn:Hp; cbn [negb].
  - apply wp_bind, wp_wr, wp_ret. set (e' := Z.lor _ _).
    assert (Hf : fr e' = fr (ram s d i)) by (subst e'; frs). assert (Hp' : priv e' = priv (ram s d i)) by (subst e'; bits).
    split; [done|]. split; [apply vm_ok_pde_flags; try done; subst e'; bits; rewrite ?Hpe, ?Hre; try done; by intros ->|].
    split; [unfold avail in *; cbn [pm set_ram]; lia|]. split.
    + split; [cbn [ram set_ram]; rewrite rupd_at, Z.eqb_refl; congruence|]. split; [by eapply sv_pde_flags|]. split; [done|].
      intros g Hg _. by apply rupd_ne.
    + cbn [ram set_ram]. rewrite rupd_at, Z.eqb_refl. subst e'. bits. intros ->. apply orb_true_r.
  - unfold cow_page_table. apply wp_bind, wp_bind. eapply wp_mono; [by apply kalloc_ok|]. cbv beta.
    intros a s1 (t & -> & Hnz & Hpool & Hot & Hs1 & Hav1 & Hok1 & Hrc0 & Hrc). rewrite Hnz.
    assert (Hram : ram s1 = ram s) by (rewrite Hs1; done). rewrite !addr_fr.
    apply wp_bind, wp_copy, wp_ret. rewrite Hnz. apply wp_bind, wp_rd. apply wp_bind, wp_wr, wp_ret. cbn [ram set_ram].
    destruct (held_fresh s1 ds held t Hok1 Hot) as [Hnr _].
    assert (Htd : d <> t) by (intros Hx; apply Hnr; rewrite <- Hx; by apply dir_in). rewrite rpage_ne by done. set (e' := Z.lor _ _).
    assert (Hfl : 0 <= t < 2 ^ 20) by apply (pool_range t Hpool).
    rewrite Hram in *. destruct (link_ready s s1 ds held d i t e' Hs1 Hok1 Hot Hrc0 Hrc Hd Hi Hp) as (A1 & A2 & A3 & _).
    1-4: subst e'; rewrite ?Hram, !addr_fr, !fr_page by done.
    { frs. }
    { bits. }
    { bits. }
    { bits. by rewrite Hre. }
    rewrite !Hram in *. split; [done|]. split; [exact A1|]. split; [exact Hav1|]. split; [exact A2|].
    cbn [ram set_ram]. rewrite rupd_at, Z.eqb_refl. subst e'. bits. intros ->. by rewrite orb_true_r.
Qed.

Lemma pd_index_range va : 0 <= va < PCI_HOLE_START -> 0 <= pd_index va < PD_KERNEL_ENTRIES.
Proof.
  intros H. unfold pd_index, PCI_HOLE_START in *. change 1023 with (Z.ones 10). rewrite Z.land_ones, Z.shiftr_div_pow2 by lia.
  change PD_KERNEL_ENTRIES with 768. word_lia.
Qed.
Lemma pt_index_range va : 0 <= pt_index va < 1024.
Proof. unfold pt_index. change 1023 with (Z.ones 10). rewrite Z.land_ones by lia. apply Z.mod_pos_bound. lia. Qed.

Lemma vmm_map_ok s ds held d va pa flags n :
  let i := pd_index va in let j := pt_index va in
  let mf := map_flags va pa flags in let v := new_pte pa mf in
  d ∈ ds -> 0 <= va < PCI_HOLE_START -> va mod PAGE_SIZE = 0 -> pa mod PAGE_SIZE = 0 -> cow mf = false ->
  vm_ok s ds (leaf v ⊎ held) -> avail (S n) s -> (user v = true -> rw v = true -> own (pm s) (fr v)) ->
  wp (vmm_map (d * PAGE_SIZE) va pa flags) (fun _ s' =>
    vm_ok s' ds held /\ avail n s' /\ sv s s' ds (but d i j) /\ upte s' d i j = (if user v then Some v else None) /\
    (user v = true -> forall w, ram s' (fr v) w = ram s (fr v) w)) s.
Proof.
  cbv zeta. intros Hd Hva Hal Hpal Hcow Hok Hav Hown. unfold vmm_map.
  destruct (dir_unique s ds _ d Hok Hd) as (Hdp & _ & _ & Hnh). rewrite pool_nz by done. rewrite Hal, Hpal. cbn [Z.eqb negb orb].
  replace (PCI_HOLE_START <=? va) with false by lia.
  set (i := pd_index va). set (j := pt_index va). set (mf := map_flags va pa flags) in *. set (v := new_pte pa mf) in *.
  assert (Hin : in_ds ds (SLeaf d i j)) by (split; [done|]; split; [by apply pd_index_range|apply pt_index_range]).
  pose proof Hin as (_ & Hi & Hj).
  eapply wp_use; [by apply map_table_ok|]. cbv beta. intros ok s1 (-> & Hok1 & Hav1 & (Hp1 & Hsv1 & Hrc1 & Hram1) & Hu1). cbn [negb].
  apply wp_bind, wp_rd. rewrite addr_fr, andb_false_r.
  assert (Hmv : user v = user mf) by (subst v; unfold new_pte; bits).
  assert (Hcv : cow v = false) by (subst v; unfold new_pte; bits; by rewrite Hcow).
  eapply wp_use; [apply (replace_pte_ok s1 ds held d i j); try done|].
  - intros _. fold v. rewrite Hmv, Hcv. split; [auto|done].
  - intros _ Hu Hr. eapply rc_keep_own; [done|]. by apply Hown.
  - cbv beta. intros _ s2 (Hok2 & Hram2 & Hav2 & Hsv2 & Hup2 & _). apply wp_skip. fold v in Hup2.
    split; [done|]. split; [by apply Hav2|]. split; [eapply sv_trans; [by eapply sv_weaken|done]|]. split; [done|].
    intros Hu w. rewrite Hu in Hup2. assert (Hfv : fr v ∈ leaf v ⊎ held).
    { rewrite leaf_up; [apply ms_head| |done]. subst v. unfold new_pte. bits. }
    assert (Hp2 : priv (ram s2 d i) = true) by by apply upte_inv in Hup2 as (? & _).
    rewrite Hram2, rupd_ne.
    + apply Hram1; [by intros Hx; apply Hnh; rewrite <- Hx|]. destruct Hok as (_ & _ & _ & _ & o & Hc).
      assert (Hpf : pool (fr v)) by (apply (proj1 Hc); rewrite elem_of_multiplicity in *; rewrite !multiplicity_disj_union in *; lia).
      destruct (proj2 Hc (fr v) Hpf) as [-> _]. rewrite elem_of_multiplicity in Hfv. rewrite !multiplicity_disj_union in *. lia.
    + pose proof (leaf_not_tab s2 ds held d i d i j v Hok2 Hd Hi Hp2 Hin Hup2) as Hne. intros Hx. apply Hne. rewrite Hx, Hram2.
      rewrite rupd_ne; [done|]. destruct (tab_unique s1 ds _ d i Hok1 Hd Hi Hp1) as (_ & _ & Hdir & _). by apply Hdir.
Qed.

(** A new address space shows the kernel's half and nothing else. *)
Lemma space_create_ok s ds held n :
  vm_ok s ds held -> avail (S n) s ->
  wp vmm_create_address_space (fun a s' => exists d, a = d * PAGE_SIZE /\ (a =? 0) = false /\ d ∉ ds /\
    vm_ok s' (d :: ds) held /\ avail n s' /\ sv s s' ds every /\ (forall g, g <> d -> refcounts (pm s') g = refcounts (pm s) g) /\
    (forall i, 0 <= i < PD_KERNEL_ENTRIES -> ram s' d i = ram s' kd i) /\
    (forall g, g <> d -> forall w, ram s' g w = ram s g w)) s.
Proof.
  intros Hok Hav. unfold vmm_create_address_space. eapply wp_use; [by apply kalloc_ok|]. cbv beta.
  intros a s1 (d & -> & Hnz & Hpool & Hod & Hs1 & Hav1 & Hok1 & Hrc0 & Hrc). rewrite Hnz.
  destruct (held_fresh s1 ds held d Hok1 Hod) as [Hnr _]. assert (Hkd : kd <> d) by (intros Hx; apply (proj2 KO); change (pool kd); by rewrite Hx).
  rewrite (proj1 KO). change (frame get_kernel_pd) with kd. apply wp_bind.
  apply (wp_for_range (fun k s2 => exists r, s2 = set_ram r s1 /\ (forall g, g <> d -> forall w, r g w = ram s1 g w) /\
    forall i, 0 <= i < k -> r d i = ram s1 kd i)); [done| | |].
  { exists (ram s1). split; [by destruct s1|]. split; [done|]. lia. }
  { intros k s2 Hk (r & -> & Hr & Hcp). apply wp_bind, wp_rd, wp_wr. cbn [ram set_ram]. rewrite set_ram_ram. eexists. split; [done|]. split.
    - intros g Hg w. rewrite rupd_ne by done. by apply Hr.
    - intros i Hi. rewrite rupd_at. destruct (Z.eqb_spec i k) as [->|]; [by apply Hr|]. apply Hcp. lia. }
  intros s2 (r & -> & Hr & Hcp). apply wp_ret. exists d. split; [done|]. split; [done|].
  split; [intros Hx; by apply Hnr, dir_in|]. assert (Hram : ram s1 = ram s) by by rewrite Hs1.
  assert (Hcp' : forall i, 0 <= i < PD_KERNEL_ENTRIES -> r d i = r kd i).
  { intros i Hi. rewrite Hcp by (change PD_KERNEL_ENTRIES with 768 in Hi; unfold PD_TOTAL; lia). by rewrite Hr. }
  split; [by apply vm_ok_add_dir; [apply vm_ok_write_held| |]|]. split; [exact Hav1|].
  split; [apply (sv_trans s s1); [rewrite Hs1; apply sv_pm|by eapply sv_held]|].
  split; [done|]. split; [done|]. intros g Hg w. cbn [ram set_ram]. rewrite Hr by done. by rewrite Hram.
Qed.

(** A held frame filled with [c] and entered for the process. *)
Lemma fill_pte_ok s ds held d i j f v (c : Z -> Z) :
  let e := ram s d i in let t := fr e in
  let s' := set_ram (rupd (rpage (ram s) f c) t j v) s in
  in_ds ds (SLeaf d i j) -> priv e = true -> user e = true -> vm_ok s ds ({[+ f +]} ⊎ held) -> own (pm s) f ->
  fr v = f -> pres v = true -> user v = true -> cow v = false ->
  t <> f /\ vm_ok s' ds (leaf (ram s t j) ⊎ held) /\ sv s s' ds (but d i j) /\ upte s' d i j = Some v /\ forall w, ram s' f w = c w.
Proof.
  cbv zeta. intros Hin Hp Hue Hok Ho V1 V2 V3 V5. pose proof Hin as (Hd & Hi & Hj). set (t := fr (ram s d i)).
  destruct (held_fresh s ds held f Hok Ho) as [Hnr _]. set (r2 := rpage (ram s) f c). set (s2 := set_ram r2 s).
  assert (Ha : forall g, g <> f -> forall w, r2 g w = ram s g w) by (intros; by apply rpage_ne).
  assert (Hok2 : vm_ok s2 ds ({[+ f +]} ⊎ held)) by by apply vm_ok_write_held.
  assert (Hsv2 : sv s s2 ds every) by by eapply sv_held.
  assert (Hdf : d <> f) by (intros Hx; apply Hnr; rewrite <- Hx; by apply dir_in).
  assert (Htf : t <> f) by (intros Hx; apply Hnr; rewrite <- Hx; by apply tab_in).
  assert (He2 : ram s2 d i = ram s d i) by (cbn [ram set_ram s2]; by rewrite Ha by done).
  assert (Hp2 : ram s2 t j = ram s t j) by (cbn [ram set_ram s2]; by rewrite Ha by done).
  destruct (sv_pte s2 ds _ d i j v Hok2 Hin) as [Hsv3 Hup3]; [by rewrite He2|]. rewrite He2 in Hsv3, Hup3. fold t in Hsv3, Hup3.
  rewrite V2, V3 in Hup3. split; [done|]. split.
  { change (set_ram (rupd r2 t j v) s) with (set_ram (rupd (ram s2) t j v) s2).
    eapply eq_ind_r with (P := fun e => vm_ok (set_ram (rupd (ram s2) (fr e) j v) s2) ds _); [|symmetry; exact He2].
    eapply (vm_ok_write_pte s2 ds ({[+ f +]} ⊎ held)); try done.
    - by rewrite He2.
    - rewrite He2. fold t. rewrite Hp2, (leaf_up v), V1 by done. clear. mult_eq.
    - rewrite He2. intros _. split; [done|]. congruence.
    - intros _ _ _. by rewrite V1. }
  split; [eapply sv_trans; [by eapply sv_weaken|exact Hsv3]|]. split; [exact Hup3|].
  intros w. cbn [ram set_ram]. rewrite rupd_ne by done. unfold r2. by rewrite rpage_at.
Qed.

(** A write fault on a copy-on-write page. *)
Lemma handle_cow_ok s ds held d va n p :
  let i := pd_index va in let j := pt_index va in
  vm_ok s ds held -> in_ds ds (SLeaf d i j) -> avail (S n) s -> upte s d i j = Some p -> cow p = true ->
  wp (vmm_handle_cow (d * PAGE_SIZE) va) (fun r s' => r = 0 /\ vm_ok s' ds held /\ avail n s' /\ sv s s' ds (but d i j) /\
    exists v, upte s' d i j = Some v /\ rw v = true /\ cow v = false /\ forall w, ram s' (fr v) w = ram s (fr p) w) s.
Proof.
  cbv zeta. set (i := pd_index va). set (j := pt_index va). intros Hok Hin Hav Hu Hcow. pose proof Hin as (Hd & Hi & Hj).
  pose proof Hok as (_ & _ & _ & Hds & _). destruct (Hds d Hd) as [Hdo [Hod Hso]]. destruct (Hdo i Hi) as (Hpe & _ & Hpt).
  pose proof (upte_inv _ _ _ _ _ Hu) as (Hp & Hpv & Hpp & Hpu). rewrite Hp in Hpt. specialize (Hpt j Hj). rewrite <- Hpv in Hpt.
  destruct (Hpt Hpp) as [Hpue _]. specialize (Hpue Hpu). set (t := fr (ram s d i)) in *.
  assert (Hfp : pool (fr p)) by (eapply refs_pool; [done|by eapply upte_in]). destruct (pool_range _ Hfp) as (Hfr & _ & Hf20).
  unfold vmm_handle_cow, pte_get. rewrite pool_nz by (by eapply dir_unique). apply wp_bind, wp_bind, wp_rd. fold i j.
  rewrite has_pres, Hpe. cbn [negb]. apply wp_ret. rewrite addr_fr. fold t. apply wp_bind, wp_rd. rewrite <- Hpv, has_cow, Hcow. cbn [negb].
  set (fl := Z.lor _ PAGE_PRESENT). apply wp_bind, wp_gets. rewrite addr_fr. unfold page_ref_get_locked.
  rewrite page_ref_get_ok by (try done; apply Hfp).
  assert (Hv : forall f, 0 <= f < 2 ^ 20 -> let v := Z.lor (f * PAGE_SIZE) fl in
    fr v = f /\ pres v = true /\ user v = true /\ rw v = true /\ cow v = false).
  { intros f Hf. cbv zeta. subst fl. split; [frs|]. split; [bits|]. split; [bits|]. split; bits. }
  destruct (Z.eqb_spec (refcounts (pm s) (fr p)) 1) as [Hone|Hmany].
  - apply wp_bind, wp_wr, wp_ret. destruct (Hv (fr p) Hf20) as (V1 & V2 & V3 & V4 & V5). set (v := Z.lor _ fl) in *.
    destruct (sv_pte s ds held d i j v Hok Hin Hp) as [Hsv Hup]. fold t in Hsv, Hup. rewrite V2, V3 in Hup.
    split; [done|]. split.
    { eapply vm_ok_write_pte; try done.
      - rewrite leaf_up by done. fold t. rewrite <- Hpv, (leaf_up p) by done. by rewrite V1.
      - intros _. split; [done|]. congruence.
      - intros _ _ _. by rewrite V1. }
    split; [unfold avail in *; cbn [pm set_ram]; lia|]. split; [done|]. exists v. split; [done|]. split; [done|]. split; [done|].
    intros w. cbn [ram set_ram]. rewrite V1. apply rupd_ne. by eapply leaf_not_tab.
  - eapply wp_use; [by apply kalloc_ok|]. cbv beta. intros a s1 (f & -> & Hnz & Hpool & Hof & Hs1 & Hav1 & Hok1 & Hrc0 & Hrc). rewrite Hnz.
    assert (Hram : ram s1 = ram s) by by rewrite Hs1. destruct (held_fresh s1 ds held f Hok1 Hof) as [Hnr _]. rewrite Hram in Hnr.
    destruct (pool_range _ Hpool) as (_ & _ & Hff). apply wp_bind, wp_copy. rewrite addr_fr, fr_page by done. apply wp_bind, wp_wr.
    destruct (Hv f Hff) as (V1 & V2 & V3 & V4 & V5). set (v := Z.lor _ fl) in *. rewrite Hram. cbn [ram set_ram].
    pose proof (fill_pte_ok s1 ds held d i j f v (ram s (fr p)) Hin) as Hfill. cbv zeta in Hfill. rewrite Hram in Hfill. fold t in Hfill.
    destruct Hfill as (Htf & Hok3 & Hsv3 & Hup3 & Hc3); try done.
    rewrite <- Hpv, leaf_up in Hok3 by done. apply wp_bind. eapply wp_mono; [by apply free_ok|]. cbv beta. intros _ s4 (Hs4 & Hok4 & Hav4 & _). apply wp_ret.
    split; [done|]. split; [done|]. split; [by apply Hav4|].
    split; [eapply (sv_trans s s1); [rewrite Hs1; apply sv_pm|]; rewrite Hs4; exact Hsv3|].
    exists v. split; [rewrite Hs4; exact Hup3|]. split; [done|]. split; [done|]. intros w. rewrite Hs4, V1. apply Hc3.
Qed.

Lemma msum_seq_cons k n (g : Z -> gmultiset Z) : 0 < n -> msum (seqZ k n) g = g k ⊎ msum (seqZ (k + 1) (n - 1)) g.
Proof. intros Hn. rewrite seqZ_cons by lia. done. Qed.

(** Releasing the frames of one table. *)
Lemma free_table_ok s ds held t :
  vm_ok s ds (tbl (ram s) t ⊎ held) ->
  wp (for_each (seqZ 0 1024) (free_user_pte (t * PAGE_SIZE))) (fun _ s' =>
    vm_ok s' ds held /\ ram s' = ram s /\ forall n, avail n s -> avail n s') s.
Proof.
  intros Hok. apply (wp_for_range (fun k s1 => vm_ok s1 ds (msum (seqZ k (1024 - k)) (fun j => leaf (ram s t j)) ⊎ held) /\
    ram s1 = ram s /\ forall n, avail n s -> avail n s1)); [done|done| |].
  - intros k s1 Hk (Hok1 & Hram & Hav). unfold free_user_pte. apply wp_bind, wp_rd. rewrite has_pres, has_user, Hram, addr_fr.
    rewrite msum_seq_cons in Hok1 by lia. unfold leaf at 1 in Hok1. replace (1024 - k - 1) with (1024 - (k + 1)) in Hok1 by lia.
    destruct (pres (ram s t k) && user (ram s t k)).
    + rewrite <- (assoc_L (⊎)) in Hok1. eapply wp_mono; [by apply free_ok|]. cbv beta. intros _ s2 (Hs2 & Hok2 & Hav2 & _).
      split; [done|]. split; [by rewrite Hs2|]. auto.
    + apply wp_skip. rewrite (left_id_L ∅ (⊎)) in Hok1. done.
  - intros s1 (Hok1 & Hram & Hav). change (seqZ (0 + 1024) (1024 - (0 + 1024))) with (@nil Z) in Hok1. cbn [msum] in Hok1.
    rewrite (left_id_L ∅ (⊎)) in Hok1. done.
Qed.

(** Releasing an address space returns every reference it had and touches no
    other space. *)
Lemma free_space_ok s ds ds' held d :
  vm_ok s ds' held -> ds' ≡ₚ d :: ds ->
  wp (vmm_free_address_space (d * PAGE_SIZE)) (fun _ s' => vm_ok s' ds held /\ ram s' = ram s /\ forall n, avail n s -> avail n s') s.
Proof.
  intros Hok Hperm. assert (Hd : d ∈ ds') by (rewrite Hperm; by left).
  pose proof Hok as (_ & _ & _ & Hds & _). destruct (Hds d Hd) as [Hdo _]. unfold vmm_free_address_space.
  rewrite pool_nz by (by eapply dir_unique). apply (vm_ok_drop_dir s ds ds' held d) in Hok; [|done]. apply wp_bind.
  apply (wp_for_range (fun k s1 => vm_ok s1 ds ({[+ d +]} ⊎ (msum (seqZ k (PD_KERNEL_ENTRIES - k)) (ent (ram s) d) ⊎ held)) /\
    ram s1 = ram s /\ forall n, avail n s -> avail n s1)); [done| | |].
  - rewrite Z.sub_0_r. unfold dir in Hok. rewrite <- (assoc_L (⊎)) in Hok. done.
  - intros k s1 Hk (Hok1 & Hram & Hav). apply wp_bind, wp_rd. rewrite Hram, has_priv, has_pres, addr_fr.
    rewrite msum_seq_cons in Hok1 by lia. replace (PD_KERNEL_ENTRIES - k - 1) with (PD_KERNEL_ENTRIES - (k + 1)) in Hok1 by lia.
    set (rest := msum (seqZ (k + 1) (PD_KERNEL_ENTRIES - (k + 1))) (ent (ram s) d)) in *.
    destruct (Hdo k) as (Hpe & _); [lia|]. unfold ent in Hok1. rewrite Hpe.
    destruct (priv (ram s d k)) eqn:E; cbn [negb]; [|apply wp_skip; rewrite (left_id_L ∅ (⊎)) in Hok1; done].
    apply wp_bind. eapply wp_mono; [apply free_table_ok|].
    { rewrite Hram. replace (tbl (ram s) (fr (ram s d k)) ⊎ _) with ({[+ d +]} ⊎ ({[+ fr (ram s d k) +]} ⊎ tbl (ram s) (fr (ram s d k)) ⊎ rest ⊎ held));
        [exact Hok1|]. instantiate (1 := {[+ fr (ram s d k) +]} ⊎ ({[+ d +]} ⊎ (rest ⊎ held))). clear. mult_eq. }
    cbv beta. intros _ s2 (Hok2 & Hram2 & Hav2). eapply wp_mono; [by apply free_ok|]. cbv beta. intros _ s3 (Hs3 & Hok3 & Hav3 & _).
    split; [done|]. split; [rewrite Hs3; cbn [ram set_pm]; congruence|]. auto.
  - intros s1 (Hok1 & Hram & Hav). change (0 + PD_KERNEL_ENTRIES) with PD_KERNEL_ENTRIES in Hok1. rewrite Z.sub_diag in Hok1. cbn [msum] in Hok1.
    change (seqZ PD_KERNEL_ENTRIES 0) with (@nil Z) in Hok1. cbn [msum] in Hok1. rewrite (left_id_L ∅ (⊎)) in Hok1.
    eapply wp_mono; [by apply free_ok|]. cbv beta. intros _ s2 (Hs2 & Hok2 & Hav2 & _). split; [done|]. split; [by rewrite Hs2|]. auto.
Qed.
End Ops.
