(* ===== verification/VmmFork.v ===== *)
(** * Fork

    [vmm_fork_address_space] gives the child the parent's pages: pages of the
    stack are copied, every other user page is shared, read-only and marked
    copy-on-write in both.  The mmap window is left to [mmap_table_clone]. *)
From stdpp Require Import gmultiset.
From S2P Require Import Prelude StateM Pmm Vmm VmmSpec VmmOps.

#[local] Open Scope Z_scope.

(** The directory entries of the user stack, and of the mmap window. *)
Definition stack_pde (i : Z) : bool := USER_STACK_LIMIT / 4194304 <=? i.
Definition mmap_pde (i : Z) : bool := (MMAP_BASE / 4194304 <=? i) && (i <? MMAP_LIMIT / 4194304).

Lemma fork_va i j :
  0 <= i < PD_KERNEL_ENTRIES -> 0 <= j < 1024 -> let va := Z.lor (Z.shiftl i 22) (Z.shiftl j 12) in
  (USER_STACK_LIMIT <=? va) && (va <? USER_STACK_TOP) = stack_pde i.
Proof.
  change PD_KERNEL_ENTRIES with 768. intros Hi Hj va.
  assert (Hva : va = i * 4194304 + j * 4096).
  { subst va. rewrite <- Z.add_nocarry_lor; [by rewrite !Z.shiftl_mul_pow2 by lia|].
    apply Z.bits_inj'. intros n Hn. rewrite Z.land_spec, Z.bits_0. destruct (Z.lt_ge_cases n 22).
    - by rewrite Z.shiftl_spec_low by lia.
    - rewrite (Z.shiftl_spec j) by lia. rewrite <- (Z.mod_small j (2 ^ 10)), Z.mod_pow2_bits_high by lia. apply andb_false_r. }
  unfold stack_pde, USER_STACK_LIMIT, USER_STACK_TOP. rewrite Hva. change (3204448256 / 4194304) with 764. lia.
Qed.

(** What becomes of a parent entry [p0]: [p1] in the parent, [q] in the child. *)
Definition forked (s s' : vm) (p0 p1 q : Z) : Prop :=
  if pres p0 && user p0 then
    pres p1 = true /\ user p1 = true /\ pres q = true /\ user q = true /\
    (rw p0 = true \/ cow p0 = true -> rw p1 = true \/ cow p1 = true) /\ (rw q = true \/ cow q = true) /\
    (cow q = true -> rw q = false) /\ (rw q = true -> own (pm s') (fr q)) /\
    forall w, ram s' (fr p1) w = ram s (fr p0) w /\ ram s' (fr q) w = ram s (fr p0) w
  else p1 = p0 /\ q = p0.

Lemma in_seq j n : 0 <= j < n -> j ∈ seqZ 0 n.
Proof. intros H. apply elem_of_seqZ. lia. Qed.

Section Fork.
Context {KI : KernelImage} {KO : KernelImageOk} `{!Reclaim vm}.

Lemma live_pos s ds held g : vm_ok s ds held -> g ∈ refs (ram s) ds \/ g ∈ held -> 0 < refcounts (pm s) g.
Proof.
  intros Hok Hg. assert (Hp : pool g) by (destruct Hg; [by eapply refs_pool|by eapply held_pool]).
  destruct Hok as (_ & _ & _ & _ & o & Hc). destruct (proj2 Hc g Hp) as [-> _]. rewrite !multiplicity_disj_union.
  destruct Hg as [Hg|Hg]; rewrite elem_of_multiplicity in Hg; lia.
Qed.

Lemma own_pos s f : own (pm s) f -> 0 < refcounts (pm s) f.
Proof. unfold own. lia. Qed.

(** The result of one step: the parent's entry [k] of table [t] becomes [p1],
    the child's entry of table [t'] becomes [q]. *)
Definition pte_forked (s s' : vm) (ds : list Z) (d i t t' k p1 q : Z) : Prop :=
  let p0 := ram s t k in
  (forall j, ram s' t j = if j =? k then p1 else ram s t j) /\
  (forall j, ram s' t' j = if j =? k then q else ram s t' j) /\
  (forall g, g <> t -> g <> t' -> 0 < refcounts (pm s) g -> forall w, ram s' g w = ram s g w) /\
  (forall g, 0 < refcounts (pm s) g ->
     refcounts (pm s) g <= refcounts (pm s') g <= refcounts (pm s) g + Z.of_nat (multiplicity g (leaf p0))) /\
  forked s s' p0 p1 q /\ sv s s' ds (but d i k).

(** Where the held table and the parent's table are. *)
Lemma fork_apart s ds X held d i t' :
  vm_ok s ds ({[+ t' +]} ⊎ (X ⊎ held)) -> own (pm s) t' -> d ∈ ds -> 0 <= i < PD_KERNEL_ENTRIES -> priv (ram s d i) = true ->
  t' ∉ refs (ram s) ds /\ fr (ram s d i) <> t' /\ d <> t' /\ d <> fr (ram s d i).
Proof.
  intros Hok Ho Hd Hi Hp. destruct (held_fresh s ds _ t' Hok Ho) as [Hnr _]. split; [done|].
  split; [intros Hx; apply Hnr; rewrite <- Hx; by apply tab_in|]. split; [intros Hx; apply Hnr; rewrite <- Hx; by apply dir_in|].
  destruct (tab_unique s ds _ d i Hok Hd Hi Hp) as (_ & _ & Hdir & _). by apply Hdir.
Qed.

(** An entry without a user page is copied as it is. *)
Lemma fork_plain_ok s ds X held d i t' k :
  let t := fr (ram s d i) in let p0 := ram s t k in
  vm_ok s ds ({[+ t' +]} ⊎ (X ⊎ held)) -> own (pm s) t' -> in_ds ds (SLeaf d i k) -> priv (ram s d i) = true ->
  pres p0 && user p0 = false ->
  let s' := set_ram (rupd (ram s) t' k p0) s in
  vm_ok s' ds ({[+ t' +]} ⊎ (X ⊎ (leaf p0 ⊎ held))) /\ pte_forked s s' ds d i t t' k p0 p0.
Proof.
  intros t p0 Hok Ho Hin Hp Hup s'. pose proof Hin as (Hd & Hi & Hk).
  destruct (fork_apart s ds X held d i t' Hok Ho Hd Hi Hp) as (Hnr & Htt & Hdt & _). fold t in Htt.
  assert (Hl : leaf p0 = ∅) by (unfold leaf; by rewrite Hup). rewrite Hl, (left_id_L ∅ (⊎)).
  assert (Ha : forall g, g <> t' -> forall w, rupd (ram s) t' k p0 g w = ram s g w) by (intros; by apply rupd_ne).
  split; [by apply vm_ok_write_held|]. unfold pte_forked. cbv zeta. fold p0. subst s'. cbn [ram set_ram pm]. split.
  { intros j. rewrite Ha by done. destruct (Z.eqb_spec j k) as [->|]; done. }
  split; [intros j; apply rupd_at|]. split; [auto|]. split; [intros g _; rewrite Hl, multiplicity_empty; lia|].
  split; [unfold forked; rewrite Hup; done|]. eapply sv_weaken; [by eapply sv_held|done].
Qed.

(** A page of the stack is copied at once. *)
Lemma fork_stack_ok s ds X held d i t' k n va :
  let t := fr (ram s d i) in let p0 := ram s t k in
  vm_ok s ds ({[+ t' +]} ⊎ (X ⊎ held)) -> own (pm s) t' -> in_ds ds (SLeaf d i k) -> priv (ram s d i) = true ->
  pres p0 = true -> user p0 = true -> avail (S n) s -> (USER_STACK_LIMIT <=? va) && (va <? USER_STACK_TOP) = true ->
  wp (fork_stack_page (t' * PAGE_SIZE) k p0 va) (fun ok s' => ok = true /\ exists q,
    vm_ok s' ds ({[+ t' +]} ⊎ (X ⊎ (leaf q ⊎ held))) /\ own (pm s') t' /\ avail n s' /\ pte_forked s s' ds d i t t' k p0 q) s.
Proof.
  intros t p0 Hok Ho Hin Hp Hpp Hpu Hav Hva. pose proof Hin as (Hd & Hi & Hk). unfold fork_stack_page. rewrite Hva.
  eapply wp_use; [by apply kalloc_ok|]. cbv beta. intros a s1 (f & -> & Hnz & Hpool & Hof & Hs1 & Hav1 & Hok1 & Hrc0 & Hrc). rewrite Hnz.
  assert (Hram : ram s1 = ram s) by by rewrite Hs1. destruct (pool_range f Hpool) as (_ & _ & Hf20).
  rewrite !addr_fr, fr_page by done. apply wp_bind, wp_copy, wp_bind, wp_wr, wp_ret. cbn [ram set_ram]. split; [done|].
  set (q := Z.lor _ (Z.lor _ PAGE_RW)).
  assert (fr q = f /\ pres q = true /\ user q = true /\ rw q = true /\ cow q = false) as (V1 & V2 & V3 & V4 & V5).
  { subst q. split; [frs|]. split; [bits|]. split; [bits|]. split; bits. }
  set (r2 := rpage (ram s1) f (ram s1 (fr p0))). set (s2 := set_ram r2 s1). exists q.
  destruct (fork_apart s ds X held d i t' Hok Ho Hd Hi Hp) as (Hnr & Htt & Hdt & _). fold t in Htt.
  assert (Hnf : forall g, 0 < refcounts (pm s) g -> g <> f) by (intros g Hg ->; lia).
  assert (Hft : t' <> f) by by apply Hnf, own_pos.
  assert (Htf : t <> f) by (apply Hnf; eapply live_pos; [done|left; by apply tab_in]).
  assert (Hpf : fr p0 <> f) by (apply Hnf; eapply live_pos; [done|left; by apply leaf_in]).
  assert (Ho1 : own (pm s1) t') by (unfold own; by rewrite Hrc).
  assert (Ha1 : forall g, g <> f -> forall w, r2 g w = ram s g w) by (intros; rewrite <- Hram; by apply rpage_ne).
  assert (Hok2 : vm_ok s2 ds ({[+ t' +]} ⊎ (X ⊎ ({[+ f +]} ⊎ held)))).
  { replace ({[+ t' +]} ⊎ (X ⊎ ({[+ f +]} ⊎ held))) with ({[+ f +]} ⊎ ({[+ t' +]} ⊎ (X ⊎ held))) by (clear; mult_eq).
    apply vm_ok_write_held; [done|done|]. rewrite Hram. done. }
  assert (Ha2 : forall g, g <> t' -> forall w, rupd r2 t' k q g w = r2 g w) by (intros; by apply rupd_ne).
  split; [rewrite leaf_up, V1 by done; by apply vm_ok_write_held|]. split; [exact Ho1|]. split; [exact Hav1|].
  unfold pte_forked. cbv zeta. fold p0. cbn [ram set_ram pm]. split.
  { intros j. rewrite Ha2, Ha1 by done. destruct (Z.eqb_spec j k) as [->|]; done. }
  split; [intros j; rewrite rupd_at; destruct (j =? k); [done|by apply Ha1]|].
  split; [intros g H1 H2 H3 w; rewrite Ha2 by done; apply Ha1; auto|].
  split; [intros g Hg; rewrite Hrc by auto; lia|]. split.
  - unfold forked. rewrite Hpp, Hpu. cbn [andb]. do 5 (split; [done|]). split; [by left|]. split; [congruence|].
    split; [intros _; by rewrite V1|]. intros w. cbn [ram set_ram]. rewrite V1. split.
    + rewrite Ha2, Ha1; [done|done|]. intros Hx. apply Hnr. rewrite <- Hx. by apply leaf_in.
    + rewrite Ha2 by done. unfold r2. by rewrite rpage_at, Hram.
  - apply (sv_weaken s _ ds every); [|done]. apply (sv_trans s s1); [rewrite Hs1; apply sv_pm|].
    apply (sv_trans s1 s2); [eapply sv_held; [exact Hok1|exact Hof|rewrite Hram; exact Ha1]|]. by eapply (sv_held s2).
Qed.

(** Any other user page is shared. *)
Lemma fork_share_ok s ds X held d i t' k v :
  let t := fr (ram s d i) in let p0 := ram s t k in
  vm_ok s ds ({[+ t' +]} ⊎ (X ⊎ held)) -> own (pm s) t' -> in_ds ds (SLeaf d i k) -> priv (ram s d i) = true ->
  pres p0 = true -> user p0 = true -> refcounts (pm s) (fr p0) < 2 ^ 16 - 1 ->
  fr v = fr p0 -> pres v = true -> user v = true -> rw v = false -> cow v = true ->
  wp (wr (t * PAGE_SIZE) k v ;; wr (t' * PAGE_SIZE) k v ;; ref_inc (fr p0 * PAGE_SIZE)) (fun _ s' =>
    vm_ok s' ds ({[+ t' +]} ⊎ (X ⊎ (leaf v ⊎ held))) /\ own (pm s') t' /\ (forall n, avail n s -> avail n s') /\
    pte_forked s s' ds d i t t' k v v) s.
Proof.
  intros t p0 Hok Ho Hin Hp Hpp Hpu Hlt V1 V2 V3 V4 V5. pose proof Hin as (Hd & Hi & Hk).
  destruct (fork_apart s ds X held d i t' Hok Ho Hd Hi Hp) as (Hnr & Htt & Hdt & Hdtt). fold t in Htt, Hdtt.
  assert (Hfp : fr p0 ∈ refs (ram s) ds) by by apply leaf_in.
  assert (Hup0 : upte s d i k = Some p0) by by apply upte_mk.
  apply wp_bind, wp_wr, wp_bind, wp_wr. cbn [ram set_ram]. set (r1 := rupd (ram s) t k v). set (s1 := set_ram r1 s).
  assert (Hok1 : vm_ok s1 ds ({[+ t' +]} ⊎ (X ⊎ held))).
  { pose proof Hok as (_ & _ & _ & Hds & _). destruct (Hds d Hd) as [Hdo _]. destruct (Hdo i Hi) as (_ & _ & Hpt). rewrite Hp in Hpt.
    destruct (Hpt k Hk Hpp) as [Hue _]. eapply vm_ok_write_pte; try done; [|intros _; auto|congruence].
    fold t. fold p0. rewrite !leaf_up by done. by rewrite V1. }
  destruct (sv_pte s ds _ d i k v Hok Hin Hp) as [Hsv1 Hup1]. fold t r1 s1 in Hsv1, Hup1.
  set (r2 := rupd r1 t' k v). set (s2 := set_ram r2 s1).
  assert (Ha : forall g, g <> t' -> forall w, r2 g w = r1 g w) by (intros; by apply rupd_ne).
  assert (Hok2 : vm_ok s2 ds ({[+ t' +]} ⊎ (X ⊎ held))) by by apply vm_ok_write_held.
  assert (Hsv2 : sv s1 s2 ds every) by by eapply (sv_held s1).
  assert (He : ram s2 d i = ram s d i) by (cbn [ram set_ram s2]; rewrite Ha by done; by apply rupd_ne).
  assert (Hpt : ram s2 (fr (ram s2 d i)) k = v).
  { rewrite He. cbn [ram set_ram s2]. fold t. rewrite Ha by done. unfold r1. by rewrite rupd_at, Z.eqb_refl. }
  pose proof (ref_inc_ok s2 ds _ d i k Hok2 Hin) as Hinc. cbv zeta in Hinc. rewrite Hpt, V1, He in Hinc.
  specialize (Hinc Hp V2 V3 V4 Hlt). eapply wp_mono; [exact Hinc|]. cbv beta.
  intros _ s3 (Hs3 & Hok3 & Hav3 & Hrcf & Hrc). assert (Hr3 : ram s3 = r2) by by rewrite Hs3.
  assert (Hne : t' <> fr p0) by by intros ->. split.
  { rewrite leaf_up, V1 by done. replace ({[+ t' +]} ⊎ (X ⊎ ({[+ fr p0 +]} ⊎ held))) with ({[+ fr p0 +]} ⊎ ({[+ t' +]} ⊎ (X ⊎ held))); [done|].
    clear. mult_eq. }
  split; [unfold own; by rewrite Hrc|]. split; [exact Hav3|].
  unfold pte_forked. cbv zeta. fold p0. rewrite Hr3. split; [intros j; rewrite Ha by done; apply rupd_at|].
  split; [intros j; unfold r2; rewrite rupd_at; destruct (j =? k); [done|by apply rupd_ne]|].
  split; [intros g H1 H2 _ w; rewrite Ha by done; by apply rupd_ne|]. split.
  { intros g _. rewrite leaf_up by done. destruct (decide (g = fr p0)) as [->|Hg].
    - rewrite mult_one. change (pm s2) with (pm s) in Hrcf. lia.
    - rewrite mult_ne, Hrc by done. change (pm s2) with (pm s). lia. }
  split.
  - unfold forked. rewrite Hpp, Hpu. cbn [andb]. do 4 (split; [done|]). split; [by right|]. split; [by right|]. split; [done|].
    split; [congruence|]. intros w. rewrite V1, Hr3. assert (r2 (fr p0) w = ram s (fr p0) w) as ->; [|done].
    rewrite Ha by done. apply rupd_ne. by eapply leaf_not_tab.
  - apply (sv_trans s s1); [done|]. apply (sv_weaken _ _ _ every); [|done]. apply (sv_trans s1 s2); [done|]. rewrite Hs3. apply sv_pm.
Qed.

Definition stack_cost (i : Z) : nat := if stack_pde i then 1 else 0.

Lemma fork_pte_ok s ds X held d i t' k n :
  let t := fr (ram s d i) in let p0 := ram s t k in
  vm_ok s ds ({[+ t' +]} ⊎ (X ⊎ held)) -> own (pm s) t' -> in_ds ds (SLeaf d i k) -> priv (ram s d i) = true ->
  avail (stack_cost i + n) s -> (forall f, f ∈ leaf p0 -> refcounts (pm s) f < 2 ^ 16 - 1) ->
  wp (fork_pte (t * PAGE_SIZE) (t' * PAGE_SIZE) i k) (fun _ s' => exists p1 q,
    vm_ok s' ds ({[+ t' +]} ⊎ (X ⊎ (leaf q ⊎ held))) /\ own (pm s') t' /\ avail n s' /\ pte_forked s s' ds d i t t' k p1 q) s.
Proof.
  intros t p0 Hok Ho Hin Hp Hav Hlt. pose proof Hin as (Hd & Hi & Hk). unfold fork_pte. apply wp_bind, wp_rd. fold p0.
  rewrite has_pres, has_user. assert (Hav' : avail n s) by (unfold avail in *; lia).
  destruct (pres p0) eqn:Hpp; cbn [negb]; [destruct (user p0) eqn:Hpu; cbn [negb]|].
  2, 3: assert (Hnu : pres p0 && user p0 = false) by (rewrite Hpp, ?Hpu; done); apply wp_wr; exists p0, p0;
        destruct (fork_plain_ok s ds X held d i t' k Hok Ho Hin Hp Hnu) as [A1 A2]; split_and!; done.
  apply wp_bind. pose proof (fork_va i k Hi Hk) as Hva. cbv zeta in Hva. unfold stack_cost in Hav. destruct (stack_pde i) eqn:Hst.
  - eapply wp_mono; [by eapply fork_stack_ok|]. cbv beta. intros ok s' (-> & q & H1 & H2 & H3 & H4). apply wp_skip. by exists p0, q.
  - unfold fork_stack_page. rewrite Hva. apply wp_ret. rewrite !addr_fr. set (v := Z.lor _ (Z.lor _ PAGE_COW)).
    eapply wp_mono; [apply (fork_share_ok s ds X held d i t' k v); try done|].
    + apply Hlt. rewrite leaf_up by done. apply ms_self.
    + subst v. fold t p0. assert (0 <= fr p0 < 2 ^ 20) by apply fr_range. frs.
    + subst v. bits.
    + subst v. bits.
    + subst v. bits.
    + subst v. bits.
    + cbv beta. intros _ s' (H1 & H2 & H3 & H4). exists v, v. split_and!; auto.
Qed.

(** After [k] entries of table [t] of directory entry [i] of [d]. *)
Definition table_forked (s s1 : vm) (ds : list Z) (held : gmultiset Z) (d i t' k : Z) : Prop :=
  let t := fr (ram s d i) in
  vm_ok s1 ds ({[+ t' +]} ⊎ (msum (seqZ 0 k) (fun j => leaf (ram s1 t' j)) ⊎ held)) /\ own (pm s1) t' /\
  (forall j, k <= j -> ram s1 t j = ram s t j) /\
  (forall g, g <> t -> g <> t' -> 0 < refcounts (pm s) g -> forall w, ram s1 g w = ram s g w) /\
  (forall g, 0 < refcounts (pm s) g -> refcounts (pm s) g <= refcounts (pm s1) g <=
     refcounts (pm s) g + Z.of_nat (multiplicity g (msum (seqZ 0 k) (fun j => leaf (ram s t j))))) /\
  (forall j, 0 <= j < k -> forked s s1 (ram s t j) (ram s1 t j) (ram s1 t' j)) /\
  sv s s1 ds (fun d' i' j' => ~ (d' = d /\ i' = i /\ j' < k)).

(** Entries already done stay done. *)
Lemma forked_later s0 s s' ds X held d i t' j k p0 q p1' q' :
  let t := fr (ram s d i) in
  vm_ok s ds ({[+ t' +]} ⊎ (X ⊎ held)) -> own (pm s) t' -> in_ds ds (SLeaf d i j) -> in_ds ds (SLeaf d i k) -> priv (ram s d i) = true ->
  (forall f, f ∈ leaf q -> f ∈ X) ->
  pte_forked s s' ds d i t t' k p1' q' -> forked s0 s p0 (ram s t j) q -> forked s0 s' p0 (ram s t j) q.
Proof.
  intros t Hok Ho Hin Hink Hp HqX (_ & _ & Hfr & Hrc & _ & _) Hf. unfold forked in *.
  destruct (pres p0 && user p0); [|done]. destruct Hf as (H1 & H2 & H3 & H4 & H5 & H6 & H7 & H8 & H9).
  pose proof Hin as (Hd & Hi & Hj). destruct (fork_apart s ds X held d i t' Hok Ho Hd Hi Hp) as (Hnr & Htt & _). fold t in Htt.
  pose proof Hok as (_ & _ & _ & Hds & _). destruct (Hds d Hd) as [_ [_ Hso]]. destruct (Hso i Hi Hp) as [Hot _]. fold t in Hot.
  assert (Hqx : fr q ∈ X) by (apply HqX; rewrite leaf_up by done; apply ms_self).
  assert (Hqh : fr q ∈ {[+ t' +]} ⊎ (X ⊎ held)) by by apply ms_r, ms_l.
  assert (Hqt : fr q <> t).
  { intros Hx. assert (Htp : pool t) by (rewrite <- Hx; by eapply held_pool).
    eapply ms_not_both; [exact (own_mult s ds _ t Hok Hot Htp)|by apply tab_in|by rewrite <- Hx]. }
  assert (Hqt' : fr q <> t').
  { intros Hx. destruct (held_fresh s ds _ t' Hok Ho) as [_ Hnh]. apply Hnh. rewrite <- Hx. by apply ms_l. }
  do 7 (split; [done|]). split.
  - intros Hrw. specialize (H8 Hrw). pose proof (Hrc _ (own_pos _ _ H8)) as [L1 L2].
    pose proof (own_mult s ds _ (fr q) Hok H8 ltac:(by eapply held_pool)) as Hm.
    assert (Hle : (multiplicity (fr q) (leaf (ram s t k)) <= multiplicity (fr q) (refs (ram s) ds))%nat).
    { pose proof (msum_le (sites ds) (contrib (ram s)) (SLeaf d i k) (fr q)) as Hle. cbn [contrib] in Hle. rewrite Hp in Hle.
      apply Hle; [apply NoDup_sites; by destruct Hok as (_ & ? & _)|by apply elem_sites]. }
    rewrite elem_of_multiplicity in Hqh. unfold own in *. clear -Hqh Hle Hm H8 L1 L2. lia.
  - intros w. destruct (H9 w) as [E1 E2]. assert (Hup : upte s d i j = Some (ram s t j)) by by apply upte_mk. split.
    + rewrite <- E1. apply Hfr; [by apply (leaf_not_tab s ds _ d i d i j _ Hok)| |eapply live_pos; [done|left; by apply (upte_in s ds d i j)]]. intros Hx. apply Hnr. rewrite <- Hx. by apply (upte_in s ds d i j).
    + rewrite <- E2. apply Hfr; [done|done|]. eapply live_pos; [done|by right].
Qed.

(** The contents of the parent's page before the loop. *)
Lemma forked_base s s1 s2 p0 p1 q :
  (pres p0 = true -> user p0 = true -> forall w, ram s1 (fr p0) w = ram s (fr p0) w) ->
  forked s1 s2 p0 p1 q -> forked s s2 p0 p1 q.
Proof.
  unfold forked. destruct (pres p0); [|done]. destruct (user p0); [|done]. cbn [andb]. intros Hw Hf.
  destruct Hf as (H1 & H2 & H3 & H4 & H5 & H6 & H7 & H8 & H9). do 8 (split; [done|]). intros w. rewrite <- Hw by done. apply H9.
Qed.

Lemma fork_table_ok s ds held d i t' n :
  let t := fr (ram s d i) in
  vm_ok s ds ({[+ t' +]} ⊎ held) -> own (pm s) t' -> d ∈ ds -> 0 <= i < PD_KERNEL_ENTRIES -> priv (ram s d i) = true ->
  avail (1024 * stack_cost i + n) s ->
  (forall f, f ∈ tbl (ram s) t -> refcounts (pm s) f + Z.of_nat (multiplicity f (tbl (ram s) t)) <= 2 ^ 16 - 1) ->
  wp (for_each (seqZ 0 1024) (fork_pte (t * PAGE_SIZE) (t' * PAGE_SIZE) i)) (fun _ s' =>
    table_forked s s' ds held d i t' 1024 /\ avail n s') s.
Proof.
  intros t Hok Ho Hd Hi Hp Hav Hlt.
  destruct (fork_apart s ds ∅ held d i t') as (Hnr & Htt & Hdt & Hdtt); try done; [by rewrite (left_id_L ∅ (⊎))|]. fold t in Htt, Hdtt.
  apply (wp_for_range (fun k s1 => table_forked s s1 ds held d i t' k /\ avail (Z.to_nat (1024 - k) * stack_cost i + n) s1)); [done| | |done].
  { split; [|done]. split; [change (msum (seqZ 0 0) _) with (∅ : gmultiset Z); by rewrite (left_id_L ∅ (⊎))|]. split; [done|]. split; [done|]. split; [done|]. split; [intros; lia|].
    split; [intros; lia|apply sv_refl]. }
  intros k s1 Hk [(A1 & A2 & A3 & A4 & A5 & A6 & A7) Hav1]. fold t in A3, A4, A5, A6.
  assert (Hin : forall j, 0 <= j < 1024 -> in_ds ds (SLeaf d i j)) by done.
  assert (He : ram s1 d i = ram s d i) by (apply A4; [done|done|]; eapply live_pos; [done|left; by apply dir_in]).
  assert (Hkt : ram s1 t k = ram s t k) by (apply A3; lia).
  replace (Z.to_nat (1024 - k) * stack_cost i + n)%nat with (stack_cost i + (Z.to_nat (1024 - (k + 1)) * stack_cost i + n))%nat in Hav1
    by (replace (Z.to_nat (1024 - k)) with (S (Z.to_nat (1024 - (k + 1)))) by lia; lia).
  pose proof (fork_pte_ok s1 ds _ held d i t' k (Z.to_nat (1024 - (k + 1)) * stack_cost i + n)%nat A1 A2 (Hin k Hk)) as Hstep. cbv zeta in Hstep. rewrite He in Hstep. fold t in Hstep.
  rewrite Hkt in Hstep. eapply wp_mono; [apply Hstep; [done|exact Hav1|]|].
  { intros f Hf. assert (Hle : (multiplicity f (msum (seqZ 0 (k + 1)) (fun j => leaf (ram s t j))) <= multiplicity f (tbl (ram s) t))%nat).
    { unfold tbl. replace (seqZ 0 1024) with (seqZ 0 (k + 1) ++ seqZ (0 + (k + 1)) (1024 - (k + 1))) by (rewrite <- seqZ_app by lia; f_equal; lia).
      rewrite msum_app, multiplicity_disj_union. lia. }
    rewrite msum_snoc, multiplicity_disj_union in Hle by lia. rewrite elem_of_multiplicity in Hf.
    assert (Hnz : 0 < refcounts (pm s) f).
    { eapply live_pos; [done|]. left. unfold leaf in Hf. destruct (pres (ram s t k) && user (ram s t k)) eqn:E; [|by rewrite multiplicity_empty in Hf; lia].
      apply andb_prop in E as [E1 E2]. destruct (decide (f = fr (ram s t k))) as [->|]; [by apply leaf_in|]. rewrite mult_ne in Hf by done. lia. }
    assert (Hft : f ∈ tbl (ram s) t) by (rewrite elem_of_multiplicity; clear -Hf Hle; lia).
    specialize (Hlt f Hft). specialize (A5 f Hnz). clear -Hlt A5 Hle Hf. lia. }
  cbv beta. intros _ s2 (p1 & q & B1 & B2 & B3 & B4). split; [|done]. pose proof B4 as (C1 & C2 & C3 & C4 & C5 & C6). rewrite Hkt in C4, C5.
  assert (Hsum : msum (seqZ 0 (k + 1)) (fun j => leaf (ram s2 t' j)) = msum (seqZ 0 k) (fun j => leaf (ram s1 t' j)) ⊎ leaf q).
  { rewrite msum_snoc by lia. f_equal; [|by rewrite C2, Z.eqb_refl]. apply msum_ext. intros j Hj. apply elem_of_seqZ in Hj.
    rewrite C2. destruct (Z.eqb_spec j k); [lia|done]. }
  split; [rewrite Hsum; by rewrite <- (assoc_L (⊎))|]. split; [done|]. fold t. split.
  { intros j Hj. rewrite C1. destruct (Z.eqb_spec j k); [lia|]. apply A3. lia. }
  assert (Hnz1 : forall g, 0 < refcounts (pm s) g -> 0 < refcounts (pm s1) g).
  { intros g Hg. specialize (A5 g Hg). clear -A5 Hg. lia. }
  split; [intros g G1 G2 G3 w; rewrite C3 by auto; by apply A4|]. split.
  { intros g Hg. specialize (A5 g Hg). specialize (C4 g (Hnz1 g Hg)). rewrite msum_snoc, multiplicity_disj_union by lia.
    clear -A5 C4. lia. }
  split; [|eapply sv_trans; [eapply sv_weaken; [exact A7|]|eapply sv_weaken; [exact C6|]]].
  - intros j Hj. destruct (decide (j = k)) as [->|Hne].
    + rewrite C1, C2, Z.eqb_refl. apply (forked_base s s1); [|exact C5]. intros P1 P2. apply A4.
      * apply (leaf_not_tab s ds _ d i d i k _ Hok); try done. by apply upte_mk.
      * intros Hx. apply Hnr. rewrite <- Hx. by apply leaf_in.
      * eapply live_pos; [done|]. left. by apply leaf_in.
    + rewrite C1, C2, (proj2 (Z.eqb_neq j k) Hne).
      assert (Hj' : 0 <= j < 1024) by lia.
      pose proof (forked_later s s1 s2 ds _ held d i t' j k (ram s t j) (ram s1 t' j) p1 q A1 A2 (Hin j Hj') (Hin k Hk)) as Hl.
      cbv zeta in Hl. rewrite He in Hl. fold t in Hl. apply Hl; [done| |done|].
      * intros f Hf. apply elem_of_msum. exists j. split; [apply elem_of_seqZ; lia|done].
      * apply A6. lia.
  - intros d' i' j' Hx [-> [-> Hj]]. apply Hx. split_and!; [done..|lia].
  - intros d' i' j' Hx [= -> -> ->]. apply Hx. split_and!; [done..|lia].
Qed.

(** Free pages one directory entry may need. *)
Definition pde_cost (i : Z) : nat := if mmap_pde i then 0 else S (1024 * stack_cost i).

(** Page [j] of entry [i] of the parent [d] and the child [c]. *)
Definition page_forked (s s' : vm) (d c i j : Z) : Prop :=
  match upte s d i j with
  | None => upte s' d i j = None /\ upte s' c i j = None
  | Some p0 => exists p1 q, upte s' d i j = Some p1 /\ upte s' c i j = Some q /\
      (rw p0 = true \/ cow p0 = true -> rw p1 = true \/ cow p1 = true) /\ (rw q = true \/ cow q = true) /\
      forall w, ram s' (fr p1) w = ram s (fr p0) w /\ ram s' (fr q) w = ram s (fr p0) w
  end.

Definition pde_forked (s s' : vm) (ds : list Z) (d c i : Z) : Prop :=
  (mmap_pde i = false -> forall j, 0 <= j < 1024 -> page_forked s s' d c i j) /\
  sv s s' ds (fun d' i' _ => ~ ((d' = d \/ d' = c) /\ i' = i /\ mmap_pde i = false)) /\
  (forall i', i' <> i \/ mmap_pde i = true -> ram s' c i' = ram s c i') /\
  (forall g, (priv (ram s d i) = true -> g <> fr (ram s d i)) -> g <> c -> 0 < refcounts (pm s) g -> forall w, ram s' g w = ram s g w) /\
  (forall g, 0 < refcounts (pm s) g -> refcounts (pm s) g <= refcounts (pm s') g <= refcounts (pm s) g + Z.of_nat (multiplicity g (ent (ram s) d i))).

Lemma forked_up s s' p0 p1 q : forked s s' p0 p1 q -> pres p0 && user p0 = false -> p1 = p0 /\ q = p0.
Proof. unfold forked. intros H E. by rewrite E in H. Qed.

(** The child's directory entry for a table that has been forked. *)
Lemma fork_link_ok s s2 ds held d c i t' :
  let t := fr (ram s d i) in let e' := Z.lor (t' * PAGE_SIZE) (Z.land (ram s d i) FLAG_MASK) in
  vm_ok s ds ({[+ t' +]} ⊎ held) -> own (pm s) t' -> table_forked s s2 ds held d i t' 1024 ->
  d ∈ ds -> c ∈ ds -> d <> c -> 0 <= i < PD_KERNEL_ENTRIES -> priv (ram s d i) = true -> priv (ram s c i) = false ->
  let s' := set_ram (rupd (ram s2) c i e') s2 in
  vm_ok s' ds held /\ (forall j, 0 <= j < 1024 -> page_forked s s' d c i j) /\
  sv s s' ds (fun d' i' _ => ~ ((d' = d \/ d' = c) /\ i' = i)).
Proof.
  intros t e' Hok Ho (A1 & A2 & A3 & A4 & A5 & A6 & A7) Hd Hc Hdc Hi Hp Hpc s'. fold t in A3, A4, A5, A6.
  assert (Ht20 : 0 <= t' < 2 ^ 20) by (apply pool_range; eapply held_pool; [exact Hok|apply ms_head]).
  assert (Hfe : fr e' = t') by (subst e'; frs).
  assert (Hbits : pres e' = pres (ram s d i) /\ rw e' = rw (ram s d i) /\ user e' = user (ram s d i) /\ priv e' = priv (ram s d i)).
  { subst e'. split; [bits|]. split; [bits|]. split; bits. }
  destruct Hbits as (E1 & E2 & E3 & E4). pose proof Hok as (_ & _ & _ & Hds & _). destruct (Hds d Hd) as [Hdo _].
  destruct (Hdo i Hi) as (Hpe & Hre & Hpt). rewrite Hp in Hpt. fold t in Hpt. rewrite Hpe in E1. rewrite Hre in E2. rewrite Hp in E4.
  destruct (fork_apart s ds ∅ held d i t') as (Hnr & Htt & Hdt & Hdtt); try done; [by rewrite (left_id_L ∅ (⊎))|]. fold t in Htt, Hdtt.
  assert (Hct : c <> t') by (intros Hx; apply Hnr; rewrite <- Hx; by apply dir_in).
  assert (Hctt : c <> t) by (destruct (tab_unique s ds _ d i Hok Hd Hi Hp) as (_ & _ & Hdir & _); by apply Hdir).
  assert (Hword : forall d', d' ∈ ds -> d' <> t -> d' <> t' -> forall w, ram s2 d' w = ram s d' w).
  { intros d' Hd' H1 H2 w. apply A4; [done|done|]. eapply live_pos; [done|left; by apply dir_in]. }
  assert (Hpc2 : priv (ram s2 c i) = false) by by rewrite Hword.
  assert (Hok' : vm_ok s' ds held).
  { apply (vm_ok_link s2 ds held c i e'); rewrite ?Hfe; try done. split; [by rewrite Hfe|]. intros j Hj. rewrite Hfe. cbv zeta.
    specialize (A6 j Hj). specialize (Hpt j Hj). destruct (pres (ram s t j) && user (ram s t j)) eqn:E.
    - unfold forked in A6. rewrite E in A6. destruct A6 as (F1 & F2 & F3 & F4 & F5 & F6 & F7 & F8 & F9).
      apply andb_prop in E as [E5 E6]. destruct (Hpt E5) as [Hue _]. split; [|auto]. intros _. rewrite E3. split; [auto|]. auto.
    - destruct (forked_up _ _ _ _ _ A6 E) as [_ ->]. split; [|intros P1 P2; by rewrite P1, P2 in E].
      unfold pte_ok. rewrite E3. exact Hpt. }
  destruct (sv_link s2 ds _ c i e' A1 Hc Hi) as [Hsv Hup]; [by rewrite Hfe|done|]. fold s' in Hsv, Hup. rewrite Hfe in Hup.
  split; [done|]. split.
  - intros j Hj. specialize (A6 j Hj). specialize (Hup j). cbv zeta in Hup.
    assert (Hin : in_ds ds (SLeaf d i j)) by done. destruct (Hsv d i j Hin) as [Hs1 Hs2]; [congruence|].
    unfold page_forked. rewrite Hs1, Hup. assert (Hu2 : upte s2 d i j = let p := ram s2 t j in if pres p && user p then Some p else None).
    { unfold upte. rewrite (Hword d) by done. by rewrite Hp. }
    assert (Hu0 : upte s d i j = let p := ram s t j in if pres p && user p then Some p else None) by (unfold upte; by rewrite Hp).
    rewrite Hu0. cbv zeta. destruct (pres (ram s t j) && user (ram s t j)) eqn:E.
    + unfold forked in A6. rewrite E in A6. destruct A6 as (F1 & F2 & F3 & F4 & F5 & F6 & F7 & F8 & F9).
      exists (ram s2 t j), (ram s2 t' j). rewrite Hu2. cbv zeta. rewrite F1, F2, F3, F4. do 4 (split; [done|]). intros w.
      destruct (F9 w) as [G1 G2]. split.
      * rewrite <- G1. apply rupd_ne. apply (leaf_not_dir s2 ds _ c d i j _ A1 Hc Hin). rewrite Hu2. cbv zeta. by rewrite F1, F2.
      * rewrite <- G2. apply rupd_ne. destruct (dir_unique s2 ds _ c A1 Hc) as (_ & _ & _ & Hnh). intros Hx. apply Hnh. rewrite <- Hx.
        apply ms_r, ms_l, elem_of_msum. exists j. split; [by apply in_seq|]. rewrite leaf_up by done. apply ms_self.
    + destruct (forked_up _ _ _ _ _ A6 E) as [E5 E6]. rewrite Hu2. cbv zeta. by rewrite E5, E6, E.
  - eapply sv_trans; [eapply sv_weaken; [exact A7|]|eapply sv_weaken; [exact Hsv|]].
    + intros d' i' j' Hx (-> & -> & _). apply Hx. auto.
    + intros d' i' j' Hx [= -> ->]. apply Hx. auto.
Qed.

Lemma page_forked_base s s1 s2 d c i j :
  (upte s1 d i j = upte s d i j /\ forall p, upte s d i j = Some p -> forall w, ram s1 (fr p) w = ram s (fr p) w) ->
  page_forked s1 s2 d c i j -> page_forked s s2 d c i j.
Proof.
  unfold page_forked. intros [-> Hw] Hf. destruct (upte s d i j) as [p0|]; [|done].
  destruct Hf as (p1 & q & H1 & H2 & H3 & H4 & H5). exists p1, q. do 4 (split; [done|]). intros w. rewrite <- (Hw p0) by done. apply H5.
Qed.

(** An entry that is still the kernel's. *)
Lemma fork_kernel_pde_ok s ds held d c i :
  vm_ok s ds held -> d ∈ ds -> c ∈ ds -> d <> c -> 0 <= i < PD_KERNEL_ENTRIES ->
  priv (ram s d i) = false -> priv (ram s c i) = false -> mmap_pde i = false ->
  let s' := set_ram (rupd (ram s) c i (ram s d i)) s in vm_ok s' ds held /\ pde_forked s s' ds d c i.
Proof.
  intros Hok Hd Hc Hdc Hi Hp Hpc Hmm s'. pose proof Hok as (_ & _ & _ & Hds & _).
  destruct (Hds d Hd) as [Hdo _], (Hds c Hc) as [Hco _]. destruct (Hdo i Hi) as (D1 & D2 & D3), (Hco i Hi) as (C1 & C2 & C3).
  rewrite Hp in D3. rewrite Hpc in C3.
  assert (Hsv : sv s s' ds every) by (eapply sv_pde_flags; try done; congruence).
  assert (Hnone : forall j, upte s' c i j = None).
  { intros j. apply upte_none. subst s'. cbn [ram set_ram]. by rewrite rupd_at, Z.eqb_refl. }
  split.
  - eapply vm_ok_pde; try done; [by rewrite Hp|]. unfold ent. by rewrite rupd_at, Z.eqb_refl, Hp, Hpc.
  - split; [|split; [by eapply sv_weaken|split]].
    + intros _ j Hj. unfold page_forked. rewrite (upte_none s d) by done. split; [|done]. apply upte_none. subst s'. cbn [ram set_ram].
      by rewrite rupd_ne.
    + intros i' Hi'. subst s'. cbn [ram set_ram]. rewrite rupd_at. destruct (Z.eqb_spec i' i) as [->|]; [|done].
      destruct Hi'; [done|congruence].
    + split; [|intros g _; change (pm s') with (pm s); lia]. intros g _ Hg _ w. subst s'. cbn [ram set_ram]. by apply rupd_ne.
Qed.

Lemma dir_le r ds d f : NoDup ds -> d ∈ ds -> (multiplicity f (dir r d) <= multiplicity f (refs r ds))%nat.
Proof. intros Hn Hd. rewrite refs_sum. by apply msum_le. Qed.
Lemma ent_le r d i f : 0 <= i < PD_KERNEL_ENTRIES -> (multiplicity f (ent r d i) <= multiplicity f (dir r d))%nat.
Proof.
  intros Hi. unfold dir. rewrite multiplicity_disj_union.
  pose proof (msum_le (seqZ 0 PD_KERNEL_ENTRIES) (ent r d) i f (NoDup_seqZ _ _)) as H. specialize (H (in_seq i _ Hi)). lia.
Qed.
Lemma ent_in r ds d i f : NoDup ds -> d ∈ ds -> 0 <= i < PD_KERNEL_ENTRIES -> f ∈ ent r d i -> f ∈ refs r ds.
Proof.
  intros Hn Hd Hi Hf. rewrite elem_of_multiplicity in *. pose proof (dir_le r ds d f Hn Hd). pose proof (ent_le r d i f Hi). lia.
Qed.

Lemma fork_pde_ok s ds held d c i n :
  vm_ok s ds held -> d ∈ ds -> c ∈ ds -> d <> c -> 0 <= i < PD_KERNEL_ENTRIES -> priv (ram s c i) = false ->
  avail (pde_cost i + n) s ->
  (forall f, f ∈ ent (ram s) d i -> refcounts (pm s) f + Z.of_nat (multiplicity f (ent (ram s) d i)) <= 2 ^ 16 - 1) ->
  wp (fork_pde (d * PAGE_SIZE) (c * PAGE_SIZE) i) (fun _ s' => vm_ok s' ds held /\ avail n s' /\ pde_forked s s' ds d c i) s.
Proof.
  intros Hok Hd Hc Hdc Hi Hpc Hav Hlt. unfold fork_pde, pde_cost in *.
  change ((Z.shiftr MMAP_BASE 22 <=? i) && (i <? Z.shiftr MMAP_LIMIT 22)) with (mmap_pde i). destruct (mmap_pde i) eqn:Hmm.
  { apply wp_skip. split; [done|]. split; [done|]. split; [congruence|]. split; [apply sv_refl|]. split; [done|]. split; [done|]. intros g _. lia. }
  assert (Hav0 : avail n s) by (unfold avail in *; lia).
  apply wp_bind, wp_rd. rewrite has_priv, has_pres. destruct (priv (ram s d i)) eqn:Hp; cbn [negb].
  2: { apply wp_wr. destruct (fork_kernel_pde_ok s ds held d c i) as [A1 A2]; try done. }
  pose proof Hok as (_ & _ & _ & Hds & _). destruct (Hds d Hd) as [Hdo _]. destruct (Hdo i Hi) as (-> & _). cbn [negb].
  eapply wp_use; [apply (kalloc_ok s ds held (1024 * stack_cost i + n)%nat Hok); unfold avail in *; lia|]. cbv beta. intros a s1 (t' & -> & Hnz & Hpool & Hot & Hs1 & Hav1 & Hok1 & Hrc0 & Hrc). rewrite Hnz.
  assert (Hram : ram s1 = ram s) by by rewrite Hs1. destruct (pool_range t' Hpool) as (_ & Hpos & Ht20).
  apply wp_bind, wp_zero; [done|]. set (r2 := rpage (ram s1) t' (fun _ => 0)). set (s2 := set_ram r2 s1).
  assert (Ha : forall g, g <> t' -> forall w, r2 g w = ram s g w) by (intros; rewrite <- Hram; by apply rpage_ne).
  assert (Hnf : forall g, 0 < refcounts (pm s) g -> g <> t') by (intros g Hg ->; lia).
  assert (Hok2 : vm_ok s2 ds ({[+ t' +]} ⊎ held)) by (apply vm_ok_write_held; [done|done|]; by rewrite Hram).
  assert (Hsv2 : sv s s2 ds every).
  { apply (sv_trans s s1); [rewrite Hs1; apply sv_pm|]. eapply sv_held; [exact Hok1|done|]. by rewrite Hram. }
  assert (Hlive : forall g, g ∈ refs (ram s) ds -> g <> t') by (intros g Hg; apply Hnf; eapply live_pos; [done|by left]).
  assert (Hed : ram s2 d i = ram s d i) by (apply Ha, Hlive; by apply dir_in).
  assert (Hec : forall i', ram s2 c i' = ram s c i') by (intros; apply Ha, Hlive; by apply dir_in).
  set (t := fr (ram s d i)) in *.
  assert (Htbl : tbl (ram s2) t = tbl (ram s) t) by (apply msum_ext; intros j _; f_equal; apply Ha, Hlive; by apply tab_in).
  rewrite !addr_fr, fr_page by done. fold t. pose proof (fork_table_ok s2 ds held d i t' n Hok2 Hot Hd Hi) as Hloop. cbv zeta in Hloop. rewrite Hed in Hloop.
  fold t in Hloop. rewrite Htbl in Hloop. apply wp_bind.
  eapply wp_mono; [apply Hloop; [done|unfold avail in *; change (pm s2) with (pm s1); exact Hav1|]|].
  { intros f Hf. assert (Hfe : f ∈ ent (ram s) d i) by (unfold ent; rewrite Hp; by apply ms_r). specialize (Hlt f Hfe).
    unfold ent in Hlt. rewrite Hp, multiplicity_disj_union in Hlt. fold t in Hlt. change (pm s2) with (pm s1).
    rewrite Hrc; [clear -Hlt; lia|]. apply Hlive. apply (ent_in (ram s) ds d i); try done. by destruct Hok as (_ & ? & _). }
  cbv beta. intros _ s3 [Htf Hav3]. apply wp_wr.
  pose proof (fork_link_ok s2 s3 ds held d c i t' Hok2 Hot) as Hlink. cbv zeta in Hlink. rewrite Hed, Hec in Hlink.
  destruct Hlink as (B1 & B2 & B3); try done. set (s4 := set_ram _ s3) in *. split; [done|]. split; [exact Hav3|].
  destruct Htf as (A1 & A2 & A3 & A4 & A5 & A6 & A7). rewrite Hed in A3, A4, A5. fold t in A3, A4, A5.
  assert (Hpos2 : forall g, 0 < refcounts (pm s) g -> refcounts (pm s2) g = refcounts (pm s) g).
  { intros g Hg. change (pm s2) with (pm s1). apply Hrc. auto. }
  assert (Hgs : forall g, g <> t -> g <> c -> 0 < refcounts (pm s) g -> forall w, ram s4 g w = ram s g w).
  { intros g G1 G2 G3 w. subst s4. cbn [ram set_ram]. rewrite rupd_ne by done. rewrite A4; [apply Ha; auto|done|auto|]. by rewrite Hpos2. }
  split; [|split; [|split; [|split]]].
  - intros _ j Hj. eapply page_forked_base; [|exact (B2 j Hj)]. by apply Hsv2.
  - eapply sv_trans; [by eapply sv_weaken|]. eapply sv_weaken; [exact B3|]. intros d' i' _ Hx [H1 H2]. by apply Hx.
  - intros i' [Hi'|?]; [|congruence]. subst s4. cbn [ram set_ram]. rewrite rupd_at, (proj2 (Z.eqb_neq i' i) Hi').
    rewrite A4; [apply Hec| | |].
    + destruct (tab_unique s ds _ d i Hok Hd Hi Hp) as (_ & _ & Hdir & _). by apply Hdir.
    + apply Hlive. by apply dir_in.
    + rewrite Hpos2; eapply live_pos; try done; left; by apply dir_in.
  - intros g G1. apply Hgs. by apply G1.
  - intros g Hg. change (pm s4) with (pm s3). specialize (A5 g). rewrite Hpos2 in A5 by done. specialize (A5 Hg).
    fold (tbl (ram s2) t) in A5. rewrite Htbl in A5. unfold ent. rewrite Hp, multiplicity_disj_union. fold t. clear -A5. lia.
Qed.

(** Free pages the directory entries from [k] on may need. *)
Definition fork_need (k : Z) : nat := sum_list (pde_cost <$> seqZ k (PD_KERNEL_ENTRIES - k)).
Lemma fork_need_step k : 0 <= k < PD_KERNEL_ENTRIES -> fork_need k = (pde_cost k + fork_need (k + 1))%nat.
Proof.
  intros Hk. unfold fork_need. rewrite seqZ_cons by lia. cbn [fmap list_fmap sum_list].
  by replace (Z.pred (PD_KERNEL_ENTRIES - k)) with (PD_KERNEL_ENTRIES - (k + 1)) by lia.
Qed.

Lemma page_forked_later s s1 s2 ds d c i j :
  sv s1 s2 ds (fun d' i' _ => (d' = d \/ d' = c) /\ i' = i) -> in_ds ds (SLeaf d i j) -> in_ds ds (SLeaf c i j) ->
  page_forked s s1 d c i j -> page_forked s s2 d c i j.
Proof.
  intros Hsv Hd Hc. destruct (Hsv d i j Hd) as [E1 E2]; [auto|]. destruct (Hsv c i j Hc) as [E3 E4]; [auto|].
  unfold page_forked. rewrite E1, E3. destruct (upte s d i j) as [p0|]; [|done]. intros (p1 & q & H1 & H2 & H3 & H4 & H5).
  exists p1, q. do 4 (split; [done|]). intros w. rewrite (E2 p1), (E4 q) by done. apply H5.
Qed.

Definition spaces_forked (s s1 : vm) (ds : list Z) (d c k : Z) : Prop :=
  (forall i, k <= i < PD_KERNEL_ENTRIES -> priv (ram s1 c i) = false) /\ (forall w, ram s1 d w = ram s d w) /\
  (forall g, (forall i, 0 <= i < k -> priv (ram s d i) = true -> g <> fr (ram s d i)) -> g <> c -> 0 < refcounts (pm s) g ->
     forall w, ram s1 g w = ram s g w) /\
  (forall g, 0 < refcounts (pm s) g -> refcounts (pm s) g <= refcounts (pm s1) g <=
     refcounts (pm s) g + Z.of_nat (multiplicity g (msum (seqZ 0 k) (ent (ram s) d)))) /\
  (forall i j, 0 <= i < k -> mmap_pde i = false -> 0 <= j < 1024 -> page_forked s s1 d c i j) /\
  sv s s1 ds (fun d' i' _ => ~ ((d' = d \/ d' = c) /\ i' < k /\ mmap_pde i' = false)).

Lemma fork_step s s1 s2 ds held d c k :
  vm_ok s ds held -> d ∈ ds -> c ∈ ds -> d <> c -> 0 <= k < PD_KERNEL_ENTRIES ->
  spaces_forked s s1 ds d c k -> pde_forked s1 s2 ds d c k -> ent (ram s1) d k = ent (ram s) d k -> spaces_forked s s2 ds d c (k + 1).
Proof.
  intros Hok Hd Hc Hdc Hk (A1 & A2 & A3 & A4 & A5 & A6) (B1 & B2 & B3 & B4 & B5) Hent.
  assert (Hpos : forall g, 0 < refcounts (pm s) g -> 0 < refcounts (pm s1) g) by (intros g Hg; specialize (A4 g Hg); clear -A4 Hg; lia).
  split; [|split; [|split; [|split; [|split]]]].
  - intros i Hi. rewrite B3 by (left; lia). apply A1. lia.
  - intros w. rewrite B4; [apply A2| |done|apply Hpos; eapply live_pos; [done|left; by apply dir_in]].
    rewrite A2. intros Hp. destruct (tab_unique s ds _ d k Hok Hd Hk Hp) as (_ & _ & Hdir & _). by apply Hdir.
  - intros g G1 G2 G3 w. rewrite B4; [apply A3; [|done|done]| |done|by apply Hpos].
    + intros i Hi. apply G1. lia.
    + rewrite A2. intros Hp. apply G1; [lia|done].
  - intros g Hg. specialize (A4 g Hg). specialize (B5 g (Hpos g Hg)). rewrite Hent in B5. rewrite msum_snoc, multiplicity_disj_union by lia.
    clear -A4 B5. lia.
  - intros i j Hi Hm Hj. destruct (decide (i = k)) as [->|Hne].
    + eapply page_forked_base; [|by apply B1]. apply A6; [done|]. intros (_ & Hx & _). clear -Hx. lia.
    + assert (Hi' : 0 <= i < k) by lia. apply (page_forked_later s s1 s2 ds); [|split; [done|]; split; [lia|done]..|by apply A5].
      eapply sv_weaken; [exact B2|]. intros d' i' _ [_ ->] [_ [Hx _]]. done.
  - eapply sv_trans; [eapply sv_weaken; [exact A6|]|eapply sv_weaken; [exact B2|]].
    + intros d' i' _ Hx (H1 & H2 & H3). apply Hx. split; [done|]. split; [lia|done].
    + intros d' i' _ Hx (H1 & -> & H3). apply Hx. split; [done|]. split; [lia|done].
Qed.

Lemma fork_ok s ds held d c n :
  vm_ok s ds held -> d ∈ ds -> c ∈ ds -> d <> c -> (forall i, 0 <= i < PD_KERNEL_ENTRIES -> priv (ram s c i) = false) ->
  avail (fork_need 0 + n) s -> (forall f, 2 * refcounts (pm s) f <= 2 ^ 16 - 1) ->
  wp (vmm_fork_address_space (d * PAGE_SIZE) (c * PAGE_SIZE)) (fun _ s' => vm_ok s' ds held /\ avail n s' /\
    (forall i j, 0 <= i < PD_KERNEL_ENTRIES -> mmap_pde i = false -> 0 <= j < 1024 -> page_forked s s' d c i j) /\
    sv s s' ds (fun d' i' _ => ~ ((d' = d \/ d' = c) /\ mmap_pde i' = false))) s.
Proof.
  intros Hok Hd Hc Hdc Hchild Hav Hlt. unfold vmm_fork_address_space.
  rewrite !pool_nz by (eapply dir_unique; done). cbn [orb].
  apply (wp_for_range (fun k s1 => vm_ok s1 ds held /\ avail (fork_need k + n) s1 /\ spaces_forked s s1 ds d c k)); [done| | |].
  - split; [done|]. split; [done|]. split; [done|]. split; [done|]. split; [done|]. split; [intros g _; lia|]. split; [intros; lia|apply sv_refl].
  - intros k s1 Hk (Hok1 & Hav1 & Hsp). rewrite fork_need_step, <- Nat.add_assoc in Hav1 by done.
    pose proof Hsp as (A1 & A2 & A3 & A4 & _ & _).
    assert (Hent : ent (ram s1) d k = ent (ram s) d k).
    { unfold ent. rewrite A2. destruct (priv (ram s d k)) eqn:Hp; [|done]. f_equal. apply msum_ext. intros j _. f_equal. apply A3.
      - intros i Hi Hpi Heq. destruct (tab_unique s ds _ d k Hok Hd Hk Hp) as (_ & _ & _ & Htab & _).
        destruct (Htab d i) as [_ ->]; try done; lia.
      - destruct (tab_unique s ds _ d k Hok Hd Hk Hp) as (_ & _ & Hdir & _). by apply not_eq_sym, Hdir.
      - eapply live_pos; [done|left; by apply tab_in]. }
    eapply wp_mono; [apply (fork_pde_ok s1 ds held d c k (fork_need (k + 1) + n) Hok1 Hd Hc Hdc Hk); [apply A1; lia|exact Hav1|]|].
    + rewrite Hent. intros f Hf. pose proof Hok as (_ & Hn & _ & _ & o & Hcnt).
      assert (Hfr : f ∈ refs (ram s) ds) by by apply (ent_in (ram s) ds d k).
      assert (Hpool : pool f) by by apply (refs_pool s ds held f Hok). destruct (proj2 Hcnt f Hpool) as [Hm _]. rewrite !multiplicity_disj_union in Hm.
      assert (Hpos : 0 < refcounts (pm s) f) by (apply (live_pos s ds held f Hok); by left). specialize (A4 f Hpos). specialize (Hlt f).
      pose proof (dir_le (ram s) ds d f Hn Hd) as Hle. unfold dir in Hle.
      replace (seqZ 0 PD_KERNEL_ENTRIES) with (seqZ 0 (k + 1) ++ seqZ (0 + (k + 1)) (PD_KERNEL_ENTRIES - (k + 1))) in Hle
        by (rewrite <- seqZ_app by lia; f_equal; lia).
      rewrite multiplicity_disj_union, msum_app, multiplicity_disj_union, msum_snoc, multiplicity_disj_union in Hle by lia.
      clear -Hle A4 Hm Hlt. lia.
    + cbv beta. intros _ s2 (Hok2 & Hav2 & Hpf). split; [done|]. split; [done|]. by eapply fork_step.
  - intros s1 (Hok1 & Hav1 & Hsp). destruct Hsp as (_ & _ & _ & _ & A5 & A6). split; [done|].
    split; [unfold avail in *; lia|]. split; [done|]. intros d' i' j' Hin Hx. apply A6; [done|]. intros (H1 & _ & H2). by apply Hx.
Qed.
End Fork.
