(* ===== verification/VmmTrace.v ===== *)
(** * What processes see of memory

    User-mode loads and stores through the page tables, with the page fault
    handler behind them, and any sequence of stores, loads, forks, new pages
    and exits of any number of address spaces: every space behaves like a
    memory of its own, although frames are shared after a fork.

    [mmu] is the translation of the processor (two levels, 4 KiB pages, the
    error code of a fault); accessed and dirty bits are not modelled. *)
From stdpp Require Import gmultiset gmap.
From S2P Require Import Prelude StateM Pmm Vmm Swap PageFault VmmSpec VmmOps VmmFork.

#[local] Open Scope Z_scope.

(** The frame of a user access to [va] under directory [pd], or the error
    code of the fault. *)
Definition mmu (s : vm) (pd va : Z) (write : bool) : Z + Z :=
  let acc := Z.lor PF_USER_BIT (if write then PF_WRITE else 0) in
  let e := ram s (frame pd) (pd_index va) in
  if negb (pres e) then inr acc
  else
    let p := ram s (fr e) (pt_index va) in
    if negb (pres p) then inr acc
    else if user e && user p && (negb write || (rw e && rw p)) then inl (fr p)
    else inr (Z.lor acc PF_PRESENT).

Definition word_of (va : Z) : Z := Z.land va FLAG_MASK / 4.

Inductive result := Done (v : Z) | Dead.

Section User.
Context `{!KernelImage, !Reclaim vm, !OomKill} (dev_ok : Z -> bool).

(** An instruction that accesses memory, restarted after a fault that the
    handler resolved, at most [tries] times. *)
Fixpoint user_access (tries : nat) (t : TaskStruct) (va : Z) (write : bool) (act : Z -> M vm Z) : M vm result :=
  tr ← gets (fun s => mmu s (page_directory t) va write);
  match tr with
  | inl f => v ← act f; mret (Done v)
  | inr err =>
      match tries with
      | O => fail
      | S tries =>
          r ← page_fault_handler dev_ok (Some t) va err;
          match r with
          | Resumed => user_access tries t va write act
          | _ => mret Dead
          end
      end
  end.

Definition user_store (t : TaskStruct) (va v : Z) : M vm result :=
  user_access 1 t va true (fun f => wr (f * PAGE_SIZE) (word_of va) v ;; mret 0).
Definition user_load (t : TaskStruct) (va : Z) : M vm result :=
  user_access 1 t va false (fun f => rd (f * PAGE_SIZE) (word_of va)).

(** A zero page for the process, as the stack and the heap get it. *)
Definition new_page (pd va : Z) : M vm unit :=
  phys ← kalloc_vm;
  if phys =? 0 then skip
  else zero_page phys ;; vmm_map pd va phys (Z.lor (Z.lor PAGE_PRESENT PAGE_RW) PAGE_USER).

(** The operations, on named address spaces: an access of space [n], a new
    page, an empty space [n], a copy [m] of [n], the end of [n]. *)
Inductive op :=
  | OStore (n : nat) (va v : Z) | OLoad (n : nat) (va : Z) | OPage (n : nat) (va : Z)
  | OSpawn (n : nat) | OFork (n m : nat) | OExit (n : nat).

(** The directories (as frames) of the spaces. *)
Definition spaces : Type := gmap nat Z.

Definition task_of (d : Z) : TaskStruct := mk_task 0 1 (d * PAGE_SIZE).

Definition exec (o : op) (sp : spaces) : M vm (spaces * result) :=
  match o with
  | OStore n va v => d ← lift (sp !! n); r ← user_store (task_of d) va v; mret (sp, r)
  | OLoad n va => d ← lift (sp !! n); r ← user_load (task_of d) va; mret (sp, r)
  | OPage n va => d ← lift (sp !! n); new_page (d * PAGE_SIZE) va ;; mret (sp, Done 0)
  | OSpawn n =>
      c ← vmm_create_address_space;
      if c =? 0 then mret (sp, Dead) else mret (<[n := frame c]> sp, Done 0)
  | OFork n m =>
      d ← lift (sp !! n);
      c ← vmm_create_address_space;
      if c =? 0 then mret (sp, Dead)
      else vmm_fork_address_space (d * PAGE_SIZE) c ;; mret (<[m := frame c]> sp, Done 0)
  | OExit n => d ← lift (sp !! n); vmm_free_address_space (d * PAGE_SIZE) ;; mret (delete n sp, Done 0)
  end.

Fixpoint exec_all (os : list op) (sp : spaces) : M vm (spaces * list result) :=
  match os with
  | [] => mret (sp, [])
  | o :: os => '(sp, b) ← exec o sp; '(sp, bs) ← exec_all os sp; mret (sp, b :: bs)
  end.
End User.

(** ** The abstract memory *)

(** The pages of the spaces: the words, and whether the process may write. *)
Definition page : Type := bool * (Z -> Z).
Definition amem : Type := nat -> Z -> Z -> option page.

Definition zeros : page := (true, fun _ => 0).
Definition aset (a : amem) (n : nat) (i j : Z) (p : page) : amem :=
  fun n' i' j' => if bool_decide ((n', i', j') = (n, i, j)) then Some p else a n' i' j'.
Definition anew (a : amem) (n : nat) (ps : Z -> Z -> option page) : amem :=
  fun n' => if bool_decide (n' = n) then ps else a n'.

(** The effect of an operation that was seen to end with [b], or none when it
    cannot end so.  A page that was not there appears zeroed; a store to a
    writable page and a load of a page do not fail. *)
Definition astep (a : amem) (o : op) (b : result) : option amem :=
  match o, b with
  | OStore n va v, Done _ =>
      let p := default zeros (a n (pd_index va) (pt_index va)) in
      Some (aset a n (pd_index va) (pt_index va) (p.1, fupd p.2 (word_of va) v))
  | OStore n va v, Dead =>
      match a n (pd_index va) (pt_index va) with Some (true, _) => None | _ => Some a end
  | OLoad n va, Done v =>
      let p := default zeros (a n (pd_index va) (pt_index va)) in
      if v =? p.2 (word_of va) then Some (aset a n (pd_index va) (pt_index va) p) else None
  | OLoad n va, Dead =>
      match a n (pd_index va) (pt_index va) with Some _ => None | None => Some a end
  | OPage n va, Done _ => Some (aset a n (pd_index va) (pt_index va) zeros)
  | OSpawn n, Done _ => Some (anew a n (fun _ _ => None))
  | OFork n m, Done _ => Some (anew a m (fun i j => if mmap_pde i then None else a n i j))
  | OExit n, Done _ => Some a
  | _, Dead => None
  end.

Fixpoint asteps (a : amem) (os : list op) (bs : list result) : option amem :=
  match os, bs with
  | [], [] => Some a
  | o :: os, b :: bs => a ← astep a o b; asteps a os bs
  | _, _ => None
  end.

Definition dirs (sp : spaces) : list Z := (map_to_list sp).*2.

(** The memory holds the abstract pages. *)
Definition shows (s : vm) (p : option Z) (q : option page) : Prop :=
  match p, q with
  | Some p, Some (wr, c) => (wr = true -> rw p = true \/ cow p = true) /\ forall w, ram s (fr p) w = c w
  | None, None => True
  | _, _ => False
  end.
Definition holds (s : vm) (sp : spaces) (a : amem) : Prop :=
  forall n d i j, sp !! n = Some d -> 0 <= i < PD_KERNEL_ENTRIES -> 0 <= j < 1024 -> shows s (upte s d i j) (a n i j).

(** Entry [p] of a table whose directory entry is [e]: when it is not present,
    it is neither swapped out nor copy-on-write, and if it is promised on demand
    then it is a zero page of the process. *)
Definition plain_entry (e p : Z) : Prop :=
  pres p = false -> has p PAGE_SWAPPED = false /\ cow p = false /\
    (has p PAGE_DEMAND = true -> has p PAGE_ZERO = true /\ user p = true /\ user e = true /\ priv e = true).

(** Pages an operation may take. *)
Definition cost (o : op) : nat :=
  match o with
  | OStore _ _ _ | OLoad _ _ | OPage _ _ => 2
  | OSpawn _ => 1
  | OFork _ _ => S (fork_need 0)
  | OExit _ => 0
  end.

(** What an operation needs: its space, an address below the kernel, free
    pages, and for a fork room in the counts of references. *)
Definition guard (s : vm) (sp : spaces) (o : op) : Prop :=
  avail (cost o) s /\
  match o with
  | OStore n va _ | OLoad n va => exists d, sp !! n = Some d /\ 0 <= va < PCI_HOLE_START /\
      plain_entry (ram s d (pd_index va)) (ram s (fr (ram s d (pd_index va))) (pt_index va))
  | OPage n va => is_Some (sp !! n) /\ 0 <= va < PCI_HOLE_START /\ va mod PAGE_SIZE = 0
  | OSpawn n => sp !! n = None
  | OFork n m => is_Some (sp !! n) /\ sp !! m = None /\ forall f, 2 * refcounts (pm s) f <= 2 ^ 16 - 1
  | OExit n => is_Some (sp !! n)
  end.

Section Faults.
Context {KI : KernelImage} {KO : KernelImageOk} `{!Reclaim vm, !OomKill} (dev_ok : Z -> bool).

Lemma page_va_ok va : 0 <= va < PCI_HOLE_START -> let pv := Z.land va ADDR_MASK in
  pd_index pv = pd_index va /\ pt_index pv = pt_index va /\ 0 <= pv < PCI_HOLE_START /\ pv mod PAGE_SIZE = 0.
Proof.
  intros Hva pv. assert (Hpv : pv = va / 4096 * 4096).
  { subst pv. rewrite addr_fr, fr_shift, Z.shiftr_land. change (Z.shiftr ADDR_MASK 12) with (Z.ones 20).
    rewrite Z.land_ones, Z.shiftr_div_pow2 by lia. unfold PCI_HOLE_START in Hva. unfold PAGE_SIZE. change (2 ^ 12) with 4096.
    f_equal. apply Z.mod_small. word_lia. }
  unfold pd_index, pt_index, PAGE_SIZE. rewrite !Z.shiftr_div_pow2 by lia. change (2 ^ 22) with (4096 * 1024). change (2 ^ 12) with 4096.
  rewrite <- !Z.div_div by lia. rewrite Hpv, Z.div_mul by lia. split_and!; [done|done|word_lia..].
Qed.

(** The entry at a page, private or the kernel's. *)
Definition rpte (s : vm) (d i j : Z) : Z := ram s (fr (ram s d i)) j.

Lemma rpte_ok s ds held d i j : vm_ok s ds held -> in_ds ds (SLeaf d i j) -> let e := ram s d i in let p := rpte s d i j in
  pres e = true /\ rw e = true /\ upte s d i j = (if pres p && user p then Some p else None) /\
  (pres p = true -> user p = true -> user e = true /\ priv e = true) /\ (pres p = true -> cow p = true -> user p = true /\ rw p = false).
Proof.
  intros (_ & _ & Hk & Hds & _) (Hd & Hi & Hj) e p. destruct (Hds d Hd) as [Hdo _]. destruct (Hdo i Hi) as (H1 & H2 & H3).
  fold e in H1, H2, H3. do 2 (split; [done|]). unfold upte, rpte in *. fold e in p |- *. fold p.
  destruct (priv e) eqn:E.
  - split; [done|]. specialize (H3 j Hj). fold p in H3. split; [intros; split; [by apply H3|done]|]. intros Hp Hc. by apply H3.
  - destruct (Hk i Hi) as (_ & _ & _ & _ & H5). specialize (H5 j Hj). rewrite <- H3 in H5. fold p in H5.
    destruct (pres p); [|done]. destruct H5 as [-> ->]; done.
Qed.

(** A held frame, zeroed and mapped for the process. *)
Lemma zero_map_ok s ds held d va f n :
  d ∈ ds -> 0 <= va < PCI_HOLE_START -> va mod PAGE_SIZE = 0 -> vm_ok s ds ({[+ f +]} ⊎ held) -> own (pm s) f -> avail (S n) s ->
  wp (zero_page (f * PAGE_SIZE) ;; vmm_map (d * PAGE_SIZE) va (f * PAGE_SIZE) (Z.lor (Z.lor PAGE_PRESENT PAGE_RW) PAGE_USER))
    (fun _ s' => vm_ok s' ds held /\ avail n s' /\ sv s s' ds (but d (pd_index va) (pt_index va)) /\
       exists v, upte s' d (pd_index va) (pt_index va) = Some v /\ rw v = true /\ forall w, ram s' (fr v) w = 0) s.
Proof.
  intros Hd Hva Hal Hok Ho Hav. assert (Hf : pool f) by (eapply held_pool; [done|apply ms_head]).
  destruct (pool_range f Hf) as (_ & Hpos & Hf20).
  set (s1 := set_ram (rpage (ram s) f (fun _ => 0)) s).
  assert (Ha : forall g, g <> f -> forall w, ram s1 g w = ram s g w) by (intros; by apply rpage_ne).
  assert (Hok1 : vm_ok s1 ds ({[+ f +]} ⊎ held)) by by apply vm_ok_write_held.
  assert (Hsv1 : sv s s1 ds every) by by eapply sv_held.
  apply wp_bind, wp_zero; [lia|]. fold s1. change (Z.lor (Z.lor PAGE_PRESENT PAGE_RW) PAGE_USER) with 7.
  assert (Hmf : map_flags va (f * PAGE_SIZE) 7 = 7).
  { unfold map_flags. replace (PCI_HOLE_START <=? f * PAGE_SIZE) with false.
    - destruct (_ && _); done.
    - symmetry. apply Z.leb_gt. unfold pool, TOTAL_PAGES, PCI_HOLE_START, PAGE_SIZE in *. word_lia. }
  assert (Hfr : fr (new_pte (f * PAGE_SIZE) 7) = f) by (unfold new_pte; change 7 with (Z.lor (Z.lor PAGE_PRESENT PAGE_RW) PAGE_USER); frs).
  set (v := new_pte (f * PAGE_SIZE) 7) in *.
  assert (Hv : pres v = true /\ user v = true /\ rw v = true).
  { subst v. unfold new_pte. change 7 with (Z.lor (Z.lor PAGE_PRESENT PAGE_RW) PAGE_USER). split_and!; bits; by rewrite ?orb_true_r. }
  destruct Hv as (Hvp & Hvu & Hvr).
  eapply wp_mono; [apply (vmm_map_ok s1 ds held d va (f * PAGE_SIZE) 7 n); try done|].
  - unfold PAGE_SIZE. apply Z.mod_mul. lia.
  - by rewrite Hmf.
  - rewrite Hmf. fold v. by rewrite leaf_up, Hfr.
  - rewrite Hmf. fold v. by rewrite Hfr.
  - cbv beta. rewrite Hmf. fold v. rewrite Hvu, Hfr. intros _ s2 (Hok2 & Hav2 & Hsv2 & Hup2 & Hc2).
    split; [done|]. split; [done|]. split; [eapply sv_trans; [by eapply sv_weaken|done]|].
    exists v. split; [done|]. split; [done|]. intros w. rewrite Hfr, Hc2 by done. subst s1. cbn [ram set_ram]. unfold rpage. by rewrite Z.eqb_refl.
Qed.

(** How the handler leaves memory: the page is there and writable, with the
    words it had or zeroed; or nothing changed and the task is stopped. *)
Definition resolved (s s' : vm) (ds : list Z) (held : gmultiset Z) (d i j : Z) : Prop :=
  vm_ok s' ds held /\ sv s s' ds (but d i j) /\
  exists v, upte s' d i j = Some v /\ rw v = true /\
    forall w, ram s' (fr v) w = match upte s d i j with Some p => ram s (fr p) w | None => 0 end.
Definition refused (s s' : vm) (ds : list Z) (held : gmultiset Z) (d i j : Z) (write : bool) : Prop :=
  vm_ok s' ds held /\ sv s s' ds every /\
  match upte s d i j with None => True | Some p => write = true /\ rw p = false /\ cow p = false end.
Definition handled (s s' : vm) (ds : list Z) (held : gmultiset Z) (d i j : Z) (write : bool) (r : outcome) : Prop :=
  match r with Resumed => resolved s s' ds held d i j | _ => refused s s' ds held d i j write end.

Lemma kalloc_or_oom_ok s ds held n :
  vm_ok s ds held -> avail (S n) s ->
  wp kalloc_or_oom (fun a s' => exists f, a = f * PAGE_SIZE /\ (a =? 0) = false /\ pool f /\ own (pm s') f /\
    s' = set_pm (pm s') s /\ avail n s' /\ vm_ok s' ds ({[+ f +]} ⊎ held)) s.
Proof.
  intros Hok Hav. unfold kalloc_or_oom. eapply wp_use; [by apply kalloc_ok|]. cbv beta.
  intros a s1 (f & -> & Hnz & H1 & H2 & H3 & H4 & H5 & _). rewrite Hnz. apply wp_ret. by exists f.
Qed.

Lemma kill_ok s ds held d i j write n :
  vm_ok s ds held -> avail n s -> match upte s d i j with None => True | Some p => write = true /\ rw p = false /\ cow p = false end ->
  wp (kill_current (Some (task_of d))) (fun r s' => avail n s' /\ handled s s' ds held d i j write r) s.
Proof.
  intros Hok Hav Hu. unfold kill_current, task_of, is_kernel. cbn [Z.eqb]. unfold on_pf. wp_steps.
  split; [exact Hav|]. split; [exact Hok|]. split; [exact (sv_refl s ds every)|exact Hu].
Qed.

Lemma grow_stack_ok s ds held d va write n :
  vm_ok s ds held -> d ∈ ds -> 0 <= va < PCI_HOLE_START -> avail (S (S n)) s -> upte s d (pd_index va) (pt_index va) = None ->
  wp (grow_stack (Some (task_of d)) (d * PAGE_SIZE) (Z.land va ADDR_MASK))
    (fun r s' => avail n s' /\ handled s s' ds held d (pd_index va) (pt_index va) write r) s.
Proof.
  intros Hok Hd Hva Hav Hu. destruct (page_va_ok va Hva) as (H1 & H2 & H3 & H4). unfold grow_stack.
  eapply wp_use; [by apply kalloc_or_oom_ok|]. cbv beta. intros a s1 (f & -> & Hnz & Hf & Ho & Hs1 & Hav1 & Hok1). rewrite Hnz.
  assert (Hsv1 : sv s s1 ds every) by (rewrite Hs1; apply sv_pm).
  pose proof (zero_map_ok s1 ds held d (Z.land va ADDR_MASK) f n Hd H3 H4 Hok1 Ho Hav1) as Hz. rewrite H1, H2 in Hz.
  apply wp_eq in Hz as (s2 & [] & Hrun & Hok2 & Hav2 & Hsv2 & v & Hv & Hrw & Hc). apply wp_bind. unfold mbind, M_bind in Hrun.
  unfold wp. destruct (zero_page _ s1) as [[s3 []]|]; [|done]. unfold mbind at 1, M_bind. rewrite Hrun. unfold on_pf. cbn.
  split; [exact Hav2|]. split; [exact Hok2|]. split; [eapply sv_trans; [by eapply sv_weaken|exact Hsv2]|].
  exists v. split; [exact Hv|]. split; [exact Hrw|]. intros w. rewrite Hu. apply Hc.
Qed.

Lemma has_swapped_pres p : pres p = true -> swap_pte_is_swapped p = false.
Proof. intros Hp. unfold swap_pte_is_swapped. by rewrite has_pres, Hp. Qed.

Lemma demand_ok s ds held d i j write n :
  let e := ram s d i in let p := rpte s d i j in
  vm_ok s ds held -> in_ds ds (SLeaf d i j) -> avail (S n) s ->
  pres p = false -> cow p = false -> has p PAGE_ZERO = true -> user p = true -> user e = true -> priv e = true ->
  wp (demand_fault (Some (task_of d)) (fr e * PAGE_SIZE) j) (fun r s' => r = Resumed /\ avail n s' /\ handled s s' ds held d i j write r) s.
Proof.
  cbv zeta. intros Hok Hin Hav Hpp Hpc Hpz Hpu Hue Hp. unfold demand_fault. set (t := fr (ram s d i)).
  eapply wp_use; [by apply kalloc_or_oom_ok|]. cbv beta. intros a s1 (f & -> & Hnz & Hf & Ho & Hs1 & Hav1 & Hok1). rewrite Hnz.
  assert (Hram : ram s1 = ram s) by by rewrite Hs1. destruct (pool_range _ Hf) as (_ & Hpos & Hff).
  apply wp_bind, wp_rd. rewrite Hram. change (ram s t j) with (rpte s d i j). rewrite Hpz.
  apply wp_bind, wp_bind, wp_zero; [lia|]. unfold on_pf at 1. apply wp_modify, wp_bind, wp_rd. cbn [ram set_ram set_pf]. rewrite Hram.
  set (fl := Z.lor _ PAGE_RW). rewrite addr_fr, fr_page by done. apply wp_bind, wp_wr. unfold on_pf. wp_steps. cbn [ram set_ram set_pf].
  set (v := Z.lor _ fl).
  pose proof (fill_pte_ok s1 ds held d i j f v (fun _ => 0) Hin) as Hfill. cbv zeta in Hfill. rewrite Hram in Hfill. fold t in Hfill.
  assert (Htf : t <> f).
  { destruct (held_fresh s1 ds held f Hok1 Ho) as [Hnr _]. rewrite Hram in Hnr. intros Hx. apply Hnr. rewrite <- Hx. by apply tab_in; [apply Hin|apply Hin|]. }
  assert (Hv : fr v = f /\ pres v = true /\ user v = true /\ rw v = true /\ cow v = false).
  { subst v fl. rewrite rpage_ne by done. change (ram s t j) with (rpte s d i j). split_and!; [frs|bits..]. }
  destruct Hv as (V1 & V2 & V3 & V4 & V5). destruct Hfill as (_ & Hok3 & Hsv3 & Hup3 & Hc3); try done.
  change (ram s t j) with (rpte s d i j) in Hok3. unfold leaf in Hok3. rewrite Hpp in Hok3. cbn [andb] in Hok3. rewrite (left_id_L ∅ (⊎)) in Hok3.
  split; [reflexivity|]. split; [exact Hav1|]. split; [exact Hok3|]. split; [apply (sv_trans s s1); [rewrite Hs1; apply sv_pm|exact Hsv3]|].
  exists v. split; [exact Hup3|]. split; [done|]. intros w. rewrite V1. unfold upte. rewrite Hp.
  change (ram s (fr (ram s d i)) j) with (rpte s d i j). rewrite Hpp. cbn [andb]. apply Hc3.
Qed.

Section At.
Context (s : vm) (ds : list Z) (held : gmultiset Z) (d va : Z) (n : nat).
Let i := pd_index va.
Let j := pt_index va.
Context (Hok : vm_ok s ds held) (Hd : d ∈ ds) (Hva : 0 <= va < PCI_HOLE_START) (Hav : avail (S (S n)) s).

Lemma at_in : in_ds ds (SLeaf d i j).
Proof. split; [done|]. split; [by apply pd_index_range|apply pt_index_range]. Qed.
Lemma at_avail : avail n s.
Proof. unfold avail in *. lia. Qed.

Lemma wp_pte_get (Q : option (Z * Z) -> vm -> Prop) :
  Q (Some (fr (ram s d i) * PAGE_SIZE, j)) s -> wp (pte_get (d * PAGE_SIZE) va) Q s.
Proof.
  intros HQ. destruct (rpte_ok s ds held d i j Hok at_in) as (Hpe & _). unfold pte_get. rewrite pool_nz by (by eapply dir_unique).
  apply wp_bind, wp_rd. fold i. rewrite has_pres, Hpe. cbn [negb]. apply wp_ret. by rewrite addr_fr.
Qed.

Lemma write_fault_ok :
  let p := rpte s d i j in pres p = true -> user p && rw p = false ->
  wp (write_fault (Some (task_of d)) (d * PAGE_SIZE) va 7) (fun r s' => avail n s' /\ handled s s' ds held d i j true r) s.
Proof.
  intros p Hp Hr. destruct (rpte_ok s ds held d i j Hok at_in) as (_ & _ & Hu & Hup & Hcow). fold p in Hu, Hup, Hcow.
  rewrite Hp in Hu. cbn [andb] in Hu. unfold write_fault. apply wp_bind, wp_pte_get, wp_bind. unfold pte_value at 1.
  apply wp_bind, wp_rd, wp_ret. change (ram s (fr (ram s d i)) j) with p. cbn [and_pte]. rewrite has_cow. apply wp_bind.
  destruct (cow p) eqn:Hc.
  - destruct (Hcow Hp eq_refl) as [Hpu Hrw]. rewrite Hpu in Hu. destruct (page_va_ok va Hva) as (H1 & H2 & _).
    pose proof (handle_cow_ok s ds held d (Z.land va ADDR_MASK) (S n) p) as Hh. cbv zeta in Hh. rewrite H1, H2 in Hh.
    eapply wp_mono; [apply Hh; try done; apply at_in|]. cbv beta. intros r s1 (-> & Hok1 & Hav1 & Hsv1 & v & V1 & V2 & V3 & V4).
    cbn [Z.eqb]. unfold on_pf. wp_steps. split; [unfold avail in *; cbn [pm set_pf] in *; lia|]. split; [exact Hok1|]. split; [exact Hsv1|].
    exists v. split; [exact V1|]. split; [exact V2|]. intros w. rewrite Hu. apply V4.
  - wp_steps. cbn [Z.eqb]. apply wp_bind. unfold pte_value. apply wp_bind, wp_rd, wp_ret. change (ram s (fr (ram s d i)) j) with p.
    cbn [and_pte]. change (has 7 PF_USER_BIT) with true. rewrite has_user. cbn [andb].
    destruct (in_stack va && negb (user p)) eqn:Hg.
    + apply andb_prop in Hg as [_ Hg]. apply negb_true_iff in Hg. rewrite Hg in Hu. exact (grow_stack_ok s ds held d va true n Hok Hd Hva Hav Hu).
    + apply kill_ok; [done|apply at_avail|]. rewrite Hu. destruct (user p); [|done]. split; [done|]. by split.
Qed.

Lemma absent_fault_ok write :
  let p := rpte s d i j in pres p = false -> plain_entry (ram s d i) p ->
  wp (absent_fault dev_ok (Some (task_of d)) (d * PAGE_SIZE) va) (fun r s' => avail n s' /\ handled s s' ds held d i j write r) s.
Proof.
  intros p Hp Hplain. destruct (Hplain Hp) as (Hsw & Hc & Hdem). destruct (rpte_ok s ds held d i j Hok at_in) as (_ & _ & Hu & _).
  fold p in Hu. rewrite Hp in Hu. cbn [andb] in Hu. unfold absent_fault. apply wp_bind, wp_pte_get, wp_bind. unfold pte_value.
  apply wp_bind, wp_rd, wp_ret. change (ram s (fr (ram s d i)) j) with p. cbn [and_pte]. unfold swap_pte_is_swapped. rewrite Hsw, andb_false_r.
  destruct (has p PAGE_DEMAND) eqn:Hdm.
  - destruct (Hdem eq_refl) as (H1 & H2 & H3 & H4). eapply wp_mono; [apply (demand_ok s ds held d i j write (S n)); try done; apply at_in|].
    cbv beta. intros r s' (_ & Ha & Hh). split; [unfold avail in *; lia|done].
  - rewrite has_cow, Hc, has_pres, Hp. cbn [negb orb]. rewrite andb_true_r. destruct (in_stack va).
    + exact (grow_stack_ok s ds held d va write n Hok Hd Hva Hav Hu).
    + apply wp_bind. unfold on_pf. apply wp_modify. pose proof (kill_ok (set_pf (add_invalid (pf s)) s) ds held d i j write n Hok at_avail) as Hk.
      apply Hk. change (upte (set_pf _ s) d i j) with (upte s d i j). by rewrite Hu.
Qed.

Lemma dispatch_ok write err :
  mmu s (d * PAGE_SIZE) va write = inr err -> plain_entry (ram s d i) (rpte s d i j) ->
  wp (fault_dispatch dev_ok (Some (task_of d)) (d * PAGE_SIZE) va err) (fun r s' => avail n s' /\ handled s s' ds held d i j write r) s.
Proof.
  intros Hm Hplain. destruct (rpte_ok s ds held d i j Hok at_in) as (Hpe & Hre & Hu & Hup & Hcow). unfold mmu in Hm. rewrite frame_page in Hm.
  fold i j in Hm. change (ram s (fr (ram s d i)) j) with (rpte s d i j) in Hm. rewrite Hpe in Hm. cbn [negb] in Hm.
  set (p := rpte s d i j) in *. destruct (pres p) eqn:Hp; cbn [negb] in Hm.
  - assert (Hr : user p && (negb write || rw p) = false).
    { destruct (user p) eqn:E; [|done]. destruct (Hup eq_refl eq_refl) as [Hue _]. rewrite Hue, Hre in Hm. cbn [andb] in *.
      by destruct (negb write || rw p). }
    destruct (user (ram s d i) && user p && _) in Hm; [done|]. injection Hm as <-. destruct write.
    + by apply write_fault_ok.
    + cbn [negb orb] in Hr. rewrite andb_true_r in Hr. rewrite Hr in Hu. cbn [andb] in Hu.
      change (Z.lor (Z.lor PF_USER_BIT 0) PF_PRESENT) with 5. unfold fault_dispatch.
      change (has 5 PF_PRESENT) with true. change (has 5 PF_WRITE) with false. change (has 5 PF_USER_BIT) with true. cbn [andb negb].
      destruct (in_stack va).
      * apply wp_bind, wp_bind, wp_pte_get. unfold pte_value. apply wp_bind, wp_rd, wp_ret. change (ram s (fr (ram s d i)) j) with p.
        cbn [and_pte]. rewrite has_user, Hr. cbn [negb]. exact (grow_stack_ok s ds held d va false n Hok Hd Hva Hav Hu).
      * apply wp_bind, wp_ret. cbn [and_pte]. apply kill_ok; [done|apply at_avail|by rewrite Hu].
  - injection Hm as <-. unfold fault_dispatch.
    assert (Hnp : has (Z.lor PF_USER_BIT (if write then PF_WRITE else 0)) PF_PRESENT = false) by by destruct write.
    rewrite Hnp. cbn [andb negb]. apply wp_bind, wp_ret. cbn [and_pte]. by apply absent_fault_ok.
Qed.
End At.

(** The processor finds a page of the process. *)
Lemma mmu_hit s ds held d va p write :
  vm_ok s ds held -> d ∈ ds -> 0 <= va < PCI_HOLE_START -> upte s d (pd_index va) (pt_index va) = Some p ->
  (write = true -> rw p = true) -> mmu s (d * PAGE_SIZE) va write = inl (fr p).
Proof.
  intros Hok Hd Hva Hu Hw. pose proof (at_in ds d va Hd Hva) as Hin. destruct (rpte_ok s ds held _ _ _ Hok Hin) as (H1 & H2 & _ & H4 & _).
  apply upte_inv in Hu as (_ & Hp & Hpp & Hpu). unfold mmu. rewrite frame_page, H1. unfold rpte in H4. rewrite <- Hp in H4 |- *.
  destruct (H4 Hpp Hpu) as [-> _]. rewrite Hpp, Hpu, H2. destruct write; [by rewrite Hw|done].
Qed.

(** A store to a writable page changes that page of that space alone. *)
Lemma page_store_ok s ds held d i j p w v :
  vm_ok s ds held -> in_ds ds (SLeaf d i j) -> upte s d i j = Some p -> rw p = true ->
  let s' := set_ram (rupd (ram s) (fr p) w v) s in
  vm_ok s' ds held /\ sv s s' ds (but d i j) /\ upte s' d i j = Some p.
Proof.
  intros Hok Hin Hu Hrw s'. pose proof Hin as (Hd & Hi & Hj). pose proof Hok as (_ & _ & _ & Hds & _).
  assert (Ho : own (pm s) (fr p)).
  { apply upte_inv in Hu as (Hp & -> & H1 & H2). destruct (Hds d Hd) as [_ [_ Hs]]. by apply (Hs i Hi Hp). }
  assert (Hne : forall g, g <> fr p -> forall k, ram s' g k = ram s g k) by (intros; by apply rupd_ne).
  assert (Htab : forall g, is_table (ram s) ds g -> forall k, ram s' g k = ram s g k).
  { intros g [Hg|(d' & i' & Hd' & Hi' & Hp' & ->)]; apply Hne; apply not_eq_sym; [by eapply leaf_not_dir|by eapply leaf_not_tab]. }
  assert (Hup : forall d' i' j', in_ds ds (SLeaf d' i' j') -> upte s' d' i' j' = upte s d' i' j').
  { intros d' i' j' (Hd' & Hi' & Hj'). unfold upte. rewrite (Htab d') by by left. destruct (priv (ram s d' i')) eqn:E; [|done].
    rewrite Htab; [done|]. right. by exists d', i'. }
  split; [|split; [|by rewrite Hup]].
  - apply vm_ok_ram; [done|]. intros g [Hg|Hg]; [by apply Htab|]. apply Hne. intros ->. apply Hg. eapply refs_pool; [done|by eapply upte_in].
  - intros d' i' j' Hin' Hb. split; [by apply Hup|]. intros q Hq k. apply Hne. intros Heq. apply Hb.
    apply upte_inv in Hu as (P1 & -> & P2 & P3). apply upte_inv in Hq as (Q1 & -> & Q2 & Q3).
    enough (SLeaf d' i' j' = SLeaf d i j) by congruence.
    eapply (site_unique s ds held _ _ _ Hok Ho); try done; cbn; rewrite ?P1, ?Q1, leaf_up by done; [rewrite <- Heq|]; apply ms_self.
Qed.

Lemma handler_ok s ds held d va n write err :
  vm_ok s ds held -> d ∈ ds -> 0 <= va < PCI_HOLE_START -> avail (S (S n)) s ->
  mmu s (d * PAGE_SIZE) va write = inr err -> plain_entry (ram s d (pd_index va)) (rpte s d (pd_index va) (pt_index va)) ->
  wp (page_fault_handler dev_ok (Some (task_of d)) va err) (fun r s' => avail n s' /\ handled s s' ds held d (pd_index va) (pt_index va) write r) s.
Proof.
  intros Hok Hd Hva Hav Hm Hp. unfold page_fault_handler, on_pf, current_page_dir. wp_steps. cbn [page_directory task_of].
  assert (Hnz : (d * PAGE_SIZE =? 0) = false) by (apply pool_nz; by eapply dir_unique). rewrite Hnz. cbn [negb].
  match goal with |- wp _ _ ?s0 => pose proof (dispatch_ok s0 ds held d va n Hok Hd Hva Hav write err Hm Hp) as Hdis end.
  eapply wp_mono; [exact Hdis|]. cbv beta.
  intros r s1 [Ha Hh]. destruct r; wp_steps; split; exact Ha || exact Hh.
Qed.

(** The words of a page as a process sees them. *)
Definition words (s : vm) (d i j w : Z) : Z := match upte s d i j with Some p => ram s (fr p) w | None => 0 end.
(** The page is there: as it was, or made writable by the handler. *)
Definition reached (s s1 : vm) (ds : list Z) (held : gmultiset Z) (d i j : Z) (write : bool) (q : Z) : Prop :=
  vm_ok s1 ds held /\ sv s s1 ds (but d i j) /\ upte s1 d i j = Some q /\ (write = true -> rw q = true) /\
  (upte s d i j = Some q \/ rw q = true) /\ forall w, ram s1 (fr q) w = words s d i j w.

Lemma access_ok s ds held d va n write act Q :
  let i := pd_index va in let j := pt_index va in
  vm_ok s ds held -> d ∈ ds -> 0 <= va < PCI_HOLE_START -> avail (S (S n)) s -> plain_entry (ram s d i) (rpte s d i j) ->
  (forall s1 q, avail n s1 -> reached s s1 ds held d i j write q -> wp (act (fr q)) (fun v => Q (Done v)) s1) ->
  (forall s1, avail n s1 -> refused s s1 ds held d i j write -> Q Dead s1) ->
  wp (user_access dev_ok 1 (task_of d) va write act) Q s.
Proof.
  cbv zeta. set (i := pd_index va). set (j := pt_index va). intros Hok Hd Hva Hav Hp Hact Hdead. cbn [user_access]. apply wp_bind, wp_gets.
  cbn [page_directory task_of]. destruct (mmu s (d * PAGE_SIZE) va write) as [f|err] eqn:Hm.
  - assert (exists p, upte s d i j = Some p /\ fr p = f /\ (write = true -> rw p = true)) as (p & Hu & <- & Hw).
    { pose proof (at_in ds d va Hd Hva) as Hin. destruct (rpte_ok s ds held _ _ _ Hok Hin) as (H1 & H2 & H3 & _).
      unfold mmu in Hm. rewrite frame_page in Hm. fold i j in Hm, H1, H2, H3. change (ram s (fr (ram s d i)) j) with (rpte s d i j) in Hm.
      rewrite H1, H2 in Hm. cbn [negb] in Hm. exists (rpte s d i j). destruct (pres (rpte s d i j)); [|done]. cbn [negb andb] in *.
      destruct (user (ram s d i)), (user (rpte s d i j)); try done. cbn [andb] in Hm. destruct write; cbn [negb orb] in Hm.
      - destruct (rw (rpte s d i j)); [|done]. by injection Hm as <-.
      - by injection Hm as <-. }
    apply wp_bind. apply Hact; [unfold avail in *; lia|]. split; [done|]. split; [apply sv_refl|]. split; [done|]. split; [done|].
    split; [by left|]. intros w. unfold words. by rewrite Hu.
  - eapply wp_use; [by apply (handler_ok s ds held d va n write)|]. cbv beta. intros r s1 [Ha Hh]. fold i j in Hh.
    destruct r; [|apply wp_ret, Hdead; done..]. destruct Hh as (Hok1 & Hsv & q & Hu & Hrw & Hc).
    apply wp_bind, wp_gets. rewrite (mmu_hit s1 ds held d va q) by done. apply wp_bind, Hact; [done|].
    split; [done|]. split; [done|]. split; [done|]. split; [done|]. split; [by right|]. exact Hc.
Qed.

Lemma user_store_ok s ds held d va n v :
  let i := pd_index va in let j := pt_index va in
  vm_ok s ds held -> d ∈ ds -> 0 <= va < PCI_HOLE_START -> avail (S (S n)) s -> plain_entry (ram s d i) (rpte s d i j) ->
  wp (user_store dev_ok (task_of d) va v) (fun r s' => avail n s' /\
    match r with
    | Done _ => vm_ok s' ds held /\ sv s s' ds (but d i j) /\
        exists q, upte s' d i j = Some q /\ rw q = true /\ forall w, ram s' (fr q) w = fupd (words s d i j) (word_of va) v w
    | Dead => refused s s' ds held d i j true
    end) s.
Proof.
  cbv zeta. set (i := pd_index va). set (j := pt_index va). intros Hok Hd Hva Hav Hp. unfold user_store.
  apply (access_ok s ds held d va n); try done. intros s1 q Ha (Hok1 & Hsv & Hu & Hw & _ & Hc). specialize (Hw eq_refl). fold i j in Hsv, Hu, Hc.
  destruct (page_store_ok s1 ds held d i j q (word_of va) v Hok1 (at_in ds d va Hd Hva) Hu Hw) as (Hok2 & Hsv2 & Hu2).
  apply wp_bind, wp_wr, wp_ret. split; [exact Ha|]. split; [done|]. split; [by eapply sv_trans|]. exists q. split; [done|]. split; [done|].
  intros w. cbn [ram set_ram]. rewrite rupd_at. unfold fupd. by rewrite <- Hc.
Qed.

Lemma user_load_ok s ds held d va n :
  let i := pd_index va in let j := pt_index va in
  vm_ok s ds held -> d ∈ ds -> 0 <= va < PCI_HOLE_START -> avail (S (S n)) s -> plain_entry (ram s d i) (rpte s d i j) ->
  wp (user_load dev_ok (task_of d) va) (fun r s' => avail n s' /\
    match r with
    | Done v => v = words s d i j (word_of va) /\ exists q, reached s s' ds held d i j false q
    | Dead => refused s s' ds held d i j false
    end) s.
Proof.
  cbv zeta. intros Hok Hd Hva Hav Hp. unfold user_load. apply (access_ok s ds held d va n); try done.
  intros s1 q Ha Hr. apply wp_rd. split; [done|]. split; [apply Hr|]. by exists q.
Qed.

Lemma new_page_ok s ds held d va n :
  let i := pd_index va in let j := pt_index va in
  vm_ok s ds held -> d ∈ ds -> 0 <= va < PCI_HOLE_START -> va mod PAGE_SIZE = 0 -> avail (S (S n)) s ->
  wp (new_page (d * PAGE_SIZE) va) (fun _ s' => vm_ok s' ds held /\ avail n s' /\ sv s s' ds (but d i j) /\
    exists v, upte s' d i j = Some v /\ rw v = true /\ forall w, ram s' (fr v) w = 0) s.
Proof.
  cbv zeta. intros Hok Hd Hva Hal Hav. unfold new_page. eapply wp_use; [by apply kalloc_ok|]. cbv beta.
  intros a s1 (f & -> & Hnz & _ & Ho & Hs1 & Hav1 & Hok1 & _). rewrite Hnz. eapply wp_mono; [by apply zero_map_ok|]. cbv beta.
  intros _ s2 (H1 & H2 & H3 & H4). split; [done|]. split; [done|]. split; [|done]. apply (sv_trans s s1); [rewrite Hs1; apply sv_pm|done].
Qed.
End Faults.

(** ** The refinement *)

Section Refine.
Context {KI : KernelImage} {KO : KernelImageOk} `{!Reclaim vm, !OomKill} (dev_ok : Z -> bool).

Lemma vm_ok_perm s ds ds' held : vm_ok s ds held -> ds ≡ₚ ds' -> vm_ok s ds' held.
Proof.
  intros (H1 & H2 & H3 & H4 & o & H5) Hp. split; [done|]. split; [by rewrite <- Hp|]. split; [done|]. split; [intros d Hd; apply H4; by rewrite Hp|].
  exists o. rewrite refs_sum in *. by rewrite <- (msum_perm ds ds').
Qed.

Lemma in_dirs sp d : d ∈ dirs sp <-> exists n, sp !! n = Some d.
Proof.
  unfold dirs. rewrite list_elem_of_fmap. split.
  - intros ([n d'] & -> & Hn). exists n. by apply elem_of_map_to_list.
  - intros [n Hn]. exists (n, d). split; [done|]. by apply elem_of_map_to_list.
Qed.
Lemma dirs_in sp n d : sp !! n = Some d -> d ∈ dirs sp.
Proof. intros Hn. apply in_dirs. by exists n. Qed.
Lemma dirs_insert sp n d : sp !! n = None -> dirs (<[n := d]> sp) ≡ₚ d :: dirs sp.
Proof. intros Hn. unfold dirs, spaces in *. by rewrite (map_to_list_insert sp n d Hn). Qed.
Lemma dirs_delete sp n d : sp !! n = Some d -> dirs sp ≡ₚ d :: dirs (delete n sp).
Proof. intros Hn. rewrite <- (insert_id sp n d Hn) at 1. rewrite <- insert_delete_eq. apply dirs_insert, lookup_delete_eq. Qed.
Lemma dirs_inj sp n n' d : NoDup (dirs sp) -> sp !! n = Some d -> sp !! n' = Some d -> n = n'.
Proof.
  intros Hnd Hn Hn'. destruct (decide (n = n')) as [|Hne]; [done|]. rewrite (dirs_delete sp n d Hn) in Hnd. apply list.NoDup_cons in Hnd as [Hd _].
  destruct Hd. apply (dirs_in _ n'). by rewrite (lookup_delete_ne sp).
Qed.

Lemma holds_every s s' sp a : holds s sp a -> sv s s' (dirs sp) every -> holds s' sp a.
Proof.
  intros Hh Hsv n d i j Hn Hi Hj. destruct (Hsv d i j) as [H1 H2]; [by split; [eapply dirs_in|]|done|]. specialize (Hh n d i j Hn Hi Hj).
  rewrite H1. unfold shows in *. destruct (upte s d i j) as [p|]; [|done]. destruct (a n i j) as [[w c]|]; [|done]. destruct Hh as [Hw Hc].
  split; [done|]. intros k. rewrite H2 by done. apply Hc.
Qed.

Lemma holds_set s s' sp a n d i j q w c :
  NoDup (dirs sp) -> holds s sp a -> sp !! n = Some d -> sv s s' (dirs sp) (but d i j) ->
  upte s' d i j = Some q -> (w = true -> rw q = true \/ cow q = true) -> (forall k, ram s' (fr q) k = c k) ->
  holds s' sp (aset a n i j (w, c)).
Proof.
  intros Hnd Hh Hn Hsv Hu Hw Hc n' d' i' j' Hn' Hi Hj. unfold aset. destruct (bool_decide_reflect ((n', i', j') = (n, i, j))) as [[= -> -> ->]|Hne].
  - replace d' with d by congruence. by rewrite Hu.
  - destruct (Hsv d' i' j') as [H1 H2]; [by split; [eapply dirs_in|]| |].
    { unfold but. intros [= -> -> ->]. apply Hne. f_equal. f_equal. by eapply dirs_inj. }
    specialize (Hh n' d' i' j' Hn' Hi Hj). rewrite H1. unfold shows in *. destruct (upte s d' i' j') as [p|]; [|done].
    destruct (a n' i' j') as [[w' c']|]; [|done]. destruct Hh as [Hw' Hc']. split; [done|]. intros k. rewrite H2 by done. apply Hc'.
Qed.

(** The words of a page that is there, and zeros for one that is not. *)
Lemma holds_words s sp a n d i j :
  holds s sp a -> sp !! n = Some d -> 0 <= i < PD_KERNEL_ENTRIES -> 0 <= j < 1024 ->
  forall w, (default zeros (a n i j)).2 w = words s d i j w.
Proof.
  intros Hh Hn Hi Hj w. specialize (Hh n d i j Hn Hi Hj). unfold words, shows in *. destruct (upte s d i j), (a n i j) as [[? c]|]; try done.
  destruct Hh as [_ Hc]. by rewrite Hc.
Qed.

(** What an operation leaves behind. *)
Definition stepped (n : nat) (held : gmultiset Z) (a : amem) (o : op) (r : spaces * result) (s' : vm) : Prop :=
  vm_ok s' (dirs r.1) held /\ avail n s' /\ exists a', astep a o r.2 = Some a' /\ holds s' r.1 a'.

Lemma exec_store_ok s sp held a m va v n :
  vm_ok s (dirs sp) held -> holds s sp a -> guard s sp (OStore m va v) -> avail (2 + n) s ->
  wp (exec dev_ok (OStore m va v) sp) (stepped n held a (OStore m va v)) s.
Proof.
  intros Hok Hh (_ & d & Hn & Hva & Hp) Hav. pose proof (dirs_in _ _ _ Hn) as Hd. cbn [exec]. apply wp_bind, (wp_lift _ d); [done|].
  pose proof (at_in (dirs sp) d va Hd Hva) as (_ & Hi & Hj). pose proof (holds_words s sp a m d _ _ Hh Hn Hi Hj) as Hwd.
  specialize (Hh m d _ _ Hn Hi Hj) as Hhp. unfold shows in Hhp.
  eapply wp_use; [by apply user_store_ok|]. cbv beta. intros r s1 [Ha Hr]. apply wp_ret. destruct r as [x|].
  - destruct Hr as (Hok1 & Hsv & q & Hu & Hrw & Hc). split; [done|]. split; [done|]. cbn [fst snd astep]. eexists. split; [done|].
    eapply holds_set; try done; [apply Hok|by left|]. intros k. rewrite Hc. unfold fupd. by rewrite Hwd.
  - destruct Hr as (Hok1 & Hsv & Hr). split; [done|]. split; [done|]. cbn [fst snd astep]. exists a. split; [|by eapply holds_every].
    destruct (a m _ _) as [[[] c]|]; try done. destruct (upte s d _ _) as [p|]; [|done]. destruct Hhp as [Hw _], Hr as (_ & H1 & H2).
    destruct (Hw eq_refl); congruence.
Qed.

Lemma exec_load_ok s sp held a m va n :
  vm_ok s (dirs sp) held -> holds s sp a -> guard s sp (OLoad m va) -> avail (2 + n) s ->
  wp (exec dev_ok (OLoad m va) sp) (stepped n held a (OLoad m va)) s.
Proof.
  intros Hok Hh (_ & d & Hn & Hva & Hp) Hav. pose proof (dirs_in _ _ _ Hn) as Hd. cbn [exec]. apply wp_bind, (wp_lift _ d); [done|].
  pose proof (at_in (dirs sp) d va Hd Hva) as (_ & Hi & Hj). pose proof (holds_words s sp a m d _ _ Hh Hn Hi Hj) as Hwd.
  specialize (Hh m d _ _ Hn Hi Hj) as Hhp. unfold shows in Hhp.
  eapply wp_use; [by apply user_load_ok|]. cbv beta. intros r s1 [Ha Hr]. apply wp_ret. destruct r as [x|].
  - destruct Hr as (-> & q & Hok1 & Hsv & Hu & _ & Hw & Hc). split; [done|]. split; [done|]. cbn [fst snd astep]. rewrite Hwd, Z.eqb_refl.
    eexists. split; [done|]. rewrite (surjective_pairing (default zeros _)). eapply holds_set; try done; [apply Hok| |by intros k; rewrite Hc, Hwd].
    destruct (upte s d _ _) as [p|], (a m _ _) as [[w c]|]; try done.
    + destruct Hw as [[= ->]|Hw]; [apply Hhp|by left].
    + destruct Hw as [|Hw]; [done|by left].
  - destruct Hr as (Hok1 & Hsv & Hr). split; [done|]. split; [done|]. cbn [fst snd astep]. exists a. split; [|by eapply holds_every].
    destruct (a m _ _) as [[w c]|]; [|done]. by destruct (upte s d _ _) as [p|]; [destruct Hr|].
Qed.

Lemma exec_page_ok s sp held a m va n :
  vm_ok s (dirs sp) held -> holds s sp a -> guard s sp (OPage m va) -> avail (2 + n) s ->
  wp (exec dev_ok (OPage m va) sp) (stepped n held a (OPage m va)) s.
Proof.
  intros Hok Hh (_ & [d Hn] & Hva & Hal) Hav. pose proof (dirs_in _ _ _ Hn) as Hd. cbn [exec]. apply wp_bind, (wp_lift _ d); [done|].
  eapply wp_use; [by apply new_page_ok|]. cbv beta. intros _ s1 (Hok1 & Ha & Hsv & v & Hu & Hrw & Hc). apply wp_ret.
  split; [done|]. split; [done|]. eexists. split; [done|]. eapply holds_set; try done; [apply Hok|by left].
Qed.

Lemma holds_insert s sp a m d ps :
  holds s sp a ->
  (forall i j, 0 <= i < PD_KERNEL_ENTRIES -> 0 <= j < 1024 ->
     shows s (upte s d i j) (ps i j)) -> sp !! m = None -> holds s (<[m := d]> sp) (anew a m ps).
Proof.
  intros Hh Hnew Hm n d' i j Hn Hi Hj. unfold anew. destruct (bool_decide_reflect (n = m)) as [->|Hne].
  - rewrite (lookup_insert_eq sp m d) in Hn. injection Hn as <-. by apply Hnew.
  - rewrite (lookup_insert_ne sp m n d) in Hn by done. by apply (Hh n).
Qed.

Lemma exec_spawn_ok s sp held a m n :
  vm_ok s (dirs sp) held -> holds s sp a -> guard s sp (OSpawn m) -> avail (1 + n) s ->
  wp (exec dev_ok (OSpawn m) sp) (stepped n held a (OSpawn m)) s.
Proof.
  intros Hok Hh (_ & Hm) Hav. cbn [exec]. eapply wp_use; [by apply space_create_ok|]. cbv beta.
  intros c s1 (d & -> & Hnz & Hnd & Hok1 & Ha & Hsv & _ & Hkd & _). rewrite Hnz. apply wp_ret. rewrite frame_page.
  unfold stepped. cbn [fst]. split; [eapply vm_ok_perm; [done|]; symmetry; by apply dirs_insert|]. split; [done|]. eexists. split; [done|]. cbn [fst].
  apply holds_insert; [by eapply holds_every| |done]. intros i j Hi _. pose proof Hok1 as (_ & _ & Hk & _).
  rewrite upte_none; [done|]. rewrite Hkd by done. by destruct (Hk i Hi) as (_ & _ & ? & _).
Qed.

Lemma exec_exit_ok s sp held a m n :
  vm_ok s (dirs sp) held -> holds s sp a -> guard s sp (OExit m) -> avail n s ->
  wp (exec dev_ok (OExit m) sp) (stepped n held a (OExit m)) s.
Proof.
  intros Hok Hh (_ & [d Hn]) Hav. cbn [exec]. apply wp_bind, (wp_lift _ d); [done|].
  eapply wp_use; [eapply (free_space_ok s (dirs (delete m sp))); [done|by apply dirs_delete]|]. cbv beta.
  intros _ s1 (Hok1 & Hram & Ha). apply wp_ret. split; [done|]. split; [by apply Ha|]. exists a. split; [done|].
  intros n' d' i j Hn' Hi Hj. cbn [fst] in Hn'. apply (lookup_delete_Some sp) in Hn' as [_ Hn']. unfold upte, shows. rewrite Hram. by apply (Hh n' d' i j).
Qed.

Lemma exec_fork_ok s sp held a m c n :
  vm_ok s (dirs sp) held -> holds s sp a -> guard s sp (OFork m c) -> avail (S (fork_need 0) + n) s ->
  wp (exec dev_ok (OFork m c) sp) (stepped n held a (OFork m c)) s.
Proof.
  intros Hok Hh (_ & [d Hn] & Hc & Hlt) Hav. cbn [exec]. apply wp_bind, (wp_lift _ d); [done|].
  eapply wp_use; [by apply (space_create_ok s (dirs sp) held (fork_need 0 + n))|]. cbv beta.
  intros x s1 (d' & -> & Hnz & Hnd & Hok1 & Ha1 & Hsv1 & Hrc1 & Hkd & _). rewrite Hnz.
  pose proof (dirs_in _ _ _ Hn) as Hd. assert (Hne : d <> d') by by intros <-.
  assert (Hpriv : forall i, 0 <= i < PD_KERNEL_ENTRIES -> priv (ram s1 d' i) = false).
  { intros i Hi. rewrite Hkd by done. pose proof Hok1 as (_ & _ & Hk & _). by destruct (Hk i Hi) as (_ & _ & ? & _). }
  assert (Hlt1 : forall f, 2 * refcounts (pm s1) f <= 2 ^ 16 - 1).
  { intros f. destruct (Z.eq_dec f d') as [->|Hf]; [|by rewrite Hrc1]. pose proof Hok1 as (_ & _ & _ & Hds & _).
    destruct (Hds d') as [_ [Ho _]]; [by left|]. rewrite Ho. lia. }
  eapply wp_use; [apply (fork_ok s1 (d' :: dirs sp) held d d' n); try done; [by right|by left]|]. cbv beta.
  intros _ s2 (Hok2 & Ha2 & Hpg & Hsv2). apply wp_ret. rewrite frame_page.
  unfold stepped. cbn [fst]. split; [eapply vm_ok_perm; [done|]; symmetry; by apply dirs_insert|]. split; [done|]. eexists. split; [done|]. cbn [fst].
  assert (Hh1 : holds s1 sp a) by by eapply holds_every.
  assert (Hpage : forall i j, 0 <= i < PD_KERNEL_ENTRIES -> mmap_pde i = false -> 0 <= j < 1024 ->
    forall y, y = d \/ y = d' -> shows s2 (upte s2 y i j) (a m i j)).
  { intros i j Hi Hm Hj y Hy. specialize (Hpg i j Hi Hm Hj). unfold page_forked in Hpg. specialize (Hh1 m d i j Hn Hi Hj). unfold shows in *.
    destruct (upte s1 d i j) as [p0|], (a m i j) as [[wr k]|]; try done.
    - destruct Hh1 as [Hw Hk], Hpg as (p1 & q & Hp1 & Hq & Hw1 & Hw2 & Hcc). destruct Hy as [-> | ->].
      + rewrite Hp1. split; [auto|]. intros w. destruct (Hcc w) as [-> _]. apply Hk.
      + rewrite Hq. split; [auto|]. intros w. destruct (Hcc w) as [_ ->]. apply Hk.
    - destruct Hpg as [H1 H2]. by destruct Hy as [-> | ->]; rewrite ?H1, ?H2. }
  apply holds_insert; [| |done].
  - intros n' e i j Hn' Hi Hj. pose proof (dirs_in _ _ _ Hn') as He. assert (He' : e <> d') by by intros ->.
    destruct (decide (e = d /\ mmap_pde i = false)) as [[-> Hm]|Hm].
    + replace n' with m by (eapply dirs_inj; [apply Hok|done|done]). apply Hpage; auto.
    + destruct (Hsv2 e i j) as [S1 S2]; [by split; [right|]|intros [[?|?] ?]; auto|]. specialize (Hh1 n' e i j Hn' Hi Hj). rewrite S1. unfold shows in *.
      destruct (upte s1 e i j) as [p|]; [|done]. destruct (a n' i j) as [[wr k]|]; [|done]. destruct Hh1 as [Hw Hk]. split; [done|].
      intros w. rewrite S2 by done. apply Hk.
  - intros i j Hi Hj. destruct (mmap_pde i) eqn:Hm; [|by apply Hpage; auto].
    destruct (Hsv2 d' i j) as [S1 _]; [by split; [left|]|intros [_ Hx]; congruence|]. by rewrite S1, upte_none by by apply Hpriv.
Qed.
Lemma exec_ok s sp held a o n :
  vm_ok s (dirs sp) held -> holds s sp a -> guard s sp o -> avail (cost o + n) s -> wp (exec dev_ok o sp) (stepped n held a o) s.
Proof.
  intros Hok Hh Hg Ha. destruct o; cbn [cost] in Ha; [by apply exec_store_ok|by apply exec_load_ok|by apply exec_page_ok|
    by apply exec_spawn_ok|by apply exec_fork_ok|by apply exec_exit_ok].
Qed.

(** Every operation finds what it needs. *)
Fixpoint guarded (os : list op) (sp : spaces) (s : vm) : Prop :=
  match os with
  | [] => True
  | o :: os => guard s sp o /\ forall s' sp' r, exec dev_ok o sp s = Some (s', (sp', r)) -> guarded os sp' s'
  end.

End Refine.
