(* ===== verification/VmmBoot.v ===== *)
(** * From boot to processes

    [init_paging] builds the identity map and with it the invariant of
    [VmmSpec.v]; a machine with memory but no processes then runs a parent and
    a child that share pages (the witness of the refinement of [VmmTrace.v]). *)
From stdpp Require Import gmultiset gmap.
From S2P Require Import Prelude StateM Pmm Vmm Swap PageFault VmmSpec VmmOps VmmFork VmmTrace.

#[local] Open Scope Z_scope.

(** The static tables are pages of the kernel image. *)
Class KernelTablesOk `{!KernelImage} : Prop :=
  kernel_tables_ok : page_tables = frame page_tables * PAGE_SIZE /\ 0 <= frame page_tables /\ frame page_tables + PD_TOTAL <= 2 ^ 20 /\
    forall i, 0 <= i < PD_TOTAL -> ~ pool (frame page_tables + i) /\ frame page_tables + i <> frame get_kernel_pd.

Section Boot.
Context {KI : KernelImage} {KO : KernelImageOk} {KT : KernelTablesOk}.

Definition kt : Z := frame page_tables.

(** The entry [init_paging] makes for page [i * 1024 + j]. *)
Definition id_entry (i j : Z) : Z :=
  let phys := u32 (u32 (i * 1024 + j) * PAGE_SIZE) in
  Z.lor (Z.lor (Z.lor phys PAGE_PRESENT) PAGE_RW) (if PCI_HOLE_START <=? phys then Z.lor PAGE_PCD PAGE_PWT else 0).

Lemma id_phys i j : 0 <= i < 1024 -> 0 <= j < 1024 -> u32 (u32 (i * 1024 + j) * PAGE_SIZE) = (i * 1024 + j) * PAGE_SIZE.
Proof. intros. unfold PAGE_SIZE. word_lia. Qed.
Lemma id_entry_ok i j : 0 <= i < 1024 -> 0 <= j < 1024 ->
  fr (id_entry i j) = i * 1024 + j /\ pres (id_entry i j) = true /\ user (id_entry i j) = false /\ cow (id_entry i j) = false.
Proof.
  intros Hi Hj. unfold id_entry. rewrite id_phys by done. assert (0 <= i * 1024 + j < 2 ^ 20) by lia.
  destruct (PCI_HOLE_START <=? _).
  - split_and!; [frs|bits..].
  - rewrite Z.lor_0_r. split_and!; [frs|bits..].
Qed.

(** The kernel's directory and its first [k] tables. *)
Definition tables_built (k : Z) (r : Z -> Z -> Z) : Prop :=
  forall i, 0 <= i < k -> r kd i = Z.lor (Z.lor ((kt + i) * PAGE_SIZE) PAGE_PRESENT) PAGE_RW /\
    forall j, 0 <= j < 1024 -> r (kt + i) j = id_entry i j.

Lemma kt_ne_kd i : 0 <= i < PD_TOTAL -> kt + i <> kd.
Proof. intros Hi. by apply KT. Qed.

Lemma init_paging_ok s :
  wp init_paging (fun _ s' => tables_built PD_TOTAL (ram s') /\ pm s' = pm s /\ cr3 s' = get_kernel_pd) s.
Proof.
  unfold init_paging. apply wp_bind.
  apply (wp_for_range (fun k s1 => tables_built k (ram s1) /\ pm s1 = pm s)); [done|split; [intros i; lia|done]| |].
  - intros k s1 Hk [Hb Hpm]. pose proof (kt_ne_kd k) as Hne. destruct KT as (Hpt & H0 & Hlt & _). cbv zeta.
    assert (Ha : page_tables + k * PAGE_SIZE = (kt + k) * PAGE_SIZE) by (rewrite Hpt at 1; unfold kt; lia). rewrite Ha.
    apply wp_bind. apply (wp_for_range (fun m s2 => tables_built k (ram s2) /\ pm s2 = pm s /\ forall j, 0 <= j < m -> ram s2 (kt + k) j = id_entry k j));
      [done|split; [done|split; [done|lia]]| |].
    + intros m s2 Hm (Hb2 & Hpm2 & Hj2). apply wp_wr. cbn [ram pm set_ram]. split; [|split; [done|]].
      * intros i Hi. rewrite !rupd_ne by (try apply not_eq_sym, Hne; lia). destruct (Hb2 i Hi) as [B1 B2]. split; [done|].
        intros j Hj. rewrite rupd_ne by lia. by apply B2.
      * intros j Hj. rewrite rupd_at. destruct (Z.eqb_spec j m) as [->|]; [done|]. apply Hj2. lia.
    + intros s2 (Hb2 & Hpm2 & Hj2). rewrite (proj1 KO). apply wp_wr. fold kd. cbn [ram pm set_ram]. split; [|done].
      intros i Hi. rewrite rupd_at. destruct (Z.eqb_spec i k) as [->|Hik].
      * split; [done|]. intros j Hj. rewrite rupd_ne by (apply Hne; lia). by apply Hj2.
      * destruct (Hb2 i) as [B1 B2]; [lia|]. split; [done|]. intros j Hj. rewrite rupd_ne by (apply kt_ne_kd; unfold PD_TOTAL in *; lia). by apply B2.
  - intros s1 [Hb Hpm]. apply wp_modify. done.
Qed.

Lemma tables_kern r : tables_built PD_TOTAL r -> kern_ok r.
Proof.
  intros Hb i Hi. change PD_KERNEL_ENTRIES with 768 in Hi. destruct (Hb i) as [-> Hj]; [unfold PD_TOTAL; lia|].
  destruct KT as (_ & H0 & Hlt & Hk). destruct (Hk i) as [Hp _]; [unfold PD_TOTAL; lia|]. fold kt in H0, Hlt, Hp. unfold PD_TOTAL in Hlt.
  assert (Hf : fr (Z.lor (Z.lor ((kt + i) * PAGE_SIZE) PAGE_PRESENT) PAGE_RW) = kt + i) by frs.
  rewrite Hf. split; [bits|]. split; [bits|]. split; [bits|]. split; [done|].
  intros j Hjr _. rewrite Hj by done. destruct (id_entry_ok i j) as (_ & _ & ? & ?); [lia|done|done].
Qed.

Lemma page_offset va : Z.lor (va / 4096 * PAGE_SIZE) (Z.land va FLAG_MASK) = va.
Proof.
  unfold PAGE_SIZE, FLAG_MASK. change 4096 with (2 ^ 12). change 4095 with (Z.ones 12).
  rewrite <- Z.shiftr_div_pow2, <- Z.shiftl_mul_pow2, <- Z.ldiff_ones_r by lia. apply Z.lor_ldiff_and.
Qed.

(** C25: [init_paging] maps every address to itself, for the kernel alone, and
    establishes the invariant of address spaces for a machine without any. *)
Theorem init_paging_identity s held :
  pmm_inv (pm s) -> (exists o, counts (pm s) (held ⊎ o)) ->
  wp init_paging (fun _ s' => vm_ok s' [] held /\ pm s' = pm s /\ cr3 s' = get_kernel_pd /\
    (forall va, 0 <= va < 2 ^ 32 -> vmm_get_phys 0 va s' = Some (s', va)) /\
    forall va write, 0 <= va < 2 ^ 32 -> exists err, mmu s' get_kernel_pd va write = inr err) s.
Proof.
  intros Hinv [o Hc]. eapply wp_mono; [apply init_paging_ok|]. cbv beta. intros _ s' (Hb & Hpm & Hcr).
  assert (Hva : forall va, 0 <= va < 2 ^ 32 -> 0 <= va / 4194304 < 1024 /\ 0 <= va / 4096 mod 1024 < 1024 /\
    pd_index va = va / 4194304 /\ pt_index va = va / 4096 mod 1024).
  { intros va Hva. unfold pd_index, pt_index. change 1023 with (Z.ones 10). rewrite !Z.land_ones, !Z.shiftr_div_pow2 by lia.
    change (2 ^ 22) with 4194304. change (2 ^ 12) with 4096. change (2 ^ 10) with 1024. change (2 ^ 32) with 4294967296 in Hva. word_lia. }
  destruct KT as (_ & H0 & Hlt & _). fold kt in H0, Hlt. unfold PD_TOTAL in Hlt.
  assert (Hent : forall i, 0 <= i < 1024 -> let e := ram s' kd i in fr e = kt + i /\ pres e = true).
  { intros i Hi. destruct (Hb i Hi) as [-> _]. split; [frs|bits]. }
  split; [|split; [done|split; [done|split]]].
  - split; [by rewrite Hpm|]. split; [constructor|]. split; [by apply tables_kern|]. split; [intros d Hd; by apply elem_of_nil in Hd|].
    exists o. rewrite Hpm. change (refs (ram s') []) with (∅ : gmultiset Z). by rewrite (left_id_L ∅ (⊎)).
  - intros va Hr. destruct (Hva va Hr) as (Hi & Hj & Hpd & Hpt). destruct (Hent _ Hi) as [He1 He2]. unfold vmm_get_phys. cbn [Z.eqb].
    rewrite Hpd, Hpt, (proj1 KO). fold kd. unfold rd, gets, mbind, M_bind. rewrite frame_page, has_pres, He2. cbn [negb]. rewrite addr_fr, frame_page, He1.
    destruct (Hb (va / 4194304) Hi) as [_ ->]; [|done]. destruct (id_entry_ok _ _ Hi Hj) as (E1 & E2 & _). rewrite has_pres, E2. cbn [negb].
    unfold mret, M_ret. do 2 f_equal. rewrite addr_fr, E1. replace (va / 4194304 * 1024 + va / 4096 mod 1024) with (va / 4096); [apply page_offset|].
    clear. word_lia.
  - intros va write Hr. destruct (Hva va Hr) as (Hi & Hj & Hpd & Hpt). unfold mmu. rewrite (proj1 KO), frame_page, Hpd. fold kd.
    destruct (Hb _ Hi) as [He _]. replace (user (ram s' kd (va / 4194304))) with false by (rewrite He; bits). cbn [andb].
    destruct (negb (pres _)); [by eexists|]. destruct (negb (pres _)); by eexists.
Qed.
End Boot.

(** ** A machine *)

(** The kernel's directory at 1 MiB and its tables at 2 MiB. *)
#[local] Instance image : KernelImage := {| get_kernel_pd := 1048576; page_tables := 2097152 |}.
#[local] Instance image_ok : KernelImageOk.
Proof. split; [done|]. unfold pool, heap_end_page. rewrite TOTAL_PAGES_eq. vm_compute. intros [H _]. by apply H. Qed.
#[local] Instance image_tables : KernelTablesOk.
Proof.
  split; [done|]. split; [done|]. split; [done|]. intros i Hi. unfold PD_TOTAL in Hi. change (frame page_tables) with 512.
  change (frame get_kernel_pd) with 256. unfold pool, heap_end_page. rewrite heap_end_eq. unfold addr_to_page, PAGE_SIZE. change (50331648 / 4096) with 12288. lia.
Qed.
#[local] Instance no_reclaim_vm : Reclaim vm := fun s => Some (s, false).
#[local] Instance no_victim : OomKill := fun s => Some (s, -1).

(** 64 MiB of memory are free at 64 MiB. *)
Definition pm0 : pmm := mk_pmm (fun b => if (2048 <=? b) && (b <? 4096) then 0 else 255) (fun _ => 0) 16384 [].
Definition vm0 : vm :=
  mk_vm (fun f j => if f =? 256 then Z.lor (Z.lor ((512 + j) * PAGE_SIZE) PAGE_PRESENT) PAGE_RW
                    else if (512 <=? f) && (f <? 1536) then id_entry (f - 512) j else 0)
    pm0 1048576 (mk_pfs 0 0 0 0 0 0 0 0) (mk_swap (fun _ => 0) 0 0 (mk_sws 0 0 0 0 0) 32 0 false) (fun _ _ => 0).

Lemma pm0_free f : page_free (bitmap pm0) f = (16384 <=? f) && (f <? 32768).
Proof.
  unfold page_free. cbn [bitmap pm0]. pose proof (Z.mod_pos_bound f 8).
  destruct (2048 <=? f / 8) eqn:E1; destruct (f / 8 <? 4096) eqn:E2; cbn [andb]; b2p.
  1: rewrite Z.bits_0; symmetry; apply andb_true_iff; split; b2p; word_lia.
  all: replace (Z.testbit 255 (f mod 8)) with true by (change 255 with (Z.ones 8); symmetry; apply Z.ones_spec_low; lia);
    symmetry; apply andb_false_iff; word_lia.
Qed.

Lemma vm0_ok : vm_ok vm0 (dirs ∅) ∅.
Proof.
  split; [|split; [|split; [|split]]].
  - split; [cbn; rewrite TOTAL_PAGES_eq; lia|]. intros i _. cbn [pm vm0]. rewrite pm0_free. intros Hi. cbn [first_available pm0].
    apply andb_prop in Hi as [Hi _]. b2p. unfold heap_end_page. rewrite heap_end_eq. unfold addr_to_page, PAGE_SIZE. word_lia.
  - apply NoDup_nil_2.
  - apply tables_kern. intros i Hi. unfold PD_TOTAL in Hi. change kd with 256. change kt with 512. split; [done|]. intros j Hj. cbn [ram vm0].
    replace (512 + i =? 256) with false by lia. replace ((512 <=? 512 + i) && (512 + i <? 1536)) with true by lia. f_equal; lia.
  - intros d Hd. by apply elem_of_nil in Hd.
  - exists ∅. split; [multiset_solver|]. intros f _. split; [done|]. done.
Qed.

Lemma vm0_avail : avail (Z.to_nat 16384) vm0.
Proof. apply (free_count_range (pm vm0) 16384 16384); [lia|lia|rewrite TOTAL_PAGES_eq; lia|]. intros f Hf. cbn [pm vm0]. rewrite pm0_free. lia. Qed.

(** A process stores a word, forks, the child stores another, the parent
    reads, the child ends. *)
Definition va0 : Z := 134217728.
Definition ops1 : list op := [OSpawn 0; OPage 0 va0; OStore 0 va0 7].
Definition ops2 : list op := [OFork 0 1; OStore 1 va0 9; OLoad 0 va0; OLoad 1 va0; OExit 1; OLoad 0 (va0 + 4)].

Definition counted (os : list op) (f : Z) : Z :=
  match exec_all (fun _ => true) os ∅ vm0 with Some (s, _) => refcounts (pm s) f | None => 0 end.

Lemma counted_ops1 : counted ops1 = fupd (fupd (fupd (fun _ => 0) 16384 1) 16385 1) 16386 1.
Proof. vm_compute. reflexivity. Qed.

(** The names in use after an operation. *)
Definition named (o : op) (sp : spaces) (k : nat) : Prop :=
  match o with
  | OSpawn n | OFork _ n => k = n \/ is_Some (sp !! k)
  | OExit n => k <> n /\ is_Some (sp !! k)
  | _ => is_Some (sp !! k)
  end.
Lemma exec_names o sp s s' sp' r a :
  exec (fun _ => true) o sp s = Some (s', (sp', r)) -> is_Some (astep a o r) -> forall k, is_Some (sp' !! k) <-> named o sp k.
Proof.
  intros Hrun [a' Ha] k. destruct o; cbn [exec] in Hrun; unfold mbind, M_bind, lift in Hrun; cbn [named];
    repeat (case_match; simplify_eq; try done); unfold mret, M_ret in *; simplify_eq; try done.
  1, 2: rewrite (lookup_insert_is_Some' sp); split; intros [->|]; auto.
  rewrite (lookup_delete_is_Some sp). split; intros [? ?]; auto.
Qed.

Lemma guarded_step os o sp s held a n :
  vm_ok s (dirs sp) held -> holds s sp a -> guard s sp o -> avail (cost o + n) s ->
  (forall s' sp' r a', exec (fun _ => true) o sp s = Some (s', (sp', r)) -> vm_ok s' (dirs sp') held -> avail n s' ->
     astep a o r = Some a' -> holds s' sp' a' -> (forall k, is_Some (sp' !! k) <-> named o sp k) -> guarded (fun _ => true) os sp' s') ->
  guarded (fun _ => true) (o :: os) sp s.
Proof.
  intros Hok Hh Hg Ha Hnext. split; [done|]. intros s' sp' r Hrun. pose proof (exec_ok (fun _ => true) s sp held a o n Hok Hh Hg Ha) as Hx.
  unfold wp in Hx. rewrite Hrun in Hx. destruct Hx as (H1 & H2 & a' & H3 & H4). apply (Hnext s' sp' r a'); try done.
  eapply exec_names; [done|by eexists].
Qed.

Lemma holds_plain s sp a n d i j :
  holds s sp a -> sp !! n = Some d -> 0 <= i < PD_KERNEL_ENTRIES -> 0 <= j < 1024 -> a n i j <> None ->
  plain_entry (ram s d i) (ram s (fr (ram s d i)) j).
Proof.
  intros Hh Hn Hi Hj Ha Hp. specialize (Hh n d i j Hn Hi Hj). unfold shows, upte in Hh. rewrite Hp in Hh. cbn [andb] in Hh.
  by destruct (priv _), (a n i j).
Qed.

(** An access to a page that is there finds what it needs. *)
Lemma access_guard s sp a n va :
  holds s sp a -> is_Some (sp !! n) -> 0 <= va < PCI_HOLE_START -> a n (pd_index va) (pt_index va) <> None ->
  exists d, sp !! n = Some d /\ 0 <= va < PCI_HOLE_START /\ plain_entry (ram s d (pd_index va)) (ram s (fr (ram s d (pd_index va))) (pt_index va)).
Proof.
  intros Hh [d Hn] Hva Ha. exists d. split; [done|]. split; [done|]. eapply holds_plain; [done|done|by apply pd_index_range|apply pt_index_range|done].
Qed.

Ltac pages := unfold avail in *; cbn [cost] in *; lia.
(** One operation, [n] pages are left after it. *)
Ltac trace_step n :=
  let s := fresh "s" in let sp := fresh "sp" in let r := fresh "r" in let a := fresh "a" in let E := fresh "E" in
  let Hok := fresh "Hok" in let Ha := fresh "Ha" in let A := fresh "A" in let Hh := fresh "Hh" in let N := fresh "N" in
  eapply (guarded_step _ _ _ _ _ _ n); [eassumption|eassumption|split; [pages|]|pages|
    intros s sp r a E Hok Ha A Hh N; destruct r; [cbn [astep] in A; try (destruct (_ =? _) in A; [|discriminate A]); injection A as <-|try done]].

Lemma ops_guarded s :
  vm_ok s (dirs ∅) ∅ -> avail (fork_need 0 + 101) s ->
  (forall s' sp rs, exec_all (fun _ => true) ops1 ∅ s = Some (s', (sp, rs)) -> forall f, refcounts (pm s') f <= 1) ->
  guarded (fun _ => true) (ops1 ++ ops2) ∅ s.
Proof.
  intros Hok0 Hav0 Hrc.
  assert (Hh0 : holds s ∅ (fun _ _ _ => None)) by (intros ? ? ? ? Hx; done). cbn [app ops1].
  trace_step (fork_need 0 + 100)%nat; [done|].
  trace_step (fork_need 0 + 90)%nat; [split; [apply N; by left|done]|].
  trace_step (fork_need 0 + 80)%nat; [eapply access_guard; [eassumption|by apply N0, N; left|done|done]|].
  trace_step 70%nat.
  { split; [by apply N1, N0, N; left|]. split; [apply eq_None_not_Some; by intros [Hx|Hx]%N1%N0%N; [|destruct Hx]|].
    intros f. enough (refcounts (pm s2) f <= 1) by lia. eapply Hrc. cbn [exec_all ops1]. unfold mbind, M_bind. rewrite E, E0, E1. done. }
  trace_step 60%nat; [eapply access_guard; [eassumption|by apply N2; left|done|done]|].
  assert (N4 : is_Some (sp3 !! 0%nat)) by (apply N3, N2; right; by apply N1, N0, N; left).
  trace_step 50%nat; [eapply access_guard; [eassumption|done|done|done]|].
  trace_step 40%nat; [eapply access_guard; [eassumption|by apply N5, N3, N2; left|done|done]|].
  trace_step 40%nat; [by apply N6, N5, N3, N2; left|].
  trace_step 30%nat; [eapply access_guard; [eassumption|by apply N7; split; [|apply N6, N5]|done|done]|]. done.
Qed.

Lemma vm0_counted s' sp rs : exec_all (fun _ => true) ops1 ∅ vm0 = Some (s', (sp, rs)) -> forall f, refcounts (pm s') f <= 1.
Proof.
  intros Hrun f. assert (Hc : counted ops1 f = refcounts (pm s') f) by (unfold counted; by rewrite Hrun).
  rewrite <- Hc, counted_ops1. clear. unfold fupd. case_ifs; lia.
Qed.
Lemma vm0_avail_ops : avail (fork_need 0 + 101) vm0.
Proof.
  pose proof vm0_avail as Ha. unfold avail in *. replace (fork_need 0) with (Z.to_nat 4356) by (vm_compute; reflexivity). lia.
Qed.
Lemma vm0_holds : holds vm0 ∅ (fun _ _ _ => None).
Proof. by intros ? ? ? ? ?. Qed.


(** A page mapped read-only: a store of the process, then after a fork a store
    of the child and one of the process. *)
Definition ro_stores : M vm (list result) :=
  d ← vmm_create_address_space;
  p ← kalloc_vm;
  vmm_map d va0 p (Z.lor PAGE_PRESENT PAGE_USER) ;;
  r1 ← user_store (fun _ => true) (mk_task 0 1 d) va0 7;
  c ← vmm_create_address_space;
  vmm_fork_address_space d c ;;
  r2 ← user_store (fun _ => true) (mk_task 0 2 c) va0 8;
  r3 ← user_store (fun _ => true) (mk_task 0 1 d) va0 9;
  mret [r1; r2; r3].

