(* ===== verification/Memfd.v ===== *)
(** * Memory files

    Model of [kernel/memory/rust_mm/src/process/memfd.rs]: a table of objects
    whose pages are frames of the page allocator.  The state is the memory of
    [Vmm.v] with the table; the lock and the lazy initialisation of the lock
    are not modelled, since an operation runs under it from beginning to end.
    Caller's buffers are lists of bytes. *)
From stdpp Require Import gmultiset.
From S2P Require Import Prelude StateM Pmm Vmm VmmSpec VmmOps.

#[local] Open Scope Z_scope.

Definition MEMFD_MAX : Z := 32.
Definition MEMFD_MAX_PAGES : Z := 1024.
Definition MEMFD_NAME_MAX : Z := 128.

Record MemFd := mk_memfd {
  mf_name : Z -> Z; mf_name_len : Z; mf_size : Z; mf_num_pages : Z; mf_pages : Z -> Z;
  mf_flags : Z; mf_fds : Z; mf_maps : Z; mf_valid : Z
}.

Definition set_pages (n : Z) (p : Z -> Z) (f : MemFd) : MemFd :=
  mk_memfd (mf_name f) (mf_name_len f) (mf_size f) n p (mf_flags f) (mf_fds f) (mf_maps f) (mf_valid f).
Definition set_size (n : Z) (f : MemFd) : MemFd :=
  mk_memfd (mf_name f) (mf_name_len f) n (mf_num_pages f) (mf_pages f) (mf_flags f) (mf_fds f) (mf_maps f) (mf_valid f).
Definition set_refs (fds maps : Z) (f : MemFd) : MemFd :=
  mk_memfd (mf_name f) (mf_name_len f) (mf_size f) (mf_num_pages f) (mf_pages f) (mf_flags f) fds maps (mf_valid f).

(** Memory and the table; slots are numbered from 0. *)
Record mfs := mk_mfs { mv : vm; mtab : Z -> MemFd }.

Definition vmdo {A} (m : M vm A) : M mfs A := fun s =>
  match m (mv s) with Some (v, a) => Some (mk_mfs v (mtab s), a) | None => None end.
Definition get_fd (slot : Z) : M mfs MemFd := gets (fun s => mtab s slot).
Definition put_fd (slot : Z) (f : MemFd) : M mfs unit :=
  modify (fun s => mk_mfs (mv s) (fun i => if i =? slot then f else mtab s i)).
Definition on_fd (slot : Z) (g : MemFd -> MemFd) : M mfs unit := f ← get_fd slot; put_fd slot (g f).

(** Bytes of memory. *)
Definition byte_of (w k : Z) : Z := Z.land (Z.shiftr w (8 * k)) 255.
Definition put_byte (w k v : Z) : Z :=
  Z.lor (Z.land w (Z.lnot (Z.shiftl 255 (8 * k)))) (Z.shiftl v (8 * k)).
Definition ram_byte (s : vm) (a : Z) : Z := byte_of (ram s (frame a) (a mod PAGE_SIZE / 4)) (a mod 4).
Definition st8 (a v : Z) : M vm unit :=
  modify (fun s => set_ram (rupd (ram s) (frame a) (a mod PAGE_SIZE / 4)
                     (put_byte (ram s (frame a) (a mod PAGE_SIZE / 4)) (a mod 4) v)) s).

Definition handle_valid (h : Z) : M mfs bool :=
  gets (fun s => (1 <=? h) && (h <=? MEMFD_MAX) && negb (mf_valid (mtab s (h - 1)) =? 0)).

Definition ceil_pages (bytes : Z) : Z := u32 (bytes + PAGE_SIZE - 1) / PAGE_SIZE.

Section Memfd.
Context `{!Reclaim vm}.

(** [for i in i..i + n] of the frames to add; on failure those added since
    [start] are released. *)
Fixpoint grow_loop (n : nat) (slot start i : Z) : M mfs bool :=
  match n with
  | O => mret true
  | S n =>
      p ← vmdo kalloc_vm;
      if p =? 0 then
        for_each (seqZ start (i - start)) (fun j =>
          f ← get_fd slot;
          vmdo (free_pg (mf_pages f j)) ;;
          put_fd slot (set_pages (mf_num_pages f) (fupd (mf_pages f) j 0) f)) ;;
        mret false
      else
        vmdo (zero_page p) ;;
        on_fd slot (fun f => set_pages (mf_num_pages f) (fupd (mf_pages f) i p) f) ;;
        grow_loop n slot start (i + 1)
  end.

Definition grow_locked (slot need_pages : Z) : M mfs bool :=
  s ← get_fd slot;
  if need_pages <=? mf_num_pages s then mret true
  else if MEMFD_MAX_PAGES <? need_pages then mret false
  else
    let start := mf_num_pages s in
    ok ← grow_loop (Z.to_nat (need_pages - start)) slot start start;
    if negb ok then mret false
    else on_fd slot (fun f => set_pages need_pages (mf_pages f) f) ;; mret true.

Definition maybe_free_locked (slot : Z) : M mfs unit :=
  s ← get_fd slot;
  if (mf_valid s =? 0) || negb (mf_fds s =? 0) || negb (mf_maps s =? 0) then skip
  else
    for_each (seqZ 0 (mf_num_pages s)) (fun i =>
      f ← get_fd slot;
      if negb (mf_pages f i =? 0) then
        vmdo (free_pg (mf_pages f i)) ;;
        put_fd slot (set_pages (mf_num_pages f) (fupd (mf_pages f) i 0) f)
      else skip) ;;
    on_fd slot (fun f => mk_memfd (mf_name f) 0 0 0 (mf_pages f) 0 (mf_fds f) (mf_maps f) 0).

(** The first slot of [i..i + n] that is not in use, or [MEMFD_MAX]. *)
Fixpoint free_memfd (n : nat) (i : Z) (t : Z -> MemFd) : Z :=
  match n with O => MEMFD_MAX | S n => if mf_valid (t i) =? 0 then i else free_memfd n (i + 1) t end.

(** The name buffer after the copy of [len] bytes of [name]. *)
Definition name_bytes (name : option (list Z)) (len : Z) (old : Z -> Z) : Z -> Z :=
  let b := fupd old 0 0 in
  let b := match name with
           | Some l => if 0 <? len then fun i => if (0 <=? i) && (i <? len) then nth (Z.to_nat i) l 0 else b i else b
           | None => b
           end in
  fupd b len 0.

Definition memfd_create (name : option (list Z)) (name_len flags : Z) : M mfs Z :=
  slot ← gets (fun s => free_memfd (Z.to_nat MEMFD_MAX) 0 (mtab s));
  if slot =? MEMFD_MAX then mret (-1)
  else
    let len := Z.min name_len (MEMFD_NAME_MAX - 1) in
    on_fd slot (fun f => mk_memfd (name_bytes name len (mf_name f)) len 0 0 (mf_pages f) (u32 flags) 0 0 1) ;;
    mret (slot + 1).

Definition memfd_ref (handle : Z) : M mfs Z :=
  ok ← handle_valid handle;
  if negb ok then mret (-1)
  else on_fd (handle - 1) (fun f => set_refs (i32 (mf_fds f + 1)) (mf_maps f) f) ;; mret handle.

Definition memfd_close (handle : Z) : M mfs Z :=
  ok ← handle_valid handle;
  if negb ok then mret (-1)
  else
    on_fd (handle - 1) (fun f => if 0 <? mf_fds f then set_refs (mf_fds f - 1) (mf_maps f) f else f) ;;
    maybe_free_locked (handle - 1) ;;
    mret 0.

Definition memfd_map_inc (handle : Z) : M mfs Z :=
  ok ← handle_valid handle;
  if negb ok then mret (-1)
  else on_fd (handle - 1) (fun f => set_refs (mf_fds f) (i32 (mf_maps f + 1)) f) ;; mret 0.

Definition memfd_map_dec (handle : Z) : M mfs Z :=
  ok ← handle_valid handle;
  if negb ok then mret (-1)
  else
    on_fd (handle - 1) (fun f => if 0 <? mf_maps f then set_refs (mf_fds f) (mf_maps f - 1) f else f) ;;
    maybe_free_locked (handle - 1) ;;
    mret 0.

Definition memfd_size (handle : Z) : M mfs Z :=
  ok ← handle_valid handle;
  if ok : bool then f ← get_fd (handle - 1); mret (i32 (mf_size f)) else mret (-1).

Definition memfd_grow_to (handle en : Z) : M mfs Z :=
  ok ← handle_valid handle;
  if negb ok then mret (-1)
  else
    ok ← grow_locked (handle - 1) (ceil_pages en);
    if negb ok then mret (-1)
    else on_fd (handle - 1) (fun f => if mf_size f <? en then set_size en f else f) ;; mret 0.

Definition memfd_get_page (handle idx : Z) : M mfs Z :=
  ok ← handle_valid handle;
  if negb ok then mret 0
  else f ← get_fd (handle - 1); mret (if idx <? mf_num_pages f then mf_pages f idx else 0).

(** [s.pages[i]] *)
Definition page_at (f : MemFd) (i : Z) : M mfs Z := if i <? MEMFD_MAX_PAGES then mret (mf_pages f i) else fail.

(** [while copied < n]: the bytes read from [pos] on. *)
Fixpoint read_loop (fuel : nat) (f : MemFd) (n copied pos : Z) : M mfs (list Z) :=
  if copied <? n then
    match fuel with
    | O => fail
    | S fuel =>
        let in_page := pos mod PAGE_SIZE in
        let chunk := Z.min (n - copied) (PAGE_SIZE - in_page) in
        page ← page_at f (pos / PAGE_SIZE);
        l ← gets (fun s => ram_byte (mv s) <$> seqZ (page + in_page) chunk);
        r ← read_loop fuel f n (copied + chunk) (u32 (pos + chunk));
        mret (l ++ r)
    end
  else mret [].

(** The result and the bytes put into the buffer; [buf] tells whether there
    is one. *)
Definition memfd_read (handle off : Z) (buf : bool) (size : Z) : M mfs (Z * list Z) :=
  if size =? 0 then mret (0, [])
  else if negb buf then mret (-1, [])
  else
    ok ← handle_valid handle;
    if negb ok then mret (-1, [])
    else
      s ← get_fd (handle - 1);
      if mf_size s <=? off then mret (0, [])
      else
        let n := if (mf_size s <? u32 (off + size)) || (u32 (off + size) <? off) then mf_size s - off else size in
        l ← read_loop (Z.to_nat (n / PAGE_SIZE + 2)) s n 0 off;
        mret (i32 n, l).

(** [while written < size] *)
Fixpoint write_loop (fuel : nat) (f : MemFd) (buf : list Z) (size written pos : Z) : M mfs unit :=
  if written <? size then
    match fuel with
    | O => fail
    | S fuel =>
        let in_page := pos mod PAGE_SIZE in
        let chunk := Z.min (size - written) (PAGE_SIZE - in_page) in
        page ← page_at f (pos / PAGE_SIZE);
        for_each (seqZ 0 chunk) (fun k => vmdo (st8 (page + in_page + k) (nth (Z.to_nat (written + k)) buf 0))) ;;
        write_loop fuel f buf size (written + chunk) (u32 (pos + chunk))
    end
  else skip.

(** [buf] has [size] bytes. *)
Definition memfd_write (handle off : Z) (buf : option (list Z)) (size : Z) : M mfs Z :=
  if size =? 0 then mret 0
  else
    match buf with
    | None => mret (-1)
    | Some buf =>
        ok ← handle_valid handle;
        if negb ok then mret (-1)
        else
          let en := sat_add off size in
          if (en <? off) || (MEMFD_MAX_PAGES * PAGE_SIZE <? en) then mret (-1)
          else
            ok ← grow_locked (handle - 1) (ceil_pages en);
            if negb ok then mret (-1)
            else
              on_fd (handle - 1) (fun f => if mf_size f <? en then set_size en f else f) ;;
              s ← get_fd (handle - 1);
              write_loop (Z.to_nat (size / PAGE_SIZE + 2)) s buf size 0 off ;;
              mret (i32 size)
    end.

Definition memfd_truncate (handle new_size : Z) : M mfs Z :=
  if MEMFD_MAX_PAGES * PAGE_SIZE <? new_size then mret (-1)
  else
    ok ← handle_valid handle;
    if negb ok then mret (-1)
    else
      s ← get_fd (handle - 1);
      ok ← (if mf_size s <? new_size then grow_locked (handle - 1) (ceil_pages new_size) else mret true);
      if negb ok then mret (-1) else on_fd (handle - 1) (set_size new_size) ;; mret 0.
End Memfd.

(** ** Bytes *)

Lemma byte_range w k : 0 <= byte_of w k < 256.
Proof. unfold byte_of. change 255 with (Z.ones 8). rewrite Z.land_ones by lia. apply Z.mod_pos_bound. lia. Qed.

Lemma byte_put w k k' v : 0 <= k < 4 -> 0 <= k' < 4 -> 0 <= v < 256 ->
  byte_of (put_byte w k v) k' = if k' =? k then v else byte_of w k'.
Proof.
  intros Hk Hk' Hv. apply Z.bits_inj'. intros n Hn. unfold byte_of, put_byte. change 255 with (Z.ones 8).
  rewrite Z.land_spec, Z.shiftr_spec, Z.lor_spec, Z.land_spec, Z.lnot_spec by lia.
  destruct (Z.lt_ge_cases n 8) as [H8|H8].
  2: { rewrite (Z.ones_spec_high 8 n), andb_false_r by lia. symmetry. destruct (Z.eqb_spec k' k).
    - destruct (Z.eq_dec v 0) as [->|]; [apply Z.bits_0|]. apply Z.bits_above_log2; [lia|]. apply Z.log2_lt_pow2; [lia|].
      apply Z.lt_le_trans with (2 ^ 8); [lia|]. apply Z.pow_le_mono_r; lia.
    - by rewrite Z.land_spec, (Z.ones_spec_high 8 n), andb_false_r by lia. }
  rewrite (Z.ones_spec_low 8 n), andb_true_r by lia.
  destruct (Z.eqb_spec k' k) as [->|Hne].
  - rewrite !Z.shiftl_spec by lia. replace (n + 8 * k - 8 * k) with n by lia. rewrite Z.ones_spec_low by lia. cbn. by rewrite andb_false_r.
  - rewrite Z.land_spec, Z.shiftr_spec, (Z.ones_spec_low 8 n), andb_true_r by lia. destruct (Z.lt_ge_cases k' k).
    + rewrite !Z.shiftl_spec_low by lia. cbn. by rewrite andb_true_r, orb_false_r.
    + rewrite !Z.shiftl_spec, Z.ones_spec_high by lia. cbn. rewrite andb_true_r.
      replace (Z.testbit v (n + 8 * k' - 8 * k)) with false; [apply orb_false_r|]. symmetry.
      destruct (Z.eq_dec v 0) as [->|]; [apply Z.bits_0|]. apply Z.bits_above_log2; [lia|]. apply Z.log2_lt_pow2; [lia|].
      apply Z.lt_le_trans with (2 ^ 8); [lia|]. apply Z.pow_le_mono_r; lia.
Qed.

Lemma addr_split a b : frame a = frame b -> a mod PAGE_SIZE / 4 = b mod PAGE_SIZE / 4 -> a mod 4 = b mod 4 -> a = b.
Proof. unfold frame, PAGE_SIZE. intros. word_lia. Qed.

Lemma st8_byte s a v b : 0 <= v < 256 ->
  ram_byte (set_ram (rupd (ram s) (frame a) (a mod PAGE_SIZE / 4) (put_byte (ram s (frame a) (a mod PAGE_SIZE / 4)) (a mod 4) v)) s) b =
  if b =? a then v else ram_byte s b.
Proof.
  intros Hv. unfold ram_byte. cbn [ram set_ram]. unfold rupd. pose proof (Z.mod_pos_bound a 4). pose proof (Z.mod_pos_bound b 4).
  destruct (Z.eqb_spec (frame b) (frame a)) as [E1|E1]; cbn [andb]; [destruct (Z.eqb_spec (b mod PAGE_SIZE / 4) (a mod PAGE_SIZE / 4)) as [E2|E2]|].
  - rewrite byte_put by lia. destruct (Z.eqb_spec (b mod 4) (a mod 4)) as [E3|E3].
    + rewrite (addr_split b a) by done. by rewrite Z.eqb_refl.
    + destruct (Z.eqb_spec b a) as [->|]; [done|]. by rewrite E1, E2.
  - destruct (Z.eqb_spec b a) as [->|]; [done|]. done.
  - destruct (Z.eqb_spec b a) as [->|]; [done|]. done.
Qed.

(** ** The invariant *)

Definition pages_refs (f : MemFd) (n : Z) : gmultiset Z := msum (seqZ 0 n) (fun i => {[+ frame (mf_pages f i) +]}).
Definition slot_refs (f : MemFd) : gmultiset Z := if mf_valid f =? 0 then ∅ else pages_refs f (mf_num_pages f).
Definition fd_refs (t : Z -> MemFd) : gmultiset Z := msum (seqZ 0 MEMFD_MAX) (fun k => slot_refs (t k)).

(** The pages of an object are frames it has for itself. *)
Definition page_ok (p : pmm) (a : Z) : Prop := a = frame a * PAGE_SIZE /\ own p (frame a).
Definition fd_ok (p : pmm) (f : MemFd) : Prop :=
  0 <= mf_num_pages f <= MEMFD_MAX_PAGES /\ 0 <= mf_size f <= mf_num_pages f * PAGE_SIZE /\
  forall i, 0 <= i < mf_num_pages f -> page_ok p (mf_pages f i).

Definition fd_addr (f : MemFd) (pos : Z) : Z := mf_pages f (pos / PAGE_SIZE) + pos mod PAGE_SIZE.

Section MemOk.
Context {KI : KernelImage} {KO : KernelImageOk}.

Definition mem_ok (s : mfs) (ds : list Z) (held : gmultiset Z) : Prop :=
  vm_ok (mv s) ds (fd_refs (mtab s) ⊎ held) /\
  forall k, 0 <= k < MEMFD_MAX -> mf_valid (mtab s k) <> 0 -> fd_ok (pm (mv s)) (mtab s k).

Definition tput (t : Z -> MemFd) (k : Z) (f : MemFd) : Z -> MemFd := fun i => if i =? k then f else t i.
Lemma tput_at t k f : tput t k f k = f.
Proof. unfold tput. by rewrite Z.eqb_refl. Qed.
Lemma tput_ne t k f i : i <> k -> tput t k f i = t i.
Proof. intros Hi. unfold tput. by rewrite (proj2 (Z.eqb_neq i k)). Qed.

Lemma fd_refs_put t k f : 0 <= k < MEMFD_MAX -> fd_refs (tput t k f) ⊎ slot_refs (t k) = fd_refs t ⊎ slot_refs f.
Proof.
  intros Hk. unfold fd_refs. pose proof (msum_upd (seqZ 0 MEMFD_MAX) (fun i => slot_refs (t i)) (fun i => slot_refs (tput t k f i)) k) as Hu.
  cbv beta in Hu. rewrite tput_at in Hu. apply Hu; [apply NoDup_seqZ|apply elem_of_seqZ; unfold MEMFD_MAX in *; lia|].
  intros y _ Hy. by rewrite tput_ne.
Qed.
Lemma fd_refs_same t k f : 0 <= k < MEMFD_MAX -> slot_refs f = slot_refs (t k) -> fd_refs (tput t k f) = fd_refs t.
Proof. intros Hk Hf. pose proof (fd_refs_put t k f Hk) as Hu. rewrite Hf in Hu. clear -Hu. mult_eq. Qed.

Lemma in_fd_refs t k i :
  0 <= k < MEMFD_MAX -> mf_valid (t k) <> 0 -> 0 <= i < mf_num_pages (t k) -> frame (mf_pages (t k) i) ∈ fd_refs t.
Proof.
  intros Hk Hv Hi. unfold fd_refs. apply elem_of_msum. exists k. split; [apply elem_of_seqZ; lia|]. unfold slot_refs.
  rewrite (proj2 (Z.eqb_neq _ 0) Hv). apply elem_of_msum. exists i. split; [apply elem_of_seqZ; lia|apply ms_self].
Qed.

(** Two pages of objects that have the same frame are the same page. *)
Lemma fd_pages_inj s ds held k i k' i' :
  mem_ok s ds held -> 0 <= k < MEMFD_MAX -> 0 <= k' < MEMFD_MAX -> mf_valid (mtab s k) <> 0 -> mf_valid (mtab s k') <> 0 ->
  0 <= i < mf_num_pages (mtab s k) -> 0 <= i' < mf_num_pages (mtab s k') ->
  frame (mf_pages (mtab s k) i) = frame (mf_pages (mtab s k') i') -> k = k' /\ i = i'.
Proof.
  intros [Hok Hfd] Hk Hk' Hv Hv' Hi Hi' Heq. set (g := frame (mf_pages (mtab s k) i)) in *.
  destruct (Hfd k Hk Hv) as (_ & _ & Hp). destruct (Hp i Hi) as [_ Ho]. fold g in Ho.
  assert (Hpool : pool g) by (eapply held_pool; [done|apply ms_l, in_fd_refs; done]).
  pose proof (own_mult _ _ _ g Hok Ho Hpool) as Hm. rewrite multiplicity_disj_union in Hm.
  assert (Hs : forall j, 0 <= j < MEMFD_MAX -> mf_valid (mtab s j) <> 0 -> slot_refs (mtab s j) = pages_refs (mtab s j) (mf_num_pages (mtab s j))).
  { intros j _ Hj. unfold slot_refs. by rewrite (proj2 (Z.eqb_neq _ 0) Hj). }
  assert (Hin : forall j x, 0 <= x < mf_num_pages (mtab s j) -> frame (mf_pages (mtab s j) x) ∈ pages_refs (mtab s j) (mf_num_pages (mtab s j))).
  { intros j x Hx. apply elem_of_msum. exists x. split; [apply elem_of_seqZ; lia|apply ms_self]. }
  destruct (Z.eq_dec k k') as [<-|Hne].
  - split; [done|]. destruct (Z.eq_dec i i') as [|Hni]; [done|]. exfalso.
    pose proof (msum_le (seqZ 0 MEMFD_MAX) (fun k => slot_refs (mtab s k)) k g (NoDup_seqZ _ _)) as H1.
    cbv beta in H1. rewrite Hs in H1 by done. pose proof (msum_two (seqZ 0 (mf_num_pages (mtab s k))) (fun i => {[+ frame (mf_pages (mtab s k) i) +]}) i i' g (NoDup_seqZ _ _)) as H2.
    assert (Hke : k ∈ seqZ 0 MEMFD_MAX) by (apply elem_of_seqZ; lia). specialize (H1 Hke).
    unfold fd_refs in Hm. unfold pages_refs in H1. enough (2 <= multiplicity g (msum (seqZ 0 (mf_num_pages (mtab s k))) (fun i => {[+ frame (mf_pages (mtab s k) i) +]})))%nat by lia.
    apply H2; [apply elem_of_seqZ; lia|apply elem_of_seqZ; lia|done|apply ms_self|rewrite <- Heq; apply ms_self].
  - exfalso. pose proof (msum_two (seqZ 0 MEMFD_MAX) (fun k => slot_refs (mtab s k)) k k' g (NoDup_seqZ _ _)) as H2.
    enough (2 <= multiplicity g (fd_refs (mtab s)))%nat by lia.
    apply H2; cbv beta; [apply elem_of_seqZ; lia|apply elem_of_seqZ; lia|done|rewrite Hs by done; by apply Hin|rewrite Hs by done; rewrite Heq; by apply Hin].
Qed.

(** ** The abstract files *)

Record afd := mk_afd { af_fds : Z; af_maps : Z; af_size : Z; af_bytes : Z -> Z }.

Definition shows_fd (v : vm) (f : MemFd) (o : option afd) : Prop :=
  match o with
  | None => mf_valid f = 0
  | Some a => mf_valid f <> 0 /\ mf_fds f = af_fds a /\ mf_maps f = af_maps a /\ mf_size f = af_size a /\
      forall pos, 0 <= pos -> (pos < mf_num_pages f * PAGE_SIZE -> ram_byte v (fd_addr f pos) = af_bytes a pos) /\
                              (mf_num_pages f * PAGE_SIZE <= pos -> af_bytes a pos = 0)
  end.
Definition mem_shows (s : mfs) (a : Z -> option afd) : Prop :=
  forall k, 0 <= k < MEMFD_MAX -> shows_fd (mv s) (mtab s k) (a k).

Lemma wp_vmdo {A} (m : M vm A) Q s : wp m (fun a v => Q a (mk_mfs v (mtab s))) (mv s) -> wp (vmdo m) Q s.
Proof. unfold wp, vmdo. by destruct (m (mv s)) as [[v a]|]. Qed.
Lemma wp_get_fd k Q s : Q (mtab s k) s -> wp (get_fd k) Q s.
Proof. done. Qed.
Lemma wp_on_fd k g Q s : Q tt (mk_mfs (mv s) (tput (mtab s) k (g (mtab s k)))) -> wp (on_fd k g) Q s.
Proof. done. Qed.

(** Memory the allocator counts as in use stays the same. *)
Definition ram_keep (s s' : vm) : Prop := forall g, 0 < refcounts (pm s) g -> forall w, ram s' g w = ram s g w.

Lemma fr_addr g x : 0 <= x < PAGE_SIZE -> frame (g * PAGE_SIZE + x) = g /\ (g * PAGE_SIZE + x) mod PAGE_SIZE = x.
Proof.
  unfold frame, PAGE_SIZE. intros Hx. rewrite Z.add_comm, Z.div_add, Z.mod_add, Z.div_small, Z.mod_small by lia. lia.
Qed.

Lemma ram_byte_keep s s' a : (forall w, ram s' (frame a) w = ram s (frame a) w) -> ram_byte s' a = ram_byte s a.
Proof. intros H. unfold ram_byte. by rewrite H. Qed.

Section Ops.
Context `{!Reclaim vm}.

(** The state while frames are added to object [k]: those from [start] to [i]
    are zeroed and held. *)
Definition growing (s0 : mfs) (ds : list Z) (held : gmultiset Z) (k start i : Z) (s : mfs) : Prop :=
  exists p, mtab s k = set_pages (mf_num_pages (mtab s0 k)) p (mtab s0 k) /\ (forall x, x <> k -> mtab s x = mtab s0 x) /\
    (forall j, j < start -> p j = mf_pages (mtab s0 k) j) /\
    (forall j, start <= j < i -> page_ok (pm (mv s)) (p j) /\ forall w, ram (mv s) (frame (p j)) w = 0) /\
    vm_ok (mv s) ds (msum (seqZ start (i - start)) (fun j => {[+ frame (p j) +]}) ⊎ held) /\
    ram_keep (mv s0) (mv s) /\ rc_keep (mv s0) (mv s) /\ sv (mv s0) (mv s) ds every.

Lemma msum_last a i (g : Z -> gmultiset Z) : a <= i -> msum (seqZ a (i + 1 - a)) g = msum (seqZ a (i - a)) g ⊎ g i.
Proof.
  intros Hi. replace (i + 1 - a) with (i - a + 1) by lia. rewrite seqZ_app, msum_app by lia. f_equal. rewrite seqZ_cons by lia.
  cbn [msum]. replace (a + (i - a)) with i by lia. change (Z.pred 1) with 0. cbn [msum seqZ]. apply (right_id_L ∅ (⊎)).
Qed.

Lemma msum_cut a n (g : Z -> gmultiset Z) : 0 <= a <= n -> msum (seqZ 0 n) g = msum (seqZ 0 a) g ⊎ msum (seqZ a (n - a)) g.
Proof. intros H. replace n with (a + (n - a)) at 1 by lia. by rewrite seqZ_app, msum_app by lia. Qed.

Lemma grow_loop_ok n s0 ds held k start i s m :
  start <= i -> growing s0 ds held k start i s -> avail (n + m) (mv s) ->
  wp (grow_loop n k start i) (fun ok s' => ok = true /\ growing s0 ds held k start (i + Z.of_nat n) s' /\ avail m (mv s')) s.
Proof.
  revert i s. induction n as [|n IH]; intros i s Hi Hg Hav; cbn [grow_loop].
  { apply wp_ret. split; [done|]. by rewrite Z.add_0_r. }
  destruct Hg as (p & Ht & Hto & Hlo & Hnew & Hok & Hrk & Hck & Hsv). apply wp_bind, wp_vmdo.
  eapply wp_mono; [apply (kalloc_ok (mv s) ds _ (n + m) Hok); exact Hav|]. cbv beta.
  intros a v (g & -> & Hnz & Hpool & Ho & Hv & Hav1 & Hok1 & Hrc0 & Hrc). rewrite Hnz. destruct (pool_range g Hpool) as (_ & Hpos & _).
  apply wp_bind, wp_vmdo. cbn [mv mtab]. apply wp_zero; [done|]. apply wp_bind, wp_on_fd. cbn [mv mtab]. rewrite Ht. cbn [mf_num_pages mf_pages set_pages].
  set (v2 := set_ram _ v). assert (Hne : forall h, h <> g -> forall w, ram v2 h w = ram v h w) by (intros; by apply rpage_ne).
  assert (Hram : ram v = ram (mv s)) by by rewrite Hv.
  assert (Hzero : forall w, ram v2 g w = 0) by (intros w; subst v2; cbn [ram set_ram]; by rewrite rpage_at).
  assert (Hfresh : forall h, own (pm (mv s)) h -> h <> g) by (intros h Hh ->; unfold own in Hh; lia).
  eapply wp_mono; [apply IH; [lia| |exact Hav1]|].
  - exists (fupd p i (g * PAGE_SIZE)). cbn [mv mtab]. split.
    { by rewrite tput_at. }
    split; [intros x Hx; rewrite tput_ne by done; by apply Hto|].
    split; [intros j Hj; unfold fupd; rewrite (proj2 (Z.eqb_neq j i)) by lia; by apply Hlo|]. split.
    { intros j Hj. unfold fupd. destruct (Z.eqb_spec j i) as [->|Hji].
      - unfold page_ok. by rewrite frame_page.
      - destruct (Hnew j) as [[H1 H2] H3]; [lia|]. pose proof (Hfresh _ H2) as Hf. split; [split; [done|]|].
        + unfold own in *. change (pm v2) with (pm v). by rewrite Hrc.
        + intros w. rewrite Hne by done. by rewrite Hram. }
    split; [|split; [|split]].
    { rewrite msum_last by done. unfold fupd at 2. rewrite Z.eqb_refl, frame_page.
      assert (Hm : msum (seqZ start (i - start)) (fun j => {[+ frame (fupd p i (g * PAGE_SIZE) j) +]}) = msum (seqZ start (i - start)) (fun j => {[+ frame (p j) +]})).
      { apply msum_ext. intros x Hx. apply elem_of_seqZ in Hx. unfold fupd. by rewrite (proj2 (Z.eqb_neq x i)) by lia. }
      rewrite Hm. assert (Hok2 : vm_ok v2 ds ({[+ g +]} ⊎ (msum (seqZ start (i - start)) (fun j => {[+ frame (p j) +]}) ⊎ held))) by by apply vm_ok_write_held.
      eapply eq_ind; [exact Hok2|]. clear. mult_eq. }
    { intros h Hh w. assert (h <> g) by (intros ->; rewrite <- (Hck g) in Hh; lia). rewrite Hne, Hram by done. by apply Hrk. }
    { intros h Hh. change (pm v2) with (pm v). rewrite Hrc; [by apply Hck|]. intros ->. rewrite <- (Hck g Hh) in Hh. lia. }
    { eapply sv_trans; [exact Hsv|]. apply (sv_trans (mv s) v); [rewrite Hv; apply sv_pm|]. by eapply sv_held. }
  - cbv beta. intros ok s' (H1 & H2 & H3). split; [done|]. split; [|done]. by replace (i + Z.of_nat (S n)) with (i + 1 + Z.of_nat n) by lia.
Qed.

Lemma set_pages_id f : set_pages (mf_num_pages f) (mf_pages f) f = f.
Proof. by destruct f. Qed.

Lemma byte_zero s a : (forall w, ram s (frame a) w = 0) -> ram_byte s a = 0.
Proof. intros H. unfold ram_byte, byte_of. by rewrite H, Z.shiftr_0_l. Qed.

Lemma pos_page pos n : 0 <= pos -> pos < n * PAGE_SIZE -> 0 <= pos / PAGE_SIZE < n /\ 0 <= pos mod PAGE_SIZE < PAGE_SIZE.
Proof. unfold PAGE_SIZE. intros. word_lia. Qed.

Lemma fd_addr_frame p f pos : fd_ok p f -> 0 <= pos -> pos < mf_num_pages f * PAGE_SIZE ->
  frame (fd_addr f pos) = frame (mf_pages f (pos / PAGE_SIZE)) /\ own p (frame (fd_addr f pos)).
Proof.
  intros (_ & _ & Hp) H0 H1. destruct (pos_page pos _ H0 H1) as [Hi Hm]. destruct (Hp _ Hi) as [Ha Ho]. unfold fd_addr.
  destruct (fr_addr (frame (mf_pages f (pos / PAGE_SIZE))) (pos mod PAGE_SIZE) Hm) as [Hf _]. rewrite <- Ha in Hf. by rewrite Hf.
Qed.

(** An object whose frames keep their words shows the same file. *)
Lemma shows_keep p v v' f o :
  (mf_valid f <> 0 -> fd_ok p f) -> (forall g, own p g -> forall w, ram v' g w = ram v g w) -> shows_fd v f o -> shows_fd v' f o.
Proof.
  intros Hf Hk Hs. destruct o as [a|]; [|done]. destruct Hs as (H1 & H2 & H3 & H4 & H5). specialize (Hf H1). do 4 (split; [done|]).
  intros pos Hpos. destruct (H5 pos Hpos) as [A B]. split; [|done]. intros Hlt. rewrite <- A by done. apply ram_byte_keep, Hk.
  by apply (fd_addr_frame p).
Qed.

Lemma slot_refs_valid f : mf_valid f <> 0 -> slot_refs f = pages_refs f (mf_num_pages f).
Proof. intros H. unfold slot_refs. by rewrite (proj2 (Z.eqb_neq _ 0) H). Qed.

Definition other_slots (s s' : mfs) (k : Z) : Prop := forall x, x <> k -> mtab s' x = mtab s x.

Lemma fd_refs_ext t t' : (forall k, 0 <= k < MEMFD_MAX -> t k = t' k) -> fd_refs t = fd_refs t'.
Proof. intros H. apply msum_ext. intros k Hk. apply elem_of_seqZ in Hk. by rewrite H by lia. Qed.

Lemma grow_locked_ok s ds held a k need m :
  mem_ok s ds held -> mem_shows s a -> 0 <= k < MEMFD_MAX -> mf_valid (mtab s k) <> 0 -> avail (Z.to_nat MEMFD_MAX_PAGES + m) (mv s) ->
  wp (grow_locked k need) (fun ok s' => mem_ok s' ds held /\ mem_shows s' a /\ avail m (mv s') /\ sv (mv s) (mv s') ds every /\
    ok = (need <=? MEMFD_MAX_PAGES) /\ (ok = true -> need <= mf_num_pages (mtab s' k)) /\ mf_valid (mtab s' k) <> 0) s.
Proof.
  intros [Hok Hfd] Hsh Hk Hv Hav. unfold grow_locked. apply wp_bind, wp_get_fd. destruct (Hfd k Hk Hv) as (Hnum & Hsz & Hpg).
  set (f := mtab s k) in *. destruct (Z.leb_spec need (mf_num_pages f)) as [Hle|Hgt].
  { apply wp_ret. split; [done|]. split; [done|]. split; [unfold avail in *; lia|]. split; [apply sv_refl|].
    split; [symmetry; apply Z.leb_le; lia|]. done. }
  destruct (Z.ltb_spec MEMFD_MAX_PAGES need) as [Hbig|Hfit].
  { apply wp_ret. split; [done|]. split; [done|]. split; [unfold avail in *; lia|]. split; [apply sv_refl|].
    split; [symmetry; apply Z.leb_gt; lia|]. done. }
  eapply wp_use; [apply (grow_loop_ok _ s ds (fd_refs (mtab s) ⊎ held) k (mf_num_pages f) (mf_num_pages f) s m); [done| |unfold avail, MEMFD_MAX_PAGES in *; lia]|].
  { exists (mf_pages f). split; [exact (eq_sym (set_pages_id f))|]. do 2 (split; [done|]). split; [lia|]. rewrite Z.sub_diag. cbn [seqZ msum Z.to_nat].
    change (seqZ (mf_num_pages f) 0) with (@nil Z). cbn [msum]. rewrite (left_id_L ∅ (⊎)). split; [done|]. split; [done|]. split; [done|apply sv_refl]. }
  cbv beta. intros ok s1 (-> & (p & Ht & Hto & Hlo & Hnew & Hok1 & Hrk & Hck & Hsv) & Hav1). cbn [negb].
  replace (mf_num_pages f + Z.of_nat (Z.to_nat (need - mf_num_pages f))) with need in * by lia.
  apply wp_bind, wp_on_fd, wp_ret. fold f in Ht. rewrite Ht. cbn [mf_pages set_pages]. set (f' := set_pages need p _).
  assert (Hf' : f' = set_pages need p f) by done. assert (Hv' : mf_valid f' = mf_valid f) by done.
  assert (Hown : forall g, own (pm (mv s)) g -> own (pm (mv s1)) g) by (intros g Hg; unfold own in *; rewrite Hck; lia).
  assert (Hrefs : fd_refs (tput (mtab s1) k f') = fd_refs (mtab s) ⊎ msum (seqZ (mf_num_pages f) (need - mf_num_pages f)) (fun j => {[+ frame (p j) +]})).
  { rewrite (fd_refs_ext _ (tput (mtab s) k f')).
    2: { intros x _. unfold tput. destruct (Z.eqb_spec x k) as [|Hx]; [done|by apply Hto]. }
    pose proof (fd_refs_put (mtab s) k f' Hk) as Hu. fold f in Hu. rewrite !slot_refs_valid in Hu by done. unfold pages_refs in Hu.
    cbn [mf_num_pages mf_pages f' set_pages] in Hu. rewrite (msum_cut (mf_num_pages f) need) in Hu by lia.
    rewrite (msum_ext (seqZ 0 (mf_num_pages f)) (fun i => {[+ frame (p i) +]}) (fun i => {[+ frame (mf_pages f i) +]})) in Hu.
    2: { intros x Hx. apply elem_of_seqZ in Hx. rewrite Hlo; [done|lia]. }
    clear -Hu. mult_eq. }
  assert (Hfd' : fd_ok (pm (mv s1)) f').
  { split; [cbn [mf_num_pages f' set_pages]; lia|]. split; [cbn [mf_num_pages mf_size f' set_pages]; unfold PAGE_SIZE in *; lia|].
    intros i Hi. cbn [mf_num_pages mf_pages f' set_pages] in *. destruct (Z.lt_ge_cases i (mf_num_pages f)).
    - rewrite Hlo by done. destruct (Hpg i) as [? ?]; [lia|]. split; [done|by apply Hown].
    - apply Hnew. lia. }
  split; [|split; [|split; [done|split; [done|split; [symmetry; apply Z.leb_le; lia|]]]]].
  - split; [cbn [mv mtab]; rewrite Hrefs; eapply eq_ind; [exact Hok1|clear; mult_eq]|]. cbn [mv mtab]. intros x Hx. unfold tput.
    destruct (Z.eqb_spec x k) as [->|Hxk]; [done|]. rewrite Hto by done. intros Hvx. destruct (Hfd x Hx Hvx) as (A & B & C).
    split; [done|]. split; [done|]. intros i Hi. destruct (C i Hi). split; [done|by apply Hown].
  - assert (Hkeep : forall x, 0 <= x < MEMFD_MAX -> shows_fd (mv s1) (mtab s x) (a x)).
    { intros x Hx. eapply (shows_keep (pm (mv s)) (mv s)); [by apply Hfd| |by apply Hsh]. intros g Hg. apply Hrk. unfold own in Hg. lia. }
    intros x Hx. cbn [mv mtab]. unfold tput. destruct (Z.eqb_spec x k) as [->|Hxk]; [|rewrite Hto by done; by apply Hkeep].
    specialize (Hkeep k Hk). fold f in Hkeep. destruct (a k) as [af|]; [|done]. destruct Hkeep as (A & B & C & D & E). do 4 (split; [done|]).
    intros pos Hpos. cbn [mf_num_pages f' set_pages]. destruct (E pos Hpos) as [E1 E2]. split; [|intros; apply E2; unfold PAGE_SIZE in *; lia].
    intros Hlt. destruct (pos_page pos need Hpos Hlt) as [Hi Hm]. unfold fd_addr. cbn [mf_pages f' set_pages].
    destruct (Z.lt_ge_cases (pos / PAGE_SIZE) (mf_num_pages f)) as [Hold|Hnw].
    + rewrite Hlo by done. apply E1. unfold PAGE_SIZE in *. word_lia.
    + destruct (Hnew (pos / PAGE_SIZE)) as [[H1 H2] H3]; [lia|]. rewrite byte_zero; [symmetry; apply E2; unfold PAGE_SIZE in *; word_lia|].
      destruct (fr_addr (frame (p (pos / PAGE_SIZE))) (pos mod PAGE_SIZE) Hm) as [Hf _]. rewrite <- H1 in Hf. by rewrite Hf.
  - split; [|by cbn [mtab]; rewrite tput_at]. intros _. cbn [mtab]. rewrite tput_at. cbn [mf_num_pages f' set_pages]. lia.
Qed.

(** ** Reading and writing *)

Lemma fmap_seqZ {A} (g h : Z -> A) a b n : (forall t, 0 <= t < n -> g (a + t) = h (b + t)) -> g <$> seqZ a n = h <$> seqZ b n.
Proof.
  destruct (Z.le_gt_cases n 0) as [Hn|Hn]; [by rewrite !seqZ_nil by lia|].
  rewrite <- (Z2Nat.id n) by lia. clear Hn. generalize (Z.to_nat n) as k. clear n. intros k. revert a b.
  induction k as [|k IH]; intros a b H; [done|]. rewrite (seqZ_cons a), (seqZ_cons b) by lia. rewrite !fmap_cons. f_equal.
  - specialize (H 0). rewrite !Z.add_0_r in H. apply H. lia.
  - replace (Z.pred (Z.of_nat (S k))) with (Z.of_nat k) by lia. apply IH. intros t Ht. specialize (H (t + 1)).
    replace (Z.succ a + t) with (a + (t + 1)) by lia. replace (Z.succ b + t) with (b + (t + 1)) by lia. apply H. lia.
Qed.

(** A piece of a file within one page. *)
Lemma in_chunk pos t c : 0 <= pos -> 0 <= t < c -> c <= PAGE_SIZE - pos mod PAGE_SIZE ->
  (pos + t) / PAGE_SIZE = pos / PAGE_SIZE /\ (pos + t) mod PAGE_SIZE = pos mod PAGE_SIZE + t.
Proof. unfold PAGE_SIZE. intros. word_lia. Qed.
Lemma chunk_addr f pos t c : 0 <= pos -> 0 <= t < c -> c <= PAGE_SIZE - pos mod PAGE_SIZE ->
  fd_addr f (pos + t) = mf_pages f (pos / PAGE_SIZE) + pos mod PAGE_SIZE + t.
Proof. intros H1 H2 H3. destruct (in_chunk pos t c H1 H2 H3) as [E1 E2]. unfold fd_addr. rewrite E1, E2. lia. Qed.

(** Rounds that are left. *)
Definition rounds (n pos : Z) : Z := if 0 <? n then (n + pos mod PAGE_SIZE + 4095) / PAGE_SIZE else 0.
Lemma rounds_step n pos c : 0 <= pos -> 0 < n -> c = Z.min n (PAGE_SIZE - pos mod PAGE_SIZE) ->
  0 < c <= n /\ rounds (n - c) (pos + c) < rounds n pos.
Proof.
  unfold rounds, PAGE_SIZE. intros Hp Hn Hc. pose proof (Z.mod_pos_bound pos 4096). split; [lia|].
  rewrite (proj2 (Z.ltb_lt 0 n)) by lia. destruct (Z.ltb_spec 0 (n - c)) as [Hl|Hl].
  - assert (Hm : (pos + c) mod 4096 = 0) by word_lia. rewrite Hm. word_lia.
  - apply Z.div_str_pos. lia.
Qed.
Lemma rounds_start n pos : 0 <= n -> rounds n pos <= n / PAGE_SIZE + 2.
Proof. unfold rounds, PAGE_SIZE. intros Hn. pose proof (Z.mod_pos_bound pos 4096). destruct (0 <? n); word_lia. Qed.
Lemma rounds_pos n pos : 0 < n -> 0 < rounds n pos.
Proof.
  unfold rounds, PAGE_SIZE. intros Hn. pose proof (Z.mod_pos_bound pos 4096). rewrite (proj2 (Z.ltb_lt 0 n)) by lia. apply Z.div_str_pos. lia.
Qed.

Lemma memfd_read_loop_ok fuel s f B n copied pos :
  0 <= pos -> 0 <= copied <= n -> pos + (n - copied) <= MEMFD_MAX_PAGES * PAGE_SIZE ->
  (forall x, pos <= x < pos + (n - copied) -> ram_byte (mv s) (fd_addr f x) = B x) -> rounds (n - copied) pos <= Z.of_nat fuel ->
  wp (read_loop fuel f n copied pos) (fun l s' => s' = s /\ l = B <$> seqZ pos (n - copied)) s.
Proof.
  revert copied pos. induction fuel as [|fuel IH]; intros copied pos Hpos Hc Hle HB Hr; cbn [read_loop].
  - destruct (Z.ltb_spec copied n) as [Hlt|]; [pose proof (rounds_pos (n - copied) pos); lia|]. apply wp_ret. by rewrite seqZ_nil by lia.
  - destruct (Z.ltb_spec copied n) as [Hlt|]; [|apply wp_ret; by rewrite seqZ_nil by lia]. set (c := Z.min _ _).
    destruct (rounds_step (n - copied) pos c Hpos) as [Hc1 Hc2]; [lia|done|]. assert (Hcp : c <= PAGE_SIZE - pos mod PAGE_SIZE) by lia.
    apply wp_bind. unfold page_at. destruct (Z.ltb_spec (pos / PAGE_SIZE) MEMFD_MAX_PAGES) as [Hpi|Hpi].
    2: { exfalso. unfold MEMFD_MAX_PAGES, PAGE_SIZE in *. word_lia. }
    apply wp_ret, wp_bind, wp_gets. unfold MEMFD_MAX_PAGES, PAGE_SIZE in Hle.
    replace (u32 (pos + c)) with (pos + c) by (symmetry; apply Z.mod_small; lia).
    eapply wp_use; [apply (IH (copied + c) (pos + c)); [lia|lia|unfold MEMFD_MAX_PAGES, PAGE_SIZE; lia| |]|].
    + intros x Hx. apply HB. lia.
    + replace (n - (copied + c)) with (n - copied - c) by lia. lia.
    + cbv beta. intros l s' [-> ->]. apply wp_ret. split; [done|]. replace (n - copied) with (c + (n - (copied + c))) by lia.
      rewrite (seqZ_app pos), fmap_app by lia. f_equal. apply fmap_seqZ. intros t Ht. rewrite <- HB by lia. by rewrite (chunk_addr f pos t c).
Qed.

(** Bytes [bs] stored at [a..a + c) of one frame. *)
Lemma store_chunk_ok s a c bs :
  0 <= c -> (forall k, 0 <= k < c -> 0 <= bs k < 256) -> (forall k, 0 <= k < c -> frame (a + k) = frame a) ->
  wp (for_each (seqZ 0 c) (fun k => vmdo (st8 (a + k) (bs k)))) (fun _ s' =>
    exists r, s' = mk_mfs (set_ram r (mv s)) (mtab s) /\ (forall g, g <> frame a -> forall w, r g w = ram (mv s) g w) /\
    forall b, ram_byte (mv s') b = if (a <=? b) && (b <? a + c) then bs (b - a) else ram_byte (mv s) b) s.
Proof.
  intros Hc Hbs Hfr.
  apply (wp_for_range (fun k s' => exists r, s' = mk_mfs (set_ram r (mv s)) (mtab s) /\ (forall g, g <> frame a -> forall w, r g w = ram (mv s) g w) /\
    forall b, ram_byte (mv s') b = if (a <=? b) && (b <? a + k) then bs (b - a) else ram_byte (mv s) b)); [done| | |done].
  - exists (ram (mv s)). split; [by destruct s as [v t]; destruct v|]. split; [done|]. intros b. rewrite Z.add_0_r. case_if; [|done]. b2p. lia.
  - intros k s1 Hk (r & -> & Hr & Hb). apply wp_vmdo. unfold st8. apply wp_modify. cbn [mv mtab].
    eexists. split; [rewrite set_ram_ram; done|]. split.
    + intros g Hg w. rewrite rupd_ne; [by apply Hr|]. rewrite Hfr by lia. done.
    + intros b. cbn [mv] in *. pose proof (st8_byte (set_ram r (mv s)) (a + k) (bs k) b) as Hst. 
      trans (if b =? a + k then bs k else ram_byte (set_ram r (mv s)) b); [apply Hst, Hbs; lia|]. rewrite Hb. clear Hst. destruct (Z.eqb_spec b (a + k)) as [Heq|Hne]; [rewrite Heq|].
      * replace ((a <=? a + k) && (a + k <? a + (k + 1))) with true by lia. f_equal. lia.
      * replace ((a <=? b) && (b <? a + (k + 1))) with ((a <=? b) && (b <? a + k)) by lia. done.
Qed.

Definition pages_inj (f : MemFd) : Prop :=
  forall i j, 0 <= i < mf_num_pages f -> 0 <= j < mf_num_pages f -> frame (mf_pages f i) = frame (mf_pages f j) -> i = j.

Lemma addr_in_chunk p f pos c x :
  fd_ok p f -> pages_inj f -> 0 <= pos -> 0 < c <= PAGE_SIZE - pos mod PAGE_SIZE -> pos + c <= mf_num_pages f * PAGE_SIZE ->
  0 <= x < mf_num_pages f * PAGE_SIZE ->
  ((fd_addr f pos <=? fd_addr f x) && (fd_addr f x <? fd_addr f pos + c) = (pos <=? x) && (x <? pos + c)) /\
  (pos <= x < pos + c -> fd_addr f x - fd_addr f pos = x - pos).
Proof.
  intros (_ & _ & Hpg) Hinj Hpos Hc Hle Hx. destruct (pos_page x _ (proj1 Hx) (proj2 Hx)) as [Hi Hm].
  destruct (pos_page pos (mf_num_pages f) Hpos) as [Hi0 Hm0]; [lia|]. destruct (Hpg _ Hi) as [E1 _], (Hpg _ Hi0) as [E2 _].
  specialize (Hinj _ _ Hi Hi0). unfold fd_addr. pose proof (Z.div_mod x PAGE_SIZE) as D1. pose proof (Z.div_mod pos PAGE_SIZE) as D2.
  destruct (Z.eq_dec (x / PAGE_SIZE) (pos / PAGE_SIZE)) as [Heq|Hne].
  - rewrite Heq in *. unfold PAGE_SIZE in *. split; lia.
  - assert (Hf : frame (mf_pages f (x / PAGE_SIZE)) <> frame (mf_pages f (pos / PAGE_SIZE))) by auto.
    set (g := frame (mf_pages f (x / PAGE_SIZE))) in *. set (g0 := frame (mf_pages f (pos / PAGE_SIZE))) in *. rewrite E1, E2.
    unfold PAGE_SIZE in *. split; [|lia]. apply eq_true_iff_eq. rewrite !andb_true_iff, !Z.leb_le, !Z.ltb_lt. lia.
Qed.

Lemma memfd_write_loop_ok fuel s f p buf off size written :
  fd_ok p f -> pages_inj f -> 0 <= off -> 0 <= written <= size -> off + size <= mf_num_pages f * PAGE_SIZE ->
  (forall k, 0 <= nth k buf 0 < 256) -> rounds (size - written) (off + written) <= Z.of_nat fuel ->
  wp (write_loop fuel f buf size written (off + written)) (fun _ s' =>
    exists r, s' = mk_mfs (set_ram r (mv s)) (mtab s) /\
    (forall g, (forall i, 0 <= i < mf_num_pages f -> g <> frame (mf_pages f i)) -> forall w, r g w = ram (mv s) g w) /\
    forall x, 0 <= x < mf_num_pages f * PAGE_SIZE -> ram_byte (mv s') (fd_addr f x) =
      if (off + written <=? x) && (x <? off + size) then nth (Z.to_nat (x - off)) buf 0 else ram_byte (mv s) (fd_addr f x)) s.
Proof.
  intros Hf Hinj Hoff. revert s written. induction fuel as [|fuel IH]; intros s written Hw Hle Hbuf Hr; cbn [write_loop].
  1: destruct (Z.ltb_spec written size) as [Hlt|]; [pose proof (rounds_pos (size - written) (off + written)); lia|].
  2: destruct (Z.ltb_spec written size) as [Hlt|].
  1, 3: apply wp_skip; exists (ram (mv s)); split; [by destruct s as [v t]; destruct v|]; split; [done|]; intros x Hx;
        case_if; [b2p; lia|done].
  set (c := Z.min _ _). set (pos := off + written) in *. destruct Hf as (Hnum & Hsz & Hpg). pose proof (conj Hnum (conj Hsz Hpg)) as Hf.
  destruct (rounds_step (size - written) pos c) as [Hc1 Hc2]; [lia|lia|done|]. assert (Hcp : c <= PAGE_SIZE - pos mod PAGE_SIZE) by lia.
  destruct (pos_page pos (mf_num_pages f)) as [Hi Hm]; [lia|lia|]. apply wp_bind. unfold page_at.
  rewrite (proj2 (Z.ltb_lt _ _)) by lia. apply wp_ret. destruct (Hpg _ Hi) as [Ha _].
  eapply wp_use; [apply (store_chunk_ok s (fd_addr f pos) c (fun k => nth (Z.to_nat (written + k)) buf 0)); [lia|intros; apply Hbuf|]|].
  { intros k Hk. unfold fd_addr. rewrite <- Z.add_assoc. destruct (fr_addr (frame (mf_pages f (pos / PAGE_SIZE))) (pos mod PAGE_SIZE + k)) as [F1 _]; [lia|].
    destruct (fr_addr (frame (mf_pages f (pos / PAGE_SIZE))) (pos mod PAGE_SIZE)) as [F2 _]; [lia|]. rewrite <- Ha in F1, F2. congruence. }
  cbv beta. intros _ s1 (r1 & -> & Hr1 & Hb1).
  assert (Hmx : mf_num_pages f * PAGE_SIZE <= 4194304) by (unfold MEMFD_MAX_PAGES, PAGE_SIZE in *; lia).
  replace (u32 (pos + c)) with (off + (written + c)) by (unfold u32; rewrite Z.mod_small by lia; lia).
  eapply wp_mono; [apply (IH _ (written + c)); [lia|lia|done|replace (size - (written + c)) with (size - written - c) by lia;
    replace (off + (written + c)) with (pos + c) by lia; lia]|]. cbv beta. cbn [mv mtab].
  intros _ s2 (r2 & -> & Hr2 & Hb2). exists r2. split; [by rewrite set_ram_ram|]. cbn [mv] in *. split.
  - intros g Hg w. rewrite Hr2 by done. cbn [ram set_ram]. apply Hr1. destruct (fd_addr_frame p f pos Hf) as [-> _]; [lia|lia|]. by apply Hg.
  - intros x Hx. rewrite Hb2, Hb1 by done. destruct (addr_in_chunk p f pos c x Hf Hinj) as [HA HB]; [lia|lia|lia|done|]. rewrite HA.
    destruct (Z.leb_spec (off + (written + c)) x); destruct (Z.ltb_spec x (off + size)); cbn [andb].
    + replace ((pos <=? x) && true) with true by lia. done.
    + replace ((pos <=? x) && (x <? pos + c)) with false by lia. by rewrite andb_false_r.
    + destruct (Z.leb_spec pos x); cbn [andb]; [|done]. rewrite (proj2 (Z.ltb_lt _ _)) by lia. rewrite HB by lia. f_equal. f_equal. lia.
    + lia.
Qed.

(** ** The operations as functions on files *)

Definition aupd (a : Z -> option afd) (k : Z) (o : option afd) : Z -> option afd := fun i => if i =? k then o else a i.

Lemma mem_put s ds held a k f o :
  mem_ok s ds held -> mem_shows s a -> 0 <= k < MEMFD_MAX -> slot_refs f = slot_refs (mtab s k) ->
  (mf_valid f <> 0 -> fd_ok (pm (mv s)) f) -> shows_fd (mv s) f o ->
  let s' := mk_mfs (mv s) (tput (mtab s) k f) in mem_ok s' ds held /\ mem_shows s' (aupd a k o).
Proof.
  intros [Hok Hfd] Hsh Hk Hrefs Hf Ho s'. split; [split|].
  - cbn [mv mtab s']. by rewrite fd_refs_same.
  - intros x Hx. cbn [mv mtab s']. unfold tput. destruct (Z.eqb_spec x k) as [->|]; [done|by apply Hfd].
  - intros x Hx. cbn [mv mtab s']. unfold tput, aupd. destruct (Z.eqb_spec x k) as [->|]; [done|by apply Hsh].
Qed.

(** Only the counters of an object change. *)
Lemma mem_refs s ds held a k af fds maps :
  mem_ok s ds held -> mem_shows s a -> 0 <= k < MEMFD_MAX -> a k = Some af ->
  let s' := mk_mfs (mv s) (tput (mtab s) k (set_refs fds maps (mtab s k))) in
  mem_ok s' ds held /\ mem_shows s' (aupd a k (Some (mk_afd fds maps (af_size af) (af_bytes af)))).
Proof.
  intros Hok Hsh Hk Ha. apply mem_put; try done.
  - intros Hv. by apply (proj2 Hok k Hk).
  - specialize (Hsh k Hk). rewrite Ha in Hsh. destruct Hsh as (H1 & H2 & H3 & H4 & H5). by split_and!.
Qed.

Lemma valid_handle s a h :
  mem_shows s a -> ((1 <=? h) && (h <=? MEMFD_MAX) && negb (mf_valid (mtab s (h - 1)) =? 0) = true ->
    0 <= h - 1 < MEMFD_MAX /\ exists af, a (h - 1) = Some af) /\
  ((1 <=? h) && (h <=? MEMFD_MAX) && negb (mf_valid (mtab s (h - 1)) =? 0) = false -> 0 <= h - 1 < MEMFD_MAX -> a (h - 1) = None).
Proof.
  intros Hsh. split.
  - intros H. apply andb_prop in H as [H H3]. apply andb_prop in H as [H1 H2]. b2p. split; [lia|]. specialize (Hsh (h - 1)).
    destruct (a (h - 1)) as [af|]; [by exists af|]. exfalso. apply H3, Hsh. lia.
  - intros H Hr. specialize (Hsh (h - 1) Hr). destruct (a (h - 1)) as [af|]; [|done]. destruct Hsh as (Hv & _).
    replace (1 <=? h) with true in H by lia. replace (h <=? MEMFD_MAX) with true in H by lia. cbn [andb] in H. b2p. done.
Qed.

(** Giving back the frames of object [k], which nothing refers to. *)
Lemma maybe_free_ok s ds held a k af n :
  mem_ok s ds held -> mem_shows s a -> 0 <= k < MEMFD_MAX -> a k = Some af -> avail n (mv s) ->
  wp (maybe_free_locked k) (fun _ s' => mem_ok s' ds held /\ avail n (mv s') /\ sv (mv s) (mv s') ds every /\
    mem_shows s' (if (af_fds af =? 0) && (af_maps af =? 0) then aupd a k None else a)) s.
Proof.
  intros Hok Hsh Hk Ha Hav. pose proof (Hsh k Hk) as Hsk. rewrite Ha in Hsk. destruct Hsk as (Hv & H1 & H2 & _).
  unfold maybe_free_locked. apply wp_bind, wp_get_fd. rewrite H1, H2, (proj2 (Z.eqb_neq _ 0) Hv). cbn [orb].
  destruct (af_fds af =? 0) eqn:E1, (af_maps af =? 0) eqn:E2; cbn [negb orb andb];
    [|by apply wp_skip; split_and!; [| | apply sv_refl|]..].
  set (f := mtab s k) in *. destruct Hok as [Hok Hfd]. destruct (Hfd k Hk Hv) as (Hnum & Hsz & Hpg). fold f in Hnum, Hsz, Hpg.
  set (g0 := mk_memfd (mf_name f) 0 0 0 (mf_pages f) 0 (mf_fds f) (mf_maps f) 0).
  set (R := fd_refs (tput (mtab s) k g0)).
  assert (HR : fd_refs (mtab s) = R ⊎ pages_refs f (mf_num_pages f)).
  { pose proof (fd_refs_put (mtab s) k g0 Hk) as Hu. fold R f in Hu. rewrite (slot_refs_valid f Hv) in Hu.
    unfold slot_refs in Hu. cbn [mf_valid g0 Z.eqb] in Hu. clear -Hu. mult_eq. }
  assert (Hinj : forall i j, 0 <= i < mf_num_pages f -> 0 <= j < mf_num_pages f -> frame (mf_pages f i) = frame (mf_pages f j) -> i = j).
  { intros i j Hi Hj E. by eapply (fd_pages_inj s ds held k i k j). }
  assert (Hpool : forall i, 0 <= i < mf_num_pages f -> pool (frame (mf_pages f i))).
  { intros i Hi. eapply held_pool; [exact Hok|]. apply ms_l. by apply in_fd_refs. }
  apply wp_bind.
  apply (wp_for_range (fun i s1 => exists p, mtab s1 k = set_pages (mf_num_pages f) p f /\ (forall x, x <> k -> mtab s1 x = mtab s x) /\
    (forall j, i <= j -> p j = mf_pages f j) /\ ram (mv s1) = ram (mv s) /\ avail n (mv s1) /\
    vm_ok (mv s1) ds (msum (seqZ i (mf_num_pages f - i)) (fun j => {[+ frame (mf_pages f j) +]}) ⊎ (R ⊎ held)) /\
    forall h, (forall j, 0 <= j < i -> h <> frame (mf_pages f j)) -> refcounts (pm (mv s1)) h = refcounts (pm (mv s)) h)); [lia| | |].
  - exists (mf_pages f). split; [exact (eq_sym (set_pages_id f))|]. do 4 (split; [done|]). split; [|done]. rewrite Z.sub_0_r.
    eapply eq_ind; [exact Hok|]. rewrite HR. unfold pages_refs. clear. mult_eq.
  - intros i s1 Hi (p & Ht & Hto & Hp & Hram & Hav1 & Hok1 & Hrc). apply wp_bind, wp_get_fd. rewrite Ht. cbn [mf_pages mf_num_pages set_pages].
    rewrite Hp by lia. destruct (Hpg i) as [Hal _]; [lia|]. specialize (Hpool i ltac:(lia)). rewrite Hal at 1. rewrite pool_nz by done. cbn [negb].
    rewrite msum_seq_cons in Hok1 by lia. replace (mf_num_pages f - i - 1) with (mf_num_pages f - (i + 1)) in Hok1 by lia. rewrite <- (assoc_L (⊎)) in Hok1.
    apply wp_bind, wp_vmdo. rewrite Hal. eapply wp_mono; [by apply free_ok|]. cbv beta. intros _ v (Hv1 & Hok2 & Hav2 & Hrc2).
    unfold put_fd. apply wp_modify. cbn [mv mtab]. exists (fupd p i 0). split; [by rewrite Z.eqb_refl|].
    split; [intros x Hx; rewrite (proj2 (Z.eqb_neq x k)) by done; by apply Hto|].
    split; [intros j Hj; unfold fupd; rewrite (proj2 (Z.eqb_neq j i)) by lia; apply Hp; lia|].
    split; [rewrite Hv1; exact Hram|]. split; [by apply Hav2|]. split; [exact Hok2|].
    intros h Hh. rewrite Hrc2 by (apply Hh; lia). apply Hrc. intros j Hj. apply Hh. lia.
  - intros s1 (p & Ht & Hto & Hp & Hram & Hav1 & Hok1 & Hrc). apply wp_on_fd. rewrite Ht. cbn [mf_name mf_pages mf_fds mf_maps set_pages].
    rewrite Z.add_0_l in *. rewrite Z.sub_diag in Hok1. change (seqZ (mf_num_pages f) 0) with (@nil Z) in Hok1. cbn [msum] in Hok1. rewrite (left_id_L ∅ (⊎)) in Hok1.
    set (f1 := mk_memfd _ _ _ _ _ _ _ _ _).
    assert (HR1 : fd_refs (tput (mtab s1) k f1) = R).
    { apply msum_ext. intros x _. unfold tput. destruct (Z.eqb_spec x k) as [|Hx]; [done|]. by rewrite Hto. }
    split; [split; cbn [mv mtab]|].
    + by rewrite HR1.
    + intros x Hx. unfold tput. destruct (Z.eqb_spec x k) as [->|Hxk]; [done|]. rewrite Hto by done. intros Hvx.
      destruct (Hfd x Hx Hvx) as (A & B & C). split; [done|]. split; [done|]. intros j Hj. destruct (C j Hj) as [C1 C2]. split; [done|].
      unfold own in *. rewrite Hrc; [done|]. intros i Hi E. destruct (fd_pages_inj s ds held x j k i) as [? _]; try done.
    + split; [done|]. split.
      * intros d' i' j' _ _. unfold upte. cbn [mv]. by rewrite Hram.
      * intros x Hx. cbn [mv mtab]. unfold tput, aupd. destruct (Z.eqb_spec x k) as [->|Hxk]; [done|]. rewrite Hto by done.
        eapply (shows_keep (pm (mv s)) (mv s)); [by apply Hfd|by rewrite Hram|by apply Hsh].
Qed.
End Ops.
End MemOk.

(** ** What the operations do *)

Inductive mop :=
  | MCreate (name : option (list Z)) (name_len flags : Z) | MRef (h : Z) | MClose (h : Z) | MInc (h : Z) | MDec (h : Z)
  | MRead (h off size : Z) | MWrite (h off : Z) (buf : list Z) | MTrunc (h size : Z).

Definition mexec `{!Reclaim vm} (o : mop) : M mfs (Z * list Z) :=
  match o with
  | MCreate name len flags => r ← memfd_create name len flags; mret (r, [])
  | MRef h => r ← memfd_ref h; mret (r, [])
  | MClose h => r ← memfd_close h; mret (r, [])
  | MInc h => r ← memfd_map_inc h; mret (r, [])
  | MDec h => r ← memfd_map_dec h; mret (r, [])
  | MRead h off size => memfd_read h off true size
  | MWrite h off buf => r ← memfd_write h off (Some buf) (zlen buf); mret (r, [])
  | MTrunc h size => r ← memfd_truncate h size; mret (r, [])
  end.

Definition FILE_MAX : Z := MEMFD_MAX_PAGES * PAGE_SIZE.

Fixpoint afree (n : nat) (i : Z) (a : Z -> option afd) : Z :=
  match n with O => MEMFD_MAX | S n => match a i with None => i | Some _ => afree n (i + 1) a end end.

(** The object of a handle. *)
Definition aget (a : Z -> option afd) (h : Z) : option afd := if (1 <=? h) && (h <=? MEMFD_MAX) then a (h - 1) else None.

(** An object that lost a reference; it is gone with the last one. *)
Definition adrop (a : Z -> option afd) (h : Z) (f : afd) : Z -> option afd :=
  aupd a (h - 1) (if (af_fds f =? 0) && (af_maps f =? 0) then None else Some f).

Definition awrite (f : afd) (off : Z) (buf : list Z) : afd :=
  mk_afd (af_fds f) (af_maps f) (Z.max (af_size f) (off + zlen buf))
    (fun x => if (off <=? x) && (x <? off + zlen buf) then nth (Z.to_nat (x - off)) buf 0 else af_bytes f x).

Definition mspec (a : Z -> option afd) (o : mop) : (Z -> option afd) * (Z * list Z) :=
  match o with
  | MCreate _ _ _ =>
      let k := afree (Z.to_nat MEMFD_MAX) 0 a in
      if k =? MEMFD_MAX then (a, (-1, [])) else (aupd a k (Some (mk_afd 0 0 0 (fun _ => 0))), (k + 1, []))
  | MRef h =>
      match aget a h with
      | Some f => (aupd a (h - 1) (Some (mk_afd (i32 (af_fds f + 1)) (af_maps f) (af_size f) (af_bytes f))), (h, []))
      | None => (a, (-1, []))
      end
  | MInc h =>
      match aget a h with
      | Some f => (aupd a (h - 1) (Some (mk_afd (af_fds f) (i32 (af_maps f + 1)) (af_size f) (af_bytes f))), (0, []))
      | None => (a, (-1, []))
      end
  | MClose h =>
      match aget a h with
      | Some f => (adrop a h (mk_afd (if 0 <? af_fds f then af_fds f - 1 else af_fds f) (af_maps f) (af_size f) (af_bytes f)), (0, []))
      | None => (a, (-1, []))
      end
  | MDec h =>
      match aget a h with
      | Some f => (adrop a h (mk_afd (af_fds f) (if 0 <? af_maps f then af_maps f - 1 else af_maps f) (af_size f) (af_bytes f)), (0, []))
      | None => (a, (-1, []))
      end
  | MRead h off size =>
      if size =? 0 then (a, (0, []))
      else match aget a h with
           | Some f =>
               if af_size f <=? off then (a, (0, []))
               else let n := Z.min size (af_size f - off) in (a, (n, af_bytes f <$> seqZ off n))
           | None => (a, (-1, []))
           end
  | MWrite h off buf =>
      if zlen buf =? 0 then (a, (0, []))
      else match aget a h with
           | Some f => if FILE_MAX <? off + zlen buf then (a, (-1, [])) else (aupd a (h - 1) (Some (awrite f off buf)), (zlen buf, []))
           | None => (a, (-1, []))
           end
  | MTrunc h size =>
      if FILE_MAX <? size then (a, (-1, []))
      else match aget a h with
           | Some f => (aupd a (h - 1) (Some (mk_afd (af_fds f) (af_maps f) size (af_bytes f))), (0, []))
           | None => (a, (-1, []))
           end
  end.

(** The arguments are of their machine types. *)
Definition margs (o : mop) : Prop :=
  match o with
  | MRead _ off size => is_u32 off /\ is_u32 size
  | MWrite _ off buf => is_u32 off /\ is_u32 (zlen buf) /\ Forall is_u8 buf
  | MTrunc _ size => is_u32 size
  | _ => True
  end.

Section Refine.
Context {KI : KernelImage} {KO : KernelImageOk} `{!Reclaim vm}.

Definition mstepped (m : nat) (s : mfs) (ds : list Z) (held : gmultiset Z) (a : Z -> option afd) (o : mop) (r : Z * list Z) (s' : mfs) : Prop :=
  r = (mspec a o).2 /\ mem_ok s' ds held /\ mem_shows s' (mspec a o).1 /\ sv (mv s) (mv s') ds every /\ avail m (mv s').

Lemma avail_more m s : avail (Z.to_nat MEMFD_MAX_PAGES + m) s -> avail m s.
Proof. unfold avail. lia. Qed.

Lemma wp_handle s a h (Q : bool -> mfs -> Prop) :
  mem_shows s a ->
  match aget a h with
  | Some af => 0 <= h - 1 < MEMFD_MAX -> a (h - 1) = Some af -> mf_valid (mtab s (h - 1)) <> 0 -> Q true s
  | None => Q false s
  end -> wp (handle_valid h) Q s.
Proof.
  intros Hsh HQ. unfold handle_valid. apply wp_gets. destruct (valid_handle s a h Hsh) as [H1 H2]. unfold aget in HQ.
  destruct (_ && _ && negb _) eqn:E.
  - destruct (H1 eq_refl) as [Hr [af Ha]]. replace ((1 <=? h) && (h <=? MEMFD_MAX)) with true in HQ by lia. rewrite Ha in HQ.
    specialize (Hsh _ Hr). rewrite Ha in Hsh. apply HQ; [done|done|apply Hsh].
  - destruct ((1 <=? h) && (h <=? MEMFD_MAX)) eqn:E2; [|done]. rewrite H2 in HQ by (done || lia). done.
Qed.

Lemma refs_id f : set_refs (mf_fds f) (mf_maps f) f = f.
Proof. by destruct f. Qed.

Lemma mem_shows_ext s a a' : mem_shows s a -> (forall k, a k = a' k) -> mem_shows s a'.
Proof. intros Hs He k Hk. rewrite <- He. by apply Hs. Qed.

Lemma ref_ok s ds held a h m : mem_ok s ds held -> mem_shows s a -> avail m (mv s) -> wp (mexec (MRef h)) (mstepped m s ds held a (MRef h)) s.
Proof.
  intros Hok Hsh Hav. cbn [mexec]. unfold memfd_ref. apply wp_bind, wp_bind, (wp_handle s a h); [done|]. unfold mstepped, mspec.
  destruct (aget a h) as [af|]; [|by wp_steps; split_and!; [| | |apply sv_refl|]]. intros Hr Ha Hv. cbn [negb].
  apply wp_bind, wp_on_fd, wp_ret, wp_ret. split; [done|]. pose proof (Hsh _ Hr) as Hs. rewrite Ha in Hs. destruct Hs as (_ & -> & -> & _).
  destruct (mem_refs s ds held a (h - 1) af (i32 (af_fds af + 1)) (af_maps af) Hok Hsh Hr Ha) as [H1 H2]. split_and!; [done|done|apply sv_refl|done].
Qed.
Lemma inc_ok s ds held a h m : mem_ok s ds held -> mem_shows s a -> avail m (mv s) -> wp (mexec (MInc h)) (mstepped m s ds held a (MInc h)) s.
Proof.
  intros Hok Hsh Hav. cbn [mexec]. unfold memfd_map_inc. apply wp_bind, wp_bind, (wp_handle s a h); [done|]. unfold mstepped, mspec.
  destruct (aget a h) as [af|]; [|by wp_steps; split_and!; [| | |apply sv_refl|]]. intros Hr Ha Hv. cbn [negb].
  apply wp_bind, wp_on_fd, wp_ret, wp_ret. split; [done|]. pose proof (Hsh _ Hr) as Hs. rewrite Ha in Hs. destruct Hs as (_ & -> & -> & _).
  destruct (mem_refs s ds held a (h - 1) af (af_fds af) (i32 (af_maps af + 1)) Hok Hsh Hr Ha) as [H1 H2]. split_and!; [done|done|apply sv_refl|done].
Qed.

(** The counters are set and the object may go. *)
Lemma drop_ok s ds held a h af fds maps m :
  mem_ok s ds held -> mem_shows s a -> 0 <= h - 1 < MEMFD_MAX -> a (h - 1) = Some af -> avail m (mv s) ->
  let f := mk_afd fds maps (af_size af) (af_bytes af) in
  wp (maybe_free_locked (h - 1)) (fun _ s' => mem_ok s' ds held /\ mem_shows s' (adrop a h f) /\ sv (mv s) (mv s') ds every /\ avail m (mv s'))
    (mk_mfs (mv s) (tput (mtab s) (h - 1) (set_refs fds maps (mtab s (h - 1))))).
Proof.
  intros Hok Hsh Hr Ha Hav f. destruct (mem_refs s ds held a (h - 1) af fds maps Hok Hsh Hr Ha) as [H1 H2]. fold f in H2.
  eapply wp_mono; [apply (maybe_free_ok _ ds held _ (h - 1) f m H1 H2 Hr); [unfold aupd; by rewrite Z.eqb_refl|exact Hav]|]. cbv beta.
  intros _ s' (H3 & Ha3 & H4 & H5). split; [done|]. split; [|by split]. eapply mem_shows_ext; [exact H5|]. intros x. unfold adrop, aupd.
  destruct (_ && _), (x =? h - 1); done.
Qed.

Lemma memfd_close_ok s ds held a h m : mem_ok s ds held -> mem_shows s a -> avail m (mv s) -> wp (mexec (MClose h)) (mstepped m s ds held a (MClose h)) s.
Proof.
  intros Hok Hsh Hav. cbn [mexec]. unfold memfd_close. apply wp_bind, wp_bind, (wp_handle s a h); [done|]. unfold mstepped, mspec.
  destruct (aget a h) as [af|]; [|by wp_steps; split_and!; [| | |apply sv_refl|]]. intros Hr Ha Hv. cbn [negb].
  apply wp_bind, wp_on_fd. pose proof (Hsh _ Hr) as Hs. rewrite Ha in Hs. destruct Hs as (_ & H1 & H2 & _).
  assert (Hg : (if 0 <? mf_fds (mtab s (h - 1)) then set_refs (mf_fds (mtab s (h - 1)) - 1) (mf_maps (mtab s (h - 1))) (mtab s (h - 1)) else mtab s (h - 1)) =
    set_refs (if 0 <? af_fds af then af_fds af - 1 else af_fds af) (af_maps af) (mtab s (h - 1))).
  { rewrite <- H1, <- H2. destruct (0 <? _); [done|by rewrite refs_id]. }
  rewrite Hg. eapply wp_use; [by apply drop_ok|]. cbv beta. intros _ s' (A & B & C & D). apply wp_ret, wp_ret. by split_and!.
Qed.

Lemma dec_ok s ds held a h m : mem_ok s ds held -> mem_shows s a -> avail m (mv s) -> wp (mexec (MDec h)) (mstepped m s ds held a (MDec h)) s.
Proof.
  intros Hok Hsh Hav. cbn [mexec]. unfold memfd_map_dec. apply wp_bind, wp_bind, (wp_handle s a h); [done|]. unfold mstepped, mspec.
  destruct (aget a h) as [af|]; [|by wp_steps; split_and!; [| | |apply sv_refl|]]. intros Hr Ha Hv. cbn [negb].
  apply wp_bind, wp_on_fd. pose proof (Hsh _ Hr) as Hs. rewrite Ha in Hs. destruct Hs as (_ & H1 & H2 & _).
  assert (Hg : (if 0 <? mf_maps (mtab s (h - 1)) then set_refs (mf_fds (mtab s (h - 1))) (mf_maps (mtab s (h - 1)) - 1) (mtab s (h - 1)) else mtab s (h - 1)) =
    set_refs (af_fds af) (if 0 <? af_maps af then af_maps af - 1 else af_maps af) (mtab s (h - 1))).
  { rewrite <- H1, <- H2. destruct (0 <? _); [done|by rewrite refs_id]. }
  rewrite Hg. eapply wp_use; [by apply drop_ok|]. cbv beta. intros _ s' (A & B & C & D). apply wp_ret, wp_ret. by split_and!.
Qed.

Lemma free_slot_eq s a n i : mem_shows s a -> 0 <= i -> i + Z.of_nat n = MEMFD_MAX ->
  free_memfd n i (mtab s) = afree n i a /\ (afree n i a <> MEMFD_MAX -> i <= afree n i a < MEMFD_MAX /\ a (afree n i a) = None).
Proof.
  intros Hsh. revert i. induction n as [|n IH]; intros i Hi Hn; cbn [free_memfd afree]; [done|]. specialize (Hsh i ltac:(lia)) as Hs.
  destruct (a i) as [af|] eqn:E.
  - destruct Hs as (Hv & _). rewrite (proj2 (Z.eqb_neq _ 0) Hv). destruct (IH (i + 1)) as [E1 E2]; [lia|lia|]. split; [done|]. intros Hx. destruct (E2 Hx). split; [lia|done].
  - cbn in Hs. rewrite Hs. cbn. split; [done|]. intros _. split; [lia|done].
Qed.

Lemma create_fd_ok s ds held a name len flags m :
  mem_ok s ds held -> mem_shows s a -> avail m (mv s) -> wp (mexec (MCreate name len flags)) (mstepped m s ds held a (MCreate name len flags)) s.
Proof.
  intros Hok Hsh Hav. cbn [mexec]. unfold memfd_create. apply wp_bind, wp_bind, wp_gets. destruct (free_slot_eq s a (Z.to_nat MEMFD_MAX) 0 Hsh) as [-> Hk]; [done|done|].
  unfold mstepped, mspec. set (k := afree _ 0 a) in *. destruct (Z.eqb_spec k MEMFD_MAX) as [->|Hne]; [by wp_steps; split_and!; [| | |apply sv_refl|]|].
  destruct (Hk Hne) as [Hr Ha]. apply wp_bind, wp_on_fd, wp_ret, wp_ret. split; [done|]. set (f := mk_memfd _ _ _ _ _ _ _ _ _).
  destruct (mem_put s ds held a k f (Some (mk_afd 0 0 0 (fun _ => 0))) Hok Hsh Hr) as [H1 H2].
  - specialize (Hsh k Hr). rewrite Ha in Hsh. cbn in Hsh. unfold slot_refs. by rewrite Hsh.
  - intros _. split; [done|]. split; [done|]. cbn. lia.
  - do 4 (split; [done|]). cbn. lia.
  - split_and!; [done|done|apply sv_refl|done].
Qed.

Lemma memfd_read_ok s ds held a h off size m :
  mem_ok s ds held -> mem_shows s a -> is_u32 off -> is_u32 size -> avail m (mv s) -> wp (mexec (MRead h off size)) (mstepped m s ds held a (MRead h off size)) s.
Proof.
  intros Hok Hsh Ho Hs Hav. cbn [mexec]. unfold memfd_read, mstepped, mspec. destruct (Z.eqb_spec size 0) as [|Hnz]; [by apply wp_ret; split_and!; [| | |apply sv_refl|]|].
  cbn [negb]. apply wp_bind, (wp_handle s a h); [done|]. destruct (aget a h) as [af|]; [|by apply wp_ret; split_and!; [| | |apply sv_refl|]].
  intros Hr Ha Hv. cbn [negb]. apply wp_bind, wp_get_fd. pose proof (Hsh _ Hr) as Hsk. rewrite Ha in Hsk. destruct Hsk as (_ & _ & _ & Hsz & HB).
  destruct (proj2 Hok _ Hr Hv) as (Hnum & Hsize & Hpg). set (f := mtab s (h - 1)) in *. rewrite Hsz.
  destruct (Z.leb_spec (af_size af) off) as [Hle|Hgt]; [by apply wp_ret; split_and!; [| | |apply sv_refl|]|].
  assert (Hmx : af_size af <= FILE_MAX) by (unfold FILE_MAX, PAGE_SIZE in *; lia). assert (Hfm : FILE_MAX = 4194304) by done. unfold is_u32 in *.
  assert (Hn : (if (af_size af <? u32 (off + size)) || (u32 (off + size) <? off) then af_size af - off else size) = Z.min size (af_size af - off)).
  { unfold u32. destruct (Z.lt_ge_cases (off + size) (2 ^ 32)).
    - rewrite Z.mod_small by lia. replace (off + size <? off) with false by lia. rewrite orb_false_r. destruct (Z.ltb_spec (af_size af) (off + size)); lia.
    - replace ((off + size) mod 2 ^ 32) with (off + size - 2 ^ 32) by (symmetry; rewrite <- (Z.mod_small (off + size - 2 ^ 32) (2 ^ 32)) by lia; rewrite <- (Z.mod_add (off + size - 2 ^ 32) 1) by lia; f_equal; lia).
      replace (off + size - 2 ^ 32 <? off) with true by lia. rewrite orb_true_r. lia. }
  rewrite Hn. set (n := Z.min size (af_size af - off)) in *.
  eapply wp_use; [apply (memfd_read_loop_ok _ s f (af_bytes af) n 0 off); [lia|lia|rewrite Z.sub_0_r; change (MEMFD_MAX_PAGES * PAGE_SIZE) with FILE_MAX; lia| |]|].
  - intros x Hx. apply HB; [lia|]. rewrite Hsz in Hsize. lia.
  - rewrite Z.sub_0_r. pose proof (rounds_start n off). rewrite Z2Nat.id by (unfold PAGE_SIZE; word_lia). lia.
  - cbv beta. intros l s' [-> ->]. apply wp_ret. rewrite Z.sub_0_r, i32_small by (unfold is_i32; lia). split_and!; [done|done|done|apply sv_refl|done].
Qed.
(** Memory changes in the frames of object [k] alone. *)
Lemma mem_write s ds held a k r af B :
  let f := mtab s k in let s' := mk_mfs (set_ram r (mv s)) (mtab s) in
  mem_ok s ds held -> mem_shows s a -> 0 <= k < MEMFD_MAX -> a k = Some af ->
  (forall g, (forall i, 0 <= i < mf_num_pages f -> g <> frame (mf_pages f i)) -> forall w, r g w = ram (mv s) g w) ->
  (forall x, 0 <= x -> (x < mf_num_pages f * PAGE_SIZE -> ram_byte (mv s') (fd_addr f x) = B x) /\ (mf_num_pages f * PAGE_SIZE <= x -> B x = 0)) ->
  mem_ok s' ds held /\ mem_shows s' (aupd a k (Some (mk_afd (af_fds af) (af_maps af) (af_size af) B))) /\ sv (mv s) (mv s') ds every.
Proof.
  intros f s' Hok Hsh Hk Ha Hr HB. pose proof (Hsh k Hk) as Hs. rewrite Ha in Hs. destruct Hs as (Hv & H1 & H2 & H3 & _). destruct Hok as [Hok Hfd].
  assert (Hout : forall i, 0 <= i < mf_num_pages f -> pool (frame (mf_pages f i)) /\ frame (mf_pages f i) ∉ refs (ram (mv s)) ds).
  { intros i Hi. destruct (Hfd k Hk Hv) as (_ & _ & Hpg). fold f in Hpg. destruct (Hpg i Hi) as [_ Ho]. assert (Hin : frame (mf_pages f i) ∈ fd_refs (mtab s)) by by apply in_fd_refs.
    assert (Hp : pool (frame (mf_pages f i))) by (eapply held_pool; [done|by apply ms_l]). split; [done|].
    pose proof (own_mult _ _ _ _ Hok Ho Hp) as Hm. rewrite multiplicity_disj_union in Hm. intros Hx. rewrite elem_of_multiplicity in Hin, Hx. lia. }
  assert (Href : forall g, g ∈ refs (ram (mv s)) ds -> forall w, r g w = ram (mv s) g w).
  { intros g Hg. apply Hr. intros i Hi ->. by apply (Hout i). }
  split; [split|split].
  - apply vm_ok_ram; [done|]. intros g [Hg%is_table_in|Hg]; [by apply Href|]. apply Hr. intros i Hi ->. by apply Hg, Hout.
  - exact Hfd.
  - intros x Hx. cbn [mv mtab s']. unfold aupd. destruct (Z.eqb_spec x k) as [->|Hxk]; [by split_and!|].
    specialize (Hsh x Hx). destruct (a x) as [ax|]; [|done]. destruct Hsh as (A & A1 & A2 & A3 & A4). do 4 (split; [done|]). intros pos Hpos.
    destruct (A4 pos Hpos) as [B1 B2]. split; [|done]. intros Hlt. rewrite <- B1 by done. apply ram_byte_keep. cbn [ram set_ram]. apply Hr.
    intros i Hi. destruct (fd_addr_frame (pm (mv s)) (mtab s x) pos (Hfd x Hx A) Hpos Hlt) as [-> _]. destruct (pos_page pos _ Hpos Hlt) as [Hpi _].
    intros E. destruct (fd_pages_inj s ds held x (pos / PAGE_SIZE) k i) as [? _]; try done.
  - apply sv_ram. exact Href.
Qed.

Lemma set_size_ok s ds held a k af n :
  mem_ok s ds held -> mem_shows s a -> 0 <= k < MEMFD_MAX -> a k = Some af -> 0 <= n <= mf_num_pages (mtab s k) * PAGE_SIZE ->
  let s' := mk_mfs (mv s) (tput (mtab s) k (set_size n (mtab s k))) in
  mem_ok s' ds held /\ mem_shows s' (aupd a k (Some (mk_afd (af_fds af) (af_maps af) n (af_bytes af)))).
Proof.
  intros Hok Hsh Hk Ha Hn. pose proof (Hsh k Hk) as Hs. rewrite Ha in Hs. destruct Hs as (H1 & H2 & H3 & H4 & H5). apply mem_put; try done.
  intros Hv. destruct (proj2 Hok k Hk Hv) as (A & B & C). split; [done|]. by split.
Qed.

Lemma nth_u8 buf k : Forall is_u8 buf -> 0 <= nth k buf 0 < 256.
Proof.
  intros Hb. destruct (le_lt_dec (length buf) k) as [Hl|Hl]; [rewrite nth_overflow by done; lia|].
  rewrite Forall_forall in Hb. apply (Hb (nth k buf 0)). by apply nth_In.
Qed.

Lemma ceil_fit n : 0 <= n <= FILE_MAX -> ceil_pages n <= MEMFD_MAX_PAGES /\ n <= ceil_pages n * PAGE_SIZE.
Proof. change FILE_MAX with 4194304. intros H. unfold ceil_pages, MEMFD_MAX_PAGES, PAGE_SIZE, u32. rewrite Z.mod_small by lia. word_lia. Qed.

Lemma size_id f : set_size (mf_size f) f = f.
Proof. by destruct f. Qed.

Lemma memfd_write_ok s ds held a h off buf m :
  mem_ok s ds held -> mem_shows s a -> margs (MWrite h off buf) -> avail (Z.to_nat MEMFD_MAX_PAGES + m) (mv s) ->
  wp (mexec (MWrite h off buf)) (mstepped m s ds held a (MWrite h off buf)) s.
Proof.
  intros Hok Hsh (Ho & Hs & Hb) Hav. pose proof (avail_more _ _ Hav) as Hav0. cbn [mexec]. unfold memfd_write, mstepped, mspec. apply wp_bind. set (size := zlen buf) in *.
  destruct (Z.eqb_spec size 0) as [|Hnz]; [by wp_steps; split_and!; [| | |apply sv_refl|]|].
  apply wp_bind, (wp_handle s a h); [done|]. destruct (aget a h) as [af|]; [|by wp_steps; split_and!; [| | |apply sv_refl|]].
  intros Hr Ha Hv. cbn [negb]. unfold is_u32 in *. assert (Hfm : FILE_MAX = 4194304) by done. change (MEMFD_MAX_PAGES * PAGE_SIZE) with FILE_MAX.
  unfold sat_add. replace (Z.min (off + size) (2 ^ 32 - 1) <? off) with false by lia. cbn [orb].
  replace (FILE_MAX <? Z.min (off + size) (2 ^ 32 - 1)) with (FILE_MAX <? off + size) by lia.
  destruct (Z.ltb_spec FILE_MAX (off + size)) as [Hbig|Hfit]; [by wp_steps; split_and!; [| | |apply sv_refl|]|].
  rewrite Z.min_l by lia. destruct (ceil_fit (off + size)) as [Hc1 Hc2]; [lia|]. set (en := off + size) in *.
  eapply wp_use; [apply (grow_locked_ok s ds held a (h - 1) (ceil_pages en) m Hok Hsh Hr Hv Hav)|]. cbv beta.
  intros ok s1 (Hok1 & Hsh1 & Hav1 & Hsv1 & -> & Hnp & Hv1). rewrite (proj2 (Z.leb_le _ _) Hc1) in *. specialize (Hnp eq_refl). cbn [negb].
  apply wp_bind, wp_on_fd. pose proof (Hsh1 _ Hr) as Hs1. rewrite Ha in Hs1. destruct Hs1 as (_ & F1 & F2 & F3 & F4).
  assert (Hg : (if mf_size (mtab s1 (h - 1)) <? en then set_size en (mtab s1 (h - 1)) else mtab s1 (h - 1)) = set_size (Z.max (af_size af) en) (mtab s1 (h - 1))).
  { rewrite F3. destruct (Z.ltb_spec (af_size af) en); [by rewrite Z.max_r by lia|]. rewrite Z.max_l by lia. by rewrite <- F3, size_id. }
  rewrite Hg. destruct (proj2 Hok1 _ Hr Hv1) as (N1 & N2 & N3). rewrite F3 in N2.
  destruct (set_size_ok s1 ds held a (h - 1) af (Z.max (af_size af) en) Hok1 Hsh1 Hr Ha) as [Hok2 Hsh2]; [unfold PAGE_SIZE in *; lia|].
  set (s2 := mk_mfs _ _) in *. apply wp_bind, wp_get_fd. set (f := mtab s2 (h - 1)).
  assert (Hf : f = set_size (Z.max (af_size af) en) (mtab s1 (h - 1))) by (unfold f, s2; cbn [mtab]; by rewrite tput_at).
  assert (Hvf : mf_valid f <> 0) by by rewrite Hf. pose proof (proj2 Hok2 _ Hr Hvf) as Hfd. fold f in Hfd.
  assert (Hnf : mf_num_pages f = mf_num_pages (mtab s1 (h - 1))) by by rewrite Hf.
  pose proof (memfd_write_loop_ok (Z.to_nat (size / PAGE_SIZE + 2)) s2 f (pm (mv s2)) buf off size 0 Hfd) as Hl. rewrite !Z.add_0_r in Hl.
  eapply wp_use; [apply Hl|].
  - intros i j Hi Hj E. by eapply (fd_pages_inj s2 ds held (h - 1) i (h - 1) j).
  - lia.
  - lia.
  - rewrite Hnf. unfold PAGE_SIZE in *. lia.
  - intros k. by apply nth_u8.
  - rewrite Z.sub_0_r. pose proof (rounds_start size off). rewrite Z2Nat.id by (unfold PAGE_SIZE; word_lia). lia.
  - cbv beta. intros _ s3 (r & -> & Hr3 & Hb3). apply wp_ret, wp_ret. rewrite i32_small by (unfold is_i32; lia). split; [done|]. cbn [fst].
    destruct (mem_write s2 ds held _ (h - 1) r (mk_afd (af_fds af) (af_maps af) (Z.max (af_size af) en) (af_bytes af)) (af_bytes (awrite af off buf)) Hok2 Hsh2 Hr)
      as (A & B & C); [unfold aupd; by rewrite Z.eqb_refl|exact Hr3| |].
    + fold f. intros x Hx. cbn [af_bytes awrite]. fold size en. rewrite Hnf. destruct (F4 x Hx) as [F5 F6]. split.
      * intros Hlt. rewrite <- Hnf in Hlt. rewrite Hb3 by done. fold en. rewrite <- F5; [|by rewrite <- Hnf]. unfold s2 at 1. cbn [mv].
        rewrite Hf. done.
      * intros Hge. replace (x <? en) with false by (unfold PAGE_SIZE in *; lia). rewrite andb_false_r. by apply F6.
    + split; [done|]. split; [|split; [by eapply sv_trans|exact Hav1]]. eapply mem_shows_ext; [exact B|]. intros x. unfold aupd. by destruct (x =? h - 1).
Qed.

Lemma trunc_ok s ds held a h size m :
  mem_ok s ds held -> mem_shows s a -> is_u32 size -> avail (Z.to_nat MEMFD_MAX_PAGES + m) (mv s) ->
  wp (mexec (MTrunc h size)) (mstepped m s ds held a (MTrunc h size)) s.
Proof.
  intros Hok Hsh Hs Hav. pose proof (avail_more _ _ Hav) as Hav0. cbn [mexec]. unfold memfd_truncate, mstepped, mspec. change (MEMFD_MAX_PAGES * PAGE_SIZE) with FILE_MAX. apply wp_bind.
  destruct (Z.ltb_spec FILE_MAX size) as [Hbig|Hfit]; [by wp_steps; split_and!; [| | |apply sv_refl|]|].
  apply wp_bind, (wp_handle s a h); [done|]. destruct (aget a h) as [af|]; [|by wp_steps; split_and!; [| | |apply sv_refl|]].
  intros Hr Ha Hv. cbn [negb]. apply wp_bind, wp_get_fd. destruct (ceil_fit size) as [Hc1 Hc2]; [unfold is_u32 in Hs; lia|].
  apply wp_bind. pose proof (Hsh _ Hr) as Hsk. rewrite Ha in Hsk. destruct Hsk as (_ & _ & _ & H3 & _). destruct (proj2 Hok _ Hr Hv) as (N1 & N2 & N3).
  apply (wp_mono _ (fun ok s1 => ok = true /\ mem_ok s1 ds held /\ mem_shows s1 a /\ sv (mv s) (mv s1) ds every /\ size <= mf_num_pages (mtab s1 (h - 1)) * PAGE_SIZE /\ avail m (mv s1))).
  - destruct (Z.ltb_spec (mf_size (mtab s (h - 1))) size) as [Hlt|Hge].
    + eapply wp_mono; [apply (grow_locked_ok s ds held a (h - 1) (ceil_pages size) m Hok Hsh Hr Hv Hav)|]. cbv beta.
      intros ok s1 (A & B & Ha1 & C & -> & D & _). rewrite (proj2 (Z.leb_le _ _) Hc1) in *. specialize (D eq_refl). split_and!; try done. unfold PAGE_SIZE in *. lia.
    + apply wp_ret. split_and!; try done. lia.
  - cbv beta. intros ok s1 (-> & Hok1 & Hsh1 & Hsv & Hle & Hav1). cbn [negb]. apply wp_bind, wp_on_fd, wp_ret, wp_ret. split; [done|].
    destruct (set_size_ok s1 ds held a (h - 1) af size Hok1 Hsh1 Hr Ha) as [A B]; [unfold is_u32 in Hs; lia|]. by split_and!.
Qed.

Lemma mexec_ok s ds held a o m :
  mem_ok s ds held -> mem_shows s a -> margs o -> avail (Z.to_nat MEMFD_MAX_PAGES + m) (mv s) -> wp (mexec o) (mstepped m s ds held a o) s.
Proof.
  intros Hok Hsh Hm Ha. pose proof (avail_more _ _ Ha) as Ha'. destruct o; [by apply create_fd_ok|by apply ref_ok|by apply memfd_close_ok|by apply inc_ok|by apply dec_ok| |by apply memfd_write_ok|by apply trunc_ok].
  destruct Hm. by apply memfd_read_ok.
Qed.
(** Every operation finds its arguments well-typed and pages to take. *)
Fixpoint mguarded (os : list mop) (s : mfs) : Prop :=
  match os with
  | [] => True
  | o :: os => margs o /\ avail (Z.to_nat MEMFD_MAX_PAGES) (mv s) /\ forall s' r, mexec o s = Some (s', r) -> mguarded os s'
  end.

Fixpoint mexec_all (os : list mop) : M mfs (list (Z * list Z)) :=
  match os with [] => mret [] | o :: os => r ← mexec o; rs ← mexec_all os; mret (r :: rs) end.
Fixpoint mspec_all (a : Z -> option afd) (os : list mop) : (Z -> option afd) * list (Z * list Z) :=
  match os with
  | [] => (a, [])
  | o :: os => let '(a, r) := mspec a o in let '(a, rs) := mspec_all a os in (a, r :: rs)
  end.

(** C6: memory files: any sequence of operations on any number of objects has the
    results of the same operations on byte arrays; objects do not disturb each
    other nor the address spaces. *)
Theorem memfd_refines os s ds held a :
  mem_ok s ds held -> mem_shows s a -> mguarded os s ->
  exists s', mexec_all os s = Some (s', (mspec_all a os).2) /\ mem_ok s' ds held /\ mem_shows s' (mspec_all a os).1 /\ sv (mv s) (mv s') ds every.
Proof.
  revert s a. induction os as [|o os IH]; intros s a Hok Hsh Hg; [exists s; split_and!; try done; apply sv_refl|].
  destruct Hg as (Hm & Hav & Hnext). pose proof (mexec_ok s ds held a o 0 Hok Hsh Hm) as Hx. rewrite Nat.add_0_r in Hx. specialize (Hx Hav).
  apply wp_eq in Hx as (s1 & r & Hrun & -> & Hok1 & Hsh1 & Hsv1 & _). destruct (IH s1 _ Hok1 Hsh1 (Hnext _ _ Hrun)) as (s2 & H1 & H2 & H3 & H4).
  exists s2. cbn [mexec_all mspec_all]. unfold mbind, M_bind. rewrite Hrun, H1. destruct (mspec a o) as [a1 r1]. cbn [fst snd] in *.
  destruct (mspec_all a1 os) as [a2 rs]. cbn [fst snd] in *. split_and!; try done. by eapply sv_trans.
Qed.
End Refine.
