(* ===== verification/Mmap.v ===== *)
(** * Memory mappings

    Model of [kernel/memory/rust_mm/src/vmm/mmap.rs] and [vmm/mmap_clone.rs]
    on the address spaces of [Vmm.v] and the memory files of [Memfd.v].  The
    tables of regions are kept by address, so that a pointer to a table is a
    number (0 is null).  What the file system reads into a page, and the handle
    of the memory file behind a descriptor, are the interface [MmapFiles]. *)
From S2P Require Import Prelude StateM Pmm Vmm Memfd.

#[local] Open Scope Z_scope.

Definition PROT_WRITE : Z := 2.
Definition MAP_SHARED : Z := 1.
Definition MAP_PRIVATE : Z := 2.
Definition MAP_FIXED : Z := 16.
Definition MAP_ANON : Z := 32.
Definition MAP_FAILED : Z := 4294967295.
Definition MMAP_MAX_REGIONS : Z := 256.

Record MmapRegion := mk_region {
  r_base : Z; r_length : Z; r_flags : Z; r_prot : Z; r_fd : Z; r_file_off : Z; r_used : Z; r_shobj : Z
}.
Record MmapTable := mk_mtable { regions : Z -> MmapRegion; next_base : Z }.

Record mms := mk_mms { mf : mfs; tabs : Z -> MmapTable }.

Definition fdo {A} (m : M mfs A) : M mms A := fun s =>
  match m (mf s) with Some (f, a) => Some (mk_mms f (tabs s), a) | None => None end.
Definition vdo {A} (m : M vm A) : M mms A := fdo (vmdo m).
Definition get_tab (tbl : Z) : M mms MmapTable := gets (fun s => tabs s tbl).
Definition on_tab (tbl : Z) (g : MmapTable -> MmapTable) : M mms unit :=
  modify (fun s => mk_mms (mf s) (fun t => if t =? tbl then g (tabs s t) else tabs s t)).

Definition region_upd (rs : Z -> MmapRegion) (i : Z) (r : MmapRegion) : Z -> MmapRegion := fun k => if k =? i then r else rs k.
Definition set_region (i : Z) (r : MmapRegion) (t : MmapTable) : MmapTable := mk_mtable (region_upd (regions t) i r) (next_base t).
Definition set_next (n : Z) (t : MmapTable) : MmapTable := mk_mtable (regions t) n.

(** [n] rounded up to whole pages. *)
Definition page_up (n : Z) : Z := Z.land (u32 (n + PAGE_SIZE - 1)) ADDR_MASK.

Definition prot_to_page_flags (prot : Z) (user : bool) : Z :=
  let f := PAGE_PRESENT in
  let f := if has prot PROT_WRITE then Z.lor f PAGE_RW else f in
  if user then Z.lor f PAGE_USER else f.

(** The first region of [i..i + n] that the range overlaps: where to go on. *)
Fixpoint clash (n : nat) (i : Z) (t : MmapTable) (candidate length : Z) : option Z :=
  match n with
  | O => None
  | S n =>
      let r := regions t i in
      if r_used r =? 0 then clash n (i + 1) t candidate length
      else
        let r_end := u32 (r_base r + r_length r) in
        let c_end := u32 (candidate + length) in
        if (candidate <? r_end) && (r_base r <? c_end) then Some (page_up r_end)
        else clash n (i + 1) t candidate length
  end.

Fixpoint find_loop (fuel : nat) (t : MmapTable) (candidate length : Z) : option Z :=
  match fuel with
  | O => None
  | S fuel =>
      if (MMAP_LIMIT <? u32 (candidate + length)) || (u32 (candidate + length) <? candidate) then Some 0
      else
        match clash (Z.to_nat MMAP_MAX_REGIONS) 0 t candidate length with
        | Some candidate => find_loop fuel t candidate length
        | None => Some candidate
        end
  end.

(** Every region is passed at most once. *)
Definition find_free_va (t : MmapTable) (length : Z) : option Z :=
  find_loop (S (Z.to_nat MMAP_MAX_REGIONS)) t (page_up (next_base t)) length.

Fixpoint free_region (n : nat) (i : Z) (t : MmapTable) : option Z :=
  match n with O => None | S n => if r_used (regions t i) =? 0 then Some i else free_region n (i + 1) t end.
Definition alloc_region_slot (t : MmapTable) : option Z := free_region (Z.to_nat MMAP_MAX_REGIONS) 0 t.

Inductive ensured := POk (pt : Z) | PAbsent | POom | PMmio.

Class MmapFiles := { memfd_fd_handle : Z -> Z; file_page : Z -> Z -> (Z -> Z) -> Z -> Z }.

Section Mmap.
Context `{!KernelImage, !Reclaim vm, !MmapFiles}.

Definition ensure_pde_private (pd pdi : Z) : M vm ensured :=
  if PD_KERNEL_ENTRIES <=? pdi then mret PMmio
  else
    pde ← rd pd pdi;
    if negb (has pde PAGE_PRESENT) then mret PAbsent
    else if has pde PDE_PRIVATE then mret (POk (Z.land pde ADDR_MASK))
    else
      priv_pt ← kalloc_vm;
      if priv_pt =? 0 then mret POom
      else
        copy_page (Z.land pde ADDR_MASK) priv_pt ;;
        pde ← rd pd pdi;
        let old_flags := Z.land pde FLAG_MASK in
        wr pd pdi (Z.lor (Z.land priv_pt ADDR_MASK) (Z.lor (Z.lor (Z.lor old_flags PAGE_USER) PAGE_RW) PDE_PRIVATE)) ;;
        mret (POk priv_pt).

Definition pte_phys (pd va : Z) : M vm Z :=
  pde ← rd pd (pd_index va);
  if negb (has pde PAGE_PRESENT) then mret 0
  else
    pte ← rd (Z.land pde ADDR_MASK) (pt_index va);
    if negb (has pte PAGE_PRESENT) then mret 0 else mret (Z.land pte ADDR_MASK).

(** The entry is cleared, the frame of a user page released. *)
Definition drop_pte (pt pti : Z) : M vm unit :=
  pte ← rd pt pti;
  (if has pte PAGE_PRESENT && has pte PAGE_USER then free_pg (Z.land pte ADDR_MASK) else skip) ;;
  wr pt pti 0.

Definition clear_user_pte (pd va : Z) : M vm unit :=
  pde ← rd pd (pd_index va);
  if negb (has pde PAGE_PRESENT) then skip else drop_pte (Z.land pde ADDR_MASK) (pt_index va).

Definition mmap_table_init (tbl : Z) : M mms unit :=
  if tbl =? 0 then skip
  else
    for_each (seqZ 0 MMAP_MAX_REGIONS) (fun i =>
      on_tab tbl (fun t => let r := regions t i in
        set_region i (mk_region (r_base r) (r_length r) (r_flags r) (r_prot r) (-1) (r_file_off r) 0 0) t)) ;;
    on_tab tbl (set_next MMAP_BASE).

Fixpoint find_region (n : nat) (i : Z) (t : MmapTable) (p : MmapRegion -> bool) : option Z :=
  match n with
  | O => None
  | S n => if negb (r_used (regions t i) =? 0) && p (regions t i) then Some i else find_region n (i + 1) t p
  end.

Definition mmap_find_region (tbl addr : Z) : M mms (option Z) :=
  if tbl =? 0 then mret None
  else
    t ← get_tab tbl;
    mret (find_region (Z.to_nat MMAP_MAX_REGIONS) 0 t (fun r => (r_base r <=? addr) && (addr <? u32 (r_base r + r_length r)))).

(** One page of [do_munmap]; [Some] is the value to return. *)
Definition munmap_page (pd va : Z) : M vm (option Z) :=
  let pdi := pd_index va in
  pde_val ← rd pd pdi;
  if negb (has pde_val PAGE_PRESENT) then mret None
  else
    e ← ensure_pde_private pd pdi;
    match e with
    | POk pt => drop_pte pt (pt_index va) ;; mret None
    | PAbsent | PMmio => mret None
    | POom => mret (Some (-1))
    end.

Definition munmap_region (tbl i addr length : Z) : M mms unit :=
  t ← get_tab tbl;
  let r := regions t i in
  if (addr =? r_base r) && (r_length r <=? length) then
    on_tab tbl (set_region i (mk_region (r_base r) (r_length r) (r_flags r) (r_prot r) (-1) (r_file_off r) 0 0)) ;;
    if 0 <? r_shobj r then _ ← fdo (memfd_map_dec (r_shobj r)); skip else skip
  else if addr =? r_base r then
    on_tab tbl (set_region i (mk_region (u32 (r_base r + length)) (u32 (r_length r - length)) (r_flags r) (r_prot r) (r_fd r)
                                (u32 (r_file_off r + length)) (r_used r) (r_shobj r)))
  else
    on_tab tbl (set_region i (mk_region (r_base r) (u32 (addr - r_base r)) (r_flags r) (r_prot r) (r_fd r) (r_file_off r) (r_used r) (r_shobj r))).

Definition do_munmap (pd tbl addr length : Z) : M mms Z :=
  if (pd =? 0) || (tbl =? 0) || (length =? 0) then mret (-1)
  else if negb (addr mod PAGE_SIZE =? 0) then mret (-1)
  else
    let length := page_up length in
    t ← get_tab tbl;
    match find_region (Z.to_nat MMAP_MAX_REGIONS) 0 t (fun r =>
            ((r_base r =? addr) && (r_length r =? length))
            || ((r_base r <=? addr) && (u32 (addr + length) <=? u32 (r_base r + r_length r)))) with
    | None => mret (-1)
    | Some i =>
        r ← vdo (for_ret (seqZ 0 (length / PAGE_SIZE)) (fun p => munmap_page pd (u32 (addr + p * PAGE_SIZE))));
        match r with
        | Some v => mret v
        | None => munmap_region tbl i addr length ;; mret 0
        end
    end.

(** [while installed < pages] of a shared mapping: the pages installed. *)
Fixpoint install_loop (n : nat) (pd va shobj first_page installed page_flags : Z) : M mms Z :=
  match n with
  | O => mret installed
  | S n =>
      page ← fdo (memfd_get_page shobj (u32 (first_page + installed)));
      if page =? 0 then mret installed
      else
        let va_i := u32 (va + installed * PAGE_SIZE) in
        vdo (vmm_map pd va_i page page_flags) ;;
        phys ← vdo (pte_phys pd va_i);
        if negb (phys =? page) then mret installed
        else vdo (ref_inc page) ;; install_loop n pd va shobj first_page (installed + 1) page_flags
  end.

(** Whether the frames of the memory file could be mapped. *)
Definition mmap_memfd (pd va shobj offset length page_flags : Z) : M mms bool :=
  if negb (offset mod PAGE_SIZE =? 0) then mret false
  else
    r ← fdo (memfd_map_inc shobj);
    if negb (r =? 0) then mret false
    else
      r ← fdo (memfd_grow_to shobj (u32 (offset + length)));
      if negb (r =? 0) then _ ← fdo (memfd_map_dec shobj); mret false
      else
        let pages := length / PAGE_SIZE in
        installed ← install_loop (Z.to_nat pages) pd va shobj (offset / PAGE_SIZE) 0 page_flags;
        if installed <? pages then
          for_each (seqZ 0 installed) (fun m => vdo (clear_user_pte pd (u32 (va + m * PAGE_SIZE)))) ;;
          _ ← fdo (memfd_map_dec shobj);
          mret false
        else mret true.

(** A private copy of a memory file. *)
Definition mmap_memfd_copy (pd va shobj offset length page_flags : Z) : M mms bool :=
  if negb (offset mod PAGE_SIZE =? 0) then mret false
  else
    r ← for_ret (seqZ 0 (length / PAGE_SIZE)) (fun i =>
      phys ← vdo kalloc_vm;
      if phys =? 0 then
        for_each (seqZ 0 i) (fun m => vdo (clear_user_pte pd (u32 (va + m * PAGE_SIZE)))) ;; mret (Some tt)
      else
        vdo (zero_page phys) ;;
        src ← fdo (memfd_get_page shobj (u32 (offset / PAGE_SIZE + i)));
        (if negb (src =? 0) then vdo (copy_page src phys) else skip) ;;
        vdo (vmm_map pd (u32 (va + i * PAGE_SIZE)) phys page_flags) ;;
        mret None);
    mret (match r with Some _ => false | None => true end).

(** What [read_vfs] leaves in the page. *)
Definition read_file_page (fd off phys : Z) : M vm unit :=
  modify (fun s => set_ram (rpage (ram s) (frame phys) (file_page fd off (ram s (frame phys)))) s).

Definition mmap_file (pd tbl va fd offset length page_flags : Z) : M mms bool :=
  r ← for_ret (seqZ 0 (length / PAGE_SIZE)) (fun i =>
    phys ← vdo kalloc_vm;
    if phys =? 0 then _ ← do_munmap pd tbl va (u32 (i * PAGE_SIZE)); mret (Some tt)
    else
      vdo (zero_page phys) ;;
      vdo (read_file_page fd (u32 (offset + i * PAGE_SIZE)) phys) ;;
      vdo (vmm_map pd (u32 (va + i * PAGE_SIZE)) phys page_flags) ;;
      mret None);
  mret (match r with Some _ => false | None => true end).

Definition do_mmap (pd tbl hint length prot flags fd offset : Z) : M mms Z :=
  if (pd =? 0) || (tbl =? 0) || (length =? 0) then mret MAP_FAILED
  else if negb (has flags MAP_SHARED) && negb (has flags MAP_PRIVATE) then mret MAP_FAILED
  else
    let length := page_up length in
    t ← get_tab tbl;
    va ← (if has flags MAP_FIXED && negb (hint =? 0) then
            if negb (hint mod PAGE_SIZE =? 0) then mret None
            else if (USER_STACK_TOP <=? hint) || (USER_STACK_TOP <? sat_add hint length) then mret None
            else mret (Some hint)
          else
            va ← lift (find_free_va t length);
            mret (if va =? 0 then None else Some va));
    match va, alloc_region_slot t with
    | Some va, Some i =>
        let page_flags := prot_to_page_flags prot true in
        let shared := has flags MAP_SHARED in
        let shobj := if negb (has flags MAP_ANON) && negb (fd <? 0) && shared then memfd_fd_handle fd else 0 in
        ok ← (if has flags MAP_ANON then r ← vdo (vmm_map_zero pd va length page_flags); mret (r =? 0)
              else if fd <? 0 then mret false
              else if (0 <? shobj) && shared then mmap_memfd pd va shobj offset length page_flags
              else if 0 <? shobj then mmap_memfd_copy pd va shobj offset length page_flags
              else mmap_file pd tbl va fd offset length page_flags);
        if negb ok then mret MAP_FAILED
        else
          let shared_backed := (0 <? shobj) && shared in
          on_tab tbl (set_region i (mk_region va length (u32 flags) (u32 prot) (if has flags MAP_ANON then -1 else fd) offset 1
                                      (if shared_backed then shobj else 0))) ;;
          on_tab tbl (fun t => if next_base t <? u32 (va + length) then set_next (u32 (va + length)) t else t) ;;
          mret va
    | _, _ => mret MAP_FAILED
    end.

Definition mprotect_page (pd va page_flags : Z) : M vm (option Z) :=
  let pdi := pd_index va in
  pde_val ← rd pd pdi;
  if negb (has pde_val PAGE_PRESENT) then mret None
  else
    e ← ensure_pde_private pd pdi;
    match e with
    | POk pt =>
        pte ← rd pt (pt_index va);
        if negb (has pte PAGE_PRESENT) then mret None
        else wr pt (pt_index va) (Z.lor (Z.land pte ADDR_MASK) page_flags) ;; mret None
    | PAbsent | PMmio => mret None
    | POom => mret (Some (-1))
    end.

Definition set_prot (prot : Z) (r : MmapRegion) : MmapRegion :=
  mk_region (r_base r) (r_length r) (r_flags r) prot (r_fd r) (r_file_off r) (r_used r) (r_shobj r).

Definition do_mprotect (pd tbl addr length prot brk_start brk_end : Z) : M mms Z :=
  if (pd =? 0) || (tbl =? 0) || (length =? 0) then mret (-1)
  else if negb (addr mod PAGE_SIZE =? 0) then mret (-1)
  else
    let length := page_up length in
    let in_brk := (brk_start <=? addr) && (addr <? brk_end) in
    region ← mmap_find_region tbl addr;
    match region, in_brk with
    | None, false => mret (-1)
    | _, _ =>
        let page_flags := prot_to_page_flags prot true in
        r ← vdo (for_ret (seqZ 0 (length / PAGE_SIZE)) (fun p => mprotect_page pd (u32 (addr + p * PAGE_SIZE)) page_flags));
        match r with
        | Some v => mret v
        | None =>
            (match region, in_brk with
             | Some i, false => on_tab tbl (fun t => set_region i (set_prot (u32 prot) (regions t i)) t)
             | _, _ => skip
             end) ;;
            mret 0
        end
    end.

Definition mmap_handle_fault (pd tbl fault_addr : Z) : M mms Z :=
  if (pd =? 0) || (tbl =? 0) then mret (-1)
  else
    region ← mmap_find_region tbl fault_addr;
    match region with
    | None => mret (-1)
    | Some i =>
        t ← get_tab tbl;
        let r := regions t i in
        let page_va := Z.land fault_addr ADDR_MASK in
        let pdi := pd_index page_va in
        let pti := pt_index page_va in
        vdo (
          pde_val ← rd pd pdi;
          if negb (has pde_val PAGE_PRESENT) then mret (-1)
          else
            e ← ensure_pde_private pd pdi;
            match e with
            | POk pt =>
                pte ← rd pt pti;
                if has pte PAGE_PRESENT then mret (-1)
                else
                  phys ← kalloc_vm;
                  if phys =? 0 then mret (-1)
                  else
                    zero_page phys ;;
                    (if 0 <=? r_fd r
                     then read_file_page (r_fd r) (u32 (r_file_off r + u32 (page_va - r_base r))) phys else skip) ;;
                    let page_flags := prot_to_page_flags (r_prot r) true in
                    wr pt pti (Z.lor (Z.land phys ADDR_MASK) page_flags) ;;
                    mret 0
            | _ => mret (-1)
            end)
    end.

(** ** Fork *)

(** The child's table for the entry: its address, if there is one. *)
Definition clone_table (dst_pd pdi : Z) : M vm (option Z) :=
  dst_pde ← rd dst_pd pdi;
  if negb (has dst_pde PAGE_PRESENT) then
    new_pt ← kalloc_vm;
    if new_pt =? 0 then mret None
    else
      zero_page new_pt ;;
      wr dst_pd pdi (Z.lor (Z.lor (Z.lor (Z.lor (Z.land new_pt ADDR_MASK) PAGE_PRESENT) PAGE_RW) PAGE_USER) PDE_PRIVATE) ;;
      mret (Some (Z.land new_pt ADDR_MASK))
  else
    e ← ensure_pde_private dst_pd pdi;
    match e with
    | POom | PMmio => mret None
    | _ => dst_pde ← rd dst_pd pdi; mret (Some (Z.land dst_pde ADDR_MASK))
    end.

Definition clone_shared_page (src_pd dst_pd va : Z) : M vm unit :=
  let pdi := pd_index va in
  let pti := pt_index va in
  src_pde ← rd src_pd pdi;
  if negb (has src_pde PAGE_PRESENT) then skip
  else
    pte ← rd (Z.land src_pde ADDR_MASK) pti;
    if pte =? 0 then skip
    else
      dst_pt ← clone_table dst_pd pdi;
      match dst_pt with
      | None => skip
      | Some dst_pt =>
          wr dst_pt pti pte ;;
          if has pte PAGE_PRESENT then ref_inc (Z.land pte ADDR_MASK) else skip
      end.

Definition clone_private_page (src_pd dst_pd va : Z) : M vm unit :=
  let pdi := pd_index va in
  let pti := pt_index va in
  src_pde ← rd src_pd pdi;
  if negb (has src_pde PAGE_PRESENT) then skip
  else
    pte ← rd (Z.land src_pde ADDR_MASK) pti;
    dst_pt ← clone_table dst_pd pdi;
    match dst_pt with
    | None => skip
    | Some dst_pt =>
        if negb (has pte PAGE_PRESENT) then wr dst_pt pti pte
        else
          e ← ensure_pde_private src_pd pdi;
          match e with
          | POom | PMmio => skip
          | _ =>
              src_pde ← rd src_pd pdi;
              let cow_pte := Z.lor (clear pte PAGE_RW) PAGE_COW in
              wr (Z.land src_pde ADDR_MASK) pti cow_pte ;;
              wr dst_pt pti cow_pte ;;
              ref_inc (Z.land pte ADDR_MASK)
          end
    end.

Definition mmap_table_clone (src dst src_pd dst_pd : Z) : M mms unit :=
  if (src =? 0) || (dst =? 0) then skip
  else
    t ← get_tab src;
    on_tab dst (set_next (next_base t)) ;;
    for_each (seqZ 0 MMAP_MAX_REGIONS) (fun i =>
      t ← get_tab src;
      let sr := regions t i in
      if r_used sr =? 0 then
        on_tab dst (fun t => let r := regions t i in
          set_region i (mk_region (r_base r) (r_length r) (r_flags r) (r_prot r) (r_fd r) (r_file_off r) 0 (r_shobj r)) t)
      else
        on_tab dst (set_region i sr) ;;
        let pages := seqZ 0 (r_length sr / PAGE_SIZE) in
        if has (r_flags sr) MAP_SHARED then
          (if 0 <? r_shobj sr then _ ← fdo (memfd_map_inc (r_shobj sr)); skip else skip) ;;
          vdo (for_each pages (fun p => clone_shared_page src_pd dst_pd (u32 (r_base sr + p * PAGE_SIZE))))
        else vdo (for_each pages (fun p => clone_private_page src_pd dst_pd (u32 (r_base sr + p * PAGE_SIZE))))).

Definition mmap_table_free (tbl pd : Z) : M mms unit :=
  if (tbl =? 0) || (pd =? 0) then skip
  else
    for_each (seqZ 0 MMAP_MAX_REGIONS) (fun i =>
      t ← get_tab tbl;
      let r := regions t i in
      if r_used r =? 0 then skip else _ ← do_munmap pd tbl (r_base r) (r_length r); skip).
End Mmap.
