(* ===== verification/MmapSpec.v ===== *)
(** * Regions of memory mappings

    [find_free_va] returns the lowest free range, and the table of regions
    keeps its form: regions are whole pages of user space and, as long as no
    fixed address is asked for, disjoint. *)
From S2P Require Import Prelude StateM Pmm Vmm Memfd Mmap.

#[local] Open Scope Z_scope.

Definition used (t : MmapTable) (i : Z) : Prop := 0 <= i < MMAP_MAX_REGIONS /\ r_used (regions t i) <> 0.
Definition r_end (r : MmapRegion) : Z := r_base r + r_length r.
Definition aligned (n : Z) : Prop := n mod PAGE_SIZE = 0.

Definition region_ok (r : MmapRegion) : Prop :=
  0 <= r_base r /\ 0 <= r_length r /\ r_end r <= USER_STACK_TOP /\ aligned (r_base r) /\ aligned (r_length r).
Definition tab_ok (t : MmapTable) : Prop :=
  MMAP_BASE <= next_base t <= USER_STACK_TOP /\ forall i, used t i -> region_ok (regions t i).

(** The range [v, v + len) meets no region. *)
Definition vacant (t : MmapTable) (len v : Z) : Prop :=
  forall i, used t i -> r_end (regions t i) <= v \/ v + len <= r_base (regions t i).
Definition suitable (t : MmapTable) (len v : Z) : Prop := aligned v /\ v + len <= MMAP_LIMIT /\ vacant t len v.

Definition disjoint_regions (t : MmapTable) : Prop :=
  forall i j, used t i -> used t j -> i <> j ->
    r_end (regions t i) <= r_base (regions t j) \/ r_end (regions t j) <= r_base (regions t i).

Lemma mask_div x : 0 <= x < 2 ^ 32 -> Z.land x ADDR_MASK = x / PAGE_SIZE * PAGE_SIZE.
Proof.
  intros Hx. unfold ADDR_MASK, PAGE_SIZE. change 4294963200 with (Z.shiftl (Z.ones 20) 12). change (x / 4096 * 4096) with (x / 2 ^ 12 * 2 ^ 12).
  rewrite <- Z.shiftr_div_pow2, <- Z.shiftl_mul_pow2 by lia.
  apply Z.bits_inj'. intros k Hk. rewrite Z.land_spec. destruct (Z.lt_ge_cases k 12).
  - by rewrite !Z.shiftl_spec_low, andb_false_r by lia.
  - rewrite !Z.shiftl_spec, Z.shiftr_spec by lia. replace (k - 12 + 12) with k by lia. destruct (Z.lt_ge_cases k 32).
    + by rewrite Z.ones_spec_low, andb_true_r by lia.
    + rewrite Z.ones_spec_high, andb_false_r by lia. symmetry. destruct (Z.eq_dec x 0) as [->|]; [apply Z.bits_0|].
      apply Z.bits_above_log2; [lia|]. apply Z.log2_lt_pow2; [lia|]. apply Z.lt_le_trans with (2 ^ 32); [lia|]. apply Z.pow_le_mono_r; lia.
Qed.
Lemma page_up_ok n : 0 <= n <= 2 ^ 32 - 4096 -> aligned (page_up n) /\ n <= page_up n < n + PAGE_SIZE /\ (aligned n -> page_up n = n).
Proof.
  intros Hn. unfold page_up, u32. assert (Hps : PAGE_SIZE = 4096) by done. rewrite Z.mod_small, mask_div by lia. unfold aligned, PAGE_SIZE. word_lia.
Qed.

Lemma page_up_pages len : 0 < len <= 2 ^ 32 - 4096 -> let n := page_up len / PAGE_SIZE in 0 < n /\ page_up len = n * PAGE_SIZE /\ n * PAGE_SIZE < 2 ^ 32.
Proof. intros Hl. destruct (page_up_ok len) as (H1 & H2 & _); [lia|]. unfold aligned, PAGE_SIZE in *. word_lia. Qed.

Lemma clash_ok t n i c len :
  tab_ok t -> 0 <= i -> i + Z.of_nat n = MMAP_MAX_REGIONS -> 0 <= c -> 0 <= len -> c + len < 2 ^ 32 ->
  match clash n i t c len with
  | Some c' => exists k, used t k /\ c' = r_end (regions t k) /\ c < c' /\ r_base (regions t k) < c + len
  | None => forall k, used t k -> i <= k -> r_end (regions t k) <= c \/ c + len <= r_base (regions t k)
  end.
Proof.
  intros [Hnb Hr] Hi Hn Hc Hl Hb. revert i Hi Hn. induction n as [|n IH]; intros i Hi Hn; cbn [clash].
  { intros k [Hk _] Hik. lia. }
  specialize (IH (i + 1) ltac:(lia) ltac:(lia)). destruct (Z.eqb_spec (r_used (regions t i)) 0) as [Hu|Hu].
  - destruct (clash n (i + 1) t c len); [done|]. intros k Hk Hik. apply IH; [done|]. destruct (Z.eq_dec k i) as [->|]; [by destruct Hk|lia].
  - assert (Hui : used t i) by (split; [lia|done]). destruct (Hr i Hui) as (B1 & B2 & B3 & B4 & B5). unfold r_end in *.
    change USER_STACK_TOP with 3221225472 in *. unfold u32. rewrite !Z.mod_small by lia.
    destruct ((c <? r_base (regions t i) + r_length (regions t i)) && (r_base (regions t i) <? c + len)) eqn:E.
    + apply andb_prop in E as [E1 E2]. b2p. exists i. split; [done|]. destruct (page_up_ok (r_base (regions t i) + r_length (regions t i))) as (_ & _ & Hp); [lia|].
      rewrite Hp by (unfold aligned, PAGE_SIZE in *; word_lia). lia.
    + destruct (clash n (i + 1) t c len); [done|]. intros k Hk Hik. destruct (Z.eq_dec k i) as [->|]; [|apply IH; [done|lia]].
      apply andb_false_iff in E as [E|E]; b2p; lia.
Qed.

(** Regions that end above [c]. *)
Definition above (t : MmapTable) (c : Z) : nat :=
  length (filter (fun i => r_used (regions t i) <> 0 /\ c < r_end (regions t i)) (seqZ 0 MMAP_MAX_REGIONS)).

Lemma above_step t c k : used t k -> c < r_end (regions t k) -> (above t (r_end (regions t k)) < above t c)%nat.
Proof.
  intros [Hk Hu] Hc. unfold above. assert (Hin : k ∈ seqZ 0 MMAP_MAX_REGIONS) by (apply elem_of_seqZ; lia).
  revert Hin. generalize (seqZ 0 MMAP_MAX_REGIONS) as l. induction l as [|x l IH]; [by intros ?%elem_of_nil|].
  assert (Hle : (length (filter (fun i => (r_used (regions t i) <> 0 /\ r_end (regions t k) < r_end (regions t i))%Z) l) <=
                 length (filter (fun i => (r_used (regions t i) <> 0 /\ c < r_end (regions t i))%Z) l))%nat).
  { clear IH. induction l as [|y l IH]; [done|]. rewrite !filter_cons. repeat case_decide; cbn; lia. }
  intros [<-|Hx]%elem_of_cons.
  - rewrite !filter_cons. rewrite decide_False by lia. rewrite decide_True by done. cbn. lia.
  - specialize (IH Hx). rewrite !filter_cons. repeat case_decide; cbn; lia.
Qed.

Lemma above_max t c : (above t c <= Z.to_nat MMAP_MAX_REGIONS)%nat.
Proof. unfold above. etrans; [apply length_filter|]. by rewrite length_seqZ. Qed.

Lemma va_loop_ok t len fuel c :
  tab_ok t -> 0 <= len < 2 ^ 32 -> 0 < c <= USER_STACK_TOP -> aligned c -> (above t c < fuel)%nat ->
  exists va, find_loop fuel t c len = Some va /\
    (va <> 0 -> c <= va /\ suitable t len va /\ forall v, c <= v -> suitable t len v -> va <= v) /\
    (va = 0 -> forall v, c <= v -> ~ suitable t len v).
Proof.
  intros Ht Hl. revert c. induction fuel as [|fuel IH]; intros c Hc Hal Hf; [lia|]. cbn [find_loop].
  assert (Hlim : MMAP_LIMIT = 3204448256) by done. assert (Htop : USER_STACK_TOP = 3221225472) by done.
  destruct ((MMAP_LIMIT <? u32 (c + len)) || (u32 (c + len) <? c)) eqn:E.
  - exists 0. split; [done|]. split; [done|]. intros _ v Hv (_ & Hs & _). unfold u32 in E. destruct (Z.lt_ge_cases (c + len) (2 ^ 32)); [|lia].
    rewrite Z.mod_small in E by lia. apply orb_true_iff in E as [E|E]; b2p; lia.
  - apply orb_false_iff in E as [E1 E2]. b2p. assert (Hs : c + len < 2 ^ 32).
    { destruct (Z.lt_ge_cases (c + len) (2 ^ 32)) as [|Hge]; [done|]. exfalso. unfold u32 in E2.
      rewrite <- (Z.mod_add (c + len) (-1)) in E2 by lia. rewrite Z.mod_small in E2 by lia. lia. }
    unfold u32 in E1. rewrite Z.mod_small in E1 by lia.
    pose proof (clash_ok t (Z.to_nat MMAP_MAX_REGIONS) 0 c len Ht) as Hcl. specialize (Hcl ltac:(lia) ltac:(done) ltac:(lia) ltac:(lia) Hs).
    destruct (clash _ 0 t c len) as [c'|].
    + destruct Hcl as (k & Hk & -> & Hgt & Hb). destruct (proj2 Ht k Hk) as (B1 & B2 & B3 & B4 & B5).
      destruct (IH (r_end (regions t k))) as (va & -> & HA & HB); [lia|unfold aligned, r_end, PAGE_SIZE in *; word_lia|pose proof (above_step t c k Hk Hgt); lia|].
      exists va. split; [done|]. assert (Hskip : forall v, c <= v -> suitable t len v -> r_end (regions t k) <= v).
      { intros v Hv (_ & _ & Hvac). destruct (Hvac k Hk); lia. }
      split.
      * intros Hva. destruct (HA Hva) as (A1 & A2 & A3). split; [lia|]. split; [done|]. intros v Hv Hsv. apply A3; auto.
      * intros Hva v Hv Hsv. apply (HB Hva v); auto.
    + exists c. split; [done|]. split; [|lia]. intros _. split; [lia|]. split; [|intros; lia]. split; [done|]. split; [lia|].
      intros k Hk. apply Hcl; [done|]. destruct Hk. lia.
Qed.

(** [find_free_va] returns, and gives the lowest range of free pages from the
    table's base on, or 0 when there is none. *)
Theorem find_free_va_exact t len :
  tab_ok t -> 0 <= len < 2 ^ 32 ->
  exists va, find_free_va t len = Some va /\
    (va <> 0 -> next_base t <= va /\ suitable t len va /\ forall v, next_base t <= v -> suitable t len v -> va <= v) /\
    (va = 0 -> forall v, next_base t <= v -> ~ suitable t len v).
Proof.
  intros Ht Hl. destruct Ht as [Hnb Hr]. pose proof (conj Hnb Hr) as Ht. unfold find_free_va.
  change MMAP_BASE with 1073741824 in Hnb. change USER_STACK_TOP with 3221225472 in Hnb.
  destruct (page_up_ok (next_base t)) as (P1 & P2 & P3); [lia|].
  assert (Hup : forall v, next_base t <= v -> aligned v -> page_up (next_base t) <= v) by (intros v Hv Ha; unfold aligned, PAGE_SIZE in *; word_lia).
  assert (Htop : page_up (next_base t) <= USER_STACK_TOP) by (apply Hup; [lia|done]).
  destruct (va_loop_ok t len (S (Z.to_nat MMAP_MAX_REGIONS)) (page_up (next_base t))) as (va & -> & HA & HB);
    [done|done|lia|done|pose proof (above_max t (page_up (next_base t))); lia|].
  exists va. split; [done|]. split.
  - intros Hva. destruct (HA Hva) as (A1 & A2 & A3). split; [lia|]. split; [done|]. intros v Hv Hs. apply A3; [|done]. apply Hup; [done|apply Hs].
  - intros Hva v Hv Hs. apply (HB Hva v); [|done]. apply Hup; [done|apply Hs].
Qed.
