(* ===== verification/MmapOps.v ===== *)
(** * Pages of memory mappings

    What [do_mmap] and [do_munmap] do to the address space: an anonymous
    mapping reads as zeros and belongs to the process alone; what is unmapped
    is out of reach, its frames released; other pages stay as they are. *)
From stdpp Require Import gmultiset gmap.
From S2P Require Import Prelude StateM Pmm Vmm Swap PageFault VmmSpec VmmOps VmmTrace Memfd Mmap MmapSpec.

#[local] Open Scope Z_scope.

(** The entries [P] of the address spaces stay; tables stay private. *)
Definition keeps (s s' : vm) (ds : list Z) (P : Z -> Z -> Z -> Prop) : Prop :=
  (forall d i j, in_ds ds (SLeaf d i j) -> P d i j -> rpte s' d i j = rpte s d i j) /\
  (forall d i, d ∈ ds -> 0 <= i < PD_KERNEL_ENTRIES -> priv (ram s d i) = true ->
     priv (ram s' d i) = true /\ (user (ram s d i) = true -> user (ram s' d i) = true)).

Lemma keeps_trans s1 s2 s3 ds P : keeps s1 s2 ds P -> keeps s2 s3 ds P -> keeps s1 s3 ds P.
Proof.
  intros [A1 A2] [B1 B2]. split.
  - intros d i j Hin HP. rewrite B1 by done. by apply A1.
  - intros d i Hd Hi Hp. destruct (A2 d i Hd Hi Hp) as [H1 H2]. destruct (B2 d i Hd Hi H1) as [H3 H4]. auto.
Qed.
Lemma keeps_refl s ds P : keeps s s ds P.
Proof. by split. Qed.
Lemma keeps_weaken s s' ds (P Q : Z -> Z -> Z -> Prop) : keeps s s' ds P -> (forall d i j, Q d i j -> P d i j) -> keeps s s' ds Q.
Proof. intros [H1 H2] HQ. split; [auto|done]. Qed.

Section Pages.
Context {KI : KernelImage} {KO : KernelImageOk} `{!Reclaim vm}.

(** The table of entry [i] made private by a copy: no entry changes. *)
Lemma copied_keeps s s' ds held d i t e' :
  vm_ok s ds held -> d ∈ ds -> 0 <= i < PD_KERNEL_ENTRIES -> priv (ram s d i) = false -> table_ready s s' ds d i ->
  ram s' d i = e' -> fr e' = t -> (forall j, 0 <= j < 1024 -> ram s' t j = ram s (fr (ram s d i)) j) ->
  (forall d' i', d' ∈ ds -> (d', i') <> (d, i) -> ram s' d' i' = ram s d' i') ->
  (forall g, ~ pool g -> forall w, ram s' g w = ram s g w) -> keeps s s' ds every.
Proof.
  intros Hok Hd Hi Hp (R1 & R2 & R3 & R4) He Ht Hcp Hdir Hnp. pose proof Hok as (_ & _ & Hk & Hds & o & Hc).
  assert (Hent : forall d' i', d' ∈ ds -> 0 <= i' < PD_KERNEL_ENTRIES -> (d', i') <> (d, i) -> forall j, 0 <= j < 1024 -> rpte s' d' i' j = rpte s d' i' j).
  { intros d' i' Hd' Hi' Hne j Hj. unfold rpte. rewrite (Hdir d' i') by done. destruct (Hds d' Hd') as [Hdo [_ Hso]]. destruct (Hdo i' Hi') as (_ & _ & Hx).
    destruct (priv (ram s d' i')) eqn:E.
    - destruct (tab_unique s ds held d' i' Hok Hd' Hi' E) as (_ & _ & Hnd & _ & _). apply R4.
      + intros Hx2. apply (Hnd d Hd). congruence.
      + destruct (Hso i' Hi' E) as [Ho _]. unfold own in Ho. lia.
    - rewrite Hx. apply Hnp. by destruct (Hk i' Hi') as (_ & _ & _ & ? & _). }
  split.
  - intros d' i' j (Hd' & Hi' & Hj) _. destruct (decide ((d', i') = (d, i))) as [[= -> ->]|Hne]; [|by apply Hent].
    unfold rpte. rewrite He, Ht. by apply Hcp.
  - intros d' i' Hd' Hi' Hpr. rewrite Hdir; [done|done|]. intros [= -> ->]. congruence.
Qed.

Lemma copy_private s s1 ds held d i t e' :
  vm_ok s ds held -> s1 = set_pm (pm s1) s -> vm_ok s1 ds ({[+ t +]} ⊎ held) -> own (pm s1) t -> refcounts (pm s) t = 0 ->
  (forall g, g <> t -> refcounts (pm s1) g = refcounts (pm s) g) -> d ∈ ds -> 0 <= i < PD_KERNEL_ENTRIES -> priv (ram s d i) = false ->
  fr e' = t -> priv e' = true -> pres e' = true -> rw e' = true ->
  let s' := set_ram (rupd (rpage (ram s1) t (ram s (fr (ram s d i)))) d i e') s1 in
  vm_ok s' ds held /\ sv s s' ds every /\ keeps s s' ds every /\ ram s' d i = e' /\ forall i', i' <> i -> ram s' d i' = ram s d i'.
Proof.
  intros Hok Hs1 Hok1 Hot Hrc0 Hrc Hd Hi Hp V1 V2 V3 V4 s'. assert (Hram : ram s1 = ram s) by by rewrite Hs1.
  destruct (link_ready s s1 ds held d i t e' Hs1 Hok1 Hot Hrc0 Hrc Hd Hi Hp V1 V2 V3 V4) as (A1 & A2 & A3 & A4).
  destruct (held_fresh s1 ds held t Hok1 Hot) as [Hnr _].
  assert (Hdir : forall d' i', d' ∈ ds -> (d', i') <> (d, i) -> ram s' d' i' = ram s d' i').
  { intros d' i' Hd' Hne. assert (d' <> t) by (intros Hx; apply Hnr; rewrite <- Hx; by apply dir_in).
    subst s'. cbn [ram set_ram]. unfold rupd. destruct (Z.eqb_spec d' d) as [->|Hdd]; cbn [andb].
    + destruct (Z.eqb_spec i' i) as [->|]; [done|]. rewrite rpage_ne by done. by rewrite Hram.
    + rewrite rpage_ne by done. by rewrite Hram. }
  split; [done|]. split; [apply A2|]. split; [|split; [done|intros i' Hi'; apply Hdir; [done|congruence]]].
  eapply (copied_keeps s s' ds held d i t e'); try done.
  - intros g Hg w. subst s'. cbn [ram set_ram]. rewrite rupd_ne, rpage_ne; [by rewrite Hram| |].
    + intros ->. apply Hg. eapply held_pool; [exact Hok1|apply ms_head].
    + intros ->. apply Hg. by destruct (dir_unique s ds held d Hok Hd).
Qed.

(** The table of [va] ready for the process, as [page_fault.rs] and [mmap.rs]
    make it so. *)
Definition made_private (s s' : vm) (ds : list Z) (held : gmultiset Z) (d i : Z) (n : nat) : Prop :=
  vm_ok s' ds held /\ avail n s' /\ sv s s' ds every /\ keeps s s' ds every /\ priv (ram s' d i) = true /\
  forall i', i' <> i -> ram s' d i' = ram s d i'.

Lemma ensure_pt_ok s ds held d i flags n :
  vm_ok s ds held -> d ∈ ds -> 0 <= i < PD_KERNEL_ENTRIES -> avail (S n) s ->
  wp (ensure_private_pt (d * PAGE_SIZE) i flags) (fun pt s' => made_private s s' ds held d i n /\ pt = fr (ram s' d i) * PAGE_SIZE /\ (pt =? 0) = false /\
    (user flags = true -> priv (ram s d i) = false -> user (ram s' d i) = true)) s.
Proof.
  intros Hok Hd Hi Hav. pose proof Hok as (_ & _ & _ & Hds & _). destruct (Hds d Hd) as [Hdo _]. destruct (Hdo i Hi) as (Hpe & Hre & _).
  unfold ensure_private_pt. rewrite (proj2 (Z.leb_gt _ _)) by lia. apply wp_bind, wp_rd. rewrite has_pres, Hpe, has_priv. cbn [negb].
  destruct (priv (ram s d i)) eqn:Hp; cbn [negb].
  - apply wp_ret. rewrite addr_fr. split; [split_and!; [done|unfold avail in *; lia|apply sv_refl|apply keeps_refl|done|done]|]. split; [done|].
    split; [|done]. apply pool_nz. by destruct (tab_unique s ds held d i Hok Hd Hi Hp).
  - eapply wp_use; [by apply kalloc_ok|]. cbv beta. intros a s1 (t & -> & Hnz & Hpool & Hot & Hs1 & Hav1 & Hok1 & Hrc0 & Hrc). rewrite Hnz.
    assert (Hram : ram s1 = ram s) by by rewrite Hs1. destruct (held_fresh s1 ds held t Hok1 Hot) as [Hnr _].
    assert (Htd : d <> t) by (intros Hx; apply Hnr; rewrite <- Hx; by apply dir_in). destruct (pool_range t Hpool) as (_ & _ & Hfl).
    rewrite !addr_fr. apply wp_bind, wp_copy. apply wp_bind, wp_rd, wp_bind, wp_wr, wp_ret. cbn [ram set_ram]. rewrite rpage_ne by done. rewrite Hram, fr_page by done.
    set (e' := Z.lor (t * PAGE_SIZE) _). destruct (copy_private s s1 ds held d i t e' Hok Hs1 Hok1 Hot Hrc0 Hrc Hd Hi Hp) as (A1 & A2 & A3 & _ & A5).
    { subst e'. frs. } { subst e'. bits. } { subst e'. bits; by rewrite ?Hpe, ?orb_true_r. } { subst e'. bits; by rewrite ?Hre, ?orb_true_r. }
    rewrite Hram in *. assert (Hfe : fr e' = t) by (subst e'; frs).
    split; [split_and!; [exact A1|exact Hav1|exact A2|exact A3| |exact A5]|split; [|split; [done|]]]; cbn [ram set_ram]; rewrite rupd_at, Z.eqb_refl.
    + subst e'. bits.
    + by rewrite Hfe.
    + intros Hu _. subst e'. bits; rewrite ?Hu; by rewrite ?orb_true_r.
Qed.

Lemma ensure_pde_ok s ds held d i n :
  vm_ok s ds held -> d ∈ ds -> 0 <= i < PD_KERNEL_ENTRIES -> avail (S n) s ->
  wp (ensure_pde_private (d * PAGE_SIZE) i) (fun r s' => made_private s s' ds held d i n /\ r = POk (fr (ram s' d i) * PAGE_SIZE)) s.
Proof.
  intros Hok Hd Hi Hav. pose proof Hok as (_ & _ & _ & Hds & _). destruct (Hds d Hd) as [Hdo _]. destruct (Hdo i Hi) as (Hpe & Hre & _).
  unfold ensure_pde_private. rewrite (proj2 (Z.leb_gt _ _)) by lia. apply wp_bind, wp_rd. rewrite has_pres, Hpe, has_priv. cbn [negb].
  destruct (priv (ram s d i)) eqn:Hp.
  - apply wp_ret. rewrite addr_fr. split; [split_and!; [done|unfold avail in *; lia|apply sv_refl|apply keeps_refl|done|done]|done].
  - eapply wp_use; [by apply kalloc_ok|]. cbv beta. intros a s1 (t & -> & Hnz & Hpool & Hot & Hs1 & Hav1 & Hok1 & Hrc0 & Hrc). rewrite Hnz.
    assert (Hram : ram s1 = ram s) by by rewrite Hs1. destruct (held_fresh s1 ds held t Hok1 Hot) as [Hnr _].
    assert (Htd : d <> t) by (intros Hx; apply Hnr; rewrite <- Hx; by apply dir_in). destruct (pool_range t Hpool) as (_ & _ & Hfl).
    rewrite !addr_fr. apply wp_bind, wp_copy. apply wp_bind, wp_rd, wp_bind, wp_wr, wp_ret. cbn [ram set_ram]. rewrite rpage_ne by done. rewrite Hram, fr_page by done.
    set (e' := Z.lor (t * PAGE_SIZE) _). destruct (copy_private s s1 ds held d i t e' Hok Hs1 Hok1 Hot Hrc0 Hrc Hd Hi Hp) as (A1 & A2 & A3 & _ & A5).
    { subst e'. frs. } { subst e'. bits. } { subst e'. bits; by rewrite ?Hpe, ?orb_true_r. } { subst e'. bits; by rewrite ?orb_true_r. }
    rewrite Hram in *. assert (Hfe : fr e' = t) by (subst e'; frs).
    split; [split_and!; [exact A1|exact Hav1|exact A2|exact A3| |exact A5]|]; cbn [ram set_ram]; rewrite rupd_at, Z.eqb_refl; [subst e'; bits|by rewrite Hfe].
Qed.

(** An entry written in a private table. *)
Lemma rpte_write s ds held d i j v :
  vm_ok s ds held -> in_ds ds (SLeaf d i j) -> priv (ram s d i) = true ->
  let s' := set_ram (rupd (ram s) (fr (ram s d i)) j v) s in
  keeps s s' ds (but d i j) /\ rpte s' d i j = v /\ forall d' i', d' ∈ ds -> ram s' d' i' = ram s d' i'.
Proof.
  intros Hok Hin Hp s'. pose proof Hin as (Hd & Hi & Hj). pose proof Hok as (_ & _ & Hk & Hds & _).
  destruct (tab_unique s ds held d i Hok Hd Hi Hp) as (Hpt & _ & Hnd & Hut & _). set (t := fr (ram s d i)) in *.
  assert (Hdir : forall d' i', d' ∈ ds -> ram s' d' i' = ram s d' i').
  { intros d' i' Hd'. subst s'. cbn [ram set_ram]. apply rupd_ne. by apply Hnd. }
  split; [split|split; [|done]].
  - intros d' i' j' (Hd' & Hi' & Hj') Hne. unfold rpte. rewrite (Hdir d' i') by done. subst s'. cbn [ram set_ram].
    destruct (decide (fr (ram s d' i') = t)) as [Ht|Ht]; [|by apply rupd_ne]. rewrite Ht, rupd_at. destruct (Z.eqb_spec j' j) as [->|]; [|done].
    exfalso. apply Hne. destruct (priv (ram s d' i')) eqn:E; [destruct (Hut d' i' Hd' Hi' E Ht); congruence|].
    destruct (Hds d' Hd') as [Hdo _]. destruct (Hdo i' Hi') as (_ & _ & Hx). rewrite E in Hx. destruct (Hk i' Hi') as (_ & _ & _ & Hnp & _).
    by rewrite <- Hx, Ht in Hnp.
  - intros d' i' Hd' Hi' Hp'. by rewrite !Hdir.
  - unfold rpte. rewrite (Hdir d i) by done. subst s'. cbn [ram set_ram]. fold t. by rewrite rupd_at, Z.eqb_refl.
Qed.

(** A page promised on demand, zeroed, for the process. *)
Definition promised : Z := Z.lor (Z.lor PAGE_DEMAND PAGE_ZERO) PAGE_USER.

Lemma write_absent s ds held d i j v :
  vm_ok s ds held -> in_ds ds (SLeaf d i j) -> priv (ram s d i) = true -> pres v = false ->
  let s' := set_ram (rupd (ram s) (fr (ram s d i)) j v) s in
  vm_ok s' ds (leaf (rpte s d i j) ⊎ held) /\ sv s s' ds (but d i j) /\ keeps s s' ds (but d i j) /\ rpte s' d i j = v /\
  forall d' i', d' ∈ ds -> ram s' d' i' = ram s d' i'.
Proof.
  intros Hok Hin Hp Hv s'. pose proof Hin as (Hd & Hi & Hj). destruct (rpte_write s ds held d i j v Hok Hin Hp) as (A1 & A2 & A3).
  destruct (sv_pte s ds held d i j v Hok Hin Hp) as [B1 _]. split; [|done].
  apply (vm_ok_write_pte s ds held _ d i j v); try done.
  - unfold leaf at 1. rewrite Hv. cbn [andb]. by rewrite (left_id_L ∅ (⊎)).
  - unfold pte_ok. rewrite Hv. by intros.
  - by rewrite Hv.
Qed.

Lemma lazy_page_ok s ds held d va flags n :
  let i := pd_index va in let j := pt_index va in
  vm_ok s ds held -> d ∈ ds -> 0 <= va < PCI_HOLE_START -> avail (S n) s -> user flags = true -> (priv (ram s d i) = true -> user (ram s d i) = true) ->
  wp (pt ← ensure_private_pt (d * PAGE_SIZE) i flags;
      if pt =? 0 then mret (Some (-1)) else wr pt j (Z.lor (Z.lor PAGE_DEMAND PAGE_ZERO) (Z.land flags PAGE_USER)) ;; mret None)
    (fun r s' => r = None /\ vm_ok s' ds held /\ avail n s' /\ sv s s' ds (but d i j) /\ keeps s s' ds (but d i j) /\
       rpte s' d i j = promised /\ priv (ram s' d i) = true /\ user (ram s' d i) = true /\ forall i', i' <> i -> ram s' d i' = ram s d i') s.
Proof.
  intros i j Hok Hd Hva Hav Hf Hu. pose proof (at_in ds d va Hd Hva) as Hin. fold i j in Hin. pose proof Hin as (_ & Hi & _).
  eapply wp_use; [by apply (ensure_pt_ok s ds held d i flags n)|]. cbv beta. intros pt s1 ((Hok1 & Hav1 & Hsv1 & Hk1 & Hp1 & Hd1) & -> & -> & Hu1).
  assert (Hu' : user (ram s1 d i) = true).
  { destruct (priv (ram s d i)) eqn:E; [|auto]. destruct Hk1 as [_ Hk1]. destruct (Hk1 d i Hd Hi E) as [_ Hk2]. auto. }
  assert (Hv : Z.lor (Z.lor PAGE_DEMAND PAGE_ZERO) (Z.land flags PAGE_USER) = promised).
  { unfold promised. f_equal. unfold user in Hf. apply Z.bits_inj'. intros k Hk. rewrite Z.land_spec. change PAGE_USER with (2 ^ 2).
    rewrite Z.pow2_bits_eqb by lia. destruct (Z.eqb_spec 2 k) as [<-|]; [by rewrite Hf|by rewrite andb_false_r]. }
  rewrite Hv. apply wp_bind, wp_wr, wp_ret. split; [done|].
  destruct (write_absent s1 ds held d i j promised Hok1 Hin Hp1 eq_refl) as (A1 & A2 & A3 & A4 & A5). rewrite !A5 by done.
  split; [by eapply vm_weaken|]. split; [exact Hav1|]. split; [eapply sv_trans; [by eapply sv_weaken|done]|].
  split; [eapply keeps_trans; [by eapply keeps_weaken|done]|]. split; [done|]. split; [done|]. split; [done|].
  intros i' Hi'. rewrite A5 by done. by apply Hd1.
Qed.

(** Page [p] of a range, and the pages of other spaces or out of the range. *)
Definition pg (addr p : Z) : Z := addr + p * PAGE_SIZE.
Definition outside (d addr n d' i' j' : Z) : Prop :=
  forall p, 0 <= p < n -> but d (pd_index (pg addr p)) (pt_index (pg addr p)) d' i' j'.

Lemma index_div va : pd_index va = (va / PAGE_SIZE / 1024) mod 1024 /\ pt_index va = (va / PAGE_SIZE) mod 1024.
Proof.
  unfold pd_index, pt_index, PAGE_SIZE. change 1023 with (Z.ones 10). rewrite !Z.land_ones, !Z.shiftr_div_pow2 by lia.
  change (2 ^ 22) with (4096 * 1024). change (2 ^ 12) with 4096. change (2 ^ 10) with 1024. by rewrite Z.div_div by lia.
Qed.
Lemma page_of addr n x :
  0 <= addr -> addr mod PAGE_SIZE = 0 -> addr <= x < addr + n * PAGE_SIZE ->
  exists p, 0 <= p < n /\ pd_index x = pd_index (pg addr p) /\ pt_index x = pt_index (pg addr p).
Proof.
  intros Ha0 Hal Hx. exists ((x - addr) / PAGE_SIZE). destruct (index_div x) as [-> ->]. destruct (index_div (pg addr ((x - addr) / PAGE_SIZE))) as [-> ->].
  assert (x / PAGE_SIZE = pg addr ((x - addr) / PAGE_SIZE) / PAGE_SIZE) as <-; [|split; [|done]]; unfold pg, PAGE_SIZE in *; word_lia.
Qed.
Lemma pages_inj addr n p q :
  0 <= addr -> addr mod PAGE_SIZE = 0 -> pg addr n <= 2 ^ 32 -> 0 <= p < n -> 0 <= q < n ->
  pd_index (pg addr p) = pd_index (pg addr q) -> pt_index (pg addr p) = pt_index (pg addr q) -> p = q.
Proof.
  intros H0 Ha Hn Hp Hq. destruct (index_div (pg addr p)) as [-> ->]. destruct (index_div (pg addr q)) as [-> ->].
  unfold pg, PAGE_SIZE in *. rewrite !Z.div_add by lia. assert (addr / 4096 + n <= 2 ^ 20) by word_lia.
  assert (0 <= addr / 4096) by (apply Z.div_pos; lia). set (b := addr / 4096) in *. clearbody b. intros E1 E2.
  rewrite !(Z.mod_small (_ / 1024)) in E1 by word_lia. word_lia.
Qed.

Lemma wp_while (I : Z -> vm -> Prop) addr n (body : Z -> M vm (option Z)) Q :
  0 <= addr -> pg addr n < 2 ^ 32 ->
  (forall k s, 0 <= k < n -> I k s -> wp (body (pg addr k)) (fun r s' => r = None /\ I (k + 1) s') s) -> (forall s, I n s -> Q None s) ->
  forall fuel k va s, va = pg addr k -> 0 <= k <= n -> (Z.to_nat (n - k) < fuel)%nat -> I k s -> wp (while_va fuel va (pg addr n) body) Q s.
Proof.
  intros H0 Hn Hb Hq. induction fuel as [|fuel IH]; intros k va s -> Hk Hf Hs; [lia|]. cbn [while_va].
  assert (Hps : PAGE_SIZE = 4096) by done. destruct (Z.ltb_spec (pg addr k) (pg addr n)) as [Hlt|Hge].
  - eapply wp_use; [apply Hb; [unfold pg in *; lia|exact Hs]|]. cbv beta. intros r s' [-> Hs'].
    apply (IH (k + 1)); [unfold u32; rewrite Z.mod_small; unfold pg in *; lia|unfold pg in *; lia|unfold pg in *; lia|done].
  - apply wp_ret, Hq. replace n with k; [done|]. unfold pg in *. lia.
Qed.

(** The pages of an anonymous mapping: promised, zeroed, in tables of the
    process. *)
Definition promised_range (s : vm) (d addr n : Z) : Prop := forall p, 0 <= p < n ->
  let i := pd_index (pg addr p) in
  rpte s d i (pt_index (pg addr p)) = promised /\ priv (ram s d i) = true /\ user (ram s d i) = true.

(** Tables of the process in the range are user tables. *)
Definition user_tables (s : vm) (d addr n : Z) : Prop := forall p, 0 <= p < n ->
  let i := pd_index (pg addr p) in priv (ram s d i) = true -> user (ram s d i) = true.

Lemma promised_step s s' ds held d addr n k :
  vm_ok s ds held -> d ∈ ds -> 0 <= addr -> addr mod PAGE_SIZE = 0 -> pg addr n <= PCI_HOLE_START -> 0 <= k < n ->
  let i := pd_index (pg addr k) in let j := pt_index (pg addr k) in
  promised_range s d addr k -> keeps s s' ds (but d i j) -> rpte s' d i j = promised -> priv (ram s' d i) = true -> user (ram s' d i) = true ->
  promised_range s' d addr (k + 1).
Proof.
  intros Hok Hd H0 Hal Htop Hk i j Hpr [K1 K2] Hr Hp Hu p Hp1 i'. destruct (decide (p = k)) as [->|Hne]; [done|].
  destruct (Hpr p ltac:(lia)) as (A1 & A2 & A3). assert (Hva : 0 <= pg addr p < PCI_HOLE_START) by (unfold pg, PAGE_SIZE in *; lia).
  pose proof (at_in ds d (pg addr p) Hd Hva) as Hin. destruct (K2 d i' Hd (proj1 (proj2 Hin)) A2) as [B1 B2].
  split; [|auto]. rewrite K1; [done|done|]. intros Heq. apply Hne. injection Heq as E1 E2.
  eapply (pages_inj addr n); [..|exact E1|exact E2]; [done|done| |lia|lia]. unfold PCI_HOLE_START in Htop. lia.
Qed.

Lemma map_zero_ok s ds held d addr n flags m :
  vm_ok s ds held -> d ∈ ds -> 0 <= addr -> addr mod PAGE_SIZE = 0 -> 0 < n -> pg addr n <= USER_STACK_TOP ->
  avail (Z.to_nat n + m) s -> user (u32 flags) = true -> user_tables s d addr n ->
  wp (vmm_map_zero (d * PAGE_SIZE) addr (n * PAGE_SIZE) flags) (fun r s' => r = 0 /\ vm_ok s' ds held /\ avail m s' /\
    sv s s' ds (outside d addr n) /\ keeps s s' ds (outside d addr n) /\ promised_range s' d addr n) s.
Proof.
  intros Hok Hd H0 Hal Hn Htop Hav Hu Hut. assert (Hps : PAGE_SIZE = 4096) by done. assert (Hst : USER_STACK_TOP = 3221225472) by done.
  unfold vmm_map_zero, vmm_map_lazy. rewrite pool_nz by (by eapply dir_unique). rewrite (proj2 (Z.eqb_neq (n * PAGE_SIZE) 0)) by lia. cbn [orb].
  assert (Hstart : Z.land addr ADDR_MASK = addr) by (rewrite mask_div; unfold pg, PAGE_SIZE in *; word_lia).
  assert (Hend : Z.land (sat_add (sat_add addr (n * PAGE_SIZE)) 4095) ADDR_MASK = pg addr n).
  { unfold sat_add. rewrite !Z.min_l by (unfold pg in *; lia). rewrite mask_div; unfold pg, PAGE_SIZE in *; word_lia. }
  rewrite Hstart, Hend. rewrite (proj2 (Z.leb_gt _ _)), (proj2 (Z.ltb_ge _ _)) by (unfold pg in *; lia). cbn [orb]. apply wp_bind.
  apply (wp_while (fun k s1 => vm_ok s1 ds held /\ avail (Z.to_nat (n - k) + m) s1 /\ sv s s1 ds (outside d addr n) /\ keeps s s1 ds (outside d addr n) /\
    promised_range s1 d addr k /\ user_tables s1 d addr n)) with (k := 0); [done|unfold pg in *; lia| | |unfold pg in *; lia|lia| |].
  - intros k s1 Hk (Hok1 & Hav1 & Hsv1 & Hk1 & Hpr1 & Hut1).
    eapply wp_mono; [apply (lazy_page_ok s1 ds held d (pg addr k) (u32 flags) (Z.to_nat (n - (k + 1)) + m)); try done|].
    + unfold pg, PCI_HOLE_START in *. lia.
    + by replace (S _) with (Z.to_nat (n - k) + m)%nat by lia.
    + by apply Hut1.
    + cbv beta. intros r s2 (-> & Hok2 & Hav2 & Hsv2 & Hk2 & Hr2 & Hp2 & Hu2 & Hd2). split; [done|]. split; [done|]. split; [done|].
      split; [eapply sv_trans; [done|eapply sv_weaken; [done|intros; by apply H]]|].
      split; [eapply keeps_trans; [done|eapply keeps_weaken; [done|intros; by apply H]]|].
      split.
      * apply (promised_step s1 s2 ds held d addr n k); try done.
      * intros p Hp i Hpi. subst i. destruct (decide (pd_index (pg addr p) = pd_index (pg addr k))) as [->|Hne]; [done|].
        rewrite Hd2 in * by done. by apply Hut1.
  - intros s1 (Hok1 & Hav1 & Hsv1 & Hk1 & Hpr1 & _). apply wp_ret. split; [done|]. split; [done|]. split; [by rewrite Z.sub_diag in Hav1|]. done.
  - unfold pg in *. word_lia.
  - split; [done|]. split; [by rewrite Z.sub_0_r|]. split; [apply sv_refl|]. split; [apply keeps_refl|]. split; [intros p Hp; lia|done].
Qed.
End Pages.

Section Use.
Context {KI : KernelImage} {KO : KernelImageOk} `{!Reclaim vm, !OomKill} (dev_ok : Z -> bool).

(** A promised page is there at the first access. *)
Lemma promised_access_ok s ds held d va n write act Q :
  let i := pd_index va in let j := pt_index va in
  vm_ok s ds held -> d ∈ ds -> 0 <= va < PCI_HOLE_START -> avail (S n) s ->
  rpte s d i j = promised -> priv (ram s d i) = true -> user (ram s d i) = true ->
  (forall s1 q, avail n s1 -> reached s s1 ds held d i j write q -> wp (act (fr q)) (fun v => Q (Done v)) s1) ->
  wp (user_access dev_ok 1 (task_of d) va write act) Q s.
Proof.
  intros i j Hok Hd Hva Hav Hr Hp Hu Hact. pose proof (at_in ds d va Hd Hva) as Hin. fold i j in Hin.
  destruct (rpte_ok s ds held d i j Hok Hin) as (Hpe & _ & Hup & _). cbn [user_access]. apply wp_bind, wp_gets. cbn [page_directory task_of].
  assert (mmu s (d * PAGE_SIZE) va write = inr (Z.lor PF_USER_BIT (if write then PF_WRITE else 0))) as ->.
  { unfold mmu. rewrite frame_page. fold i j. change (ram s (fr (ram s d i)) j) with (rpte s d i j). by rewrite Hpe, Hr. }
  apply wp_bind. unfold page_fault_handler, on_pf, current_page_dir. wp_steps. cbn [page_directory task_of].
  rewrite pool_nz by (by eapply dir_unique). cbn [negb]. unfold fault_dispatch.
  assert (has (Z.lor PF_USER_BIT (if write then PF_WRITE else 0)) PF_PRESENT = false) as -> by by destruct write.
  cbn [andb negb]. apply wp_bind, wp_ret. cbn [and_pte]. unfold absent_fault. apply wp_bind.
  match goal with |- wp _ _ ?s0 => set (s0' := s0) end.
  eapply wp_pte_get; [exact Hok|done|done|]. fold i j. apply wp_bind. unfold pte_value. apply wp_bind, wp_rd, wp_ret.
  change (ram s0' (fr (ram s0' d i)) j) with (rpte s d i j). rewrite Hr. cbn [and_pte].
  change (swap_pte_is_swapped promised) with false. change (has promised PAGE_DEMAND) with true. cbv iota.
  pose proof (demand_ok s0' ds held d i j write n) as Hdm. cbv zeta in Hdm. change (rpte s0' d i j) with (rpte s d i j) in Hdm. rewrite Hr in Hdm.
  eapply wp_mono; [by apply Hdm|]. cbv beta. intros r s1 (-> & Ha & Hok1 & Hsv & q & Hq & Hrw & Hc). wp_steps.
  cbn [page_directory task_of].
  match goal with |- wp _ _ ?s0 => rewrite (mmu_hit s0 ds held d va q write Hok1 Hd Hva Hq (fun _ => Hrw)) end.
  apply wp_bind, Hact; [exact Ha|]. split; [exact Hok1|]. split; [exact Hsv|]. split; [exact Hq|]. split; [done|]. split; [by right|]. exact Hc.
Qed.

Context `{!MmapFiles}.

Lemma wp_vdo {A} (c : M vm A) Q m : wp c (fun a v => Q a (mk_mms (mk_mfs v (mtab (mf m))) (tabs m))) (mv (mf m)) -> wp (vdo c) Q m.
Proof. unfold wp, vdo, fdo, vmdo. by destruct (c (mv (mf m))) as [[v a]|]. Qed.

Lemma free_region_ok t n i k :
  0 <= k -> k + Z.of_nat n = MMAP_MAX_REGIONS -> free_region n k t = Some i -> 0 <= i < MMAP_MAX_REGIONS /\ r_used (regions t i) = 0.
Proof.
  revert k. induction n as [|n IH]; intros k Hk Hn; [done|]. cbn [free_region]. destruct (Z.eqb_spec (r_used (regions t k)) 0) as [E|E].
  - intros [= <-]. split; [lia|done].
  - apply IH; lia.
Qed.

(** A region recorded in a free slot. *)
Definition recorded (t t' : MmapTable) (i : Z) (r : MmapRegion) : Prop :=
  tab_ok t' /\ (disjoint_regions t -> disjoint_regions t') /\ regions t' i = r /\ forall k, k <> i -> regions t' k = regions t k.

Lemma record_ok t i r :
  tab_ok t -> alloc_region_slot t = Some i -> region_ok r -> vacant t (r_length r) (r_base r) -> r_used r = 1 -> r_end r <= MMAP_LIMIT ->
  let t1 := set_region i r t in
  recorded t (if next_base t1 <? r_end r then set_next (r_end r) t1 else t1) i r.
Proof.
  intros [Hnb Hr] Hs Hro Hv Hu He t1. apply free_region_ok in Hs as [Hi Hfree]; [|done..].
  assert (Hreg : forall k, regions t1 k = if k =? i then r else regions t k) by done.
  match goal with |- recorded _ ?x _ _ => set (t' := x) end. assert (Ht' : forall k, regions t' k = regions t1 k) by (intros k; subst t'; by case_if).
  assert (Huse : forall k, used t' k -> k = i \/ k <> i /\ used t k).
  { intros k [Hk1 Hk2]. rewrite Ht', Hreg in Hk2. destruct (Z.eqb_spec k i); [by left|]. right. by split. }
  assert (Hat : forall k, k <> i -> regions t' k = regions t k).
  { intros k Hk. rewrite Ht', Hreg. by rewrite (proj2 (Z.eqb_neq k i)). }
  assert (Hii : regions t' i = r) by (by rewrite Ht', Hreg, Z.eqb_refl). split; [split|split; [|done]].
  - subst t' t1. assert (MMAP_LIMIT <= USER_STACK_TOP) by done. case_if; b2p; cbn [next_base set_next set_region] in *; lia.
  - intros k Hk. destruct (Huse k Hk) as [->|[Hne Hk']]; [by rewrite Hii|]. rewrite Hat by done. by apply Hr.
  - intros Hd k l Hk Hl Hkl. destruct (Huse k Hk) as [->|[Hnk Hk']], (Huse l Hl) as [->|[Hnl Hl']]; [done| | |].
    + rewrite Hii, Hat by done. destruct (Hv l Hl'); unfold r_end in *; lia.
    + rewrite Hii, Hat by done. destruct (Hv k Hk'); unfold r_end in *; lia.
    + rewrite !Hat by done. by apply Hd.
Qed.

(** Every page of the range lies in a table of the process. *)
Definition own_tables (s : vm) (d addr n : Z) : Prop := forall p, 0 <= p < n -> priv (ram s d (pd_index (pg addr p))) = true.

(** What the process has after an anonymous mapping at [va]. *)
Definition mapped_zero (m m' : mms) (ds : list Z) (held : gmultiset Z) (d tbl i va n : Z) (r : MmapRegion) : Prop :=
  vm_ok (mv (mf m')) ds held /\ sv (mv (mf m)) (mv (mf m')) ds (outside d va n) /\
  recorded (tabs m tbl) (tabs m' tbl) i r /\ own_tables (mv (mf m')) d va n /\
  forall x, va <= x < va + n * PAGE_SIZE ->
    wp (user_load dev_ok (task_of d) x) (fun b v => b = Done 0 /\ vm_ok v ds held /\ sv (mv (mf m)) v ds (outside d va n)) (mv (mf m')).

Lemma promised_load_ok s s' ds held d addr n x m :
  vm_ok s' ds held -> d ∈ ds -> 0 <= addr -> addr mod PAGE_SIZE = 0 -> pg addr n <= PCI_HOLE_START -> avail (S m) s' ->
  sv s s' ds (outside d addr n) -> promised_range s' d addr n -> addr <= x < addr + n * PAGE_SIZE ->
  wp (user_load dev_ok (task_of d) x) (fun b v => b = Done 0 /\ vm_ok v ds held /\ sv s v ds (outside d addr n)) s'.
Proof.
  intros Hok Hd Ha0 Hal Htop Hav Hsv Hpr Hx. assert (Hps : PAGE_SIZE = 4096) by done. unfold user_load.
  destruct (page_of addr n x Ha0 Hal Hx) as (p & Hp & Hi & Hj). destruct (Hpr p Hp) as (P1 & P2 & P3).
  eapply (promised_access_ok s' ds held d x m); [done|done|unfold pg in *; lia|done|by rewrite Hi, Hj|by rewrite Hi|by rewrite Hi|].
  intros s1 q Ha1 (Hok1 & Hsv1 & _ & _ & _ & Hc). apply wp_rd. rewrite Hc. split.
  - unfold words, upte. rewrite Hi, P2. unfold rpte in P1. rewrite Hj, P1. done.
  - split; [done|]. eapply sv_trans; [done|]. eapply sv_weaken; [done|]. intros d' i' j' Ho. rewrite Hi, Hj. by apply Ho.
Qed.

Lemma prot_user prot : user (u32 (prot_to_page_flags prot true)) = true.
Proof. unfold prot_to_page_flags. by destruct (has prot PROT_WRITE). Qed.

(** Tables of the process among the mappings are user tables. *)
Definition mmap_tables (s : vm) (d : Z) : Prop :=
  forall va, MMAP_BASE <= va < MMAP_LIMIT -> priv (ram s d (pd_index va)) = true -> user (ram s d (pd_index va)) = true.

End Use.
