(* ===== verification/MmapUnmap.v ===== *)
(** * Unmapping

    [do_munmap] on a recorded range: the frames are released, each as often as
    the range maps it, the process faults on every access, all other pages of
    all processes stay, and the region shrinks or goes. *)
From stdpp Require Import gmultiset gmap.
From S2P Require Import Prelude StateM Pmm Vmm Swap PageFault VmmSpec VmmOps VmmTrace Memfd Mmap MmapSpec MmapOps.

#[local] Open Scope Z_scope.

(** The frames of the pages [0..n) of a range, with multiplicity. *)
Definition range_frames (s : vm) (d addr n : Z) : gmultiset Z :=
  msum (seqZ 0 n) (fun p => leaf (rpte s d (pd_index (pg addr p)) (pt_index (pg addr p)))).

Section Unmap.
Context {KI : KernelImage} {KO : KernelImageOk} `{!Reclaim vm, !MmapFiles}.

Lemma wp_ret_range (I : Z -> vm -> Prop) n (body : Z -> M vm (option Z)) Q s :
  0 <= n -> I 0 s -> (forall k s, 0 <= k < n -> I k s -> wp (body k) (fun r s' => r = None /\ I (k + 1) s') s) -> (forall s, I n s -> Q None s) ->
  wp (for_ret (seqZ 0 n) body) Q s.
Proof.
  intros Hn Hs Hb Hq. apply (wp_for_ret (fun l s => exists k, l = seqZ k (n - k) /\ 0 <= k <= n /\ I k s)).
  - exists 0. rewrite Z.sub_0_r. split; [done|]. split; [lia|done].
  - intros x r s1 (k & Hl & Hk & HI). destruct (Z.eq_dec k n) as [->|]; [by rewrite Z.sub_diag in Hl|]. rewrite seqZ_cons in Hl by lia. injection Hl as -> ->.
    eapply wp_mono; [apply Hb; [lia|exact HI]|]. cbv beta. intros o s2 [-> HI2]. exists (k + 1). split; [f_equal; lia|]. split; [lia|done].
  - intros s1 (k & Hl & Hk & HI). apply Hq. destruct (Z.eq_dec k n) as [->|]; [done|]. by rewrite seqZ_cons in Hl by lia.
Qed.

(** Releasing a held reference takes one from its count. *)
Lemma free_rc s ds held f :
  vm_ok s ds ({[+ f +]} ⊎ held) ->
  wp (free_pg (f * PAGE_SIZE)) (fun _ s' => s' = set_pm (pm s') s /\ vm_ok s' ds held /\ (forall n, avail n s -> avail n s') /\
    forall g, refcounts (pm s') g = refcounts (pm s) g - Z.of_nat (multiplicity g ({[+ f +]} : gmultiset Z))) s.
Proof.
  intros Hok. pose proof (free_ok s ds held f Hok) as Hf. apply wp_free in Hf as (p & Hp & Hs & Hok' & Hav & Hrc). apply wp_free. exists p.
  split; [done|]. split; [done|]. split; [done|]. split; [done|]. intros g. destruct (decide (g = f)) as [->|Hne].
  - pose proof Hok as (Hinv & _ & _ & _ & o & Hc). assert (Hpool : pool f) by (eapply held_pool; [exact Hok|apply ms_head]).
    destruct (pool_range f Hpool) as (Hr & _). destruct (free_page_ok (pm s) f Hinv Hr (proj1 Hpool)) as (p' & Hp' & _ & Hrc' & _).
    rewrite Hp in Hp'. injection Hp' as <-. cbn [pm set_pm]. rewrite Hrc', mult_one. unfold fupd. rewrite Z.eqb_refl.
    destruct (proj2 Hc f Hpool) as [Hm _]. rewrite !multiplicity_disj_union, mult_one in Hm. case_if; b2p; lia.
  - rewrite mult_ne by done. rewrite Hrc by done. lia.
Qed.

Lemma munmap_page_ok s ds held d va :
  let i := pd_index va in let j := pt_index va in
  vm_ok s ds held -> d ∈ ds -> 0 <= va < PCI_HOLE_START -> priv (ram s d i) = true ->
  wp (munmap_page (d * PAGE_SIZE) va) (fun r s' => r = None /\ vm_ok s' ds held /\ (forall n, avail n s -> avail n s') /\
    sv s s' ds (but d i j) /\ keeps s s' ds (but d i j) /\ rpte s' d i j = 0 /\
    forall g, refcounts (pm s') g = refcounts (pm s) g - Z.of_nat (multiplicity g (leaf (rpte s d i j)))) s.
Proof.
  intros i j Hok Hd Hva Hp. pose proof (at_in ds d va Hd Hva) as Hin. fold i j in Hin. pose proof Hin as (_ & Hi & _).
  destruct (rpte_ok s ds held d i j Hok Hin) as (Hpe & _). unfold munmap_page. fold i j. apply wp_bind, wp_rd. rewrite has_pres, Hpe. cbn [negb].
  apply wp_bind. unfold ensure_pde_private. rewrite (proj2 (Z.leb_gt _ _)) by lia. apply wp_bind, wp_rd. rewrite has_pres, Hpe, has_priv, Hp. cbn [negb].
  apply wp_ret. rewrite addr_fr. apply wp_bind. unfold drop_pte. apply wp_bind, wp_rd. rewrite has_pres, has_user, addr_fr.
  change (ram s (fr (ram s d i)) j) with (rpte s d i j). set (q := rpte s d i j).
  destruct (write_absent s ds held d i j 0 Hok Hin Hp eq_refl) as (A1 & A2 & A3 & A4 & _). fold q in A1. unfold leaf in A1 |- *.
  apply wp_bind. destruct (pres q && user q).
  - apply free_rc in A1. apply wp_free in A1 as (p & Hfree & _ & B2 & B3 & B4). apply wp_free. exists p. split; [exact Hfree|].
    apply wp_wr, wp_ret. split; [done|]. split; [exact B2|]. split; [exact B3|]. split; [exact A2|]. split; [exact A3|]. split; [exact A4|]. exact B4.
  - apply wp_ret, wp_wr, wp_ret. rewrite (left_id_L ∅ (⊎)) in A1. split; [done|]. split; [exact A1|]. split; [done|]. split; [exact A2|].
    split; [exact A3|]. split; [exact A4|]. intros g. rewrite multiplicity_empty. cbn [pm set_ram]. lia.
Qed.

(** The range is unmapped, its frames released. *)
Definition released (s s' : vm) (ds : list Z) (held : gmultiset Z) (d addr n k : Z) : Prop :=
  vm_ok s' ds held /\ (forall m, avail m s -> avail m s') /\ sv s s' ds (outside d addr n) /\ keeps s s' ds (outside d addr k) /\
  (forall p, 0 <= p < k -> rpte s' d (pd_index (pg addr p)) (pt_index (pg addr p)) = 0) /\
  forall g, refcounts (pm s') g = refcounts (pm s) g - Z.of_nat (multiplicity g (range_frames s d addr k)).

Lemma munmap_pages_ok s ds held d addr n :
  vm_ok s ds held -> d ∈ ds -> 0 <= addr -> addr mod PAGE_SIZE = 0 -> 0 <= n -> pg addr n <= PCI_HOLE_START -> own_tables s d addr n ->
  wp (for_ret (seqZ 0 n) (fun p => munmap_page (d * PAGE_SIZE) (u32 (addr + p * PAGE_SIZE))))
    (fun r s' => r = None /\ released s s' ds held d addr n n) s.
Proof.
  intros Hok Hd Ha0 Hal Hn Htop Hown. assert (Hps : PAGE_SIZE = 4096) by done. assert (Hpci : PCI_HOLE_START = 3221225472) by done.
  apply (wp_ret_range (fun k s1 => released s s1 ds held d addr n k)); [done| | |done].
  - split; [done|]. split; [done|]. split; [apply sv_refl|]. split; [apply keeps_refl|]. split; [lia|]. intros g.
    change (range_frames s d addr 0) with (∅ : gmultiset Z). rewrite multiplicity_empty. lia.
  - intros k s1 Hk (Hok1 & Hav1 & Hsv1 & [K1 K2] & Hz1 & Hrc1). assert (Hva : 0 <= pg addr k < PCI_HOLE_START) by (unfold pg in *; lia).
    replace (u32 (addr + k * PAGE_SIZE)) with (pg addr k) by (unfold u32; rewrite Z.mod_small; unfold pg in *; lia).
    pose proof (at_in ds d (pg addr k) Hd Hva) as Hin. pose proof Hin as (_ & Hi & _). destruct (K2 d _ Hd Hi (Hown k Hk)) as [Hp1 _].
    assert (Hne : forall p, 0 <= p < n -> p <> k -> but d (pd_index (pg addr k)) (pt_index (pg addr k)) d (pd_index (pg addr p)) (pt_index (pg addr p))).
    { intros p Hp Hpk Heq. apply Hpk. injection Heq as E1 E2. eapply (pages_inj addr n); [..|exact E1|exact E2]; [done|done|lia|lia|lia]. }
    assert (Hr1 : rpte s1 d (pd_index (pg addr k)) (pt_index (pg addr k)) = rpte s d (pd_index (pg addr k)) (pt_index (pg addr k))).
    { apply K1; [done|]. intros p Hp Heq. apply (Hne p ltac:(lia) ltac:(lia)). congruence. }
    eapply wp_mono; [by apply munmap_page_ok|]. cbv beta. intros r s2 (-> & Hok2 & Hav2 & Hsv2 & Hk2 & Hz2 & Hrc2). rewrite Hr1 in Hrc2.
    split; [done|]. split; [done|]. split; [auto|]. split; [eapply sv_trans; [done|eapply sv_weaken; [done|intros ??? Ho; by apply Ho]]|].
    split; [|split].
    + eapply keeps_trans; [eapply keeps_weaken; [by split|]|eapply keeps_weaken; [done|]]; intros d' i' j' Ho; [|apply Ho; lia].
      intros p Hp. apply Ho. lia.
    + intros p Hp. destruct (decide (p = k)) as [->|Hpk]; [done|]. rewrite (proj1 Hk2); [apply Hz1; lia| |apply Hne; lia].
      apply at_in; [done|unfold pg in *; lia].
    + intros g. rewrite Hrc2, Hrc1. unfold range_frames. rewrite msum_snoc, multiplicity_disj_union by lia. lia.
Qed.

Lemma find_region_ok t (f : MmapRegion -> bool) i n k :
  0 <= k -> k + Z.of_nat n = MMAP_MAX_REGIONS -> k <= i -> used t i -> f (regions t i) = true ->
  (forall j, used t j -> f (regions t j) = true -> j = i) -> find_region n k t f = Some i.
Proof.
  intros Hk Hn Hki Hu Hf Hone. revert k Hk Hn Hki. induction n as [|n IH]; intros k Hk Hn Hki; [destruct Hu; lia|]. cbn [find_region].
  destruct (negb (r_used (regions t k) =? 0) && f (regions t k)) eqn:E.
  - apply andb_prop in E as [E1 E2]. apply negb_true_iff in E1. b2p. f_equal. apply Hone; [|done]. split; [destruct Hu; lia|done].
  - apply IH; [lia|lia|]. destruct (Z.eq_dec k i) as [->|]; [|lia]. rewrite Hf, andb_true_r in E. apply negb_false_iff in E. b2p. by destruct Hu.
Qed.

(** What is left of the region. *)
Definition rest (r : MmapRegion) (addr len : Z) (r' : MmapRegion) : Prop :=
  if (addr =? r_base r) && (r_length r <=? len) then r_used r' = 0
  else r_used r' = r_used r /\ r_flags r' = r_flags r /\ r_prot r' = r_prot r /\ r_fd r' = r_fd r /\ r_shobj r' = r_shobj r /\
    if addr =? r_base r then r_base r' = addr + len /\ r_end r' = r_end r else r_base r' = r_base r /\ r_end r' = addr.

Definition shrunk (t t' : MmapTable) (i addr len : Z) : Prop :=
  tab_ok t' /\ disjoint_regions t' /\ rest (regions t i) addr len (regions t' i) /\ forall k, k <> i -> regions t' k = regions t k.

Lemma rest_ok t i r' addr len :
  tab_ok t -> disjoint_regions t -> used t i -> 0 < len -> aligned addr -> aligned len ->
  r_base (regions t i) <= addr -> addr + len <= r_end (regions t i) -> rest (regions t i) addr len r' -> shrunk t (set_region i r' t) i addr len.
Proof.
  intros [Hnb Hr] Hd Hu Hl Ha1 Ha2 Hb He Hrest. set (t' := set_region i r' t).
  assert (Hat : forall k, k <> i -> regions t' k = regions t k).
  { intros k Hk. cbn. unfold region_upd. by rewrite (proj2 (Z.eqb_neq k i)). }
  assert (Hii : regions t' i = r') by (cbn; unfold region_upd; by rewrite Z.eqb_refl).
  assert (Hin : r_used r' <> 0 -> region_ok r' /\ r_base (regions t i) <= r_base r' /\ r_end r' <= r_end (regions t i)).
  { destruct (Hr i Hu) as (B1 & B2 & B3 & B4 & B5). unfold rest in Hrest. destruct (_ && _) eqn:E; [lia|]. intros _.
    destruct Hrest as (_ & _ & _ & _ & _ & Hx). unfold region_ok, aligned, r_end, PAGE_SIZE in *.
    destruct (Z.eqb_spec addr (r_base (regions t i))); cbn [andb] in *; b2p; destruct Hx as [X1 X2]; split_and!; word_lia. }
  assert (Huse : forall k, used t' k -> used t k /\ region_ok (regions t' k) /\
    r_base (regions t k) <= r_base (regions t' k) /\ r_end (regions t' k) <= r_end (regions t k)).
  { intros k [Hk1 Hk2]. destruct (decide (k = i)) as [->|Hne].
    - rewrite Hii in *. by split; [|apply Hin].
    - rewrite Hat in * by done. assert (used t k) by done. split; [done|]. split; [by apply Hr|lia]. }
  split; [split; [done|]|split; [|split; [by rewrite Hii|done]]].
  - intros k Hk. by apply Huse.
  - intros k l Hk Hl' Hkl. destruct (Huse k Hk) as (U1 & _ & U2 & U3). destruct (Huse l Hl') as (W1 & _ & W2 & W3).
    destruct (Hd k l U1 W1 Hkl); [left|right]; lia.
Qed.

Lemma munmap_region_ok m tbl i addr len :
  let t := tabs m tbl in let r := regions t i in
  tab_ok t -> disjoint_regions t -> used t i -> 0 < len -> aligned addr -> aligned len -> r_base r <= addr -> addr + len <= r_end r -> r_shobj r = 0 ->
  wp (munmap_region tbl i addr len) (fun _ m' => mf m' = mf m /\ shrunk t (tabs m' tbl) i addr len) m.
Proof.
  intros t r Ht Hd Hu Hl Ha1 Ha2 Hb He Hsh. destruct (proj2 Ht i Hu) as (B1 & B2 & B3 & B4 & B5). fold t r in B1, B2, B3, B4, B5.
  assert (Hw : forall x, 0 <= x <= USER_STACK_TOP -> u32 x = x) by (intros x Hx; unfold u32; apply Z.mod_small; change USER_STACK_TOP with 3221225472 in Hx; lia).
  assert (Hfin : forall r', rest r addr len r' -> shrunk t (set_region i r' t) i addr len) by (intros r' Hr'; by apply rest_ok).
  unfold munmap_region, get_tab. apply wp_bind, wp_gets. fold t r. rewrite Hsh. cbn [Z.ltb Z.compare].
  destruct ((addr =? r_base r) && (r_length r <=? len)) eqn:E.
  - unfold on_tab. wp_steps. split; [done|]. cbn [tabs]. rewrite Z.eqb_refl. apply Hfin. unfold rest. by rewrite E.
  - destruct (Z.eqb_spec addr (r_base r)) as [Hab|Hab]; unfold on_tab; wp_steps; (split; [done|]); cbn [tabs]; rewrite Z.eqb_refl; apply Hfin;
      unfold rest; cbn [andb] in E; b2p; unfold r_end in *.
    + rewrite (proj2 (Z.eqb_eq _ _) Hab). cbn [andb]. rewrite (proj2 (Z.leb_gt _ _)) by lia. cbn [r_base r_length r_used r_flags r_prot r_fd r_shobj].
      rewrite !Hw by lia. split_and!; [done..|lia|lia].
    + rewrite (proj2 (Z.eqb_neq _ _) Hab). cbn [andb r_base r_length r_used r_flags r_prot r_fd r_shobj]. rewrite Hw by lia. split_and!; [done..|lia].
Qed.

(** C10: A range of a recorded region that is not backed by a memory file: the
    call returns 0, every frame is released as often as the range maps it,
    every access to the range faults, no other page changes, and the region
    keeps what lies before the range, or what lies behind it when the range
    begins the region. *)
Theorem munmap_exact m ds held d tbl i addr len :
  let n := page_up len / PAGE_SIZE in let t := tabs m tbl in let r := regions t i in
  vm_ok (mv (mf m)) ds held -> d ∈ ds -> tbl <> 0 -> tab_ok t -> disjoint_regions t -> used t i -> 0 < len <= 2 ^ 32 - 4096 -> aligned addr ->
  r_base r <= addr -> addr + n * PAGE_SIZE <= r_end r -> r_shobj r = 0 -> own_tables (mv (mf m)) d addr n ->
  wp (do_munmap (d * PAGE_SIZE) tbl addr len) (fun v m' => v = 0 /\
    released (mv (mf m)) (mv (mf m')) ds held d addr n n /\ shrunk t (tabs m' tbl) i addr (n * PAGE_SIZE) /\
    forall x write, addr <= x < addr + n * PAGE_SIZE -> exists e, mmu (mv (mf m')) (d * PAGE_SIZE) x write = inr e) m.
Proof.
  intros n t r Hok Hd Htbl Ht Hdj Hu Hlen Hal Hb He Hsh Hown. assert (Hps : PAGE_SIZE = 4096) by done.
  destruct (page_up_pages len Hlen) as (Hn & Hpu & Hn32). fold n in Hn, Hpu, Hn32.
  assert (Hst : USER_STACK_TOP = 3221225472) by done. assert (Hpci : PCI_HOLE_START = 3221225472) by done.
  destruct (proj2 Ht i Hu) as (B1 & B2 & B3 & B4 & B5). fold t r in B1, B2, B3, B4, B5. unfold do_munmap.
  rewrite pool_nz by (by eapply dir_unique). rewrite (proj2 (Z.eqb_neq tbl 0)), (proj2 (Z.eqb_neq len 0)) by lia. cbn [orb].
  unfold aligned in Hal. rewrite Hal. cbn [Z.eqb negb]. rewrite Hpu. unfold get_tab. apply wp_bind, wp_gets. fold t.
  rewrite (find_region_ok t _ i); [|done|done|destruct Hu; lia|done| |].
  2:{ fold r. unfold u32. rewrite !Z.mod_small by (unfold r_end in *; lia). apply orb_true_iff. right. apply andb_true_iff. unfold r_end in *. split; b2p; lia. }
  2:{ intros j Hj Hf. destruct (Z.eq_dec j i) as [|Hne]; [done|]. exfalso. destruct (proj2 Ht j Hj) as (J1 & J2 & J3 & _ & _).
      unfold u32 in Hf. rewrite !Z.mod_small in Hf by (unfold r_end in *; lia). fold r in Hdj.
      destruct (Hdj j i Hj Hu Hne) as [Hx|Hx]; fold r in Hx; unfold r_end in *; apply orb_true_iff in Hf as [Hf|Hf]; apply andb_prop in Hf as [F1 F2]; b2p; lia. }
  rewrite Z.div_mul by lia. apply wp_bind, wp_vdo.
  eapply wp_mono; [by apply (munmap_pages_ok (mv (mf m)) ds held d addr n); try done; unfold pg, r_end in *; lia|]. cbv beta.
  intros v s' [-> Hrel]. apply wp_bind. match goal with |- wp _ _ ?m1 => pose proof (munmap_region_ok m1 tbl i addr (n * PAGE_SIZE) Ht Hdj Hu) as Hreg end.
  eapply wp_mono; [apply Hreg; try done; [lia|unfold aligned; apply Z.mod_mul; lia]|]. cbv beta. intros _ m' [Hmf Hshr]. apply wp_ret. rewrite Hmf. cbn [mf mv].
  split; [done|]. split; [done|]. split; [exact Hshr|]. intros x write Hx.
  destruct (page_of addr n x) as (p & Hp & Hi & Hj); [lia|done|done|]. destruct Hrel as (Hok' & _ & _ & _ & Hz & _).
  assert (Hin : in_ds ds (SLeaf d (pd_index x) (pt_index x))) by (apply at_in; [done|unfold r_end in *; lia]).
  destruct (rpte_ok s' ds held d _ _ Hok' Hin) as (Hpe & _). unfold mmu. rewrite frame_page, Hpe. cbn [negb].
  specialize (Hz p Hp). rewrite <- Hi, <- Hj in Hz. unfold rpte in Hz. rewrite Hz. by eexists.
Qed.
End Unmap.
