(* ===== verification/SwapSpec.v ===== *)
(** * The swap area as a store of pages

    Slots of the swap area against a map from slots to the words of pages, for
    every sequence of pages written out, read back and dropped. *)
From S2P Require Import Prelude StateM Pmm Vmm Swap VmmSpec VmmOps.

#[local] Open Scope Z_scope.

(** The pages kept in slots. *)
Notation store := (gmap Z (Z -> Z)).

Definition slot_free (s : vm) (slot : Z) : bool := page_free (g_bitmap (sw s)) slot.

(** Word [w] of slot [slot] on the device. *)
Definition slot_word (s : vm) (slot w : Z) : Z := disk s (slot_to_lba slot + w / 128) (w mod 128).

Definition swap_on (s : vm) (total : Z) : Prop :=
  g_enabled (sw s) <> 0 /\ g_fns (sw s) = true /\ g_total_slots (sw s) = total.

(** The device holds the store: a slot is taken exactly when it has a page. *)
Definition stored (s : vm) (total : Z) (a : store) : Prop :=
  swap_on s total /\
  (forall k, 0 <= k < total -> slot_free s k = false <-> is_Some (a !! k)) /\
  forall k c, a !! k = Some c -> 0 <= k < total /\ forall w, 0 <= w < 1024 -> slot_word s k w = c w.

Section Slots.
Context (total : Z) (Htotal : 0 < total <= SWAP_MAX_SLOTS).

Lemma slot_byte_ok k w : 0 <= k < total -> slot_byte k w = Some (g_bitmap w (k / 8)).
Proof. intros Hk. unfold slot_byte. rewrite (proj2 (Z.ltb_lt _ _)); [done|]. change SWAP_BITMAP_SIZE with 8192. change SWAP_MAX_SLOTS with 65536 in Htotal. word_lia. Qed.
Lemma slot_used_ok k w : 0 <= k < total -> slot_used k w = Some (negb (page_free (g_bitmap w) k)).
Proof.
  intros Hk. unfold slot_used. rewrite slot_byte_ok by done. ob. f_equal. rewrite Z.shiftl_1_l.
  pose proof (has_bit (g_bitmap w (k / 8)) (k mod 8)) as Hb. unfold has in Hb. rewrite Hb by word_lia. unfold page_free. by rewrite negb_involutive.
Qed.

Definition same_but_bitmap (w w' : swap) : Prop := g_enabled w' = g_enabled w /\ g_fns w' = g_fns w /\ g_total_slots w' = g_total_slots w.

Lemma swap_slot_ok n i w :
  0 <= i -> i + Z.of_nat n = total ->
  exists w' r, find_slot n i w = Some (w', r) /\ same_but_bitmap w w' /\
    ((r = NO_SLOT /\ w' = w /\ forall k, i <= k < total -> page_free (g_bitmap w) k = false) \/
     (i <= r < total /\ page_free (g_bitmap w) r = true /\ (forall k, i <= k < r -> page_free (g_bitmap w) k = false) /\
      forall k, page_free (g_bitmap w') k = if k =? r then false else page_free (g_bitmap w) k)).
Proof.
  revert i. induction n as [|n IH]; intros i Hi Hn; cbn [find_slot].
  { eexists _, _. split; [done|]. split; [done|]. left. split; [done|]. split; [done|]. intros k Hk. lia. }
  rewrite slot_used_ok by lia. ob. destruct (page_free (g_bitmap w) i) eqn:E; cbn [negb].
  - unfold slot_write. rewrite slot_byte_ok by lia. ob. eexists _, _. split; [done|]. split; [done|]. right. split; [lia|]. split; [done|]. split; [lia|].
    intros k. cbn [g_bitmap set_sstats set_sbitmap]. apply bitmap_upd. intros b Hb. rewrite Z.lor_spec, Z.shiftl_1_l.
    destruct (Z.eqb_spec b (i mod 8)) as [->|Hne]; [rewrite Z.pow2_bits_true by word_lia; apply orb_true_r|].
    rewrite Z.pow2_bits_false by done. apply orb_false_r.
  - destruct (IH (i + 1)) as (w' & r & -> & Hsame & Hr); [lia|lia|]. exists w', r. split; [done|]. split; [done|].
    assert (Hi' : forall k, i <= k -> k < i + 1 -> page_free (g_bitmap w) k = false) by (intros k H1 H2; by replace k with i by lia).
    destruct Hr as [(-> & -> & Hall)|(Hr & Hf & Hbelow & Hupd)]; [left|right].
    + split; [done|]. split; [done|]. intros k Hk. destruct (Z.eq_dec k i) as [->|]; [done|apply Hall; lia].
    + split; [lia|]. split; [done|]. split; [|done]. intros k Hk. destruct (Z.eq_dec k i) as [->|]; [done|apply Hbelow; lia].
Qed.

Lemma bitmap_free_ok s k :
  0 <= k < total -> g_total_slots (sw s) = total ->
  wp (bitmap_free k) (fun _ s' => s' = set_sw (sw s') s /\ same_but_bitmap (sw s) (sw s') /\
    forall j, page_free (g_bitmap (sw s')) j = if j =? k then true else page_free (g_bitmap (sw s)) j) s.
Proof.
  intros Hk Ht. unfold wp, bitmap_free. rewrite Ht, (proj2 (Z.leb_gt _ _)) by lia. rewrite slot_used_ok by done. ob.
  destruct (page_free (g_bitmap (sw s)) k) eqn:E; cbn [negb].
  - split; [by destruct s|]. split; [done|]. intros j. destruct (Z.eqb_spec j k) as [->|]; done.
  - unfold slot_write. rewrite slot_byte_ok by done. ob. cbn [sw set_sw].
    match goal with |- _ /\ same_but_bitmap _ ?w /\ _ => assert (Hw : same_but_bitmap (sw s) w) by (by case_if);
      assert (Hbm : g_bitmap w = fupd (g_bitmap (sw s)) (k / 8) (Z.land (g_bitmap (sw s) (k / 8)) (Z.lnot (Z.shiftl 1 (k mod 8))))) by (by case_if) end.
    split; [done|]. split; [done|]. intros j. rewrite Hbm. apply bitmap_upd. intros b Hb. rewrite Z.land_spec, Z.lnot_spec, Z.shiftl_1_l by lia.
    destruct (Z.eqb_spec b (k mod 8)) as [->|Hne]; [rewrite Z.pow2_bits_true by word_lia; apply andb_false_r|].
    rewrite Z.pow2_bits_false by done. apply andb_true_r.
Qed.
End Slots.

Section Transfer.
Context (dev_ok : Z -> bool).

(** Words of the eight sectors from [lba] on, by their place in the page. *)
Definition at_word (lba p l w : Z) : bool := (0 <=? w) && (w <? 128) && (0 <=? 128 * (l - lba) + w) && (128 * (l - lba) + w <? p).

Definition wrote (s s' : vm) (f lba p : Z) : Prop :=
  s' = set_disk (disk s') s /\
  forall l w, disk s' l w = if at_word lba p l w && dev_ok l then ram s f (128 * (l - lba) + w) else disk s l w.

Lemma at_word_next lba k j l w : 0 <= j < 128 -> (l, w) <> (lba + k, j) -> at_word lba (128 * k + (j + 1)) l w = at_word lba (128 * k + j) l w.
Proof.
  intros Hj Hne. unfold at_word. destruct (Z.leb_spec 0 w), (Z.ltb_spec w 128); [|done..]. cbn [andb]. f_equal. apply Bool.eq_iff_eq_true.
  rewrite !Z.ltb_lt. split; [|lia]. intros Hlt. destruct (Z.eq_dec (128 * (l - lba) + w) (128 * k + j)) as [E|]; [|lia].
  exfalso. apply Hne. assert (l - lba = k) by word_lia. f_equal; lia.
Qed.
Lemma at_word_here lba k j : 0 <= k -> 0 <= j < 128 -> at_word lba (128 * k + (j + 1)) (lba + k) j = true.
Proof. intros Hk Hj. unfold at_word. replace (lba + k - lba) with k by lia. repeat (apply andb_true_iff; split); b2p; lia. Qed.

Lemma disk_write_ok s f lba :
  0 <= lba -> lba + 8 < 2 ^ 32 ->
  wp (swap_disk_write dev_ok lba (f * PAGE_SIZE) 8) (fun rc s' => rc = 0 /\ wrote s s' f lba 1024) s.
Proof.
  intros H0 H8. unfold swap_disk_write. apply wp_bind.
  apply (wp_for_range (fun k s1 => wrote s s1 f lba (128 * k))); [lia| | |intros s1 Hs1; by apply wp_ret].
  - split; [by destruct s|]. intros l w. unfold at_word. replace (128 * 0) with 0 by lia.
    destruct (Z.leb_spec 0 (128 * (l - lba) + w)), (Z.ltb_spec (128 * (l - lba) + w) 0); rewrite ?andb_false_r; done || lia.
  - intros k s1 Hk Hs1. apply (wp_for_range (fun j s2 => wrote s s2 f lba (128 * k + j))); [lia|by rewrite Z.add_0_r| |
      intros s2; by replace (128 * (k + 1)) with (128 * k + (0 + 128)) by lia].
    intros j s2 Hj [Hs2 Hd2]. apply wp_bind, wp_rd. unfold u32. rewrite Z.mod_small by lia. assert (Hram : ram s2 = ram s) by by rewrite Hs2.
    destruct (dev_ok (lba + k)) eqn:Hdev.
    + apply wp_modify. split; [rewrite Hs2; done|]. intros l w. cbn [disk set_disk]. unfold rupd. rewrite Hram.
      destruct (decide ((l, w) = (lba + k, j))) as [[= -> ->]|Hne].
      * rewrite !Z.eqb_refl, at_word_here, Hdev by lia. cbn [andb]. f_equal. lia.
      * rewrite at_word_next by (done || lia). destruct (Z.eqb_spec l (lba + k)), (Z.eqb_spec w j); cbn [andb]; try apply Hd2. congruence.
    + apply wp_skip. split; [done|]. intros l w. rewrite Hd2. destruct (dev_ok l) eqn:El; rewrite ?andb_false_r, ?andb_true_r; [|done].
      by rewrite at_word_next by (lia || congruence).
Qed.

(** The page as it is read: zeros where the device does not work. *)
Definition page_read (s : vm) (lba w : Z) : Z := if dev_ok (lba + w / 128) then disk s (lba + w / 128) (w mod 128) else 0.
Definition fetched (s s' : vm) (f lba p : Z) : Prop :=
  s' = set_ram (ram s') s /\ forall g w, ram s' g w = if (g =? f) && (0 <=? w) && (w <? p) then page_read s lba w else ram s g w.

Lemma disk_read_ok s f lba :
  0 <= lba -> lba + 8 < 2 ^ 32 ->
  wp (swap_disk_read dev_ok lba (f * PAGE_SIZE) 8) (fun rc s' => rc = 0 /\ fetched s s' f lba 1024) s.
Proof.
  intros H0 H8. unfold swap_disk_read. apply wp_bind.
  apply (wp_for_range (fun k s1 => fetched s s1 f lba (128 * k))); [lia| | |intros s1 Hs1; by apply wp_ret].
  - split; [by destruct s|]. intros g w. replace (128 * 0) with 0 by lia. destruct (Z.leb_spec 0 w), (Z.ltb_spec w 0); rewrite ?andb_false_r; done || lia.
  - intros k s1 Hk Hs1. apply (wp_for_range (fun j s2 => fetched s s2 f lba (128 * k + j))); [lia|by rewrite Z.add_0_r| |
      intros s2; by replace (128 * (k + 1)) with (128 * k + (0 + 128)) by lia].
    intros j s2 Hj [Hs2 Hd2]. apply wp_bind, wp_gets, wp_wr. unfold u32. rewrite Z.mod_small by lia.
    assert (Hdisk : disk s2 = disk s) by by rewrite Hs2. split; [rewrite Hs2; done|]. intros g w. cbn [ram set_ram]. unfold rupd. rewrite Hdisk.
    destruct (Z.eqb_spec g f) as [->|]; cbn [andb]; [|rewrite Hd2, (proj2 (Z.eqb_neq g f)) by done; done].
    destruct (Z.eqb_spec w (128 * k + j)) as [->|Hne].
    + rewrite (proj2 (Z.leb_le _ _)), (proj2 (Z.ltb_lt _ _)) by lia. cbn [andb]. unfold page_read.
      replace ((128 * k + j) / 128) with k by word_lia. by replace ((128 * k + j) mod 128) with j by word_lia.
    + rewrite Hd2, Z.eqb_refl. cbn [andb]. replace (w <? 128 * k + (j + 1)) with (w <? 128 * k + j); [done|]. apply Bool.eq_iff_eq_true. rewrite !Z.ltb_lt. lia.
Qed.
End Transfer.

(** ** Runs *)

(** A page written out, read back into a frame, dropped; a word of a frame
    changed by somebody else. *)
Inductive sop := SOut (f : Z) | SIn (slot f : Z) | SFree (slot : Z) | SPoke (f w v : Z).

Definition sexec (dev_ok : Z -> bool) (o : sop) : M vm (option Z) :=
  match o with
  | SOut f => swap_out_page dev_ok (f * PAGE_SIZE)
  | SIn slot f => r ← swap_in_page dev_ok slot (f * PAGE_SIZE); mret (Some r)
  | SFree slot => swap_free_slot slot ;; mret None
  | SPoke f w v => wr (f * PAGE_SIZE) w v ;; mret None
  end.
Fixpoint sexec_all (dev_ok : Z -> bool) (os : list sop) : M vm (list (option Z)) :=
  match os with [] => mret [] | o :: os => r ← sexec dev_ok o; rs ← sexec_all dev_ok os; mret (r :: rs) end.

Definition first_free (total : Z) (a : store) : option Z := head (filter (fun k => a !! k = None) (seqZ 0 total)).

(** The store and the words of all frames, step by step; only a slot that has
    a page may be read. *)
Definition sspec (total : Z) (o : sop) (x : store * (Z -> Z -> Z)) : option (store * (Z -> Z -> Z) * option Z) :=
  let '(a, mem) := x in
  match o with
  | SOut f => Some (match first_free total a with Some k => (<[k := mem f]> a, mem, Some k) | None => (a, mem, None) end)
  | SIn slot f => c ← a !! slot; Some (delete slot a, rpage mem f c, Some 0)
  | SFree slot => if 0 <=? slot then Some (delete slot a, mem, None) else None
  | SPoke f w v => Some (a, rupd mem f w v, None)
  end.
Fixpoint sspec_all (total : Z) (os : list sop) (x : store * (Z -> Z -> Z)) : option (store * (Z -> Z -> Z) * list (option Z)) :=
  match os with
  | [] => Some (x, [])
  | o :: os => '(x, r) ← sspec total o x; '(x, rs) ← sspec_all total os x; Some (x, r :: rs)
  end.

Definition sholds (s : vm) (total : Z) (x : store * (Z -> Z -> Z)) : Prop :=
  stored s total x.1 /\ forall f w, 0 <= w < 1024 -> ram s f w = x.2 f w.

Lemma filter_none {A} (P : A -> Prop) `{forall x, Decision (P x)} l : (forall x, x ∈ l -> ~ P x) -> filter P l = [].
Proof. intros Hl. induction l as [|x l IH]; [done|]. rewrite filter_cons, decide_False, IH; [done|set_solver..]. Qed.

Lemma first_free_some total a r :
  0 <= r < total -> a !! r = None -> (forall k, 0 <= k < r -> is_Some (a !! k)) -> first_free total a = Some r.
Proof.
  intros Hr Hn Hb. unfold first_free. replace total with (r + (total - r)) by lia. rewrite seqZ_app, list.filter_app by lia.
  assert (filter (fun k => a !! k = None) (seqZ 0 r) = []) as ->.
  { apply filter_none. intros k Hk%elem_of_seqZ Hx. destruct (Hb k ltac:(lia)) as [c Hc]. congruence. }
  rewrite (seqZ_cons (0 + r)) by lia. cbn [app]. rewrite filter_cons, Z.add_0_l. by rewrite decide_True.
Qed.
Lemma first_free_none total a : (forall k, 0 <= k < total -> is_Some (a !! k)) -> first_free total a = None.
Proof.
  intros Hb. unfold first_free. assert (filter (fun k => a !! k = None) (seqZ 0 total) = []) as ->; [|done].
  apply filter_none. intros k Hk%elem_of_seqZ Hx. destruct (Hb k ltac:(lia)) as [c Hc]. congruence.
Qed.

Section Runs.
Context (dev_ok : Z -> bool) (total : Z) (Htotal : 0 < total <= SWAP_MAX_SLOTS).

Lemma lba_ok k : 0 <= k < total -> slot_to_lba k = 1 + 8 * k /\ slot_to_lba k + 8 < 2 ^ 32.
Proof.
  intros Hk. change SWAP_MAX_SLOTS with 65536 in Htotal. unfold slot_to_lba, SWAP_DATA_START_LBA. change (PAGE_SIZE / 512) with 8.
  unfold u32. rewrite (Z.mod_small (k * 8)), Z.mod_small by lia. lia.
Qed.

Lemma enabled_ok s Q : swap_on s total -> Q true s -> wp swap_is_enabled Q s.
Proof. intros (He & _) HQ. unfold swap_is_enabled. apply wp_gets. by rewrite (proj2 (Z.eqb_neq _ _) He). Qed.
Lemma page_aligned f : ((f * PAGE_SIZE) mod PAGE_SIZE =? 0) = true.
Proof. unfold PAGE_SIZE. by rewrite Z.mod_mul by lia. Qed.

Lemma stored_free s s' k a :
  stored s total a -> 0 <= k < total -> disk s' = disk s -> same_but_bitmap (sw s) (sw s') ->
  (forall j, page_free (g_bitmap (sw s')) j = if j =? k then true else page_free (g_bitmap (sw s)) j) -> stored s' total (delete k a).
Proof.
  intros ((E1 & E2 & E3) & Hu & Hc) Hk Hd (W1 & W2 & W3) Hb. split; [split_and!; congruence|]. split.
  - intros j Hj. unfold slot_free. rewrite Hb. destruct (Z.eqb_spec j k) as [->|Hne].
    + rewrite lookup_delete_eq. split; [done|by intros [? ?]].
    + rewrite lookup_delete_ne by done. by apply Hu.
  - intros j c Hj. apply lookup_delete_Some in Hj as [_ Hj]. destruct (Hc j c Hj) as [H1 H2]. split; [done|]. intros w Hw. unfold slot_word. rewrite Hd. by apply H2.
Qed.

(** The device works where the slots are. *)
Context (Hdev : forall l, 1 <= l < 1 + 8 * total -> dev_ok l = true).

Lemma out_ok s a mem f :
  sholds s total (a, mem) ->
  wp (swap_out_page dev_ok (f * PAGE_SIZE)) (fun r s' => exists x, sspec total (SOut f) (a, mem) = Some (x, r) /\ sholds s' total x) s.
Proof.
  intros [Hst Hm]. pose proof Hst as (Hon & Hu & Hc). pose proof Hon as (E1 & E2 & E3). cbn [fst snd] in *. unfold swap_out_page.
  apply wp_bind, enabled_ok; [done|]. rewrite page_aligned. cbn [negb]. apply wp_bind. unfold wp at 1, bitmap_alloc. rewrite E3.
  destruct (swap_slot_ok total Htotal (Z.to_nat total) 0 (sw s)) as (w' & k & -> & (W1 & W2 & W3) & Hk); [lia|lia|]. ob.
  destruct Hk as [(-> & -> & Hall)|(Hk & Hf & Hlow & Hbm)].
  - rewrite Z.eqb_refl. unfold on_stats, on_sw. wp_steps. exists (a, mem). split; [|split; [by split|done]]. cbn [sspec].
    rewrite first_free_none; [done|]. intros k Hk. apply Hu; [done|]. by apply Hall.
  - destruct (lba_ok k) as [Hl Hl8]; [lia|]. rewrite (proj2 (Z.eqb_neq k NO_SLOT)) by (unfold NO_SLOT; change SWAP_MAX_SLOTS with 65536 in Htotal; lia).
    apply wp_bind, wp_gets. cbn [sw set_sw]. rewrite W2, E2. cbn [negb]. apply wp_bind. change (PAGE_SIZE / 512) with 8.
    eapply wp_mono; [apply disk_write_ok; lia|]. cbv beta. intros rc s1 [-> [Hs1 Hd1]]. cbn [Z.eqb negb]. unfold on_stats, on_sw. wp_steps.
    assert (Hnone : a !! k = None).
    { destruct (a !! k) eqn:E; [|done]. assert (slot_free s k = false) as Hx by (apply Hu; [lia|by eexists]). unfold slot_free in Hx. congruence. }
    exists (<[k := mem f]> a, mem). split.
    { cbn [sspec]. rewrite (first_free_some total a k); [done|lia|done|]. intros j Hj. apply Hu; [lia|]. apply Hlow. lia. }
    rewrite Hs1. split; [|exact Hm]. split; [split_and!; cbn; congruence|]. split; cbn [fst].
    + intros j Hj. unfold slot_free. cbn [sw set_sw set_disk g_bitmap set_sstats]. rewrite Hbm. destruct (Z.eqb_spec j k) as [->|Hne].
      * rewrite lookup_insert_eq. split; [by eexists|done].
      * rewrite lookup_insert_ne by done. by apply Hu.
    + intros j c Hj. destruct (decide (j = k)) as [->|Hne].
      * rewrite lookup_insert_eq in Hj. injection Hj as <-. split; [lia|]. intros w Hw. unfold slot_word. cbn [disk set_sw set_disk]. rewrite Hd1, <- (Hm f w Hw).
        rewrite Hdev by word_lia. rewrite andb_true_r. unfold at_word. replace (128 * (slot_to_lba k + w / 128 - slot_to_lba k) + w mod 128) with w by word_lia.
        assert (0 <= w mod 128 < 128) as [M1 M2] by word_lia.
        by rewrite (proj2 (Z.leb_le _ _) M1), (proj2 (Z.ltb_lt _ _) M2), (proj2 (Z.leb_le 0 w)), (proj2 (Z.ltb_lt w 1024)) by lia.
      * rewrite lookup_insert_ne in Hj by done. destruct (Hc j c Hj) as [H1 H2]. split; [done|]. intros w Hw. rewrite <- (H2 w Hw).
        unfold slot_word. cbn [disk set_sw set_disk]. rewrite Hd1. destruct (lba_ok j H1) as [Hlj _].
        replace (at_word (slot_to_lba k) 1024 (slot_to_lba j + w / 128) (w mod 128)) with false; [done|]. symmetry. unfold at_word.
        destruct (Z.leb_spec 0 (128 * (slot_to_lba j + w / 128 - slot_to_lba k) + w mod 128)); rewrite ?andb_false_r; [|done].
        rewrite (proj2 (Z.ltb_ge (128 * _ + _) 1024)); [by rewrite !andb_false_r|word_lia].
Qed.

Lemma in_ok s a mem k f c :
  sholds s total (a, mem) -> a !! k = Some c ->
  wp (swap_in_page dev_ok k (f * PAGE_SIZE)) (fun r s' => r = 0 /\ sholds s' total (delete k a, rpage mem f c)) s.
Proof.
  intros [Hst Hm] Hk. pose proof Hst as (Hon & Hu & Hc). pose proof Hon as (E1 & E2 & E3). destruct (Hc k c Hk) as [Hkr Hkc]. cbn [fst snd] in *.
  destruct (lba_ok k) as [Hl Hl8]; [lia|]. unfold swap_in_page. apply wp_bind, enabled_ok; [done|]. apply wp_bind, wp_gets. rewrite E3. cbn [negb].
  rewrite (proj2 (Z.leb_gt _ _)) by lia. rewrite page_aligned. cbn [negb]. apply wp_bind, wp_gets. rewrite E2. cbn [negb]. apply wp_bind. change (PAGE_SIZE / 512) with 8.
  eapply wp_mono; [apply disk_read_ok; lia|]. cbv beta. intros rc s1 [-> [Hs1 Hr1]]. cbn [Z.eqb negb].
  assert (Hst1 : stored s1 total a) by (rewrite Hs1; exact Hst). apply wp_bind. pose proof Hst1 as ((_ & _ & E31) & _).
  eapply wp_mono; [by apply (bitmap_free_ok total Htotal)|]. cbv beta. intros _ s2 (Hs2 & Hsame & Hbm). unfold on_stats, on_sw. wp_steps. split; [done|].
  split; [apply (stored_free s1 _ k a Hst1 Hkr); [by rewrite Hs2|by destruct Hsame as (?&?&?)|exact Hbm]|].
  intros g w Hw. cbn [ram set_sw snd]. rewrite Hs2. cbn [ram set_sw]. rewrite Hr1. unfold rpage. destruct (Z.eqb_spec g f) as [->|]; cbn [andb]; [|by apply Hm].
  rewrite (proj2 (Z.leb_le _ _)), (proj2 (Z.ltb_lt _ _)) by lia. cbn [andb]. unfold page_read. rewrite Hdev by word_lia. by apply Hkc.
Qed.

Lemma sexec_ok s o x x' r :
  sholds s total x -> sspec total o x = Some (x', r) -> wp (sexec dev_ok o) (fun r' s' => r' = r /\ sholds s' total x') s.
Proof.
  destruct x as [a mem]. intros Hs Hx. destruct o as [f|k f|k|f w v]; cbn [sexec].
  - eapply wp_mono; [by apply out_ok|]. cbv beta. intros r' s' (y & Hy & Hh). rewrite Hx in Hy. by injection Hy as <- <-.
  - cbn [sspec] in Hx. destruct (a !! k) as [c|] eqn:E; [|done]. injection Hx as <- <-. eapply wp_use; [by apply in_ok|]. cbv beta.
    intros r' s' [-> Hh]. by apply wp_ret.
  - cbn [sspec] in Hx. destruct (Z.leb_spec 0 k) as [Hk0|]; [|done]. injection Hx as <- <-. destruct Hs as [Hst Hm]. pose proof Hst as (Hon & _ & Hc). apply wp_bind. unfold swap_free_slot.
    apply wp_bind, enabled_ok; [done|]. cbn [negb]. destruct (Z.lt_ge_cases k total) as [Hk|Hk].
    + eapply wp_mono; [apply (bitmap_free_ok total Htotal); [lia|apply Hon]|]. cbv beta. intros _ s2 (Hs2 & Hsame & Hbm). apply wp_ret. split; [done|].
      split; [eapply stored_free; [done|lia|by rewrite Hs2|done|done]|]. rewrite Hs2. exact Hm.
    + unfold wp at 1, bitmap_free. destruct Hon as (_ & _ & ->). rewrite (proj2 (Z.leb_le _ _)) by lia. apply wp_ret. split; [done|]. split; [|done]. cbn [fst].
      rewrite delete_id; [done|]. destruct (a !! k) as [c|] eqn:E; [|done]. destruct (Hc k c E). lia.
  - injection Hx as <- <-. apply wp_bind, wp_wr, wp_ret. split; [done|]. destruct Hs as [Hst Hm]. split; [exact Hst|]. intros g u Hu. cbn [ram set_ram snd]. unfold rupd.
    destruct (_ && _); [done|by apply Hm].
Qed.

(** C11: any sequence of pages written out, read back and dropped that reads only
    slots in use: every call returns, a page goes to the lowest free slot, and
    what is read back is the page that was written there, whatever happened to
    the frames and the other slots in between. *)
Theorem swap_store_refines os s x x' rs :
  sholds s total x -> sspec_all total os x = Some (x', rs) -> wp (sexec_all dev_ok os) (fun rs' s' => rs' = rs /\ sholds s' total x') s.
Proof.
  revert s x rs. induction os as [|o os IH]; intros s x rs Hs Hx; cbn [sexec_all sspec_all] in *.
  - injection Hx as <- <-. by apply wp_ret.
  - destruct (sspec total o x) as [[x1 r]|] eqn:E1; [|done]. cbn in Hx. destruct (sspec_all total os x1) as [[x2 rs2]|] eqn:E2; [|done]. cbn in Hx. injection Hx as <- <-.
    eapply wp_use; [by eapply sexec_ok|]. cbv beta. intros r' s1 [-> Hs1]. eapply wp_use; [by eapply IH|]. cbv beta. intros rs' s2 [-> Hs2]. by apply wp_ret.
Qed.
End Runs.
