(* ===== verification/VmRuns.v ===== *)
(** * Runs of the memory manager

    The machine of [VmmBoot.v] with memory files, mappings and a swap area:
    concrete states on which the theorems of [VmmBoot.v], [Memfd.v],
    [MmapSpec.v], [MmapOps.v], [MmapUnmap.v] and [SwapSpec.v] apply. *)
From stdpp Require Import gmultiset gmap.
From S2P Require Import Prelude StateM Pmm Vmm Swap PageFault VmmSpec VmmOps VmmFork VmmTrace VmmBoot Memfd Mmap MmapSpec MmapOps MmapUnmap SwapSpec.

#[local] Open Scope Z_scope.
#[local] Existing Instance image.
#[local] Existing Instance image_ok.
#[local] Existing Instance image_tables.
#[local] Existing Instance no_reclaim_vm.
#[local] Existing Instance no_victim.
#[local] Instance no_files : MmapFiles := {| memfd_fd_handle := fun _ => 0; file_page := fun _ _ p => p |}.

(** Boot. *)
Lemma init_paging_identity_witness :
  wp init_paging (fun _ s' => vm_ok s' [] ∅ /\ pm s' = pm vm0 /\ cr3 s' = get_kernel_pd /\
    (forall va, 0 <= va < 2 ^ 32 -> vmm_get_phys 0 va s' = Some (s', va)) /\
    forall va write, 0 <= va < 2 ^ 32 -> exists err, mmu s' get_kernel_pd va write = inr err) vm0.
Proof. apply (init_paging_identity vm0 ∅); [apply vm0_ok|]. destruct vm0_ok as (_ & _ & _ & _ & o & Ho). exists o. rewrite (left_id_L ∅ (⊎)) in *. exact Ho. Defined.

(** ** Memory files *)

Definition no_memfds : Z -> MemFd := fun _ => mk_memfd (fun _ => 0) 0 0 0 (fun _ => 0) 0 0 0 0.
Definition fs0 : mfs := mk_mfs vm0 no_memfds.

Lemma no_refs : fd_refs no_memfds = ∅.
Proof. apply msum_empty. intros k _. done. Qed.
Lemma fs0_ok : mem_ok fs0 (dirs ∅) ∅.
Proof. split; [|by intros k _ Hk]. cbn [mv mtab fs0]. rewrite no_refs, (left_id_L ∅ (⊎)). exact vm0_ok. Qed.
Lemma fs0_shows : mem_shows fs0 (fun _ => None).
Proof. intros k Hk. done. Qed.

Lemma memfd_guarded os s ds held a :
  Forall margs os -> mem_ok s ds held -> mem_shows s a -> avail (Z.to_nat MEMFD_MAX_PAGES * length os) (mv s) -> mguarded os s.
Proof.
  revert s a. induction os as [|o os IH]; intros s a Hm Hok Hsh Hav; [done|]. inversion_clear Hm as [|? ? Ho Hm']. cbn [length] in Hav.
  set (k := Z.to_nat MEMFD_MAX_PAGES) in *. split; [done|]. split; [unfold avail in *; lia|]. intros s' r Hrun.
  pose proof (mexec_ok s ds held a o (k * length os) Hok Hsh Ho) as Hx. fold k in Hx. unfold wp in Hx. rewrite Hrun in Hx.
  destruct Hx as (_ & H1 & H2 & _ & H3); [unfold avail in *; lia|]. by apply (IH s' _ Hm' H1 H2).
Qed.

(** A file written, cut and grown again shows the old bytes. *)
Definition mops : list mop := [MCreate None 0 0; MRef 1; MWrite 1 0 [7; 8; 9]; MTrunc 1 1; MTrunc 1 3; MRead 1 0 8; MClose 1].

Lemma memfd_refines_witness :
  exists s', mexec_all mops fs0 = Some (s', [(1, []); (1, []); (3, []); (0, []); (0, []); (3, [7; 8; 9]); (0, [])]) /\ mem_ok s' [] ∅.
Proof.
  assert (Hg : mguarded mops fs0).
  { eapply memfd_guarded; [|exact fs0_ok|exact fs0_shows|].
    - repeat (apply Forall_cons_2; [cbn [margs]; unfold is_u32, is_u8, zlen; repeat split; repeat (apply Forall_cons_2; [cbn; lia|]); try apply Forall_nil_2; cbn; lia|]); apply Forall_nil_2.
    - pose proof vm0_avail as Ha. unfold avail in *. cbn [mv fs0]. change MEMFD_MAX_PAGES with 1024. cbn [length mops]. lia. }
  destruct (memfd_refines mops fs0 (dirs ∅) ∅ (fun _ => None) fs0_ok fs0_shows Hg) as (s' & H1 & H2 & _). exists s'. split; [|exact H2].
  rewrite H1. do 2 f_equal.
Defined.

(** ** Mappings *)

(** A process without mappings. *)
Definition vm1 : vm := match vmm_create_address_space vm0 with Some (s, _) => s | None => vm0 end.
Definition d1 : Z := 16384.
Definition tab0 : MmapTable := mk_mtable (fun _ => mk_region 0 0 0 0 0 0 0 0) MMAP_BASE.
Definition mm1 : mms := mk_mms (mk_mfs vm1 no_memfds) (fun _ => tab0).

Lemma tab0_ok : tab_ok tab0.
Proof. split; [done|]. by intros i [_ Hi]. Qed.

Lemma created : option_map snd (vmm_create_address_space vm0) = Some (d1 * PAGE_SIZE).
Proof. vm_compute. reflexivity. Qed.

Lemma vm1_ok : vm_ok vm1 [d1] ∅ /\ avail 100 vm1 /\ mmap_tables vm1 d1.
Proof.
  assert (Ha : avail 101 vm0) by (pose proof vm0_avail; unfold avail in *; lia).
  pose proof (space_create_ok vm0 (dirs ∅) ∅ 100 vm0_ok Ha) as Hc. pose proof created as Hd. revert Hc Hd. unfold wp, vm1.
  destruct (vmm_create_address_space vm0) as [[s a]|]; [|done]. intros (d & -> & _ & _ & Hok & Hav & _ & _ & Hk & _) Hd. cbn in Hd.
  assert (d = d1) as -> by (injection Hd as Hd; unfold PAGE_SIZE, d1 in *; lia). split; [exact Hok|]. split; [exact Hav|].
  intros va Hva Hp. pose proof Hok as (_ & _ & Hkern & _). assert (Hi : 0 <= pd_index va < PD_KERNEL_ENTRIES).
  { apply pd_index_range. unfold MMAP_BASE, MMAP_LIMIT, PCI_HOLE_START in *. lia. }
  rewrite Hk in Hp by done. destruct (Hkern _ Hi) as (_ & _ & Hx & _). congruence.
Qed.

Lemma tab0_base : suitable tab0 8192 MMAP_BASE.
Proof. split; [done|]. split; [done|]. by intros i [_ Hi]. Qed.
Lemma tab0_lowest va : MMAP_BASE <= va -> (forall v, MMAP_BASE <= v -> suitable tab0 8192 v -> va <= v) -> va = MMAP_BASE.
Proof. intros H1 H2. specialize (H2 MMAP_BASE ltac:(lia) tab0_base). lia. Qed.

Lemma find_free_va_exact_witness : exists va, find_free_va tab0 8192 = Some va /\ va = MMAP_BASE.
Proof.
  destruct (find_free_va_exact tab0 8192 tab0_ok) as (va & H1 & H2 & H3); [lia|]. exists va. split; [done|].
  destruct (Z.eq_dec va 0) as [E|E]; [by destruct (H3 E MMAP_BASE); [|apply tab0_base]|]. destruct (H2 E) as (A1 & _ & A3). by apply tab0_lowest.
Defined.


(** One page of a region of two given back. *)
Definition tab1 : MmapTable := mk_mtable (fun i => if i =? 0 then mk_region MMAP_BASE 8192 34 3 (-1) 0 1 0 else mk_region 0 0 0 0 0 0 0 0) MMAP_BASE.
Lemma tab1_used i : used tab1 i -> i = 0.
Proof. intros [_ Hi]. cbn in Hi. by destruct (Z.eqb_spec i 0). Qed.
Lemma tab1_ok : tab_ok tab1 /\ disjoint_regions tab1.
Proof.
  split; [split; [done|]|].
  - intros i ->%tab1_used. cbn. unfold region_ok, aligned, r_end. cbn. repeat split; try done; unfold MMAP_BASE, USER_STACK_TOP; lia.
  - by intros i j ->%tab1_used ->%tab1_used.
Qed.

Lemma tab1_region :
  used tab1 0 /\ aligned MMAP_BASE /\ r_base (regions tab1 0) <= MMAP_BASE /\
  MMAP_BASE + page_up 4096 / PAGE_SIZE * PAGE_SIZE <= r_end (regions tab1 0) /\ r_shobj (regions tab1 0) = 0.
Proof. split; [by split|]. split; [done|]. split; [done|]. by split. Qed.

Lemma munmap_exact_witness :
  exists s2 m', new_page (d1 * PAGE_SIZE) MMAP_BASE vm1 = Some (s2, tt) /\
    do_munmap (d1 * PAGE_SIZE) 1 MMAP_BASE 4096 (mk_mms (mk_mfs s2 no_memfds) (fun _ => tab1)) = Some (m', 0) /\
    exists e, mmu (mv (mf m')) (d1 * PAGE_SIZE) (MMAP_BASE + 8) false = inr e.
Proof.
  destruct vm1_ok as (Hok & Hav & _). assert (Ha : avail (S (S 90)) vm1) by (unfold avail in *; lia). assert (Hd : d1 ∈ [d1]) by by left.
  pose proof (new_page_ok (fun _ => true) vm1 [d1] ∅ d1 MMAP_BASE 90 Hok Hd ltac:(split; reflexivity || discriminate) eq_refl Ha) as Hn. cbv zeta in Hn.
  destruct (proj1 (wp_eq _ _ _) Hn) as (s2 & [] & Hrun & Hok2 & _ & _ & v & Hv & _). exists s2. apply upte_inv in Hv as [Hp _].
  destruct tab1_ok as [Ht Hdj]. set (m := mk_mms (mk_mfs s2 no_memfds) (fun _ => tab1)).
  assert (Hown : own_tables (mv (mf m)) d1 MMAP_BASE (page_up 4096 / PAGE_SIZE)).
  { change (page_up 4096 / PAGE_SIZE) with 1. intros p Hp1. replace p with 0 by lia. exact Hp. }
  pose proof (munmap_exact m [d1] ∅ d1 1 0 MMAP_BASE 4096) as Hm. cbv zeta in Hm.
  destruct tab1_region as (T1 & T2 & T3 & T4 & T5). specialize (Hm Hok2 Hd ltac:(lia) Ht Hdj T1 ltac:(lia) T2 T3 T4 T5 Hown).
  destruct (proj1 (wp_eq _ _ _) Hm) as (m' & r & Hm1 & Hr & _ & _ & Hf). rewrite Hr in Hm1. exists m'. split; [exact Hrun|]. split; [exact Hm1|]. apply Hf.
  change (page_up 4096 / PAGE_SIZE) with 1. unfold PAGE_SIZE. lia.
Defined.

(** ** Swap *)

(** Four slots; a page goes out, its frame is used again, the page comes back
    elsewhere. *)
Definition vm2 : vm := set_sw (mk_swap (fun _ => 0) 4 1 (mk_sws 4 0 0 0 0) 32 0 true) (set_ram (fun f w => f + w) vm0).
Definition sops : list sop := [SOut 20000; SPoke 20000 0 5; SIn 0 20001].

Lemma vm2_holds : sholds vm2 4 (∅, fun f w => f + w).
Proof.
  split; [|done]. split; [done|]. split; [|by intros k c Hk].
  intros k Hk. unfold slot_free, page_free. cbn. rewrite Z.bits_0. split; [done|by intros [? ?]].
Qed.

Lemma swap_store_refines_witness :
  exists s', sexec_all (fun _ => true) sops vm2 = Some (s', [Some 0; None; Some 0]) /\ forall w, 0 <= w < 1024 -> ram s' 20001 w = 20000 + w.
Proof.
  assert (Ht : 0 < 4 <= SWAP_MAX_SLOTS) by done. pose proof (swap_store_refines (fun _ => true) 4 Ht (fun _ _ => eq_refl) sops vm2 _ _ _ vm2_holds eq_refl) as H.
  destruct (proj1 (wp_eq _ _ _) H) as (s' & r & Hrun & Hr & _ & Hm). exists s'. rewrite Hr in Hrun. split; [exact Hrun|]. intros w Hw. exact (Hm 20001 w Hw).
Defined.

(** ** Copy on write and [mprotect] *)

(** A page of the heap, a fork, the parent asks for the page to be writable and
    stores 9: what the child then loads. *)
Definition protect_run : M mms (list result) :=
  d ← vdo vmm_create_address_space;
  vdo (new_page d va0) ;;
  c ← vdo vmm_create_address_space;
  vdo (vmm_fork_address_space d c) ;;
  r ← do_mprotect d 1 va0 4096 3 va0 (va0 + 4096);
  r1 ← vdo (user_store (fun _ => true) (mk_task 0 1 d) va0 9);
  r2 ← vdo (user_load (fun _ => true) (mk_task 0 2 c) va0);
  mret [Done r; r1; r2].

